(* ===== verification/_CoqProject ===== *)
-Q . S2P
Prelude.v
OrderedMap.v
Wire.v
IpAddress.v
IpAddressProps.v
BfcpAttr.v
BfcpMsg.v
BfcpAttrProps.v
BfcpAttrRound.v
BfcpMsgRound.v
BfcpServer.v
BfcpCodecClaims.v
BfcpFloorSpec.v
BfcpServerRefine.v
BfcpServerProps.v
BfcpConference.v
BfcpGuarantees.v
BfcpAnswers.v
BfcpLeg.v
BfcpUdp.v
BfcpUdpClaims.v
BfcpTcp.v
BfcpTcpClaims.v
SharedDoc.v
SharedDocProps.v
SharedDocClaims.v
Octets.v
RtpPacket.v
RtpClaims.v
TransportFeedback.v
TransportFeedbackClaims.v
RtcpField.v
RtcpPacket.v
RtcpProps.v
RtcpRound.v
RtcpPacketRound.v
RtcpClaims.v
RtpBuffer.v
RtpBufferClaims.v
RedCodec.v
RedCodecClaims.v
BitStream.v
BitStreamClaims.v
FecDecoder.v
FecClaims.v
RtmpFormat.v
RtmpMedia.v
RtmpMediaProps.v
Amf.v
AmfRead.v
RtmpMessage.v
RtmpChunk.v
RtmpChunkProps.v
RtmpConnection.v
RtmpParse.v
RtmpReceive.v
RtmpSync.v
RtmpParseClaims.v
RtmpLinkClaims.v
RtmpCommandClaims.v
UseLock.v
UseLockClaims.v
Mosaic.v
MosaicLaws.v
MosaicClaims.v
MosaicGeometry.v
MosaicGeometryClaims.v
VideoMixer.v
VideoMixerProps.v
VideoMixerClaims.v
VideoMixerLocks.v
HttpParse.v
HttpParseProps.v
WebSocketFrame.v
WebSocket.v
WebSocketRead.v
WebSocketClaims.v
WebSocketServer.v
WebSocketOpenClaims.v
WebSocketServerClaims.v
