(* ===== verification/Prelude.v ===== *)
(** * Verification of the media server

    The program is a media server for SIP conferences (C++, src/mcu).  Its control part
    answers XML-RPC calls and builds conferences; a conference mixes the media of its
    participants, which arrive as RTP packets, and arbitrates who may share a document with
    the Binary Floor Control Protocol.  This library models the floor control subsystem
    completely enough to verify it end to end, from octets on a socket to the notifications
    of the chair, the document sharing that listens to it, the IP addresses every socket is
    built on, and the packet layer of the media: RTP and RTCP packets, the feedback on
    arrivals, the reordering buffer, redundant text and forward error correction; the RTMP
    connections over which Flash clients send and receive the same media; and the video mixer
    with its mosaics and the lock the mixers share.

    ** The parts and how they interact

    - A [BFCPFloorControlServer] (one per conference) keeps the users, the floors and the
      floor requests.  The conference calls it (add a user, grant, deny, revoke, end); the
      transports call it (a message arrived, a transport closed); it calls transports back
      ([Send], [Close]) and a listener, the chair's application.
    - A transport is a [BFCPUdpEndpoint] or a [BFCPTcpConnection]; connections belong to a
      [BFCPTcpListener].  A reactor (not modelled) tells them that a socket is readable or
      writable, or that time passed.
    - Messages are classes under src/mcu/src/bfcp/messages over attributes under
      src/mcu/src/bfcp/attributes, parsed and serialised by virtual functions.
    - [SharedDocMixer] (one per conference) owns the server and its transports, is its
      listener, and tells the conference who presents.
    - [IPAddress] and [IPEndpoint] are the addresses the UDP endpoint latches on.
    - An RTP session (not modelled: sockets, SRTP, threads) makes [RTPPacket]s of what it
      receives, gives them to an [RTPBuffer], from which a stream takes them in order; video
      goes through [FECDecoder] first, which restores lost packets, and text through
      [RedundentCodec], which does so from redundancy.  It parses and writes RTCP compounds;
      [TransportWideFeedbackGenerator] reports arrivals to the peer and [SentPacketHistory]
      reads such reports.
    - An [RTMPConnection] reads a handshake and then chunks, from which its
      [RTMPChunkInputStream]s rebuild messages: control messages change the connection,
      commands (in AMF) go to the application and its streams, frames to the streams.  What it
      sends is queued in [RTMPChunkOutputStream]s, which the writing thread cuts into chunks.
    - A [VideoMixer] (one per conference) owns [Mosaic]s: slots in which participants are shown,
      fixed by the control interface or moved by their voice activity.  Decoders put pictures in
      a [PipeVideoOutput] per participant; the mixing thread copies them to the slots and hands
      the composition to whoever watches the mosaic.  The control interface and the mixing
      thread share the participants under a [Use], a counter of readers with one writer.

    ** The files

    - Prelude: machine integers, buffers, tactics and shared lemmas.
    - OrderedMap: [std::map<int, T>] and [std::set<int>], as sorted association lists.
    - Wire: [get2], [get4], [set2], [set4] of the absent libmedkit submodule, as the class
      [WireOps] with the laws [WireLaws]; [network_order] is an instance of both.  Octets: the
      other accessors ([MoreWireOps]), and the monad [checked], in which a read outside the
      octets received is a [Fault] and a refusal of the code is [Refuse].
    - IpAddress, IpAddressProps: src/mcu/src/ipaddress.cpp, and its guarantees.
    - BfcpAttr: src/mcu/src/bfcp/BFCPAttribute.cpp and attributes/.  BfcpMsg:
      src/mcu/src/bfcp/BFCPMessage.cpp and messages/.  A class hierarchy is an inductive
      type ([MsgBody]), a virtual function a match; [Failed] and [NULL] are [None].
    - BfcpAttrProps: the attribute grammar.  BfcpAttrRound, BfcpMsgRound, BfcpParseWf: round
      trips and well-formedness.  BfcpCodecClaims: what the codec guarantees.
    - BfcpServer: BFCPFloorControlServer.cpp, BFCPUser.cpp, BFCPFloorRequest.cpp.  The
      server is the record [Server]; a method is a function in the monad [M] over the state,
      the calls made to transports and the notifications queued; [run] is the call under
      the mutex followed by [Fire].
    - BfcpFloorSpec: the contract, an abstract machine ([astep]) with its invariant [Inv].
      BfcpServerRefine, BfcpServerProps: each method and each message handler implements
      it.  BfcpConference: all the calls as one type [Op] and the reachable states [reach].
      BfcpGuarantees, BfcpAnswers: what follows for a conference.
    - BfcpLeg: a transport and the server together; the class [Transport] is what the
      server needs of a transport.  BfcpUdp, BfcpUdpClaims and BfcpTcp, BfcpTcpClaims:
      BFCPUdpTransport.cpp and BFCPTcpTransport.cpp.
    - SharedDoc, SharedDocProps, SharedDocClaims: shareddocmixer.cpp.  A call into the server
      runs the callbacks it fires, and the calls those make; what the mixer asks of the
      conference is a list of events.
    - RtpPacket, RtpClaims: [RTPPacket], [RTPTimedPacket], [RTPRedundantPacket]
      and [RTPMap] (include/rtp.h, src/rtp.cpp).
    - RtcpField (the fields of feedback packets), RtcpPacket (the packets and compounds),
      RtcpProps, RtcpRound, RtcpPacketRound, RtcpClaims: the RTCP half of rtp.h and rtp.cpp.
    - TransportFeedback, TransportFeedbackClaims: transportfeedback.cpp
      and sentpackethistory.cpp.
    - RtpBuffer, RtpBufferClaims: include/rtpbuffer.h.  [Wait] is a series of rounds between
      which the other threads' calls run; what happens to packets is a list of [Effect]s.
    - RedCodec, RedCodecClaims: redcodec.cpp.  BitStream, BitStreamClaims:
      include/bitstream.h.  FecDecoder, FecProps, FecClaims: fecdecoder.cpp and fecdecoder.h.
    - RtmpFormat: the headers and control messages of include/rtmp.h.  RtmpMedia: the frames of
      rtmpmessage.cpp; RtmpMessage: its commands, metadata and messages.  Amf: amf.cpp.
      RtmpChunk: rtmpchunk.cpp.  RtmpConnection (rtmphandshake.h, state, control
      messages, commands, callbacks) and RtmpParse ([ParseData], [SerializeChunkData], the rounds
      of [WriteData]): rtmpconnection.cpp.  A round of [ParseData] is [parse_step]; calls to
      the application are the log [cn_log].
    - RtmpParseClaims: the reader on any input.  RtmpMediaProps, RtmpChunkProps,
      RtmpReceive, RtmpSync, RtmpLinkClaims: a frame piece by piece, the octets of a
      chunk, what the reader does with it, the relation between a sender and a reader
      ([in_sync], [linked]), and that frames arrive.  AmfRead ([amf_value], [amf_octets]),
      RtmpCommandClaims: values and commands are read as written.
    - UseLock: include/use.h, each thread a place in the code ([pc]), a step what it does between
      two operations on the mutexes.  UseLockClaims: the invariant of all interleavings,
      exclusion, hand-over, and that nobody is forgotten.
    - Mosaic: slots and positions of mosaic.cpp.  MosaicLaws: every operation stays in range.
      MosaicClaims: slots and positions agree.  MosaicGeometry: the rectangles of
      partedmosaic.cpp, asymmetricmosaic.cpp and pipmosaic.cpp and the placement of a picture;
      MosaicGeometryClaims: pictures stay in their slots and apart.
    - VideoMixer: videomixer.cpp and pipevideooutput.cpp; a [Mosaic *] is an address and [vm_heap]
      what is alive.  VideoMixerProps, VideoMixerClaims: nothing dangles, slots
      show who is in them.  VideoMixerLocks: the order of the two locks.

    ** What the theorems show

    - The server refines the abstract machine whatever is called in whatever order; every
      reachable state is consistent (no floor granted twice, at most one chair, no request
      of a missing user); the notifications alone tell who holds which floor; each
      operation has exactly its effect; every request is answered; an ended conference is
      inert.
    - The codec reads exactly the attribute grammar and ends on every input, parses back
      what it writes, accepts only well-formed messages, never writes past its buffer.
    - Over UDP retransmission is bounded and ends, the reactor wakes in time, a request is
      served once however often it is received, a silent peer loses its floors, strangers
      are ignored.  Over TCP the stream is delivered in order, the cutting of the stream
      does not matter, the messages handed up are those sent, the message loop ends, and no
      user keeps a destroyed connection.
    - The conference shows exactly the participant the mixer presents, which holds a granted
      request; accepting a request and stopping have the stated outcome on every branch.  Two
      theorems record defects: a destroyed endpoint is called, a third party's floor stays.
    - Mapped and plain IPv4 addresses are the same peer, the order of addresses is fit for
      a map, prefixes compare leading bits, kernel addresses are read back.
    - A received RTP packet is accepted exactly when its announced lengths fit, its media and
      its redundant blocks lie inside the octets received, and the two readers of the MID
      agree.  RTCP parsing stays inside the compound whatever it holds, serialisation inside
      its buffer; compounds that fit are read back; announced bitrates are close to the real.
    - Arrival times reach the sender: a report built by the generator, written, read and
      processed by the history gives each packet's arrival, and nothing pending is forgotten.
    - The reordering buffer disposes of each packet once, delivers in order, and without gaps
      as long as nothing is late; a hole delays the stream by [maxWaitTime] at most.  Redundant
      text survives two losses in a row.  A bit reader is a list of bits, what the bit writer
      writes is read back, exponential Golomb codes are decoded.  Forward error correction
      rebuilds the missing packet.
    - Theorems such as [truncated_red_exposes_a_block], [unpadded_packets_are_lost],
      [late_packets_add_up], [encoder_overruns], [codes_are_lost_after_a_cycle] record defects
      of the code on concrete inputs.
    - The reader of RTMP ends and stays inside its buffers on any input, but for the bodies in
      AMF; frames that one connection sends come out of its peer, all of them, once, unchanged
      and each stream in its order, however their chunks interleave; commands are read as they
      were written; the digest of a handshake verifies.  RtmpLinkClaims and RtmpCommandClaims
      end with what happens outside of these conditions ([extended_timestamp_is_lost],
      [short_chunk_loses_the_peer], [empty_command_crashes], [typed_object_has_no_end], ...).
    - Under [Use], in every interleaving, a writer is alone, nested readers never sleep, a writer
      whose readers left is not overtaken, the threads come to rest in a bounded number of steps,
      and at rest nobody waits but for a caller in its section.
    - Whatever is called on a mosaic it stays in range; after a recalculation slots and positions
      agree and nobody is left out while a slot is free; pictures lie in their slots and do not
      overlap.  Whatever is called on a video mixer, with passes of its thread in between, no
      destroyed mosaic is used; after a change of layout each slot shows who is in it.
      [fixing_in_place_frees], [replaced_slot_is_stale], [column_of_four_overlaps] and [deadlock]
      are runs in which the code goes wrong.

    ** Parameters

    Code outside the repository is a parameter: [WireOps] and [MoreWireOps] (libmedkit; bit
    streams also ask that it is in network order, [NetworkOrder]), [FrameOps] (frames of
    libmedkit), [VideoCodecs] (its codes), [NetOps] (the resolver and [inet_pton]),
    [SocketOps] (whether a [sendto] succeeds), [TransportOps] (what the server sees of a
    transport: is it reliable, does [Send] succeed).  The results of [recv], [recvfrom] and
    [send] are lists of what the calls return; octets of memory nobody wrote are arguments
    ([mem]); the result of a shift by the width of its operand, undefined in C++, is the
    parameter [ShiftOps].  RTMP asks for [UTF8Ops] (the string parser of libmedkit, with
    [UTF8Laws]), [Hmac] (OpenSSL), [Memory] (what a new block or field holds; the two ends of a
    connection have their own) and [RtmpEnv] (clock, random octets, the application's
    answers).  The voice activity and the clock are arguments of a pass of the video mixer;
    an [index] that code leaves unset is the argument [garbage].  Theorems hold for every value of the parameters that satisfies the
    stated laws; each has a witness at concrete values.

    ** Fuel and bounds

    The attribute loop has the length of the buffer plus one as fuel
    ([walker_reads_the_grammar] shows it is never short: an attribute takes two octets or
    more); so has the message loop of a TCP connection ([message_loop_ends]).  The loops of
    RTP and RTCP parsing have the length of the data, and running out of fuel is a [Fault],
    which the theorems on these parsers exclude; the loop of [xor_loop] has the 64 bits of a
    mask, [count_zeros] one more than the bits left.  The loop of [ParseData] has three rounds
    for each octet ([parse_loop_ok]: a round takes an octet or moves to the next part of a
    chunk), the parser of AMF three for each octet ([parser_reads] on the octets of a value),
    [values_loop] two for each octet.  The decimal
    printer has 20 digits, enough for 64 bits; the callbacks of the mixer nest one level
    ([exec_asked_last]: only a request makes a callback call the server, and what that call
    fires is no request).  Integers that meet the wire are cut to
    their width by [to_byte], [to_word], [to_int32]; times are 64-bit microseconds cut by
    [to_qword] (the theorems on time ask for a clock that has not wrapped, [clock]).  The
    request counter of the server is a C++ [int] kept as [Z].

    ** What is not modelled

    Logging ([Dump] and the names of codes), the reactor and its wake-ups, locking (every call
    of the server and of the buffer holds its mutex from beginning to end, or until it sleeps,
    so calls are atomic; operations of the mixers are taken to be atomic, and the lock that
    makes those of the video mixer so is a model of its own),
    memory management except where a theorem says so.  Of the packet layer: the conversions of
    NTP times and of the delay since the last report in milliseconds (floating point), the
    adapters to depacketisers, the VLC tables of the bit reader.  Of RTMP: the threads and
    their sockets, the measure of the bandwidth, the constructors of frames from AVC and AAC
    configurations, the applications and streams above the connection.  Of the mosaics:
    overlays and the composition of pixels (avfilter).  Outside these
    parts, the rest of the server: RTP sessions, the audio and text mixers, WebSocket,
    recording, speech and the control interfaces.  The next parts in the plan: WebSocket
    frames, the bookkeeping of RTP sessions, the text multiplexer, the FIFO and the event
    queues. *)

From stdpp Require Export base tactics list numbers option sets.
From Stdlib Require Export ZArith Lia Sorted.
From Stdlib Require String Ascii.

#[global] Open Scope Z_scope.

(** ** Machine integers

    A [w]-bit unsigned integer is a [Z] and every conversion to the width is
    written out; [to_int32] is the conversion of a 32-bit pattern to [int]. *)

Definition to_byte (z : Z) : Z := z mod 2 ^ 8.
Definition to_word (z : Z) : Z := z mod 2 ^ 16.
Definition to_dword (z : Z) : Z := z mod 2 ^ 32.
Definition to_qword (z : Z) : Z := z mod 2 ^ 64.
Definition to_int16 (z : Z) : Z := (z + 2 ^ 15) mod 2 ^ 16 - 2 ^ 15.
Definition to_int32 (z : Z) : Z := (z + 2 ^ 31) mod 2 ^ 32 - 2 ^ 31.

Definition is_byte (z : Z) : Prop := 0 <= z < 2 ^ 8.
Definition is_word (z : Z) : Prop := 0 <= z < 2 ^ 16.
Definition is_dword (z : Z) : Prop := 0 <= z < 2 ^ 32.
Definition is_int32 (z : Z) : Prop := - 2 ^ 31 <= z < 2 ^ 31.

#[global] Instance is_byte_dec z : Decision (is_byte z).
Proof. unfold is_byte. apply _. Defined.
#[global] Instance is_word_dec z : Decision (is_word z).
Proof. unfold is_word. apply _. Defined.
#[global] Instance is_int32_dec z : Decision (is_int32 z).
Proof. unfold is_int32. apply _. Defined.

(** A byte buffer, and its length as the [size_t] the code computes with. *)
Abbreviation bytes := (list Z).
Definition Zlen {A} (l : list A) : Z := Z.of_nat (length l).
Definition bytes_ok (l : bytes) : Prop := Forall is_byte l.

(** [data + n] and the first [n] elements, for [n : Z] offsets. *)
Definition zdrop {A} (n : Z) (l : list A) : list A := drop (Z.to_nat n) l.
Definition ztake {A} (n : Z) (l : list A) : list A := take (Z.to_nat n) l.
(** [data[n]]; only used under a bounds test of the code. *)
Definition zget (n : Z) (l : bytes) : Z := default 0 (l !! Z.to_nat n).

(** The octets of a string literal. *)
Definition octets (s : String.string) : bytes :=
  (λ a, Z.of_N (Ascii.N_of_ascii a)) <$> String.list_ascii_of_string s.
Arguments octets s%_string_scope.
Export String.StringSyntax.

(** ** Tactics *)

Create HintDb media.
Create Rewrite HintDb zlen.

(** Case analysis on the boolean tests of the code, turned to propositions. *)
Ltac ztests :=
  repeat match goal with
  | H : (_ =? _) = true |- _ => apply Z.eqb_eq in H
  | H : (_ =? _) = false |- _ => apply Z.eqb_neq in H
  | H : (_ <? _) = true |- _ => apply Z.ltb_lt in H
  | H : (_ <? _) = false |- _ => apply Z.ltb_ge in H
  | H : (_ <=? _) = true |- _ => apply Z.leb_le in H
  | H : (_ <=? _) = false |- _ => apply Z.leb_gt in H
  | H : (_ && _) = true |- _ => apply andb_true_iff in H as [? ?]
  | H : (_ || _) = false |- _ => apply orb_false_iff in H as [? ?]
  | H : negb _ = true |- _ => apply negb_true_iff in H
  | H : negb _ = false |- _ => apply negb_false_iff in H
  | H : bool_decide _ = true |- _ => apply bool_decide_eq_true in H
  | H : bool_decide _ = false |- _ => apply bool_decide_eq_false in H
  end.

(** Destruct the scrutinee of the first [if] or [match] of the goal. *)
Ltac case_goal :=
  match goal with
  | |- context [if ?b then _ else _] => destruct b eqn:?
  | |- context [match ?x with _ => _ end] => destruct x eqn:?
  end.

(** ** Lemmas on the integer conversions *)

Lemma to_byte_range z : is_byte (to_byte z).
Proof. apply Z.mod_pos_bound. lia. Qed.

Lemma to_word_range z : is_word (to_word z).
Proof. apply Z.mod_pos_bound. lia. Qed.

Lemma to_byte_id z : is_byte z → to_byte z = z.
Proof. apply Z.mod_small. Qed.

Lemma to_word_id z : is_word z → to_word z = z.
Proof. apply Z.mod_small. Qed.

Lemma to_dword_id z : is_dword z → to_dword z = z.
Proof. apply Z.mod_small. Qed.

Lemma to_int32_dword z : is_int32 z → to_int32 (to_dword z) = z.
Proof.
  unfold is_int32, to_int32, to_dword. intros Hz.
  rewrite Zplus_mod_idemp_l, Z.mod_small; lia.
Qed.

Lemma to_int32_range z : is_int32 (to_int32 z).
Proof.
  unfold is_int32, to_int32.
  pose proof (Z.mod_pos_bound (z + 2 ^ 31) (2 ^ 32) ltac:(lia)). lia.
Qed.

(** ** Lemmas on lengths and slices *)

Lemma Zlen_nonneg {A} (l : list A) : 0 <= Zlen l.
Proof. unfold Zlen. lia. Qed.

Lemma Zlen_nil {A} : Zlen (@nil A) = 0.
Proof. reflexivity. Qed.

Lemma Zlen_cons {A} (x : A) l : Zlen (x :: l) = 1 + Zlen l.
Proof. unfold Zlen. simpl. lia. Qed.

Lemma Zlen_app {A} (l k : list A) : Zlen (l ++ k) = Zlen l + Zlen k.
Proof. unfold Zlen. rewrite length_app. lia. Qed.

Lemma Zlen_replicate {A} n (x : A) : Zlen (replicate n x) = Z.of_nat n.
Proof. unfold Zlen. by rewrite length_replicate. Qed.

Lemma Zlen_insert {A} (l : list A) i x : Zlen (<[i := x]> l) = Zlen l.
Proof. unfold Zlen. by rewrite length_insert. Qed.

Lemma Zlen_zdrop {A} n (l : list A) :
  0 <= n <= Zlen l → Zlen (zdrop n l) = Zlen l - n.
Proof. unfold Zlen, zdrop. rewrite length_drop. lia. Qed.

Lemma Zlen_ztake {A} n (l : list A) :
  0 <= n <= Zlen l → Zlen (ztake n l) = n.
Proof. unfold Zlen, ztake. rewrite length_take. lia. Qed.

Lemma Zlen_to_nat {A} (l : list A) : Z.to_nat (Zlen l) = length l.
Proof. unfold Zlen. lia. Qed.

Lemma Zlen_app_l {A} (l k : list A) : Zlen l <= Zlen (l ++ k).
Proof. rewrite Zlen_app. pose proof (Zlen_nonneg k). lia. Qed.

Lemma ztake_app {A} (l k : list A) n : n = Zlen l → ztake n (l ++ k) = l.
Proof. intros ->. unfold ztake. by rewrite Zlen_to_nat, take_app_length. Qed.

Lemma zget_zdrop n (i : Z) (l : bytes) :
  0 <= n → 0 <= i → zget i (zdrop n l) = zget (n + i) l.
Proof. intros. unfold zget, zdrop. rewrite lookup_drop. do 2 f_equal. lia. Qed.

Lemma zdrop_app {A} (l k : list A) n : n = Zlen l → zdrop n (l ++ k) = k.
Proof. intros ->. unfold zdrop. by rewrite Zlen_to_nat, drop_app_length. Qed.

Lemma ztake_zdrop {A} n (l : list A) : ztake n l ++ zdrop n l = l.
Proof. apply take_drop. Qed.

Lemma zdrop_zdrop {A} m n (l : list A) :
  0 <= m → 0 <= n → zdrop m (zdrop n l) = zdrop (n + m) l.
Proof. intros. unfold zdrop. rewrite drop_drop. f_equal. lia. Qed.

Lemma ztake_all {A} n (l : list A) : Zlen l <= n → ztake n l = l.
Proof. unfold Zlen, ztake. intros. apply take_ge. lia. Qed.

Lemma bytes_ok_app l k : bytes_ok (l ++ k) ↔ bytes_ok l ∧ bytes_ok k.
Proof. apply Forall_app. Qed.

Lemma bytes_ok_zdrop n l : bytes_ok l → bytes_ok (zdrop n l).
Proof. apply Forall_drop. Qed.

Lemma bytes_ok_ztake n l : bytes_ok l → bytes_ok (ztake n l).
Proof. apply Forall_take. Qed.

Lemma bytes_ok_zget n l : bytes_ok l → is_byte (zget n l).
Proof.
  intros Hl. unfold zget. destruct (l !! Z.to_nat n) eqn:E; simpl; [|done].
  by eapply Forall_lookup_1.
Qed.

#[export] Hint Rewrite @Zlen_nil @Zlen_cons @Zlen_app @Zlen_replicate : zlen.
#[export] Hint Resolve to_byte_range to_word_range bytes_ok_zdrop bytes_ok_ztake
  bytes_ok_zget Zlen_nonneg : media.
