(* ===== verification/OrderedMap.v ===== *)
(** * Ordered maps and sets

    [std::map<int, T>] and [std::set<int>] iterate in increasing key order and
    the code sends messages while it iterates, so the order is observable.  Both
    are modelled by their iteration sequence: an association list (a list for a
    set) kept strictly increasing, with the operations the code uses. *)

From S2P Require Import Prelude.

(** ** [std::map<int, A>] *)

Section Map.
Context {A : Type}.
Implicit Types (m : list (Z * A)) (k j : Z) (v w : A).

(** [m.find(k)] *)
Fixpoint om_find k m : option A :=
  match m with
  | [] => None
  | (j, v) :: m' => if j =? k then Some v else om_find k m'
  end.

(** [m[k] = v], and [m[k].reset(v)] for a map of owning pointers *)
Fixpoint om_set k v m : list (Z * A) :=
  match m with
  | [] => [(k, v)]
  | (j, w) :: m' =>
      if k <? j then (k, v) :: m
      else if k =? j then (k, v) :: m'
      else (j, w) :: om_set k v m'
  end.

(** [m.erase(k)] *)
Fixpoint om_erase k m : list (Z * A) :=
  match m with
  | [] => []
  | (j, w) :: m' => if j =? k then om_erase k m' else (j, w) :: om_erase k m'
  end.

(** A write through the pointer [m.find(k)->second]. *)
Fixpoint om_alter (f : A → A) k m : list (Z * A) :=
  match m with
  | [] => []
  | (j, w) :: m' => (j, if j =? k then f w else w) :: om_alter f k m'
  end.

(** A write through every pointer of the map. *)
Definition om_map (f : A → A) m : list (Z * A) := (λ p, (p.1, f p.2)) <$> m.

Definition om_sorted m : Prop := StronglySorted Z.lt m.*1.

Lemma om_find_elem k v m : om_find k m = Some v → (k, v) ∈ m.
Proof.
  induction m as [|[j w] m IH]; simpl; [done|].
  destruct (Z.eqb_spec j k) as [->|?]; intros; simplify_eq; set_solver.
Qed.

Lemma om_sorted_nil : om_sorted [].
Proof. constructor. Qed.

Lemma om_sorted_cons j w m :
  om_sorted ((j, w) :: m) ↔ om_sorted m ∧ ∀ k v, (k, v) ∈ m → j < k.
Proof.
  unfold om_sorted. simpl. split.
  - intros H. inv H. split; [done|]. intros k v Hk.
    rewrite Forall_forall in *. apply H3. apply (list_elem_of_fmap_2 fst m (k, v) Hk).
  - intros [H1 H2]. constructor; [done|]. apply Forall_forall.
    intros k (p & -> & Hp)%list_elem_of_fmap_1. destruct p. eauto.
Qed.

Lemma om_elem_find k v m : om_sorted m → (k, v) ∈ m → om_find k m = Some v.
Proof.
  induction m as [|[j w] m IH]; intros Hs Hin; [set_solver|].
  apply om_sorted_cons in Hs as [Hs Hlt]. simpl.
  apply elem_of_cons in Hin as [?|Hin]; simplify_eq; [by rewrite Z.eqb_refl|].
  pose proof (Hlt _ _ Hin). rewrite (proj2 (Z.eqb_neq j k)); [eauto|lia].
Qed.

Lemma om_find_iff k v m : om_sorted m → om_find k m = Some v ↔ (k, v) ∈ m.
Proof. split; eauto using om_find_elem, om_elem_find. Qed.

Lemma om_find_set_eq k v m : om_find k (om_set k v m) = Some v.
Proof.
  induction m as [|[j w] m IH]; simpl; [by rewrite Z.eqb_refl|].
  destruct (Z.ltb_spec k j); simpl; [by rewrite Z.eqb_refl|].
  destruct (Z.eqb_spec k j); simpl; [by rewrite Z.eqb_refl|].
  by rewrite (proj2 (Z.eqb_neq j k)) by lia.
Qed.

Lemma om_find_set_ne k j v m : j ≠ k → om_find j (om_set k v m) = om_find j m.
Proof.
  intros Hne. induction m as [|[i w] m IH]; simpl.
  - by rewrite (proj2 (Z.eqb_neq k j)) by lia.
  - destruct (Z.ltb_spec k i); simpl.
    { by rewrite (proj2 (Z.eqb_neq k j)) by lia. }
    destruct (Z.eqb_spec k i) as [->|]; simpl.
    { by rewrite (proj2 (Z.eqb_neq i j)) by lia. }
    by rewrite IH.
Qed.

Lemma om_set_elem k v m p :
  p ∈ om_set k v m → p = (k, v) ∨ p ∈ m.
Proof.
  induction m as [|[i w] m IH]; simpl; [set_solver|].
  destruct (k <? i), (k =? i); set_solver.
Qed.

Lemma om_set_sorted k v m : om_sorted m → om_sorted (om_set k v m).
Proof.
  induction m as [|[i w] m IH]; intros Hs; simpl.
  { apply om_sorted_cons. split; [done|set_solver]. }
  apply om_sorted_cons in Hs as [Hs Hlt].
  destruct (Z.ltb_spec k i); [|destruct (Z.eqb_spec k i) as [->|]].
  - apply om_sorted_cons. split; [by apply om_sorted_cons|].
    intros j u Hj. apply elem_of_cons in Hj as [?|Hj]; simplify_eq; [done|].
    specialize (Hlt _ _ Hj). lia.
  - by apply om_sorted_cons.
  - apply om_sorted_cons. split; [eauto|].
    intros j u Hj. apply om_set_elem in Hj as [?|Hj]; simplify_eq; [lia|eauto].
Qed.

Lemma om_set_perm k v m : om_find k m = None → om_set k v m ≡ₚ (k, v) :: m.
Proof.
  induction m as [|[j w] m IH]; simpl; [done|]. destruct (Z.eqb_spec j k); [done|]. intros H.
  destruct (Z.ltb_spec k j); [done|]. destruct (Z.eqb_spec k j); [lia|].
  rewrite IH by done. apply Permutation_swap.
Qed.

Lemma om_sorted_app (l k : list (Z * A)) :
  om_sorted (l ++ k) ↔ om_sorted l ∧ om_sorted k ∧ ∀ x y, x ∈ l → y ∈ k → x.1 < y.1.
Proof.
  induction l as [|[j v] l IH]; simpl.
  { split; [intros Hk; split; [apply om_sorted_nil|split; [done|]]; intros x y Hx; by apply elem_of_nil in Hx|tauto]. }
  unfold om_sorted in *. simpl. split.
  - intros Hs. apply StronglySorted_inv in Hs as [Hs Hf]. apply IH in Hs as (Hl & Hk & Hlk).
    rewrite fmap_app, Forall_app in Hf. destruct Hf as [Hf1 Hf2]. split; [by constructor|]. split; [done|].
    intros x y Hx Hy. apply elem_of_cons in Hx as [->|Hx]; [|by apply Hlk].
    rewrite Forall_forall in Hf2. simpl. apply Hf2. apply list_elem_of_fmap. by eexists.
  - intros (Hl & Hk & Hlk). apply StronglySorted_inv in Hl as [Hl Hf]. constructor.
    + apply IH. split; [done|]. split; [done|]. intros x y Hx Hy. apply Hlk; [by right|done].
    + rewrite fmap_app, Forall_app. split; [done|]. rewrite Forall_forall. intros x Hx.
      apply list_elem_of_fmap in Hx as (y & -> & Hy). apply (Hlk (j, v)); [left|done].
Qed.

Lemma om_find_erase_eq k m : om_find k (om_erase k m) = None.
Proof.
  induction m as [|[i w] m IH]; simpl; [done|].
  destruct (i =? k) eqn:E; simpl; [done|by rewrite E].
Qed.

Lemma om_find_erase_ne k j m : j ≠ k → om_find j (om_erase k m) = om_find j m.
Proof.
  intros Hne. induction m as [|[i w] m IH]; simpl; [done|].
  destruct (Z.eqb_spec i k) as [->|]; simpl.
  - by rewrite (proj2 (Z.eqb_neq k j)) by lia.
  - by rewrite IH.
Qed.

Lemma om_erase_elem k m j v : (j, v) ∈ om_erase k m ↔ (j, v) ∈ m ∧ j ≠ k.
Proof.
  induction m as [|[i w] m IH]; simpl; [set_solver|].
  destruct (Z.eqb_spec i k) as [->|]; set_solver.
Qed.

Lemma om_erase_sorted k m : om_sorted m → om_sorted (om_erase k m).
Proof.
  induction m as [|[i w] m IH]; intros Hs; simpl; [done|].
  apply om_sorted_cons in Hs as [Hs Hlt].
  destruct (i =? k); [eauto|]. apply om_sorted_cons. split; [eauto|].
  intros j v Hj. apply om_erase_elem in Hj as [Hj _]. eauto.
Qed.

Lemma om_erase_absent k m : om_find k m = None → om_erase k m = m.
Proof.
  induction m as [|[i w] m IH]; simpl; [done|].
  destruct (i =? k); [done|]. intros. by rewrite IH.
Qed.

Lemma om_alter_keys f k m : (om_alter f k m).*1 = m.*1.
Proof. induction m as [|[i w] m IH]; [done|]. exact (f_equal (cons i) IH). Qed.

Lemma om_alter_sorted f k m : om_sorted m → om_sorted (om_alter f k m).
Proof. unfold om_sorted. by rewrite om_alter_keys. Qed.

Lemma om_find_alter_eq f k m : om_find k (om_alter f k m) = f <$> om_find k m.
Proof.
  induction m as [|[i w] m IH]; simpl; [done|].
  by destruct (i =? k) eqn:E.
Qed.

Lemma om_find_alter_ne f k j m : j ≠ k → om_find j (om_alter f k m) = om_find j m.
Proof.
  intros Hne. induction m as [|[i w] m IH]; simpl; [done|].
  destruct (Z.eqb_spec i j) as [->|]; [|done].
  by rewrite (proj2 (Z.eqb_neq j k)) by lia.
Qed.

Lemma om_erase_alter f k m : om_erase k (om_alter f k m) = om_erase k m.
Proof.
  induction m as [|[i w] m IH]; simpl; [done|].
  rewrite IH. by destruct (i =? k).
Qed.

Lemma om_alter_alter f g k m :
  om_alter f k (om_alter g k m) = om_alter (f ∘ g) k m.
Proof.
  induction m as [|[i w] m IH]; simpl; [done|].
  rewrite IH. by destruct (i =? k).
Qed.

Lemma om_alter_absent f k m : om_find k m = None → om_alter f k m = m.
Proof.
  induction m as [|[i w] m IH]; simpl; [done|].
  destruct (i =? k); [done|]. intros. by rewrite IH.
Qed.

Lemma om_map_keys f m : (om_map f m).*1 = m.*1.
Proof. unfold om_map. rewrite <- list_fmap_compose. done. Qed.

Lemma om_map_sorted f m : om_sorted m → om_sorted (om_map f m).
Proof. unfold om_sorted. by rewrite om_map_keys. Qed.

Lemma om_find_map f k m : om_find k (om_map f m) = f <$> om_find k m.
Proof.
  induction m as [|[i w] m IH]; simpl; [done|]. by destruct (i =? k).
Qed.

(** Two ordered maps with the same lookups are the same iteration sequence. *)
Lemma om_ext m1 m2 :
  om_sorted m1 → om_sorted m2 → (∀ k, om_find k m1 = om_find k m2) → m1 = m2.
Proof.
  revert m2. induction m1 as [|[i w] m1 IH]; intros [|[j u] m2] H1 H2 Hf; [done|..].
  - specialize (Hf j). simpl in Hf. by rewrite Z.eqb_refl in Hf.
  - specialize (Hf i). simpl in Hf. by rewrite Z.eqb_refl in Hf.
  - pose proof H1 as [H1' L1]%om_sorted_cons. pose proof H2 as [H2' L2]%om_sorted_cons.
    assert (i = j) as ->.
    { pose proof (Hf i) as Hi. pose proof (Hf j) as Hj. simpl in Hi, Hj.
      rewrite Z.eqb_refl in Hi, Hj.
      destruct (Z.eqb_spec j i); [done|]. destruct (Z.eqb_spec i j); [done|].
      symmetry in Hi. apply om_find_elem in Hi, Hj.
      specialize (L1 _ _ Hj). specialize (L2 _ _ Hi). lia. }
    pose proof (Hf j) as Hj. simpl in Hj. rewrite Z.eqb_refl in Hj. simplify_eq.
    f_equal. apply IH; [done..|]. intros k.
    destruct (decide (j = k)) as [->|Hne].
    + destruct (om_find k m1) eqn:E1; [apply om_find_elem, L1 in E1; lia|].
      destruct (om_find k m2) eqn:E2; [apply om_find_elem, L2 in E2; lia|]. done.
    + specialize (Hf k). simpl in Hf. by rewrite (proj2 (Z.eqb_neq j k)) in Hf.
Qed.

Lemma om_alter_const f k v m :
  om_sorted m → om_find k m = Some v → om_alter f k m = om_alter (λ _, f v) k m.
Proof.
  intros Hs Hv. apply om_ext; auto using om_alter_sorted. intros j.
  destruct (decide (j = k)) as [->|Hne].
  - by rewrite !om_find_alter_eq, Hv.
  - by rewrite !om_find_alter_ne.
Qed.
End Map.

#[export] Hint Resolve om_set_sorted om_erase_sorted om_alter_sorted om_map_sorted
  om_sorted_nil : media.

(** ** [std::set<int>] *)

(** [s.insert(x)] *)
Fixpoint os_insert (x : Z) (s : list Z) : list Z :=
  match s with
  | [] => [x]
  | y :: s' => if x <? y then x :: s else if x =? y then s else y :: os_insert x s'
  end.

(** [s.find(x) != s.end()] *)
Definition os_has (x : Z) (s : list Z) : bool := existsb (Z.eqb x) s.

Definition os_sorted (s : list Z) : Prop := StronglySorted Z.lt s.

Lemma os_has_spec x s : os_has x s = true ↔ x ∈ s.
Proof.
  unfold os_has. rewrite existsb_exists. split.
  - intros (y & Hy & ->%Z.eqb_eq). by apply list_elem_of_In.
  - intros H. exists x. split; [by apply list_elem_of_In|apply Z.eqb_refl].
Qed.

Lemma os_insert_elem x y s : y ∈ os_insert x s ↔ y = x ∨ y ∈ s.
Proof.
  induction s as [|z s IH]; simpl; [set_solver|].
  destruct (Z.ltb_spec x z); [set_solver|].
  destruct (Z.eqb_spec x z) as [->|]; set_solver.
Qed.

Lemma os_insert_sorted x s : os_sorted s → os_sorted (os_insert x s).
Proof.
  unfold os_sorted. induction s as [|z s IH]; intros Hs; simpl; [repeat constructor|].
  inv Hs. destruct (Z.ltb_spec x z); [|destruct (Z.eqb_spec x z)].
  - constructor; [by constructor|]. constructor; [done|].
    eapply Forall_impl; [done|]. simpl. lia.
  - by constructor.
  - constructor; [eauto|]. rewrite Forall_forall in *.
    intros y [->|Hy]%os_insert_elem; [lia|eauto].
Qed.
