(* ===== verification/Wire.v ===== *)
(** * Octet access

    [get2], [get4], [set2] and [set4] read and write 16-bit and 32-bit integers
    in a byte buffer.  They come from libmedkit, a submodule that is not in the
    repository, so they are a parameter of every definition that uses them
    ([WireOps]) and the development relies only on their documented contract
    ([WireLaws]): a value written is read back modulo its width, a write touches
    its own octets only, a read depends on its own octets only.  The network
    order reading of the contract is the instance [network_order], used by the
    witnesses. *)

From S2P Require Import Prelude.

Class WireOps := {
  get2 : bytes → Z → Z;
  get4 : bytes → Z → Z;
  set2 : bytes → Z → Z → bytes;
  set4 : bytes → Z → Z → bytes;
}.

Class WireLaws (W : WireOps) : Prop := {
  get2_set2 b i v : 0 <= i → i + 2 <= Zlen b → get2 (set2 b i v) i = to_word v;
  get4_set4 b i v : 0 <= i → i + 4 <= Zlen b → get4 (set4 b i v) i = to_dword v;
  set2_length b i v : Zlen (set2 b i v) = Zlen b;
  set4_length b i v : Zlen (set4 b i v) = Zlen b;
  set2_other b i v j : 0 <= i → 0 <= j → j < i ∨ i + 2 <= j →
    set2 b i v !! Z.to_nat j = b !! Z.to_nat j;
  set4_other b i v j : 0 <= i → 0 <= j → j < i ∨ i + 4 <= j →
    set4 b i v !! Z.to_nat j = b !! Z.to_nat j;
  set2_bytes b i v : bytes_ok b → bytes_ok (set2 b i v);
  set4_bytes b i v : bytes_ok b → bytes_ok (set4 b i v);
  get2_local b i c j : 0 <= i → 0 <= j →
    (∀ k, 0 <= k < 2 → b !! Z.to_nat (i + k) = c !! Z.to_nat (j + k)) →
    get2 b i = get2 c j;
  get4_local b i c j : 0 <= i → 0 <= j →
    (∀ k, 0 <= k < 4 → b !! Z.to_nat (i + k) = c !! Z.to_nat (j + k)) →
    get4 b i = get4 c j;
  get2_range b i : bytes_ok b → is_word (get2 b i);
}.

(** ** Network order: one way the contract is met *)

Definition be_get (n : nat) (b : bytes) (i : Z) : Z :=
  foldl (λ acc k, acc * 256 + zget (i + Z.of_nat k) b) 0 (seq 0 n).

Fixpoint be_put (n : nat) (b : bytes) (i v : Z) : bytes :=
  match n with
  | O => b
  | S n' => <[Z.to_nat (i + Z.of_nat n') := to_byte v]> (be_put n' b i (v / 256))
  end.

Definition network_order : WireOps := {|
  get2 := be_get 2; get4 := be_get 4; set2 := be_put 2; set4 := be_put 4;
|}.

(** ** Lemmas *)

Lemma be_put_length n b i v : Zlen (be_put n b i v) = Zlen b.
Proof.
  unfold Zlen. revert v. induction n as [|n IH]; intros v; simpl; [done|].
  by rewrite length_insert.
Qed.

Lemma be_put_other n b i v j :
  0 <= i → 0 <= j → j < i ∨ i + Z.of_nat n <= j →
  be_put n b i v !! Z.to_nat j = b !! Z.to_nat j.
Proof.
  intros Hi Hj. revert v. induction n as [|n IH]; intros v Ho; simpl; [done|].
  rewrite list_lookup_insert_ne by lia. apply IH. lia.
Qed.

Lemma be_put_bytes n b i v : bytes_ok b → bytes_ok (be_put n b i v).
Proof.
  intros Hb. revert v. induction n as [|n IH]; intros v; simpl; [done|].
  apply Forall_insert; [apply IH|apply to_byte_range].
Qed.

Lemma be_put_get n b i v j :
  0 <= i → i + Z.of_nat n <= Zlen b → (j < n)%nat →
  zget (i + Z.of_nat j) (be_put n b i v) = to_byte (v / 256 ^ (Z.of_nat n - 1 - Z.of_nat j)).
Proof.
  intros Hi Hlen. revert v. induction n as [|n IH]; intros v Hj; simpl; [lia|].
  unfold zget in *. destruct (decide (j = n)) as [->|Hne].
  - rewrite list_lookup_insert_eq; simpl.
    + replace (Z.of_nat (S n) - 1 - Z.of_nat n) with 0 by lia.
      by rewrite Z.pow_0_r, Z.div_1_r.
    + pose proof (be_put_length n b i (v / 256)). unfold Zlen in *. lia.
  - rewrite list_lookup_insert_ne by lia. rewrite IH by lia. f_equal.
    replace (Z.of_nat (S n) - 1 - Z.of_nat j) with (1 + (Z.of_nat n - 1 - Z.of_nat j)) by lia.
    rewrite Z.pow_add_r, Z.div_div by lia. done.
Qed.

Lemma be_get_local n b i c j :
  0 <= i → 0 <= j →
  (∀ k, 0 <= k < Z.of_nat n → b !! Z.to_nat (i + k) = c !! Z.to_nat (j + k)) →
  be_get n b i = be_get n c j.
Proof.
  intros Hi Hj Hk. unfold be_get.
  assert (∀ m a, (m <= n)%nat →
    foldl (λ acc k, acc * 256 + zget (i + Z.of_nat k) b) a (seq (n - m) m) =
    foldl (λ acc k, acc * 256 + zget (j + Z.of_nat k) c) a (seq (n - m) m)) as Hm.
  { induction m as [|m IH]; intros a Hle; simpl; [done|].
    replace (S (n - S m)) with (n - m)%nat by lia.
    rewrite IH by lia. do 2 f_equal. unfold zget. by rewrite Hk by lia. }
  specialize (Hm n 0 ltac:(lia)). by rewrite Nat.sub_diag in Hm.
Qed.

Lemma be_get2_range b i : bytes_ok b → is_word (be_get 2 b i).
Proof.
  intros Hb. unfold be_get, is_word. cbn [foldl seq].
  pose proof (bytes_ok_zget (i + Z.of_nat 0) b Hb) as H0.
  pose proof (bytes_ok_zget (i + Z.of_nat 1) b Hb) as H1.
  unfold is_byte in *. lia.
Qed.

Lemma to_word_bytes v : to_word v = to_byte (v / 256) * 256 + to_byte v.
Proof.
  unfold to_word, to_byte. change (2 ^ 16) with (256 * 256).
  rewrite Z.rem_mul_r by lia. change (2 ^ 8) with 256. lia.
Qed.

Lemma to_dword_bytes v :
  to_dword v = ((to_byte (v / 256 ^ 3) * 256 + to_byte (v / 256 ^ 2)) * 256
                + to_byte (v / 256)) * 256 + to_byte v.
Proof.
  unfold to_dword, to_byte. change (2 ^ 8) with 256.
  change (2 ^ 32) with (256 * (256 * (256 * 256))).
  change (256 ^ 3) with (256 * (256 * 256)). change (256 ^ 2) with (256 * 256).
  rewrite <- !Z.div_div, !Z.rem_mul_r by lia. lia.
Qed.

#[global] Instance network_order_laws : WireLaws network_order.
Proof.
  split; cbn [get2 get4 set2 set4 network_order]; intros.
  - unfold be_get. cbn [foldl seq].
    rewrite (be_put_get 2 b i v 0), (be_put_get 2 b i v 1) by lia.
    rewrite to_word_bytes. simpl. by rewrite Z.div_1_r.
  - unfold be_get. cbn [foldl seq].
    rewrite (be_put_get 4 b i v 0), (be_put_get 4 b i v 1),
      (be_put_get 4 b i v 2), (be_put_get 4 b i v 3) by lia.
    rewrite to_dword_bytes. simpl. by rewrite Z.div_1_r.
  - apply (be_put_length 2).
  - apply (be_put_length 4).
  - by apply (be_put_other 2).
  - by apply (be_put_other 4).
  - by apply (be_put_bytes 2).
  - by apply (be_put_bytes 4).
  - by apply (be_get_local 2).
  - by apply (be_get_local 4).
  - by apply be_get2_range.
Qed.

(** Reading through a moved pointer, and past data appended after the octets. *)
Section Derived.
Context {W : WireOps} {WL : WireLaws W}.

Lemma get2_zdrop b n i : 0 <= n → 0 <= i → get2 (zdrop n b) i = get2 b (n + i).
Proof.
  intros. apply get2_local; [lia..|]. intros k Hk. unfold zdrop.
  rewrite lookup_drop. f_equal. lia.
Qed.

Lemma get2_app b c i : 0 <= i → i + 2 <= Zlen b → get2 (b ++ c) i = get2 b i.
Proof.
  intros. apply get2_local; [lia..|]. intros k Hk.
  rewrite lookup_app_l; [done|]. unfold Zlen in *. lia.
Qed.

Lemma get4_app b c i : 0 <= i → i + 4 <= Zlen b → get4 (b ++ c) i = get4 b i.
Proof.
  intros. apply get4_local; [lia..|]. intros k Hk.
  rewrite lookup_app_l; [done|]. unfold Zlen in *. lia.
Qed.

Lemma get2_set2_other b i v j :
  0 <= i → 0 <= j → j + 2 <= i ∨ i + 2 <= j → get2 (set2 b i v) j = get2 b j.
Proof. intros. apply get2_local; [lia..|]. intros. apply set2_other; lia. Qed.

Lemma get2_set4_other b i v j :
  0 <= i → 0 <= j → j + 2 <= i ∨ i + 4 <= j → get2 (set4 b i v) j = get2 b j.
Proof. intros. apply get2_local; [lia..|]. intros. apply set4_other; lia. Qed.

Lemma get4_set2_other b i v j :
  0 <= i → 0 <= j → j + 4 <= i ∨ i + 2 <= j → get4 (set2 b i v) j = get4 b j.
Proof. intros. apply get4_local; [lia..|]. intros. apply set2_other; lia. Qed.

Lemma zget_set2_other b i v j :
  0 <= i → 0 <= j → j < i ∨ i + 2 <= j → zget j (set2 b i v) = zget j b.
Proof. intros. unfold zget. by rewrite set2_other. Qed.

Lemma zget_set4_other b i v j :
  0 <= i → 0 <= j → j < i ∨ i + 4 <= j → zget j (set4 b i v) = zget j b.
Proof. intros. unfold zget. by rewrite set4_other. Qed.
End Derived.
