(* ===== verification/IpAddress.v ===== *)
(** * IP addresses and endpoints

    [IPAddress] and [IPEndpoint] (src/mcu/src/ipaddress.cpp,
    src/mcu/include/ipaddress.h): an address of either family as a value, its
    classification, comparison, textual and kernel forms.  An address is the octets
    of its family in network order; the empty address ([AF_UNSPEC]) is a constructor
    of its own.

    The system library ([inet_pton], [inet_ntop], [if_nametoindex],
    [if_indextoname], [getaddrinfo]) is a parameter, [NetOps]. *)

From S2P Require Import Prelude.

(** ** Kernel and library interface *)

(** The part of a [sockaddr_storage] the code reads.  The port is in host order:
    every access goes through [htons] or [ntohs]. *)
Inductive sockaddr :=
  | SA_in (sin_addr : bytes) (port : Z)
  | SA_in6 (sin6_addr : bytes) (port : Z) (scope_id : Z)
  | SA_other.

Class NetOps := {
  inet_pton4 : bytes → option bytes;
  inet_pton6 : bytes → option bytes;
  inet_ntop4 : bytes → bytes;
  inet_ntop6 : bytes → bytes;
  if_nametoindex : bytes → Z;              (** 0 when there is no such interface *)
  if_indextoname : Z → option bytes;
  getaddrinfo : bytes → Z * list sockaddr; (** return code, results *)
}.

(** What the manual pages promise: a successful [inet_pton] writes 4 or 16 octets. *)
Record NetLaws (N : NetOps) : Prop := {
  pton4_len : ∀ t b, inet_pton4 t = Some b → length b = 4%nat ∧ bytes_ok b;
  pton6_len : ∀ t b, inet_pton6 t = Some b → length b = 16%nat ∧ bytes_ok b;
}.

Definition EAI_AGAIN : Z := -3.
Definition EINVAL : Z := 22.
Definition ENOENT : Z := 2.
Definition EAGAIN : Z := 11.

(** ** The address *)

Inductive IPAddress :=
  | AddrUnset
  | AddrV4 (v4 : bytes)
  | AddrV6 (v6 : bytes) (scope : Z).

Inductive AddrFamily := AF_UNSPEC | AF_INET | AF_INET6.

#[global] Instance AddrFamily_eq_dec : EqDecision AddrFamily.
Proof. solve_decision. Defined.

(** The values of the constants on Linux, for [operator<]. *)
Definition family_number (f : AddrFamily) : Z :=
  match f with AF_UNSPEC => 0 | AF_INET => 2 | AF_INET6 => 10 end.

Definition Family (a : IPAddress) : AddrFamily :=
  match a with AddrUnset => AF_UNSPEC | AddrV4 _ => AF_INET | AddrV6 _ _ => AF_INET6 end.

Definition IsSet (a : IPAddress) : bool := negb (bool_decide (Family a = AF_UNSPEC)).
Definition IsV4 (a : IPAddress) : bool := bool_decide (Family a = AF_INET).
Definition IsV6 (a : IPAddress) : bool := bool_decide (Family a = AF_INET6).

(** The octet counts of the families, and a 32-bit scope. *)
Definition wf_addr (a : IPAddress) : Prop :=
  match a with
  | AddrUnset => True
  | AddrV4 b => length b = 4%nat ∧ bytes_ok b
  | AddrV6 b scope => length b = 16%nat ∧ bytes_ok b ∧ 0 <= scope < 2 ^ 32
  end.

(** [ntohl] of an [in_addr], the netinet/in.h tests on an [in6_addr] *)
Definition ntohl (b : bytes) : Z := foldl (λ acc x, acc * 2 ^ 8 + x) 0 b.

Definition all_zero (b : bytes) : bool := forallb (Z.eqb 0) b.

Definition IN6_IS_ADDR_V4MAPPED (b : bytes) : bool :=
  all_zero (ztake 10 b) && (zget 10 b =? 0xFF) && (zget 11 b =? 0xFF).
Definition IN6_IS_ADDR_UNSPECIFIED (b : bytes) : bool := all_zero b.
Definition IN6_IS_ADDR_LOOPBACK (b : bytes) : bool := all_zero (ztake 15 b) && (zget 15 b =? 1).
Definition IN6_IS_ADDR_MULTICAST (b : bytes) : bool := zget 0 b =? 0xFF.
Definition IN6_IS_ADDR_LINKLOCAL (b : bytes) : bool :=
  (zget 0 b =? 0xFE) && (Z.land (zget 1 b) 0xC0 =? 0x80).
Definition IN6_IS_ADDR_SITELOCAL (b : bytes) : bool :=
  (zget 0 b =? 0xFE) && (Z.land (zget 1 b) 0xC0 =? 0xC0).

(** [SetScope]: the field is there in every family but read for IPv6 only. *)
Definition SetScope (a : IPAddress) (index : Z) : IPAddress :=
  match a with AddrV6 b _ => AddrV6 b index | _ => a end.

Definition addr_FromSockaddr (sa : sockaddr) : IPAddress :=
  match sa with
  | SA_in b _ => AddrV4 b
  | SA_in6 b _ scope => if IN6_IS_ADDR_V4MAPPED b then AddrV4 (zdrop 12 b) else AddrV6 b scope
  | SA_other => AddrUnset
  end.

Definition addr_Any (family : AddrFamily) : IPAddress :=
  match family with
  | AF_INET => AddrV4 (replicate 4 0)
  | AF_INET6 => AddrV6 (replicate 16 0) 0
  | AF_UNSPEC => AddrUnset
  end.

Definition IsV4Mapped (a : IPAddress) : bool :=
  match a with AddrV6 b _ => IN6_IS_ADDR_V4MAPPED b | _ => false end.

Definition Unmapped (a : IPAddress) : IPAddress :=
  match a with
  | AddrV6 b _ => if IN6_IS_ADDR_V4MAPPED b then AddrV4 (zdrop 12 b) else a
  | _ => a
  end.

Definition MappedToV6 (a : IPAddress) : IPAddress :=
  match a with
  | AddrV4 b => AddrV6 (replicate 10 0 ++ [0xFF; 0xFF] ++ b) 0
  | _ => a
  end.

(** ** Classification *)

Definition IsUnspecified (a : IPAddress) : bool :=
  match Unmapped a with
  | AddrV4 b => ntohl b =? 0
  | AddrV6 b _ => IN6_IS_ADDR_UNSPECIFIED b
  | AddrUnset => false
  end.

Definition IsLoopback (a : IPAddress) : bool :=
  match Unmapped a with
  | AddrV4 b => Z.land (ntohl b) 0xFF000000 =? 0x7F000000
  | AddrV6 b _ => IN6_IS_ADDR_LOOPBACK b
  | AddrUnset => false
  end.

Definition IsMulticast (a : IPAddress) : bool :=
  match Unmapped a with
  | AddrV4 b => Z.land (ntohl b) 0xF0000000 =? 0xE0000000
  | AddrV6 b _ => IN6_IS_ADDR_MULTICAST b
  | AddrUnset => false
  end.

Definition IsLinkLocal (a : IPAddress) : bool :=
  match Unmapped a with
  | AddrV4 b => Z.land (ntohl b) 0xFFFF0000 =? 0xA9FE0000
  | AddrV6 b _ => IN6_IS_ADDR_LINKLOCAL b
  | AddrUnset => false
  end.

Definition IsPrivateV4 (a : IPAddress) : bool :=
  match Unmapped a with
  | AddrV4 b =>
      let ip := ntohl b in
      (Z.land ip 0xFF000000 =? 0x0A000000) || (Z.land ip 0xFFF00000 =? 0xAC100000)
      || (Z.land ip 0xFFFF0000 =? 0xC0A80000) || (Z.land ip 0xFFC00000 =? 0x64400000)
      || (Z.land ip 0xFFFF0000 =? 0xA9FE0000)
  | _ => false
  end.

Definition IsUniqueLocalV6 (a : IPAddress) : bool :=
  match a with AddrV6 b _ => Z.land (zget 0 b) 0xFE =? 0xFC | _ => false end.

Definition IsPrivate (a : IPAddress) : bool :=
  match Unmapped a with
  | AddrV4 b =>
      let ip := ntohl b in
      IsPrivateV4 a
      || (Z.land ip 0xFF000000 =? 0x00000000) || (Z.land ip 0xFF000000 =? 0x7F000000)
      || (Z.land ip 0xFFFFFF00 =? 0xC0000000) || (Z.land ip 0xFFFFFF00 =? 0xC0000200)
      || (Z.land ip 0xFFFE0000 =? 0xC6120000) || (Z.land ip 0xFFFFFF00 =? 0xC6336400)
      || (Z.land ip 0xFFFFFF00 =? 0xCB007100) || (Z.land ip 0xF0000000 =? 0xF0000000)
  | AddrV6 b scope =>
      IN6_IS_ADDR_UNSPECIFIED b || IN6_IS_ADDR_LOOPBACK b || IsUniqueLocalV6 (AddrV6 b scope)
      || IN6_IS_ADDR_LINKLOCAL b || IN6_IS_ADDR_SITELOCAL b
      || ((zget 0 b =? 0x01) && (zget 1 b =? 0x00) && all_zero (ztake 6 (zdrop 2 b)))
      || ((zget 0 b =? 0x20) && (zget 1 b =? 0x01) && (zget 2 b =? 0x0D) && (zget 3 b =? 0xB8))
      || ((zget 0 b =? 0x3F) && (zget 1 b =? 0xFF) && (Z.land (zget 2 b) 0xF0 =? 0x00))
  | AddrUnset => false
  end.

Definition IsTeredo (a : IPAddress) : bool :=
  match a with
  | AddrV6 b _ => (zget 0 b =? 0x20) && (zget 1 b =? 0x01) && (zget 2 b =? 0) && (zget 3 b =? 0)
  | _ => false
  end.

Definition Is6to4 (a : IPAddress) : bool :=
  match a with AddrV6 b _ => (zget 0 b =? 0x20) && (zget 1 b =? 0x02) | _ => false end.

Definition NeedsScope (a : IPAddress) : bool :=
  match a with AddrV6 b scope => IN6_IS_ADDR_LINKLOCAL b && (scope =? 0) | _ => false end.

Definition IsUnicastDestination (a : IPAddress) : bool :=
  if negb (IsSet a) then false
  else if IsUnspecified a then false
  else if IsMulticast a then false
  else if NeedsScope a then false
  else true.

Definition IsAnnounceable (a : IPAddress) : bool :=
  if negb (IsSet a) then false
  else if IsUnspecified a || IsLoopback a || IsMulticast a then false
  else if IsLinkLocal a then false
  else true.

(** [InPrefix(network, length)]; [length] is an [int]. *)
Definition InPrefix (a network : IPAddress) (len : Z) : bool :=
  let go (x y : bytes) (bits : Z) :=
    if (len <? 0) || (bits <? len) then false
    else
      let full := Z.quot len 8 in
      if negb (bool_decide (ztake full x = ztake full y)) then false
      else
        let rest := Z.rem len 8 in
        if rest =? 0 then true
        else
          let mask := to_byte (Z.shiftl 0xFF (8 - rest)) in
          Z.land (zget full x) mask =? Z.land (zget full y) mask in
  match Unmapped a, Unmapped network with
  | AddrV4 x, AddrV4 y => go x y 32
  | AddrV6 x _, AddrV6 y _ => go x y 128
  | _, _ => false
  end.

(** ** Kernel form *)

(** [len = 0], the empty address, is [None]. *)
Definition FillSockaddr (a : IPAddress) (port : Z) : option sockaddr :=
  match a with
  | AddrV4 b => Some (SA_in b (to_word port))
  | AddrV6 b scope => Some (SA_in6 b (to_word port) scope)
  | AddrUnset => None
  end.

Definition FillDualStackSockaddr (a : IPAddress) (port : Z) : option sockaddr :=
  match a with
  | AddrV4 _ => FillSockaddr (MappedToV6 a) port
  | _ => FillSockaddr a port
  end.

Definition PortOf (sa : sockaddr) : Z :=
  match sa with SA_in _ p | SA_in6 _ p _ => p | SA_other => 0 end.

(** ** Comparison *)

Definition addr_eqb (x y : IPAddress) : bool :=
  match Unmapped x, Unmapped y with
  | AddrUnset, AddrUnset => true
  | AddrV4 a, AddrV4 b => bool_decide (a = b)
  | AddrV6 a s, AddrV6 b t =>
      if negb (bool_decide (a = b)) then false
      else if negb (s =? 0) && negb (t =? 0) then s =? t
      else true
  | _, _ => false
  end.

(** [memcmp(x, y, n) < 0] on buffers of the same size *)
Fixpoint memcmp_lt (x y : bytes) : bool :=
  match x, y with
  | a :: x', b :: y' => (a <? b) || ((a =? b) && memcmp_lt x' y')
  | _, _ => false
  end.

Definition addr_ltb (x y : IPAddress) : bool :=
  match Unmapped x, Unmapped y with
  | AddrV4 a, AddrV4 b => memcmp_lt a b
  | AddrV6 a _, AddrV6 b _ => memcmp_lt a b
  | u, v => family_number (Family u) <? family_number (Family v)
  end.

(** ** IPEndpoint *)

Definition sizeof_sockaddr_storage : Z := 128.

Record IPEndpoint := mkIPEndpoint { ep_storage : option sockaddr }.

Definition new_IPEndpoint (address : IPAddress) (port : Z) (dualStack : bool) : IPEndpoint :=
  mkIPEndpoint (if dualStack then FillDualStackSockaddr address port else FillSockaddr address port).

Definition To (a : IPAddress) (port : Z) : IPEndpoint := new_IPEndpoint a port false.
Definition ToDualStack (a : IPAddress) (port : Z) : IPEndpoint := new_IPEndpoint a port true.

(** [IPEndpoint::FromSockaddr(sa, sl)]: kept as it is, if there is one and [sl] is a possible size. *)
Definition ep_FromSockaddr (sa : option sockaddr) (sl : Z) : IPEndpoint :=
  mkIPEndpoint (if (sl =? 0) || (sizeof_sockaddr_storage <? sl) then None else sa).

Definition ep_Address (e : IPEndpoint) : IPAddress :=
  match ep_storage e with None => AddrUnset | Some sa => addr_FromSockaddr sa end.

Definition ep_Port (e : IPEndpoint) : Z :=
  match ep_storage e with None => 0 | Some sa => PortOf sa end.

Definition endpoint_eqb (e f : IPEndpoint) : bool :=
  match ep_storage e, ep_storage f with
  | Some _, Some _ => (ep_Port e =? ep_Port f) && addr_eqb (ep_Address e) (ep_Address f)
  | None, None => true
  | _, _ => false
  end.

(** ** Text *)

Definition isspace (c : Z) : bool := ((9 <=? c) && (c <=? 13)) || (c =? 32).
Definition isdigit (c : Z) : bool := (48 <=? c) && (c <=? 57).

Fixpoint skip_spaces (s : bytes) : bytes :=
  match s with c :: s' => if isspace c then skip_spaces s' else s | [] => [] end.

Fixpoint take_digits (s : bytes) : bytes * bytes :=
  match s with
  | c :: s' => if isdigit c then let (d, r) := take_digits s' in (c :: d, r) else ([], s)
  | [] => ([], [])
  end.

Definition digits_value (d : bytes) : Z := foldl (λ acc c, acc * 10 + (c - 48)) 0 d.

(** [strtoul(s, &end, 10)] for a 64-bit [unsigned long]: the value and [*end]. *)
Definition strtoul (s : bytes) : Z * bytes :=
  let t := skip_spaces s in
  let '(neg, t) :=
    match t with
    | 45 :: t' => (true, t')
    | 43 :: t' => (false, t')
    | _ => (false, t)
    end in
  let (d, rest) := take_digits t in
  match d with
  | [] => (0, s)
  | _ =>
      let v := digits_value d in
      (if 2 ^ 64 <=? v then 2 ^ 64 - 1 else if (neg : bool) then to_qword (- v) else v, rest)
  end.

Fixpoint strchr (c : Z) (s : bytes) : option nat :=
  match s with
  | [] => None
  | x :: s' => if x =? c then Some 0%nat else S <$> strchr c s'
  end.

Definition has_char (c : Z) (s : bytes) : bool :=
  match strchr c s with Some _ => true | None => false end.

Definition IsDeprecatedV4Compatible (b : bytes) : bool :=
  if negb (all_zero (ztake 12 b)) then false
  else negb ((zget 12 b =? 0) && (zget 13 b =? 0) && (zget 14 b =? 0)
             && ((zget 15 b =? 0) || (zget 15 b =? 1))).

Section Text.
Context {N : NetOps}.

Definition SplitZone (text : bytes) : option (bytes * Z) :=
  match strchr 37 text with
  | None => Some (text, 0)
  | Some pct =>
      let addr := take pct text in
      let zone := drop (S pct) text in
      match zone with
      | [] => None
      | _ =>
          let index := if_nametoindex zone in
          if negb (index =? 0) then Some (addr, index)
          else
            let (parsed, rest) := strtoul zone in
            if negb (bool_decide (rest = [])) || (parsed =? 0) || (0xFFFFFFFF <? parsed) then None
            else Some (addr, parsed)
      end
  end.

(** The address, empty when the text is not one ([err = EINVAL]). *)
(** [Parse(text, err)]: the address and [err]. *)
Definition addr_Parse_err (text : bytes) : IPAddress * Z :=
  match text with
  | [] => (AddrUnset, EINVAL)
  | c :: _ =>
      if has_char 91 text || has_char 93 text then (AddrUnset, EINVAL)
      else if isspace c || isspace (default 0 (last text)) then (AddrUnset, EINVAL)
      else if negb (has_char 58 text) then
        match inet_pton4 text with Some v4 => (AddrV4 v4, 0) | None => (AddrUnset, EINVAL) end
      else
        match SplitZone text with
        | None => (AddrUnset, EINVAL)
        | Some (literal, scope) =>
            match inet_pton6 literal with
            | None => (AddrUnset, EINVAL)
            | Some v6 =>
                if IsDeprecatedV4Compatible v6 then (AddrUnset, EINVAL)
                else if IN6_IS_ADDR_V4MAPPED v6 then (AddrV4 (zdrop 12 v6), 0)
                else (AddrV6 v6 scope, 0)
            end
        end
  end.

(** [Parse(text)] *)
Definition addr_Parse (text : bytes) : IPAddress := (addr_Parse_err text).1.

Inductive Usage := Announce | Destination.

Definition keep (usage : Usage) (a : IPAddress) : bool :=
  match usage with Announce => IsAnnounceable a | Destination => IsUnicastDestination a end.

(** The loop over the resolver's answers, with the two lists it fills. *)
Fixpoint sort_answers (prefer : AddrFamily) (usage : Usage) (res : list sockaddr)
    (preferred other : list IPAddress) : list IPAddress * list IPAddress :=
  match res with
  | [] => (preferred, other)
  | p :: res' =>
      let a := addr_FromSockaddr p in
      if negb (keep usage a) then sort_answers prefer usage res' preferred other
      else if existsb (λ x, addr_eqb x a) preferred || existsb (λ x, addr_eqb x a) other then
        sort_answers prefer usage res' preferred other
      else if negb (bool_decide (prefer = AF_UNSPEC)) && bool_decide (Family a = prefer) then
        sort_answers prefer usage res' (preferred ++ [a]) other
      else sort_answers prefer usage res' preferred (other ++ [a])
  end.

(** The list and [err]. *)
Definition Resolve (host : bytes) (prefer : AddrFamily) (usage : Usage) : list IPAddress * Z :=
  match host with
  | [] => ([], EINVAL)
  | _ =>
      let literal := addr_Parse host in
      if IsSet literal then ([literal], 0)
      else
        let (rc, res) := getaddrinfo host in
        if negb (rc =? 0) then ([], if rc =? EAI_AGAIN then EAGAIN else ENOENT)
        else
          let (preferred, other) := sort_answers prefer usage res [] [] in
          let out := preferred ++ other in
          (out, if bool_decide (out = []) then ENOENT else 0)
  end.

(** Decimal, as [snprintf] writes an unsigned number. *)
Fixpoint decimal_aux (fuel : nat) (n : Z) (acc : bytes) : bytes :=
  match fuel with
  | O => acc
  | S fuel' =>
      let acc' := (48 + n mod 10) :: acc in
      if n <? 10 then acc' else decimal_aux fuel' (n / 10) acc'
  end.
Definition decimal (n : Z) : bytes := decimal_aux 20 n [].

Definition addr_ToString (a : IPAddress) : bytes :=
  match a with
  | AddrV4 b => inet_ntop4 b
  | AddrV6 b scope =>
      inet_ntop6 b ++
      (if scope =? 0 then []
       else 37 :: match if_indextoname scope with Some name => name | None => decimal scope end)
  | AddrUnset => []
  end.

Definition addr_ToUrlString (a : IPAddress) : bytes :=
  match a with
  | AddrV6 _ _ =>
      let text := addr_ToString a in
      [91] ++
      match strchr 37 text with
      | None => text
      | Some pct => take pct text ++ octets "%25" ++ drop (S pct) text
      end ++ [93]
  | _ => addr_ToString a
  end.

Definition ep_ToString (e : IPEndpoint) : bytes :=
  match ep_storage e with
  | None => []
  | Some _ => addr_ToUrlString (ep_Address e) ++ [58] ++ decimal (ep_Port e)
  end.
End Text.
