(* ===== verification/IpAddressProps.v ===== *)
(** * Properties of addresses

    The three invariants the class announces (src/mcu/include/ipaddress.h): an
    address is never half built, the port is not part of it, and
    [::ffff:a.b.c.d] and [a.b.c.d] are the same peer; that [operator<] is usable as
    the order of a [std::map]; that [InPrefix] compares exactly the leading bits; and
    what [Resolve] returns. *)

From S2P Require Import Prelude IpAddress.

(** ** The mapped form *)

Lemma Unmapped_MappedToV6 a : Unmapped (MappedToV6 a) = Unmapped a.
Proof. by destruct a. Qed.

Lemma Unmapped_idem_v4 b : Unmapped (AddrV4 b) = AddrV4 b.
Proof. done. Qed.

Lemma IsSet_MappedToV6 a : IsSet (MappedToV6 a) = IsSet a.
Proof. by destruct a. Qed.

Lemma NeedsScope_MappedToV6 a : NeedsScope (MappedToV6 a) = NeedsScope a.
Proof. by destruct a. Qed.

Lemma FromSockaddr_not_mapped sa : IsV4Mapped (addr_FromSockaddr sa) = false.
Proof. destruct sa as [| b p s|]; simpl; [done| |done]. by destruct (IN6_IS_ADDR_V4MAPPED b) eqn:E. Qed.

Lemma Unmapped_not_mapped a : IsV4Mapped (Unmapped a) = false.
Proof. destruct a as [| |b s]; simpl; [done..|]. by destruct (IN6_IS_ADDR_V4MAPPED b) eqn:E. Qed.

(** ** Order *)

Lemma memcmp_lt_irrefl x : memcmp_lt x x = false.
Proof. induction x as [|a x IH]; simpl; [done|]. by rewrite Z.ltb_irrefl, Z.eqb_refl, IH. Qed.

Lemma memcmp_lt_trans x y z :
  length x = length y → length y = length z →
  memcmp_lt x y = true → memcmp_lt y z = true → memcmp_lt x z = true.
Proof.
  revert y z. induction x as [|a x IH]; intros [|b y] [|c z] Hxy Hyz; simpl; try done.
  intros [?%Z.ltb_lt|[->%Z.eqb_eq H1]%andb_true_iff]%orb_true_iff
         [?%Z.ltb_lt|[->%Z.eqb_eq H2]%andb_true_iff]%orb_true_iff; apply orb_true_iff;
    rewrite ?Z.ltb_lt, ?andb_true_iff, ?Z.eqb_eq; try (left; lia).
  right. split; [done|]. simpl in *. eapply IH; [| |exact H1|exact H2]; lia.
Qed.

Lemma memcmp_lt_total x y :
  length x = length y → memcmp_lt x y = false → memcmp_lt y x = false → x = y.
Proof.
  revert y. induction x as [|a x IH]; intros [|b y] Hl; simpl; try done.
  intros [?%Z.ltb_ge H1]%orb_false_iff [?%Z.ltb_ge H2]%orb_false_iff.
  assert (a = b) as -> by lia. rewrite Z.eqb_refl in *. simpl in *. f_equal. apply IH; [lia|done..].
Qed.

(** What the order looks at. *)
Definition addr_key (a : IPAddress) : AddrFamily * bytes :=
  match Unmapped a with
  | AddrUnset => (AF_UNSPEC, [])
  | AddrV4 b => (AF_INET, b)
  | AddrV6 b _ => (AF_INET6, b)
  end.

Definition key_ltb (x y : AddrFamily * bytes) : bool :=
  if bool_decide (x.1 = y.1) then memcmp_lt x.2 y.2 else family_number x.1 <? family_number y.1.

Lemma addr_ltb_key x y : addr_ltb x y = key_ltb (addr_key x) (addr_key y).
Proof. unfold addr_ltb, addr_key. by destruct (Unmapped x), (Unmapped y). Qed.

Definition key_ok (k : AddrFamily * bytes) : Prop :=
  length k.2 = match k.1 with AF_UNSPEC => 0 | AF_INET => 4 | AF_INET6 => 16 end%nat.

Lemma Unmapped_wf a : wf_addr a → wf_addr (Unmapped a).
Proof.
  destruct a as [| |b s]; simpl; [done..|]. intros (Hl & Hb & Hs).
  destruct (IN6_IS_ADDR_V4MAPPED b); simpl; [|done]. unfold zdrop.
  rewrite length_drop, Hl. split; [done|by apply Forall_drop].
Qed.

Lemma addr_key_ok a : wf_addr a → key_ok (addr_key a).
Proof.
  intros H%Unmapped_wf. unfold addr_key, key_ok. destruct (Unmapped a); simpl in *; naive_solver.
Qed.

Lemma family_number_inj f g : family_number f = family_number g → f = g.
Proof. by destruct f, g. Qed.

Lemma key_ltb_trans x y z :
  key_ok x → key_ok y → key_ok z → key_ltb x y = true → key_ltb y z = true → key_ltb x z = true.
Proof.
  unfold key_ltb, key_ok. destruct x as [f x], y as [g y], z as [h z]; simpl. intros Hx Hy Hz.
  repeat case_bool_decide; subst; rewrite ?Z.ltb_lt; try congruence; try lia.
  apply memcmp_lt_trans; congruence.
Qed.

Lemma key_ltb_total x y :
  key_ok x → key_ok y → key_ltb x y = false → key_ltb y x = false → x = y.
Proof.
  unfold key_ltb, key_ok. destruct x as [f x], y as [g y]; simpl. intros Hx Hy.
  repeat case_bool_decide; subst; rewrite ?Z.ltb_ge; try congruence.
  - intros H1 H2. f_equal. apply memcmp_lt_total; congruence.
  - intros H1 H2. assert (f = g) by (apply family_number_inj; lia). done.
Qed.

Lemma key_ltb_irrefl x : key_ltb x x = false.
Proof. unfold key_ltb. by rewrite bool_decide_true, memcmp_lt_irrefl. Qed.

Lemma addr_eqb_key x y : addr_eqb x y = true → addr_key x = addr_key y.
Proof.
  unfold addr_eqb, addr_key. destruct (Unmapped x), (Unmapped y); try done; case_bool_decide; simpl; congruence.
Qed.

Lemma addr_eqb_refl x : addr_eqb x x = true.
Proof.
  unfold addr_eqb. destruct (Unmapped x); rewrite ?bool_decide_true by done; [done..|]. simpl.
  by case_match; rewrite ?Z.eqb_refl.
Qed.

Lemma addr_eqb_sym x y : addr_eqb x y = addr_eqb y x.
Proof.
  unfold addr_eqb. destruct (Unmapped x) as [|b|b s], (Unmapped y) as [|c|c t]; try done.
  - by apply bool_decide_ext.
  - rewrite (bool_decide_ext (b = c) (c = b)) by done. destruct (bool_decide (c = b)); simpl; [|done].
    rewrite (Z.eqb_sym s t). by destruct (s =? 0), (t =? 0).
Qed.

(** ** Classes of addresses *)

Lemma land_testbit x m c k :
  Z.land x m = c → Z.testbit m k = true → Z.testbit x k = Z.testbit c k.
Proof. intros <- Hm. rewrite Z.land_spec, Hm. by rewrite andb_true_r. Qed.

(** [x & m1 = c1] and [x & m2 = c2] cannot both hold when they differ on bit [k]. *)
Lemma land_clash x m1 c1 m2 c2 k :
  Z.testbit m1 k = true → Z.testbit m2 k = true → Z.testbit c1 k ≠ Z.testbit c2 k →
  (Z.land x m1 =? c1) = true → (Z.land x m2 =? c2) = false.
Proof.
  intros H1 H2 Hne E1%Z.eqb_eq. apply Z.eqb_neq. intros E2. apply Hne.
  rewrite <- (land_testbit x m1 c1 k E1 H1). by apply (land_testbit x m2 c2 k).
Qed.

(** [H] fixes the four leading bits; find the one the goal contradicts. *)
Ltac leading_bit_clash H :=
  first [ apply (land_clash _ 0xF0000000 0xE0000000 _ _ 31); [reflexivity|reflexivity|discriminate|exact H]
        | apply (land_clash _ 0xF0000000 0xE0000000 _ _ 30); [reflexivity|reflexivity|discriminate|exact H]
        | apply (land_clash _ 0xF0000000 0xE0000000 _ _ 29); [reflexivity|reflexivity|discriminate|exact H]
        | apply (land_clash _ 0xF0000000 0xE0000000 _ _ 28); [reflexivity|reflexivity|discriminate|exact H] ].

Lemma multicast_not_private a : IsMulticast a = true → IsPrivate a = false.
Proof.
  unfold IsMulticast, IsPrivate, IsPrivateV4. destruct (Unmapped a) as [|b|b s]; [done|..].
  - intros H. cbv zeta. repeat (apply orb_false_iff; split); leading_bit_clash H.
  - unfold IN6_IS_ADDR_MULTICAST. intros H%Z.eqb_eq. destruct b as [|b0 b]; [done|].
    unfold zget in *. simpl in H. subst b0. simpl.
    by rewrite ?andb_false_r.
Qed.

Lemma announceable_is_destination a : IsAnnounceable a = true → IsUnicastDestination a = true.
Proof.
  unfold IsAnnounceable, IsUnicastDestination. destruct (IsSet a) eqn:Hs; simpl; [|done].
  destruct (IsUnspecified a), (IsLoopback a), (IsMulticast a); simpl; try done.
  destruct (IsLinkLocal a) eqn:Hl; [done|]. intros _.
  assert (NeedsScope a = false) as ->; [|done]. revert Hl.
  unfold NeedsScope, IsLinkLocal. destruct a as [|b|b s]; simpl; [done..|].
  destruct (IN6_IS_ADDR_V4MAPPED b) eqn:Hm; [|by intros ->].
  intros _. unfold IN6_IS_ADDR_V4MAPPED, IN6_IS_ADDR_LINKLOCAL in *.
  destruct b as [|b0 b]; [done|]. apply andb_true_iff in Hm as [[Hm _]%andb_true_iff _].
  change (ztake 10 (b0 :: b)) with (b0 :: take 9 b) in Hm.
  apply andb_true_iff in Hm as [<-%Z.eqb_eq _]. done.
Qed.

(** ** Prefixes *)

(** Bit [i] of an address, from the most significant of the first octet. *)
Definition addr_bit (b : bytes) (i : Z) : bool := Z.testbit (zget (i / 8) b) (7 - i mod 8).

Lemma byte_eq x y : is_byte x → is_byte y → (∀ k, 0 <= k < 8 → Z.testbit x k = Z.testbit y k) → x = y.
Proof.
  unfold is_byte. intros Hx Hy H. apply Z.bits_inj'. intros k Hk.
  destruct (Z.lt_ge_cases k 8) as [Hk8|Hk8]; [by apply H|].
  assert (∀ z, 0 <= z < 2 ^ 8 → Z.testbit z k = false) as Hz.
  { intros z Hz. apply Z.testbit_false; [lia|]. rewrite Z.div_small; [done|].
    split; [lia|]. eapply Z.lt_le_trans; [apply Hz|]. apply Z.pow_le_mono_r; lia. }
  by rewrite !Hz.
Qed.

Lemma ztake_eq_bits n x y :
  bytes_ok x → bytes_ok y → length x = length y → 0 <= n <= Zlen x →
  ztake n x = ztake n y ↔ ∀ i, 0 <= i < 8 * n → addr_bit x i = addr_bit y i.
Proof.
  intros Hx Hy Hl Hn. unfold addr_bit. split.
  - intros H i Hi. f_equal. unfold zget, ztake in *.
    pose proof (Z.div_lt_upper_bound i 8 n ltac:(lia) ltac:(lia)).
    pose proof (Z.div_pos i 8 ltac:(lia) ltac:(lia)).
    rewrite <- (lookup_take_lt x (Z.to_nat n)), <- (lookup_take_lt y (Z.to_nat n)) by lia. by rewrite H.
  - intros H. unfold ztake, Zlen in *. apply list_eq_same_length with (Z.to_nat n);
      [rewrite length_take; lia..|].
    intros j a b Hj. rewrite !lookup_take_lt by lia. intros Ha Hb.
    apply byte_eq; [by eapply (Forall_lookup_1 _ x)|by eapply (Forall_lookup_1 _ y)|].
    intros k Hk. specialize (H (8 * Z.of_nat j + (7 - k)) ltac:(lia)).
    assert ((8 * Z.of_nat j + (7 - k)) / 8 = Z.of_nat j) as Hd.
    { symmetry. apply Z.div_unique with (7 - k); lia. }
    assert ((8 * Z.of_nat j + (7 - k)) mod 8 = 7 - k) as Hm.
    { symmetry. apply Z.mod_unique with (Z.of_nat j); lia. }
    unfold zget in H. rewrite Hd, Hm, Nat2Z.id, Ha, Hb in H. simpl in H.
    by replace (7 - (7 - k)) with k in H by lia.
Qed.

Lemma mask_bits rest k :
  0 < rest < 8 → 0 <= k →
  Z.testbit (to_byte (Z.shiftl 0xFF (8 - rest))) k = (8 - rest <=? k) && (k <? 8).
Proof.
  intros Hr Hk. unfold to_byte. destruct (Z.ltb_spec k 8).
  - rewrite Z.mod_pow2_bits_low by lia. rewrite Z.shiftl_spec by lia. rewrite andb_true_r.
    destruct (Z.leb_spec (8 - rest) k).
    + change 0xFF with (Z.ones 8). apply Z.ones_spec_low. lia.
    + apply Z.testbit_neg_r. lia.
  - rewrite andb_false_r. apply Z.mod_pow2_bits_high. lia.
Qed.

Lemma land_mask_eq rest x y :
  0 < rest < 8 →
  Z.land x (to_byte (Z.shiftl 0xFF (8 - rest))) = Z.land y (to_byte (Z.shiftl 0xFF (8 - rest)))
  ↔ ∀ k, 8 - rest <= k < 8 → Z.testbit x k = Z.testbit y k.
Proof.
  intros Hr. split.
  - intros H k Hk. apply (f_equal (λ z, Z.testbit z k)) in H. rewrite !Z.land_spec, mask_bits in H by lia.
    rewrite (proj2 (Z.leb_le _ _)), (proj2 (Z.ltb_lt _ _)) in H by lia. by rewrite !andb_true_r in H.
  - intros H. apply Z.bits_inj'. intros k Hk. rewrite !Z.land_spec, mask_bits by lia.
    destruct (Z.leb_spec (8 - rest) k), (Z.ltb_spec k 8); simpl; rewrite ?andb_false_r, ?andb_true_r; auto.
Qed.

(** The comparison inside [InPrefix], on two buffers of the same family. *)
Lemma prefix_bits len x y bits :
  bytes_ok x → bytes_ok y → length x = length y → Zlen x * 8 = bits →
  (if (len <? 0) || (bits <? len) then false
   else if negb (bool_decide (ztake (Z.quot len 8) x = ztake (Z.quot len 8) y)) then false
   else if Z.rem len 8 =? 0 then true
   else Z.land (zget (Z.quot len 8) x) (to_byte (Z.shiftl 0xFF (8 - Z.rem len 8)))
        =? Z.land (zget (Z.quot len 8) y) (to_byte (Z.shiftl 0xFF (8 - Z.rem len 8)))) = true
  ↔ 0 <= len <= bits ∧ ∀ i, 0 <= i < len → addr_bit x i = addr_bit y i.
Proof.
  intros Hx Hy Hl Hb.
  destruct ((len <? 0) || (bits <? len)) eqn:Hr.
  { split; [done|]. intros [? _]. apply orb_true_iff in Hr as [?%Z.ltb_lt|?%Z.ltb_lt]; lia. }
  ztests. rewrite Z.quot_div_nonneg, Z.rem_mod_nonneg by lia.
  pose proof (Z.div_mod len 8 ltac:(lia)) as Hdm. pose proof (Z.mod_pos_bound len 8 ltac:(lia)) as Hm.
  pose proof (Z.div_pos len 8 ltac:(lia) ltac:(lia)).
  set (q := len / 8) in *. set (r := len mod 8) in *.
  pose proof (ztake_eq_bits q x y Hx Hy Hl ltac:(lia)) as Htk.
  assert (∀ i, 8 * q <= i < 8 * q + 8 → i / 8 = q ∧ i mod 8 = i - 8 * q) as Hi.
  { intros i Hi. split; symmetry; [apply Z.div_unique with (i - 8 * q)|apply Z.mod_unique with q]; lia. }
  case_bool_decide as Ht; simpl.
  2: { split; [done|]. intros [_ H']. exfalso. apply Ht, Htk. intros i Hi'. apply H'. lia. }
  rewrite Htk in Ht. destruct (Z.eqb_spec r 0) as [Hr0|Hr0].
  { split; [|done]. intros _. split; [lia|]. intros i Hi'. apply Ht. lia. }
  rewrite Z.eqb_eq, land_mask_eq by lia. split.
  - intros Hk. split; [lia|]. intros i Hi'. destruct (Z.lt_ge_cases i (8 * q)); [apply Ht; lia|].
    unfold addr_bit. destruct (Hi i) as [-> ->]; [lia|]. apply Hk. lia.
  - intros [_ Hall] k Hk. specialize (Hall (8 * q + (7 - k)) ltac:(lia)).
    unfold addr_bit in Hall. destruct (Hi (8 * q + (7 - k))) as [E1 E2]; [lia|]. rewrite E1, E2 in Hall.
    by replace (7 - (8 * q + (7 - k) - 8 * q)) with k in Hall by lia.
Qed.

Lemma InPrefix_spec a n len :
  wf_addr a → wf_addr n →
  InPrefix a n len = true ↔
  ∃ f x y, addr_key a = (f, x) ∧ addr_key n = (f, y) ∧ f ≠ AF_UNSPEC
    ∧ 0 <= len <= 8 * Zlen x ∧ ∀ i, 0 <= i < len → addr_bit x i = addr_bit y i.
Proof.
  intros Ha%Unmapped_wf Hn%Unmapped_wf. unfold InPrefix, addr_key.
  destruct (Unmapped a) as [|x|x s], (Unmapped n) as [|y|y t]; simpl in *;
    try (split; [done|]; intros (f & x' & y' & E1 & E2 & E3 & _); congruence).
  - destruct Ha as [Hx Ox], Hn as [Hy Oy]. rewrite prefix_bits; [|done|done|lia|unfold Zlen; lia].
    split; [intros [? ?]; exists AF_INET, x, y; split_and!; (done || unfold Zlen; lia || auto)|].
    intros (f & x' & y' & E1 & E2 & _ & Hr & Hbits). simplify_eq. unfold Zlen in Hr.
    split; [lia|auto].
  - destruct Ha as (Hx & Ox & _), Hn as (Hy & Oy & _).
    rewrite prefix_bits; [|done|done|lia|unfold Zlen; lia].
    split; [intros [? ?]; exists AF_INET6, x, y; split_and!; (done || unfold Zlen; lia || auto)|].
    intros (f & x' & y' & E1 & E2 & _ & Hr & Hbits). simplify_eq. unfold Zlen in Hr.
    split; [lia|auto].
Qed.

(** ** Resolution *)

Definition distinct (l : list IPAddress) : Prop :=
  ∀ i j a b, l !! i = Some a → l !! j = Some b → addr_eqb a b = true → i = j.

Lemma distinct_insert l k a :
  distinct (l ++ k) → (∀ x, x ∈ l ++ k → addr_eqb x a = false) → distinct (l ++ a :: k).
Proof.
  intros Hd Hno.
  assert (∀ i x, (l ++ a :: k) !! i = Some x →
            (i = length l ∧ x = a) ∨
            ((l ++ k) !! (if decide (i < length l)%nat then i else pred i) = Some x ∧ i ≠ length l)) as Hlook.
  { intros i x Hx. apply lookup_app_Some in Hx as [Hx|[Hge Hx]].
    - pose proof (lookup_lt_Some _ _ _ Hx). right. rewrite decide_True by done.
      rewrite lookup_app_l by done. split; [done|lia].
    - destruct (i - length l)%nat as [|j] eqn:E; simpl in Hx.
      + left. split; [lia|congruence].
      + right. rewrite decide_False by lia. rewrite lookup_app_r by lia.
        replace (pred i - length l)%nat with j by lia. split; [done|lia]. }
  intros i j x y Hx Hy He.
  destruct (Hlook i x Hx) as [[-> ->]|[Hx' Hi]], (Hlook j y Hy) as [[-> ->]|[Hy' Hj]]; [done|..].
  - rewrite addr_eqb_sym, Hno in He; [done|by eapply list_elem_of_lookup_2].
  - rewrite Hno in He; [done|by eapply list_elem_of_lookup_2].
  - specialize (Hd _ _ _ _ Hx' Hy' He). repeat case_decide; lia.
Qed.

Lemma distinct_snoc l a : distinct l → (∀ x, x ∈ l → addr_eqb x a = false) → distinct (l ++ [a]).
Proof. intros. apply distinct_insert; by rewrite app_nil_r. Qed.

Lemma existsb_false {A} (f : A → bool) l : existsb f l = false → ∀ x, x ∈ l → f x = false.
Proof.
  intros H x Hx. destruct (f x) eqn:E; [|done].
  rewrite <- H. symmetry. apply existsb_exists. exists x. split; [by apply list_elem_of_In|done].
Qed.

(** What the loop keeps of the answers it has seen. *)
Lemma sort_answers_spec prefer usage res pre oth pre' oth' :
  sort_answers prefer usage res pre oth = (pre', oth') →
  distinct (pre ++ oth) →
  distinct (pre' ++ oth')
  ∧ (∀ a, a ∈ pre' → a ∈ pre ∨ (Family a = prefer ∧ keep usage a = true ∧ a ∈ (addr_FromSockaddr <$> res)))
  ∧ (∀ a, a ∈ oth' → a ∈ oth ∨ ((prefer = AF_UNSPEC ∨ Family a ≠ prefer) ∧ keep usage a = true
                                ∧ a ∈ (addr_FromSockaddr <$> res)))
  ∧ (∀ a, a ∈ pre ++ oth → a ∈ pre' ++ oth')
  ∧ (∀ sa, sa ∈ res → keep usage (addr_FromSockaddr sa) = true →
       ∃ a, a ∈ pre' ++ oth' ∧ addr_eqb a (addr_FromSockaddr sa) = true).
Proof.
  revert pre oth. induction res as [|p res IH]; intros pre oth Hs Hd; simpl in Hs.
  { simplify_eq. split_and!; auto; set_solver. }
  set (a0 := addr_FromSockaddr p) in *.
  destruct (keep usage a0) eqn:Hk; simpl in Hs.
  2: { destruct (IH pre oth Hs Hd) as (H1 & H2 & H3 & H4 & H5). split_and!; auto.
       - intros a Ha. destruct (H2 a Ha); set_solver.
       - intros a Ha. destruct (H3 a Ha); set_solver.
       - intros sa [->|Hsa]%elem_of_cons Hks; [fold a0 in Hks; congruence|auto]. }
  destruct (existsb (λ x, addr_eqb x a0) pre || existsb (λ x, addr_eqb x a0) oth) eqn:Hseen.
  { destruct (IH pre oth Hs Hd) as (H1 & H2 & H3 & H4 & H5). split_and!; auto.
    - intros a Ha. destruct (H2 a Ha); set_solver.
    - intros a Ha. destruct (H3 a Ha); set_solver.
    - intros sa [->|Hsa]%elem_of_cons Hks; [|auto].
      apply orb_true_iff in Hseen as [(x & Hx & He)%existsb_exists|(x & Hx & He)%existsb_exists];
        exists x; (split; [apply H4, elem_of_app; rewrite !list_elem_of_In; auto|done]). }
  apply orb_false_iff in Hseen as [Hp Ho].
  assert (∀ x, x ∈ pre ++ oth → addr_eqb x a0 = false) as Hnew.
  { intros x [Hx|Hx]%elem_of_app; [by apply (existsb_false _ _ Hp)|by apply (existsb_false _ _ Ho)]. }
  destruct (negb (bool_decide (prefer = AF_UNSPEC)) && bool_decide (Family a0 = prefer)) eqn:Hf.
  - ztests. destruct (IH _ _ Hs) as (H1 & H2 & H3 & H4 & H5).
    { rewrite <- app_assoc. by apply distinct_insert. }
    split_and!; auto.
    + intros a Ha. destruct (H2 a Ha) as [[Hx| ->%list_elem_of_singleton]%elem_of_app|?]; set_solver.
    + intros a Ha. destruct (H3 a Ha); set_solver.
    + intros a Ha. apply H4. set_solver.
    + intros sa [->|Hsa]%elem_of_cons Hks; [|auto]. exists a0.
      split; [apply H4; set_solver|apply addr_eqb_refl].
  - destruct (IH _ _ Hs) as (H1 & H2 & H3 & H4 & H5).
    { rewrite app_assoc. by apply distinct_snoc. }
    assert (prefer = AF_UNSPEC ∨ Family a0 ≠ prefer) as Hfam.
    { apply andb_false_iff in Hf as [Hf|Hf]; ztests; auto. }
    split_and!; auto.
    + intros a Ha. destruct (H2 a Ha); set_solver.
    + intros a Ha. destruct (H3 a Ha) as [[Hx| ->%list_elem_of_singleton]%elem_of_app|?]; set_solver.
    + intros a Ha. apply H4. set_solver.
    + intros sa [->|Hsa]%elem_of_cons Hks; [|auto]. exists a0.
      split; [apply H4; set_solver|apply addr_eqb_refl].
Qed.

(** ** Zones *)

Lemma take_digits_digits s d r : take_digits s = (d, r) → Forall (λ c, 48 <= c <= 57) d.
Proof.
  revert d r. induction s as [|c s IH]; simpl; intros d r H; [by simplify_eq|].
  destruct (isdigit c) eqn:E; [|by simplify_eq].
  destruct (take_digits s) as [d' r']. simplify_eq. constructor; [|by eapply IH].
  unfold isdigit in E. ztests. lia.
Qed.

Lemma digits_value_nonneg d : Forall (λ c, 48 <= c <= 57) d → 0 <= digits_value d.
Proof.
  unfold digits_value. assert (∀ acc, 0 <= acc → Forall (λ c, 48 <= c <= 57) d →
    0 <= foldl (λ acc c, acc * 10 + (c - 48)) acc d) as H; [|intros; by apply H].
  induction d as [|c d IH]; simpl; intros acc Hacc Hd; [done|]. inv Hd. apply IH; [lia|done].
Qed.

Lemma strtoul_nonneg s : 0 <= (strtoul s).1.
Proof.
  unfold strtoul.
  match goal with |- context [let '(_, _) := ?m in _] => destruct m as [neg t] end.
  destruct (take_digits t) as [d r] eqn:E. apply take_digits_digits, digits_value_nonneg in E.
  destruct d; simpl; [lia|]. case_match; simpl; [lia|]. destruct neg; [|done].
  apply Z.mod_pos_bound. lia.
Qed.

Lemma SplitZone_scope (N : NetOps) text l scope :
  (∀ z, 0 <= if_nametoindex z < 2 ^ 32) → SplitZone text = Some (l, scope) → 0 <= scope < 2 ^ 32.
Proof.
  intros Hidx. unfold SplitZone. destruct (strchr 37 text) as [pct|]; [|intros; simplify_eq; lia].
  destruct (drop (S pct) text) as [|z zone] eqn:Ez; [done|].
  case_match; [intros; simplify_eq; apply Hidx|].
  pose proof (strtoul_nonneg (z :: zone)) as Hn. destruct (strtoul (z :: zone)) as [v rest]. simpl in Hn.
  case_match eqn:Hc; [done|]. intros; simplify_eq. ztests. lia.
Qed.

(** ** The properties *)

(** [::ffff:a.b.c.d] and [a.b.c.d] are the same peer: mapping an address changes no
    classification and no comparison, on either side. *)
Theorem mapped_form_is_transparent a :
  let m := MappedToV6 a in
  (IsUnspecified m, IsLoopback m, IsMulticast m, IsLinkLocal m, IsPrivateV4 m, IsPrivate m,
   IsUnicastDestination m, IsAnnounceable m)
  = (IsUnspecified a, IsLoopback a, IsMulticast a, IsLinkLocal a, IsPrivateV4 a, IsPrivate a,
     IsUnicastDestination a, IsAnnounceable a)
  ∧ (∀ n len, InPrefix m n len = InPrefix a n len ∧ InPrefix n m len = InPrefix n a len)
  ∧ (∀ o, addr_eqb m o = addr_eqb a o ∧ addr_eqb o m = addr_eqb o a
          ∧ addr_ltb m o = addr_ltb a o ∧ addr_ltb o m = addr_ltb o a)
  ∧ addr_eqb m a = true.
Proof.
  cbv zeta.
  unfold IsUnicastDestination, IsAnnounceable. rewrite IsSet_MappedToV6, NeedsScope_MappedToV6.
  unfold IsUnspecified, IsLoopback, IsMulticast, IsLinkLocal, IsPrivate, IsPrivateV4.
  rewrite !Unmapped_MappedToV6. split_and!; [done|..].
  - intros n len. unfold InPrefix. by rewrite !Unmapped_MappedToV6.
  - intros o. unfold addr_eqb, addr_ltb. by rewrite !Unmapped_MappedToV6.
  - transitivity (addr_eqb a a); [|apply addr_eqb_refl].
    unfold addr_eqb. by rewrite !Unmapped_MappedToV6.
Qed.

(** [operator<] is a strict weak order, so an address is a valid key of a [std::map], and it is
    consistent with [operator==]: equal addresses are equivalent keys, and equivalent keys are the
    same host up to the zone. *)
Theorem order_is_a_map_order x y z :
  wf_addr x → wf_addr y → wf_addr z →
  addr_ltb x x = false
  ∧ (addr_ltb x y = true → addr_ltb y z = true → addr_ltb x z = true)
  ∧ (addr_ltb x y = true → addr_ltb y x = false)
  ∧ (addr_ltb x y = false ∧ addr_ltb y x = false ↔ addr_key x = addr_key y)
  ∧ (addr_eqb x y = true → addr_ltb x y = false ∧ addr_ltb y x = false).
Proof.
  intros Hx%addr_key_ok Hy%addr_key_ok Hz%addr_key_ok. rewrite !addr_ltb_key. split_and!.
  - apply key_ltb_irrefl.
  - by apply key_ltb_trans.
  - intros H. destruct (key_ltb (addr_key y) (addr_key x)) eqn:E; [|done].
    pose proof (key_ltb_trans _ _ _ Hx Hy Hx H E) as Hc. by rewrite key_ltb_irrefl in Hc.
  - split; [intros []; by apply key_ltb_total|intros ->; by rewrite key_ltb_irrefl].
  - intros ->%addr_eqb_key. by rewrite key_ltb_irrefl.
Qed.

(** [InPrefix] holds exactly when both addresses have the same family once unmapped, the length
    is between 0 and the width of that family, and the leading bits agree. *)
Theorem in_prefix_compares_leading_bits a n len :
  wf_addr a → wf_addr n →
  InPrefix a n len = true ↔
  ∃ f x y, addr_key a = (f, x) ∧ addr_key n = (f, y) ∧ f ≠ AF_UNSPEC
    ∧ 0 <= len <= 8 * Zlen x ∧ ∀ i, 0 <= i < len → addr_bit x i = addr_bit y i.
Proof. apply InPrefix_spec. Qed.

(** The kernel form loses nothing: what is read back from the [sockaddr] of an address, native
    or dual-stack, is the unmapped address and its port, and both forms are the same endpoint. *)
Theorem endpoint_roundtrip a port :
  is_word port → IsSet a = true →
  ep_Address (To a port) = Unmapped a ∧ ep_Address (ToDualStack a port) = Unmapped a
  ∧ ep_Port (To a port) = port ∧ ep_Port (ToDualStack a port) = port
  ∧ endpoint_eqb (To a port) (ToDualStack a port) = true.
Proof.
  intros Hp Hs.
  assert (ep_Address (To a port) = Unmapped a ∧ ep_Address (ToDualStack a port) = Unmapped a
          ∧ ep_Port (To a port) = port ∧ ep_Port (ToDualStack a port) = port) as (H1 & H2 & H3 & H4).
  { destruct a as [|b|b s]; [done|..]; unfold ep_Port; simpl; by rewrite !to_word_id. }
  split_and!; [done..|]. unfold endpoint_eqb. rewrite H1, H2, H3, H4, Z.eqb_refl, addr_eqb_refl.
  by destruct a.
Qed.

(** [IsPrivateV4] implies [IsPrivate], no multicast address is private, and an address that can
    be announced can be connected to. *)
Theorem address_classes a :
  (IsPrivateV4 a = true → IsPrivate a = true)
  ∧ (IsMulticast a = true → IsPrivate a = false)
  ∧ (IsAnnounceable a = true → IsUnicastDestination a = true).
Proof.
  split_and!; [|apply multicast_not_private|apply announceable_is_destination].
  intros H. unfold IsPrivate. pose proof H as H'. unfold IsPrivateV4 in H'.
  destruct (Unmapped a); [done| |done]. by rewrite H.
Qed.

(** What [Resolve] answers for a host name: no address twice, only answers of the resolver that
    suit the usage, every one of them represented, those of the preferred family first, and an error
    exactly when the list is empty. *)
Theorem resolve_answers (N : NetOps) host prefer usage res l err :
  host ≠ [] → IsSet (addr_Parse host) = false → getaddrinfo host = (0, res) →
  Resolve host prefer usage = (l, err) →
  distinct l
  ∧ (∀ a, a ∈ l → keep usage a = true ∧ a ∈ (addr_FromSockaddr <$> res))
  ∧ (∀ sa, sa ∈ res → keep usage (addr_FromSockaddr sa) = true →
       ∃ a, a ∈ l ∧ addr_eqb a (addr_FromSockaddr sa) = true)
  ∧ (∃ l1 l2, l = l1 ++ l2 ∧ (∀ a, a ∈ l1 → Family a = prefer)
       ∧ (prefer ≠ AF_UNSPEC → ∀ a, a ∈ l2 → Family a ≠ prefer))
  ∧ err = if bool_decide (l = []) then ENOENT else 0.
Proof.
  intros Hh Hp Hg Hr. unfold Resolve in Hr. destruct host as [|c host]; [done|].
  rewrite Hp, Hg in Hr. simpl in Hr.
  destruct (sort_answers prefer usage res [] []) as [pre oth] eqn:Hs. simplify_eq.
  destruct (sort_answers_spec _ _ _ _ _ _ _ Hs) as (H1 & H2 & H3 & _ & H5).
  { intros i j a b Ha. by destruct i. }
  split_and!; [done| |done| |done].
  - intros a [Ha|Ha]%elem_of_app; [destruct (H2 a Ha)|destruct (H3 a Ha)]; set_solver.
  - exists pre, oth. split_and!; [done| |].
    + intros a Ha. destruct (H2 a Ha); set_solver.
    + intros Hne a Ha. destruct (H3 a Ha) as [?|[[?|?] _]]; [set_solver|done|done].
Qed.

(** [Parse] gives an empty address and [EINVAL], or a well-formed one, never in the mapped form,
    and 0; it refuses the empty text and everything with brackets. *)
Theorem parse_never_mapped (N : NetOps) (NL : NetLaws N) text :
  (∀ z, 0 <= if_nametoindex z < 2 ^ 32) →
  let '(a, err) := addr_Parse_err text in
  wf_addr a ∧ IsV4Mapped a = false ∧ err = (if IsSet a then 0 else EINVAL)
  ∧ (text = [] ∨ has_char 91 text = true ∨ has_char 93 text = true → a = AddrUnset).
Proof.
  intros Hidx. unfold addr_Parse_err. destruct text as [|c text]; [done|].
  destruct (has_char 91 (c :: text)), (has_char 93 (c :: text)); cbn [orb]; try (by split_and!).
  destruct (isspace c || _); [by split_and!; auto|].
  destruct (negb (has_char 58 (c :: text))).
  { destruct (inet_pton4 (c :: text)) eqn:E; split_and!; try done; try naive_solver.
    by apply (pton4_len N NL (c :: text)). }
  destruct (SplitZone (c :: text)) as [[literal scope]|] eqn:Hz; [|split_and!; naive_solver].
  destruct (inet_pton6 literal) as [v6|] eqn:H6; [|split_and!; naive_solver].
  destruct (pton6_len N NL _ _ H6) as [Hl Hb].
  destruct (IsDeprecatedV4Compatible v6); [split_and!; naive_solver|].
  destruct (IN6_IS_ADDR_V4MAPPED v6) eqn:Hm; split_and!; try done; try naive_solver.
  - simpl. unfold zdrop. rewrite length_drop, Hl. split; [done|by apply Forall_drop].
  - simpl. split_and!; try done; by eapply SplitZone_scope.
Qed.

(** ** Examples *)

(** A system library with one interface and one host, enough to run the text functions. *)
Definition tiny_net : NetOps := {|
  inet_pton4 := λ t, if bool_decide (t = octets "192.0.2.1") then Some [192; 0; 2; 1] else None;
  inet_pton6 := λ t, if bool_decide (t = octets "fe80::1") then
                       Some ([0xFE; 0x80] ++ replicate 13 0 ++ [1]) else None;
  inet_ntop4 := λ _, octets "192.0.2.1";
  inet_ntop6 := λ _, octets "fe80::1";
  if_nametoindex := λ t, if bool_decide (t = octets "eth0") then 2 else 0;
  if_indextoname := λ i, if i =? 2 then Some (octets "eth0") else None;
  getaddrinfo := λ _, (0, [SA_in6 ([0x20; 0x01] ++ replicate 13 0 ++ [1]) 0 0; SA_in [127; 0; 0; 1] 0;
                           SA_in [198; 51; 100; 7] 0;
                           SA_in6 (replicate 10 0 ++ [0xFF; 0xFF; 198; 51; 100; 7]) 0 0])
|}.

Definition v4_sample : IPAddress := AddrV4 [192; 168; 1; 7].
Definition v4_network : IPAddress := AddrV4 [192; 168; 0; 0].

Lemma v4_sample_wf : wf_addr v4_sample ∧ wf_addr v4_network ∧ wf_addr AddrUnset.
Proof. split_and!; simpl; (split; [done|]) || done; repeat constructor; done. Qed.

Lemma order_is_a_map_order_witness :
  addr_ltb v4_network v4_sample = true ∧ addr_ltb v4_sample v4_network = false.
Proof.
  assert (addr_ltb v4_network v4_sample = true) as H by reflexivity. split; [exact H|].
  destruct (order_is_a_map_order v4_network v4_sample AddrUnset) as (_ & _ & Hanti & _);
    [apply v4_sample_wf..|]. exact (Hanti H).
Defined.

Lemma in_prefix_compares_leading_bits_witness :
  InPrefix v4_sample v4_network 23 = true ∧ ∀ i, 0 <= i < 23 → addr_bit [192; 168; 1; 7] i = addr_bit [192; 168; 0; 0] i.
Proof.
  assert (InPrefix v4_sample v4_network 23 = true) as H by reflexivity. split; [exact H|].
  apply in_prefix_compares_leading_bits in H as (f & x & y & Hx & Hy & _ & _ & Hb);
    [|apply v4_sample_wf|apply v4_sample_wf].
  injection Hx as <- <-. injection Hy as <-. exact Hb.
Defined.

Lemma endpoint_roundtrip_witness : ep_Address (ToDualStack v4_sample 5004) = v4_sample.
Proof.
  apply (endpoint_roundtrip v4_sample 5004); [unfold is_word; lia|reflexivity].
Defined.

Lemma resolve_answers_witness :
  @Resolve tiny_net (octets "host") AF_INET Announce
  = ([AddrV4 [198; 51; 100; 7]; AddrV6 ([0x20; 0x01] ++ replicate 13 0 ++ [1]) 0], 0)
  ∧ distinct [AddrV4 [198; 51; 100; 7]; AddrV6 ([0x20; 0x01] ++ replicate 13 0 ++ [1]) 0].
Proof.
  assert (@Resolve tiny_net (octets "host") AF_INET Announce
    = ([AddrV4 [198; 51; 100; 7]; AddrV6 ([0x20; 0x01] ++ replicate 13 0 ++ [1]) 0], 0)) as H
    by (vm_compute; reflexivity).
  split; [exact H|].
  eapply (resolve_answers tiny_net (octets "host") AF_INET Announce); [| | |exact H];
    [discriminate|vm_compute; reflexivity|reflexivity].
Defined.

Lemma tiny_net_laws : NetLaws tiny_net.
Proof. split; intros t b; simpl; case_bool_decide; [|done| |done]; intros; simplify_eq; (split; [done|repeat constructor; done]). Qed.

Lemma parse_never_mapped_witness :
  @addr_Parse_err tiny_net (octets "fe80::1%eth0") = (AddrV6 ([0xFE; 0x80] ++ replicate 13 0 ++ [1]) 2, 0)
  ∧ wf_addr (AddrV6 ([0xFE; 0x80] ++ replicate 13 0 ++ [1]) 2).
Proof.
  assert (@addr_Parse_err tiny_net (octets "fe80::1%eth0")
    = (AddrV6 ([0xFE; 0x80] ++ replicate 13 0 ++ [1]) 2, 0)) as E by (vm_compute; reflexivity).
  split; [exact E|].
  pose proof (parse_never_mapped tiny_net tiny_net_laws (octets "fe80::1%eth0")
    ltac:(intros z; simpl; case_bool_decide; lia)) as H.
  rewrite E in H. exact (proj1 H).
Defined.
