(* ===== verification/BfcpAttr.v ===== *)
(** * BFCP attributes

    The attribute codec of the BFCP stack: the TLV writer [BFCPAttribute::Write],
    the TLV walker [BFCPAttrCursor], and one [Serialize]/[Parse] pair per class of
    src/mcu/src/bfcp/attributes/.

    [Serialize(out, max, mandatory)] returns the octets it wrote and
    [Serialize ... = None] is the code's [Failed]; [out] and [max] shrink as the
    code moves its cursor.  [Parse(contents, len)] receives the [len] octets at
    [contents] as a list and returns [None] for [NULL].  Pointers to optional
    children are [option]s; a [std::string] is its octets. *)

From S2P Require Import Prelude Wire.

(** ** Type codes (BFCPAttribute::Name) *)

Inductive AttrName :=
  | Attr_BeneficiaryId | Attr_FloorId | Attr_FloorRequestId | Attr_Priority
  | Attr_RequestStatus | Attr_ErrorCode | Attr_ErrorInfo
  | Attr_ParticipantProvidedInfo | Attr_StatusInfo | Attr_SupportedAttributes
  | Attr_SupportedPrimitives | Attr_UserDisplayName | Attr_UserUri
  | Attr_BeneficiaryInformation | Attr_FloorRequestInformation
  | Attr_RequestedByInformation | Attr_FloorRequestStatus
  | Attr_OverallRequestStatus.

#[global] Instance AttrName_eq_dec : EqDecision AttrName.
Proof. solve_decision. Defined.

Definition attr_code (n : AttrName) : Z :=
  match n with
  | Attr_BeneficiaryId => 1
  | Attr_FloorId => 2
  | Attr_FloorRequestId => 3
  | Attr_Priority => 4
  | Attr_RequestStatus => 5
  | Attr_ErrorCode => 6
  | Attr_ErrorInfo => 7
  | Attr_ParticipantProvidedInfo => 8
  | Attr_StatusInfo => 9
  | Attr_SupportedAttributes => 10
  | Attr_SupportedPrimitives => 11
  | Attr_UserDisplayName => 12
  | Attr_UserUri => 13
  | Attr_BeneficiaryInformation => 14
  | Attr_FloorRequestInformation => 15
  | Attr_RequestedByInformation => 16
  | Attr_FloorRequestStatus => 17
  | Attr_OverallRequestStatus => 18
  end.

Definition attr_names : list AttrName :=
  [Attr_BeneficiaryId; Attr_FloorId; Attr_FloorRequestId; Attr_Priority;
   Attr_RequestStatus; Attr_ErrorCode; Attr_ErrorInfo;
   Attr_ParticipantProvidedInfo; Attr_StatusInfo; Attr_SupportedAttributes;
   Attr_SupportedPrimitives; Attr_UserDisplayName; Attr_UserUri;
   Attr_BeneficiaryInformation; Attr_FloorRequestInformation;
   Attr_RequestedByInformation; Attr_FloorRequestStatus;
   Attr_OverallRequestStatus].

(** The case of a [switch (cursor.Type())] a type selects; [None] is [default]. *)
Definition attr_of_code (t : Z) : option AttrName :=
  find (λ n, attr_code n =? t) attr_names.

(** ** BFCPAttribute *)

Definition Attr_HeaderLen : Z := 2.
Definition Attr_MaxLength : Z := 255.

(** [(length + 3) & ~(size_t)3] *)
Definition Padded (len : Z) : Z := Z.land (to_qword (len + 3)) (2 ^ 64 - 4).

Definition Attr_Write (max : Z) (type : AttrName) (mandatory : bool) (contents : bytes)
  : option bytes :=
  let len := Attr_HeaderLen + Zlen contents in
  if Attr_MaxLength <? len then None
  else
    let total := Padded len in
    if max <? total then None
    else Some ([to_byte (Z.lor (Z.shiftl (attr_code type) 1) (if mandatory then 1 else 0));
                to_byte len]
               ++ contents ++ replicate (Z.to_nat (total - len)) 0).

(** [written = child->Serialize(out + n, max - n, m); if (written == Failed)
    return Failed; n += written;] *)
Definition then_write (max : Z) (out : option bytes) (ser : Z → option bytes) : option bytes :=
  match out with
  | None => None
  | Some o => match ser (max - Zlen o) with
              | None => None
              | Some w => Some (o ++ w)
              end
  end.

(** The same for an optional child ([if (this->child) ...]). *)
Definition then_write_opt {A} (max : Z) (out : option bytes) (child : option A)
    (ser : A → Z → option bytes) : option bytes :=
  match child with
  | None => out
  | Some c => then_write max out (ser c)
  end.

(** The same for a vector of children. *)
Definition then_write_all {A} (max : Z) (out : option bytes) (children : list A)
    (ser : A → Z → option bytes) : option bytes :=
  foldl (λ o c, then_write max o (ser c)) out children.

(** ** BFCPAttrCursor *)

Record BFCPAttrCursor := Cursor {
  cur_data : bytes;
  cur_pos : Z;
  cur_type : Z;
  cur_mandatory : bool;
  cur_contents : bytes;  (** the [contentsLen] octets at [contents] *)
  cur_malformed : bool;
}.

Definition new_Cursor (data : bytes) : BFCPAttrCursor := Cursor data 0 0 false [] false.

Definition set_malformed (c : BFCPAttrCursor) : BFCPAttrCursor :=
  Cursor (cur_data c) (cur_pos c) (cur_type c) (cur_mandatory c) (cur_contents c) true.

Definition Cursor_Next (c : BFCPAttrCursor) : bool * BFCPAttrCursor :=
  let data := cur_data c in
  let size := Zlen data in
  let pos := cur_pos c in
  if cur_malformed c || (pos =? size) then (false, c)
  else if size <? pos + Attr_HeaderLen then (false, set_malformed c)
  else
    let len := zget (pos + 1) data in
    if len <? Attr_HeaderLen then (false, set_malformed c)
    else
      let total := Padded len in
      if size <? pos + total then (false, set_malformed c)
      else
        (true,
         Cursor data (pos + total)
           (Z.shiftr (zget pos data) 1)
           (negb (Z.land (zget pos data) 1 =? 0))
           (ztake (len - Attr_HeaderLen) (zdrop (pos + Attr_HeaderLen) data))
           false).

(** [while (cursor.Next()) { body }] followed by the test of [Malformed()].  The
    body may [return] (a [None] of [step]).  Each turn consumes fuel. *)
Inductive WalkResult (A : Type) :=
  | WalkDone (a : A)
  | WalkRefused
  | WalkFuel.
Arguments WalkDone {A} _.
Arguments WalkRefused {A}.
Arguments WalkFuel {A}.

Fixpoint walk {A} (step : A → Z → bool → bytes → option A) (fuel : nat) (a : A)
    (c : BFCPAttrCursor) : WalkResult A :=
  match fuel with
  | O => WalkFuel
  | S fuel' =>
      let (more, c') := Cursor_Next c in
      if more then
        match step a (cur_type c') (cur_mandatory c') (cur_contents c') with
        | None => WalkRefused
        | Some a' => walk step fuel' a' c'
        end
      else if cur_malformed c' then WalkRefused
      else WalkDone a
  end.

(** One turn per octet, and one for the end: [walk_enough_fuel] shows it suffices. *)
Definition walk_all {A} (step : A → Z → bool → bytes → option A) (a : A) (data : bytes)
  : WalkResult A :=
  walk step (S (length data)) a (new_Cursor data).

Definition parse_children {A} (step : A → Z → bool → bytes → option A) (a : A)
    (data : bytes) : option A :=
  match walk_all step a data with
  | WalkDone a' => Some a'
  | _ => None
  end.

(** [default: if (cursor.IsMandatory()) return error; break;] *)
Definition skip_unknown {A} (a : A) (mandatory : bool) : option A :=
  if mandatory then None else Some a.

(** A walk that keeps nothing: [while (cursor.Next()) ;] *)
Definition skip_children (data : bytes) : option unit :=
  parse_children (λ u _ _ _, Some u) tt data.

(** ** The attribute classes *)

(** BFCPAttrRequestStatus::Status *)
Inductive Status := Pending | Accepted | Granted | Denied | Cancelled | Released | Revoked.

#[global] Instance Status_eq_dec : EqDecision Status.
Proof. solve_decision. Defined.

Definition status_code (s : Status) : Z :=
  match s with
  | Pending => 1 | Accepted => 2 | Granted => 3 | Denied => 4
  | Cancelled => 5 | Released => 6 | Revoked => 7
  end.

Definition status_of_code (z : Z) : option Status :=
  find (λ s, status_code s =? z)
    [Pending; Accepted; Granted; Denied; Cancelled; Released; Revoked].

Record BFCPAttrRequestStatus := RequestStatus { rs_status : Status; rs_queuePosition : Z }.

(** BFCPAttrErrorCode::ErrorCode.  The parser casts any octet to the enum, so a
    value outside the named ones is possible: [OtherErrorCode]. *)
Inductive ErrorCode :=
  | ConferenceDoesNotExist | UserDoesNotExist | UnknownPrimitive
  | UnknownMandatoryAttribute | UnauthorizedOperation | InvalidFloorId
  | FloorRequestIdDoesNotExist | FloorRequestMaxNumberReached | UseTls
  | UnableToParse | UseDtls | UnsupportedVersion | IncorrectMessageLength
  | GenericError
  | OtherErrorCode (z : Z).

#[global] Instance ErrorCode_eq_dec : EqDecision ErrorCode.
Proof. solve_decision. Defined.

Definition error_codes : list ErrorCode :=
  [ConferenceDoesNotExist; UserDoesNotExist; UnknownPrimitive;
   UnknownMandatoryAttribute; UnauthorizedOperation; InvalidFloorId;
   FloorRequestIdDoesNotExist; FloorRequestMaxNumberReached; UseTls;
   UnableToParse; UseDtls; UnsupportedVersion; IncorrectMessageLength;
   GenericError].

Definition error_code (e : ErrorCode) : Z :=
  match e with
  | ConferenceDoesNotExist => 1
  | UserDoesNotExist => 2
  | UnknownPrimitive => 3
  | UnknownMandatoryAttribute => 4
  | UnauthorizedOperation => 5
  | InvalidFloorId => 6
  | FloorRequestIdDoesNotExist => 7
  | FloorRequestMaxNumberReached => 8
  | UseTls => 9
  | UnableToParse => 10
  | UseDtls => 11
  | UnsupportedVersion => 12
  | IncorrectMessageLength => 13
  | GenericError => 14
  | OtherErrorCode z => z
  end.

(** [(enum ErrorCode)contents[0]] *)
Definition error_of_code (z : Z) : ErrorCode :=
  default (OtherErrorCode z) (find (λ e, error_code e =? z) error_codes).

(** Grouped attributes. *)
Record BFCPAttrFloorRequestStatus := FloorRequestStatusAttr {
  frs_floorId : Z;
  frs_requestStatus : option BFCPAttrRequestStatus;
}.

Record BFCPAttrOverallRequestStatus := OverallRequestStatusAttr {
  ors_floorRequestId : Z;
  ors_requestStatus : option BFCPAttrRequestStatus;
  ors_statusInfo : option bytes;
}.

(** The addresses of the status vector are those of distinct allocations at every
    call of [AddFloorRequestStatus], so its pointer search never finds one and the
    element is appended. *)
Record BFCPAttrFloorRequestInformation := FloorRequestInformationAttr {
  fri_floorRequestId : Z;
  fri_floorRequestStatuses : list BFCPAttrFloorRequestStatus;
  fri_overallRequestStatus : option BFCPAttrOverallRequestStatus;
  fri_beneficiaryInformation : option Z;
  fri_requestedByInformation : option Z;
}.

Definition rs_SetStatus (a : BFCPAttrRequestStatus) (s : Status) : BFCPAttrRequestStatus :=
  RequestStatus s (rs_queuePosition a).

Definition rs_SetQueuePosition (a : BFCPAttrRequestStatus) (q : Z) : BFCPAttrRequestStatus :=
  RequestStatus (rs_status a) q.

Definition new_FloorRequestStatusAttr (floorId : Z) : BFCPAttrFloorRequestStatus :=
  FloorRequestStatusAttr floorId None.

Definition frs_SetRequestStatus (a : BFCPAttrFloorRequestStatus) (rs : BFCPAttrRequestStatus) :=
  FloorRequestStatusAttr (frs_floorId a) (Some rs).

Definition new_OverallRequestStatusAttr (floorRequestId : Z) : BFCPAttrOverallRequestStatus :=
  OverallRequestStatusAttr floorRequestId None None.

Definition ors_SetRequestStatus (a : BFCPAttrOverallRequestStatus) (rs : BFCPAttrRequestStatus) :=
  OverallRequestStatusAttr (ors_floorRequestId a) (Some rs) (ors_statusInfo a).

Definition ors_SetStatusInfo (a : BFCPAttrOverallRequestStatus) (info : bytes) :=
  OverallRequestStatusAttr (ors_floorRequestId a) (ors_requestStatus a) (Some info).

Definition new_FloorRequestInformationAttr (floorRequestId : Z) :=
  FloorRequestInformationAttr floorRequestId [] None None None.

Definition fri_AddFloorRequestStatus (a : BFCPAttrFloorRequestInformation)
    (s : BFCPAttrFloorRequestStatus) :=
  FloorRequestInformationAttr (fri_floorRequestId a) (fri_floorRequestStatuses a ++ [s])
    (fri_overallRequestStatus a) (fri_beneficiaryInformation a) (fri_requestedByInformation a).

Definition fri_SetOverallRequestStatus (a : BFCPAttrFloorRequestInformation)
    (o : BFCPAttrOverallRequestStatus) :=
  FloorRequestInformationAttr (fri_floorRequestId a) (fri_floorRequestStatuses a)
    (Some o) (fri_beneficiaryInformation a) (fri_requestedByInformation a).

Definition fri_SetBeneficiaryInformation (a : BFCPAttrFloorRequestInformation) (b : Z) :=
  FloorRequestInformationAttr (fri_floorRequestId a) (fri_floorRequestStatuses a)
    (fri_overallRequestStatus a) (Some b) (fri_requestedByInformation a).

Definition fri_SetRequestedByInformation (a : BFCPAttrFloorRequestInformation) (r : Z) :=
  FloorRequestInformationAttr (fri_floorRequestId a) (fri_floorRequestStatuses a)
    (fri_overallRequestStatus a) (fri_beneficiaryInformation a) (Some r).

Definition fri_SetDescription (a : BFCPAttrFloorRequestInformation) (info : bytes) :=
  match fri_overallRequestStatus a with
  | None => a
  | Some o => fri_SetOverallRequestStatus a (ors_SetStatusInfo o info)
  end.

Section Codec.
Context {W : WireOps}.

(** [value = (WORD)get2(contents, 0)] when two octets are there *)
Definition Attr_ReadWord (contents : bytes) : option Z :=
  if Zlen contents <? 2 then None else Some (to_word (get2 contents 0)).

(** [BYTE contents[2]; set2(contents, 0, value);] *)
Definition word_contents (value : Z) : bytes := set2 [0; 0] 0 value.

Definition BeneficiaryId_Serialize (value : Z) (mandatory : bool) (max : Z) : option bytes :=
  Attr_Write max Attr_BeneficiaryId mandatory (word_contents value).

Definition BeneficiaryId_Parse (contents : bytes) : option Z := Attr_ReadWord contents.

Definition FloorId_Serialize (value : Z) (mandatory : bool) (max : Z) : option bytes :=
  Attr_Write max Attr_FloorId mandatory (word_contents value).

Definition FloorId_Parse (contents : bytes) : option Z := Attr_ReadWord contents.

Definition FloorRequestId_Serialize (value : Z) (mandatory : bool) (max : Z) : option bytes :=
  Attr_Write max Attr_FloorRequestId mandatory (word_contents value).

Definition FloorRequestId_Parse (contents : bytes) : option Z := Attr_ReadWord contents.

Definition ErrorInfo_Serialize (value : bytes) (mandatory : bool) (max : Z) : option bytes :=
  Attr_Write max Attr_ErrorInfo mandatory value.

Definition StatusInfo_Serialize (value : bytes) (mandatory : bool) (max : Z) : option bytes :=
  Attr_Write max Attr_StatusInfo mandatory value.

Definition StatusInfo_Parse (contents : bytes) : bytes := contents.

Definition ParticipantProvidedInfo_Serialize (value : bytes) (mandatory : bool) (max : Z)
  : option bytes :=
  Attr_Write max Attr_ParticipantProvidedInfo mandatory value.

Definition ErrorCode_Serialize (value : ErrorCode) (mandatory : bool) (max : Z)
  : option bytes :=
  Attr_Write max Attr_ErrorCode mandatory [to_byte (error_code value)].

Definition ErrorCode_Parse (contents : bytes) : option ErrorCode :=
  if Zlen contents <? 1 then None else Some (error_of_code (zget 0 contents)).

Definition RequestStatus_Serialize (a : BFCPAttrRequestStatus) (mandatory : bool) (max : Z)
  : option bytes :=
  Attr_Write max Attr_RequestStatus mandatory
    [to_byte (status_code (rs_status a)); to_byte (rs_queuePosition a)].

Definition RequestStatus_Parse (contents : bytes) : option BFCPAttrRequestStatus :=
  if Zlen contents <? 2 then None
  else match status_of_code (zget 0 contents) with
       | None => None
       | Some s => Some (RequestStatus s (zget 1 contents))
       end.

(** [Add(code)] of the two supported lists *)
Definition Supported_Add (codes : list Z) (code : Z) : list Z :=
  if existsb (Z.eqb code) codes then codes else codes ++ [code].

Definition SupportedPrimitives_Serialize (codes : list Z) (mandatory : bool) (max : Z)
  : option bytes :=
  Attr_Write max Attr_SupportedPrimitives mandatory (to_byte <$> ztake Attr_MaxLength codes).

Definition SupportedPrimitives_Parse (contents : bytes) : list Z :=
  foldl Supported_Add [] contents.

Definition SupportedAttributes_Serialize (codes : list Z) (mandatory : bool) (max : Z)
  : option bytes :=
  Attr_Write max Attr_SupportedAttributes mandatory
    ((λ c, to_byte (Z.shiftl c 1)) <$> ztake Attr_MaxLength codes).

Definition SupportedAttributes_Parse (contents : bytes) : list Z :=
  foldl (λ codes o, Supported_Add codes (Z.shiftr o 1)) [] contents.

Definition BeneficiaryInformation_Serialize (beneficiaryId : Z) (mandatory : bool) (max : Z)
  : option bytes :=
  Attr_Write max Attr_BeneficiaryInformation mandatory (word_contents beneficiaryId).

Definition BeneficiaryInformation_Parse (contents : bytes) : option Z :=
  match Attr_ReadWord contents with
  | None => None
  | Some beneficiaryId =>
      match skip_children (zdrop 2 contents) with
      | None => None
      | Some _ => Some beneficiaryId
      end
  end.

Definition RequestedByInformation_Serialize (requestedById : Z) (mandatory : bool) (max : Z)
  : option bytes :=
  Attr_Write max Attr_RequestedByInformation mandatory (word_contents requestedById).

Definition RequestedByInformation_Parse (contents : bytes) : option Z :=
  match Attr_ReadWord contents with
  | None => None
  | Some requestedById =>
      match skip_children (zdrop 2 contents) with
      | None => None
      | Some _ => Some requestedById
      end
  end.

Definition FloorRequestStatus_Serialize (a : BFCPAttrFloorRequestStatus) (mandatory : bool)
    (max : Z) : option bytes :=
  match then_write_opt Attr_MaxLength (Some (word_contents (frs_floorId a)))
          (frs_requestStatus a) (λ rs m, RequestStatus_Serialize rs false m) with
  | None => None
  | Some contents => Attr_Write max Attr_FloorRequestStatus mandatory contents
  end.

Definition FloorRequestStatus_step (a : BFCPAttrFloorRequestStatus) (type : Z)
    (mandatory : bool) (contents : bytes) : option BFCPAttrFloorRequestStatus :=
  match attr_of_code type with
  | Some Attr_RequestStatus =>
      match RequestStatus_Parse contents with
      | None => None
      | Some rs => Some (frs_SetRequestStatus a rs)
      end
  | _ => skip_unknown a mandatory
  end.

Definition FloorRequestStatus_Parse (contents : bytes) : option BFCPAttrFloorRequestStatus :=
  match Attr_ReadWord contents with
  | None => None
  | Some floorId =>
      parse_children FloorRequestStatus_step (new_FloorRequestStatusAttr floorId)
        (zdrop 2 contents)
  end.

Definition OverallRequestStatus_Serialize (a : BFCPAttrOverallRequestStatus) (mandatory : bool)
    (max : Z) : option bytes :=
  let contents := Some (word_contents (ors_floorRequestId a)) in
  let contents := then_write_opt Attr_MaxLength contents (ors_requestStatus a)
                    (λ rs m, RequestStatus_Serialize rs false m) in
  let contents := then_write_opt Attr_MaxLength contents (ors_statusInfo a)
                    (λ si m, StatusInfo_Serialize si false m) in
  match contents with
  | None => None
  | Some c => Attr_Write max Attr_OverallRequestStatus mandatory c
  end.

Definition OverallRequestStatus_step (a : BFCPAttrOverallRequestStatus) (type : Z)
    (mandatory : bool) (contents : bytes) : option BFCPAttrOverallRequestStatus :=
  match attr_of_code type with
  | Some Attr_RequestStatus =>
      match RequestStatus_Parse contents with
      | None => None
      | Some rs => Some (ors_SetRequestStatus a rs)
      end
  | Some Attr_StatusInfo => Some (ors_SetStatusInfo a (StatusInfo_Parse contents))
  | _ => skip_unknown a mandatory
  end.

Definition OverallRequestStatus_Parse (contents : bytes)
  : option BFCPAttrOverallRequestStatus :=
  match Attr_ReadWord contents with
  | None => None
  | Some floorRequestId =>
      parse_children OverallRequestStatus_step (new_OverallRequestStatusAttr floorRequestId)
        (zdrop 2 contents)
  end.

Definition FloorRequestInformation_Serialize (a : BFCPAttrFloorRequestInformation)
    (mandatory : bool) (max : Z) : option bytes :=
  let contents := Some (word_contents (fri_floorRequestId a)) in
  let contents := then_write_opt Attr_MaxLength contents (fri_overallRequestStatus a)
                    (λ o m, OverallRequestStatus_Serialize o false m) in
  let contents := then_write_all Attr_MaxLength contents (fri_floorRequestStatuses a)
                    (λ s m, FloorRequestStatus_Serialize s true m) in
  let contents := then_write_opt Attr_MaxLength contents (fri_beneficiaryInformation a)
                    (λ b m, BeneficiaryInformation_Serialize b false m) in
  let contents := then_write_opt Attr_MaxLength contents (fri_requestedByInformation a)
                    (λ r m, RequestedByInformation_Serialize r false m) in
  match contents with
  | None => None
  | Some c => Attr_Write max Attr_FloorRequestInformation mandatory c
  end.

Definition FloorRequestInformation_step (a : BFCPAttrFloorRequestInformation) (type : Z)
    (mandatory : bool) (contents : bytes) : option BFCPAttrFloorRequestInformation :=
  match attr_of_code type with
  | Some Attr_OverallRequestStatus =>
      fri_SetOverallRequestStatus a <$> OverallRequestStatus_Parse contents
  | Some Attr_FloorRequestStatus =>
      fri_AddFloorRequestStatus a <$> FloorRequestStatus_Parse contents
  | Some Attr_BeneficiaryInformation =>
      fri_SetBeneficiaryInformation a <$> BeneficiaryInformation_Parse contents
  | Some Attr_RequestedByInformation =>
      fri_SetRequestedByInformation a <$> RequestedByInformation_Parse contents
  | _ => skip_unknown a mandatory
  end.

Definition FloorRequestInformation_Parse (contents : bytes)
  : option BFCPAttrFloorRequestInformation :=
  match Attr_ReadWord contents with
  | None => None
  | Some floorRequestId =>
      parse_children FloorRequestInformation_step
        (new_FloorRequestInformationAttr floorRequestId) (zdrop 2 contents)
  end.
End Codec.
