(* ===== verification/BfcpMsg.v ===== *)
(** * BFCP messages

    The message classes of src/mcu/src/bfcp/messages/ and the common header of
    src/mcu/src/bfcp/BFCPMessage.cpp.  The class of a message is a constructor of
    [MsgBody]; the fields of the base class are those of [BFCPMessage]. *)

From S2P Require Import Prelude Wire BfcpAttr.

(** ** Primitives *)

(** [BFCPMessage::Primitive].  [Parse] casts any octet to the enum, so a value
    outside the named ones is possible: [OtherPrimitive]. *)
Inductive Primitive :=
  | P_FloorRequest | P_FloorRelease | P_FloorRequestQuery | P_FloorRequestStatus
  | P_UserQuery | P_UserStatus | P_FloorQuery | P_FloorStatus | P_ChairAction
  | P_ChairActionAck | P_Hello | P_HelloAck | P_Error | P_FloorRequestStatusAck
  | P_FloorStatusAck | P_Goodbye | P_GoodbyeAck
  | OtherPrimitive (z : Z).

#[global] Instance Primitive_eq_dec : EqDecision Primitive.
Proof. solve_decision. Defined.

Definition primitives : list Primitive :=
  [P_FloorRequest; P_FloorRelease; P_FloorRequestQuery; P_FloorRequestStatus;
   P_UserQuery; P_UserStatus; P_FloorQuery; P_FloorStatus; P_ChairAction;
   P_ChairActionAck; P_Hello; P_HelloAck; P_Error; P_FloorRequestStatusAck;
   P_FloorStatusAck; P_Goodbye; P_GoodbyeAck].

Definition prim_code (p : Primitive) : Z :=
  match p with
  | P_FloorRequest => 1
  | P_FloorRelease => 2
  | P_FloorRequestQuery => 3
  | P_FloorRequestStatus => 4
  | P_UserQuery => 5
  | P_UserStatus => 6
  | P_FloorQuery => 7
  | P_FloorStatus => 8
  | P_ChairAction => 9
  | P_ChairActionAck => 10
  | P_Hello => 11
  | P_HelloAck => 12
  | P_Error => 13
  | P_FloorRequestStatusAck => 14
  | P_FloorStatusAck => 15
  | P_Goodbye => 16
  | P_GoodbyeAck => 17
  | OtherPrimitive z => z
  end.

(** [(enum Primitive)octet] *)
Definition prim_of_code (z : Z) : Primitive :=
  default (OtherPrimitive z) (find (λ p, prim_code p =? z) primitives).

(** ** The message classes *)

Record BFCPMsgFloorRequest := FloorRequestMsg {
  freq_floorIds : list Z;
  freq_beneficiaryId : option Z;
  freq_participantProvidedInfo : option bytes;
}.

Record BFCPMsgFloorRelease := FloorReleaseMsg { frel_floorRequestId : option Z }.

Record BFCPMsgFloorQuery := FloorQueryMsg { fq_floorIds : list Z }.

Record BFCPMsgFloorRequestStatus := FloorRequestStatusMsg {
  frst_floorRequestInformation : option BFCPAttrFloorRequestInformation;
}.

(** As for [fri_floorRequestStatuses], the pointer search of
    [AddFloorRequestInformation] never finds its fresh argument. *)
Record BFCPMsgFloorStatus := FloorStatusMsg {
  fst_floorId : option Z;
  fst_floorRequestInformations : list BFCPAttrFloorRequestInformation;
}.

Record BFCPMsgHelloAck := HelloAckMsg {
  ha_supportedPrimitives : list Z;
  ha_supportedAttributes : list Z;
}.

Record BFCPMsgError := ErrorMsg {
  err_errorCode : option ErrorCode;
  err_errorInfo : option bytes;
}.

Inductive MsgBody :=
  | MsgFloorRequest (m : BFCPMsgFloorRequest)
  | MsgFloorRelease (m : BFCPMsgFloorRelease)
  | MsgFloorQuery (m : BFCPMsgFloorQuery)
  | MsgFloorRequestStatus (m : BFCPMsgFloorRequestStatus)
  | MsgFloorStatus (m : BFCPMsgFloorStatus)
  | MsgHello
  | MsgHelloAck (m : BFCPMsgHelloAck)
  | MsgError (m : BFCPMsgError)
  | MsgBase (p : Primitive).  (** a plain [BFCPMessage] *)

Record BFCPMessage := mkMessage {
  msg_transactionId : Z;
  msg_conferenceId : Z;
  msg_userId : Z;
  msg_version : Z;
  msg_responder : bool;
  msg_body : MsgBody;
}.

Definition VersionReliable : Z := 1.
Definition VersionUnreliable : Z := 2.
Definition Msg_HeaderLen : Z := 12.

Definition body_primitive (b : MsgBody) : Primitive :=
  match b with
  | MsgFloorRequest _ => P_FloorRequest
  | MsgFloorRelease _ => P_FloorRelease
  | MsgFloorQuery _ => P_FloorQuery
  | MsgFloorRequestStatus _ => P_FloorRequestStatus
  | MsgFloorStatus _ => P_FloorStatus
  | MsgHello => P_Hello
  | MsgHelloAck _ => P_HelloAck
  | MsgError _ => P_Error
  | MsgBase p => p
  end.

Definition GetPrimitive (m : BFCPMessage) : Primitive := body_primitive (msg_body m).

(** The constructor every message class calls: version 1, not a responder. *)
Definition new_message (body : MsgBody) (transactionId conferenceId userId : Z) : BFCPMessage :=
  mkMessage transactionId conferenceId userId VersionReliable false body.

Definition SetResponder (m : BFCPMessage) (r : bool) : BFCPMessage :=
  mkMessage (msg_transactionId m) (msg_conferenceId m) (msg_userId m) (msg_version m) r (msg_body m).

Definition SetUserId (m : BFCPMessage) (u : Z) : BFCPMessage :=
  mkMessage (msg_transactionId m) (msg_conferenceId m) u (msg_version m) (msg_responder m) (msg_body m).

Definition SetVersion (m : BFCPMessage) (v : Z) : BFCPMessage :=
  mkMessage (msg_transactionId m) (msg_conferenceId m) (msg_userId m) v (msg_responder m) (msg_body m).

Definition SetTransactionId (m : BFCPMessage) (t : Z) : BFCPMessage :=
  mkMessage t (msg_conferenceId m) (msg_userId m) (msg_version m) (msg_responder m) (msg_body m).

(** ** The setters of the classes *)

Definition freq_AddFloorId (m : BFCPMsgFloorRequest) (f : Z) : BFCPMsgFloorRequest :=
  FloorRequestMsg (freq_floorIds m ++ [f]) (freq_beneficiaryId m) (freq_participantProvidedInfo m).

Definition freq_SetBeneficiaryId (m : BFCPMsgFloorRequest) (b : Z) : BFCPMsgFloorRequest :=
  FloorRequestMsg (freq_floorIds m) (Some b) (freq_participantProvidedInfo m).

Definition freq_SetParticipantProvidedInfo (m : BFCPMsgFloorRequest) (i : bytes) : BFCPMsgFloorRequest :=
  FloorRequestMsg (freq_floorIds m) (freq_beneficiaryId m) (Some i).

Definition frel_SetFloorRequestId (m : BFCPMsgFloorRelease) (id : Z) : BFCPMsgFloorRelease :=
  FloorReleaseMsg (Some id).

Definition fq_AddFloorId (m : BFCPMsgFloorQuery) (f : Z) : BFCPMsgFloorQuery :=
  FloorQueryMsg (fq_floorIds m ++ [f]).

Definition frst_SetFloorRequestInformation (m : BFCPMsgFloorRequestStatus)
    (fri : BFCPAttrFloorRequestInformation) : BFCPMsgFloorRequestStatus :=
  FloorRequestStatusMsg (Some fri).

Definition fst_SetFloorId (m : BFCPMsgFloorStatus) (f : Z) : BFCPMsgFloorStatus :=
  FloorStatusMsg (Some f) (fst_floorRequestInformations m).

Definition fst_AddFloorRequestInformation (m : BFCPMsgFloorStatus)
    (fri : BFCPAttrFloorRequestInformation) : BFCPMsgFloorStatus :=
  FloorStatusMsg (fst_floorId m) (fst_floorRequestInformations m ++ [fri]).

Definition ha_AddSupportedPrimitive (m : BFCPMsgHelloAck) (code : Z) : BFCPMsgHelloAck :=
  HelloAckMsg (Supported_Add (ha_supportedPrimitives m) code) (ha_supportedAttributes m).

Definition ha_AddSupportedAttribute (m : BFCPMsgHelloAck) (code : Z) : BFCPMsgHelloAck :=
  HelloAckMsg (ha_supportedPrimitives m) (Supported_Add (ha_supportedAttributes m) code).

Definition err_SetErrorCode (m : BFCPMsgError) (code : ErrorCode) : BFCPMsgError :=
  ErrorMsg (Some code) (err_errorInfo m).

Definition err_SetErrorInfo (m : BFCPMsgError) (info : bytes) : BFCPMsgError :=
  ErrorMsg (err_errorCode m) (Some info).

(** [BFCPMsgFloorRequestStatus::SetDescription] *)
Definition frst_SetDescription (m : BFCPMsgFloorRequestStatus) (info : bytes)
  : BFCPMsgFloorRequestStatus :=
  match frst_floorRequestInformation m with
  | None => m
  | Some fri => FloorRequestStatusMsg (Some (fri_SetDescription fri info))
  end.

(** [BFCPMsgError(const BFCPMessage*, errorCode, errorInfo)] *)
Definition new_error (msg : BFCPMessage) (code : ErrorCode) (info : bytes) : BFCPMessage :=
  new_message (MsgError (ErrorMsg (Some code) (Some info)))
    (msg_transactionId msg) (msg_conferenceId msg) (msg_userId msg).

(** ** Attributes of each class *)

Section Codec.
Context {W : WireOps}.

Definition FloorRequest_SerializeAttributes (m : BFCPMsgFloorRequest) (max : Z) : option bytes :=
  let out := then_write_all max (Some []) (freq_floorIds m)
               (λ f mx, FloorId_Serialize f true mx) in
  let out := then_write_opt max out (freq_beneficiaryId m)
               (λ b mx, BeneficiaryId_Serialize b false mx) in
  then_write_opt max out (freq_participantProvidedInfo m)
    (λ i mx, ParticipantProvidedInfo_Serialize i false mx).

Definition FloorRequest_step (m : BFCPMsgFloorRequest) (type : Z) (mandatory : bool)
    (contents : bytes) : option BFCPMsgFloorRequest :=
  match attr_of_code type with
  | Some Attr_FloorId =>
      match Attr_ReadWord contents with
      | None => None
      | Some f => Some (freq_AddFloorId m f)
      end
  | Some Attr_BeneficiaryId =>
      match Attr_ReadWord contents with
      | None => None
      | Some b => Some (freq_SetBeneficiaryId m b)
      end
  | Some Attr_ParticipantProvidedInfo =>
      Some (freq_SetParticipantProvidedInfo m contents)
  | Some Attr_Priority => Some m
  | _ => skip_unknown m mandatory
  end.

Definition FloorRequest_ParseAttributes (data : bytes) : option BFCPMsgFloorRequest :=
  parse_children FloorRequest_step (FloorRequestMsg [] None None) data.

Definition FloorRequest_IsValid (m : BFCPMsgFloorRequest) : bool :=
  negb (Zlen (freq_floorIds m) <? 1).

Definition FloorRelease_SerializeAttributes (m : BFCPMsgFloorRelease) (max : Z) : option bytes :=
  match frel_floorRequestId m with
  | None => None
  | Some id => FloorRequestId_Serialize id true max
  end.

Definition FloorRelease_step (m : BFCPMsgFloorRelease) (type : Z) (mandatory : bool)
    (contents : bytes) : option BFCPMsgFloorRelease :=
  match attr_of_code type with
  | Some Attr_FloorRequestId =>
      match Attr_ReadWord contents with
      | None => None
      | Some id => Some (frel_SetFloorRequestId m id)
      end
  | _ => skip_unknown m mandatory
  end.

Definition FloorRelease_ParseAttributes (data : bytes) : option BFCPMsgFloorRelease :=
  parse_children FloorRelease_step (FloorReleaseMsg None) data.

Definition FloorRelease_IsValid (m : BFCPMsgFloorRelease) : bool :=
  bool_decide (is_Some (frel_floorRequestId m)).

Definition FloorQuery_SerializeAttributes (m : BFCPMsgFloorQuery) (max : Z) : option bytes :=
  then_write_all max (Some []) (fq_floorIds m) (λ f mx, FloorId_Serialize f false mx).

Definition FloorQuery_step (m : BFCPMsgFloorQuery) (type : Z) (mandatory : bool)
    (contents : bytes) : option BFCPMsgFloorQuery :=
  match attr_of_code type with
  | Some Attr_FloorId =>
      match Attr_ReadWord contents with
      | None => None
      | Some f => Some (fq_AddFloorId m f)
      end
  | _ => skip_unknown m mandatory
  end.

Definition FloorQuery_ParseAttributes (data : bytes) : option BFCPMsgFloorQuery :=
  parse_children FloorQuery_step (FloorQueryMsg []) data.

Definition FloorRequestStatusMsg_SerializeAttributes (m : BFCPMsgFloorRequestStatus) (max : Z)
  : option bytes :=
  match frst_floorRequestInformation m with
  | None => None
  | Some fri => FloorRequestInformation_Serialize fri true max
  end.

Definition FloorRequestStatusMsg_step (m : BFCPMsgFloorRequestStatus) (type : Z)
    (mandatory : bool) (contents : bytes) : option BFCPMsgFloorRequestStatus :=
  match attr_of_code type with
  | Some Attr_FloorRequestInformation =>
      match FloorRequestInformation_Parse contents with
      | None => None
      | Some fri => Some (frst_SetFloorRequestInformation m fri)
      end
  | _ => skip_unknown m mandatory
  end.

Definition FloorRequestStatusMsg_ParseAttributes (data : bytes)
  : option BFCPMsgFloorRequestStatus :=
  parse_children FloorRequestStatusMsg_step (FloorRequestStatusMsg None) data.

Definition FloorRequestStatusMsg_IsValid (m : BFCPMsgFloorRequestStatus) : bool :=
  match frst_floorRequestInformation m with None => false | Some _ => true end.

Definition FloorStatus_SerializeAttributes (m : BFCPMsgFloorStatus) (max : Z) : option bytes :=
  let out := then_write_opt max (Some []) (fst_floorId m)
               (λ f mx, FloorId_Serialize f false mx) in
  then_write_all max out (fst_floorRequestInformations m)
    (λ i mx, FloorRequestInformation_Serialize i false mx).

Definition FloorStatus_step (m : BFCPMsgFloorStatus) (type : Z) (mandatory : bool)
    (contents : bytes) : option BFCPMsgFloorStatus :=
  match attr_of_code type with
  | Some Attr_FloorId =>
      match Attr_ReadWord contents with
      | None => None
      | Some f => Some (fst_SetFloorId m f)
      end
  | Some Attr_FloorRequestInformation =>
      match FloorRequestInformation_Parse contents with
      | None => None
      | Some fri => Some (fst_AddFloorRequestInformation m fri)
      end
  | _ => skip_unknown m mandatory
  end.

Definition FloorStatus_ParseAttributes (data : bytes) : option BFCPMsgFloorStatus :=
  parse_children FloorStatus_step (FloorStatusMsg None []) data.

Definition HelloAck_SerializeAttributes (m : BFCPMsgHelloAck) (max : Z) : option bytes :=
  match SupportedPrimitives_Serialize (ha_supportedPrimitives m) true max with
  | None => None
  | Some out =>
      then_write max (Some out) (SupportedAttributes_Serialize (ha_supportedAttributes m) true)
  end.

Definition HelloAck_step (m : BFCPMsgHelloAck) (type : Z) (mandatory : bool)
    (contents : bytes) : option BFCPMsgHelloAck :=
  match attr_of_code type with
  | Some Attr_SupportedPrimitives =>
      Some (foldl ha_AddSupportedPrimitive m contents)
  | Some Attr_SupportedAttributes =>
      Some (foldl (λ m o, ha_AddSupportedAttribute m (Z.shiftr o 1)) m contents)
  | _ => skip_unknown m mandatory
  end.

Definition HelloAck_ParseAttributes (data : bytes) : option BFCPMsgHelloAck :=
  parse_children HelloAck_step (HelloAckMsg [] []) data.

Definition Error_SerializeAttributes (m : BFCPMsgError) (max : Z) : option bytes :=
  match err_errorCode m with
  | None => None
  | Some code =>
      match ErrorCode_Serialize code true max with
      | None => None
      | Some out =>
          then_write_opt max (Some out) (err_errorInfo m)
            (λ i mx, ErrorInfo_Serialize i false mx)
      end
  end.

Definition Error_step (m : BFCPMsgError) (type : Z) (mandatory : bool)
    (contents : bytes) : option BFCPMsgError :=
  match attr_of_code type with
  | Some Attr_ErrorCode =>
      match ErrorCode_Parse contents with
      | None => None
      | Some code => Some (err_SetErrorCode m code)
      end
  | Some Attr_ErrorInfo => Some (err_SetErrorInfo m contents)
  | _ => skip_unknown m mandatory
  end.

Definition Error_ParseAttributes (data : bytes) : option BFCPMsgError :=
  parse_children Error_step (ErrorMsg None None) data.

Definition Error_IsValid (m : BFCPMsgError) : bool :=
  match err_errorCode m with None => false | Some _ => true end.

(** The base class: no attribute written, any well-formed ones skipped. *)
Definition Base_SerializeAttributes (max : Z) : option bytes := Some [].

Definition Base_ParseAttributes (data : bytes) : option unit := skip_children data.

(** ** Dispatch on the class *)

Definition SerializeAttributes (b : MsgBody) (max : Z) : option bytes :=
  match b with
  | MsgFloorRequest m => FloorRequest_SerializeAttributes m max
  | MsgFloorRelease m => FloorRelease_SerializeAttributes m max
  | MsgFloorQuery m => FloorQuery_SerializeAttributes m max
  | MsgFloorRequestStatus m => FloorRequestStatusMsg_SerializeAttributes m max
  | MsgFloorStatus m => FloorStatus_SerializeAttributes m max
  | MsgHello => Base_SerializeAttributes max
  | MsgHelloAck m => HelloAck_SerializeAttributes m max
  | MsgError m => Error_SerializeAttributes m max
  | MsgBase _ => Base_SerializeAttributes max
  end.

Definition IsValid (b : MsgBody) : bool :=
  match b with
  | MsgFloorRequest m => FloorRequest_IsValid m
  | MsgFloorRelease m => FloorRelease_IsValid m
  | MsgFloorRequestStatus m => FloorRequestStatusMsg_IsValid m
  | MsgError m => Error_IsValid m
  | _ => true
  end.

(** The [switch (primitive)] of [Parse] and the [ParseAttributes] of the class it
    builds. *)
Definition parse_body (p : Primitive) (data : bytes) : option MsgBody :=
  match p with
  | P_FloorRequest => MsgFloorRequest <$> FloorRequest_ParseAttributes data
  | P_FloorRelease => MsgFloorRelease <$> FloorRelease_ParseAttributes data
  | P_FloorQuery => MsgFloorQuery <$> FloorQuery_ParseAttributes data
  | P_FloorRequestStatus => MsgFloorRequestStatus <$> FloorRequestStatusMsg_ParseAttributes data
  | P_FloorStatus => MsgFloorStatus <$> FloorStatus_ParseAttributes data
  | P_Hello => (λ _, MsgHello) <$> Base_ParseAttributes data
  | P_HelloAck => MsgHelloAck <$> HelloAck_ParseAttributes data
  | P_Error => MsgError <$> Error_ParseAttributes data
  | _ => (λ _, MsgBase p) <$> Base_ParseAttributes data
  end.

(** ** The common header *)

(** [Serialize(out, max, version)] *)
Definition Message_Serialize (m : BFCPMessage) (max version : Z) : option bytes :=
  if max <? Msg_HeaderLen then None
  else
    match SerializeAttributes (msg_body m) (max - Msg_HeaderLen) with
    | None => None
    | Some payload =>
        let n := Zlen payload in
        if negb (n mod 4 =? 0) then None
        else if 0xFFFF <? n / 4 then None
        else
          let out := [to_byte (Z.lor (Z.shiftl version 5) (if msg_responder m then 0x10 else 0));
                      to_byte (prim_code (GetPrimitive m))] ++ replicate 10 0 in
          let out := set2 out 2 (n / 4) in
          let out := set4 out 4 (msg_conferenceId m) in
          let out := set2 out 8 (msg_transactionId m) in
          let out := set2 out 10 (msg_userId m) in
          Some (out ++ payload)
    end.

Definition Message_Parse (data : bytes) : option BFCPMessage :=
  let size := Zlen data in
  if size <? Msg_HeaderLen then None
  else
    let version := Z.shiftr (zget 0 data) 5 in
    let responder := negb (Z.land (zget 0 data) 0x10 =? 0) in
    let fragmented := negb (Z.land (zget 0 data) 0x08 =? 0) in
    if negb (version =? VersionReliable) && negb (version =? VersionUnreliable) then None
    else if fragmented then None
    else
      let payload := get2 data 2 * 4 in
      if size <? Msg_HeaderLen + payload then None
      else
        let primitive := prim_of_code (zget 1 data) in
        let conferenceId := to_int32 (get4 data 4) in
        let transactionId := get2 data 8 in
        let userId := get2 data 10 in
        match parse_body primitive (ztake payload (zdrop Msg_HeaderLen data)) with
        | None => None
        | Some body =>
            if IsValid body
            then Some (mkMessage transactionId conferenceId userId version responder body)
            else None
        end.
End Codec.
