(* ===== verification/BfcpAttrProps.v ===== *)
(** * The attribute walker implements the TLV grammar

    [tlvs data l] says that [data] is exactly the sequence of padded TLVs [l]
    (RFC 4582, section 5.2).  The cursor accepts a buffer exactly when it has
    such a reading, hands out the attributes of that reading in order, and always
    stops. *)

From S2P Require Import Prelude Wire BfcpAttr.

(** ** The grammar *)

Record TLV := mkTLV { tlv_type : Z; tlv_mandatory : bool; tlv_contents : bytes }.

Definition tlv_len (c : bytes) : Z := Attr_HeaderLen + Zlen c.

(** An encoding of one TLV; the padding octets are any. *)
Definition tlv_enc (t : TLV) (pad : bytes) : bytes :=
  [2 * tlv_type t + (if tlv_mandatory t then 1 else 0); tlv_len (tlv_contents t)]
  ++ tlv_contents t ++ pad.

Definition tlv_ok (t : TLV) : Prop :=
  0 <= tlv_type t < 128 ∧ tlv_len (tlv_contents t) <= Attr_MaxLength.

Definition pad_ok (t : TLV) (pad : bytes) : Prop :=
  Zlen pad = - tlv_len (tlv_contents t) mod 4.

Inductive tlvs : bytes → list TLV → Prop :=
  | tlvs_nil : tlvs [] []
  | tlvs_cons t pad data l :
      tlv_ok t → pad_ok t pad → tlvs data l → tlvs (tlv_enc t pad ++ data) (t :: l).

(** The loop over the attributes of a reading. *)
Fixpoint fold_attrs {A} (step : A → Z → bool → bytes → option A) (a : A) (l : list TLV)
  : option A :=
  match l with
  | [] => Some a
  | t :: l' =>
      match step a (tlv_type t) (tlv_mandatory t) (tlv_contents t) with
      | None => None
      | Some a' => fold_attrs step a' l'
      end
  end.

(** ** [Padded] *)

Lemma Padded_small len : 0 <= len <= 255 → Padded len = len + - len mod 4.
Proof.
  intros H.
  assert (forallb (λ n, Padded (Z.of_nat n) =? Z.of_nat n + - Z.of_nat n mod 4) (seq 0 256)
          = true) as Hall by (vm_compute; reflexivity).
  rewrite forallb_forall in Hall. specialize (Hall (Z.to_nat len)).
  rewrite Z2Nat.id, Z.eqb_eq in Hall by lia. apply Hall, in_seq. lia.
Qed.

Lemma Padded_bounds len : 0 <= len <= 255 → len <= Padded len < len + 4.
Proof.
  intros H. rewrite Padded_small by done.
  pose proof (Z.mod_pos_bound (- len) 4). lia.
Qed.

Lemma Padded_mod4 len : 0 <= len <= 255 → Padded len mod 4 = 0.
Proof. intros H. rewrite Padded_small by done. Z.div_mod_to_equations. lia. Qed.

(** ** One step of the cursor *)

Definition remaining (c : BFCPAttrCursor) : bytes := zdrop (cur_pos c) (cur_data c).

Definition cursor_ok (c : BFCPAttrCursor) : Prop :=
  0 <= cur_pos c <= Zlen (cur_data c) ∧ bytes_ok (cur_data c) ∧ cur_malformed c = false.

Lemma tlv_enc_len t pad : Zlen (tlv_enc t pad) = tlv_len (tlv_contents t) + Zlen pad.
Proof.
  unfold tlv_enc, tlv_len, Attr_HeaderLen. autorewrite with zlen. lia.
Qed.

Lemma tlv_enc_pos t pad : pad_ok t pad → 2 <= Zlen (tlv_enc t pad).
Proof.
  intros Hp. rewrite tlv_enc_len. unfold tlv_len, Attr_HeaderLen.
  pose proof (Zlen_nonneg pad). pose proof (Zlen_nonneg (tlv_contents t)). lia.
Qed.

Lemma land_1 b : Z.land b 1 = b mod 2.
Proof. exact (Z.land_ones b 1 ltac:(lia)). Qed.

Lemma header_octet (b : Z) :
  is_byte b → b = 2 * Z.shiftr b 1 + (if negb (Z.land b 1 =? 0) then 1 else 0).
Proof.
  intros Hb. rewrite Z.shiftr_div_pow2 by lia. change (2 ^ 1) with 2.
  rewrite land_1.
  destruct (Z.eqb_spec (b mod 2) 0); simpl; Z.div_mod_to_equations; lia.
Qed.

Lemma header_octet_inv t (m : bool) :
  0 <= t → let b := 2 * t + (if m then 1 else 0) in
  Z.shiftr b 1 = t ∧ negb (Z.land b 1 =? 0) = m.
Proof.
  intros Ht b. unfold b. rewrite Z.shiftr_div_pow2 by lia. change (2 ^ 1) with 2.
  rewrite land_1.
  split.
  - destruct m; Z.div_mod_to_equations; lia.
  - destruct m; [rewrite (proj2 (Z.eqb_neq _ _))|rewrite (proj2 (Z.eqb_eq _ _))];
      [done| |done|]; Z.div_mod_to_equations; lia.
Qed.

Lemma zdrop_two (l : bytes) : 2 <= Zlen l → l = [zget 0 l; zget 1 l] ++ zdrop 2 l.
Proof.
  destruct l as [|x [|y l]]; unfold Zlen; simpl; [lia|lia|]. intros _.
  unfold zdrop, zget. simpl. by rewrite drop_0.
Qed.

(** A step that succeeds peels one TLV off what remains. *)
Lemma Next_true c c' :
  cursor_ok c → Cursor_Next c = (true, c') →
  ∃ pad, let t := mkTLV (cur_type c') (cur_mandatory c') (cur_contents c') in
    tlv_ok t ∧ pad_ok t pad ∧ remaining c = tlv_enc t pad ++ remaining c' ∧ cursor_ok c'.
Proof.
  intros (Hpos & Hb & Hm) HN. unfold Cursor_Next in HN. rewrite Hm in HN. simpl in HN.
  destruct (cur_pos c =? Zlen (cur_data c)) eqn:E1; [done|].
  destruct (Zlen (cur_data c) <? cur_pos c + Attr_HeaderLen) eqn:E2; [done|].
  destruct (zget (cur_pos c + 1) (cur_data c) <? Attr_HeaderLen) eqn:E3; [done|].
  destruct (Zlen (cur_data c) <? cur_pos c + Padded (zget (cur_pos c + 1) (cur_data c))) eqn:E4;
    [done|].
  ztests. unfold Attr_HeaderLen in *. simplify_eq.
  set (data := cur_data c) in *. set (pos := cur_pos c) in *.
  set (len := zget (pos + 1) data) in *.
  pose proof (bytes_ok_zget (pos + 1) data Hb) as Hlen. fold len in Hlen.
  pose proof (bytes_ok_zget pos data Hb) as Hb0. unfold is_byte in Hlen.
  pose proof (Padded_bounds len ltac:(lia)) as HP.
  set (rest := zdrop (pos + 2) data).
  assert (Zlen rest = Zlen data - (pos + 2)) as Hrest by (apply Zlen_zdrop; lia).
  assert (Zlen (ztake (len - 2) rest) = len - 2) as Hct by (apply Zlen_ztake; lia).
  exists (ztake (Padded len - len) (zdrop (len - 2) rest)).
  cbn [cur_type cur_mandatory cur_contents cur_pos cur_data].
  assert (Zlen (zdrop (len - 2) rest) = Zlen rest - (len - 2)) as Hd by (apply Zlen_zdrop; lia).
  repeat split; cbn [tlv_type tlv_contents]; try (unfold tlv_len, Attr_HeaderLen); try lia; auto.
  - rewrite Z.shiftr_div_pow2 by lia. apply Z.div_pos; unfold is_byte in Hb0; lia.
  - rewrite Z.shiftr_div_pow2 by lia. change (2 ^ 1) with 2.
    apply Z.div_lt_upper_bound; unfold is_byte in Hb0; lia.
  - unfold Attr_MaxLength. lia.
  - unfold pad_ok, tlv_len, Attr_HeaderLen. cbn [tlv_contents].
    rewrite Hct, Zlen_ztake by lia. rewrite Padded_small by lia.
    replace (2 + (len - 2)) with len by lia. lia.
  - unfold remaining, tlv_enc, tlv_len. cbn [tlv_type tlv_mandatory tlv_contents cur_pos cur_data].
    rewrite Hct. unfold Attr_HeaderLen. replace (2 + (len - 2)) with len by lia.
    rewrite <- header_octet by done.
    fold data pos. rewrite (zdrop_two (zdrop pos data)) by (rewrite Zlen_zdrop; lia).
    rewrite !zget_zdrop, Z.add_0_r, zdrop_zdrop by lia. fold rest len.
    rewrite <- !app_assoc. f_equal.
    rewrite <- (ztake_zdrop (len - 2) rest) at 1. f_equal.
    rewrite <- (ztake_zdrop (Padded len - len) (zdrop (len - 2) rest)) at 1. f_equal.
    unfold rest. rewrite !zdrop_zdrop by lia. f_equal. lia.
  - simpl. lia.
Qed.

Lemma tlv_enc_head t pad data :
  zget 0 (tlv_enc t pad ++ data) = 2 * tlv_type t + (if tlv_mandatory t then 1 else 0) ∧
  zget 1 (tlv_enc t pad ++ data) = tlv_len (tlv_contents t).
Proof. done. Qed.

(** A buffer has at most one reading. *)
Lemma tlvs_inv t pad data l :
  tlv_ok t → pad_ok t pad → tlvs (tlv_enc t pad ++ data) l →
  ∃ l', l = t :: l' ∧ tlvs data l'.
Proof.
  intros Ht Hp H. remember (tlv_enc t pad ++ data) as D eqn:Heq.
  destruct H as [|t' pad' data' l' Ht' Hp' Hd]; [done|]. exists l'. destruct t as [ty m c], t' as [ty' m' c'].
  unfold tlv_ok, pad_ok, tlv_enc, tlv_len, Attr_HeaderLen in *. simpl in *.
  injection Heq as H0 H1 Heq.
  assert (ty' = ty ∧ m' = m) as [-> ->] by (destruct m, m'; split; try done; lia).
  rewrite <- !app_assoc in Heq.
  assert (length c' = length c) by (unfold Zlen in *; lia).
  apply app_inj_1 in Heq as [-> Heq]; [|done].
  assert (length pad' = length pad) by (unfold Zlen in *; lia).
  apply app_inj_1 in Heq as [-> ->]; done.
Qed.

Lemma Next_false c c' :
  cursor_ok c → Cursor_Next c = (false, c') →
  (remaining c = [] ∧ cur_malformed c' = false) ∨
  (remaining c ≠ [] ∧ cur_malformed c' = true ∧ ∀ l, ¬ tlvs (remaining c) l).
Proof.
  intros (Hpos & Hb & Hm) HN. unfold Cursor_Next in HN. rewrite Hm in HN. simpl in HN.
  destruct (Z.eqb_spec (cur_pos c) (Zlen (cur_data c))) as [Hend|Hend].
  { simplify_eq. left. split; [|done]. unfold remaining. rewrite Hend.
    unfold zdrop. rewrite Zlen_to_nat. by apply drop_ge. }
  right. split.
  { intros Hr. apply (f_equal Zlen) in Hr. unfold remaining in Hr.
    rewrite Zlen_zdrop in Hr by lia. rewrite Zlen_nil in Hr. lia. }
  assert (∀ l, tlvs (remaining c) l →
    ∃ len, len = zget (cur_pos c + 1) (cur_data c) ∧ 2 <= len <= 255 ∧
           cur_pos c + 2 <= Zlen (cur_data c) ∧ cur_pos c + Padded len <= Zlen (cur_data c)) as Hl.
  { intros l Hl. assert (Zlen (remaining c) = Zlen (cur_data c) - cur_pos c) as Hlen
      by (apply Zlen_zdrop; lia).
    remember (remaining c) as D eqn:Heq.
    destruct Hl as [|t pad data l' [_ Ht] Hp Hd]; [rewrite Zlen_nil in Hlen; lia|].
    pose proof (tlv_enc_head t pad data) as [_ H1]. rewrite Heq in H1.
    unfold remaining in H1. rewrite zget_zdrop in H1 by lia.
    rewrite Zlen_app, tlv_enc_len, Hp in Hlen.
    pose proof (Zlen_nonneg data). pose proof (Zlen_nonneg (tlv_contents t)).
    unfold Attr_MaxLength in Ht. rewrite H1. exists (tlv_len (tlv_contents t)).
    assert (2 <= tlv_len (tlv_contents t)) by (unfold tlv_len, Attr_HeaderLen; lia).
    pose proof (Z.mod_pos_bound (- tlv_len (tlv_contents t)) 4).
    rewrite Padded_small by lia. lia. }
  unfold Attr_HeaderLen in *.
  repeat (case_match; simplify_eq); ztests;
    (split; [done|]; intros l (len & -> & ? & ? & ?)%Hl; lia).
Qed.

(** ** The walk *)

Lemma walk_spec {A} (step : A → Z → bool → bytes → option A) fuel a c :
  cursor_ok c → (length (remaining c) < fuel)%nat →
  match walk step fuel a c with
  | WalkDone b => ∃ l, tlvs (remaining c) l ∧ fold_attrs step a l = Some b
  | WalkRefused => ∀ l, tlvs (remaining c) l → fold_attrs step a l = None
  | WalkFuel => False
  end.
Proof.
  revert a c. induction fuel as [|fuel IH]; intros a c Hc Hf; [lia|]. simpl.
  destruct (Cursor_Next c) as [[] c'] eqn:HN.
  - destruct (Next_true _ _ Hc HN) as (pad & Ht & Hp & Hr & Hc'). rewrite Hr in *.
    set (t := mkTLV _ _ _) in *.
    assert (length (remaining c') < fuel)%nat as Hf'.
    { pose proof (tlv_enc_pos t pad Hp) as H2. unfold Zlen in H2.
      rewrite length_app in Hf. lia. }
    destruct (step a _ _ _) as [a'|] eqn:Hstep.
    + specialize (IH a' c' Hc' Hf'). destruct (walk step fuel a' c').
      * destruct IH as (l & Hl & Hfold). exists (t :: l). split; [by constructor|].
        simpl. by rewrite Hstep.
      * intros l Hl. apply tlvs_inv in Hl as (l' & -> & Hl'); [|done..].
        simpl. rewrite Hstep. by apply IH.
      * done.
    + intros l Hl. apply tlvs_inv in Hl as (l' & -> & Hl'); [|done..].
      simpl. by rewrite Hstep.
  - destruct (Next_false _ _ Hc HN) as [[Hr ->]|(Hr & -> & Hno)].
    + exists []. rewrite Hr. by split; [constructor|].
    + intros l Hl. by destruct (Hno l).
Qed.

Lemma new_Cursor_ok data : bytes_ok data → cursor_ok (new_Cursor data).
Proof. intros. repeat split; simpl; auto. lia. apply Zlen_nonneg. Qed.

Lemma remaining_new data : remaining (new_Cursor data) = data.
Proof. apply drop_0. Qed.

Lemma walk_all_spec {A} (step : A → Z → bool → bytes → option A) a data :
  bytes_ok data →
  match walk_all step a data with
  | WalkDone b => ∃ l, tlvs data l ∧ fold_attrs step a l = Some b
  | WalkRefused => ∀ l, tlvs data l → fold_attrs step a l = None
  | WalkFuel => False
  end.
Proof.
  intros Hb. unfold walk_all.
  pose proof (walk_spec step (S (length data)) a _ (new_Cursor_ok data Hb)) as H.
  rewrite remaining_new in H. apply H. lia.
Qed.

(** The children parsed are the fold over the reading of the buffer. *)
Lemma parse_children_tlvs {A} (step : A → Z → bool → bytes → option A) a data l :
  bytes_ok data → tlvs data l → parse_children step a data = fold_attrs step a l.
Proof.
  intros Hb Hl. unfold parse_children. pose proof (walk_all_spec step a data Hb) as H.
  destruct (walk_all step a data).
  - destruct H as (l' & Hl' & Hf).
    assert (l' = l) as ->; [|done]. clear - Hl Hl'. revert l' Hl'.
    induction Hl as [|t pad data l Ht Hp Hl IH]; intros l' Hl'.
    + by inversion Hl'.
    + apply tlvs_inv in Hl' as (l'' & -> & Hl''); [|done..]. f_equal. eauto.
  - by rewrite H.
  - done.
Qed.
