(* ===== verification/BfcpAttrRound.v ===== *)
(** * Attribute round trips

    What an attribute class serializes is one TLV of the grammar, and parsing the
    contents of that TLV gives the attribute back.  The lemmas go through
    [wrote]: the octets a sequence of [Serialize] calls appended are the encoding
    of TLVs of given [shape]s. *)

From S2P Require Import Prelude Wire BfcpAttr BfcpAttrProps.

(** ** Well-formed attributes: the values their wire fields can hold *)

Definition wf_RequestStatus (a : BFCPAttrRequestStatus) : Prop := is_byte (rs_queuePosition a).

Definition opt_all {A} (P : A → Prop) (o : option A) : Prop :=
  match o with None => True | Some a => P a end.

Definition wf_FloorRequestStatus (a : BFCPAttrFloorRequestStatus) : Prop :=
  is_word (frs_floorId a) ∧ opt_all wf_RequestStatus (frs_requestStatus a).

Definition wf_OverallRequestStatus (a : BFCPAttrOverallRequestStatus) : Prop :=
  is_word (ors_floorRequestId a) ∧ opt_all wf_RequestStatus (ors_requestStatus a)
  ∧ opt_all bytes_ok (ors_statusInfo a).

Definition wf_FloorRequestInformation (a : BFCPAttrFloorRequestInformation) : Prop :=
  is_word (fri_floorRequestId a)
  ∧ Forall wf_FloorRequestStatus (fri_floorRequestStatuses a)
  ∧ opt_all wf_OverallRequestStatus (fri_overallRequestStatus a)
  ∧ opt_all is_word (fri_beneficiaryInformation a)
  ∧ opt_all is_word (fri_requestedByInformation a).

(** ** Shapes *)

Definition shape := TLV → Prop.

(** A TLV of type [n] whose contents satisfy [Q]. *)
Definition attr_shape (n : AttrName) (m : bool) (Q : bytes → Prop) : shape :=
  λ t, tlv_type t = attr_code n ∧ tlv_mandatory t = m ∧ Q (tlv_contents t)
       ∧ bytes_ok (tlv_contents t).

(** [ser] writes one TLV of shape [P] or fails. *)
Definition writes (ser : Z → option bytes) (P : shape) : Prop :=
  ∀ max bs, ser max = Some bs →
    ∃ t pad, P t ∧ tlv_ok t ∧ pad_ok t pad ∧ bs = tlv_enc t pad ∧ bytes_ok bs
             ∧ Zlen bs <= max ∧ Zlen bs mod 4 = 0.

(** [o] is [base] followed by TLVs of the shapes [Ps]. *)
Definition wrote (base : bytes) (Ps : list shape) (o : bytes) : Prop :=
  ∃ data l, o = base ++ data ∧ tlvs data l ∧ Forall2 (λ (P : shape) t, P t) Ps l
            ∧ bytes_ok data ∧ Zlen data mod 4 = 0.

Definition opt_shape {A} (o : option A) (P : A → shape) : list shape :=
  match o with None => [] | Some a => [P a] end.

Lemma attr_of_code_code n : attr_of_code (attr_code n) = Some n.
Proof. by destruct n. Qed.

Lemma attr_code_range n : 1 <= attr_code n <= 18.
Proof. destruct n; simpl; lia. Qed.

Lemma type_octet n (m : bool) :
  to_byte (Z.lor (Z.shiftl (attr_code n) 1) (if m then 1 else 0))
  = 2 * attr_code n + (if m then 1 else 0).
Proof. destruct n, m; reflexivity. Qed.

Lemma zeros_bytes n : bytes_ok (replicate n 0).
Proof. apply Forall_replicate. unfold is_byte. lia. Qed.

Lemma Attr_Write_writes n m c :
  bytes_ok c → writes (λ max, Attr_Write max n m c) (attr_shape n m (eq c)).
Proof.
  intros Hc max bs H. unfold Attr_Write in H.
  destruct (Attr_MaxLength <? Attr_HeaderLen + Zlen c) eqn:E1; [done|].
  destruct (max <? Padded (Attr_HeaderLen + Zlen c)) eqn:E2; [done|]. ztests. simplify_eq.
  set (len := Attr_HeaderLen + Zlen c) in *.
  assert (2 <= len) by (unfold len, Attr_HeaderLen; pose proof (Zlen_nonneg c); lia).
  unfold Attr_MaxLength in E1. pose proof (Padded_bounds len ltac:(lia)) as HP.
  pose proof (attr_code_range n).
  rewrite type_octet, (to_byte_id len) by (unfold is_byte; lia).
  exists (mkTLV (attr_code n) m c), (replicate (Z.to_nat (Padded len - len)) 0).
  assert (Zlen (replicate (Z.to_nat (Padded len - len)) 0) = Padded len - len) as Hpad
    by (rewrite Zlen_replicate; lia).
  repeat split; cbn [tlv_type tlv_contents]; auto; try lia.
  - unfold pad_ok. cbn [tlv_contents]. fold len. rewrite Hpad, Padded_small by lia.
    fold (tlv_len c) in len. unfold len. lia.
  - repeat constructor; try (unfold is_byte; destruct m; lia).
    apply bytes_ok_app. auto using zeros_bytes.
  - autorewrite with zlen. unfold len, Attr_HeaderLen in *. lia.
  - replace (Zlen _) with (Padded len); [by apply Padded_mod4; lia|].
    autorewrite with zlen. unfold len, Attr_HeaderLen in *. lia.
Qed.

Lemma writes_weaken ser (P Q : shape) : writes ser P → (∀ t, P t → Q t) → writes ser Q.
Proof. intros H HPQ max bs Hs. destruct (H max bs Hs) as (t & pad & Ht). naive_solver. Qed.

Lemma wrote_nil base : wrote base [] base.
Proof. exists [], []. rewrite app_nil_r. repeat split; constructor. Qed.

Lemma tlvs_snoc data l t pad :
  tlvs data l → tlv_ok t → pad_ok t pad → tlvs (data ++ tlv_enc t pad) (l ++ [t]).
Proof.
  intros Hl Ht Hp. induction Hl as [|t' pad' data l Ht' Hp' Hl IH]; simpl.
  - rewrite <- (app_nil_r (tlv_enc t pad)). repeat constructor; auto; apply Ht.
  - rewrite <- app_assoc. by constructor.
Qed.

Lemma then_write_wrote base Ps max out ser P o :
  (∀ o, out = Some o → wrote base Ps o) → writes ser P →
  then_write max out ser = Some o → wrote base (Ps ++ [P]) o.
Proof.
  intros Hout Hser H. unfold then_write in H. destruct out as [o1|]; [|done].
  destruct (ser (max - Zlen o1)) as [w|] eqn:Ew; [|done]. simplify_eq.
  destruct (Hout o1 eq_refl) as (data & l & -> & Hl & Hf & Hb & H4).
  destruct (Hser _ _ Ew) as (t & pad & HP & Ht & Hp & -> & Hbs & _ & H4').
  exists (data ++ tlv_enc t pad), (l ++ [t]). repeat split.
  - by rewrite app_assoc.
  - by apply tlvs_snoc.
  - by apply Forall2_app; [|constructor].
  - by apply bytes_ok_app.
  - rewrite Zlen_app. Z.div_mod_to_equations. lia.
Qed.

Lemma then_write_opt_wrote {A} base Ps max out (child : option A) ser (P : A → shape) o :
  (∀ o, out = Some o → wrote base Ps o) → (∀ a, child = Some a → writes (ser a) (P a)) →
  then_write_opt max out child ser = Some o → wrote base (Ps ++ opt_shape child P) o.
Proof.
  intros Hout Hser H. destruct child as [a|]; simpl in *.
  - eapply then_write_wrote; eauto.
  - rewrite app_nil_r. eauto.
Qed.

Lemma then_write_all_wrote {A} base Ps max out (children : list A) ser (P : A → shape) o :
  (∀ o, out = Some o → wrote base Ps o) → Forall (λ a, writes (ser a) (P a)) children →
  then_write_all max out children ser = Some o → wrote base (Ps ++ (P <$> children)) o.
Proof.
  intros Hout Hser. revert Ps out Hout.
  induction Hser as [|a children Ha Hser IH]; intros Ps out Hout H; simpl in *.
  - rewrite app_nil_r. eauto.
  - rewrite cons_middle, app_assoc. eapply IH; [|done].
    intros o' Ho'. eapply then_write_wrote; eauto.
Qed.

Lemma fold_attrs_app {A} (step : A → Z → bool → bytes → option A) a l k :
  fold_attrs step a (l ++ k) =
  match fold_attrs step a l with None => None | Some b => fold_attrs step b k end.
Proof.
  revert a. induction l as [|t l IH]; intros a; simpl; [done|].
  by destruct (step a _ _ _).
Qed.

(** What [wrote] says of a walk over the appended octets. *)
Lemma wrote_parse {A} (step : A → Z → bool → bytes → option A) base Ps o a :
  wrote base Ps o →
  ∃ l, Forall2 (λ (P : shape) t, P t) Ps l ∧
       parse_children step a (zdrop (Zlen base) o) = fold_attrs step a l.
Proof.
  intros (data & l & -> & Hl & Hf & Hb & _). exists l. split; [done|].
  rewrite zdrop_app by done. by apply parse_children_tlvs.
Qed.

Lemma wrote_bytes base Ps o : bytes_ok base → wrote base Ps o → bytes_ok o.
Proof. intros Hb (data & l & -> & _ & _ & Hd & _). by apply bytes_ok_app. Qed.

Lemma wrote_mod4 base Ps o : wrote base Ps o → (Zlen o - Zlen base) mod 4 = 0.
Proof.
  intros (data & l & -> & _ & _ & _ & H4). rewrite Zlen_app.
  replace (_ - _) with (Zlen data) by lia. done.
Qed.

(** ** The classes *)

(** A TLV of type [n] whose contents parse to [a]. *)
Definition parse_shape {A} (n : AttrName) (m : bool) (parse : bytes → option A) (a : A)
  : shape :=
  attr_shape n m (λ c, parse c = Some a).

Lemma attr_shape_eq n m c (Q : bytes → Prop) t :
  Q c → attr_shape n m (eq c) t → attr_shape n m Q t.
Proof. intros HQ (? & ? & Hc & ?). repeat split; auto. by rewrite <- Hc. Qed.

Lemma grouped_writes n m (contents : option bytes) Q :
  (∀ c, contents = Some c → bytes_ok c ∧ Q c) →
  writes (λ max, match contents with None => None | Some c => Attr_Write max n m c end)
    (attr_shape n m Q).
Proof.
  intros H. destruct contents as [c|]; [|done]. destruct (H c eq_refl) as [Hb Hc].
  eapply writes_weaken; [by apply Attr_Write_writes|].
  intros t. by apply attr_shape_eq.
Qed.

(** One child: [fold_attrs] consumes it with the setter its type selects. *)
Lemma fold_attrs_shape {A B} (step : A → Z → bool → bytes → option A) n m
    (parse : bytes → option B) b a a' t l :
  parse_shape n m parse b t →
  (∀ c, parse c = Some b → step a (attr_code n) m c = Some a') →
  fold_attrs step a (t :: l) = fold_attrs step a' l.
Proof. intros (Ht & Hm & Hc & _) Hstep. simpl. by rewrite Ht, Hm, Hstep. Qed.

(** Read a [Forall2] over a literal list of shapes. *)
Ltac shapes_inv :=
  repeat match goal with
  | H : Forall2 _ (_ :: _) ?l |- _ =>
      let t := fresh "t" in let k := fresh "k" in
      apply Forall2_cons_inv_l in H as (t & k & ? & H & ->)
  | H : Forall2 _ [] ?l |- _ => apply Forall2_nil_inv_l in H; subst
  end; cbn [app].

(** Consume the next child of a fold; [a'] is the attribute after it. *)
Ltac eat_shape a' :=
  match goal with
  | H : parse_shape _ _ _ _ ?t |- context [fold_attrs ?step ?a (?t :: ?l)] =>
      rewrite (fold_attrs_shape step _ _ _ _ a a' t l H);
      [|let c := fresh in let Hc := fresh in
        intros c Hc; match step with ?f _ => unfold f | _ => unfold step end;
        rewrite attr_of_code_code; rewrite ?Hc; simplify_eq; reflexivity]
  end.

Section Classes.
Context {W : WireOps} {WL : WireLaws W}.

Lemma word_contents_len v : Zlen (word_contents v) = 2.
Proof. apply set2_length. Qed.

Lemma word_contents_bytes v : bytes_ok (word_contents v).
Proof. apply set2_bytes. repeat constructor; unfold is_byte; lia. Qed.

Lemma ReadWord_word_contents v data :
  is_word v → Attr_ReadWord (word_contents v ++ data) = Some v.
Proof.
  intros Hv. unfold Attr_ReadWord.
  rewrite Zlen_app, word_contents_len. pose proof (Zlen_nonneg data).
  destruct (Z.ltb_spec (2 + Zlen data) 2); [lia|].
  rewrite get2_app by (rewrite ?word_contents_len; lia).
  unfold word_contents. rewrite get2_set2 by (autorewrite with zlen; lia).
  by rewrite (to_word_id v Hv), (to_word_id v Hv).
Qed.

Lemma word_writes n m v :
  is_word v →
  writes (λ max, Attr_Write max n m (word_contents v)) (parse_shape n m Attr_ReadWord v).
Proof.
  intros Hv. eapply writes_weaken; [apply Attr_Write_writes, word_contents_bytes|].
  intros t. apply attr_shape_eq.
  rewrite <- (app_nil_r (word_contents v)). by apply ReadWord_word_contents.
Qed.

Lemma skip_children_nil : skip_children [] = Some tt.
Proof. done. Qed.

(** BENEFICIARY-INFORMATION and REQUESTED-BY-INFORMATION hold no child. *)
Lemma word_info_writes n m v (parse : bytes → option Z) :
  is_word v →
  (∀ c x, Attr_ReadWord c = Some x → Zlen c = 2 → parse c = Some x) →
  writes (λ max, Attr_Write max n m (word_contents v)) (parse_shape n m parse v).
Proof.
  intros Hv Hparse. eapply writes_weaken; [apply Attr_Write_writes, word_contents_bytes|].
  intros t. apply attr_shape_eq. apply Hparse; [|apply word_contents_len].
  rewrite <- (app_nil_r (word_contents v)). by apply ReadWord_word_contents.
Qed.

Lemma zdrop_2_nil (c : bytes) : Zlen c = 2 → zdrop 2 c = [].
Proof. unfold Zlen, zdrop. intros. apply drop_ge. lia. Qed.

Lemma BeneficiaryInformation_writes v m :
  is_word v → writes (BeneficiaryInformation_Serialize v m)
    (parse_shape Attr_BeneficiaryInformation m BeneficiaryInformation_Parse v).
Proof.
  intros. apply word_info_writes; [done|]. intros c x Hx Hc.
  unfold BeneficiaryInformation_Parse. by rewrite Hx, zdrop_2_nil, skip_children_nil.
Qed.

Lemma RequestedByInformation_writes v m :
  is_word v → writes (RequestedByInformation_Serialize v m)
    (parse_shape Attr_RequestedByInformation m RequestedByInformation_Parse v).
Proof.
  intros. apply word_info_writes; [done|]. intros c x Hx Hc.
  unfold RequestedByInformation_Parse. by rewrite Hx, zdrop_2_nil, skip_children_nil.
Qed.

Lemma status_of_status_code s : status_of_code (to_byte (status_code s)) = Some s.
Proof. by destruct s. Qed.

Lemma RequestStatus_writes a m :
  wf_RequestStatus a → writes (RequestStatus_Serialize a m)
    (parse_shape Attr_RequestStatus m RequestStatus_Parse a).
Proof.
  intros Ha. eapply writes_weaken; [apply Attr_Write_writes|].
  { repeat constructor; apply to_byte_range. }
  intros t. apply attr_shape_eq. unfold RequestStatus_Parse.
  change (Zlen _ <? 2) with false. cbn match.
  change (zget 0 _) with (to_byte (status_code (rs_status a))).
  change (zget 1 _) with (to_byte (rs_queuePosition a)).
  rewrite status_of_status_code, (to_byte_id _ Ha). by destruct a.
Qed.

Lemma error_of_error_code e :
  error_of_code (error_code e) = e ∨ ∃ z, e = OtherErrorCode z.
Proof. destruct e; auto; right; eauto. Qed.

(** Attributes of a grouped class: an id word, then children. *)
Lemma wrote_contents_parse {A} (step : A → Z → bool → bytes → option A) id Ps o a :
  wrote (word_contents id) Ps o → is_word id →
  Attr_ReadWord o = Some id ∧ bytes_ok o ∧
  ∃ l, Forall2 (λ (P : shape) t, P t) Ps l ∧
       parse_children step a (zdrop 2 o) = fold_attrs step a l.
Proof.
  intros Hw Hid. split; [|split].
  - destruct Hw as (data & l & -> & _). by apply ReadWord_word_contents.
  - eapply wrote_bytes; [apply word_contents_bytes|done].
  - destruct (wrote_parse step _ _ _ a Hw) as (l & Hl & Hp).
    rewrite word_contents_len in Hp. eauto.
Qed.

Lemma FloorRequestStatus_writes a m :
  wf_FloorRequestStatus a → writes (FloorRequestStatus_Serialize a m)
    (parse_shape Attr_FloorRequestStatus m FloorRequestStatus_Parse a).
Proof.
  intros [Hid Hrs]. apply grouped_writes. intros c Hc.
  apply (then_write_opt_wrote (word_contents (frs_floorId a)) [] _ _ _ _
    (parse_shape Attr_RequestStatus false RequestStatus_Parse)) in Hc;
    [|intros; simplify_eq; apply wrote_nil
     |intros rs Hrs'; rewrite Hrs' in Hrs; by apply RequestStatus_writes].
  apply (wrote_contents_parse FloorRequestStatus_step _ _ _
    (new_FloorRequestStatusAttr (frs_floorId a))) in Hc
    as (Hw & Hb & l & Hl & Hp); [|done].
  split; [done|]. unfold FloorRequestStatus_Parse. rewrite Hw, Hp.
  destruct a as [id [rs|]]; simpl in *; shapes_inv; [|done].
  eat_shape (FloorRequestStatusAttr id (Some rs)). done.
Qed.

Lemma StatusInfo_writes v m :
  bytes_ok v → writes (StatusInfo_Serialize v m)
    (parse_shape Attr_StatusInfo m (λ c, Some (StatusInfo_Parse c)) v).
Proof.
  intros Hv. eapply writes_weaken; [by apply Attr_Write_writes|].
  intros t. by apply attr_shape_eq.
Qed.

Lemma OverallRequestStatus_writes a m :
  wf_OverallRequestStatus a → writes (OverallRequestStatus_Serialize a m)
    (parse_shape Attr_OverallRequestStatus m OverallRequestStatus_Parse a).
Proof.
  intros (Hid & Hrs & Hsi). apply grouped_writes. intros c Hc.
  eapply (then_write_opt_wrote (word_contents (ors_floorRequestId a)) _ _ _ _ _
    (parse_shape Attr_StatusInfo false (λ c, Some (StatusInfo_Parse c)))) in Hc;
    [|intros o; apply (then_write_opt_wrote _ [] _ _ _ _
        (parse_shape Attr_RequestStatus false RequestStatus_Parse));
        [intros; simplify_eq; apply wrote_nil
        |intros rs Hrs'; rewrite Hrs' in Hrs; by apply RequestStatus_writes]
     |intros si Hsi'; rewrite Hsi' in Hsi; by apply StatusInfo_writes].
  apply (wrote_contents_parse OverallRequestStatus_step _ _ _
    (new_OverallRequestStatusAttr (ors_floorRequestId a))) in Hc
    as (Hw & Hb & l & Hl & Hp); [|done].
  split; [done|]. unfold OverallRequestStatus_Parse. rewrite Hw, Hp.
  destruct a as [id [rs|] [si|]]; simpl in *; shapes_inv.
  - eat_shape (OverallRequestStatusAttr id (Some rs) None).
    eat_shape (OverallRequestStatusAttr id (Some rs) (Some si)). done.
  - eat_shape (OverallRequestStatusAttr id (Some rs) None). done.
  - eat_shape (OverallRequestStatusAttr id None (Some si)). done.
  - done.
Qed.

Definition fri_add_all (a : BFCPAttrFloorRequestInformation)
    (ss : list BFCPAttrFloorRequestStatus) : BFCPAttrFloorRequestInformation :=
  foldl fri_AddFloorRequestStatus a ss.

Lemma fri_add_all_eq ss id ss0 o b r :
  fri_add_all (FloorRequestInformationAttr id ss0 o b r) ss
  = FloorRequestInformationAttr id (ss0 ++ ss) o b r.
Proof.
  revert ss0. induction ss as [|s ss IH]; intros ss0; [by rewrite app_nil_r|].
  rewrite cons_middle, app_assoc. apply IH.
Qed.

Lemma fold_statuses ss l a :
  Forall2 (λ (P : shape) t, P t)
    (parse_shape Attr_FloorRequestStatus true FloorRequestStatus_Parse <$> ss) l →
  fold_attrs FloorRequestInformation_step a l = Some (fri_add_all a ss).
Proof.
  revert l a. induction ss as [|s ss IH]; intros l a Hl; simpl in *; shapes_inv; [done|].
  eat_shape (fri_AddFloorRequestStatus a s). by apply IH.
Qed.

Lemma FloorRequestInformation_writes a m :
  wf_FloorRequestInformation a → writes (FloorRequestInformation_Serialize a m)
    (parse_shape Attr_FloorRequestInformation m FloorRequestInformation_Parse a).
Proof.
  intros (Hid & Hss & Ho & Hbi & Hrb). apply grouped_writes. intros c Hc.
  eapply (then_write_opt_wrote (word_contents (fri_floorRequestId a)) _ _ _ _ _
    (parse_shape Attr_RequestedByInformation false RequestedByInformation_Parse)) in Hc;
    [|intros o1; eapply (then_write_opt_wrote _ _ _ _ _ _
        (parse_shape Attr_BeneficiaryInformation false BeneficiaryInformation_Parse));
        [intros o2; eapply (then_write_all_wrote _ _ _ _ _ _
           (parse_shape Attr_FloorRequestStatus true FloorRequestStatus_Parse));
           [intros o3; apply (then_write_opt_wrote _ [] _ _ _ _
              (parse_shape Attr_OverallRequestStatus false OverallRequestStatus_Parse));
              [intros; simplify_eq; apply wrote_nil
              |intros x Hx; rewrite Hx in Ho; by apply OverallRequestStatus_writes]
           |eapply Forall_impl; [exact Hss|]; intros; by apply FloorRequestStatus_writes]
        |intros x Hx; rewrite Hx in Hbi; by apply BeneficiaryInformation_writes]
     |intros x Hx; rewrite Hx in Hrb; by apply RequestedByInformation_writes].
  apply (wrote_contents_parse FloorRequestInformation_step _ _ _
    (new_FloorRequestInformationAttr (fri_floorRequestId a))) in Hc
    as (Hw & Hb & l & Hl & Hp); [|done].
  split; [done|]. unfold FloorRequestInformation_Parse. rewrite Hw, Hp. clear Hw Hp.
  destruct a as [id ss o b r]. simpl in *.
  rewrite <- !app_assoc in Hl.
  apply Forall2_app_inv_l in Hl as (l1 & l2 & H1 & Hl & ->).
  apply Forall2_app_inv_l in Hl as (l3 & l4 & H3 & Hl & ->).
  apply Forall2_app_inv_l in Hl as (l5 & l6 & H5 & H6 & ->).
  unfold new_FloorRequestInformationAttr.
  assert (fold_attrs FloorRequestInformation_step
    (FloorRequestInformationAttr id [] None None None) l1
    = Some (FloorRequestInformationAttr id [] o None None)) as E1.
  { destruct o as [o|]; simpl in *; shapes_inv; [|done].
    eat_shape (FloorRequestInformationAttr id [] (Some o) None None). done. }
  rewrite fold_attrs_app, E1, fold_attrs_app, (fold_statuses ss l3 _ H3), fri_add_all_eq.
  simpl. assert (fold_attrs FloorRequestInformation_step
    (FloorRequestInformationAttr id ss o None None) l5
    = Some (FloorRequestInformationAttr id ss o b None)) as E5.
  { destruct b as [b|]; simpl in *; shapes_inv; [|done].
    eat_shape (FloorRequestInformationAttr id ss o (Some b) None). done. }
  rewrite fold_attrs_app, E5.
  destruct r as [r|]; simpl in *; shapes_inv; [|done].
  eat_shape (FloorRequestInformationAttr id ss o b (Some r)). done.
Qed.
End Classes.
