(* ===== verification/BfcpMsgRound.v ===== *)
(** * Message round trips

    Every well-formed message the codec serializes is parsed back: with its class,
    its fields and the version it was written for, whatever follows it in the
    buffer. *)

From S2P Require Import Prelude Wire BfcpAttr BfcpMsg BfcpAttrProps BfcpAttrRound.

(** ** Well-formed messages: the values their wire fields can hold *)

Definition wf_FloorRequest (m : BFCPMsgFloorRequest) : Prop :=
  freq_floorIds m ≠ [] ∧ Forall is_word (freq_floorIds m)
  ∧ opt_all is_word (freq_beneficiaryId m)
  ∧ opt_all bytes_ok (freq_participantProvidedInfo m).

Definition wf_HelloAck (m : BFCPMsgHelloAck) : Prop :=
  NoDup (ha_supportedPrimitives m) ∧ Forall is_byte (ha_supportedPrimitives m)
  ∧ NoDup (ha_supportedAttributes m) ∧ Forall (λ c, 0 <= c < 128) (ha_supportedAttributes m).

Definition wf_Error (m : BFCPMsgError) : Prop :=
  match err_errorCode m with
  | None => False
  | Some c => is_byte (error_code c) ∧ error_of_code (error_code c) = c
  end ∧ opt_all bytes_ok (err_errorInfo m).

(** The primitives without a class of their own. *)
Definition base_primitive (p : Primitive) : bool :=
  match p with
  | P_FloorRequest | P_FloorRelease | P_FloorQuery | P_FloorRequestStatus
  | P_FloorStatus | P_Hello | P_HelloAck | P_Error => false
  | _ => true
  end.

Definition wf_body (b : MsgBody) : Prop :=
  match b with
  | MsgFloorRequest m => wf_FloorRequest m
  | MsgFloorRelease m =>
      match frel_floorRequestId m with None => False | Some id => is_word id end
  | MsgFloorQuery m => Forall is_word (fq_floorIds m)
  | MsgFloorRequestStatus m =>
      match frst_floorRequestInformation m with
      | None => False
      | Some fri => wf_FloorRequestInformation fri
      end
  | MsgFloorStatus m =>
      opt_all is_word (fst_floorId m)
      ∧ Forall wf_FloorRequestInformation (fst_floorRequestInformations m)
  | MsgHello => True
  | MsgHelloAck m => wf_HelloAck m
  | MsgError m => wf_Error m
  | MsgBase p =>
      base_primitive p = true ∧ is_byte (prim_code p) ∧ prim_of_code (prim_code p) = p
  end.

Definition wf_message (m : BFCPMessage) : Prop :=
  is_word (msg_transactionId m) ∧ is_int32 (msg_conferenceId m) ∧ is_word (msg_userId m)
  ∧ wf_body (msg_body m).

Section Round.
Context {W : WireOps} {WL : WireLaws W}.

(** ** The attributes of each class *)

Lemma wrote0_parse {A} (step : A → Z → bool → bytes → option A) Ps o a :
  wrote [] Ps o →
  ∃ l, Forall2 (λ (P : shape) t, P t) Ps l ∧ parse_children step a o = fold_attrs step a l.
Proof. apply (wrote_parse step []). Qed.

Lemma wrote0_Some Ps o :
  wrote [] Ps o → bytes_ok o.
Proof. apply wrote_bytes. constructor. Qed.

(** A single attribute is a sequence of one. *)
Lemma writes_wrote ser P max o : writes ser P → ser max = Some o → wrote [] [P] o.
Proof.
  intros Hw Ho. destruct (Hw _ _ Ho) as (t & pad & HP & Ht & Hp & -> & Hb & _ & H4).
  exists (tlv_enc t pad), [t]. repeat split; auto.
  rewrite <- (app_nil_r (tlv_enc t pad)). repeat constructor; auto; apply Ht.
Qed.

(** Lists of words: FLOOR-ID in FloorRequest and FloorQuery. *)
Lemma fold_words {A} (step : A → Z → bool → bytes → option A) m (add : A → Z → A) n ws l a :
  (∀ a c w, Attr_ReadWord c = Some w → step a (attr_code n) m c = Some (add a w)) →
  Forall2 (λ (P : shape) t, P t) (parse_shape n m Attr_ReadWord <$> ws) l →
  fold_attrs step a l = Some (foldl add a ws).
Proof.
  intros Hstep. revert l a. induction ws as [|w ws IH]; intros l a Hl; simpl in *; shapes_inv;
    [done|].
  rewrite (fold_attrs_shape step n m Attr_ReadWord w a (add a w)); eauto.
Qed.

Lemma FloorId_writes v m :
  is_word v → writes (FloorId_Serialize v m) (parse_shape Attr_FloorId m Attr_ReadWord v).
Proof. apply word_writes. Qed.

Lemma info_writes n m v :
  bytes_ok v → writes (λ max, Attr_Write max n m v) (parse_shape n m Some v).
Proof.
  intros Hv. eapply writes_weaken; [by apply Attr_Write_writes|].
  intros t. by apply attr_shape_eq.
Qed.

Lemma freq_fold ws a :
  foldl (λ (m : BFCPMsgFloorRequest) f, FloorRequestMsg (freq_floorIds m ++ [f])
    (freq_beneficiaryId m) (freq_participantProvidedInfo m)) a ws
  = FloorRequestMsg (freq_floorIds a ++ ws) (freq_beneficiaryId a) (freq_participantProvidedInfo a).
Proof.
  revert a. induction ws as [|w ws IH]; intros a; simpl.
  - rewrite app_nil_r. by destruct a.
  - rewrite IH. simpl. by rewrite <- app_assoc.
Qed.

Lemma FloorRequest_round m max o :
  wf_FloorRequest m → FloorRequest_SerializeAttributes m max = Some o →
  bytes_ok o ∧ FloorRequest_ParseAttributes o = Some m.
Proof.
  intros (_ & Hf & Hb & Hp) H.
  eapply (then_write_opt_wrote [] _ _ _ _ _
    (parse_shape Attr_ParticipantProvidedInfo false Some)) in H;
    [|intros o1; eapply (then_write_opt_wrote _ _ _ _ _ _
        (parse_shape Attr_BeneficiaryId false Attr_ReadWord));
        [intros o2; eapply (then_write_all_wrote _ [] _ _ _ _
           (parse_shape Attr_FloorId true Attr_ReadWord));
           [intros; simplify_eq; apply wrote_nil
           |eapply Forall_impl; [exact Hf|]; intros; by apply FloorId_writes]
        |intros x Hx; rewrite Hx in Hb; by apply word_writes]
     |intros x Hx; rewrite Hx in Hp; by apply info_writes].
  split; [by eapply wrote0_Some|].
  apply (wrote0_parse FloorRequest_step _ _ (FloorRequestMsg [] None None)) in H as (l & Hl & Hpc).
  unfold FloorRequest_ParseAttributes. rewrite Hpc. clear Hpc.
  destruct m as [fs b p]. simpl in *. rewrite <- app_assoc in Hl.
  apply Forall2_app_inv_l in Hl as (l1 & l2 & H1 & Hl & ->).
  apply Forall2_app_inv_l in Hl as (l3 & l4 & H3 & H4 & ->).
  rewrite fold_attrs_app, (fold_words _ true (λ m f, FloorRequestMsg (freq_floorIds m ++ [f])
    (freq_beneficiaryId m) (freq_participantProvidedInfo m)) Attr_FloorId fs l1 _);
    [|intros a c w Hw; unfold FloorRequest_step; by rewrite attr_of_code_code, Hw|done].
  rewrite freq_fold. simpl.
  destruct b as [b|], p as [p|]; simpl in *; shapes_inv.
  - eat_shape (FloorRequestMsg fs (Some b) None).
    eat_shape (FloorRequestMsg fs (Some b) (Some p)). done.
  - eat_shape (FloorRequestMsg fs (Some b) None). done.
  - eat_shape (FloorRequestMsg fs None (Some p)). done.
  - done.
Qed.

Lemma FloorRelease_round id max o :
  is_word id → FloorRelease_SerializeAttributes (FloorReleaseMsg (Some id)) max = Some o →
  bytes_ok o ∧ FloorRelease_ParseAttributes o = Some (FloorReleaseMsg (Some id)).
Proof.
  intros Hid H. simpl in H.
  apply (writes_wrote _ _ _ _ (word_writes Attr_FloorRequestId true id Hid)) in H.
  split; [by eapply wrote0_Some|].
  apply (wrote0_parse FloorRelease_step _ _ (FloorReleaseMsg None)) in H as (l & Hl & Hpc).
  unfold FloorRelease_ParseAttributes. rewrite Hpc. shapes_inv.
  eat_shape (FloorReleaseMsg (Some id)). done.
Qed.

Lemma fq_fold ws a :
  foldl (λ m f, FloorQueryMsg (fq_floorIds m ++ [f])) a ws = FloorQueryMsg (fq_floorIds a ++ ws).
Proof.
  revert a. induction ws as [|w ws IH]; intros a; simpl.
  - rewrite app_nil_r. by destruct a.
  - rewrite IH. simpl. by rewrite <- app_assoc.
Qed.

Lemma FloorQuery_round m max o :
  Forall is_word (fq_floorIds m) → FloorQuery_SerializeAttributes m max = Some o →
  bytes_ok o ∧ FloorQuery_ParseAttributes o = Some m.
Proof.
  intros Hf H. eapply (then_write_all_wrote [] [] _ _ _ _
    (parse_shape Attr_FloorId false Attr_ReadWord)) in H;
    [|intros; simplify_eq; apply wrote_nil
     |eapply Forall_impl; [exact Hf|]; intros; by apply FloorId_writes].
  split; [by eapply wrote0_Some|].
  apply (wrote0_parse FloorQuery_step _ _ (FloorQueryMsg [])) in H as (l & Hl & Hpc).
  unfold FloorQuery_ParseAttributes. rewrite Hpc.
  rewrite (fold_words _ false (λ m f, FloorQueryMsg (fq_floorIds m ++ [f])) Attr_FloorId
    (fq_floorIds m)); [|intros a c w Hw; unfold FloorQuery_step; by rewrite attr_of_code_code, Hw|done].
  rewrite fq_fold. by destruct m.
Qed.

Lemma FloorRequestStatusMsg_round fri max o :
  wf_FloorRequestInformation fri →
  FloorRequestStatusMsg_SerializeAttributes (FloorRequestStatusMsg (Some fri)) max = Some o →
  bytes_ok o ∧ FloorRequestStatusMsg_ParseAttributes o = Some (FloorRequestStatusMsg (Some fri)).
Proof.
  intros Hid H. simpl in H.
  apply (writes_wrote _ _ _ _ (FloorRequestInformation_writes fri true Hid)) in H.
  split; [by eapply wrote0_Some|].
  apply (wrote0_parse FloorRequestStatusMsg_step _ _ (FloorRequestStatusMsg None)) in H
    as (l & Hl & Hpc).
  unfold FloorRequestStatusMsg_ParseAttributes. rewrite Hpc. shapes_inv.
  eat_shape (FloorRequestStatusMsg (Some fri)). done.
Qed.

Lemma fst_fold fris l a :
  Forall2 (λ (P : shape) t, P t)
    (parse_shape Attr_FloorRequestInformation false FloorRequestInformation_Parse <$> fris) l →
  fold_attrs FloorStatus_step a l
  = Some (FloorStatusMsg (fst_floorId a) (fst_floorRequestInformations a ++ fris)).
Proof.
  revert l a. induction fris as [|f fris IH]; intros l a Hl; simpl in *; shapes_inv.
  - rewrite app_nil_r. by destruct a.
  - eat_shape (FloorStatusMsg (fst_floorId a) (fst_floorRequestInformations a ++ [f])).
    rewrite IH by done. simpl. by rewrite <- app_assoc.
Qed.

Lemma FloorStatus_round m max o :
  opt_all is_word (fst_floorId m) →
  Forall wf_FloorRequestInformation (fst_floorRequestInformations m) →
  FloorStatus_SerializeAttributes m max = Some o →
  bytes_ok o ∧ FloorStatus_ParseAttributes o = Some m.
Proof.
  intros Hf Hi H. eapply (then_write_all_wrote [] _ _ _ _ _
    (parse_shape Attr_FloorRequestInformation false FloorRequestInformation_Parse)) in H;
    [|intros o1; eapply (then_write_opt_wrote _ [] _ _ _ _
        (parse_shape Attr_FloorId false Attr_ReadWord));
        [intros; simplify_eq; apply wrote_nil
        |intros x Hx; rewrite Hx in Hf; by apply FloorId_writes]
     |eapply Forall_impl; [exact Hi|]; intros; by apply FloorRequestInformation_writes].
  split; [by eapply wrote0_Some|].
  apply (wrote0_parse FloorStatus_step _ _ (FloorStatusMsg None [])) in H as (l & Hl & Hpc).
  unfold FloorStatus_ParseAttributes. rewrite Hpc. destruct m as [f fris]. simpl in *.
  apply Forall2_app_inv_l in Hl as (l1 & l2 & H1 & H2 & ->).
  rewrite fold_attrs_app.
  destruct f as [f|]; simpl in *; shapes_inv; [eat_shape (FloorStatusMsg (Some f) [])|];
    simpl; by rewrite (fst_fold fris).
Qed.

Lemma Supported_Add_all l acc :
  NoDup (acc ++ l) → foldl Supported_Add acc l = acc ++ l.
Proof.
  revert acc. induction l as [|x l IH]; intros acc Hnd; simpl; [by rewrite app_nil_r|].
  unfold Supported_Add at 2.
  destruct (existsb (Z.eqb x) acc) eqn:E.
  - apply existsb_exists in E as (y & Hy & ->%Z.eqb_eq). apply list_elem_of_In in Hy.
    apply NoDup_app in Hnd as (_ & Hd & _). exfalso. apply (Hd y Hy). set_solver.
  - rewrite IH by (by rewrite <- app_assoc). by rewrite <- app_assoc.
Qed.

Lemma Supported_Add_shifted l acc :
  foldl (λ codes o, Supported_Add codes (Z.shiftr o 1)) acc l
  = foldl Supported_Add acc ((λ o, Z.shiftr o 1) <$> l).
Proof. revert acc. induction l as [|x l IH]; intros acc; simpl; [done|]. apply IH. Qed.

Lemma Supported_writes n m (f : Z → Z) (g : Z → Z) codes :
  Forall (λ c, is_byte (f c) ∧ g (f c) = c) codes →
  writes (λ max, Attr_Write max n m (f <$> ztake Attr_MaxLength codes))
    (parse_shape n m (λ c, Some (g <$> c)) codes).
Proof.
  intros Hf max bs H.
  assert (Zlen codes <= 253) as Hlen.
  { unfold Attr_Write in H. destruct (Attr_MaxLength <? _) eqn:E; [done|]. ztests.
    unfold Attr_MaxLength, Attr_HeaderLen, Zlen, ztake in *.
    rewrite length_fmap, length_take in E. lia. }
  rewrite (ztake_all Attr_MaxLength codes) in H by (unfold Attr_MaxLength; lia).
  assert (g <$> (f <$> codes) = codes) as Hg.
  { clear -Hf. induction Hf as [|c l [_ Hc] Hl IH]; [done|]. exact (f_equal2 cons Hc IH). }
  revert max bs H.
  eapply writes_weaken; [apply Attr_Write_writes|].
  - apply Forall_fmap. eapply Forall_impl; [exact Hf|]. by intros ? [].
  - intros t. apply attr_shape_eq. by rewrite Hg.
Qed.

Lemma add_primitives_fold c m :
  foldl ha_AddSupportedPrimitive m c
  = HelloAckMsg (foldl Supported_Add (ha_supportedPrimitives m) c) (ha_supportedAttributes m).
Proof. revert m. induction c as [|x c IH]; intros m; simpl; [by destruct m|by rewrite IH]. Qed.

Lemma add_attributes_fold c m :
  foldl (λ m o, ha_AddSupportedAttribute m (Z.shiftr o 1)) m c
  = HelloAckMsg (ha_supportedPrimitives m)
      (foldl (λ codes o, Supported_Add codes (Z.shiftr o 1)) (ha_supportedAttributes m) c).
Proof. revert m. induction c as [|x c IH]; intros m; simpl; [by destruct m|by rewrite IH]. Qed.

Lemma HelloAck_round m max o :
  wf_HelloAck m → HelloAck_SerializeAttributes m max = Some o →
  bytes_ok o ∧ HelloAck_ParseAttributes o = Some m.
Proof.
  intros (Hnp & Hp & Hna & Ha) H. unfold HelloAck_SerializeAttributes in H.
  destruct (SupportedPrimitives_Serialize _ _ _) as [o1|] eqn:E1; [|done].
  apply (writes_wrote _ _ _ _ (Supported_writes Attr_SupportedPrimitives true to_byte id
    (ha_supportedPrimitives m) ltac:(eapply Forall_impl; [exact Hp|]; simpl; intros; split;
      [apply to_byte_range|by apply to_byte_id]))) in E1.
  eapply (then_write_wrote [] _ _ _ _ (parse_shape Attr_SupportedAttributes true
    (λ c, Some ((λ o, Z.shiftr o 1) <$> c)) (ha_supportedAttributes m))) in H;
    [|intros; simplify_eq; exact E1|].
  2:{ apply (Supported_writes Attr_SupportedAttributes true (λ c, to_byte (Z.shiftl c 1))
        (λ o, Z.shiftr o 1)). eapply Forall_impl; [exact Ha|]. simpl. intros c Hc.
      split; [apply to_byte_range|]. rewrite Z.shiftl_mul_pow2 by lia.
      rewrite to_byte_id by (unfold is_byte; lia).
      rewrite Z.shiftr_div_pow2 by lia. by apply Z.div_mul. }
  split; [by eapply wrote0_Some|].
  apply (wrote0_parse HelloAck_step _ _ (HelloAckMsg [] [])) in H as (l & Hl & Hpc).
  unfold HelloAck_ParseAttributes. rewrite Hpc. destruct m as [ps ats]. simpl in *. shapes_inv.
  match goal with H : parse_shape Attr_SupportedPrimitives _ _ _ ?t |- _ =>
    rewrite (fold_attrs_shape _ _ _ _ _ _ (HelloAckMsg ps []) t _ H) end;
    [|intros c Hc; rewrite list_fmap_id in Hc; simplify_eq; unfold HelloAck_step;
      rewrite attr_of_code_code, add_primitives_fold; simpl; by rewrite Supported_Add_all].
  match goal with H : parse_shape Attr_SupportedAttributes _ _ _ ?t |- _ =>
    rewrite (fold_attrs_shape _ _ _ _ _ _ (HelloAckMsg ps ats) t _ H) end;
    [done|intros c Hc; simplify_eq; unfold HelloAck_step;
      rewrite attr_of_code_code, add_attributes_fold; simpl; by rewrite Supported_Add_shifted, Supported_Add_all].
Qed.

Lemma ErrorCode_writes c m :
  is_byte (error_code c) → error_of_code (error_code c) = c →
  writes (ErrorCode_Serialize c m) (parse_shape Attr_ErrorCode m ErrorCode_Parse c).
Proof.
  intros Hb Hc. eapply writes_weaken; [apply Attr_Write_writes|].
  { repeat constructor; apply to_byte_range. }
  intros t. apply attr_shape_eq. unfold ErrorCode_Parse.
  change (Zlen _ <? 1) with false. cbn match.
  change (zget 0 _) with (to_byte (error_code c)). by rewrite to_byte_id, Hc.
Qed.

Lemma Error_round m max o :
  wf_Error m → Error_SerializeAttributes m max = Some o →
  bytes_ok o ∧ Error_ParseAttributes o = Some m.
Proof.
  destruct m as [[c|] i]; intros [Hc Hi] H; simpl in *; [|done].
  unfold Error_SerializeAttributes in H. simpl in H.
  destruct (ErrorCode_Serialize c true max) as [o1|] eqn:E1; [|done].
  apply (writes_wrote _ _ _ _ (ErrorCode_writes c true (proj1 Hc) (proj2 Hc))) in E1.
  eapply (then_write_opt_wrote [] _ _ _ _ _ (parse_shape Attr_ErrorInfo false Some)) in H;
    [|intros; simplify_eq; exact E1|intros x Hx; rewrite Hx in Hi; by apply info_writes].
  split; [by eapply wrote0_Some|].
  apply (wrote0_parse Error_step _ _ (ErrorMsg None None)) in H as (l & Hl & Hpc).
  unfold Error_ParseAttributes. rewrite Hpc.
  destruct i as [i|]; simpl in *; shapes_inv; eat_shape (ErrorMsg (Some c) None);
    [eat_shape (ErrorMsg (Some c) (Some i))|]; done.
Qed.

(** ** The body and the header *)

Lemma body_round b max o :
  wf_body b → SerializeAttributes b max = Some o →
  bytes_ok o ∧ parse_body (body_primitive b) o = Some b ∧ IsValid b = true.
Proof.
  destruct b as [m|[[id|]]|m|[[fri|]]|m| |m|m|p]; simpl; intros Hwf H.
  - destruct (FloorRequest_round m max o Hwf H) as [Hb ->]. split; [done|]. split; [done|].
    destruct Hwf as [Hne _]. unfold FloorRequest_IsValid.
    destruct (freq_floorIds m); [done|]. rewrite Zlen_cons.
    pose proof (Zlen_nonneg l). by destruct (Z.ltb_spec (1 + Zlen l) 1); [lia|].
  - destruct (FloorRelease_round id max o Hwf H) as [Hb ->]. done.
  - done.
  - destruct (FloorQuery_round m max o Hwf H) as [Hb ->]. done.
  - destruct (FloorRequestStatusMsg_round fri max o Hwf H) as [Hb ->]. done.
  - done.
  - destruct (FloorStatus_round m max o (proj1 Hwf) (proj2 Hwf) H) as [Hb ->]. done.
  - unfold Base_SerializeAttributes in H. simplify_eq. split_and!; [constructor|done..].
  - destruct (HelloAck_round m max o Hwf H) as [Hb ->]. done.
  - destruct (Error_round m max o Hwf H) as [Hb ->]. split; [done|]. split; [done|].
    destruct m as [[c|] i]; [done|]. by destruct Hwf.
  - unfold Base_SerializeAttributes in H. simplify_eq. destruct Hwf as (Hp & _ & _).
    split_and!; [constructor|by destruct p|done].
Qed.

Lemma version_octet version (r : bool) :
  version = VersionReliable ∨ version = VersionUnreliable →
  let b := to_byte (Z.lor (Z.shiftl version 5) (if r then 0x10 else 0)) in
  is_byte b ∧ Z.shiftr b 5 = version ∧ negb (Z.land b 0x10 =? 0) = r
  ∧ negb (Z.land b 0x08 =? 0) = false.
Proof. intros [-> | ->]; destruct r; by vm_compute. Qed.

(** The 12 octets of the header, and what [Parse] reads in them. *)
Definition header_octets (b0 b1 n conf tid uid : Z) : bytes :=
  set2 (set2 (set4 (set2 ([b0; b1] ++ replicate 10 0) 2 n) 4 conf) 8 tid) 10 uid.

Lemma header_octets_len b0 b1 n conf tid uid : Zlen (header_octets b0 b1 n conf tid uid) = 12.
Proof. unfold header_octets. by rewrite !set2_length, set4_length, set2_length. Qed.

Lemma header_octets_bytes b0 b1 n conf tid uid :
  is_byte b0 → is_byte b1 → bytes_ok (header_octets b0 b1 n conf tid uid).
Proof.
  intros. apply set2_bytes, set2_bytes, set4_bytes, set2_bytes.
  apply Forall_cons. split; [done|]. apply Forall_cons. split; [done|]. apply zeros_bytes.
Qed.

Lemma header_octets_read b0 b1 n conf tid uid rest :
  let d := header_octets b0 b1 n conf tid uid ++ rest in
  zget 0 d = b0 ∧ zget 1 d = b1 ∧ get2 d 2 = to_word n ∧ get4 d 4 = to_dword conf
  ∧ get2 d 8 = to_word tid ∧ get2 d 10 = to_word uid.
Proof.
  intros d. unfold d.
  assert (∀ i, (Z.to_nat i < 12)%nat →
    zget i (header_octets b0 b1 n conf tid uid ++ rest) = zget i (header_octets b0 b1 n conf tid uid))
    as Hz.
  { intros i Hi. unfold zget. rewrite lookup_app_l; [done|].
    pose proof (header_octets_len b0 b1 n conf tid uid). unfold Zlen in *. lia. }
  rewrite !Hz by lia.
  rewrite !get2_app, get4_app by (rewrite ?header_octets_len; lia).
  unfold header_octets.
  rewrite !zget_set2_other, !zget_set4_other, !zget_set2_other by lia.
  rewrite (get2_set2 _ 10), (get2_set2_other _ 10 _ 8), (get2_set2 _ 8)
    by (rewrite ?set2_length, ?set4_length, ?set2_length; autorewrite with zlen; lia).
  rewrite (get2_set2_other _ 10 _ 2), (get2_set2_other _ 8 _ 2), (get2_set4_other _ 4 _ 2),
    (get2_set2 _ 2) by (autorewrite with zlen; lia).
  rewrite (get4_set2_other _ 10), (get4_set2_other _ 8), get4_set4
    by (rewrite ?set2_length; autorewrite with zlen; lia).
  done.
Qed.

Lemma prim_octet b : wf_body b → is_byte (prim_code (body_primitive b)) ∧
  prim_of_code (prim_code (body_primitive b)) = body_primitive b.
Proof. destruct b; try done. simpl. tauto. Qed.

Lemma Message_Serialize_inv m max version bs :
  Message_Serialize m max version = Some bs →
  ∃ payload, SerializeAttributes (msg_body m) (max - Msg_HeaderLen) = Some payload ∧
    Zlen payload mod 4 = 0 ∧ 0 <= Zlen payload / 4 <= 0xFFFF ∧
    bs = header_octets (to_byte (Z.lor (Z.shiftl version 5) (if msg_responder m then 0x10 else 0)))
           (to_byte (prim_code (GetPrimitive m))) (Zlen payload / 4) (msg_conferenceId m)
           (msg_transactionId m) (msg_userId m) ++ payload.
Proof.
  unfold Message_Serialize. intros H. destruct (max <? Msg_HeaderLen); [done|].
  destruct (SerializeAttributes _ _) as [payload|]; [|done].
  destruct (negb (Zlen payload mod 4 =? 0)) eqn:E1; [done|].
  destruct (0xFFFF <? Zlen payload / 4) eqn:E2; [done|]. ztests. simplify_eq.
  exists payload. split_and!; auto.
  apply Z.div_pos; [apply Zlen_nonneg|lia].
Qed.

Lemma Message_Parse_Serialize m max version bs junk :
  wf_message m → version = VersionReliable ∨ version = VersionUnreliable →
  Message_Serialize m max version = Some bs →
  Message_Parse (bs ++ junk) = Some (SetVersion m version).
Proof.
  intros (Htid & Hconf & Huid & Hbody) Hv H.
  apply Message_Serialize_inv in H as (payload & Hser & H4 & Hn & ->).
  destruct (body_round _ _ _ Hbody Hser) as (Hpb & Hparse & Hvalid).
  destruct (prim_octet _ Hbody) as [Hprim Hprim'].
  destruct (version_octet version (msg_responder m) Hv) as (Hb0 & Hver & Hresp & Hfrag).
  set (b0 := to_byte (Z.lor _ _)) in *. unfold GetPrimitive.
  rewrite (to_byte_id _ Hprim). set (b1 := prim_code _) in *.
  set (hdr := header_octets b0 b1 _ _ _ _).
  pose proof (header_octets_read b0 b1 (Zlen payload / 4) (msg_conferenceId m)
    (msg_transactionId m) (msg_userId m) (payload ++ junk)) as (R0 & R1 & R2 & R4 & R8 & R10).
  fold hdr in R0, R1, R2, R4, R8, R10.
  assert (Zlen hdr = 12) as Hhdr by apply header_octets_len.
  assert (to_word (Zlen payload / 4) * 4 = Zlen payload) as Hpl.
  { rewrite to_word_id by (unfold is_word; lia). Z.div_mod_to_equations. lia. }
  rewrite <- app_assoc. unfold Message_Parse.
  rewrite R0, R1, R2, R4, R8, R10, Hver, Hresp, Hfrag, Hpl, Hprim'.
  rewrite (to_int32_dword _ Hconf), (to_word_id _ Htid), (to_word_id _ Huid).
  rewrite !Zlen_app, Hhdr. unfold Msg_HeaderLen.
  pose proof (Zlen_nonneg payload). pose proof (Zlen_nonneg junk).
  destruct (Z.ltb_spec (12 + (Zlen payload + Zlen junk)) 12); [lia|].
  destruct (Z.ltb_spec (12 + (Zlen payload + Zlen junk)) (12 + Zlen payload)); [lia|].
  rewrite (zdrop_app hdr) by done. rewrite ztake_app by done. rewrite Hparse, Hvalid.
  destruct Hv as [-> | ->]; simpl; destruct m; reflexivity.
Qed.
End Round.
