(* ===== verification/BfcpServer.v ===== *)
(** * The floor control server

    [BFCPFloorControlServer] with its [BFCPUser] and [BFCPFloorRequest]
    (src/mcu/src/bfcp/).  The two threads that call it are serialised by one lock,
    so the model is sequential: an operation is a computation over the server
    state, the calls it makes on transports while it holds the lock ([wire]), and
    the listener notifications it queues and fires once the lock is released
    ([pending]).

    A [BFCPTransport*] is an address; the virtual [IsReliable] and the result of
    [Send] are those of the transport ([TransportOps]).  [transport = NULL] is
    [None]. *)

From S2P Require Import Prelude OrderedMap BfcpAttr BfcpMsg.

(** ** Transports, as the server sees them *)

Inductive WireCall :=
  | CallSend (t : Z) (m : BFCPMessage)
  | CallClose (t : Z).

(** [Send] may depend on everything the transport was asked before. *)
Class TransportOps := {
  tr_IsReliable : Z → bool;
  tr_Send : list WireCall → Z → BFCPMessage → bool;
}.

(** ** BFCPUser *)

Record BFCPUser := mkUser {
  u_userId : Z;
  u_conferenceId : Z;
  u_isChair : bool;
  u_transport : option Z;
  u_queriedFloorIds : list Z;
}.

Definition new_user (userId conferenceId : Z) : BFCPUser := mkUser userId conferenceId false None [].

Definition user_SetChair (u : BFCPUser) : BFCPUser :=
  mkUser (u_userId u) (u_conferenceId u) true (u_transport u) (u_queriedFloorIds u).

Definition user_UnsetChair (u : BFCPUser) : BFCPUser :=
  mkUser (u_userId u) (u_conferenceId u) false (u_transport u) (u_queriedFloorIds u).

Definition user_SetTransport (t : Z) (u : BFCPUser) : BFCPUser :=
  mkUser (u_userId u) (u_conferenceId u) (u_isChair u) (Some t) (u_queriedFloorIds u).

Definition user_UnsetTransport (u : BFCPUser) : BFCPUser :=
  mkUser (u_userId u) (u_conferenceId u) (u_isChair u) None (u_queriedFloorIds u).

Definition user_IsConnected (u : BFCPUser) : bool :=
  match u_transport u with None => false | Some _ => true end.

Definition user_ResetQueriedFloorIds (u : BFCPUser) : BFCPUser :=
  mkUser (u_userId u) (u_conferenceId u) (u_isChair u) (u_transport u) [].

Definition user_HasQueriedFloorId (f : Z) (u : BFCPUser) : bool :=
  existsb (Z.eqb f) (u_queriedFloorIds u).

Definition user_AddQueriedFloorId (u : BFCPUser) (f : Z) : BFCPUser :=
  if user_HasQueriedFloorId f u then u
  else mkUser (u_userId u) (u_conferenceId u) (u_isChair u) (u_transport u)
         (u_queriedFloorIds u ++ [f]).

(** ** BFCPFloorRequest *)

Record BFCPFloorRequest := mkFloorRequest {
  r_floorRequestId : Z;
  r_userId : Z;
  r_conferenceId : Z;
  r_beneficiaryId : Z;
  r_floorIds : list Z;       (** std::set<int> *)
  r_status : Status;
  r_queuePosition : Z;
}.

Definition new_floor_request (floorRequestId userId conferenceId : Z) : BFCPFloorRequest :=
  mkFloorRequest floorRequestId userId conferenceId userId [] Pending 0.

Definition r_SetBeneficiaryId (b : Z) (r : BFCPFloorRequest) : BFCPFloorRequest :=
  mkFloorRequest (r_floorRequestId r) (r_userId r) (r_conferenceId r) b (r_floorIds r)
    (r_status r) (r_queuePosition r).

Definition r_AddFloorId (r : BFCPFloorRequest) (f : Z) : BFCPFloorRequest :=
  mkFloorRequest (r_floorRequestId r) (r_userId r) (r_conferenceId r) (r_beneficiaryId r)
    (os_insert f (r_floorIds r)) (r_status r) (r_queuePosition r).

Definition r_SetStatus (s : Status) (r : BFCPFloorRequest) : BFCPFloorRequest :=
  mkFloorRequest (r_floorRequestId r) (r_userId r) (r_conferenceId r) (r_beneficiaryId r)
    (r_floorIds r) s (r_queuePosition r).

Definition r_SetQueuePosition (q : Z) (r : BFCPFloorRequest) : BFCPFloorRequest :=
  mkFloorRequest (r_floorRequestId r) (r_userId r) (r_conferenceId r) (r_beneficiaryId r) (r_floorIds r)
    (r_status r) q.

Definition r_HasFloorId (f : Z) (r : BFCPFloorRequest) : bool := os_has f (r_floorIds r).

Definition r_IsGranted (r : BFCPFloorRequest) : bool := bool_decide (r_status r = Granted).

Definition r_CanBeGranted (r : BFCPFloorRequest) : bool :=
  bool_decide (r_status r = Pending) || bool_decide (r_status r = Accepted).

Definition r_CanBeDenied (r : BFCPFloorRequest) : bool := r_CanBeGranted r.
Definition r_CanBeCancelled (r : BFCPFloorRequest) : bool := r_CanBeGranted r.

Definition CreateFloorRequestInformation (r : BFCPFloorRequest) : BFCPAttrFloorRequestInformation :=
  let rs := RequestStatus (r_status r) (r_queuePosition r) in
  let info := new_FloorRequestInformationAttr (r_floorRequestId r) in
  let info := foldl (λ i f, fri_AddFloorRequestStatus i
                       (frs_SetRequestStatus (new_FloorRequestStatusAttr f) rs))
                info (r_floorIds r) in
  let overall := ors_SetRequestStatus (new_OverallRequestStatusAttr (r_floorRequestId r)) rs in
  let info := fri_SetOverallRequestStatus info overall in
  let info := fri_SetBeneficiaryInformation info (r_beneficiaryId r) in
  fri_SetRequestedByInformation info (r_userId r).

Definition CreateFloorRequestStatus (r : BFCPFloorRequest) (transactionId : Z) : BFCPMessage :=
  new_message (MsgFloorRequestStatus
                 (frst_SetFloorRequestInformation (FloorRequestStatusMsg None)
                    (CreateFloorRequestInformation r)))
    transactionId (r_conferenceId r) (r_userId r).

(** ** The server *)

Inductive Notification :=
  | OnFloorRequest (floorRequestId userId beneficiaryId : Z) (floorIds : list Z)
  | OnFloorGranted (floorRequestId beneficiaryId : Z) (floorIds : list Z)
  | OnFloorReleased (floorRequestId beneficiaryId : Z) (floorIds : list Z)
  | OnUserConnected (userId : Z).

Record Server := mkServer {
  conferenceId : Z;
  users : list (Z * BFCPUser);
  floors : list Z;
  floorRequests : list (Z * BFCPFloorRequest);
  floorRequestCounter : Z;
  transactionCounter : Z;
  ending : bool;
}.

Definition new_server (confId : Z) : Server := mkServer confId [] [] [] 1 0 false.

Definition set_users (f : list (Z * BFCPUser) → list (Z * BFCPUser)) (s : Server) : Server :=
  mkServer (conferenceId s) (f (users s)) (floors s) (floorRequests s)
    (floorRequestCounter s) (transactionCounter s) (ending s).

Definition set_floors (f : list Z → list Z) (s : Server) : Server :=
  mkServer (conferenceId s) (users s) (f (floors s)) (floorRequests s)
    (floorRequestCounter s) (transactionCounter s) (ending s).

Definition set_floorRequests
    (f : list (Z * BFCPFloorRequest) → list (Z * BFCPFloorRequest)) (s : Server) : Server :=
  mkServer (conferenceId s) (users s) (floors s) (f (floorRequests s))
    (floorRequestCounter s) (transactionCounter s) (ending s).

Definition set_floorRequestCounter (c : Z) (s : Server) : Server :=
  mkServer (conferenceId s) (users s) (floors s) (floorRequests s) c (transactionCounter s) (ending s).

Definition set_transactionCounter (c : Z) (s : Server) : Server :=
  mkServer (conferenceId s) (users s) (floors s) (floorRequests s) (floorRequestCounter s) c (ending s).

Definition set_ending (b : bool) (s : Server) : Server :=
  mkServer (conferenceId s) (users s) (floors s) (floorRequests s)
    (floorRequestCounter s) (transactionCounter s) b.

(** ** Computations under the lock *)

Record Env := mkEnv {
  server : Server;
  wire : list WireCall;
  pending : list Notification;
}.

Definition M (A : Type) : Type := Env → A * Env.

Definition ret {A} (a : A) : M A := λ e, (a, e).
Definition bind {A B} (m : M A) (k : A → M B) : M B := λ e, let (a, e') := m e in k a e'.

Declare Scope fcs_scope.
Delimit Scope fcs_scope with fcs.
Notation "'let*' x ':=' m 'in' k" := (bind m (λ x, k))
  (at level 200, x binder, m at level 100, k at level 200) : fcs_scope.
Notation "m ;; k" := (bind m (λ _, k)) : fcs_scope.
Local Open Scope fcs_scope.

Definition gets {A} (f : Server → A) : M A := λ e, (f (server e), e).
Definition modify (f : Server → Server) : M unit :=
  λ e, (tt, mkEnv (f (server e)) (wire e) (pending e)).
Definition call (c : WireCall) : M unit :=
  λ e, (tt, mkEnv (server e) (wire e ++ [c]) (pending e)).
(** [pending.push_back(...)] *)
Definition push_back (n : Notification) : M unit :=
  λ e, (tt, mkEnv (server e) (wire e) (pending e ++ [n])).

Fixpoint for_each {A} (l : list A) (body : A → M unit) : M unit :=
  match l with
  | [] => ret tt
  | x :: l' => body x ;; for_each l' body
  end.

Definition when (b : bool) (m : M unit) : M unit := if b then m else ret tt.

(** What a public operation gives back: its result, the server, the calls it made
    on transports, and the notifications [Fire] runs once the lock is released. *)
Definition run {A} (m : M A) (s : Server) : A * Server * list WireCall * list Notification :=
  let (a, e) := m (mkEnv s [] []) in (a, server e, wire e, pending e).

Section Server.
Context {T : TransportOps}.

(** ** BFCPUser operations that reach the transport *)

Definition user_IsReliable (u : BFCPUser) : bool :=
  match u_transport u with None => true | Some t => tr_IsReliable t end.

Definition user_SendMessage (u : BFCPUser) (msg : BFCPMessage) : M bool :=
  match u_transport u with
  | None => ret false
  | Some t => λ e, (tr_Send (wire e) t msg, mkEnv (server e) (wire e ++ [CallSend t msg]) (pending e))
  end.

(** A write through the [BFCPUser*] of a user of the map. *)
Definition alter_user (userId : Z) (f : BFCPUser → BFCPUser) : M unit :=
  modify (set_users (om_alter f userId)).

(** [user->CloseTransport()] *)
Definition user_CloseTransport (u : BFCPUser) : M unit :=
  match u_transport u with
  | None => ret tt
  | Some t => call (CallClose t)
  end ;;
  alter_user (u_userId u) user_UnsetTransport.

(** ** Locked helpers *)

Definition GetUserLocked (userId : Z) : M (option BFCPUser) := gets (λ s, om_find userId (users s)).

Definition GetFloorRequestLocked (id : Z) : M (option BFCPFloorRequest) :=
  gets (λ s, om_find id (floorRequests s)).

Definition GetFloorRequestsForFloorLocked (floorId : Z) (s : Server) : list BFCPFloorRequest :=
  List.filter (r_HasFloorId floorId) (floorRequests s).*2.

Definition GetFloorRequestsForFloorsLocked (floorIds : list Z) (s : Server)
  : list BFCPFloorRequest :=
  List.filter (λ r, existsb (λ f, r_HasFloorId f r) floorIds) (floorRequests s).*2.

Definition HasFloorLocked (floorId : Z) (s : Server) : bool := os_has floorId (floors s).

Definition NextTransactionIdLocked : M Z :=
  modify (λ s, set_transactionCounter (Z.rem (transactionCounter s) 0xFFFF + 1) s) ;;
  gets transactionCounter.

Definition NotificationTransactionIdLocked (user : option BFCPUser) : M Z :=
  match user with
  | Some u => if negb (user_IsReliable u) then NextTransactionIdLocked else ret 0
  | None => ret 0
  end.

Definition BuildFloorStatusLocked (floorId transactionId userId : Z) (s : Server) : BFCPMessage :=
  let floorStatus := fst_SetFloorId (FloorStatusMsg None []) floorId in
  new_message (MsgFloorStatus
                 (foldl fst_AddFloorRequestInformation floorStatus
                    (CreateFloorRequestInformation <$> GetFloorRequestsForFloorLocked floorId s)))
    transactionId (conferenceId s) userId.

Definition SendMessageLocked (msg : BFCPMessage) : M unit :=
  let* user := GetUserLocked (msg_userId msg) in
  match user with
  | None => ret tt
  | Some u => user_SendMessage u msg ;; ret tt
  end.

Definition SendFloorRequestStatusLocked (r : BFCPFloorRequest) (transactionId toUserId : Z)
    (statusInfo : bytes) (isResponse : bool) : M unit :=
  let msg := CreateFloorRequestStatus r transactionId in
  let msg := SetResponder (SetUserId msg toUserId) isResponse in
  let msg :=
    if bool_decide (statusInfo = []) then msg
    else match msg_body msg with
         | MsgFloorRequestStatus m =>
             mkMessage (msg_transactionId msg) (msg_conferenceId msg) (msg_userId msg)
               (msg_version msg) (msg_responder msg)
               (MsgFloorRequestStatus (frst_SetDescription m statusInfo))
         | _ => msg
         end in
  SendMessageLocked msg.

Definition NotifyForFloorRequestLocked (r : BFCPFloorRequest) : M unit :=
  let* us := gets users in
  for_each us (λ p,
    let user := p.2 in
    for_each (r_floorIds r) (λ f,
      if negb (user_HasQueriedFloorId f user) then ret tt
      else
        let* transactionId := NotificationTransactionIdLocked (Some user) in
        let* floorStatus := gets (BuildFloorStatusLocked f transactionId (u_userId user)) in
        user_SendMessage user floorStatus ;; ret tt)).

Definition ReplyErrorLocked (msg : BFCPMessage) (to : option Z) (code : ErrorCode) (info : bytes)
  : M unit :=
  let error := SetResponder (new_error msg code info) true in
  match to with
  | None => ret tt
  | Some t => call (CallSend t error)
  end.

(** [floorRequest->SetStatus(status)] through the pointer of the map *)
Definition set_request_status (id : Z) (status : Status) : M unit :=
  modify (set_floorRequests (om_alter (r_SetStatus status) id)).

Definition erase_request (id : Z) : M unit := modify (set_floorRequests (om_erase id)).

Definition DenyFloorRequestLocked (id : Z) (statusInfo : bytes) : M bool :=
  let* fr := GetFloorRequestLocked id in
  match fr with
  | None => ret false
  | Some r =>
      if negb (r_CanBeDenied r) then ret false
      else
        set_request_status id Denied ;;
        let r := r_SetStatus Denied r in
        let* requester := GetUserLocked (r_userId r) in
        let* transactionId := NotificationTransactionIdLocked requester in
        SendFloorRequestStatusLocked r transactionId (r_userId r) statusInfo false ;;
        NotifyForFloorRequestLocked r ;;
        erase_request id ;;
        ret true
  end.

Definition RevokeFloorRequestLocked (id : Z) (statusInfo : bytes) : M bool :=
  let* fr := GetFloorRequestLocked id in
  match fr with
  | None => ret false
  | Some r =>
      if negb (r_IsGranted r) then ret false
      else
        set_request_status id Revoked ;;
        let r := r_SetStatus Revoked r in
        let* requester := GetUserLocked (r_userId r) in
        let* transactionId := NotificationTransactionIdLocked requester in
        SendFloorRequestStatusLocked r transactionId (r_userId r) statusInfo false ;;
        NotifyForFloorRequestLocked r ;;
        erase_request id ;;
        let* ended := gets ending in
        when (negb ended) (push_back (OnFloorReleased id (r_beneficiaryId r) (r_floorIds r))) ;;
        ret true
  end.

(** A request held in [others] is not changed by the revocation of another one, so
    its fields are those read when the vector was built. *)
Definition GrantFloorRequestLocked (id : Z) : M bool :=
  let* fr := GetFloorRequestLocked id in
  match fr with
  | None => ret false
  | Some r =>
      if negb (r_CanBeGranted r) then ret false
      else
        let* others := gets (GetFloorRequestsForFloorsLocked (r_floorIds r)) in
        for_each others (λ o,
          when (negb (r_floorRequestId o =? id) && r_IsGranted o)
            (RevokeFloorRequestLocked (r_floorRequestId o) (octets "granted to other user") ;;
             ret tt)) ;;
        let* requester := GetUserLocked (r_userId r) in
        set_request_status id Accepted ;;
        let* t1 := NotificationTransactionIdLocked requester in
        SendFloorRequestStatusLocked (r_SetStatus Accepted r) t1 (r_userId r) [] false ;;
        set_request_status id Granted ;;
        let r := r_SetStatus Granted r in
        let* t2 := NotificationTransactionIdLocked requester in
        SendFloorRequestStatusLocked r t2 (r_userId r) [] false ;;
        NotifyForFloorRequestLocked r ;;
        push_back (OnFloorGranted id (r_beneficiaryId r) (r_floorIds r)) ;;
        ret true
  end.

(** The loop shared by [RevokeUserFloorRequestsLocked] and [End]. *)
Definition revoke_or_deny (info : bytes) (id : Z) : M unit :=
  let* fr := GetFloorRequestLocked id in
  match fr with
  | None => ret tt
  | Some r =>
      (if r_IsGranted r then RevokeFloorRequestLocked id info
       else DenyFloorRequestLocked id info) ;;
      ret tt
  end.

Definition requests_of_user (userId : Z) (s : Server) : list Z :=
  (List.filter (λ p, (r_beneficiaryId p.2 =? userId) || (r_userId p.2 =? userId))
     (floorRequests s)).*1.

Definition RevokeUserFloorRequestsLocked (userId : Z) : M unit :=
  let* ids := gets (requests_of_user userId) in
  for_each ids
    (revoke_or_deny (octets "FloorRequests from this user have been revoked or denied")).

Definition AttachTransportLocked (userId transport : Z) : M bool :=
  let* user := GetUserLocked userId in
  match user with
  | None => ret false
  | Some u =>
      if bool_decide (u_transport u = Some transport) then ret true
      else
        when (user_IsConnected u)
          (alter_user userId user_ResetQueriedFloorIds ;;
           RevokeUserFloorRequestsLocked userId ;;
           user_CloseTransport u) ;;
        alter_user userId (user_SetTransport transport) ;;
        ret true
  end.

Definition DetachTransportLocked (userId : Z) : M unit :=
  alter_user userId user_UnsetTransport ;;
  alter_user userId user_ResetQueriedFloorIds ;;
  let* ended := gets ending in
  when (negb ended) (RevokeUserFloorRequestsLocked userId).

Definition Goodbye_message (transactionId confId userId : Z) : BFCPMessage :=
  new_message (MsgBase P_Goodbye) transactionId confId userId.

Definition send_goodbye (u : BFCPUser) : M unit :=
  let* transactionId := NotificationTransactionIdLocked (Some u) in
  let* confId := gets conferenceId in
  user_SendMessage u (Goodbye_message transactionId confId (u_userId u)) ;;
  ret tt.

Definition RemoveUserLocked (userId : Z) (sendGoodbye : bool) : M bool :=
  let* user := GetUserLocked userId in
  match user with
  | None => ret false
  | Some u =>
      RevokeUserFloorRequestsLocked userId ;;
      when (sendGoodbye && user_IsConnected u) (send_goodbye u) ;;
      user_CloseTransport u ;;
      modify (set_users (om_erase userId)) ;;
      ret true
  end.

(** ** Incoming primitives *)

(** [req] is the message, [m] its class, [userId] the [BFCPUser*] it is from. *)
Definition ProcessFloorRequestLocked (req : BFCPMessage) (m : BFCPMsgFloorRequest) (userId : Z)
  : M unit :=
  let* s := gets id in
  let* user := GetUserLocked userId in
  match user with
  | None => ret tt
  | Some u =>
      if negb (forallb (λ f, HasFloorLocked f s) (freq_floorIds m)) then
        ReplyErrorLocked req (u_transport u) InvalidFloorId (octets "requested floor does not exist")
      else if match freq_beneficiaryId m with
              | Some b => match om_find b (users s) with None => true | Some _ => false end
              | None => false
              end then
        ReplyErrorLocked req (u_transport u) UserDoesNotExist (octets "beneficiary does not exist")
      else
        let floorRequestId := floorRequestCounter s in
        modify (set_floorRequestCounter (floorRequestId + 1)) ;;
        let r := new_floor_request floorRequestId (msg_userId req) (conferenceId s) in
        let r := match freq_beneficiaryId m with Some b => r_SetBeneficiaryId b r | None => r end in
        let r := foldl r_AddFloorId r (freq_floorIds m) in
        modify (set_floorRequests (om_set floorRequestId r)) ;;
        SendFloorRequestStatusLocked r (msg_transactionId req) (msg_userId req) [] true ;;
        if u_isChair u then GrantFloorRequestLocked floorRequestId ;; ret tt
        else push_back (OnFloorRequest floorRequestId (r_userId r) (r_beneficiaryId r) (r_floorIds r))
  end.

(** [GetFloorRequestId] throws when the attribute is missing; [Parse] refused such
    a message ([FloorRelease_IsValid]). *)
Definition ProcessFloorReleaseLocked (req : BFCPMessage) (m : BFCPMsgFloorRelease) (userId : Z)
  : M unit :=
  match frel_floorRequestId m with
  | None => ret tt
  | Some floorRequestId =>
      let* user := GetUserLocked userId in
      match user with
      | None => ret tt
      | Some u =>
          let* fr := GetFloorRequestLocked floorRequestId in
          match fr with
          | None => ReplyErrorLocked req (u_transport u) FloorRequestIdDoesNotExist
                      (octets "FloorRequest does not exist")
          | Some r =>
              let sender := u_userId u in
              let requester := r_userId r in
              let beneficiary := r_beneficiaryId r in
              if negb (sender =? requester) && negb (sender =? beneficiary) && negb (u_isChair u)
              then ReplyErrorLocked req (u_transport u) UnauthorizedOperation
                     (octets "you cannot release that FloorRequest")
              else
                let wasGranted := r_IsGranted r in
                match
                  (if wasGranted then Some (if sender =? beneficiary then Released else Revoked)
                   else if r_CanBeCancelled r then Some Cancelled else None)
                with
                | None => ReplyErrorLocked req (u_transport u) UnauthorizedOperation
                            (octets "cannot release or cancel the FloorRequest due to its current status")
                | Some status =>
                    set_request_status floorRequestId status ;;
                    let r := r_SetStatus status r in
                    SendFloorRequestStatusLocked r (msg_transactionId req) sender [] true ;;
                    when (negb (sender =? requester))
                      (let* ru := GetUserLocked requester in
                       let* t := NotificationTransactionIdLocked ru in
                       SendFloorRequestStatusLocked r t requester [] false) ;;
                    NotifyForFloorRequestLocked r ;;
                    erase_request floorRequestId ;;
                    when wasGranted
                      (push_back (OnFloorReleased floorRequestId beneficiary (r_floorIds r)))
                end
          end
      end
  end.

(** The FloorStatus of the [i]-th queried floor. *)
Definition answer_query (req : BFCPMessage) (u : BFCPUser) (i : nat) (floorId : Z) : M unit :=
  let isResponse := bool_decide (i = 0%nat) in
  let* transactionId := (if isResponse then ret (msg_transactionId req)
                         else NotificationTransactionIdLocked (Some u)) in
  let* floorStatus := gets (BuildFloorStatusLocked floorId transactionId (msg_userId req)) in
  user_SendMessage u (SetResponder floorStatus isResponse) ;;
  ret tt.

Definition ProcessFloorQueryLocked (req : BFCPMessage) (m : BFCPMsgFloorQuery) (userId : Z)
  : M unit :=
  let* s := gets id in
  let* user := GetUserLocked userId in
  match user with
  | None => ret tt
  | Some u =>
      if negb (forallb (λ f, HasFloorLocked f s) (fq_floorIds m)) then
        ReplyErrorLocked req (u_transport u) InvalidFloorId (octets "requested floor does not exist")
      else
        let u' := foldl user_AddQueriedFloorId (user_ResetQueriedFloorIds u) (fq_floorIds m) in
        alter_user userId (λ _, u') ;;
        if bool_decide (u_queriedFloorIds u' = []) then
          user_SendMessage u'
            (SetResponder (new_message (MsgFloorStatus (FloorStatusMsg None []))
                             (msg_transactionId req) (conferenceId s) (msg_userId req)) true) ;;
          ret tt
        else
          for_each (zip (seq 0 (length (u_queriedFloorIds u'))) (u_queriedFloorIds u'))
            (λ p, answer_query req u' p.1 p.2)
  end.

Definition HelloAck_primitives : list Primitive :=
  [P_FloorRequest; P_FloorRelease; P_FloorRequestStatus; P_FloorQuery; P_FloorStatus; P_Hello;
   P_HelloAck; P_Error; P_FloorRequestStatusAck; P_FloorStatusAck; P_Goodbye; P_GoodbyeAck].

Definition HelloAck_attributes : list AttrName :=
  [Attr_BeneficiaryId; Attr_FloorId; Attr_FloorRequestId; Attr_Priority; Attr_RequestStatus;
   Attr_ErrorCode; Attr_ErrorInfo; Attr_ParticipantProvidedInfo; Attr_StatusInfo;
   Attr_SupportedAttributes; Attr_SupportedPrimitives; Attr_BeneficiaryInformation;
   Attr_FloorRequestInformation; Attr_RequestedByInformation; Attr_FloorRequestStatus;
   Attr_OverallRequestStatus].

Definition HelloAck_body : MsgBody :=
  let ack := foldl ha_AddSupportedPrimitive (HelloAckMsg [] []) (prim_code <$> HelloAck_primitives) in
  MsgHelloAck (foldl ha_AddSupportedAttribute ack (attr_code <$> HelloAck_attributes)).

Definition ProcessHelloLocked (req : BFCPMessage) (userId : Z) : M unit :=
  let* confId := gets conferenceId in
  let* user := GetUserLocked userId in
  match user with
  | None => ret tt
  | Some u =>
      user_SendMessage u (SetResponder (new_message HelloAck_body (msg_transactionId req) confId
                                          (msg_userId req)) true) ;;
      when (negb (user_IsReliable u))
        (let* t := NextTransactionIdLocked in
         user_SendMessage u (new_message MsgHello t confId (msg_userId req)) ;; ret tt) ;;
      push_back (OnUserConnected (u_userId u))
  end.

Definition ProcessGoodbyeLocked (req : BFCPMessage) (userId : Z) : M unit :=
  let* confId := gets conferenceId in
  let* user := GetUserLocked userId in
  match user with
  | None => ret tt
  | Some u =>
      user_SendMessage u (SetResponder (new_message (MsgBase P_GoodbyeAck) (msg_transactionId req)
                                          confId (msg_userId req)) true) ;;
      RemoveUserLocked userId false ;;
      ret tt
  end.

(** The [switch] on the primitive.  [Parse] never builds a plain message for a
    primitive that has a class, so those cases of [MsgBase] fall to the default. *)
Definition dispatch (msg : BFCPMessage) (from userId : Z) : M unit :=
  match msg_body msg with
  | MsgFloorRequest m => ProcessFloorRequestLocked msg m userId
  | MsgFloorRelease m => ProcessFloorReleaseLocked msg m userId
  | MsgFloorQuery m => ProcessFloorQueryLocked msg m userId
  | MsgHello => ProcessHelloLocked msg userId
  | MsgBase P_Goodbye => ProcessGoodbyeLocked msg userId
  | MsgHelloAck _ | MsgError _
  | MsgBase P_FloorRequestStatusAck | MsgBase P_FloorStatusAck | MsgBase P_GoodbyeAck => ret tt
  | _ => ReplyErrorLocked msg (Some from) UnknownPrimitive
           (octets "unknown or unsupported primitive")
  end.

Definition MessageReceived_locked (msg : BFCPMessage) (from : Z) : M unit :=
  let* s := gets id in
  if ending s then ret tt
  else if negb (msg_conferenceId msg =? conferenceId s) then
    ReplyErrorLocked msg (Some from) ConferenceDoesNotExist (octets "conference does not exist")
  else
    match om_find (msg_userId msg) (users s) with
    | None => ReplyErrorLocked msg (Some from) UserDoesNotExist (octets "user does not exist")
    | Some u =>
        if negb (bool_decide (u_transport u = Some from)) then
          if user_IsConnected u && negb (bool_decide (GetPrimitive msg = P_Hello)) then
            ReplyErrorLocked msg (Some from) UnauthorizedOperation
              (octets "user is connected elsewhere")
          else
            AttachTransportLocked (msg_userId msg) from ;;
            dispatch msg from (msg_userId msg)
        else dispatch msg from (msg_userId msg)
    end.

(** ** Public operations *)

Definition AddUser (userId : Z) (s : Server) : bool * Server :=
  if ending s then (false, s)
  else if (userId <? 1) || (0xFFFF <? userId) then (false, s)
  else match om_find userId (users s) with
       | Some _ => (false, s)
       | None => (true, set_users (om_set userId (new_user userId (conferenceId s))) s)
       end.

Definition RemoveUser (userId : Z) (s : Server) :=
  run (let* ended := gets ending in
       if ended then ret false else RemoveUserLocked userId true) s.

Definition SetChair (userId : Z) (s : Server) : bool * Server :=
  if ending s then (false, s)
  else match om_find userId (users s) with
       | None => (false, s)
       | Some _ => (true, set_users (λ us, om_alter user_SetChair userId (om_map user_UnsetChair us)) s)
       end.

Definition AddFloor (floorId : Z) (s : Server) : bool * Server :=
  if ending s then (false, s)
  else if (floorId <? 1) || (0xFFFF <? floorId) then (false, s)
  else if HasFloorLocked floorId s then (false, s)
  else (true, set_floors (os_insert floorId) s).

Definition GrantFloorRequest (id : Z) (s : Server) :=
  run (let* ended := gets ending in
       if ended then ret false else GrantFloorRequestLocked id) s.

Definition DenyFloorRequest (id : Z) (statusInfo : bytes) (s : Server) :=
  run (DenyFloorRequestLocked id statusInfo) s.

Definition RevokeFloorRequest (id : Z) (statusInfo : bytes) (s : Server) :=
  run (RevokeFloorRequestLocked id statusInfo) s.

Definition GetGrantedFloorRequestId (floorId : Z) (s : Server) : Z :=
  if ending s then 0
  else if negb (HasFloorLocked floorId s) then 0
  else match find r_IsGranted (GetFloorRequestsForFloorLocked floorId s) with
       | Some r => r_floorRequestId r
       | None => 0
       end.

Definition IsUserConnected (userId : Z) (s : Server) : bool :=
  match om_find userId (users s) with
  | None => false
  | Some u => user_IsConnected u
  end.

Definition NotifyFloorStatus_locked (userId floorId : Z) : M bool :=
  let* s := gets id in
  if ending s then ret false
  else
    let* user := GetUserLocked userId in
    match user with
    | None => ret false
    | Some u =>
        if negb (HasFloorLocked floorId s) then ret false
        else
          let* t := NotificationTransactionIdLocked (Some u) in
          let* floorStatus := gets (BuildFloorStatusLocked floorId t userId) in
          user_SendMessage u floorStatus
    end.

Definition NotifyFloorStatus (userId floorId : Z) (s : Server) :=
  run (NotifyFloorStatus_locked userId floorId) s.

Definition End_locked : M unit :=
  let* ended := gets ending in
  if ended then ret tt
  else
    modify (set_ending true) ;;
    let* ids := gets (λ s, (floorRequests s).*1) in
    for_each ids (revoke_or_deny (octets "conference ended")) ;;
    modify (set_floorRequests (λ _, [])) ;;
    let* us := gets users in
    for_each us (λ p,
      when (user_IsConnected p.2) (send_goodbye p.2) ;;
      user_CloseTransport p.2) ;;
    modify (set_users (λ _, [])).

Definition End (s : Server) := run End_locked s.

Definition UserConnected_locked (userId transport : Z) : M bool :=
  let* ended := gets ending in
  if ended then ret false
  else
    let* user := GetUserLocked userId in
    match user with
    | None => ret false
    | Some _ => AttachTransportLocked userId transport
    end.

Definition UserConnected (userId transport : Z) (s : Server) :=
  run (UserConnected_locked userId transport) s.

Definition UserDisconnected_locked (userId transport : Z) : M unit :=
  let* user := GetUserLocked userId in
  match user with
  | None => ret tt
  | Some u => if bool_decide (u_transport u = Some transport) then DetachTransportLocked userId
              else ret tt
  end.

Definition UserDisconnected (userId transport : Z) (s : Server) :=
  run (UserDisconnected_locked userId transport) s.

(** The first user of the map whose transport it is. *)
Definition user_of_transport (transport : Z) (s : Server) : option BFCPUser :=
  find (λ u, bool_decide (u_transport u = Some transport)) (users s).*2.

Definition TransportClosed_locked (transport : Z) : M unit :=
  let* user := gets (user_of_transport transport) in
  match user with
  | None => ret tt
  | Some u => DetachTransportLocked (u_userId u)
  end.

Definition TransportClosed (transport : Z) (s : Server) := run (TransportClosed_locked transport) s.

Definition MessageReceived (msg : BFCPMessage) (from : Z) (s : Server) :=
  run (MessageReceived_locked msg from) s.
End Server.
