(* ===== verification/BfcpCodecClaims.v ===== *)
(** * The BFCP codec: what it guarantees

    A message built by [BFCPMessage::Parse] from any octets holds values of its
    wire fields' ranges, its mandatory attributes, and lists without repetition:
    the floor control server may rely on [wf_message].

    The walk over attributes reads exactly the attribute grammar and always ends; what
    is serialised is parsed back; what is parsed is well formed; and how large a request
    can be before its status no longer fits an attribute. *)

From S2P Require Import Prelude Wire BfcpAttr BfcpMsg BfcpAttrProps BfcpAttrRound BfcpMsgRound OrderedMap BfcpServer.

(** An invariant of the body of a walk holds at its end. *)
Lemma fold_attrs_inv {A} (P : A → Prop) (step : A → Z → bool → bytes → option A) l a b :
  (∀ a t m c a', P a → bytes_ok c → step a t m c = Some a' → P a') →
  Forall (λ t, bytes_ok (tlv_contents t)) l → P a → fold_attrs step a l = Some b → P b.
Proof.
  intros Hstep Hl. revert a. induction Hl as [|t l Ht Hl IH]; simpl; intros a Ha H;
    [by simplify_eq|].
  destruct (step a _ _ _) as [a'|] eqn:E; [|done]. eapply IH; [|done]. eauto.
Qed.

Lemma tlvs_bytes data l :
  tlvs data l → bytes_ok data → Forall (λ t, bytes_ok (tlv_contents t)) l.
Proof.
  induction 1 as [|t pad data l Ht Hp Hl IH]; intros Hb; [constructor|].
  apply bytes_ok_app in Hb as [Hb1 Hb2]. unfold tlv_enc in Hb1.
  apply bytes_ok_app in Hb1 as [_ Hb1]. apply bytes_ok_app in Hb1 as [Hb1 _].
  constructor; auto.
Qed.

Lemma parse_children_inv {A} (P : A → Prop) (step : A → Z → bool → bytes → option A) a data b :
  (∀ a t m c a', P a → bytes_ok c → step a t m c = Some a' → P a') →
  P a → bytes_ok data → parse_children step a data = Some b → P b.
Proof.
  intros Hstep Ha Hb H. unfold parse_children in H.
  pose proof (walk_all_spec step a data Hb) as Hw.
  destruct (walk_all step a data) as [b'| |]; simplify_eq.
  destruct Hw as (l & Hl & Hf).
  exact (fold_attrs_inv P step l a b Hstep (tlvs_bytes _ _ Hl Hb) Ha Hf).
Qed.

(** Take a step function apart: its switch, its sub-parsers, its tests. *)
Ltac step_cases H :=
  repeat (simpl in H; match type of H with
  | context [match ?x with _ => _ end] => destruct x eqn:?; try discriminate H
  end); simplify_eq/=.

Section Wf.
Context {W : WireOps} {WL : WireLaws W}.

Lemma ReadWord_word c w : bytes_ok c → Attr_ReadWord c = Some w → is_word w.
Proof.
  intros Hc H. unfold Attr_ReadWord in H. case_match; simplify_eq. apply to_word_range.
Qed.

Lemma RequestStatus_Parse_wf c a :
  bytes_ok c → RequestStatus_Parse c = Some a → wf_RequestStatus a.
Proof.
  intros Hc H. unfold RequestStatus_Parse in H. step_cases H. by apply bytes_ok_zget.
Qed.

Lemma skip_unknown_Some {A} (a b : A) m : skip_unknown a m = Some b → b = a.
Proof. unfold skip_unknown. destruct m; congruence. Qed.

Ltac by_step H :=
  step_cases H;
  repeat match goal with
  | E : skip_unknown _ _ = Some _ |- _ => apply skip_unknown_Some in E; subst
  end.

Lemma FloorRequestStatus_Parse_wf c a :
  bytes_ok c → FloorRequestStatus_Parse c = Some a → wf_FloorRequestStatus a.
Proof.
  intros Hc H. unfold FloorRequestStatus_Parse in H.
  destruct (Attr_ReadWord c) as [w|] eqn:Ew; [|done].
  eapply parse_children_inv in H; eauto using bytes_ok_zdrop.
  - intros x t m c' x' [Hx1 Hx2] Hc' Hs. unfold FloorRequestStatus_step in Hs.
    by_step Hs; split; simpl; eauto using RequestStatus_Parse_wf.
  - split; simpl; eauto using ReadWord_word.
Qed.

Lemma OverallRequestStatus_Parse_wf c a :
  bytes_ok c → OverallRequestStatus_Parse c = Some a → wf_OverallRequestStatus a.
Proof.
  intros Hc H. unfold OverallRequestStatus_Parse in H.
  destruct (Attr_ReadWord c) as [w|] eqn:Ew; [|done].
  eapply parse_children_inv in H; eauto using bytes_ok_zdrop.
  - intros x t m c' x' (Hx1 & Hx2 & Hx3) Hc' Hs. unfold OverallRequestStatus_step in Hs.
    by_step Hs; split_and!; simpl; eauto using RequestStatus_Parse_wf.
  - split_and!; simpl; eauto using ReadWord_word.
Qed.

Lemma word_info_Parse_wf c w :
  bytes_ok c →
  BeneficiaryInformation_Parse c = Some w ∨ RequestedByInformation_Parse c = Some w → is_word w.
Proof.
  intros Hc H. unfold BeneficiaryInformation_Parse, RequestedByInformation_Parse in H.
  destruct (Attr_ReadWord c) as [v|] eqn:Ev; [|naive_solver].
  destruct (skip_children (zdrop 2 c)); [|naive_solver].
  assert (v = w) as -> by naive_solver. eauto using ReadWord_word.
Qed.

Lemma FloorRequestInformation_Parse_wf c a :
  bytes_ok c → FloorRequestInformation_Parse c = Some a → wf_FloorRequestInformation a.
Proof.
  intros Hc H. unfold FloorRequestInformation_Parse in H.
  destruct (Attr_ReadWord c) as [w|] eqn:Ew; [|done].
  eapply parse_children_inv in H; eauto using bytes_ok_zdrop.
  - intros x t m c' x' (Hx1 & Hx2 & Hx3 & Hx4 & Hx5) Hc' Hs.
    unfold FloorRequestInformation_step in Hs.
    destruct (attr_of_code t) as [[]|]; try (apply skip_unknown_Some in Hs; by subst);
      apply fmap_Some in Hs as (y & Hy & ->); split_and!; simpl;
      eauto using OverallRequestStatus_Parse_wf, word_info_Parse_wf.
    apply Forall_app. split; [done|]. constructor; [|done].
    eauto using FloorRequestStatus_Parse_wf.
  - split_and!; simpl; eauto using ReadWord_word.
Qed.

(** ** Bodies *)

Lemma Supported_Add_NoDup codes c : NoDup codes → NoDup (Supported_Add codes c).
Proof.
  intros Hnd. unfold Supported_Add. destruct (existsb (Z.eqb c) codes) eqn:E; [done|].
  apply NoDup_app. split; [done|]. split; [|apply NoDup_singleton].
  intros x Hx ->%list_elem_of_singleton.
  assert (existsb (Z.eqb c) codes = true); [|congruence].
  apply existsb_exists. exists c. split; [by apply list_elem_of_In|apply Z.eqb_refl].
Qed.

Lemma Supported_Add_Forall (P : Z → Prop) codes c :
  Forall P codes → P c → Forall P (Supported_Add codes c).
Proof.
  intros. unfold Supported_Add. case_match; [done|]. apply Forall_app. by repeat constructor.
Qed.

Lemma Supported_fold (P : Z → Prop) (f : Z → Z) c codes :
  (∀ o, is_byte o → P (f o)) → bytes_ok c → NoDup codes → Forall P codes →
  let r := foldl (λ acc o, Supported_Add acc (f o)) codes c in NoDup r ∧ Forall P r.
Proof.
  intros Hf Hc. revert codes. induction Hc as [|o c Ho Hc IH]; intros codes Hnd HP; simpl; [done|].
  apply IH; auto using Supported_Add_NoDup, Supported_Add_Forall.
Qed.

Lemma shiftr1_range o : is_byte o → 0 <= Z.shiftr o 1 < 128.
Proof.
  unfold is_byte. intros. rewrite Z.shiftr_div_pow2 by lia. change (2 ^ 1) with 2.
  split; [apply Z.div_pos; lia|apply Z.div_lt_upper_bound; lia].
Qed.

Lemma FloorRequest_Parse_wf data m :
  bytes_ok data → FloorRequest_ParseAttributes data = Some m → FloorRequest_IsValid m = true →
  wf_FloorRequest m.
Proof.
  intros Hb H Hv. split.
  { unfold FloorRequest_IsValid in Hv. by destruct (freq_floorIds m). }
  eapply (parse_children_inv (λ m, Forall is_word (freq_floorIds m)
    ∧ opt_all is_word (freq_beneficiaryId m) ∧ opt_all bytes_ok (freq_participantProvidedInfo m)))
    in H; eauto; [|repeat constructor].
  intros x t mm c x' (H1 & H2 & H3) Hc Hs. unfold FloorRequest_step in Hs.
  by_step Hs; split_and!; simpl; eauto using ReadWord_word.
  apply Forall_app. split; [done|]. constructor; [|done]. eauto using ReadWord_word.
Qed.

Lemma HelloAck_Parse_wf data m :
  bytes_ok data → HelloAck_ParseAttributes data = Some m → wf_HelloAck m.
Proof.
  intros Hb H. eapply parse_children_inv in H; eauto; [|by repeat constructor].
  intros x t mm c x' (H1 & H2 & H3 & H4) Hc Hs. unfold HelloAck_step in Hs.
  by_step Hs; unfold wf_HelloAck; rewrite ?add_primitives_fold, ?add_attributes_fold; simpl; try done.
  - destruct (Supported_fold (λ c, 0 <= c < 128) (λ o, Z.shiftr o 1) c
      (ha_supportedAttributes x) shiftr1_range Hc H3 H4). done.
  - destruct (Supported_fold is_byte id c (ha_supportedPrimitives x) ltac:(done) Hc H1 H2). done.
Qed.

Lemma find_default_code {A} (code : A → Z) (other : Z → A) (l : list A) z :
  (∀ z, code (other z) = z) →
  code (default (other z) (find (λ e, code e =? z) l)) = z.
Proof.
  intros Ho. destruct (find (λ e, code e =? z) l) eqn:E; simpl; [|done].
  apply find_some in E as [_ E]. by apply Z.eqb_eq.
Qed.

Lemma error_of_code_wf o :
  is_byte o → is_byte (error_code (error_of_code o)) ∧
  error_of_code (error_code (error_of_code o)) = error_of_code o.
Proof.
  intros Ho. unfold error_of_code at 1 3. rewrite (find_default_code error_code OtherErrorCode); done.
Qed.

Lemma Error_Parse_wf data m :
  bytes_ok data → Error_ParseAttributes data = Some m → Error_IsValid m = true → wf_Error m.
Proof.
  intros Hb H Hv.
  assert (opt_all (λ c, is_byte (error_code c) ∧ error_of_code (error_code c) = c)
      (err_errorCode m) ∧ opt_all bytes_ok (err_errorInfo m)).
  { revert H. apply (parse_children_inv (λ m,
      opt_all (λ c, is_byte (error_code c) ∧ error_of_code (error_code c) = c)
        (err_errorCode m) ∧ opt_all bytes_ok (err_errorInfo m))); [|done|done].
    intros x t mm c x' (H1 & H2) Hc Hs. unfold Error_step, ErrorCode_Parse in Hs.
    by_step Hs; split; simpl; try done.
    case_match; simplify_eq. apply error_of_code_wf. by apply bytes_ok_zget. }
  unfold Error_IsValid, wf_Error in *. by destruct m as [[c|] i].
Qed.

Lemma FloorStatus_Parse_wf data m :
  bytes_ok data → FloorStatus_ParseAttributes data = Some m →
  opt_all is_word (fst_floorId m)
  ∧ Forall wf_FloorRequestInformation (fst_floorRequestInformations m).
Proof.
  intros Hb. apply (parse_children_inv (λ m, opt_all is_word (fst_floorId m)
    ∧ Forall wf_FloorRequestInformation (fst_floorRequestInformations m)));
    [|repeat constructor|done].
  intros x t mm c x' (H1 & H2) Hc Hs. unfold FloorStatus_step in Hs.
  by_step Hs; split; simpl; eauto using ReadWord_word.
  apply Forall_app. split; [done|]. constructor; [|done].
  eauto using FloorRequestInformation_Parse_wf.
Qed.

Lemma FloorQuery_Parse_wf data m :
  bytes_ok data → FloorQuery_ParseAttributes data = Some m → Forall is_word (fq_floorIds m).
Proof.
  intros Hb. apply (parse_children_inv (λ m, Forall is_word (fq_floorIds m)));
    [|constructor|done].
  intros x t mm c x' H1 Hc Hs. unfold FloorQuery_step in Hs.
  by_step Hs; simpl; eauto using ReadWord_word.
  apply Forall_app. split; [done|]. constructor; [|done]. eauto using ReadWord_word.
Qed.

Lemma FloorRelease_Parse_wf data m :
  bytes_ok data → FloorRelease_ParseAttributes data = Some m →
  opt_all is_word (frel_floorRequestId m).
Proof.
  intros Hb. apply (parse_children_inv (λ m, opt_all is_word (frel_floorRequestId m)));
    [|constructor|done].
  intros x t mm c x' H1 Hc Hs. unfold FloorRelease_step in Hs.
  by_step Hs; simpl; eauto using ReadWord_word.
Qed.

Lemma FloorRequestStatusMsg_Parse_wf data m :
  bytes_ok data → FloorRequestStatusMsg_ParseAttributes data = Some m →
  opt_all wf_FloorRequestInformation (frst_floorRequestInformation m).
Proof.
  intros Hb.
  apply (parse_children_inv (λ m, opt_all wf_FloorRequestInformation
    (frst_floorRequestInformation m))); [|constructor|done].
  intros x t mm c x' H1 Hc Hs. unfold FloorRequestStatusMsg_step in Hs.
  by_step Hs; simpl; eauto using FloorRequestInformation_Parse_wf.
Qed.

Lemma parse_body_wf o data b :
  is_byte o → bytes_ok data → parse_body (prim_of_code o) data = Some b → IsValid b = true →
  wf_body b ∧ body_primitive b = prim_of_code o.
Proof.
  intros Ho Hb H Hv.
  assert (is_byte (prim_code (prim_of_code o))) as Hpo.
  { unfold prim_of_code. by rewrite (find_default_code prim_code OtherPrimitive). }
  assert (prim_of_code (prim_code (prim_of_code o)) = prim_of_code o) as Hpc.
  { unfold prim_of_code at 2. by rewrite (find_default_code prim_code OtherPrimitive). }
  destruct (prim_of_code o) eqn:Ep; simpl in H;
    apply fmap_Some in H as (m & Hm & ->); simpl in *;
    split; try reflexivity; try (by split_and!).
  - eauto using FloorRequest_Parse_wf.
  - apply FloorRelease_Parse_wf in Hm; [|done]. unfold FloorRelease_IsValid in Hv.
    destruct (frel_floorRequestId m); [done|]. by apply bool_decide_eq_true in Hv as [].
  - apply FloorRequestStatusMsg_Parse_wf in Hm; [|done].
    unfold FloorRequestStatusMsg_IsValid in Hv. by destruct (frst_floorRequestInformation m).
  - eauto using FloorQuery_Parse_wf.
  - eauto using FloorStatus_Parse_wf.
  - eauto using HelloAck_Parse_wf.
  - eauto using Error_Parse_wf.
Qed.

Lemma Message_Parse_wf_lemma data m :
  bytes_ok data → Message_Parse data = Some m →
  wf_message m ∧ (msg_version m = VersionReliable ∨ msg_version m = VersionUnreliable).
Proof.
  intros Hb H. unfold Message_Parse in H.
  destruct (Zlen data <? Msg_HeaderLen); [done|].
  destruct (negb _ && negb _) eqn:Ev; [done|].
  destruct (negb (Z.land _ 8 =? 0)); [done|].
  destruct (Zlen data <? _); [done|].
  destruct (parse_body _ _) as [b|] eqn:Eb; [|done].
  destruct (IsValid b) eqn:Evd; [|done]. simplify_eq. simpl. split.
  - unfold wf_message. simpl. split_and!; auto using get2_range, to_int32_range.
    destruct (parse_body_wf _ _ _ (bytes_ok_zget 1 data Hb)
      (bytes_ok_ztake _ _ (bytes_ok_zdrop _ _ Hb)) Eb Evd). done.
  - apply andb_false_iff in Ev as [?|?]; ztests; auto.
Qed.
End Wf.

(** ** Sizes *)

(** [ser] writes [n] octets when they fit, and fails when they do not. *)
Definition sized (ser : Z → option bytes) (n : Z) : Prop :=
  ∀ max, match ser max with Some o => n <= max ∧ Zlen o = n | None => max < n end.

(** The buffer under construction holds [k] octets, or [k] was too much for it. *)
Definition fills (max : Z) (out : option bytes) (k : Z) : Prop :=
  match out with Some o => Zlen o = k ∧ k <= max | None => max < k end.

Lemma Attr_Write_sized t m c :
  Zlen c <= 253 → sized (λ max, Attr_Write max t m c) (Padded (2 + Zlen c)).
Proof.
  intros Hc max. unfold Attr_Write, Attr_HeaderLen, Attr_MaxLength. pose proof (Zlen_nonneg c).
  destruct (Z.ltb_spec 255 (2 + Zlen c)); [lia|].
  destruct (Z.ltb_spec max (Padded (2 + Zlen c))); [done|]. split; [done|].
  pose proof (Padded_bounds (2 + Zlen c) ltac:(lia)).
  rewrite !Zlen_app, Zlen_replicate. unfold Zlen in *. simpl length. lia.
Qed.

Lemma Attr_Write_too_long max t m c : 253 < Zlen c → Attr_Write max t m c = None.
Proof.
  intros Hc. unfold Attr_Write, Attr_HeaderLen, Attr_MaxLength.
  by destruct (Z.ltb_spec 255 (2 + Zlen c)); [|lia].
Qed.

Lemma then_write_fills max out ser k n :
  0 <= n → fills max out k → sized ser n → fills max (then_write max out ser) (k + n).
Proof.
  intros Hn Hk Hs. destruct out as [o|]; simpl in *; [|lia]. destruct Hk as [<- Hk].
  specialize (Hs (max - Zlen o)). destruct (ser (max - Zlen o)) as [w|]; simpl; [|lia].
  rewrite Zlen_app. lia.
Qed.

Lemma then_write_all_fills {A} max out (l : list A) ser k n :
  0 <= n → fills max out k → Forall (λ x, sized (ser x) n) l →
  fills max (then_write_all max out l ser) (k + n * Zlen l).
Proof.
  intros Hn Hk Hs. unfold then_write_all. revert out k Hk.
  induction Hs as [|x l Hx Hs IH]; intros out k Hk; simpl.
  - rewrite Zlen_nil. by replace (k + n * 0) with k by lia.
  - rewrite Zlen_cons. replace (k + n * (1 + Zlen l)) with ((k + n) + n * Zlen l) by lia.
    apply IH. by apply then_write_fills.
Qed.

Section Sizes.
Context {W : WireOps} {WL : WireLaws W}.

Lemma RequestStatus_sized rs m : sized (RequestStatus_Serialize rs m) 4.
Proof. apply Attr_Write_sized. rewrite !Zlen_cons, Zlen_nil. lia. Qed.

Lemma word_attr_sized t m v : sized (λ max, Attr_Write max t m (word_contents v)) 4.
Proof.
  assert (Padded (2 + Zlen (word_contents v)) = 4) as <- by (by rewrite word_contents_len).
  apply Attr_Write_sized. rewrite word_contents_len. lia.
Qed.

(** A group whose contents fill the 255-octet staging buffer to [k] octets. *)
Lemma group_sized (contents : option bytes) t m k :
  fills Attr_MaxLength contents k → k <= 253 →
  sized (λ max, match contents with None => None | Some c => Attr_Write max t m c end) (Padded (2 + k)).
Proof.
  unfold fills, Attr_MaxLength. destruct contents as [c|]; [|lia].
  intros [<- _] Hk. by apply Attr_Write_sized.
Qed.

Lemma FloorRequestStatus_sized f rs m :
  sized (FloorRequestStatus_Serialize (FloorRequestStatusAttr f (Some rs)) m) 8.
Proof.
  unfold FloorRequestStatus_Serialize. cbn [then_write_opt frs_requestStatus frs_floorId].
  apply (group_sized _ Attr_FloorRequestStatus m 6); [|lia].
  apply (then_write_fills _ _ _ 2 4); [lia| |apply RequestStatus_sized].
  simpl. rewrite word_contents_len. unfold Attr_MaxLength. lia.
Qed.

Lemma OverallRequestStatus_sized id rs m :
  sized (OverallRequestStatus_Serialize (OverallRequestStatusAttr id (Some rs) None) m) 8.
Proof.
  unfold OverallRequestStatus_Serialize.
  cbn [then_write_opt ors_requestStatus ors_floorRequestId ors_statusInfo].
  apply (group_sized _ Attr_OverallRequestStatus m 6); [|lia].
  apply (then_write_fills _ _ _ 2 4); [lia| |apply RequestStatus_sized].
  simpl. rewrite word_contents_len. unfold Attr_MaxLength. lia.
Qed.

(** What [CreateFloorRequestInformation] builds. *)
Lemma floor_statuses_fold fs rs info :
  foldl (λ i f, fri_AddFloorRequestStatus i (frs_SetRequestStatus (new_FloorRequestStatusAttr f) rs)) info fs
  = FloorRequestInformationAttr (fri_floorRequestId info)
      (fri_floorRequestStatuses info ++ ((λ f, FloorRequestStatusAttr f (Some rs)) <$> fs))
      (fri_overallRequestStatus info) (fri_beneficiaryInformation info) (fri_requestedByInformation info).
Proof.
  revert info. induction fs as [|f fs IH]; intros info; simpl.
  - rewrite app_nil_r. by destruct info.
  - rewrite IH. simpl. by rewrite <- app_assoc.
Qed.

Lemma request_information_shape r :
  CreateFloorRequestInformation r
  = FloorRequestInformationAttr (r_floorRequestId r)
      ((λ f, FloorRequestStatusAttr f (Some (RequestStatus (r_status r) (r_queuePosition r)))) <$> r_floorIds r)
      (Some (OverallRequestStatusAttr (r_floorRequestId r)
               (Some (RequestStatus (r_status r) (r_queuePosition r))) None))
      (Some (r_beneficiaryId r)) (Some (r_userId r)).
Proof. unfold CreateFloorRequestInformation. rewrite floor_statuses_fold. done. Qed.

Lemma request_information_fills r m max :
  match FloorRequestInformation_Serialize (CreateFloorRequestInformation r) m max with
  | Some o => Zlen (r_floorIds r) <= 29 ∧ Zlen o = 20 + 8 * Zlen (r_floorIds r) ∧ Zlen o <= max
  | None => 29 < Zlen (r_floorIds r) ∨ max < 20 + 8 * Zlen (r_floorIds r)
  end.
Proof.
  rewrite request_information_shape. unfold FloorRequestInformation_Serialize.
  cbn [then_write_opt fri_floorRequestId fri_floorRequestStatuses fri_overallRequestStatus
    fri_beneficiaryInformation fri_requestedByInformation].
  set (rs := RequestStatus _ _). set (n := Zlen (r_floorIds r)).
  match goal with |- context [match ?c with Some _ => Attr_Write _ _ _ _ | None => None end] =>
    set (contents := c) end.
  assert (fills Attr_MaxLength contents (2 + 8 + 8 * n + 4 + 4)) as Hf.
  { unfold contents. apply then_write_fills; [lia| |apply word_attr_sized].
    apply then_write_fills; [lia| |apply word_attr_sized].
    replace n with (Zlen ((λ f, FloorRequestStatusAttr f (Some rs)) <$> r_floorIds r))
      by (unfold n, Zlen; by rewrite length_fmap).
    apply then_write_all_fills; [lia| |apply Forall_fmap, Forall_true; intros f; apply FloorRequestStatus_sized].
    apply then_write_fills; [lia| |apply OverallRequestStatus_sized].
    simpl. rewrite word_contents_len. unfold Attr_MaxLength. lia. }
  clearbody contents. pose proof (Zlen_nonneg (r_floorIds r)) as Hn. fold n in Hn.
  destruct contents as [c|]; simpl in Hf; [|unfold Attr_MaxLength in Hf; left; lia].
  destruct Hf as [Hc _]. destruct (Z.le_gt_cases n 29) as [H29|H29].
  - pose proof (Attr_Write_sized Attr_FloorRequestInformation m c ltac:(lia) max) as Hs.
    assert (Padded (2 + Zlen c) = 20 + 8 * n) as Hpad.
    { rewrite Hc, Padded_small by lia. Z.div_mod_to_equations. lia. }
    rewrite Hpad in Hs. destruct (Attr_Write _ _ _ _); [lia|auto].
  - rewrite Attr_Write_too_long by lia. auto.
Qed.
End Sizes.

(** ** Staying inside the buffer *)

(** [ser] never writes past the [max] octets it is given. *)
Definition bounded (ser : Z → option bytes) : Prop :=
  ∀ max o, ser max = Some o → Zlen o <= max.

Lemma Attr_Write_bounded t m c : bounded (λ max, Attr_Write max t m c).
Proof.
  intros max o. destruct (Z.le_gt_cases (Zlen c) 253) as [Hc|Hc].
  - intros Ho. pose proof (Attr_Write_sized t m c Hc max) as H. cbv beta in H. rewrite Ho in H. lia.
  - by rewrite Attr_Write_too_long by lia.
Qed.

Lemma then_write_bounded ser f :
  bounded f → bounded ser → bounded (λ max, then_write max (f max) ser).
Proof.
  intros Hf Hs max o. destruct (f max) as [w|] eqn:E; simpl; [|done].
  destruct (ser (max - Zlen w)) as [v|] eqn:E'; [|done]. intros [= <-].
  apply Hs in E'. rewrite Zlen_app. lia.
Qed.

Lemma then_write_opt_bounded {A} (child : option A) ser f :
  bounded f → (∀ x, bounded (ser x)) → bounded (λ max, then_write_opt max (f max) child ser).
Proof. intros. destruct child; simpl; [by apply then_write_bounded|done]. Qed.

Lemma then_write_all_bounded {A} (l : list A) ser f :
  bounded f → (∀ x, bounded (ser x)) → bounded (λ max, then_write_all max (f max) l ser).
Proof.
  intros Hf Hs. unfold then_write_all. revert f Hf. induction l as [|x l IH]; intros f Hf; [done|].
  apply (IH (λ max, then_write max (f max) (ser x))). by apply then_write_bounded.
Qed.

Lemma grouped_bounded (contents : option bytes) t m :
  bounded (λ max, match contents with None => None | Some c => Attr_Write max t m c end).
Proof. destruct contents; [apply Attr_Write_bounded|done]. Qed.

Section Bounded.
Context {W : WireOps} {WL : WireLaws W}.

Lemma FloorRequestInformation_bounded i m : bounded (FloorRequestInformation_Serialize i m).
Proof. apply grouped_bounded. Qed.

(** An empty buffer is within bounds as soon as [max] is not negative. *)
Definition bounded_nonneg (ser : Z → option bytes) : Prop :=
  ∀ max o, 0 <= max → ser max = Some o → Zlen o <= max.

Lemma start_bounded (k : (Z → option bytes) → Z → option bytes) :
  (∀ f, bounded f → bounded (k f)) → (∀ f g max, f max = g max → k f max = k g max) →
  bounded_nonneg (k (λ _, Some [])).
Proof.
  intros Hk Hext max o Hmax Ho.
  apply (Hk (λ mx, if 0 <=? mx then Some [] else None)).
  - intros mx w. destruct (Z.leb_spec 0 mx); [|done]. intros [= <-]. by rewrite Zlen_nil.
  - rewrite <- Ho. apply Hext. by destruct (Z.leb_spec 0 max); [|lia].
Qed.

Lemma SerializeAttributes_bounded b : bounded_nonneg (SerializeAttributes b).
Proof.
  destruct b as [m|m|m|m|m| |m|m|p]; intros max o Hmax; cbn [SerializeAttributes].
  - revert Hmax. apply (start_bounded (λ f mx,
      then_write_opt mx (then_write_opt mx (then_write_all mx (f mx) (freq_floorIds m)
        (λ f, FloorId_Serialize f true)) (freq_beneficiaryId m) (λ b, BeneficiaryId_Serialize b false))
        (freq_participantProvidedInfo m) (λ i, ParticipantProvidedInfo_Serialize i false)));
      [|by intros f g mx ->].
    intros f Hf. apply then_write_opt_bounded; [|intros; apply Attr_Write_bounded].
    apply (then_write_opt_bounded (freq_beneficiaryId m) _ (λ mx, then_write_all mx (f mx) _ _));
      [|intros; apply Attr_Write_bounded].
    apply then_write_all_bounded; [done|]. intros; apply Attr_Write_bounded.
  - unfold FloorRelease_SerializeAttributes. destruct (frel_floorRequestId m); [|done].
    apply Attr_Write_bounded.
  - revert Hmax. apply (start_bounded (λ f mx,
      then_write_all mx (f mx) (fq_floorIds m) (λ f, FloorId_Serialize f false))); [|by intros f g mx ->].
    intros f Hf. apply then_write_all_bounded; [done|]. intros; apply Attr_Write_bounded.
  - unfold FloorRequestStatusMsg_SerializeAttributes. destruct (frst_floorRequestInformation m); [|done].
    apply FloorRequestInformation_bounded.
  - revert Hmax. apply (start_bounded (λ f mx,
      then_write_all mx (then_write_opt mx (f mx) (fst_floorId m) (λ f, FloorId_Serialize f false))
        (fst_floorRequestInformations m) (λ i, FloorRequestInformation_Serialize i false)));
      [|by intros f g mx ->].
    intros f Hf. apply then_write_all_bounded; [|intros; apply FloorRequestInformation_bounded].
    apply then_write_opt_bounded; [done|]. intros; apply Attr_Write_bounded.
  - intros [= <-]. by rewrite Zlen_nil.
  - unfold HelloAck_SerializeAttributes. intros Ho. revert Ho.
    apply (then_write_bounded (SupportedAttributes_Serialize (ha_supportedAttributes m) true)
      (SupportedPrimitives_Serialize (ha_supportedPrimitives m) true)); apply Attr_Write_bounded.
  - unfold Error_SerializeAttributes. destruct (err_errorCode m) as [c|]; [|done].
    pose proof (then_write_opt_bounded (err_errorInfo m) (λ i, ErrorInfo_Serialize i false)
      (ErrorCode_Serialize c true) ltac:(apply Attr_Write_bounded) ltac:(intros; apply Attr_Write_bounded)
      max o) as H.
    cbv beta in H. destruct (ErrorCode_Serialize c true max); [apply H|done].
  - intros [= <-]. by rewrite Zlen_nil.
Qed.
End Bounded.

(** ** Claims *)

Section Claims.
Context {W : WireOps} {WL : WireLaws W}.

(** C10. The loop over attributes, whatever it does with each of them, ends within its fuel on
    every buffer of octets.  It accepts exactly the buffers that are a sequence of padded
    TLVs, and then it has visited the attributes of that sequence in order; when it refuses,
    the buffer either has no such reading or an attribute of it was refused by the visitor. *)
Theorem walker_reads_the_grammar {A} (step : A → Z → bool → bytes → option A) a data :
  bytes_ok data →
  match walk_all step a data with
  | WalkDone b => ∃ l, tlvs data l ∧ fold_attrs step a l = Some b
  | WalkRefused => ∀ l, tlvs data l → fold_attrs step a l = None
  | WalkFuel => False
  end.
Proof. apply walk_all_spec. Qed.

(** C9. A well-formed message that is serialised, in either version of the protocol, is parsed
    back as itself from the octets written, whatever follows them in the buffer. *)
Theorem message_roundtrip m max version bs junk :
  wf_message m → version = VersionReliable ∨ version = VersionUnreliable →
  Message_Serialize m max version = Some bs →
  Message_Parse (bs ++ junk) = Some (SetVersion m version).
Proof. apply Message_Parse_Serialize. Qed.

(** C11. Whatever octets come from the network, a message the parser accepts is well formed
    (every identifier within its width, the attributes its primitive must have present, every request
    status one of the enumeration, the primitive and an error code either one of their enumeration or
    kept as the octet that was read), is of one of the two versions, and when it can be serialised again
    it is parsed back unchanged. *)
Theorem parsed_message_is_well_formed data m :
  bytes_ok data → Message_Parse data = Some m →
  wf_message m ∧ (msg_version m = VersionReliable ∨ msg_version m = VersionUnreliable) ∧
  ∀ max bs, Message_Serialize m max (msg_version m) = Some bs → Message_Parse bs = Some m.
Proof.
  intros Hb Hm. destruct (Message_Parse_wf_lemma _ _ Hb Hm) as [Hwf Hv]. split_and!; [done..|].
  intros max bs Hs. rewrite <- (app_nil_r bs).
  rewrite (Message_Parse_Serialize _ _ _ _ [] Hwf Hv Hs). by destruct m.
Qed.

(** Serialising never writes past the buffer it is given, and what it writes is a
    header of 12 octets and a payload of as many whole words as the header announces. *)
Theorem serialize_stays_in_buffer m max version bs :
  Message_Serialize m max version = Some bs →
  Zlen bs <= max ∧ ∃ n, 0 <= n <= 0xFFFF ∧ Zlen bs = Msg_HeaderLen + 4 * n ∧ get2 bs 2 = n.
Proof.
  intros H. assert (Msg_HeaderLen <= max) as Hmax.
  { unfold Message_Serialize in H. by destruct (Z.ltb_spec max Msg_HeaderLen). }
  apply Message_Serialize_inv in H as (payload & Hp & H4 & Hn & ->).
  apply SerializeAttributes_bounded in Hp; [|lia].
  destruct (header_octets_read (to_byte (Z.lor (Z.shiftl version 5) (if msg_responder m then 16 else 0)))
    (to_byte (prim_code (GetPrimitive m))) (Zlen payload / 4) (msg_conferenceId m) (msg_transactionId m)
    (msg_userId m) payload) as (_ & _ & R2 & _).
  rewrite Zlen_app, header_octets_len. unfold Msg_HeaderLen in *. split; [lia|].
  exists (Zlen payload / 4). split_and!; [lia..| |].
  - Z.div_mod_to_equations. lia.
  - rewrite R2. apply to_word_id. unfold is_word. lia.
Qed.

(** The status of a floor request can be put on the wire exactly when the request is for
    at most 29 floors, given a buffer of 264 octets or more: one more floor and the
    FLOOR-REQUEST-INFORMATION attribute passes its 255 octets, and the request, which the
    server has recorded, cannot be answered. *)
Theorem floor_request_status_fits r tid max version :
  264 <= max →
  is_Some (Message_Serialize (CreateFloorRequestStatus r tid) max version) ↔ Zlen (r_floorIds r) <= 29.
Proof.
  intros Hmax. unfold Message_Serialize, CreateFloorRequestStatus.
  cbn [msg_body new_message SerializeAttributes FloorRequestStatusMsg_SerializeAttributes
       frst_SetFloorRequestInformation frst_floorRequestInformation msg_responder msg_conferenceId
       msg_transactionId msg_userId].
  unfold Msg_HeaderLen. destruct (Z.ltb_spec max 12) as [?|_]; [lia|].
  pose proof (request_information_fills r true (max - 12)) as H.
  destruct (FloorRequestInformation_Serialize _ _ _) as [o|].
  - destruct H as (Hn & Hlen & _). pose proof (Zlen_nonneg (r_floorIds r)).
    rewrite Hlen. split; [done|]. intros _.
    destruct (Z.eqb_spec ((20 + 8 * Zlen (r_floorIds r)) mod 4) 0);
      [simpl|exfalso; Z.div_mod_to_equations; lia].
    destruct (Z.ltb_spec 0xFFFF ((20 + 8 * Zlen (r_floorIds r)) / 4)); [Z.div_mod_to_equations; lia|done].
  - split; [by intros [? ?]|]. lia.
Qed.
End Claims.

(** ** Witnesses *)

(** A request of user 5 for floors 1 and 2 on behalf of user 9. *)
Definition sample_request : BFCPMessage :=
  new_message (MsgFloorRequest (FloorRequestMsg [1; 2] (Some 9) (Some [104; 105]))) 300 70000 5.

Definition sample_octets : bytes :=
  [32; 1; 0; 4; 0; 1; 17; 112; 1; 44; 0; 5;
   5; 4; 0; 1; 5; 4; 0; 2; 2; 4; 0; 9; 16; 4; 104; 105].

(** A granted request for [n] floors. *)
Definition sample_recorded (n : nat) : BFCPFloorRequest :=
  r_SetStatus Granted (foldl r_AddFloorId (new_floor_request 3 5 7) (Z.of_nat <$> seq 1 n)).

Lemma walker_reads_the_grammar_witness :
  ∃ l, tlvs [5; 4; 0; 1; 3; 3; 8; 0] l ∧
    fold_attrs (λ n t m c, Some (n + 1)) 0 l = Some 2.
Proof.
  pose proof (walker_reads_the_grammar (λ n (t : Z) (m : bool) (c : bytes), Some (n + 1)) 0
    [5; 4; 0; 1; 3; 3; 8; 0] ltac:(unfold bytes_ok, is_byte; repeat constructor; lia)) as H.
  vm_compute (walk_all _ _ _) in H. exact H.
Defined.

Lemma message_roundtrip_witness :
  @Message_Parse network_order (sample_octets ++ [1; 2; 3]) = Some sample_request.
Proof.
  apply (message_roundtrip sample_request 1500 VersionReliable sample_octets [1; 2; 3]).
  - by apply (bool_decide_unpack _).
  - by left.
  - vm_compute. reflexivity.
Defined.

Lemma parsed_message_is_well_formed_witness : wf_message sample_request.
Proof.
  apply (@parsed_message_is_well_formed network_order _ sample_octets sample_request).
  - unfold bytes_ok, is_byte, sample_octets. repeat constructor; lia.
  - vm_compute. reflexivity.
Defined.

Lemma serialize_stays_in_buffer_witness : Zlen sample_octets <= 28.
Proof.
  apply (@serialize_stays_in_buffer network_order _ sample_request 28 VersionReliable sample_octets).
  vm_compute. reflexivity.
Defined.

Lemma floor_request_status_fits_witness :
  is_Some (@Message_Serialize network_order (CreateFloorRequestStatus (sample_recorded 29) 1) 1500 2)
  ∧ ~ is_Some (@Message_Serialize network_order (CreateFloorRequestStatus (sample_recorded 30) 1) 1500 2).
Proof.
  split.
  - apply (@floor_request_status_fits network_order _); vm_compute; discriminate.
  - intros H. apply (@floor_request_status_fits network_order _) in H; [|lia]. vm_compute in H. by apply H.
Defined.
