(* ===== verification/BfcpFloorSpec.v ===== *)
(** * The floor control contract

    An abstract machine for what the floor control server promises to its chair
    and its users, and the invariant of its reachable states.  [astep s ns s'] is
    one transition: it changes one thing (a request recorded, granted, dropped or
    released, a user or a floor added, ...) and tells the chair [ns].  Messages and
    transaction ids are below this level: states that differ by the transaction
    counter only are equivalent ([≈]).

    [replay] is the chair's own view: which requests hold floors, computed from the
    notifications alone. *)

From S2P Require Import Prelude OrderedMap BfcpAttr BfcpMsg BfcpServer.

(** ** States up to the transaction counter *)

Definition server_eq (s s' : Server) : Prop :=
  set_transactionCounter 0 s = set_transactionCounter 0 s'.

Infix "≈" := server_eq (at level 70).

Definition tc_ok (s : Server) : Prop := 0 <= transactionCounter s <= 0xFFFF.

(** ** The machine *)

Definition is_user (s : Server) (u : Z) : Prop := is_Some (om_find u (users s)).

(** What a recorded request always satisfies. *)
Record request_ok (s : Server) (id : Z) (r : BFCPFloorRequest) : Prop := {
  rq_id : r_floorRequestId r = id;
  rq_conf : r_conferenceId r = conferenceId s;
  rq_status : r_status r = Pending ∨ r_status r = Granted;
  rq_sorted : os_sorted (r_floorIds r);
  rq_floors : ∀ f, f ∈ r_floorIds r → f ∈ floors s;
  rq_user : is_user s (r_userId r);
  rq_beneficiary : is_user s (r_beneficiaryId r);
  rq_queue : r_queuePosition r = 0;
}.

Record user_ok (s : Server) (id : Z) (u : BFCPUser) : Prop := {
  us_id : u_userId u = id;
  us_range : 1 <= id <= 0xFFFF;
  us_conf : u_conferenceId u = conferenceId s;
  us_nodup : NoDup (u_queriedFloorIds u);
  us_floors : ∀ f, f ∈ u_queriedFloorIds u → f ∈ floors s;
}.

Definition share_floor (r o : BFCPFloorRequest) : Prop :=
  ∃ f, f ∈ r_floorIds r ∧ f ∈ r_floorIds o.

Inductive astep : Server → list Notification → Server → Prop :=
  | as_quiet s s' : s ≈ s' → (tc_ok s → tc_ok s') → astep s [] s'
  | as_drop s id r :
      om_find id (floorRequests s) = Some r → r_IsGranted r = false →
      astep s [] (set_floorRequests (om_erase id) s)
  | as_release s id r :
      om_find id (floorRequests s) = Some r → r_IsGranted r = true →
      astep s (if ending s then [] else [OnFloorReleased id (r_beneficiaryId r) (r_floorIds r)])
        (set_floorRequests (om_erase id) s)
  | as_grant s id r :
      om_find id (floorRequests s) = Some r → r_IsGranted r = false →
      (∀ j o, om_find j (floorRequests s) = Some o → r_IsGranted o = true → ¬ share_floor r o) →
      astep s [OnFloorGranted id (r_beneficiaryId r) (r_floorIds r)]
        (set_floorRequests (om_alter (r_SetStatus Granted) id) s)
  | as_request s r :
      request_ok s (floorRequestCounter s) r → r_status r = Pending →
      astep s []
        (set_floorRequests (om_set (floorRequestCounter s) r)
           (set_floorRequestCounter (floorRequestCounter s + 1) s))
  | as_announce_request s id r :
      om_find id (floorRequests s) = Some r → r_IsGranted r = false →
      astep s [OnFloorRequest id (r_userId r) (r_beneficiaryId r) (r_floorIds r)] s
  | as_announce_user s u : is_user s u → astep s [OnUserConnected u] s
  | as_user s id u u' :
      om_find id (users s) = Some u → user_ok s id u' → u_isChair u' = u_isChair u →
      astep s [] (set_users (om_alter (λ _, u') id) s)
  | as_add_user s id :
      1 <= id <= 0xFFFF → om_find id (users s) = None →
      astep s [] (set_users (om_set id (new_user id (conferenceId s))) s)
  | as_remove_user s id :
      (∀ j r, om_find j (floorRequests s) = Some r → r_userId r ≠ id ∧ r_beneficiaryId r ≠ id) →
      astep s [] (set_users (om_erase id) s)
  | as_chair s id :
      astep s [] (set_users (λ us, om_alter user_SetChair id (om_map user_UnsetChair us)) s)
  | as_floor s f :
      1 <= f <= 0xFFFF → astep s [] (set_floors (os_insert f) s)
  | as_end s : ending s = false → astep s [] (set_ending true s)
  | as_clear s : ending s = true → floorRequests s = [] → astep s [] (set_users (λ _, []) s).

Inductive asteps : Server → list Notification → Server → Prop :=
  | asteps_nil s : asteps s [] s
  | asteps_cons s ns s1 ns' s2 :
      astep s ns s1 → asteps s1 ns' s2 → asteps s (ns ++ ns') s2.

(** ** The invariant *)

Record Inv (s : Server) : Prop := {
  inv_users_sorted : om_sorted (users s);
  inv_users : ∀ id u, om_find id (users s) = Some u → user_ok s id u;
  inv_chair : ∀ i j u v, om_find i (users s) = Some u → om_find j (users s) = Some v →
    u_isChair u = true → u_isChair v = true → i = j;
  inv_floors : os_sorted (floors s) ∧ Forall (λ f, 1 <= f <= 0xFFFF) (floors s);
  inv_requests_sorted : om_sorted (floorRequests s);
  inv_requests : ∀ id r, om_find id (floorRequests s) = Some r →
    1 <= id < floorRequestCounter s ∧ request_ok s id r;
  inv_exclusive : ∀ i j r o, om_find i (floorRequests s) = Some r →
    om_find j (floorRequests s) = Some o →
    r_IsGranted r = true → r_IsGranted o = true → share_floor r o → i = j;
  inv_counter : 1 <= floorRequestCounter s;
  inv_tc : tc_ok s;
}.

(** ** The chair's view *)

Definition Holders := list (Z * (Z * list Z)).

(** The requests that hold floors, with their beneficiary and their floors. *)
Fixpoint holders (m : list (Z * BFCPFloorRequest)) : Holders :=
  match m with
  | [] => []
  | (id, r) :: m' =>
      if r_IsGranted r then (id, (r_beneficiaryId r, r_floorIds r)) :: holders m' else holders m'
  end.

Definition held (s : Server) : Holders := holders (floorRequests s).

Definition floors_free (fs : list Z) (h : Holders) : bool :=
  forallb (λ p, forallb (λ f, negb (os_has f p.2.2)) fs) h.

(** A notification that contradicts what the chair was told before is [None]. *)
Definition replay1 (h : Holders) (n : Notification) : option Holders :=
  match n with
  | OnFloorGranted id b fs =>
      if bool_decide (om_find id h = None) && floors_free fs h then Some (om_set id (b, fs) h)
      else None
  | OnFloorReleased id b fs =>
      if bool_decide (om_find id h = Some (b, fs)) then Some (om_erase id h) else None
  | OnFloorRequest id _ _ _ => if bool_decide (om_find id h = None) then Some h else None
  | OnUserConnected _ => Some h
  end.

Fixpoint replay (h : Holders) (ns : list Notification) : option Holders :=
  match ns with
  | [] => Some h
  | n :: ns' => match replay1 h n with None => None | Some h' => replay h' ns' end
  end.

(** ** Equivalence *)

#[global] Instance server_eq_equiv : Equivalence server_eq.
Proof. split; unfold server_eq; repeat intro; congruence. Qed.

Lemma server_eq_fields s s' :
  s ≈ s' →
  conferenceId s = conferenceId s' ∧ users s = users s' ∧ floors s = floors s'
  ∧ floorRequests s = floorRequests s' ∧ floorRequestCounter s = floorRequestCounter s'
  ∧ ending s = ending s'.
Proof. unfold server_eq. destruct s, s'; simpl. intros; simplify_eq. done. Qed.

#[global] Instance users_proper : Proper (server_eq ==> eq) users.
Proof. intros s s' H. by apply server_eq_fields in H as (_ & ? & _). Qed.
#[global] Instance floors_proper : Proper (server_eq ==> eq) floors.
Proof. intros s s' H. by apply server_eq_fields in H as (_ & _ & ? & _). Qed.
#[global] Instance floorRequests_proper : Proper (server_eq ==> eq) floorRequests.
Proof. intros s s' H. by apply server_eq_fields in H as (_ & _ & _ & ? & _). Qed.
#[global] Instance floorRequestCounter_proper : Proper (server_eq ==> eq) floorRequestCounter.
Proof. intros s s' H. by apply server_eq_fields in H as (_ & _ & _ & _ & ? & _). Qed.
#[global] Instance ending_proper : Proper (server_eq ==> eq) ending.
Proof. intros s s' H. by apply server_eq_fields in H as (_ & _ & _ & _ & _ & ?). Qed.
#[global] Instance conferenceId_proper : Proper (server_eq ==> eq) conferenceId.
Proof. intros s s' H. by apply server_eq_fields in H as (? & _). Qed.
#[global] Instance held_proper : Proper (server_eq ==> eq) held.
Proof. intros s s' H. unfold held. by rewrite H. Qed.
#[global] Instance set_floorRequests_proper f : Proper (server_eq ==> server_eq) (set_floorRequests f).
Proof. intros s s' H. unfold server_eq in *. destruct s, s'; simpl in *. by simplify_eq. Qed.
#[global] Instance set_users_proper f : Proper (server_eq ==> server_eq) (set_users f).
Proof. intros s s' H. unfold server_eq in *. destruct s, s'; simpl in *. by simplify_eq. Qed.

Lemma asteps_one s ns s' : astep s ns s' → asteps s ns s'.
Proof. intros H. rewrite <- (app_nil_r ns). econstructor; [done|constructor]. Qed.

Lemma asteps_app s ns s1 ns' s2 : asteps s ns s1 → asteps s1 ns' s2 → asteps s (ns ++ ns') s2.
Proof.
  induction 1 as [|s ns s1 ns1 s3 Hs H IH]; intros H2; [done|].
  rewrite <- app_assoc. econstructor; eauto.
Qed.

(** ** The invariant is preserved *)

Lemma request_ok_mono s s' id r :
  request_ok s id r → conferenceId s' = conferenceId s → (∀ f, f ∈ floors s → f ∈ floors s') →
  (∀ u, is_user s u → is_user s' u) → request_ok s' id r.
Proof. intros [] Hc Hf Hu. split; eauto. congruence. Qed.

Lemma user_ok_mono s s' id u :
  user_ok s id u → conferenceId s' = conferenceId s → (∀ f, f ∈ floors s → f ∈ floors s') →
  user_ok s' id u.
Proof. intros [] Hc Hf. split; eauto. congruence. Qed.

Lemma Inv_quiet s s' : s ≈ s' → (tc_ok s → tc_ok s') → Inv s → Inv s'.
Proof.
  intros Heq Htc HI. apply server_eq_fields in Heq as (Hc & Hu & Hf & Hr & Hn & He).
  assert (∀ u, is_user s u → is_user s' u) by (unfold is_user; by rewrite Hu).
  destruct HI. split; rewrite <- ?Hu, <- ?Hf, <- ?Hr, <- ?Hn; eauto.
  - intros. eapply user_ok_mono; eauto. by rewrite Hf.
  - intros. split; [naive_solver|]. eapply request_ok_mono; [naive_solver|done| |done].
    by rewrite Hf.
Qed.

(** Steps on the requests: every request left is an old one, granted only if it was. *)
Lemma Inv_requests s f :
  Inv s → om_sorted (f (floorRequests s)) →
  (∀ id r, om_find id (f (floorRequests s)) = Some r →
     ∃ r0, om_find id (floorRequests s) = Some r0 ∧ request_ok s id r ∧
           (r_IsGranted r = true →
            (r_IsGranted r0 = true ∧ r_floorIds r = r_floorIds r0) ∨
            (∀ j o, j ≠ id → om_find j (f (floorRequests s)) = Some o → r_IsGranted o = true →
               ¬ share_floor r o))) →
  Inv (set_floorRequests f s).
Proof.
  intros HI Hs Hf. destruct HI. split; simpl; auto.
  - intros id u Hu. by destruct (inv_users0 id u Hu).
  - intros id r Hr. destruct (Hf id r Hr) as (r0 & Hr0 & Hok & _).
    split; [naive_solver|]. by destruct Hok.
  - intros i j r o Hr Ho Gr Go Hsh. destruct (decide (i = j)) as [|Hne]; [done|]. exfalso.
    destruct (Hf i r Hr) as (r0 & Hr0 & _ & Hg). destruct (Hf j o Ho) as (o0 & Ho0 & _ & Hg').
    destruct (Hg Gr) as [[Gr0 Er]|Hno]; [|by eapply (Hno j o)].
    destruct (Hg' Go) as [[Go0 Eo]|Hno]; [|].
    + apply Hne. apply (inv_exclusive0 i j r0 o0); auto. unfold share_floor in *.
      by rewrite <- Er, <- Eo.
    + eapply (Hno i r); eauto. destruct Hsh as (x & ? & ?). by exists x.
Qed.

Lemma Inv_erase_request s id : Inv s → Inv (set_floorRequests (om_erase id) s).
Proof.
  intros HI. apply Inv_requests; [done|apply om_erase_sorted, HI|].
  intros j r Hr. destruct (decide (j = id)) as [->|Hne].
  { by rewrite om_find_erase_eq in Hr. }
  rewrite om_find_erase_ne in Hr by done. exists r. split; [done|].
  split; [by apply (inv_requests s HI)|auto].
Qed.

Lemma r_SetStatus_ok s id r :
  request_ok s id r → request_ok s id (r_SetStatus Granted r).
Proof. intros []. split; simpl; auto. Qed.

Lemma Inv_grant s id r :
  Inv s → om_find id (floorRequests s) = Some r →
  (∀ j o, om_find j (floorRequests s) = Some o → r_IsGranted o = true → ¬ share_floor r o) →
  Inv (set_floorRequests (om_alter (r_SetStatus Granted) id) s).
Proof.
  intros HI Hid Hno. apply Inv_requests; [done|apply om_alter_sorted, HI|].
  intros j o Ho. destruct (decide (j = id)) as [->|Hne].
  - rewrite om_find_alter_eq, Hid in Ho. simplify_eq/=. exists r. split; [done|].
    split; [by apply r_SetStatus_ok, (inv_requests s HI)|]. intros _. right.
    intros j o Hne Ho Go Hsh. rewrite om_find_alter_ne in Ho by done. by eapply Hno.
  - rewrite om_find_alter_ne in Ho by done. exists o. split; [done|].
    split; [by apply (inv_requests s HI)|]. auto.
Qed.

Lemma Inv_request s r :
  Inv s → request_ok s (floorRequestCounter s) r → r_status r = Pending →
  Inv (set_floorRequests (om_set (floorRequestCounter s) r)
         (set_floorRequestCounter (floorRequestCounter s + 1) s)).
Proof.
  intros [] Hok Hst. split; simpl; auto; [|by apply om_set_sorted| | |lia].
  - intros id u Hu. by destruct (inv_users0 id u Hu).
  - intros id o Ho. destruct (decide (id = floorRequestCounter s)) as [->|Hne].
    + rewrite om_find_set_eq in Ho. simplify_eq. split; [lia|]. by destruct Hok.
    + rewrite om_find_set_ne in Ho by done. destruct (inv_requests0 id o Ho) as [Hr []].
      split; [lia|]. by split.
  - intros i j r1 r2 H1 H2 G1 G2 Hsh.
    assert (r_IsGranted r = false) as Gr by (unfold r_IsGranted; by rewrite Hst).
    destruct (decide (i = floorRequestCounter s)) as [->|Hi];
      [rewrite om_find_set_eq in H1; simplify_eq; congruence|].
    destruct (decide (j = floorRequestCounter s)) as [->|Hj];
      [rewrite om_find_set_eq in H2; simplify_eq; congruence|].
    rewrite om_find_set_ne in H1, H2 by done. eauto.
Qed.

(** Steps on the users: no user a request names goes away, and chairs do not multiply. *)
Lemma Inv_users s f :
  Inv s → om_sorted (f (users s)) →
  (∀ id u, om_find id (f (users s)) = Some u → user_ok s id u) →
  (∀ i j u v, om_find i (f (users s)) = Some u → om_find j (f (users s)) = Some v →
     u_isChair u = true → u_isChair v = true → i = j) →
  (∀ id r, om_find id (floorRequests s) = Some r →
     is_Some (om_find (r_userId r) (f (users s))) ∧ is_Some (om_find (r_beneficiaryId r) (f (users s)))) →
  Inv (set_users f s).
Proof.
  intros HI Hs Hu Hch Hreq. destruct HI. split; simpl; auto.
  - intros id u H. by destruct (Hu id u H).
  - intros id r Hr. destruct (inv_requests0 id r Hr) as [Hrange []].
    destruct (Hreq id r Hr). split; [done|]. split; auto.
Qed.

Lemma user_ok_chair s id u : user_ok s id u → user_ok s id (user_SetChair u).
Proof. intros []. by split. Qed.

Lemma user_ok_unchair s id u : user_ok s id u → user_ok s id (user_UnsetChair u).
Proof. intros []. by split. Qed.

Lemma Inv_set_user s id u u' :
  Inv s → om_find id (users s) = Some u → user_ok s id u' → u_isChair u' = u_isChair u →
  Inv (set_users (om_alter (λ _, u') id) s).
Proof.
  intros HI Hid Hok Hch.
  assert (∀ j v, om_find j (om_alter (λ _, u') id (users s)) = Some v →
                 ∃ v0, om_find j (users s) = Some v0 ∧ u_isChair v = u_isChair v0 ∧ user_ok s j v) as Hold.
  { intros j v. destruct (decide (j = id)) as [->|Hne].
    - rewrite om_find_alter_eq, Hid. intros; simplify_eq/=. eauto.
    - rewrite om_find_alter_ne by done. intros. eauto 6 using inv_users. }
  apply Inv_users; [done|apply om_alter_sorted, HI|naive_solver| |].
  - intros i j v w Hv Hw Cv Cw. destruct (Hold i v Hv) as (v0 & ? & E & _).
    destruct (Hold j w Hw) as (w0 & ? & E' & _).
    apply (inv_chair s HI i j v0 w0); congruence.
  - intros j r Hr. destruct (inv_requests s HI j r Hr) as [_ Hq].
    assert (∀ k, is_user s k → is_Some (om_find k (om_alter (λ _, u') id (users s)))) as Hk.
    { intros k [v Hv]. destruct (decide (k = id)) as [->|Hne].
      - rewrite om_find_alter_eq, Hv. eauto.
      - rewrite om_find_alter_ne by done. eauto. }
    split; apply Hk; [apply (rq_user s j r Hq)|apply (rq_beneficiary s j r Hq)].
Qed.

Lemma Inv_add_user s id :
  Inv s → 1 <= id <= 0xFFFF → om_find id (users s) = None →
  Inv (set_users (om_set id (new_user id (conferenceId s))) s).
Proof.
  intros HI Hr Hnone.
  assert (∀ j v, om_find j (om_set id (new_user id (conferenceId s)) (users s)) = Some v →
                 user_ok s j v ∧ (u_isChair v = true → om_find j (users s) = Some v)) as Hnew.
  { intros j v. destruct (decide (j = id)) as [->|Hne].
    - rewrite om_find_set_eq. intros; simplify_eq/=. split; [|done].
      split; simpl; auto; [constructor|set_solver].
    - rewrite om_find_set_ne by done. intros. split; [|done]. by apply (inv_users s HI). }
  apply Inv_users; [done|apply om_set_sorted, HI|naive_solver| |].
  - intros i j u v Hu Hv Cu Cv. apply (inv_chair s HI i j u v); naive_solver.
  - intros j r Hj. destruct (inv_requests s HI j r Hj) as [_ Hq].
    assert (∀ k, is_user s k → is_Some (om_find k (om_set id (new_user id (conferenceId s)) (users s)))).
    { intros k [v Hv]. rewrite om_find_set_ne by congruence. eauto. }
    split; [apply H, (rq_user s j r Hq)|apply H, (rq_beneficiary s j r Hq)].
Qed.

Lemma Inv_remove_user s id :
  Inv s →
  (∀ j r, om_find j (floorRequests s) = Some r → r_userId r ≠ id ∧ r_beneficiaryId r ≠ id) →
  Inv (set_users (om_erase id) s).
Proof.
  intros HI Hno.
  assert (∀ j v, om_find j (om_erase id (users s)) = Some v → om_find j (users s) = Some v) as Hold.
  { intros j v. destruct (decide (j = id)) as [->|Hne].
    - by rewrite om_find_erase_eq.
    - by rewrite om_find_erase_ne. }
  apply Inv_users; [done|apply om_erase_sorted, HI| | |].
  - intros j v Hv. by apply (inv_users s HI), Hold.
  - intros i j u v Hu Hv. apply (inv_chair s HI); auto.
  - intros j r Hj. destruct (inv_requests s HI j r Hj) as [_ Hq]. destruct (Hno j r Hj).
    rewrite !om_find_erase_ne by done.
    split; [apply (rq_user s j r Hq)|apply (rq_beneficiary s j r Hq)].
Qed.

Lemma Inv_chair s id :
  Inv s → Inv (set_users (λ us, om_alter user_SetChair id (om_map user_UnsetChair us)) s).
Proof.
  intros HI. set (us := om_alter user_SetChair id (om_map user_UnsetChair (users s))).
  assert (∀ j, om_find j us = (λ u, if decide (j = id) then user_SetChair (user_UnsetChair u)
                                    else user_UnsetChair u) <$> om_find j (users s)) as Hus.
  { intros j. unfold us. destruct (decide (j = id)) as [->|Hne].
    - rewrite om_find_alter_eq, om_find_map. by destruct (om_find id (users s)).
    - by rewrite om_find_alter_ne, om_find_map. }
  apply Inv_users; [done|apply om_alter_sorted, om_map_sorted, HI| | |]; fold us.
  - intros j v. rewrite Hus. intros (u & Hu & ->)%fmap_Some. apply (inv_users s HI) in Hu.
    destruct (decide (j = id)); auto using user_ok_chair, user_ok_unchair.
  - intros i j u v. rewrite !Hus. intros (u0 & _ & ->)%fmap_Some (v0 & _ & ->)%fmap_Some.
    destruct (decide (i = id)), (decide (j = id)); simpl; congruence.
  - intros j r Hj. destruct (inv_requests s HI j r Hj) as [_ Hq]. rewrite !Hus, !fmap_is_Some.
    split; [apply (rq_user s j r Hq)|apply (rq_beneficiary s j r Hq)].
Qed.

Lemma Inv_floor s f : Inv s → 1 <= f <= 0xFFFF → Inv (set_floors (os_insert f) s).
Proof.
  intros HI Hf. pose proof (inv_floors s HI) as [Hs Hall].
  assert (∀ x, x ∈ floors s → x ∈ os_insert f (floors s)) by (intros; apply os_insert_elem; auto).
  destruct HI. split; simpl; auto.
  - intros. eapply user_ok_mono; eauto.
  - split; [by apply os_insert_sorted|]. rewrite Forall_forall in *.
    intros x [->|Hx]%os_insert_elem; auto.
  - intros id r Hr. split; [naive_solver|]. eapply request_ok_mono; [naive_solver|done..].
Qed.

Lemma Inv_ending s b : Inv s → Inv (set_ending b s).
Proof.
  intros []. split; simpl; auto.
  - intros. by eapply user_ok_mono; eauto.
  - intros id r Hr. split; [naive_solver|]. eapply request_ok_mono; [naive_solver|done..].
Qed.

Lemma Inv_clear s : Inv s → floorRequests s = [] → Inv (set_users (λ _, []) s).
Proof.
  intros HI Hnil. apply Inv_users; [done|apply om_sorted_nil|done|done|].
  rewrite Hnil. done.
Qed.

Lemma Inv_new confId : Inv (new_server confId).
Proof.
  split; simpl; try done; try lia; try apply om_sorted_nil.
  split; [constructor|done].
Qed.

#[export] Hint Resolve Inv_erase_request Inv_grant Inv_request Inv_set_user Inv_add_user
  Inv_remove_user Inv_chair Inv_floor Inv_ending Inv_clear Inv_quiet : media.

Lemma astep_Inv s ns s' : astep s ns s' → Inv s → Inv s'.
Proof. destruct 1; intros HI; eauto with media. Qed.

Lemma asteps_Inv s ns s' : asteps s ns s' → Inv s → Inv s'.
Proof. induction 1; eauto using astep_Inv. Qed.

(** ** The notifications tell who holds the floors *)

Lemma holders_elem m id h :
  (id, h) ∈ holders m ↔
  ∃ r, (id, r) ∈ m ∧ r_IsGranted r = true ∧ h = (r_beneficiaryId r, r_floorIds r).
Proof.
  induction m as [|[j r] m IH]; simpl.
  { split; [intros H; inv H|intros (? & H & _); inv H]. }
  destruct (r_IsGranted r) eqn:G; rewrite ?elem_of_cons, IH; split.
  - intros [[= -> ->]|(r' & Hin & ?)]; [exists r|exists r']; rewrite elem_of_cons; auto.
  - intros (r' & Hin & G' & ->). apply elem_of_cons in Hin as [?|?]; simplify_eq; eauto 6.
  - intros (r' & Hin & ?). exists r'. rewrite elem_of_cons. auto.
  - intros (r' & Hin & G' & ->). apply elem_of_cons in Hin as [?|?]; simplify_eq;
      [congruence|eauto 6].
Qed.

Lemma holders_sorted m : om_sorted m → om_sorted (holders m).
Proof.
  induction m as [|[j r] m IH]; intros Hs; simpl; [done|].
  apply om_sorted_cons in Hs as [Hs Hlt]. destruct (r_IsGranted r); [|auto].
  apply om_sorted_cons. split; [auto|]. intros k h (o & Ho & _)%holders_elem. eauto.
Qed.

Lemma holders_find m id :
  om_sorted m →
  om_find id (holders m) =
    match om_find id m with
    | Some r => if r_IsGranted r then Some (r_beneficiaryId r, r_floorIds r) else None
    | None => None
    end.
Proof.
  intros Hs. pose proof (holders_sorted m Hs) as Hh.
  destruct (om_find id m) as [r|] eqn:E; [destruct (r_IsGranted r) eqn:G|].
  - apply om_find_iff; [done|]. apply holders_elem. exists r. by apply om_find_elem in E.
  - destruct (om_find id (holders m)) eqn:E'; [|done]. exfalso.
    apply om_find_elem, holders_elem in E' as (r' & Hin & G' & _).
    apply om_elem_find in Hin; [congruence|done].
  - destruct (om_find id (holders m)) eqn:E'; [|done]. exfalso.
    apply om_find_elem, holders_elem in E' as (r' & Hin & G' & _).
    apply om_elem_find in Hin; [congruence|done].
Qed.

Lemma holders_erase id m : holders (om_erase id m) = om_erase id (holders m).
Proof.
  induction m as [|[j r] m IH]; simpl; [done|].
  destruct (j =? id) eqn:E, (r_IsGranted r) eqn:G; simpl; rewrite ?E, ?G, IH; done.
Qed.

Lemma holders_grant id r m :
  om_sorted m → om_find id m = Some r →
  holders (om_alter (r_SetStatus Granted) id m)
  = om_set id (r_beneficiaryId r, r_floorIds r) (holders m).
Proof.
  intros Hs Hid. apply om_ext; eauto using holders_sorted, om_alter_sorted, om_set_sorted.
  intros k. rewrite holders_find by (by apply om_alter_sorted).
  destruct (decide (k = id)) as [->|Hne].
  - by rewrite om_find_alter_eq, Hid, om_find_set_eq.
  - by rewrite om_find_alter_ne, om_find_set_ne, holders_find.
Qed.

Lemma holders_pending id r m :
  om_sorted m → om_find id m = None → r_IsGranted r = false →
  holders (om_set id r m) = holders m.
Proof.
  intros Hs Hid G. apply om_ext; eauto using holders_sorted, om_set_sorted.
  intros k. rewrite !holders_find by auto using om_set_sorted.
  destruct (decide (k = id)) as [->|Hne].
  - by rewrite om_find_set_eq, G, Hid.
  - by rewrite om_find_set_ne.
Qed.

Lemma floors_free_spec fs m :
  floors_free fs (holders m) = true ↔
  ∀ id o, (id, o) ∈ m → r_IsGranted o = true → ∀ f, f ∈ fs → f ∉ r_floorIds o.
Proof.
  unfold floors_free. rewrite forallb_forall. split.
  - intros H id o Ho G f Hf Hin.
    specialize (H (id, (r_beneficiaryId o, r_floorIds o))). rewrite forallb_forall in H.
    rewrite <- list_elem_of_In in H. specialize (H (proj2 (holders_elem m id _) (ex_intro _ o (conj Ho (conj G eq_refl)))) f).
    rewrite <- list_elem_of_In in H. specialize (H Hf). apply negb_true_iff in H.
    apply os_has_spec in Hin. simpl in H. congruence.
  - intros H [id h] Hin. apply list_elem_of_In, holders_elem in Hin as (o & Ho & G & ->). simpl.
    apply forallb_forall. intros f Hf%list_elem_of_In. apply negb_true_iff.
    destruct (os_has f (r_floorIds o)) eqn:E; [|done]. apply os_has_spec in E.
    by destruct (H id o Ho G f Hf).
Qed.

Lemma replay_app h ns h' ns' : replay h ns = Some h' → replay h (ns ++ ns') = replay h' ns'.
Proof.
  revert h. induction ns as [|n ns IH]; intros h; simpl; [congruence|].
  destruct (replay1 h n); [apply IH|done].
Qed.

Lemma astep_ending s ns s' : astep s ns s' → ending s' = false → ending s = false.
Proof. destruct 1 as [s s' H| | | | | | | | | | | | |]; simpl; [by rewrite H|try done..]. Qed.

Lemma asteps_ending s ns s' : asteps s ns s' → ending s' = false → ending s = false.
Proof. induction 1; eauto using astep_ending. Qed.

Lemma astep_replay s ns s' :
  Inv s → astep s ns s' → ending s' = false → replay (held s) ns = Some (held s').
Proof.
  intros HI Hst He. pose proof (inv_requests_sorted s HI) as Hs. unfold held.
  destruct Hst as [s s' H|s id r Hid G|s id r Hid G|s id r Hid G Hno|s r Hok Hst|s id r Hid G
                  |s u Hu|s id u u'|s id|s id|s id|s f|s H|s H]; simpl in *; try done.
  - by rewrite H.
  - rewrite holders_erase, om_erase_absent; [done|]. by rewrite holders_find, Hid, G.
  - rewrite He. simpl. rewrite holders_find, Hid, G, bool_decide_true, holders_erase by done. done.
  - rewrite holders_find, Hid, G, bool_decide_true by done.
    rewrite (proj2 (floors_free_spec _ _)); simpl; [by rewrite (holders_grant id r)|].
    intros j o Ho Go f Hf Hin. apply om_elem_find in Ho; [|done].
    apply (Hno j o Ho Go). by exists f.
  - rewrite holders_pending; [done..| |by unfold r_IsGranted; rewrite Hst].
    destruct (om_find (floorRequestCounter s) (floorRequests s)) as [o|] eqn:E; [|done].
    apply (inv_requests s HI) in E as [? _]. lia.
  - by rewrite holders_find, Hid, G, bool_decide_true.
Qed.

Lemma asteps_replay s ns s' :
  Inv s → asteps s ns s' → ending s' = false → replay (held s) ns = Some (held s').
Proof.
  intros HI H. induction H as [|s ns s1 ns' s2 Hst H IH]; intros He; [done|].
  erewrite replay_app; [apply IH; eauto using astep_Inv|].
  eapply astep_replay; eauto using asteps_ending.
Qed.
