(* ===== verification/BfcpServerRefine.v ===== *)
(** * The floor control server implements its contract

    Every operation of [BfcpServer], from a state that satisfies the invariant, is
    a sequence of transitions of the abstract machine of [BfcpFloorSpec], and the
    listener notifications it queues are those of the machine, in order.  The
    operations are executed symbolically with a weakest precondition; [quiet]
    computations (those that only send messages) are skipped by hints. *)

From S2P Require Import Prelude OrderedMap BfcpAttr BfcpMsg BfcpServer BfcpFloorSpec.

Local Open Scope fcs_scope.

(** ** Weakest preconditions *)

Definition wp {A} (m : M A) (Φ : A → Env → Prop) (e : Env) : Prop := Φ (m e).1 (m e).2.

Lemma wp_bind {A B} (m : M A) (k : A → M B) Φ e :
  wp m (λ a e', wp (k a) Φ e') e → wp (bind m k) Φ e.
Proof. unfold wp, bind. by destruct (m e). Qed.

Lemma wp_mono {A} (m : M A) (Φ Ψ : A → Env → Prop) e :
  wp m Φ e → (∀ a e', Φ a e' → Ψ a e') → wp m Ψ e.
Proof. unfold wp. auto. Qed.

Lemma wp_when b (m : M unit) Φ e :
  (b = true → wp m Φ e) → (b = false → Φ tt e) → wp (when b m) Φ e.
Proof. unfold wp, when. destruct b; simpl; auto. Qed.

(** ** Relations that every step respects

    [respects R m]: the environment after [m] is related to the one before.  For a
    preorder this is closed under everything programs are made of. *)

Definition respects (R : relation Env) {A} (m : M A) : Prop := ∀ e, R e (m e).2.

Section Respects.
Context (R : relation Env) `{!PreOrder R}.

Lemma respects_ret {A} (a : A) : respects R (ret a).
Proof. intros e. simpl. reflexivity. Qed.

Lemma respects_gets {A} (f : Server → A) : respects R (gets f).
Proof. intros e. simpl. reflexivity. Qed.

Lemma respects_bind {A B} (m : M A) (k : A → M B) :
  respects R m → (∀ a, respects R (k a)) → respects R (bind m k).
Proof.
  intros Hm Hk e. unfold bind. specialize (Hm e). destruct (m e) as [a e1].
  etrans; [apply Hm|apply Hk].
Qed.

Lemma respects_when b m : respects R m → respects R (when b m).
Proof. destruct b; [done|]. intros _. apply respects_ret. Qed.

Lemma respects_for_each {A} (l : list A) body :
  (∀ x, respects R (body x)) → respects R (for_each l body).
Proof.
  intros H. induction l as [|x l IH]; simpl; [apply respects_ret|]. by apply respects_bind.
Qed.
End Respects.

Create HintDb respects.

(** Case analysis on the matches of a program, then the hints. *)
Ltac respects_step :=
  match goal with
  | |- respects _ (bind _ _) => apply respects_bind; [apply _| |intros ?]
  | |- respects _ (when _ _) => apply respects_when; [apply _|]
  | |- respects _ (for_each _ _) => apply respects_for_each; [apply _|intros ?]
  | |- respects _ (match ?x with _ => _ end) => destruct x
  | |- respects _ (ret _) => apply respects_ret; apply _
  | |- respects _ (gets _) => apply respects_gets; apply _
  | |- respects _ _ => solve [eauto with respects]
  end.
Ltac respects_solve := intros; repeat (progress (cbv beta zeta) || respects_step).

(** ** Computations that only talk to transports *)

Record same (e e' : Env) : Prop := {
  same_server : server e' ≈ server e;
  same_tc : tc_ok (server e) → tc_ok (server e');
  same_pending : pending e' = pending e;
}.

#[global] Instance same_preorder : PreOrder same.
Proof.
  split.
  - by intros e.
  - intros e1 e2 e3 [] []. split; [by etrans|auto|congruence].
Qed.

Abbreviation quiet := (respects same).
Ltac quiet_solve := respects_solve.

Lemma quiet_call c : quiet (call c).
Proof. by intros e. Qed.
#[export] Hint Resolve quiet_call : respects.

Lemma wp_quiet {A} (m : M A) Φ e :
  quiet m → (∀ a e', same e e' → Φ a e') → wp m Φ e.
Proof. unfold wp. auto. Qed.

Lemma quiet_user_SendMessage `{TransportOps} u msg : quiet (user_SendMessage u msg).
Proof. intros e. unfold user_SendMessage. by destruct (u_transport u). Qed.
#[export] Hint Resolve quiet_user_SendMessage : respects.

Lemma next_transaction_range c : 0 <= c <= 0xFFFF → 1 <= Z.rem c 0xFFFF + 1 <= 0xFFFF.
Proof. intros. pose proof (Z.rem_bound_pos c 0xFFFF). lia. Qed.

Lemma quiet_NextTransactionIdLocked : quiet NextTransactionIdLocked.
Proof.
  intros e. split; simpl; [done| |done].
  unfold tc_ok; simpl. intros Hc%next_transaction_range. lia.
Qed.
#[export] Hint Resolve quiet_NextTransactionIdLocked : respects.

Lemma quiet_NotificationTransactionIdLocked `{TransportOps} u : quiet (NotificationTransactionIdLocked u).
Proof. unfold NotificationTransactionIdLocked. quiet_solve. Qed.
#[export] Hint Resolve quiet_NotificationTransactionIdLocked : respects.

Lemma respects_GetUserLocked R `{!PreOrder R} u : respects R (GetUserLocked u).
Proof. by apply respects_gets. Qed.
Lemma respects_GetFloorRequestLocked R `{!PreOrder R} u : respects R (GetFloorRequestLocked u).
Proof. by apply respects_gets. Qed.
#[export] Hint Extern 1 (respects _ (GetUserLocked _)) => apply respects_GetUserLocked; apply _ : respects.
#[export] Hint Extern 1 (respects _ (GetFloorRequestLocked _)) =>
  apply respects_GetFloorRequestLocked; apply _ : respects.

Lemma quiet_SendMessageLocked `{TransportOps} msg : quiet (SendMessageLocked msg).
Proof. unfold SendMessageLocked. quiet_solve. Qed.
#[export] Hint Resolve quiet_SendMessageLocked : respects.

Lemma quiet_SendFloorRequestStatusLocked `{TransportOps} r t u info b :
  quiet (SendFloorRequestStatusLocked r t u info b).
Proof. unfold SendFloorRequestStatusLocked. quiet_solve. Qed.

Lemma quiet_NotifyForFloorRequestLocked `{TransportOps} r : quiet (NotifyForFloorRequestLocked r).
Proof. unfold NotifyForFloorRequestLocked. quiet_solve. Qed.

Lemma quiet_ReplyErrorLocked msg to code info : quiet (ReplyErrorLocked msg to code info).
Proof. unfold ReplyErrorLocked. quiet_solve. Qed.

Lemma quiet_send_goodbye `{TransportOps} u : quiet (send_goodbye u).
Proof. unfold send_goodbye. quiet_solve. Qed.

Lemma quiet_answer_query `{TransportOps} req u i f : quiet (answer_query req u i f).
Proof. unfold answer_query. quiet_solve. Qed.
#[export] Hint Resolve quiet_SendFloorRequestStatusLocked quiet_NotifyForFloorRequestLocked
  quiet_ReplyErrorLocked quiet_send_goodbye quiet_answer_query : respects.

(** ** Refinement of the abstract machine *)

(** [e'] is reached from [e] by steps of the machine, and what was queued for the
    listener on the way is what the machine announces. *)
Record Ref (e e' : Env) : Prop := {
  ref_inv : Inv (server e');
  ref_steps : ∃ ns, asteps (server e) ns (server e') ∧ pending e' = pending e ++ ns;
}.

Lemma Ref_refl e : Inv (server e) → Ref e e.
Proof. intros H. split; [done|]. exists []. rewrite app_nil_r. split; [constructor|done]. Qed.

Lemma Ref_trans e1 e2 e3 : Ref e1 e2 → Ref e2 e3 → Ref e1 e3.
Proof.
  intros [_ (ns & H & P)] [HI (ns' & H' & P')]. split; [done|]. exists (ns ++ ns').
  split; [by eapply asteps_app|]. by rewrite P', P, app_assoc.
Qed.

Lemma Ref_astep e e' ns :
  Inv (server e) → astep (server e) ns (server e') → pending e' = pending e ++ ns → Ref e e'.
Proof.
  intros HI Hs Hp. split; [by eapply astep_Inv|]. exists ns. split; [by apply asteps_one|done].
Qed.

Lemma Ref_same e e' : Inv (server e) → same e e' → Ref e e'.
Proof.
  intros HI []. apply Ref_astep with []; [done| |by rewrite app_nil_r].
  by apply as_quiet.
Qed.

(** A step of the machine up to the transaction counter. *)
Lemma Ref_astep_equiv e e' ns s :
  Inv (server e) → astep (server e) ns s → server e' ≈ s →
  (tc_ok (server e) → tc_ok (server e')) → transactionCounter s = transactionCounter (server e) →
  pending e' = pending e ++ ns → Ref e e'.
Proof.
  intros HI Hs Heq Htc Hc Hp. eapply Ref_trans with (mkEnv s (wire e) (pending e ++ ns)).
  - by eapply Ref_astep.
  - apply Ref_same; [by eapply astep_Inv|]. split; simpl; [done| |done].
    unfold tc_ok in *. by rewrite Hc.
Qed.

#[export] Hint Resolve Ref_refl Ref_same : media.

(** ** Dropping and releasing requests *)

Definition drop_requests (ids : list Z) (s : Server) : Server :=
  set_floorRequests (λ m, foldl (λ m' i, om_erase i m') m ids) s.

#[global] Instance drop_proper ids : Proper (server_eq ==> server_eq) (drop_requests ids).
Proof. intros s s' H. unfold drop_requests. by rewrite H. Qed.

Lemma drop_nil s : drop_requests [] s = s.
Proof. by destruct s. Qed.

Lemma drop_cons id ids s : drop_requests (id :: ids) s = drop_requests ids (drop_requests [id] s).
Proof. by destruct s. Qed.

Lemma drop_one id s : drop_requests [id] s = set_floorRequests (om_erase id) s.
Proof. done. Qed.

Lemma drop_alter f id s : drop_requests [id] (set_floorRequests (om_alter f id) s) = drop_requests [id] s.
Proof. unfold drop_requests, set_floorRequests. simpl. by rewrite om_erase_alter. Qed.

Lemma drop_absent id s : om_find id (floorRequests s) = None → drop_requests [id] s = s.
Proof.
  intros H. unfold drop_requests, set_floorRequests. simpl. rewrite om_erase_absent by done. by destruct s.
Qed.

Lemma drop_find ids j s :
  om_find j (floorRequests (drop_requests ids s))
  = if bool_decide (j ∈ ids) then None else om_find j (floorRequests s).
Proof.
  revert s. induction ids as [|i ids IH]; intros s; [done|].
  rewrite drop_cons, IH. rewrite (bool_decide_ext (j ∈ i :: ids) (j = i ∨ j ∈ ids)) by set_solver.
  simpl. destruct (decide (j ∈ ids)); [by rewrite !bool_decide_true by auto|].
  rewrite (bool_decide_false (j ∈ ids)) by done.
  destruct (decide (j = i)) as [->|Hne].
  - rewrite bool_decide_true by auto. apply om_find_erase_eq.
  - rewrite bool_decide_false by naive_solver. by apply om_find_erase_ne.
Qed.

(** Symbolic execution: [wp_skips] runs past the quiet computations of a sequence and
    keeps one fact about them; [wp_pure] evaluates a read or a write. *)
Ltac wp_skip :=
  apply wp_bind; apply wp_quiet; [solve [quiet_solve]|];
  let e1 := fresh "e" in let H := fresh "Hsame" in
  intros ? e1 H;
  try match type of H with
      | same ?a e1 =>
          match goal with
          | H0 : same ?x a |- _ =>
              let H1 := fresh in pose proof (transitivity H0 H) as H1; clear H0 H;
              rename H1 into H0; clear a; rename e1 into a
          end
      end.
Ltac wp_skips := repeat wp_skip.
Ltac wp_pure := apply wp_bind; unfold wp at 1; cbn [fst snd server wire pending
  set_request_status erase_request alter_user modify gets push_back GetUserLocked
  GetFloorRequestLocked call ret set_floorRequests set_users].
Ltac wp_done := unfold wp; cbn [fst snd ret]; eauto with media.

Section Locked.
Context {T : TransportOps}.

Lemma Revoke_wp id info e :
  Inv (server e) →
  wp (RevokeFloorRequestLocked id info)
    (λ b e', Ref e e' ∧
       match om_find id (floorRequests (server e)) with
       | Some r => if r_IsGranted r then b = true ∧ server e' ≈ drop_requests [id] (server e)
                   else b = false ∧ e' = e
       | None => b = false ∧ e' = e
       end) e.
Proof.
  intros HI. unfold RevokeFloorRequestLocked. wp_pure.
  destruct (om_find id (floorRequests (server e))) as [r|] eqn:Hid; [|wp_done].
  destruct (r_IsGranted r) eqn:G; simpl; [|wp_done].
  wp_pure. wp_skips. destruct Hsame as [Heq Htc Hp]. wp_pure.
  assert (drop_requests [id] (server e0) ≈ drop_requests [id] (server e)) as Hd.
  { rewrite Heq. simpl. by rewrite drop_alter. }
  unfold wp, when, bind. simpl.
  assert (ending (server e0) = ending (server e)) as -> by (by rewrite Heq).
  split; [|destruct (ending (server e)); done].
  eapply (Ref_astep_equiv _ _ _ (drop_requests [id] (server e)) HI).
  - by apply (as_release _ id r).
  - by destruct (ending (server e)).
  - unfold tc_ok in *. destruct (ending (server e)); simpl; auto.
  - done.
  - destruct (ending (server e)); simpl; rewrite Hp; [by rewrite app_nil_r|done].
Qed.

Lemma Deny_wp id info e :
  Inv (server e) →
  wp (DenyFloorRequestLocked id info)
    (λ b e', Ref e e' ∧
       match om_find id (floorRequests (server e)) with
       | Some r => if r_IsGranted r then b = false ∧ e' = e
                   else b = true ∧ server e' ≈ drop_requests [id] (server e)
       | None => b = false ∧ e' = e
       end) e.
Proof.
  intros HI. unfold DenyFloorRequestLocked. wp_pure.
  destruct (om_find id (floorRequests (server e))) as [r|] eqn:Hid; [|wp_done].
  destruct (inv_requests _ HI id r Hid) as [_ [_ _ [Hst|Hst] _ _ _ _ _]];
    unfold r_CanBeDenied, r_CanBeGranted, r_IsGranted; rewrite Hst; simpl; [|wp_done].
  wp_pure. wp_skips. destruct Hsame as [Heq Htc Hp]. wp_pure.
  assert (drop_requests [id] (server e0) ≈ drop_requests [id] (server e)) as Hd.
  { rewrite Heq. simpl. by rewrite drop_alter. }
  unfold wp. simpl. split; [|done].
  eapply (Ref_astep_equiv _ _ _ (drop_requests [id] (server e)) HI); simpl; auto.
  - apply (as_drop _ id r); [done|]. unfold r_IsGranted. by rewrite Hst.
  - by rewrite Hp, app_nil_r.
Qed.

Lemma revoke_or_deny_wp info id e :
  Inv (server e) →
  wp (revoke_or_deny info id) (λ _ e', Ref e e' ∧ server e' ≈ drop_requests [id] (server e)) e.
Proof.
  intros HI. unfold revoke_or_deny. wp_pure.
  destruct (om_find id (floorRequests (server e))) as [r|] eqn:Hid;
    [|unfold wp; simpl; rewrite drop_absent by done; split; [auto with media|done]].
  apply wp_bind. destruct (r_IsGranted r) eqn:G.
  - eapply wp_mono; [by apply Revoke_wp|]. intros b e' [HR Hd]. rewrite Hid, G in Hd.
    split; [done|apply Hd].
  - eapply wp_mono; [by apply Deny_wp|]. intros b e' [HR Hd]. rewrite Hid, G in Hd.
    split; [done|apply Hd].
Qed.

(** A loop whose body drops one request drops them all. *)
Lemma drop_loop_wp (body : Z → M unit) (P : Z → Server → Prop) ids e :
  (∀ id e, Inv (server e) → P id (server e) →
     wp (body id) (λ _ e', Ref e e' ∧ server e' ≈ drop_requests [id] (server e)) e) →
  (∀ id j s s', P id s → s' ≈ drop_requests [j] s → P id s') →
  Inv (server e) → (∀ id, id ∈ ids → P id (server e)) →
  wp (for_each ids body) (λ _ e', Ref e e' ∧ server e' ≈ drop_requests ids (server e)) e.
Proof.
  intros Hbody HP. revert e. induction ids as [|id ids IH]; intros e HI HPe; simpl.
  { unfold wp. simpl. rewrite drop_nil. split; [auto with media|done]. }
  apply wp_bind. eapply wp_mono; [apply Hbody; [done|apply HPe; set_solver]|].
  intros _ e1 [HR He]. eapply wp_mono; [apply IH|].
  - apply HR.
  - intros j Hj. eapply HP; [apply HPe; set_solver|done].
  - intros _ e2 [HR2 He2]. split; [by eapply Ref_trans|]. by rewrite drop_cons, <- He.
Qed.

Lemma revoke_or_deny_all_wp info ids e :
  Inv (server e) →
  wp (for_each ids (revoke_or_deny info)) (λ _ e', Ref e e' ∧ server e' ≈ drop_requests ids (server e)) e.
Proof.
  intros HI. apply (drop_loop_wp _ (λ _ _, True)); auto using revoke_or_deny_wp.
Qed.

Lemma RevokeUser_wp userId e :
  Inv (server e) →
  wp (RevokeUserFloorRequestsLocked userId)
    (λ _ e', Ref e e' ∧ server e' ≈ drop_requests (requests_of_user userId (server e)) (server e)) e.
Proof.
  intros HI. unfold RevokeUserFloorRequestsLocked. wp_pure. by apply revoke_or_deny_all_wp.
Qed.

(** ** Granting *)

(** The requests that lose a floor when [r], number [id], is granted. *)
Definition conflicting (id : Z) (r : BFCPFloorRequest) (s : Server) : list Z :=
  r_floorRequestId <$>
    List.filter (λ o, negb (r_floorRequestId o =? id) && r_IsGranted o)
      (GetFloorRequestsForFloorsLocked (r_floorIds r) s).

Lemma conflicting_elem id r s j :
  Inv s → om_find id (floorRequests s) = Some r → r_IsGranted r = false →
  j ∈ conflicting id r s ↔
  ∃ o, om_find j (floorRequests s) = Some o ∧ r_IsGranted o = true ∧ share_floor r o.
Proof.
  intros HI Hid G. unfold conflicting, GetFloorRequestsForFloorsLocked.
  rewrite list_elem_of_fmap. split.
  - intros (o & -> & Ho). apply list_elem_of_In, filter_In in Ho as [Ho [_ Go]%andb_true_iff].
    apply filter_In in Ho as [Ho Hsh]. apply list_elem_of_In, list_elem_of_fmap in Ho as ([k o'] & -> & Ho).
    apply (om_elem_find k o') in Ho; [|apply HI].
    simpl. rewrite (rq_id s k o') by (by apply (inv_requests s HI)).
    exists o'. split_and!; [done..|]. apply existsb_exists in Hsh as (f & Hf & Hin).
    exists f. split; [by apply list_elem_of_In|by apply os_has_spec].
  - intros (o & Ho & Go & (f & Hf & Hfo)). exists o.
    assert (r_floorRequestId o = j) as Hj by (by apply (rq_id s), (inv_requests s HI)).
    split; [done|]. apply list_elem_of_In, filter_In. split.
    + apply filter_In. split.
      * apply list_elem_of_In, list_elem_of_fmap. exists (j, o). split; [done|by apply om_find_elem].
      * apply existsb_exists. exists f. split; [by apply list_elem_of_In|by apply os_has_spec].
    + rewrite Hj, Go, andb_true_r. apply negb_true_iff, Z.eqb_neq. intros ->. congruence.
Qed.

Lemma wp_for_each_when {A} (c : A → bool) (body : A → M unit) l Φ e :
  wp (for_each (List.filter c l) body) Φ e → wp (for_each l (λ x, when (c x) (body x))) Φ e.
Proof.
  revert e. induction l as [|x l IH]; intros e; simpl; [done|].
  destruct (c x); simpl; [|apply IH]. intros H. apply wp_bind. unfold wp, bind in H.
  unfold wp at 1. destruct (body x e) as [a e1]. apply IH, H.
Qed.

Lemma wp_for_each_fmap {A B} (f : A → B) (body : B → M unit) l Φ e :
  wp (for_each (f <$> l) body) Φ e → wp (for_each l (λ x, body (f x))) Φ e.
Proof.
  revert e. induction l as [|x l IH]; intros e; simpl; [done|].
  intros H. apply wp_bind. unfold wp, bind in H.
  unfold wp at 1. destruct (body (f x) e) as [a e1]. apply IH, H.
Qed.

Lemma revoke_all_wp info ids e :
  Inv (server e) →
  (∀ id r, id ∈ ids → om_find id (floorRequests (server e)) = Some r → r_IsGranted r = true) →
  wp (for_each ids (λ id, RevokeFloorRequestLocked id info ;; ret tt))
    (λ _ e', Ref e e' ∧ server e' ≈ drop_requests ids (server e)) e.
Proof.
  intros HI HP.
  apply (drop_loop_wp _ (λ id s, ∀ r, om_find id (floorRequests s) = Some r → r_IsGranted r = true));
    [| |done|naive_solver].
  - clear. intros id e HI Hg. apply wp_bind. eapply wp_mono; [by apply Revoke_wp|].
    intros b e' [HR Hm]. split; [done|]. simpl.
    destruct (om_find id (floorRequests (server e))) as [r|] eqn:Hid.
    + rewrite (Hg r eq_refl) in Hm. apply Hm.
    + destruct Hm as [_ ->]. by rewrite drop_absent.
  - clear. intros id j s s' H Heq r. rewrite Heq, drop_find.
    case_bool_decide; [done|apply H].
Qed.

Definition grant_result (id : Z) (r : BFCPFloorRequest) (s : Server) : Server :=
  set_floorRequests (om_alter (r_SetStatus Granted) id) (drop_requests (conflicting id r s) s).

Lemma set_status_twice id st st' s :
  set_floorRequests (om_alter (r_SetStatus st) id) (set_floorRequests (om_alter (r_SetStatus st') id) s)
  = set_floorRequests (om_alter (r_SetStatus st) id) s.
Proof. unfold set_floorRequests. simpl. by rewrite om_alter_alter. Qed.

(** After the revocations nothing stands in the way of the grant. *)
Lemma grant_clear id r s s1 :
  Inv s → om_find id (floorRequests s) = Some r → r_IsGranted r = false →
  s1 ≈ drop_requests (conflicting id r s) s →
  om_find id (floorRequests s1) = Some r ∧
  ∀ j o, om_find j (floorRequests s1) = Some o → r_IsGranted o = true → ¬ share_floor r o.
Proof.
  intros HI Hid G Heq. pose proof (λ j, conflicting_elem id r s j HI Hid G) as Hc.
  split; [|intros j o]; rewrite Heq, drop_find; case_bool_decide as Hin; try done.
  - apply Hc in Hin as (o & ? & ? & _). congruence.
  - intros Ho Go Hsh. apply Hin, Hc. eauto.
Qed.

Lemma Grant_wp id e :
  Inv (server e) →
  wp (GrantFloorRequestLocked id)
    (λ b e', Ref e e' ∧
       match om_find id (floorRequests (server e)) with
       | Some r => if r_IsGranted r then b = false ∧ e' = e
                   else b = true ∧ server e' ≈ grant_result id r (server e)
       | None => b = false ∧ e' = e
       end) e.
Proof.
  intros HI. unfold GrantFloorRequestLocked. wp_pure.
  destruct (om_find id (floorRequests (server e))) as [r|] eqn:Hid; [|wp_done].
  destruct (inv_requests _ HI id r Hid) as [_ [_ _ [Hst|Hst] _ _ _ _ _]];
    assert (r_IsGranted r = bool_decide (r_status r = Granted)) as G by done; rewrite Hst in G;
    unfold r_CanBeGranted; rewrite Hst, G; simpl; [|wp_done].
  wp_pure. apply wp_bind, wp_for_each_when.
  apply (wp_for_each_fmap r_floorRequestId
           (λ i, RevokeFloorRequestLocked i (octets "granted to other user") ;; ret tt)).
  eapply wp_mono; [apply revoke_all_wp; [done|]|].
  { intros j o (o' & Ho & ? & _)%conflicting_elem Ho'; [congruence|done..]. }
  intros _ e1 [HR He1]. fold (conflicting id r (server e)) in He1.
  destruct (grant_clear id r (server e) (server e1) HI Hid G He1) as [Hid1 Hfree].
  wp_skip. wp_pure. wp_skips. wp_pure. wp_skips.
  destruct Hsame as [Hq1 Ht1 Hp1], Hsame0 as [Hq2 Ht2 Hp2], Hsame1 as [Hq3 Ht3 Hp3].
  wp_pure. unfold wp; simpl in *.
  assert (server e3 ≈ set_floorRequests (om_alter (r_SetStatus Granted) id) (server e1)) as Hf.
  { rewrite Hq3. simpl. rewrite Hq2. simpl. by rewrite set_status_twice, Hq1. }
  split; [|split; [done|by rewrite Hf, He1]].
  eapply Ref_trans; [done|].
  eapply (Ref_astep_equiv _ _ _ _ (ref_inv _ _ HR)); [by apply (as_grant _ id r)|done| |done|].
  - unfold tc_ok in *. simpl in *. auto.
  - simpl. by rewrite Hp3, Hp2, Hp1.
Qed.
End Locked.

(** ** Users *)

Section Users.
Context {T : TransportOps}.

Lemma alter_user_wp userId f e :
  Inv (server e) →
  (∀ u, om_find userId (users (server e)) = Some u →
     user_ok (server e) userId (f u) ∧ u_isChair (f u) = u_isChair u) →
  wp (alter_user userId f)
    (λ _ e', Ref e e' ∧ server e' = set_users (om_alter f userId) (server e)) e.
Proof.
  intros HI Hf. unfold wp, alter_user, modify. simpl. split; [|done].
  apply Ref_astep with []; [done| |by rewrite app_nil_r]. simpl.
  destruct (om_find userId (users (server e))) as [u|] eqn:Hu.
  - replace (set_users (om_alter f userId) (server e))
      with (set_users (om_alter (λ _, f u) userId) (server e)).
    + destruct (Hf u eq_refl). by eapply as_user.
    + unfold set_users. by rewrite (om_alter_const f userId u) by (done || apply HI).
  - replace (set_users (om_alter f userId) (server e)) with (server e); [by apply as_quiet|].
    unfold set_users. rewrite om_alter_absent by done. by destruct (server e).
Qed.

Lemma user_ok_transport s id u t : user_ok s id u → user_ok s id (user_SetTransport t u).
Proof. intros []. by split. Qed.
Lemma user_ok_no_transport s id u : user_ok s id u → user_ok s id (user_UnsetTransport u).
Proof. intros []. by split. Qed.
Lemma user_ok_reset s id u : user_ok s id u → user_ok s id (user_ResetQueriedFloorIds u).
Proof. intros []. split; simpl; auto; [constructor|set_solver]. Qed.

Lemma set_users_users f s : users (set_users f s) = f (users s).
Proof. done. Qed.

Lemma drop_users ids s : users (drop_requests ids s) = users s.
Proof. done. Qed.

Lemma CloseTransport_wp u e :
  Inv (server e) →
  wp (user_CloseTransport u)
    (λ _ e', Ref e e' ∧ server e' = set_users (om_alter user_UnsetTransport (u_userId u)) (server e)) e.
Proof.
  intros HI. unfold user_CloseTransport.
  assert (∀ e0, server e0 = server e → pending e0 = pending e →
     wp (alter_user (u_userId u) user_UnsetTransport)
       (λ _ e', Ref e e' ∧ server e' = set_users (om_alter user_UnsetTransport (u_userId u)) (server e)) e0)
    as Hgo.
  { intros e0 Hs Hp. eapply wp_mono; [apply alter_user_wp|]; rewrite ?Hs; [done| |].
    - intros v Hv. split; [|done]. by apply user_ok_no_transport, (inv_users _ HI).
    - intros _ e' [HR He]. split; [|done]. eapply Ref_trans; [|done].
      apply Ref_same; [done|]. split; rewrite ?Hs; done. }
  apply wp_bind. destruct (u_transport u); apply Hgo; done.
Qed.

Lemma requests_of_user_elem userId s id :
  om_sorted (floorRequests s) →
  id ∈ requests_of_user userId s ↔
  ∃ r, om_find id (floorRequests s) = Some r ∧ (r_userId r = userId ∨ r_beneficiaryId r = userId).
Proof.
  intros Hs. unfold requests_of_user. rewrite list_elem_of_fmap. split.
  - intros ([j r] & -> & Hin). apply list_elem_of_In, filter_In in Hin as [Hin Hor]. simpl in *.
    exists r. split; [apply om_elem_find; [done|by apply list_elem_of_In]|].
    apply orb_true_iff in Hor as [?%Z.eqb_eq|?%Z.eqb_eq]; auto.
  - intros (r & Hr & Hor). exists (id, r). split; [done|]. apply list_elem_of_In, filter_In.
    split; [by apply list_elem_of_In, om_find_elem|]. simpl. apply orb_true_iff.
    rewrite !Z.eqb_eq. naive_solver.
Qed.

(** No request of the user is left. *)
Definition no_requests_of (userId : Z) (s : Server) : Prop :=
  ∀ j r, om_find j (floorRequests s) = Some r → r_userId r ≠ userId ∧ r_beneficiaryId r ≠ userId.

Lemma drop_requests_of userId s :
  Inv s → no_requests_of userId (drop_requests (requests_of_user userId s) s).
Proof.
  intros HI j r. rewrite drop_find. case_bool_decide as Hin; [done|]. intros Hr.
  rewrite requests_of_user_elem in Hin by apply HI. naive_solver.
Qed.

#[global] Instance no_requests_of_proper u : Proper (server_eq ==> iff) (no_requests_of u).
Proof. intros s s' H. unfold no_requests_of. by rewrite (floorRequests_proper s s' H). Qed.

(** What a user's revocation and the closing of its transport leave. *)
Definition without_user_requests (userId : Z) (s : Server) : Server :=
  drop_requests (requests_of_user userId s) s.

Lemma RemoveUser_wp userId goodbye e :
  Inv (server e) →
  wp (RemoveUserLocked userId goodbye)
    (λ b e', Ref e e' ∧
       match om_find userId (users (server e)) with
       | Some _ => b = true ∧
           server e' ≈ set_users (om_erase userId) (without_user_requests userId (server e))
       | None => b = false ∧ e' = e
       end) e.
Proof.
  intros HI. unfold RemoveUserLocked. wp_pure.
  destruct (om_find userId (users (server e))) as [u|] eqn:Hu; [|wp_done].
  assert (u_userId u = userId) as Hid by (apply (us_id (server e)), (inv_users _ HI); done).
  apply wp_bind. eapply wp_mono; [by apply RevokeUser_wp|]. intros _ e1 [HR1 He1].
  wp_skip. assert (Ref e1 e0) as HR2 by (apply Ref_same; [apply HR1|done]).
  apply wp_bind. eapply wp_mono; [apply CloseTransport_wp, HR2|]. intros _ e2 [HR3 He2].
  rewrite Hid in He2. wp_pure. unfold wp; simpl.
  assert (server e0 ≈ without_user_requests userId (server e)) as He0.
  { rewrite (same_server _ _ Hsame). done. }
  assert (set_users (om_erase userId) (server e2)
          ≈ set_users (om_erase userId) (without_user_requests userId (server e))) as Hres.
  { rewrite He2, <- He0. unfold server_eq, set_users. simpl. by rewrite om_erase_alter. }
  split; [|done].
  do 3 (eapply Ref_trans; [done|]).
  apply Ref_astep with []; [apply HR3| |by rewrite app_nil_r]. simpl. apply as_remove_user.
  pose proof (drop_requests_of userId (server e) HI) as Hno.
  intros j r Hr. apply (Hno j r). fold (without_user_requests userId (server e)).
  rewrite <- He0. by rewrite He2 in Hr.
Qed.

(** What a user that comes over a transport becomes: it starts afresh if it had another. *)
Definition attached (t : Z) (u : BFCPUser) : BFCPUser :=
  user_SetTransport t (if user_IsConnected u then user_ResetQueriedFloorIds u else u).

Definition attach_result (userId t : Z) (u : BFCPUser) (s : Server) : Server :=
  if bool_decide (u_transport u = Some t) then s
  else set_users (om_alter (attached t) userId)
         (if user_IsConnected u then without_user_requests userId s else s).

Lemma Attach_wp userId t u e :
  Inv (server e) → om_find userId (users (server e)) = Some u →
  wp (AttachTransportLocked userId t)
    (λ b e', Ref e e' ∧ b = true ∧ server e' ≈ attach_result userId t u (server e)) e.
Proof.
  intros HI Hu. unfold AttachTransportLocked, attach_result. wp_pure. rewrite Hu.
  assert (u_userId u = userId) as Hid by (apply (us_id (server e)), (inv_users _ HI); done).
  case_bool_decide; [unfold wp; cbn [fst snd ret]; split; [auto with media|split; reflexivity]|].
  assert (∀ e1, Inv (server e1) →
            wp (alter_user userId (user_SetTransport t) ;; ret true)
              (λ b e', Ref e1 e' ∧ b = true
                 ∧ server e' = set_users (om_alter (user_SetTransport t) userId) (server e1)) e1)
    as Hset.
  { clear -T. intros e1 HI. apply wp_bind. eapply wp_mono; [apply alter_user_wp; [done|]|].
    - intros v Hv. split; [|done]. by apply user_ok_transport, (inv_users _ HI).
    - intros _ e2 [HR He]. by split. }
  apply wp_bind, wp_when; intros Hc; rewrite Hc.
  - apply wp_bind. eapply wp_mono; [apply alter_user_wp; [done|]|].
    { intros v Hv. split; [|done]. by apply user_ok_reset, (inv_users _ HI). }
    intros _ e1 [HR1 He1]. apply wp_bind. eapply wp_mono; [apply RevokeUser_wp, HR1|].
    intros _ e2 [HR2 He2]. eapply wp_mono; [apply CloseTransport_wp, HR2|].
    intros _ e3 [HR3 He3]. eapply wp_mono; [apply Hset, HR3|].
    intros b e4 (HR4 & -> & He4). split; [|split; [done|]].
    { do 3 (eapply Ref_trans; [done|]). done. }
    rewrite He4, He3, He2, He1, Hid. unfold server_eq, without_user_requests, drop_requests, set_users. simpl.
    rewrite !om_alter_alter.
    rewrite (om_alter_const (attached t) userId u) by (done || apply HI).
    rewrite (om_alter_const (_ ∘ _ ∘ _) userId u) by (done || apply HI).
    unfold attached. by rewrite Hc.
  - eapply wp_mono; [by apply Hset|]. intros b e1 (HR & -> & ->). split; [done|split; [done|]].
    unfold server_eq, set_users. simpl.
    rewrite (om_alter_const (attached t) userId u) by (done || apply HI).
    rewrite (om_alter_const (user_SetTransport t) userId u) by (done || apply HI).
    unfold attached. by rewrite Hc.
Qed.

Lemma Detach_wp userId e :
  Inv (server e) →
  wp (DetachTransportLocked userId)
    (λ _ e', Ref e e' ∧
       server e' ≈ set_users (om_alter (user_ResetQueriedFloorIds ∘ user_UnsetTransport) userId)
                     (if ending (server e) then server e else without_user_requests userId (server e))) e.
Proof.
  intros HI. unfold DetachTransportLocked.
  apply wp_bind. eapply wp_mono; [apply alter_user_wp; [done|]|].
  { intros v Hv. split; [|done]. by apply user_ok_no_transport, (inv_users _ HI). }
  intros _ e1 [HR1 He1]. apply wp_bind. eapply wp_mono; [apply alter_user_wp; [apply HR1|]|].
  { intros v Hv. split; [|done]. apply user_ok_reset, (inv_users _ (ref_inv _ _ HR1)); done. }
  intros _ e2 [HR2 He2]. wp_pure.
  assert (Ref e e2) as HR by by eapply Ref_trans.
  assert (server e2 = set_users (om_alter (user_ResetQueriedFloorIds ∘ user_UnsetTransport) userId)
                        (server e)) as He.
  { rewrite He2, He1. unfold set_users. simpl. by rewrite om_alter_alter. }
  replace (ending (server e2)) with (ending (server e)) by (by rewrite He).
  destruct (ending (server e)); simpl.
  { unfold wp; simpl. split; [done|by rewrite He]. }
  eapply wp_mono; [apply RevokeUser_wp, HR2|]. intros _ e3 [HR3 He3].
  split; [by eapply Ref_trans|]. rewrite He3, He. done.
Qed.
End Users.
