(* ===== verification/BfcpServerProps.v ===== *)
(** * Incoming messages, and the server as a whole

    The incoming primitives refine the machine too, hence so does every public
    operation, whatever the sequence of calls from the conference and from the
    transports.  The theorems that close the file are what the conference and the
    participants rely on. *)

From S2P Require Import Prelude OrderedMap BfcpAttr BfcpMsg BfcpServer BfcpFloorSpec BfcpServerRefine.

Local Open Scope fcs_scope.

(** ** The request a FloorRequest message makes *)

Definition recorded_request (req : BFCPMessage) (m : BFCPMsgFloorRequest) (s : Server)
  : BFCPFloorRequest :=
  let r := new_floor_request (floorRequestCounter s) (msg_userId req) (conferenceId s) in
  let r := match freq_beneficiaryId m with Some b => r_SetBeneficiaryId b r | None => r end in
  foldl r_AddFloorId r (freq_floorIds m).

Lemma add_floors_spec fs r :
  let r' := foldl r_AddFloorId r fs in
  r_floorRequestId r' = r_floorRequestId r ∧ r_userId r' = r_userId r
  ∧ r_conferenceId r' = r_conferenceId r ∧ r_beneficiaryId r' = r_beneficiaryId r
  ∧ r_status r' = r_status r ∧ r_queuePosition r' = r_queuePosition r
  ∧ (os_sorted (r_floorIds r) → os_sorted (r_floorIds r'))
  ∧ ∀ f, f ∈ r_floorIds r' ↔ f ∈ r_floorIds r ∨ f ∈ fs.
Proof.
  revert r. induction fs as [|f fs IH]; intros r; simpl.
  - split_and!; auto. set_solver.
  - destruct (IH (r_AddFloorId r f)) as (-> & -> & -> & -> & -> & -> & Hs & He).
    split_and!; simpl in *; auto using os_insert_sorted.
    intros x. rewrite He, os_insert_elem. set_solver.
Qed.

(** The checks of [ProcessFloorRequestLocked]. *)
Definition floors_exist (fs : list Z) (s : Server) : bool := forallb (λ f, HasFloorLocked f s) fs.

Definition beneficiary_unknown (m : BFCPMsgFloorRequest) (s : Server) : bool :=
  match freq_beneficiaryId m with
  | Some b => match om_find b (users s) with None => true | Some _ => false end
  | None => false
  end.

Lemma floors_exist_spec fs s : floors_exist fs s = true ↔ ∀ f, f ∈ fs → f ∈ floors s.
Proof.
  unfold floors_exist, HasFloorLocked. rewrite forallb_forall. split.
  - intros H f Hf. by apply os_has_spec, H, list_elem_of_In.
  - intros H f Hf. by apply os_has_spec, H, list_elem_of_In.
Qed.

Lemma recorded_request_ok req m s :
  floors_exist (freq_floorIds m) s = true → beneficiary_unknown m s = false →
  is_user s (msg_userId req) →
  request_ok s (floorRequestCounter s) (recorded_request req m s)
  ∧ r_status (recorded_request req m s) = Pending
  ∧ r_userId (recorded_request req m s) = msg_userId req.
Proof.
  intros Hf Hb Hu. unfold recorded_request.
  set (r0 := new_floor_request _ _ _).
  set (r1 := match freq_beneficiaryId m with Some _ => _ | None => _ end).
  assert (is_user s (r_beneficiaryId r1)) as Hben.
  { unfold r1, beneficiary_unknown, is_user in *. destruct (freq_beneficiaryId m) as [b|]; [|done].
    simpl. destruct (om_find b (users s)); [eauto|done]. }
  assert (r_floorRequestId r1 = floorRequestCounter s ∧ r_userId r1 = msg_userId req
          ∧ r_conferenceId r1 = conferenceId s ∧ r_status r1 = Pending
          ∧ r_queuePosition r1 = 0 ∧ r_floorIds r1 = []) as (E1 & E2 & E3 & E4 & E5 & E6).
  { unfold r1. by destruct (freq_beneficiaryId m). }
  destruct (add_floors_spec (freq_floorIds m) r1) as (F1 & F2 & F3 & F4 & F5 & F6 & F7 & F8).
  rewrite floors_exist_spec in Hf.
  split; [|split; congruence]. split; try congruence.
  - left. congruence.
  - apply F7. rewrite E6. constructor.
  - intros f [Hin|Hin]%F8; [rewrite E6 in Hin; inv Hin|auto].
Qed.

#[global] Instance grant_result_proper id r : Proper (server_eq ==> server_eq) (grant_result id r).
Proof.
  intros s s' H. unfold grant_result, conflicting, GetFloorRequestsForFloorsLocked.
  by rewrite (floorRequests_proper s s' H), H.
Qed.

Definition record_request (r : BFCPFloorRequest) (s : Server) : Server :=
  set_floorRequests (om_set (floorRequestCounter s) r)
    (set_floorRequestCounter (floorRequestCounter s + 1) s).

Section Process.
Context {T : TransportOps}.

Lemma wp_reply msg to code info e :
  Inv (server e) →
  wp (ReplyErrorLocked msg to code info)
    (λ _ e', Ref e e' ∧ server e' = server e ∧ pending e' = pending e) e.
Proof.
  intros HI. unfold wp, ReplyErrorLocked.
  destruct to; simpl; (split; [|done]); apply Ref_same; done.
Qed.

Lemma FloorRequest_wp req m u e :
  Inv (server e) → om_find (msg_userId req) (users (server e)) = Some u →
  wp (ProcessFloorRequestLocked req m (msg_userId req))
    (λ _ e', Ref e e' ∧
       let s := server e in
       let r := recorded_request req m s in
       if negb (floors_exist (freq_floorIds m) s) || beneficiary_unknown m s then
         server e' = s ∧ pending e' = pending e
       else if u_isChair u then
         server e' ≈ grant_result (floorRequestCounter s) r (record_request r s)
       else
         server e' ≈ record_request r s ∧
         pending e' = pending e ++
           [OnFloorRequest (floorRequestCounter s) (r_userId r) (r_beneficiaryId r) (r_floorIds r)]) e.
Proof.
  intros HI Hu. unfold ProcessFloorRequestLocked. wp_pure. unfold id at 1 2. wp_pure. rewrite Hu.
  fold (floors_exist (freq_floorIds m) (server e)).
  fold (beneficiary_unknown m (server e)).
  destruct (floors_exist (freq_floorIds m) (server e)) eqn:Hf; simpl; [|by apply wp_reply].
  destruct (beneficiary_unknown m (server e)) eqn:Hb; simpl; [by apply wp_reply|].
  wp_pure. wp_pure.
  change (foldl r_AddFloorId _ (freq_floorIds m)) with (recorded_request req m (server e)).
  assert (is_user (server e) (msg_userId req)) as Hiu by (unfold is_user; rewrite Hu; eauto).
  destruct (recorded_request_ok req m (server e) Hf Hb Hiu) as (Hok & Hst & Hr).
  set (r := recorded_request req m (server e)) in *.
  set (ea := mkEnv _ _ _). fold (record_request r (server e)) in ea.
  assert (Ref e ea) as HRa.
  { apply Ref_astep with []; [done| |simpl; by rewrite app_nil_r]. by apply as_request. }
  wp_skip. assert (Ref e e0) as HR0.
  { eapply Ref_trans; [done|]. apply Ref_same; [apply HRa|done]. }
  destruct Hsame as [Hq _ Hp].
  assert (om_find (floorRequestCounter (server e)) (floorRequests (server e0)) = Some r) as Hr0.
  { rewrite Hq. simpl. by rewrite om_find_set_eq. }
  assert (r_IsGranted r = false) as G by (unfold r_IsGranted; by rewrite Hst).
  destruct (u_isChair u).
  - apply wp_bind. eapply wp_mono; [apply Grant_wp, HR0|]. intros b e1 [HR1 Hg].
    rewrite Hr0, G in Hg. destruct Hg as [_ Hg]. split; [by eapply Ref_trans|].
    simpl. by rewrite Hg, Hq.
  - unfold wp, push_back. simpl. rewrite Hp. split; [|done].
    eapply Ref_trans; [done|]. eapply Ref_astep; [apply HR0| |simpl; by rewrite Hp].
    by apply as_announce_request.
Qed.

Definition may_release (u : BFCPUser) (r : BFCPFloorRequest) : bool :=
  (u_userId u =? r_userId r) || (u_userId u =? r_beneficiaryId r) || u_isChair u.

Lemma may_release_negb u r :
  negb (u_userId u =? r_userId r) && negb (u_userId u =? r_beneficiaryId r) && negb (u_isChair u)
  = negb (may_release u r).
Proof. unfold may_release. by rewrite !negb_orb. Qed.

Lemma FloorRelease_wp req m userId u id e :
  Inv (server e) → ending (server e) = false → om_find userId (users (server e)) = Some u →
  frel_floorRequestId m = Some id →
  wp (ProcessFloorReleaseLocked req m userId)
    (λ _ e', Ref e e' ∧
       match om_find id (floorRequests (server e)) with
       | Some r => if may_release u r then
                     server e' ≈ drop_requests [id] (server e) ∧
                     pending e' = pending e ++
                       (if r_IsGranted r then [OnFloorReleased id (r_beneficiaryId r) (r_floorIds r)]
                        else [])
                   else server e' = server e ∧ pending e' = pending e
       | None => server e' = server e ∧ pending e' = pending e
       end) e.
Proof.
  intros HI Hend Hu Hm. unfold ProcessFloorReleaseLocked. rewrite Hm. wp_pure. rewrite Hu. wp_pure.
  destruct (om_find id (floorRequests (server e))) as [r|] eqn:Hid; [|by apply wp_reply].
  rewrite may_release_negb. destruct (may_release u r); simpl; [|by apply wp_reply].
  assert (∃ st, (if r_IsGranted r then Some (if u_userId u =? r_beneficiaryId r then Released else Revoked)
                 else if r_CanBeCancelled r then Some Cancelled else None) = Some st) as [st ->].
  { unfold r_CanBeCancelled, r_CanBeGranted, r_IsGranted.
    destruct (inv_requests _ HI id r Hid) as [_ [_ _ [->| ->] _ _ _ _ _]]; simpl; eauto. }
  wp_pure. wp_skips. destruct Hsame as [Heq Htc Hp]. wp_pure. unfold wp, when.
  assert (drop_requests [id] (server e0) ≈ drop_requests [id] (server e)) as Hd.
  { rewrite Heq. simpl. by rewrite drop_alter. }
  destruct (r_IsGranted r) eqn:G; simpl;
    (split; [|split; [done|by rewrite ?app_nil_r, Hp]]);
    eapply (Ref_astep_equiv _ _ _ (drop_requests [id] (server e)) HI); simpl; auto;
    [by apply (as_release _ id r)|by rewrite Hend, Hp|by apply (as_drop _ id r)|by rewrite Hp, app_nil_r].
Qed.

(** ** Queries *)

Lemma queried_spec fs u :
  let u' := foldl user_AddQueriedFloorId u fs in
  u_userId u' = u_userId u ∧ u_conferenceId u' = u_conferenceId u ∧ u_isChair u' = u_isChair u
  ∧ u_transport u' = u_transport u
  ∧ (NoDup (u_queriedFloorIds u) → NoDup (u_queriedFloorIds u'))
  ∧ ∀ f, f ∈ u_queriedFloorIds u' ↔ f ∈ u_queriedFloorIds u ∨ f ∈ fs.
Proof.
  revert u. induction fs as [|f fs IH]; intros u; simpl.
  { split_and!; auto. set_solver. }
  destruct (IH (user_AddQueriedFloorId u f)) as (-> & -> & -> & -> & Hnd & He).
  unfold user_AddQueriedFloorId, user_HasQueriedFloorId in *.
  destruct (existsb (Z.eqb f) (u_queriedFloorIds u)) eqn:Hex; split_and!; auto.
  - apply os_has_spec in Hex. intros x. rewrite He. set_solver.
  - simpl in *. intros Hn. apply Hnd. apply NoDup_app. split_and!; [done| |apply NoDup_singleton].
    intros x Hx ->%list_elem_of_singleton. apply os_has_spec in Hx. unfold os_has in Hx. congruence.
  - intros x. rewrite He. set_solver.
Qed.

Definition subscribed (fs : list Z) (u : BFCPUser) : BFCPUser :=
  foldl user_AddQueriedFloorId (user_ResetQueriedFloorIds u) fs.

Lemma subscribed_ok s id u fs :
  user_ok s id u → floors_exist fs s = true →
  user_ok s id (subscribed fs u) ∧ u_isChair (subscribed fs u) = u_isChair u.
Proof.
  intros Hok Hf. unfold subscribed.
  destruct (queried_spec fs (user_ResetQueriedFloorIds u)) as (E1 & E2 & E3 & E4 & E5 & E6).
  destruct (user_ok_reset s id u Hok) as [F1 F2 F3 F4 F5]. split; [|done].
  rewrite floors_exist_spec in Hf. split; [congruence|done|congruence|auto|].
  intros f [Hx|Hx]%E6; auto.
Qed.

Lemma FloorQuery_wp req m userId u e :
  Inv (server e) → om_find userId (users (server e)) = Some u →
  wp (ProcessFloorQueryLocked req m userId)
    (λ _ e', Ref e e' ∧ pending e' = pending e ∧
       if floors_exist (fq_floorIds m) (server e) then
         server e' ≈ set_users (om_alter (subscribed (fq_floorIds m)) userId) (server e)
       else server e' = server e) e.
Proof.
  intros HI Hu. unfold ProcessFloorQueryLocked. wp_pure. unfold id at 1 2. wp_pure. rewrite Hu.
  fold (floors_exist (fq_floorIds m) (server e)).
  destruct (floors_exist (fq_floorIds m) (server e)) eqn:Hf; simpl.
  2: { eapply wp_mono; [by apply wp_reply|]. naive_solver. }
  fold (subscribed (fq_floorIds m) u).
  assert (wp (alter_user userId (λ _, subscribed (fq_floorIds m) u)) (λ _ e', Ref e e') e) as HR1.
  { eapply wp_mono; [apply alter_user_wp; [done|]|by intros ?? []].
    intros v Hv. assert (v = u) as -> by congruence.
    apply subscribed_ok; [by apply (inv_users _ HI)|done]. }
  unfold wp in HR1. simpl in HR1. wp_pure. fold (set_users (om_alter (λ _, subscribed (fq_floorIds m) u) userId) (server e)).
  set (e1 := mkEnv _ _ _) in *.
  assert (server e1 = set_users (om_alter (subscribed (fq_floorIds m)) userId) (server e)) as He.
  { unfold e1, set_users. simpl.
    by rewrite (om_alter_const (subscribed _) userId u) by (done || apply HI). }
  apply wp_quiet; [quiet_solve|]. intros _ e2 Hs. split_and!.
  - eapply Ref_trans; [done|]. apply Ref_same; [apply HR1|done].
  - by rewrite (same_pending _ _ Hs).
  - by rewrite (same_server _ _ Hs), He.
Qed.

Lemma Hello_wp req userId u e :
  Inv (server e) → om_find userId (users (server e)) = Some u →
  wp (ProcessHelloLocked req userId)
    (λ _ e', Ref e e' ∧ server e' ≈ server e ∧ pending e' = pending e ++ [OnUserConnected userId]) e.
Proof.
  intros HI Hu. unfold ProcessHelloLocked. wp_pure. wp_pure. rewrite Hu. wp_skips.
  assert (u_userId u = userId) as -> by (apply (us_id (server e)), (inv_users _ HI); done).
  unfold wp, push_back. simpl. rewrite (same_pending _ _ Hsame).
  split_and!; [|apply Hsame|done].
  assert (Ref e e0) as HR by by apply Ref_same.
  eapply Ref_trans; [done|]. eapply Ref_astep; [apply HR| |simpl; by rewrite (same_pending _ _ Hsame)].
  apply as_announce_user. unfold is_user; simpl.
  rewrite (users_proper _ _ (same_server _ _ Hsame)), Hu. eauto.
Qed.

Lemma Goodbye_wp req userId u e :
  Inv (server e) → om_find userId (users (server e)) = Some u →
  wp (ProcessGoodbyeLocked req userId)
    (λ _ e', Ref e e' ∧
       server e' ≈ set_users (om_erase userId) (without_user_requests userId (server e))) e.
Proof.
  intros HI Hu. unfold ProcessGoodbyeLocked. wp_pure. wp_pure. rewrite Hu. wp_skips.
  assert (Ref e e0) as HR by by apply Ref_same.
  apply wp_bind. eapply wp_mono; [apply RemoveUser_wp, HR|]. intros b e1 [HR1 Hm].
  rewrite (users_proper _ _ (same_server _ _ Hsame)), Hu in Hm. destruct Hm as [_ Hm].
  split; [by eapply Ref_trans|]. simpl. rewrite Hm. unfold without_user_requests, requests_of_user.
  by rewrite (floorRequests_proper _ _ (same_server _ _ Hsame)), (same_server _ _ Hsame).
Qed.

(** ** Dispatch *)

Lemma dispatch_wp msg from u e :
  Inv (server e) → ending (server e) = false → om_find (msg_userId msg) (users (server e)) = Some u →
  wp (dispatch msg from (msg_userId msg)) (λ _ e', Ref e e') e.
Proof.
  intros HI Hend Hu. unfold dispatch.
  assert (wp (ret tt) (λ _ e', Ref e e') e) by (unfold wp; simpl; auto with media).
  assert (wp (ReplyErrorLocked msg (Some from) UnknownPrimitive
                (octets "unknown or unsupported primitive")) (λ _ e', Ref e e') e).
  { eapply wp_mono; [by apply wp_reply|]. naive_solver. }
  assert (∀ (m : M unit) (Q : Env → Prop),
            wp m (λ _ e', Ref e e' ∧ Q e') e → wp m (λ _ e', Ref e e') e) as Hw.
  { intros m Q Hm. eapply wp_mono; [exact Hm|]. by intros ?? []. }
  destruct (msg_body msg) as [m|m|m|m|m| |m|m|[]] eqn:Hb; try done.
  - eapply Hw. by apply (FloorRequest_wp msg m u).
  - destruct (frel_floorRequestId m) as [id|] eqn:Hm.
    + eapply Hw. by eapply FloorRelease_wp.
    + unfold ProcessFloorReleaseLocked. by rewrite Hm.
  - eapply Hw. by eapply FloorQuery_wp.
  - eapply Hw. by eapply Hello_wp.
  - eapply Hw. by eapply Goodbye_wp.
Qed.

Lemma attach_result_user userId t u s :
  Inv s → om_find userId (users s) = Some u →
  om_find userId (users (attach_result userId t u s))
  = Some (if bool_decide (u_transport u = Some t) then u else attached t u).
Proof.
  intros HI Hu. unfold attach_result. case_bool_decide; [done|].
  destruct (user_IsConnected u); simpl; by rewrite om_find_alter_eq, Hu.
Qed.

Lemma attach_result_ending userId t u s : ending (attach_result userId t u s) = ending s.
Proof. unfold attach_result. case_bool_decide; [done|]. by destruct (user_IsConnected u). Qed.

Lemma MessageReceived_wp msg from e :
  Inv (server e) → wp (MessageReceived_locked msg from) (λ _ e', Ref e e') e.
Proof.
  intros HI. unfold MessageReceived_locked. wp_pure. unfold id at 1 2 3.
  assert (∀ code info, wp (ReplyErrorLocked msg (Some from) code info) (λ _ e', Ref e e') e) as Hrep.
  { intros. eapply wp_mono; [by apply wp_reply|]. naive_solver. }
  destruct (ending (server e)) eqn:Hend; [unfold wp; simpl; auto with media|].
  case_match; [done|]. unfold id. destruct (om_find (msg_userId msg) (users (server e))) as [u|] eqn:Hu; [|done].
  case_match; [case_match; [done|]|by eapply dispatch_wp].
  apply wp_bind. eapply wp_mono; [by apply Attach_wp|]. intros _ e1 (HR & _ & He1).
  eapply wp_mono; [eapply dispatch_wp; [apply HR|by rewrite He1, attach_result_ending|]|].
  - rewrite He1. by apply attach_result_user.
  - simpl. intros ? e2 HR2. by eapply Ref_trans.
Qed.
End Process.

(** ** Ending the conference *)

(** No operation but [End] changes [ending]; and transports are only ever told more. *)
Record onward (e e' : Env) : Prop := {
  on_ending : ending (server e') = ending (server e);
  on_wire : ∃ w, wire e' = wire e ++ w;
}.

#[global] Instance onward_preorder : PreOrder onward.
Proof.
  split.
  - intros e. split; [done|]. exists []. by rewrite app_nil_r.
  - intros e1 e2 e3 [H1 [w1 W1]] [H2 [w2 W2]]. split; [congruence|].
    exists (w1 ++ w2). by rewrite W2, W1, app_assoc.
Qed.

Abbreviation keeps := (respects onward).

(** Nothing is announced once the conference ended. *)
Definition muted (e e' : Env) : Prop :=
  ending (server e) = true → pending e' = pending e ∧ ending (server e') = true.

#[global] Instance muted_preorder : PreOrder muted.
Proof.
  split; [by intros e|]. intros e1 e2 e3 H1 H2 He. destruct (H1 He) as [P1 E1].
  destruct (H2 E1) as [P2 E2]. split; congruence.
Qed.

Abbreviation silent := (respects muted).

Lemma onward_same_wire e s p : ending s = ending (server e) → onward e (mkEnv s (wire e) p).
Proof. intros H. split; [done|]. exists []. by rewrite app_nil_r. Qed.

Lemma keeps_modify f : (∀ s, ending (f s) = ending s) → keeps (modify f).
Proof. intros H e. by apply onward_same_wire. Qed.
Lemma keeps_push_back n : keeps (push_back n).
Proof. intros e. by apply onward_same_wire. Qed.
Lemma keeps_call c : keeps (call c).
Proof. intros e. split; [done|]. by exists [c]. Qed.
Lemma keeps_set_status i st : keeps (set_request_status i st).
Proof. by apply keeps_modify. Qed.
Lemma keeps_erase i : keeps (erase_request i).
Proof. by apply keeps_modify. Qed.
Lemma keeps_alter_user u f : keeps (alter_user u f).
Proof. by apply keeps_modify. Qed.
Lemma keeps_SendMessage `{TransportOps} u m : keeps (user_SendMessage u m).
Proof.
  intros e. unfold user_SendMessage. destruct (u_transport u); simpl; [|done].
  split; [done|]. eexists. reflexivity.
Qed.
#[export] Hint Resolve keeps_push_back keeps_call keeps_set_status keeps_erase keeps_alter_user
  keeps_SendMessage : respects.
#[export] Hint Extern 1 (keeps (modify _)) => by apply keeps_modify : respects.

Lemma keeps_NextTransactionId : keeps NextTransactionIdLocked.
Proof. unfold NextTransactionIdLocked. respects_solve. Qed.
#[export] Hint Resolve keeps_NextTransactionId : respects.
Lemma keeps_NotificationTransactionId `{TransportOps} u : keeps (NotificationTransactionIdLocked u).
Proof. unfold NotificationTransactionIdLocked. respects_solve. Qed.
#[export] Hint Resolve keeps_NotificationTransactionId : respects.
Lemma keeps_SendMessageLocked `{TransportOps} m : keeps (SendMessageLocked m).
Proof. unfold SendMessageLocked. respects_solve. Qed.
#[export] Hint Resolve keeps_SendMessageLocked : respects.
Lemma keeps_SendFloorRequestStatus `{TransportOps} r t u i b :
  keeps (SendFloorRequestStatusLocked r t u i b).
Proof. unfold SendFloorRequestStatusLocked. respects_solve. Qed.
Lemma keeps_NotifyForFloorRequest `{TransportOps} r : keeps (NotifyForFloorRequestLocked r).
Proof. unfold NotifyForFloorRequestLocked. respects_solve. Qed.
Lemma keeps_ReplyError m t c i : keeps (ReplyErrorLocked m t c i).
Proof. unfold ReplyErrorLocked. respects_solve. Qed.
Lemma keeps_send_goodbye `{TransportOps} u : keeps (send_goodbye u).
Proof. unfold send_goodbye. respects_solve. Qed.
Lemma keeps_answer_query `{TransportOps} m u i f : keeps (answer_query m u i f).
Proof. unfold answer_query. respects_solve. Qed.
#[export] Hint Resolve keeps_SendFloorRequestStatus keeps_NotifyForFloorRequest keeps_ReplyError
  keeps_send_goodbye keeps_answer_query : respects.

Section Ending.
Context {T : TransportOps}.

Lemma silent_Revoke id info : silent (RevokeFloorRequestLocked id info).
Proof.
  intros e He. unfold RevokeFloorRequestLocked.
  assert (wp (RevokeFloorRequestLocked id info)
            (λ _ e', pending e' = pending e ∧ ending (server e') = true) e) as H; [|apply H].
  unfold RevokeFloorRequestLocked. wp_pure.
  destruct (om_find id (floorRequests (server e))) as [r|]; [|done].
  case_match; [done|]. wp_pure. wp_skips. wp_pure.
  destruct Hsame as [Heq _ Hp]. unfold wp, bind, when. simpl.
  assert (ending (server e0) = true) as Hend by (by rewrite Heq). rewrite Hend. simpl. by rewrite Hp.
Qed.

Lemma silent_Deny id info : silent (DenyFloorRequestLocked id info).
Proof.
  intros e He.
  assert (wp (DenyFloorRequestLocked id info)
            (λ _ e', pending e' = pending e ∧ ending (server e') = true) e) as H; [|apply H].
  unfold DenyFloorRequestLocked. wp_pure.
  destruct (om_find id (floorRequests (server e))) as [r|]; [|done].
  case_match; [done|]. wp_pure. wp_skips. wp_pure.
  destruct Hsame as [Heq _ Hp]. unfold wp. simpl. rewrite Hp. split; [done|by rewrite Heq].
Qed.

Lemma silent_revoke_or_deny info id : silent (revoke_or_deny info id).
Proof.
  unfold revoke_or_deny. respects_solve; auto using silent_Revoke, silent_Deny.
Qed.

Lemma keeps_Revoke id info : keeps (RevokeFloorRequestLocked id info).
Proof. unfold RevokeFloorRequestLocked. respects_solve. Qed.
Lemma keeps_Deny id info : keeps (DenyFloorRequestLocked id info).
Proof. unfold DenyFloorRequestLocked. respects_solve. Qed.
Hint Resolve keeps_Revoke keeps_Deny : respects.
Lemma keeps_revoke_or_deny info id : keeps (revoke_or_deny info id).
Proof. unfold revoke_or_deny. respects_solve. Qed.
Lemma keeps_Grant id : keeps (GrantFloorRequestLocked id).
Proof. unfold GrantFloorRequestLocked. respects_solve. Qed.
Hint Resolve keeps_revoke_or_deny keeps_Grant : respects.
Lemma keeps_RevokeUser u : keeps (RevokeUserFloorRequestsLocked u).
Proof. unfold RevokeUserFloorRequestsLocked. respects_solve. Qed.
Lemma keeps_CloseTransport u : keeps (user_CloseTransport u).
Proof. unfold user_CloseTransport. respects_solve. Qed.
Hint Resolve keeps_RevokeUser keeps_CloseTransport : respects.
Lemma keeps_Attach u t : keeps (AttachTransportLocked u t).
Proof. unfold AttachTransportLocked. respects_solve. Qed.
Lemma keeps_Detach u : keeps (DetachTransportLocked u).
Proof. unfold DetachTransportLocked. respects_solve. Qed.
Lemma keeps_RemoveUser u b : keeps (RemoveUserLocked u b).
Proof. unfold RemoveUserLocked. respects_solve. Qed.
Hint Resolve keeps_Attach keeps_Detach keeps_RemoveUser : respects.
Lemma keeps_dispatch msg from u : keeps (dispatch msg from u).
Proof.
  unfold dispatch, ProcessFloorRequestLocked, ProcessFloorReleaseLocked, ProcessFloorQueryLocked,
    ProcessHelloLocked, ProcessGoodbyeLocked. respects_solve.
Qed.
Hint Resolve keeps_dispatch : respects.
Lemma keeps_MessageReceived msg from : keeps (MessageReceived_locked msg from).
Proof. unfold MessageReceived_locked. respects_solve. Qed.
End Ending.
