(* ===== verification/BfcpConference.v ===== *)
(** * A conference from its creation to its end

    The public operations of the server as one datatype, their execution, and the
    states and notifications a run of them can reach.  The theorems say what holds
    whatever the conference and the transports call, in whatever order.

    A call changes the server and prepares its notifications while it holds the mutex ([exec]), and
    calls the listener once it has released it ([Fire]), one notification after the other.  So the
    notifications of the calls of several threads interleave, and a listener that calls the server
    from a notification puts those of its call in front of what the outer call still has to fire:
    [conf_run] is that, one event for each time the mutex is held and one for each call of the
    listener. *)

From S2P Require Import Prelude OrderedMap BfcpAttr BfcpMsg BfcpServer BfcpFloorSpec BfcpServerRefine.
From S2P Require Import BfcpServerProps.

Local Open Scope fcs_scope.

Inductive Op :=
  | OpAddUser (userId : Z)
  | OpRemoveUser (userId : Z)
  | OpSetChair (userId : Z)
  | OpAddFloor (floorId : Z)
  | OpGrantFloorRequest (id : Z)
  | OpDenyFloorRequest (id : Z) (statusInfo : bytes)
  | OpRevokeFloorRequest (id : Z) (statusInfo : bytes)
  | OpNotifyFloorStatus (userId floorId : Z)
  | OpEnd
  | OpUserConnected (userId transport : Z)
  | OpUserDisconnected (userId transport : Z)
  | OpTransportClosed (transport : Z)
  | OpMessageReceived (msg : BFCPMessage) (from : Z).

Section Exec.
Context {T : TransportOps}.

Definition silently {A} (r : A * Server) : Server * list WireCall * list Notification :=
  (r.2, [], []).

Definition effects {A} (r : A * Server * list WireCall * list Notification)
  : Server * list WireCall * list Notification :=
  let '(_, s, w, ns) := r in (s, w, ns).

Definition exec (op : Op) (s : Server) : Server * list WireCall * list Notification :=
  match op with
  | OpAddUser u => silently (AddUser u s)
  | OpRemoveUser u => effects (RemoveUser u s)
  | OpSetChair u => silently (SetChair u s)
  | OpAddFloor f => silently (AddFloor f s)
  | OpGrantFloorRequest i => effects (GrantFloorRequest i s)
  | OpDenyFloorRequest i info => effects (DenyFloorRequest i info s)
  | OpRevokeFloorRequest i info => effects (RevokeFloorRequest i info s)
  | OpNotifyFloorStatus u f => effects (NotifyFloorStatus u f s)
  | OpEnd => effects (End s)
  | OpUserConnected u t => effects (UserConnected u t s)
  | OpUserDisconnected u t => effects (UserDisconnected u t s)
  | OpTransportClosed t => effects (TransportClosed t s)
  | OpMessageReceived msg from => effects (MessageReceived msg from s)
  end.

(** The states of a conference, with all the notifications its calls prepared so far, in the order in
    which the calls held the mutex.  They are fired later: see [conf_run]. *)
Inductive reach (confId : Z) : Server → list Notification → Prop :=
  | reach_new : reach confId (new_server confId) []
  | reach_op s ns op s' w ns' :
      reach confId s ns → exec op s = (s', w, ns') → reach confId s' (ns ++ ns').

Fixpoint exec_all (ops : list Op) (s : Server) (ns : list Notification) : Server * list Notification :=
  match ops with
  | [] => (s, ns)
  | op :: ops' => let '(s', _, ns') := exec op s in exec_all ops' s' (ns ++ ns')
  end.

Lemma exec_all_reach confId ops s ns :
  reach confId s ns → reach confId (exec_all ops s ns).1 (exec_all ops s ns).2.
Proof.
  revert s ns. induction ops as [|op ops IH]; intros s ns H; simpl; [done|].
  destruct (exec op s) as [[s' w] ns'] eqn:E. apply IH. by eapply reach_op.
Qed.

(** ** [End] *)

Lemma wp_for_each {A} (I : Env → Prop) (l : list A) body e :
  (∀ x e, I e → wp (body x) (λ _ e', I e') e) → I e → wp (for_each l body) (λ _ e', I e') e.
Proof.
  intros Hb. revert e. induction l as [|x l IH]; intros e HIe; simpl; [done|].
  apply wp_bind. eapply wp_mono; [by apply Hb|]. simpl. intros ? e1 H1. by apply IH.
Qed.

Lemma om_find_nil {A} (m : list (Z * A)) : (∀ k, om_find k m = None) → m = [].
Proof.
  destruct m as [|[j v] m]; [done|]. intros H. specialize (H j). simpl in H.
  by rewrite Z.eqb_refl in H.
Qed.

Lemma drop_all s : floorRequests (drop_requests (floorRequests s).*1 s) = [].
Proof.
  apply om_find_nil. intros k. rewrite drop_find. case_bool_decide as Hk; [done|].
  destruct (om_find k (floorRequests s)) as [r|] eqn:E; [|done]. exfalso. apply Hk.
  apply list_elem_of_fmap. exists (k, r). split; [done|by apply om_find_elem].
Qed.

Lemma End_wp e :
  Inv (server e) → ending (server e) = false →
  wp End_locked
    (λ _ e', Ref e e' ∧ pending e' = pending e ∧ ending (server e') = true
             ∧ users (server e') = [] ∧ floorRequests (server e') = []) e.
Proof.
  intros HI Hend. unfold End_locked. wp_pure. rewrite Hend. wp_pure.
  set (e1 := mkEnv _ _ _).
  assert (Ref e e1) as HR1.
  { apply Ref_astep with []; [done| |simpl; by rewrite app_nil_r]. by apply as_end. }
  wp_pure. apply wp_bind.
  assert (wp (for_each (floorRequests (server e)).*1 (revoke_or_deny (octets "conference ended")))
            (λ _ e', (Ref e1 e' ∧ server e' ≈ drop_requests (floorRequests (server e)).*1 (server e1))
                     ∧ pending e' = pending e1 ∧ ending (server e') = true) e1) as Hloop.
  { split; [apply revoke_or_deny_all_wp, HR1|].
    apply (respects_for_each muted); [|done]. intros. apply silent_revoke_or_deny. }
  eapply wp_mono; [exact Hloop|]. clear Hloop. intros _ e2 [[HR2 He2] [Hp2 Hend2]].
  assert (floorRequests (server e2) = []) as Hnil.
  { rewrite He2. apply (drop_all (server e1)). }
  wp_pure. set (e3 := mkEnv _ _ _).
  assert (server e3 = server e2) as He3.
  { unfold e3; simpl. destruct (server e2); simpl in *. by subst. }
  wp_pure. apply wp_bind.
  eapply wp_mono; [apply (wp_for_each (λ e', Ref e3 e' ∧ pending e' = pending e3
    ∧ ending (server e') = true ∧ floorRequests (server e') = []))|].
  - intros [k u] e4 (HR4 & Hp4 & Hend4 & Hnil4). apply wp_bind, wp_quiet; [quiet_solve|].
    intros _ e5 H5. assert (Ref e3 e5) as HR5.
    { eapply Ref_trans; [done|]. apply Ref_same; [apply HR4|done]. }
    simpl. split; [|split].
    + eapply Ref_trans; [done|]. by apply (CloseTransport_wp u e5), HR5.
    + transitivity (pending e5); [|by rewrite (same_pending _ _ H5)].
      unfold user_CloseTransport, bind. by destruct (u_transport u).
    + destruct (CloseTransport_wp u e5 (ref_inv _ _ HR5)) as [_ ->]. simpl.
      rewrite (same_server _ _ H5). done.
  - rewrite He3. split_and!; [apply Ref_refl; rewrite He3; apply HR2|done..].
  - intros _ e4 (HR4 & Hp4 & Hend4 & Hnil4). unfold wp, modify. simpl. split_and!; try done.
    + eapply Ref_trans; [done|]. eapply Ref_trans; [done|].
      eapply Ref_trans; [apply Ref_same; [apply HR2|]|].
      { split; [|..]; rewrite ?He3; done. }
      eapply Ref_trans; [done|]. apply Ref_astep with []; [apply HR4| |simpl; by rewrite app_nil_r].
      by apply as_clear.
    + exact (eq_trans Hp4 Hp2).
Qed.

(** ** Every operation is a run of the machine *)

Definition refines_to (s : Server) (r : Server * list WireCall * list Notification) : Prop :=
  Inv r.1.1 ∧ asteps s r.2 r.1.1.

Lemma refines_run {A} (m : M A) s :
  wp m (λ _ e', Ref (mkEnv s [] []) e') (mkEnv s [] []) → refines_to s (effects (run m s)).
Proof.
  unfold wp, run, effects, refines_to. destruct (m (mkEnv s [] [])) as [a e']. simpl.
  intros [HI (ns & Hs & Hp)]. simpl in *. by rewrite Hp.
Qed.

Lemma refines_step s s' : Inv s → astep s [] s' → refines_to s (s', [], []).
Proof. intros HI Hs. split; simpl; [by eapply astep_Inv|by apply asteps_one]. Qed.

Lemma refines_stay s : Inv s → refines_to s (s, [], []).
Proof. intros HI. split; [done|constructor]. Qed.

Lemma quiet_NotifyFloorStatus u f : quiet (NotifyFloorStatus_locked u f).
Proof. unfold NotifyFloorStatus_locked. quiet_solve. Qed.

Lemma out_of_range x : (x <? 1) || (0xFFFF <? x) = false → 1 <= x <= 0xFFFF.
Proof. intros [?%Z.ltb_ge ?%Z.ltb_ge]%orb_false_iff. lia. Qed.

(** The post-conditions of [BfcpServerRefine] with the refinement only. *)
Lemma wp_ref {A} (m : M A) (Q : A → Env → Prop) e :
  wp m (λ a e', Ref e e' ∧ Q a e') e → wp m (λ _ e', Ref e e') e.
Proof. intros H. eapply wp_mono; [exact H|]. by intros ?? []. Qed.

Lemma exec_refines op s : Inv s → refines_to s (exec op s).
Proof.
  intros HI. set (e := mkEnv s [] []). assert (Inv (server e)) as HIe by done.
  assert (∀ A (a : A), wp (ret a) (λ _ e', Ref e e') e) as Hret
    by (intros; unfold wp; simpl; by apply Ref_refl).
  destruct op as [u|u|u|f|i|i info|i info|u f| |u t|u t|t|msg from]; simpl;
    try apply refines_run; fold e.
  - unfold silently, AddUser. case_match; [by apply refines_stay|].
    case_match eqn:Hr; [by apply refines_stay|]. case_match eqn:Hu; [by apply refines_stay|].
    apply refines_step; [done|]. apply as_add_user; [by apply out_of_range|done].
  - wp_pure. case_match; [done|]. eapply wp_ref. by apply RemoveUser_wp.
  - unfold silently, SetChair. case_match; [by apply refines_stay|].
    case_match; [|by apply refines_stay]. apply refines_step; [done|]. apply as_chair.
  - unfold silently, AddFloor. case_match; [by apply refines_stay|].
    case_match eqn:Hr; [by apply refines_stay|]. case_match; [by apply refines_stay|].
    apply refines_step; [done|]. apply as_floor. by apply out_of_range.
  - wp_pure. case_match; [done|]. eapply wp_ref. by apply Grant_wp.
  - eapply wp_ref. by apply Deny_wp.
  - eapply wp_ref. by apply Revoke_wp.
  - apply wp_quiet; [apply quiet_NotifyFloorStatus|]. intros. by apply Ref_same.
  - destruct (ending (server e)) eqn:He; [|eapply wp_ref; by apply End_wp].
    unfold End_locked. wp_pure. rewrite He. apply Hret.
  - unfold UserConnected_locked. wp_pure. case_match; [done|]. wp_pure.
    case_match; [|done]. eapply wp_ref. by apply Attach_wp.
  - unfold UserDisconnected_locked. wp_pure. case_match; [|done]. case_match; [|done].
    eapply wp_ref. by apply Detach_wp.
  - unfold TransportClosed_locked. wp_pure. case_match; [|done]. eapply wp_ref. by apply Detach_wp.
  - by apply MessageReceived_wp.
Qed.

Lemma reach_steps confId s ns :
  reach confId s ns → Inv s ∧ asteps (new_server confId) ns s.
Proof.
  induction 1 as [|s ns op s' w ns' H [HI Hs] He]; [split; [apply Inv_new|constructor]|].
  destruct (exec_refines op s HI) as [HI' Hs']. rewrite He in *. simpl in *.
  split; [done|by eapply asteps_app].
Qed.

(** ** Nothing happens after [End] *)

Lemma ending_run {A} (m : M A) s : keeps m → ending (effects (run m s)).1.1 = ending s.
Proof.
  intros H. destruct (H (mkEnv s [] [])) as [He _]. unfold run, effects.
  by destruct (m (mkEnv s [] [])).
Qed.

Hint Resolve keeps_Revoke keeps_Deny keeps_Grant keeps_RemoveUser keeps_Attach keeps_Detach
  keeps_MessageReceived : respects.

Lemma exec_ending op s : op ≠ OpEnd → ending (exec op s).1.1 = ending s.
Proof.
  intros Hop. destruct op; simpl; try done; try apply ending_run; try by respects_solve.
  - unfold AddUser. by repeat case_match.
  - unfold SetChair. by repeat case_match.
  - unfold AddFloor. by repeat case_match.
  - unfold NotifyFloorStatus_locked. respects_solve.
  - unfold UserConnected_locked. respects_solve.
  - unfold UserDisconnected_locked. respects_solve.
  - unfold TransportClosed_locked. respects_solve.
Qed.

(** An ended server: no user, no request. *)
Definition ended (s : Server) : Prop := ending s = true ∧ users s = [] ∧ floorRequests s = [].

Lemma exec_ended op s : ended s → exec op s = (s, [], []).
Proof.
  intros (He & Hu & Hr).
  destruct op; unfold exec, AddUser, SetChair, AddFloor, RemoveUser, GrantFloorRequest,
    DenyFloorRequest, RevokeFloorRequest, NotifyFloorStatus, End, UserConnected, UserDisconnected,
    TransportClosed, MessageReceived, run, effects, silently, DenyFloorRequestLocked,
    RevokeFloorRequestLocked, NotifyFloorStatus_locked, End_locked, UserConnected_locked,
    UserDisconnected_locked, TransportClosed_locked, MessageReceived_locked, user_of_transport, bind;
    simpl; rewrite ?He, ?Hr, ?Hu; done.
Qed.

Lemma exec_End s : Inv s → ending s = false → ended (exec OpEnd s).1.1 ∧ (exec OpEnd s).2 = [].
Proof.
  intros HI He. pose proof (End_wp (mkEnv s [] []) HI He) as H. unfold wp in H.
  simpl. unfold End, run, effects. destruct (End_locked (mkEnv s [] [])) as [a e']. simpl in *.
  unfold ended. tauto.
Qed.

Lemma reach_ended confId s ns : reach confId s ns → ending s = true → ended s.
Proof.
  induction 1 as [|s ns op s' w ns' H IH He]; intros Hend; [done|].
  destruct (reach_steps _ _ _ H) as [HI _].
  destruct (ending s) eqn:Es.
  { rewrite (exec_ended op s (IH eq_refl)) in He. simplify_eq. by apply IH. }
  assert (op = OpEnd ∨ op ≠ OpEnd) as [->|Hne] by (destruct op; auto).
  - destruct (exec_End s HI Es) as [Hd _]. by rewrite He in Hd.
  - pose proof (exec_ending op s Hne) as Hk. rewrite He in Hk. simpl in Hk. congruence.
Qed.

(** ** Threads *)

(** A thread enters the server, or makes the next of the calls of the listener that it has to make. *)
Inductive ConfEvent := ThreadCalls (t : nat) (op : Op) | ThreadFires (t : nat).

Record Conf := mkConf {
  cf_server : Server;
  cf_calls : list (nat * list Notification);  (** what each call prepared, in the order of the mutex *)
  cf_pending : list (list Notification);      (** what each thread has still to fire *)
  cf_fired : list (nat * Notification);       (** what the listener was told, and by which thread *)
}.

Definition new_conf (confId : Z) (threads : nat) : Conf := mkConf (new_server confId) [] (replicate threads []) [].

Definition to_fire (t : nat) (c : Conf) : list Notification := default [] (cf_pending c !! t).

Definition conf_step (ev : ConfEvent) (c : Conf) : Conf :=
  match ev with
  | ThreadCalls t op =>
      let '(s, _, ns) := exec op (cf_server c) in
      if bool_decide (t < length (cf_pending c))%nat
      then mkConf s (cf_calls c ++ [(t, ns)]) (<[t := ns ++ to_fire t c]> (cf_pending c)) (cf_fired c) else c
  | ThreadFires t =>
      match to_fire t c with
      | n :: ns => mkConf (cf_server c) (cf_calls c) (<[t := ns]> (cf_pending c)) (cf_fired c ++ [(t, n)])
      | [] => c
      end
  end.

Definition conf_run (evs : list ConfEvent) (c : Conf) : Conf := foldl (λ c ev, conf_step ev c) c evs.

(** All the notifications, in the order in which the calls held the mutex. *)
Definition prepared (c : Conf) : list Notification := mjoin (cf_calls c).*2.

Definition told_by (t : nat) (c : Conf) : list Notification := omap (λ x, if bool_decide (x.1 = t) then Some x.2 else None) (cf_fired c).

(** No thread enters before the others have told what they had to tell. *)
Fixpoint one_at_a_time (evs : list ConfEvent) (c : Conf) : Prop :=
  match evs with
  | [] => True
  | ev :: evs => match ev with ThreadCalls _ _ => mjoin (cf_pending c) = [] | ThreadFires _ => True end ∧ one_at_a_time evs (conf_step ev c)
  end.

Lemma conf_run_snoc evs ev c : conf_run (evs ++ [ev]) c = conf_step ev (conf_run evs c).
Proof. unfold conf_run. by rewrite foldl_app. Qed.

Lemma to_fire_split t c n ns : to_fire t c = n :: ns → ∃ l1 l2, cf_pending c = l1 ++ (n :: ns) :: l2 ∧ length l1 = t.
Proof.
  unfold to_fire. destruct (cf_pending c !! t) as [l|] eqn:E; [|done]. simpl. intros ->. apply list_elem_of_split_length in E as (l1 & l2 & H1 & H2).
  by exists l1, l2.
Qed.

Lemma conf_reach confId threads evs :
  let c := conf_run evs (new_conf confId threads) in reach confId (cf_server c) (prepared c).
Proof.
  induction evs as [|ev evs IH] using rev_ind; [constructor|]. cbv zeta in *. rewrite conf_run_snoc. set (c := conf_run evs _) in *.
  destruct ev as [t op|t]; cbn [conf_step].
  - destruct (exec op (cf_server c)) as [[s w] ns] eqn:E. case_bool_decide; [|done]. unfold prepared. cbn [cf_server cf_calls].
    rewrite fmap_app, join_app. cbn. rewrite app_nil_r. by eapply reach_op.
  - by destruct (to_fire t c).
Qed.

Lemma join_replicate_nil {A} n : mjoin (replicate n ([] : list A)) = [].
Proof. induction n as [|n IH]; [done|exact IH]. Qed.

Lemma new_conf_pending confId threads : mjoin (cf_pending (new_conf confId threads)) = [].
Proof. apply join_replicate_nil. Qed.

Lemma new_conf_to_fire confId threads t : to_fire t (new_conf confId threads) = [].
Proof.
  unfold to_fire. simpl. destruct (replicate threads [] !! t) as [l|] eqn:E; [|done]. by apply lookup_replicate_1 in E as [-> _].
Qed.

(** What the listener was told and what it is still to be told is what was prepared. *)
Lemma conf_told confId threads evs :
  let c := conf_run evs (new_conf confId threads) in (cf_fired c).*2 ++ mjoin (cf_pending c) ≡ₚ prepared c.
Proof.
  induction evs as [|ev evs IH] using rev_ind; [cbv zeta; simpl; by rewrite join_replicate_nil|]. cbv zeta in *. rewrite conf_run_snoc. set (c := conf_run evs _) in *.
  destruct ev as [t op|t]; cbn [conf_step].
  - destruct (exec op (cf_server c)) as [[s w] ns]. case_bool_decide as Ht; [|done]. unfold prepared in *. cbn [cf_fired cf_pending cf_calls].
    rewrite fmap_app, join_app. cbn. rewrite app_nil_r, <- IH. unfold to_fire.
    destruct (lookup_lt_is_Some_2 _ _ Ht) as [l El]. rewrite El. simpl. apply list_elem_of_split_length in El as (l1 & l2 & H1 & H2). rewrite H1.
    rewrite insert_app_r_alt by lia. replace (t - length l1)%nat with 0%nat by lia. simpl. rewrite !join_app. simpl. solve_Permutation.
  - destruct (to_fire t c) as [|n ns] eqn:E; [done|]. cbn [cf_fired cf_pending]. destruct (to_fire_split _ _ _ _ E) as (l1 & l2 & H1 & H2). rewrite H1 in *.
    rewrite insert_app_r_alt by lia. replace (t - length l1)%nat with 0%nat by lia. simpl. rewrite fmap_app, join_app. simpl. unfold prepared in *. cbn [cf_calls].
    rewrite <- IH, join_app. simpl. solve_Permutation.
Qed.

Lemma told_by_snoc t u n fired : omap (λ x : nat * Notification, if bool_decide (x.1 = t) then Some x.2 else None) (fired ++ [(u, n)])
  = omap (λ x : nat * Notification, if bool_decide (x.1 = t) then Some x.2 else None) fired ++ (if bool_decide (u = t) then [n] else []).
Proof. rewrite omap_app. f_equal. cbn. by case_bool_decide. Qed.

(** A thread fires what its call prepared in order. *)
Lemma conf_call_order confId threads evs t ns :
  let c := conf_run evs (new_conf confId threads) in (t, ns) ∈ cf_calls c → ns `sublist_of` told_by t c ++ to_fire t c.
Proof.
  induction evs as [|ev evs IH] using rev_ind; [by intros c ?%elem_of_nil|]. cbv zeta in *. rewrite conf_run_snoc. set (c := conf_run evs _) in *.
  destruct ev as [u op|u]; cbn [conf_step].
  - destruct (exec op (cf_server c)) as [[s w] ns']. case_bool_decide as Hu; [|done]. unfold told_by, to_fire in *. cbn [cf_fired cf_pending cf_calls].
    intros [Hin|[= <- <-]%list_elem_of_singleton]%elem_of_app.
    + destruct (decide (u = t)) as [->|Hne]; [|rewrite list_lookup_insert_ne by done; by apply IH].
      rewrite list_lookup_insert_eq by done. simpl. etrans; [by apply IH|]. apply sublist_app; [done|]. by apply sublist_inserts_l.
    + rewrite list_lookup_insert_eq by done. simpl. apply sublist_inserts_l, sublist_inserts_r. done.
  - destruct (to_fire u c) as [|n l] eqn:E; [done|]. cbn [cf_calls]. intros Hin. specialize (IH Hin). unfold told_by, to_fire in *. cbn [cf_fired cf_pending].
    rewrite told_by_snoc. case_bool_decide as Hut.
    + subst u. assert (t < length (cf_pending c))%nat as Ht by (apply lookup_lt_is_Some; destruct (cf_pending c !! t); done).
      rewrite list_lookup_insert_eq by done. simpl. rewrite E in IH. by rewrite <- app_assoc.
    + rewrite app_nil_r, list_lookup_insert_ne by done. done.
Qed.

Lemma join_alone {A} t (l : list (list A)) : (∀ u, u ≠ t → default [] (l !! u) = []) → mjoin l = default [] (l !! t).
Proof.
  revert t. induction l as [|x l IH]; intros t Hl; [done|]. change (mjoin (x :: l)) with (x ++ mjoin l). destruct t as [|t].
  - assert (mjoin l = []) as ->; [|by rewrite app_nil_r]. rewrite (IH (length l)); [by rewrite lookup_ge_None_2|]. intros u _. by apply (Hl (S u)).
  - pose proof (Hl 0%nat ltac:(done)) as Hx. simpl in Hx. subst x. apply IH. intros u Hu. apply (Hl (S u)). congruence.
Qed.

Lemma join_nil {A} t (l : list (list A)) : mjoin l = [] → default [] (l !! t) = [].
Proof.
  revert t. induction l as [|x l IH]; intros t; [done|]. change (mjoin (x :: l)) with (x ++ mjoin l). intros [-> Hl]%app_eq_nil. destruct t as [|t]; [done|]. by apply IH.
Qed.

(** One call at a time: the listener is told in the order of the calls. *)
Lemma conf_serial evs : ∀ c t,
  (cf_fired c).*2 ++ mjoin (cf_pending c) = prepared c → one_at_a_time evs c → (∀ u, u ≠ t → to_fire u c = []) →
  let c' := conf_run evs c in (cf_fired c').*2 ++ mjoin (cf_pending c') = prepared c'.
Proof.
  induction evs as [|ev evs IH]; intros c t Hc Hs Ho; [done|]. cbn [one_at_a_time] in Hs. destruct Hs as [Hev Hs].
  change (conf_run (ev :: evs) c) with (conf_run evs (conf_step ev c)). destruct ev as [u op|u]; cbn [conf_step] in *.
  - destruct (exec op (cf_server c)) as [[s w] ns]. case_bool_decide as Hu; [|by apply (IH c t)].
    assert (∀ v, v ≠ u → default [] (<[u:=ns ++ to_fire u c]> (cf_pending c) !! v) = []) as Ho'.
    { intros v Hv. rewrite list_lookup_insert_ne by done. by apply join_nil. }
    apply (IH _ u); [|done|exact Ho']. unfold prepared in *. cbn [cf_fired cf_pending cf_calls]. rewrite (join_alone u) by done.
    rewrite list_lookup_insert_eq by done. rewrite fmap_app, join_app. cbn. rewrite <- Hc, Hev. unfold to_fire. by rewrite (join_nil u) by done; rewrite !app_nil_r.
  - destruct (to_fire u c) as [|n ns] eqn:E; [by apply (IH c t)|]. assert (u = t) as ->.
    { destruct (decide (u = t)) as [|Hne]; [done|]. by rewrite (Ho u Hne) in E. }
    assert (t < length (cf_pending c))%nat as Ht by (apply lookup_lt_is_Some; unfold to_fire in E; by destruct (cf_pending c !! t)).
    assert (∀ v, v ≠ t → default [] (<[t:=ns]> (cf_pending c) !! v) = []) as Ho'.
    { intros v Hv. rewrite list_lookup_insert_ne by done. by apply Ho. }
    apply (IH _ t); [|done|exact Ho']. unfold prepared in *. cbn [cf_fired cf_pending cf_calls]. rewrite (join_alone t) by done.
    rewrite list_lookup_insert_eq by done. rewrite <- Hc, (join_alone t (cf_pending c)) by exact Ho. unfold to_fire in E. rewrite E, fmap_app, <- app_assoc. done.
Qed.
End Exec.
