(* ===== verification/BfcpGuarantees.v ===== *)
(** * What a conference can rely on

    The guarantees of the floor control server, for every state a conference can
    reach ([reach]), each with a concrete conference that exercises it. *)

From S2P Require Import Prelude OrderedMap Wire BfcpAttr BfcpMsg BfcpServer BfcpFloorSpec BfcpServerRefine.
From S2P Require Import BfcpServerProps BfcpConference.

(** ** A conference to evaluate *)

(** Every transport is a TCP connection that accepts what it is given. *)
Definition tcp_transports : TransportOps := {| tr_IsReliable := λ _, true; tr_Send := λ _ _ _, true |}.

(** Conference 7: users 1 (the chair), 2 and 3, floors 10 and 11; user 2 asks for both floors on
    transport 102, user 3 for floor 11 on transport 103. *)
Definition floor_request (user transaction : Z) (fs : list Z) : BFCPMessage :=
  new_message (MsgFloorRequest (FloorRequestMsg fs None None)) transaction 7 user.

Definition floor_release (user transaction id : Z) : BFCPMessage :=
  new_message (MsgFloorRelease (FloorReleaseMsg (Some id))) transaction 7 user.

Definition setup : list Op :=
  [OpAddUser 1; OpAddUser 2; OpAddUser 3; OpSetChair 1; OpAddFloor 10; OpAddFloor 11;
   OpMessageReceived (new_message MsgHello 1 7 1) 101;
   OpMessageReceived (floor_request 2 1 [11; 10]) 102;
   OpMessageReceived (floor_request 3 1 [11]) 103].

Definition sample (ops : list Op) : Server * list Notification :=
  @exec_all tcp_transports (setup ++ ops) (new_server 7) [].

Lemma sample_reach ops : @reach tcp_transports 7 (sample ops).1 (sample ops).2.
Proof.
  exact (@exec_all_reach tcp_transports 7 (setup ++ ops) (new_server 7) []
           (@reach_new tcp_transports 7)).
Qed.

Section Guarantees.
Context {T : TransportOps}.

(** ** Who holds a floor *)

Lemma granted_holder s id r f :
  Inv s → ending s = false → om_find id (floorRequests s) = Some r → r_IsGranted r = true →
  f ∈ r_floorIds r → GetGrantedFloorRequestId f s = id.
Proof.
  intros HI He Hid G Hf. unfold GetGrantedFloorRequestId, HasFloorLocked. rewrite He.
  destruct (inv_requests s HI id r Hid) as [_ Hok].
  rewrite (proj2 (os_has_spec f (floors s)) (rq_floors _ _ _ Hok f Hf)). simpl.
  assert (∀ o, o ∈ GetFloorRequestsForFloorLocked f s → r_IsGranted o = true →
               r_floorRequestId o = id) as Huniq.
  { unfold GetFloorRequestsForFloorLocked. intros o Ho Go.
    apply list_elem_of_In, filter_In in Ho as [Ho Hfo%os_has_spec].
    apply list_elem_of_In, list_elem_of_fmap in Ho as ([j o'] & -> & Ho). simpl in *.
    apply om_elem_find in Ho; [|apply HI].
    rewrite (rq_id s j o') by (by apply (inv_requests s HI)).
    apply (inv_exclusive s HI j id o' r); auto. by exists f. }
  destruct (find _ _) as [o|] eqn:Hfind.
  - apply find_some in Hfind as [Ho Go]. apply Huniq; [by apply list_elem_of_In|done].
  - exfalso. eapply find_none in Hfind; [by rewrite G in Hfind|].
    unfold GetFloorRequestsForFloorLocked. apply filter_In. split; [|by apply os_has_spec].
    apply list_elem_of_In, list_elem_of_fmap. exists (id, r). split; [done|by apply om_find_elem].
Qed.

Lemma Grant_run id s b s' w ns :
  Inv s → GrantFloorRequest id s = (b, s', w, ns) →
  b = true → ending s = false ∧ Inv s' ∧
  ∃ r, om_find id (floorRequests s) = Some r ∧ r_IsGranted r = false ∧ s' ≈ grant_result id r s.
Proof.
  intros HI Hg ->. pose proof (exec_refines (OpGrantFloorRequest id) s HI) as [HI' _].
  simpl in HI'. rewrite Hg in HI'. simpl in HI'.
  unfold GrantFloorRequest, run, bind, gets in Hg. simpl in Hg.
  destruct (ending s) eqn:He; [simplify_eq|].
  pose proof (Grant_wp id (mkEnv s [] []) HI) as H. unfold wp in H.
  destruct (GrantFloorRequestLocked id (mkEnv s [] [])) as [b e']. simpl in *. simplify_eq.
  destruct H as [_ H]. destruct (om_find id (floorRequests s)) as [r|]; [|naive_solver].
  destruct (r_IsGranted r) eqn:G; [naive_solver|]. destruct H as [_ H]. eauto 8.
Qed.

Lemma grant_result_find id r s j :
  Inv s → om_find id (floorRequests s) = Some r → r_IsGranted r = false →
  om_find j (floorRequests (grant_result id r s)) =
    if bool_decide (j = id) then Some (r_SetStatus Granted r)
    else if bool_decide (j ∈ conflicting id r s) then None
    else om_find j (floorRequests s).
Proof.
  intros HI Hid G. destruct (grant_clear id r s _ HI Hid G (reflexivity _)) as [Hid' _].
  unfold grant_result. simpl. case_bool_decide as Hj.
  - subst j. rewrite om_find_alter_eq. by setoid_rewrite Hid'.
  - rewrite om_find_alter_ne by done. apply drop_find.
Qed.

Lemma grant_exclusive_lemma id s s' w ns :
  Inv s → GrantFloorRequest id s = (true, s', w, ns) →
  ∃ r, om_find id (floorRequests s) = Some r
    ∧ om_find id (floorRequests s') = Some (r_SetStatus Granted r)
    ∧ (∀ f, f ∈ r_floorIds r → GetGrantedFloorRequestId f s' = id)
    ∧ (∀ j o, j ≠ id →
         om_find j (floorRequests s') = Some o ↔
         om_find j (floorRequests s) = Some o ∧ ¬ (r_IsGranted o = true ∧ share_floor r o))
    ∧ users s' = users s ∧ floors s' = floors s.
Proof.
  intros HI Hg. destruct (Grant_run id s true s' w ns HI Hg eq_refl) as (He & HI' & r & Hid & G & Heq).
  pose proof (λ j, grant_result_find id r s j HI Hid G) as Hfind.
  assert (∀ j, om_find j (floorRequests s') = om_find j (floorRequests (grant_result id r s))) as Hs'.
  { intros j. by rewrite Heq. }
  assert (om_find id (floorRequests s') = Some (r_SetStatus Granted r)) as Hid'.
  { by rewrite Hs', Hfind, bool_decide_true. }
  exists r. split_and!; [done|done| | |by rewrite Heq|by rewrite Heq].
  - intros f Hf. eapply granted_holder; [done|by rewrite Heq|done|done|done].
  - intros j o Hj. rewrite Hs', Hfind, bool_decide_false by done.
    pose proof (conflicting_elem id r s j HI Hid G) as Hc. case_bool_decide as Hin; split.
    + done.
    + intros [Ho Hn]. apply Hc in Hin as (o' & Ho' & ?). simplify_eq; naive_solver.
    + intros Ho. split; [done|]. intros Hn. apply Hin, Hc. naive_solver.
    + naive_solver.
Qed.

(** ** Users that leave *)

Lemma without_find userId s j :
  om_find j (floorRequests (without_user_requests userId s))
  = if bool_decide (j ∈ requests_of_user userId s) then None else om_find j (floorRequests s).
Proof. apply drop_find. Qed.

(** [s'] keeps of [s] the requests that do not involve [userId], and no other. *)
Definition forgets_requests_of (userId : Z) (s s' : Server) : Prop :=
  ∀ j r, om_find j (floorRequests s') = Some r ↔
         om_find j (floorRequests s) = Some r ∧ r_userId r ≠ userId ∧ r_beneficiaryId r ≠ userId.

Lemma without_forgets userId s s' :
  Inv s → floorRequests s' = floorRequests (without_user_requests userId s) →
  forgets_requests_of userId s s'.
Proof.
  intros HI Heq j r. rewrite Heq, without_find.
  pose proof (requests_of_user_elem userId s j (inv_requests_sorted s HI)) as Hel.
  case_bool_decide as Hin; split.
  - done.
  - intros (Hr & ? & ?). apply Hel in Hin as (r' & Hr' & Hor). simplify_eq. naive_solver.
  - intros Hr. split; [done|]. split; intros ?; apply Hin, Hel; eauto.
  - naive_solver.
Qed.

Lemma RemoveUser_run userId s b s' w ns :
  Inv s → RemoveUser userId s = (b, s', w, ns) → b = true →
  s' ≈ set_users (om_erase userId) (without_user_requests userId s).
Proof.
  intros HI Hr ->. unfold RemoveUser, run, bind, gets in Hr. simpl in Hr.
  destruct (ending s) eqn:He; [simplify_eq|].
  pose proof (RemoveUser_wp userId true (mkEnv s [] []) HI) as H. unfold wp in H.
  destruct (RemoveUserLocked userId true (mkEnv s [] [])) as [b e']. simpl in *. simplify_eq.
  destruct H as [_ H]. destruct (om_find userId (users s)); naive_solver.
Qed.

Lemma removed_lemma userId s s' :
  Inv s → s' ≈ set_users (om_erase userId) (without_user_requests userId s) →
  om_find userId (users s') = None
  ∧ (∀ v, v ≠ userId → om_find v (users s') = om_find v (users s))
  ∧ forgets_requests_of userId s s' ∧ floors s' = floors s.
Proof.
  intros HI Heq. split_and!.
  - rewrite Heq. apply om_find_erase_eq.
  - intros v Hv. rewrite Heq. by apply om_find_erase_ne.
  - apply without_forgets; [done|by rewrite Heq].
  - by rewrite Heq.
Qed.

(** ** Transports that close *)

Lemma find_user_elem t s u :
  Inv s → user_of_transport t s = Some u →
  om_find (u_userId u) (users s) = Some u ∧ u_transport u = Some t.
Proof.
  intros HI Hf. unfold user_of_transport in Hf. apply find_some in Hf as [Hin Ht].
  apply bool_decide_eq_true in Ht. split; [|done].
  apply list_elem_of_In, list_elem_of_fmap in Hin as ([k v] & -> & Hin). simpl in *.
  apply om_elem_find in Hin; [|apply HI]. by rewrite (us_id s k v) by (by apply (inv_users s HI)).
Qed.

Lemma closed_lemma t s u s' w ns :
  Inv s → ending s = false → user_of_transport t s = Some u →
  TransportClosed t s = (tt, s', w, ns) →
  om_find (u_userId u) (users s') = Some (mkUser (u_userId u) (u_conferenceId u) (u_isChair u) None [])
  ∧ (∀ v, v ≠ u_userId u → om_find v (users s') = om_find v (users s))
  ∧ forgets_requests_of (u_userId u) s s'.
Proof.
  intros HI He Hu Hr. destruct (find_user_elem t s u HI Hu) as [Hfind _].
  unfold TransportClosed, run, TransportClosed_locked, bind, gets in Hr. simpl in Hr.
  rewrite Hu in Hr. pose proof (Detach_wp (u_userId u) (mkEnv s [] []) HI) as H. unfold wp in H.
  destruct (DetachTransportLocked (u_userId u) (mkEnv s [] [])) as [x e']. simpl in *. simplify_eq.
  destruct H as [_ H]. rewrite He in H. split_and!.
  - rewrite H. simpl. by rewrite om_find_alter_eq, Hfind.
  - intros v Hv. rewrite H. simpl. by rewrite om_find_alter_ne.
  - apply without_forgets; [done|by rewrite H].
Qed.

(** ** Messages *)

(** A message of a known user of the conference, on the transport of that user. *)
Definition own_message (msg : BFCPMessage) (from : Z) (u : BFCPUser) (s : Server) : Prop :=
  ending s = false ∧ msg_conferenceId msg = conferenceId s
  ∧ om_find (msg_userId msg) (users s) = Some u ∧ u_transport u = Some from.

Lemma own_message_dispatch msg from u s :
  own_message msg from u s →
  MessageReceived_locked msg from (mkEnv s [] []) = dispatch msg from (msg_userId msg) (mkEnv s [] []).
Proof.
  intros (He & Hc & Hu & Ht). unfold MessageReceived_locked, bind, gets. simpl. unfold id.
  rewrite He, Hc, Z.eqb_refl, Hu, bool_decide_true by done. done.
Qed.

Lemma release_lemma msg from u s id s' w ns :
  Inv s → own_message msg from u s →
  msg_body msg = MsgFloorRelease (FloorReleaseMsg (Some id)) →
  MessageReceived msg from s = (tt, s', w, ns) →
  match om_find id (floorRequests s) with
  | Some r =>
      if may_release u r then
        (∀ j, om_find j (floorRequests s') = if j =? id then None else om_find j (floorRequests s))
        ∧ users s' = users s
        ∧ ns = (if r_IsGranted r then [OnFloorReleased id (r_beneficiaryId r) (r_floorIds r)] else [])
      else
        s' = s ∧ ns = []
        ∧ w = [CallSend from (SetResponder (new_error msg UnauthorizedOperation
                 (octets "you cannot release that FloorRequest")) true)]
  | None =>
      s' = s ∧ ns = []
      ∧ w = [CallSend from (SetResponder (new_error msg FloorRequestIdDoesNotExist
               (octets "FloorRequest does not exist")) true)]
  end.
Proof.
  intros HI Hown Hb Hr. unfold MessageReceived, run in Hr.
  rewrite (own_message_dispatch msg from u s Hown) in Hr. destruct Hown as (He & Hc & Hu & Ht).
  unfold dispatch in Hr. rewrite Hb in Hr.
  destruct (om_find id (floorRequests s)) as [r|] eqn:Hid; [destruct (may_release u r) eqn:Hm|].
  - pose proof (FloorRelease_wp msg (FloorReleaseMsg (Some id)) (msg_userId msg) u id
                  (mkEnv s [] []) HI He Hu eq_refl) as H. unfold wp in H.
    destruct (ProcessFloorReleaseLocked _ _ _ _) as [x e']. simpl in *. simplify_eq.
    rewrite Hid, Hm in H. destruct H as (_ & H & Hp). split_and!; [|by rewrite H|done].
    intros j. rewrite H, drop_find. destruct (Z.eqb_spec j id) as [->|Hne].
    + by rewrite bool_decide_true by set_solver.
    + by rewrite bool_decide_false by set_solver.
  - unfold ProcessFloorReleaseLocked, bind, GetUserLocked, GetFloorRequestLocked, gets in Hr.
    simpl in Hr. rewrite Hu in Hr. simpl in Hr. rewrite Hid in Hr.
    rewrite may_release_negb, Hm in Hr. simpl in Hr. rewrite Ht in Hr. simpl in Hr. by simplify_eq.
  - unfold ProcessFloorReleaseLocked, bind, GetUserLocked, GetFloorRequestLocked, gets in Hr.
    simpl in Hr. rewrite Hu in Hr. simpl in Hr. rewrite Hid, Ht in Hr. simpl in Hr. by simplify_eq.
Qed.

Lemma request_lemma msg from u m s s' w ns :
  Inv s → own_message msg from u s → msg_body msg = MsgFloorRequest m →
  MessageReceived msg from s = (tt, s', w, ns) →
  let id := floorRequestCounter s in
  let r := recorded_request msg m s in
  if negb (floors_exist (freq_floorIds m) s) || beneficiary_unknown m s then s' = s ∧ ns = []
  else
    om_find id (floorRequests s') = Some (if u_isChair u then r_SetStatus Granted r else r)
    ∧ floorRequestCounter s' = id + 1
    ∧ (u_isChair u = false →
       ns = [OnFloorRequest id (r_userId r) (r_beneficiaryId r) (r_floorIds r)]
       ∧ ∀ j, j ≠ id → om_find j (floorRequests s') = om_find j (floorRequests s)).
Proof.
  intros HI Hown Hb Hr. unfold MessageReceived, run in Hr.
  rewrite (own_message_dispatch msg from u s Hown) in Hr. destruct Hown as (He & Hc & Hu & Ht).
  unfold dispatch in Hr. rewrite Hb in Hr.
  pose proof (FloorRequest_wp msg m u (mkEnv s [] []) HI Hu) as H. unfold wp in H.
  destruct (ProcessFloorRequestLocked _ _ _ _) as [x e']. simpl in *. simplify_eq.
  destruct H as [_ H]. destruct (negb _ || _) eqn:Hbad; [done|].
  apply orb_false_iff in Hbad as [Hf%negb_false_iff Hben].
  destruct (recorded_request_ok msg m s Hf Hben) as (Hok & Hst & Hr); [by unfold is_user; rewrite Hu; eauto|].
  set (r := recorded_request msg m s) in *.
  assert (r_IsGranted r = false) as G by (unfold r_IsGranted; by rewrite Hst).
  destruct (u_isChair u).
  - split_and!; [|by rewrite H|done]. rewrite H, grant_result_find; [by rewrite bool_decide_true| | |done].
    + by apply Inv_request.
    + apply om_find_set_eq.
  - destruct H as [H Hp]. split_and!; [|by rewrite H|intros _; split; [done|]].
    + rewrite H. apply om_find_set_eq.
    + intros j Hj. rewrite H. by apply om_find_set_ne.
Qed.

Lemma takeover_lemma msg from u s s' w ns :
  Inv s → ending s = false → msg_conferenceId msg = conferenceId s →
  om_find (msg_userId msg) (users s) = Some u → u_transport u ≠ Some from →
  user_IsConnected u = true → msg_body msg = MsgHello →
  MessageReceived msg from s = (tt, s', w, ns) →
  om_find (msg_userId msg) (users s') =
    Some (mkUser (u_userId u) (u_conferenceId u) (u_isChair u) (Some from) [])
  ∧ forgets_requests_of (msg_userId msg) s s'
  ∧ last ns = Some (OnUserConnected (msg_userId msg)).
Proof.
  intros HI He Hc Hu Ht Hcon Hb Hr.
  unfold MessageReceived, run, MessageReceived_locked, bind, gets in Hr. simpl in Hr. unfold id in Hr.
  rewrite He, Hc, Z.eqb_refl, Hu, bool_decide_false in Hr by done. simpl in Hr.
  assert (GetPrimitive msg = P_Hello) as Hp by (unfold GetPrimitive; by rewrite Hb).
  rewrite Hcon, Hp in Hr. simpl in Hr.
  pose proof (Attach_wp (msg_userId msg) from u (mkEnv s [] []) HI Hu) as HA. unfold wp in HA.
  destruct (AttachTransportLocked (msg_userId msg) from (mkEnv s [] [])) as [b e1]. simpl in HA.
  destruct HA as (HR & _ & He1). unfold dispatch in Hr. rewrite Hb in Hr.
  pose proof (attach_result_user (msg_userId msg) from u s HI Hu) as Hau.
  rewrite bool_decide_false in Hau by done. unfold attached in Hau. rewrite Hcon in Hau.
  assert (om_find (msg_userId msg) (users (server e1))
          = Some (user_SetTransport from (user_ResetQueriedFloorIds u))) as Hu1 by (by rewrite He1).
  pose proof (Hello_wp msg (msg_userId msg) _ e1 (ref_inv _ _ HR) Hu1) as HH. unfold wp in HH.
  destruct (ProcessHelloLocked msg (msg_userId msg) e1) as [x e2]. simpl in *. simplify_eq.
  destruct HH as (_ & HH & Hpend). split_and!.
  - by rewrite HH.
  - apply without_forgets; [done|]. rewrite HH, He1. unfold attach_result.
    by rewrite bool_decide_false, Hcon.
  - rewrite Hpend. apply last_snoc.
Qed.
End Guarantees.

(** ** Transaction ids *)

Fixpoint transaction_ids (n : nat) (s : Server) : list Z :=
  match n with
  | O => []
  | S n' =>
      let (t, e) := NextTransactionIdLocked (mkEnv s [] []) in t :: transaction_ids n' (server e)
  end.

Lemma transaction_ids_lookup n s k :
  tc_ok s → (k < n)%nat →
  transaction_ids n s !! k = Some ((transactionCounter s + Z.of_nat k) `mod` 0xFFFF + 1).
Proof.
  revert s k. induction n as [|n IH]; intros s k Htc Hk; [lia|]. simpl.
  unfold tc_ok in Htc. rewrite Z.rem_mod_nonneg by lia.
  destruct k as [|k]; simpl; [do 2 f_equal; f_equal; lia|].
  pose proof (Z.mod_pos_bound (transactionCounter s) 0xFFFF ltac:(lia)).
  rewrite IH; [|unfold tc_ok; simpl; lia|lia]. simpl. do 2 f_equal.
  rewrite <- Z.add_assoc, Z.add_mod_idemp_l by lia. f_equal. lia.
Qed.

Lemma mod_inj a x y m : 0 <= x < m → 0 <= y < m → (a + x) `mod` m = (a + y) `mod` m → x = y.
Proof.
  intros Hx Hy H. assert ((x - y) `mod` m = 0) as Hz.
  { replace (x - y) with ((a + x) - (a + y)) by lia. rewrite Zminus_mod, H, Z.sub_diag. done. }
  apply Z.mod_divide in Hz as [q Hq]; [|lia].
  assert (q = 0) as -> by nia. lia.
Qed.

(** ** The guarantees *)

Section Claims.
Context {T : TransportOps}.

(** C1. Whatever any number of threads call, in whatever order they get the mutex and whenever each
    of them comes to call the listener, the server is a run of the abstract floor control machine, and
    what its calls prepare for the listener, in the order in which they hold the mutex, is what the
    machine announces.  The listener is told each of these notifications once and nothing else, those of
    one call in their order; the notifications of calls that overlap may interleave, and when no call is
    made before those of the call before it have been told, the listener is told all of them in the
    order of the machine. *)
Theorem conference_refines confId threads evs :
  let c := conf_run evs (new_conf confId threads) in
  asteps (new_server confId) (prepared c) (cf_server c)
  ∧ (cf_fired c).*2 ++ mjoin (cf_pending c) ≡ₚ prepared c
  ∧ (∀ t ns, (t, ns) ∈ cf_calls c → ns `sublist_of` told_by t c ++ to_fire t c)
  ∧ (one_at_a_time evs (new_conf confId threads) → (cf_fired c).*2 ++ mjoin (cf_pending c) = prepared c).
Proof.
  cbv zeta. split_and!.
  - by apply (reach_steps confId), conf_reach.
  - apply conf_told.
  - intros t ns. apply conf_call_order.
  - intros Ho. apply (conf_serial evs _ 0%nat); [by rewrite new_conf_pending|done|]. intros u _. apply new_conf_to_fire.
Qed.

(** C2. Every state a conference reaches satisfies the invariant: maps and sets ordered, identifiers
    in range, at most one chair, no request for a missing floor or user, every request Pending or
    Granted, and no two granted requests that share a floor. *)
Theorem conference_invariant confId s ns : reach confId s ns → Inv s.
Proof. intros H. by apply (reach_steps confId s ns). Qed.

(** C3. While the conference runs, its notifications alone tell who holds which floors: replayed in
    the order in which the calls of the threads held the mutex, they never meet a contradiction (a floor
    granted twice, a release of what was not granted) and give exactly the granted requests of the
    server.  When no call is made before the listener was told of the one before it, that is the order
    in which the listener was told; when calls overlap it need not be. *)
Theorem notifications_tell_holders confId threads evs :
  let c := conf_run evs (new_conf confId threads) in
  ending (cf_server c) = false →
  replay [] (prepared c) = Some (held (cf_server c))
  ∧ (one_at_a_time evs (new_conf confId threads) → mjoin (cf_pending c) = [] →
     replay [] (cf_fired c).*2 = Some (held (cf_server c))).
Proof.
  cbv zeta. intros He. set (c := conf_run evs (new_conf confId threads)) in *.
  destruct (reach_steps confId (cf_server c) (prepared c)) as [HI Hs]; [apply conf_reach|].
  assert (replay [] (prepared c) = Some (held (cf_server c))) as Hr by (by apply (asteps_replay (new_server confId) (prepared c) _ (Inv_new confId))).
  split; [done|]. intros Ho Hp. rewrite <- Hr. f_equal. rewrite <- (app_nil_r (cf_fired c).*2), <- Hp.
  apply (conf_serial evs _ 0%nat); [by rewrite new_conf_pending|done|]. intros u _. apply new_conf_to_fire.
Qed.

(** C4. A successful [GrantFloorRequest] makes the request the holder of every floor it asked for,
    removes every granted request that shared one of them, and leaves every other request, the
    users and the floors as they were. *)
Theorem grant_takes_the_floors confId s ns id s' w ns' :
  reach confId s ns → GrantFloorRequest id s = (true, s', w, ns') →
  ∃ r, om_find id (floorRequests s) = Some r
    ∧ om_find id (floorRequests s') = Some (r_SetStatus Granted r)
    ∧ (∀ f, f ∈ r_floorIds r → GetGrantedFloorRequestId f s' = id)
    ∧ (∀ j o, j ≠ id →
         om_find j (floorRequests s') = Some o ↔
         om_find j (floorRequests s) = Some o ∧ ¬ (r_IsGranted o = true ∧ share_floor r o))
    ∧ users s' = users s ∧ floors s' = floors s.
Proof. intros H Hg. destruct (reach_steps _ _ _ H) as [HI _]. by apply (grant_exclusive_lemma _ _ _ w ns'). Qed.

(** Removing a user forgets the user and exactly the requests that it made or that benefit it;
    the other users, requests and floors stay. *)
Theorem removed_user_leaves_no_trace confId s ns userId s' w ns' :
  reach confId s ns → RemoveUser userId s = (true, s', w, ns') →
  om_find userId (users s') = None
  ∧ (∀ v, v ≠ userId → om_find v (users s') = om_find v (users s))
  ∧ forgets_requests_of userId s s' ∧ floors s' = floors s.
Proof.
  intros H Hr. destruct (reach_steps _ _ _ H) as [HI _].
  apply removed_lemma; [done|]. by eapply RemoveUser_run.
Qed.

(** When a transport closes, the user it carries stays in the conference without a transport
    and without subscriptions, and exactly its requests are forgotten. *)
Theorem closed_transport_detaches confId s ns t u s' w ns' :
  reach confId s ns → ending s = false → user_of_transport t s = Some u →
  TransportClosed t s = (tt, s', w, ns') →
  om_find (u_userId u) (users s') = Some (mkUser (u_userId u) (u_conferenceId u) (u_isChair u) None [])
  ∧ (∀ v, v ≠ u_userId u → om_find v (users s') = om_find v (users s))
  ∧ forgets_requests_of (u_userId u) s s'.
Proof. intros H He Hu Hr. destruct (reach_steps _ _ _ H) as [HI _]. by eapply closed_lemma. Qed.

(** C6. A FloorRequest of a user on its own transport is refused without effect when a floor or the
    beneficiary does not exist; otherwise it is recorded under the next request number with the
    floors and beneficiary asked for, and is granted at once if the sender is the chair, else the
    chair is told and no other request changes. *)
Theorem floor_request_outcome confId s ns msg from u m s' w ns' :
  reach confId s ns → own_message msg from u s → msg_body msg = MsgFloorRequest m →
  MessageReceived msg from s = (tt, s', w, ns') →
  let id := floorRequestCounter s in
  let r := recorded_request msg m s in
  if negb (floors_exist (freq_floorIds m) s) || beneficiary_unknown m s then s' = s ∧ ns' = []
  else
    om_find id (floorRequests s') = Some (if u_isChair u then r_SetStatus Granted r else r)
    ∧ floorRequestCounter s' = id + 1
    ∧ (u_isChair u = false →
       ns' = [OnFloorRequest id (r_userId r) (r_beneficiaryId r) (r_floorIds r)]
       ∧ ∀ j, j ≠ id → om_find j (floorRequests s') = om_find j (floorRequests s)).
Proof. intros H Hown Hb Hr. destruct (reach_steps _ _ _ H) as [HI _]. by eapply request_lemma. Qed.

(** C5. A FloorRelease is honoured only for the requester, the beneficiary or the chair: then the
    request, and only it, is gone, and its release is announced if it held its floors.  Anybody else,
    or an unknown request number, gets the matching error and nothing changes. *)
Theorem release_needs_authority confId s ns msg from u id s' w ns' :
  reach confId s ns → own_message msg from u s →
  msg_body msg = MsgFloorRelease (FloorReleaseMsg (Some id)) →
  MessageReceived msg from s = (tt, s', w, ns') →
  match om_find id (floorRequests s) with
  | Some r =>
      if may_release u r then
        (∀ j, om_find j (floorRequests s') = if j =? id then None else om_find j (floorRequests s))
        ∧ users s' = users s
        ∧ ns' = (if r_IsGranted r then [OnFloorReleased id (r_beneficiaryId r) (r_floorIds r)] else [])
      else
        s' = s ∧ ns' = []
        ∧ w = [CallSend from (SetResponder (new_error msg UnauthorizedOperation
                 (octets "you cannot release that FloorRequest")) true)]
  | None =>
      s' = s ∧ ns' = []
      ∧ w = [CallSend from (SetResponder (new_error msg FloorRequestIdDoesNotExist
               (octets "FloorRequest does not exist")) true)]
  end.
Proof. intros H Hown Hb Hr. destruct (reach_steps _ _ _ H) as [HI _]. by eapply release_lemma. Qed.

(** A Hello from another transport takes a connected user over: the user starts afresh on the
    new transport, exactly its requests are forgotten, and the connection is announced last. *)
Theorem hello_takes_over confId s ns msg from u s' w ns' :
  reach confId s ns → ending s = false → msg_conferenceId msg = conferenceId s →
  om_find (msg_userId msg) (users s) = Some u → u_transport u ≠ Some from →
  user_IsConnected u = true → msg_body msg = MsgHello →
  MessageReceived msg from s = (tt, s', w, ns') →
  om_find (msg_userId msg) (users s') =
    Some (mkUser (u_userId u) (u_conferenceId u) (u_isChair u) (Some from) [])
  ∧ forgets_requests_of (msg_userId msg) s s'
  ∧ last ns' = Some (OnUserConnected (msg_userId msg)).
Proof. intros H. intros. destruct (reach_steps _ _ _ H) as [HI _]. by eapply takeover_lemma. Qed.

(** A message for another conference, of an unknown user, or of a user connected on another
    transport (unless it is a Hello) changes nothing, announces nothing, and is answered on the
    transport it came from with the error of the first check that fails. *)
Theorem stranger_is_refused msg from s :
  ending s = false →
  (msg_conferenceId msg = conferenceId s →
   ∀ u, om_find (msg_userId msg) (users s) = Some u →
        user_IsConnected u = true ∧ u_transport u ≠ Some from ∧ GetPrimitive msg ≠ P_Hello) →
  ∃ code info,
    MessageReceived msg from s
    = (tt, s, [CallSend from (SetResponder (new_error msg code info) true)], [])
    ∧ code = if negb (msg_conferenceId msg =? conferenceId s) then ConferenceDoesNotExist
             else if bool_decide (om_find (msg_userId msg) (users s) = None) then UserDoesNotExist
             else UnauthorizedOperation.
Proof.
  intros He Hu. unfold MessageReceived, run, MessageReceived_locked, bind, gets. simpl. unfold id.
  rewrite He. destruct (Z.eqb_spec (msg_conferenceId msg) (conferenceId s)) as [Hc|Hc]; simpl; [|by eauto].
  destruct (om_find (msg_userId msg) (users s)) as [u|] eqn:Hf; [|rewrite bool_decide_true; by eauto].
  destruct (Hu Hc u eq_refl) as (Hcon & Ht & Hp). rewrite !bool_decide_false, Hcon by done.
  simpl. eauto.
Qed.

(** [End] of a running conference tells the listener nothing and ends it.  Once it ended there
    are no users and no requests left, and no call whatsoever sends a message, tells the listener
    anything or changes the server. *)
Theorem ended_conference_is_inert confId s ns :
  reach confId s ns →
  let s' := (exec OpEnd s).1.1 in
  ending s' = true ∧ (exec OpEnd s).2 = []
  ∧ users s' = [] ∧ floorRequests s' = [] ∧ ∀ op, exec op s' = (s', [], []).
Proof.
  intros H. destruct (reach_steps _ _ _ H) as [HI _].
  assert (ended (exec OpEnd s).1.1 ∧ (exec OpEnd s).2 = []) as [Hd Hn].
  { destruct (ending s) eqn:He; [|by apply exec_End].
    pose proof (reach_ended _ _ _ H He) as Hd. by rewrite (exec_ended OpEnd s Hd). }
  cbv zeta. split_and!; [apply Hd|done|apply Hd|apply Hd|]. intros op. by apply exec_ended.
Qed.
End Claims.

(** Fresh transaction ids are between 1 and 65535, never 0 (the id of a notification over a
    reliable transport), and 65535 of them in a row are all different. *)
Theorem transaction_ids_cycle s n :
  tc_ok s →
  Forall (λ t, 1 <= t <= 0xFFFF) (transaction_ids n s)
  ∧ ∀ i j t, (i < j < n)%nat → Z.of_nat j - Z.of_nat i < 0xFFFF →
      transaction_ids n s !! i = Some t → transaction_ids n s !! j ≠ Some t.
Proof.
  intros Htc.
  assert (length (transaction_ids n s) = n) as Hlen.
  { clear. revert s. induction n as [|n IH]; intros s; simpl; [done|]. by rewrite IH. }
  split.
  - apply Forall_lookup. intros k t Ht. pose proof (lookup_lt_Some _ _ _ Ht) as Hk. rewrite Hlen in Hk.
    rewrite transaction_ids_lookup in Ht by done. simplify_eq.
    pose proof (Z.mod_pos_bound (transactionCounter s + Z.of_nat k) 0xFFFF ltac:(lia)). lia.
  - intros i j t Hij Hd Hi Hj. rewrite transaction_ids_lookup in Hi, Hj by (done || lia). simplify_eq.
    assert (0 = Z.of_nat j - Z.of_nat i); [|lia].
    apply (mod_inj (transactionCounter s + Z.of_nat i) _ _ 0xFFFF); [lia..|].
    rewrite Z.add_0_r. replace (transactionCounter s + Z.of_nat i + (Z.of_nat j - Z.of_nat i))
      with (transactionCounter s + Z.of_nat j) by lia. lia.
Qed.

(** ** The guarantees at work *)

(** Request 2 (user 3, floor 11) is granted; then request 1 (user 2, floors 10 and 11). *)
Definition held_by_3 : Server * list Notification := sample [OpGrantFloorRequest 2].
Definition then_by_2 := @GrantFloorRequest tcp_transports 1 held_by_3.1.
Definition after_3_leaves := @RemoveUser tcp_transports 3 held_by_3.1.
Definition after_close := @TransportClosed tcp_transports 103 held_by_3.1.
Definition release_by (user from : Z) :=
  @MessageReceived tcp_transports (floor_release user 5 2) from held_by_3.1.
Definition chair_takes := @MessageReceived tcp_transports (floor_request 1 5 [10]) 101 held_by_3.1.
Definition hello_3 : BFCPMessage := new_message MsgHello 6 7 3.
Definition hello_elsewhere := @MessageReceived tcp_transports hello_3 203 held_by_3.1.

Lemma conference_invariant_witness : Inv held_by_3.1.
Proof. exact (@conference_invariant tcp_transports 7 _ _ (sample_reach [OpGrantFloorRequest 2])). Defined.

(** Thread 0 prepares the conference; thread 1 grants request 2. *)
Definition sample_events : list ConfEvent :=
  mjoin ((λ op, [ThreadCalls 0 op; ThreadFires 0; ThreadFires 0]) <$> setup) ++ [ThreadCalls 1 (OpGrantFloorRequest 2)].
Definition sample_threads : Conf := @conf_run tcp_transports sample_events (new_conf 7 2).

Lemma notifications_tell_holders_witness :
  let evs := sample_events ++ [ThreadFires 1] in
  let c := @conf_run tcp_transports evs (new_conf 7 2) in
  replay [] (prepared c) = Some [(2, (3, [11]))] ∧ replay [] (cf_fired c).*2 = Some [(2, (3, [11]))].
Proof.
  destruct (@notifications_tell_holders tcp_transports 7 2 (sample_events ++ [ThreadFires 1])) as [H1 H2]; [vm_compute; reflexivity|].
  cbv zeta. split.
  - rewrite H1. vm_compute. reflexivity.
  - rewrite H2; [vm_compute; reflexivity|vm_compute; repeat split|vm_compute; reflexivity].
Defined.

(** While thread 1 is about to tell that request 2 was granted, thread 0 receives its release and tells
    it: the listener hears of the release first, and of the grant when nobody holds the floor. *)
Theorem release_overtakes_grant :
  let c := @conf_run tcp_transports [ThreadCalls 0 (OpMessageReceived (floor_release 3 5 2) 103); ThreadFires 0; ThreadFires 1] sample_threads in
  drop 3 (cf_fired c) = [(0%nat, OnFloorReleased 2 3 [11]); (1%nat, OnFloorGranted 2 3 [11])]
  ∧ replay [] (cf_fired c).*2 = None ∧ held (cf_server c) = [] ∧ replay [] (prepared c) = Some [].
Proof. vm_compute. split_and!; reflexivity. Qed.

Lemma grant_takes_the_floors_witness :
  then_by_2.1.1.1 = true ∧ GetGrantedFloorRequestId 11 held_by_3.1 = 2
  ∧ ∃ r, om_find 1 (floorRequests held_by_3.1) = Some r ∧ r_floorIds r = [10; 11]
         ∧ ∀ f, f ∈ r_floorIds r → GetGrantedFloorRequestId f then_by_2.1.1.2 = 1.
Proof.
  split; [vm_compute; reflexivity|split; [vm_compute; reflexivity|]].
  destruct (@grant_takes_the_floors tcp_transports 7 held_by_3.1 held_by_3.2 1
              then_by_2.1.1.2 then_by_2.1.2 then_by_2.2) as (r & Hr & _ & Hf & _).
  - apply (sample_reach [OpGrantFloorRequest 2]).
  - vm_compute; reflexivity.
  - exists r. split; [exact Hr|]. split; [|exact Hf].
    vm_compute in Hr. injection Hr as <-. reflexivity.
Defined.

Lemma removed_user_leaves_no_trace_witness :
  after_3_leaves.1.1.1 = true ∧ om_find 3 (users after_3_leaves.1.1.2) = None
  ∧ forgets_requests_of 3 held_by_3.1 after_3_leaves.1.1.2.
Proof.
  split; [vm_compute; reflexivity|].
  destruct (@removed_user_leaves_no_trace tcp_transports 7 held_by_3.1 held_by_3.2 3
              after_3_leaves.1.1.2 after_3_leaves.1.2 after_3_leaves.2) as (H1 & _ & H2 & _).
  - apply (sample_reach [OpGrantFloorRequest 2]).
  - vm_compute; reflexivity.
  - split; [exact H1|exact H2].
Defined.

Lemma closed_transport_detaches_witness :
  om_find 3 (users after_close.1.1.2) = Some (mkUser 3 7 false None [])
  ∧ forgets_requests_of 3 held_by_3.1 after_close.1.1.2.
Proof.
  destruct (@closed_transport_detaches tcp_transports 7 held_by_3.1 held_by_3.2 103
              (mkUser 3 7 false (Some 103) []) after_close.1.1.2 after_close.1.2 after_close.2)
    as (H1 & _ & H2).
  - apply (sample_reach [OpGrantFloorRequest 2]).
  - vm_compute; reflexivity.
  - vm_compute; reflexivity.
  - vm_compute; reflexivity.
  - split; [exact H1|exact H2].
Defined.

Lemma floor_request_outcome_witness :
  om_find 3 (floorRequests chair_takes.1.1.2)
  = Some (r_SetStatus Granted (recorded_request (floor_request 1 5 [10])
                                 (FloorRequestMsg [10] None None) held_by_3.1)).
Proof.
  assert (negb (floors_exist [10] held_by_3.1)
          || beneficiary_unknown (FloorRequestMsg [10] None None) held_by_3.1 = false) as E
    by (vm_compute; reflexivity).
  pose proof (@floor_request_outcome tcp_transports 7 held_by_3.1 held_by_3.2 (floor_request 1 5 [10]) 101
              (mkUser 1 7 true (Some 101) []) (FloorRequestMsg [10] None None)
              chair_takes.1.1.2 chair_takes.1.2 chair_takes.2
              (sample_reach [OpGrantFloorRequest 2])) as H.
  cbv zeta in H. cbn [freq_floorIds u_isChair] in H. rewrite E in H.
  apply H; [vm_compute; split_and!; reflexivity|reflexivity|vm_compute; reflexivity].
Defined.

(** User 3 releases what it holds; user 2 may not. *)
Lemma release_needs_authority_witness :
  (release_by 3 103).2 = [OnFloorReleased 2 3 [11]] ∧ (release_by 2 102).1.1.2 = held_by_3.1.
Proof.
  set (r := mkFloorRequest 2 3 7 3 [11] Granted 0).
  assert (om_find 2 (floorRequests held_by_3.1) = Some r) as E by (vm_compute; reflexivity).
  split.
  - pose proof (@release_needs_authority tcp_transports 7 held_by_3.1 held_by_3.2 (floor_release 3 5 2)
      103 (mkUser 3 7 false (Some 103) []) 2 (release_by 3 103).1.1.2 (release_by 3 103).1.2
      (release_by 3 103).2 (sample_reach [OpGrantFloorRequest 2])) as H.
    rewrite E in H. apply H; [vm_compute; split_and!; reflexivity|reflexivity|vm_compute; reflexivity].
  - pose proof (@release_needs_authority tcp_transports 7 held_by_3.1 held_by_3.2 (floor_release 2 5 2)
      102 (mkUser 2 7 false (Some 102) []) 2 (release_by 2 102).1.1.2 (release_by 2 102).1.2
      (release_by 2 102).2 (sample_reach [OpGrantFloorRequest 2])) as H.
    rewrite E in H. apply H; [vm_compute; split_and!; reflexivity|reflexivity|vm_compute; reflexivity].
Defined.

Lemma hello_takes_over_witness :
  om_find 3 (users hello_elsewhere.1.1.2) = Some (mkUser 3 7 false (Some 203) [])
  ∧ forgets_requests_of 3 held_by_3.1 hello_elsewhere.1.1.2.
Proof.
  destruct (@hello_takes_over tcp_transports 7 held_by_3.1 held_by_3.2 hello_3 203
              (mkUser 3 7 false (Some 103) []) hello_elsewhere.1.1.2 hello_elsewhere.1.2
              hello_elsewhere.2 (sample_reach [OpGrantFloorRequest 2])) as (H1 & H2 & _);
    [vm_compute; reflexivity|reflexivity|vm_compute; reflexivity|discriminate|reflexivity|reflexivity
    |vm_compute; reflexivity|].
  split; [exact H1|exact H2].
Defined.

(** User 2 speaks as user 3, from its own transport. *)
Lemma stranger_is_refused_witness :
  ∃ info, @MessageReceived tcp_transports (floor_release 3 5 2) 102 held_by_3.1
    = (tt, held_by_3.1,
       [CallSend 102 (SetResponder (new_error (floor_release 3 5 2) UnauthorizedOperation info) true)], []).
Proof.
  destruct (@stranger_is_refused tcp_transports (floor_release 3 5 2) 102 held_by_3.1)
    as (code & info & H & Hc).
  - vm_compute; reflexivity.
  - intros _ u Hu. vm_compute in Hu. injection Hu as <-. split_and!; [reflexivity|discriminate|discriminate].
  - vm_compute in Hc. subst code. exists info. exact H.
Defined.

Lemma ended_conference_is_inert_witness :
  ending held_by_3.1 = false
  ∧ ending (@exec tcp_transports OpEnd held_by_3.1).1.1 = true
  ∧ @exec tcp_transports (OpAddUser 4) (@exec tcp_transports OpEnd held_by_3.1).1.1
    = ((@exec tcp_transports OpEnd held_by_3.1).1.1, [], []).
Proof.
  split; [vm_compute; reflexivity|].
  destruct (@ended_conference_is_inert tcp_transports 7 held_by_3.1 held_by_3.2
              (sample_reach [OpGrantFloorRequest 2])) as (He & _ & _ & _ & Hop).
  split; [exact He|apply Hop].
Defined.

Lemma transaction_ids_cycle_witness :
  Forall (λ t, 1 <= t <= 0xFFFF) (transaction_ids 3 (set_transactionCounter 0xFFFE (new_server 7))).
Proof. apply transaction_ids_cycle. unfold tc_ok. simpl. lia. Defined.

(** ** Two observations *)

(** User 3, removed and added again so that it has no transport, greets over transport 102, which
    carries user 2.  Both users now name transport 102, and its closing detaches user 2 only: user 3
    keeps the closed transport. *)
Definition shared : Server :=
  (sample [OpTransportClosed 103; OpMessageReceived hello_3 102]).1.

Theorem transport_carries_two_users :
  (u_transport <$> om_find 2 (users shared)) = Some (Some 102)
  ∧ (u_transport <$> om_find 3 (users shared)) = Some (Some 102)
  ∧ let s' := (@TransportClosed tcp_transports 102 shared).1.1.2 in
    (u_transport <$> om_find 2 (users s')) = Some None
    ∧ (u_transport <$> om_find 3 (users s')) = Some (Some 102).
Proof. vm_compute. split_and!; reflexivity. Qed.

(** Request number 65537 does not fit the 16-bit attribute: the participant reads request 1. *)
Theorem request_number_wraps_on_the_wire :
  let r := new_floor_request 65537 2 7 in
  match @Message_Serialize network_order (CreateFloorRequestStatus r 0) 1500 VersionReliable with
  | Some octs =>
      match @Message_Parse network_order octs with
      | Some m =>
          match msg_body m with
          | MsgFloorRequestStatus b => fri_floorRequestId <$> frst_floorRequestInformation b
          | _ => None
          end
      | None => None
      end
  | None => None
  end = Some 1.
Proof. vm_compute. reflexivity. Qed.
