(* ===== verification/BfcpAnswers.v ===== *)
(** * Every request is answered

    Whatever a participant asks, the server answers on the transport the request came
    from, with the R flag, the transaction id and the user id of the request.  The UDP
    leg relies on it: the answer it caches is what stops a repeated request from being
    served twice. *)

From S2P Require Import Prelude OrderedMap Wire BfcpAttr BfcpMsg BfcpServer BfcpFloorSpec BfcpServerRefine.
From S2P Require Import BfcpServerProps BfcpConference BfcpGuarantees.

Local Open Scope fcs_scope.

(** The answer to [msg]. *)
Definition answers (msg m : BFCPMessage) : Prop :=
  msg_responder m = true ∧ msg_transactionId m = msg_transactionId msg
  ∧ msg_userId m = msg_userId msg.

Definition answered (msg : BFCPMessage) (from : Z) (e : Env) : Prop :=
  ∃ m, CallSend from m ∈ wire e ∧ answers msg m.

Lemma answered_onward msg from e e' : onward e e' → answered msg from e → answered msg from e'.
Proof.
  intros [_ [w Hw]] (m & Hm & Ha). exists m. split; [|done]. rewrite Hw. apply elem_of_app. auto.
Qed.

(** Once it is answered, the rest of a program cannot undo it. *)
Lemma wp_answered {A} (m : M A) msg from e :
  keeps m → answered msg from e → wp m (λ _ e', answered msg from e') e.
Proof. intros Hk Ha. eapply answered_onward; [apply Hk|done]. Qed.

(** Messages that ask for nothing. *)
Definition is_reply (p : Primitive) : bool :=
  match p with
  | P_HelloAck | P_FloorRequestStatusAck | P_FloorStatusAck | P_GoodbyeAck | P_Error => true
  | _ => false
  end.

Lemma elem_snoc {A} (x : A) l : x ∈ l ++ [x].
Proof. apply elem_of_app. right. by apply list_elem_of_singleton. Qed.

Section Answers.
Context {T : TransportOps}.

Lemma SendMessage_answered msg from u m e :
  u_transport u = Some from → answers msg m →
  answered msg from (user_SendMessage u m e).2.
Proof.
  intros Ht Ha. unfold user_SendMessage. rewrite Ht. simpl. exists m. split; [apply elem_snoc|done].
Qed.

Lemma SendMessage_wp msg from u m e :
  u_transport u = Some from → answers msg m →
  wp (user_SendMessage u m) (λ _ e', answered msg from e') e.
Proof. apply SendMessage_answered. Qed.

Lemma Reply_wp msg from code info e :
  wp (ReplyErrorLocked msg (Some from) code info) (λ _ e', answered msg from e') e.
Proof. eexists. split; [apply elem_snoc|]. done. Qed.

Lemma SendFloorRequestStatus_wp msg from u r info e :
  om_find (msg_userId msg) (users (server e)) = Some u → u_transport u = Some from →
  wp (SendFloorRequestStatusLocked r (msg_transactionId msg) (msg_userId msg) info true)
    (λ _ e', answered msg from e') e.
Proof.
  intros Hu Ht. unfold SendFloorRequestStatusLocked, SendMessageLocked, wp, bind, GetUserLocked, gets.
  simpl. assert (msg_userId (if bool_decide (info = []) then
      SetResponder (SetUserId (CreateFloorRequestStatus r (msg_transactionId msg)) (msg_userId msg)) true
      else mkMessage (msg_transactionId msg) (r_conferenceId r) (msg_userId msg) VersionReliable true
        (MsgFloorRequestStatus (frst_SetDescription
          (frst_SetFloorRequestInformation (FloorRequestStatusMsg None) (CreateFloorRequestInformation r)) info)))
      = msg_userId msg) as E by by case_bool_decide.
  rewrite E, Hu. unfold user_SendMessage. rewrite Ht. simpl.
  eexists. split; [apply elem_snoc|]. by case_bool_decide.
Qed.

Lemma dispatch_answers msg from u e :
  Inv (server e) → om_find (msg_userId msg) (users (server e)) = Some u → u_transport u = Some from →
  is_reply (GetPrimitive msg) = false → IsValid (msg_body msg) = true →
  wp (dispatch msg from (msg_userId msg)) (λ _ e', answered msg from e') e.
Proof.
  intros HI Hu Ht Hp Hv. unfold dispatch.
  assert (u_userId u = msg_userId msg) as Hid by (apply (us_id (server e)), (inv_users _ HI); done).
  assert (∀ r, answers msg (SetResponder (new_message r (msg_transactionId msg)
                 (conferenceId (server e)) (msg_userId msg)) true)) as Hans by done.
  unfold GetPrimitive in Hp.
  destruct (msg_body msg) as [m|m|m|m|m| |m|m|[]] eqn:Hb; try apply Reply_wp; try done.
  - unfold ProcessFloorRequestLocked. wp_pure. unfold id at 1 2. wp_pure. rewrite Hu, Ht.
    case_match; [apply Reply_wp|]. case_match; [apply Reply_wp|]. wp_pure. wp_pure.
    apply wp_bind. eapply wp_mono; [by eapply SendFloorRequestStatus_wp|].
    intros ? e1 H1. apply wp_answered; [|done]. respects_solve; apply keeps_Grant.
  - destruct m as [[id|]]; [|done].
    unfold ProcessFloorReleaseLocked. simpl. wp_pure. rewrite Hu, Ht. wp_pure.
    destruct (om_find id (floorRequests (server e))) as [r|]; [|apply Reply_wp].
    case_match; [apply Reply_wp|]. case_match; [|apply Reply_wp]. wp_pure. rewrite Hid.
    apply wp_bind. eapply wp_mono; [by eapply SendFloorRequestStatus_wp|].
    intros ? e1 H1. apply wp_answered; [|done]. respects_solve.
  - unfold ProcessFloorQueryLocked. wp_pure. unfold id at 1 2. wp_pure. rewrite Hu, Ht.
    case_match; [apply Reply_wp|]. wp_pure.
    set (u' := foldl _ _ _). assert (u_transport u' = Some from) as Ht'.
    { destruct (queried_spec (fq_floorIds m) (user_ResetQueriedFloorIds u)) as (_ & _ & _ & E & _).
      etransitivity; [exact E|done]. }
    case_bool_decide as Hq.
    + apply wp_bind. eapply wp_mono; [by eapply SendMessage_wp|]. intros ? e1 H1. done.
    + destruct (u_queriedFloorIds u') as [|f fs]; [done|]. simpl.
      apply wp_bind. unfold answer_query. simpl. wp_pure. wp_pure. apply wp_bind.
      eapply wp_mono; [by eapply SendMessage_wp|]. intros ? e1 H1.
      apply wp_answered; [|done]. respects_solve.
  - unfold ProcessHelloLocked. wp_pure. wp_pure. rewrite Hu. apply wp_bind.
    eapply wp_mono; [by eapply SendMessage_wp|]. intros ? e1 H1.
    apply wp_answered; [|done]. respects_solve.
  - unfold ProcessGoodbyeLocked. wp_pure. wp_pure. rewrite Hu. apply wp_bind.
    eapply wp_mono; [by eapply SendMessage_wp|]. intros ? e1 H1.
    apply wp_answered; [|done]. respects_solve. apply keeps_RemoveUser.
Qed.

Lemma MessageReceived_answers msg from e :
  Inv (server e) → ending (server e) = false →
  is_reply (GetPrimitive msg) = false → IsValid (msg_body msg) = true →
  wp (MessageReceived_locked msg from) (λ _ e', answered msg from e') e.
Proof.
  intros HI He Hp Hv. unfold MessageReceived_locked. wp_pure. unfold id at 1. rewrite He.
  case_match; [apply Reply_wp|]. unfold id.
  destruct (om_find (msg_userId msg) (users (server e))) as [u|] eqn:Hu; [|apply Reply_wp].
  case_bool_decide as Ht; simpl; [by eapply dispatch_answers|]. case_match; [apply Reply_wp|].
  apply wp_bind. eapply wp_mono; [by apply Attach_wp|]. intros ? e1 (HR & _ & He1).
  pose proof (attach_result_user (msg_userId msg) from u (server e) HI Hu) as Hau.
  rewrite bool_decide_false in Hau by done.
  eapply dispatch_answers; [apply HR|by rewrite He1|done|done|done].
Qed.

(** C7. The server has an answer to every request: whatever message a running conference receives that
    has the attributes its primitive must have (the parser lets no other through) and is not itself an
    acknowledgement or an error, the server calls [Send] of the transport it came from with an answer that
    has the R flag, the transaction id and the user id of the request, be it a refusal.  That the transport
    can send it is not said: an answer that tells of 30 floors or more does not fit its attribute. *)
Theorem every_request_is_answered confId s ns msg from s' w ns' :
  reach confId s ns → ending s = false →
  is_reply (GetPrimitive msg) = false → IsValid (msg_body msg) = true →
  MessageReceived msg from s = (tt, s', w, ns') →
  ∃ m, CallSend from m ∈ w ∧ answers msg m.
Proof.
  intros H He Hp Hv Hr. destruct (reach_steps _ _ _ H) as [HI _].
  pose proof (MessageReceived_answers msg from (mkEnv s [] []) HI He Hp Hv) as Ha.
  unfold MessageReceived, run, wp in *. destruct (MessageReceived_locked msg from (mkEnv s [] [])) as [x e'].
  simpl in *. by simplify_eq.
Qed.
End Answers.

Lemma every_request_is_answered_witness :
  ∃ m, CallSend 101 m ∈ chair_takes.1.2 ∧ answers (floor_request 1 5 [10]) m.
Proof.
  apply (@every_request_is_answered tcp_transports 7 held_by_3.1 held_by_3.2 (floor_request 1 5 [10]) 101
           chair_takes.1.1.2 chair_takes.1.2 chair_takes.2 (sample_reach [OpGrantFloorRequest 2]));
    vm_compute; reflexivity.
Defined.
