(* ===== verification/BfcpLeg.v ===== *)
(** * A transport and the server together

    The server calls its transports ([Send], [Close]) and a transport calls the server
    ([MessageReceived], [TransportClosed]).  [Transport] is the interface
    [BFCPTransport] (src/mcu/include/bfcp/BFCPTransport.h) as the server uses it; a
    [Leg] is one transport, the server, and what the server told the listener and the
    other transports.  A call into the server runs to its end, and the calls it made
    on this transport are executed in their order: the server looks at no result of
    them on these paths. *)

From S2P Require Import Prelude OrderedMap BfcpAttr BfcpMsg BfcpServer.

Class Transport (E : Type) := {
  tx_Send : BFCPMessage → E → E;
  tx_Close : E → E;
}.

Record Leg (E : Type) := mkLeg {
  leg_endpoint : E;
  leg_server : Server;
  leg_told : list Notification;  (** what the listener was told *)
  leg_elsewhere : list WireCall; (** calls on the transports of other users *)
}.
Arguments mkLeg {E} _ _ _ _.
Arguments leg_endpoint {E} _.
Arguments leg_server {E} _.
Arguments leg_told {E} _.
Arguments leg_elsewhere {E} _.

Definition set_endpoint {E} (e : E) (l : Leg E) : Leg E :=
  mkLeg e (leg_server l) (leg_told l) (leg_elsewhere l).

Definition call_target (c : WireCall) : Z := match c with CallSend t _ | CallClose t => t end.

Section Leg.
Context {E : Type} {X : Transport E}.
(** The address of this transport, as the server knows it. *)
Context (this : Z).

Definition apply_call (e : E) (c : WireCall) : E :=
  match c with
  | CallSend t m => if t =? this then tx_Send m e else e
  | CallClose t => if t =? this then tx_Close e else e
  end.

Definition apply_result (e : E) (l : Leg E)
    (r : unit * Server * list WireCall * list Notification) : Leg E :=
  let '(_, s, w, ns) := r in
  mkLeg (foldl apply_call e w) s (leg_told l ++ ns)
    (leg_elsewhere l ++ List.filter (λ c, negb (call_target c =? this)) w).

(** A property of the transport that its own operations keep is kept by the server. *)
Lemma apply_calls_preserve (P : E → Prop) w e :
  (∀ m e, P e → P (tx_Send m e)) → (∀ e, P e → P (tx_Close e)) → P e → P (foldl apply_call e w).
Proof.
  intros Hs Hc. revert e. induction w as [|c w IH]; intros e He; simpl; [done|].
  apply IH. destruct c as [t m|t]; simpl; destruct (t =? this); auto.
Qed.

Lemma apply_calls_related (R : relation E) `{!PreOrder R} w e :
  (∀ m e, R e (tx_Send m e)) → (∀ e, R e (tx_Close e)) → R e (foldl apply_call e w).
Proof.
  intros Hs Hc. revert e. induction w as [|c w IH]; intros e; simpl; [done|].
  etrans; [|apply IH]. destruct c as [t m|t]; simpl; destruct (t =? this); done || auto.
Qed.
End Leg.
