(* ===== verification/BfcpUdp.v ===== *)
(** * The UDP leg of a participant

    [BFCPUdpEndpoint] (src/mcu/src/bfcp/BFCPUdpTransport.cpp): retransmission of
    what the server starts, replay of what it answered, latching on the peer's
    address.  The socket is a parameter ([SocketOps]); [ue_sent] records the
    [sendto] calls, whatever they returned.  [getTime()] and the reactor's clock are
    arguments; times are 64-bit microseconds.

    The calls into the floor control server leave through the result of [Dispatch]
    and [OnPeriodic]; the leg runs them against [BfcpServer], whose answers come
    back into [Send] on the same endpoint (see [BfcpLeg]). *)

From S2P Require Import Prelude OrderedMap Wire IpAddress BfcpAttr BfcpMsg BfcpServer BfcpLeg.

Definition T1InitialMs : Z := 500.
Definition T1GiveUpMs : Z := 16000.
Definition MaxDatagramLen : Z := 8192.

(** One message the server started, still unacknowledged. *)
Record UdpPending := mkPending {
  pd_transactionId : Z;
  pd_datagram : bytes;
  pd_dueUs : Z;
  pd_intervalMs : Z;
  pd_firstSentUs : Z;
}.

(** One answer, kept so that a repeated request gets it again. *)
Record UdpCached := mkCached {
  cd_transactionId : Z;
  cd_datagram : bytes;
  cd_expiresUs : Z;
}.

Record UdpEndpoint := mkUdp {
  ue_open : bool;               (** [fd != FD_INVALID] *)
  ue_port : Z;
  ue_userId : Z;
  ue_remote : IPEndpoint;
  ue_hasRemote : bool;
  ue_latched : bool;
  ue_peerVersion : Z;
  ue_nextTransactionId : Z;
  ue_pending : list UdpPending;
  ue_cache : list UdpCached;
  ue_finished : bool;
  ue_sent : list (IPEndpoint * bytes);
}.

(** What [socket], [bind] and [getsockname] gave: no socket, a port that cannot be bound, or a
    bound socket with its name, unless [getsockname] failed. *)
Inductive BindResult := NoSocket | BindFailed | Bound (name : option sockaddr).

(** [sendto] returns the size of the datagram; it may depend on all it was given. *)
Class SocketOps := { so_sendto : list (IPEndpoint * bytes) → bool }.

Definition new_udp (userId : Z) : UdpEndpoint :=
  mkUdp false 0 userId (mkIPEndpoint None) false false VersionUnreliable 0 [] [] false [].

(** [Open(port)]: the port bound, 0 on failure. *)
Definition udp_Open (port : Z) (r : BindResult) (e : UdpEndpoint) : Z * UdpEndpoint :=
  if ue_open e then (0, e)
  else
    match r with
    | NoSocket | BindFailed => (0, e)
    | Bound name =>
        let bound := match name with Some sa => PortOf sa | None => port end in
        (bound, mkUdp true bound (ue_userId e) (ue_remote e) (ue_hasRemote e) (ue_latched e)
                  (ue_peerVersion e) (ue_nextTransactionId e) (ue_pending e) (ue_cache e)
                  (ue_finished e) (ue_sent e))
    end.

(** [GetPollFds]: is the socket watched (for reading)? *)
Definition udp_GetPollFds (max : Z) (e : UdpEndpoint) : bool :=
  negb ((max <? 1) || ue_finished e || negb (ue_open e)).

Definition set_ue_remote (r : IPEndpoint) (latched : bool) (e : UdpEndpoint) : UdpEndpoint :=
  mkUdp (ue_open e) (ue_port e) (ue_userId e) r true latched (ue_peerVersion e) (ue_nextTransactionId e)
    (ue_pending e) (ue_cache e) (ue_finished e) (ue_sent e).
Definition set_ue_peerVersion (v : Z) (e : UdpEndpoint) : UdpEndpoint :=
  mkUdp (ue_open e) (ue_port e) (ue_userId e) (ue_remote e) (ue_hasRemote e) (ue_latched e) v
    (ue_nextTransactionId e) (ue_pending e) (ue_cache e) (ue_finished e) (ue_sent e).
Definition set_ue_nextTransactionId (t : Z) (e : UdpEndpoint) : UdpEndpoint :=
  mkUdp (ue_open e) (ue_port e) (ue_userId e) (ue_remote e) (ue_hasRemote e) (ue_latched e) (ue_peerVersion e)
    t (ue_pending e) (ue_cache e) (ue_finished e) (ue_sent e).
Definition set_ue_pending (p : list UdpPending) (e : UdpEndpoint) : UdpEndpoint :=
  mkUdp (ue_open e) (ue_port e) (ue_userId e) (ue_remote e) (ue_hasRemote e) (ue_latched e) (ue_peerVersion e)
    (ue_nextTransactionId e) p (ue_cache e) (ue_finished e) (ue_sent e).
Definition set_ue_cache (c : list UdpCached) (e : UdpEndpoint) : UdpEndpoint :=
  mkUdp (ue_open e) (ue_port e) (ue_userId e) (ue_remote e) (ue_hasRemote e) (ue_latched e) (ue_peerVersion e)
    (ue_nextTransactionId e) (ue_pending e) c (ue_finished e) (ue_sent e).
Definition set_ue_finished (b : bool) (e : UdpEndpoint) : UdpEndpoint :=
  mkUdp (ue_open e) (ue_port e) (ue_userId e) (ue_remote e) (ue_hasRemote e) (ue_latched e) (ue_peerVersion e)
    (ue_nextTransactionId e) (ue_pending e) (ue_cache e) b (ue_sent e).
Definition add_ue_sent (d : IPEndpoint * bytes) (e : UdpEndpoint) : UdpEndpoint :=
  mkUdp (ue_open e) (ue_port e) (ue_userId e) (ue_remote e) (ue_hasRemote e) (ue_latched e) (ue_peerVersion e)
    (ue_nextTransactionId e) (ue_pending e) (ue_cache e) (ue_finished e) (ue_sent e ++ [d]).

Definition udp_SetRemote (remote : IPEndpoint) (e : UdpEndpoint) : UdpEndpoint :=
  if ue_latched e then e else set_ue_remote remote (ue_latched e) e.

Definition udp_Finish (e : UdpEndpoint) : UdpEndpoint := set_ue_pending [] (set_ue_finished true e).

Definition udp_Close (e : UdpEndpoint) : UdpEndpoint := udp_Finish e.

Definition udp_GetPendingCount (e : UdpEndpoint) : Z := Zlen (ue_pending e).

(** [for (...) if (pending[i].transactionId == id) { erase; return; }] *)
Fixpoint ack_pending (id : Z) (l : list UdpPending) : list UdpPending :=
  match l with
  | [] => []
  | p :: l' => if pd_transactionId p =? id then l' else p :: ack_pending id l'
  end.

Definition AckLocked (id : Z) (e : UdpEndpoint) : UdpEndpoint :=
  set_ue_pending (ack_pending id (ue_pending e)) e.

Definition FindCachedLocked (id : Z) (e : UdpEndpoint) : option UdpCached :=
  find (λ c, cd_transactionId c =? id) (ue_cache e).

(** Replace the entry of the same transaction, or append. *)
Fixpoint cache_put (c : UdpCached) (l : list UdpCached) : list UdpCached :=
  match l with
  | [] => [c]
  | d :: l' => if cd_transactionId d =? cd_transactionId c then c :: l' else d :: cache_put c l'
  end.

(** A FloorRequestStatus that says Pending or Accepted is not retransmitted. *)
Definition is_intermediate (msg : BFCPMessage) : bool :=
  match msg_body msg with
  | MsgFloorRequestStatus m =>
      match frst_floorRequestInformation m with
      | Some info =>
          match fri_overallRequestStatus info with
          | Some overall =>
              match ors_requestStatus overall with
              | Some rs => bool_decide (rs_status rs = Pending) || bool_decide (rs_status rs = Accepted)
              | None => false
              end
          | None => false
          end
      | None => false
      end
  | _ => false
  end.

Section Udp.
Context {W : WireOps} {K : SocketOps}.

Definition SendDatagramLocked (data : bytes) (e : UdpEndpoint) : bool * UdpEndpoint :=
  let e' := add_ue_sent (ue_remote e, data) e in
  (so_sendto (ue_sent e'), e').

Definition udp_Send (msg : BFCPMessage) (now : Z) (e : UdpEndpoint) : bool * UdpEndpoint :=
  if ue_finished e || negb (ue_open e) then (false, e)
  else if negb (ue_hasRemote e) then (false, e)
  else
    match Message_Serialize msg MaxDatagramLen (ue_peerVersion e) with
    | None => (false, e)
    | Some datagram =>
        let (ok, e) := SendDatagramLocked datagram e in
        if negb ok then (false, e)
        else if msg_responder msg then
          let entry := mkCached (msg_transactionId msg) datagram (to_qword (now + T1GiveUpMs * 1000)) in
          (true, set_ue_cache (cache_put entry (ue_cache e)) e)
        else if is_intermediate msg then (true, e)
        else
          let transaction := mkPending (msg_transactionId msg) datagram
                               (to_qword (now + T1InitialMs * 1000)) T1InitialMs now in
          (true, set_ue_pending (ue_pending e ++ [transaction]) e)
    end.

Definition SendServerHello (confId now : Z) (e : UdpEndpoint) : bool * UdpEndpoint :=
  let t := Z.rem (ue_nextTransactionId e) 0xFFFF + 1 in
  let e := set_ue_nextTransactionId t e in
  udp_Send (new_message MsgHello t confId (ue_userId e)) now e.

(** The earlier of the next retransmission and the moment the peer is given up. *)
Definition deadline (p : UdpPending) : Z :=
  let giveUpUs := to_qword (pd_firstSentUs p + T1GiveUpMs * 1000) in
  if pd_dueUs p <? giveUpUs then pd_dueUs p else giveUpUs.

Definition soonest (l : list UdpPending) : Z :=
  foldl (λ soonestUs p,
    if (soonestUs =? 0) || (deadline p <? soonestUs) then deadline p else soonestUs) 0 l.

Definition udp_GetNextTimeoutMs (now : Z) (e : UdpEndpoint) : Z :=
  if ue_finished e || bool_decide (ue_pending e = []) then -1
  else
    let soonestUs := soonest (ue_pending e) in
    if soonestUs <=? now then 0
    else to_int32 (to_dword ((soonestUs - now) / 1000)).

(** ** Incoming datagrams *)

Definition is_ack (p : Primitive) : bool :=
  match p with
  | P_HelloAck | P_GoodbyeAck | P_FloorRequestStatusAck | P_FloorStatusAck | P_Error => true
  | _ => false
  end.

Definition is_closing_ack (p : Primitive) : bool :=
  match p with
  | P_HelloAck | P_GoodbyeAck | P_FloorRequestStatusAck | P_FloorStatusAck => true
  | _ => false
  end.

(** The endpoint, and the message handed to [server->MessageReceived], if any. *)
Definition udp_Dispatch (data : bytes) (e : UdpEndpoint) : UdpEndpoint * option BFCPMessage :=
  match Message_Parse data with
  | None => (e, None)
  | Some msg =>
      let transactionId := msg_transactionId msg in
      let e := set_ue_peerVersion (msg_version msg) e in
      if negb (msg_userId msg =? ue_userId e) then (e, None)
      else
        let e := if msg_responder msg then AckLocked transactionId e else e in
        let e := if is_ack (GetPrimitive msg) then AckLocked transactionId e else e in
        let '(replayed, e) :=
          if negb (msg_responder msg) then
            match FindCachedLocked transactionId e with
            | Some cached => (true, (SendDatagramLocked (cd_datagram cached) e).2)
            | None => (false, e)
            end
          else (false, e) in
        if replayed then (e, None)
        else if is_closing_ack (GetPrimitive msg) then (e, None)
        else (e, Some msg)
  end.

(** The address checks of [OnReadable]: latch on the first peer, drop the others. *)
Definition udp_accept (from : IPEndpoint) (e : UdpEndpoint) : option UdpEndpoint :=
  if negb (ue_latched e) then Some (set_ue_remote from true e)
  else if negb (endpoint_eqb from (ue_remote e)) then None
  else Some e.

(** ** The reactor's tick *)

(** The pass over [pending]: what stays, what is resent, whether something was given up. *)
Fixpoint sweep_pending (now : Z) (l : list UdpPending) : list UdpPending * list bytes * bool :=
  match l with
  | [] => ([], [], false)
  | p :: l' =>
      let '(rest, resend, givenUp) := sweep_pending now l' in
      if to_qword (pd_firstSentUs p + T1GiveUpMs * 1000) <=? now then (rest, resend, true)
      else if now <? pd_dueUs p then (p :: rest, resend, givenUp)
      else
        let intervalMs := to_qword (pd_intervalMs p * 2) in
        (mkPending (pd_transactionId p) (pd_datagram p) (to_qword (now + to_qword (intervalMs * 1000)))
           intervalMs (pd_firstSentUs p) :: rest,
         pd_datagram p :: resend, givenUp)
  end.

Definition resend_all (l : list bytes) (e : UdpEndpoint) : UdpEndpoint :=
  foldl (λ e d, (SendDatagramLocked d e).2) e l.

(** The endpoint, and whether [server->TransportClosed] is called. *)
Definition udp_OnPeriodic (now : Z) (e : UdpEndpoint) : UdpEndpoint * bool :=
  if ue_finished e then (e, false)
  else
    let '(pending, toResend, givenUp) := sweep_pending now (ue_pending e) in
    let e := resend_all toResend (set_ue_pending pending e) in
    (set_ue_cache (List.filter (λ c, negb (cd_expiresUs c <=? now)) (ue_cache e)) e, givenUp).

Definition udp_OnPollError (e : UdpEndpoint) : UdpEndpoint * bool := (udp_Finish e, true).
End Udp.

(** ** The endpoint and the server together *)

Abbreviation UdpLeg := (Leg UdpEndpoint).

(** The endpoint as the server's transport, when the clock shows [now]. *)
Definition udp_at {W : WireOps} {K : SocketOps} (now : Z) : Transport UdpEndpoint := {|
  tx_Send := λ m e, (udp_Send m now e).2;
  tx_Close := udp_Close;
|}.

Section Leg.
Context {W : WireOps} {K : SocketOps} {T : TransportOps}.
Context (this : Z).

(** [OnReadable]: the datagrams the socket holds, until it would block. *)
Fixpoint udp_OnReadable (now : Z) (datagrams : list (IPEndpoint * bytes)) (l : UdpLeg) : UdpLeg :=
  match datagrams with
  | [] => l
  | (from, data) :: rest =>
      if ue_finished (leg_endpoint l) then l
      else
        match udp_accept from (leg_endpoint l) with
        | None => udp_OnReadable now rest l
        | Some e =>
            match udp_Dispatch data e with
            | (e, None) => udp_OnReadable now rest (set_endpoint e l)
            | (e, Some msg) =>
                udp_OnReadable now rest (apply_result (X := udp_at now) this e l (MessageReceived msg this (leg_server l)))
            end
        end
  end.

Definition udp_tick (now : Z) (l : UdpLeg) : UdpLeg :=
  match udp_OnPeriodic now (leg_endpoint l) with
  | (e, false) => set_endpoint e l
  | (e, true) => apply_result (X := udp_at now) this e l (TransportClosed this (leg_server l))
  end.

Definition udp_poll_error (now : Z) (l : UdpLeg) : UdpLeg :=
  let (e, _) := udp_OnPollError (leg_endpoint l) in
  apply_result (X := udp_at now) this e l (TransportClosed this (leg_server l)).
End Leg.
