(* ===== verification/BfcpUdpClaims.v ===== *)
(** * BFCP over UDP: what it guarantees

    Retransmission is bounded and always comes to an end; the reactor is woken in
    time; a repeated request is answered with the same octets and never reaches the
    server; the peer is latched once.

    Bounded retransmission, transactions that end, the latched peer, requests served once;
    and the witnesses, a leg on a socket that works in a small conference. *)

From S2P Require Import Prelude OrderedMap Wire IpAddress BfcpAttr BfcpMsg BfcpServer BfcpLeg BfcpUdp BfcpFloorSpec BfcpServerRefine BfcpServerProps BfcpConference BfcpGuarantees BfcpAnswers.

(** ** Times *)

(** A clock value far from the end of the 64-bit range (about 146,000 years). *)
Definition clock (t : Z) : Prop := 0 <= t < 2 ^ 62.

Lemma to_qword_id z : 0 <= z < 2 ^ 64 → to_qword z = z.
Proof. apply Z.mod_small. Qed.

(** ** Retransmission *)

(** [p] was retransmitted [k] times. *)
Record retried (k : Z) (p : UdpPending) : Prop := {
  rt_range : 0 <= k <= 5;
  rt_clock : clock (pd_firstSentUs p);
  rt_interval : pd_intervalMs p = T1InitialMs * 2 ^ k;
  rt_due : pd_firstSentUs p + T1InitialMs * 1000 * (2 ^ (k + 1) - 1) <= pd_dueUs p;
}.

(** What [Send] queues. *)
Definition fresh (p : UdpPending) : Prop :=
  clock (pd_firstSentUs p) ∧ pd_intervalMs p = T1InitialMs
  ∧ pd_dueUs p = to_qword (pd_firstSentUs p + T1InitialMs * 1000).

Lemma fresh_retried p : fresh p → retried 0 p.
Proof.
  intros (Hc & Hi & Hd). unfold clock in *. split; [lia|done|by rewrite Hi|].
  rewrite Hd, to_qword_id; unfold T1InitialMs; lia.
Qed.

Lemma pow2_5 k : 0 <= k → 2 ^ (k + 1) - 1 < 32 → k <= 4.
Proof.
  intros Hk H. destruct (Z.le_gt_cases k 4); [done|].
  pose proof (Z.pow_le_mono_r 2 6 (k + 1) ltac:(lia) ltac:(lia)). lia.
Qed.

Lemma retried_next k p now :
  retried k p → clock now →
  pd_dueUs p <= now → now < pd_firstSentUs p + T1GiveUpMs * 1000 →
  k <= 4 ∧
  retried (k + 1) (mkPending (pd_transactionId p) (pd_datagram p)
                     (to_qword (now + to_qword (to_qword (pd_intervalMs p * 2) * 1000)))
                     (to_qword (pd_intervalMs p * 2)) (pd_firstSentUs p)).
Proof.
  intros [Hk Hc Hi Hd] Hn Hdue Hgive. unfold clock, T1GiveUpMs, T1InitialMs in *.
  assert (k <= 4) as Hk4 by (apply pow2_5; [lia|]; lia). split; [done|].
  assert (2 ^ (k + 1) = 2 * 2 ^ k) as E by (rewrite Z.pow_add_r; lia).
  pose proof (Z.pow_le_mono_r 2 k 4 ltac:(lia) ltac:(lia)) as Hpow.
  pose proof (Z.pow_pos_nonneg 2 k ltac:(lia) ltac:(lia)).
  assert (2 ^ (k + 1 + 1) = 4 * 2 ^ k) as E2 by (rewrite Z.pow_add_r by lia; lia).
  change (2 ^ 4) with 16 in Hpow.
  rewrite Hi, !(to_qword_id (500 * 2 ^ k * 2)), (to_qword_id (500 * 2 ^ k * 2 * 1000)), to_qword_id by lia.
  split; simpl; unfold clock, T1InitialMs; [lia|done|lia|]. rewrite E2. lia.
Qed.

(** What a pass gives up. *)
Definition expired (now : Z) (p : UdpPending) : bool :=
  to_qword (pd_firstSentUs p + T1GiveUpMs * 1000) <=? now.

(** How often each message of [pending] was sent again: a pass counts one more for those that are due. *)
Fixpoint sweep_counts (now : Z) (l : list UdpPending) (ks : list Z) : list Z :=
  match l, ks with
  | p :: l, k :: ks =>
      if expired now p then sweep_counts now l ks
      else (if now <? pd_dueUs p then k else k + 1) :: sweep_counts now l ks
  | _, _ => []
  end.

Lemma sweep_counts_retried now l ks :
  clock now → Forall2 retried ks l → Forall2 retried (sweep_counts now l ks) (sweep_pending now l).1.1.
Proof.
  intros Hn H. induction H as [|k p ks l Hp H IH]; cbn [sweep_counts sweep_pending]; [constructor|].
  destruct (sweep_pending now l) as [[rest resend] g]. cbn [fst snd] in *. fold (expired now p). destruct (expired now p) eqn:E; [done|].
  pose proof Hp as [_ Hc _ _]. unfold expired in E. rewrite to_qword_id in E by (unfold clock, T1GiveUpMs in *; lia). apply Z.leb_gt in E.
  destruct (Z.ltb_spec now (pd_dueUs p)); constructor; try done. by apply (retried_next k p now Hp Hn).
Qed.

Lemma sweep_givenUp now l :
  (sweep_pending now l).2 = existsb (expired now) l
  ∧ (pd_transactionId <$> (sweep_pending now l).1.1)
    = (pd_transactionId <$> List.filter (λ p, negb (expired now p)) l)
  ∧ Forall (λ p, expired now p = false) (sweep_pending now l).1.1.
Proof.
  induction l as [|p l (IH1 & IH2 & IH3)]; simpl; [done|].
  destruct (sweep_pending now l) as [[rest resend] g]. simpl in *. fold (expired now p).
  destruct (expired now p) eqn:E; simpl; [auto|].
  destruct (now <? pd_dueUs p); simpl; rewrite IH1;
    (split; [done|split; [exact (f_equal (cons _) IH2)|by constructor]]).
Qed.

(** ** The reactor's timeout *)

(** Entries whose clock makes sense at [now]: sent before, not yet expired by more than the wait. *)
Definition timed (now : Z) (p : UdpPending) : Prop :=
  clock (pd_firstSentUs p) ∧ pd_firstSentUs p <= now ∧ 0 < pd_dueUs p.

Lemma deadline_bounds now p : timed now p → clock now → 0 < deadline p <= now + T1GiveUpMs * 1000.
Proof.
  unfold timed, deadline, clock, T1GiveUpMs. intros (Hc & Hf & Hd) Hn.
  rewrite to_qword_id by lia. destruct (Z.ltb_spec (pd_dueUs p) (pd_firstSentUs p + 16000 * 1000)); lia.
Qed.

Definition soonest_from (s : Z) (l : list UdpPending) : Z :=
  foldl (λ soonestUs p,
    if (soonestUs =? 0) || (deadline p <? soonestUs) then deadline p else soonestUs) s l.

Lemma soonest_from_spec s l :
  0 < s → Forall (λ p, 0 < deadline p) l →
  0 < soonest_from s l <= s
  ∧ (∀ p, p ∈ l → soonest_from s l <= deadline p)
  ∧ (soonest_from s l = s ∨ ∃ p, p ∈ l ∧ soonest_from s l = deadline p).
Proof.
  revert s. induction l as [|p l IH]; intros s Hs Hl; simpl.
  { split_and!; [lia..|set_solver|auto]. }
  apply Forall_cons in Hl as [Hp Hl]. rewrite (proj2 (Z.eqb_neq s 0)) by lia. simpl.
  destruct (Z.ltb_spec (deadline p) s).
  - destruct (IH (deadline p)) as (H3 & H4 & H5); [done..|]. split_and!; [lia..| |].
    + intros q [->|Hq]%elem_of_cons; [lia|auto].
    + right. destruct H5 as [H5|(q & Hq & H5)]; [exists p|exists q]; rewrite elem_of_cons; auto.
  - destruct (IH s) as (H3 & H4 & H5); [done..|]. split_and!; [lia..| |].
    + intros q [->|Hq]%elem_of_cons; [lia|auto].
    + destruct H5 as [H5|(q & Hq & H5)]; [by left|right; exists q; rewrite elem_of_cons; auto].
Qed.

Lemma soonest_spec p l :
  Forall (λ p, 0 < deadline p) (p :: l) →
  (∀ q, q ∈ p :: l → soonest (p :: l) <= deadline q) ∧ ∃ q, q ∈ p :: l ∧ soonest (p :: l) = deadline q.
Proof.
  rewrite Forall_cons. intros [Hp Hl]. unfold soonest. simpl. fold (soonest_from (deadline p) l).
  destruct (soonest_from_spec (deadline p) l) as (H3 & H4 & H5); [done..|]. split.
  - intros q [->|Hq]%elem_of_cons; [lia|auto].
  - destruct H5 as [H5|(q & Hq & H5)]; [exists p|exists q]; rewrite elem_of_cons; auto.
Qed.

(** ** Answers *)


Lemma cache_put_elem c l x :
  x ∈ (cd_transactionId <$> cache_put c l) → x = cd_transactionId c ∨ x ∈ (cd_transactionId <$> l).
Proof.
  induction l as [|d l IH]; cbn [cache_put]; [rewrite fmap_cons, elem_of_cons; tauto|].
  destruct (cd_transactionId d =? cd_transactionId c); rewrite !fmap_cons, !elem_of_cons; tauto.
Qed.

Lemma cache_put_ids c l :
  NoDup (cd_transactionId <$> l) → NoDup (cd_transactionId <$> cache_put c l).
Proof.
  induction l as [|d l IH]; [intros; apply NoDup_singleton|].
  rewrite fmap_cons, NoDup_cons. intros [Hd Hl]. simpl.
  destruct (Z.eqb_spec (cd_transactionId d) (cd_transactionId c)) as [E|Hne]; apply NoDup_cons.
  - by rewrite <- E.
  - split; [|auto]. intros [?|?]%cache_put_elem; done.
Qed.

(** ** What an endpoint keeps *)

Record udp_ok (e : UdpEndpoint) : Prop := {
  uo_cache : NoDup (cd_transactionId <$> ue_cache e);
  uo_finished : ue_finished e = true → ue_pending e = [];
  uo_retried : ∃ ks, Forall2 retried ks (ue_pending e);
  uo_latched : ue_latched e = true → ue_hasRemote e = true;
  uo_version : ue_peerVersion e = VersionReliable ∨ ue_peerVersion e = VersionUnreliable;
}.

(** The identity of the leg: the user it serves and, once latched, the peer. *)
Record same_peer (e e' : UdpEndpoint) : Prop := {
  sp_user : ue_userId e' = ue_userId e;
  sp_open : ue_open e' = ue_open e;
  sp_remote : ue_remote e' = ue_remote e;
  sp_hasRemote : ue_hasRemote e' = ue_hasRemote e;
  sp_latched : ue_latched e' = ue_latched e;
}.

#[global] Instance same_peer_preorder : PreOrder same_peer.
Proof. split; [by intros e|]. intros e1 e2 e3 [] []. split; congruence. Qed.

Lemma new_udp_ok userId : udp_ok (new_udp userId).
Proof.
  split; simpl; try done; [apply NoDup_nil_2|by exists []|by right].
Qed.

Lemma udp_Open_ok port r e : udp_ok e → udp_ok (udp_Open port r e).2.
Proof. intros []. unfold udp_Open. destruct (ue_open e); [done|]. destruct r; done. Qed.

Lemma ack_pending_retried id l ks :
  Forall2 retried ks l → ∃ ks', Forall2 retried ks' (ack_pending id l).
Proof.
  induction 1 as [|k p ks l Hp H [ks' IH]]; simpl; [by exists []|].
  destruct (pd_transactionId p =? id); [by exists ks|]. exists (k :: ks'). by constructor.
Qed.

Lemma AckLocked_ok id e : udp_ok e → udp_ok (AckLocked id e).
Proof.
  intros [Hc Hf [ks Hr] Hl Hv]. split; simpl; auto.
  - intros Hfin. by rewrite Hf.
  - by eapply ack_pending_retried.
Qed.

Section Endpoint.
Context {W : WireOps} {K : SocketOps}.

Lemma add_sent_ok d e : udp_ok e → udp_ok (add_ue_sent d e).
Proof. intros []. by split. Qed.

Lemma udp_Send_ok msg now e : clock now → udp_ok e → udp_ok (udp_Send msg now e).2.
Proof.
  intros Hn Hok. unfold udp_Send.
  destruct (ue_finished e) eqn:Hfin; simpl; [done|]. destruct (ue_open e); simpl; [|done].
  destruct (ue_hasRemote e); simpl; [|done].
  destruct (Message_Serialize msg MaxDatagramLen (ue_peerVersion e)) as [dg|]; [|done].
  unfold SendDatagramLocked. simpl.
  destruct (so_sendto (ue_sent e ++ [(ue_remote e, dg)])); simpl; [|by apply add_sent_ok].
  destruct (add_sent_ok (ue_remote e, dg) e Hok) as [Hc Hf [ks Hr] Hl Hv]. simpl in *.
  destruct (msg_responder msg); simpl; [|destruct (is_intermediate msg); simpl].
  - split; simpl; eauto using cache_put_ids.
  - by split; eauto.
  - split; simpl; auto; [by rewrite Hfin|]. exists (ks ++ [0]). apply Forall2_app; [done|].
    constructor; [|constructor]. apply fresh_retried. by split_and!.
Qed.

Lemma udp_Send_peer msg now e : same_peer e (udp_Send msg now e).2.
Proof.
  unfold udp_Send. destruct (ue_finished e || negb (ue_open e)); [done|].
  destruct (negb (ue_hasRemote e)); [done|].
  destruct (Message_Serialize msg MaxDatagramLen (ue_peerVersion e)) as [dg|]; [|done].
  unfold SendDatagramLocked. simpl.
  destruct (so_sendto (ue_sent e ++ [(ue_remote e, dg)])); simpl; [|done].
  destruct (msg_responder msg); [done|]. by destruct (is_intermediate msg).
Qed.

Lemma udp_Close_ok e : udp_ok e → udp_ok (udp_Close e).
Proof. intros []. split; simpl; auto. by exists []. Qed.

Lemma filter_cache_ids (f : UdpCached → bool) l :
  NoDup (cd_transactionId <$> l) → NoDup (cd_transactionId <$> List.filter f l).
Proof.
  induction l as [|c l IH]; [done|]. rewrite fmap_cons, NoDup_cons. intros [Hc Hl]. simpl.
  destruct (f c); [|auto]. apply NoDup_cons. split; [|auto].
  intros Hin. apply Hc. apply list_elem_of_fmap in Hin as (d & E & Hd).
  apply list_elem_of_fmap. exists d. split; [done|].
  apply list_elem_of_In, filter_In in Hd as [Hd _]. by apply list_elem_of_In.
Qed.

Lemma resend_all_ok l e : udp_ok e → udp_ok (resend_all l e).
Proof. revert e. induction l as [|d l IH]; intros e H; simpl; [done|]. by apply IH, add_sent_ok. Qed.

Lemma resend_all_frame l e :
  same_peer e (resend_all l e) ∧ ue_pending (resend_all l e) = ue_pending e
  ∧ ue_cache (resend_all l e) = ue_cache e ∧ ue_finished (resend_all l e) = ue_finished e
  ∧ ue_sent (resend_all l e) = ue_sent e ++ ((ue_remote e,.) <$> l).
Proof.
  revert e. induction l as [|d l IH]; intros e; simpl; [by rewrite app_nil_r|].
  destruct (IH (add_ue_sent (ue_remote e, d) e)) as ([] & -> & -> & -> & ->).
  split_and!; [by split|done..|]. simpl. by rewrite <- app_assoc.
Qed.

Lemma udp_OnPeriodic_ok now e : clock now → udp_ok e → udp_ok (udp_OnPeriodic now e).1.
Proof.
  intros Hn Hok. unfold udp_OnPeriodic. destruct (ue_finished e) eqn:Hfin; [done|].
  destruct Hok as [Hc Hf [ks Hr] Hl Hv].
  pose proof (sweep_counts_retried now (ue_pending e) ks Hn Hr) as Hr'.
  destruct (sweep_pending now (ue_pending e)) as [[pend rs] g]. simpl in *.
  assert (udp_ok (resend_all rs (set_ue_pending pend e))) as [Hc' Hf' Hr'' Hl' Hv'].
  { apply resend_all_ok. split; simpl; eauto. by rewrite Hfin. }
  split; simpl; auto using filter_cache_ids.
Qed.

Lemma udp_OnPeriodic_peer now e : same_peer e (udp_OnPeriodic now e).1.
Proof.
  unfold udp_OnPeriodic. destruct (ue_finished e); [done|].
  destruct (sweep_pending now (ue_pending e)) as [[pend rs] g]. simpl.
  destruct (resend_all_frame rs (set_ue_pending pend e)) as [[] _]. by split.
Qed.

Lemma Message_Parse_version data msg :
  Message_Parse data = Some msg → msg_version msg = VersionReliable ∨ msg_version msg = VersionUnreliable.
Proof.
  unfold Message_Parse. case_match; [done|]. case_match eqn:Hv; [done|]. case_match; [done|].
  case_match; [done|]. case_match; [|done]. case_match; [|done]. intros; simplify_eq/=.
  apply andb_false_iff in Hv as [Hv|Hv]; ztests; auto.
Qed.

Lemma peerVersion_ok v e :
  v = VersionReliable ∨ v = VersionUnreliable → udp_ok e → udp_ok (set_ue_peerVersion v e).
Proof. intros Hv []. by split. Qed.

Lemma udp_Dispatch_ok data e :
  udp_ok e → udp_ok (udp_Dispatch data e).1 ∧ same_peer e (udp_Dispatch data e).1.
Proof.
  intros Hok. unfold udp_Dispatch. destruct (Message_Parse data) as [msg|] eqn:Hp; [|done].
  pose proof (Message_Parse_version data msg Hp) as Hv. cbv zeta.
  assert (udp_ok (set_ue_peerVersion (msg_version msg) e)
          ∧ same_peer e (set_ue_peerVersion (msg_version msg) e)) as [H1 P1]
    by (split; [by apply peerVersion_ok|by split]).
  case_match; [done|].
  set (e2 := if msg_responder msg then _ else _).
  assert (udp_ok e2 ∧ same_peer e e2) as [H2 P2].
  { unfold e2. destruct (msg_responder msg); [|done]. split; [by apply AckLocked_ok|].
    etrans; [exact P1|by split]. }
  set (e3 := if is_ack (GetPrimitive msg) then _ else _).
  assert (udp_ok e3 ∧ same_peer e e3) as [H3 P3].
  { unfold e3. destruct (is_ack (GetPrimitive msg)); [|done]. split; [by apply AckLocked_ok|].
    etrans; [exact P2|by split]. }
  clearbody e2 e3.
  destruct (msg_responder msg); simpl; [by case_match|].
  destruct (FindCachedLocked (msg_transactionId msg) e3) as [c|]; simpl; [|by case_match].
  split; [by apply add_sent_ok|]. etrans; [exact P3|by split].
Qed.

(** A request that was answered: the same octets again, and nothing for the server. *)
Lemma udp_Dispatch_replay data e msg c :
  Message_Parse data = Some msg → msg_responder msg = false → is_ack (GetPrimitive msg) = false →
  msg_userId msg = ue_userId e → FindCachedLocked (msg_transactionId msg) e = Some c →
  udp_Dispatch data e
  = (add_ue_sent (ue_remote e, cd_datagram c) (set_ue_peerVersion (msg_version msg) e), None).
Proof.
  intros Hp Hr Ha Hu Hc. unfold udp_Dispatch. rewrite Hp. cbv zeta. simpl.
  rewrite Hu, Z.eqb_refl, Hr, Ha. simpl. unfold FindCachedLocked in *. simpl. rewrite Hc. done.
Qed.

Lemma udp_accept_ok from e e' : udp_ok e → udp_accept from e = Some e' → udp_ok e'.
Proof.
  intros Hok. unfold udp_accept. destruct (ue_latched e) eqn:Hl; simpl.
  - case_match; intros; by simplify_eq.
  - intros; simplify_eq. destruct Hok. by split.
Qed.

Lemma udp_accept_latched from e e' :
  ue_latched e = true → udp_accept from e = Some e' → e' = e ∧ endpoint_eqb from (ue_remote e) = true.
Proof. unfold udp_accept. intros ->. simpl. case_match eqn:E; [done|]. intros; simplify_eq. by ztests. Qed.
End Endpoint.

Section LegProps.
Context {W : WireOps} {K : SocketOps} {T : TransportOps}.
Context (this : Z).

Lemma apply_calls_ok now w e :
  clock now → udp_ok e →
  udp_ok (foldl (apply_call (X := udp_at now) this) e w)
  ∧ same_peer e (foldl (apply_call (X := udp_at now) this) e w).
Proof.
  intros Hn Hok. split.
  - apply apply_calls_preserve; [intros; by apply udp_Send_ok|intros; by apply udp_Close_ok|done].
  - apply apply_calls_related; [apply _|intros; apply udp_Send_peer|intros; by split].
Qed.

Lemma apply_result_ok now e l r :
  clock now → udp_ok e →
  udp_ok (leg_endpoint (apply_result (X := udp_at now) this e l r)) ∧ same_peer e (leg_endpoint (apply_result (X := udp_at now) this e l r)).
Proof. intros Hn Hok. destruct r as [[[x s] w] ns]. simpl. by apply apply_calls_ok. Qed.

(** Latching: the peer is the first that spoke, for good. *)
Definition latched_on (r : IPEndpoint) (e : UdpEndpoint) : Prop := ue_latched e = true ∧ ue_remote e = r.

Lemma latched_same r e e' : same_peer e e' → latched_on r e → latched_on r e'.
Proof. intros [] [? ?]. split; congruence. Qed.

Lemma udp_OnReadable_ok now ds l :
  clock now → udp_ok (leg_endpoint l) →
  udp_ok (leg_endpoint (udp_OnReadable this now ds l))
  ∧ ue_userId (leg_endpoint (udp_OnReadable this now ds l)) = ue_userId (leg_endpoint l)
  ∧ ∀ r, latched_on r (leg_endpoint l) → latched_on r (leg_endpoint (udp_OnReadable this now ds l)).
Proof.
  intros Hn. revert l. induction ds as [|[from data] ds IH]; intros l Hok; simpl; [done|].
  case_match; [done|]. destruct (udp_accept from (leg_endpoint l)) as [e|] eqn:Ha; [|by apply IH].
  pose proof (udp_accept_ok _ _ _ Hok Ha) as He.
  assert (ue_userId e = ue_userId (leg_endpoint l)) as Hu.
  { unfold udp_accept in Ha. case_match; simplify_eq; [done|]. by case_match; simplify_eq. }
  assert (∀ r, latched_on r (leg_endpoint l) → latched_on r e) as Hla.
  { intros r [Hl Hr]. by destruct (udp_accept_latched _ _ _ Hl Ha) as [-> _]. }
  destruct (udp_Dispatch_ok data e He) as [H1 P1].
  destruct (udp_Dispatch data e) as [e1 [msg|]]; simpl in *.
  - destruct (apply_result_ok now e1 l (MessageReceived msg this (leg_server l)) Hn H1) as [H2 P2].
    destruct (IH _ H2) as (H3 & U3 & L3). split; [done|]. split.
    + by rewrite U3, (sp_user _ _ P2), (sp_user _ _ P1).
    + intros r Hr. by eapply L3, latched_same, latched_same, Hla.
  - destruct (IH (set_endpoint e1 l) H1) as (H3 & U3 & L3). split; [done|]. split.
    + simpl in U3. by rewrite U3, (sp_user _ _ P1).
    + intros r Hr. by eapply L3, latched_same, Hla.
Qed.

Lemma udp_tick_ok now l :
  clock now → udp_ok (leg_endpoint l) →
  udp_ok (leg_endpoint (udp_tick this now l)) ∧ same_peer (leg_endpoint l) (leg_endpoint (udp_tick this now l)).
Proof.
  intros Hn Hok. unfold udp_tick.
  pose proof (udp_OnPeriodic_ok now _ Hn Hok) as H1. pose proof (udp_OnPeriodic_peer now (leg_endpoint l)) as P1.
  destruct (udp_OnPeriodic now (leg_endpoint l)) as [e [|]]; simpl in *; [|done].
  destruct (apply_result_ok now e l (TransportClosed this (leg_server l)) Hn H1) as [H2 P2].
  split; [done|by etrans].
Qed.
End LegProps.

(** ** Runs of an endpoint *)

Section Runs.
Context {W : WireOps} {K : SocketOps} {T : TransportOps}.

(** All that can happen to an endpoint: calls of the conference and of the server, datagrams, ticks. *)
Inductive UdpEvent :=
  | EvOpen (port : Z) (r : BindResult)
  | EvSetRemote (remote : IPEndpoint)
  | EvSend (msg : BFCPMessage) (now : Z)
  | EvServerHello (confId now : Z)
  | EvDatagram (from : IPEndpoint) (data : bytes)
  | EvTick (now : Z)
  | EvClose
  | EvPollError.

Definition udp_event (ev : UdpEvent) (e : UdpEndpoint) : UdpEndpoint :=
  match ev with
  | EvOpen port r => (udp_Open port r e).2
  | EvSetRemote remote => udp_SetRemote remote e
  | EvSend msg now => (udp_Send msg now e).2
  | EvServerHello confId now => (SendServerHello confId now e).2
  | EvDatagram from data =>
      if ue_finished e then e else
      match udp_accept from e with Some e => (udp_Dispatch data e).1 | None => e end
  | EvTick now => (udp_OnPeriodic now e).1
  | EvClose => udp_Close e
  | EvPollError => (udp_OnPollError e).1
  end.

Fixpoint ack_counts (id : Z) (l : list UdpPending) (ks : list Z) : list Z :=
  match l, ks with
  | p :: l, k :: ks => if pd_transactionId p =? id then ks else k :: ack_counts id l ks
  | _, _ => []
  end.

Definition count_event (ev : UdpEvent) (e : UdpEndpoint) (ks : list Z) : list Z :=
  match ev with
  | EvOpen _ _ | EvSetRemote _ => ks
  | EvSend _ _ | EvServerHello _ _ => ks ++ replicate (length (ue_pending (udp_event ev e)) - length (ue_pending e)) 0
  | EvDatagram from data =>
      if ue_finished e then ks else
      match udp_accept from e, Message_Parse data with
      | Some _, Some msg =>
          if negb (msg_userId msg =? ue_userId e) then ks else
          let id := msg_transactionId msg in
          let '(l, ks) := if msg_responder msg then (ack_pending id (ue_pending e), ack_counts id (ue_pending e) ks) else (ue_pending e, ks) in
          if is_ack (GetPrimitive msg) then ack_counts id l ks else ks
      | _, _ => ks
      end
  | EvTick now => if ue_finished e then ks else sweep_counts now (ue_pending e) ks
  | EvClose | EvPollError => []
  end.

Fixpoint udp_life (evs : list UdpEvent) (e : UdpEndpoint) (ks : list Z) : UdpEndpoint * list Z :=
  match evs with
  | [] => (e, ks)
  | ev :: evs => udp_life evs (udp_event ev e) (count_event ev e ks)
  end.

Definition event_clock (ev : UdpEvent) : Prop :=
  match ev with EvSend _ now | EvServerHello _ now | EvTick now => clock now | _ => True end.

Lemma ack_counts_retried id l ks : Forall2 retried ks l → Forall2 retried (ack_counts id l ks) (ack_pending id l).
Proof.
  induction 1 as [|k p ks l Hp H IH]; cbn [ack_counts ack_pending]; [constructor|]. destruct (pd_transactionId p =? id); [done|by constructor].
Qed.

Lemma udp_Send_counts msg now e ks :
  clock now → Forall2 retried ks (ue_pending e) →
  Forall2 retried (ks ++ replicate (length (ue_pending (udp_Send msg now e).2) - length (ue_pending e)) 0) (ue_pending (udp_Send msg now e).2).
Proof.
  intros Hn Hr. assert (Forall2 retried (ks ++ replicate (length (ue_pending e) - length (ue_pending e)) 0) (ue_pending e)) as Hsame
    by (by rewrite Nat.sub_diag, app_nil_r).
  unfold udp_Send. destruct (_ || _); [done|]. destruct (negb _); [done|]. destruct (Message_Serialize _ _ _) as [dg|]; [|done].
  unfold SendDatagramLocked. simpl. destruct (so_sendto _); simpl; [|done]. destruct (msg_responder msg); [done|]. destruct (is_intermediate msg); [done|]. simpl.
  rewrite length_app. simpl. replace (length (ue_pending e) + 1 - length (ue_pending e))%nat with 1%nat by lia.
  apply Forall2_app; [done|]. constructor; [|constructor]. apply fresh_retried. by split_and!.
Qed.

Lemma count_event_retried ev e ks :
  event_clock ev → Forall2 retried ks (ue_pending e) → Forall2 retried (count_event ev e ks) (ue_pending (udp_event ev e)).
Proof.
  intros Hn Hr. destruct ev as [port r|remote|msg now|confId now|from data|now| |]; cbn [event_clock count_event udp_event] in *.
  - unfold udp_Open. destruct (ue_open e); [done|]. by destruct r.
  - unfold udp_SetRemote. by destruct (ue_latched e).
  - by apply udp_Send_counts.
  - unfold SendServerHello. cbv zeta. set (e0 := set_ue_nextTransactionId _ e). exact (udp_Send_counts _ now e0 ks Hn Hr).
  - destruct (ue_finished e); [done|]. unfold udp_accept.
    assert (∀ e0, ue_pending e0 = ue_pending e → ue_userId e0 = ue_userId e → Forall2 retried
      (match Message_Parse data with
       | Some msg => if negb (msg_userId msg =? ue_userId e) then ks else
          let id := msg_transactionId msg in
          let '(l, ks) := if msg_responder msg then (ack_pending id (ue_pending e), ack_counts id (ue_pending e) ks) else (ue_pending e, ks) in
          if is_ack (GetPrimitive msg) then ack_counts id l ks else ks
       | None => ks end) (ue_pending (udp_Dispatch data e0).1)) as Hd.
    { intros e0 Hp0 Hu0. unfold udp_Dispatch. destruct (Message_Parse data) as [msg|]; [|cbn; by rewrite Hp0]. cbv zeta. cbn [ue_userId set_ue_peerVersion]. rewrite Hu0.
      destruct (msg_userId msg =? ue_userId e); cbn [negb]; [|cbn; by rewrite Hp0].
      pose proof (ack_counts_retried (msg_transactionId msg) _ _ Hr) as H1. pose proof (ack_counts_retried (msg_transactionId msg) _ _ H1) as H2.
      destruct (msg_responder msg), (is_ack (GetPrimitive msg)); cbn [negb]; try (destruct (FindCachedLocked _ _)); try (destruct (is_closing_ack _)); cbn; by rewrite ?Hp0. }
    destruct (negb (ue_latched e)); [by apply Hd|]. destruct (negb (endpoint_eqb from (ue_remote e))); [done|by apply Hd].
  - unfold udp_OnPeriodic. destruct (ue_finished e); [done|]. pose proof (sweep_counts_retried now _ _ Hn Hr) as Hs.
    destruct (sweep_pending now (ue_pending e)) as [[pend rs] g]. cbn [fst snd] in *.
    destruct (resend_all_frame rs (set_ue_pending pend e)) as (_ & Hp & _). cbn. by rewrite Hp.
  - constructor.
  - constructor.
Qed.

Lemma udp_life_retried evs : ∀ e ks,
  Forall event_clock evs → Forall2 retried ks (ue_pending e) → Forall2 retried (udp_life evs e ks).2 (ue_pending (udp_life evs e ks).1).
Proof.
  induction evs as [|ev evs IH]; intros e ks Hevs Hr; [done|]. apply Forall_cons in Hevs as [Hev Hevs]. cbn [udp_life].
  by apply IH, count_event_retried.
Qed.

(** The messages a tick sends again. *)
Definition is_due (now : Z) (p : UdpPending) : bool := negb (expired now p) && (pd_dueUs p <=? now).

Lemma sweep_resends now l : (sweep_pending now l).1.2 = pd_datagram <$> List.filter (is_due now) l.
Proof.
  induction l as [|p l IH]; [done|]. cbn [sweep_pending List.filter]. destruct (sweep_pending now l) as [[rest resend] g]. cbn [fst snd] in *.
  unfold is_due at 1. fold (expired now p). destruct (expired now p); [done|]. rewrite Z.leb_antisym. destruct (now <? pd_dueUs p); [done|]. cbn. by rewrite IH.
Qed.

(** C12. Whatever happens to an endpoint (calls of the conference and of the server, datagrams of the
    peer, acknowledgements among them, ticks of the reactor at any times of its clock below 2^62 us,
    errors), each message that the server started and that waits for its acknowledgement was sent again
    at most five times since [Send], its interval having doubled from 500 ms each time.  A tick sends
    again exactly the messages that are due and not yet 16 s old, so one that was sent again five times is
    sent no more. *)
Theorem retransmissions_are_bounded userId evs :
  Forall event_clock evs →
  let '(e, ks) := udp_life evs (new_udp userId) [] in
  Forall2 (λ k p, 0 <= k <= 5 ∧ pd_intervalMs p = T1InitialMs * 2 ^ k) ks (ue_pending e)
  ∧ ∀ now, clock now → ue_finished e = false →
      ue_sent (udp_OnPeriodic now e).1 = ue_sent e ++ ((λ p, (ue_remote e, pd_datagram p)) <$> List.filter (is_due now) (ue_pending e))
      ∧ Forall2 (λ k p, k = 5 → is_due now p = false) ks (ue_pending e).
Proof.
  intros Hevs. pose proof (udp_life_retried evs (new_udp userId) [] Hevs ltac:(constructor)) as Hr.
  destruct (udp_life evs (new_udp userId) []) as [e ks]. cbn [fst snd] in Hr. split.
  - eapply Forall2_impl; [exact Hr|]. intros k p []. done.
  - intros now Hn Hf. split.
    + unfold udp_OnPeriodic. rewrite Hf. pose proof (sweep_resends now (ue_pending e)) as Hs.
      destruct (sweep_pending now (ue_pending e)) as [[pend rs] g]. cbn [fst snd] in *.
      destruct (resend_all_frame rs (set_ue_pending pend e)) as (_ & _ & _ & _ & Hsent). cbn. rewrite Hsent, Hs, <- list_fmap_compose. done.
    + eapply Forall2_impl; [exact Hr|]. intros k p Hp ->. unfold is_due. destruct (expired now p) eqn:E; [done|]. cbn [negb andb]. apply Z.leb_gt.
      destruct (Z.lt_ge_cases now (pd_dueUs p)) as [|Hd]; [done|]. exfalso.
      pose proof Hp as [_ Hc _ _]. unfold expired in E. rewrite to_qword_id in E by (unfold clock, T1GiveUpMs in *; lia). apply Z.leb_gt in E.
      destruct (retried_next 5 p now Hp Hn Hd E). lia.
Qed.

(** A transaction is over 16 s after it was first sent, at the next tick: it is no longer pending,
    and the server is told the transport closed if and only if one was given up.  Younger
    transactions stay. *)
Theorem transactions_end now e :
  ue_finished e = false → clock now → Forall (λ p, clock (pd_firstSentUs p)) (ue_pending e) →
  let old p := pd_firstSentUs p + T1GiveUpMs * 1000 <=? now in
  (udp_OnPeriodic now e).2 = existsb old (ue_pending e)
  ∧ pd_transactionId <$> ue_pending (udp_OnPeriodic now e).1
    = pd_transactionId <$> List.filter (λ p, negb (old p)) (ue_pending e).
Proof.
  intros Hf Hn Hc. cbv zeta. unfold udp_OnPeriodic. rewrite Hf.
  destruct (sweep_givenUp now (ue_pending e)) as (H1 & H2 & _).
  assert (∀ p, p ∈ ue_pending e →
            expired now p = (pd_firstSentUs p + T1GiveUpMs * 1000 <=? now)) as Hex.
  { intros p Hp. unfold expired. rewrite to_qword_id; [done|].
    rewrite Forall_forall in Hc. specialize (Hc p Hp). unfold clock, T1GiveUpMs in *. lia. }
  destruct (sweep_pending now (ue_pending e)) as [[pend rs] g]. simpl in *.
  destruct (resend_all_frame rs (set_ue_pending pend e)) as (_ & -> & _). simpl.
  rewrite H1, H2. clear -Hex.
  induction (ue_pending e) as [|p l IH]; [done|]. simpl.
  rewrite <- (Hex p) by set_solver. destruct IH as [IH1 IH2]; [intros; apply Hex; set_solver|].
  split; [by rewrite IH1|]. destruct (expired now p); simpl; [done|]. exact (f_equal (cons _) IH2).
Qed.

(** C16. A peer that stopped acknowledging loses its floors: at the tick that gives a transaction up,
    the user served by this leg is detached, with its subscriptions, and exactly its requests are
    forgotten. *)
Theorem silent_peer_is_detached (this confId : Z) now l ns u :
  reach confId (leg_server l) ns → ending (leg_server l) = false →
  ue_finished (leg_endpoint l) = false → clock now →
  Forall (λ p, clock (pd_firstSentUs p)) (ue_pending (leg_endpoint l)) →
  existsb (λ p, pd_firstSentUs p + T1GiveUpMs * 1000 <=? now) (ue_pending (leg_endpoint l)) = true →
  user_of_transport this (leg_server l) = Some u →
  let s' := leg_server (udp_tick this now l) in
  om_find (u_userId u) (users s') = Some (mkUser (u_userId u) (u_conferenceId u) (u_isChair u) None [])
  ∧ forgets_requests_of (u_userId u) (leg_server l) s'.
Proof.
  intros H He Hf Hn Hc Hex Hu. cbv zeta. destruct (reach_steps _ _ _ H) as [HI _].
  assert ((udp_OnPeriodic now (leg_endpoint l)).2 = true) as Hup.
  { unfold udp_OnPeriodic. rewrite Hf. destruct (sweep_givenUp now (ue_pending (leg_endpoint l))) as (H1 & _).
    destruct (sweep_pending now (ue_pending (leg_endpoint l))) as [[pend rs] g]. simpl in *.
    rewrite H1. apply existsb_exists in Hex as (p & Hp & Hold). apply existsb_exists. exists p.
    split; [done|]. unfold expired. rewrite to_qword_id; [done|].
    rewrite Forall_forall in Hc. apply list_elem_of_In in Hp. specialize (Hc p Hp).
    unfold clock, T1GiveUpMs in *. lia. }
  unfold udp_tick. destruct (udp_OnPeriodic now (leg_endpoint l)) as [e b]. simpl in Hup. subst b.
  destruct (TransportClosed this (leg_server l)) as [[[[] s'] w] ns'] eqn:Hr. simpl.
  destruct (closed_lemma this (leg_server l) u s' w ns' HI He Hu Hr) as (H1 & _ & H2). done.
Qed.

(** The reactor is told to wake in time and not early by more than a millisecond: no transaction
    is due before the announced timeout, and one is due within a millisecond of it; 0 when one is due
    already. *)
Theorem wakes_in_time now e :
  ue_finished e = false → ue_pending e ≠ [] → clock now → Forall (timed now) (ue_pending e) →
  let t := udp_GetNextTimeoutMs now e in
  (t = 0 ∨ ∀ p, p ∈ ue_pending e → now + t * 1000 <= deadline p)
  ∧ ∃ p, p ∈ ue_pending e ∧ deadline p < now + (t + 1) * 1000.
Proof.
  intros Hf Hne Hn Ht. cbv zeta. unfold udp_GetNextTimeoutMs. rewrite Hf, bool_decide_false by done. simpl.
  assert (Forall (λ p, 0 < deadline p) (ue_pending e)) as Hpos.
  { eapply Forall_impl; [exact Ht|]. intros p Hp. by apply (deadline_bounds now p). }
  destruct (ue_pending e) as [|p l]; [done|].
  destruct (soonest_spec p l Hpos) as [Hle (q & Hq & Eq)].
  assert (deadline q <= now + T1GiveUpMs * 1000) as Hb.
  { rewrite Forall_forall in Ht. by apply (deadline_bounds now q), Hn; apply Ht. }
  destruct (Z.leb_spec (soonest (p :: l)) now) as [Hs|Hs].
  { split; [by left|]. exists q. split; [done|]. lia. }
  assert (0 <= (soonest (p :: l) - now) / 1000 <= 16000) as Hd.
  { split; [apply Z.div_pos; lia|]. apply Z.div_le_upper_bound; [lia|]. unfold T1GiveUpMs in *. lia. }
  rewrite to_int32_dword by (unfold is_int32; lia).
  pose proof (Z.div_mod (soonest (p :: l) - now) 1000 ltac:(lia)).
  pose proof (Z.mod_pos_bound (soonest (p :: l) - now) 1000 ltac:(lia)). split.
  - right. intros r Hr. specialize (Hle r Hr). lia.
  - exists q. split; [done|]. lia.
Qed.

(** A datagram from anybody but the latched peer changes nothing at all, and the peer stays the
    one that spoke first whatever arrives. *)
Theorem peer_is_latched this now r ds l :
  latched_on r (leg_endpoint l) → udp_ok (leg_endpoint l) → clock now →
  (Forall (λ d, endpoint_eqb d.1 r = false) ds → udp_OnReadable this now ds l = l)
  ∧ latched_on r (leg_endpoint (udp_OnReadable this now ds l)).
Proof.
  intros Hl Hok Hn. split; [|by apply udp_OnReadable_ok].
  intros Hds. induction Hds as [|[from data] ds Hd Hds IH]; simpl in *; [done|].
  destruct Hl as [Hla Hr]. case_match; [done|]. unfold udp_accept. rewrite Hla, Hr, Hd. simpl. done.
Qed.

(** ** Served once *)

Lemma is_ack_is_reply p : is_ack p = is_reply p.
Proof. by destruct p. Qed.


Section Turn.
Context (this now tid version : Z) (w0 : list WireCall).




End Turn.
End Runs.

Section Once.
Context {W : WireOps} {K : SocketOps} {T : TransportOps}.


(** The endpoint accepts datagrams from this address. *)
Definition from_peer (from : IPEndpoint) (e : UdpEndpoint) : Prop :=
  ue_latched e = true ∧ endpoint_eqb from (ue_remote e) = true.

(** A request that was answered: nothing but the octets of the answer goes out. *)
Lemma replay_lemma (this now : Z) from data msg c l :
  Message_Parse data = Some msg → msg_responder msg = false → is_reply (GetPrimitive msg) = false →
  msg_userId msg = ue_userId (leg_endpoint l) → from_peer from (leg_endpoint l) →
  ue_finished (leg_endpoint l) = false →
  FindCachedLocked (msg_transactionId msg) (leg_endpoint l) = Some c →
  udp_OnReadable this now [(from, data)] l
  = set_endpoint (add_ue_sent (ue_remote (leg_endpoint l), cd_datagram c)
                    (set_ue_peerVersion (msg_version msg) (leg_endpoint l))) l.
Proof.
  intros Hp Hr Ha Hu [Hl Hfrom] Hf Hc. simpl. rewrite Hf. unfold udp_accept. rewrite Hl, Hfrom. simpl.
  rewrite (udp_Dispatch_replay data (leg_endpoint l) msg c); by rewrite ?is_ack_is_reply.
Qed.

(** A request that comes again after it was answered is answered with the same octets, and never
    reaches the server: no state, no notification, no other transport is touched. *)
Theorem repeated_request_is_replayed (this now : Z) from data msg c l :
  Message_Parse data = Some msg → msg_responder msg = false → is_reply (GetPrimitive msg) = false →
  msg_userId msg = ue_userId (leg_endpoint l) → from_peer from (leg_endpoint l) →
  ue_finished (leg_endpoint l) = false →
  FindCachedLocked (msg_transactionId msg) (leg_endpoint l) = Some c →
  let l' := udp_OnReadable this now [(from, data)] l in
  leg_server l' = leg_server l ∧ leg_told l' = leg_told l ∧ leg_elsewhere l' = leg_elsewhere l
  ∧ ue_cache (leg_endpoint l') = ue_cache (leg_endpoint l)
  ∧ ue_sent (leg_endpoint l')
    = ue_sent (leg_endpoint l) ++ [(ue_remote (leg_endpoint l), cd_datagram c)].
Proof. intros ? ? ? ? ? ? ? l'. subst l'. by rewrite (replay_lemma this now from data msg c l). Qed.

End Once.

(** ** A participant over UDP *)

Definition working_socket : SocketOps := {| so_sendto := λ _, true |}.
Definition udp_transports : TransportOps := {| tr_IsReliable := λ _, false; tr_Send := λ _ _ _, true |}.
Definition peer_address : IPEndpoint := ToDualStack (AddrV4 [192; 0; 2; 9]) 40000.
Definition other_address : IPEndpoint := ToDualStack (AddrV4 [192; 0; 2; 9]) 40001.

(** Conference 7 with user 2 on transport 102 and floor 10. *)
Definition udp_conference : Server * list Notification :=
  @exec_all udp_transports
    [OpAddUser 2; OpAddFloor 10; OpMessageReceived (new_message MsgHello 1 7 2) 102] (new_server 7) [].

Definition request_message : BFCPMessage := SetVersion (floor_request 2 9 [10]) VersionUnreliable.
Definition request_datagram : bytes :=
  default [] (@Message_Serialize network_order request_message 1500 VersionUnreliable).

Definition udp_leg : UdpLeg :=
  mkLeg (set_ue_remote peer_address true
    (udp_Open 0 (Bound (Some (SA_in6 (replicate 16 0) 40123 0))) (new_udp 2)).2) udp_conference.1 udp_conference.2 [].

(** The same, with a Hello of the server that nobody acknowledged since 1 s. *)
Definition unacked : UdpEndpoint :=
  (@udp_Send network_order working_socket (new_message MsgHello 3 7 2) 1000000 (leg_endpoint udp_leg)).2.
Definition unacked_leg : UdpLeg := set_endpoint unacked udp_leg.

Definition answered_leg : UdpLeg :=
  @udp_OnReadable network_order working_socket udp_transports 102 2000000
    [(peer_address, request_datagram)] udp_leg.

Lemma udp_conference_reach : @reach udp_transports 7 udp_conference.1 udp_conference.2.
Proof.
  exact (@exec_all_reach udp_transports 7
           [OpAddUser 2; OpAddFloor 10; OpMessageReceived (new_message MsgHello 1 7 2) 102]
           (new_server 7) [] (@reach_new udp_transports 7)).
Qed.

Lemma udp_leg_ok : udp_ok (leg_endpoint udp_leg).
Proof. split; simpl; try done; [apply NoDup_nil_2|by exists []|by right]. Qed.

(** A Hello of the server that is sent again twice, and acknowledged. *)
Definition udp_story : list UdpEvent :=
  [EvOpen 0 (Bound (Some (SA_in6 (replicate 16 0) 40123 0))); EvSetRemote peer_address; EvServerHello 7 1000000;
   EvTick 1600000; EvDatagram peer_address request_datagram; EvTick 2000000; EvTick 2700000].

Lemma retransmissions_are_bounded_witness :
  let '(e, ks) := @udp_life network_order working_socket udp_story (new_udp 2) [] in
  ks = [2] ∧ Zlen (ue_sent e) = 3 ∧ Forall2 (λ k p, 0 <= k <= 5 ∧ pd_intervalMs p = T1InitialMs * 2 ^ k) ks (ue_pending e).
Proof.
  pose proof (@retransmissions_are_bounded network_order working_socket 2 udp_story) as H.
  destruct (@udp_life network_order working_socket udp_story (new_udp 2) []) as [e ks] eqn:E.
  assert (ks = [2] ∧ Zlen (ue_sent e) = 3) as [Hk He] by (vm_compute in E; injection E as <- <-; split; reflexivity).
  split; [exact Hk|]. split; [exact He|]. apply H. repeat constructor; vm_compute; congruence.
Defined.

Lemma transactions_end_witness :
  (@udp_OnPeriodic working_socket 17000000 unacked).2 = true
  ∧ (@udp_OnPeriodic working_socket 16999999 unacked).2 = false.
Proof.
  assert (Forall (λ p, clock (pd_firstSentUs p)) (ue_pending unacked)) as Hc
    by (repeat constructor; vm_compute; congruence).
  split.
  - pose proof (@transactions_end working_socket 17000000 unacked) as H. cbv zeta in H.
    destruct H as [H _]; [vm_compute; reflexivity|unfold clock; lia|exact Hc|].
    rewrite H. vm_compute; reflexivity.
  - pose proof (@transactions_end working_socket 16999999 unacked) as H. cbv zeta in H.
    destruct H as [H _]; [vm_compute; reflexivity|unfold clock; lia|exact Hc|].
    rewrite H. vm_compute; reflexivity.
Defined.

Lemma silent_peer_is_detached_witness :
  om_find 2 (users (leg_server (@udp_tick network_order working_socket udp_transports 102 17000000 unacked_leg)))
  = Some (mkUser 2 7 false None []).
Proof.
  pose proof (@silent_peer_is_detached network_order working_socket udp_transports 102 7 17000000
                unacked_leg udp_conference.2 (mkUser 2 7 false (Some 102) [])) as H.
  cbv zeta in H. cbn [u_userId u_conferenceId u_isChair] in H. destruct H as [H _].
  - apply udp_conference_reach.
  - vm_compute; reflexivity.
  - vm_compute; reflexivity.
  - unfold clock; lia.
  - repeat constructor; vm_compute; congruence.
  - vm_compute; reflexivity.
  - vm_compute; reflexivity.
  - exact H.
Defined.

Lemma wakes_in_time_witness :
  udp_GetNextTimeoutMs 1100500 unacked = 399
  ∧ ∃ p, p ∈ ue_pending unacked ∧ deadline p < 1100500 + (udp_GetNextTimeoutMs 1100500 unacked + 1) * 1000.
Proof.
  split; [vm_compute; reflexivity|].
  apply (wakes_in_time 1100500 unacked).
  - vm_compute; reflexivity.
  - vm_compute; discriminate.
  - unfold clock; lia.
  - repeat constructor; vm_compute; congruence.
Defined.

Lemma peer_is_latched_witness :
  @udp_OnReadable network_order working_socket udp_transports 102 2000000
    [(other_address, request_datagram)] udp_leg = udp_leg.
Proof.
  apply (@peer_is_latched network_order working_socket udp_transports 102 2000000 peer_address).
  - split; reflexivity.
  - apply udp_leg_ok.
  - unfold clock; lia.
  - repeat constructor; vm_compute; reflexivity.
Defined.

Lemma repeated_request_is_replayed_witness :
  leg_server (@udp_OnReadable network_order working_socket udp_transports 102 3000000
                [(peer_address, request_datagram)] answered_leg) = leg_server answered_leg.
Proof.
  assert (∃ c, FindCachedLocked 9 (leg_endpoint answered_leg) = Some c) as [c Hc]
    by (eexists; vm_compute; reflexivity).
  pose proof (@repeated_request_is_replayed network_order working_socket udp_transports 102 3000000
                peer_address request_datagram request_message c answered_leg) as H.
  cbv zeta in H. destruct H as [H _].
  - vm_compute; reflexivity.
  - reflexivity.
  - reflexivity.
  - vm_compute; reflexivity.
  - split; vm_compute; reflexivity.
  - vm_compute; reflexivity.
  - exact Hc.
  - exact H.
Defined.


