(* ===== verification/BfcpTcp.v ===== *)
(** * The TCP leg of a participant

    [BFCPTcpConnection] and [BFCPTcpListener] (src/mcu/src/bfcp/BFCPTcpTransport.cpp).
    A connection is a stream: what goes out is written as the socket accepts it and
    queued otherwise; what comes in is cut into messages by the length in their
    header.

    The socket is its future: [tc_kernel] is the list of what the next [send] calls
    return, [tc_wire] the octets they accepted, and [OnReadable] takes the list of what
    [recv] returns.  At the end of either list the call would block. *)

From S2P Require Import Prelude OrderedMap Wire IpAddress BfcpAttr BfcpMsg BfcpServer BfcpLeg.

Definition MaxMessageLen : Z := 65536.

(** Results of [send]: a positive count (the kernel never takes more than it was given),
    [EAGAIN], [EINTR], or anything else. *)
Inductive SendResult := SentSome (n : Z) | SendWouldBlock | SendInterrupted | SendFailed.

(** Results of [recv]: some octets (at most 4096), the end of the stream, ... *)
Inductive RecvResult := Received (chunk : bytes) | RecvClosed | RecvWouldBlock | RecvInterrupted | RecvFailed.

Record TcpConnection := mkTcp {
  tc_in : bytes;
  tc_out : bytes;
  tc_finished : bool;
  tc_wire : bytes;
  tc_kernel : list SendResult;
}.

Definition new_tcp (kernel : list SendResult) : TcpConnection := mkTcp [] [] false [] kernel.

Definition set_tc_in (b : bytes) (c : TcpConnection) : TcpConnection :=
  mkTcp b (tc_out c) (tc_finished c) (tc_wire c) (tc_kernel c).

Definition tcp_Finish (c : TcpConnection) : TcpConnection :=
  mkTcp (tc_in c) (tc_out c) true (tc_wire c) (tc_kernel c).

Definition tcp_Close (c : TcpConnection) : TcpConnection :=
  if tc_finished c then c else tcp_Finish c.

(** The loop around [send]: what the kernel took, what is left, whether the socket is
    still usable, and the future that remains. *)
Fixpoint send_loop (data : bytes) (kernel : list SendResult)
  : bytes * bytes * bool * list SendResult :=
  match data with
  | [] => ([], [], true, kernel)
  | _ =>
      match kernel with
      | [] => ([], data, true, [])
      | SendWouldBlock :: k => ([], data, true, k)
      | SendInterrupted :: k => send_loop data k
      | SendFailed :: k => ([], data, false, k)
      | SentSome n :: k =>
          if 0 <? n then
            let n := Z.min n (Zlen data) in
            let '(taken, rest, ok, k') := send_loop (zdrop n data) k in
            (ztake n data ++ taken, rest, ok, k')
          else ([], data, false, k)
      end
  end.

Definition SendLocked (data : bytes) (c : TcpConnection) : TcpConnection :=
  match tc_out c with
  | [] =>
      let '(taken, rest, ok, k) := send_loop data (tc_kernel c) in
      let c := mkTcp (tc_in c) [] (tc_finished c) (tc_wire c ++ taken) k in
      if negb ok then tcp_Finish c
      else mkTcp (tc_in c) (tc_out c ++ rest) (tc_finished c) (tc_wire c) (tc_kernel c)
  | out => mkTcp (tc_in c) (out ++ data) (tc_finished c) (tc_wire c) (tc_kernel c)
  end.

Definition tcp_OnWritable (c : TcpConnection) : TcpConnection :=
  if tc_finished c then c
  else
    let '(taken, rest, ok, k) := send_loop (tc_out c) (tc_kernel c) in
    let c := mkTcp (tc_in c) rest (tc_finished c) (tc_wire c ++ taken) k in
    if negb ok then tcp_Finish c else c.

Section Tcp.
Context {W : WireOps} {T : TransportOps}.

(** The buffer is [HeaderLen + 4096] octets; [Serialize(out, max)] takes the version of the message. *)
Definition tcp_Send (msg : BFCPMessage) (c : TcpConnection) : bool * TcpConnection :=
  match Message_Serialize msg (Msg_HeaderLen + 4096) (msg_version msg) with
  | None => (false, c)
  | Some data => if tc_finished c then (false, c) else (true, SendLocked data c)
  end.

#[global] Instance tcp_transport : Transport TcpConnection := {|
  tx_Send := λ m c, (tcp_Send m c).2;
  tx_Close := tcp_Close;
|}.

Context (this : Z).

Abbreviation TcpLeg := (Leg TcpConnection).

Definition tcp_closed (l : TcpLeg) : TcpLeg :=
  apply_result this (tcp_Finish (leg_endpoint l)) l (TransportClosed this (leg_server l)).

(** What the head of the buffer is. *)
Inductive Head := HeadPartial | HeadTooLong | HeadMessage (message rest : bytes).

Definition next_message (buf : bytes) : Head :=
  if Zlen buf <? Msg_HeaderLen then HeadPartial
  else
    let total := Msg_HeaderLen + get2 buf 2 * 4 in
    if MaxMessageLen <? total then HeadTooLong
    else if Zlen buf <? total then HeadPartial
    else HeadMessage (ztake total buf) (zdrop total buf).

(** The second loop of [OnReadable]: every whole message the buffer holds. *)
Fixpoint process (fuel : nat) (l : TcpLeg) : TcpLeg :=
  match fuel with
  | O => l
  | S fuel' =>
      let c := leg_endpoint l in
      if tc_finished c then l
      else
        match next_message (tc_in c) with
        | HeadPartial => l
        | HeadTooLong => tcp_closed l
        | HeadMessage message rest =>
            let l := set_endpoint (set_tc_in rest c) l in
            match Message_Parse message with
            | None => tcp_closed l
            | Some msg =>
                process fuel' (apply_result this (leg_endpoint l) l
                                 (MessageReceived msg this (leg_server l)))
            end
        end
  end.

(** Every message is at least a header long, so the buffer bounds the turns. *)
Definition process_all (l : TcpLeg) : TcpLeg := process (S (length (tc_in (leg_endpoint l)))) l.

(** The first loop: drain the socket; [false] when the connection is over. *)
Fixpoint drain (rs : list RecvResult) (buf : bytes) : bytes * bool :=
  match rs with
  | [] | RecvWouldBlock :: _ => (buf, true)
  | RecvInterrupted :: rs' => drain rs' buf
  | RecvClosed :: _ | RecvFailed :: _ => (buf, false)
  | Received chunk :: rs' => drain rs' (buf ++ chunk)
  end.

Definition tcp_OnReadable (rs : list RecvResult) (l : TcpLeg) : TcpLeg :=
  let c := leg_endpoint l in
  let (buf, alive) := drain rs (tc_in c) in
  let l := set_endpoint (set_tc_in buf c) l in
  if alive then process_all l else tcp_closed l.

Definition tcp_OnPollError (l : TcpLeg) : TcpLeg := tcp_closed l.

(** [GetPollFds]: not watched, or watched for reading and, if told so, for writing. *)
Definition tcp_GetPollFds (max : Z) (c : TcpConnection) : option bool :=
  if (max <? 1) || tc_finished c then None else Some (negb (bool_decide (tc_out c = []))).

(** [OnPollEvents]: [writable] is [POLLOUT]; [readable] is [POLLIN], with what [recv] will return. *)
Definition tcp_OnPollEvents (writable : bool) (readable : option (list RecvResult)) (l : TcpLeg) : TcpLeg :=
  let l := if writable then set_endpoint (tcp_OnWritable (leg_endpoint l)) l else l in
  match readable with
  | Some rs => tcp_OnReadable rs l
  | None => l
  end.
End Tcp.

(** ** The listener *)

(** A connection is named by its address, the [this] it gives to the server. *)
Record TcpListener := mkListener {
  tl_open : bool;
  tl_port : Z;
  tl_connections : list (Z * TcpConnection);
}.

Definition new_listener : TcpListener := mkListener false 0 [].

(** What [socket], [bind], [listen] and [getsockname] gave. *)
Inductive ListenResult := ListenNoSocket | ListenBindFailed | ListenFailed | Listening (name : option sockaddr).

(** [Open(port)]: the port bound, 0 on failure. *)
Definition listener_Open (port : Z) (r : ListenResult) (l : TcpListener) : Z * TcpListener :=
  if tl_open l then (0, l)
  else
    match r with
    | ListenNoSocket | ListenBindFailed | ListenFailed => (0, l)
    | Listening name =>
        let bound := match name with Some sa => PortOf sa | None => port end in
        (bound, mkListener true bound (tl_connections l))
    end.

Definition listener_GetConnectionCount (l : TcpListener) : Z := Zlen (tl_connections l).

(** [Accept]: one connection per client the kernel hands over. *)
Definition listener_Accept (clients : list (Z * list SendResult)) (l : TcpListener) : TcpListener :=
  mkListener (tl_open l) (tl_port l)
    (tl_connections l ++ ((λ p, (p.1, new_tcp p.2)) <$> clients)).

Section Listener.
Context {T : TransportOps}.

(** [server->TransportClosed] for each connection about to die. *)
Fixpoint close_all (doomed : list Z) (s : Server) : Server * list WireCall * list Notification :=
  match doomed with
  | [] => (s, [], [])
  | t :: ts =>
      let '(_, s1, w1, ns1) := TransportClosed t s in
      let '(s2, w2, ns2) := close_all ts s1 in
      (s2, w1 ++ w2, ns1 ++ ns2)
  end.

Definition listener_Reap (l : TcpListener) (s : Server)
  : TcpListener * (Server * list WireCall * list Notification) :=
  let done := List.filter (λ p, tc_finished p.2) (tl_connections l) in
  (mkListener (tl_open l) (tl_port l) (List.filter (λ p, negb (tc_finished p.2)) (tl_connections l)),
   close_all done.*1 s).

Definition listener_Close (l : TcpListener) (s : Server)
  : TcpListener * (Server * list WireCall * list Notification) :=
  if negb (tl_open l) then (l, (s, [], []))
  else (mkListener false 0 [], close_all (tl_connections l).*1 s).
End Listener.
