(* ===== verification/BfcpTcpClaims.v ===== *)
(** * BFCP over TCP: what it guarantees

    What goes out is exactly what was sent, in order, for as long as the socket works;
    what comes in is cut into the same messages however the network splits it, and a
    message that was serialised arrives as it was.

    [BFCPTcpListener] keeps the connections of a conference, hands each new client a
    connection and destroys those that are done; the server must have let go of a
    connection before it dies. *)

From S2P Require Import Prelude OrderedMap Wire BfcpAttr BfcpMsg BfcpAttrRound BfcpMsgRound BfcpServer BfcpLeg BfcpTcp BfcpFloorSpec BfcpServerRefine BfcpServerProps BfcpConference BfcpGuarantees.

(** ** Going out *)

Lemma send_loop_spec data k taken rest ok k' :
  send_loop data k = (taken, rest, ok, k') → taken ++ rest = data.
Proof.
  revert data taken rest ok k'. induction k as [|r k IH]; intros data taken rest ok k' H.
  { destruct data; simpl in H; by simplify_eq. }
  destruct data as [|x data]; [simpl in H; by simplify_eq|].
  destruct r as [n| | |]; cbn [send_loop] in H; [|by simplify_eq|by eapply IH|by simplify_eq].
  destruct (0 <? n); [|by simplify_eq].
  set (m := Z.min n (Zlen (x :: data))) in *.
  destruct (send_loop (zdrop m (x :: data)) k) as [[[t r] o] k1] eqn:E. simplify_eq.
  rewrite <- app_assoc, (IH _ _ _ _ _ E). apply ztake_zdrop.
Qed.

(** A kernel that takes at least an octet per call takes them all. *)
Lemma send_loop_all ns data :
  Forall (λ n, 0 < n) ns → Zlen data <= Zlen ns →
  ∃ k, send_loop data (SentSome <$> ns) = (data, [], true, k).
Proof.
  intros Hns. revert data. induction Hns as [|n ns Hn Hns IH]; intros data Hlen.
  { destruct data; [by eexists|]. rewrite Zlen_cons, Zlen_nil in Hlen. pose proof (Zlen_nonneg data). lia. }
  destruct data as [|x data]; [by eexists|]. rewrite fmap_cons. cbn [send_loop].
  destruct (Z.ltb_spec 0 n); [|lia]. set (m := Z.min n (Zlen (x :: data))).
  rewrite !Zlen_cons in Hlen. assert (1 <= m) as Hm.
  { unfold m. rewrite Zlen_cons. pose proof (Zlen_nonneg data). lia. }
  destruct (IH (zdrop m (x :: data))) as [k ->].
  { rewrite Zlen_zdrop by (unfold m; lia). rewrite Zlen_cons. lia. }
  exists k. f_equal. f_equal. f_equal. apply ztake_zdrop.
Qed.

(** ** What the connection keeps *)

(** The input buffer is touched by [OnReadable] only. *)
Definition in_alone (f : TcpConnection → TcpConnection) : Prop :=
  ∀ b c, f (set_tc_in b c) = set_tc_in b (f c).

Lemma set_tc_in_twice b b' c : set_tc_in b (set_tc_in b' c) = set_tc_in b c.
Proof. done. Qed.

Lemma set_tc_in_same c : set_tc_in (tc_in c) c = c.
Proof. by destruct c. Qed.

Lemma SendLocked_in data : in_alone (SendLocked data).
Proof.
  intros b c. unfold SendLocked. simpl. destruct (tc_out c); [|done].
  destruct (send_loop data (tc_kernel c)) as [[[t r] o] k]. by destruct o.
Qed.

Lemma tcp_Close_in : in_alone tcp_Close.
Proof. intros b c. unfold tcp_Close. simpl. by destruct (tc_finished c). Qed.

Section Props.
Context {W : WireOps} {WL : WireLaws W} {T : TransportOps}.

Lemma tcp_Send_in m : in_alone (λ c, (tcp_Send m c).2).
Proof.
  intros b c. unfold tcp_Send. destruct (Message_Serialize _ _ _); [|done]. simpl.
  destruct (tc_finished c); [done|]. apply SendLocked_in.
Qed.

Context (this : Z).

Lemma apply_calls_in w : in_alone (λ c, foldl (apply_call this) c w).
Proof.
  induction w as [|a w IH]; intros b c; simpl; [done|]. rewrite <- IH. f_equal.
  destruct a as [t m|t]; simpl; destruct (t =? this); [apply tcp_Send_in|done|apply tcp_Close_in|done].
Qed.

(** More octets at the end of the input buffer. *)
Definition append (b : bytes) (l : Leg TcpConnection) : Leg TcpConnection :=
  set_endpoint (set_tc_in (tc_in (leg_endpoint l) ++ b) (leg_endpoint l)) l.

Lemma append_app b b' l : append b' (append b l) = append (b ++ b') l.
Proof. unfold append, set_endpoint. simpl. by rewrite set_tc_in_twice, app_assoc. Qed.

Lemma append_nil l : append [] l = l.
Proof. unfold append, set_endpoint. rewrite app_nil_r, set_tc_in_same. by destruct l. Qed.

Lemma apply_result_in e l r : tc_in (leg_endpoint (apply_result this e l r)) = tc_in e.
Proof.
  destruct r as [[[x s] w] ns]. simpl.
  pose proof (apply_calls_in w (tc_in e) e) as H. rewrite set_tc_in_same in H. by rewrite H.
Qed.

Lemma apply_result_append b e l r :
  apply_result this (set_tc_in (tc_in e ++ b) e) (append b l) r = append b (apply_result this e l r).
Proof.
  destruct r as [[[x s] w] ns]. simpl. unfold append, set_endpoint. simpl.
  pose proof (apply_calls_in w (tc_in e ++ b) e) as H. simpl in H. rewrite H.
  pose proof (apply_result_in e l (x, s, w, ns)) as Hi. simpl in Hi. by rewrite Hi.
Qed.

Lemma tcp_closed_append b l : tcp_closed this (append b l) = append b (tcp_closed this l).
Proof. unfold tcp_closed. rewrite <- apply_result_append. done. Qed.

(** Nothing brings a connection back. *)
Lemma apply_calls_finished w c :
  tc_finished c = true → tc_finished (foldl (apply_call this) c w) = true.
Proof.
  intros H. apply (apply_calls_preserve this (λ c, tc_finished c = true)); [| |done].
  - intros m d Hd. simpl. unfold tcp_Send. destruct (Message_Serialize _ _ _); [|done]. by rewrite Hd.
  - intros d Hd. simpl. unfold tcp_Close. by rewrite Hd.
Qed.

Lemma tcp_closed_finished l : tc_finished (leg_endpoint (tcp_closed this l)) = true.
Proof.
  unfold tcp_closed. destruct (TransportClosed this (leg_server l)) as [[[x s] w] ns]. simpl.
  by apply apply_calls_finished.
Qed.

(** ** Cutting the stream *)

Lemma next_message_app buf b :
  bytes_ok buf →
  match next_message buf with
  | HeadPartial => True
  | HeadTooLong => next_message (buf ++ b) = HeadTooLong
  | HeadMessage m rest =>
      next_message (buf ++ b) = HeadMessage m (rest ++ b) ∧ buf = m ++ rest ∧ Msg_HeaderLen <= Zlen m
  end.
Proof.
  intros Hb. pose proof (get2_range buf 2 Hb) as Hr. unfold is_word in Hr.
  unfold next_message, Msg_HeaderLen. destruct (Z.ltb_spec (Zlen buf) 12) as [|H12]; [done|].
  pose proof (Zlen_nonneg b). rewrite get2_app by lia. rewrite Zlen_app.
  destruct (Z.ltb_spec (Zlen buf + Zlen b) 12); [lia|].
  destruct (MaxMessageLen <? 12 + get2 buf 2 * 4); [done|].
  destruct (Z.ltb_spec (Zlen buf) (12 + get2 buf 2 * 4)); [done|].
  destruct (Z.ltb_spec (Zlen buf + Zlen b) (12 + get2 buf 2 * 4)); [lia|].
  split; [|split; [symmetry; apply ztake_zdrop|rewrite Zlen_ztake by lia; lia]].
  unfold ztake, zdrop, Zlen in *. f_equal; [apply take_app_le; lia|apply drop_app_le; lia].
Qed.

(** Fuel beyond the length of the buffer changes nothing. *)
Lemma process_fuel n n' l :
  bytes_ok (tc_in (leg_endpoint l)) →
  (length (tc_in (leg_endpoint l)) < n)%nat → (length (tc_in (leg_endpoint l)) < n')%nat →
  process this n l = process this n' l.
Proof.
  revert n' l. induction n as [|n IH]; intros [|n'] l Hb Hn Hn'; try lia. simpl.
  destruct (tc_finished (leg_endpoint l)); [done|].
  pose proof (next_message_app (tc_in (leg_endpoint l)) [] Hb) as Hnext.
  destruct (next_message (tc_in (leg_endpoint l))) as [| |m rest]; [done..|].
  destruct Hnext as (_ & Hsplit & Hm). destruct (Message_Parse m) as [msg|]; [|done].
  rewrite Hsplit in Hn, Hn', Hb. apply bytes_ok_app in Hb as [_ Hb].
  rewrite length_app in Hn, Hn'. unfold Zlen, Msg_HeaderLen in Hm.
  apply IH; rewrite apply_result_in; simpl; [done|lia..].
Qed.

Lemma process_process_all n l :
  bytes_ok (tc_in (leg_endpoint l)) → (length (tc_in (leg_endpoint l)) < n)%nat →
  process this n l = process_all this l.
Proof. intros. apply process_fuel; [done|done|lia]. Qed.

Lemma process_finished n l : tc_finished (leg_endpoint l) = true → process this n l = l.
Proof. intros H. destruct n; simpl; [done|]. by rewrite H. Qed.

(** Octets that come later make no difference to what was already complete. *)
Lemma process_append n b l :
  bytes_ok (tc_in (leg_endpoint l)) → bytes_ok b →
  (length (tc_in (leg_endpoint l)) < n)%nat →
  process_all this (append b (process this n l)) = process_all this (append b l).
Proof.
  revert l. induction n as [|n IH]; intros l Hin Hb Hn; [lia|]. cbn [process].
  destruct (tc_finished (leg_endpoint l)) eqn:Hf; [done|].
  pose proof (next_message_app (tc_in (leg_endpoint l)) b Hin) as Hnext.
  assert (∀ l', process_all this (append b (tcp_closed this l')) = append b (tcp_closed this l')) as Hcl.
  { intros l'. apply process_finished. simpl. apply tcp_closed_finished. }
  unfold process_all at 2. cbn [process]. simpl (tc_finished _). rewrite Hf. simpl (tc_in _).
  destruct (next_message (tc_in (leg_endpoint l))) as [| |m rest] eqn:En.
  - unfold process_all. cbn [process]. simpl. rewrite Hf. done.
  - rewrite Hnext, Hcl. by rewrite tcp_closed_append.
  - destruct Hnext as (-> & Hsplit & Hm).
    set (c := set_tc_in rest (leg_endpoint l)).
    assert (set_endpoint (set_tc_in (rest ++ b) (leg_endpoint (append b l))) (append b l)
            = append b (set_endpoint c l)) as Es by done.
    rewrite Es. destruct (Message_Parse m) as [msg|]; [|by rewrite Hcl, tcp_closed_append].
    set (l1 := apply_result this c (set_endpoint c l) (MessageReceived msg this (leg_server l))).
    assert (tc_in (leg_endpoint l1) = rest) as Hl1 by (unfold l1; by rewrite apply_result_in).
    rewrite Hsplit in Hin, Hn. apply bytes_ok_app in Hin as [_ Hrest].
    rewrite length_app in Hn. unfold Zlen, Msg_HeaderLen in Hm.
    etransitivity; [apply (IH l1); rewrite ?Hl1; [done..|lia]|].
    assert (apply_result this (leg_endpoint (append b (set_endpoint c l))) (append b (set_endpoint c l))
              (MessageReceived msg this (leg_server l)) = append b l1) as Ea.
    { unfold l1. rewrite <- apply_result_append. done. }
    simpl (leg_server _). rewrite Ea. symmetry. apply process_fuel.
    + simpl. rewrite Hl1. by apply bytes_ok_app.
    + simpl. rewrite Hl1, Hsplit, !length_app. lia.
    + lia.
Qed.

(** Feeding octets to a connection, in one turn. *)
Definition feed (b : bytes) (l : Leg TcpConnection) : Leg TcpConnection := process_all this (append b l).

Lemma feed_feed b b' l :
  bytes_ok (tc_in (leg_endpoint l)) → bytes_ok b → bytes_ok b' →
  feed b' (feed b l) = feed (b ++ b') l.
Proof.
  intros Hl Hb Hb'. unfold feed. rewrite <- append_app. unfold process_all at 2.
  apply process_append; [|done|lia]. simpl. by apply bytes_ok_app.
Qed.
End Props.

(** ** Going out *)

Inductive TcpOut := OutSend (m : BFCPMessage) | OutWritable.

Section Out.
Context {W : WireOps}.

Definition tcp_out (c : TcpConnection) (o : TcpOut) : TcpConnection :=
  match o with OutSend m => (tcp_Send m c).2 | OutWritable => tcp_OnWritable c end.

(** The octets of a message, none if it does not fit the buffer. *)
Definition message_octets (m : BFCPMessage) : bytes :=
  default [] (Message_Serialize m (Msg_HeaderLen + 4096) (msg_version m)).

Definition out_octets (os : list TcpOut) : bytes :=
  concat ((λ o, match o with OutSend m => message_octets m | OutWritable => [] end) <$> os).

(** What the connection still owes its peer, as long as it is up. *)
Definition stream (c : TcpConnection) : bytes := tc_wire c ++ tc_out c.

Lemma tcp_out_step c o :
  ∃ b, stream (tcp_out c o) ++ b = stream c ++ out_octets [o]
       ∧ (tc_finished (tcp_out c o) = false → b = [])
       ∧ (tc_finished c = true → tc_finished (tcp_out c o) = true ∧ stream (tcp_out c o) = stream c).
Proof.
  unfold out_octets, message_octets. simpl. rewrite app_nil_r. destruct o as [m|]; simpl.
  - unfold tcp_Send. destruct (Message_Serialize m _ _) as [data|]; simpl.
    2: { exists []. by rewrite app_nil_r. }
    destruct (tc_finished c) eqn:Hf; simpl; [exists data; by rewrite Hf|].
    unfold SendLocked, stream. destruct (tc_out c) as [|x out] eqn:Ho; simpl.
    + destruct (send_loop data (tc_kernel c)) as [[[t r] ok] k] eqn:E. apply send_loop_spec in E as <-.
      destruct ok; simpl.
      * exists []. split; [|done]. by rewrite !app_nil_r, app_assoc.
      * exists r. rewrite !app_nil_r, app_assoc. done.
    + exists []. split; [|done]. rewrite app_nil_r, <- app_assoc. done.
  - exists []. rewrite !app_nil_r. unfold tcp_OnWritable, stream.
    destruct (tc_finished c) eqn:Hf; [by rewrite Hf|].
    destruct (send_loop (tc_out c) (tc_kernel c)) as [[[t r] ok] k] eqn:E. apply send_loop_spec in E as <-.
    destruct ok; simpl; rewrite <- app_assoc; done.
Qed.

Lemma out_octets_cons o os : out_octets (o :: os) = out_octets [o] ++ out_octets os.
Proof. unfold out_octets. simpl. by rewrite app_nil_r. Qed.

Lemma tcp_outs os c :
  ∃ b, stream (foldl tcp_out c os) ++ b = stream c ++ out_octets os
       ∧ (tc_finished (foldl tcp_out c os) = false → b = [])
       ∧ (tc_finished c = true → tc_finished (foldl tcp_out c os) = true
            ∧ stream (foldl tcp_out c os) = stream c).
Proof.
  revert c. induction os as [|o os IH]; intros c; simpl.
  { exists []. by rewrite !app_nil_r. }
  destruct (tcp_out_step c o) as (b1 & H1 & F1 & S1).
  destruct (IH (tcp_out c o)) as (b2 & H2 & F2 & S2). rewrite out_octets_cons.
  destruct (tc_finished (tcp_out c o)) eqn:Hf.
  - destruct (S2 eq_refl) as [Hf2 Hs2]. exists (b1 ++ out_octets os).
    rewrite Hs2, app_assoc, H1, <- app_assoc. split_and!; [done|congruence|].
    intros Hc. by destruct (S1 Hc) as [_ <-].
  - rewrite (F1 eq_refl), app_nil_r in H1. exists b2. rewrite H2, H1, <- app_assoc.
    split_and!; [done|done|]. intros Hc. by destruct (S1 Hc).
Qed.

(** The octets the peer receives are always a prefix of the messages sent, whole and in order,
    however the socket accepts them.  While the connection is up nothing is lost: what is not on the
    wire yet is in the queue, the reactor is asked to watch for writing exactly while the queue is not
    empty, and a turn in which the socket takes something at every call puts all of it on the wire. *)
Theorem tcp_stream_in_order kernel os :
  let c := foldl tcp_out (new_tcp kernel) os in
  tc_wire c `prefix_of` out_octets os
  ∧ (tc_finished c = false →
     tc_wire c ++ tc_out c = out_octets os
     ∧ (tcp_GetPollFds 1 c = Some true ↔ tc_wire c ≠ out_octets os)
     ∧ ∀ ns, tc_kernel c = SentSome <$> ns → Forall (λ n, 0 < n) ns → Zlen (tc_out c) <= Zlen ns →
         tc_wire (tcp_OnWritable c) = out_octets os ∧ tcp_GetPollFds 1 (tcp_OnWritable c) = Some false).
Proof.
  cbv zeta. destruct (tcp_outs os (new_tcp kernel)) as (b & H & F & _). unfold stream in H. simpl in H.
  set (c := foldl tcp_out (new_tcp kernel) os) in *. split.
  { exists (tc_out c ++ b). rewrite <- H. by rewrite app_assoc. }
  intros Hf. rewrite (F Hf), app_nil_r in H. split_and!; [done|..].
  - unfold tcp_GetPollFds. rewrite Hf, <- H. simpl. split.
    + intros [= Hq] Heq. apply negb_true_iff, bool_decide_eq_false in Hq. apply Hq.
      apply (app_inv_head (tc_wire c)). by rewrite app_nil_r.
    + intros Hne. f_equal. apply negb_true_iff, bool_decide_eq_false. intros Hq.
      apply Hne. by rewrite Hq, app_nil_r.
  - intros ns Hk Hns Hlen. destruct (send_loop_all ns (tc_out c) Hns Hlen) as [k Hs].
    unfold tcp_OnWritable, tcp_GetPollFds. by rewrite Hf, Hk, Hs.
Qed.
End Out.

(** ** Coming in *)

Section In.
Context {W : WireOps} {WL : WireLaws W} {T : TransportOps}.
Context (this : Z).

Lemma drain_chunks cs buf : drain (Received <$> cs) buf = (buf ++ concat cs, true).
Proof.
  revert buf. induction cs as [|c cs IH]; intros buf; simpl; [by rewrite app_nil_r|].
  by rewrite IH, app_assoc.
Qed.

Lemma OnReadable_feed cs l : tcp_OnReadable this (Received <$> cs) l = feed this (concat cs) l.
Proof. unfold tcp_OnReadable. by rewrite drain_chunks. Qed.

Lemma concat_concat (ts : list (list bytes)) : concat ((λ cs, concat cs) <$> ts) = concat (concat ts).
Proof.
  induction ts as [|t ts IH]; [done|]. rewrite fmap_cons. cbn [concat]. by rewrite concat_app, IH.
Qed.

Lemma feeds turns b l :
  bytes_ok (tc_in (leg_endpoint l)) → bytes_ok b → Forall bytes_ok turns →
  foldl (λ l b, feed this b l) (feed this b l) turns = feed this (b ++ concat turns) l.
Proof.
  intros Hl. revert b. induction turns as [|t turns IH]; intros b Hb Hts; simpl; [by rewrite app_nil_r|].
  apply Forall_cons in Hts as [Ht Hts]. rewrite feed_feed by done.
  rewrite IH; [by rewrite app_assoc| |done]. by apply bytes_ok_app.
Qed.

Lemma turns_feed first turns l :
  bytes_ok (tc_in (leg_endpoint l)) → Forall (Forall bytes_ok) (first :: turns) →
  foldl (λ l cs, tcp_OnReadable this (Received <$> cs) l) l (first :: turns)
  = feed this (concat (concat (first :: turns))) l.
Proof.
  intros Hl Hts. assert (∀ cs, Forall bytes_ok cs → bytes_ok (concat cs)) as Hc.
  { intros cs. induction 1; simpl; [constructor|]. by apply bytes_ok_app. }
  apply Forall_cons in Hts as [Hf Hts]. simpl. rewrite OnReadable_feed, concat_app.
  assert (foldl (λ l cs, tcp_OnReadable this (Received <$> cs) l) (feed this (concat first) l) turns
          = foldl (λ l b, feed this b l) (feed this (concat first) l) ((λ cs, concat cs) <$> turns)) as ->.
  { generalize (feed this (concat first) l). clear. induction turns as [|t ts IH]; intros l; [done|].
    simpl. by rewrite OnReadable_feed, IH. }
  rewrite feeds; [|done|by apply Hc|].
  - do 2 f_equal. apply concat_concat.
  - apply Forall_fmap. eapply Forall_impl; [exact Hts|]. simpl. apply Hc.
Qed.

(** C15. The way the network cuts the stream does not matter: any number of reactor turns, each with
    any number of [recv] results, leaves the connection, the server, the listener and the other
    transports exactly as if all the octets had come at once. *)
Theorem chunking_does_not_matter first turns l :
  bytes_ok (tc_in (leg_endpoint l)) → Forall (Forall bytes_ok) (first :: turns) →
  foldl (λ l cs, tcp_OnReadable this (Received <$> cs) l) l (first :: turns)
  = tcp_OnReadable this [Received (concat (concat (first :: turns)))] l.
Proof.
  intros Hl Hts. rewrite turns_feed by done.
  change [Received (concat (concat (first :: turns)))]
    with (Received <$> [concat (concat (first :: turns))]).
  rewrite OnReadable_feed. simpl. by rewrite app_nil_r.
Qed.

(** The loop over the buffer always ends: it stops by itself (no whole message left, or the
    connection is over) within as many turns as the buffer has octets. *)
Theorem message_loop_ends l :
  bytes_ok (tc_in (leg_endpoint l)) →
  let l' := process_all this l in
  tc_finished (leg_endpoint l') = true ∨ next_message (tc_in (leg_endpoint l')) = HeadPartial.
Proof.
  intros Hb. cbv zeta. unfold process_all.
  assert (∀ n l, bytes_ok (tc_in (leg_endpoint l)) → (length (tc_in (leg_endpoint l)) < n)%nat →
    tc_finished (leg_endpoint (process this n l)) = true
    ∨ next_message (tc_in (leg_endpoint (process this n l))) = HeadPartial) as H; [|apply H; [done|lia]].
  clear l Hb. induction n as [|n IH]; intros l Hb Hn; [lia|]. cbn [process].
  destruct (tc_finished (leg_endpoint l)) eqn:Hf; [by left|].
  pose proof (next_message_app (tc_in (leg_endpoint l)) [] Hb) as Hnext.
  destruct (next_message (tc_in (leg_endpoint l))) as [| |m rest] eqn:En; [by right| |].
  { left. apply tcp_closed_finished. }
  destruct Hnext as (_ & Hsplit & Hm). destruct (Message_Parse m) as [msg|];
    [|left; apply tcp_closed_finished].
  rewrite Hsplit in Hn, Hb. apply bytes_ok_app in Hb as [_ Hb]. rewrite length_app in Hn.
  unfold Zlen, Msg_HeaderLen in Hm. apply IH; rewrite apply_result_in; simpl; [done|lia].
Qed.

(** ** Messages arrive as they were sent *)

Definition settle (l : Leg TcpConnection) : Leg TcpConnection :=
  set_endpoint (set_tc_in [] (leg_endpoint l)) l.

(** One message handed to the server, unless the connection is over. *)
Definition deliver (l : Leg TcpConnection) (m : BFCPMessage) : Leg TcpConnection :=
  if tc_finished (leg_endpoint l) then l
  else apply_result this (leg_endpoint l) l (MessageReceived m this (leg_server l)).

Lemma deliver_finished ms l : tc_finished (leg_endpoint l) = true → foldl deliver l ms = l.
Proof. intros H. induction ms as [|m ms IH]; simpl; [done|]. unfold deliver at 2. by rewrite H. Qed.

(** The message [m], as [b] on the wire, fits the receiver. *)
Definition on_the_wire (m : BFCPMessage) (b : bytes) : Prop :=
  wf_message m ∧ (msg_version m = VersionReliable ∨ msg_version m = VersionUnreliable)
  ∧ (∃ max, Message_Serialize m max (msg_version m) = Some b) ∧ Zlen b <= MaxMessageLen.

Lemma on_the_wire_head m b rest :
  on_the_wire m b → next_message (b ++ rest) = HeadMessage b rest ∧ Message_Parse b = Some m
                    ∧ (12 <= length b)%nat.
Proof.
  intros (Hwf & Hv & [max Hs] & Hlen).
  assert (Message_Parse b = Some m) as Hp.
  { rewrite <- (app_nil_r b). rewrite (Message_Parse_Serialize m max (msg_version m) b []) by done.
    by destruct m. }
  apply Message_Serialize_inv in Hs as (payload & _ & Hmod & Hrange & Hb).
  set (hdr := header_octets _ _ _ _ _ _) in Hb.
  assert (Zlen hdr = 12) as Hh by apply header_octets_len.
  pose proof (header_octets_read (to_byte (Z.lor (Z.shiftl (msg_version m) 5) (if msg_responder m then 0x10 else 0)))
    (to_byte (prim_code (GetPrimitive m))) (Zlen payload / 4) (msg_conferenceId m)
    (msg_transactionId m) (msg_userId m) (payload ++ rest)) as (_ & _ & R2 & _). fold hdr in R2.
  assert (to_word (Zlen payload / 4) * 4 = Zlen payload) as Hpl.
  { rewrite to_word_id by (unfold is_word; lia). Z.div_mod_to_equations. lia. }
  assert (Zlen b = 12 + Zlen payload) as Hbl by (rewrite Hb, Zlen_app, Hh; done).
  pose proof (Zlen_nonneg payload). pose proof (Zlen_nonneg rest).
  split_and!; [|done|unfold Zlen in *; lia].
  unfold next_message, Msg_HeaderLen. rewrite Zlen_app, Hbl.
  assert (get2 (b ++ rest) 2 = to_word (Zlen payload / 4)) as ->.
  { rewrite Hb, <- app_assoc. exact R2. }
  rewrite Hpl. destruct (Z.ltb_spec (12 + Zlen payload + Zlen rest) 12); [lia|].
  destruct (Z.ltb_spec MaxMessageLen (12 + Zlen payload)); [lia|].
  destruct (Z.ltb_spec (12 + Zlen payload + Zlen rest) (12 + Zlen payload)); [lia|].
  by rewrite ztake_app, zdrop_app.
Qed.

Lemma deliver_settle rest m l :
  tc_finished (leg_endpoint l) = false →
  let c := set_tc_in rest (leg_endpoint l) in
  settle (apply_result this c (set_endpoint c l) (MessageReceived m this (leg_server l)))
  = deliver (settle l) m.
Proof.
  intros Hf. cbv zeta. unfold deliver. simpl (tc_finished _). rewrite Hf.
  destruct (MessageReceived m this (leg_server l)) as [[[x s] w] ns] eqn:E. simpl. rewrite E. simpl.
  unfold settle, set_endpoint. simpl. f_equal.
  pose proof (apply_calls_in this w rest (leg_endpoint l)) as H1.
  pose proof (apply_calls_in this w [] (leg_endpoint l)) as H2. simpl in H1, H2. rewrite H1, H2. done.
Qed.

Lemma process_delivers n ms bs l :
  Forall2 on_the_wire ms bs → tc_in (leg_endpoint l) = concat bs →
  (length (tc_in (leg_endpoint l)) < n)%nat →
  settle (process this n l) = foldl deliver (settle l) ms.
Proof.
  intros H. revert n l. induction H as [|m b ms bs Hm H IH]; intros n l Hin Hn;
    (destruct n as [|n]; [lia|]); cbn [process]; destruct (tc_finished (leg_endpoint l)) eqn:Hf;
    try (by rewrite deliver_finished).
  { rewrite Hin. done. }
  destruct (on_the_wire_head m b (concat bs) Hm) as (Hnext & Hparse & Hlen).
  rewrite Hin. simpl. rewrite Hnext, Hparse. rewrite Hin in Hn. simpl in Hn. rewrite length_app in Hn.
  rewrite IH; rewrite ?apply_result_in; simpl; [|done|lia].
  f_equal. by apply (deliver_settle (concat bs) m l).
Qed.

(** C14. Messages arrive as they were sent: whatever the peer serialised, cut in any way by the
    network, the server is handed those very messages, all of them, in order (until one of them makes
    it close the connection). *)
Theorem messages_arrive_as_sent ms bs first turns l :
  Forall2 on_the_wire ms bs → tc_in (leg_endpoint l) = [] →
  Forall (Forall bytes_ok) (first :: turns) → concat (concat (first :: turns)) = concat bs →
  settle (foldl (λ l cs, tcp_OnReadable this (Received <$> cs) l) l (first :: turns))
  = foldl deliver (settle l) ms.
Proof.
  intros Hms Hin Hok Hcat.
  rewrite turns_feed, Hcat; [|rewrite Hin; constructor|done].
  unfold feed, process_all. rewrite (process_delivers _ ms bs); [|done|simpl; by rewrite Hin|lia].
  f_equal.
Qed.
End In.

(** ** The listener *)

Section Listener.
Context {T : TransportOps}.

(** A transport carries at most one user. *)
Definition one_user_each (s : Server) : Prop :=
  ∀ i j u v t, om_find i (users s) = Some u → om_find j (users s) = Some v →
    u_transport u = Some t → u_transport v = Some t → i = j.

Definition attached_to (t : Z) (s : Server) : Prop :=
  ∃ i u, om_find i (users s) = Some u ∧ u_transport u = Some t.

Lemma user_of_transport_none t s : Inv s → user_of_transport t s = None → ¬ attached_to t s.
Proof.
  intros HI Hn (i & u & Hu & Ht). unfold user_of_transport in Hn.
  eapply find_none in Hn; [rewrite bool_decide_true in Hn by exact Ht; done|].
  apply list_elem_of_In, list_elem_of_fmap. exists (i, u). split; [done|by apply om_find_elem].
Qed.

(** What [TransportClosed] does to the users' transports. *)
Lemma closed_users t s s' w ns :
  Inv s → TransportClosed t s = (tt, s', w, ns) →
  Inv s' ∧ (one_user_each s → one_user_each s' ∧ ¬ attached_to t s')
  ∧ ∀ r, r ≠ t → attached_to r s' ↔ attached_to r s.
Proof.
  intros HI Hr. pose proof (exec_refines (OpTransportClosed t) s HI) as [HI' _]. simpl in HI'.
  rewrite Hr in HI'. simpl in HI'. split; [done|].
  unfold TransportClosed, run, TransportClosed_locked, bind, gets in Hr. simpl in Hr.
  destruct (user_of_transport t s) as [u|] eqn:Hu.
  2: { simpl in Hr. simplify_eq. split; [|done]. intros H1. split; [done|]. by apply user_of_transport_none. }
  destruct (find_user_elem t s u HI Hu) as [Hfind Ht].
  pose proof (Detach_wp (u_userId u) (mkEnv s [] []) HI) as H. unfold wp in H.
  destruct (DetachTransportLocked (u_userId u) (mkEnv s [] [])) as [x e']. simpl in *. simplify_eq.
  destruct H as [_ H]. set (k := u_userId u) in *.
  assert (∀ j, om_find j (users (server e')) =
            if bool_decide (j = k) then Some (user_ResetQueriedFloorIds (user_UnsetTransport u))
            else om_find j (users s)) as Hus.
  { intros j. rewrite H. simpl. assert (users (if ending s then s else without_user_requests k s) = users s)
      as -> by by destruct (ending s).
    case_bool_decide as Hj; [subst j; by rewrite om_find_alter_eq, Hfind|by rewrite om_find_alter_ne]. }
  clear H. split.
  - intros H1. split.
    + intros i j v1 v2 r. rewrite !Hus. repeat case_bool_decide; intros; simplify_eq/=; try done.
      by eapply H1.
    + intros (i & v & Hv & Hvt). rewrite Hus in Hv. case_bool_decide as Hi; [by simplify_eq|].
      apply Hi. by eapply H1.
  - intros r Hr. unfold attached_to. split; intros (i & v & Hv & Hvt).
    + rewrite Hus in Hv. case_bool_decide; [by simplify_eq|]. eauto.
    + exists i, v. rewrite Hus, bool_decide_false; [done|]. intros ->. simplify_eq.
Qed.

Lemma close_all_spec ts s s' w ns :
  Inv s → one_user_each s → close_all ts s = (s', w, ns) →
  (∀ t, t ∈ ts → ¬ attached_to t s') ∧ ∀ r, r ∉ ts → attached_to r s' ↔ attached_to r s.
Proof.
  revert s s' w ns. induction ts as [|t ts IH]; intros s s' w ns HI H1 Hc; simpl in Hc.
  { simplify_eq. split; [set_solver|done]. }
  destruct (TransportClosed t s) as [[[[] s1] w1] ns1] eqn:Ht.
  destruct (close_all ts s1) as [[s2 w2] ns2] eqn:Hts. simplify_eq.
  destruct (closed_users t s s1 w1 ns1 HI Ht) as (HI1 & Ho & Hr). destruct (Ho H1) as [H11 Hna].
  destruct (IH s1 s' w2 ns2 HI1 H11 Hts) as [IH1 IH2]. split.
  - intros x [->|Hx]%elem_of_cons; [|auto]. destruct (decide (t ∈ ts)); [auto|].
    by rewrite IH2.
  - intros r [Hne Hnin]%not_elem_of_cons. by rewrite IH2, Hr.
Qed.

(** Before connections are destroyed the server lets go of them: after [Reap] every connection
    left is alive, in the order of arrival, and, provided no transport carries two users, no user
    points to a connection that was destroyed while the other attachments are untouched. *)
Theorem reap_leaves_no_dangling_transport confId l s ns l' s' w ns' :
  reach confId s ns → one_user_each s → NoDup (tl_connections l).*1 →
  listener_Reap l s = (l', (s', w, ns')) →
  Forall (λ p, tc_finished p.2 = false) (tl_connections l')
  ∧ tl_connections l' `sublist_of` tl_connections l
  ∧ (∀ p, p ∈ tl_connections l → tc_finished p.2 = true → ¬ attached_to p.1 s')
  ∧ (∀ p, p ∈ tl_connections l → tc_finished p.2 = false → attached_to p.1 s' ↔ attached_to p.1 s).
Proof.
  intros Hreach H1 Hnd Hr. destruct (reach_steps _ _ _ Hreach) as [HI _].
  unfold listener_Reap in Hr. injection Hr as <- Hc. simpl.
  destruct (close_all_spec _ _ _ _ _ HI H1 Hc) as [Hgone Hstay]. split_and!.
  - apply Forall_forall. intros p Hp. apply list_elem_of_In, filter_In in Hp as [_ Hp]. by ztests.
  - clear. induction (tl_connections l) as [|p ps IH]; simpl; [done|].
    destruct (negb (tc_finished p.2)); by constructor.
  - intros p Hp Hf. apply Hgone. apply list_elem_of_fmap. exists p. split; [done|].
    apply list_elem_of_In, filter_In. split; [by apply list_elem_of_In|done].
  - intros p Hp Hf. apply Hstay. intros (q & Hpq & Hq)%list_elem_of_fmap.
    apply list_elem_of_In, filter_In in Hq as [Hq Hqf]. apply list_elem_of_In in Hq.
    assert (p = q); [|congruence]. clear -Hnd Hp Hq Hpq.
    apply list_elem_of_lookup in Hp as [i Hi], Hq as [j Hj].
    assert (i = j) as ->; [|congruence]. eapply NoDup_lookup; [exact Hnd| |].
    + by rewrite list_lookup_fmap, Hi.
    + by rewrite list_lookup_fmap, Hj, Hpq.
Qed.
End Listener.

(** ** User 3 over TCP *)

(** The connection of user 3 in the sample conference, where it holds floor 11; it releases the
    floor and says goodbye, and the network cuts the two messages after 5 and after 17 octets. *)
Definition tcp_leg : Leg TcpConnection := mkLeg (new_tcp [SentSome 7]) held_by_3.1 [] [].
Definition goodbye_3 : BFCPMessage := new_message (MsgBase P_Goodbye) 8 7 3.
Definition two_messages : list BFCPMessage := [floor_release 3 7 2; goodbye_3].
Definition octets_of (m : BFCPMessage) : bytes :=
  default [] (@Message_Serialize network_order m 4108 VersionReliable).
Definition two_octets : list bytes := octets_of <$> two_messages.
Definition cut : list (list bytes) :=
  [[take 5 (concat two_octets)]; [take 12 (drop 5 (concat two_octets)); drop 17 (concat two_octets)]].

Lemma two_octets_ok : bytes_ok (concat two_octets) ∧ Forall (Forall bytes_ok) cut.
Proof.
  split; [|repeat (apply Forall_cons; split); try apply Forall_nil; try done];
    apply Forall_forall; intros x Hx; apply list_elem_of_In in Hx; vm_compute in Hx;
    repeat (destruct Hx as [<-|Hx]; [unfold is_byte; lia|]); destruct Hx.
Qed.

Lemma two_messages_wire : Forall2 (@on_the_wire network_order) two_messages two_octets.
Proof.
  repeat (apply Forall2_cons; split); [| |constructor]; unfold on_the_wire, wf_message; split_and!.
  all: try (by left). all: try (exists 4108; vm_compute; reflexivity).
  all: try (vm_compute; split_and!; (done || congruence)).
  all: vm_compute; congruence.
Qed.

Lemma chunking_does_not_matter_witness :
  @tcp_OnReadable network_order tcp_transports 103 [Received (take 5 (concat two_octets))] tcp_leg ≠ tcp_leg
  ∧ foldl (λ l cs, @tcp_OnReadable network_order tcp_transports 103 (Received <$> cs) l) tcp_leg cut
    = @tcp_OnReadable network_order tcp_transports 103 [Received (concat (concat cut))] tcp_leg.
Proof.
  split; [vm_compute; discriminate|].
  apply (@chunking_does_not_matter network_order network_order_laws tcp_transports 103
           [take 5 (concat two_octets)]
           [[take 12 (drop 5 (concat two_octets)); drop 17 (concat two_octets)]] tcp_leg).
  - constructor.
  - apply two_octets_ok.
Defined.

Lemma message_loop_ends_witness :
  let l' := @process_all network_order tcp_transports 103 (append (concat two_octets) tcp_leg) in
  tc_finished (leg_endpoint l') = true ∨ @next_message network_order (tc_in (leg_endpoint l')) = HeadPartial.
Proof.
  apply (@message_loop_ends network_order network_order_laws tcp_transports 103
           (append (concat two_octets) tcp_leg)).
  apply two_octets_ok.
Defined.

Lemma messages_arrive_as_sent_witness :
  settle (foldl (λ l cs, @tcp_OnReadable network_order tcp_transports 103 (Received <$> cs) l) tcp_leg cut)
  = foldl (@deliver network_order tcp_transports 103) (settle tcp_leg) two_messages
  ∧ om_find 3 (users (leg_server (foldl (@deliver network_order tcp_transports 103)
                                    (settle tcp_leg) two_messages))) = None.
Proof.
  split; [|vm_compute; reflexivity].
  apply (@messages_arrive_as_sent network_order network_order_laws tcp_transports 103 two_messages two_octets
           [take 5 (concat two_octets)]
           [[take 12 (drop 5 (concat two_octets)); drop 17 (concat two_octets)]] tcp_leg).
  - apply two_messages_wire.
  - reflexivity.
  - apply two_octets_ok.
  - vm_compute; reflexivity.
Defined.

Definition sample_listener : TcpListener :=
  mkListener true 5070 [(101, new_tcp []); (103, tcp_Finish (new_tcp []))].
Definition reaped := @listener_Reap tcp_transports sample_listener held_by_3.1.

Lemma held_by_3_one_user_each : one_user_each held_by_3.1.
Proof.
  intros i j u v t Hi Hj. apply om_find_elem in Hi, Hj. vm_compute in Hi, Hj.
  apply list_elem_of_In in Hi, Hj. simpl in Hi, Hj.
  destruct Hi as [Hi|[Hi|[Hi|[]]]], Hj as [Hj|[Hj|[Hj|[]]]]; simplify_eq/=; try done;
    intros; simplify_eq.
Qed.

Lemma reap_leaves_no_dangling_transport_witness :
  ¬ attached_to 103 reaped.2.1.1 ∧ (attached_to 101 reaped.2.1.1 ↔ attached_to 101 held_by_3.1).
Proof.
  destruct (@reap_leaves_no_dangling_transport tcp_transports 7 sample_listener held_by_3.1 held_by_3.2
              reaped.1 reaped.2.1.1 reaped.2.1.2 reaped.2.2) as (_ & _ & H1 & H2).
  - apply (sample_reach [OpGrantFloorRequest 2]).
  - apply held_by_3_one_user_each.
  - apply NoDup_cons. split; [|apply NoDup_singleton]. intros H%list_elem_of_singleton. discriminate H.
  - vm_compute; reflexivity.
  - split.
    + apply (H1 (103, tcp_Finish (new_tcp []))); [|reflexivity]. right. left.
    + apply (H2 (101, new_tcp [])); [|reflexivity]. left.
Defined.

(** A Goodbye that arrives together with the end of the stream is not served: the drained octets are
    dropped, and user 3 stays in the conference (without a transport). *)
Theorem goodbye_before_close_is_lost :
  let l := @tcp_OnReadable network_order tcp_transports 103
             [Received (octets_of goodbye_3); RecvClosed] tcp_leg in
  tc_in (leg_endpoint l) = octets_of goodbye_3
  ∧ (u_transport <$> om_find 3 (users (leg_server l))) = Some None
  ∧ om_find 3 (users (leg_server (@tcp_OnReadable network_order tcp_transports 103
                [Received (octets_of goodbye_3)] tcp_leg))) = None.
Proof. vm_compute. split_and!; reflexivity. Qed.
