(* ===== verification/SharedDoc.v ===== *)
(** * Document sharing

    [SharedDocMixer] (src/mcu/src/shareddocmixer.cpp) is the application of the floor
    control server: it owns the server and the transports of a conference, listens to the
    server, and tells the conference who presents.  A call into the server fires its
    notifications before it returns, and a notification may call the server again
    ([onFloorRequest] revokes the floor of the current presenter), so the callbacks are part
    of the call.  Calls follow one another here: what the server does when threads overlap is in
    BfcpConference ([conf_run]).

    A participant is a pointer; [GetPartId] is the number it was created with, [de_alive]
    tells which [weak_ptr]s can still be locked, [de_mode] is the sharing mode each carries.
    A transport is an address here: what it does is BfcpUdp and BfcpTcp.  [de_events] is what
    the mixer did to the outside, in order. *)

From S2P Require Import Prelude OrderedMap IpAddress BfcpAttr BfcpMsg BfcpServer.

Definition FloorId : Z := 1.

Inductive DocSharingMode := DocSharingNone | BFCP_TCP | BFCP_UDP.

#[global] Instance DocSharingMode_eq_dec : EqDecision DocSharingMode.
Proof. solve_decision. Defined.

(** The status string of [conf->onRequestDocSharing]. *)
Inductive DocStatus := DocActive | DocNone | DocWaitingAccept.

Inductive DocEvent :=
  | StartPresentation (partId : Z)
  | StopPresentation (partId : Z)
  | RequestDocSharing (partId : Z) (status : DocStatus)
  | SetDocSharingMosaic (mosaicId partId : Z)
  | NullConf                                   (** a call through a null [conf] *)
  | ServerCalls (c : WireCall)                 (** the server calls a transport *)
  | SetRemote (transport : Z) (remote : IPEndpoint)
  | ServerHello (transport : Z)
  | Destroyed (transport : Z).

Record SharedDocMixer := mkDoc {
  sd_part : option Z;                          (** weak_ptr *)
  sd_conf : bool;                              (** [conf != NULL] *)
  sd_confId : Z;
  sd_sharedMosaic : Z;
  sd_bfcpServer : option Server;
  sd_tcpListener : option (Z * list Z);        (** its port, its connections *)
  sd_udpEndpoints : list (Z * (Z * Z));        (** the endpoint of a participant, its port *)
  sd_floorRequests : list (Z * Z);
  sd_participants : list (Z * Z);              (** weak_ptrs *)
}.

(** The constructor followed by [Init(conf)]. *)
Definition new_doc : SharedDocMixer := mkDoc None true 0 (-1) None None [] [] [].

Definition set_part (p : option Z) (m : SharedDocMixer) : SharedDocMixer :=
  mkDoc p (sd_conf m) (sd_confId m) (sd_sharedMosaic m) (sd_bfcpServer m) (sd_tcpListener m)
    (sd_udpEndpoints m) (sd_floorRequests m) (sd_participants m).
Definition set_conf (b : bool) (m : SharedDocMixer) : SharedDocMixer :=
  mkDoc (sd_part m) b (sd_confId m) (sd_sharedMosaic m) (sd_bfcpServer m) (sd_tcpListener m)
    (sd_udpEndpoints m) (sd_floorRequests m) (sd_participants m).
Definition set_confId (c : Z) (m : SharedDocMixer) : SharedDocMixer :=
  mkDoc (sd_part m) (sd_conf m) c (sd_sharedMosaic m) (sd_bfcpServer m) (sd_tcpListener m)
    (sd_udpEndpoints m) (sd_floorRequests m) (sd_participants m).
Definition set_sharedMosaic (c : Z) (m : SharedDocMixer) : SharedDocMixer :=
  mkDoc (sd_part m) (sd_conf m) (sd_confId m) c (sd_bfcpServer m) (sd_tcpListener m)
    (sd_udpEndpoints m) (sd_floorRequests m) (sd_participants m).
Definition set_bfcpServer (s : option Server) (m : SharedDocMixer) : SharedDocMixer :=
  mkDoc (sd_part m) (sd_conf m) (sd_confId m) (sd_sharedMosaic m) s (sd_tcpListener m)
    (sd_udpEndpoints m) (sd_floorRequests m) (sd_participants m).
Definition set_tcpListener (l : option (Z * list Z)) (m : SharedDocMixer) : SharedDocMixer :=
  mkDoc (sd_part m) (sd_conf m) (sd_confId m) (sd_sharedMosaic m) (sd_bfcpServer m) l
    (sd_udpEndpoints m) (sd_floorRequests m) (sd_participants m).
Definition set_udpEndpoints (f : list (Z * (Z * Z)) → list (Z * (Z * Z))) (m : SharedDocMixer)
  : SharedDocMixer :=
  mkDoc (sd_part m) (sd_conf m) (sd_confId m) (sd_sharedMosaic m) (sd_bfcpServer m) (sd_tcpListener m)
    (f (sd_udpEndpoints m)) (sd_floorRequests m) (sd_participants m).
Definition set_requests (f : list (Z * Z) → list (Z * Z)) (m : SharedDocMixer) : SharedDocMixer :=
  mkDoc (sd_part m) (sd_conf m) (sd_confId m) (sd_sharedMosaic m) (sd_bfcpServer m) (sd_tcpListener m)
    (sd_udpEndpoints m) (f (sd_floorRequests m)) (sd_participants m).
Definition set_participants (f : list (Z * Z) → list (Z * Z)) (m : SharedDocMixer) : SharedDocMixer :=
  mkDoc (sd_part m) (sd_conf m) (sd_confId m) (sd_sharedMosaic m) (sd_bfcpServer m) (sd_tcpListener m)
    (sd_udpEndpoints m) (sd_floorRequests m) (f (sd_participants m)).

Record DocEnv := mkDocEnv {
  de_mixer : SharedDocMixer;
  de_alive : Z → bool;
  de_mode : Z → DocSharingMode;
  de_events : list DocEvent;
}.

(** ** The mixer's computations *)

Definition D (A : Type) : Type := DocEnv → A * DocEnv.
Definition dret {A} (a : A) : D A := λ e, (a, e).
Definition dbind {A B} (m : D A) (k : A → D B) : D B := λ e, let (a, e') := m e in k a e'.

Declare Scope doc_scope.
Delimit Scope doc_scope with doc.
Notation "'let+' x ':=' m 'in' k" := (dbind m (λ x, k))
  (at level 200, x binder, m at level 100, k at level 200) : doc_scope.
Notation "m ;;; k" := (dbind m (λ _, k)) (at level 100, right associativity) : doc_scope.
Local Open Scope doc_scope.

Definition dgets {A} (f : SharedDocMixer → A) : D A := λ e, (f (de_mixer e), e).
Definition dmodify (f : SharedDocMixer → SharedDocMixer) : D unit :=
  λ e, (tt, mkDocEnv (f (de_mixer e)) (de_alive e) (de_mode e) (de_events e)).
Definition emit (ev : DocEvent) : D unit :=
  λ e, (tt, mkDocEnv (de_mixer e) (de_alive e) (de_mode e) (de_events e ++ [ev])).

Fixpoint dfor_each {A} (l : list A) (body : A → D unit) : D unit :=
  match l with
  | [] => dret tt
  | x :: l' => body x ;;; dfor_each l' body
  end.

(** [w.lock()] *)
Definition lock_ptr (e : DocEnv) (w : option Z) : option Z :=
  match w with Some p => if de_alive e p then Some p else None | None => None end.

Definition lock (w : option Z) : D (option Z) := λ e, (lock_ptr e w, e).

(** [this->part.lock()] *)
Definition currentPart : D (option Z) := λ e, (lock_ptr e (sd_part (de_mixer e)), e).

(** [conf->...] *)
Definition conf_call (ev : DocEvent) : D unit :=
  let+ conf := dgets sd_conf in
  if conf then emit ev else emit NullConf.

Section Doc.
Context {T : TransportOps} {N : NetOps}.
Context (GetPartId : Z → Z).

Definition GetParticipant (partId : Z) : D (option Z) :=
  let+ ps := dgets sd_participants in
  match om_find partId ps with
  | None => dret None
  | Some p => lock (Some p)
  end.

Definition GetFloorRequestId (partId : Z) : D Z :=
  dgets (λ m, default 0 (om_find partId (sd_floorRequests m))).

(** A call [bfcpServer->f(...)]: the calls it makes on transports, then [Fire]. *)
Definition call_server {A} (fire : list Notification → D unit) (none : A)
    (f : Server → A * Server * list WireCall * list Notification) : D A :=
  λ e,
    match sd_bfcpServer (de_mixer e) with
    | None => (none, e)
    | Some s =>
        let '(a, s', w, ns) := f s in
        let e := mkDocEnv (set_bfcpServer (Some s') (de_mixer e)) (de_alive e) (de_mode e)
                   (de_events e ++ (ServerCalls <$> w)) in
        let (_, e) := fire ns e in (a, e)
    end.

Definition TearDownSharing : D unit :=
  let+ p := currentPart in
  dmodify (set_part None) ;;;
  match p with
  | None => dret tt
  | Some p =>
      conf_call (StopPresentation (GetPartId p)) ;;;
      conf_call (RequestDocSharing (GetPartId p) DocNone)
  end.

Definition ShareSecondaryStream (part : Z) : D Z :=
  let+ current := currentPart in
  match current with
  | Some c => if c =? part then dret tt else TearDownSharing
  | None => dret tt
  end ;;;
  dmodify (set_part (Some part)) ;;;
  (if bool_decide (current = Some part) then dret tt
   else
     conf_call (StartPresentation (GetPartId part)) ;;;
     conf_call (RequestDocSharing (GetPartId part) DocActive)) ;;;
  dret 1.

(** ** The listener *)

Definition onFloorGranted (floorRequestId beneficiaryId : Z) : D unit :=
  let+ granted := GetParticipant beneficiaryId in
  match granted with
  | None => dret tt
  | Some p => ShareSecondaryStream p ;;; dret tt
  end.

Definition onFloorReleased (floorRequestId beneficiaryId : Z) : D unit :=
  dmodify (set_requests (om_erase beneficiaryId)) ;;;
  let+ current := currentPart in
  match current with
  | None => dret tt
  | Some p => if negb (GetPartId p =? beneficiaryId) then dret tt else TearDownSharing
  end.

(** [NotifyFloorStatus] fires nothing. *)
Definition SetSharedMosaic (mosaicId : Z) : D unit :=
  dmodify (set_sharedMosaic mosaicId) ;;;
  let+ current := currentPart in
  match current with
  | None => dret tt
  | Some p => call_server (λ _, dret tt) false (NotifyFloorStatus (GetPartId p) FloorId) ;;; dret tt
  end.

(** [MultiConf::SetDocSharingMosaic] hands the mosaic back to the mixer; the rest is the conference's. *)
Definition conf_SetDocSharingMosaic (mosaicId id : Z) : D unit :=
  SetSharedMosaic mosaicId ;;;
  emit (SetDocSharingMosaic mosaicId id).

Definition onUserConnected (userId : Z) : D unit :=
  let+ mosaic := dgets sd_sharedMosaic in
  if mosaic <? 0 then dret tt
  else
    let+ conf := dgets sd_conf in
    (if conf then conf_SetDocSharingMosaic mosaic userId else dret tt) ;;;
    call_server (λ _, dret tt) false (NotifyFloorStatus userId FloorId) ;;;
    dret tt.

Definition onFloorRequest (fire : list Notification → D unit) (floorRequestId userId : Z) : D unit :=
  let+ current := currentPart in
  if match current with Some p => GetPartId p =? userId | None => false end then dret tt
  else
    match current with
    | None => dret tt
    | Some p =>
        let+ previous := GetFloorRequestId (GetPartId p) in
        if previous =? 0 then dret tt
        else
          call_server fire false (RevokeFloorRequest previous (octets "granted to other user")) ;;;
          dret tt
    end ;;;
    dmodify (set_requests (om_set userId floorRequestId)) ;;;
    let+ conf := dgets sd_conf in
    if conf then emit (RequestDocSharing userId DocWaitingAccept) else dret tt.

(** One notification; [again] fires those of a call made from the callback. *)
Definition callback (again : list Notification → D unit) (n : Notification) : D unit :=
  match n with
  | OnFloorRequest id u _ _ => onFloorRequest again id u
  | OnFloorGranted id b _ => onFloorGranted id b
  | OnFloorReleased id b _ => onFloorReleased id b
  | OnUserConnected u => onUserConnected u
  end.

(** [Fire]: the callbacks in order.  Only [onFloorRequest] calls back into the server with
    something that fires, and what it fires is not a request: one level is enough. *)
Fixpoint fire (depth : nat) (ns : list Notification) : D unit :=
  dfor_each ns (callback (match depth with O => λ _, dret tt | S d => fire d end)).

Definition on_server {A} (none : A) (f : Server → A * Server * list WireCall * list Notification) : D A :=
  call_server (fire 1) none f.

(** ** The operations of the conference *)

Definition initDocSharing (part : option Z) (sendIp : bytes) (sendPort : Z) : D Z :=
  match part with
  | None => dret 0
  | Some p => λ e,
      if negb (bool_decide (de_mode e p = BFCP_UDP)) then (1, e)
      else
        match om_find (GetPartId p) (sd_udpEndpoints (de_mixer e)) with
        | None => (0, e)
        | Some (endpoint, _) =>
            let (remote, err) := addr_Parse_err sendIp in
            if negb (err =? 0) then (0, e)
            else
              (emit (SetRemote endpoint (ToDualStack remote (to_word sendPort))) ;;;
               emit (ServerHello endpoint) ;;;
               dret 1) e
        end
  end.

Definition has_server : D bool := dgets (λ m, match sd_bfcpServer m with Some _ => true | None => false end).

Definition AcceptDocSharingRequest (part : option Z) : D Z :=
  let+ server := has_server in
  match part with
  | None => dret 0
  | Some p =>
      if negb server then dret 0
      else
        let+ floorRequestId := GetFloorRequestId (GetPartId p) in
        if floorRequestId =? 0 then dret 0
        else
          let+ ok := on_server false (GrantFloorRequest floorRequestId) in
          dret (if ok : bool then 1 else 0)
  end.

Definition RefuseDocSharingRequest (part : option Z) : D Z :=
  let+ server := has_server in
  match part with
  | None => dret 0
  | Some p =>
      if negb server then dret 0
      else
        let+ floorRequestId := GetFloorRequestId (GetPartId p) in
        if floorRequestId =? 0 then dret 0
        else
          let+ ok := on_server false (DenyFloorRequest floorRequestId (octets "refused by the conference")) in
          if negb ok then dret 0
          else
            dmodify (set_requests (om_erase (GetPartId p))) ;;;
            conf_call (RequestDocSharing (GetPartId p) DocNone) ;;;
            dret 1
  end.

Definition StopSharing : D Z :=
  let+ current := currentPart in
  let+ floorRequestId :=
    match current with Some p => GetFloorRequestId (GetPartId p) | None => dret 0 end in
  let+ server := has_server in
  if server && negb (floorRequestId =? 0) then
    let+ ok := on_server false (RevokeFloorRequest floorRequestId (octets "stopped by the conference")) in
    dret (if ok : bool then 1 else 0)
  else TearDownSharing ;;; dret 1.

(** [StopSharing(part)] *)
Definition StopSharing_of (part : option Z) : D Z :=
  let+ current := currentPart in
  if bool_decide (current = part) then StopSharing else dret 1.

(** [opened]: the transport that [Open] bound and its port; [None] when it failed. *)
Definition StartBfcpServer (confId : Z) (part : option Z) (opened : option (Z * Z)) : D bool :=
  match part with
  | None => dret false
  | Some p =>
      let partId := GetPartId p in
      let+ server := has_server in
      (if server then dret tt
       else
         dmodify (set_bfcpServer (Some (AddFloor FloorId (new_server confId)).2)) ;;;
         dmodify (set_confId confId)) ;;;
      dmodify (λ m, set_bfcpServer ((λ s, (AddUser partId s).2) <$> sd_bfcpServer m) m) ;;;
      dmodify (set_participants (om_set partId p)) ;;;
      let+ mode := (λ e, (de_mode e p, e)) in
      match mode with
      | BFCP_TCP =>
          let+ listener := dgets sd_tcpListener in
          match listener with
          | Some _ => dret true
          | None =>
              match opened with
              | None => dret false
              | Some (_, port) => dmodify (set_tcpListener (Some (port, []))) ;;; dret true
              end
          end
      | BFCP_UDP =>
          let+ endpoints := dgets sd_udpEndpoints in
          match om_find partId endpoints with
          | Some _ => dret true
          | None =>
              match opened with
              | None => dret false
              | Some endpoint => dmodify (set_udpEndpoints (om_set partId endpoint)) ;;; dret true
              end
          end
      | DocSharingNone => dret false
      end
  end.

Definition SetDocSharingMode (p : Z) (mode : DocSharingMode) : D unit :=
  λ e, (tt, mkDocEnv (de_mixer e) (de_alive e) (λ q, if q =? p then mode else de_mode e q) (de_events e)).

Definition addParticipant (confId : Z) (part : option Z) (mode : DocSharingMode)
    (opened : option (Z * Z)) : D Z :=
  match part with
  | None => dret 1
  | Some p =>
      SetDocSharingMode p mode ;;;
      match mode with
      | BFCP_TCP | BFCP_UDP =>
          let+ ok := StartBfcpServer confId part opened in
          dret (if ok : bool then 1 else 0)
      | DocSharingNone => dret 1
      end
  end.

Definition removeParticipant (part : option Z) : D Z :=
  match part with
  | None => dret 0
  | Some p =>
      let+ mode := (λ e, (de_mode e p, e)) in
      match mode with
      | DocSharingNone => dret 0
      | _ =>
          let partId := GetPartId p in
          on_server false (RemoveUser partId) ;;;
          dmodify (set_requests (om_erase partId)) ;;;
          dmodify (set_participants (om_erase partId)) ;;;
          let+ endpoints := dgets sd_udpEndpoints in
          match om_find partId endpoints with
          | None => dret tt
          | Some (endpoint, _) =>
              dmodify (set_udpEndpoints (om_erase partId)) ;;;
              emit (Destroyed endpoint)
          end ;;;
          dret 1
      end
  end.

(** [tcpListener.reset()]: the destructor closes the listener. *)
Definition close_connections (connections : list Z) : D unit :=
  dfor_each connections (λ c, on_server tt (TransportClosed c)) ;;;
  dfor_each connections (λ c, emit (Destroyed c)).

Definition StopBfcpServer : D bool :=
  let+ listener := dgets sd_tcpListener in
  let+ endpoints := dgets sd_udpEndpoints in
  dmodify (set_tcpListener None) ;;;
  dmodify (set_udpEndpoints (λ _, [])) ;;;
  dmodify (set_requests (λ _, [])) ;;;
  dmodify (set_participants (λ _, [])) ;;;
  match listener with
  | None => dret tt
  | Some (_, connections) => close_connections connections
  end ;;;
  dfor_each endpoints (λ p, emit (Destroyed p.2.1)) ;;;
  on_server tt End ;;;
  dmodify (set_bfcpServer None) ;;;
  dret true.

Definition getServerPort (part : option Z) (e : DocEnv) : Z :=
  match part with
  | None => 0
  | Some p =>
      match de_mode e p with
      | BFCP_TCP => match sd_tcpListener (de_mixer e) with Some (port, _) => port | None => 0 end
      | BFCP_UDP =>
          match om_find (GetPartId p) (sd_udpEndpoints (de_mixer e)) with
          | Some (_, port) => port
          | None => 0
          end
      | DocSharingNone => 0
      end
  end.

Definition doc_End : D Z :=
  StopSharing ;;;
  StopBfcpServer ;;;
  dmodify (set_conf false) ;;;
  dmodify (set_confId 0) ;;;
  dmodify (set_sharedMosaic (-1)) ;;;
  dret 1.

(** ** What comes from the network and from the rest of the program *)

(** The listener accepted a connection. *)
Definition accept_connection (c : Z) : D unit :=
  dmodify (λ m, set_tcpListener ((λ l, (l.1, l.2 ++ [c])) <$> sd_tcpListener m) m).

(** The listener reaped a connection that was done. *)
Definition reap_connection (c : Z) : D unit :=
  dmodify (λ m, set_tcpListener ((λ l, (l.1, List.filter (λ x, negb (x =? c)) l.2)) <$> sd_tcpListener m) m) ;;;
  on_server tt (TransportClosed c) ;;;
  emit (Destroyed c).

(** The last owner of a participant let it go. *)
Definition participant_destroyed (p : Z) : D unit :=
  λ e, (tt, mkDocEnv (de_mixer e) (λ q, if q =? p then false else de_alive e q) (de_mode e) (de_events e)).

Inductive DocOp :=
  | DocInit (part : option Z) (sendIp : bytes) (sendPort : Z)
  | DocAccept (part : option Z)
  | DocRefuse (part : option Z)
  | DocStop
  | DocStopOf (part : option Z)
  | DocAdd (confId : Z) (part : option Z) (mode : DocSharingMode) (opened : option (Z * Z))
  | DocRemove (part : option Z)
  | DocStopServer
  | DocMosaic (mosaicId : Z)
  | DocEnd
  | DocMessage (msg : BFCPMessage) (from : Z)
  | DocTransportClosed (transport : Z)
  | DocConnection (c : Z)
  | DocReap (c : Z)
  | DocParticipantDestroyed (p : Z).

Definition doc_exec (op : DocOp) (e : DocEnv) : DocEnv :=
  match op with
  | DocInit part ip port => (initDocSharing part ip port e).2
  | DocAccept part => (AcceptDocSharingRequest part e).2
  | DocRefuse part => (RefuseDocSharingRequest part e).2
  | DocStop => (StopSharing e).2
  | DocStopOf part => (StopSharing_of part e).2
  | DocAdd confId part mode opened => (addParticipant confId part mode opened e).2
  | DocRemove part => (removeParticipant part e).2
  | DocStopServer => (StopBfcpServer e).2
  | DocMosaic m => (SetSharedMosaic m e).2
  | DocEnd => (doc_End e).2
  | DocMessage msg from => (on_server tt (MessageReceived msg from) e).2
  | DocTransportClosed t => (on_server tt (TransportClosed t) e).2
  | DocConnection c => (accept_connection c e).2
  | DocReap c => (reap_connection c e).2
  | DocParticipantDestroyed p => (participant_destroyed p e).2
  end.
End Doc.
