(* ===== verification/SharedDocProps.v ===== *)
(** * The presenter holds the floor

    What the mixer tells the conference follows the floor control server: the invariant of
    document sharing, preserved by every operation with all the callbacks it causes. *)

From S2P Require Import Prelude OrderedMap IpAddress BfcpAttr BfcpMsg BfcpServer BfcpFloorSpec BfcpServerRefine.
From S2P Require Import BfcpServerProps BfcpConference SharedDoc.

(** ** Requests are announced last *)

Definition is_request (n : Notification) : Prop :=
  match n with OnFloorRequest _ _ _ _ => True | _ => False end.

Definition plain (ns : list Notification) : Prop := Forall (λ n, ¬ is_request n) ns.

(** Announces no request. *)
Definition unasking (e e' : Env) : Prop := ∃ ns, pending e' = pending e ++ ns ∧ plain ns.

#[global] Instance unasking_preorder : PreOrder unasking.
Proof.
  split.
  - intros e. exists []. by rewrite app_nil_r; split; [|constructor].
  - intros e1 e2 e3 (n1 & H1 & F1) (n2 & H2 & F2). exists (n1 ++ n2). rewrite H2, H1, app_assoc.
    split; [done|by apply Forall_app].
Qed.

Abbreviation unasked := (respects unasking).

Lemma unasked_same e e' : pending e' = pending e → unasking e e'.
Proof. intros H. exists []. by rewrite H, app_nil_r; split; [|constructor]. Qed.

Lemma unasked_modify f : unasked (modify f).
Proof. intros e. by apply unasked_same. Qed.
Lemma unasked_call c : unasked (call c).
Proof. intros e. by apply unasked_same. Qed.
Lemma unasked_push n : ¬ is_request n → unasked (push_back n).
Proof. intros H e. exists [n]. split; [done|by constructor]. Qed.
Lemma unasked_SendMessage `{TransportOps} u m : unasked (user_SendMessage u m).
Proof. intros e. unfold user_SendMessage. destruct (u_transport u); by apply unasked_same. Qed.
#[export] Hint Resolve unasked_modify unasked_call unasked_SendMessage : respects.
#[export] Hint Extern 1 (unasked (push_back _)) => (apply unasked_push; simpl; tauto) : respects.

Section Unasked.
Context {T : TransportOps}.

Lemma unasked_alter_user u f : unasked (alter_user u f).
Proof. apply unasked_modify. Qed.
Lemma unasked_set_status i st : unasked (set_request_status i st).
Proof. apply unasked_modify. Qed.
Lemma unasked_erase i : unasked (erase_request i).
Proof. apply unasked_modify. Qed.
Lemma unasked_NextTransactionId : unasked NextTransactionIdLocked.
Proof. unfold NextTransactionIdLocked. respects_solve. Qed.
Hint Resolve unasked_alter_user unasked_set_status unasked_erase unasked_NextTransactionId : respects.
Lemma unasked_NotificationTransactionId u : unasked (NotificationTransactionIdLocked u).
Proof. unfold NotificationTransactionIdLocked. respects_solve. Qed.
Hint Resolve unasked_NotificationTransactionId : respects.
Lemma unasked_SendMessageLocked m : unasked (SendMessageLocked m).
Proof. unfold SendMessageLocked. respects_solve. Qed.
Hint Resolve unasked_SendMessageLocked : respects.
Lemma unasked_SendFloorRequestStatus r t u i b : unasked (SendFloorRequestStatusLocked r t u i b).
Proof. unfold SendFloorRequestStatusLocked. respects_solve. Qed.
Lemma unasked_NotifyForFloorRequest r : unasked (NotifyForFloorRequestLocked r).
Proof. unfold NotifyForFloorRequestLocked. respects_solve. Qed.
Lemma unasked_ReplyError m t c i : unasked (ReplyErrorLocked m t c i).
Proof. unfold ReplyErrorLocked. respects_solve. Qed.
Lemma unasked_send_goodbye u : unasked (send_goodbye u).
Proof. unfold send_goodbye. respects_solve. Qed.
Lemma unasked_answer_query m u i f : unasked (answer_query m u i f).
Proof. unfold answer_query. respects_solve. Qed.
Hint Resolve unasked_SendFloorRequestStatus unasked_NotifyForFloorRequest unasked_ReplyError
  unasked_send_goodbye unasked_answer_query : respects.
Lemma unasked_Revoke id info : unasked (RevokeFloorRequestLocked id info).
Proof. unfold RevokeFloorRequestLocked. respects_solve. Qed.
Lemma unasked_Deny id info : unasked (DenyFloorRequestLocked id info).
Proof. unfold DenyFloorRequestLocked. respects_solve. Qed.
Hint Resolve unasked_Revoke unasked_Deny : respects.
Lemma unasked_revoke_or_deny info id : unasked (revoke_or_deny info id).
Proof. unfold revoke_or_deny. respects_solve. Qed.
Lemma unasked_Grant id : unasked (GrantFloorRequestLocked id).
Proof. unfold GrantFloorRequestLocked. respects_solve. Qed.
Hint Resolve unasked_revoke_or_deny unasked_Grant : respects.
Lemma unasked_RevokeUser u : unasked (RevokeUserFloorRequestsLocked u).
Proof. unfold RevokeUserFloorRequestsLocked. respects_solve. Qed.
Lemma unasked_CloseTransport u : unasked (user_CloseTransport u).
Proof. unfold user_CloseTransport. respects_solve. Qed.
Hint Resolve unasked_RevokeUser unasked_CloseTransport : respects.
Lemma unasked_Attach u t : unasked (AttachTransportLocked u t).
Proof. unfold AttachTransportLocked. respects_solve. Qed.
Lemma unasked_Detach u : unasked (DetachTransportLocked u).
Proof. unfold DetachTransportLocked. respects_solve. Qed.
Lemma unasked_RemoveUser u b : unasked (RemoveUserLocked u b).
Proof. unfold RemoveUserLocked. respects_solve. Qed.
Hint Resolve unasked_Attach unasked_Detach unasked_RemoveUser : respects.
Lemma unasked_End : unasked End_locked.
Proof. unfold End_locked. respects_solve. Qed.
End Unasked.

(** Announces at most one request, and last. *)
Definition asked_last (ns : list Notification) : Prop :=
  plain ns ∨ ∃ ns0 id u b fs, ns = ns0 ++ [OnFloorRequest id u b fs] ∧ plain ns0.

Definition asking {A} (m : M A) : Prop :=
  ∀ e, ∃ ns, pending (m e).2 = pending e ++ ns ∧ asked_last ns.

Lemma unasked_asking {A} (m : M A) : unasked m → asking m.
Proof. intros H e. destruct (H e) as (ns & Hp & Hns). exists ns. split; [done|by left]. Qed.

Lemma asking_push n : asking (push_back n).
Proof.
  intros e. exists [n]. split; [done|]. destruct n; [right|left; by repeat constructor; intros []..].
  eexists [], _, _, _, _. split; [done|constructor].
Qed.

Lemma asking_bind {A B} (m : M A) (k : A → M B) :
  unasked m → (∀ a, asking (k a)) → asking (bind m k).
Proof.
  intros Hm Hk e. unfold bind. destruct (Hm e) as (n1 & H1 & F1).
  destruct (m e) as [a e1]. simpl in *. destruct (Hk a e1) as (n2 & H2 & F2).
  exists (n1 ++ n2). rewrite H2, H1, app_assoc. split; [done|].
  destruct F2 as [F2|(n0 & id & u & b & fs & -> & F2)].
  - left. by apply Forall_app.
  - right. exists (n1 ++ n0), id, u, b, fs. rewrite app_assoc. split; [done|by apply Forall_app].
Qed.

Ltac asking_step :=
  match goal with
  | |- asking (bind _ _) => apply asking_bind; [solve [respects_solve]|intros ?]
  | |- asking (push_back _) => apply asking_push
  | |- asking (match ?x with _ => _ end) => destruct x
  | |- asking _ => apply unasked_asking; solve [respects_solve]
  end.
Ltac asking_solve := intros; repeat (progress (cbv beta zeta) || asking_step).

Section Shape.
Context {T : TransportOps}.

Hint Resolve unasked_alter_user unasked_set_status unasked_erase unasked_NextTransactionId
  unasked_NotificationTransactionId unasked_SendMessageLocked unasked_SendFloorRequestStatus
  unasked_NotifyForFloorRequest unasked_ReplyError unasked_send_goodbye unasked_answer_query unasked_Revoke
  unasked_Deny unasked_revoke_or_deny unasked_Grant unasked_RevokeUser unasked_CloseTransport unasked_Attach
  unasked_Detach unasked_RemoveUser unasked_End : respects.

Lemma asking_MessageReceived msg from : asking (MessageReceived_locked msg from).
Proof.
  unfold MessageReceived_locked, dispatch, ProcessFloorRequestLocked, ProcessFloorReleaseLocked,
    ProcessFloorQueryLocked, ProcessHelloLocked, ProcessGoodbyeLocked. asking_solve.
Qed.

Lemma run_unasked {A} (m : M A) s : unasked m → plain (effects (run m s)).2.
Proof.
  intros H. unfold run. destruct (H (mkEnv s [] [])) as (ns & Hp & Hns).
  destruct (m (mkEnv s [] [])) as [a e]. simpl in *. by rewrite Hp.
Qed.

Definition is_message (op : Op) : Prop := match op with OpMessageReceived _ _ => True | _ => False end.

Lemma exec_plain op s : ¬ is_message op → plain (exec op s).2.
Proof.
  intros Hop. destruct op; simpl in *; try done; try (by constructor); try apply run_unasked;
    unfold UserConnected_locked, UserDisconnected_locked, TransportClosed_locked, NotifyFloorStatus_locked;
    respects_solve.
Qed.

Lemma exec_asked_last op s : asked_last (exec op s).2.
Proof.
  assert (is_message op ∨ ¬ is_message op) as [Hop|Hop] by (destruct op; simpl; tauto);
    [|left; by apply exec_plain].
  destruct op; try done. simpl. unfold MessageReceived, run.
  destruct (asking_MessageReceived msg from (mkEnv s [] [])) as (ns & Hp & Hns).
  destruct (MessageReceived_locked msg from _) as [a e]. simpl in *. by rewrite Hp.
Qed.
End Shape.

Lemma exec_live `{TransportOps} op s s' w ns :
  Inv s → ending s = false → op ≠ OpEnd → exec op s = (s', w, ns) →
  Inv s' ∧ ending s' = false ∧ replay (held s) ns = Some (held s').
Proof.
  intros HI He Hop Hx. destruct (exec_refines op s HI) as [HI' Hst].
  pose proof (exec_ending op s Hop) as He'. rewrite Hx in *. simpl in *.
  split_and!; [done|congruence|]. apply asteps_replay; [done|done|congruence].
Qed.

(** ** The invariant of document sharing *)

(** [MultiConf::presenterId] as [StartPresentation] and [StopPresentation] leave it. *)
Definition presenter_step (cur : Z) (ev : DocEvent) : Z :=
  match ev with
  | StartPresentation i => i
  | StopPresentation i => if cur =? i then 0 else cur
  | _ => cur
  end.

Definition presenter (evs : list DocEvent) : Z := foldl presenter_step 0 evs.

(** The participant the mixer presents, if it still exists. *)
Definition presented (e : DocEnv) : option Z := lock_ptr e (sd_part (de_mixer e)).

Section Sharing.
Context {T : TransportOps} {N : NetOps}.
Context (GetPartId : Z → Z).
(** Participants are numbered from 1, and numbers are not reused. *)
Context (part_pos : ∀ p, 0 < GetPartId p).
Context (part_inj : ∀ p q, GetPartId p = GetPartId q → p = q).

(** The conference shows whom the mixer presents, and that participant holds a floor of [h] when the
    server is there. *)
Record follows (h : option Holders) (e : DocEnv) : Prop := {
  sh_conf : sd_conf (de_mixer e) = true;
  sh_ids : ∀ k p, om_find k (sd_participants (de_mixer e)) = Some p → GetPartId p = k;
  sh_shown : ∀ p, presented e = Some p → presenter (de_events e) = GetPartId p;
  sh_live : ∀ p, de_alive e p = true → presenter (de_events e) = GetPartId p → presented e = Some p;
  sh_held : ∀ p, presented e = Some p →
    match h with Some h => ∃ id fs, om_find id h = Some (GetPartId p, fs) | None => True end;
}.

Record doc_ok (e : DocEnv) : Prop := {
  do_server : ∀ s, sd_bfcpServer (de_mixer e) = Some s → Inv s ∧ ending s = false;
  do_shared : follows (held <$> sd_bfcpServer (de_mixer e)) e;
}.

(** Only what [follows] looks at changed. *)
Lemma shared_same h e e' :
  sd_conf (de_mixer e') = sd_conf (de_mixer e) → sd_participants (de_mixer e') = sd_participants (de_mixer e) →
  sd_part (de_mixer e') = sd_part (de_mixer e) → de_alive e' = de_alive e →
  presenter (de_events e') = presenter (de_events e) →
  follows h e → follows h e'.
Proof.
  intros Hc Hps Hp Ha Hev []. unfold presented, lock_ptr in *.
  split; unfold presented, lock_ptr; rewrite ?Hc, ?Hps, ?Hp, ?Ha, ?Hev; done.
Qed.

Lemma presenter_app evs l : presenter (evs ++ l) = foldl presenter_step (presenter evs) l.
Proof. unfold presenter. by rewrite foldl_app. Qed.

Lemma presenter_calls evs w : presenter (evs ++ (ServerCalls <$> w)) = presenter evs.
Proof.
  rewrite presenter_app. generalize (presenter evs) as c. induction w as [|x w IH]; intros c; simpl; [done|].
  apply IH.
Qed.

(** After callbacks that only read the server: it holds what it held, and the participants are the
    same. *)
Record srv_same (e e' : DocEnv) : Prop := {
  ss_participants : sd_participants (de_mixer e') = sd_participants (de_mixer e);
  ss_alive : de_alive e' = de_alive e;
  ss_server :
    match sd_bfcpServer (de_mixer e), sd_bfcpServer (de_mixer e') with
    | Some s, Some s' => (Inv s → Inv s') ∧ held s' = held s ∧ ending s' = ending s
    | None, None => True
    | _, _ => False
    end;
}.

#[global] Instance srv_same_preorder : PreOrder srv_same.
Proof.
  split.
  - intros e. split; try done. by destruct (sd_bfcpServer (de_mixer e)).
  - intros e1 e2 e3 [P1 L1 H1] [P2 L2 H2]. split; [congruence..|].
    destruct (sd_bfcpServer (de_mixer e1)), (sd_bfcpServer (de_mixer e2)), (sd_bfcpServer (de_mixer e3)); try done.
    destruct H1 as (A1 & B1 & C1), H2 as (A2 & B2 & C2). split_and!; [auto|congruence..].
Qed.

Lemma srv_same_eq e e' :
  sd_participants (de_mixer e') = sd_participants (de_mixer e) → de_alive e' = de_alive e →
  sd_bfcpServer (de_mixer e') = sd_bfcpServer (de_mixer e) → srv_same e e'.
Proof. intros Hp Ha H. split; [done..|]. rewrite H. by destruct (sd_bfcpServer (de_mixer e)). Qed.

Lemma conf_call_result ev e :
  sd_conf (de_mixer e) = true →
  conf_call ev e = (tt, mkDocEnv (de_mixer e) (de_alive e) (de_mode e) (de_events e ++ [ev])).
Proof. intros H. unfold conf_call, dbind, dgets. by rewrite H. Qed.

Lemma TearDown_result e :
  sd_conf (de_mixer e) = true →
  (TearDownSharing GetPartId e).2
  = mkDocEnv (set_part None (de_mixer e)) (de_alive e) (de_mode e)
      (de_events e ++ match presented e with
                      | Some p => [StopPresentation (GetPartId p); RequestDocSharing (GetPartId p) DocNone]
                      | None => []
                      end).
Proof.
  intros Hc. unfold TearDownSharing, dbind, currentPart, dmodify. fold (presented e).
  destruct (presented e); [|by rewrite app_nil_r].
  rewrite !conf_call_result by done. simpl. by rewrite <- app_assoc.
Qed.

Lemma TearDown_shared h h' e :
  follows h e →
  follows h' (TearDownSharing GetPartId e).2 ∧ presented (TearDownSharing GetPartId e).2 = None
  ∧ sd_bfcpServer (de_mixer (TearDownSharing GetPartId e).2) = sd_bfcpServer (de_mixer e)
  ∧ srv_same e (TearDownSharing GetPartId e).2.
Proof.
  intros [Hc Hi Hs Hl Hh]. rewrite TearDown_result by done. unfold presented at 2. simpl.
  split_and!; [|done|done|by apply srv_same_eq]. split; simpl; try done. intros p Ha. rewrite presenter_app.
  destruct (presented e) as [q|] eqn:Hq; simpl.
  - rewrite (Hs q eq_refl), Z.eqb_refl. intros H0. pose proof (part_pos p). lia.
  - intros Hp. apply Hl in Hp; [|done]. congruence.
Qed.

Lemma Share_result p e :
  (ShareSecondaryStream GetPartId p e).2 =
  let e1 := match presented e with
            | Some c => if c =? p then e else (TearDownSharing GetPartId e).2
            | None => e
            end in
  let e2 := mkDocEnv (set_part (Some p) (de_mixer e1)) (de_alive e1) (de_mode e1) (de_events e1) in
  if bool_decide (presented e = Some p) then e2
  else (conf_call (RequestDocSharing (GetPartId p) DocActive)
          (conf_call (StartPresentation (GetPartId p)) e2).2).2.
Proof.
  unfold ShareSecondaryStream, dbind, currentPart. fold (presented e).
  destruct (bool_decide (presented e = Some p)); destruct (presented e) as [c|]; try destruct (c =? p);
    try destruct (TearDownSharing GetPartId e) as [? e1]; cbn [dret dmodify fst snd];
    try destruct (conf_call (StartPresentation _) _) as [? e2]; cbn [snd];
    try destruct (conf_call (RequestDocSharing _ _) _); done.
Qed.

Lemma Share_shared h p id fs e :
  follows (Some h) e → de_alive e p = true → om_find id h = Some (GetPartId p, fs) →
  follows (Some h) (ShareSecondaryStream GetPartId p e).2
  ∧ presented (ShareSecondaryStream GetPartId p e).2 = Some p
  ∧ srv_same e (ShareSecondaryStream GetPartId p e).2.
Proof.
  intros Hsh Ha Hid. rewrite Share_result. cbv zeta.
  destruct (decide (presented e = Some p)) as [Hp|Hp].
  - rewrite bool_decide_eq_true_2, Hp, Z.eqb_refl by done.
    assert (sd_part (de_mixer e) = Some p) as Hpart.
    { unfold presented, lock_ptr in Hp. destruct (sd_part (de_mixer e)) as [q|]; [|done].
      destruct (de_alive e q); congruence. }
    split_and!; [eapply shared_same; [..|exact Hsh]; done| |by apply srv_same_eq].
    unfold presented. simpl. by rewrite Ha.
  - rewrite bool_decide_eq_false_2 by done.
    set (e1 := match presented e with Some c => if c =? p then e else _ | None => e end).
    assert (follows (Some h) e1 ∧ srv_same e e1) as [He1 Hs1].
    { unfold e1. destruct (presented e) as [c|]; [|done].
      destruct (Z.eqb_spec c p); [congruence|].
      destruct (TearDown_shared (Some h) (Some h) e Hsh) as (? & _ & _ & ?). done. }
    clearbody e1. destruct He1 as [Hc Hi Hs Hl Hh]. pose proof (ss_alive _ _ Hs1) as Ha1.
    rewrite (conf_call_result (StartPresentation _)) by done. cbn [snd].
    rewrite conf_call_result by done. cbn [snd].
    split_and!; [|unfold presented; simpl; by rewrite Ha1, Ha|etrans; [exact Hs1|by apply srv_same_eq]].
    split; unfold presented, lock_ptr; simpl; rewrite ?Ha1, ?Ha, ?presenter_app; simpl; try done.
    + by intros q [= <-].
    + intros q Hq Hpq. f_equal. by apply part_inj.
    + intros q [= <-]. by exists id, fs.
Qed.

(** ** The callbacks *)

Lemma shared_weaken h h' e :
  (∀ id b fs, om_find id h = Some (b, fs) → ∃ id' fs', om_find id' h' = Some (b, fs')) →
  follows (Some h) e → follows (Some h') e.
Proof.
  intros Hw [Hc Hi Hs Hl Hh]. split; try done. intros p Hp. destruct (Hh p Hp) as (id & fs & H). eauto.
Qed.

Lemma Granted_shared h h' id b fs e :
  replay1 h (OnFloorGranted id b fs) = Some h' → follows (Some h) e →
  follows (Some h') (onFloorGranted GetPartId id b e).2 ∧ srv_same e (onFloorGranted GetPartId id b e).2
  ∧ ∀ q, om_find b (sd_participants (de_mixer e)) = Some q → de_alive e q = true →
      presented (onFloorGranted GetPartId id b e).2 = Some q.
Proof.
  simpl. destruct (bool_decide (om_find id h = None)) eqn:Hn; [|done]. apply bool_decide_eq_true in Hn.
  destruct (floors_free fs h); [|done]. intros [= <-] Hsh.
  assert (follows (Some (om_set id (b, fs) h)) e) as Hsh'.
  { eapply shared_weaken; [|exact Hsh]. intros i b' fs' Hi. exists i, fs'.
    rewrite om_find_set_ne; [done|congruence]. }
  unfold onFloorGranted, GetParticipant, dbind, dgets.
  destruct (om_find b (sd_participants (de_mixer e))) as [p|] eqn:Hp; simpl; [|done].
  destruct (de_alive e p) eqn:Ha; [|by split_and!; [done|done|intros q [= <-]; rewrite Ha]].
  destruct (Share_shared _ p id fs e Hsh' Ha) as (H1 & H2 & H3).
  { rewrite om_find_set_eq. by rewrite (sh_ids _ _ Hsh _ _ Hp). }
  destruct (ShareSecondaryStream GetPartId p e) as [r e']. simpl in *. by split_and!; [| |intros q [= <-]].
Qed.

Lemma Released_shared h h' id b fs e :
  replay1 h (OnFloorReleased id b fs) = Some h' → follows (Some h) e →
  follows (Some h') (onFloorReleased GetPartId id b e).2 ∧ srv_same e (onFloorReleased GetPartId id b e).2.
Proof.
  simpl. destruct (bool_decide (om_find id h = Some (b, fs))) eqn:Hn; [|done]. apply bool_decide_eq_true in Hn.
  intros [= <-] Hsh. unfold onFloorReleased, dbind, dmodify, currentPart.
  set (e1 := mkDocEnv (set_requests _ _) _ _ _).
  assert (follows (Some h) e1) as H1 by (by eapply shared_same; [..|exact Hsh]).
  fold (presented e1). destruct (presented e1) as [p|] eqn:Hp; simpl.
  - destruct (Z.eqb_spec (GetPartId p) b) as [Hb|Hb]; simpl.
    + destruct (TearDown_shared (Some h) (Some (om_erase id h)) e1 H1) as (? & _ & _ & ?).
      split; [done|]. etrans; [|done]. by apply srv_same_eq.
    + split; [|by apply srv_same_eq]. destruct H1 as [Hc Hi Hs Hl Hh]. split; try done.
      intros q Hq. rewrite Hp in Hq. injection Hq as <-.
      destruct (Hh p Hp) as (i & fs' & Hi'). exists i, fs'. rewrite om_find_erase_ne; [done|congruence].
  - split; [|by apply srv_same_eq]. destruct H1 as [Hc Hi Hs Hl Hh]. split; try done. intros q. by rewrite Hp.
Qed.

Lemma Notify_server u f s a s' w ns :
  NotifyFloorStatus u f s = (a, s', w, ns) → (Inv s → Inv s') ∧ held s' = held s ∧ ending s' = ending s.
Proof.
  intros H. unfold NotifyFloorStatus, run in H.
  pose proof (quiet_NotifyFloorStatus u f (mkEnv s [] [])) as Hq.
  destruct (NotifyFloorStatus_locked u f _) as [b e] eqn:E. simplify_eq.
  destruct Hq as [Heq Htc _]. simpl in *. split_and!.
  - intros HI. eapply astep_Inv; [by apply as_quiet; [symmetry|]|done].
  - unfold held. by rewrite Heq.
  - by rewrite Heq.
Qed.
(** Nothing of what [follows] and [srv_same] look at changed. *)
Record kept (e e' : DocEnv) : Prop := {
  kp_conf : sd_conf (de_mixer e') = sd_conf (de_mixer e);
  kp_participants : sd_participants (de_mixer e') = sd_participants (de_mixer e);
  kp_part : sd_part (de_mixer e') = sd_part (de_mixer e);
  kp_alive : de_alive e' = de_alive e;
  kp_presenter : presenter (de_events e') = presenter (de_events e);
  kp_server : srv_same e e';
}.

#[local] Instance kept_preorder : PreOrder kept.
Proof.
  split; [by intros e; split|]. intros e1 e2 e3 [] []. split; try congruence. by transitivity e2.
Qed.

Definition still {A} (m : D A) : Prop := ∀ e, kept e (m e).2.

Lemma still_bind {A B} (m : D A) (k : A → D B) : still m → (∀ a, still (k a)) → still (dbind m k).
Proof.
  intros Hm Hk e. unfold dbind. specialize (Hm e). destruct (m e) as [a e1]. etrans; [exact Hm|apply Hk].
Qed.
Lemma still_ret {A} (a : A) : still (dret a).
Proof. by intros e. Qed.
Lemma still_gets {A} (f : SharedDocMixer → A) : still (dgets f).
Proof. by intros e. Qed.
Lemma still_currentPart : still currentPart.
Proof. by intros e. Qed.
Lemma still_mosaic i : still (dmodify (set_sharedMosaic i)).
Proof. intros e. split; try done. by apply srv_same_eq. Qed.
Lemma still_requests f : still (dmodify (set_requests f)).
Proof. intros e. split; try done. by apply srv_same_eq. Qed.
Lemma still_emit ev : (∀ c, presenter_step c ev = c) → still (emit ev).
Proof.
  intros H e. split; try done; simpl; [|by apply srv_same_eq]. rewrite presenter_app. apply H.
Qed.

Lemma still_Notify u f : still (call_server (λ _, dret tt) false (NotifyFloorStatus u f)).
Proof.
  intros e. unfold call_server. destruct (sd_bfcpServer (de_mixer e)) as [s|] eqn:Hs; [|by split; try apply srv_same_eq].
  destruct (NotifyFloorStatus u f s) as [[[a s'] w] ns] eqn:Hn. simpl.
  split; try done; [simpl; by rewrite presenter_calls|]. split; try done. rewrite Hs. simpl.
  by eapply Notify_server.
Qed.

Ltac still_solve :=
  repeat first
    [ apply still_bind; [|intros ?] | apply still_ret | apply still_gets | apply still_currentPart
    | apply still_mosaic | apply still_requests | apply still_Notify | apply still_emit; done
    | match goal with |- still (match ?x with _ => _ end) => destruct x end ].

Lemma still_SetSharedMosaic i : still (SetSharedMosaic GetPartId i).
Proof. unfold SetSharedMosaic. still_solve. Qed.

Lemma still_onUserConnected u : still (onUserConnected GetPartId u).
Proof.
  unfold onUserConnected, conf_SetDocSharingMosaic. still_solve; try apply still_SetSharedMosaic; still_solve.
Qed.

Lemma shared_kept h e e' : kept e e' → follows h e → follows h e'.
Proof. intros [] H. by eapply shared_same. Qed.

(** A notification that is not a request is followed whatever the depth. *)
Lemma callback_shared again n h h' e :
  ¬ is_request n → replay1 h n = Some h' → follows (Some h) e →
  follows (Some h') (callback GetPartId again n e).2 ∧ srv_same e (callback GetPartId again n e).2.
Proof.
  intros Hn Hr Hsh. destruct n as [id u b fs|id b fs|id b fs|u]; simpl in Hn; [tauto|..].
  - destruct (Granted_shared h h' id b fs e Hr Hsh) as (? & ? & _). done.
  - by eapply Released_shared.
  - injection Hr as <-. pose proof (still_onUserConnected u e) as Hk.
    split; [by eapply shared_kept|apply Hk].
Qed.

Lemma for_plain again ns h h' e :
  plain ns → replay h ns = Some h' → follows (Some h) e →
  follows (Some h') (dfor_each ns (callback GetPartId again) e).2
  ∧ srv_same e (dfor_each ns (callback GetPartId again) e).2.
Proof.
  revert h e. induction ns as [|n ns IH]; intros h e Hp Hr Hsh; simpl in *; [by simplify_eq|].
  apply Forall_cons in Hp as [Hn Hp]. destruct (replay1 h n) as [h1|] eqn:Hr1; [|done].
  destruct (callback_shared again n h h1 e Hn Hr1 Hsh) as [H1 S1]. unfold dbind.
  destruct (callback GetPartId again n e) as [? e1]. simpl in *.
  destruct (IH h1 e1 Hp Hr H1) as [H2 S2]. split; [done|by etrans].
Qed.

(** ** Calls into the server *)

Abbreviation dfire := (fire GetPartId).

Lemma dfor_each_app {A} (l1 l2 : list A) body e :
  (dfor_each (l1 ++ l2) body e).2 = (dfor_each l2 body (dfor_each l1 body e).2).2.
Proof.
  revert e. induction l1 as [|x l1 IH]; intros e; simpl; [done|]. unfold dbind.
  destruct (body x e) as [? e1]. apply IH.
Qed.

Lemma doc_ok_of s h e e' :
  sd_bfcpServer (de_mixer e) = Some s → Inv s → ending s = false → held s = h →
  srv_same e e' → follows (Some h) e' → doc_ok e'.
Proof.
  intros Hs HI He <- [_ _ Hss] Hsh. rewrite Hs in Hss.
  destruct (sd_bfcpServer (de_mixer e')) as [s'|] eqn:Hs'; [|done]. destruct Hss as (H1 & H2 & H3).
  split; rewrite Hs'; [|simpl; by rewrite H2].
  intros s0 [= <-]. split; [auto|congruence].
Qed.

(** The mixer when the server returned from the call and has not fired yet. *)
Definition called (e : DocEnv) (s' : Server) (w : list WireCall) : DocEnv :=
  mkDocEnv (set_bfcpServer (Some s') (de_mixer e)) (de_alive e) (de_mode e)
    (de_events e ++ (ServerCalls <$> w)).

Lemma called_shared h e s' w : follows h e → follows h (called e s' w).
Proof. intros H. eapply shared_same; [..|exact H]; try done. simpl. apply presenter_calls. Qed.

Section Call.
Context {A : Type} (none : A) (f : Server → A * Server * list WireCall * list Notification) (op : Op).
Context (f_op : ∀ s, effects (f s) = exec op s) (not_end : op ≠ OpEnd).

Lemma call_plain d e : ¬ is_message op → doc_ok e → doc_ok (call_server (dfire d) none f e).2.
Proof.
  intros Hm Hd. pose proof Hd as [Hsv Hsh]. unfold call_server. destruct (sd_bfcpServer (de_mixer e)) as [s|] eqn:Hs;
    [|exact Hd].
  destruct (Hsv s eq_refl) as [HI He]. specialize (f_op s).
  destruct (f s) as [[[a s'] w] ns] eqn:Hf. simpl in f_op. symmetry in f_op.
  destruct (exec_live op s s' w ns HI He not_end f_op) as (HI' & He' & Hr).
  pose proof (exec_plain op s Hm) as Hp. rewrite f_op in Hp. simpl in Hp, Hsh.
  fold (called e s' w).
  destruct (for_plain (match d with O => λ _, dret tt | S d => dfire d end) ns (held s) (held s') (called e s' w) Hp Hr)
    as [H1 H2]; [by apply called_shared|].
  destruct d; simpl in *; destruct (dfor_each ns _ (called e s' w)); by apply (doc_ok_of s' (held s') (called e s' w)).
Qed.
End Call.

Lemma doc_ok_kept e e' : kept e e' → doc_ok e → doc_ok e'.
Proof.
  intros Hk [Hs Hsh]. pose proof (ss_server _ _ (kp_server _ _ Hk)) as Hss.
  apply (shared_kept _ _ _ Hk) in Hsh.
  destruct (sd_bfcpServer (de_mixer e)) as [s|], (sd_bfcpServer (de_mixer e')) as [s'|] eqn:Hs'; try done;
    split; rewrite ?Hs'; try done.
  - destruct Hss as (H1 & _ & H3), (Hs s eq_refl). intros ? [= <-]. split; [auto|congruence].
  - destruct Hss as (_ & Hh & _). simpl. by rewrite Hh.
Qed.

(** [m] keeps the invariant. *)
Definition safe {A} (m : D A) : Prop := ∀ e, doc_ok e → doc_ok (m e).2.

Lemma safe_keeps {A} (m : D A) : still m → safe m.
Proof. intros H e. apply doc_ok_kept, H. Qed.
Lemma safe_bind {A B} (m : D A) (k : A → D B) : safe m → (∀ a, safe (k a)) → safe (dbind m k).
Proof.
  intros Hm Hk e He. unfold dbind. specialize (Hm e He). destruct (m e) as [a e1]. by apply Hk.
Qed.
Lemma safe_for_each {A} (l : list A) body : (∀ x, safe (body x)) → safe (dfor_each l body).
Proof.
  intros H. induction l as [|x l IH]; simpl; [by apply safe_keeps, still_ret|]. by apply safe_bind.
Qed.

Lemma safe_TearDown : safe (TearDownSharing GetPartId).
Proof.
  intros e [Hs Hsh]. destruct (TearDown_shared _ (held <$> sd_bfcpServer (de_mixer e)) e Hsh) as (H1 & _ & H2 & _).
  split; by rewrite H2.
Qed.

Lemma safe_call {A} d (none : A) f op :
  (∀ s, effects (f s) = exec op s) → op ≠ OpEnd → ¬ is_message op → safe (call_server (dfire d) none f).
Proof. intros Hf Hop Hm e He. by eapply call_plain. Qed.

Ltac server_op := first [intros ?; reflexivity | discriminate | simpl; tauto].

Lemma safe_onFloorRequest d id u : safe (onFloorRequest GetPartId (dfire d) id u).
Proof.
  unfold onFloorRequest. apply safe_bind; [apply safe_keeps, still_currentPart|intros cur].
  destruct (match cur with Some p => GetPartId p =? u | None => false end); [apply safe_keeps, still_ret|].
  apply safe_bind.
  - destruct cur as [p|]; [|apply safe_keeps, still_ret].
    apply safe_bind; [apply safe_keeps, still_gets|intros prev]. destruct (prev =? 0); [apply safe_keeps, still_ret|].
    apply safe_bind; [|intros ?; apply safe_keeps, still_ret].
    apply (safe_call d false _ (OpRevokeFloorRequest prev (octets "granted to other user"))); server_op.
  - intros _. apply safe_keeps. still_solve.
Qed.

Lemma safe_message msg from : safe (on_server GetPartId tt (MessageReceived msg from)).
Proof.
  intros e Hd. pose proof Hd as [Hsv Hsh]. unfold on_server, call_server.
  destruct (sd_bfcpServer (de_mixer e)) as [s|] eqn:Hs; [|exact Hd].
  destruct (Hsv s eq_refl) as [HI He].
  destruct (MessageReceived msg from s) as [[[a s'] w] ns] eqn:Hf.
  assert (exec (OpMessageReceived msg from) s = (s', w, ns)) as Hx by (simpl; by rewrite Hf).
  destruct (exec_live (OpMessageReceived msg from) s s' w ns HI He ltac:(discriminate) Hx) as (HI' & He' & Hr).
  pose proof (exec_asked_last (OpMessageReceived msg from) s) as Hl. rewrite Hx in Hl. simpl in Hl, Hsh.
  fold (called e s' w). pose proof (called_shared _ e s' w Hsh) as Hc. set (e1 := called e s' w) in *.
  change (dfire 1 ns) with (dfor_each ns (callback GetPartId (dfire 0))).
  destruct Hl as [Hp|(ns0 & id & u & b & fs & -> & Hp)].
  - destruct (for_plain (dfire 0) ns _ _ e1 Hp Hr Hc) as [H1 H2].
    destruct (dfor_each ns _ e1). by apply (doc_ok_of s' (held s') e1).
  - assert (∃ h1, replay (held s) ns0 = Some h1 ∧ h1 = held s') as (h1 & Hr0 & ->).
    { clear -Hr. revert Hr. generalize (held s) as h. induction ns0 as [|n ns0 IH]; intros h; simpl.
      - destruct (bool_decide _); [|done]. intros [= <-]. by exists h.
      - destruct (replay1 h n); [apply IH|done]. }
    destruct (for_plain (dfire 0) ns0 _ _ e1 Hp Hr0 Hc) as [H1 H2].
    pose proof (dfor_each_app ns0 [OnFloorRequest id u b fs] (callback GetPartId (dfire 0)) e1) as Happ.
    destruct (dfor_each (ns0 ++ _) _ e1) as [? e2]. simpl in Happ |- *. rewrite Happ. unfold dbind.
    set (e3 := (dfor_each ns0 _ e1).2) in *.
    pose proof (safe_onFloorRequest 0 id u e3) as Hreq.
    destruct (onFloorRequest _ _ id u e3). apply Hreq. by apply (doc_ok_of s' (held s') e1).
Qed.

(** ** The operations *)

Lemma safe_conf_call ev : (∀ c, presenter_step c ev = c) → safe (conf_call ev).
Proof.
  intros Hev e He. rewrite conf_call_result by apply He. eapply doc_ok_kept; [|exact He].
  exact (still_emit ev Hev e).
Qed.

Lemma safe_server_op {A} (none : A) f op :
  (∀ s, effects (f s) = exec op s) → op ≠ OpEnd → ¬ is_message op → safe (on_server GetPartId none f).
Proof. intros Hf Hop Hm. by apply (safe_call 1 none f op). Qed.

Ltac safe_solve :=
  repeat first
    [ apply safe_TearDown
    | apply safe_bind; [|intros ?]
    | apply safe_keeps; solve [apply still_ret | apply still_gets | apply still_currentPart | apply still_mosaic
                              | apply still_requests | apply still_emit; done]
    | apply safe_conf_call; done
    | match goal with
      | |- safe (on_server _ _ (GrantFloorRequest ?i)) => apply (safe_server_op _ _ (OpGrantFloorRequest i)); server_op
      | |- safe (on_server _ _ (DenyFloorRequest ?i ?t)) => apply (safe_server_op _ _ (OpDenyFloorRequest i t)); server_op
      | |- safe (on_server _ _ (RevokeFloorRequest ?i ?t)) => apply (safe_server_op _ _ (OpRevokeFloorRequest i t)); server_op
      | |- safe (on_server _ _ (RemoveUser ?i)) => apply (safe_server_op _ _ (OpRemoveUser i)); server_op
      | |- safe (on_server _ _ (TransportClosed ?i)) => apply (safe_server_op _ _ (OpTransportClosed i)); server_op
      | |- safe (dfor_each _ _) => apply safe_for_each; intros ?
      | |- safe (match ?x with _ => _ end) => destruct x
      end ].

Lemma safe_Accept p : safe (AcceptDocSharingRequest GetPartId p).
Proof. unfold AcceptDocSharingRequest, has_server, GetFloorRequestId. safe_solve. Qed.

Lemma safe_Refuse p : safe (RefuseDocSharingRequest GetPartId p).
Proof. unfold RefuseDocSharingRequest, has_server, GetFloorRequestId. safe_solve. Qed.

Lemma safe_StopSharing : safe (StopSharing GetPartId).
Proof. unfold StopSharing, has_server, GetFloorRequestId. safe_solve. Qed.

Lemma safe_StopSharing_of p : safe (StopSharing_of GetPartId p).
Proof.
  unfold StopSharing_of. apply safe_bind; [safe_solve|intros cur].
  destruct (bool_decide (cur = p)); [apply safe_StopSharing|safe_solve].
Qed.

Lemma safe_init p ip port : safe (initDocSharing GetPartId p ip port).
Proof.
  destruct p as [p|]; [|apply safe_keeps, still_ret]. intros e He. unfold initDocSharing.
  destruct (negb (bool_decide (de_mode e p = BFCP_UDP))); [done|].
  destruct (om_find (GetPartId p) _) as [[ep port']|]; [|done].
  destruct (addr_Parse_err ip) as [remote err]. destruct (negb (err =? 0)); [done|].
  revert e He. change (safe (dbind (emit (SetRemote ep (ToDualStack remote (to_word port))))
    (λ _, dbind (emit (ServerHello ep)) (λ _, dret 1)))). safe_solve.
Qed.

(** What the mixer does to its listener and its endpoints is not looked at. *)
Lemma still_tcpListener l : still (dmodify (set_tcpListener l)).
Proof. intros e. split; try done. by apply srv_same_eq. Qed.
Lemma still_alter_tcpListener f : still (dmodify (λ m, set_tcpListener (f <$> sd_tcpListener m) m)).
Proof. intros e. split; try done. by apply srv_same_eq. Qed.
Lemma still_udpEndpoints f : still (dmodify (set_udpEndpoints f)).
Proof. intros e. split; try done. by apply srv_same_eq. Qed.
Lemma still_confId i : still (dmodify (set_confId i)).
Proof. intros e. split; try done. by apply srv_same_eq. Qed.

Lemma safe_set_participants f :
  (∀ l, (∀ k p, om_find k l = Some p → GetPartId p = k) → ∀ k p, om_find k (f l) = Some p → GetPartId p = k) →
  safe (dmodify (set_participants f)).
Proof.
  intros Hf e [Hs [Hc Hi Hsh Hl Hh]]. split; [done|]. split; try done. simpl. by apply Hf.
Qed.

Lemma safe_add_participant p : safe (dmodify (set_participants (om_set (GetPartId p) p))).
Proof.
  apply safe_set_participants. intros l Hl k q. destruct (decide (k = GetPartId p)) as [->|Hk].
  - rewrite om_find_set_eq. by intros [= <-].
  - rewrite om_find_set_ne by done. apply Hl.
Qed.

Lemma safe_erase_participant k0 : safe (dmodify (set_participants (om_erase k0))).
Proof.
  apply safe_set_participants. intros l Hl k q Hq. destruct (decide (k = k0)) as [->|Hk].
  - by rewrite om_find_erase_eq in Hq.
  - apply Hl. by rewrite om_find_erase_ne in Hq.
Qed.

Lemma safe_remove p : safe (removeParticipant GetPartId p).
Proof.
  destruct p as [p|]; [|apply safe_keeps, still_ret]. unfold removeParticipant.
  apply safe_bind; [by apply safe_keeps; intros e|intros mode].
  destruct mode; safe_solve; try apply safe_erase_participant; apply safe_keeps, still_udpEndpoints.
Qed.

Lemma safe_bind_at {A B} (m : D A) (k : A → D B) e :
  doc_ok (m e).2 → (∀ a, safe (k a)) → doc_ok (dbind m k e).2.
Proof. intros Hm Hk. unfold dbind. destruct (m e) as [a e1]. by apply Hk. Qed.

Lemma safe_AddUser i :
  safe (dmodify (λ m, set_bfcpServer ((λ s, (AddUser i s).2) <$> sd_bfcpServer m) m)).
Proof.
  intros e He. pose proof He as [Hs Hsh].
  destruct (sd_bfcpServer (de_mixer e)) as [s|] eqn:Hsv; unfold dmodify; rewrite Hsv; simpl in *.
  - destruct (Hs s eq_refl) as [HI Hend].
    destruct (exec_live (OpAddUser i) s _ [] [] HI Hend ltac:(discriminate) eq_refl) as (HI' & He' & Hr).
    injection Hr as Hr. split; simpl; [by intros ? [= <-]|]. rewrite <- Hr. by eapply shared_same; [..|exact Hsh].
  - split; [done|]. by eapply shared_same; [..|exact Hsh].
Qed.

Lemma create_server_ok confId e :
  doc_ok e → presented e = None →
  doc_ok (dbind (dmodify (set_bfcpServer (Some (AddFloor FloorId (new_server confId)).2)))
            (λ _, dmodify (set_confId confId)) e).2.
Proof.
  intros [Hs [Hc Hi Hsh Hl Hh]] Hp.
  destruct (exec_live (OpAddFloor FloorId) (new_server confId) _ [] [] (Inv_new confId) eq_refl
              ltac:(discriminate) eq_refl) as (HI' & He' & _).
  split; simpl; [by intros ? [= <-]|]. split; try done. intros p Hp'.
  change (presented e = Some p) in Hp'. congruence.
Qed.

(** A server is only created while nobody presents. *)
Definition may_start (e : DocEnv) : Prop := sd_bfcpServer (de_mixer e) = None → presented e = None.

Lemma start_ok confId part opened e :
  doc_ok e → may_start e → doc_ok (StartBfcpServer GetPartId confId part opened e).2.
Proof.
  intros He Hm. destruct part as [p|]; [|done]. unfold StartBfcpServer. unfold dbind at 1. unfold has_server, dgets.
  apply safe_bind_at.
  - destruct (sd_bfcpServer (de_mixer e)) eqn:Hs; [done|]. apply create_server_ok; [done|by apply Hm].
  - intros _. apply safe_bind; [apply safe_AddUser|intros _].
    apply safe_bind; [apply safe_add_participant|intros _].
    apply safe_bind; [by apply safe_keeps; intros ?|intros mode].
    destruct mode; safe_solve; apply safe_keeps; first [apply still_tcpListener|apply still_udpEndpoints].
Qed.

Lemma add_ok confId part mode opened e :
  doc_ok e → may_start e → doc_ok (addParticipant GetPartId confId part mode opened e).2.
Proof.
  intros He Hm. destruct part as [p|]; [|done]. unfold addParticipant.
  set (e1 := (SetDocSharingMode p mode e).2).
  assert (doc_ok e1) as He1 by (eapply doc_ok_kept; [|exact He]; split; try done; by apply srv_same_eq).
  unfold dbind at 1. change (SetDocSharingMode p mode e) with (tt, e1). cbv iota beta.
  destruct mode; [done|..]; (apply safe_bind_at; [by apply start_ok|intros ok; apply safe_keeps, still_ret]).
Qed.

Lemma follows_None h e : follows h e → follows None e.
Proof. by intros []. Qed.

Lemma safe_End_server :
  safe (dbind (on_server GetPartId tt End) (λ _, dbind (dmodify (set_bfcpServer None)) (λ _, dret true))).
Proof.
  intros e [Hs Hsh]. unfold dbind, on_server, call_server.
  destruct (sd_bfcpServer (de_mixer e)) as [s|] eqn:Hsv; cbn [dmodify dret snd].
  - destruct (Hs s eq_refl) as [HI He]. destruct (exec_End s HI He) as [_ Hn].
    simpl in Hn. destruct (End s) as [[[a s'] w] ns]. simpl in Hn. subst ns.
    fold (called e s' w). split; [done|]. simpl. apply (called_shared _ e s' w), follows_None in Hsh.
    by eapply shared_same; [..|exact Hsh].
  - split; [done|]. simpl in *. by eapply shared_same; [..|exact Hsh].
Qed.

Lemma safe_StopServer : safe (StopBfcpServer GetPartId).
Proof.
  unfold StopBfcpServer, close_connections. apply safe_bind; [safe_solve|intros listener].
  apply safe_bind; [safe_solve|intros endpoints].
  apply safe_bind; [apply safe_keeps, still_tcpListener|intros _].
  apply safe_bind; [apply safe_keeps, still_udpEndpoints|intros _].
  apply safe_bind; [apply safe_keeps, still_requests|intros _].
  apply safe_bind; [by apply safe_set_participants|intros _].
  apply safe_bind; [safe_solve|intros _]. apply safe_bind; [safe_solve|intros _]. apply safe_End_server.
Qed.

Lemma safe_reap c : safe (reap_connection GetPartId c).
Proof. unfold reap_connection. safe_solve. apply safe_keeps, still_alter_tcpListener. Qed.

Lemma safe_destroyed p : safe (participant_destroyed p).
Proof.
  intros e [Hs [Hc Hi Hsh Hl Hh]]. split; [done|].
  assert (∀ q, presented (participant_destroyed p e).2 = Some q → presented e = Some q ∧ q ≠ p) as Hsub.
  { unfold presented, lock_ptr. simpl. intros q. destruct (sd_part (de_mixer e)) as [c|]; [|done].
    destruct (Z.eqb_spec c p); [done|]. destruct (de_alive e c); [|done]. by intros [= <-]. }
  split; simpl; try done.
  - intros q Hq. by apply Hsh, Hsub.
  - intros q Hq Hp. destruct (Z.eqb_spec q p); [done|]. specialize (Hl q Hq Hp).
    unfold presented, lock_ptr in Hl |- *. simpl. destruct (sd_part (de_mixer e)) as [c|]; [|done].
    destruct (de_alive e c) eqn:Ha; [|done]. injection Hl as ->. rewrite (proj2 (Z.eqb_neq q p)); done.
  - intros q Hq. by apply Hh, Hsub.
Qed.
End Sharing.
