(* ===== verification/SharedDocClaims.v ===== *)
(** * What document sharing guarantees

    The mixer from [Init] to [End], driven by the conference, by the network and by the death of
    participants; who presents at any moment, and the outcome of accepting a request and of
    stopping. *)

From S2P Require Import Prelude OrderedMap IpAddress BfcpAttr BfcpMsg BfcpServer BfcpFloorSpec BfcpServerRefine.
From S2P Require Import IpAddressProps BfcpServerProps BfcpConference BfcpGuarantees SharedDoc SharedDocProps.

(** ** What a revocation and a grant fire *)

Section Fired.
Context {T : TransportOps}.

Lemma Revoke_fired id info s :
  Inv s → ending s = false →
  match om_find id (floorRequests s) with
  | Some r =>
      if r_IsGranted r then
        ∃ s' w, RevokeFloorRequest id info s
                = (true, s', w, [OnFloorReleased id (r_beneficiaryId r) (r_floorIds r)])
                ∧ s' ≈ drop_requests [id] s
      else RevokeFloorRequest id info s = (false, s, [], [])
  | None => RevokeFloorRequest id info s = (false, s, [], [])
  end.
Proof.
  intros HI He. pose proof (Revoke_wp id info (mkEnv s [] []) HI) as Hw. unfold wp in Hw. simpl in Hw.
  assert (wp (RevokeFloorRequestLocked id info) (λ _ e', ∀ r, om_find id (floorRequests s) = Some r →
      r_IsGranted r = true → pending e' = [OnFloorReleased id (r_beneficiaryId r) (r_floorIds r)])
      (mkEnv s [] [])) as Hp.
  { unfold RevokeFloorRequestLocked. wp_pure. destruct (om_find id (floorRequests s)) as [r|]; [|by unfold wp].
    destruct (r_IsGranted r) eqn:G; simpl; [|by intros ? [= <-]; rewrite G].
    wp_pure. wp_skips. destruct Hsame as [Heq _ Hp]. wp_pure. unfold wp, when, bind. simpl.
    assert (ending (server e) = false) as -> by (by rewrite Heq). simpl. intros ? [= <-] _. by rewrite Hp. }
  unfold wp in Hp. unfold RevokeFloorRequest, run.
  destruct (RevokeFloorRequestLocked id info (mkEnv s [] [])) as [b e']. simpl in *. destruct Hw as [_ Hw].
  destruct (om_find id (floorRequests s)) as [r|]; [destruct (r_IsGranted r) eqn:G|].
  - destruct Hw as [-> Heq]. exists (server e'), (wire e'). by rewrite (Hp r eq_refl G).
  - by destruct Hw as [-> ->].
  - by destruct Hw as [-> ->].
Qed.

(** The last thing [m] announces. *)
Definition ends_with {A} (n : Notification) (m : M A) : Prop :=
  ∀ e, ∃ ns, pending (m e).2 = pending e ++ ns ++ [n] ∧ plain ns.

Lemma ends_with_bind {A B} n (m : M A) (k : A → M B) :
  unasked m → (∀ a, ends_with n (k a)) → ends_with n (bind m k).
Proof.
  intros Hm Hk e. unfold bind. destruct (Hm e) as (n1 & H1 & F1). destruct (m e) as [a e1]. simpl in *.
  destruct (Hk a e1) as (n2 & H2 & F2). exists (n1 ++ n2). rewrite H2, H1, !app_assoc.
  split; [done|by apply Forall_app].
Qed.

Lemma ends_with_push {A} n (x : A) : ends_with n (bind (push_back n) (λ _, ret x)).
Proof. intros e. exists []. split; [done|constructor]. Qed.

Hint Resolve unasked_alter_user unasked_set_status unasked_erase unasked_NextTransactionId
  unasked_NotificationTransactionId unasked_SendFloorRequestStatus unasked_NotifyForFloorRequest
  unasked_Revoke : respects.

Lemma Grant_fired id s s' w ns :
  Inv s → GrantFloorRequest id s = (true, s', w, ns) →
  ∃ r ns0, om_find id (floorRequests s) = Some r
    ∧ ns = ns0 ++ [OnFloorGranted id (r_beneficiaryId r) (r_floorIds r)] ∧ plain ns0.
Proof.
  intros HI Hg. destruct (Grant_run id s true s' w ns HI Hg eq_refl) as (He & _ & r & Hid & _).
  unfold GrantFloorRequest, run, bind at 1, gets at 1 in Hg. simpl in Hg. rewrite He in Hg.
  unfold GrantFloorRequestLocked in Hg. unfold bind at 1, GetFloorRequestLocked, gets at 1 in Hg.
  cbn [server] in Hg. rewrite Hid in Hg. destruct (r_CanBeGranted r); cbn [negb] in Hg; [|done].
  match type of Hg with (let (_, _) := ?m ?e in _) = _ =>
    assert (ends_with (OnFloorGranted id (r_beneficiaryId r) (r_floorIds r)) m) as Hends
  end.
  { cbv zeta. repeat first [apply ends_with_push | apply ends_with_bind; [solve [respects_solve]|intros ?]]. }
  specialize (Hends (mkEnv s [] [])). destruct Hends as (ns0 & Hp & F).
  match type of Hg with (let (_, _) := ?x in _) = _ => destruct x as [b e'] end.
  simpl in *. simplify_eq. by exists r, ns0.
Qed.
End Fired.

Section DocClaims.
Context {T : TransportOps} {N : NetOps}.
Context (GetPartId : Z → Z).
Context (part_pos : ∀ p, 0 < GetPartId p).
Context (part_inj : ∀ p q, GetPartId p = GetPartId q → p = q).

Abbreviation dok := (doc_ok GetPartId).

(** ** The life of a mixer *)

(** A step is a whole call with its callbacks.  The conference stops calling the mixer once it ended
    it, and brings a participant in only when there is a server or nobody presents. *)
Definition admissible (op : DocOp) (e : DocEnv) : Prop :=
  sd_conf (de_mixer e) = true ∧
  match op with DocAdd _ _ _ _ => may_start e | _ => True end.

Inductive doc_reach : DocEnv → Prop :=
  | doc_start alive mode : doc_reach (mkDocEnv new_doc alive mode [])
  | doc_step op e : doc_reach e → admissible op e → doc_reach (doc_exec GetPartId op e).

Lemma new_doc_ok alive mode : dok (mkDocEnv new_doc alive mode []).
Proof.
  split; [done|]. split; simpl; try done.
  intros p _ H. change (0 = GetPartId p) in H. pose proof (part_pos p). lia.
Qed.

Lemma doc_exec_ok op e :
  op ≠ DocEnd → dok e → admissible op e → dok (doc_exec GetPartId op e).
Proof.
  intros Hop He [_ Ha].
  destruct op; simpl; try (eapply (safe_init GetPartId); eassumption); try done.
  - by apply safe_Accept.
  - by apply safe_Refuse.
  - by apply safe_StopSharing.
  - by apply safe_StopSharing_of.
  - by apply add_ok.
  - by apply safe_remove.
  - by apply safe_StopServer.
  - eapply doc_ok_kept; [apply still_SetSharedMosaic|done].
  - by apply safe_message.
  - by apply (safe_server_op GetPartId part_pos part_inj tt _ (OpTransportClosed transport)); [intros s|..|simpl; tauto|].
  - eapply doc_ok_kept; [apply still_alter_tcpListener|done].
  - by apply safe_reap.
  - by apply safe_destroyed.
Qed.

Lemma End_conf e : sd_conf (de_mixer (doc_End GetPartId e).2) = false.
Proof.
  unfold doc_End, dbind. destruct (StopSharing GetPartId e) as [? e1].
  by destruct (StopBfcpServer GetPartId e1) as [? e2].
Qed.

Lemma doc_reach_ok e : doc_reach e → sd_conf (de_mixer e) = true → dok e.
Proof.
  induction 1 as [alive mode|op e Hr IH Ha]; intros Hc; [apply new_doc_ok|].
  assert (op = DocEnd ∨ op ≠ DocEnd) as [->|Hop] by (destruct op; auto).
  - simpl in Hc. by rewrite End_conf in Hc.
  - apply doc_exec_ok; [done| |done]. apply IH, Ha.
Qed.

Lemma held_request s id b fs :
  Inv s → om_find id (held s) = Some (b, fs) →
  ∃ r, om_find id (floorRequests s) = Some r ∧ r_IsGranted r = true ∧ r_beneficiaryId r = b ∧ r_floorIds r = fs.
Proof.
  intros HI H. apply om_find_elem, holders_elem in H as (r & Hr & G & [= -> ->]). exists r.
  split_and!; try done. by apply om_find_iff; [apply HI|].
Qed.

(** C8. What the conference shows is whom the mixer presents: a participant that is still there is
    the conference's presenter exactly when the mixer presents it; and while there is a server,
    that participant holds the floor of a granted request.  This is for calls that follow one another:
    the calls of the conference and the events of the network, in any order, each with the callbacks it
    causes (the code lets calls of two threads overlap, and then a grant can be told after its release:
    [release_overtakes_grant]); participants have numbers of their own, the conference does not call the
    mixer after [End], and it adds nobody while there is no server and somebody presents. *)
Theorem presenter_holds_the_floor e :
  doc_reach e → sd_conf (de_mixer e) = true →
  (∀ p, de_alive e p = true → presenter (de_events e) = GetPartId p ↔ presented e = Some p)
  ∧ ∀ p s, presented e = Some p → sd_bfcpServer (de_mixer e) = Some s →
      ∃ id r, om_find id (floorRequests s) = Some r ∧ r_IsGranted r = true ∧ r_beneficiaryId r = GetPartId p.
Proof.
  intros Hr Hc. destruct (doc_reach_ok e Hr Hc) as [Hs [_ _ Hsh Hl Hh]]. split.
  - intros p Ha. split; [by apply Hl|apply Hsh].
  - intros p s Hp Hsv. specialize (Hh p Hp). rewrite Hsv in Hh. destruct Hh as (id & fs & Hid).
    destruct (held_request s id (GetPartId p) fs) as (r & ? & ? & ? & _); [by apply Hs|done|]. by exists id, r.
Qed.

(** ** Stopping *)

(** The floor request recorded for the current presenter; 0 when there is none. *)
Definition recorded (e : DocEnv) : Z :=
  match presented e with
  | Some p => default 0 (om_find (GetPartId p) (sd_floorRequests (de_mixer e)))
  | None => 0
  end.

Lemma StopSharing_eq e :
  StopSharing GetPartId e =
  match sd_bfcpServer (de_mixer e) with
  | Some _ =>
      if recorded e =? 0 then (1, (TearDownSharing GetPartId e).2)
      else let (ok, e') := on_server GetPartId false
             (RevokeFloorRequest (recorded e) (octets "stopped by the conference")) e in
           (if ok then 1 else 0, e')
  | None => (1, (TearDownSharing GetPartId e).2)
  end.
Proof.
  unfold StopSharing, recorded, dbind, currentPart, has_server, dgets. fold (presented e).
  destruct (presented e) as [p|]; unfold GetFloorRequestId, dgets, dret;
    destruct (sd_bfcpServer (de_mixer e)); simpl; try (by destruct (TearDownSharing GetPartId e)).
  destruct (default 0 _ =? 0); simpl; [by destruct (TearDownSharing GetPartId e)|done].
Qed.

Lemma Released_result id b e :
  sd_conf (de_mixer e) = true →
  let e' := (onFloorReleased GetPartId id b e).2 in
  om_find b (sd_floorRequests (de_mixer e')) = None
  ∧ sd_bfcpServer (de_mixer e') = sd_bfcpServer (de_mixer e)
  ∧ presented e' = match presented e with
                   | Some p => if GetPartId p =? b then None else Some p
                   | None => None
                   end.
Proof.
  intros Hc. unfold onFloorReleased, dbind, dmodify, currentPart. cbv zeta.
  set (e1 := mkDocEnv (set_requests _ _) _ _ _). fold (presented e1).
  assert (presented e1 = presented e) as Hp by done.
  assert (om_find b (sd_floorRequests (de_mixer e1)) = None) as Hb by apply om_find_erase_eq.
  rewrite Hp. destruct (presented e) as [p|]; [|by split_and!; [exact Hb|..|exact Hp]].
  destruct (GetPartId p =? b); simpl; [|by split_and!; [exact Hb|..|exact Hp]].
  rewrite TearDown_result by done. by split_and!; [exact Hb|..].
Qed.

(** [StopSharing]: when a request is recorded for the presenter, the server decides.  A granted
    one is revoked: the call succeeds, the request is gone, nothing is recorded for its
    beneficiary, and if the beneficiary is the presenter nobody presents any more.  Otherwise
    the call fails and nothing at all has changed.  When no request is recorded or there is no
    server, the sharing is torn down and the server is not asked. *)
Theorem stop_sharing_outcome e ret e' :
  doc_reach e → sd_conf (de_mixer e) = true → StopSharing GetPartId e = (ret, e') →
  match sd_bfcpServer (de_mixer e) with
  | Some s =>
      if recorded e =? 0 then ret = 1 ∧ presented e' = None ∧ sd_bfcpServer (de_mixer e') = Some s
      else
        match om_find (recorded e) (floorRequests s) with
        | Some r =>
            if r_IsGranted r then
              ret = 1
              ∧ (∃ s', sd_bfcpServer (de_mixer e') = Some s' ∧ s' ≈ drop_requests [recorded e] s)
              ∧ om_find (r_beneficiaryId r) (sd_floorRequests (de_mixer e')) = None
              ∧ presented e' = match presented e with
                               | Some p => if GetPartId p =? r_beneficiaryId r then None else Some p
                               | None => None
                               end
            else ret = 0 ∧ e' = e
        | None => ret = 0 ∧ e' = e
        end
  | None => ret = 1 ∧ presented e' = None ∧ sd_bfcpServer (de_mixer e') = None
  end.
Proof.
  intros Hr Hc Hst. pose proof (doc_reach_ok e Hr Hc) as Hok. pose proof Hok as [Hs Hf].
  destruct (TearDown_shared GetPartId part_pos _ None e Hf) as (_ & Ht1 & Ht2 & _).
  rewrite StopSharing_eq in Hst. destruct (sd_bfcpServer (de_mixer e)) as [s|] eqn:Hsv; [|by simplify_eq].
  destruct (recorded e =? 0); [by simplify_eq|]. destruct (Hs s eq_refl) as [HI He].
  pose proof (Revoke_fired (recorded e) (octets "stopped by the conference") s HI He) as Hrev.
  unfold on_server, call_server in Hst. rewrite Hsv in Hst.
  assert (called e s [] = e) as Hsame.
  { unfold called. rewrite <- Hsv. simpl. rewrite app_nil_r. by destruct e as [[] ? ? ?]. }
  destruct (om_find (recorded e) (floorRequests s)) as [r|]; [destruct (r_IsGranted r)|].
  - destruct Hrev as (s' & w & Heq & Hd). rewrite Heq in Hst. fold (called e s' w) in Hst.
    cbn [fire dfor_each callback] in Hst. unfold dbind in Hst.
    destruct (Released_result (recorded e) (r_beneficiaryId r) (called e s' w) Hc) as (H1 & H2 & H3).
    destruct (onFloorReleased _ _ _ _) as [? e2]. cbn [dret fst snd] in *. simplify_eq.
    split_and!; [done| |done|done]. by exists s'.
  - rewrite Hrev in Hst. fold (called e s []) in Hst. rewrite Hsame in Hst. simpl in Hst. by simplify_eq.
  - rewrite Hrev in Hst. fold (called e s []) in Hst. rewrite Hsame in Hst. simpl in Hst. by simplify_eq.
Qed.

(** ** Accepting *)

Lemma Grant_succeeds id r s :
  Inv s → ending s = false → om_find id (floorRequests s) = Some r → r_IsGranted r = false →
  ∃ s' w ns, GrantFloorRequest id s = (true, s', w, ns).
Proof.
  intros HI He Hid G. pose proof (Grant_wp id (mkEnv s [] []) HI) as H. unfold wp in H.
  unfold GrantFloorRequest, run, bind, gets. simpl. rewrite He.
  destruct (GrantFloorRequestLocked id (mkEnv s [] [])) as [b e']. simpl in H. rewrite Hid, G in H.
  destruct H as (_ & -> & _). eauto.
Qed.

Lemma replay_snoc h ns n h' :
  replay h (ns ++ [n]) = Some h' → ∃ h1, replay h ns = Some h1 ∧ replay1 h1 n = Some h'.
Proof.
  revert h. induction ns as [|m ns IH]; intros h; simpl.
  - intros H. exists h. split; [done|]. by destruct (replay1 h n).
  - destruct (replay1 h m); [apply IH|done].
Qed.

(** [e1] is the mixer when [GrantFloorRequest] returned; the last callback presents the beneficiary. *)
Lemma granted_callbacks ns0 id b fs h h' q e1 :
  plain ns0 → replay h (ns0 ++ [OnFloorGranted id b fs]) = Some h' → follows GetPartId (Some h) e1 →
  om_find b (sd_participants (de_mixer e1)) = Some q → de_alive e1 q = true →
  presented (fire GetPartId 1 (ns0 ++ [OnFloorGranted id b fs]) e1).2 = Some q
  ∧ srv_same e1 (fire GetPartId 1 (ns0 ++ [OnFloorGranted id b fs]) e1).2.
Proof.
  intros Hp Hr Hf Hq Ha. destruct (replay_snoc _ _ _ _ Hr) as (h1 & Hr0 & Hr1).
  change (fire GetPartId 1 ?l) with (dfor_each l (callback GetPartId (fire GetPartId 0))).
  rewrite dfor_each_app.
  destruct (for_plain GetPartId part_pos part_inj (fire GetPartId 0) ns0 h h1 e1 Hp Hr0 Hf) as [Hf2 Hs2].
  set (e2 := (dfor_each ns0 _ e1).2) in *.
  destruct (Granted_shared GetPartId part_pos part_inj h1 h' id b fs e2 Hr1 Hf2) as (_ & Hs3 & Hpres).
  cbn [dfor_each callback]. unfold dbind.
  rewrite <- (ss_participants _ _ Hs2) in Hq. rewrite <- (ss_alive _ _ Hs2) in Ha.
  specialize (Hpres q Hq Ha).
  destruct (onFloorGranted GetPartId id b e2) as [? e3]. split; [done|]. by etrans.
Qed.

(** Accepting a participant's recorded request that is still pending succeeds, and its
    beneficiary presents: the conference shows it, whoever presented before, and the request
    holds its floors. *)
Theorem accepted_request_presents e p s id r q :
  doc_reach e → sd_conf (de_mixer e) = true → sd_bfcpServer (de_mixer e) = Some s →
  om_find (GetPartId p) (sd_floorRequests (de_mixer e)) = Some id →
  om_find id (floorRequests s) = Some r → r_IsGranted r = false →
  om_find (r_beneficiaryId r) (sd_participants (de_mixer e)) = Some q → de_alive e q = true →
  ∃ e', AcceptDocSharingRequest GetPartId (Some p) e = (1, e')
    ∧ presented e' = Some q ∧ presenter (de_events e') = GetPartId q
    ∧ ∃ s', sd_bfcpServer (de_mixer e') = Some s' ∧ om_find id (held s') = Some (GetPartId q, r_floorIds r).
Proof.
  intros Hre Hc Hsv Hrec Hid G Hq Ha. pose proof (doc_reach_ok e Hre Hc) as Hok. pose proof Hok as [Hs Hf].
  destruct (Hs s Hsv) as [HI He]. destruct (Grant_succeeds id r s HI He Hid G) as (s1 & w & ns & Hg).
  destruct (Grant_fired id s s1 w ns HI Hg) as (r' & ns0 & Hid' & -> & Hpl). rewrite Hid in Hid'. injection Hid' as <-.
  assert (exec (OpGrantFloorRequest id) s = (s1, w, _)) as Hx by (simpl; by rewrite Hg).
  destruct (exec_live (OpGrantFloorRequest id) s s1 w _ HI He ltac:(discriminate) Hx) as (HI1 & _ & Hrep).
  rewrite Hsv in Hf. simpl in Hf.
  destruct (granted_callbacks ns0 id (r_beneficiaryId r) (r_floorIds r) (held s) (held s1) q (called e s1 w) Hpl Hrep)
    as [Hpres Hsame]; [by apply called_shared|done|done|].
  pose proof (safe_Accept GetPartId part_pos part_inj (Some p) e Hok) as Hok'.
  set (e' := (fire GetPartId 1 _ (called e s1 w)).2) in *.
  assert (AcceptDocSharingRequest GetPartId (Some p) e = (1, e')) as Hacc.
  { unfold AcceptDocSharingRequest, has_server, GetFloorRequestId, dbind, dgets. rewrite Hsv. cbn [negb].
    rewrite Hrec. change (default 0 (Some id)) with id.
    destruct (inv_requests s HI id r Hid) as [Hpos _]. rewrite (proj2 (Z.eqb_neq id 0)) by lia.
    unfold on_server, call_server. rewrite Hsv, Hg. fold (called e s1 w). unfold e'.
    by destruct (fire GetPartId 1 _ (called e s1 w)). }
  exists e'. rewrite Hacc in Hok'. split; [done|]. split; [done|]. split; [by apply Hok'|].
  destruct Hsame as [_ _ Hss]. simpl in Hss.
  destruct (sd_bfcpServer (de_mixer e')) as [s'|]; [|done]. exists s'. split; [done|].
  destruct Hss as (_ & -> & _). destruct (grant_exclusive_lemma id s s1 w _ HI Hg) as (r' & Hr' & Hgr & _).
  rewrite Hid in Hr'. injection Hr' as <-. unfold held. rewrite holders_find by apply HI1. rewrite Hgr. simpl.
  do 2 f_equal. symmetry. by apply Hok.
Qed.
End DocClaims.

(** ** A conference to evaluate *)

Fixpoint doc_run `{TransportOps, NetOps} (GetPartId : Z → Z) (ops : list DocOp) (e : DocEnv) : DocEnv :=
  match ops with [] => e | op :: ops => doc_run GetPartId ops (doc_exec GetPartId op e) end.

Fixpoint all_admissible `{TransportOps, NetOps} (GetPartId : Z → Z) (ops : list DocOp) (e : DocEnv) : Prop :=
  match ops with
  | [] => True
  | op :: ops => admissible op e ∧ all_admissible GetPartId ops (doc_exec GetPartId op e)
  end.

Lemma doc_run_reach `{TransportOps, NetOps} GetPartId ops e :
  doc_reach GetPartId e → all_admissible GetPartId ops e → doc_reach GetPartId (doc_run GetPartId ops e).
Proof.
  revert e. induction ops as [|op ops IH]; intros e He Ha; simpl; [done|]. destruct Ha as [Ha Hs].
  apply IH; [by apply doc_step|done].
Qed.

(** A numbering of all pointers: those of the participants below, 1 and 2, are 4 and 6. *)
Definition part_number (p : Z) : Z := if 0 <=? p then 2 * p + 2 else -2 * p + 1.

Lemma part_number_pos p : 0 < part_number p.
Proof. unfold part_number. destruct (Z.leb_spec 0 p); lia. Qed.

Lemma part_number_inj p q : part_number p = part_number q → p = q.
Proof. unfold part_number. destruct (Z.leb_spec 0 p), (Z.leb_spec 0 q); lia. Qed.

Definition doc_request (user transaction : Z) (beneficiary : option Z) : BFCPMessage :=
  new_message (MsgFloorRequest (FloorRequestMsg [FloorId] beneficiary None)) transaction 7 user.

(** Conference 7: participant 4 over TCP, participant 6 over UDP on endpoint 201; both greet the
    server. *)
Definition doc_setup : list DocOp :=
  [DocAdd 7 (Some 1) BFCP_TCP (Some (100, 5000)); DocAdd 7 (Some 2) BFCP_UDP (Some (201, 6000));
   DocConnection 101; DocMessage (new_message MsgHello 1 7 4) 101; DocMessage (new_message MsgHello 1 7 6) 201].

Definition doc_sample (ops : list DocOp) : DocEnv :=
  @doc_run tcp_transports tiny_net part_number (doc_setup ++ ops)
    (mkDocEnv new_doc (λ _, true) (λ _, DocSharingNone) []).

(** 4 asks for the floor. *)
Definition asks_4 : list DocOp := [DocMessage (doc_request 4 2 None) 101].
Definition request_of_4 : BFCPFloorRequest := mkFloorRequest 1 4 7 4 [FloorId] Pending 0.
(** It is accepted. *)
Definition presents_4 : list DocOp := asks_4 ++ [DocAccept (Some 1)].

Ltac admissible_sample :=
  cbn [app doc_setup all_admissible];
  repeat (split; [split; [vm_compute; reflexivity|first [exact I | intros _; vm_compute; reflexivity]]|]); exact I.

Lemma doc_sample_reach ops :
  @all_admissible tcp_transports tiny_net part_number (doc_setup ++ ops)
    (mkDocEnv new_doc (λ _, true) (λ _, DocSharingNone) []) →
  @doc_reach tcp_transports tiny_net part_number (doc_sample ops).
Proof. intros H. apply doc_run_reach; [apply doc_start|exact H]. Qed.

Definition doc_server (e : DocEnv) : Server := default (new_server 0) (sd_bfcpServer (de_mixer e)).

Lemma presenter_holds_the_floor_witness :
  presenter (de_events (doc_sample presents_4)) = 4
  ∧ ∃ id r, om_find id (floorRequests (doc_server (doc_sample presents_4))) = Some r
    ∧ r_IsGranted r = true ∧ r_beneficiaryId r = 4.
Proof.
  destruct (@presenter_holds_the_floor tcp_transports tiny_net part_number part_number_pos part_number_inj
              (doc_sample presents_4)) as [Hp Hh].
  - apply doc_sample_reach. admissible_sample.
  - vm_compute; reflexivity.
  - split; [apply (Hp 1); vm_compute; reflexivity|].
    apply (Hh 1); vm_compute; reflexivity.
Defined.

Definition stopped : Z * DocEnv := @StopSharing tcp_transports part_number (doc_sample presents_4).

Lemma stop_sharing_outcome_witness :
  recorded part_number (doc_sample presents_4) = 1 ∧ stopped.1 = 1
  ∧ presented (doc_sample presents_4) = Some 1 ∧ presented stopped.2 = None.
Proof.
  pose proof (@stop_sharing_outcome tcp_transports tiny_net part_number part_number_pos part_number_inj
                (doc_sample presents_4) stopped.1 stopped.2) as H.
  assert (sd_bfcpServer (de_mixer (doc_sample presents_4)) = Some (doc_server (doc_sample presents_4))) as Hs
    by (vm_compute; reflexivity).
  assert (recorded part_number (doc_sample presents_4) = 1) as Hr by (vm_compute; reflexivity).
  assert (om_find 1 (floorRequests (doc_server (doc_sample presents_4)))
          = Some (r_SetStatus Granted (request_of_4))) as Hq by (vm_compute; reflexivity).
  rewrite Hs, Hr in H. cbn [Z.eqb] in H. rewrite Hq in H. split; [exact Hr|].
  destruct H as (H1 & _ & _ & H2).
  - apply doc_sample_reach. admissible_sample.
  - vm_compute; reflexivity.
  - vm_compute; reflexivity.
  - split; [exact H1|]. split; [vm_compute; reflexivity|]. etransitivity; [exact H2|vm_compute; reflexivity].
Defined.

Lemma accepted_request_presents_witness :
  ∃ e', @AcceptDocSharingRequest tcp_transports part_number (Some 1) (doc_sample asks_4) = (1, e')
    ∧ presented e' = Some 1.
Proof.
  destruct (@accepted_request_presents tcp_transports tiny_net part_number part_number_pos part_number_inj
              (doc_sample asks_4) 1 (doc_server (doc_sample asks_4)) 1 request_of_4 1) as (e' & Ha & Hp & _).
  - apply doc_sample_reach. admissible_sample.
  - vm_compute; reflexivity.
  - vm_compute; reflexivity.
  - vm_compute; reflexivity.
  - vm_compute; reflexivity.
  - vm_compute; reflexivity.
  - vm_compute; reflexivity.
  - vm_compute; reflexivity.
  - exists e'. split; [exact Ha|exact Hp].
Defined.

(** ** Two observations *)

(** The calls made on transport [t] after it was destroyed. *)
Fixpoint calls_after_destroyed (t : Z) (destroyed : bool) (evs : list DocEvent) : list WireCall :=
  match evs with
  | [] => []
  | Destroyed t' :: evs => calls_after_destroyed t (destroyed || (t' =? t)) evs
  | ServerCalls c :: evs =>
      (if destroyed && (match c with CallSend t' _ | CallClose t' => t' end =? t) then [c] else [])
      ++ calls_after_destroyed t destroyed evs
  | _ :: evs => calls_after_destroyed t destroyed evs
  end.

(** [StopBfcpServer] destroys the UDP endpoints, whose destructor does not tell the server, and
    then ends the server, which says goodbye through them: endpoint 201 is called after it was
    destroyed.  The TCP connection 101, whose listener tells the server first, is not. *)
Theorem stop_server_calls_destroyed_endpoint :
  calls_after_destroyed 201 false (de_events (doc_sample [DocStopServer]))
  = [CallSend 201 (new_message (MsgBase P_Goodbye) 0 7 6); CallClose 201]
  ∧ calls_after_destroyed 101 false (de_events (doc_sample [DocStopServer])) = [].
Proof. vm_compute. split; reflexivity. Qed.

(** Participant 4 asked for the floor for the benefit of 6, and was accepted: 6 presents. *)
Definition third_party : DocEnv :=
  doc_sample [DocMessage (doc_request 4 2 (Some 6)) 101; DocAccept (Some 1)].

(** The request of a third party is recorded for the requester, not for the participant that
    presents: stopping the sharing succeeds and tears it down, and the server still holds the
    floor granted. *)
Theorem third_party_floor_outlives_stop :
  let (ret, e) := @StopSharing tcp_transports part_number third_party in
  presented third_party = Some 2 ∧ ret = 1 ∧ presented e = None
  ∧ GetGrantedFloorRequestId FloorId (doc_server e) = 1.
Proof. vm_compute. repeat split. Qed.
