(* ===== verification/Octets.v ===== *)
(** * Octet access, continued

    The parsers of RTP and RTCP take a pointer and a size from the network.  A read outside the
    octets received is not a value but a [Fault]: a theorem that a parser does not fault says that
    it stays inside.  The accessors the BFCP codec does not use ([get1], [get3], [get8], ...,
    [pad32]) come from libmedkit as well and are the class [MoreWireOps]. *)

From S2P Require Import Prelude Wire.

(** ** Computations that read memory *)

Inductive checked (A : Type) :=
  | Fault                     (** a read out of bounds, or a loop out of fuel *)
  | Refuse                    (** the code returns 0, false or [NULL] *)
  | Got (a : A).
Arguments Fault {A}.
Arguments Refuse {A}.
Arguments Got {A} _.

#[global] Instance checked_eq_dec `{EqDecision A} : EqDecision (checked A).
Proof. solve_decision. Defined.

Definition cbind {A B} (m : checked A) (k : A → checked B) : checked B :=
  match m with Fault => Fault | Refuse => Refuse | Got a => k a end.

Declare Scope octet_scope.
Delimit Scope octet_scope with octet.
Notation "'let?' x ':=' m 'in' k" := (cbind m (λ x, k))
  (at level 200, x binder, m at level 100, k at level 200) : octet_scope.
#[global] Open Scope octet_scope.

(** [if (b) return 0;] *)
Definition refuse_if {A} (b : bool) (k : checked A) : checked A := if b then Refuse else k.

Definition within (data : bytes) (i n : Z) : bool := (0 <=? i) && (i + n <=? Zlen data).

(** [data\[i\]], [getN(data, i)] and [memcpy(_, data + i, n)] on the octets received. *)
Definition rd1 (data : bytes) (i : Z) : checked Z :=
  if within data i 1 then Got (zget i data) else Fault.
Definition rd_copy (data : bytes) (i n : Z) : checked bytes :=
  if within data i n then Got (ztake n (zdrop i data)) else Fault.
Definition rd_with (n : Z) (get : bytes → Z → Z) (data : bytes) (i : Z) : checked Z :=
  if within data i n then Got (get data i) else Fault.

(** [ntohs] and [ntohl] on a field of a packed header. *)
Definition ntohs_at : bytes → Z → Z := be_get 2.
Definition ntohl_at : bytes → Z → Z := be_get 4.

(** [memcpy(data + i, w, ...)] *)
Definition write_at (i : Z) (w data : bytes) : bytes :=
  ztake i data ++ w ++ zdrop (i + Zlen w) data.

(** The same into an array, which ends where [data] ends. *)
Definition wr_copy (data : bytes) (i : Z) (w : bytes) : checked bytes :=
  if within data i (Zlen w) then Got (write_at i w data) else Fault.

(** [header->f = v] for a field of [w] bits, [s] bits from the right. *)
Definition bit_field (w s v old : Z) : Z :=
  Z.lor (Z.land old (Z.lnot (Z.shiftl (Z.ones w) s))) (Z.shiftl (Z.land v (Z.ones w)) s).

(** ** The other accessors of libmedkit *)

Class MoreWireOps := {
  get1 : bytes → Z → Z;
  get3 : bytes → Z → Z;
  get8 : bytes → Z → Z;
  set1 : bytes → Z → Z → bytes;
  set3 : bytes → Z → Z → bytes;
  set8 : bytes → Z → Z → bytes;
  pad32 : Z → Z;
}.

Class MoreWireLaws (W : WireOps) (V : MoreWireOps) : Prop := {
  get2_network b i : get2 b i = be_get 2 b i;
  get1_set1 b i v : 0 <= i → i + 1 <= Zlen b → get1 (set1 b i v) i = to_byte v;
  get3_set3 b i v : 0 <= i → i + 3 <= Zlen b → get3 (set3 b i v) i = v mod 2 ^ 24;
  get8_set8 b i v : 0 <= i → i + 8 <= Zlen b → get8 (set8 b i v) i = to_qword v;
  set1_length b i v : Zlen (set1 b i v) = Zlen b;
  set3_length b i v : Zlen (set3 b i v) = Zlen b;
  set8_length b i v : Zlen (set8 b i v) = Zlen b;
  set3_bytes b i v : bytes_ok b → bytes_ok (set3 b i v);
  get1_local b i c j : 0 <= i → 0 <= j →
    b !! Z.to_nat i = c !! Z.to_nat j → get1 b i = get1 c j;
  get3_local b i c j : 0 <= i → 0 <= j →
    (∀ k, 0 <= k < 3 → b !! Z.to_nat (i + k) = c !! Z.to_nat (j + k)) → get3 b i = get3 c j;
  get8_local b i c j : 0 <= i → 0 <= j →
    (∀ k, 0 <= k < 8 → b !! Z.to_nat (i + k) = c !! Z.to_nat (j + k)) → get8 b i = get8 c j;
  get3_range b i : bytes_ok b → 0 <= get3 b i < 2 ^ 24;
  get4_range b i : bytes_ok b → 0 <= get4 b i < 2 ^ 32;
  pad32_spec n : 0 <= n < 2 ^ 31 → pad32 n = (n + 3) / 4 * 4;
}.

Definition network_order_more : MoreWireOps := {|
  get1 := be_get 1; get3 := be_get 3; get8 := be_get 8;
  set1 := be_put 1; set3 := be_put 3; set8 := be_put 8;
  pad32 := λ n, (n + 3) / 4 * 4;
|}.


Lemma be_get_S n b i : be_get (S n) b i = be_get n b i * 256 + zget (i + Z.of_nat n) b.
Proof. unfold be_get. by rewrite seq_S, foldl_app. Qed.

Lemma be_get_range n b i : bytes_ok b → 0 <= be_get n b i < 256 ^ Z.of_nat n.
Proof.
  intros Hb. induction n as [|n IH]; [unfold be_get; simpl; lia|].
  rewrite be_get_S, Nat2Z.inj_succ, Z.pow_succ_r by lia.
  pose proof (bytes_ok_zget (i + Z.of_nat n) b Hb) as H. unfold is_byte in H. lia.
Qed.

Lemma be_get_put n b i v :
  0 <= i → i + Z.of_nat n <= Zlen b → be_get n (be_put n b i v) i = v mod 256 ^ Z.of_nat n.
Proof.
  intros Hi. revert v. induction n as [|n IH]; intros v Hn; [unfold be_get; simpl; by rewrite Z.mod_1_r|].
  rewrite be_get_S. cbn [be_put].
  rewrite (be_get_local n _ i (be_put n b i (v / 256)) i) by
    (try lia; intros k Hk; by rewrite list_lookup_insert_ne by lia).
  rewrite IH by lia. unfold zget at 1. rewrite list_lookup_insert_eq; cycle 1.
  { pose proof (be_put_length n b i (v / 256)). unfold Zlen in *. lia. }
  simpl. unfold to_byte. change (2 ^ 8) with 256.
  rewrite Nat2Z.inj_succ, Z.pow_succ_r by lia. rewrite Z.rem_mul_r; [lia|lia|].
  apply Z.pow_pos_nonneg; lia.
Qed.

#[global] Instance network_order_more_laws : MoreWireLaws network_order network_order_more.
Proof.
  split; cbn [get1 get3 get4 get8 set1 set3 set8 pad32 network_order network_order_more]; intros.
  - done.
  - by rewrite be_get_put.
  - by rewrite be_get_put.
  - by rewrite be_get_put.
  - apply (be_put_length 1).
  - apply (be_put_length 3).
  - apply (be_put_length 8).
  - by apply (be_put_bytes 3).
  - apply (be_get_local 1); [done..|]. intros k Hk. replace k with 0 by lia. by rewrite !Z.add_0_r.
  - by apply (be_get_local 3).
  - by apply (be_get_local 8).
  - by apply (be_get_range 3).
  - by apply (be_get_range 4).
  - done.
Qed.

(** The accessors of libmedkit are in network order. *)
Class NetworkOrder (W : WireOps) (V : MoreWireOps) : Prop := {
  get1_be b i : get1 b i = be_get 1 b i;
  get2_be b i : get2 b i = be_get 2 b i;
  get3_be b i : get3 b i = be_get 3 b i;
  get4_be b i : get4 b i = be_get 4 b i;
  get8_be b i : get8 b i = be_get 8 b i;
  set1_be b i v : set1 b i v = be_put 1 b i v;
  set2_be b i v : set2 b i v = be_put 2 b i v;
  set3_be b i v : set3 b i v = be_put 3 b i v;
  set4_be b i v : set4 b i v = be_put 4 b i v;
  set8_be b i v : set8 b i v = be_put 8 b i v;
}.

#[global] Instance network_order_is : NetworkOrder network_order network_order_more.
Proof. by split. Qed.

(** The octets that [setN] writes. *)
Definition put2 `{WireOps} (v : Z) : bytes := set2 [0; 0] 0 v.
Definition put4 `{WireOps} (v : Z) : bytes := set4 [0; 0; 0; 0] 0 v.
Definition put3 `{MoreWireOps} (v : Z) : bytes := set3 [0; 0; 0] 0 v.
(** [htons] *)
Definition htons (v : Z) : bytes := be_put 2 [0; 0] 0 v.

(** ** Lemmas *)

Lemma within_true data i n : 0 <= i → i + n <= Zlen data → within data i n = true.
Proof. intros. unfold within. by rewrite (proj2 (Z.leb_le 0 i)), (proj2 (Z.leb_le _ (Zlen data))). Qed.

Lemma within_spec data i n : within data i n = true ↔ 0 <= i ∧ i + n <= Zlen data.
Proof. unfold within. rewrite andb_true_iff, !Z.leb_le. done. Qed.

Lemma rd1_in data i : 0 <= i < Zlen data → rd1 data i = Got (zget i data).
Proof. intros. unfold rd1. by rewrite within_true by lia. Qed.

Lemma rd_with_in n get data i : 0 <= i → i + n <= Zlen data → rd_with n get data i = Got (get data i).
Proof. intros. unfold rd_with. by rewrite within_true. Qed.

Lemma rd_copy_in data i n :
  0 <= i → i + n <= Zlen data → rd_copy data i n = Got (ztake n (zdrop i data)).
Proof. intros. unfold rd_copy. by rewrite within_true. Qed.

Lemma wr_copy_in data i w : 0 <= i → i + Zlen w <= Zlen data → wr_copy data i w = Got (write_at i w data).
Proof. intros. unfold wr_copy. by rewrite within_true. Qed.

Section Reading.
Context {W : WireOps} {V : MoreWireOps} {HW : WireLaws W} {HV : MoreWireLaws W V}.
Implicit Types (pre post : bytes) (v i : Z).

Lemma Zlen_put2 v : Zlen (put2 v) = 2.
Proof. unfold put2. by rewrite set2_length. Qed.
Lemma Zlen_put3 v : Zlen (put3 v) = 3.
Proof. unfold put3. by rewrite set3_length. Qed.
Lemma Zlen_put4 v : Zlen (put4 v) = 4.
Proof. unfold put4. by rewrite set4_length. Qed.

Lemma lookup_mid pre (w : bytes) post i k :
  i = Zlen pre → 0 <= k < Zlen w → (pre ++ w ++ post) !! Z.to_nat (i + k) = w !! Z.to_nat (0 + k).
Proof.
  intros -> Hk. unfold Zlen in *. rewrite lookup_app_r by lia. rewrite lookup_app_l by lia. f_equal. lia.
Qed.

(** Octets written at the end of a prefix are read back there. *)
Lemma rd2_at pre v post i : i = Zlen pre → rd_with 2 get2 (pre ++ put2 v ++ post) i = Got (to_word v).
Proof.
  intros ->. pose proof (Zlen_put2 v). pose proof (Zlen_nonneg pre). pose proof (Zlen_nonneg post).
  rewrite rd_with_in by (rewrite ?Zlen_app; lia). f_equal.
  rewrite <- (get2_set2 [0; 0] 0 v) by (unfold Zlen; simpl; lia).
  apply get2_local; [done..|]. intros k Hk. apply lookup_mid; [done|]. unfold put2, put3, put4 in *. lia.
Qed.

Lemma rd4_at pre v post i : i = Zlen pre → rd_with 4 get4 (pre ++ put4 v ++ post) i = Got (to_dword v).
Proof.
  intros ->. pose proof (Zlen_put4 v). pose proof (Zlen_nonneg pre). pose proof (Zlen_nonneg post).
  rewrite rd_with_in by (rewrite ?Zlen_app; lia). f_equal.
  rewrite <- (get4_set4 [0; 0; 0; 0] 0 v) by (unfold Zlen; simpl; lia).
  apply get4_local; [done..|]. intros k Hk. apply lookup_mid; [done|]. unfold put2, put3, put4 in *. lia.
Qed.

Lemma rd3_at pre v post i : i = Zlen pre → rd_with 3 get3 (pre ++ put3 v ++ post) i = Got (v mod 2 ^ 24).
Proof.
  intros ->. pose proof (Zlen_put3 v). pose proof (Zlen_nonneg pre). pose proof (Zlen_nonneg post).
  rewrite rd_with_in by (rewrite ?Zlen_app; lia). f_equal.
  rewrite <- (get3_set3 [0; 0; 0] 0 v) by (unfold Zlen; simpl; lia).
  apply get3_local; [done..|]. intros k Hk. apply lookup_mid; [done|]. unfold put2, put3, put4 in *. lia.
Qed.

Lemma zget_at pre o post : zget (Zlen pre) (pre ++ o :: post) = o.
Proof. unfold zget, Zlen. rewrite Nat2Z.id, list_lookup_middle by done. done. Qed.

Lemma rd1_at pre o post i : i = Zlen pre → rd1 (pre ++ o :: post) i = Got o.
Proof.
  intros ->. pose proof (Zlen_nonneg pre). pose proof (Zlen_nonneg post).
  rewrite rd1_in by (rewrite Zlen_app; unfold Zlen in *; simpl; lia). by rewrite zget_at.
Qed.

Lemma rd_copy_at pre w post i n : i = Zlen pre → n = Zlen w → rd_copy (pre ++ w ++ post) i n = Got w.
Proof.
  intros -> ->. pose proof (Zlen_nonneg pre). pose proof (Zlen_nonneg post). pose proof (Zlen_nonneg w).
  rewrite rd_copy_in by (rewrite ?Zlen_app; lia).
  by rewrite zdrop_app, ztake_app.
Qed.

Lemma rd_copy_end pre w i n : i = Zlen pre → n = Zlen w → rd_copy (pre ++ w) i n = Got w.
Proof. intros Hi Hn. rewrite <- (app_nil_r w) at 1. by apply rd_copy_at. Qed.

(** Two raw octets read as a word. *)
Lemma rd2_raw_at pre a b post i :
  i = Zlen pre → rd_with 2 get2 (pre ++ a :: b :: post) i = Got (a * 256 + b).
Proof.
  intros ->. pose proof (Zlen_nonneg pre). pose proof (Zlen_nonneg post).
  rewrite rd_with_in by (rewrite ?Zlen_app; unfold Zlen in *; simpl; lia). f_equal.
  rewrite get2_network. unfold be_get. cbn [foldl seq]. rewrite Z.add_0_r, zget_at.
  replace (pre ++ a :: b :: post) with ((pre ++ [a]) ++ b :: post) by by rewrite <- app_assoc.
  replace (Zlen pre + Z.of_nat 1) with (Zlen (pre ++ [a])) by (rewrite Zlen_app; done).
  by rewrite zget_at.
Qed.
End Reading.

Lemma rd1_got data i v : rd1 data i = Got v → 0 <= i < Zlen data ∧ v = zget i data.
Proof.
  unfold rd1. destruct (within data i 1) eqn:Hw; [|done]. apply within_spec in Hw. intros [= <-].
  split; [lia|done].
Qed.

Lemma write_at_length i w data :
  0 <= i → i + Zlen w <= Zlen data → Zlen (write_at i w data) = Zlen data.
Proof.
  intros. unfold write_at. rewrite !Zlen_app, Zlen_ztake, Zlen_zdrop; pose proof (Zlen_nonneg w); lia.
Qed.

Lemma write_at_bytes i w data : bytes_ok data → bytes_ok w → bytes_ok (write_at i w data).
Proof. intros. unfold write_at. repeat apply Forall_app_2; [by apply Forall_take|done|by apply Forall_drop]. Qed.

Lemma write_at_0 w data : write_at 0 w data = w ++ zdrop (Zlen w) data.
Proof. done. Qed.

Lemma write_at_read i w data :
  0 <= i → i + Zlen w <= Zlen data → ztake (Zlen w) (zdrop i (write_at i w data)) = w.
Proof.
  intros Hi Hw. unfold write_at. pose proof (Zlen_nonneg w).
  rewrite zdrop_app by (rewrite Zlen_ztake; lia). by rewrite ztake_app.
Qed.

Lemma zget_app_l i l k : 0 <= i < Zlen l → zget i (l ++ k) = zget i l.
Proof. intros. unfold zget. rewrite lookup_app_l; [done|]. unfold Zlen in *. lia. Qed.

Lemma zget_ztake i n l : 0 <= i < n → zget i (ztake n l) = zget i l.
Proof. intros. unfold zget, ztake. by rewrite lookup_take_lt by lia. Qed.

Lemma zget_write_at_before i w data j :
  0 <= j < i → i <= Zlen data → zget j (write_at i w data) = zget j data.
Proof.
  intros. unfold write_at. rewrite zget_app_l by (rewrite Zlen_ztake; lia). by apply zget_ztake.
Qed.

Lemma be_get_app n b c i : 0 <= i → i + Z.of_nat n <= Zlen b → be_get n (b ++ c) i = be_get n b i.
Proof.
  intros. apply be_get_local; [lia..|]. intros k Hk. rewrite lookup_app_l; [done|]. unfold Zlen in *. lia.
Qed.

Lemma be_get_agree n b c i :
  0 <= i → (∀ k, i <= k < i + Z.of_nat n → b !! Z.to_nat k = c !! Z.to_nat k) → be_get n b i = be_get n c i.
Proof. intros. apply be_get_local; [lia..|]. intros k Hk. apply H0. lia. Qed.

Lemma land_range a n : 0 <= n → 0 <= Z.land a (Z.ones n) < 2 ^ n.
Proof. intros. rewrite Z.land_ones by done. apply Z.mod_pos_bound. lia. Qed.

Lemma lxor_range n a b : 0 <= n → 0 <= a < 2 ^ n → 0 <= b < 2 ^ n → 0 <= Z.lxor a b < 2 ^ n.
Proof.
  intros Hn Ha Hb. assert (0 <= Z.lxor a b) by (apply Z.lxor_nonneg; lia). split; [done|].
  destruct (decide (Z.lxor a b = 0)) as [-> |]; [lia|]. apply Z.log2_lt_pow2; [lia|].
  assert (∀ y, 0 <= y < 2 ^ n → 0 < y → Z.log2 y < n) as Hlog by (intros; apply Z.log2_lt_pow2; lia).
  destruct (decide (a = 0)) as [-> |]; [rewrite Z.lxor_0_l in *; apply Hlog; lia|].
  destruct (decide (b = 0)) as [-> |]; [rewrite Z.lxor_0_r in *; apply Hlog; lia|].
  pose proof (Z.log2_lxor a b). pose proof (Hlog a Ha ltac:(lia)). pose proof (Hlog b Hb ltac:(lia)). lia.
Qed.

(** A field put above [s] bits is added. *)
Lemma lor_shiftl a b s : 0 <= s → 0 <= b < 2 ^ s → Z.lor (Z.shiftl a s) b = a * 2 ^ s + b.
Proof.
  intros Hs Hb. rewrite <- Z.shiftl_mul_pow2 by done.
  assert (Z.land (Z.shiftl a s) b = 0) as Hl.
  { apply Z.bits_inj'. intros n Hn. rewrite Z.land_spec, Z.bits_0.
    destruct (Z.ltb_spec n s) as [Hlt|Hge].
    - by rewrite Z.shiftl_spec_low.
    - rewrite andb_comm. destruct (decide (b = 0)) as [->|Hb0]; [by rewrite Z.bits_0|].
      rewrite Z.bits_above_log2; [done|lia|]. assert (Z.log2 b < s); [|lia]. apply Z.log2_lt_pow2; lia. }
  rewrite Z.add_nocarry_lxor by done. by rewrite <- Z.lxor_lor.
Qed.

Lemma shiftr_byte o s : is_byte o → 0 <= s → 0 <= Z.shiftr o s <= o.
Proof.
  unfold is_byte. intros Ho Hs. rewrite Z.shiftr_div_pow2 by done.
  assert (0 < 2 ^ s) by (apply Z.pow_pos_nonneg; lia).
  split; [apply Z.div_pos; lia|]. apply Z.div_le_upper_bound; nia.
Qed.

Ltac unfold_checked := unfold rd_with, rd1, rd_copy, refuse_if in *.

(** [a * 2^s + b] as the code writes and takes it apart, octet by octet. *)
Ltac bits_lia :=
  unfold is_byte, is_word, is_dword, to_byte, to_word, to_dword in *;
  repeat first
    [ rewrite Z.shiftr_div_pow2 by lia
    | match goal with |- context [Z.land ?a 1] => change (Z.land a 1) with (Z.land a (Z.ones 1)) end
    | match goal with |- context [Z.land ?a 3] => change (Z.land a 3) with (Z.land a (Z.ones 2)) end
    | match goal with |- context [Z.land ?a 7] => change (Z.land a 7) with (Z.land a (Z.ones 3)) end
    | match goal with |- context [Z.land ?a 63] => change (Z.land a 63) with (Z.land a (Z.ones 6)) end
    | match goal with |- context [Z.land ?a 127] => change (Z.land a 127) with (Z.land a (Z.ones 7)) end
    | rewrite Z.land_ones by lia ].

(** The octet at a constant position of an explicit list. *)
Ltac octets_at :=
  repeat match goal with
  | |- context [zget ?i (?x :: ?l)] =>
      let v := eval cbv [zget default lookup list_lookup Z.to_nat Pos.to_nat Pos.iter_op Init.Nat.add from_option id] in (zget i (x :: l)) in
      change (zget i (x :: l)) with v
  end.
