(* ===== verification/RtpPacket.v ===== *)
(** * RTP packets

    [RTPPacket] and its subclasses (src/mcu/include/rtp.h, src/mcu/src/rtp.cpp): the header inside
    the packet's buffer of 1700 octets, what a received packet must satisfy, the header extensions
    and the blocks of a redundant packet (RFC 2198).  The bit fields of [rtp_hdr_t] are laid out as
    the compiler does on the little-endian machines the server runs on.  The octets of a fresh
    packet that nobody wrote are the argument [mem] of the constructors. *)

From S2P Require Import Prelude OrderedMap Wire Octets.

(** [MediaFrame::Type] *)
Inductive MediaType := Audio | Video | Text.

#[global] Instance MediaType_eq_dec : EqDecision MediaType.
Proof. solve_decision. Defined.

(** ** RTPMap *)

Definition RTPMap := list (Z * Z).
Definition RTPMap_NotFound : Z := 255.

Definition GetCodecForType (m : RTPMap) (type : Z) : Z :=
  match om_find type m with None => RTPMap_NotFound | Some c => c end.

(** ** The packet *)

Definition MaxMidLength : Z := 16.

Record HeaderExtension := mkExt {
  he_absSentTime : Z;
  he_timeOffset : Z;
  he_vad : bool;
  he_level : Z;
  he_transportSeqNum : Z;
  he_hasAbsSentTime : bool;
  he_hasTimeOffset : bool;
  he_hasAudioLevel : bool;
  he_hasTransportSeqNum : bool;
  he_hasMid : bool;
  he_mid : bytes;                (** [char mid\[MaxMidLength + 1\]] *)
}.

(** Of [mid] only the terminator is written; the octets after it are never read. *)
Definition new_extension : HeaderExtension :=
  mkExt 0 0 false 0 0 false false false false false (replicate 17 0).

Definition RTP_SIZE : Z := 1700.
Definition rtp_hdr_size : Z := 12.
Definition rtp_hdr_ext_size : Z := 4.

Record RTPPacket := mkRtp {
  rp_media : MediaType;
  rp_codec : Z;
  rp_clockRate : Z;
  rp_cycles : Z;
  rp_buffer : bytes;             (** [RTP_SIZE] octets *)
  rp_len : Z;
  rp_extension : HeaderExtension;
  rp_valid : bool;
}.

Definition set_buffer (f : bytes → bytes) (p : RTPPacket) : RTPPacket :=
  mkRtp (rp_media p) (rp_codec p) (rp_clockRate p) (rp_cycles p) (f (rp_buffer p)) (rp_len p)
    (rp_extension p) (rp_valid p).
Definition set_header_octet (i : nat) (f : Z → Z) : RTPPacket → RTPPacket :=
  set_buffer (λ b, <[i := f (zget (Z.of_nat i) b)]> b).

(** Setters. *)
Definition SetMediaLength (len : Z) (p : RTPPacket) : RTPPacket :=
  mkRtp (rp_media p) (rp_codec p) (rp_clockRate p) (rp_cycles p) (rp_buffer p) len
    (rp_extension p) (rp_valid p).
Definition SetCodec (codec : Z) (p : RTPPacket) : RTPPacket :=
  mkRtp (rp_media p) codec (rp_clockRate p) (rp_cycles p) (rp_buffer p) (rp_len p)
    (rp_extension p) (rp_valid p).
Definition SetClockRate (rate : Z) (p : RTPPacket) : RTPPacket :=
  mkRtp (rp_media p) (rp_codec p) rate (rp_cycles p) (rp_buffer p) (rp_len p)
    (rp_extension p) (rp_valid p).
Definition SetSeqCycles (cycles : Z) (p : RTPPacket) : RTPPacket :=
  mkRtp (rp_media p) (rp_codec p) (rp_clockRate p) (to_word cycles) (rp_buffer p) (rp_len p)
    (rp_extension p) (rp_valid p).
Definition set_extension (e : HeaderExtension) (p : RTPPacket) : RTPPacket :=
  mkRtp (rp_media p) (rp_codec p) (rp_clockRate p) (rp_cycles p) (rp_buffer p) (rp_len p)
    e (rp_valid p).
Definition set_received (len : Z) (valid : bool) (p : RTPPacket) : RTPPacket :=
  mkRtp (rp_media p) (rp_codec p) (rp_clockRate p) (rp_cycles p) (rp_buffer p) len
    (rp_extension p) valid.
Definition SetRtpVersion (v : Z) : RTPPacket → RTPPacket := set_header_octet 0 (bit_field 2 6 v).
Definition SetP (b : bool) : RTPPacket → RTPPacket := set_header_octet 0 (bit_field 1 5 (Z.b2z b)).
Definition SetX (b : bool) : RTPPacket → RTPPacket := set_header_octet 0 (bit_field 1 4 (Z.b2z b)).
Definition SetCC (cc : Z) : RTPPacket → RTPPacket := set_header_octet 0 (bit_field 4 0 cc).
Definition SetMark (b : bool) : RTPPacket → RTPPacket := set_header_octet 1 (bit_field 1 7 (Z.b2z b)).
Definition SetType (t : Z) : RTPPacket → RTPPacket := set_header_octet 1 (bit_field 7 0 t).
Definition SetSeqNum (sn : Z) : RTPPacket → RTPPacket := set_buffer (λ b, be_put 2 b 2 sn).
Definition SetTimestamp (ts : Z) : RTPPacket → RTPPacket := set_buffer (λ b, be_put 4 b 4 ts).
Definition SetSSRC (ssrc : Z) : RTPPacket → RTPPacket := set_buffer (λ b, be_put 4 b 8 ssrc).

(** Getters. *)
Definition hdr_cc (b : bytes) : Z := Z.land (zget 0 b) 15.
Definition hdr_x (b : bytes) : bool := Z.testbit (zget 0 b) 4.
Definition hdr_p (b : bytes) : bool := Z.testbit (zget 0 b) 5.
Definition hdr_version (b : bytes) : Z := Z.land (Z.shiftr (zget 0 b) 6) 3.
Definition hdr_pt (b : bytes) : Z := Z.land (zget 1 b) 127.
Definition hdr_m (b : bytes) : bool := Z.testbit (zget 1 b) 7.

Definition GetVersion (p : RTPPacket) : Z := hdr_version (rp_buffer p).
Definition GetX (p : RTPPacket) : bool := hdr_x (rp_buffer p).
Definition GetP (p : RTPPacket) : bool := hdr_p (rp_buffer p).
Definition GetCC (p : RTPPacket) : Z := hdr_cc (rp_buffer p).
Definition GetType (p : RTPPacket) : Z := hdr_pt (rp_buffer p).
Definition GetMark (p : RTPPacket) : bool := hdr_m (rp_buffer p).
Definition GetSeqNum (p : RTPPacket) : Z := ntohs_at (rp_buffer p) 2.
Definition GetTimestamp (p : RTPPacket) : Z := ntohl_at (rp_buffer p) 4.
Definition GetSSRC (p : RTPPacket) : Z := ntohl_at (rp_buffer p) 8.
Definition GetExtSeqNum (p : RTPPacket) : Z := Z.lor (Z.shiftl (rp_cycles p) 16) (GetSeqNum p).
Definition GetClockTimestamp (p : RTPPacket) : Z := to_dword (GetTimestamp p * 1000 / rp_clockRate p).

Definition csrc_end (b : bytes) : Z := rtp_hdr_size + 4 * hdr_cc b.
(** [ntohs(GetExtensionType())], the way its only reader takes it. *)
Definition GetExtensionType (p : RTPPacket) : Z := ntohs_at (rp_buffer p) (csrc_end (rp_buffer p)).
Definition GetExtensionLength (p : RTPPacket) : Z :=
  if GetX p then ntohs_at (rp_buffer p) (csrc_end (rp_buffer p) + 2) * 4 else 0.
Definition GetExtensionSize (p : RTPPacket) : Z :=
  if GetX p then GetExtensionLength p + rtp_hdr_ext_size else 0.
Definition GetRTPHeaderLen (p : RTPPacket) : Z := csrc_end (rp_buffer p) + GetExtensionSize p.
Definition GetMaxMediaLength (p : RTPPacket) : Z :=
  if GetRTPHeaderLen p <? RTP_SIZE then RTP_SIZE - GetRTPHeaderLen p else 0.
Definition GetSize (p : RTPPacket) : Z := rp_len p + GetRTPHeaderLen p.
(** The [GetMediaLength()] octets at [GetMediaData()]. *)
Definition media_octets (p : RTPPacket) : bytes := ztake (rp_len p) (zdrop (GetRTPHeaderLen p) (rp_buffer p)).

Definition SetSize (size : Z) (p : RTPPacket) : RTPPacket :=
  SetMediaLength (to_dword (size - GetRTPHeaderLen p)) p.

Definition default_clock (media : MediaType) : Z :=
  match media with Video => 90000 | Audio => 8000 | Text => 1000 end.

(** [RTPPacket(media, codec, type)]: an empty header of version 2.  [len] is not initialised: [len0]. *)
Definition new_rtp (mem : bytes) (len0 : Z) (media : MediaType) (codec type : Z) : RTPPacket :=
  SetType type (SetRtpVersion 2
    (mkRtp media codec (default_clock media) 0 (write_at 0 (replicate 12 0) mem) len0 new_extension true)).

Definition SetPayload (data : bytes) (p : RTPPacket) : bool * RTPPacket :=
  if GetMaxMediaLength p <? Zlen data then (false, p)
  else (true, SetMediaLength (Zlen data) (set_buffer (write_at (GetRTPHeaderLen p) data) p)).

Definition SetData (data : bytes) (p : RTPPacket) : bool * RTPPacket :=
  let size := Zlen data in
  let p := set_received 0 false p in
  if (RTP_SIZE <? size) || (size <? rtp_hdr_size) then (false, p)
  else
    let p := set_buffer (write_at 0 data) p in
    let headerLen := csrc_end (rp_buffer p) in
    if GetX p && (size <? headerLen + rtp_hdr_ext_size) then (false, p)
    else
      let headerLen := GetRTPHeaderLen p in
      if size <? headerLen then (false, p)
      else
        let len := size - headerLen in
        if GetP p then
          let pad := zget (size - 1) (rp_buffer p) in
          if (pad =? 0) || (len <? pad) then (false, SetMediaLength 0 p)
          else (true, set_received (len - pad) true p)
        else (true, set_received len true p).

(** [RTPPacket(media, data, size)] *)
Definition recv_rtp (mem : bytes) (media : MediaType) (data : bytes) : RTPPacket :=
  let p := (SetData data (mkRtp media 0 (default_clock media) 0 mem 0 new_extension false)).2 in
  SetCodec (GetType p) p.

(** [Clone]; the SSRC is not copied. *)
Definition Clone (mem : bytes) (len0 : Z) (p : RTPPacket) : RTPPacket :=
  let c := new_rtp mem len0 (rp_media p) (rp_codec p) (GetType p) in
  let c := SetClockRate (rp_clockRate p) c in
  let c := SetMark (GetMark p) c in
  let c := SetSeqNum (GetSeqNum p) c in
  let c := SetSeqCycles (rp_cycles p) c in
  let c := SetTimestamp (GetTimestamp p) c in
  (SetPayload (media_octets p) c).2.

(** [IsRTP(data, size)] *)
Definition IsRTP (data : bytes) : bool := (rtp_hdr_size <=? Zlen data) && (hdr_version data =? 2).

(** ** Header extensions *)

Inductive ExtensionType := SSRCAudioLevel | TimeOffset | AbsoluteSendTime | TransportWideCC | MID.
Definition ext_of_code (t : Z) : option ExtensionType :=
  if t =? 1 then Some SSRCAudioLevel else if t =? 2 then Some TimeOffset
  else if t =? 3 then Some AbsoluteSendTime else if t =? 4 then Some TransportWideCC
  else if t =? 5 then Some MID else None.

Section Extensions.
Context {W : WireOps} {V : MoreWireOps}.

(** The [switch] on the type of the element of [n] octets at [pos]. *)
Definition read_element (buf : bytes) (pos n : Z) (t : option ExtensionType) (e : HeaderExtension)
  : checked HeaderExtension :=
  match t with
  | Some SSRCAudioLevel =>
      let? o := rd1 buf pos in
      Got (mkExt (he_absSentTime e) (he_timeOffset e) (Z.testbit o 7) (Z.land o 127) (he_transportSeqNum e)
             (he_hasAbsSentTime e) (he_hasTimeOffset e) true (he_hasTransportSeqNum e) (he_hasMid e) (he_mid e))
  | Some TimeOffset =>
      let? v := rd_with 3 get3 buf pos in
      Got (mkExt (he_absSentTime e) (if Z.testbit v 23 then to_int32 (Z.lor v 0xFF000000) else v)
             (he_vad e) (he_level e) (he_transportSeqNum e) (he_hasAbsSentTime e) true
             (he_hasAudioLevel e) (he_hasTransportSeqNum e) (he_hasMid e) (he_mid e))
  | Some AbsoluteSendTime =>
      let? v := rd_with 3 get3 buf pos in
      Got (mkExt (Z.shiftr (v * 1000) 18) (he_timeOffset e) (he_vad e) (he_level e) (he_transportSeqNum e)
             true (he_hasTimeOffset e) (he_hasAudioLevel e) (he_hasTransportSeqNum e) (he_hasMid e) (he_mid e))
  | Some TransportWideCC =>
      let? v := rd_with 2 get2 buf pos in
      Got (mkExt (he_absSentTime e) (he_timeOffset e) (he_vad e) (he_level e) v (he_hasAbsSentTime e)
             (he_hasTimeOffset e) (he_hasAudioLevel e) true (he_hasMid e) (he_mid e))
  | Some MID =>
      let? m := rd_copy buf pos n in
      Got (mkExt (he_absSentTime e) (he_timeOffset e) (he_vad e) (he_level e) (he_transportSeqNum e)
             (he_hasAbsSentTime e) (he_hasTimeOffset e) (he_hasAudioLevel e) (he_hasTransportSeqNum e)
             true (write_at 0 (m ++ [0]) (he_mid e)))
  | None => Got e
  end.

Fixpoint extensions_loop (fuel : nat) (extMap : RTPMap) (buf : bytes) (pos length : Z) (e : HeaderExtension)
  : checked HeaderExtension :=
  if length =? 0 then Got e
  else
    match fuel with
    | O => Fault
    | S fuel =>
        let? header := rd1 buf pos in
        if header =? 0 then extensions_loop fuel extMap buf (pos + 1) (length - 1) e
        else
          let id := Z.shiftr header 4 in
          let n := Z.land header 15 + 1 in
          if length - 1 <? n then Got e
          else
            let? e := read_element buf (pos + 1) n (ext_of_code (GetCodecForType extMap id)) e in
            extensions_loop fuel extMap buf (pos + 1 + n) (length - 1 - n) e
    end.

Definition ProcessExtensions (extMap : RTPMap) (p : RTPPacket) : checked RTPPacket :=
  if negb (rp_valid p) then Got p
  else if GetX p && (GetExtensionType p =? 0xBEDE) then
    let? e := extensions_loop (Z.to_nat (GetExtensionLength p)) extMap (rp_buffer p)
                (csrc_end (rp_buffer p) + rtp_hdr_ext_size) (GetExtensionLength p) (rp_extension p) in
    Got (set_extension e p)
  else Got p.

Fixpoint mid_loop (fuel : nat) (id : Z) (data : bytes) (pos length : Z) : checked bytes :=
  if length =? 0 then Refuse
  else
    match fuel with
    | O => Fault
    | S fuel =>
        let? header := rd1 data pos in
        if header =? 0 then mid_loop fuel id data (pos + 1) (length - 1)
        else
          let n := Z.land header 15 + 1 in
          if length - 1 <? n then Refuse
          else if Z.shiftr header 4 =? id then rd_copy data (pos + 1) n
          else mid_loop fuel id data (pos + 1 + n) (length - 1 - n)
    end.

(** [ReadMid(data, size, id, mid)] *)
Definition ReadMid (data : bytes) (id : Z) : checked bytes :=
  let size := Zlen data in
  refuse_if (negb (IsRTP data)) (
  refuse_if (negb (hdr_x data)) (
  let pos := csrc_end data in
  refuse_if (size <? pos + 4) (
  let? profile := rd_with 2 get2 data pos in
  refuse_if (negb (profile =? 0xBEDE)) (
  let? words := rd_with 2 get2 data (pos + 2) in
  let length := words * 4 in
  let pos := pos + 4 in
  refuse_if (size <? pos + length) (
  mid_loop (Z.to_nat length) id data pos length))))).
End Extensions.

(** A C string in an array. *)
Fixpoint c_string (l : bytes) : bytes :=
  match l with
  | [] => []
  | c :: l => if c =? 0 then [] else c :: c_string l
  end.

Definition GetMid (p : RTPPacket) : bytes := c_string (he_mid (rp_extension p)).

(** ** Timed packets *)

Record RTPTimedPacket := mkTimed { tp_rtp : RTPPacket; tp_time : Z }.

(** [RTPTimedPacket::Clone] *)
Definition timed_Clone (mem : bytes) (len0 : Z) (t : RTPTimedPacket) : RTPTimedPacket :=
  mkTimed (Clone mem len0 (tp_rtp t)) (tp_time t).

(** ** Redundant packets *)

Record RedHeader := mkRed {
  red_type : Z;
  red_codec : Z;
  red_offset : Z;
  red_ini : Z;
  red_size : Z;
}.

(** [primaryData] and [redundantData] are offsets into the payload; [None] is [NULL] for the
    former and not initialised for the latter. *)
Record RedBlocks := mkBlocks {
  rb_headers : list RedHeader;
  rb_primaryType : Z;
  rb_primarySize : Z;
  rb_primaryData : option Z;
  rb_redundantData : option Z;
}.

Fixpoint red_headers (fuel : nat) (payload : bytes) (i skip : Z) (hs : list RedHeader)
  : checked (bool * Z * Z * list RedHeader) :=
  let? o := rd1 payload i in
  if o <? 128 then Got (true, i, skip, hs)
  else
    match fuel with
    | O => Fault
    | S fuel =>
        if Zlen payload <? i + 4 + 1 then Got (false, i, skip, hs)
        else
          let? o0 := rd1 payload i in
          let? o1 := rd1 payload (i + 1) in
          let? o2 := rd1 payload (i + 2) in
          let? o3 := rd1 payload (i + 3) in
          let type := Z.land o0 127 in
          let offset := to_word (Z.lor (Z.shiftl o1 6) (Z.shiftr o2 2)) in
          let size := to_word (Z.lor (Z.shiftl (Z.land o2 3) 8) o3) in
          red_headers fuel payload (i + 4) (skip + size) (hs ++ [mkRed type type offset skip size])
    end.

Definition no_blocks : RedBlocks := mkBlocks [] 0 0 None None.

(** [DecodeRedundantPayload(payload, redsize)] on a packet whose primary block was just reset; the
    headers it has are kept, and so is the redundant data until it is located anew. *)
Definition DecodeRedundantPayload (b : RedBlocks) (payload : bytes) : checked RedBlocks :=
  let redsize := Zlen payload in
  if redsize =? 0 then Got (mkBlocks (rb_headers b) 0 0 None (rb_redundantData b))
  else
    let? res := red_headers (length payload) payload 0 0 (rb_headers b) in
    let '(coherent, i, skip, hs) := res in
    if negb coherent || (redsize <=? i) then Got (mkBlocks hs 0 0 None (rb_redundantData b))
    else
      let? o := rd1 payload i in
      let primaryType := Z.land o 127 in
      let i := i + 1 in
      if redsize - i <? skip then Got (mkBlocks [] primaryType 0 None (Some i))
      else Got (mkBlocks hs primaryType (redsize - i - skip) (Some (i + skip)) (Some i)).

Record RTPRedundantPacket := mkRedundant {
  rr_timed : RTPTimedPacket;
  rr_blocks : RedBlocks;
  rr_primaryCodec : Z;
}.

(** [RTPRedundantPacket(media, data, size)]; [now] is [getTime()/1000]. *)
Definition recv_redundant (mem : bytes) (media : MediaType) (data : bytes) (now : Z)
  : checked RTPRedundantPacket :=
  let p := recv_rtp mem media data in
  let? b := DecodeRedundantPayload no_blocks (media_octets p) in
  Got (mkRedundant (mkTimed p now) b 0).

(** [RTPRedundantPacket(media, codec)] *)
Definition new_redundant (mem : bytes) (len0 : Z) (media : MediaType) (codec now : Z) : RTPRedundantPacket :=
  mkRedundant (mkTimed (new_rtp mem len0 media codec codec) now) no_blocks 0.

(** [SetPayload] of a redundant packet; [headers] is not emptied. *)
Definition red_SetPayload (data : bytes) (r : RTPRedundantPacket) : checked (bool * RTPRedundantPacket) :=
  let '(ok, p) := SetPayload data (tp_rtp (rr_timed r)) in
  if ok then
    let? b := DecodeRedundantPayload (rr_blocks r) (media_octets p) in
    Got (true, mkRedundant (mkTimed p (tp_time (rr_timed r))) b 0)
  else Got (false, r).

Definition GetRedundantCount (r : RTPRedundantPacket) : Z := to_byte (Zlen (rb_headers (rr_blocks r))).

(** [GetRedundantTimestamp] returns a [BYTE]. *)
Definition GetRedundantTimestamp (r : RTPRedundantPacket) (i : nat) : Z :=
  match rb_headers (rr_blocks r) !! i with
  | Some h => to_byte (GetTimestamp (tp_rtp (rr_timed r)) - red_offset h)
  | None => 0
  end.

(** The [GetRedundantPayloadSize(i)] octets at [GetRedundantPayloadData(i)]. *)
Definition redundant_octets (r : RTPRedundantPacket) (i : nat) : checked bytes :=
  match rb_headers (rr_blocks r) !! i with
  | None => Got []
  | Some h =>
      match rb_redundantData (rr_blocks r) with
      | None => Fault
      | Some ini => rd_copy (media_octets (tp_rtp (rr_timed r))) (ini + red_ini h) (red_size h)
      end
  end.

(** The [GetPrimaryPayloadSize()] octets at [GetPrimaryPayloadData()]; none of them when it is [NULL]. *)
Definition primary_octets (r : RTPRedundantPacket) : checked bytes :=
  match rb_primaryData (rr_blocks r) with
  | None => if rb_primarySize (rr_blocks r) =? 0 then Got [] else Fault
  | Some ini => rd_copy (media_octets (tp_rtp (rr_timed r))) ini (rb_primarySize (rr_blocks r))
  end.

(** [CreatePrimaryPacket]; the new packet keeps the time it was created at. *)
Definition CreatePrimaryPacket (mem : bytes) (len0 now : Z) (r : RTPRedundantPacket) : checked RTPTimedPacket :=
  let p := tp_rtp (rr_timed r) in
  let c := new_rtp mem len0 (rp_media p) (rr_primaryCodec r) (rb_primaryType (rr_blocks r)) in
  let c := SetClockRate (rp_clockRate p) c in
  let c := SetMark (GetMark p) c in
  let c := SetSeqNum (GetSeqNum p) c in
  let c := SetSeqCycles (rp_cycles p) c in
  let c := SetTimestamp (GetTimestamp p) c in
  let c := SetSSRC (GetSSRC p) c in
  let? data := primary_octets r in
  Got (mkTimed (SetPayload data c).2 now).
