(* ===== verification/RtpClaims.v ===== *)
(** * RTP packets: what they guarantee

    Header and payload of a packet that [SetData] accepts lie inside what was received; the header
    extensions and the blocks of a redundant packet are read inside it as well. *)

From S2P Require Import Prelude OrderedMap Wire Octets RtpPacket.

(** ** The header *)

Lemma hdr_cc_range b : 0 <= hdr_cc b <= 15.
Proof. unfold hdr_cc. pose proof (land_range (zget 0 b) 4 ltac:(lia)) as H. change (Z.ones 4) with 15 in H. lia. Qed.

Lemma csrc_end_range b : 12 <= csrc_end b <= 72.
Proof. pose proof (hdr_cc_range b). unfold csrc_end, rtp_hdr_size. lia. Qed.

Lemma csrc_end_app b c : 0 < Zlen b → csrc_end (b ++ c) = csrc_end b.
Proof. intros. unfold csrc_end, hdr_cc. by rewrite zget_app_l by lia. Qed.

Lemma hdr_x_app b c : 0 < Zlen b → hdr_x (b ++ c) = hdr_x b.
Proof. intros. unfold hdr_x. by rewrite zget_app_l by lia. Qed.

Lemma hdr_p_app b c : 0 < Zlen b → hdr_p (b ++ c) = hdr_p b.
Proof. intros. unfold hdr_p. by rewrite zget_app_l by lia. Qed.

(** The length of the header that the octets announce. *)
Definition announced (b : bytes) : Z :=
  csrc_end b + if hdr_x b then ntohs_at b (csrc_end b + 2) * 4 + 4 else 0.

Lemma GetRTPHeaderLen_announced p : GetRTPHeaderLen p = announced (rp_buffer p).
Proof. unfold GetRTPHeaderLen, announced, GetExtensionSize, GetExtensionLength, GetX. by destruct (hdr_x _). Qed.

Lemma announced_app b c :
  0 < Zlen b → (hdr_x b = true → csrc_end b + 4 <= Zlen b) → announced (b ++ c) = announced b.
Proof.
  intros Hb Hx. unfold announced. rewrite csrc_end_app, hdr_x_app by done. destruct (hdr_x b); [|done].
  unfold ntohs_at. pose proof (csrc_end_range b). rewrite be_get_app; [done|lia|]. specialize (Hx eq_refl). lia.
Qed.

Lemma announced_min b : bytes_ok b → 12 <= announced b.
Proof.
  intros Hb. unfold announced, ntohs_at. pose proof (csrc_end_range b).
  pose proof (be_get_range 2 b (csrc_end b + 2) Hb). destruct (hdr_x b); lia.
Qed.

Definition buffer_ok (p : RTPPacket) : Prop := Zlen (rp_buffer p) = RTP_SIZE.

(** What [SetData] does, by cases on the octets received. *)
Definition well_framed (data : bytes) : bool :=
  (Zlen data <=? RTP_SIZE) && (rtp_hdr_size <=? Zlen data)
  && (negb (hdr_x data) || (csrc_end data + 4 <=? Zlen data)) && (announced data <=? Zlen data).

Definition padding_of (data : bytes) : Z := if hdr_p data then zget (Zlen data - 1) data else 0.

Definition acceptable (data : bytes) : bool :=
  well_framed data &&
  (negb (hdr_p data) || (negb (padding_of data =? 0) && (padding_of data <=? Zlen data - announced data))).

Lemma SetData_result data p :
  buffer_ok p →
  let p' := (SetData data p).2 in
  (SetData data p).1 = acceptable data ∧ rp_valid p' = acceptable data ∧ buffer_ok p'
  ∧ (acceptable data = true →
     rp_buffer p' = data ++ zdrop (Zlen data) (rp_buffer p)
     ∧ rp_len p' = Zlen data - announced data - padding_of data)
  ∧ (acceptable data = false → rp_len p' = 0)
  ∧ rp_extension p' = rp_extension p.
Proof.
  unfold buffer_ok. intros Hb. unfold SetData, acceptable, well_framed, padding_of. cbv zeta.
  rewrite (Z.ltb_antisym (Zlen data) RTP_SIZE), (Z.ltb_antisym rtp_hdr_size).
  destruct (Zlen data <=? RTP_SIZE) eqn:H1; [|by split_and!]. destruct (rtp_hdr_size <=? Zlen data) eqn:H2; [|by split_and!].
  ztests. cbn [negb andb orb]. unfold rtp_hdr_size in *.
  set (p1 := set_buffer (write_at 0 data) (set_received 0 false p)).
  assert (rp_buffer p1 = data ++ zdrop (Zlen data) (rp_buffer p)) as Hp1 by done.
  assert (Zlen (rp_buffer p1) = RTP_SIZE) as Hl.
  { rewrite Hp1, Zlen_app, Zlen_zdrop; lia. }
  unfold GetX, GetP. rewrite GetRTPHeaderLen_announced, Hp1, csrc_end_app, hdr_x_app, hdr_p_app by lia.
  unfold rtp_hdr_ext_size. rewrite (Z.ltb_antisym (csrc_end data + 4)).
  destruct (hdr_x data && negb (csrc_end data + 4 <=? Zlen data)) eqn:Hx.
  { apply andb_true_iff in Hx as [-> Hx]. apply negb_true_iff in Hx. rewrite Hx. simpl. by split_and!. }
  assert (negb (hdr_x data) || (csrc_end data + 4 <=? Zlen data) = true) as Hx'.
  { destruct (hdr_x data), (csrc_end data + 4 <=? Zlen data); done. }
  rewrite Hx'. simpl. rewrite announced_app by (try lia; intros Ht; rewrite Ht in Hx'; simpl in Hx'; ztests; lia).
  rewrite (Z.ltb_antisym (announced data)). destruct (announced data <=? Zlen data) eqn:Ha; simpl; [|by split_and!].
  ztests. rewrite zget_app_l by lia.
  destruct (hdr_p data); simpl; [|by split_and!; [done|done|done|intros _; split; [done|simpl; lia]|done|done]].
  rewrite (Z.ltb_antisym (zget (Zlen data - 1) data)).
  destruct (zget (Zlen data - 1) data =? 0); simpl; [by split_and!|].
  destruct (zget (Zlen data - 1) data <=? Zlen data - announced data); simpl; by split_and!.
Qed.

Lemma acceptable_spec data :
  bytes_ok data → acceptable data = true →
  12 <= announced data ∧ 0 <= padding_of data ∧ announced data + padding_of data <= Zlen data
  ∧ Zlen data <= RTP_SIZE ∧ 12 <= Zlen data
  ∧ (hdr_x data = true → csrc_end data + 4 <= Zlen data)
  ∧ (hdr_p data = true → 1 <= padding_of data).
Proof.
  intros Hb. unfold acceptable, well_framed. intros H. ztests. unfold rtp_hdr_size in *.
  pose proof (announced_min data Hb) as Hm.
  pose proof (bytes_ok_zget (Zlen data - 1) data Hb) as Hz. unfold is_byte in Hz. unfold padding_of in *.
  destruct (hdr_p data), (hdr_x data); simpl in *; ztests; split_and!; try lia; done.
Qed.

(** The payload of an accepted packet, in the octets received. *)
Lemma media_octets_received data p :
  buffer_ok p → bytes_ok data → acceptable data = true →
  media_octets (SetData data p).2
  = ztake (Zlen data - announced data - padding_of data) (zdrop (announced data) data).
Proof.
  intros Hp Hb Ha. destruct (SetData_result data p Hp) as (_ & _ & _ & Hr & _). destruct (Hr Ha) as [Hbuf Hlen].
  destruct (acceptable_spec data Hb Ha) as (H1 & H2 & H3 & H4 & H5 & Hx & _).
  unfold media_octets. rewrite GetRTPHeaderLen_announced, Hlen, Hbuf, announced_app by (done || lia).
  unfold ztake, zdrop. rewrite drop_app_le by (unfold Zlen in *; lia).
  rewrite take_app_le; [done|]. rewrite length_drop. unfold Zlen in *. lia.
Qed.

(** ** Header extensions *)

Record Element := mkElement { el_id : Z; el_pos : Z; el_size : Z }.

(** The elements of the one-byte form (RFC 8285): padding is skipped, an element that does not fit
    ends the list. *)
Fixpoint elements (fuel : nat) (data : bytes) (pos length : Z) : list Element :=
  if length =? 0 then []
  else
    match fuel with
    | O => []
    | S fuel =>
        let header := zget pos data in
        if header =? 0 then elements fuel data (pos + 1) (length - 1)
        else
          let n := Z.land header 15 + 1 in
          if length - 1 <? n then []
          else mkElement (Z.shiftr header 4) (pos + 1) n
               :: elements fuel data (pos + 1 + n) (length - 1 - n)
    end.

Lemma element_size header : 1 <= Z.land header 15 + 1 <= 16.
Proof. pose proof (land_range header 4 ltac:(lia)) as H. change (Z.ones 4) with 15 in H. lia. Qed.

Lemma elements_inside fuel data pos length el :
  0 <= length → el ∈ elements fuel data pos length →
  pos < el_pos el ∧ el_pos el + el_size el <= pos + length ∧ 1 <= el_size el <= 16.
Proof.
  revert pos length. induction fuel as [|fuel IH]; intros pos length Hl; simpl;
    (destruct (Z.eqb_spec length 0) as [|Hne]; [by intros ?%elem_of_nil|]); [by intros ?%elem_of_nil|].
  pose proof (element_size (zget pos data)) as Hn.
  destruct (zget pos data =? 0).
  { intros Hel. apply IH in Hel; [|lia]. lia. }
  destruct (Z.ltb_spec (length - 1) (Z.land (zget pos data) 15 + 1)); [by intros ?%elem_of_nil|].
  intros [->|Hel]%elem_of_cons; simpl; [lia|]. apply IH in Hel; lia.
Qed.

Lemma elements_agree fuel b c pos length :
  0 <= pos → 0 <= length → (∀ k, pos <= k < pos + length → zget k b = zget k c) →
  elements fuel b pos length = elements fuel c pos length.
Proof.
  revert pos length. induction fuel as [|fuel IH]; intros pos length Hp Hl Ha; simpl;
    destruct (Z.eqb_spec length 0); try done.
  rewrite <- (Ha pos) by lia. pose proof (element_size (zget pos b)).
  destruct (zget pos b =? 0); [apply IH; [lia..|]; intros; apply Ha; lia|].
  destruct (Z.ltb_spec (length - 1) (Z.land (zget pos b) 15 + 1)); [done|].
  f_equal. apply IH; [lia..|]. intros. apply Ha. lia.
Qed.

Section Extensions.
Context {W : WireOps} {V : MoreWireOps}.

Definition read_elements (extMap : RTPMap) (buf : bytes) (els : list Element) (e : HeaderExtension)
  : checked HeaderExtension :=
  foldl (λ m el, let? e := m in
                 read_element buf (el_pos el) (el_size el) (ext_of_code (GetCodecForType extMap (el_id el))) e)
    (Got e) els.

Lemma foldl_stuck {A B} (f : A → B → checked A) (l : list B) m :
  m ≠ Fault → (∀ a, m ≠ Got a) → foldl (λ m x, let? a := m in f a x) m l = m.
Proof. intros H1 H2. induction l as [|x l IH]; [done|]. destruct m; naive_solver. Qed.

Lemma foldl_fault {A B} (f : A → B → checked A) (l : list B) :
  foldl (λ m x, let? a := m in f a x) Fault l = Fault.
Proof. by induction l. Qed.

Lemma extensions_loop_elements extMap fuel buf pos length e :
  0 <= pos → pos + length <= Zlen buf → 0 <= length <= Z.of_nat fuel →
  extensions_loop fuel extMap buf pos length e = read_elements extMap buf (elements fuel buf pos length) e.
Proof.
  revert pos length e. induction fuel as [|fuel IH]; intros pos length e Hp Hb Hl; simpl;
    (destruct (Z.eqb_spec length 0) as [|Hne]; [done|]); [lia|].
  rewrite rd1_in by lia. simpl. pose proof (element_size (zget pos buf)).
  destruct (zget pos buf =? 0); [apply IH; lia|].
  destruct (Z.ltb_spec (length - 1) (Z.land (zget pos buf) 15 + 1)); [done|].
  unfold read_elements. simpl.
  destruct (read_element _ _ _ _ _) as [| |e'] eqn:He; simpl.
  - by rewrite foldl_fault.
  - by rewrite foldl_stuck.
  - apply IH; lia.
Qed.

Lemma read_element_got buf pos n t e :
  0 <= pos → pos + Z.max n 3 <= Zlen buf → ∃ e', read_element buf pos n t e = Got e'.
Proof.
  intros Hp Hb. destruct t as [[]|]; simpl; rewrite ?rd1_in, ?rd_with_in, ?rd_copy_in by lia; simpl; eauto.
Qed.

Lemma read_elements_got extMap buf els e :
  Forall (λ el, 0 <= el_pos el ∧ el_pos el + Z.max (el_size el) 3 <= Zlen buf) els →
  ∃ e', read_elements extMap buf els e = Got e'.
Proof.
  unfold read_elements. revert e. induction els as [|el els IH]; intros e H; simpl; [eauto|].
  apply Forall_cons in H as [[H1 H2] H].
  destruct (read_element_got buf (el_pos el) (el_size el)
    (ext_of_code (GetCodecForType extMap (el_id el))) e H1 H2) as [e' ->]. by apply IH.
Qed.

Lemma mid_loop_elements id fuel data pos length :
  0 <= pos → pos + length <= Zlen data → 0 <= length <= Z.of_nat fuel →
  mid_loop fuel id data pos length
  = match find (λ el, el_id el =? id) (elements fuel data pos length) with
    | Some el => Got (ztake (el_size el) (zdrop (el_pos el) data))
    | None => Refuse
    end.
Proof.
  revert pos length. induction fuel as [|fuel IH]; intros pos length Hp Hb Hl; simpl;
    (destruct (Z.eqb_spec length 0) as [|Hne]; [done|]); [lia|].
  rewrite rd1_in by lia. simpl. pose proof (element_size (zget pos data)).
  destruct (zget pos data =? 0); [apply IH; lia|].
  destruct (Z.ltb_spec (length - 1) (Z.land (zget pos data) 15 + 1)); [done|]. simpl.
  destruct (Z.shiftr (zget pos data) 4 =? id); [by rewrite rd_copy_in by lia|]. apply IH; lia.
Qed.
End Extensions.

(** ** The MID extension, read twice *)

(** The elements of the extension block of a received packet, if it has one. *)
Definition packet_elements (data : bytes) : list Element :=
  if hdr_x data && (ntohs_at data (csrc_end data) =? 0xBEDE) then
    let length := ntohs_at data (csrc_end data + 2) * 4 in
    elements (Z.to_nat length) data (csrc_end data + 4) length
  else [].

Definition with_id (id : Z) (els : list Element) : list Element := List.filter (λ el, el_id el =? id) els.

Lemma find_with_id id els : find (λ el, el_id el =? id) els = head (with_id id els).
Proof. induction els as [|el els IH]; simpl; [done|]. by destruct (el_id el =? id). Qed.

Section Mid.
Context {W : WireOps} {V : MoreWireOps}.
(** [get2] reads in network order, as [ntohs] does. *)
Context (get2_network : ∀ b i, get2 b i = ntohs_at b i).

Lemma block_inside data :
  bytes_ok data → acceptable data = true → hdr_x data = true →
  let length := ntohs_at data (csrc_end data + 2) * 4 in
  0 <= length ∧ csrc_end data + 4 + length <= Zlen data.
Proof.
  intros Hb Ha Hx. destruct (acceptable_spec data Hb Ha) as (_ & H2 & H3 & _).
  unfold announced in H3. rewrite Hx in H3. cbv zeta.
  pose proof (be_get_range 2 data (csrc_end data + 2) Hb). unfold ntohs_at in *. lia.
Qed.

Lemma ReadMid_elements data id :
  bytes_ok data → acceptable data = true → hdr_version data = 2 →
  ReadMid data id = match head (with_id id (packet_elements data)) with
                    | Some el => Got (ztake (el_size el) (zdrop (el_pos el) data))
                    | None => Refuse
                    end.
Proof.
  intros Hb Ha Hv. destruct (acceptable_spec data Hb Ha) as (_ & _ & _ & _ & H5 & Hx & _).
  unfold ReadMid, packet_elements, IsRTP, refuse_if, rtp_hdr_size. rewrite Hv.
  rewrite (proj2 (Z.leb_le 12 (Zlen data)) H5). cbn [andb negb Z.eqb].
  pose proof (csrc_end_range data).
  destruct (hdr_x data) eqn:Ex; [|done]. cbn [negb andb]. specialize (Hx eq_refl).
  rewrite (proj2 (Z.ltb_ge (Zlen data) (csrc_end data + 4))) by lia.
  rewrite !rd_with_in by lia. simpl. rewrite !get2_network.
  destruct (ntohs_at data (csrc_end data) =? 0xBEDE); simpl; [|done].
  destruct (block_inside data Hb Ha Ex) as [Hl Hin].
  rewrite (proj2 (Z.ltb_ge (Zlen data) _)) by lia.
  rewrite mid_loop_elements by lia. by rewrite find_with_id.
Qed.

Lemma ProcessExtensions_elements extMap data p :
  buffer_ok p → bytes_ok data → acceptable data = true →
  let p' := (SetData data p).2 in
  ∀ c, ProcessExtensions extMap (SetCodec c p')
  = let? e := read_elements extMap (rp_buffer p') (packet_elements data) (rp_extension p') in
    Got (if hdr_x data && (ntohs_at data (csrc_end data) =? 0xBEDE)
         then set_extension e (SetCodec c p') else SetCodec c p').
Proof.
  intros Hp Hb Ha. cbv zeta. intros c. destruct (SetData_result data p Hp) as (_ & Hv & Hl & Hr & _ & He).
  destruct (Hr Ha) as [Hbuf _]. destruct (acceptable_spec data Hb Ha) as (_ & _ & _ & _ & H5 & Hx & _).
  unfold ProcessExtensions, GetExtensionType, GetExtensionLength, GetX, rtp_hdr_ext_size. simpl. rewrite Hv, Ha.
  simpl. rewrite Hbuf, csrc_end_app, hdr_x_app by lia. pose proof (csrc_end_range data).
  unfold packet_elements. destruct (hdr_x data) eqn:Ex; [|done]. specialize (Hx eq_refl). simpl.
  unfold ntohs_at. rewrite !be_get_app by (simpl; lia).
  destruct (be_get 2 data (csrc_end data) =? 0xBEDE) eqn:Et; [|done].
  destruct (block_inside data Hb Ha Ex) as [Hlen Hin]. unfold ntohs_at in Hlen, Hin.
  unfold buffer_ok in Hl. rewrite Hbuf in Hl.
  rewrite extensions_loop_elements by (rewrite ?Zlen_app in *; pose proof (Zlen_nonneg (zdrop (Zlen data) (rp_buffer p))); lia).
  rewrite (elements_agree _ _ data) by (try lia; intros k Hk; apply zget_app_l; lia). done.
Qed.

(** Exactly the identifier [id] is mapped to the MID extension. *)
Definition only_mid (extMap : RTPMap) (id : Z) : Prop :=
  ∀ i, ext_of_code (GetCodecForType extMap i) = Some MID ↔ i = id.

Lemma read_element_other buf pos n t e e' :
  read_element buf pos n t e = Got e' → t ≠ Some MID →
  he_hasMid e' = he_hasMid e ∧ he_mid e' = he_mid e.
Proof.
  intros Hr Hn. destruct t as [[]|]; try done; simpl in Hr; unfold rd1, rd_with in Hr;
    try (destruct (within _ _ _); simpl in Hr); by simplify_eq.
Qed.

Lemma read_elements_mid extMap id buf els e e' :
  only_mid extMap id → read_elements extMap buf els e = Got e' →
  Forall (λ el, 0 <= el_pos el ∧ el_pos el + Z.max (el_size el) 3 <= Zlen buf) els →
  match last (with_id id els) with
  | None => he_hasMid e' = he_hasMid e ∧ he_mid e' = he_mid e
  | Some el => he_hasMid e' = true
      ∧ ztake (el_size el) (he_mid e') = ztake (el_size el) (zdrop (el_pos el) buf)
  end.
Proof.
  intros Ho. unfold read_elements. revert e'. induction els as [|el els IH] using rev_ind; intros e' Hr Hin.
  { simpl in Hr. by simplify_eq. }
  apply Forall_app in Hin as [Hin Hel]. apply Forall_singleton in Hel as [Hp Hb].
  rewrite foldl_app in Hr. simpl in Hr.
  destruct (foldl _ _ els) as [| |e1] eqn:E1; [done|done|]. specialize (IH e1 eq_refl Hin). simpl in Hr.
  unfold with_id. rewrite List.filter_app. simpl. destruct (Z.eqb_spec (el_id el) id) as [Hid|Hid].
  - rewrite last_snoc. rewrite (proj2 (Ho (el_id el)) Hid) in Hr. simpl in Hr.
    rewrite rd_copy_in in Hr by lia. simpl in Hr. simplify_eq. simpl. split; [done|]. rewrite write_at_0, <- !app_assoc.
    destruct (decide (0 <= el_size el)) as [Hs|Hs].
    + apply ztake_app. rewrite Zlen_ztake; [done|]. rewrite Zlen_zdrop; lia.
    + unfold ztake. by rewrite (Z2Nat.nonpos (el_size el)) by lia.
  - rewrite app_nil_r. apply read_element_other in Hr as [H1 H2]; [|by intros ?%Ho].
    unfold with_id in IH. destruct (last _); [|by rewrite H1, H2]. by rewrite H1, H2.
Qed.
End Mid.

(** ** Redundant blocks *)

(** The blocks follow each other from [s] to [t]. *)
Fixpoint chained (s : Z) (hs : list RedHeader) (t : Z) : Prop :=
  match hs with
  | [] => s = t
  | h :: hs => red_ini h = s ∧ 0 <= red_size h < 2 ^ 10 ∧ chained (s + red_size h) hs t
  end.

Lemma chained_app s hs hs' t u : chained s hs t → chained t hs' u → chained s (hs ++ hs') u.
Proof.
  revert s. induction hs as [|h hs IH]; intros s; simpl; [by intros ->|].
  intros (H1 & H2 & H3) Hc. eauto.
Qed.

Lemma chained_le s hs t : chained s hs t → s <= t.
Proof. revert s. induction hs as [|h hs IH]; intros s; simpl; [lia|]. intros (_ & Hs & H%IH). lia. Qed.

Lemma red_size_range o2 o3 :
  is_byte o3 → 0 <= to_word (Z.lor (Z.shiftl (Z.land o2 3) 8) o3) < 2 ^ 10.
Proof.
  intros H3. pose proof (land_range o2 2 ltac:(lia)) as Hl. change (Z.ones 2) with 3 in Hl.
  unfold is_byte in H3. rewrite lor_shiftl by lia. unfold to_word. rewrite Z.mod_small; lia.
Qed.

Lemma red_headers_spec payload fuel i skip hs :
  bytes_ok payload → 0 <= i < Zlen payload → Zlen payload <= i + 4 * Z.of_nat fuel →
  ∃ c i' skip' new, red_headers fuel payload i skip hs = Got (c, i', skip', hs ++ new)
    ∧ i <= i' < Zlen payload ∧ chained skip new skip'.
Proof.
  intros Hb. revert i skip hs. induction fuel as [|fuel IH]; intros i skip hs Hi Hf; [lia|].
  simpl. rewrite rd1_in by lia. simpl. destruct (zget i payload <? 128).
  { exists true, i, skip, []. by rewrite app_nil_r; split_and!; try lia. }
  destruct (Z.ltb_spec (Zlen payload) (i + 4 + 1)).
  { exists false, i, skip, []. by rewrite app_nil_r; split_and!; try lia. }
  rewrite !rd1_in by lia. simpl. set (h := mkRed _ _ _ _ _).
  destruct (IH (i + 4) (skip + red_size h) (hs ++ [h])) as (c & i' & skip' & new & Hr & Hi' & Hc); [lia..|].
  exists c, i', skip', (h :: new). unfold h in *. simpl in *. rewrite Hr, <- app_assoc. split_and!; try done; try lia;
    apply red_size_range; by apply bytes_ok_zget.
Qed.

(** The octets of a block behind the headers, which end at [ini]. *)
Definition block_octets (payload : bytes) (ini : Z) (h : RedHeader) : bytes :=
  ztake (red_size h) (zdrop (ini + red_ini h) payload).

Lemma chained_blocks payload ini s hs t :
  0 <= ini → 0 <= s → chained s hs t → ini + t <= Zlen payload →
  concat (block_octets payload ini <$> hs) = ztake (t - s) (zdrop (ini + s) payload).
Proof.
  intros Hi. revert s. induction hs as [|h hs IH]; intros s Hs; cbn [chained].
  { intros -> _. by rewrite Z.sub_diag. }
  rewrite fmap_cons, concat_cons.
  intros (Hini & Hsz & Hc) Hl. pose proof (chained_le _ _ _ Hc). rewrite (IH (s + red_size h)) by (done || lia).
  unfold block_octets. rewrite Hini. replace (ini + (s + red_size h)) with (ini + s + red_size h) by lia.
  rewrite <- (zdrop_zdrop (red_size h) (ini + s)) by lia. generalize (zdrop (ini + s) payload) as l. intros l.
  unfold ztake, zdrop. replace (Z.to_nat (t - s)) with (Z.to_nat (red_size h) + Z.to_nat (t - (s + red_size h)))%nat by lia.
  by rewrite take_take_drop.
Qed.

Lemma chained_bounds s hs t h : chained s hs t → h ∈ hs → s <= red_ini h ∧ 0 <= red_size h ∧ red_ini h + red_size h <= t.
Proof.
  revert s. induction hs as [|g hs IH]; intros s; simpl; [by intros _ ?%elem_of_nil|].
  intros (Hini & Hsz & Hc) [->|Hh]%elem_of_cons.
  - pose proof (chained_le _ _ _ Hc). lia.
  - specialize (IH _ Hc Hh). lia.
Qed.

(** ** Packets built by the server

    Their header has twelve octets: no CSRC, no extension. *)

Definition plain (p : RTPPacket) : Prop :=
  hdr_cc (rp_buffer p) = 0 ∧ hdr_x (rp_buffer p) = false ∧ Zlen (rp_buffer p) = RTP_SIZE.

Lemma plain_header p : plain p → GetRTPHeaderLen p = 12.
Proof. intros (Hc & Hx & _). unfold GetRTPHeaderLen, GetExtensionSize, GetX, csrc_end. by rewrite Hc, Hx. Qed.

(** Writes to the header that leave it plain leave the media. *)
Lemma header_write f p :
  plain p → Zlen (f (rp_buffer p)) = Zlen (rp_buffer p) →
  hdr_cc (f (rp_buffer p)) = 0 → hdr_x (f (rp_buffer p)) = false →
  (∀ i, (12 <= i)%nat → f (rp_buffer p) !! i = rp_buffer p !! i) →
  plain (set_buffer f p) ∧ media_octets (set_buffer f p) = media_octets p.
Proof.
  intros Hp Hl Hc Hx Hf. assert (Hp' : plain (set_buffer f p)) by (split_and!; [done..|simpl; rewrite Hl; apply Hp]).
  split; [done|]. unfold media_octets. rewrite !plain_header by done. simpl. f_equal.
  apply list_eq. intros i. unfold zdrop. rewrite !lookup_drop. apply Hf. lia.
Qed.

Lemma header_write_rest f p :
  plain p → Zlen (f (rp_buffer p)) = Zlen (rp_buffer p) →
  (∀ i, i = 0%nat ∨ (12 <= i)%nat → f (rp_buffer p) !! i = rp_buffer p !! i) →
  plain (set_buffer f p) ∧ media_octets (set_buffer f p) = media_octets p.
Proof.
  intros Hp Hl Hf. assert (H0 : zget 0 (f (rp_buffer p)) = zget 0 (rp_buffer p)) by (unfold zget; by rewrite Hf by auto).
  apply header_write; [done|done| | |auto].
  - unfold hdr_cc. rewrite H0. apply Hp.
  - unfold hdr_x. rewrite H0. apply Hp.
Qed.

Lemma be_put_keeps n i v p :
  plain p → 1 <= i → i + Z.of_nat n <= 12 →
  plain (set_buffer (λ b, be_put n b i v) p)
  ∧ media_octets (set_buffer (λ b, be_put n b i v) p) = media_octets p.
Proof.
  intros Hp Hi Hn. apply header_write_rest; [done|apply be_put_length|]. intros k Hk.
  pose proof (be_put_other n (rp_buffer p) i v (Z.of_nat k)) as Ho. rewrite Nat2Z.id in Ho. apply Ho; lia.
Qed.

Lemma SetTimestamp_keeps ts p : plain p → plain (SetTimestamp ts p) ∧ media_octets (SetTimestamp ts p) = media_octets p.
Proof. intros Hp. apply (be_put_keeps 4 4 ts p Hp); lia. Qed.
Lemma SetSSRC_keeps ssrc p : plain p → plain (SetSSRC ssrc p) ∧ media_octets (SetSSRC ssrc p) = media_octets p.
Proof. intros Hp. apply (be_put_keeps 4 8 ssrc p Hp); lia. Qed.
Lemma SetSeqNum_keeps sn p : plain p → plain (SetSeqNum sn p) ∧ media_octets (SetSeqNum sn p) = media_octets p.
Proof. intros Hp. apply (be_put_keeps 2 2 sn p Hp); lia. Qed.

Lemma SetMark_keeps m p : plain p → plain (SetMark m p) ∧ media_octets (SetMark m p) = media_octets p.
Proof.
  intros Hp. apply header_write_rest; [done|apply Zlen_insert|]. intros i Hi. by rewrite list_lookup_insert_ne by lia.
Qed.

Lemma new_rtp_plain mem len0 media codec type : Zlen mem = RTP_SIZE → plain (new_rtp mem len0 media codec type).
Proof.
  intros Hm. unfold new_rtp. split_and!; simpl; rewrite ?write_at_0; [done|done|].
  change (Zlen (<[1%nat := bit_field 7 0 type (zget 1 (replicate 12 0 ++ zdrop 12 mem))]>
    (<[0%nat := bit_field 2 6 2 (zget 0 (replicate 12 0 ++ zdrop 12 mem))]> (replicate 12 0 ++ zdrop 12 mem))) = RTP_SIZE).
  rewrite !Zlen_insert, Zlen_app, Zlen_zdrop; rewrite Hm; [done|]. unfold RTP_SIZE. lia.
Qed.

Lemma SetPayload_plain data p :
  plain p → Zlen data <= 1688 →
  (SetPayload data p).1 = true ∧ plain (SetPayload data p).2 ∧ media_octets (SetPayload data p).2 = data.
Proof.
  intros Hp Hd. pose proof (Zlen_nonneg data). unfold SetPayload, GetMaxMediaLength. rewrite plain_header by done.
  destruct Hp as (Hc & Hx & Hl). unfold RTP_SIZE in *. destruct (Z.ltb_spec 12 1700); [|lia].
  destruct (Z.ltb_spec (1700 - 12) (Zlen data)); [lia|]. cbn [fst snd].
  assert (Hp' : plain (SetMediaLength (Zlen data) (set_buffer (write_at 12 data) p))).
  { split_and!; simpl; unfold hdr_cc, hdr_x; rewrite ?zget_write_at_before by lia; [apply Hc|apply Hx|].
    rewrite write_at_length by lia. done. }
  split; [done|]. split; [done|]. unfold media_octets. rewrite plain_header by done. simpl. apply write_at_read; lia.
Qed.

(** A packet received from the network is accepted exactly when its octets are [acceptable]; then
    it is made of a header of the length it announces, the media handed to the decoders, and the
    padding, whose last octet counts it.  A refused packet has no media and is not valid. *)
Theorem received_packet_is_inside data p ok p' :
  buffer_ok p → bytes_ok data → SetData data p = (ok, p') →
  ok = acceptable data ∧ rp_valid p' = ok ∧ buffer_ok p' ∧
  if ok then
    ∃ header padding, data = header ++ media_octets p' ++ padding
      ∧ Zlen header = GetRTPHeaderLen p' ∧ 12 <= Zlen header ∧ Zlen (media_octets p') = rp_len p'
      ∧ if GetP p' then last padding = Some (Zlen padding) else padding = []
  else rp_len p' = 0.
Proof.
  intros Hp Hb Hs. pose proof (SetData_result data p Hp) as H. pose proof (media_octets_received data p Hp Hb) as Hm.
  rewrite Hs in H, Hm. simpl in H, Hm. destruct H as (-> & Hv & Hbo & Hok & Hno & _). split_and!; [done..|].
  destruct (acceptable data) eqn:Ha; [|by apply Hno]. destruct (Hok eq_refl) as [Hbuf Hlen].
  destruct (acceptable_spec data Hb Ha) as (H1 & H2 & H3 & H4 & H5 & Hx & Hpad).
  rewrite (Hm eq_refl), GetRTPHeaderLen_announced, Hbuf, announced_app by (done || lia).
  unfold GetP. rewrite Hbuf, hdr_p_app by lia.
  exists (ztake (announced data) data), (zdrop (Zlen data - padding_of data) data).
  split_and!.
  - rewrite <- (ztake_zdrop (announced data) data) at 1. f_equal.
    rewrite <- (ztake_zdrop (Zlen data - announced data - padding_of data) (zdrop (announced data) data)) at 1.
    f_equal. rewrite zdrop_zdrop by lia. f_equal. lia.
  - rewrite Zlen_ztake; lia.
  - rewrite Zlen_ztake; lia.
  - rewrite Zlen_ztake; [lia|]. rewrite Zlen_zdrop; lia.
  - unfold padding_of in *. destruct (hdr_p data).
    + specialize (Hpad eq_refl). rewrite Zlen_zdrop by lia.
      assert (data !! Z.to_nat (Zlen data - 1) = Some (zget (Zlen data - 1) data)) as Hl.
      { unfold zget. destruct (data !! _) eqn:E; [done|]. apply lookup_ge_None in E. unfold Zlen in *. lia. }
      rewrite last_lookup. unfold zdrop. rewrite length_drop, lookup_drop.
      remember (zget (Zlen data - 1) data) as pad. transitivity (data !! Z.to_nat (Zlen data - 1)).
      * f_equal. unfold Zlen in *. lia.
      * rewrite Hl. f_equal. lia.
    + unfold zdrop. apply drop_ge. unfold Zlen. lia.
Qed.

(** The MID of a packet is read twice: by the carrier of a bundle from the octets received
    ([ReadMid]) and by the session that owns the packet ([ProcessExtensions]).  For an accepted
    packet of at most 1698 octets neither reads outside what was received, they agree on whether
    there is a MID, and on its value when the packet carries the element once. *)
Theorem read_mid_agrees (W : WireOps) (V : MoreWireOps) extMap id data p :
  (∀ b i, get2 b i = ntohs_at b i) → only_mid extMap id →
  buffer_ok p → rp_extension p = new_extension → bytes_ok data → Zlen data <= 1698 →
  acceptable data = true → hdr_version data = 2 →
  ∃ p', ProcessExtensions extMap (SetCodec (hdr_pt data) (SetData data p).2) = Got p' ∧
  match ReadMid data id with
  | Fault => False
  | Refuse => he_hasMid (rp_extension p') = false
  | Got m => he_hasMid (rp_extension p') = true
      ∧ (length (with_id id (packet_elements data)) = 1%nat → ztake (Zlen m) (he_mid (rp_extension p')) = m)
  end.
Proof.
  intros Hg Ho Hp He Hb Hs Ha Hv.
  destruct (SetData_result data p Hp) as (_ & _ & Hl & Hr & _ & He'). destruct (Hr Ha) as [Hbuf _].
  set (els := packet_elements data). set (buf := rp_buffer (SetData data p).2).
  assert (Forall (λ el, 0 <= el_pos el ∧ el_pos el + Z.max (el_size el) 3 <= Zlen buf
                         ∧ el_pos el + el_size el <= Zlen data ∧ 1 <= el_size el) els) as Hin.
  { apply Forall_forall. intros el Hel. unfold els, packet_elements in Hel.
    destruct (hdr_x data) eqn:Ex; [|by apply elem_of_nil in Hel]. simpl in Hel.
    destruct (ntohs_at data (csrc_end data) =? 0xBEDE); [|by apply elem_of_nil in Hel].
    destruct (block_inside data Hb Ha Ex) as [Hlen Hend]. pose proof (csrc_end_range data).
    apply elements_inside in Hel; [|done]. unfold buffer_ok, RTP_SIZE in Hl. fold buf in Hl. lia. }
  assert (Forall (λ el, 0 <= el_pos el ∧ el_pos el + Z.max (el_size el) 3 <= Zlen buf) els) as Hin'.
  { eapply Forall_impl; [exact Hin|]. simpl. tauto. }
  destruct (read_elements_got extMap buf els new_extension Hin') as [e' Hread].
  rewrite ProcessExtensions_elements by done. rewrite He', He. fold els buf. rewrite Hread. simpl.
  eexists. split; [reflexivity|]. rewrite (ReadMid_elements Hg) by done. fold els.
  pose proof (read_elements_mid extMap id buf els _ e' Ho Hread Hin') as Hmid.
  assert (Forall (λ el, el_pos el + el_size el <= Zlen data ∧ 0 <= el_pos el ∧ 1 <= el_size el) (with_id id els)) as Hw.
  { apply Forall_forall. intros el Hel. apply list_elem_of_In, filter_In in Hel as [Hel _].
    apply list_elem_of_In in Hel. rewrite Forall_forall in Hin. naive_solver. }
  assert (rp_extension (if hdr_x data && (ntohs_at data (csrc_end data) =? 48862)
    then set_extension e' (SetCodec (hdr_pt data) (SetData data p).2)
    else SetCodec (hdr_pt data) (SetData data p).2) = e') as ->.
  { unfold els, packet_elements in Hread. destruct (hdr_x data && _); [done|]. simpl. rewrite He', He.
    cbn in Hread. by simplify_eq. }
  destruct (with_id id els) as [|el rest] eqn:Ew; simpl in *; [apply Hmid|].
  destruct (last (el :: rest)) as [lst|] eqn:El; [|by apply last_None in El].
  apply Forall_cons in Hw as [Hel _]. destruct Hmid as [Hhas Hval]. split; [done|].
  intros Hone. destruct rest; [|done]. simpl in El. injection El as <-.
  rewrite Zlen_ztake by (rewrite Zlen_zdrop; lia). rewrite Hval. unfold buf. rewrite Hbuf.
  unfold ztake, zdrop. rewrite drop_app_le by (unfold Zlen in *; lia).
  rewrite take_app_le; [done|]. rewrite length_drop. unfold Zlen in *. lia.
Qed.

(** The payload of a redundant packet is read inside what was received, whatever it is.  When a
    primary block is exposed, the redundant blocks and the primary one are exactly the octets
    behind the headers, in order; when none is and the redundant data is, no block is exposed. *)
Theorem redundant_blocks_are_inside payload :
  bytes_ok payload →
  ∃ b, DecodeRedundantPayload no_blocks payload = Got b ∧
  match rb_redundantData b, rb_primaryData b with
  | Some ini, Some primary =>
      concat (block_octets payload ini <$> rb_headers b) ++ zdrop primary payload = zdrop ini payload
      ∧ rb_primarySize b = Zlen payload - primary ∧ 0 <= ini <= primary ∧ primary <= Zlen payload
      ∧ Forall (λ h, Zlen (block_octets payload ini h) = red_size h) (rb_headers b)
  | Some _, None => rb_headers b = []
  | None, primary => primary = None
  end.
Proof.
  intros Hb. unfold DecodeRedundantPayload, no_blocks; cbn [rb_headers rb_redundantData]. destruct (Z.eqb_spec (Zlen payload) 0) as [|Hne]; [by eexists; split; [reflexivity|]|].
  pose proof (Zlen_nonneg payload).
  destruct (red_headers_spec payload (length payload) 0 0 [] Hb) as (c & i & skip & hs & Hr & Hi & Hc);
    [lia|unfold Zlen; lia|].
  rewrite Hr. simpl. destruct c; simpl; [|by eexists; split; [reflexivity|]].
  rewrite (proj2 (Z.leb_gt (Zlen payload) i)) by lia. rewrite rd1_in by lia. simpl.
  destruct (Z.ltb_spec (Zlen payload - (i + 1)) skip); [by eexists; split; [reflexivity|]|].
  eexists. split; [reflexivity|]. simpl. pose proof (chained_le _ _ _ Hc).
  split_and!; [|lia..|].
  - rewrite (chained_blocks payload (i + 1) 0 hs skip) by (done || lia).
    rewrite Z.add_0_r, Z.sub_0_r. rewrite <- (zdrop_zdrop skip (i + 1)) by lia. apply ztake_zdrop.
  - apply Forall_forall. intros h Hh. destruct (chained_bounds _ _ _ h Hc Hh) as (Hi1 & Hi2 & Hi3).
    unfold block_octets. rewrite Zlen_ztake; [done|]. rewrite Zlen_zdrop; lia.
Qed.

(** ** Witnesses *)

(** An audio packet of type 96 with one CSRC, an extension block that carries a transport-wide
    number (id 3) and the MID [a1] (id 5), four octets of media and two of padding. *)
Definition sample_rtp : bytes :=
  [0xB1; 0xE0; 0x12; 0x34; 0; 0; 0; 100; 0; 0; 0; 7;  0; 0; 0; 9;
   0xBE; 0xDE; 0; 2;  0x31; 0x00; 0x2A;  0x51; 0x61; 0x31;  0; 0;
   1; 2; 3; 4;  0; 2].
Definition blank : RTPPacket := mkRtp Audio 0 8000 0 (replicate 1700 0) 0 new_extension false.
Definition sample_map : RTPMap := [(3, 4); (5, 5)].

Lemma received_packet_is_inside_witness :
  acceptable sample_rtp = true ∧ media_octets (SetData sample_rtp blank).2 = [1; 2; 3; 4]
  ∧ ∃ header padding, sample_rtp = header ++ [1; 2; 3; 4] ++ padding ∧ Zlen header = 28.
Proof.
  destruct (received_packet_is_inside sample_rtp blank true (SetData sample_rtp blank).2)
    as (Ha & _ & _ & header & padding & Hd & Hh & _).
  - vm_compute; reflexivity.
  - unfold bytes_ok. apply (bool_decide_unpack _). vm_compute; exact I.
  - vm_compute; reflexivity.
  - split; [symmetry; exact Ha|]. split; [vm_compute; reflexivity|].
    exists header, padding. split; [exact Hd|]. rewrite Hh. vm_compute; reflexivity.
Defined.

Lemma sample_map_mid : only_mid sample_map 5.
Proof.
  intros i. unfold GetCodecForType, sample_map, om_find.
  destruct (Z.eqb_spec 3 i) as [<-|Hi]; [split; intros [=]|].
  destruct (Z.eqb_spec 5 i) as [<-|Hj]; [split; intros _; reflexivity|].
  split; intros Hk; [discriminate Hk | congruence].
Qed.

Lemma read_mid_agrees_witness :
  @ReadMid network_order sample_rtp 5 = Got [0x61; 0x31]
  ∧ ∃ p', @ProcessExtensions network_order network_order_more sample_map
            (SetCodec (hdr_pt sample_rtp) (SetData sample_rtp blank).2) = Got p'
      ∧ ztake 2 (he_mid (rp_extension p')) = [0x61; 0x31].
Proof.
  assert (@ReadMid network_order sample_rtp 5 = Got [0x61; 0x31]) as Hm by (vm_compute; reflexivity).
  split; [exact Hm|].
  destruct (@read_mid_agrees network_order network_order_more sample_map 5 sample_rtp blank) as (p' & Hp & Hr).
  - intros b i. reflexivity.
  - exact sample_map_mid.
  - vm_compute; reflexivity.
  - reflexivity.
  - unfold bytes_ok. apply (bool_decide_unpack _). vm_compute; exact I.
  - vm_compute; intros H; discriminate H.
  - vm_compute; reflexivity.
  - vm_compute; reflexivity.
  - exists p'. split; [exact Hp|]. rewrite Hm in Hr. destruct Hr as [_ Hr]. apply Hr. vm_compute; reflexivity.
Defined.

(** Two generations of text and the current one. *)
Definition sample_red : bytes :=
  [0xE2; 0; 40; 1;  0xE2; 0; 20; 2;  0x62;  65;  66; 67;  68].

Lemma redundant_blocks_are_inside_witness :
  ∃ b, DecodeRedundantPayload no_blocks sample_red = Got b ∧ block_octets sample_red 9 <$> rb_headers b = [[65]; [66; 67]]
       ∧ zdrop 12 sample_red = [68].
Proof.
  destruct (redundant_blocks_are_inside sample_red) as (b & Hb & _).
  - unfold bytes_ok. apply (bool_decide_unpack _). vm_compute; exact I.
  - exists b. split; [exact Hb|]. vm_compute in Hb. injection Hb as <-. split; vm_compute; reflexivity.
Defined.

(** ** Two observations *)

(** A redundant packet whose second header is cut short exposes the first header although the
    redundant data was never located: its octets are read through a pointer nobody set. *)
Theorem truncated_red_exposes_a_block :
  ∃ b, DecodeRedundantPayload no_blocks [0xE2; 0; 0; 1; 0xE2; 0] = Got b
    ∧ length (rb_headers b) = 1%nat ∧ rb_redundantData b = None.
Proof. eexists. split; [vm_compute; reflexivity|]. split; reflexivity. Qed.

(** A packet that fills the buffer and ends with a transmission time offset announced on one octet:
    [get3] reads two octets past the buffer. *)
Definition long_rtp : bytes :=
  [0x90; 0x60; 0; 1; 0; 0; 0; 0; 0; 0; 0; 7; 0xBE; 0xDE; 0x01; 0xA5] ++ replicate 1682 0 ++ [0x20; 0].

Theorem extension_reads_past_the_buffer :
  acceptable long_rtp = true
  ∧ @ProcessExtensions network_order network_order_more [(2, 2)] (SetData long_rtp blank).2 = Fault.
Proof. split; vm_compute; reflexivity. Qed.
