(* ===== verification/TransportFeedback.v ===== *)
(** * Transport-wide feedback

    The RTCP report of arrival times (RTPFB, format 15), src/mcu/include/transportfeedback.h and
    src/mcu/src/transportfeedback.cpp: the field, its codec and the generator that collects the
    arrivals.  The history of the packets sent, which reads the reports of the peer, is
    src/mcu/src/sentpackethistory.cpp.  Times are microseconds; the model of a [QWORD] time does
    not wrap (2^64 us is 584,000 years), the 24-bit and 16-bit counters on the wire do. *)

From S2P Require Import Prelude OrderedMap Wire Octets.

(** ** The field *)

Record PacketStatus := mkStatus {
  ps_seq : Z;
  ps_received : bool;
  ps_deltaTicks : Z;
}.

#[global] Instance PacketStatus_eq_dec : EqDecision PacketStatus.
Proof. solve_decision. Defined.

Definition TickUs : Z := 250.
Definition BaseTickUs : Z := Z.shiftl TickUs 8.
Definition TimeWrapUs : Z := Z.shiftl BaseTickUs 24.

Record TransportWideFeedbackField := mkTwcc {
  tf_baseSeq : Z;
  tf_referenceTicks : Z;
  tf_fbSeq : Z;
  tf_hasTimestamps : bool;
  tf_packets : list PacketStatus;
  tf_lastArrivalTicks : Z;
}.

#[global] Instance TransportWideFeedbackField_eq_dec : EqDecision TransportWideFeedbackField.
Proof. solve_decision. Defined.

Definition new_twcc : TransportWideFeedbackField := mkTwcc 0 0 0 true [] 0.

Definition SymbolNotReceived : Z := 0.
Definition SymbolSmall : Z := 1.
Definition SymbolLarge : Z := 2.
Definition SymbolReserved : Z := 3.
Definition HeaderBytes : Z := 8.
Definition MaxRunLength : Z := 0x1FFF.

Definition SetBase (seq arrivalUs : Z) (f : TransportWideFeedbackField) : TransportWideFeedbackField :=
  let ticks := to_dword (arrivalUs mod TimeWrapUs / BaseTickUs) in
  mkTwcc seq ticks (tf_fbSeq f) (tf_hasTimestamps f) [] (Z.shiftl ticks 8).

(** The packets presumed lost, [gap] of them from [next]. *)
Definition lost_packets (next gap : Z) : list PacketStatus :=
  (λ i, mkStatus (to_word (next + Z.of_nat i)) false 0) <$> seq 0 (Z.to_nat gap).

Definition AddReceived (seq arrivalUs : Z) (f : TransportWideFeedbackField)
  : bool * TransportWideFeedbackField :=
  let next := match last (tf_packets f) with None => tf_baseSeq f | Some p => to_word (ps_seq p + 1) end in
  let gap := to_word (seq - next) in
  if 0x7FFF <? gap then (false, f)
  else
    let arrivalTicks := arrivalUs mod TimeWrapUs / TickUs in
    let delta := arrivalTicks - tf_lastArrivalTicks f in
    if (delta <? -32768) || (32767 <? delta) then (false, f)
    else
      (true, mkTwcc (tf_baseSeq f) (tf_referenceTicks f) (tf_fbSeq f) (tf_hasTimestamps f)
               (tf_packets f ++ lost_packets next gap ++ [mkStatus seq true delta]) arrivalTicks).

(** ** Encoding *)

(** The symbol of a packet; [None]: its delta does not fit. *)
Definition symbol_of (p : PacketStatus) : option Z :=
  if negb (ps_received p) then Some SymbolNotReceived
  else if (0 <=? ps_deltaTicks p) && (ps_deltaTicks p <=? 0xFF) then Some SymbolSmall
  else if (-32768 <=? ps_deltaTicks p) && (ps_deltaTicks p <=? 32767) then Some SymbolLarge
  else None.

(** The first loop: the symbols of all packets, unless one does not fit. *)
Fixpoint symbols_of (l : list PacketStatus) : option (list Z) :=
  match l with
  | [] => Some []
  | p :: l' => s ← symbol_of p; ss ← symbols_of l'; Some (s :: ss)
  end.

(** How many of the first [limit] elements are [s], up to the first that is not. *)
Fixpoint run_of (s : Z) (limit : nat) (l : list Z) : nat :=
  match limit, l with
  | S limit, x :: l => if x =? s then S (run_of s limit l) else O
  | _, _ => O
  end.

Definition nth_symbol (l : list Z) (i : nat) : Z := default SymbolNotReceived (l !! i).

Definition vector_chunk (l : list Z) : Z :=
  foldl (λ chunk i, Z.lor chunk (Z.shiftl (nth_symbol l i) (12 - 2 * Z.of_nat i))) 0xC000 (seq 0 7).

Fixpoint encode_chunks (fuel : nat) (l : list Z) : list Z :=
  match fuel, l with
  | S fuel, s :: l' =>
      let run := S (run_of s (Z.to_nat (MaxRunLength - 1)) l') in
      if (7 <? Z.of_nat run) || (Z.of_nat run =? Zlen l) then
        to_word (Z.lor (Z.shiftl s 13) (Z.of_nat run)) :: encode_chunks fuel (drop run l)
      else vector_chunk l :: encode_chunks fuel (drop 7 l)
  | _, _ => []
  end.

Definition delta_octets (p : PacketStatus) : bytes :=
  if negb (ps_received p) then []
  else if (0 <=? ps_deltaTicks p) && (ps_deltaTicks p <=? 0xFF) then [to_byte (ps_deltaTicks p)]
  else [to_byte (Z.shiftr (to_word (ps_deltaTicks p)) 8); Z.land (to_word (ps_deltaTicks p)) 0xFF].

Definition Encode (f : TransportWideFeedbackField) : option (list Z * bytes) :=
  symbols ← symbols_of (tf_packets f);
  Some (encode_chunks (length symbols) symbols, mjoin (delta_octets <$> tf_packets f)).

(** [(size + 3) & ~3] *)
Definition round4 (n : Z) : Z := Z.land (n + 3) (Z.lnot 3).

Definition twcc_GetSize (f : TransportWideFeedbackField) : Z :=
  match tf_packets f, Encode f with
  | _ :: _, Some (chunks, deltas) => round4 (HeaderBytes + 2 * Zlen chunks + Zlen deltas)
  | _, _ => 0
  end.

Section Codec.
Context {W : WireOps} {V : MoreWireOps}.

(** [Serialize(data, size)]: the octets written. *)
Definition twcc_Serialize (size : Z) (f : TransportWideFeedbackField) : bytes :=
  match tf_packets f, Encode f with
  | _ :: _, Some (chunks, deltas) =>
      let needed := HeaderBytes + 2 * Zlen chunks + Zlen deltas in
      let padded := round4 needed in
      if size <? padded then []
      else
        put2 (tf_baseSeq f) ++ put2 (to_word (Zlen (tf_packets f)))
        ++ put3 (Z.land (tf_referenceTicks f) 0x00FFFFFF) ++ [tf_fbSeq f]
        ++ mjoin (put2 <$> chunks) ++ deltas ++ replicate (Z.to_nat (padded - needed)) 0
  | _, _ => []
  end.

(** ** Decoding *)

(** The symbols of one chunk. *)
Definition chunk_symbols (remaining chunk : Z) : list Z :=
  if negb (Z.testbit chunk 15) then
    let run := Z.land chunk MaxRunLength in
    replicate (Z.to_nat (Z.min run remaining)) (Z.land (Z.shiftr chunk 13) 3)
  else if negb (Z.testbit chunk 14) then
    take (Z.to_nat remaining)
      ((λ i, if Z.testbit chunk (13 - Z.of_nat i) then SymbolSmall else SymbolNotReceived) <$> seq 0 14)
  else
    take (Z.to_nat remaining) ((λ i, Z.land (Z.shiftr chunk (12 - 2 * Z.of_nat i)) 3) <$> seq 0 7).

Fixpoint decode_chunks (fuel : nat) (statusCount : Z) (data : bytes) (len : Z) (symbols : list Z)
  : checked (list Z * Z) :=
  if statusCount <=? Zlen symbols then Got (symbols, len)
  else
    match fuel with
    | O => Fault
    | S fuel =>
        refuse_if (Zlen data <? len + 2) (
        let? chunk := rd_with 2 get2 data len in
        decode_chunks fuel statusCount data (len + 2)
          (symbols ++ chunk_symbols (statusCount - Zlen symbols) chunk))
    end.

Definition delta_size (s : Z) : Z :=
  if s =? SymbolSmall then 1 else if s =? SymbolLarge then 2 else if s =? SymbolReserved then 3 else 0.

Definition delta_bytes (symbols : list Z) : Z := foldr (λ s n, delta_size s + n) 0 symbols.

Fixpoint read_deltas (data : bytes) (len seq : Z) (symbols : list Z) : checked (list PacketStatus) :=
  match symbols with
  | [] => Got []
  | s :: symbols =>
      if s =? SymbolNotReceived then
        let? l := read_deltas data len (to_word (seq + 1)) symbols in
        Got (mkStatus seq false 0 :: l)
      else if s =? SymbolSmall then
        let? o := rd1 data len in
        let? l := read_deltas data (len + 1) (to_word (seq + 1)) symbols in
        Got (mkStatus seq true o :: l)
      else if s =? SymbolLarge then
        let? w := rd_with 2 get2 data len in
        let? l := read_deltas data (len + 2) (to_word (seq + 1)) symbols in
        Got (mkStatus seq true (to_int16 w) :: l)
      else Refuse
  end.

Fixpoint without_deltas (seq : Z) (symbols : list Z) : list PacketStatus :=
  match symbols with
  | [] => []
  | s :: symbols => mkStatus seq (negb (s =? SymbolNotReceived)) 0 :: without_deltas (to_word (seq + 1)) symbols
  end.

(** [Parse(data, size)] of a new field, with the octets consumed. *)
Definition twcc_Parse (data : bytes) : checked (TransportWideFeedbackField * Z) :=
  let size := Zlen data in
  refuse_if (size <? HeaderBytes + 2) (
  let? baseSeq := rd_with 2 get2 data 0 in
  let? statusCount := rd_with 2 get2 data 2 in
  let? referenceTicks := rd_with 3 get3 data 4 in
  let? fbSeq := rd1 data 7 in
  refuse_if (statusCount =? 0) (
  let? r := decode_chunks (length data) statusCount data HeaderBytes [] in
  let '(symbols, len) := r in
  if len + delta_bytes symbols <=? size then
    let? packets := read_deltas data len baseSeq symbols in
    Got (mkTwcc baseSeq referenceTicks fbSeq true packets 0, size)
  else
    Got (mkTwcc baseSeq referenceTicks fbSeq false (without_deltas baseSeq symbols) 0, size))).
End Codec.

(** ** Unwrapping a 16-bit counter *)

Definition UnwrapSeq16 (seq lastSeq : Z) (hasLastSeq : bool) : Z :=
  if negb hasLastSeq then seq
  else
    let cycles := Z.land lastSeq (Z.lnot 0xFFFF) in
    let candidate := Z.lor cycles seq in
    let forward := to_word (seq - Z.land lastSeq 0xFFFF) in
    if forward <? 0x8000 then
      if candidate <? lastSeq then candidate + 0x10000 else candidate
    else
      if (lastSeq <=? candidate) && (0x10000 <=? candidate) then candidate - 0x10000 else candidate.

(** ** The generator *)

Definition MinIntervalUs : Z := 50000.
Definition MaxIntervalUs : Z := 250000.
Definition DefaultIntervalUs : Z := 100000.
Definition BackWindowUs : Z := 500000.
Definition ReportBytes : Z := 20 + 8 + 10 + 30.
Definition MaxStatusPerReport : Z := 400.

Record TransportWideFeedbackGenerator := mkGen {
  g_arrivals : list (Z * Z);
  g_lastSeq : Z;
  g_hasLastSeq : bool;
  g_windowStart : Z;
  g_hasWindowStart : bool;
  g_lastSendUs : Z;
  g_intervalUs : Z;
  g_mediaSSRC : Z;
  g_fbSeq : Z;
}.

Definition new_generator : TransportWideFeedbackGenerator := mkGen [] 0 false 0 false 0 DefaultIntervalUs 0 0.

(** The last loop of [OnPacketReceived]. *)
Fixpoint purge_arrivals (nowUs : Z) (arrivals : list (Z * Z)) (hasWindowStart : bool) (windowStart : Z)
  : list (Z * Z) * Z :=
  match arrivals with
  | (old, t) :: rest =>
      if t + BackWindowUs <? nowUs then
        purge_arrivals nowUs rest hasWindowStart
          (if hasWindowStart && (windowStart <=? old) then old + 1 else windowStart)
      else (arrivals, windowStart)
  | [] => ([], windowStart)
  end.

Definition OnPacketReceived (ssrc seq nowUs : Z) (g : TransportWideFeedbackGenerator)
  : TransportWideFeedbackGenerator :=
  let unwrapped := UnwrapSeq16 seq (g_lastSeq g) (g_hasLastSeq g) in
  let newer := negb (g_hasLastSeq g) || (g_lastSeq g <? unwrapped) in
  let lastSeq := if newer then unwrapped else g_lastSeq g in
  let hasLastSeq := if newer then true else g_hasLastSeq g in
  let arrivals :=
    match om_find unwrapped (g_arrivals g) with
    | None => om_set unwrapped nowUs (g_arrivals g)
    | Some _ => g_arrivals g
    end in
  let reopen := negb (g_hasWindowStart g) || (unwrapped <? g_windowStart g) in
  let windowStart := if reopen then unwrapped else g_windowStart g in
  let hasWindowStart := if reopen then true else g_hasWindowStart g in
  let '(arrivals, windowStart) := purge_arrivals nowUs arrivals hasWindowStart windowStart in
  mkGen arrivals lastSeq hasLastSeq windowStart hasWindowStart (g_lastSendUs g) (g_intervalUs g)
    ssrc (g_fbSeq g).

(** [arrivals.lower_bound(k)] up to the end *)
Fixpoint lower_bound {A} (k : Z) (m : list (Z * A)) : list (Z * A) :=
  match m with
  | (j, v) :: m' => if j <? k then lower_bound k m' else m
  | [] => []
  end.

Definition GetPendingCount (g : TransportWideFeedbackGenerator) : Z :=
  if g_hasWindowStart g then Zlen (lower_bound (g_windowStart g) (g_arrivals g)) else 0.

Definition HasPending (g : TransportWideFeedbackGenerator) : bool :=
  g_hasWindowStart g && match lower_bound (g_windowStart g) (g_arrivals g) with [] => false | _ => true end.

Definition ShouldSend (nowUs : Z) (g : TransportWideFeedbackGenerator) : bool :=
  HasPending g && (g_lastSendUs g + g_intervalUs g <=? nowUs).

(** The loop of [BuildFeedback]. *)
Fixpoint build_loop (base : Z) (arrivals : list (Z * Z)) (covered : Z) (any : bool)
    (f : TransportWideFeedbackField) : Z * bool * TransportWideFeedbackField :=
  match arrivals with
  | [] => (covered, any, f)
  | (seq, t) :: rest =>
      if MaxStatusPerReport <? seq - base + 1 then (covered, any, f)
      else
        let '(ok, f') := AddReceived (to_word seq) t f in
        if ok then build_loop base rest seq true f' else (covered, any, f')
  end.

Definition set_window (windowStart lastSendUs fbSeq : Z) (g : TransportWideFeedbackGenerator)
  : TransportWideFeedbackGenerator :=
  mkGen (g_arrivals g) (g_lastSeq g) (g_hasLastSeq g) windowStart (g_hasWindowStart g) lastSendUs
    (g_intervalUs g) (g_mediaSSRC g) fbSeq.

Definition set_fbSeq (fbSeq : Z) (f : TransportWideFeedbackField) : TransportWideFeedbackField :=
  mkTwcc (tf_baseSeq f) (tf_referenceTicks f) fbSeq (tf_hasTimestamps f) (tf_packets f) (tf_lastArrivalTicks f).

Definition BuildFeedback (nowUs : Z) (field : TransportWideFeedbackField) (g : TransportWideFeedbackGenerator)
  : bool * TransportWideFeedbackField * TransportWideFeedbackGenerator :=
  if negb (g_hasWindowStart g) then (false, field, g)
  else
    match lower_bound (g_windowStart g) (g_arrivals g) with
    | [] => (false, field, g)
    | ((base, t) :: _) as pending =>
        let field := set_fbSeq (g_fbSeq g) (SetBase (to_word base) t field) in
        let fbSeq := to_byte (g_fbSeq g + 1) in
        let '(covered, any, field) := build_loop base pending base false field in
        if any then (true, field, set_window (covered + 1) nowUs fbSeq g)
        else (false, field, set_window (base + 1) (g_lastSendUs g) fbSeq g)
    end.

Definition SetSendBitrate (bitrate : Z) (g : TransportWideFeedbackGenerator) : TransportWideFeedbackGenerator :=
  let twccBps := bitrate / 20 in
  let intervalUs :=
    if twccBps =? 0 then MaxIntervalUs
    else
      let interval := ReportBytes * 8 * 1000000 / twccBps in
      let interval := if interval <? MinIntervalUs then MinIntervalUs else interval in
      if MaxIntervalUs <? interval then MaxIntervalUs else interval in
  mkGen (g_arrivals g) (g_lastSeq g) (g_hasLastSeq g) (g_windowStart g) (g_hasWindowStart g)
    (g_lastSendUs g) intervalUs (g_mediaSSRC g) (g_fbSeq g).

(** ** The history of the packets sent *)

Record SentPacket := mkSent { sp_sentTimeUs : Z; sp_size : Z; sp_acked : bool }.

Record SentPacketHistory := mkHistory {
  h_history : list (Z * SentPacket);
  h_lastSeq : Z;
  h_hasLastSeq : bool;
  h_lastRecvTicks : Z;
  h_hasLastRecvTicks : bool;
}.

Record SentResult := mkResult { sr_sentTimeUs : Z; sr_recvTimeUs : Z; sr_size : Z }.

Definition new_history : SentPacketHistory := mkHistory [] 0 false 0 false.
Definition WindowUs : Z := 60 * 1000000.

Definition Unwrap (seq : Z) (h : SentPacketHistory) : Z := UnwrapSeq16 seq (h_lastSeq h) (h_hasLastSeq h).

Fixpoint purge_history (nowUs : Z) (m : list (Z * SentPacket)) : list (Z * SentPacket) :=
  match m with
  | (_, s) :: rest => if sp_sentTimeUs s + WindowUs <? nowUs then purge_history nowUs rest else m
  | [] => []
  end.

Definition OnPacketSent (seq nowUs size : Z) (h : SentPacketHistory) : SentPacketHistory :=
  let unwrapped := Unwrap seq h in
  let newer := negb (h_hasLastSeq h) || (h_lastSeq h <? unwrapped) in
  mkHistory (purge_history nowUs (om_set unwrapped (mkSent nowUs size false) (h_history h)))
    (if newer then unwrapped else h_lastSeq h) (if newer then true else h_hasLastSeq h)
    (h_lastRecvTicks h) (h_hasLastRecvTicks h).

Definition WrapTicks : Z := Z.shiftl 1 32.

(** The reference time of a report, closest to the last arrival seen. *)
Definition unwrap_reference (referenceTicks : Z) (h : SentPacketHistory) : Z :=
  let baseTicks := Z.shiftl referenceTicks 8 in
  if h_hasLastRecvTicks h then
    let lastRecvTicks := h_lastRecvTicks h in
    let cycles := lastRecvTicks / WrapTicks in
    let candidate := cycles * WrapTicks + baseTicks in
    let up := candidate + WrapTicks in
    let down := if WrapTicks <=? candidate then candidate - WrapTicks else candidate in
    let dist v := if lastRecvTicks <? v then v - lastRecvTicks else lastRecvTicks - v in
    let best := if dist up <? dist candidate then up else candidate in
    if dist down <? dist best then down else best
  else baseTicks.

(** One status of a report; the results come in the order of the report. *)
Definition feedback_step (hasTimestamps : bool) (h : SentPacketHistory) (p : PacketStatus)
    (s : list (Z * SentPacket) * Z * list SentResult * Z * Z * bool)
  : list (Z * SentPacket) * Z * list SentResult * Z * Z * bool :=
  let '(m, arrivalTicks, results, lost, unknown, saw) := s in
  if negb (ps_received p) then (m, arrivalTicks, results, lost + 1, unknown, saw)
  else
    let arrivalTicks := if hasTimestamps then to_qword (arrivalTicks + ps_deltaTicks p) else arrivalTicks in
    let unwrapped := Unwrap (ps_seq p) h in
    match om_find unwrapped m with
    | None => (m, arrivalTicks, results, lost, unknown + 1, true)
    | Some sent =>
        if sp_acked sent then (m, arrivalTicks, results, lost, unknown, true)
        else
          (om_alter (λ s, mkSent (sp_sentTimeUs s) (sp_size s) true) unwrapped m, arrivalTicks,
           results ++ [mkResult (sp_sentTimeUs sent) (to_qword (arrivalTicks * TickUs)) (sp_size sent)],
           lost, unknown, true)
    end.

(** [ProcessFeedback]: the results, the packets lost, those unknown. *)
Definition ProcessFeedback (feedback : TransportWideFeedbackField) (h : SentPacketHistory)
  : list SentResult * Z * Z * SentPacketHistory :=
  let '(m, arrivalTicks, results, lost, unknown, saw) :=
    foldl (λ s p, feedback_step (tf_hasTimestamps feedback) h p s)
      (h_history h, unwrap_reference (tf_referenceTicks feedback) h, [], 0, 0, false) (tf_packets feedback) in
  let known := tf_hasTimestamps feedback && saw in
  (results, lost, unknown,
   mkHistory m (h_lastSeq h) (h_hasLastSeq h)
     (if known then arrivalTicks else h_lastRecvTicks h) (if known then true else h_hasLastRecvTicks h)).
