(* ===== verification/TransportFeedbackClaims.v ===== *)
(** * Transport-wide feedback: what it guarantees

    The codec of the report: every chunk is decoded to the symbols it was made of, every delta is
    read back.  The generator: what a report says of the arrivals.

    From the arrivals at the receiver to the results handed to the sender's estimator. *)

From S2P Require Import Prelude OrderedMap Wire Octets TransportFeedback.

(** ** Well-formed reports *)

Definition status_ok (p : PacketStatus) : Prop :=
  if ps_received p then -32768 <= ps_deltaTicks p <= 32767 else ps_deltaTicks p = 0.

(** The numbers are consecutive from [seq] on. *)
Fixpoint numbered (seq : Z) (l : list PacketStatus) : Prop :=
  match l with
  | [] => True
  | p :: l => ps_seq p = seq ∧ numbered (to_word (seq + 1)) l
  end.

Record twcc_ok (f : TransportWideFeedbackField) : Prop := {
  tok_base : is_word (tf_baseSeq f);
  tok_reference : 0 <= tf_referenceTicks f < 2 ^ 24;
  tok_fbSeq : is_byte (tf_fbSeq f);
  tok_numbered : numbered (tf_baseSeq f) (tf_packets f);
  tok_status : Forall status_ok (tf_packets f);
}.

Definition is_symbol (s : Z) : Prop := 0 <= s < 3.

Lemma symbol_of_ok p : status_ok p → ∃ s, symbol_of p = Some s ∧ is_symbol s.
Proof.
  unfold status_ok, symbol_of, is_symbol. destruct (ps_received p); intros Hp; simpl; [|by eexists].
  destruct (_ && _) eqn:H1; [by eexists|].
  rewrite (proj2 (Z.leb_le _ _)), (proj2 (Z.leb_le _ _)) by lia. by eexists.
Qed.

Lemma symbols_of_ok l :
  Forall status_ok l → ∃ ss, symbols_of l = Some ss ∧ Forall is_symbol ss ∧ length ss = length l.
Proof.
  induction 1 as [|p l Hp _ (ss & Hss & Hf & Hl)]; [by exists []|].
  destruct (symbol_of_ok p Hp) as (s & Hs & Hr). exists (s :: ss). simpl. rewrite Hs; simpl. rewrite Hss; simpl.
  split; [done|]. split; [by constructor | by f_equal].
Qed.

(** ** Chunks *)

Lemma run_of_le s limit l : (run_of s limit l <= limit)%nat ∧ (run_of s limit l <= length l)%nat.
Proof.
  revert l. induction limit as [|n IH]; intros [|x l]; simpl; [lia..|].
  destruct (x =? s); [|lia]. specialize (IH l). lia.
Qed.

Lemma run_of_replicate s limit l : take (run_of s limit l) l = replicate (run_of s limit l) s.
Proof.
  revert l. induction limit as [|n IH]; intros [|x l]; simpl; try done.
  destruct (Z.eqb_spec x s) as [->|]; simpl; [by rewrite IH|done].
Qed.

Lemma run_chunk_symbols s run remaining :
  0 <= s < 4 → 0 <= run <= MaxRunLength → run <= remaining →
  chunk_symbols remaining (to_word (Z.lor (Z.shiftl s 13) run)) = replicate (Z.to_nat run) s.
Proof.
  unfold MaxRunLength. intros Hs Hrun Hr. rewrite lor_shiftl by lia.
  rewrite to_word_id by (unfold is_word; lia). unfold chunk_symbols.
  assert (Z.testbit (s * 2 ^ 13 + run) 15 = false) as ->.
  { apply Z.testbit_false; [lia|]. by rewrite Z.div_small by lia. }
  simpl negb. cbv iota.
  assert (Z.land (s * 2 ^ 13 + run) MaxRunLength = run) as ->.
  { change MaxRunLength with (Z.ones 13). rewrite Z.land_ones by lia. Z.div_mod_to_equations. lia. }
  assert (Z.land (Z.shiftr (s * 2 ^ 13 + run) 13) 3 = s) as ->.
  { change 3 with (Z.ones 2). rewrite Z.land_ones, Z.shiftr_div_pow2 by lia. Z.div_mod_to_equations. lia. }
  by rewrite Z.min_l by lia.
Qed.

Definition four : list Z := [0; 1; 2; 3].

(** A vector chunk holds its seven symbols: all 4^7 of them. *)
Definition vector_decodes (l : list Z) : bool :=
  let c := vector_chunk l in
  Z.testbit c 15 && Z.testbit c 14 && (0 <=? c) && (c <? 2 ^ 16)
  && bool_decide (((λ i, Z.land (Z.shiftr c (12 - 2 * Z.of_nat i)) 3) <$> seq 0 7) = l).

Lemma vector_decodes_all :
  forallb (λ a, forallb (λ b, forallb (λ c, forallb (λ d, forallb (λ e, forallb (λ f, forallb (λ g,
    vector_decodes [a; b; c; d; e; f; g]) four) four) four) four) four) four) four = true.
Proof. vm_compute. reflexivity. Qed.

Lemma four_elem s : 0 <= s < 4 → In s four.
Proof. unfold four. intros. assert (s = 0 ∨ s = 1 ∨ s = 2 ∨ s = 3) as Hs by lia. simpl. naive_solver. Qed.

Lemma vector_decodes_seven l : length l = 7%nat → Forall (λ s, 0 <= s < 4) l → vector_decodes l = true.
Proof.
  intros Hl Hf. destruct l as [|a [|b [|c [|d [|e [|f [|g [|]]]]]]]]; try discriminate Hl.
  rewrite !Forall_cons in Hf. destruct Hf as (Ha & Hb & Hc & Hd & He & Hf & Hg & _).
  pose proof vector_decodes_all as Hall.
  rewrite forallb_forall in Hall. specialize (Hall a (four_elem a Ha)).
  rewrite forallb_forall in Hall. specialize (Hall b (four_elem b Hb)).
  rewrite forallb_forall in Hall. specialize (Hall c (four_elem c Hc)).
  rewrite forallb_forall in Hall. specialize (Hall d (four_elem d Hd)).
  rewrite forallb_forall in Hall. specialize (Hall e (four_elem e He)).
  rewrite forallb_forall in Hall. specialize (Hall f (four_elem f Hf)).
  rewrite forallb_forall in Hall. exact (Hall g (four_elem g Hg)).
Qed.

(** The seven symbols of the vector, filled with zeros past the end of the list. *)
Definition seven (l : list Z) : list Z := nth_symbol l <$> seq 0 7.

Lemma seven_take l : take (length l) (seven l) = take 7 l.
Proof.
  destruct l as [|? [|? [|? [|? [|? [|? [|? l]]]]]]]; try reflexivity.
  simpl. by rewrite take_nil, take_0.
Qed.

Lemma vector_chunk_symbols l :
  Forall (λ s, 0 <= s < 4) l →
  is_word (vector_chunk l) ∧ chunk_symbols (Zlen l) (vector_chunk l) = take 7 l.
Proof.
  intros Hf. assert (vector_chunk l = vector_chunk (seven l)) as -> by done.
  assert (vector_decodes (seven l) = true) as Hv.
  { apply vector_decodes_seven; [done|]. unfold seven. rewrite Forall_fmap, Forall_forall. intros i _. simpl.
    unfold nth_symbol. destruct (l !! i) as [s|] eqn:Hi; simpl; [|unfold SymbolNotReceived; lia].
    by apply (Forall_lookup_1 _ _ _ _ Hf Hi). }
  unfold vector_decodes in Hv. rewrite !andb_true_iff, Z.leb_le, Z.ltb_lt, bool_decide_eq_true in Hv.
  destruct Hv as ((((H15 & H14) & Hl) & Hh) & Hd). split; [done|].
  unfold chunk_symbols. rewrite H15, H14. simpl negb. cbv iota. rewrite Hd, Zlen_to_nat. apply seven_take.
Qed.

(** One turn of the encoder: a chunk stands for the next [k] symbols. *)
Lemma encode_step n s l :
  Forall is_symbol (s :: l) →
  ∃ k c, encode_chunks (S n) (s :: l) = c :: encode_chunks n (drop (S k) (s :: l))
    ∧ is_word c ∧ chunk_symbols (Zlen (s :: l)) c = take (S k) (s :: l).
Proof.
  intros Hf. assert (Forall (λ x, 0 <= x < 4) (s :: l)) as Hf4.
  { eapply Forall_impl; [exact Hf|]. unfold is_symbol. lia. }
  cbn [encode_chunks]. set (r := run_of s (Z.to_nat (MaxRunLength - 1)) l).
  pose proof (run_of_le s (Z.to_nat (MaxRunLength - 1)) l) as [Hr1 Hr2]. fold r in Hr1, Hr2.
  assert (Z.of_nat (S r) <= MaxRunLength) by (unfold MaxRunLength in *; lia).
  apply Forall_cons in Hf4 as [Hs Hl].
  destruct (_ || _).
  - exists r. eexists. split; [done|]. split.
    { apply to_word_range. }
    rewrite run_chunk_symbols by (unfold Zlen; cbn [length]; lia). rewrite Nat2Z.id. cbn [replicate take].
    f_equal. symmetry. apply run_of_replicate.
  - exists 6%nat. eexists. split; [done|]. apply (vector_chunk_symbols (s :: l)). by constructor.
Qed.

Section Codec.
Context {W : WireOps} {V : MoreWireOps} {HW : WireLaws W} {HV : MoreWireLaws W V}.

Lemma decode_encode_chunks n l : ∀ pre post len acc count fuel,
  (length l <= n)%nat → Forall is_symbol l → len = Zlen pre → count = Zlen acc + Zlen l →
  (length (encode_chunks n l) <= fuel)%nat →
  decode_chunks fuel count (pre ++ mjoin (put2 <$> encode_chunks n l) ++ post) len acc
  = Got (acc ++ l, len + 2 * Zlen (encode_chunks n l)).
Proof.
  revert l. induction n as [|n IH]; intros l pre post len acc count fuel Hn Hf -> -> Hfuel.
  { destruct l; [|simpl in Hn; lia]. destruct fuel; cbn [decode_chunks];
      rewrite (proj2 (Z.leb_le _ _)) by (unfold Zlen; simpl; lia); by rewrite app_nil_r, Z.add_0_r. }
  destruct l as [|s l].
  { destruct fuel; cbn [decode_chunks];
      rewrite (proj2 (Z.leb_le _ _)) by (unfold Zlen; simpl; lia); by rewrite app_nil_r, Z.add_0_r. }
  destruct (encode_step n s l Hf) as (k & c & He & Hc & Hsym). rewrite He in *.
  destruct fuel as [|fuel]; [simpl in Hfuel; lia|]. cbn [decode_chunks].
  rewrite (proj2 (Z.leb_gt _ _)) by (unfold Zlen; simpl; lia).
  set (cs := encode_chunks n (drop (S k) (s :: l))) in *.
  change (mjoin (put2 <$> c :: cs)) with (put2 c ++ mjoin (put2 <$> cs)). rewrite <- app_assoc.
  pose proof (Zlen_nonneg (mjoin (put2 <$> cs))). pose proof (Zlen_nonneg post).
  unfold refuse_if. rewrite (proj2 (Z.ltb_ge _ _)) by (rewrite !Zlen_app, Zlen_put2; lia).
  rewrite rd2_at by done. cbn [cbind]. rewrite to_word_id by done.
  replace (Zlen acc + Zlen (s :: l) - Zlen acc) with (Zlen (s :: l)) by lia. rewrite Hsym, app_assoc.
  rewrite (IH (drop (S k) (s :: l)) (pre ++ put2 c) post).
  - rewrite <- app_assoc, take_drop. fold cs. rewrite Zlen_cons. do 2 f_equal. lia.
  - rewrite length_drop. cbn [length] in *. lia.
  - by apply Forall_drop.
  - by rewrite Zlen_app, Zlen_put2.
  - by rewrite Zlen_app, <- Z.add_assoc, <- (Zlen_app (take _ _)), take_drop.
  - fold cs. cbn [length] in Hfuel. lia.
Qed.

(** ** Deltas *)

Lemma delta_bytes_of l ss :
  symbols_of l = Some ss → delta_bytes ss = Zlen (mjoin (delta_octets <$> l)).
Proof.
  revert ss. induction l as [|p l IH]; intros ss Hss; simpl in Hss; [by injection Hss as <-|].
  destruct (symbol_of p) as [s|] eqn:Hs; [|done]. simpl in Hss.
  destruct (symbols_of l) as [ss'|]; [|done]. injection Hss as <-.
  change (mjoin (delta_octets <$> p :: l)) with (delta_octets p ++ mjoin (delta_octets <$> l)).
  rewrite Zlen_app, <- (IH ss') by done. cbn [delta_bytes foldr]. fold (delta_bytes ss'). f_equal.
  unfold symbol_of in Hs. unfold delta_octets. destruct (negb _); [by injection Hs as <-|].
  destruct (_ && _); [by injection Hs as <-|]. destruct (_ && _); [by injection Hs as <-|done].
Qed.

Lemma to_int16_word d : -32768 <= d <= 32767 → to_int16 (to_word d) = d.
Proof.
  intros. unfold to_int16, to_word. rewrite Zplus_mod_idemp_l, Z.mod_small; lia.
Qed.

Lemma word_octets w : is_word w → to_byte (Z.shiftr w 8) * 256 + Z.land w 0xFF = w.
Proof.
  unfold is_word, to_byte. intros. change 0xFF with (Z.ones 8).
  rewrite Z.land_ones, Z.shiftr_div_pow2 by lia. Z.div_mod_to_equations. lia.
Qed.

Lemma read_deltas_back l : ∀ pre post len seq ss,
  len = Zlen pre → symbols_of l = Some ss → Forall status_ok l → numbered seq l →
  read_deltas (pre ++ mjoin (delta_octets <$> l) ++ post) len seq ss = Got l.
Proof.
  induction l as [|p l IH]; intros pre post len seq ss -> Hss Hok Hnum; simpl in Hss; [by injection Hss as <-|].
  apply Forall_cons in Hok as [Hp Hok]. destruct Hnum as [Hseq Hnum].
  destruct (symbol_of p) as [s|] eqn:Hs; [|done]. simpl in Hss.
  destruct (symbols_of l) as [ss'|] eqn:Hss'; [|done]. injection Hss as <-.
  change (mjoin (delta_octets <$> p :: l)) with (delta_octets p ++ mjoin (delta_octets <$> l)).
  set (rest := mjoin (delta_octets <$> l)) in *. rewrite <- app_assoc, (app_assoc pre).
  destruct p as [q rcv d]. simpl in Hseq. subst q.
  assert (∀ n, n = Zlen (delta_octets (mkStatus seq rcv d)) →
    read_deltas ((pre ++ delta_octets (mkStatus seq rcv d)) ++ rest ++ post) (Zlen pre + n) (to_word (seq + 1)) ss'
    = Got l) as Hrest.
  { intros n ->. apply IH; [by rewrite Zlen_app|done..]. }
  unfold symbol_of in Hs. unfold delta_octets, status_ok in *. cbn [ps_received ps_deltaTicks] in *.
  destruct rcv; cbn [negb] in *; [destruct ((0 <=? d) && (d <=? 255)) eqn:Hd|].
  - injection Hs as <-. ztests. rewrite to_byte_id in * by (unfold is_byte; lia).
    cbn [read_deltas]. change (SymbolSmall =? SymbolNotReceived) with false.
    change (SymbolSmall =? SymbolSmall) with true. cbv iota. rewrite <- app_assoc. cbn [app].
    rewrite rd1_at by done. cbn [cbind]. specialize (Hrest 1 eq_refl). rewrite <- app_assoc in Hrest.
    cbn [app] in Hrest. by rewrite Hrest.
  - rewrite (proj2 (Z.leb_le (-32768) d)), (proj2 (Z.leb_le d 32767)) in Hs by lia.
    injection Hs as <-. cbn [read_deltas].
    change (SymbolLarge =? SymbolNotReceived) with false. change (SymbolLarge =? SymbolSmall) with false.
    change (SymbolLarge =? SymbolLarge) with true. cbv iota. rewrite <- app_assoc. cbn [app].
    rewrite rd2_raw_at by done. cbn [cbind]. rewrite word_octets by apply to_word_range.
    specialize (Hrest 2 eq_refl). rewrite <- app_assoc in Hrest. cbn [app] in Hrest. rewrite Hrest. cbn [cbind].
    by rewrite to_int16_word.
  - injection Hs as <-. cbn [read_deltas]. change (SymbolNotReceived =? SymbolNotReceived) with true. cbv iota.
    specialize (Hrest 0 eq_refl). rewrite Z.add_0_r in Hrest. rewrite Hrest. cbn [cbind].
    by subst d.
Qed.

(** ** The report *)

Lemma round4_spec n : 0 <= n → n <= round4 n < n + 4.
Proof.
  intros. unfold round4. change (Z.lnot 3) with (- 4). change (-4) with (Z.lnot (Z.ones 2)).
  rewrite <- Z.ldiff_land, Z.ldiff_ones_r, Z.shiftl_mul_pow2, Z.shiftr_div_pow2 by lia.
  Z.div_mod_to_equations. lia.
Qed.

Lemma round4_mod n : 0 <= n → round4 n mod 4 = 0.
Proof.
  intros. unfold round4. change (Z.lnot 3) with (Z.lnot (Z.ones 2)).
  rewrite <- Z.ldiff_land, Z.ldiff_ones_r, Z.shiftl_mul_pow2, Z.shiftr_div_pow2 by lia. apply Z.mod_mul. lia.
Qed.

Lemma Encode_ok f :
  twcc_ok f → ∃ ss, symbols_of (tf_packets f) = Some ss ∧ Forall is_symbol ss
    ∧ length ss = length (tf_packets f)
    ∧ Encode f = Some (encode_chunks (length ss) ss, mjoin (delta_octets <$> tf_packets f)).
Proof.
  intros Hf. destruct (symbols_of_ok _ (tok_status _ Hf)) as (ss & Hss & Hs & Hl).
  exists ss. unfold Encode. by rewrite Hss.
Qed.

Lemma encode_chunks_nonempty ss : ss ≠ [] → encode_chunks (length ss) ss ≠ [].
Proof. destruct ss as [|s ss]; [done|]. intros _. cbn [length encode_chunks]. by case_match. Qed.

Lemma Zlen_puts2 l : Zlen (mjoin (put2 <$> l)) = 2 * Zlen l.
Proof.
  induction l as [|v l IH]; [done|]. change (mjoin (put2 <$> v :: l)) with (put2 v ++ mjoin (put2 <$> l)).
  rewrite Zlen_app, Zlen_put2, Zlen_cons. lia.
Qed.

Lemma twcc_Serialize_length size f :
  Zlen (twcc_Serialize size f) = if size <? twcc_GetSize f then 0 else twcc_GetSize f.
Proof.
  unfold twcc_Serialize, twcc_GetSize. destruct (tf_packets f) as [|p l]; [by destruct (_ <? _)|].
  destruct (Encode f) as [[cs ds]|]; [|by destruct (_ <? _)]. set (needed := _ + Zlen ds).
  pose proof (Zlen_nonneg cs). pose proof (Zlen_nonneg ds).
  pose proof (round4_spec needed ltac:(unfold needed, HeaderBytes; lia)).
  destruct (_ <? _); [done|].
  rewrite !Zlen_app, !Zlen_put2, Zlen_put3, Zlen_puts2, Zlen_replicate, Zlen_cons, Zlen_nil.
  unfold needed, HeaderBytes in *. lia.
Qed.

(** What the peer reads is what was reported. *)
Lemma twcc_roundtrip_lemma size f :
  twcc_ok f → tf_packets f ≠ [] → Zlen (tf_packets f) < 2 ^ 16 → twcc_GetSize f <= size →
  twcc_Parse (twcc_Serialize size f)
  = Got (mkTwcc (tf_baseSeq f) (tf_referenceTicks f) (tf_fbSeq f) true (tf_packets f) 0, twcc_GetSize f).
Proof.
  intros Hf Hne Hcount Hsize. pose proof (twcc_Serialize_length size f) as Hlen.
  rewrite (proj2 (Z.ltb_ge _ _) Hsize) in Hlen.
  destruct (Encode_ok f Hf) as (ss & Hss & Hs & Hl & He).
  assert (1 <= Zlen (encode_chunks (length ss) ss)) as Hcs.
  { destruct (encode_chunks (length ss) ss) eqn:Hc; [|rewrite Zlen_cons; pose proof (Zlen_nonneg l); lia].
    exfalso. apply (encode_chunks_nonempty ss); [|done]. intros ->. simpl in Hl. by destruct (tf_packets f). }
  unfold twcc_Serialize, twcc_GetSize in *. destruct (tf_packets f) as [|p l] eqn:Hp; [done|]. clear Hne.
  rewrite He in *. set (cs := encode_chunks (length ss) ss) in *. set (ds := mjoin (delta_octets <$> p :: l)) in *.
  set (needed := HeaderBytes + 2 * Zlen cs + Zlen ds) in *. rewrite (proj2 (Z.ltb_ge _ _)) in * by lia.
  set (padding := replicate (Z.to_nat (round4 needed - needed)) 0) in *.
  unfold twcc_Parse. rewrite Hlen. unfold refuse_if.
  pose proof (Zlen_nonneg ds).
  pose proof (round4_spec needed ltac:(unfold needed, HeaderBytes; lia)).
  rewrite (proj2 (Z.ltb_ge _ _)) by (unfold needed, HeaderBytes in *; lia).
  set (h := put2 (tf_baseSeq f) ++ put2 (to_word (Zlen (p :: l))) ++ put3 (Z.land (tf_referenceTicks f) 0x00FFFFFF) ++ [tf_fbSeq f]).
  assert (Zlen h = HeaderBytes) as Hh by (unfold h; by rewrite !Zlen_app, !Zlen_put2, Zlen_put3).
  match goal with |- context [decode_chunks _ _ ?x _ _] => set (d := x) in * end.
  assert (d = h ++ mjoin (put2 <$> cs) ++ ds ++ padding) as Hd by (unfold d, h; by rewrite <- !app_assoc).
  assert (rd_with 2 get2 d 0 = Got (tf_baseSeq f)) as ->.
  { etrans; [apply (rd2_at [] (tf_baseSeq f) _ 0); done|]. by rewrite to_word_id by apply Hf. }
  assert (rd_with 2 get2 d 2 = Got (Zlen (p :: l))) as ->.
  { unfold d. rewrite rd2_at by by rewrite Zlen_put2. f_equal. rewrite !to_word_id; [done|..];
      unfold is_word; try apply to_word_range; pose proof (Zlen_nonneg (p :: l)); lia. }
  assert (rd_with 3 get3 d 4 = Got (tf_referenceTicks f)) as ->.
  { unfold d. rewrite (app_assoc (put2 _)), rd3_at by by rewrite Zlen_app, !Zlen_put2. f_equal.
    change 0x00FFFFFF with (Z.ones 24). rewrite Z.land_ones, Z.mod_mod by lia.
    apply Z.mod_small, Hf. }
  assert (rd1 d 7 = Got (tf_fbSeq f)) as ->.
  { unfold d. rewrite (app_assoc (put2 _)), (app_assoc (_ ++ _) (put3 _)). cbn [app].
    by rewrite rd1_at by by rewrite !Zlen_app, !Zlen_put2, Zlen_put3. }
  cbn [cbind]. rewrite (proj2 (Z.eqb_neq _ _)) by (rewrite Zlen_cons; pose proof (Zlen_nonneg l); lia).
  rewrite Hd, (decode_encode_chunks (length ss) ss h (ds ++ padding) HeaderBytes [] (Zlen (p :: l)));
    [|done|done|done|by unfold Zlen; rewrite <- Hl|].
  2:{ rewrite <- Hd. fold cs. pose proof (Zlen_puts2 cs) as Hp2. apply Nat2Z.inj_le.
      change (Zlen cs <= Zlen d). rewrite Hlen. unfold needed, HeaderBytes in *. lia. }
  cbn [cbind app]. fold cs. rewrite (delta_bytes_of (p :: l) ss) by done. fold ds.
  rewrite (proj2 (Z.leb_le _ _)) by (unfold needed in *; lia).
  rewrite app_assoc. unfold ds. rewrite (read_deltas_back (p :: l)); [done| |done| |].
  - by rewrite Zlen_app, Zlen_puts2, Hh.
  - pose proof (tok_status _ Hf) as Ho. by rewrite Hp in Ho.
  - pose proof (tok_numbered _ Hf) as Ho. by rewrite Hp in Ho.
Qed.

(** ** The parser stays inside *)

Lemma delta_bytes_nonneg ss : 0 <= delta_bytes ss.
Proof.
  induction ss as [|s ss IH]; [done|]. cbn [delta_bytes foldr]. fold (delta_bytes ss). unfold delta_size.
  repeat case_goal; lia.
Qed.

Lemma decode_chunks_safe count data fuel : ∀ len symbols,
  0 <= len <= Zlen data → Zlen data - len < 2 * Z.of_nat fuel →
  match decode_chunks fuel count data len symbols with
  | Fault => False
  | Refuse => True
  | Got (_, len') => len <= len' <= Zlen data
  end.
Proof.
  induction fuel as [|fuel IH]; intros len symbols Hlen Hf; [lia|]. cbn [decode_chunks].
  destruct (_ <=? _); [lia|]. unfold refuse_if. destruct (Zlen data <? len + 2) eqn:Hs; [done|]. ztests.
  rewrite rd_with_in by lia. cbn [cbind].
  specialize (IH (len + 2) (symbols ++ chunk_symbols (count - Zlen symbols) (get2 data len)) ltac:(lia) ltac:(lia)).
  destruct (decode_chunks _ _ _ _ _) as [| |[ss len']]; [done..|lia].
Qed.

Lemma read_deltas_safe data ss : ∀ len seq,
  0 <= len → len + delta_bytes ss <= Zlen data → read_deltas data len seq ss ≠ Fault.
Proof.
  induction ss as [|s ss IH]; intros len seq Hl Hd; [done|].
  cbn [delta_bytes foldr] in Hd. fold (delta_bytes ss) in Hd. pose proof (delta_bytes_nonneg ss) as Hn.
  unfold delta_size in Hd. cbn [read_deltas].
  destruct (s =? SymbolNotReceived) eqn:H0.
  { ztests. subst s. simpl in Hd. specialize (IH len (to_word (seq + 1)) Hl ltac:(lia)).
    by destruct (read_deltas _ _ _ _). }
  destruct (s =? SymbolSmall).
  { rewrite rd1_in by lia. cbn [cbind]. specialize (IH (len + 1) (to_word (seq + 1)) ltac:(lia) ltac:(lia)).
    by destruct (read_deltas _ _ _ _). }
  destruct (s =? SymbolLarge); [|done].
  rewrite rd_with_in by lia. cbn [cbind]. specialize (IH (len + 2) (to_word (seq + 1)) ltac:(lia) ltac:(lia)).
  by destruct (read_deltas _ _ _ _).
Qed.

Lemma twcc_Parse_safe data :
  match twcc_Parse data with
  | Fault => False
  | Refuse => True
  | Got (_, n) => n = Zlen data ∧ 0 < n
  end.
Proof.
  unfold twcc_Parse, refuse_if. destruct (_ <? _) eqn:Hs; [done|]. ztests. unfold HeaderBytes in *.
  rewrite !rd_with_in, rd1_in by lia. cbn [cbind]. destruct (_ =? _); [done|].
  pose proof (decode_chunks_safe (get2 data 2) data (length data) 8 [] ltac:(lia)) as Hc.
  assert (Zlen data - 8 < 2 * Z.of_nat (length data)) as Hf by (unfold Zlen in *; lia). specialize (Hc Hf).
  destruct (decode_chunks _ _ _ _ _) as [| |[ss len]]; [done..|]. cbn [cbind].
  destruct (_ <=? _) eqn:Hd; [|simpl; lia]. ztests.
  pose proof (read_deltas_safe data ss len (get2 data 0) ltac:(lia) Hd).
  destruct (read_deltas _ _ _ _); simpl; [done..|lia].
Qed.
End Codec.

(** ** Unwrapping *)

Lemma land_lnot_16 a : Z.land a (Z.lnot 0xFFFF) = a - a mod 2 ^ 16.
Proof.
  change 0xFFFF with (Z.ones 16). rewrite <- Z.ldiff_land, Z.ldiff_ones_r, Z.shiftl_mul_pow2, Z.shiftr_div_pow2 by lia.
  Z.div_mod_to_equations. lia.
Qed.

(** The number nearest to the last one, unless that is negative. *)
Lemma UnwrapSeq16_nearest seq lastSeq :
  is_word seq → 0 <= lastSeq →
  let near := lastSeq + to_int16 (seq - lastSeq) in
  UnwrapSeq16 seq lastSeq true = if 0 <=? near then near else near + 2 ^ 16.
Proof.
  unfold is_word, UnwrapSeq16, to_int16, to_word. intros Hs Hl. cbn [negb].
  rewrite land_lnot_16. change 0xFFFF with (Z.ones 16). rewrite Z.land_ones by lia.
  replace (lastSeq - lastSeq mod 2 ^ 16) with (Z.shiftl (lastSeq / 2 ^ 16) 16)
    by (rewrite Z.shiftl_mul_pow2 by lia; Z.div_mod_to_equations; lia).
  rewrite lor_shiftl by lia. Z.div_mod_to_equations.
  repeat case_goal; ztests; try lia.
Qed.

(** ** What a report says *)

(** The tick of an arrival on the wire. *)
Definition ticks_of (arrivalUs : Z) : Z := arrivalUs mod TimeWrapUs / TickUs.

(** The arrivals of a report, from its reference time on. *)
Fixpoint reported (ticks : Z) (l : list PacketStatus) : list (Z * Z) :=
  match l with
  | [] => []
  | p :: l =>
      if ps_received p then (ps_seq p, ticks + ps_deltaTicks p) :: reported (ticks + ps_deltaTicks p) l
      else reported ticks l
  end.

Definition reported_by (f : TransportWideFeedbackField) : list (Z * Z) :=
  reported (Z.shiftl (tf_referenceTicks f) 8) (tf_packets f).

(** The time after the last arrival. *)
Fixpoint elapsed (ticks : Z) (l : list PacketStatus) : Z :=
  match l with
  | [] => ticks
  | p :: l => elapsed (if ps_received p then ticks + ps_deltaTicks p else ticks) l
  end.

Lemma reported_app ticks l k : reported ticks (l ++ k) = reported ticks l ++ reported (elapsed ticks l) k.
Proof.
  revert ticks. induction l as [|p l IH]; intros ticks; simpl; [done|].
  destruct (ps_received p); simpl; by rewrite IH.
Qed.

Lemma elapsed_app ticks l k : elapsed ticks (l ++ k) = elapsed (elapsed ticks l) k.
Proof. revert ticks. induction l as [|p l IH]; intros ticks; simpl; [done|]. by rewrite IH. Qed.

Lemma lost_silent next gap ticks :
  reported ticks (lost_packets next gap) = [] ∧ elapsed ticks (lost_packets next gap) = ticks
  ∧ Forall status_ok (lost_packets next gap).
Proof.
  unfold lost_packets. generalize 0%nat. induction (Z.to_nat gap) as [|n IH]; intros m; [done|].
  destruct (IH (S m)) as (Hr & He & Hf). simpl. split; [done|]. split; [done|]. by constructor.
Qed.

(** The number after the last of a run. *)
Fixpoint next_after (seq : Z) (l : list PacketStatus) : Z :=
  match l with [] => seq | _ :: l => next_after (to_word (seq + 1)) l end.

Lemma numbered_app seq l k : numbered seq (l ++ k) ↔ numbered seq l ∧ numbered (next_after seq l) k.
Proof. revert seq. induction l as [|p l IH]; intros seq; simpl; [tauto|]. rewrite IH. tauto. Qed.

Lemma next_after_app seq l k : next_after seq (l ++ k) = next_after (next_after seq l) k.
Proof. revert seq. induction l as [|p l IH]; intros seq; simpl; [done|]. by rewrite IH. Qed.

Lemma next_after_last seq l :
  is_word seq → numbered seq l →
  match last l with None => seq | Some p => to_word (ps_seq p + 1) end = next_after seq l.
Proof.
  induction l as [|p l _] using rev_ind; [done|]. intros Hs Hn. rewrite last_snoc, next_after_app. simpl.
  apply numbered_app in Hn as [_ [-> _]]. done.
Qed.

Lemma to_word_add a b : to_word (to_word a + b) = to_word (a + b).
Proof. unfold to_word. by rewrite Zplus_mod_idemp_l. Qed.

Lemma lost_numbered next gap :
  is_word next → 0 <= gap →
  numbered next (lost_packets next gap) ∧ next_after next (lost_packets next gap) = to_word (next + gap).
Proof.
  intros Hn Hg. unfold lost_packets. rewrite <- (Z2Nat.id gap) at 3 by done.
  assert (∀ m n, numbered (to_word (next + Z.of_nat m))
      ((λ i, mkStatus (to_word (next + Z.of_nat i)) false 0) <$> seq m n)
    ∧ next_after (to_word (next + Z.of_nat m)) ((λ i, mkStatus (to_word (next + Z.of_nat i)) false 0) <$> seq m n)
      = to_word (next + Z.of_nat m + Z.of_nat n)) as Hall.
  { intros m n. revert m. induction n as [|n IH]; intros m; simpl; [by rewrite Z.add_0_r|].
    rewrite to_word_add. replace (next + Z.of_nat m + 1) with (next + Z.of_nat (S m)) by lia.
    destruct (IH (S m)) as [H1 H2]. split; [split; [done|exact H1]|]. etrans; [exact H2|]. f_equal. lia. }
  destruct (Hall 0%nat (Z.to_nat gap)) as [H1 H2]. simpl in H1, H2. rewrite Z.add_0_r, (to_word_id next Hn) in *.
  by split.
Qed.

(** The state of a report under construction. *)
Record building (f : TransportWideFeedbackField) : Prop := {
  b_ok : twcc_ok f;
  b_time : tf_hasTimestamps f = true;
  b_last : tf_lastArrivalTicks f = elapsed (Z.shiftl (tf_referenceTicks f) 8) (tf_packets f);
}.

Definition next_seq (f : TransportWideFeedbackField) : Z := next_after (tf_baseSeq f) (tf_packets f).

Lemma next_after_word seq l : is_word seq → is_word (next_after seq l).
Proof. revert seq. induction l as [|p l IH]; intros seq Hs; simpl; [done|]. apply IH, to_word_range. Qed.

Lemma next_after_count seq l : is_word seq → next_after seq l = to_word (seq + Zlen l).
Proof.
  revert seq. induction l as [|p l IH]; intros seq Hs; simpl; [by rewrite Z.add_0_r, to_word_id|].
  rewrite IH by apply to_word_range. rewrite to_word_add, Zlen_cons. f_equal. lia.
Qed.

Lemma SetBase_building seq arrivalUs f :
  is_word seq → is_byte (tf_fbSeq f) → tf_hasTimestamps f = true →
  building (SetBase seq arrivalUs f) ∧ ticks_of arrivalUs / 2 ^ 8 = tf_referenceTicks (SetBase seq arrivalUs f).
Proof.
  intros Hs Hb Ht. unfold SetBase, ticks_of, TimeWrapUs, BaseTickUs, TickUs, to_dword.
  rewrite !Z.shiftl_mul_pow2 by lia. set (a := arrivalUs mod _).
  assert (0 <= a < 250 * 2 ^ 8 * 2 ^ 24) by (apply Z.mod_pos_bound; lia).
  assert (0 <= a / (250 * 2 ^ 8) < 2 ^ 24) by (Z.div_mod_to_equations; lia).
  rewrite Z.mod_small by lia. split; [|cbn [tf_referenceTicks]; by rewrite Z.div_div by lia].
  split; [|done|cbn [tf_lastArrivalTicks tf_referenceTicks tf_packets elapsed]; by rewrite Z.shiftl_mul_pow2 by lia].
  split; simpl; try done.
Qed.

Lemma AddReceived_building seq arrivalUs f f' :
  building f → is_word seq → AddReceived seq arrivalUs f = (true, f') →
  building f' ∧ reported_by f' = reported_by f ++ [(seq, ticks_of arrivalUs)]
  ∧ tf_referenceTicks f' = tf_referenceTicks f ∧ tf_baseSeq f' = tf_baseSeq f ∧ tf_fbSeq f' = tf_fbSeq f
  ∧ Zlen (tf_packets f') = Zlen (tf_packets f) + to_word (seq - next_seq f) + 1
  ∧ tf_lastArrivalTicks f' = ticks_of arrivalUs.
Proof.
  intros [Hok Ht Hl] Hs. unfold AddReceived. rewrite next_after_last by apply Hok. fold (next_seq f).
  set (gap := to_word (seq - next_seq f)). set (delta := _ - tf_lastArrivalTicks f).
  destruct (_ <? gap); [done|]. destruct (_ || _) eqn:Hd; [done|]. ztests. intros [= <-].
  assert (0 <= gap) as Hg by apply to_word_range.
  assert (is_word (next_seq f)) as Hn by (apply next_after_word, Hok).
  destruct (lost_numbered _ _ Hn Hg) as [Hln Hla].
  destruct (lost_silent (next_seq f) gap (elapsed (Z.shiftl (tf_referenceTicks f) 8) (tf_packets f))) as (Hlr & Hle & Hlf).
  assert (to_word (next_seq f + gap) = seq) as Hseq.
  { unfold gap. rewrite Z.add_comm, to_word_add. rewrite <- (to_word_id seq Hs) at 2. f_equal. lia. }
  assert (elapsed (Z.shiftl (tf_referenceTicks f) 8)
    (tf_packets f ++ lost_packets (next_seq f) gap ++ [mkStatus seq true delta]) = ticks_of arrivalUs) as Hel.
  { rewrite !elapsed_app, Hle, <- Hl. unfold delta, ticks_of. simpl. lia. }
  split; [split; [|done|by cbn [tf_lastArrivalTicks tf_referenceTicks tf_packets]; rewrite Hel]|].
  - split; cbn [tf_baseSeq tf_referenceTicks tf_fbSeq tf_packets]; try apply Hok.
    + rewrite !numbered_app. split; [apply Hok|]. split; [done|]. fold (next_seq f). rewrite Hla, Hseq. done.
    + rewrite !Forall_app. split; [apply Hok|]. split; [done|]. constructor; [|done]. unfold status_ok; simpl. lia.
  - split; [|split; [done|split; [done|split; [done|]]]].
    + unfold reported_by. cbn [tf_referenceTicks tf_packets]. rewrite !reported_app, Hlr, Hle, <- Hl. simpl.
      do 3 f_equal. unfold delta, ticks_of. lia.
    + cbn [tf_packets tf_lastArrivalTicks]. split; [|done]. rewrite !Zlen_app, Zlen_cons, Zlen_nil.
      unfold lost_packets. unfold Zlen at 2. rewrite length_fmap, length_seq. lia.
Qed.

(** ** The generator *)

Lemma lower_bound_suffix {A} k (m : list (Z * A)) :
  ∃ l, m = l ++ lower_bound k m ∧ Forall (λ x, x.1 < k) l.
Proof.
  induction m as [|[j v] m (l & Hm & Hl)]; [by exists []|]. simpl. destruct (Z.ltb_spec j k).
  - exists ((j, v) :: l). split; [simpl; by rewrite <- Hm|]. by constructor.
  - by exists [].
Qed.

Lemma lower_bound_all {A} k (l r : list (Z * A)) :
  Forall (λ x, x.1 < k) l → match r with [] => True | x :: _ => k <= x.1 end → lower_bound k (l ++ r) = r.
Proof.
  induction 1 as [|[j v] l Hj _ IH]; simpl in *; intros Hr.
  - destruct r as [|[j v] r]; [done|]. simpl. rewrite (proj2 (Z.ltb_ge _ _)) by done. done.
  - rewrite (proj2 (Z.ltb_lt _ _)) by done. by apply IH.
Qed.

Lemma lower_bound_head {A} k (m : list (Z * A)) :
  match lower_bound k m with [] => True | x :: _ => k <= x.1 end.
Proof. induction m as [|[j v] m IH]; simpl; [done|]. destruct (Z.ltb_spec j k); [done|simpl; lia]. Qed.

(** Past the last of the first elements, the others are left. *)
Lemma lower_bound_past {A} k (m l r : list (Z * A)) c v :
  om_sorted m → lower_bound k m = l ++ r → last l = Some (c, v) → lower_bound (c + 1) m = r.
Proof.
  intros Hs Hl Hlast. destruct (lower_bound_suffix k m) as (pre & Hm & Hpre). rewrite Hl in Hm.
  assert (k <= c) as Hkc.
  { pose proof (lower_bound_head k m) as Hh. rewrite Hl in Hh.
    destruct l as [|x l]; [done|]. simpl in Hh. destruct (last_Some (x :: l) (c, v)) as [Hx _].
    destruct (Hx Hlast) as [l' Hl']. rewrite Hm in Hs.
    destruct l' as [|y l']; simpl in Hl'; injection Hl' as -> ?; [done|]. subst l.
    apply om_sorted_app in Hs as (_ & Hs & _). simpl in Hs. rewrite <- app_assoc in Hs. simpl in Hs.
    change (y :: l' ++ (c, v) :: r) with ([y] ++ l' ++ (c, v) :: r) in Hs.
    apply om_sorted_app in Hs as (_ & _ & Hs). specialize (Hs y (c, v) ltac:(left) ltac:(set_solver)). simpl in *. lia. }
  apply last_Some in Hlast as [l' ->]. rewrite Hm in Hs |- *. rewrite !app_assoc. apply lower_bound_all.
  - rewrite !Forall_app. split; [split|].
    + eapply Forall_impl; [exact Hpre|]. simpl. lia.
    + rewrite Forall_forall. intros x Hx. apply om_sorted_app in Hs as (_ & Hs & _).
      rewrite <- app_assoc in Hs. apply om_sorted_app in Hs as (_ & _ & Hs).
      specialize (Hs x (c, v) Hx ltac:(set_solver)). simpl in *. lia.
    + constructor; [simpl; lia|constructor].
  - destruct r as [|x r]; [done|]. rewrite !app_assoc in Hs. apply om_sorted_app in Hs as (_ & _ & Hs).
    specialize (Hs (c, v) x ltac:(set_solver) ltac:(left)). simpl in *. lia.
Qed.

Definition tell (x : Z * Z) : Z * Z := (to_word x.1, ticks_of x.2).

Lemma word_distance a b : 0 <= a - b < 2 ^ 16 → to_word (to_word a - to_word b) = a - b.
Proof. intros. unfold to_word. rewrite <- Zminus_mod. by apply Z.mod_small. Qed.

Lemma AddReceived_same seq t f f' : AddReceived seq t f = (false, f') → f' = f.
Proof. unfold AddReceived. repeat case_goal; by intros [=]. Qed.

Lemma build_loop_spec base rest : ∀ covered any f,
  building f → Zlen (tf_packets f) <= MaxStatusPerReport → tf_baseSeq f = to_word base →
  om_sorted rest → Forall (λ x, base + Zlen (tf_packets f) <= x.1) rest →
  ∃ k covered' any' f', build_loop base rest covered any f = (covered', any', f')
    ∧ building f' ∧ reported_by f' = reported_by f ++ (tell <$> take k rest)
    ∧ Zlen (tf_packets f') <= MaxStatusPerReport
    ∧ (tf_referenceTicks f' = tf_referenceTicks f ∧ tf_baseSeq f' = tf_baseSeq f ∧ tf_fbSeq f' = tf_fbSeq f)
    ∧ match last (take k rest) with
      | None => covered' = covered ∧ any' = any
      | Some x => covered' = x.1 ∧ any' = true
      end.
Proof.
  induction rest as [|[s t] rest IH]; intros covered any f Hb Hn Hbase Hs Hge; cbn [build_loop].
  { exists 0%nat, covered, any, f. simpl. rewrite app_nil_r. tauto. }
  destruct (_ <? _) eqn:Hmax.
  { exists 0%nat, covered, any, f. simpl. rewrite app_nil_r. tauto. }
  ztests. apply Forall_cons in Hge as [Hs0 Hge]. simpl in Hs0.
  destruct (AddReceived (to_word s) t f) as [ok f'] eqn:Ha. destruct ok; cycle 1.
  { apply AddReceived_same in Ha as ->. exists 0%nat, covered, any, f. simpl. rewrite app_nil_r. tauto. }
  destruct (AddReceived_building _ _ _ _ Hb (to_word_range s) Ha) as (Hb' & Hr & Href & Hbs & Hfb & Hlen & _).
  assert (Zlen (tf_packets f') = s - base + 1) as Hlen'.
  { rewrite Hlen. unfold next_seq. rewrite next_after_count by apply Hb. rewrite Hbase, to_word_add.
    pose proof (Zlen_nonneg (tf_packets f)). unfold MaxStatusPerReport in *. rewrite word_distance by lia. lia. }
  change ((s, t) :: rest) with ([(s, t)] ++ rest) in Hs. apply om_sorted_app in Hs as (_ & Hs & Hlt).
  destruct (IH s true f' Hb') as (k & c & a & f'' & He & Hb'' & Hr'' & Hn'' & (E1 & E2 & E3) & Hlast).
  - lia.
  - congruence.
  - done.
  - rewrite Forall_forall. intros x Hx. specialize (Hlt (s, t) x ltac:(left) Hx). simpl in Hlt. lia.
  - exists (S k), c, a, f''. split; [done|]. split; [done|]. split.
    { rewrite Hr'', Hr, <- app_assoc. done. }
    split; [done|]. split; [by rewrite E1, E2, E3|]. cbn [take]. destruct (take k rest) as [|y l] eqn:Ht.
    + done.
    + change (last ((s, t) :: y :: l)) with (last (y :: l)). destruct (last (y :: l)) eqn:Hy; [done|].
      by apply last_None in Hy.
Qed.

Lemma first_arrival_fits base t f :
  building f → tf_packets f = [] → tf_baseSeq f = base → ticks_of t / 2 ^ 8 = tf_referenceTicks f →
  ∃ f', AddReceived base t f = (true, f').
Proof.
  intros Hb Hp Hbase Ht. unfold AddReceived. rewrite Hp. cbn [last]. rewrite Hbase, Z.sub_diag.
  change (0x7FFF <? to_word 0) with false. cbv iota.
  rewrite (b_last _ Hb), Hp. cbn [elapsed]. rewrite Z.shiftl_mul_pow2 by lia. fold (ticks_of t). rewrite <- Ht.
  destruct (_ || _) eqn:Hd; [|by eexists]. apply orb_true_iff in Hd. ztests.
  destruct Hd as [Hd|Hd]; apply Z.ltb_lt in Hd; Z.div_mod_to_equations; lia.
Qed.

Record gen_ok (g : TransportWideFeedbackGenerator) : Prop := {
  go_sorted : om_sorted (g_arrivals g);
  go_fbSeq : is_byte (g_fbSeq g);
  go_window : g_hasWindowStart g = false → g_arrivals g = [];
}.

Lemma new_generator_ok : gen_ok new_generator.
Proof. split; [apply om_sorted_nil|done|done]. Qed.

Lemma purge_suffix now m has ws : ∃ l, m = l ++ (purge_arrivals now m has ws).1.
Proof.
  revert ws. induction m as [|[old t] m IH]; intros ws; simpl; [by exists []|].
  destruct (_ <? _); [|by exists []]. destruct (IH (if has && (ws <=? old) then old + 1 else ws)) as [l Hl].
  exists ((old, t) :: l). simpl. by rewrite <- Hl.
Qed.

Lemma OnPacketReceived_ok ssrc seq now g : gen_ok g → gen_ok (OnPacketReceived ssrc seq now g).
Proof.
  intros [Hs Hf Hw]. unfold OnPacketReceived.
  set (m := match om_find _ _ with Some _ => _ | None => _ end).
  assert (om_sorted m) as Hm by (unfold m; destruct (om_find _ _); [done|by apply om_set_sorted]).
  match goal with |- context [purge_arrivals ?n ?x ?h ?w] =>
    destruct (purge_suffix n x h w) as [l Hl]; destruct (purge_arrivals n x h w) as [m' w'] end.
  simpl in Hl. split; simpl; [|done|].
  - rewrite Hl in Hm. by apply om_sorted_app in Hm as (_ & Hm & _).
  - destruct (negb (g_hasWindowStart g) || _) eqn:Ho; [done|]. apply orb_false_iff in Ho as [Ho _].
    apply negb_false_iff in Ho. congruence.
Qed.

Lemma pending_sorted g : gen_ok g → om_sorted (lower_bound (g_windowStart g) (g_arrivals g)).
Proof.
  intros Hg. destruct (lower_bound_suffix (g_windowStart g) (g_arrivals g)) as (l & Hm & _).
  pose proof (go_sorted _ Hg) as Hs. rewrite Hm in Hs. by apply om_sorted_app in Hs as (_ & Hs & _).
Qed.

(** A report says when the first pending arrivals were, and leaves the others pending. *)
Lemma BuildFeedback_spec now g :
  gen_ok g → HasPending g = true →
  let pending := lower_bound (g_windowStart g) (g_arrivals g) in
  ∃ n f g', BuildFeedback now new_twcc g = (true, f, g') ∧ (0 < n)%nat
    ∧ reported_by f = tell <$> take n pending
    ∧ lower_bound (g_windowStart g') (g_arrivals g') = drop n pending
    ∧ building f ∧ 0 < Zlen (tf_packets f) <= MaxStatusPerReport ∧ tf_fbSeq f = g_fbSeq g
    ∧ gen_ok g' ∧ g_hasWindowStart g' = true ∧ g_arrivals g' = g_arrivals g ∧ g_lastSendUs g' = now.
Proof.
  intros Hg Hp. pose proof (pending_sorted g Hg) as Hsort. cbv zeta. unfold HasPending in Hp.
  apply andb_true_iff in Hp as [Hw Hne]. unfold BuildFeedback. rewrite Hw. cbn [negb].
  destruct (lower_bound (g_windowStart g) (g_arrivals g)) as [|[base t] rest] eqn:Hpend; [done|]. clear Hne.
  destruct (SetBase_building (to_word base) t new_twcc) as [Hb0 Href]; [apply to_word_range|done|done|].
  set (f0 := set_fbSeq (g_fbSeq g) (SetBase (to_word base) t new_twcc)).
  assert (building f0) as Hb.
  { destruct Hb0 as [Hok Ht Hl]. split; [|done|done]. destruct Hok. split; try done. apply Hg. }
  destruct (first_arrival_fits (to_word base) t f0 Hb) as [f1 Hf1]; [done..|].
  cbn [build_loop]. rewrite (proj2 (Z.ltb_ge MaxStatusPerReport (base - base + 1))) by (unfold MaxStatusPerReport; lia).
  rewrite Hf1.
  destruct (AddReceived_building _ _ _ _ Hb (to_word_range base) Hf1) as (Hb1 & Hr1 & E1 & E2 & E3 & Hlen & _).
  assert (Zlen (tf_packets f1) = 1) as Hlen1.
  { rewrite Hlen. unfold next_seq. cbn [tf_packets tf_baseSeq f0 set_fbSeq SetBase next_after].
    rewrite Z.sub_diag. done. }
  change ((base, t) :: rest) with ([(base, t)] ++ rest) in Hsort. apply om_sorted_app in Hsort as (_ & Hs & Hlt).
  destruct (build_loop_spec base rest base true f1 Hb1) as (k & c & a & f2 & He & Hb2 & Hr2 & Hn2 & (G1 & G2 & G3) & Hlast).
  { unfold MaxStatusPerReport. lia. }
  { by rewrite E2. }
  { done. }
  { rewrite Forall_forall. intros x Hx. specialize (Hlt (base, t) x ltac:(left) Hx). simpl in Hlt. lia. }
  rewrite He. assert (∃ v, last ((base, t) :: take k rest) = Some (c, v) ∧ a = true) as (v & Hc & ->).
  { destruct (take k rest) as [|y l] eqn:Ht; simpl in Hlast; [destruct Hlast as [-> ->]; by exists t|].
    change (last ((base, t) :: y :: l)) with (last (y :: l)).
    destruct (last (y :: l)) as [[c' v']|] eqn:Hy; [|by apply last_None in Hy].
    destruct Hlast as [-> ->]. by exists v'. }
  exists (S k), f2. eexists. split; [reflexivity|]. split; [lia|]. split.
  { rewrite Hr2, Hr1. done. }
  split.
  { cbn [set_window g_windowStart g_arrivals]. cbn [drop].
    eapply (lower_bound_past (g_windowStart g) _ ((base, t) :: take k rest)); [apply Hg| |exact Hc].
    rewrite Hpend. simpl. by rewrite take_drop. }
  split; [done|]. split.
  { split; [|done]. assert (reported_by f2 ≠ []) as Hnn by (rewrite Hr2, Hr1; done).
    destruct (tf_packets f2) eqn:Hp2; [|rewrite Zlen_cons; pose proof (Zlen_nonneg l); lia].
    exfalso. apply Hnn. unfold reported_by. by rewrite Hp2. }
  split; [by rewrite G3, E3|]. split; [|done]. split; simpl; [apply Hg|apply to_byte_range|congruence].
Qed.

(** ** The history *)

(** How a reported arrival comes back to the sender. *)
Definition acked_as (h : SentPacketHistory) (m : list (Z * SentPacket)) (x : Z * Z) (r : SentResult) : Prop :=
  ∃ sent, om_find (Unwrap x.1 h) m = Some sent
    ∧ r = mkResult (sp_sentTimeUs sent) (x.2 * TickUs) (sp_size sent).

Definition lost_count (l : list PacketStatus) : Z := Zlen (filter (λ p, ps_received p = false) l).

Lemma reported_shift ticks k l : reported (ticks + k) l = (λ x, (x.1, x.2 + k)) <$> reported ticks l.
Proof.
  revert ticks. induction l as [|p l IH]; intros ticks; simpl; [done|]. destruct (ps_received p); simpl; [|done].
  replace (ticks + k + ps_deltaTicks p) with (ticks + ps_deltaTicks p + k) by lia. by rewrite IH.
Qed.

Lemma reported_count ticks l : Zlen (reported ticks l) + lost_count l = Zlen l.
Proof.
  unfold lost_count. revert ticks. induction l as [|p l IH]; intros ticks; [done|]. cbn [reported].
  rewrite Zlen_cons, filter_cons. destruct (ps_received p) eqn:Hp; simpl; rewrite Zlen_cons;
    specialize (IH (if ps_received p then ticks + ps_deltaTicks p else ticks)); rewrite Hp in IH; lia.
Qed.

Lemma feedback_fold h l : ∀ m ticks results lost unknown saw,
  NoDup ((λ x, Unwrap x.1 h) <$> reported ticks l) →
  Forall (λ x, 0 <= x.2 < 2 ^ 56) (reported ticks l) →
  Forall (λ x, ∃ sent, om_find (Unwrap x.1 h) m = Some sent ∧ sp_acked sent = false) (reported ticks l) →
  ∃ m' rs saw', foldl (λ s p, feedback_step true h p s) (m, ticks, results, lost, unknown, saw) l
      = (m', elapsed ticks l, results ++ rs, lost + lost_count l, unknown, saw')
    ∧ Forall2 (acked_as h m) (reported ticks l) rs.
Proof.
  induction l as [|p l IH]; intros m ticks results lost unknown saw Hnd Hr Hall.
  { exists m, [], saw. simpl. split; [|constructor]. by rewrite app_nil_r, Z.add_0_r. }
  cbn [foldl reported elapsed] in *. unfold feedback_step at 2. destruct (ps_received p) eqn:Hrcv; cbn [negb].
  - set (ticks' := ticks + ps_deltaTicks p) in *. rewrite fmap_cons in Hnd. apply NoDup_cons in Hnd as [Hni Hnd].
    assert (∀ x, x ∈ reported ticks' l → Unwrap x.1 h ≠ Unwrap (ps_seq p) h) as Hne.
    { intros x Hx Heq. apply Hni. apply list_elem_of_fmap. by exists x. }
    apply Forall_cons in Hr as [Ht Hr]. apply Forall_cons in Hall as [(sent & Hsent & Hack) Hall]. simpl in Ht, Hsent.
    assert (to_qword ticks' = ticks') as -> by (apply Z.mod_small; lia).
    rewrite Hsent, Hack. set (m1 := om_alter _ _ m).
    destruct (IH m1 ticks' (results ++ [mkResult (sp_sentTimeUs sent) (to_qword (ticks' * TickUs)) (sp_size sent)])
      lost unknown true) as (m' & rs & saw' & He & Hf); [done|done| |].
    { rewrite Forall_forall in Hall |- *. intros x Hx. destruct (Hall x Hx) as (s' & Hs' & Ha'). exists s'.
      split; [|done]. unfold m1. by rewrite om_find_alter_ne by by apply Hne. }
    exists m', (mkResult (sp_sentTimeUs sent) (to_qword (ticks' * TickUs)) (sp_size sent) :: rs), saw'.
    split.
    { rewrite He, <- app_assoc. unfold lost_count. rewrite filter_cons_False by congruence. done. }
    constructor.
    + exists sent. split; [done|]. simpl. f_equal. apply Z.mod_small. unfold TickUs. lia.
    + rewrite Forall2_lookup in Hf |- *. intros i. specialize (Hf i).
      destruct (reported ticks' l !! i) as [x|] eqn:Hx; inversion Hf as [? r Hxr E1 E2|E1 E2]; constructor.
      destruct Hxr as (s' & Hs' & Hrr). exists s'. split; [|done]. rewrite <- Hs'. unfold m1.
      rewrite om_find_alter_ne; [done|]. apply Hne. by apply list_elem_of_lookup_2 in Hx.
  - destruct (IH m ticks results (lost + 1) unknown saw Hnd Hr Hall) as (m' & rs & saw' & He & Hf).
    exists m', rs, saw'. split; [|done]. rewrite He. unfold lost_count. rewrite filter_cons_True by done.
    rewrite Zlen_cons. do 3 f_equal. lia.
Qed.

(** The reference time is unwrapped to one that agrees with the wire, never below zero. *)
Lemma unwrap_reference_spec ref h :
  0 <= ref < 2 ^ 24 → 0 <= h_lastRecvTicks h →
  ∃ k, unwrap_reference ref h = Z.shiftl ref 8 + k * WrapTicks ∧ 0 <= k
    ∧ unwrap_reference ref h <= h_lastRecvTicks h + 2 * WrapTicks
    ∧ (h_hasLastRecvTicks h = false → k = 0)
    ∧ (h_hasLastRecvTicks h = true → WrapTicks <= 2 * h_lastRecvTicks h →
       2 * Z.abs (unwrap_reference ref h - h_lastRecvTicks h) <= WrapTicks).
Proof.
  unfold unwrap_reference, WrapTicks. rewrite !Z.shiftl_mul_pow2, Z.mul_1_l by lia. intros Hr Hl.
  destruct (h_hasLastRecvTicks h); [|exists 0; split; [lia|]; split; [lia|]; split; [lia|]; split; [done|intros [=]]].
  set (a := h_lastRecvTicks h) in *. set (b := ref * 2 ^ 8). assert (0 <= b < 2 ^ 32) by (unfold b; lia).
  set (c := a / 2 ^ 32). assert (c * 2 ^ 32 <= a < c * 2 ^ 32 + 2 ^ 32) by (unfold c; Z.div_mod_to_equations; lia).
  assert (0 <= c) by lia. clearbody b c a.
  assert (∀ v, (if a <? v then v - a else a - v) = Z.abs (v - a)) as Hdist
    by (intros v; destruct (Z.ltb_spec a v); lia).
  cbv zeta. rewrite !Hdist. set (down := if _ <=? _ then _ else _).
  assert (down = c * 2 ^ 32 + b - 2 ^ 32 ∧ 1 <= c ∨ down = c * 2 ^ 32 + b ∧ c = 0) as Hdown
    by (unfold down; destruct (Z.leb_spec (2 ^ 32) (c * 2 ^ 32 + b)); lia).
  clearbody down.
  destruct (Z.ltb_spec (Z.abs (c * 2 ^ 32 + b + 2 ^ 32 - a)) (Z.abs (c * 2 ^ 32 + b - a)));
    match goal with |- context [Z.abs (down - a) <? ?x] => destruct (Z.ltb_spec (Z.abs (down - a)) x) end.
  1,3: destruct Hdown as [[-> Hc]|[-> ->]]; [exists (c - 1)|lia].
  3: exists (c + 1). 4: exists c.
  all: repeat split; [lia|lia|lia|done|intros _ Hw; lia].
Qed.

(** Any sequence of packets received, reports built and bitrates announced. *)
Inductive gen_reachable : TransportWideFeedbackGenerator → Prop :=
  | gr_new : gen_reachable new_generator
  | gr_received g ssrc seq now : gen_reachable g → gen_reachable (OnPacketReceived ssrc seq now g)
  | gr_built g now : gen_reachable g → gen_reachable (BuildFeedback now new_twcc g).2
  | gr_bitrate g rate : gen_reachable g → gen_reachable (SetSendBitrate rate g).

Lemma BuildFeedback_nothing now f g :
  gen_ok g → HasPending g = false → BuildFeedback now f g = (false, f, g).
Proof.
  intros Hg Hp. unfold HasPending in Hp. unfold BuildFeedback. destruct (g_hasWindowStart g); [|done].
  cbn [negb andb] in *. by destruct (lower_bound _ _).
Qed.

Lemma gen_reachable_ok g : gen_reachable g → gen_ok g.
Proof.
  induction 1 as [|g ssrc seq now _ IH|g now _ IH|g rate _ [Hs Hf Hw]].
  - apply new_generator_ok.
  - by apply OnPacketReceived_ok.
  - destruct (HasPending g) eqn:Hp; [|by rewrite BuildFeedback_nothing].
    destruct (BuildFeedback_spec now g IH Hp) as (n & f & g' & -> & _ & _ & _ & _ & _ & _ & Hg' & _). done.
  - by split.
Qed.

(** The interval between two reports stays between 50 and 250 ms. *)
Lemma gen_reachable_interval g :
  gen_reachable g → MinIntervalUs <= g_intervalUs g <= MaxIntervalUs.
Proof.
  induction 1 as [|g ssrc seq now _ IH|g now Hg IH|g rate _ IH]; [done| | |].
  - unfold OnPacketReceived. by destruct (purge_arrivals _ _ _ _).
  - unfold BuildFeedback. repeat case_match; simplify_eq; done.
  - unfold SetSendBitrate. cbn [g_intervalUs]. unfold MinIntervalUs, MaxIntervalUs.
    repeat case_match; ztests; lia.
Qed.

(** In every state of the feedback generator, a report can be built if and only if arrivals are
    pending.  The report covers at least the first pending arrival and at most 400 numbers; it says
    of the first n pending arrivals, in their order and of no other packet, at which tick of
    250 us they came (on the 24-bit clock of the wire), and exactly the other arrivals are pending
    after it: nothing is skipped and nothing is reported twice.  The interval to the next report is
    between 50 and 250 ms. *)
Theorem pending_arrivals_are_reported now g :
  gen_reachable g →
  let pending := lower_bound (g_windowStart g) (g_arrivals g) in
  let '(built, f, g') := BuildFeedback now new_twcc g in
  built = HasPending g ∧ MinIntervalUs <= g_intervalUs g' <= MaxIntervalUs
  ∧ (built = true → ∃ n, (0 < n)%nat ∧ reported_by f = tell <$> take n pending
      ∧ lower_bound (g_windowStart g') (g_arrivals g') = drop n pending
      ∧ twcc_ok f ∧ 0 < Zlen (tf_packets f) <= MaxStatusPerReport ∧ tf_fbSeq f = g_fbSeq g
      ∧ g_lastSendUs g' = now)
  ∧ (built = false → f = new_twcc ∧ g' = g).
Proof.
  intros Hr. pose proof (gen_reachable_ok g Hr) as Hg.
  pose proof (gen_reachable_interval _ (gr_built g now Hr)) as Hi. cbv zeta.
  destruct (HasPending g) eqn:Hp.
  - destruct (BuildFeedback_spec now g Hg Hp) as (n & f & g' & Hb & Hn & Hrep & Hleft & Hf & Hlen & Hfb & _ & _ & _ & Ht).
    rewrite Hb in *. split; [done|]. split; [done|]. split; [|done]. intros _. exists n.
    repeat (split; [done|]). split; [apply Hf|]. done.
  - rewrite BuildFeedback_nothing in * by done. done.
Qed.

(** C39. End to end: the receiver builds a report of its pending arrivals, serialises it in a buffer
    that is large enough, and the sender parses it and matches it with its history.  If the packets
    reported are packets the sender remembers and has no acknowledgement of yet, the sender gets,
    in order, for each of them the time it was sent at, its size and the time it arrived at,
    rounded down to 250 us, modulo the 12.4 days period of the clock on the wire; no packet is
    unknown, and those that are not reported as received are counted as lost. *)
Theorem arrival_times_reach_the_sender {W : WireOps} {V : MoreWireOps} (HW : WireLaws W)
    (HV : MoreWireLaws W V) now g h f g' size :
  gen_reachable g → BuildFeedback now new_twcc g = (true, f, g') → twcc_GetSize f <= size →
  0 <= h_lastRecvTicks h < 2 ^ 55 →
  NoDup ((λ x, Unwrap x.1 h) <$> reported_by f) →
  Forall (λ x, ∃ sent, om_find (Unwrap x.1 h) (h_history h) = Some sent ∧ sp_acked sent = false) (reported_by f) →
  let pending := lower_bound (g_windowStart g) (g_arrivals g) in
  ∃ received results lost h' n,
    twcc_Parse (twcc_Serialize size f) = Got (received, twcc_GetSize f)
    ∧ ProcessFeedback received h = (results, lost, 0, h') ∧ (0 < n)%nat
    ∧ Zlen results + lost = Zlen (tf_packets f)
    ∧ Forall2 (λ x r, ∃ sent, om_find (Unwrap (to_word x.1) h) (h_history h) = Some sent
        ∧ sr_sentTimeUs r = sp_sentTimeUs sent ∧ sr_size r = sp_size sent
        ∧ ∃ k, sr_recvTimeUs r = (x.2 mod TimeWrapUs) / TickUs * TickUs + k * TimeWrapUs
             ∧ (h_hasLastRecvTicks h = false → k = 0))
        (take n pending) results.
Proof.
  intros Hr Hb Hsize Hlast Hnd Hall. cbv zeta. pose proof (gen_reachable_ok g Hr) as Hg.
  assert (HasPending g = true) as Hp.
  { destruct (HasPending g) eqn:Hp; [done|]. by rewrite BuildFeedback_nothing in Hb. }
  destruct (BuildFeedback_spec now g Hg Hp) as (n & f1 & g1 & Hb1 & Hn & Hrep & _ & Hf & Hlen & _).
  rewrite Hb in Hb1. injection Hb1 as <- <-. destruct Hf as [Hok Ht _].
  assert (tf_packets f ≠ []) as Hne by (destruct (tf_packets f); [unfold Zlen in Hlen; simpl in Hlen; lia|done]).
  pose proof (twcc_roundtrip_lemma size f Hok Hne ltac:(unfold MaxStatusPerReport in *; lia) Hsize) as Hround.
  set (received := mkTwcc _ _ _ _ _ _) in Hround.
  destruct (unwrap_reference_spec (tf_referenceTicks f) h) as (k & Hk & Hk0 & Hk2 & Hk1 & _); [apply Hok|lia|].
  assert (reported (unwrap_reference (tf_referenceTicks f) h) (tf_packets f)
    = (λ x, (x.1, x.2 + k * WrapTicks)) <$> reported_by f) as Hshift by (rewrite Hk; apply reported_shift).
  pose proof (tok_reference _ Hok) as Hrefpos.
  destruct (feedback_fold h (tf_packets f) (h_history h) (unwrap_reference (tf_referenceTicks f) h) [] 0 0 false)
    as (m' & rs & saw & Hfold & Hf2).
  - rewrite Hshift, <- list_fmap_compose. exact Hnd.
  - rewrite Hshift, Hrep, Forall_fmap, Forall_fmap, Forall_forall. intros x _. cbn.
    assert (0 <= ticks_of x.2 < 2 ^ 32).
    { unfold ticks_of, TimeWrapUs, BaseTickUs, TickUs. rewrite !Z.shiftl_mul_pow2 by lia.
      pose proof (Z.mod_pos_bound x.2 (250 * 2 ^ 8 * 2 ^ 24) ltac:(lia)). Z.div_mod_to_equations. lia. }
    rewrite Z.shiftl_mul_pow2 in Hk by lia. unfold WrapTicks in *. rewrite Z.shiftl_mul_pow2, Z.mul_1_l in * by lia.
    lia.
  - rewrite Hshift, Forall_fmap. exact Hall.
  - unfold ProcessFeedback. rewrite Hround. do 4 eexists. exists n. split; [reflexivity|].
    cbn [received tf_hasTimestamps tf_referenceTicks tf_packets]. rewrite Hfold. cbn [app]. split; [reflexivity|].
    split; [done|]. split.
    + rewrite Z.add_0_l. rewrite <- (reported_count (unwrap_reference (tf_referenceTicks f) h) (tf_packets f)).
      f_equal. unfold Zlen. f_equal. symmetry. by eapply Forall2_length.
    + rewrite Hshift, Hrep in Hf2. rewrite !Forall2_fmap_l in Hf2. eapply Forall2_impl; [exact Hf2|].
      intros x r (sent & Hs & ->). exists sent. cbn in *. split; [done|]. split; [done|]. split; [done|].
      exists k. split; [|exact Hk1]. unfold ticks_of, TimeWrapUs, BaseTickUs, TickUs, WrapTicks.
      rewrite !Z.shiftl_mul_pow2 by lia. lia.
Qed.

(** ** Witnesses *)

(** Packets 65535 and 1 arrive, 0 is lost. *)
Definition sample_generator : TransportWideFeedbackGenerator :=
  OnPacketReceived 7 1 1000700 (OnPacketReceived 7 65535 1000000 new_generator).

Lemma sample_generator_reachable : gen_reachable sample_generator.
Proof. apply gr_received, gr_received, gr_new. Defined.

Lemma pending_arrivals_are_reported_witness :
  HasPending sample_generator = true
  ∧ reported_by (BuildFeedback 1100000 new_twcc sample_generator).1.2 = [(65535, 4000); (1, 4002)]
  ∧ HasPending (BuildFeedback 1100000 new_twcc sample_generator).2 = false
  ∧ MinIntervalUs <= g_intervalUs (BuildFeedback 1100000 new_twcc sample_generator).2 <= MaxIntervalUs.
Proof.
  pose proof (pending_arrivals_are_reported 1100000 sample_generator sample_generator_reachable) as H.
  split; [vm_compute; reflexivity|]. split; [vm_compute; reflexivity|]. split; [vm_compute; reflexivity|].
  destruct (BuildFeedback 1100000 new_twcc sample_generator) as [[built f] g']. apply H.
Defined.

(** The sender remembers the three packets. *)
Definition sample_history : SentPacketHistory :=
  OnPacketSent 1 900020 1200 (OnPacketSent 0 900010 1100 (OnPacketSent 65535 900000 1000 new_history)).
Definition sample_report : TransportWideFeedbackField :=
  (BuildFeedback 1100000 new_twcc sample_generator).1.2.

Lemma sample_reported : reported_by sample_report = [(65535, 4000); (1, 4002)].
Proof. vm_compute; reflexivity. Qed.

Lemma arrival_times_reach_the_sender_witness :
  ∃ received h', @twcc_Parse network_order network_order_more
      (@twcc_Serialize network_order network_order_more 100 sample_report) = Got (received, 12)
    ∧ ProcessFeedback received sample_history
      = ([mkResult 900000 1000000 1000; mkResult 900020 1000500 1200], 1, 0, h').
Proof.
  destruct (@arrival_times_reach_the_sender network_order network_order_more network_order_laws
    network_order_more_laws 1100000 sample_generator sample_history sample_report
    (BuildFeedback 1100000 new_twcc sample_generator).2 100) as (received & results & lost & h' & n & Hp & _).
  - exact sample_generator_reachable.
  - vm_compute; reflexivity.
  - vm_compute; intros H; discriminate H.
  - split; [vm_compute; intros H; discriminate H | vm_compute; reflexivity].
  - apply (bool_decide_unpack _). vm_compute; exact I.
  - rewrite sample_reported.
    constructor; [|constructor; [|constructor]]; (eexists; split; vm_compute; reflexivity).
  - exists received. vm_compute in Hp. injection Hp as <-. eexists. split; vm_compute; reflexivity.
Defined.
