(* ===== verification/RtcpField.v ===== *)
(** * The fields of RTCP feedback packets

    The structures nested in [RTCPRTPFeedback] and [RTCPPayloadFeedback] (src/mcu/include/rtp.h):
    generic NACK, TMMBR, slice loss, reference picture selection, full intra request,
    temporal-spatial trade-off, video back channel and application layer messages, the latter with
    the receiver estimated maximum bitrate.  [Parse] returns the field and the octets it consumed;
    [Serialize(data, size)] is the list of the octets written, empty when the code returns 0.  A
    [malloc] does not fail. *)

From S2P Require Import Prelude Wire Octets TransportFeedback.

(** ** RTP feedback *)

Record NACKField := mkNackField { nf_pid : Z; nf_blp : Z }.

Record TempMaxMediaStreamBitrateField := mkTmmbr {
  tm_ssrc : Z;
  tm_maxTotalBitrateExp : Z;       (** 6 bits *)
  tm_maxTotalBitrateMantissa : Z;  (** 17 bits *)
  tm_overhead : Z;                 (** 9 bits *)
}.

(** [SetBitrate]: the exponent is the first that leaves 17 bits.  [0x1FFFF << i] is an [int]; past
    32 bits the shift is not defined. *)
Fixpoint tmmbr_exponent (fuel : nat) (i bitrate : Z) : checked Z :=
  match fuel with
  | O => Got 0
  | S fuel =>
      if 2 ^ 32 <=? Z.shiftl 0x1FFFF i then Fault
      else if bitrate <=? Z.shiftl 0x1FFFF i then Got i
      else tmmbr_exponent fuel (i + 1) bitrate
  end.

Definition tm_SetBitrate (bitrate : Z) (f : TempMaxMediaStreamBitrateField)
  : checked TempMaxMediaStreamBitrateField :=
  let? e := tmmbr_exponent 64 0 bitrate in
  Got (mkTmmbr (tm_ssrc f) e (Z.shiftr bitrate e) (tm_overhead f)).

Definition tm_GetBitrate (f : TempMaxMediaStreamBitrateField) : Z :=
  to_dword (Z.shiftl (tm_maxTotalBitrateMantissa f) (tm_maxTotalBitrateExp f)).

(** [TempMaxMediaStreamBitrateField(ssrc, bitrate, overhead)] *)
Definition new_tmmbr (ssrc bitrate overhead : Z) : checked TempMaxMediaStreamBitrateField :=
  tm_SetBitrate bitrate (mkTmmbr ssrc 0 0 overhead).

(** ** Payload feedback *)

Record SliceLossIndicationField := mkSli {
  sl_first : Z;      (** 13 bits *)
  sl_number : Z;     (** 13 bits *)
  sl_pictureId : Z;  (** 6 bits *)
}.

Record ReferencePictureSelectionField := mkRpsi {
  rs_padding : Z;    (** in bits *)
  rs_type : Z;
  rs_payload : bytes;
}.

(** [ReferencePictureSelectionField(payloadType, bitString, len)] *)
Definition new_rpsi (payloadType : Z) (bitString : bytes) : ReferencePictureSelectionField :=
  mkRpsi (to_byte ((4 - (2 + Zlen bitString) mod 4) mod 4 * 8)) (Z.land payloadType 0x7F) bitString.

Record FullIntraRequestField := mkFirField { fi_ssrc : Z; fi_seq : Z }.

Record TemporalSpatialTradeOffField := mkTsto { ts_ssrc : Z; ts_seq : Z; ts_index : Z }.

Record VideoBackChannelMessageField := mkVbcm {
  vb_ssrc : Z;
  vb_seq : Z;
  vb_type : Z;
  vb_payload : bytes;   (** [length] octets *)
}.

Record ApplicationLayerFeeedbackField := mkAlf { al_payload : bytes  (** [length] octets *) }.

(** ** Receiver estimated maximum bitrate *)

Fixpoint remb_exponent (fuel : nat) (i bitrate : Z) : Z :=
  match fuel with
  | O => 0
  | S fuel => if bitrate <=? Z.shiftl 0x3FFFF i then i else remb_exponent fuel (i + 1) bitrate
  end.

Section Codec.
Context {W : WireOps} {V : MoreWireOps}.

Definition NACKField_GetSize : Z := 4.
Definition NACKField_Parse (data : bytes) : checked (NACKField * Z) :=
  refuse_if (Zlen data <? 4) (
  let? pid := rd_with 2 get2 data 0 in
  let? blp := rd_with 2 get2 data 2 in
  Got (mkNackField pid blp, 4)).
Definition NACKField_Serialize (size : Z) (f : NACKField) : bytes :=
  if size <? 4 then [] else put2 (nf_pid f) ++ put2 (nf_blp f).

Definition TMMBR_GetSize : Z := 8.
Definition TMMBR_Parse (data : bytes) : checked (TempMaxMediaStreamBitrateField * Z) :=
  refuse_if (Zlen data <? 8) (
  let? ssrc := rd_with 4 get4 data 0 in
  let? d4 := rd1 data 4 in
  let? d5 := rd1 data 5 in
  let? d6 := rd1 data 6 in
  let? d7 := rd1 data 7 in
  let mantissa := Z.land d4 0x03 in
  let mantissa := Z.lor (Z.shiftl mantissa 8) d5 in
  let mantissa := Z.lor (Z.shiftl mantissa 7) (Z.shiftr d6 1) in
  let overhead := Z.lor (Z.shiftl (Z.land d6 0x01) 8) d7 in
  Got (mkTmmbr ssrc (Z.shiftr d4 2) mantissa overhead, 8)).
Definition TMMBR_Serialize (size : Z) (f : TempMaxMediaStreamBitrateField) : bytes :=
  let e := tm_maxTotalBitrateExp f in
  let m := tm_maxTotalBitrateMantissa f in
  let o := tm_overhead f in
  if size <? 8 then []
  else
    put4 (tm_ssrc f)
    ++ [to_byte (Z.lor (Z.shiftl e 2) (Z.land (Z.shiftr m 15) 0x03)); to_byte (Z.shiftr m 7);
        to_byte (Z.lor (Z.shiftl m 1) (Z.land (Z.shiftr o 8) 0x01)); to_byte o].

Definition SLI_GetSize : Z := 4.
Definition SLI_Parse (data : bytes) : checked (SliceLossIndicationField * Z) :=
  refuse_if (Zlen data <? 4) (
  let? d0 := rd1 data 0 in
  let? d1 := rd1 data 1 in
  let? d2 := rd1 data 2 in
  let? d3 := rd1 data 3 in
  let first := to_word (Z.lor (Z.shiftl d0 5) (Z.shiftr d1 3)) in
  let number := Z.land d1 0x07 in
  let number := to_word (Z.lor (Z.shiftl number 8) d2) in
  let number := to_word (Z.lor (Z.shiftl number 2) (Z.shiftr d3 6)) in
  Got (mkSli first number (Z.land d3 0x3F), 4)).
Definition SLI_Serialize (size : Z) (f : SliceLossIndicationField) : bytes :=
  if size <? 4 then []
  else
    [to_byte (Z.shiftr (sl_first f) 5); to_byte (Z.lor (Z.shiftl (sl_first f) 3) (Z.shiftr (sl_number f) 10));
     to_byte (Z.shiftr (sl_number f) 2); to_byte (Z.lor (Z.shiftl (sl_number f) 6) (sl_pictureId f))].

Definition RPSI_GetSize (f : ReferencePictureSelectionField) : Z := 2 + Zlen (rs_payload f) + rs_padding f / 8.
Definition RPSI_Parse (data : bytes) : checked (ReferencePictureSelectionField * Z) :=
  let size := Zlen data in
  refuse_if (size <? 2) (
  let? padding := rd1 data 0 in
  let? d1 := rd1 data 1 in
  refuse_if (negb (padding mod 8 =? 0) || (size - 2 <? padding / 8)) (
  let? payload := rd_copy data 2 (size - 2 - padding / 8) in
  Got (mkRpsi padding (Z.land d1 0x7F) payload, size))).
Definition RPSI_Serialize (size : Z) (f : ReferencePictureSelectionField) : bytes :=
  if size <? RPSI_GetSize f then []
  else [rs_padding f; Z.land (rs_type f) 0x7F] ++ rs_payload f ++ replicate (Z.to_nat (rs_padding f / 8)) 0.

(** [Parse] reads the number at octet 5, [Serialize] writes it at octet 4. *)
Definition FIR_GetSize : Z := 8.
Definition FIR_Parse (data : bytes) : checked (FullIntraRequestField * Z) :=
  refuse_if (Zlen data <? 8) (
  let? ssrc := rd_with 4 get4 data 0 in
  let? seq := rd1 data 5 in
  Got (mkFirField ssrc seq, 8)).
Definition FIR_Serialize (size : Z) (f : FullIntraRequestField) : bytes :=
  if size <? 8 then [] else put4 (fi_ssrc f) ++ [fi_seq f; 0; 0; 0].

Definition TSTO_GetSize : Z := 8.
Definition TSTO_Parse (data : bytes) : checked (TemporalSpatialTradeOffField * Z) :=
  refuse_if (Zlen data <? 8) (
  let? ssrc := rd_with 4 get4 data 0 in
  let? seq := rd1 data 4 in
  let? index := rd1 data 7 in
  Got (mkTsto ssrc seq index, 8)).
Definition TSTO_Serialize (size : Z) (f : TemporalSpatialTradeOffField) : bytes :=
  if size <? 8 then [] else put4 (ts_ssrc f) ++ [ts_seq f; 0; 0; ts_index f].

Definition VBCM_GetSize (f : VideoBackChannelMessageField) : Z := 8 + Zlen (vb_payload f).
Definition VBCM_Parse (data : bytes) : checked (VideoBackChannelMessageField * Z) :=
  let size := Zlen data in
  refuse_if (size <? 8) (
  let? ssrc := rd_with 4 get4 data 0 in
  let? seq := rd1 data 4 in
  let? type := rd1 data 5 in
  let? length := rd_with 2 get2 data 6 in
  refuse_if (size <? 8 + pad32 length) (
  let? payload := rd_copy data 8 length in
  Got (mkVbcm ssrc seq type payload, 8 + pad32 length))).
Definition VBCM_Serialize (size : Z) (f : VideoBackChannelMessageField) : bytes :=
  let length := Zlen (vb_payload f) in
  if size <? 8 + pad32 length then []
  else
    put4 (vb_ssrc f) ++ [vb_seq f; Z.land (vb_type f) 0x7F] ++ put2 length ++ vb_payload f
    ++ replicate (Z.to_nat (pad32 length - length)) 0.

Definition ALF_GetSize (f : ApplicationLayerFeeedbackField) : Z := pad32 (Zlen (al_payload f)).
(** [length] is a [WORD]. *)
Definition ALF_Parse (data : bytes) : checked (ApplicationLayerFeeedbackField * Z) :=
  let size := Zlen data in
  refuse_if (negb (size =? pad32 size)) (
  let length := to_word size in
  let? payload := rd_copy data 0 length in
  Got (mkAlf payload, length)).
Definition ALF_Serialize (size : Z) (f : ApplicationLayerFeeedbackField) : bytes :=
  let length := Zlen (al_payload f) in
  if size <? pad32 length then []
  else al_payload f ++ replicate (Z.to_nat (pad32 length - length)) 0.

Definition CreateReceiverEstimatedMaxBitrate (ssrcs : list Z) (bitrate : Z) : ApplicationLayerFeeedbackField :=
  let bitrateExp := remb_exponent 32 0 bitrate in
  let bitrateMantissa := Z.shiftr bitrate bitrateExp in
  let num := if Zlen ssrcs <? 255 then Zlen ssrcs else 255 in
  mkAlf (octets "REMB"
    ++ [to_byte num; to_byte (Z.lor (Z.shiftl bitrateExp 2) (Z.land (Z.shiftr bitrateMantissa 16) 0x03));
        to_byte (Z.shiftr bitrateMantissa 8); to_byte bitrateMantissa]
    ++ mjoin (put4 <$> take (Z.to_nat num) ssrcs)).
End Codec.
