(* ===== verification/RtcpPacket.v ===== *)
(** * RTCP packets

    [RTCPPacket], its subclasses and [RTCPCompoundPacket] (src/mcu/include/rtp.h,
    src/mcu/src/rtp.cpp).  [Parse(data, size)] of a packet is a function of the [size] octets at
    [data] that returns the packet and the length it consumed; [Serialize(data, size)] is the list
    of the octets written, empty when the code returns 0.  Sizes are sums of the lengths of what the
    packet holds and are not wrapped to 32 bits. *)

From S2P Require Import Prelude Wire Octets RtpPacket TransportFeedback RtcpField.

(** ** Report blocks *)

(** [RTCPReport]: its 24 octets *)
Definition RTCPReport := bytes.

Section Reports.
Context {W : WireOps} {V : MoreWireOps}.
Definition rep_GetSSRC (r : RTCPReport) : Z := get4 r 0.
Definition rep_GetFactionLost (r : RTCPReport) : Z := get1 r 4.
Definition rep_GetLostCount (r : RTCPReport) : Z := get3 r 5.
Definition rep_GetLastSeqNum (r : RTCPReport) : Z := get4 r 8.
Definition rep_GetJitter (r : RTCPReport) : Z := get4 r 12.
Definition rep_GetLastSR (r : RTCPReport) : Z := get4 r 16.
Definition rep_GetDelaySinceLastSR (r : RTCPReport) : Z := get4 r 20.
Definition rep_SetSSRC (v : Z) (r : RTCPReport) : RTCPReport := set4 r 0 v.
Definition rep_SetFractionLost (v : Z) (r : RTCPReport) : RTCPReport := set1 r 4 v.
Definition rep_SetLostCount (v : Z) (r : RTCPReport) : RTCPReport := set3 r 5 v.
Definition rep_SetLastSeqNum (v : Z) (r : RTCPReport) : RTCPReport := set4 r 8 v.
Definition rep_SetLastJitter (v : Z) (r : RTCPReport) : RTCPReport := set4 r 12 v.
Definition rep_SetLastSR (v : Z) (r : RTCPReport) : RTCPReport := set4 r 16 v.
Definition rep_SetDelaySinceLastSR (v : Z) (r : RTCPReport) : RTCPReport := set4 r 20 v.
End Reports.

Definition Report_Serialize (size : Z) (r : RTCPReport) : bytes := if size <? 24 then [] else r.
Definition Report_Parse (data : bytes) : checked (RTCPReport * Z) :=
  if Zlen data <? 24 then Refuse else let? r := rd_copy data 0 24 in Got (r, 24).

(** ** The packets *)

Record SDESItem := mkItem { it_type : Z; it_data : bytes }.
Record SDESDescription := mkDesc { sd_ssrc : Z; sd_items : list SDESItem }.

Record SenderReport := mkSR {
  sr_ssrc : Z;
  sr_ntpSec : Z;
  sr_ntpFrac : Z;
  sr_rtpTimestamp : Z;
  sr_packetsSent : Z;
  sr_octectsSent : Z;
  sr_reports : list RTCPReport;
}.

(** [Fields] of an RTP feedback, all of the kind its type selects. *)
Inductive RTPFBField :=
  | FNack (f : NACKField)
  | FTmmbr (f : TempMaxMediaStreamBitrateField)
  | FTransport (f : TransportWideFeedbackField).

(** [Fields] of a payload feedback. *)
Inductive PSFBField :=
  | FSli (f : SliceLossIndicationField)
  | FRpsi (f : ReferencePictureSelectionField)
  | FFir (f : FullIntraRequestField)
  | FTsto (f : TemporalSpatialTradeOffField)
  | FVbcm (f : VideoBackChannelMessageField)
  | FAlf (f : ApplicationLayerFeeedbackField).

Inductive RTCPPacket :=
  | PFullIntraRequest (ssrc : Z)
  | PNACK (ssrc fsn blp : Z)
  | PExtendedJitterReport (jitters : list Z)
  | PSenderReport (r : SenderReport)
  | PReceiverReport (ssrc : Z) (reports : list RTCPReport)
  | PSDES (descriptions : list SDESDescription)
  | PBye (ssrcs : list Z) (reason : option bytes)      (** the octets before the final NUL *)
  | PApp (subtype ssrc : Z) (name data : bytes)
  | PRTPFeedback (feedbackType senderSSRC mediaSSRC : Z) (fields : list RTPFBField)
  | PPayloadFeedback (feedbackType senderSSRC mediaSSRC : Z) (fields : list PSFBField).

(** [RTCPPacket::Type] *)
Definition packet_type (p : RTCPPacket) : Z :=
  match p with
  | PFullIntraRequest _ => 192
  | PNACK _ _ _ => 193
  | PExtendedJitterReport _ => 195
  | PSenderReport _ => 200
  | PReceiverReport _ _ => 201
  | PSDES _ => 202
  | PBye _ _ => 203
  | PApp _ _ _ _ => 204
  | PRTPFeedback _ _ _ _ => 205
  | PPayloadFeedback _ _ _ _ => 206
  end.

Definition rtcp_common_size : Z := 4.

(** The common header: five bits of count, version 2, the type, the length in words less one. *)
Definition SetRTCPHeaderLength (size : Z) : bytes := htons (to_dword (size / 4 - 1)).
Definition rtcp_header (count pt size : Z) : bytes := [128 + count mod 32; pt] ++ SetRTCPHeaderLength size.

Definition hdr_count (data : bytes) : Z := Z.land (zget 0 data) 31.
Definition hdr_type (data : bytes) : Z := zget 1 data.
Definition GetRTCPHeaderLength (data : bytes) : Z := (ntohs_at data 2 + 1) * 4.

(** [( rtcp_common_t* ) data]: the header the code reads is the first four octets, which have to be
    there; the three accessors above are applied to what this returns. *)
Definition common_header (data : bytes) : checked bytes := rd_copy data 0 rtcp_common_size.

Section Codec.
Context {W : WireOps} {V : MoreWireOps}.

(** ** Sizes *)

Definition Item_GetSize (i : SDESItem) : Z := Zlen (it_data i).
Definition items_size (l : list SDESItem) : Z := foldr (λ i n, Item_GetSize i + 2 + n) 0 l.
Definition Description_GetSize (d : SDESDescription) : Z := pad32 (4 + items_size (sd_items d) + 1).

Definition RTPFBField_GetSize (f : RTPFBField) : Z :=
  match f with
  | FNack _ => NACKField_GetSize
  | FTmmbr _ => TMMBR_GetSize
  | FTransport f => twcc_GetSize f
  end.

Definition PSFBField_GetSize (f : PSFBField) : Z :=
  match f with
  | FSli _ => SLI_GetSize
  | FRpsi f => RPSI_GetSize f
  | FFir _ => FIR_GetSize
  | FTsto _ => TSTO_GetSize
  | FVbcm f => VBCM_GetSize f
  | FAlf f => ALF_GetSize f
  end.

Definition sum_sizes {A} (size : A → Z) (l : list A) : Z := foldr (λ a n, size a + n) 0 l.

Definition FullIntraRequest_GetSize : Z := rtcp_common_size + 4.
Definition NACK_GetSize : Z := rtcp_common_size + 8.
Definition ExtendedJitterReport_GetSize (jitters : list Z) : Z := rtcp_common_size + 4 * Zlen jitters.
Definition SenderReport_GetSize (r : SenderReport) : Z := rtcp_common_size + 24 + 24 * Zlen (sr_reports r).
Definition ReceiverReport_GetSize (reports : list RTCPReport) : Z := rtcp_common_size + 4 + 24 * Zlen reports.
Definition SDES_GetSize (descriptions : list SDESDescription) : Z :=
  rtcp_common_size + sum_sizes Description_GetSize descriptions.
Definition Bye_GetSize (ssrcs : list Z) (reason : option bytes) : Z :=
  rtcp_common_size + 4 * Zlen ssrcs + match reason with Some r => Zlen (c_string r) + 1 | None => 0 end.
Definition App_GetSize (data : bytes) : Z := rtcp_common_size + 8 + Zlen data.
Definition RTPFeedback_GetSize (fields : list RTPFBField) : Z :=
  8 + rtcp_common_size + sum_sizes RTPFBField_GetSize fields.
Definition PayloadFeedback_GetSize (fields : list PSFBField) : Z :=
  8 + rtcp_common_size + sum_sizes PSFBField_GetSize fields.

(** The virtual [GetSize]. *)
Definition Packet_GetSize (p : RTCPPacket) : Z :=
  match p with
  | PFullIntraRequest _ => FullIntraRequest_GetSize
  | PNACK _ _ _ => NACK_GetSize
  | PExtendedJitterReport jitters => ExtendedJitterReport_GetSize jitters
  | PSenderReport r => SenderReport_GetSize r
  | PReceiverReport _ reports => ReceiverReport_GetSize reports
  | PSDES descriptions => SDES_GetSize descriptions
  | PBye ssrcs reason => Bye_GetSize ssrcs reason
  | PApp _ _ _ data => App_GetSize data
  | PRTPFeedback _ _ _ fields => RTPFeedback_GetSize fields
  | PPayloadFeedback _ _ _ fields => PayloadFeedback_GetSize fields
  end.

(** ** Writing *)

(** [len += x->Serialize(data + len, size - len)] for each [x]. *)
Fixpoint serialize_all {A} (ser : Z → A → bytes) (size : Z) (l : list A) : bytes :=
  match l with
  | [] => []
  | a :: l => let w := ser size a in w ++ serialize_all ser (size - Zlen w) l
  end.

Definition item_octets (i : SDESItem) : bytes := [it_type i; Item_GetSize i] ++ it_data i.

Definition Description_Serialize (size : Z) (d : SDESDescription) : bytes :=
  if size <? Description_GetSize d then []
  else
    let w := put4 (sd_ssrc d) ++ mjoin (item_octets <$> sd_items d) ++ [0] in
    w ++ replicate (Z.to_nat (pad32 (Zlen w) - Zlen w)) 0.

Definition RTPFBField_Serialize (size : Z) (f : RTPFBField) : bytes :=
  match f with
  | FNack f => NACKField_Serialize size f
  | FTmmbr f => TMMBR_Serialize size f
  | FTransport f => twcc_Serialize size f
  end.

Definition PSFBField_Serialize (size : Z) (f : PSFBField) : bytes :=
  match f with
  | FSli f => SLI_Serialize size f
  | FRpsi f => RPSI_Serialize size f
  | FFir f => FIR_Serialize size f
  | FTsto f => TSTO_Serialize size f
  | FVbcm f => VBCM_Serialize size f
  | FAlf f => ALF_Serialize size f
  end.

(** [header->count]: as many reports are written as the five bits say. *)
Definition header_count (p : RTCPPacket) : Z :=
  match p with
  | PFullIntraRequest _ | PNACK _ _ _ => 0
  | PExtendedJitterReport jitters => Zlen jitters
  | PSenderReport r => Zlen (sr_reports r)
  | PReceiverReport _ reports => Zlen reports
  | PSDES descriptions => Zlen descriptions
  | PBye ssrcs _ => Zlen ssrcs
  | PApp subtype _ _ _ => subtype
  | PRTPFeedback feedbackType _ _ _ => feedbackType
  | PPayloadFeedback feedbackType _ _ _ => feedbackType
  end.

(** What each [Serialize] writes after the common header; [size] is the room left for it. *)
Definition FullIntraRequest_octets (ssrc : Z) : bytes := put4 ssrc.
Definition NACK_octets (ssrc fsn blp : Z) : bytes := put4 ssrc ++ put2 fsn ++ put2 blp.
Definition ExtendedJitterReport_octets (jitters : list Z) : bytes := mjoin (put4 <$> jitters).
Definition SenderReport_octets (size : Z) (r : SenderReport) : bytes :=
  put4 (sr_ssrc r) ++ put4 (sr_ntpSec r) ++ put4 (sr_ntpFrac r) ++ put4 (sr_rtpTimestamp r)
  ++ put4 (sr_packetsSent r) ++ put4 (sr_octectsSent r)
  ++ serialize_all Report_Serialize (size - 24) (take (Z.to_nat (Zlen (sr_reports r) mod 32)) (sr_reports r)).
Definition ReceiverReport_octets (size ssrc : Z) (reports : list RTCPReport) : bytes :=
  put4 ssrc ++ serialize_all Report_Serialize (size - 4) (take (Z.to_nat (Zlen reports mod 32)) reports).
Definition SDES_octets (size : Z) (descriptions : list SDESDescription) : bytes :=
  serialize_all Description_Serialize size descriptions.
Definition Bye_octets (ssrcs : list Z) (reason : option bytes) : bytes :=
  mjoin (put4 <$> ssrcs)
  ++ match reason with Some r => to_byte (Zlen (c_string r)) :: c_string r | None => [] end.
Definition App_octets (ssrc : Z) (name data : bytes) : bytes := put4 ssrc ++ name ++ data.
Definition RTPFeedback_octets (size senderSSRC mediaSSRC : Z) (fields : list RTPFBField) : bytes :=
  put4 senderSSRC ++ put4 mediaSSRC ++ serialize_all RTPFBField_Serialize (size - 8) fields.
Definition PayloadFeedback_octets (size senderSSRC mediaSSRC : Z) (fields : list PSFBField) : bytes :=
  put4 senderSSRC ++ put4 mediaSSRC ++ serialize_all PSFBField_Serialize (size - 8) fields.

Definition body_octets (size : Z) (p : RTCPPacket) : bytes :=
  match p with
  | PFullIntraRequest ssrc => FullIntraRequest_octets ssrc
  | PNACK ssrc fsn blp => NACK_octets ssrc fsn blp
  | PExtendedJitterReport jitters => ExtendedJitterReport_octets jitters
  | PSenderReport r => SenderReport_octets size r
  | PReceiverReport ssrc reports => ReceiverReport_octets size ssrc reports
  | PSDES descriptions => SDES_octets size descriptions
  | PBye ssrcs reason => Bye_octets ssrcs reason
  | PApp _ ssrc name data => App_octets ssrc name data
  | PRTPFeedback _ senderSSRC mediaSSRC fields => RTPFeedback_octets size senderSSRC mediaSSRC fields
  | PPayloadFeedback _ senderSSRC mediaSSRC fields => PayloadFeedback_octets size senderSSRC mediaSSRC fields
  end.

(** The virtual [Serialize]: the check of the room and the common header are the same in all classes. *)
Definition Packet_Serialize (size : Z) (p : RTCPPacket) : bytes :=
  let packetSize := Packet_GetSize p in
  if size <? packetSize then []
  else rtcp_header (header_count p) (packet_type p) packetSize ++ body_octets (size - rtcp_common_size) p.

(** ** Reading *)

(** The guards every [Parse] starts with: [need] octets of body at least. *)
Definition with_header {A} (need : Z) (data : bytes) (k : Z → Z → checked A) : checked A :=
  refuse_if (Zlen data <? rtcp_common_size) (
  let? header := common_header data in
  let packetSize := GetRTCPHeaderLength header in
  refuse_if (Zlen data <? packetSize) (
  refuse_if (packetSize <? rtcp_common_size + need) (
  k packetSize (hdr_count header)))).

(** [for (i = 0; i < count && packetSize >= len + 24; i++)]; a report block never refuses here. *)
Fixpoint parse_reports (count : nat) (data : bytes) (packetSize len : Z) : checked (list RTCPReport * Z) :=
  match count with
  | O => Got ([], len)
  | S count =>
      if packetSize <? len + 24 then Got ([], len)
      else
        let? rest := rd_copy data len (Zlen data - len) in
        let? r := Report_Parse rest in
        let? rest := parse_reports count data packetSize (len + r.2) in
        Got (r.1 :: rest.1, rest.2)
  end.

(** [for (i = 0; i < count && len + 4 <= packetSize; i++)] *)
Fixpoint parse_words (count : nat) (data : bytes) (packetSize len : Z) : checked (list Z * Z) :=
  match count with
  | O => Got ([], len)
  | S count =>
      if packetSize <? len + 4 then Got ([], len)
      else
        let? w := rd_with 4 get4 data len in
        let? rest := parse_words count data packetSize (len + 4) in
        Got (w :: rest.1, rest.2)
  end.

Fixpoint parse_items (fuel : nat) (data : bytes) (len : Z) : checked (list SDESItem * Z) :=
  if Zlen data <=? len + 2 then Got ([], len)
  else
    let? type := rd1 data len in
    if type =? 0 then Got ([], len)
    else
      match fuel with
      | O => Fault
      | S fuel =>
          let? length := rd1 data (len + 1) in
          refuse_if (Zlen data <? len + 2 + length) (
          let? contents := rd_copy data (len + 2) length in
          let? rest := parse_items fuel data (len + length + 2) in
          Got (mkItem type contents :: rest.1, rest.2))
      end.

Definition Description_Parse (data : bytes) : checked (SDESDescription * Z) :=
  refuse_if (Zlen data <? 4) (
  let? ssrc := rd_with 4 get4 data 0 in
  let? r := parse_items (length data) data 4 in
  Got (mkDesc ssrc r.1, pad32 (r.2 + 1))).

(** [while (packetSize > len && i < count)] *)
Fixpoint parse_descriptions (count : nat) (data : bytes) (packetSize len : Z)
  : checked (list SDESDescription * Z) :=
  match count with
  | O => Got ([], len)
  | S count =>
      if packetSize <=? len then Got ([], len)
      else
        let? slice := rd_copy data len (packetSize - len) in
        let? d := Description_Parse slice in
        refuse_if (d.2 =? 0) (
        let? rest := parse_descriptions count data packetSize (len + d.2) in
        Got (d.1 :: rest.1, rest.2))
  end.

Definition with_fst {A B} (f : A → B) (m : checked (A * Z)) : checked (B * Z) :=
  let? r := m in Got (f r.1, r.2).

(** The [switch] on the type of the feedback. *)
Definition RTPFBField_Parse (feedbackType : Z) (data : bytes) : checked (RTPFBField * Z) :=
  if feedbackType =? 1 then with_fst FNack (NACKField_Parse data)
  else if (feedbackType =? 3) || (feedbackType =? 4) then with_fst FTmmbr (TMMBR_Parse data)
  else if feedbackType =? 15 then with_fst FTransport (twcc_Parse data)
  else Refuse.

Definition PSFBField_Parse (feedbackType : Z) (data : bytes) : checked (PSFBField * Z) :=
  if feedbackType =? 1 then Refuse
  else if feedbackType =? 2 then with_fst FSli (SLI_Parse data)
  else if feedbackType =? 3 then with_fst FRpsi (RPSI_Parse data)
  else if feedbackType =? 4 then with_fst FFir (FIR_Parse data)
  else if (feedbackType =? 5) || (feedbackType =? 6) then with_fst FTsto (TSTO_Parse data)
  else if feedbackType =? 7 then with_fst FVbcm (VBCM_Parse data)
  else if feedbackType =? 15 then with_fst FAlf (ALF_Parse data)
  else Refuse.

(** [while (len < packetSize)] *)
Fixpoint parse_fields {A} (parse : bytes → checked (A * Z)) (fuel : nat) (data : bytes) (packetSize len : Z)
  : checked (list A * Z) :=
  if packetSize <=? len then Got ([], len)
  else
    match fuel with
    | O => Fault
    | S fuel =>
        let? slice := rd_copy data len (packetSize - len) in
        let? f := parse slice in
        refuse_if (f.2 =? 0) (
        let? rest := parse_fields parse fuel data packetSize (len + f.2) in
        Got (f.1 :: rest.1, rest.2))
    end.

Definition SenderReport_Parse (data : bytes) : checked (RTCPPacket * Z) :=
  with_header 24 data (λ packetSize count,
  let? ssrc := rd_with 4 get4 data 4 in
  let? ntpSec := rd_with 4 get4 data 8 in
  let? ntpFrac := rd_with 4 get4 data 12 in
  let? rtpTimestamp := rd_with 4 get4 data 16 in
  let? packetsSent := rd_with 4 get4 data 20 in
  let? octectsSent := rd_with 4 get4 data 24 in
  let? r := parse_reports (Z.to_nat count) data packetSize 28 in
  Got (PSenderReport (mkSR ssrc ntpSec ntpFrac rtpTimestamp packetsSent octectsSent r.1), r.2)).

Definition ReceiverReport_Parse (data : bytes) : checked (RTCPPacket * Z) :=
  with_header 4 data (λ packetSize count,
  let? ssrc := rd_with 4 get4 data 4 in
  let? r := parse_reports (Z.to_nat count) data packetSize 8 in
  Got (PReceiverReport ssrc r.1, r.2)).

Definition Bye_Parse (data : bytes) : checked (RTCPPacket * Z) :=
  with_header 0 data (λ packetSize count,
  let? r := parse_words (Z.to_nat count) data packetSize 4 in
  let len := r.2 in
  if len <? packetSize then
    let? n := rd1 data len in
    let available := packetSize - len - 1 in
    let n := if available <? n then available else n in
    let? reason := rd_copy data (len + 1) n in
    Got (PBye r.1 (Some reason), len + n + 1)
  else Got (PBye r.1 None, len)).

Definition ExtendedJitterReport_Parse (data : bytes) : checked (RTCPPacket * Z) :=
  with_header 0 data (λ packetSize count,
  let? r := parse_words (Z.to_nat count) data packetSize 4 in
  Got (PExtendedJitterReport r.1, r.2)).

Definition App_Parse (data : bytes) : checked (RTCPPacket * Z) :=
  with_header 8 data (λ packetSize count,
  let? ssrc := rd_with 4 get4 data 4 in
  let? name := rd_copy data 8 4 in
  let? contents := rd_copy data 12 (packetSize - 12) in
  Got (PApp count ssrc name contents, packetSize)).

Definition FullIntraRequest_Parse (data : bytes) : checked (RTCPPacket * Z) :=
  with_header 4 data (λ _ _,
  let? ssrc := rd_with 4 get4 data 4 in
  Got (PFullIntraRequest ssrc, 8)).

Definition NACK_Parse (data : bytes) : checked (RTCPPacket * Z) :=
  with_header 8 data (λ _ _,
  let? ssrc := rd_with 4 get4 data 4 in
  let? fsn := rd_with 2 get2 data 8 in
  let? blp := rd_with 2 get2 data 10 in
  Got (PNACK ssrc fsn blp, 12)).

Definition SDES_Parse (data : bytes) : checked (RTCPPacket * Z) :=
  with_header 0 data (λ packetSize count,
  let? r := parse_descriptions (Z.to_nat count) data packetSize 4 in
  Got (PSDES r.1, r.2)).

Definition RTPFeedback_Parse (data : bytes) : checked (RTCPPacket * Z) :=
  with_header 8 data (λ packetSize feedbackType,
  let? senderSSRC := rd_with 4 get4 data 4 in
  let? mediaSSRC := rd_with 4 get4 data 8 in
  let? r := parse_fields (RTPFBField_Parse feedbackType) (length data) data packetSize 12 in
  Got (PRTPFeedback feedbackType senderSSRC mediaSSRC r.1, r.2)).

Definition PayloadFeedback_Parse (data : bytes) : checked (RTCPPacket * Z) :=
  with_header 8 data (λ packetSize feedbackType,
  let? senderSSRC := rd_with 4 get4 data 4 in
  let? mediaSSRC := rd_with 4 get4 data 8 in
  let? r := parse_fields (PSFBField_Parse feedbackType) (length data) data packetSize 12 in
  Got (PPayloadFeedback feedbackType senderSSRC mediaSSRC r.1, r.2)).

(** The [switch] of [RTCPCompoundPacket::Parse]; [None]: an unknown type. *)
Definition parser_of (type : Z) : option (bytes → checked (RTCPPacket * Z)) :=
  if type =? 200 then Some SenderReport_Parse
  else if type =? 201 then Some ReceiverReport_Parse
  else if type =? 202 then Some SDES_Parse
  else if type =? 203 then Some Bye_Parse
  else if type =? 204 then Some App_Parse
  else if type =? 205 then Some RTPFeedback_Parse
  else if type =? 206 then Some PayloadFeedback_Parse
  else if type =? 192 then Some FullIntraRequest_Parse
  else if type =? 193 then Some NACK_Parse
  else if type =? 195 then Some ExtendedJitterReport_Parse
  else None.

(** ** Compound packets *)

Definition RTCPCompoundPacket := list RTCPPacket.

Definition IsRTCP (data : bytes) : checked bool :=
  if Zlen data <? rtcp_common_size then Got false
  else
    let? header := common_header data in
    Got ((hdr_version header =? 2) && (200 <=? hdr_type header) && (hdr_type header <=? 206)).

Definition Compound_GetSize (c : RTCPCompoundPacket) : Z := sum_sizes Packet_GetSize c.

Definition Compound_Serialize (size : Z) (c : RTCPCompoundPacket) : bytes :=
  if size <? Compound_GetSize c then [] else serialize_all Packet_Serialize size c.

Fixpoint compound_loop (fuel : nat) (buffer : bytes) : checked RTCPCompoundPacket :=
  if Zlen buffer =? 0 then Got []
  else
    match fuel with
    | O => Fault
    | S fuel =>
        refuse_if (Zlen buffer <? rtcp_common_size) (
        let? header := common_header buffer in
        let len := GetRTCPHeaderLength header in
        refuse_if (Zlen buffer <? len) (
        match parser_of (hdr_type header) with
        | None => compound_loop fuel (zdrop len buffer)
        | Some parse =>
            match (let? slice := rd_copy buffer 0 len in parse slice) with
            | Fault => Fault
            | Refuse => compound_loop fuel (zdrop len buffer)
            | Got (p, parsed) =>
                let? c := compound_loop fuel (zdrop len buffer) in
                Got (if parsed =? 0 then c else p :: c)
            end
        end))
    end.

Definition Compound_Parse (data : bytes) : checked RTCPCompoundPacket :=
  let? rtcp := IsRTCP data in
  refuse_if (negb rtcp) (compound_loop (length data) data).

(** The bitrate of a REMB, the way [RTPSession::ProcessRTCPPacket] reads it. *)
Definition read_remb (payload : bytes) : option Z :=
  if (8 <? Zlen payload) && bool_decide (take 4 payload = octets "REMB") then
    let exp := Z.shiftr (zget 5 payload) 2 in
    let mantisa := Z.land (zget 5 payload) 0x03 in
    let mantisa := Z.lor (Z.shiftl mantisa 8) (zget 6 payload) in
    let mantisa := Z.lor (Z.shiftl mantisa 8) (zget 7 payload) in
    Some (to_dword (Z.shiftl mantisa exp))
  else None.
End Codec.

Arguments FullIntraRequest_GetSize /.
Arguments NACK_GetSize /.
Arguments ExtendedJitterReport_GetSize _ /.
Arguments SenderReport_GetSize _ /.
Arguments ReceiverReport_GetSize _ /.
Arguments SDES_GetSize {V} _ /.
Arguments Bye_GetSize _ _ /.
Arguments App_GetSize _ /.
Arguments RTPFeedback_GetSize _ /.
Arguments PayloadFeedback_GetSize {V} _ /.
Arguments FullIntraRequest_octets {W} _ /.
Arguments NACK_octets {W} _ _ _ /.
Arguments ExtendedJitterReport_octets {W} _ /.
Arguments SenderReport_octets {W} _ _ /.
Arguments ReceiverReport_octets {W} _ _ _ /.
Arguments SDES_octets {W V} _ _ /.
Arguments Bye_octets {W} _ _ /.
Arguments App_octets {W} _ _ _ /.
Arguments RTPFeedback_octets {W V} _ _ _ _ /.
Arguments PayloadFeedback_octets {W V} _ _ _ _ /.
