(* ===== verification/RtcpProps.v ===== *)
(** * RTCP packets: the parsers stay inside

    Whatever the octets received, every [Parse] reads inside them and ends. *)

From S2P Require Import Prelude Wire Octets RtpPacket TransportFeedback TransportFeedbackClaims RtcpField RtcpPacket.

(** ** Computations that do not fault *)

Definition stays {A} (post : A → Prop) (m : checked A) : Prop :=
  match m with Fault => False | Refuse => True | Got a => post a end.

Lemma stays_bind {A B} (P : A → Prop) (Q : B → Prop) m k :
  stays P m → (∀ a, P a → stays Q (k a)) → stays Q (let? x := m in k x).
Proof. destruct m; simpl; auto. Qed.

Lemma stays_got {A} (P : A → Prop) a : P a → stays P (Got a).
Proof. done. Qed.

Lemma stays_refuse_if {A} (P : A → Prop) b k : (b = false → stays P k) → stays P (refuse_if b k).
Proof. destruct b; simpl; auto. Qed.

Lemma stays_impl {A} (P Q : A → Prop) m : stays P m → (∀ a, P a → Q a) → stays Q m.
Proof. destruct m; simpl; auto. Qed.

Lemma stays_rd1 data i : bytes_ok data → 0 <= i < Zlen data → stays is_byte (rd1 data i).
Proof. intros Hb Hi. rewrite rd1_in by done. by apply bytes_ok_zget. Qed.

Lemma stays_rd_copy data i n :
  bytes_ok data → 0 <= i → 0 <= n → i + n <= Zlen data →
  stays (λ s, bytes_ok s ∧ Zlen s = n) (rd_copy data i n).
Proof.
  intros Hb Hi Hn Hl. rewrite rd_copy_in by lia. simpl. split.
  - unfold ztake, zdrop, bytes_ok. by apply Forall_take, Forall_drop.
  - rewrite Zlen_ztake; [lia|]. rewrite Zlen_zdrop by lia. lia.
Qed.

Section Safety.
Context {W : WireOps} {V : MoreWireOps} {HW : WireLaws W} {HV : MoreWireLaws W V}.

Lemma stays_rd2 data i : bytes_ok data → 0 <= i → i + 2 <= Zlen data → stays is_word (rd_with 2 get2 data i).
Proof. intros Hb Hi Hn. rewrite rd_with_in by done. simpl. by apply get2_range. Qed.

Lemma stays_rd4 data i : bytes_ok data → 0 <= i → i + 4 <= Zlen data → stays (λ _, True) (rd_with 4 get4 data i).
Proof. intros Hb Hi Hn. by rewrite rd_with_in by done. Qed.

(** One step of a parser: a guard, a read, or the result. *)
Ltac stay1 :=
  match goal with
  | |- stays _ (refuse_if _ _) => apply stays_refuse_if; intros ?; ztests
  | |- stays _ (cbind (rd1 _ _) _) => eapply stays_bind; [apply stays_rd1; [assumption|lia]|intros ? ?]
  | |- stays _ (cbind (rd_with 2 get2 _ _) _) =>
      eapply stays_bind; [apply stays_rd2; [assumption|lia|lia]|intros ? ?]
  | |- stays _ (cbind (rd_with 4 get4 _ _) _) =>
      eapply stays_bind; [apply stays_rd4; [assumption|lia|lia]|intros ? _]
  | |- stays _ (cbind (rd_copy _ _ _) _) =>
      eapply stays_bind; [apply stays_rd_copy; [assumption|lia|lia|lia]|intros ? [? ?]]
  | |- stays _ (Got _) => apply stays_got; simpl; try lia
  | |- stays _ Refuse => exact I
  end.
Ltac stay := repeat stay1.

(** A field takes between one octet and all of them... or more, when it is padded. *)
Definition progress {A} (r : A * Z) : Prop := 0 <= r.2.

Lemma NACKField_stays data : bytes_ok data → stays progress (NACKField_Parse data).
Proof. intros. unfold NACKField_Parse, progress. stay. Qed.

Lemma TMMBR_stays data : bytes_ok data → stays progress (TMMBR_Parse data).
Proof. intros. unfold TMMBR_Parse, progress. stay. Qed.

Lemma SLI_stays data : bytes_ok data → stays progress (SLI_Parse data).
Proof. intros. unfold SLI_Parse, progress. stay. Qed.

Lemma RPSI_stays data : bytes_ok data → stays progress (RPSI_Parse data).
Proof.
  intros. unfold RPSI_Parse, progress. pose proof (Zlen_nonneg data). do 3 stay1. unfold is_byte in *.
  apply stays_refuse_if. intros Ho. ztests.
  assert (0 <= a / 8) by (apply Z.div_pos; lia). stay.
Qed.

Lemma FIR_stays data : bytes_ok data → stays progress (FIR_Parse data).
Proof. intros. unfold FIR_Parse, progress. stay. Qed.

Lemma TSTO_stays data : bytes_ok data → stays progress (TSTO_Parse data).
Proof. intros. unfold TSTO_Parse, progress. stay. Qed.

Lemma pad32_le n : 0 <= n < 2 ^ 31 → n <= pad32 n < n + 4.
Proof. intros. rewrite pad32_spec by done. Z.div_mod_to_equations. lia. Qed.

Lemma VBCM_stays data : bytes_ok data → stays progress (VBCM_Parse data).
Proof.
  intros. unfold VBCM_Parse, progress. do 5 stay1. unfold is_word in *. pose proof (pad32_le a2 ltac:(lia)). stay.
Qed.

Lemma ALF_stays data : bytes_ok data → stays progress (ALF_Parse data).
Proof.
  intros. unfold ALF_Parse, progress. pose proof (Zlen_nonneg data). stay1.
  pose proof (to_word_range (Zlen data)) as Hr. unfold is_word in Hr.
  assert (to_word (Zlen data) <= Zlen data) by (apply Z.mod_le; lia). stay.
Qed.

Lemma twcc_stays data : stays progress (twcc_Parse data).
Proof. pose proof (twcc_Parse_safe data). destruct (twcc_Parse data) as [| |[f n]]; simpl; [done..|]. unfold progress. simpl. lia. Qed.

Lemma with_fst_stays {A B} (f : A → B) m : stays progress m → stays progress (with_fst f m).
Proof. destruct m; done. Qed.

Lemma RTPFBField_stays t data : bytes_ok data → stays progress (RTPFBField_Parse t data).
Proof.
  intros Hb. unfold RTPFBField_Parse. repeat case_match; try exact I; apply with_fst_stays.
  - by apply NACKField_stays.
  - by apply TMMBR_stays.
  - apply twcc_stays.
Qed.

Lemma PSFBField_stays t data : bytes_ok data → stays progress (PSFBField_Parse t data).
Proof.
  intros Hb. unfold PSFBField_Parse. repeat case_match; try exact I; apply with_fst_stays.
  - by apply SLI_stays.
  - by apply RPSI_stays.
  - by apply FIR_stays.
  - by apply TSTO_stays.
  - by apply VBCM_stays.
  - by apply ALF_stays.
Qed.

(** ** Packets *)

Lemma header_length_range data : bytes_ok data → 4 <= GetRTCPHeaderLength data <= 2 ^ 18.
Proof.
  intros Hb. unfold GetRTCPHeaderLength, ntohs_at. pose proof (be_get_range 2 data 2 Hb) as H.
  change (256 ^ Z.of_nat 2) with (2 ^ 16) in H. lia.
Qed.

(** The four octets of the header, when they are there. *)
Lemma common_header_in data :
  rtcp_common_size <= Zlen data →
  ∃ header, common_header data = Got header ∧ GetRTCPHeaderLength header = GetRTCPHeaderLength data
    ∧ hdr_type header = hdr_type data ∧ hdr_count header = hdr_count data ∧ hdr_version header = hdr_version data.
Proof.
  unfold rtcp_common_size. intros H4. exists (ztake 4 data). split; [by apply rd_copy_in|].
  assert (Zlen (ztake 4 data) = 4) as Hl by (rewrite Zlen_ztake; lia).
  unfold GetRTCPHeaderLength, ntohs_at, hdr_type, hdr_count, hdr_version.
  rewrite <- (ztake_zdrop 4 data) at 2 4 6 8. rewrite be_get_app, !zget_app_l by lia. done.
Qed.

Lemma with_header_stays {A} (P : A → Prop) need data k :
  (∀ packetSize count, rtcp_common_size + need <= packetSize <= Zlen data → stays P (k packetSize count)) →
  stays P (with_header need data k).
Proof.
  intros Hk. unfold with_header. apply stays_refuse_if; intros ?; ztests.
  destruct (common_header_in data) as (header & -> & El & _); [lia|].
  cbn [cbind]. rewrite El.
  do 2 (apply stays_refuse_if; intros ?; ztests). apply Hk. lia.
Qed.

Lemma parse_reports_stays data packetSize count : ∀ len,
  bytes_ok data → packetSize <= Zlen data → 0 <= len →
  stays progress (parse_reports count data packetSize len).
Proof.
  induction count as [|count IH]; intros len Hb Hp Hl; cbn [parse_reports]; [by apply stays_got|].
  destruct (packetSize <? len + 24) eqn:Hs; [by apply stays_got|]. ztests. stay1.
  eapply (stays_bind (λ r, r.2 = 24)).
  { unfold Report_Parse. rewrite (proj2 (Z.ltb_ge _ _)) by lia. stay. }
  intros r Hr. eapply stays_bind; [apply IH; [done|done|lia]|]. intros rest Hrest. by apply stays_got.
Qed.

Lemma parse_words_stays data packetSize count : ∀ len,
  bytes_ok data → packetSize <= Zlen data → 0 <= len <= packetSize →
  stays (λ r, len <= r.2 <= packetSize) (parse_words count data packetSize len).
Proof.
  induction count as [|count IH]; intros len Hb Hp Hl; cbn [parse_words]; [stay|].
  destruct (packetSize <? len + 4) eqn:Hs; [stay|]. ztests. stay1.
  eapply stays_bind; [apply (IH (len + 4)); [done|done|lia]|]. intros rest Hrest. simpl in Hrest. stay.
Qed.

Lemma parse_items_stays data fuel : ∀ len,
  bytes_ok data → 0 <= len → Zlen data - len <= Z.of_nat fuel + 2 →
  stays (λ r, len <= r.2 ∧ (r.2 = len ∨ r.2 <= Zlen data)) (parse_items fuel data len).
Proof.
  induction fuel as [|fuel IH]; intros len Hb Hl Hf; cbn [parse_items].
  { rewrite (proj2 (Z.leb_le _ _)) by lia. stay. }
  destruct (Zlen data <=? len + 2) eqn:Hs; [stay|]. ztests. stay1. destruct (_ =? 0); [stay|].
  stay1. unfold is_byte in *. do 2 stay1.
  eapply stays_bind; [apply (IH (len + a0 + 2)); [done|lia|lia]|]. intros rest Hrest. simpl in Hrest. stay.
Qed.

Lemma Description_stays data :
  bytes_ok data → Zlen data < 2 ^ 30 → stays progress (Description_Parse data).
Proof.
  intros Hb Hn. unfold Description_Parse. do 2 stay1.
  eapply stays_bind; [apply parse_items_stays; [done|lia|unfold Zlen; lia]|]. intros r Hr. simpl in Hr.
  apply stays_got. unfold progress. simpl. pose proof (pad32_le (r.2 + 1) ltac:(lia)). lia.
Qed.

Lemma parse_descriptions_stays data packetSize count : ∀ len,
  bytes_ok data → packetSize <= Zlen data → Zlen data < 2 ^ 30 → 0 <= len →
  stays progress (parse_descriptions count data packetSize len).
Proof.
  induction count as [|count IH]; intros len Hb Hp Hn Hl; cbn [parse_descriptions]; [by apply stays_got|].
  destruct (packetSize <=? len) eqn:Hs; [by apply stays_got|]. ztests. stay1.
  eapply stays_bind; [apply Description_stays; [done|lia]|]. intros d Hd. unfold progress in Hd. stay1.
  eapply stays_bind; [apply IH; [done|done|done|lia]|]. intros rest Hrest. by apply stays_got.
Qed.

Lemma parse_fields_stays {A} (parse : bytes → checked (A * Z)) data packetSize fuel :
  (∀ slice, bytes_ok slice → stays progress (parse slice)) → ∀ len,
  bytes_ok data → packetSize <= Zlen data → 0 <= len → packetSize - len <= Z.of_nat fuel →
  stays progress (parse_fields parse fuel data packetSize len).
Proof.
  intros Hparse. induction fuel as [|fuel IH]; intros len Hb Hp Hl Hf; cbn [parse_fields].
  { rewrite (proj2 (Z.leb_le _ _)) by lia. by apply stays_got. }
  destruct (packetSize <=? len) eqn:Hs; [by apply stays_got|]. ztests. stay1.
  eapply stays_bind; [by apply Hparse|]. intros f Hd. unfold progress in Hd. stay1.
  eapply stays_bind; [apply IH; [done|done|lia|lia]|]. intros rest Hrest. by apply stays_got.
Qed.

Lemma parser_stays type parse data :
  parser_of type = Some parse → bytes_ok data → Zlen data < 2 ^ 30 → stays (λ _, True) (parse data).
Proof.
  intros Hp Hb Hn. unfold parser_of in Hp.
  assert (∀ P : RTCPPacket * Z → Prop, stays P (parse data) → stays (λ _, True) (parse data)) as Hw
    by (intros P HP; by eapply stays_impl).
  repeat case_match; simplify_eq; apply with_header_stays; intros packetSize count [Hc Hs];
    unfold rtcp_common_size in Hc.
  - do 6 stay1. eapply stays_bind; [apply parse_reports_stays; [done|lia|lia]|]. intros r _. exact I.
  - stay1. eapply stays_bind; [apply parse_reports_stays; [done|lia|lia]|]. intros r _. exact I.
  - eapply stays_bind; [apply parse_descriptions_stays; [done|lia|lia|lia]|]. intros r _. exact I.
  - eapply stays_bind; [apply parse_words_stays; [done|lia|lia]|]. intros r Hr. simpl in Hr.
    destruct (r.2 <? packetSize) eqn:Hlt; [|exact I]. ztests. stay1. unfold is_byte in *.
    destruct (packetSize - r.2 - 1 <? a) eqn:Ha; ztests; stay1; exact I.
  - do 3 stay1. exact I.
  - do 2 stay1. eapply stays_bind;
      [apply parse_fields_stays; [intros; by apply RTPFBField_stays|done|lia|lia|unfold Zlen in *; lia]|].
    intros r _. exact I.
  - do 2 stay1. eapply stays_bind;
      [apply parse_fields_stays; [intros; by apply PSFBField_stays|done|lia|lia|unfold Zlen in *; lia]|].
    intros r _. exact I.
  - stay1. exact I.
  - do 3 stay1. exact I.
  - eapply stays_bind; [apply parse_words_stays; [done|lia|lia]|]. intros r _. exact I.
Qed.

(** ** Compound packets *)

(** The test of the first header: an answer on any octets. *)
Lemma IsRTCP_answers data :
  IsRTCP data = Got (bool_decide (rtcp_common_size <= Zlen data ∧ hdr_version data = 2 ∧ 200 <= hdr_type data <= 206)).
Proof.
  unfold IsRTCP. destruct (Z.ltb_spec (Zlen data) rtcp_common_size) as [Hlt|H4].
  { rewrite bool_decide_eq_false_2; [done|lia]. }
  destruct (common_header_in data H4) as (header & -> & _ & Et & _ & Ev). cbn [cbind]. rewrite Et, Ev. f_equal.
  apply eq_bool_prop_intro. rewrite bool_decide_spec, !Is_true_true, !andb_true_iff, !Z.leb_le, Z.eqb_eq. lia.
Qed.

(** A packet of its own: its header announces its octets. *)
Definition framed (chunk : bytes) : Prop := 4 <= Zlen chunk ∧ GetRTCPHeaderLength chunk = Zlen chunk.

(** What the code keeps of one of them. *)
Definition read_packet (chunk : bytes) : option RTCPPacket :=
  match parser_of (hdr_type chunk) with
  | None => None
  | Some parse =>
      match parse chunk with
      | Got (p, parsed) => if parsed =? 0 then None else Some p
      | _ => None
      end
  end.

Lemma zget_prefix i chunk rest : 0 <= i < Zlen chunk → zget i (chunk ++ rest) = zget i chunk.
Proof. apply zget_app_l. Qed.

Lemma framed_prefix chunk rest :
  framed chunk →
  GetRTCPHeaderLength (chunk ++ rest) = Zlen chunk ∧ hdr_type (chunk ++ rest) = hdr_type chunk.
Proof.
  intros [H4 Hf]. unfold GetRTCPHeaderLength, ntohs_at, hdr_type in *.
  rewrite be_get_app, zget_prefix by lia. done.
Qed.

Lemma framed_split buffer :
  bytes_ok buffer → 4 <= Zlen buffer → GetRTCPHeaderLength buffer <= Zlen buffer →
  framed (ztake (GetRTCPHeaderLength buffer) buffer).
Proof.
  intros Hb H4 Hl. pose proof (header_length_range buffer Hb) as Hr.
  set (n := GetRTCPHeaderLength buffer) in *.
  assert (Zlen (ztake n buffer) = n) as Hn by (rewrite Zlen_ztake; lia). split; [lia|]. rewrite Hn.
  unfold n at 2, GetRTCPHeaderLength, ntohs_at. rewrite <- (ztake_zdrop n buffer) at 2.
  by rewrite be_get_app by (rewrite ?Hn; lia).
Qed.

(** Its parser, if it has one, stays inside. *)
Definition harmless (chunk : bytes) : Prop :=
  ∀ parse, parser_of (hdr_type chunk) = Some parse → stays (λ _, True) (parse chunk).

(** The loop reads the packets the octets are made of. *)
Lemma compound_loop_splits fuel chunks :
  Forall framed chunks → Forall harmless chunks → (length (mjoin chunks) <= fuel)%nat →
  compound_loop fuel (mjoin chunks) = Got (omap read_packet chunks).
Proof.
  intros Hf. revert fuel. induction Hf as [|chunk chunks Hc Hf IH]; intros fuel Hh Hl.
  { destruct fuel; done. }
  apply Forall_cons in Hh as [Hs Hh].
  change (mjoin (chunk :: chunks)) with (chunk ++ mjoin chunks) in *.
  pose proof Hc as [H4 _]. pose proof (Zlen_nonneg (mjoin chunks)).
  destruct fuel as [|fuel]; [rewrite length_app in Hl; unfold Zlen in H4; lia|]. cbn [compound_loop].
  rewrite (proj2 (Z.eqb_neq _ _)) by (rewrite Zlen_app; lia).
  destruct (framed_prefix chunk (mjoin chunks) Hc) as [El Et]. unfold refuse_if.
  rewrite (proj2 (Z.ltb_ge _ _)) by (rewrite Zlen_app; unfold rtcp_common_size; lia).
  destruct (common_header_in (chunk ++ mjoin chunks)) as (header & -> & Eh & Eh' & _);
    [rewrite Zlen_app; unfold rtcp_common_size; lia|]. cbn [cbind]. rewrite Eh, Eh', El, Et.
  rewrite (proj2 (Z.ltb_ge _ _)) by (rewrite Zlen_app; lia).
  rewrite zdrop_app by done. rewrite IH by (done || (rewrite length_app in Hl; unfold Zlen in *; lia)).
  rewrite <- (app_nil_l (chunk ++ _)), rd_copy_at by done. cbn [cbind].
  change (omap read_packet (chunk :: chunks)) with
    (match read_packet chunk with Some p => p :: omap read_packet chunks | None => omap read_packet chunks end).
  generalize (omap read_packet chunks). intros kept. unfold read_packet.
  destruct (parser_of (hdr_type chunk)) as [parse|] eqn:Hp; [|done]. specialize (Hs parse Hp).
  destruct (parse chunk) as [| |[p parsed]]; [done|done|]. cbn [cbind]. by destruct (parsed =? 0).
Qed.

Lemma bytes_harmless chunks :
  bytes_ok (mjoin chunks) → Zlen (mjoin chunks) < 2 ^ 30 → Forall harmless chunks.
Proof.
  induction chunks as [|chunk chunks IH]; [constructor|].
  change (mjoin (chunk :: chunks)) with (chunk ++ mjoin chunks). rewrite Zlen_app. unfold bytes_ok. rewrite Forall_app.
  intros [Hb1 Hb2] Hn. pose proof (Zlen_nonneg chunk). pose proof (Zlen_nonneg (mjoin chunks)).
  constructor; [|apply IH; [done|lia]]. intros parse Hp. apply (parser_stays _ _ _ Hp); [done|lia].
Qed.

Lemma compound_loop_cases fuel : ∀ buffer,
  bytes_ok buffer → Zlen buffer < 2 ^ 30 → (length buffer <= fuel)%nat →
  (∃ chunks, Forall framed chunks ∧ buffer = mjoin chunks) ∨ compound_loop fuel buffer = Refuse.
Proof.
  induction fuel as [|fuel IH]; intros buffer Hb Hn Hl.
  { left. exists []. destruct buffer; [done|simpl in Hl; lia]. }
  destruct (decide (buffer = [])) as [->|Hne]; [left; by exists []|].
  assert (0 < Zlen buffer) by (destruct buffer; [done|rewrite Zlen_cons; pose proof (Zlen_nonneg buffer); lia]).
  cbn [compound_loop]. rewrite (proj2 (Z.eqb_neq _ _)) by lia. unfold refuse_if.
  destruct (Z.ltb_spec (Zlen buffer) rtcp_common_size) as [?|H4]; [by right|].
  destruct (common_header_in buffer H4) as (header & -> & El & Et & _). cbn [cbind]. rewrite El, Et.
  destruct (Z.ltb_spec (Zlen buffer) (GetRTCPHeaderLength buffer)) as [?|Hlen]; [by right|].
  pose proof (framed_split buffer Hb H4 Hlen) as Hf. pose proof (header_length_range buffer Hb) as Hr.
  set (n := GetRTCPHeaderLength buffer) in *. rewrite rd_copy_in by lia. change (zdrop 0 buffer) with buffer. cbn [cbind].
  assert (bytes_ok (ztake n buffer) ∧ bytes_ok (zdrop n buffer)) as [Hb1 Hb2]
    by (unfold bytes_ok; rewrite <- Forall_app, ztake_zdrop; done).
  destruct (IH (zdrop n buffer)) as [(chunks & Hcs & Heq)|Href].
  - done.
  - rewrite Zlen_zdrop by lia. lia.
  - unfold zdrop. rewrite length_drop. unfold Zlen in *. lia.
  - left. exists (ztake n buffer :: chunks). split; [by constructor|].
    change (mjoin (ztake n buffer :: chunks)) with (ztake n buffer ++ mjoin chunks).
    by rewrite <- Heq, ztake_zdrop.
  - right. rewrite Href. destruct (parser_of _) as [parse|] eqn:Hp; [|done].
    pose proof (parser_stays _ _ (ztake n buffer) Hp Hb1 ltac:(rewrite Zlen_ztake; lia)) as Hs.
    by destruct (parse (ztake n buffer)) as [| |[p parsed]].
Qed.
End Safety.
