(* ===== verification/RtcpRound.v ===== *)
(** * RTCP packets: what is written is read back

    The fields and the packets the codec can carry, and that parsing their octets gives them back. *)

From S2P Require Import Prelude Wire Octets RtpPacket TransportFeedback TransportFeedbackClaims RtcpField RtcpPacket RtcpProps.

(** ** Fields that fit *)

Definition nack_ok (f : NACKField) : Prop := is_word (nf_pid f) ∧ is_word (nf_blp f).
Definition tmmbr_ok (f : TempMaxMediaStreamBitrateField) : Prop :=
  is_dword (tm_ssrc f) ∧ 0 <= tm_maxTotalBitrateExp f < 2 ^ 6 ∧ 0 <= tm_maxTotalBitrateMantissa f < 2 ^ 17
  ∧ 0 <= tm_overhead f < 2 ^ 9.
Definition sli_ok (f : SliceLossIndicationField) : Prop :=
  0 <= sl_first f < 2 ^ 13 ∧ 0 <= sl_number f < 2 ^ 13 ∧ 0 <= sl_pictureId f < 2 ^ 6.
Definition rpsi_ok (f : ReferencePictureSelectionField) : Prop :=
  is_byte (rs_padding f) ∧ rs_padding f mod 8 = 0 ∧ 0 <= rs_type f < 2 ^ 7 ∧ RPSI_GetSize f mod 4 = 0.
(** The sequence number of a full intra request is not read back, unless it is 0. *)
Definition fir_ok (f : FullIntraRequestField) : Prop := is_dword (fi_ssrc f) ∧ fi_seq f = 0.
Definition tsto_ok (f : TemporalSpatialTradeOffField) : Prop := is_dword (ts_ssrc f).
(** The size of a video back channel message is right without padding only. *)
Definition vbcm_ok (f : VideoBackChannelMessageField) : Prop :=
  is_dword (vb_ssrc f) ∧ 0 <= vb_type f < 2 ^ 7 ∧ Zlen (vb_payload f) < 2 ^ 16 ∧ Zlen (vb_payload f) mod 4 = 0.
Definition alf_ok (f : ApplicationLayerFeeedbackField) : Prop :=
  0 < Zlen (al_payload f) < 2 ^ 16 ∧ Zlen (al_payload f) mod 4 = 0.

Section Round.
Context {W : WireOps} {V : MoreWireOps} {HW : WireLaws W} {HV : MoreWireLaws W V}.

Lemma put4_octets v : ∃ a b c d, put4 v = [a; b; c; d].
Proof.
  pose proof (Zlen_put4 v) as H. destruct (put4 v) as [|a [|b [|c [|d [|e l]]]]]; try discriminate H.
  - by exists a, b, c, d.
  - unfold Zlen in H. simpl in H. lia.
Qed.

(** A parser reads a value back from its octets, whatever follows. *)
Definition reads_back {A} (parse : bytes → checked (A * Z)) (octets : bytes) (a : A) : Prop :=
  ∀ rest, parse (octets ++ rest) = Got (a, Zlen octets).

Lemma nack_back f : nack_ok f → reads_back NACKField_Parse (NACKField_Serialize NACKField_GetSize f) f.
Proof.
  intros [Hp Hb] rest. unfold NACKField_Serialize, NACKField_Parse, NACKField_GetSize.
  rewrite Z.ltb_irrefl, <- app_assoc. unfold refuse_if. pose proof (Zlen_nonneg rest).
  rewrite (proj2 (Z.ltb_ge _ _)) by (rewrite !Zlen_app, !Zlen_put2; lia).
  rewrite (rd2_at [] _ _ 0 eq_refl : rd_with 2 get2 (put2 (nf_pid f) ++ _) 0 = _). cbn [cbind].
  rewrite rd2_at by by rewrite Zlen_put2. cbn [cbind]. rewrite !to_word_id, Zlen_app, !Zlen_put2 by done.
  by destruct f.
Qed.

Lemma tmmbr_octets f :
  tmmbr_ok f → TMMBR_Serialize TMMBR_GetSize f
  = put4 (tm_ssrc f)
    ++ [tm_maxTotalBitrateExp f * 4 + tm_maxTotalBitrateMantissa f / 2 ^ 15;
        tm_maxTotalBitrateMantissa f / 2 ^ 7 mod 2 ^ 8;
        tm_maxTotalBitrateMantissa f mod 2 ^ 7 * 2 + tm_overhead f / 2 ^ 8;
        tm_overhead f mod 2 ^ 8].
Proof.
  intros (_ & He & Hm & Ho). unfold TMMBR_Serialize. rewrite Z.ltb_irrefl. f_equal. bits_lia.
  rewrite !lor_shiftl by (Z.div_mod_to_equations; lia). repeat f_equal; Z.div_mod_to_equations; lia.
Qed.

Lemma tmmbr_back f : tmmbr_ok f → reads_back TMMBR_Parse (TMMBR_Serialize TMMBR_GetSize f) f.
Proof.
  intros Hf rest. rewrite tmmbr_octets by done. destruct Hf as (Hs & He & Hm & Ho).
  set (d4 := _ * 4 + _). set (d5 := _ mod 2 ^ 8). set (d6 := _ * 2 + _). set (d7 := _ mod 2 ^ 8).
  unfold TMMBR_Parse, refuse_if. pose proof (Zlen_nonneg rest). rewrite <- app_assoc. cbn [app].
  rewrite (proj2 (Z.ltb_ge _ _)) by (rewrite Zlen_app, !Zlen_cons, Zlen_put4; lia).
  rewrite (rd4_at [] _ _ 0 eq_refl : rd_with 4 get4 (put4 (tm_ssrc f) ++ _) 0 = _). cbn [cbind].
  destruct (put4_octets (tm_ssrc f)) as (a & b & c & d & ->). cbn [app].
  rewrite !rd1_in by (rewrite !Zlen_cons; lia). cbn [cbind]. octets_at. rewrite to_dword_id by done.
  change (Zlen [a; b; c; d; d4; d5; d6; d7]) with 8.
  replace (mkTmmbr _ _ _ _) with f; [done|]. destruct f as [ssrc e m o]; simpl in *. f_equal; bits_lia.
  - unfold d4. Z.div_mod_to_equations; lia.
  - assert (0 <= d5 < 2 ^ 8 ∧ 0 <= d6 / 2 ^ 1 < 2 ^ 7) as [H5 H6] by (unfold d5, d6; Z.div_mod_to_equations; lia).
    rewrite !lor_shiftl by (done || exact H5 || exact H6). unfold d4, d5, d6. Z.div_mod_to_equations; lia.
  - assert (0 <= d7 < 2 ^ 8) by (unfold d7; Z.div_mod_to_equations; lia).
    rewrite lor_shiftl by lia. unfold d6, d7. Z.div_mod_to_equations; lia.
Qed.

Lemma sli_octets f :
  sli_ok f → SLI_Serialize SLI_GetSize f
  = [sl_first f / 2 ^ 5; sl_first f mod 2 ^ 5 * 2 ^ 3 + sl_number f / 2 ^ 10;
     sl_number f / 2 ^ 2 mod 2 ^ 8; sl_number f mod 2 ^ 2 * 2 ^ 6 + sl_pictureId f].
Proof.
  intros (Hf & Hn & Hp). unfold SLI_Serialize. rewrite Z.ltb_irrefl. bits_lia.
  rewrite !lor_shiftl by (Z.div_mod_to_equations; lia). repeat f_equal; Z.div_mod_to_equations; lia.
Qed.

Lemma sli_back f : sli_ok f → reads_back SLI_Parse (SLI_Serialize SLI_GetSize f) f.
Proof.
  intros Hf rest. rewrite sli_octets by done. destruct Hf as (Hf & Hn & Hp).
  set (d0 := _ / 2 ^ 5). set (d1 := _ * 2 ^ 3 + _). set (d2 := _ mod 2 ^ 8). set (d3 := _ * 2 ^ 6 + _).
  unfold SLI_Parse, refuse_if. pose proof (Zlen_nonneg rest). cbn [app].
  rewrite (proj2 (Z.ltb_ge _ _)) by (rewrite !Zlen_cons; lia).
  rewrite !rd1_in by (rewrite !Zlen_cons; lia). cbn [cbind]. octets_at.
  change (Zlen [d0; d1; d2; d3]) with 4. replace (mkSli _ _ _) with f; [done|].
  destruct f as [i n p]; simpl in *. f_equal; bits_lia.
  - assert (0 <= d1 / 2 ^ 3 < 2 ^ 5) by (unfold d1; Z.div_mod_to_equations; lia).
    rewrite lor_shiftl by lia. unfold d0, d1. Z.div_mod_to_equations; lia.
  - assert (0 <= d2 < 2 ^ 8 ∧ 0 <= d3 / 2 ^ 6 < 2 ^ 2) as [? ?] by (unfold d2, d3; Z.div_mod_to_equations; lia).
    rewrite (lor_shiftl (d1 mod 2 ^ 3)), (Z.mod_small (_ * 2 ^ 8 + _)), lor_shiftl by (Z.div_mod_to_equations; lia).
    unfold d1, d2, d3. Z.div_mod_to_equations; lia.
  - unfold d3. Z.div_mod_to_equations; lia.
Qed.

Lemma rpsi_back f :
  rpsi_ok f → RPSI_Parse (RPSI_Serialize (RPSI_GetSize f) f) = Got (f, RPSI_GetSize f)
  ∧ Zlen (RPSI_Serialize (RPSI_GetSize f) f) = RPSI_GetSize f.
Proof.
  intros (Hp & Hp8 & Ht & _). unfold RPSI_Serialize. rewrite Z.ltb_irrefl.
  assert (0 <= rs_padding f / 8) by (unfold is_byte in Hp; Z.div_mod_to_equations; lia).
  set (pad := replicate _ 0). assert (Zlen pad = rs_padding f / 8) as Hpad
    by (unfold pad; rewrite Zlen_replicate; lia).
  set (t := Z.land (rs_type f) 0x7F).
  assert (Zlen ([rs_padding f; t] ++ rs_payload f ++ pad) = RPSI_GetSize f) as Hlen
    by (rewrite !Zlen_app, Hpad; unfold RPSI_GetSize; change (Zlen [rs_padding f; t]) with 2; lia).
  split; [|done]. unfold RPSI_Parse, refuse_if. rewrite Hlen. pose proof (Zlen_nonneg (rs_payload f)).
  unfold RPSI_GetSize in *. rewrite (proj2 (Z.ltb_ge _ _)) by lia. rewrite !rd1_in by (rewrite Hlen; lia).
  cbn [app]. octets_at. cbn [cbind]. rewrite Hp8, Z.eqb_refl. cbn [negb orb].
  rewrite (proj2 (Z.ltb_ge _ _)) by lia.
  change (rs_padding f :: t :: rs_payload f ++ pad) with ([rs_padding f; t] ++ rs_payload f ++ pad).
  rewrite rd_copy_at by (done || lia). cbn [cbind]. replace (Z.land t 127) with (rs_type f); [by destruct f|].
  unfold t. bits_lia. Z.div_mod_to_equations; lia.
Qed.

Lemma fir_back f : fir_ok f → reads_back FIR_Parse (FIR_Serialize FIR_GetSize f) f.
Proof.
  intros [Hs Hq] rest. unfold FIR_Serialize. rewrite Z.ltb_irrefl, <- app_assoc. cbn [app].
  unfold FIR_Parse, refuse_if. pose proof (Zlen_nonneg rest).
  rewrite (proj2 (Z.ltb_ge _ _)) by (rewrite Zlen_app, !Zlen_cons, Zlen_put4; lia).
  rewrite (rd4_at [] _ _ 0 eq_refl : rd_with 4 get4 (put4 (fi_ssrc f) ++ _) 0 = _). cbn [cbind].
  destruct (put4_octets (fi_ssrc f)) as (a & b & c & d & ->). cbn [app].
  rewrite !rd1_in by (rewrite !Zlen_cons; lia). cbn [cbind]. octets_at. rewrite to_dword_id by done.
  destruct f as [ssrc seq]; simpl in *. by rewrite Hq.
Qed.

Lemma tsto_back f : tsto_ok f → reads_back TSTO_Parse (TSTO_Serialize TSTO_GetSize f) f.
Proof.
  intros Hs rest. unfold TSTO_Serialize. rewrite Z.ltb_irrefl, <- app_assoc. cbn [app].
  unfold TSTO_Parse, refuse_if. pose proof (Zlen_nonneg rest).
  rewrite (proj2 (Z.ltb_ge _ _)) by (rewrite Zlen_app, !Zlen_cons, Zlen_put4; lia).
  rewrite (rd4_at [] _ _ 0 eq_refl : rd_with 4 get4 (put4 (ts_ssrc f) ++ _) 0 = _). cbn [cbind].
  destruct (put4_octets (ts_ssrc f)) as (a & b & c & d & ->). cbn [app].
  rewrite !rd1_in by (rewrite !Zlen_cons; lia). cbn [cbind]. octets_at. rewrite to_dword_id by done.
  by destruct f.
Qed.

Lemma pad32_id n : 0 <= n < 2 ^ 31 → n mod 4 = 0 → pad32 n = n.
Proof. intros. rewrite pad32_spec by done. Z.div_mod_to_equations. lia. Qed.

Lemma vbcm_back f :
  vbcm_ok f → reads_back VBCM_Parse (VBCM_Serialize (VBCM_GetSize f) f) f
  ∧ Zlen (VBCM_Serialize (VBCM_GetSize f) f) = VBCM_GetSize f.
Proof.
  intros (Hs & Ht & Hl & H4). unfold VBCM_Serialize, VBCM_GetSize. pose proof (Zlen_nonneg (vb_payload f)).
  rewrite pad32_id, Z.ltb_irrefl, Z.sub_diag by lia. change (replicate (Z.to_nat 0) 0) with (@nil Z). rewrite app_nil_r.
  set (t := Z.land (vb_type f) 0x7F).
  assert (Zlen (put4 (vb_ssrc f) ++ [vb_seq f; t] ++ put2 (Zlen (vb_payload f)) ++ vb_payload f)
    = 8 + Zlen (vb_payload f)) as Hlen
    by (rewrite !Zlen_app, Zlen_put4, Zlen_put2; change (Zlen [vb_seq f; t]) with 2; lia).
  split; [|done]. intros rest. rewrite Hlen. pose proof (Zlen_nonneg rest). unfold VBCM_Parse, refuse_if.
  rewrite Zlen_app, Hlen, (proj2 (Z.ltb_ge _ _)) by lia. rewrite <- !app_assoc.
  rewrite (rd4_at [] _ _ 0 eq_refl : rd_with 4 get4 (put4 (vb_ssrc f) ++ _) 0 = _). cbn [cbind].
  set (data := put4 (vb_ssrc f) ++ _).
  assert (rd1 data 4 = Got (vb_seq f) ∧ rd1 data 5 = Got t) as [-> ->].
  { unfold data. destruct (put4_octets (vb_ssrc f)) as (a & b & c & d & ->). cbn [app].
    pose proof (Zlen_nonneg (put2 (Zlen (vb_payload f)) ++ vb_payload f ++ rest)).
    by rewrite !rd1_in by (rewrite !Zlen_cons; lia). }
  assert (rd_with 2 get2 data 6 = Got (Zlen (vb_payload f))) as ->.
  { unfold data. rewrite app_assoc, rd2_at by (rewrite Zlen_app, Zlen_put4; done).
    by rewrite to_word_id by (unfold is_word; lia). }
  cbn [cbind]. rewrite pad32_id by lia. rewrite (proj2 (Z.ltb_ge _ _)) by lia.
  assert (rd_copy data 8 (Zlen (vb_payload f)) = Got (vb_payload f)) as ->.
  { unfold data. rewrite app_assoc, app_assoc. apply rd_copy_at; [|done]. by rewrite !Zlen_app, Zlen_put4, Zlen_put2. }
  cbn [cbind].
  rewrite to_dword_id by done. replace t with (vb_type f); [by destruct f|].
  unfold t. bits_lia. Z.div_mod_to_equations; lia.
Qed.

Lemma alf_back f :
  alf_ok f → ALF_Parse (ALF_Serialize (ALF_GetSize f) f) = Got (f, ALF_GetSize f)
  ∧ Zlen (ALF_Serialize (ALF_GetSize f) f) = ALF_GetSize f.
Proof.
  intros [Hl H4]. unfold ALF_Serialize, ALF_GetSize. rewrite pad32_id, Z.ltb_irrefl, Z.sub_diag by lia.
  change (replicate (Z.to_nat 0) 0) with (@nil Z). rewrite app_nil_r. split; [|done].
  unfold ALF_Parse, refuse_if. rewrite pad32_id, Z.eqb_refl by lia. cbn [negb].
  rewrite to_word_id by (unfold is_word; lia).
  rewrite (rd_copy_end [] (al_payload f) 0 _ eq_refl eq_refl : rd_copy (al_payload f) 0 _ = _).
  by destruct f.
Qed.

(** ** Sequences *)

(** The octets [w] are those of the values [l], read one after the other. *)
Inductive reads {A} (parse : bytes → checked (A * Z)) : list A → bytes → Prop :=
  | reads_nil : reads parse [] []
  | reads_cons a l w v :
      parse (w ++ v) = Got (a, Zlen w) → 0 < Zlen w → reads parse l v → reads parse (a :: l) (w ++ v).

Lemma reads_all {A} (parse : bytes → checked (A * Z)) (octets : A → bytes) l :
  Forall (λ a, reads_back parse (octets a) a ∧ 0 < Zlen (octets a)) l → reads parse l (mjoin (octets <$> l)).
Proof.
  induction 1 as [|a l [Ha Hp] _ IH]; [constructor|].
  change (mjoin (octets <$> a :: l)) with (octets a ++ mjoin (octets <$> l)). by constructor.
Qed.

Lemma reads_single {A} (parse : bytes → checked (A * Z)) a w :
  parse w = Got (a, Zlen w) → 0 < Zlen w → reads parse [a] w.
Proof. intros Hp Hl. rewrite <- (app_nil_r w). constructor; [by rewrite app_nil_r|done|constructor]. Qed.

Lemma parse_fields_back {A} (parse : bytes → checked (A * Z)) l w : ∀ fuel pre,
  reads parse l w → (length w <= fuel)%nat →
  parse_fields parse fuel (pre ++ w) (Zlen (pre ++ w)) (Zlen pre) = Got (l, Zlen (pre ++ w)).
Proof.
  intros fuel pre Hr. revert fuel pre. induction Hr as [|a l w v Ha Hp Hr IH]; intros fuel pre Hf.
  { destruct fuel; cbn [parse_fields]; rewrite app_nil_r, (proj2 (Z.leb_le _ _)) by lia; done. }
  rewrite length_app in Hf. pose proof (Zlen_nonneg v).
  destruct fuel as [|fuel]; [unfold Zlen in Hp; lia|]. cbn [parse_fields].
  rewrite (proj2 (Z.leb_gt _ _)) by (rewrite !Zlen_app; lia).
  rewrite rd_copy_end by (rewrite ?Zlen_app; lia).
  cbn [cbind]. rewrite Ha. cbn [cbind fst snd]. unfold refuse_if. rewrite (proj2 (Z.eqb_neq _ _)) by lia.
  rewrite (app_assoc pre w v), <- (Zlen_app pre w), IH by (unfold Zlen in *; lia). done.
Qed.

Lemma parse_words_back l : ∀ pre post packetSize,
  Forall is_dword l → Zlen pre + 4 * Zlen l <= packetSize →
  parse_words (length l) (pre ++ mjoin (put4 <$> l) ++ post) packetSize (Zlen pre)
  = Got (l, Zlen pre + 4 * Zlen l).
Proof.
  induction l as [|v l IH]; intros pre post packetSize Hw Hp; cbn [length parse_words].
  { by rewrite Z.add_0_r. }
  apply Forall_cons in Hw as [Hv Hw]. rewrite Zlen_cons in *. pose proof (Zlen_nonneg l).
  rewrite (proj2 (Z.ltb_ge _ _)) by lia.
  change (mjoin (put4 <$> v :: l)) with (put4 v ++ mjoin (put4 <$> l)). rewrite <- app_assoc, rd4_at by done.
  cbn [cbind]. rewrite app_assoc. replace (Zlen pre + 4) with (Zlen (pre ++ put4 v)) by by rewrite Zlen_app, Zlen_put4.
  rewrite IH by (done || (rewrite Zlen_app, Zlen_put4; lia)). cbn [cbind fst snd]. rewrite to_dword_id by done.
  rewrite Zlen_app, Zlen_put4. do 2 f_equal. lia.
Qed.

Lemma parse_reports_back l : ∀ pre packetSize,
  Forall (λ r : RTCPReport, Zlen r = 24) l → Zlen pre + 24 * Zlen l <= packetSize →
  parse_reports (length l) (pre ++ mjoin l) packetSize (Zlen pre) = Got (l, Zlen pre + 24 * Zlen l).
Proof.
  induction l as [|r l IH]; intros pre packetSize Hw Hp; cbn [length parse_reports].
  { by rewrite Z.add_0_r. }
  apply Forall_cons in Hw as [Hr Hw]. rewrite Zlen_cons in *. pose proof (Zlen_nonneg l).
  rewrite (proj2 (Z.ltb_ge _ _)) by lia. change (mjoin (r :: l)) with (r ++ mjoin l).
  rewrite rd_copy_end by (rewrite ?Zlen_app; lia).
  cbn [cbind]. unfold Report_Parse. pose proof (Zlen_nonneg (mjoin l)).
  rewrite (proj2 (Z.ltb_ge _ _)) by (rewrite Zlen_app; lia).
  rewrite (rd_copy_at [] r (mjoin l) 0 24 eq_refl (eq_sym Hr) : rd_copy (r ++ mjoin l) 0 24 = _). cbn [cbind fst snd].
  rewrite app_assoc. replace (Zlen pre + 24) with (Zlen (pre ++ r)) by by rewrite Zlen_app, Hr.
  rewrite IH by (done || (rewrite Zlen_app; lia)). cbn [cbind fst snd]. rewrite Zlen_app, Hr. do 2 f_equal. lia.
Qed.

(** Elements that have the room they ask for are written in full. *)
Lemma serialize_all_full {A} (ser : Z → A → bytes) (size : A → Z) l : ∀ room,
  Forall (λ a, Zlen (ser (size a) a) = size a ∧ ∀ s, size a <= s → ser s a = ser (size a) a) l →
  sum_sizes size l <= room →
  serialize_all ser room l = mjoin ((λ a, ser (size a) a) <$> l)
  ∧ Zlen (mjoin ((λ a, ser (size a) a) <$> l)) = sum_sizes size l.
Proof.
  induction l as [|a l IH]; intros room Hf Hr; [done|].
  apply Forall_cons in Hf as [[Hlen Hser] Hf]. cbn [sum_sizes foldr] in *. fold (sum_sizes size l) in *.
  assert (0 <= sum_sizes size l) as H0.
  { clear IH Hr. induction Hf as [|b k [Hb _] _ IH]; [done|]. cbn [sum_sizes foldr]. fold (sum_sizes size k).
    pose proof (Zlen_nonneg (ser (size b) b)). lia. }
  change (mjoin ((λ a, ser (size a) a) <$> a :: l))
    with (ser (size a) a ++ mjoin ((λ a, ser (size a) a) <$> l)).
  cbn [serialize_all]. rewrite Hser, Hlen by lia. destruct (IH (room - size a) Hf ltac:(lia)) as [-> Hl].
  split; [done|]. rewrite Zlen_app, Hlen, Hl. done.
Qed.

(** ** Descriptions *)

Definition item_ok (i : SDESItem) : Prop := 0 < it_type i < 256 ∧ Zlen (it_data i) < 256.
Definition desc_ok (d : SDESDescription) : Prop :=
  is_dword (sd_ssrc d) ∧ Forall item_ok (sd_items d) ∧ items_size (sd_items d) < 2 ^ 29.

Lemma items_length l : Zlen (mjoin (item_octets <$> l)) = items_size l.
Proof.
  induction l as [|i l IH]; [done|].
  change (mjoin (item_octets <$> i :: l)) with (item_octets i ++ mjoin (item_octets <$> l)).
  rewrite Zlen_app, IH. cbn [items_size foldr]. fold (items_size l). unfold item_octets.
  rewrite Zlen_app. change (Zlen [it_type i; Item_GetSize i]) with 2. unfold Item_GetSize. lia.
Qed.

Lemma items_size_nonneg l : 0 <= items_size l.
Proof. rewrite <- items_length. apply Zlen_nonneg. Qed.

Lemma parse_items_back l : ∀ fuel pre rest,
  Forall item_ok l → (length l <= fuel)%nat →
  parse_items fuel (pre ++ mjoin (item_octets <$> l) ++ 0 :: rest) (Zlen pre) = Got (l, Zlen pre + items_size l).
Proof.
  induction l as [|i l IH]; intros fuel pre rest Hok Hf.
  { change (mjoin (item_octets <$> [])) with (@nil Z). cbn [app items_size foldr]. rewrite Z.add_0_r.
    destruct fuel; cbn [parse_items]; (destruct (_ <=? _); [done|]); by rewrite rd1_at by done. }
  apply Forall_cons in Hok as [[Ht Hd] Hok]. destruct fuel as [|fuel]; [simpl in Hf; lia|].
  change (mjoin (item_octets <$> i :: l)) with (item_octets i ++ mjoin (item_octets <$> l)).
  rewrite <- app_assoc. unfold item_octets at 1. rewrite <- app_assoc.
  set (more := mjoin (item_octets <$> l) ++ 0 :: rest).
  assert (0 < Zlen more) as Hmore.
  { unfold more. rewrite Zlen_app, Zlen_cons. pose proof (Zlen_nonneg rest).
    pose proof (Zlen_nonneg (mjoin (item_octets <$> l))). lia. }
  pose proof (Zlen_nonneg (it_data i)). cbn [app]. set (data := pre ++ _).
  assert (Zlen data = Zlen pre + 2 + Zlen (it_data i) + Zlen more) as Hdata
    by (unfold data; rewrite Zlen_app, !Zlen_cons, Zlen_app; lia).
  cbn [parse_items]. rewrite Hdata, (proj2 (Z.leb_gt _ _)) by lia.
  assert (rd1 data (Zlen pre) = Got (it_type i)) as -> by (by apply rd1_at). cbn [cbind].
  rewrite (proj2 (Z.eqb_neq _ _)) by lia.
  assert (rd1 data (Zlen pre + 1) = Got (Item_GetSize i)) as ->.
  { unfold data. change (pre ++ it_type i :: Item_GetSize i :: it_data i ++ more)
      with (pre ++ [it_type i] ++ Item_GetSize i :: it_data i ++ more).
    rewrite app_assoc. apply rd1_at. by rewrite Zlen_app. }
  cbn [cbind]. unfold refuse_if, Item_GetSize. rewrite (proj2 (Z.ltb_ge _ _)) by lia.
  assert (data = (pre ++ item_octets i) ++ more) as Hsplit
    by (unfold data, item_octets, Item_GetSize; rewrite <- !app_assoc; done).
  assert (rd_copy data (Zlen pre + 2) (Zlen (it_data i)) = Got (it_data i)) as ->.
  { unfold data. change (pre ++ it_type i :: Item_GetSize i :: it_data i ++ more)
      with (pre ++ [it_type i; Item_GetSize i] ++ it_data i ++ more).
    rewrite app_assoc. apply rd_copy_at; [|done]. by rewrite Zlen_app. }
  cbn [cbind]. rewrite Hsplit.
  replace (Zlen pre + Zlen (it_data i) + 2) with (Zlen (pre ++ item_octets i))
    by (unfold item_octets; rewrite !Zlen_app; change (Zlen [it_type i; Item_GetSize i]) with 2; lia).
  unfold more. rewrite IH by (done || (simpl in Hf; lia)). cbn [cbind fst snd].
  cbn [items_size foldr]. fold (items_size l). unfold item_octets. rewrite !Zlen_app.
  change (Zlen [it_type i; Item_GetSize i]) with 2. unfold Item_GetSize. destruct i as [ty da]. cbn [it_type it_data]. do 2 f_equal. lia.
Qed.

Lemma desc_back d :
  desc_ok d → reads_back Description_Parse (Description_Serialize (Description_GetSize d) d) d
  ∧ Zlen (Description_Serialize (Description_GetSize d) d) = Description_GetSize d
  ∧ 0 < Description_GetSize d ∧ Description_GetSize d mod 4 = 0
  ∧ ∀ s, Description_GetSize d <= s → Description_Serialize s d = Description_Serialize (Description_GetSize d) d.
Proof.
  intros (Hs & Hi & Hn). unfold Description_Serialize. rewrite Z.ltb_irrefl.
  pose proof (items_size_nonneg (sd_items d)) as H0.
  set (w := put4 (sd_ssrc d) ++ _ ++ [0]). assert (Zlen w = 4 + items_size (sd_items d) + 1) as Hw
    by (unfold w; rewrite !Zlen_app, Zlen_put4, items_length; change (Zlen [0]) with 1; lia).
  assert (Description_GetSize d = pad32 (Zlen w)) as -> by (by rewrite Hw).
  pose proof (pad32_le (Zlen w) ltac:(lia)) as Hpad.
  assert (Zlen (w ++ replicate (Z.to_nat (pad32 (Zlen w) - Zlen w)) 0) = pad32 (Zlen w)) as Hlen
    by (rewrite Zlen_app, Zlen_replicate; lia).
  split; [|split; [done|split; [lia|split]]].
  - intros rest. rewrite Hlen. unfold Description_Parse, refuse_if. pose proof (Zlen_nonneg rest).
    rewrite (proj2 (Z.ltb_ge _ _)) by (rewrite Zlen_app, Hlen; lia).
    set (padding := replicate _ 0). unfold w at 1 2 3. rewrite <- !app_assoc.
    rewrite (rd4_at [] _ _ 0 eq_refl : rd_with 4 get4 (put4 (sd_ssrc d) ++ _) 0 = _). cbn [cbind app].
    match goal with |- context [parse_items ?n ?x 4] =>
      replace (parse_items n x 4) with (parse_items n x (Zlen (put4 (sd_ssrc d)))) by by rewrite Zlen_put4 end.
    rewrite parse_items_back.
    + cbn [cbind fst snd]. rewrite Zlen_put4, to_dword_id by done. rewrite Hw. by destruct d.
    + done.
    + rewrite !length_app. pose proof (items_length (sd_items d)) as Hl. apply Nat2Z.inj_le.
      assert (Z.of_nat (length (sd_items d)) <= items_size (sd_items d)).
      { clear. induction (sd_items d) as [|i l IH]; [done|]. cbn [items_size foldr length]. fold (items_size l).
        unfold Item_GetSize. pose proof (Zlen_nonneg (it_data i)). lia. }
      rewrite <- Hl in *. unfold Zlen in *. lia.
  - rewrite pad32_spec by lia. apply Z.mod_mul. lia.
  - intros s Hs'. by rewrite (proj2 (Z.ltb_ge _ _)) by lia.
Qed.

Lemma parse_descriptions_back l w : ∀ pre,
  reads Description_Parse l w →
  parse_descriptions (length l) (pre ++ w) (Zlen (pre ++ w)) (Zlen pre) = Got (l, Zlen (pre ++ w)).
Proof.
  intros pre Hr. revert pre. induction Hr as [|a l w v Ha Hp Hr IH]; intros pre; cbn [length parse_descriptions].
  { by rewrite app_nil_r. }
  pose proof (Zlen_nonneg v). rewrite (proj2 (Z.leb_gt _ _)) by (rewrite !Zlen_app; lia).
  rewrite rd_copy_end by (rewrite ?Zlen_app; lia).
  cbn [cbind]. rewrite Ha. cbn [cbind fst snd]. unfold refuse_if. rewrite (proj2 (Z.eqb_neq _ _)) by lia.
  rewrite (app_assoc pre w v), <- (Zlen_app pre w), IH. done.
Qed.
End Round.
