(* ===== verification/RtcpPacketRound.v ===== *)
(** * RTCP packets: round trip of packets and of compound packets *)

From S2P Require Import Prelude Wire Octets RtpPacket TransportFeedback TransportFeedbackClaims RtcpField RtcpPacket RtcpProps RtcpRound.

Section Round.
Context {W : WireOps} {V : MoreWireOps} {HW : WireLaws W} {HV : MoreWireLaws W V}.

(** ** Packets that fit *)

Definition rtpfb_field_ok (type : Z) (f : RTPFBField) : Prop :=
  match f with
  | FNack f => type = 1 ∧ nack_ok f
  | FTmmbr f => (type = 3 ∨ type = 4) ∧ tmmbr_ok f
  | FTransport f =>
      type = 15 ∧ twcc_ok f ∧ 0 < Zlen (tf_packets f) < 2 ^ 16
  end.

Definition psfb_field_ok (type : Z) (f : PSFBField) : Prop :=
  match f with
  | FSli f => type = 2 ∧ sli_ok f
  | FRpsi f => type = 3 ∧ rpsi_ok f
  | FFir f => type = 4 ∧ fir_ok f
  | FTsto f => (type = 5 ∨ type = 6) ∧ tsto_ok f
  | FVbcm f => type = 7 ∧ vbcm_ok f
  | FAlf f => type = 15 ∧ alf_ok f
  end.

(** Fields that take all the octets there are come alone. *)
Definition alone (type : Z) (n : nat) (single : list Z) : Prop := type ∈ single → (n <= 1)%nat.

Definition reports_ok (l : list RTCPReport) : Prop := Forall (λ r : RTCPReport, Zlen r = 24) l ∧ Zlen l < 32.

Definition reason_ok (r : bytes) : Prop := c_string r = r ∧ Zlen r < 256 ∧ (Zlen r + 1) mod 4 = 0.

Definition packet_ok (p : RTCPPacket) : Prop :=
  Packet_GetSize p <= 2 ^ 18 ∧
  match p with
  | PFullIntraRequest ssrc => is_dword ssrc
  | PNACK ssrc fsn blp => is_dword ssrc ∧ is_word fsn ∧ is_word blp
  | PExtendedJitterReport jitters => Forall is_dword jitters ∧ Zlen jitters < 32
  | PSenderReport r =>
      Forall is_dword [sr_ssrc r; sr_ntpSec r; sr_ntpFrac r; sr_rtpTimestamp r; sr_packetsSent r; sr_octectsSent r]
      ∧ reports_ok (sr_reports r)
  | PReceiverReport ssrc reports => is_dword ssrc ∧ reports_ok reports
  | PSDES descriptions => Forall desc_ok descriptions ∧ Zlen descriptions < 32
  | PBye ssrcs reason => Forall is_dword ssrcs ∧ Zlen ssrcs < 32 ∧ from_option reason_ok True reason
  | PApp subtype ssrc name data => 0 <= subtype < 32 ∧ is_dword ssrc ∧ Zlen name = 4 ∧ Zlen data mod 4 = 0
  | PRTPFeedback type sender media fields =>
      0 <= type < 32 ∧ is_dword sender ∧ is_dword media ∧ Forall (rtpfb_field_ok type) fields
      ∧ alone type (length fields) [15]
  | PPayloadFeedback type sender media fields =>
      0 <= type < 32 ∧ is_dword sender ∧ is_dword media ∧ Forall (psfb_field_ok type) fields
      ∧ alone type (length fields) [3; 15]
  end.

(** What the peer has of a packet.  The time of the last arrival is the generator's own, used to
    compute the next difference, and is not sent: it is 0 in what is read.  The code always sends
    the differences, so what is read has timestamps. *)
Definition field_as_read (f : RTPFBField) : RTPFBField :=
  match f with
  | FTransport f => FTransport (mkTwcc (tf_baseSeq f) (tf_referenceTicks f) (tf_fbSeq f) true (tf_packets f) 0)
  | f => f
  end.
Definition as_read (p : RTCPPacket) : RTCPPacket :=
  match p with
  | PRTPFeedback type sender media fields => PRTPFeedback type sender media (field_as_read <$> fields)
  | p => p
  end.

(** ** The common header *)

Lemma Zlen_header count pt n : Zlen (rtcp_header count pt n) = 4.
Proof. unfold rtcp_header, SetRTCPHeaderLength, htons. rewrite Zlen_app, be_put_length. done. Qed.

Lemma header_fields count pt n body :
  0 <= count < 32 → 4 <= n <= 2 ^ 18 → n mod 4 = 0 →
  hdr_count (rtcp_header count pt n ++ body) = count ∧ hdr_type (rtcp_header count pt n ++ body) = pt
  ∧ GetRTCPHeaderLength (rtcp_header count pt n ++ body) = n ∧ hdr_version (rtcp_header count pt n ++ body) = 2.
Proof.
  intros Hc Hn H4. unfold hdr_count, hdr_type, hdr_version, rtcp_header. cbn [app].
  change (zget 0 (128 + count mod 32 :: pt :: SetRTCPHeaderLength n ++ body)) with (128 + count mod 32).
  rewrite (Z.mod_small count) by lia. split; [|split; [done|split]].
  - change 31 with (Z.ones 5). rewrite Z.land_ones by lia. Z.div_mod_to_equations; lia.
  - unfold GetRTCPHeaderLength, ntohs_at, SetRTCPHeaderLength, htons. set (v := to_dword (n / 4 - 1)).
    assert (v = n / 4 - 1) as Hv by (unfold v, to_dword; Z.div_mod_to_equations; lia).
    rewrite (be_get_local 2 _ 2 (be_put 2 [0; 0] 0 v) 0); [|lia|lia|].
    + rewrite be_get_put by (unfold Zlen; simpl; lia). change (256 ^ Z.of_nat 2) with (2 ^ 16).
      rewrite Hv, Z.mod_small by (Z.div_mod_to_equations; lia). Z.div_mod_to_equations; lia.
    + intros k Hk. change (128 + count :: pt :: be_put 2 [0; 0] 0 v ++ body)
        with ([128 + count; pt] ++ be_put 2 [0; 0] 0 v ++ body).
      apply lookup_mid; [done|]. rewrite be_put_length. change (Zlen [0; 0]) with 2. lia.
  - change 3 with (Z.ones 2). rewrite Z.land_ones, Z.shiftr_div_pow2 by lia. Z.div_mod_to_equations; lia.
Qed.

Lemma with_header_back {A} need count pt n body (k : Z → Z → checked A) :
  0 <= count < 32 → n <= 2 ^ 18 → n mod 4 = 0 → Zlen body = n - 4 → 0 <= need <= n - 4 →
  with_header need (rtcp_header count pt n ++ body) k = k n count.
Proof.
  intros Hc Hn H4 Hb Hneed. destruct (header_fields count pt n body Hc ltac:(lia) H4) as (E1 & _ & E2 & _).
  assert (rtcp_common_size <= Zlen (rtcp_header count pt n ++ body)) as Hs
    by (rewrite Zlen_app, Zlen_header, Hb; unfold rtcp_common_size; lia).
  unfold with_header, refuse_if. destruct (common_header_in _ Hs) as (header & -> & El & _ & Ec & _). cbn [cbind].
  rewrite El, Ec, E1, E2, Zlen_app, Zlen_header, Hb. unfold rtcp_common_size.
  by rewrite !(proj2 (Z.ltb_ge _ _)) by lia.
Qed.

(** ** Fields *)

Record field_full {A} (ser : Z → A → bytes) (size : A → Z) (a : A) : Prop := {
  ff_length : Zlen (ser (size a) a) = size a;
  ff_room : ∀ s, size a <= s → ser s a = ser (size a) a;
  ff_words : size a mod 4 = 0;
  ff_some : 0 < size a;
}.

Lemma full_intro {A} (ser : Z → A → bytes) (size : A → Z) a w :
  (∀ s, size a <= s → ser s a = w) → Zlen w = size a → size a mod 4 = 0 → 0 < size a → field_full ser size a.
Proof.
  intros Hs Hl Hm Hp. rewrite <- (Hs (size a) ltac:(lia)) in Hl. split; [done| |done|done].
  intros s Hle. by rewrite !Hs by lia.
Qed.

Lemma twcc_GetSize_words f : twcc_ok f → 0 < Zlen (tf_packets f) → twcc_GetSize f mod 4 = 0 ∧ 0 < twcc_GetSize f.
Proof.
  intros Hf Hn. destruct (Encode_ok f Hf) as (ss & _ & _ & _ & He). unfold twcc_GetSize. rewrite He.
  destruct (tf_packets f) as [|p l]; [done|]. set (cs := encode_chunks _ _). set (ds := mjoin _).
  pose proof (Zlen_nonneg cs). pose proof (Zlen_nonneg ds). unfold HeaderBytes.
  split; [apply round4_mod; lia|]. pose proof (round4_spec (8 + 2 * Zlen cs + Zlen ds) ltac:(lia)). lia.
Qed.

Lemma rtpfb_full type f : rtpfb_field_ok type f → field_full RTPFBField_Serialize RTPFBField_GetSize f.
Proof.
  destruct f as [f|f|f]; simpl.
  - intros _. eapply full_intro; [intros s Hs; simpl in *; unfold NACKField_Serialize, NACKField_GetSize in *;
      rewrite (proj2 (Z.ltb_ge _ _)) by lia; reflexivity| |done|done]. by rewrite Zlen_app, !Zlen_put2.
  - intros _. eapply full_intro; [intros s Hs; simpl in *; unfold TMMBR_Serialize, TMMBR_GetSize in *;
      rewrite (proj2 (Z.ltb_ge _ _)) by lia; reflexivity| |done|done]. by rewrite Zlen_app, Zlen_put4.
  - intros (_ & Hf & Hn). destruct (twcc_GetSize_words f Hf) as [H4 Hp]; [lia|]. split; simpl; [|
      |done|done].
    + rewrite twcc_Serialize_length. by rewrite Z.ltb_irrefl.
    + intros s Hs. unfold twcc_Serialize, twcc_GetSize in *. destruct (tf_packets f); [done|].
      destruct (Encode f) as [[cs ds]|]; [|done]. by rewrite !(proj2 (Z.ltb_ge _ _)) by lia.
Qed.

Lemma psfb_full type f : psfb_field_ok type f → field_full PSFBField_Serialize PSFBField_GetSize f.
Proof.
  destruct f as [f|f|f|f|f|f]; simpl.
  - intros _. eapply full_intro; [intros s Hs; simpl in *; unfold SLI_Serialize, SLI_GetSize in *;
      rewrite (proj2 (Z.ltb_ge _ _)) by lia; reflexivity|done|done|done].
  - intros [_ Hf]. destruct (rpsi_back f Hf) as [_ Hl]. destruct Hf as (Hp & _ & _ & H4). split; simpl; [done| |done|].
    + intros s Hs. unfold RPSI_Serialize. by rewrite !(proj2 (Z.ltb_ge _ _)) by lia.
    + unfold RPSI_GetSize. unfold is_byte in Hp. pose proof (Zlen_nonneg (rs_payload f)). Z.div_mod_to_equations; lia.
  - intros _. eapply full_intro; [intros s Hs; simpl in *; unfold FIR_Serialize, FIR_GetSize in *;
      rewrite (proj2 (Z.ltb_ge _ _)) by lia; reflexivity| |done|done]. by rewrite Zlen_app, Zlen_put4.
  - intros _. eapply full_intro; [intros s Hs; simpl in *; unfold TSTO_Serialize, TSTO_GetSize in *;
      rewrite (proj2 (Z.ltb_ge _ _)) by lia; reflexivity| |done|done]. by rewrite Zlen_app, Zlen_put4.
  - intros [_ Hf]. destruct (vbcm_back f Hf) as [_ Hl]. destruct Hf as (_ & _ & Hn & H4).
    pose proof (Zlen_nonneg (vb_payload f)). split; simpl; [done| | |].
    + intros s Hs. unfold VBCM_Serialize, VBCM_GetSize in *. rewrite pad32_id in * by lia.
      by rewrite !(proj2 (Z.ltb_ge _ _)) by lia.
    + unfold VBCM_GetSize. Z.div_mod_to_equations; lia.
    + unfold VBCM_GetSize. lia.
  - intros [_ Hf]. destruct (alf_back f Hf) as [_ Hl]. destruct Hf as [Hn H4]. split; simpl; [done| | |].
    + intros s Hs. unfold ALF_Serialize, ALF_GetSize in *. by rewrite !(proj2 (Z.ltb_ge _ _)) by lia.
    + unfold ALF_GetSize. rewrite pad32_id by lia. done.
    + unfold ALF_GetSize. rewrite pad32_id by lia. lia.
Qed.

Lemma with_fst_back {A B} (f : A → B) parse octets a :
  reads_back parse octets a → reads_back (λ d, with_fst f (parse d)) octets (f a).
Proof. intros Hr rest. unfold with_fst. by rewrite Hr. Qed.

Definition rtpfb_octets (f : RTPFBField) : bytes := RTPFBField_Serialize (RTPFBField_GetSize f) f.
Definition psfb_octets (f : PSFBField) : bytes := PSFBField_Serialize (PSFBField_GetSize f) f.

Lemma rtpfb_reads type fields :
  Forall (rtpfb_field_ok type) fields → alone type (length fields) [15] →
  reads (RTPFBField_Parse type) (field_as_read <$> fields) (mjoin (rtpfb_octets <$> fields)).
Proof.
  intros Hok Hone. destruct (decide (type = 15)) as [->|Hne].
  - destruct fields as [|f [|g fields]]; [constructor| |specialize (Hone ltac:(set_solver)); simpl in Hone; lia].
    apply Forall_cons in Hok as [Hf _]. change (mjoin (rtpfb_octets <$> [f])) with (rtpfb_octets f ++ []).
    rewrite app_nil_r. pose proof (rtpfb_full _ _ Hf) as [Hl _ _ Hp].
    destruct f as [f|f|f]; simpl in Hf; [lia|lia|]. destruct Hf as (_ & Hf & Hn).
    apply reads_single; [|unfold rtpfb_octets; rewrite Hl; done]. unfold rtpfb_octets. rewrite Hl. simpl.
    unfold RTPFBField_Parse. simpl. unfold with_fst.
    rewrite twcc_roundtrip_lemma; [|done|intros He; rewrite He in Hn; unfold Zlen in Hn; simpl in Hn; lia|lia|lia].
    done.
  - assert (field_as_read <$> fields = fields) as ->.
    { clear Hone. induction Hok as [|f fields Hf _ IH]; [done|]. cbn. f_equal; [|exact IH].
      destruct f; [done|done|]. by destruct Hf. }
    apply reads_all. eapply Forall_impl; [exact Hok|]. intros f Hf.
    pose proof (rtpfb_full _ _ Hf) as [Hl _ _ Hp]. split; [|unfold rtpfb_octets; by rewrite Hl].
    unfold rtpfb_octets, RTPFBField_Parse. destruct f as [f|f|f]; simpl in *; [| |lia].
    + destruct Hf as [-> Hf]. apply with_fst_back, nack_back, Hf.
    + destruct Hf as [[-> | ->] Hf]; apply with_fst_back, tmmbr_back, Hf.
Qed.

Lemma psfb_reads type fields :
  Forall (psfb_field_ok type) fields → alone type (length fields) [3; 15] →
  reads (PSFBField_Parse type) fields (mjoin (psfb_octets <$> fields)).
Proof.
  intros Hok Hone. destruct (decide (type = 3 ∨ type = 15)) as [Ht|Hne].
  - destruct fields as [|f [|g fields]]; [constructor| |specialize (Hone ltac:(set_solver)); simpl in Hone; lia].
    apply Forall_cons in Hok as [Hf _]. change (mjoin (psfb_octets <$> [f])) with (psfb_octets f ++ []).
    rewrite app_nil_r. pose proof (psfb_full _ _ Hf) as [Hl _ _ Hp].
    apply reads_single; [|unfold psfb_octets; rewrite Hl; done]. unfold psfb_octets. rewrite Hl.
    unfold PSFBField_Parse. destruct f as [f|f|f|f|f|f]; simpl in *; try lia.
    + destruct Hf as [-> Hf]. simpl. unfold with_fst. by rewrite (proj1 (rpsi_back f Hf)).
    + destruct Hf as [-> Hf]. simpl. unfold with_fst. by rewrite (proj1 (alf_back f Hf)).
  - apply reads_all. eapply Forall_impl; [exact Hok|]. intros f Hf.
    pose proof (psfb_full _ _ Hf) as [Hl _ _ Hp]. split; [|unfold psfb_octets; by rewrite Hl].
    unfold psfb_octets, PSFBField_Parse. destruct f as [f|f|f|f|f|f]; simpl in *; try lia.
    + destruct Hf as [-> Hf]. apply with_fst_back, sli_back, Hf.
    + destruct Hf as [-> Hf]. apply with_fst_back, fir_back, Hf.
    + destruct Hf as [[-> | ->] Hf]; apply with_fst_back, tsto_back, Hf.
    + destruct Hf as [-> Hf]. apply with_fst_back. exact (proj1 (vbcm_back f Hf)).
Qed.

(** The octets of a list of fields. *)
Lemma fields_written {A} (ser : Z → A → bytes) (size : A → Z) l room :
  Forall (field_full ser size) l → sum_sizes size l <= room →
  serialize_all ser room l = mjoin ((λ a, ser (size a) a) <$> l)
  ∧ Zlen (mjoin ((λ a, ser (size a) a) <$> l)) = sum_sizes size l
  ∧ 0 <= sum_sizes size l ∧ sum_sizes size l mod 4 = 0.
Proof.
  intros Hf Hr. destruct (serialize_all_full ser size l room) as [H1 H2]; [|done|].
  { eapply Forall_impl; [exact Hf|]. intros a Ha. split; apply Ha. }
  split; [done|]. split; [done|]. split; [rewrite <- H2; apply Zlen_nonneg|].
  clear -Hf. induction Hf as [|a l Ha _ IH]; [done|]. cbn [sum_sizes foldr]. fold (sum_sizes size l).
  rewrite Z.add_mod, IH, (ff_words _ _ _ Ha) by lia. done.
Qed.

(** ** Packets *)

(** The loops, started after the octets [pre]. *)
Lemma parse_words_at l pre post packetSize len :
  len = Zlen pre → Forall is_dword l → len + 4 * Zlen l <= packetSize →
  parse_words (length l) (pre ++ mjoin (put4 <$> l) ++ post) packetSize len = Got (l, len + 4 * Zlen l).
Proof. intros ->. apply parse_words_back. Qed.

Lemma parse_reports_at l pre packetSize len :
  len = Zlen pre → Forall (λ r : RTCPReport, Zlen r = 24) l → len + 24 * Zlen l <= packetSize →
  parse_reports (length l) (pre ++ mjoin l) packetSize len = Got (l, len + 24 * Zlen l).
Proof. intros ->. apply parse_reports_back. Qed.

Lemma parse_descriptions_at l pre w packetSize len :
  len = Zlen pre → packetSize = Zlen (pre ++ w) → reads Description_Parse l w →
  parse_descriptions (length l) (pre ++ w) packetSize len = Got (l, packetSize).
Proof. intros -> ->. apply parse_descriptions_back. Qed.

Lemma parse_fields_at {A} (parse : bytes → checked (A * Z)) l pre w packetSize len :
  len = Zlen pre → packetSize = Zlen (pre ++ w) → reads parse l w →
  parse_fields parse (length (pre ++ w)) (pre ++ w) packetSize len = Got (l, packetSize).
Proof. intros -> -> Hr. apply parse_fields_back; [done|]. rewrite length_app. lia. Qed.

Definition frame (p : RTCPPacket) (body : bytes) : bytes :=
  rtcp_header (header_count p) (packet_type p) (Packet_GetSize p) ++ body.

(** What the code writes for a packet is read back by the parser [parse]. *)
Record written (parse : bytes → checked (RTCPPacket * Z)) (p : RTCPPacket) (body : bytes) : Prop := {
  w_length : Zlen body = Packet_GetSize p - 4;
  w_words : Packet_GetSize p mod 4 = 0;
  w_count : 0 <= header_count p < 32;
  w_back : parse (frame p body) = Got (as_read p, Packet_GetSize p);
}.

Lemma words_length l : Zlen (mjoin (put4 <$> l)) = 4 * Zlen l.
Proof.
  induction l as [|v l IH]; [done|]. change (mjoin (put4 <$> v :: l)) with (put4 v ++ mjoin (put4 <$> l)).
  rewrite Zlen_app, Zlen_put4, Zlen_cons. lia.
Qed.

Lemma rd4_in_frame p a v b i :
  i = 4 + Zlen a → is_dword v → rd_with 4 get4 (frame p (a ++ put4 v ++ b)) i = Got v.
Proof.
  intros -> Hv. unfold frame. rewrite app_assoc, rd4_at by by rewrite Zlen_app, Zlen_header.
  by rewrite to_dword_id.
Qed.

Lemma rd2_in_frame p a v b i :
  i = 4 + Zlen a → is_word v → rd_with 2 get2 (frame p (a ++ put2 v ++ b)) i = Got v.
Proof.
  intros -> Hv. unfold frame. rewrite app_assoc, rd2_at by by rewrite Zlen_app, Zlen_header.
  by rewrite to_word_id.
Qed.

Lemma fir_written ssrc room :
  packet_ok (PFullIntraRequest ssrc) →
  written FullIntraRequest_Parse (PFullIntraRequest ssrc) (body_octets room (PFullIntraRequest ssrc)).
Proof.
  intros [Hn Hs]. set (p := PFullIntraRequest ssrc) in *.
  assert (Zlen (body_octets room p) = 4) as Hl by (simpl; by rewrite Zlen_put4).
  split; [done|done|done|]. unfold FullIntraRequest_Parse, frame. rewrite with_header_back by done.
  fold (frame p (body_octets room p)). simpl body_octets. rewrite <- (app_nil_r (put4 ssrc)).
  by rewrite (rd4_in_frame p [] ssrc [] 4 eq_refl Hs : rd_with 4 get4 (frame p (put4 ssrc ++ _)) _ = _).
Qed.

Lemma nack_written ssrc fsn blp room :
  packet_ok (PNACK ssrc fsn blp) →
  written NACK_Parse (PNACK ssrc fsn blp) (body_octets room (PNACK ssrc fsn blp)).
Proof.
  intros (Hn & Hs & Hf & Hb). set (p := PNACK ssrc fsn blp) in *.
  assert (Zlen (body_octets room p) = 8) as Hl by (simpl; by rewrite !Zlen_app, Zlen_put4, !Zlen_put2).
  split; [done|done|done|]. unfold NACK_Parse, frame. rewrite with_header_back by done. fold (frame p (body_octets room p)).
  simpl body_octets.
  rewrite (rd4_in_frame p [] ssrc (put2 fsn ++ put2 blp) 4 eq_refl Hs : rd_with 4 get4 (frame p (put4 ssrc ++ _)) _ = _).
  cbn [cbind]. rewrite rd2_in_frame by (done || by rewrite Zlen_put4). cbn [cbind].
  rewrite app_assoc, <- (app_nil_r (put2 blp)).
  by rewrite rd2_in_frame by (done || by rewrite Zlen_app, Zlen_put4, Zlen_put2).
Qed.

Lemma jitter_written jitters room :
  packet_ok (PExtendedJitterReport jitters) →
  written ExtendedJitterReport_Parse (PExtendedJitterReport jitters) (body_octets room (PExtendedJitterReport jitters)).
Proof.
  intros (Hn & Hf & Hc). set (p := PExtendedJitterReport jitters) in *. pose proof (Zlen_nonneg jitters).
  assert (Zlen (body_octets room p) = Packet_GetSize p - 4) as Hl
    by (simpl; rewrite words_length; unfold rtcp_common_size; lia).
  assert (Packet_GetSize p mod 4 = 0) as H4 by (simpl; unfold rtcp_common_size; Z.div_mod_to_equations; lia).
  assert (0 <= header_count p < 32) as Hh by (simpl; lia).
  split; [done..|]. unfold ExtendedJitterReport_Parse, frame.
  rewrite with_header_back by (done || (simpl; unfold rtcp_common_size; lia)).
  simpl header_count. rewrite Zlen_to_nat. simpl body_octets. rewrite <- (app_nil_r (mjoin _)).
  by rewrite parse_words_at by (done || (rewrite ?Zlen_header; simpl; unfold rtcp_common_size; lia)).
Qed.

Lemma reports_written l room :
  reports_ok l → 24 * Zlen l <= room →
  serialize_all Report_Serialize room (take (Z.to_nat (Zlen l mod 32)) l) = mjoin l ∧ Zlen (mjoin l) = 24 * Zlen l.
Proof.
  intros [Hf Hc] Hr. pose proof (Zlen_nonneg l). rewrite Z.mod_small, Zlen_to_nat, firstn_all by lia.
  clear Hc. revert room Hr. induction Hf as [|r l Hr' Hf IH]; intros room Hr; [done|].
  rewrite Zlen_cons in *. pose proof (Zlen_nonneg l). cbn [serialize_all]. unfold Report_Serialize at 1 3.
  rewrite !(proj2 (Z.ltb_ge _ _)) by lia. change (mjoin (r :: l)) with (r ++ mjoin l).
  destruct (IH ltac:(lia) (room - Zlen r) ltac:(lia)) as [-> Hl]. split; [done|]. rewrite Zlen_app. lia.
Qed.

Lemma sr_written r room :
  packet_ok (PSenderReport r) → Packet_GetSize (PSenderReport r) - 4 <= room →
  written SenderReport_Parse (PSenderReport r) (body_octets room (PSenderReport r)).
Proof.
  intros (Hn & Hd & Hr) Hroom. set (p := PSenderReport r) in *. pose proof (Zlen_nonneg (sr_reports r)).
  simpl in Hn, Hroom. unfold rtcp_common_size in *.
  destruct (reports_written (sr_reports r) (room - 24) Hr ltac:(lia)) as [Hw Hwl].
  rewrite !Forall_cons in Hd. destruct Hd as (D1 & D2 & D3 & D4 & D5 & D6 & _).
  assert (Zlen (body_octets room p) = Packet_GetSize p - 4) as Hl.
  { simpl. rewrite Hw, !Zlen_app, !Zlen_put4, Hwl. unfold rtcp_common_size. lia. }
  assert (Packet_GetSize p mod 4 = 0) as H4 by (simpl; unfold rtcp_common_size; Z.div_mod_to_equations; lia).
  destruct Hr as [Hrf Hrc]. assert (0 <= header_count p < 32) as Hh by (simpl; lia).
  split; [done..|]. unfold SenderReport_Parse, frame.
  rewrite with_header_back by (done || (simpl; unfold rtcp_common_size; lia)). fold (frame p (body_octets room p)).
  simpl header_count. rewrite Zlen_to_nat. simpl body_octets. rewrite Hw.
  set (a1 := put4 (sr_ssrc r)). set (a2 := put4 (sr_ntpSec r)). set (a3 := put4 (sr_ntpFrac r)).
  set (a4 := put4 (sr_rtpTimestamp r)). set (a5 := put4 (sr_packetsSent r)). set (a6 := put4 (sr_octectsSent r)).
  set (tail := mjoin (sr_reports r)).
  assert (∀ v, Zlen (put4 v) = 4) as Z4 by apply Zlen_put4.
  rewrite (rd4_in_frame p [] (sr_ssrc r) (a2 ++ a3 ++ a4 ++ a5 ++ a6 ++ tail) 4 eq_refl D1 :
    rd_with 4 get4 (frame p (a1 ++ _)) 4 = _). cbn [cbind].
  assert (rd_with 4 get4 (frame p (a1 ++ a2 ++ a3 ++ a4 ++ a5 ++ a6 ++ tail)) 8 = Got (sr_ntpSec r)) as ->.
  { apply rd4_in_frame; [|done]. unfold a1. by rewrite Z4. }
  assert (rd_with 4 get4 (frame p (a1 ++ a2 ++ a3 ++ a4 ++ a5 ++ a6 ++ tail)) 12 = Got (sr_ntpFrac r)) as ->.
  { rewrite (app_assoc a1). apply rd4_in_frame; [|done]. unfold a1, a2. by rewrite Zlen_app, !Z4. }
  assert (rd_with 4 get4 (frame p (a1 ++ a2 ++ a3 ++ a4 ++ a5 ++ a6 ++ tail)) 16 = Got (sr_rtpTimestamp r)) as ->.
  { rewrite (app_assoc a1), (app_assoc (a1 ++ a2)). apply rd4_in_frame; [|done].
    unfold a1, a2, a3. by rewrite !Zlen_app, !Z4. }
  assert (rd_with 4 get4 (frame p (a1 ++ a2 ++ a3 ++ a4 ++ a5 ++ a6 ++ tail)) 20 = Got (sr_packetsSent r)) as ->.
  { rewrite (app_assoc a1), (app_assoc (a1 ++ a2)), (app_assoc ((a1 ++ a2) ++ a3)). apply rd4_in_frame; [|done].
    unfold a1, a2, a3, a4. by rewrite !Zlen_app, !Z4. }
  assert (rd_with 4 get4 (frame p (a1 ++ a2 ++ a3 ++ a4 ++ a5 ++ a6 ++ tail)) 24 = Got (sr_octectsSent r)) as ->.
  { rewrite (app_assoc a1), (app_assoc (a1 ++ a2)), (app_assoc ((a1 ++ a2) ++ a3)), (app_assoc (((a1 ++ a2) ++ a3) ++ a4)).
    apply rd4_in_frame; [|done]. unfold a1, a2, a3, a4, a5. by rewrite !Zlen_app, !Z4. }
  cbn [cbind]. unfold frame.
  replace (rtcp_header (header_count p) (packet_type p) (Packet_GetSize p) ++ a1 ++ a2 ++ a3 ++ a4 ++ a5 ++ a6 ++ tail)
    with ((rtcp_header (header_count p) (packet_type p) (Packet_GetSize p) ++ a1 ++ a2 ++ a3 ++ a4 ++ a5 ++ a6) ++ tail)
    by by rewrite <- !app_assoc.
  unfold tail. rewrite parse_reports_at; [|unfold a1, a2, a3, a4, a5, a6; by rewrite !Zlen_app, Zlen_header, !Z4|done|simpl; unfold rtcp_common_size; lia].
  cbn [cbind fst snd]. unfold p. simpl. unfold rtcp_common_size. destruct r; simpl. done.
Qed.

Lemma rr_written ssrc reports room :
  packet_ok (PReceiverReport ssrc reports) → Packet_GetSize (PReceiverReport ssrc reports) - 4 <= room →
  written ReceiverReport_Parse (PReceiverReport ssrc reports) (body_octets room (PReceiverReport ssrc reports)).
Proof.
  intros (Hn & Hs & Hr) Hroom. set (p := PReceiverReport ssrc reports) in *. pose proof (Zlen_nonneg reports).
  simpl in Hn, Hroom. unfold rtcp_common_size in *.
  destruct (reports_written reports (room - 4) Hr ltac:(lia)) as [Hw Hwl].
  assert (Zlen (body_octets room p) = Packet_GetSize p - 4) as Hl.
  { simpl. rewrite Hw, !Zlen_app, !Zlen_put4, Hwl. unfold rtcp_common_size. lia. }
  assert (Packet_GetSize p mod 4 = 0) as H4 by (simpl; unfold rtcp_common_size; Z.div_mod_to_equations; lia).
  destruct Hr as [Hrf Hrc]. assert (0 <= header_count p < 32) as Hh by (simpl; lia).
  split; [done..|]. unfold ReceiverReport_Parse, frame.
  rewrite with_header_back by (done || (simpl; unfold rtcp_common_size; lia)). fold (frame p (body_octets room p)).
  simpl header_count. rewrite Zlen_to_nat. simpl body_octets. rewrite Hw.
  rewrite (rd4_in_frame p [] ssrc (mjoin reports) 4 eq_refl Hs : rd_with 4 get4 (frame p (put4 ssrc ++ _)) 4 = _).
  cbn [cbind]. unfold frame. rewrite app_assoc.
  rewrite parse_reports_at by (done || (rewrite Zlen_app, Zlen_header, Zlen_put4; done) || (simpl; unfold rtcp_common_size; lia)).
  cbn [cbind fst snd]. unfold p. simpl. unfold rtcp_common_size. do 2 f_equal.
Qed.

Lemma sdes_written descriptions room :
  packet_ok (PSDES descriptions) → Packet_GetSize (PSDES descriptions) - 4 <= room →
  written SDES_Parse (PSDES descriptions) (body_octets room (PSDES descriptions)).
Proof.
  intros (Hn & Hd & Hc) Hroom. set (p := PSDES descriptions) in *. pose proof (Zlen_nonneg descriptions).
  simpl in Hn, Hroom. unfold rtcp_common_size in *.
  destruct (fields_written Description_Serialize Description_GetSize descriptions room) as (Hw & Hwl & H0 & Hm4); [|lia|].
  { eapply Forall_impl; [exact Hd|]. intros d Hok. destruct (desc_back d Hok) as (_ & H1 & H2 & H3 & H4). by split. }
  assert (Zlen (body_octets room p) = Packet_GetSize p - 4) as Hl.
  { simpl. rewrite Hw, Hwl. unfold rtcp_common_size. lia. }
  assert (Packet_GetSize p mod 4 = 0) as H4 by (simpl; unfold rtcp_common_size; Z.div_mod_to_equations; lia).
  assert (0 <= header_count p < 32) as Hh by (simpl; lia).
  split; [done..|]. unfold SDES_Parse, frame.
  rewrite with_header_back by (done || (simpl; unfold rtcp_common_size; lia)).
  simpl header_count. rewrite Zlen_to_nat. rewrite (parse_descriptions_at descriptions).
  - done.
  - by rewrite Zlen_header.
  - rewrite Zlen_app, Zlen_header, Hl. lia.
  - simpl. rewrite Hw. apply reads_all. eapply Forall_impl; [exact Hd|]. intros d Hok.
    destruct (desc_back d Hok) as (H1 & H2 & H3 & _). rewrite H2. done.
Qed.

Lemma bye_written ssrcs reason room :
  packet_ok (PBye ssrcs reason) → written Bye_Parse (PBye ssrcs reason) (body_octets room (PBye ssrcs reason)).
Proof.
  intros (Hn & Hd & Hc & Hr). set (p := PBye ssrcs reason) in *. pose proof (Zlen_nonneg ssrcs).
  assert (Zlen (body_octets room p) = Packet_GetSize p - 4) as Hl.
  { simpl. rewrite Zlen_app, words_length. unfold rtcp_common_size. destruct reason; rewrite ?Zlen_cons, ?Zlen_nil; lia. }
  assert (Packet_GetSize p mod 4 = 0) as H4.
  { simpl. unfold rtcp_common_size. destruct reason as [r|]; [|Z.div_mod_to_equations; lia].
    destruct Hr as (E & _ & Hm). rewrite E. Z.div_mod_to_equations; lia. }
  assert (0 <= header_count p < 32) as Hh by (simpl; lia).
  assert (0 <= Packet_GetSize p - 4) as Hpos by (rewrite <- Hl; apply Zlen_nonneg).
  split; [done..|]. unfold Bye_Parse, frame. rewrite with_header_back by (done || lia).
  simpl header_count. rewrite Zlen_to_nat. simpl body_octets.
  assert (4 + 4 * Zlen ssrcs <= Packet_GetSize p) as Hfit.
  { simpl. unfold rtcp_common_size. destruct reason as [r|]; [pose proof (Zlen_nonneg (c_string r))|]; lia. }
  rewrite parse_words_at by (done || by rewrite Zlen_header). cbn [cbind fst snd].
  destruct reason as [r|]; simpl Packet_GetSize; unfold rtcp_common_size; cycle 1.
  { rewrite Z.add_0_r, Z.ltb_irrefl. done. }
  destruct Hr as (E & Hlen & Hm). rewrite E. pose proof (Zlen_nonneg r).
  rewrite (proj2 (Z.ltb_lt _ _)) by lia. rewrite app_assoc.
  rewrite rd1_at by by rewrite Zlen_app, Zlen_header, words_length. cbn [cbind].
  rewrite to_byte_id by (unfold is_byte; lia). rewrite (proj2 (Z.ltb_ge _ _)) by lia.
  replace ((rtcp_header (Zlen ssrcs) 203 (4 + 4 * Zlen ssrcs + (Zlen r + 1)) ++ mjoin (put4 <$> ssrcs)) ++ Zlen r :: r)
    with (((rtcp_header (Zlen ssrcs) 203 (4 + 4 * Zlen ssrcs + (Zlen r + 1)) ++ mjoin (put4 <$> ssrcs)) ++ [Zlen r]) ++ r)
    by by rewrite <- app_assoc.
  rewrite rd_copy_end by (done || by rewrite !Zlen_app, Zlen_header, words_length). cbn [cbind].
  do 2 f_equal. lia.
Qed.

Lemma app_written subtype ssrc name data room :
  packet_ok (PApp subtype ssrc name data) →
  written App_Parse (PApp subtype ssrc name data) (body_octets room (PApp subtype ssrc name data)).
Proof.
  intros (Hn & Hst & Hs & Hname & Hm). set (p := PApp subtype ssrc name data) in *. pose proof (Zlen_nonneg data).
  assert (Zlen (body_octets room p) = Packet_GetSize p - 4) as Hl.
  { simpl. rewrite !Zlen_app, Zlen_put4. unfold rtcp_common_size. lia. }
  assert (Packet_GetSize p mod 4 = 0) as H4 by (simpl; unfold rtcp_common_size; Z.div_mod_to_equations; lia).
  split; [done..|]. unfold App_Parse, frame.
  rewrite with_header_back by (done || (simpl; unfold rtcp_common_size; lia)). fold (frame p (body_octets room p)).
  simpl body_octets.
  rewrite (rd4_in_frame p [] ssrc (name ++ data) 4 eq_refl Hs : rd_with 4 get4 (frame p (put4 ssrc ++ _)) 4 = _).
  cbn [cbind]. unfold frame. rewrite app_assoc.
  rewrite rd_copy_at by (done || by rewrite Zlen_app, Zlen_header, Zlen_put4). cbn [cbind]. rewrite app_assoc.
  rewrite rd_copy_end by ((rewrite !Zlen_app, Zlen_header, Zlen_put4, Hname; done) || (simpl; unfold rtcp_common_size; lia)).
  done.
Qed.

Lemma rtpfb_written type sender media fields room :
  packet_ok (PRTPFeedback type sender media fields) →
  Packet_GetSize (PRTPFeedback type sender media fields) - 4 <= room →
  written RTPFeedback_Parse (PRTPFeedback type sender media fields)
    (body_octets room (PRTPFeedback type sender media fields)).
Proof.
  intros (Hn & Ht & Hs & Hm & Hf & Ha) Hroom. set (p := PRTPFeedback type sender media fields) in *.
  simpl in Hn, Hroom. unfold rtcp_common_size in *.
  destruct (fields_written RTPFBField_Serialize RTPFBField_GetSize fields (room - 8)) as (Hw & Hwl & H0 & Hm4); [|lia|].
  { eapply Forall_impl; [exact Hf|]. apply rtpfb_full. }
  assert (Zlen (body_octets room p) = Packet_GetSize p - 4) as Hl.
  { simpl. rewrite Hw, !Zlen_app, !Zlen_put4, Hwl. unfold rtcp_common_size. lia. }
  assert (Packet_GetSize p mod 4 = 0) as H4 by (simpl; unfold rtcp_common_size; Z.div_mod_to_equations; lia).
  split; [done..|]. unfold RTPFeedback_Parse, frame.
  rewrite with_header_back by (done || (simpl; unfold rtcp_common_size; lia)). fold (frame p (body_octets room p)).
  simpl header_count. assert (Zlen (frame p (body_octets room p)) = Packet_GetSize p) as Hfl
    by (unfold frame; rewrite Zlen_app, Zlen_header, Hl; lia).
  simpl body_octets in *. rewrite Hw in *. set (tail := mjoin _) in *.
  rewrite (rd4_in_frame p [] sender (put4 media ++ tail) 4 eq_refl Hs : rd_with 4 get4 (frame p (put4 sender ++ _)) 4 = _).
  cbn [cbind]. rewrite rd4_in_frame by (done || by rewrite Zlen_put4). cbn [cbind].
  assert (frame p (put4 sender ++ put4 media ++ tail) = (frame p (put4 sender ++ put4 media)) ++ tail) as E
    by (unfold frame; by rewrite <- !app_assoc).
  rewrite E in *. rewrite (parse_fields_at _ (field_as_read <$> fields)).
  - done.
  - unfold frame. by rewrite !Zlen_app, Zlen_header, !Zlen_put4.
  - done.
  - by apply rtpfb_reads.
Qed.

Lemma psfb_written type sender media fields room :
  packet_ok (PPayloadFeedback type sender media fields) →
  Packet_GetSize (PPayloadFeedback type sender media fields) - 4 <= room →
  written PayloadFeedback_Parse (PPayloadFeedback type sender media fields)
    (body_octets room (PPayloadFeedback type sender media fields)).
Proof.
  intros (Hn & Ht & Hs & Hm & Hf & Ha) Hroom. set (p := PPayloadFeedback type sender media fields) in *.
  simpl in Hn, Hroom. unfold rtcp_common_size in *.
  destruct (fields_written PSFBField_Serialize PSFBField_GetSize fields (room - 8)) as (Hw & Hwl & H0 & Hm4); [|lia|].
  { eapply Forall_impl; [exact Hf|]. apply psfb_full. }
  assert (Zlen (body_octets room p) = Packet_GetSize p - 4) as Hl.
  { simpl. rewrite Hw, !Zlen_app, !Zlen_put4, Hwl. unfold rtcp_common_size. lia. }
  assert (Packet_GetSize p mod 4 = 0) as H4 by (simpl; unfold rtcp_common_size; Z.div_mod_to_equations; lia).
  split; [done..|]. unfold PayloadFeedback_Parse, frame.
  rewrite with_header_back by (done || (simpl; unfold rtcp_common_size; lia)). fold (frame p (body_octets room p)).
  simpl header_count. assert (Zlen (frame p (body_octets room p)) = Packet_GetSize p) as Hfl
    by (unfold frame; rewrite Zlen_app, Zlen_header, Hl; lia).
  simpl body_octets in *. rewrite Hw in *. set (tail := mjoin _) in *.
  rewrite (rd4_in_frame p [] sender (put4 media ++ tail) 4 eq_refl Hs : rd_with 4 get4 (frame p (put4 sender ++ _)) 4 = _).
  cbn [cbind]. rewrite rd4_in_frame by (done || by rewrite Zlen_put4). cbn [cbind].
  assert (frame p (put4 sender ++ put4 media ++ tail) = (frame p (put4 sender ++ put4 media)) ++ tail) as E
    by (unfold frame; by rewrite <- !app_assoc).
  rewrite E in *. rewrite (parse_fields_at _ fields).
  - done.
  - unfold frame. by rewrite !Zlen_app, Zlen_header, !Zlen_put4.
  - done.
  - by apply psfb_reads.
Qed.

(** Every packet that fits is framed by its header and read back. *)
Lemma packet_back p size :
  packet_ok p → Packet_GetSize p <= size →
  let w := Packet_Serialize size p in
  Zlen w = Packet_GetSize p ∧ framed w ∧ harmless w ∧ hdr_type w = packet_type p ∧ hdr_version w = 2
  ∧ read_packet w = Some (as_read p).
Proof.
  intros Hok Hsize. cbv zeta. unfold Packet_Serialize. rewrite (proj2 (Z.ltb_ge _ _)) by lia.
  unfold rtcp_common_size. set (body := body_octets _ p).
  assert (∃ parse, parser_of (packet_type p) = Some parse ∧ written parse p body) as (parse & Hparse & Hw).
  { destruct p; eexists; (split; [reflexivity|]); unfold body.
    - by apply fir_written.
    - by apply nack_written.
    - by apply jitter_written.
    - apply sr_written; [done|lia].
    - apply rr_written; [done|lia].
    - apply sdes_written; [done|lia].
    - by apply bye_written.
    - by apply app_written.
    - apply rtpfb_written; [done|lia].
    - apply psfb_written; [done|lia]. }
  destruct Hw as [Hl H4 Hc Hback]. fold (frame p body). pose proof (Zlen_nonneg body).
  destruct (header_fields (header_count p) (packet_type p) (Packet_GetSize p) body Hc ltac:(destruct Hok; lia) H4)
    as (_ & Et & El & Ev). fold (frame p body) in *.
  assert (Zlen (frame p body) = Packet_GetSize p) as Hfl by (unfold frame; rewrite Zlen_app, Zlen_header, Hl; lia).
  split; [done|]. split; [split; [lia|congruence]|]. split; [|split; [done|split; [done|]]].
  - unfold harmless. rewrite Et, Hparse. intros ? [= <-]. by rewrite Hback.
  - unfold read_packet. rewrite Et, Hparse, Hback. by rewrite (proj2 (Z.eqb_neq _ _)) by lia.
Qed.

(** The packets of a compound, each with the room it asks for. *)
Lemma packets_written c : ∀ size,
  Forall packet_ok c → Compound_GetSize c <= size →
  ∃ chunks, serialize_all Packet_Serialize size c = mjoin chunks
    ∧ Forall framed chunks ∧ Forall harmless chunks ∧ omap read_packet chunks = as_read <$> c
    ∧ Zlen (mjoin chunks) = Compound_GetSize c ∧ 0 <= Compound_GetSize c
    ∧ match c, chunks with
      | p :: _, w :: _ => hdr_type w = packet_type p ∧ hdr_version w = 2 ∧ 4 <= Zlen w
      | _, _ => True
      end.
Proof.
  induction c as [|p c IH]; intros size Hok Hs; [by exists []|].
  apply Forall_cons in Hok as [Hp Hok]. unfold Compound_GetSize in *. cbn [sum_sizes foldr serialize_all] in *.
  fold (sum_sizes Packet_GetSize c) in *.
  assert (0 <= sum_sizes Packet_GetSize c) as H0
    by (destruct (IH _ Hok (Z.le_refl _)) as (? & _ & _ & _ & _ & _ & H0 & _); done).
  destruct (packet_back p size Hp ltac:(lia)) as (Hl & Hf & Hh & Ht & Hv & Hr).
  set (w := Packet_Serialize size p) in *.
  destruct (IH (size - Zlen w) Hok ltac:(lia)) as (chunks & Hser & Hfs & Hhs & Hrs & Hls & _).
  exists (w :: chunks). rewrite Hser. split; [done|]. split; [by constructor|]. split; [by constructor|].
  pose proof Hf as [H4 _]. split; [|split; [|split; [lia|done]]].
  - change (omap read_packet (w :: chunks)) with
      (match read_packet w with Some q => q :: omap read_packet chunks | None => omap read_packet chunks end).
    by rewrite Hr, Hrs.
  - change (mjoin (w :: chunks)) with (w ++ mjoin chunks). rewrite Zlen_app, Hls. lia.
Qed.

Lemma compound_back c size :
  Forall packet_ok c → match c with [] => False | p :: _ => 200 <= packet_type p end →
  Compound_GetSize c <= size →
  Zlen (Compound_Serialize size c) = Compound_GetSize c ∧ Compound_Parse (Compound_Serialize size c) = Got (as_read <$> c).
Proof.
  intros Hok Hfirst Hsize. unfold Compound_Serialize. rewrite (proj2 (Z.ltb_ge _ _)) by lia.
  destruct (packets_written c size Hok Hsize) as (chunks & -> & Hf & Hh & Hr & Hl & _ & Hhead).
  split; [done|]. unfold Compound_Parse, refuse_if.
  assert (IsRTCP (mjoin chunks) = Got true) as ->.
  { destruct c as [|p c]; [done|]. destruct chunks as [|w chunks]; [done|]. destruct Hhead as (Ht & Hv & H4).
    change (mjoin (w :: chunks)) with (w ++ mjoin chunks). rewrite IsRTCP_answers.
    f_equal. apply bool_decide_eq_true_2. unfold hdr_type, hdr_version, rtcp_common_size in *.
    rewrite Zlen_app, !zget_prefix, Ht, Hv by lia. pose proof (Zlen_nonneg (mjoin chunks)).
    split; [lia|]. split; [done|]. destruct p; cbn [packet_type] in *; lia. }
  cbn [cbind negb]. rewrite compound_loop_splits by (done || lia). by rewrite Hr.
Qed.
End Round.
