(* ===== verification/RtcpClaims.v ===== *)
(** * RTCP: theorems *)

From S2P Require Import Prelude Wire Octets RtpPacket TransportFeedback TransportFeedbackClaims RtcpField RtcpPacket RtcpProps RtcpRound RtcpPacketRound.

(** C38. The parser of compound RTCP packets, on any octets received (fewer than 2^30): it ends and
    reads nothing outside them, the headers of the packets included.  It accepts them if and only if the first header is that of an RTCP packet and
    they are a sequence of packets, each exactly as long as its header announces; then it keeps, in
    order, the packets of a known type whose body can be read, and ignores the others. *)
Theorem compound_is_read_inside {W : WireOps} {V : MoreWireOps} (HW : WireLaws W) (HV : MoreWireLaws W V) data :
  bytes_ok data → Zlen data < 2 ^ 30 →
  match Compound_Parse data with
  | Fault => False
  | Refuse => IsRTCP data = Got false ∨ ¬ ∃ chunks, Forall framed chunks ∧ data = mjoin chunks
  | Got c =>
      IsRTCP data = Got true ∧ ∃ chunks, Forall framed chunks ∧ data = mjoin chunks ∧ c = omap read_packet chunks
  end.
Proof.
  intros Hb Hn. unfold Compound_Parse, refuse_if. rewrite IsRTCP_answers.
  destruct (bool_decide _); [|by left]. cbn [cbind negb].
  destruct (compound_loop_cases (length data) data Hb Hn ltac:(lia)) as [(chunks & Hf & Hd)|Hr].
  - subst data. pose proof (bytes_harmless chunks Hb Hn) as Hh.
    rewrite compound_loop_splits by (done || lia). split; [done|]. by exists chunks.
  - rewrite Hr. right. intros (chunks & Hf & ->).
    pose proof (bytes_harmless chunks Hb Hn) as Hh. by rewrite compound_loop_splits in Hr by (done || lia).
Qed.

(** C37. A compound packet whose packets fit the format and that starts with a packet of type 200 to
    206, serialised in a buffer that has the room [GetSize()] asks for, takes [GetSize()] octets and
    is parsed back packet by packet: sender and receiver reports, source descriptions, BYE, APP,
    NACK, TMMBR, transport-wide and payload feedback.  What is read equals what was written, but for
    two members of a transport-wide report that are not sent: the time of its last arrival, which
    the generator uses to compute the next difference, is 0 in what is read, and [hasTimestamps] is
    true; its first number, reference time, feedback number and packets are read back as they were.
    To fit means: at most 65536 words in a packet; fewer than 32 reports, jitters, sources and
    descriptions; report blocks of 24 octets; every number on its width; items of a description
    of a type from 1 to 255 and below 256 octets; the reason of a BYE without a NUL, below 256
    octets and, with its length, a whole number of words; the data of APP, the contents of a video
    back channel message, of an application layer field (not empty) and of a reference picture
    selection (with its padding, whole octets of it) whole numbers of words; each field of the type
    its packet announces; reference picture selection, application layer and transport-wide fields
    alone in their packet; a full intra request field with number 0 (another one is read as 0);
    and a transport-wide report of 1 to 65535 packets numbered one after the other, each difference
    on 16 bits, whatever time it was built at. *)
Theorem compound_roundtrip {W : WireOps} {V : MoreWireOps} (HW : WireLaws W) (HV : MoreWireLaws W V) c size :
  Forall packet_ok c → match c with [] => False | p :: _ => 200 <= packet_type p end →
  Compound_GetSize c <= size →
  Zlen (Compound_Serialize size c) = Compound_GetSize c
  ∧ Compound_Parse (Compound_Serialize size c) = Got (as_read <$> c).
Proof.
  apply compound_back.
Qed.

(** ** What is written stays in the buffer *)

(** What the C++ types of a packet guarantee: arrays of their size, lengths on a [WORD] or a [BYTE]. *)

Definition psfb_typed (f : PSFBField) : Prop :=
  match f with
  | FRpsi f => is_byte (rs_padding f)
  | FVbcm f => Zlen (vb_payload f) < 2 ^ 16
  | FAlf f => Zlen (al_payload f) < 2 ^ 16
  | _ => True
  end.
Definition packet_typed (p : RTCPPacket) : Prop :=
  match p with
  | PSenderReport r => Forall (λ b : RTCPReport, Zlen b = 24) (sr_reports r)
  | PReceiverReport _ reports => Forall (λ b : RTCPReport, Zlen b = 24) reports
  | PSDES descriptions => Forall (λ d, items_size (sd_items d) < 2 ^ 30) descriptions
  | PApp _ _ name _ => Zlen name = 4
  | PPayloadFeedback _ _ _ fields => Forall psfb_typed fields
  | _ => True
  end.

Section Bounds.
Context {W : WireOps} {V : MoreWireOps} {HW : WireLaws W} {HV : MoreWireLaws W V}.

Definition fits {A} (ser : Z → A → bytes) (a : A) : Prop := ∀ size, 0 <= size → Zlen (ser size a) <= size.

Lemma serialize_all_fits {A} (ser : Z → A → bytes) l : ∀ size,
  Forall (fits ser) l → 0 <= size → Zlen (serialize_all ser size l) <= size.
Proof.
  induction l as [|a l IH]; intros size Hf Hs; [done|].
  apply Forall_cons in Hf as [Ha Hf]. cbn [serialize_all]. rewrite Zlen_app. specialize (Ha size Hs).
  specialize (IH (size - Zlen (ser size a)) Hf ltac:(lia)). lia.
Qed.

Lemma Report_fits (r : RTCPReport) : Zlen r = 24 → fits Report_Serialize r.
Proof. intros Hr size Hs. unfold Report_Serialize. destruct (Z.ltb_spec size 24); [done|lia]. Qed.

Lemma Description_fits d : items_size (sd_items d) < 2 ^ 30 → fits Description_Serialize d.
Proof.
  intros Hn size Hs. unfold Description_Serialize, Description_GetSize.
  set (w := put4 (sd_ssrc d) ++ _ ++ [0]).
  assert (Zlen w = 4 + items_size (sd_items d) + 1) as Hw
    by (unfold w; rewrite !Zlen_app, Zlen_put4, items_length; change (Zlen [0]) with 1; lia).
  rewrite <- Hw. destruct (Z.ltb_spec size (pad32 (Zlen w))); [done|].
  pose proof (items_size_nonneg (sd_items d)). pose proof (pad32_le (Zlen w) ltac:(lia)).
  rewrite Zlen_app, Zlen_replicate. lia.
Qed.

Lemma RTPFBField_fits f : fits RTPFBField_Serialize f.
Proof.
  intros size Hs. destruct f as [f|f|f]; simpl.
  - unfold NACKField_Serialize. destruct (Z.ltb_spec size 4); [done|].
    rewrite Zlen_app, !Zlen_put2. lia.
  - unfold TMMBR_Serialize. destruct (Z.ltb_spec size 8); [done|].
    rewrite Zlen_app, Zlen_put4, !Zlen_cons, Zlen_nil. lia.
  - rewrite twcc_Serialize_length. destruct (Z.ltb_spec size (twcc_GetSize f)); lia.
Qed.

Lemma PSFBField_fits f : psfb_typed f → fits PSFBField_Serialize f.
Proof.
  intros Hf size Hs. destruct f as [f|f|f|f|f|f]; simpl in *.
  - unfold SLI_Serialize. destruct (Z.ltb_spec size 4); rewrite ?Zlen_cons, ?Zlen_nil; lia.
  - unfold RPSI_Serialize. destruct (Z.ltb_spec size (RPSI_GetSize f)); [done|].
    unfold is_byte in Hf. assert (0 <= rs_padding f / 8) by (apply Z.div_pos; lia).
    rewrite !Zlen_app, Zlen_replicate, !Zlen_cons, Zlen_nil. unfold RPSI_GetSize in *. lia.
  - unfold FIR_Serialize. destruct (Z.ltb_spec size 8); [done|].
    rewrite Zlen_app, Zlen_put4, !Zlen_cons, Zlen_nil. lia.
  - unfold TSTO_Serialize. destruct (Z.ltb_spec size 8); [done|].
    rewrite Zlen_app, Zlen_put4, !Zlen_cons, Zlen_nil. lia.
  - unfold VBCM_Serialize. pose proof (Zlen_nonneg (vb_payload f)). pose proof (pad32_le (Zlen (vb_payload f)) ltac:(lia)).
    destruct (Z.ltb_spec size (8 + pad32 (Zlen (vb_payload f)))); [done|].
    rewrite !Zlen_app, Zlen_put4, Zlen_put2, Zlen_replicate, !Zlen_cons, Zlen_nil. lia.
  - unfold ALF_Serialize. pose proof (Zlen_nonneg (al_payload f)). pose proof (pad32_le (Zlen (al_payload f)) ltac:(lia)).
    destruct (Z.ltb_spec size (pad32 (Zlen (al_payload f)))); [done|].
    rewrite Zlen_app, Zlen_replicate. lia.
Qed.

Lemma sum_sizes_nonneg {A} (size : A → Z) l : Forall (λ a, 0 <= size a) l → 0 <= sum_sizes size l.
Proof. induction 1 as [|a l Ha _ IH]; [done|]. cbn [sum_sizes foldr]. fold (sum_sizes size l). lia. Qed.

Lemma RTPFBField_GetSize_nonneg f : 0 <= RTPFBField_GetSize f.
Proof.
  destruct f as [f|f|f]; simpl; [done|done|]. pose proof (twcc_Serialize_length (twcc_GetSize f) f) as H.
  rewrite Z.ltb_irrefl in H. rewrite <- H. apply Zlen_nonneg.
Qed.

Lemma PSFBField_GetSize_nonneg f : psfb_typed f → 0 <= PSFBField_GetSize f.
Proof.
  destruct f as [f|f|f|f|f|f]; simpl; intros Hf; try done.
  - unfold RPSI_GetSize. unfold is_byte in Hf. pose proof (Zlen_nonneg (rs_payload f)).
    assert (0 <= rs_padding f / 8) by (apply Z.div_pos; lia). lia.
  - unfold VBCM_GetSize. pose proof (Zlen_nonneg (vb_payload f)). lia.
  - unfold ALF_GetSize. pose proof (Zlen_nonneg (al_payload f)). pose proof (pad32_le (Zlen (al_payload f)) ltac:(lia)). lia.
Qed.

Lemma Description_GetSize_nonneg d : items_size (sd_items d) < 2 ^ 30 → 0 <= Description_GetSize d.
Proof.
  intros Hd. unfold Description_GetSize. pose proof (items_size_nonneg (sd_items d)).
  pose proof (pad32_le (4 + items_size (sd_items d) + 1) ltac:(lia)). lia.
Qed.

Lemma Packet_fits p : packet_typed p → fits Packet_Serialize p.
Proof.
  intros Ht size Hs. unfold Packet_Serialize. destruct (Z.ltb_spec size (Packet_GetSize p)) as [|Hsize]; [done|].
  rewrite Zlen_app, Zlen_header. unfold rtcp_common_size.
  destruct p; simpl in *; unfold rtcp_common_size in *;
    rewrite ?Zlen_app, ?Zlen_put4, ?Zlen_put2, ?words_length.
  - lia.
  - lia.
  - lia.
  - pose proof (serialize_all_fits Report_Serialize (take (Z.to_nat (Zlen (sr_reports r) mod 32)) (sr_reports r)) (size - 4 - 24)) as H.
    pose proof (Zlen_nonneg (sr_reports r)).
    specialize (H ltac:(apply Forall_take; eapply Forall_impl; [exact Ht|]; intros b; apply Report_fits) ltac:(lia)). lia.
  - pose proof (serialize_all_fits Report_Serialize (take (Z.to_nat (Zlen reports mod 32)) reports) (size - 4 - 4)) as H.
    pose proof (Zlen_nonneg reports).
    specialize (H ltac:(apply Forall_take; eapply Forall_impl; [exact Ht|]; intros b; apply Report_fits) ltac:(lia)). lia.
  - assert (0 <= sum_sizes Description_GetSize descriptions)
      by (apply sum_sizes_nonneg; eapply Forall_impl; [exact Ht|]; apply Description_GetSize_nonneg).
    pose proof (serialize_all_fits Description_Serialize descriptions (size - 4)
      ltac:(eapply Forall_impl; [exact Ht|]; apply Description_fits) ltac:(lia)). lia.
  - destruct reason; rewrite ?Zlen_cons, ?Zlen_nil; lia.
  - lia.
  - assert (0 <= sum_sizes RTPFBField_GetSize fields)
      by (apply sum_sizes_nonneg, Forall_forall; intros f _; apply RTPFBField_GetSize_nonneg).
    pose proof (serialize_all_fits RTPFBField_Serialize fields (size - 4 - 8)
      ltac:(apply Forall_forall; intros f _; apply RTPFBField_fits) ltac:(lia)). lia.
  - assert (0 <= sum_sizes PSFBField_GetSize fields)
      by (apply sum_sizes_nonneg; eapply Forall_impl; [exact Ht|]; apply PSFBField_GetSize_nonneg).
    pose proof (serialize_all_fits PSFBField_Serialize fields (size - 4 - 8)
      ltac:(eapply Forall_impl; [exact Ht|]; apply PSFBField_fits) ltac:(lia)). lia.
Qed.
End Bounds.

(** Whatever the packets of a compound (more than 31 reports, contents that are not padded,
    fields that do not fit their widths), serialising it in a buffer of any size never writes past
    the buffer: every packet and every field checks the room left to it. *)
Theorem rtcp_serialize_stays_in_buffer {W : WireOps} {V : MoreWireOps} (HW : WireLaws W) (HV : MoreWireLaws W V)
    c size :
  Forall packet_typed c → 0 <= size → Zlen (Compound_Serialize size c) <= size.
Proof.
  intros Ht Hs. unfold Compound_Serialize. destruct (size <? Compound_GetSize c); [done|].
  apply serialize_all_fits; [|done]. eapply Forall_impl; [exact Ht|]. apply Packet_fits.
Qed.

(** ** Bitrates *)

Lemma remb_exponent_spec bitrate fuel : ∀ i k,
  0 <= i <= k → k < i + Z.of_nat fuel → bitrate <= Z.shiftl 0x3FFFF k →
  let e := remb_exponent fuel i bitrate in
  i <= e <= k ∧ bitrate <= Z.shiftl 0x3FFFF e ∧ (i < e → Z.shiftl 0x3FFFF (e - 1) < bitrate).
Proof.
  induction fuel as [|fuel IH]; intros i k Hi Hk Hb; [lia|]. cbv zeta. cbn [remb_exponent].
  destruct (Z.leb_spec bitrate (Z.shiftl 0x3FFFF i)) as [Hle|Hgt]; [lia|].
  assert (i + 1 <= k) as Hik by (destruct (decide (i = k)) as [->|]; lia).
  destruct (IH (i + 1) k ltac:(lia) ltac:(lia) Hb) as (H1 & H2 & H3). split; [lia|]. split; [done|].
  intros _. destruct (decide (i + 1 < remb_exponent fuel (i + 1) bitrate)) as [Hlt|Hge]; [by apply H3|].
  replace (remb_exponent fuel (i + 1) bitrate - 1) with i by lia. done.
Qed.

Lemma tmmbr_exponent_spec bitrate fuel : ∀ i k,
  0 <= i <= k → k < i + Z.of_nat fuel → k <= 15 → bitrate <= Z.shiftl 0x1FFFF k →
  ∃ e, tmmbr_exponent fuel i bitrate = Got e
    ∧ i <= e <= k ∧ bitrate <= Z.shiftl 0x1FFFF e ∧ (i < e → Z.shiftl 0x1FFFF (e - 1) < bitrate).
Proof.
  induction fuel as [|fuel IH]; intros i k Hi Hk H15 Hb; [lia|]. cbn [tmmbr_exponent].
  rewrite (proj2 (Z.leb_gt _ _)); cycle 1.
  { rewrite Z.shiftl_mul_pow2 by lia. assert (2 ^ i <= 2 ^ 15) by (apply Z.pow_le_mono_r; lia). lia. }
  destruct (Z.leb_spec bitrate (Z.shiftl 0x1FFFF i)) as [Hle|Hgt]; [exists i; repeat split; lia|].
  assert (i + 1 <= k) as Hik by (destruct (decide (i = k)) as [->|]; lia).
  destruct (IH (i + 1) k ltac:(lia) ltac:(lia) H15 Hb) as (e & He & H1 & H2 & H3). exists e. split; [done|].
  split; [lia|]. split; [done|]. intros _. destruct (decide (i + 1 < e)) as [Hlt|Hge]; [by apply H3|].
  replace (e - 1) with i by lia. done.
Qed.

(** The sixteen exponents, one by one. *)
Ltac exponents e :=
  assert (e = 0 ∨ e = 1 ∨ e = 2 ∨ e = 3 ∨ e = 4 ∨ e = 5 ∨ e = 6 ∨ e = 7 ∨ e = 8 ∨ e = 9 ∨ e = 10 ∨ e = 11
    ∨ e = 12 ∨ e = 13 ∨ e = 14 ∨ e = 15) as He by lia;
  repeat destruct He as [-> | He]; [..|subst e].

Lemma mantissa_close w bitrate e :
  w = 17 ∨ w = 18 → 0 <= e <= 15 → 0 <= bitrate <= Z.shiftl (2 ^ w - 1) e →
  (0 < e → Z.shiftl (2 ^ w - 1) (e - 1) < bitrate) →
  let m := Z.shiftr bitrate e in
  0 <= m < 2 ^ w ∧ Z.shiftl m e <= bitrate ∧ (bitrate - Z.shiftl m e) * 2 ^ (w - 1) <= bitrate.
Proof.
  intros Hw Hrange Hb Hmin. cbv zeta. rewrite Z.shiftr_div_pow2, !Z.shiftl_mul_pow2 in * by lia.
  assert (0 < e → (2 ^ w - 1) * 2 ^ (e - 1) < bitrate) as Hmin'
    by (intros Hp; rewrite <- Z.shiftl_mul_pow2 by lia; by apply Hmin). clear Hmin.
  destruct Hw as [-> | ->]; exponents e; cbn [Z.sub] in *; Z.div_mod_to_equations; lia.
Qed.

Lemma remb_payload {W : WireOps} {V : MoreWireOps} {HW : WireLaws W} {HV : MoreWireLaws W V} ssrcs bitrate :
  1 <= Zlen ssrcs → is_dword bitrate →
  let payload := al_payload (CreateReceiverEstimatedMaxBitrate ssrcs bitrate) in
  let e := remb_exponent 32 0 bitrate in
  Zlen payload = 8 + 4 * Z.min (Zlen ssrcs) 255 ∧ read_remb payload = Some (Z.shiftl (Z.shiftr bitrate e) e)
  ∧ Z.shiftl (Z.shiftr bitrate e) e <= bitrate
  ∧ (bitrate - Z.shiftl (Z.shiftr bitrate e) e) * 2 ^ 17 <= bitrate.
Proof.
  intros Hn Hb. cbv zeta. unfold is_dword in Hb.
  destruct (remb_exponent_spec bitrate 32 0 15) as (He & Hle & Hmin); [lia|lia|change (Z.shiftl 0x3FFFF 15) with 8589901824; lia|].
  unfold CreateReceiverEstimatedMaxBitrate. cbn [al_payload]. set (e := remb_exponent 32 0 bitrate) in *.
  destruct (mantissa_close 18 bitrate e) as (Hm & Hm2 & Hm3); [lia|lia|by split; [lia|exact Hle]|exact Hmin|].
  set (m := Z.shiftr bitrate e) in *.
  set (num := if Zlen ssrcs <? 255 then Zlen ssrcs else 255).
  assert (num = Z.min (Zlen ssrcs) 255) as Hnum by (unfold num; destruct (Z.ltb_spec (Zlen ssrcs) 255); lia).
  set (words := mjoin _). assert (Zlen words = 4 * num) as Hwords.
  { unfold words. rewrite words_length. unfold Zlen at 1. rewrite length_take. unfold Zlen in *. lia. }
  set (d5 := to_byte (Z.lor _ _)).
  assert (d5 = e * 4 + m / 2 ^ 16) as Hd5.
  { unfold d5. bits_lia. rewrite lor_shiftl by (Z.div_mod_to_equations; lia). Z.div_mod_to_equations; lia. }
  set (payload := octets "REMB" ++ _).
  assert (payload = 82 :: 69 :: 77 :: 66 :: to_byte num :: d5 :: to_byte (Z.shiftr m 8) :: to_byte m :: words)
    as Hp by reflexivity.
  assert (Zlen payload = 8 + 4 * num) as Hlen by (rewrite Hp, !Zlen_cons; lia).
  split; [lia|]. split; [|split; [exact Hm2|exact Hm3]]. unfold read_remb. rewrite Hlen, (proj2 (Z.ltb_lt _ _)) by lia.
  rewrite Hp. octets_at. rewrite bool_decide_eq_true_2 by reflexivity. cbn [andb]. f_equal.
  assert (to_byte (Z.shiftr m 8) = m / 2 ^ 8 mod 2 ^ 8 ∧ to_byte m = m mod 2 ^ 8) as [-> ->] by (by bits_lia).
  assert (0 <= m / 2 ^ 8 mod 2 ^ 8 < 2 ^ 8 ∧ 0 <= m mod 2 ^ 8 < 2 ^ 8) as [R1 R2] by (Z.div_mod_to_equations; lia).
  assert (Z.shiftr d5 2 = e ∧ Z.land d5 3 = m / 2 ^ 16) as [-> ->].
  { rewrite Hd5. change 3 with (Z.ones 2). rewrite Z.land_ones, Z.shiftr_div_pow2 by lia. Z.div_mod_to_equations; lia. }
  rewrite !lor_shiftl by (done || exact R1 || exact R2).
  replace ((m / 2 ^ 16 * 2 ^ 8 + m / 2 ^ 8 mod 2 ^ 8) * 2 ^ 8 + m mod 2 ^ 8) with m by (Z.div_mod_to_equations; lia).
  apply to_dword_id. unfold is_dword. split; [rewrite Z.shiftl_nonneg; lia|lia].
Qed.

(** Bitrates announced to the peer.  A REMB built for a bitrate and at least one source, put in a
    feedback packet and sent, is parsed by the peer to the same packet, and the bitrate it reads in
    it is not above the one announced and below it by at most one part in 2^17.  A TMMBR field for a
    bitrate of at most 0xFFFF8000 fits its widths (so it is read back as it is) and carries a
    bitrate not above the one asked and below it by at most one part in 2^16. *)
Theorem announced_bitrate_is_close {W : WireOps} {V : MoreWireOps} (HW : WireLaws W) (HV : MoreWireLaws W V)
    ssrcs bitrate sender ssrc overhead size :
  1 <= Zlen ssrcs → is_dword bitrate → is_dword sender → is_dword ssrc → 0 <= overhead < 2 ^ 9 → 2000 <= size →
  let remb := CreateReceiverEstimatedMaxBitrate ssrcs bitrate in
  let packet := PPayloadFeedback 15 sender 0 [FAlf remb] in
  Compound_Parse (Compound_Serialize size [packet]) = Got [packet]
  ∧ (∃ b, read_remb (al_payload remb) = Some b ∧ b <= bitrate ∧ (bitrate - b) * 2 ^ 17 <= bitrate)
  ∧ (bitrate <= 0xFFFF8000 → ∃ f, new_tmmbr ssrc bitrate overhead = Got f ∧ tmmbr_ok f
      ∧ tm_GetBitrate f <= bitrate ∧ (bitrate - tm_GetBitrate f) * 2 ^ 16 <= bitrate).
Proof.
  intros Hn Hb Hsender Hssrc Hov Hsize. cbv zeta.
  destruct (remb_payload ssrcs bitrate Hn Hb) as (Hlen & Hread & Hle & Hclose).
  set (remb := CreateReceiverEstimatedMaxBitrate ssrcs bitrate) in *.
  assert (alf_ok remb) as Half.
  { split; rewrite Hlen; [lia|]. Z.div_mod_to_equations. lia. }
  assert (Packet_GetSize (PPayloadFeedback 15 sender 0 [FAlf remb]) <= 2000) as Hps.
  { cbn. unfold ALF_GetSize, rtcp_common_size. rewrite Hlen, pad32_id by (Z.div_mod_to_equations; lia). lia. }
  split; [|split; [by eexists|]].
  - assert (Forall packet_ok [PPayloadFeedback 15 sender 0 [FAlf remb]]) as Hok.
    { constructor; [|constructor]. split; [lia|]. split; [lia|]. split; [done|]. split; [done|].
      split; [constructor; [by split|constructor]|]. intros _. simpl. lia. }
    apply (compound_back [PPayloadFeedback 15 sender 0 [FAlf remb]] size Hok); [simpl; lia|cbn -[Packet_GetSize]; lia].
  - intros Hmax. unfold is_dword in Hb. unfold new_tmmbr, tm_SetBitrate.
    destruct (tmmbr_exponent_spec bitrate 64 0 15) as (e & -> & He & Hle' & Hmin);
      [lia|lia|lia|change (Z.shiftl 0x1FFFF 15) with 0xFFFF8000; lia|].
    destruct (mantissa_close 17 bitrate e) as (Hm & Hm2 & Hm3); [lia|lia|by split; [lia|exact Hle']|exact Hmin|].
    eexists. split; [reflexivity|]. split.
    { split; [exact Hssrc|]. split; [simpl; lia|]. split; [exact Hm|exact Hov]. }
    unfold tm_GetBitrate. cbn [cbind tm_maxTotalBitrateMantissa tm_maxTotalBitrateExp].
    rewrite to_dword_id; [split; [exact Hm2|exact Hm3]|]. unfold is_dword.
    split; [rewrite Z.shiftl_nonneg; lia|lia].
Qed.

(** ** Witnesses *)

(** A receiver report for one source, its CNAME, a NACK, the report a generator has built, and a BYE
    with a reason. *)
Definition sample_compound : RTCPCompoundPacket :=
  [PReceiverReport 7 [replicate 24 1];
   PSDES [mkDesc 7 [mkItem 1 (octets "me")]];
   PRTPFeedback 1 7 9 [FNack (mkNackField 100 3); FNack (mkNackField 300 0)];
   PRTPFeedback 15 7 9 [FTransport sample_report];
   PBye [7] (Some (octets "bye"))].
Definition sample_octets : bytes := @Compound_Serialize network_order network_order_more 1500 sample_compound.

Lemma sample_octets_ok : bytes_ok sample_octets.
Proof. unfold bytes_ok. apply (bool_decide_unpack _). vm_compute; exact I. Qed.

Lemma compound_is_read_inside_witness :
  @Compound_Parse network_order network_order_more sample_octets = Got (as_read <$> sample_compound)
  ∧ ∃ chunks, Forall framed chunks ∧ sample_octets = mjoin chunks
    ∧ as_read <$> sample_compound = omap (@read_packet network_order network_order_more) chunks.
Proof.
  pose proof (@compound_is_read_inside network_order network_order_more network_order_laws network_order_more_laws
    sample_octets sample_octets_ok ltac:(vm_compute; reflexivity)) as H.
  assert (@Compound_Parse network_order network_order_more sample_octets = Got (as_read <$> sample_compound)) as E
    by (vm_compute; reflexivity).
  split; [exact E|]. rewrite E in H. apply H.
Defined.

(** Closed arithmetic. *)
Ltac closed := vm_compute; first [reflexivity | let H := fresh in intros H; discriminate H].

Lemma sample_report_ok : twcc_ok sample_report.
Proof.
  split; [split; closed..|vm_compute; repeat split|].
  let l := eval vm_compute in (tf_packets sample_report) in change (tf_packets sample_report) with l.
  repeat (constructor; [vm_compute; repeat split; intros H; discriminate H|]). constructor.
Qed.

Lemma sample_compound_ok : Forall (@packet_ok network_order_more) sample_compound.
Proof.
  constructor; [|constructor; [|constructor; [|constructor; [|constructor; [|constructor]]]]]; (split; [closed|]).
  - split; [split; closed|]. split; [|closed]. constructor; [closed|constructor].
  - split; [|closed]. constructor; [|constructor]. split; [split; closed|]. split; [|closed].
    constructor; [|constructor]. split; [split; closed|closed].
  - split; [split; closed|]. split; [split; closed|]. split; [split; closed|]. split.
    + constructor; [|constructor; [|constructor]]; (split; [closed|split; split; closed]).
    + intros H. apply list_elem_of_singleton in H. discriminate H.
  - split; [split; closed|]. split; [split; closed|]. split; [split; closed|]. split; [|intros _; simpl; lia].
    constructor; [|constructor]. split; [reflexivity|]. split; [exact sample_report_ok|split; closed].
  - split; [constructor; [split; closed|constructor]|]. split; [closed|]. split; [closed|]. split; closed.
Qed.

Lemma compound_roundtrip_witness :
  @Compound_Parse network_order network_order_more sample_octets = Got (as_read <$> sample_compound).
Proof.
  apply (@compound_roundtrip network_order network_order_more network_order_laws network_order_more_laws
    sample_compound 1500).
  - exact sample_compound_ok.
  - vm_compute. intros H; discriminate H.
  - vm_compute. intros H; discriminate H.
Defined.

Lemma rtcp_serialize_stays_in_buffer_witness :
  Zlen (@Compound_Serialize network_order network_order_more 40
          [PReceiverReport 7 (replicate 32 (replicate 24 1))]) <= 40.
Proof.
  apply (@rtcp_serialize_stays_in_buffer network_order network_order_more network_order_laws network_order_more_laws).
  - constructor; [|constructor]. apply Forall_replicate. reflexivity.
  - lia.
Defined.

Lemma announced_bitrate_is_close_witness :
  @read_remb (al_payload (@CreateReceiverEstimatedMaxBitrate network_order [7; 8] 1000003)) = Some 1000000.
Proof.
  destruct (@announced_bitrate_is_close network_order network_order_more network_order_laws network_order_more_laws
    [7; 8] 1000003 1 2 0 2000) as (_ & (b & Hb & _) & _);
    [vm_compute; intros H; discriminate H|split; vm_compute; [intros H; discriminate H|reflexivity]..| |].
  - lia.
  - vm_compute in Hb. injection Hb as <-. vm_compute; reflexivity.
Defined.

(** ** Observations *)

(** The sequence number of a full intra request is written in octet 4 and read from octet 5: the
    peer of the same code reads 0. *)
Theorem intra_request_number_is_lost {W : WireOps} {V : MoreWireOps} {HW : WireLaws W} ssrc seq :
  is_dword ssrc → FIR_Parse (FIR_Serialize 8 (mkFirField ssrc seq)) = Got (mkFirField ssrc 0, 8).
Proof.
  intros Hs. unfold FIR_Serialize. rewrite Z.ltb_irrefl. cbn [fi_ssrc fi_seq]. unfold FIR_Parse, refuse_if.
  rewrite (proj2 (Z.ltb_ge _ _)) by (rewrite Zlen_app, Zlen_put4; done).
  rewrite (rd4_at [] _ _ 0 eq_refl : rd_with 4 get4 (put4 ssrc ++ _) 0 = _). cbn [cbind].
  destruct (put4_octets ssrc) as (a & b & c & d & ->). cbn [app].
  rewrite rd1_in by done. cbn [cbind]. octets_at. by rewrite to_dword_id.
Qed.

(** A BYE whose reason does not fill a word, and a video back channel message whose contents do not,
    announce fewer octets than they have: the compound is refused, or the message is lost. *)
Theorem unpadded_packets_are_lost :
  let bye := PBye [7] (Some (octets "by")) in
  let vbcm := PPayloadFeedback 7 1 2 [FVbcm (mkVbcm 2 0 96 [1; 2])] in
  @Compound_Parse network_order network_order_more (@Compound_Serialize network_order network_order_more 1500 [bye]) = Refuse
  ∧ @Compound_Parse network_order network_order_more (@Compound_Serialize network_order network_order_more 1500 [vbcm]) = Got [].
Proof. split; vm_compute; reflexivity. Qed.

(** With more than 31 reports the header announces them all and five bits count them: the receiver
    report that is written is shorter than announced. *)
Theorem many_reports_are_refused :
  let rr := PReceiverReport 7 (replicate 33 (replicate 24 1)) in
  @Compound_Parse network_order network_order_more (@Compound_Serialize network_order network_order_more 1500 [rr]) = Refuse.
Proof. vm_compute; reflexivity. Qed.
