(* ===== verification/RtpBuffer.v ===== *)
(** * The reordering buffer

    [RTPBuffer] (src/mcu/include/rtpbuffer.h): received packets wait in the order of their
    extended sequence number until the thread that decodes them asks for the next one.  Every
    method holds the mutex; [Wait] gives it up only while it sleeps, so that a call of [Wait] is a
    series of rounds ([wait_once]) between which the other calls run.  What a call does to the
    packets it owns, handing one to the caller or deleting it, is a list of [Effect]s. *)

From S2P Require Import Prelude OrderedMap Wire Octets RtpPacket.

(** [(DWORD)-1]: nothing is expected in particular. *)
Definition NoNext : Z := 2 ^ 32 - 1.
Definition MaxQueuedMs : Z := 500.

Record RTPBuffer := mkBuffer {
  b_packets : list (Z * RTPTimedPacket);    (** [RTPOrderedPackets] *)
  b_cancel : bool;
  b_hurryUp : bool;
  b_next : Z;
  b_maxWaitTime : Z;
  b_bigJumps : Z;
  b_lastSsrc : Z;
  b_hasSsrc : bool;
  b_lastDropLogMs : Z;
  b_droppedSinceLog : Z;
}.

Definition new_buffer : RTPBuffer := mkBuffer [] false false NoNext 0 0 0 false 0 0.

Inductive Effect := Delivered (p : RTPTimedPacket) | Deleted (p : RTPTimedPacket).

Definition b_set_queue (l : list (Z * RTPTimedPacket)) (next : Z) (b : RTPBuffer) : RTPBuffer :=
  mkBuffer l (b_cancel b) (b_hurryUp b) next (b_maxWaitTime b) (b_bigJumps b) (b_lastSsrc b)
    (b_hasSsrc b) (b_lastDropLogMs b) (b_droppedSinceLog b).
Definition b_set_next (next jumps : Z) (b : RTPBuffer) : RTPBuffer :=
  mkBuffer (b_packets b) (b_cancel b) (b_hurryUp b) next (b_maxWaitTime b) jumps (b_lastSsrc b)
    (b_hasSsrc b) (b_lastDropLogMs b) (b_droppedSinceLog b).
Definition b_set_source (ssrc : Z) (has : bool) (b : RTPBuffer) : RTPBuffer :=
  mkBuffer (b_packets b) (b_cancel b) (b_hurryUp b) (b_next b) (b_maxWaitTime b) (b_bigJumps b) ssrc
    has (b_lastDropLogMs b) (b_droppedSinceLog b).
Definition b_set_flags (cancel hurry : bool) (b : RTPBuffer) : RTPBuffer :=
  mkBuffer (b_packets b) cancel hurry (b_next b) (b_maxWaitTime b) (b_bigJumps b) (b_lastSsrc b)
    (b_hasSsrc b) (b_lastDropLogMs b) (b_droppedSinceLog b).
Definition b_set_log (ms dropped : Z) (b : RTPBuffer) : RTPBuffer :=
  mkBuffer (b_packets b) (b_cancel b) (b_hurryUp b) (b_next b) (b_maxWaitTime b) (b_bigJumps b)
    (b_lastSsrc b) (b_hasSsrc b) ms dropped.

(** The loop of [DropOverflow]: the packets dropped at the head, and what stays. *)
Fixpoint drop_old (now : Z) (l : list (Z * RTPTimedPacket))
  : list RTPTimedPacket * list (Z * RTPTimedPacket) :=
  match l with
  | [] => ([], [])
  | (k, p) :: l' =>
      if now <? to_qword (tp_time p + MaxQueuedMs) then ([], l)
      else let '(dropped, rest) := drop_old now l' in (p :: dropped, rest)
  end.

Definition DropOverflow (now : Z) (b : RTPBuffer) : list Effect * RTPBuffer :=
  let '(dropped, rest) := drop_old now (b_packets b) in
  match dropped with
  | [] => ([], b)
  | _ =>
      let b := b_set_queue rest NoNext b in
      let since := to_dword (b_droppedSinceLog b + Zlen dropped) in
      (Deleted <$> dropped,
       if to_qword (b_lastDropLogMs b + 1000) <=? now then b_set_log now 0 b
       else b_set_log (b_lastDropLogMs b) since b)
  end.

(** [packets.emplace] and what follows it. *)
Definition enqueue (extseqn : Z) (rtp : RTPTimedPacket) (b : RTPBuffer)
  : bool * list Effect * RTPBuffer :=
  match om_find extseqn (b_packets b) with
  | Some _ => (true, [Deleted rtp], b)
  | None =>
      let b := b_set_queue (om_set extseqn rtp (b_packets b)) (b_next b) b in
      let '(effects, b) := DropOverflow (tp_time rtp) b in
      (true, effects, b)
  end.

Definition Add (rtp : RTPTimedPacket) (b : RTPBuffer) : bool * list Effect * RTPBuffer :=
  let extseqn := GetExtSeqNum (tp_rtp rtp) in
  let ssrc := GetSSRC (tp_rtp rtp) in
  let b := if b_hasSsrc b && negb (ssrc =? b_lastSsrc b) then b_set_next NoNext 0 b else b in
  let b := b_set_source ssrc true b in
  if negb (b_next b =? NoNext) && (extseqn <? b_next b) then
    let jumps := b_bigJumps b + 1 in
    if 20 <? jumps then enqueue extseqn rtp (b_set_next NoNext 0 b)
    else (false, [Deleted rtp], b_set_next (b_next b) jumps b)
  else enqueue extseqn rtp b.

Definition Cancel (b : RTPBuffer) : RTPBuffer := b_set_flags true (b_hurryUp b) b.
Definition HurryUp (b : RTPBuffer) : RTPBuffer := b_set_flags (b_cancel b) true b.
Definition Length (b : RTPBuffer) : Z := to_dword (Zlen (b_packets b)).
Definition SetMaxWaitTime (ms : Z) (b : RTPBuffer) : RTPBuffer :=
  mkBuffer (b_packets b) (b_cancel b) (b_hurryUp b) (b_next b) ms (b_bigJumps b) (b_lastSsrc b)
    (b_hasSsrc b) (b_lastDropLogMs b) (b_droppedSinceLog b).

(** [ClearPackets] and [Clear] *)
Definition ClearPackets (b : RTPBuffer) : list Effect * RTPBuffer :=
  (Deleted <$> (b_packets b).*2, b_set_queue [] (b_next b) b).

Definition Reset (clear : bool) (b : RTPBuffer) : list Effect * RTPBuffer :=
  let b := b_set_flags false (b_hurryUp b) b in
  if clear then
    let '(effects, b) := ClearPackets b in
    (effects, b_set_next NoNext 0 (b_set_source (b_lastSsrc b) false b))
  else ([], b_set_next (b_next b) 0 b).

(** The end of a round of [Wait]: a packet, [NULL], or a sleep of at most so many milliseconds
    (as long as nobody signals when [None]). *)
Inductive WaitRound := Got_packet (p : RTPTimedPacket) | Got_null | Sleep (ms : option Z).

(** A round of the loop of [Wait]: [now] is [getTime() / 1000], [remaining] the time left until the
    caller's deadline, if it gave one. *)
Definition wait_once (remaining : option Z) (now : Z) (b : RTPBuffer) : WaitRound * RTPBuffer :=
  if b_cancel b then (Got_null, b)
  else
    let expired := match remaining with Some ms => ms <=? 0 | None => false end in
    match b_packets b with
    | (seq, candidate) :: rest =>
        let due := to_qword (tp_time candidate + b_maxWaitTime b) in
        if (b_next b =? NoNext) || (seq =? b_next b) || (due <=? now) || b_hurryUp b
        then (Got_packet candidate, b_set_queue rest (to_dword (seq + 1)) b)
        else if expired then (Got_null, b)
        else (Sleep (Some (match remaining with
                           | Some ms => Z.min ms (due - now)
                           | None => due - now
                           end)), b)
    | [] =>
        let b := b_set_flags (b_cancel b) false b in
        if expired then (Got_null, b) else (Sleep remaining, b)
    end.

(** ** The calls, in the order in which they take the mutex *)

Inductive BufferCall :=
  | CAdd (p : RTPTimedPacket)
  | CWait (remaining : option Z) (now : Z)      (** a round of [Wait] *)
  | CCancel
  | CHurryUp
  | CClear
  | CReset (clear : bool)
  | CSetMaxWaitTime (ms : Z).

Definition buffer_call (b : RTPBuffer) (c : BufferCall) : list Effect * RTPBuffer :=
  match c with
  | CAdd p => let '(_, effects, b) := Add p b in (effects, b)
  | CWait remaining now =>
      match wait_once remaining now b with
      | (Got_packet p, b) => ([Delivered p], b)
      | (_, b) => ([], b)
      end
  | CCancel => ([], Cancel b)
  | CHurryUp => ([], HurryUp b)
  | CClear => ClearPackets b
  | CReset clear => Reset clear b
  | CSetMaxWaitTime ms => ([], SetMaxWaitTime ms b)
  end.

Fixpoint buffer_calls (b : RTPBuffer) (cs : list BufferCall) : list Effect * RTPBuffer :=
  match cs with
  | [] => ([], b)
  | c :: cs =>
      let '(e1, b) := buffer_call b c in
      let '(e2, b) := buffer_calls b cs in
      (e1 ++ e2, b)
  end.

(** A whole [Wait]: each entry of [rounds] is what the other threads call during the sleep before
    a round, and the arguments of that round.  [None] when it still sleeps after the last. *)
Fixpoint Wait (rounds : list (list BufferCall * (option Z * Z))) (b : RTPBuffer)
  : list Effect * option (option RTPTimedPacket) * RTPBuffer :=
  match rounds with
  | [] => ([], None, b)
  | (others, (remaining, now)) :: rounds =>
      let '(effects, b) := buffer_calls b others in
      match wait_once remaining now b with
      | (Got_packet p, b) => (effects, Some (Some p), b)
      | (Got_null, b) => (effects, Some None, b)
      | (Sleep _, b) =>
          let '(effects', r, b) := Wait rounds b in (effects ++ effects', r, b)
      end
  end.

(** [~RTPBuffer], once the last [Wait] has returned. *)
Definition destroy (b : RTPBuffer) : list Effect * RTPBuffer :=
  ClearPackets (b_set_flags true (b_hurryUp b) b).
