(* ===== verification/RtpBufferClaims.v ===== *)
(** * What the reordering buffer guarantees

    The queue stays sorted and never holds a packet older than the one expected; from that follow
    the order of the deliveries, and that each packet is disposed of once. *)

From S2P Require Import Prelude OrderedMap Wire Octets RtpPacket RtpBuffer.

(** ** Packets in and out *)

Definition effect_packet (e : Effect) : RTPTimedPacket :=
  match e with Delivered p | Deleted p => p end.
Definition delivered (es : list Effect) : list RTPTimedPacket :=
  omap (λ e, match e with Delivered p => Some p | Deleted _ => None end) es.
Definition added (cs : list BufferCall) : list RTPTimedPacket :=
  omap (λ c, match c with CAdd p => Some p | _ => None end) cs.
Definition extseq (p : RTPTimedPacket) : Z := GetExtSeqNum (tp_rtp p).

(** An extended sequence number, short of the last one, which stands for "none". *)
Definition typed_call (c : BufferCall) : Prop :=
  match c with CAdd p => 0 <= extseq p < NoNext | _ => True end.

(** The queue: sorted, each packet under its number, and none before the one expected. *)
Record queue_ok (b : RTPBuffer) : Prop := mkQueueOk {
  q_sorted : om_sorted (b_packets b);
  q_keys : ∀ k p, (k, p) ∈ b_packets b → k = extseq p ∧ 0 <= k < NoNext;
  q_next : b_next b = NoNext ∨ ∀ k p, (k, p) ∈ b_packets b → b_next b <= k;
}.

(** No resynchronisation: something is expected before, between and after the calls. *)
Fixpoint steady (b : RTPBuffer) (cs : list BufferCall) : bool :=
  negb (b_next b =? NoNext) &&
  match cs with [] => true | c :: cs => steady (buffer_call b c).2 cs end.

(** Nobody is in a hurry, and the rounds come before the first packet has waited [maxWaitTime]. *)
Definition patient_round (b : RTPBuffer) (c : BufferCall) : bool :=
  match c, b_packets b with
  | CWait _ now, (_, p) :: _ => (now <? to_qword (tp_time p + b_maxWaitTime b)) && negb (b_hurryUp b)
  | _, _ => true
  end.
Fixpoint patient (b : RTPBuffer) (cs : list BufferCall) : bool :=
  match cs with [] => true | c :: cs => patient_round b c && patient (buffer_call b c).2 cs end.

Lemma drop_old_app now l : (drop_old now l).1 ++ (drop_old now l).2.*2 = l.*2.
Proof.
  induction l as [|[k p] l IH]; simpl; [done|]. case_goal; [done|].
  destruct (drop_old now l). simpl in *. by rewrite IH.
Qed.

Lemma drop_old_suffix now l : ∃ pre, l = pre ++ (drop_old now l).2.
Proof.
  induction l as [|[k p] l [pre IH]]; simpl; [by exists []|]. case_goal; [by exists []|].
  destruct (drop_old now l). simpl in *. exists ((k, p) :: pre). by rewrite IH at 1.
Qed.

Lemma effect_deleted (ps : list RTPTimedPacket) : effect_packet <$> (Deleted <$> ps) = ps.
Proof. rewrite <- list_fmap_compose. apply list_fmap_id. Qed.

Lemma delivered_deleted (ps : list RTPTimedPacket) : delivered (Deleted <$> ps) = [].
Proof. by induction ps. Qed.

Lemma delivered_app e1 e2 : delivered (e1 ++ e2) = delivered e1 ++ delivered e2.
Proof. apply omap_app. Qed.

(** What [DropOverflow] does, whatever it logs. *)
Lemma DropOverflow_spec now b e b' :
  DropOverflow now b = (e, b') →
  (b_packets b).*2 = (effect_packet <$> e) ++ (b_packets b').*2
  ∧ (∃ pre, b_packets b = pre ++ b_packets b')
  ∧ (b_next b' = NoNext ∨ b_next b' = b_next b ∧ b_packets b' = b_packets b)
  ∧ delivered e = [].
Proof.
  unfold DropOverflow. pose proof (drop_old_app now (b_packets b)) as Ha.
  pose proof (drop_old_suffix now (b_packets b)) as Hs.
  destruct (drop_old now (b_packets b)) as [[|d dropped] rest]; intros [= <- <-].
  - simpl in *. split_and!; auto. by exists [].
  - simpl in Ha, Hs. pose proof (effect_deleted (d :: dropped)) as He.
    pose proof (delivered_deleted (d :: dropped)) as Hd.
    split_and!; [|by case_goal|left; by case_goal|done].
    transitivity ((d :: dropped) ++ rest.*2); [done|]. rewrite <- He. by case_goal.
Qed.

(** Inserting into a queue in which nothing is expected after the packet. *)
Lemma enqueue_spec k p b ok e b' :
  queue_ok b → k = extseq p → 0 <= k < NoNext → (b_next b = NoNext ∨ b_next b <= k) →
  enqueue k p b = (ok, e, b') →
  (b_packets b).*2 ++ [p] ≡ₚ (effect_packet <$> e) ++ (b_packets b').*2
  ∧ queue_ok b' ∧ delivered e = [] ∧ (b_next b' = NoNext ∨ b_next b' = b_next b).
Proof.
  intros [Hs Hk Hn] Hp Hr Hle. unfold enqueue. destruct (om_find k (b_packets b)) eqn:Hf.
  - intros [= <- <- <-]. split_and!; [|by split|done|by right]. simpl. apply Permutation_app_comm.
  - destruct (DropOverflow _ _) as [e0 b0] eqn:Hd. intros [= <- <- <-].
    apply DropOverflow_spec in Hd as (Hperm & [pre Hpre] & Hnext & Hdel). simpl in *.
    split_and!; [| |done|naive_solver].
    + rewrite <- Hperm, om_set_perm by done. simpl. by rewrite Permutation_app_comm.
    + assert (Hin : ∀ j q, (j, q) ∈ b_packets b0 → (j, q) = (k, p) ∨ (j, q) ∈ b_packets b).
      { intros j q Hjq. apply (om_set_elem k p). rewrite Hpre. set_solver. }
      split.
      * apply (om_sorted_app pre). rewrite <- Hpre. by apply om_set_sorted.
      * intros j q [[= -> ->]|Hj]%Hin; [done|by apply Hk].
      * destruct Hnext as [?|[-> _]]; [by left|]. destruct Hle as [?|Hle]; [by left|].
        destruct Hn as [?|Hn]; [by left|]. right. intros j q [[= -> ->]|Hj]%Hin; [done|by eapply Hn].
Qed.

(** What a call delivers, and what it leaves expected. *)
Definition delivers (b : RTPBuffer) (c : BufferCall) (e : list Effect) (b' : RTPBuffer) : Prop :=
  (delivered e = [] ∧ (b_next b' = NoNext ∨ b_next b' = b_next b))
  ∨ ∃ p, delivered e = [p] ∧ b_next b' = extseq p + 1
      ∧ (b_next b = NoNext ∨ b_next b <= extseq p)
      ∧ (patient_round b c = true → b_next b = NoNext ∨ b_next b = extseq p).

Lemma queue_ok_same b b' :
  b_packets b' = b_packets b → (b_next b' = NoNext ∨ b_next b' = b_next b) → queue_ok b → queue_ok b'.
Proof. intros Hp Hn [Hs Hk Hq]. split; rewrite Hp; [done|done|]. destruct Hn as [?| ->]; auto. Qed.

Lemma queue_ok_empty b : b_packets b = [] → queue_ok b.
Proof. intros Hp. split; rewrite Hp; [apply om_sorted_nil|set_solver|]. right. set_solver. Qed.

Lemma Add_spec p b ok e b' :
  queue_ok b → typed_call (CAdd p) → Add p b = (ok, e, b') →
  (b_packets b).*2 ++ [p] ≡ₚ (effect_packet <$> e) ++ (b_packets b').*2
  ∧ queue_ok b' ∧ delivered e = [] ∧ (b_next b' = NoNext ∨ b_next b' = b_next b).
Proof.
  intros Hq Ht. unfold Add. fold (extseq p).
  set (b1 := if b_hasSsrc b && _ then _ else _). set (b2 := b_set_source _ true b1).
  assert (Hp : b_packets b2 = b_packets b) by (subst b1 b2; simpl; by case_goal).
  assert (Hn : b_next b2 = NoNext ∨ b_next b2 = b_next b) by (subst b1 b2; simpl; case_goal; auto).
  assert (Hq2 : queue_ok b2) by by eapply queue_ok_same.
  rewrite <- Hp. clearbody b2. clear b1. simpl in Ht.
  destruct (Z.eqb_spec (b_next b2) NoNext) as [He|He]; simpl; [|destruct (Z.ltb_spec (extseq p) (b_next b2))].
  - intros Hx. by destruct (enqueue_spec _ _ _ _ _ _ Hq2 eq_refl Ht ltac:(auto) Hx) as (? & ? & ? & [?| ->]); auto.
  - assert (Hq3 : ∀ jumps, queue_ok (b_set_next NoNext jumps b2) ∧ queue_ok (b_set_next (b_next b2) jumps b2)).
    { intros jumps. split; (eapply queue_ok_same; [..|exact Hq2]); auto. }
    case_goal.
    + intros Hx. by destruct (enqueue_spec _ _ _ _ _ _ (proj1 (Hq3 0)) eq_refl Ht ltac:(auto) Hx) as (? & ? & ? & [?| ->]); auto.
    + intros [= <- <- <-]. split_and!; [by rewrite Permutation_app_comm|apply Hq3|done|done].
  - intros Hx. by destruct (enqueue_spec _ _ _ _ _ _ Hq2 eq_refl Ht ltac:(auto) Hx) as (? & ? & ? & [?| ->]); auto.
Qed.

Lemma wait_spec remaining now b r b' :
  queue_ok b → wait_once remaining now b = (r, b') →
  match r with
  | Got_packet p =>
      (b_packets b).*2 = p :: (b_packets b').*2 ∧ queue_ok b' ∧ b_next b' = extseq p + 1
      ∧ (b_next b = NoNext ∨ b_next b <= extseq p)
      ∧ (patient_round b (CWait remaining now) = true → b_next b = NoNext ∨ b_next b = extseq p)
  | _ => b_packets b' = b_packets b ∧ b_next b' = b_next b
  end.
Proof.
  intros [Hs Hk Hn]. unfold wait_once, patient_round. destruct (b_cancel b); [by intros [= <- <-]|].
  destruct (b_packets b) as [|[k p] l] eqn:Hp.
  { destruct (match remaining with Some _ => _ | None => _ end); intros [= <- <-]; done. }
  destruct (Hk k p ltac:(left)) as [Hkp Hkr]. apply om_sorted_cons in Hs as [Hs Hlt].
  assert (Hw : to_dword (k + 1) = k + 1) by (apply to_dword_id; unfold is_dword, NoNext in *; lia).
  destruct (_ || _) eqn:Hgo; [|destruct (match remaining with Some _ => _ | None => _ end); by intros [= <- <-]].
  intros [= <- <-]. simpl. rewrite Hw. split_and!; [done| |lia| |].
  - split; simpl; [done|intros j q Hj; apply Hk; by right|]. right. intros j q Hj. specialize (Hlt j q Hj). lia.
  - destruct Hn as [?|Hn]; [by left|]. right. specialize (Hn k p ltac:(left)). lia.
  - intros [Hw1 Hw2]%andb_true_iff. ztests. rewrite Hw2 in *.
    rewrite orb_false_r, !orb_true_iff, !Z.eqb_eq, Z.leb_le in *. lia.
Qed.

Lemma call_spec b c e b' :
  queue_ok b → typed_call c → buffer_call b c = (e, b') →
  (b_packets b).*2 ++ added [c] ≡ₚ (effect_packet <$> e) ++ (b_packets b').*2
  ∧ queue_ok b' ∧ delivers b c e b'.
Proof.
  intros Hq Ht. unfold delivers.
  destruct c as [p|remaining now| | | |clear|ms]; simpl; rewrite ?app_nil_r.
  - destruct (Add p b) as [[ok e0] b0] eqn:Ha. intros [= <- <-]. apply Add_spec in Ha; naive_solver.
  - destruct (wait_once remaining now b) as [r b0] eqn:Hw. apply wait_spec in Hw; [|done].
    destruct r; intros [= <- <-].
    + destruct Hw as (-> & ? & ? & ? & ?). split_and!; [done|done|]. right. by exists p.
    + destruct Hw as [Hp ?]. split_and!; [by rewrite Hp|apply (queue_ok_same b); auto|left; auto].
    + destruct Hw as [Hp ?]. split_and!; [by rewrite Hp|apply (queue_ok_same b); auto|left; auto].
  - intros [= <- <-]. split_and!; [done|by eapply queue_ok_same; [| |exact Hq]; auto|auto].
  - intros [= <- <-]. split_and!; [done|by eapply queue_ok_same; [| |exact Hq]; auto|auto].
  - intros [= <- <-]. rewrite effect_deleted, delivered_deleted. simpl. rewrite app_nil_r.
    split_and!; [done|by apply queue_ok_empty|auto].
  - unfold Reset. destruct clear; intros [= <- <-].
    + rewrite effect_deleted, delivered_deleted. simpl. rewrite app_nil_r.
      split_and!; [done|by apply queue_ok_empty|auto].
    + split_and!; [done|by eapply queue_ok_same; [| |exact Hq]; auto|auto].
  - intros [= <- <-]. split_and!; [done|by eapply queue_ok_same; [| |exact Hq]; auto|auto].
Qed.

Lemma calls_spec cs b e b' :
  queue_ok b → Forall typed_call cs → buffer_calls b cs = (e, b') →
  (b_packets b).*2 ++ added cs ≡ₚ (effect_packet <$> e) ++ (b_packets b').*2 ∧ queue_ok b'.
Proof.
  revert b e. induction cs as [|c cs IH]; intros b e Hq Ht; simpl.
  { intros [= <- <-]. by rewrite app_nil_r. }
  apply Forall_cons in Ht as [Hc Ht].
  destruct (buffer_call b c) as [e1 b1] eqn:H1, (buffer_calls b1 cs) as [e2 b2] eqn:H2. intros [= <- <-].
  apply call_spec in H1 as (Hp1 & Hq1 & _); [|done..]. apply IH in H2 as [Hp2 Hq2]; [|done..].
  split; [|done]. rewrite fmap_app, <- app_assoc, <- Hp2, app_assoc, <- Hp1, <- app_assoc. f_equiv.
  by destruct c.
Qed.

Lemma new_buffer_ok : queue_ok new_buffer.
Proof. by apply queue_ok_empty. Qed.

Lemma ordered_from cs b e b' :
  queue_ok b → Forall typed_call cs → steady b cs = true → buffer_calls b cs = (e, b') →
  let seqs := extseq <$> delivered e in
  StronglySorted Z.lt seqs ∧ Forall (Z.le (b_next b)) seqs
  ∧ (patient b cs = true → seqs = seqZ (b_next b) (Zlen seqs)).
Proof.
  revert b e. induction cs as [|c cs IH]; intros b e Hq Ht; simpl.
  { intros _ [= <- <-]. split_and!; [constructor..|done]. }
  apply Forall_cons in Ht as [Hc Ht].
  destruct (buffer_call b c) as [e1 b1] eqn:H1, (buffer_calls b1 cs) as [e2 b2] eqn:H2. simpl.
  intros [Hb Hst]%andb_true_iff [= <- <-].
  assert (Hb1 : b_next b1 ≠ NoNext) by (destruct cs; simpl in Hst; ztests; done).
  apply call_spec in H1 as (_ & Hq1 & Hd); [|done..]. ztests.
  apply IH in H2 as (Hs & Hf & Hp); [|done..]. rewrite delivered_app, fmap_app.
  destruct Hd as [(-> & [?|Hn])|(p & -> & Hn & Hle & Hpat)]; [done|..]; simpl.
  - rewrite <- Hn. split_and!; [done|done|]. intros [_ ?]%andb_true_iff. auto.
  - destruct Hle as [?|Hle]; [done|]. rewrite Hn in *. split_and!.
    + constructor; [done|]. eapply Forall_impl; [exact Hf|]. simpl. lia.
    + constructor; [done|]. eapply Forall_impl; [exact Hf|]. simpl. lia.
    + intros [Hr Hcs]%andb_true_iff. destruct (Hpat Hr) as [?|He]; [done|].
      rewrite Zlen_cons, seqZ_cons by (unfold Zlen; lia). rewrite He. f_equal.
      rewrite (Hp Hcs) at 1. f_equal; lia.
Qed.

(** ** The guarantees *)

(** C18. The buffer answers for every packet it was given: whatever is called in whatever order, a
    packet passed to [Add] is handed to the thread that decodes or deleted, once, or still queued;
    after the destructor no packet is left and none was freed twice. *)
Theorem packets_are_disposed_once cs e b :
  Forall typed_call cs → buffer_calls new_buffer cs = (e, b) →
  added cs ≡ₚ (effect_packet <$> e) ++ (b_packets b).*2
  ∧ added cs ≡ₚ effect_packet <$> e ++ (destroy b).1
  ∧ b_packets (destroy b).2 = [].
Proof.
  intros Ht H. apply calls_spec in H as [Hp _]; [|apply new_buffer_ok|done]. simpl in Hp.
  split_and!; [done| |done]. rewrite fmap_app. unfold destroy, ClearPackets. simpl.
  by rewrite effect_deleted.
Qed.

(** C17. Packets leave in the order of the stream: as long as the buffer does not resynchronise, the
    numbers delivered strictly increase, from the one expected; and as long as no packet waits
    [maxWaitTime] and nobody hurries the buffer, they are consecutive, however the packets were
    reordered on their way. *)
Theorem deliveries_in_order before cs e0 b e b' :
  Forall typed_call (before ++ cs) → buffer_calls new_buffer before = (e0, b) →
  steady b cs = true → buffer_calls b cs = (e, b') →
  let seqs := extseq <$> delivered e in
  StronglySorted Z.lt seqs ∧ Forall (Z.le (b_next b)) seqs
  ∧ (patient b cs = true → seqs = seqZ (b_next b) (Zlen seqs)).
Proof.
  intros [Ht1 Ht2]%Forall_app H0 Hs H. apply calls_spec in H0 as [_ Hq]; [|apply new_buffer_ok|done].
  by eapply ordered_from.
Qed.

(** A hole holds the stream up for [maxWaitTime] at most, counted from the arrival of the first
    packet behind it: [Wait] sleeps no longer than that and then returns this packet. *)
Theorem hole_is_skipped_in_time b k p rest now :
  b_cancel b = false → b_packets b = (k, p) :: rest → 0 <= b_maxWaitTime b →
  0 <= tp_time p <= now → now + b_maxWaitTime b < 2 ^ 64 →
  ∃ ms b', 0 <= ms <= b_maxWaitTime b ∧ now + ms <= Z.max now (tp_time p + b_maxWaitTime b)
    ∧ Wait [([], (None, now)); ([], (None, now + ms))] b = ([], Some (Some p), b').
Proof.
  intros Hc Hp Hm Ht Hn. simpl. unfold wait_once. rewrite Hc, Hp. simpl.
  unfold to_qword. rewrite Z.mod_small by lia.
  destruct (_ || b_hurryUp b) eqn:Hgo.
  - exists 0. eexists. split_and!; [lia|lia|lia|done].
  - rewrite !orb_false_iff in Hgo. destruct Hgo as [[[H1 H2] H3] H4]. ztests.
    exists (tp_time p + b_maxWaitTime b - now). eexists. split_and!; [lia..|].
    rewrite Hc, Hp. simpl. rewrite Z.mod_small, (proj2 (Z.leb_le _ _)) by lia.
    by rewrite orb_true_r.
Qed.

(** The packet at the head of the queue after one was added arrived less than [MaxQueuedMs] before it. *)
Theorem head_is_recent now l k p rest :
  (drop_old now l).2 = (k, p) :: rest → now < to_qword (tp_time p + MaxQueuedMs).
Proof.
  induction l as [|[j q] l IH]; simpl; [done|]. destruct (Z.ltb_spec now (to_qword (tp_time q + MaxQueuedMs))).
  - by intros [= -> -> ->].
  - destruct (drop_old now l). simpl in *. auto.
Qed.

(** ** At concrete inputs *)

Definition sample_packet (seq time : Z) : RTPTimedPacket :=
  mkTimed (SetSeqNum seq (new_rtp (replicate 12 0) 0 Audio 0 0)) time.

(** Packets 7, 9, 8 and 11 arrive, are waited for, and 10 is lost. *)
Definition sample_start : list BufferCall := [CSetMaxWaitTime 60; CAdd (sample_packet 7 0); CWait None 0].
Definition sample_calls : list BufferCall :=
  [CAdd (sample_packet 9 20); CWait None 20; CAdd (sample_packet 8 25); CWait None 25; CWait None 26;
   CAdd (sample_packet 11 40); CWait (Some 20) 40; CAdd (sample_packet 8 50); CHurryUp].

Lemma sample_calls_typed : Forall typed_call (sample_start ++ sample_calls).
Proof. unfold typed_call, NoNext. repeat constructor; vm_compute; done. Qed.

Lemma packets_are_disposed_once_witness :
  ∃ e b, buffer_calls new_buffer (sample_start ++ sample_calls) = (e, b)
    ∧ length (delivered e) = 3%nat ∧ length e = 4%nat ∧ b_packets (destroy b).2 = [].
Proof.
  destruct (buffer_calls new_buffer (sample_start ++ sample_calls)) as [e b] eqn:H.
  pose proof (packets_are_disposed_once _ e b sample_calls_typed H) as (_ & _ & Hd).
  exists e, b. split; [reflexivity|]. split_and!; [..|exact Hd]; vm_compute in H; injection H as <- <-; reflexivity.
Defined.

Lemma deliveries_in_order_witness :
  ∃ e b, buffer_calls (buffer_calls new_buffer sample_start).2 sample_calls = (e, b)
    ∧ patient (buffer_calls new_buffer sample_start).2 sample_calls = true
    ∧ extseq <$> delivered e = [8; 9].
Proof.
  destruct (buffer_calls new_buffer sample_start) as [e0 b0] eqn:H0.
  destruct (buffer_calls b0 sample_calls) as [e b] eqn:H.
  assert (Hs : steady b0 sample_calls = true) by (vm_compute in H0; injection H0 as <- <-; reflexivity).
  pose proof (deliveries_in_order _ _ _ _ _ _ sample_calls_typed H0 Hs H) as (_ & _ & Hc).
  exists e, b. split; [exact H|].
  assert (Hp : patient b0 sample_calls = true) by (vm_compute in H0; injection H0 as <- <-; reflexivity).
  split; [exact Hp|]. rewrite (Hc Hp).
  vm_compute in H0. injection H0 as <- <-. vm_compute in H. injection H as <- <-. reflexivity.
Defined.

Lemma hole_is_skipped_in_time_witness :
  ∃ b ms b', b_next b = 8 ∧ 0 <= ms <= 60
    ∧ Wait [([], (None, 30)); ([], (None, 30 + ms))] b = ([], Some (Some (sample_packet 9 20)), b').
Proof.
  pose (b := (buffer_calls new_buffer (sample_start ++ [CAdd (sample_packet 9 20)])).2).
  destruct (hole_is_skipped_in_time b 9 (sample_packet 9 20) [] 30) as (ms & b' & Hm & _ & H);
    [reflexivity|reflexivity|vm_compute; done|simpl; lia|vm_compute; done|].
  exists b, ms, b'. split_and!; [reflexivity|lia| |exact H].
  change (ms <= b_maxWaitTime b). lia.
Defined.

(** Late packets need not be consecutive to make the buffer resynchronise: a stream in which one
    packet out of two is late by 50 is followed for twenty packets, then the late packet is let in
    and delivered after more recent ones, and the late packets after it as well. *)
Definition late_now_and_then (n : Z) : list BufferCall :=
  [CAdd (sample_packet (100 + n) n); CWait None n; CAdd (sample_packet (50 + n) n)].

Theorem late_packets_add_up :
  extseq <$> delivered (buffer_calls new_buffer (mjoin (late_now_and_then <$> seqZ 0 23))).1
  = seqZ 100 21 ++ [70; 71].
Proof. vm_compute. reflexivity. Qed.
