(* ===== verification/RedCodec.v ===== *)
(** * Redundant text

    [RedundentCodec] (src/mcu/src/redcodec.cpp): text is sent with the two previous generations of
    it (RFC 4103, over the redundant payload of RFC 2198), so that the receiver restores what up to
    two lost packets carried.  The frames are classes of libmedkit: the class [FrameOps], with what
    the codec relies on in [FrameLaws].  The random offsets of empty blocks are the argument [rnd]. *)

From S2P Require Import Prelude OrderedMap Wire Octets RtpPacket.

(** [MediaFrame], [TextFrame] and the codes of [TextCodec] and [VideoCodec]. *)
Class FrameOps := {
  Frame : Type;
  f_GetType : Frame → MediaType;
  f_GetTimeStamp : Frame → Z;
  f_GetData : Frame → bytes;                (** [GetLength()] octets *)
  f_Clone : Frame → Frame;
  TextFrame : Z → bytes → Frame;            (** [TextFrame(ts, data, size)] *)
  EmptyFrame : Z → Frame;                   (** [TextFrame(ts, (wchar_t* )NULL, 0)] *)
  T140RED : Z;
  VideoRED : Z;
}.

Class FrameLaws (F : FrameOps) : Prop := {
  f_Clone_data f : f_GetData (f_Clone f) = f_GetData f;
  f_Clone_time f : f_GetTimeStamp (f_Clone f) = f_GetTimeStamp f;
  TextFrame_data ts d : f_GetData (TextFrame ts d) = d;
  EmptyFrame_data ts : f_GetData (EmptyFrame ts) = [];
}.

Definition MTU : Z := 1500.
Definition BOMUTF8 : bytes := [0xEF; 0xBB; 0xBF].
Definition LOSTREPLACEMENT : bytes := [0xEF; 0xBF; 0xBD].
Definition MaxLostReplacements : Z := 16.
(** [RTPPacket::MaxExtSeqNum]: no packet yet. *)
Definition MaxExtSeqNum : Z := 0xFFFFFFFF.

Section Codec.
Context {F : FrameOps}.

Record RedundentCodec := mkCodec {
  rc_lastSeq : Z;
  rc_reds : list Frame;
  rc_lastTime : Z;
  rc_idle : bool;
}.

Definition new_codec : RedundentCodec := mkCodec MaxExtSeqNum [] 0 true.

(** ** Receiving *)

(** The loop that restores lost packets: blocks [i] to [i + n - 1]. *)
Fixpoint recovered (red : RTPRedundantPacket) (i n : nat) : checked (list Frame) :=
  match n with
  | O => Got []
  | S n =>
      let? data := redundant_octets red i in
      let? rest := recovered red (S i) n in
      Got (TextFrame (GetRedundantTimestamp red i) data :: rest)
  end.

(** [Decode(red, textOutput)]: the frames sent to the output. *)
Definition Decode (red : RTPRedundantPacket) (c : RedundentCodec) : checked (list Frame * RedundentCodec) :=
  let p := tp_rtp (rr_timed red) in
  let timeStamp := GetTimestamp p in
  let seq := GetExtSeqNum p in
  let redundantCount := GetRedundantCount red in
  let lost := if negb (rc_lastSeq c =? MaxExtSeqNum) && (rc_lastSeq c <? seq)
              then seq - rc_lastSeq c - 1 else 0 in
  let c := mkCodec seq (rc_reds c) (rc_lastTime c) (rc_idle c) in
  let ts := if 0 <? redundantCount then GetRedundantTimestamp red 0 else timeStamp in
  let unrecovered := if redundantCount <? lost then lost - redundantCount else 0 in
  let unrecovered := if MaxLostReplacements <? unrecovered then MaxLostReplacements else unrecovered in
  let marks := replicate (Z.to_nat unrecovered) (TextFrame ts LOSTREPLACEMENT) in
  let lost := if redundantCount <? lost then redundantCount else lost in
  let? frames := recovered red (Z.to_nat (redundantCount - lost)) (Z.to_nat lost) in
  let? primary := primary_octets red in
  Got (marks ++ frames ++ [TextFrame timeStamp primary], c).

(** ** Sending *)

(** Octets written behind those already in [BYTE buffer\[MTU\]]. *)
Definition write_next (buf w : bytes) : checked bytes :=
  if Zlen buf + Zlen w <=? MTU then Got (buf ++ w) else Fault.

Fixpoint write_all (buf : bytes) (ws : list bytes) : checked bytes :=
  match ws with
  | [] => Got buf
  | w :: ws => let? buf := write_next buf w in write_all buf ws
  end.

(** The header of an empty block, with random numbers for its offset. *)
Definition empty_header (ptype : Z) (r : Z * Z) : bytes :=
  [to_byte (Z.lor 0x80 ptype); to_byte r.1; to_byte (Z.shiftl (Z.land r.2 0x3F) 2); 0].

(** The header of the block of a generation. *)
Definition block_header (ptype lastTime : Z) (f : Frame) : bytes :=
  let diff := to_dword (lastTime - f_GetTimeStamp f) in
  let len := Zlen (f_GetData f) in
  [to_byte (Z.lor 0x80 ptype); to_byte (Z.shiftr diff 6);
   to_byte (Z.lor (Z.shiftl (Z.land diff 0x3F) 2) (Z.shiftr len 8)); to_byte len].

Definition set_packet (f : RTPPacket → RTPPacket) (r : RTPRedundantPacket) : RTPRedundantPacket :=
  mkRedundant (mkTimed (f (tp_rtp (rr_timed r))) (tp_time (rr_timed r))) (rr_blocks r) (rr_primaryCodec r).

(** A generation that keeps the encoder busy: some text, the byte order mark apart. *)
Definition is_active (f : Frame) : bool :=
  negb (Zlen (f_GetData f) =? 0) && negb (bool_decide (f_GetData f = BOMUTF8)).

(** [Encode(frame, ptype)]; [mem], [len0] and [now] are those of the packet created. *)
Definition red_Encode (rnd : Z → Z * Z) (mem : bytes) (len0 now : Z) (frame : option Frame) (ptype : Z)
    (c : RedundentCodec) : checked (option RTPRedundantPacket * RedundentCodec) :=
  let reds := rc_reds c in
  let lastTime := rc_lastTime c in
  let? buffer := write_all [] (empty_header ptype ∘ rnd <$> seqZ 0 (2 - Zlen reds)) in
  let? buffer := write_all buffer (block_header ptype lastTime <$> reds) in
  let? buffer := write_next buffer [ptype] in
  let? buffer := write_all buffer (f_GetData <$> reds) in
  let isNotNull := bool_decide (is_Some frame) || existsb (λ f, negb (Zlen (f_GetData f) =? 0)) reds in
  let? buffer := match frame with Some f => write_next buffer (f_GetData f) | None => Got buffer end in
  let reds := reds ++ [match frame with Some f => f_Clone f | None => EmptyFrame lastTime end] in
  let mark := rc_idle c && bool_decide (is_Some frame) in
  let codec := match frame with
               | None => T140RED
               | Some f => if decide (f_GetType f = Video) then VideoRED else T140RED
               end in
  let media := match frame with Some f => f_GetType f | None => Text end in
  let packet := new_redundant mem len0 media codec now in
  let? set := red_SetPayload buffer packet in
  let packet := set_packet (SetMark mark) (set_packet (SetTimestamp lastTime) set.2) in
  let reds := if Zlen reds =? 3 then drop 1 reds else reds in
  let c := match frame with
           | Some f => mkCodec (rc_lastSeq c) reds (f_GetTimeStamp f) false
           | None => mkCodec (rc_lastSeq c) reds lastTime (negb (existsb is_active reds))
           end in
  Got (if isNotNull then Some packet else None, c).

Definition EncodeBOM (rnd : Z → Z * Z) (mem : bytes) (len0 now ptype : Z) (c : RedundentCodec) :=
  red_Encode rnd mem len0 now (Some (TextFrame 0 BOMUTF8)) ptype c.

Definition EncodeNull (rnd : Z → Z * Z) (mem : bytes) (len0 now ptype : Z) (c : RedundentCodec) :=
  red_Encode rnd mem len0 now None ptype c.

Definition EncoderIsIdle (c : RedundentCodec) : bool := rc_idle c.
End Codec.
