(* ===== verification/RedCodecClaims.v ===== *)
(** * What redundant text guarantees

    The payload the encoder builds is taken apart again by [DecodeRedundantPayload]; a receiver
    that misses up to two packets in a row gives its output every character of the sender. *)

From S2P Require Import Prelude OrderedMap Wire Octets RtpPacket RtpClaims RedCodec.

(** ** Reading two blocks and a primary *)

(** Four octets that announce a block of [n] octets. *)
Definition announces (h : bytes) (n : Z) : Prop :=
  ∃ a b c d, h = [a; b; c; d] ∧ 128 <= a ∧ to_word (Z.lor (Z.shiftl (Z.land c 3) 8) d) = n.

Definition two_blocks (payload d1 d2 d3 : bytes) : Prop :=
  ∃ h1 h2 pt, payload = h1 ++ h2 ++ [pt] ++ d1 ++ d2 ++ d3
    ∧ announces h1 (Zlen d1) ∧ announces h2 (Zlen d2) ∧ 0 <= pt < 128.

Lemma red_header_read fuel pre h n rest skip hs :
  announces h n → 0 < Zlen rest →
  ∃ t o, red_headers (S fuel) (pre ++ h ++ rest) (Zlen pre) skip hs
    = red_headers fuel (pre ++ h ++ rest) (Zlen pre + 4) (skip + n) (hs ++ [mkRed t t o skip n]).
Proof.
  intros (a & b & c & d & -> & Ha & Hn) Hr. cbn [red_headers].
  assert (Hb : Zlen (pre ++ [a; b; c; d] ++ rest) = Zlen pre + 4 + Zlen rest).
  { rewrite !Zlen_app, !Zlen_cons, Zlen_nil. lia. }
  assert (Hi : ∀ pre' o post, pre' ++ o :: post = pre ++ [a; b; c; d] ++ rest →
    rd1 (pre ++ [a; b; c; d] ++ rest) (Zlen pre') = Got o) by (intros pre' o post <-; by apply rd1_at).
  rewrite (Hi pre a ([b; c; d] ++ rest) eq_refl). cbn [cbind].
  destruct (Z.ltb_spec a 128); [lia|]. rewrite Hb. destruct (Z.ltb_spec (Zlen pre + 4 + Zlen rest) (Zlen pre + 4 + 1)); [lia|].
  replace (Zlen pre + 1) with (Zlen (pre ++ [a])) by (rewrite Zlen_app; done).
  replace (Zlen pre + 2) with (Zlen (pre ++ [a; b])) by (rewrite Zlen_app; done).
  replace (Zlen pre + 3) with (Zlen (pre ++ [a; b; c])) by (rewrite Zlen_app; done).
  rewrite (Hi _ b ([c; d] ++ rest)), (Hi _ c (d :: rest)), (Hi _ d rest) by (by rewrite <- !app_assoc).
  cbn [cbind]. rewrite Hn. by eexists _, _.
Qed.

Lemma two_blocks_decode payload d1 d2 d3 :
  two_blocks payload d1 d2 d3 →
  ∃ t1 o1 t2 o2 pt, DecodeRedundantPayload no_blocks payload
    = Got (mkBlocks [mkRed t1 t1 o1 0 (Zlen d1); mkRed t2 t2 o2 (Zlen d1) (Zlen d2)] pt (Zlen d3)
             (Some (9 + Zlen d1 + Zlen d2)) (Some 9)).
Proof.
  intros (h1 & h2 & pt & -> & H1 & H2 & Hpt).
  pose proof (Zlen_nonneg d1). pose proof (Zlen_nonneg d2). pose proof (Zlen_nonneg d3).
  assert (Hl1 : Zlen h1 = 4) by (destruct H1 as (? & ? & ? & ? & -> & _); done).
  assert (Hl2 : Zlen h2 = 4) by (destruct H2 as (? & ? & ? & ? & -> & _); done).
  assert (Hfuel : ∃ n, length (h1 ++ h2 ++ [pt] ++ d1 ++ d2 ++ d3) = S (S (S n))).
  { destruct H1 as (? & ? & ? & ? & -> & _). by eexists. }
  destruct Hfuel as [n Hfuel].
  assert (Hlen : Zlen (h1 ++ h2 ++ [pt] ++ d1 ++ d2 ++ d3) = 9 + Zlen d1 + Zlen d2 + Zlen d3).
  { rewrite !Zlen_app, Zlen_cons, Zlen_nil. lia. }
  unfold DecodeRedundantPayload. rewrite Hlen. destruct (Z.eqb_spec (9 + Zlen d1 + Zlen d2 + Zlen d3) 0); [lia|].
  rewrite Hfuel. cbn [rb_headers no_blocks].
  destruct (red_header_read (S (S n)) [] h1 (Zlen d1) (h2 ++ [pt] ++ d1 ++ d2 ++ d3) 0 []) as (t1 & o1 & E1).
  { done. } { rewrite !Zlen_app. change (Zlen [pt]) with 1. lia. }
  change (Zlen []) with 0 in E1. cbn [app] in E1. cbn [app]. rewrite E1. clear E1. change (0 + 4) with 4.
  destruct (red_header_read (S n) h1 h2 (Zlen d2) (pt :: d1 ++ d2 ++ d3) (0 + Zlen d1) [mkRed t1 t1 o1 0 (Zlen d1)])
    as (t2 & o2 & E2).
  { done. } { rewrite Zlen_cons, !Zlen_app. lia. }
  rewrite Hl1 in E2. cbn [app] in E2. rewrite E2. clear E2.
  cbn [red_headers]. replace (h1 ++ h2 ++ pt :: d1 ++ d2 ++ d3) with ((h1 ++ h2) ++ pt :: d1 ++ d2 ++ d3) in * by by rewrite <- app_assoc.
  rewrite !(rd1_at (h1 ++ h2) pt) by (rewrite Zlen_app; lia). cbn [cbind].
  destruct (Z.ltb_spec pt 128); [|lia]. cbn [cbind negb orb].
  destruct (Z.leb_spec (9 + Zlen d1 + Zlen d2 + Zlen d3) (4 + 4)); [lia|].
  rewrite !(rd1_at (h1 ++ h2) pt) by (rewrite Zlen_app; lia). cbn [cbind].
  destruct (Z.ltb_spec (9 + Zlen d1 + Zlen d2 + Zlen d3 - (4 + 4 + 1)) (0 + Zlen d1 + Zlen d2)); [lia|].
  exists t1, o1, t2, o2, (Z.land pt 127). do 3 f_equal; lia.
Qed.

(** A packet with the payload and the blocks found in it. *)
Definition decoded (R : RTPRedundantPacket) : Prop :=
  DecodeRedundantPayload no_blocks (media_octets (tp_rtp (rr_timed R))) = Got (rr_blocks R).

Definition carries (R : RTPRedundantPacket) (d1 d2 d3 : bytes) : Prop :=
  two_blocks (media_octets (tp_rtp (rr_timed R))) d1 d2 d3.

Lemma carried_blocks R d1 d2 d3 :
  decoded R → carries R d1 d2 d3 →
  GetRedundantCount R = 2 ∧ redundant_octets R 0 = Got d1 ∧ redundant_octets R 1 = Got d2
  ∧ primary_octets R = Got d3.
Proof.
  unfold decoded, carries. intros Hd Hc.
  destruct (two_blocks_decode _ _ _ _ Hc) as (t1 & o1 & t2 & o2 & pt & E). rewrite Hd in E. injection E as E.
  destruct Hc as (h1 & h2 & p & Hp & (? & ? & ? & ? & -> & _) & (? & ? & ? & ? & -> & _) & _).
  match type of Hp with _ = ?a ++ ?b ++ [p] ++ _ => set (pre := a ++ b ++ [p]) end.
  assert (Hpre : Zlen pre = 9) by done.
  assert (Hp' : media_octets (tp_rtp (rr_timed R)) = pre ++ d1 ++ d2 ++ d3) by done. clearbody pre.
  unfold GetRedundantCount, redundant_octets, primary_octets. rewrite E, Hp'.
  cbn [rb_headers rb_redundantData rb_primaryData rb_primarySize lookup list_lookup red_ini red_size].
  split_and!; [done|..].
  - by apply rd_copy_at.
  - rewrite app_assoc. apply rd_copy_at; [|done]. rewrite Zlen_app. lia.
  - rewrite !app_assoc. apply rd_copy_end; [|done]. rewrite !Zlen_app. lia.
Qed.

Section Text.
Context {F : FrameOps} {HF : FrameLaws F}.

Definition text_of (frames : list Frame) : bytes := mjoin (f_GetData <$> frames).

Lemma text_of_app a b : text_of (a ++ b) = text_of a ++ text_of b.
Proof. unfold text_of. by rewrite fmap_app, join_app. Qed.

(** The text a packet gives the output: what was lost as far as it carries it, and its own. *)
Lemma Decode_text R d1 d2 d3 c :
  decoded R → carries R d1 d2 d3 →
  let s := GetExtSeqNum (tp_rtp (rr_timed R)) in
  let lost := if negb (rc_lastSeq c =? MaxExtSeqNum) && (rc_lastSeq c <? s) then s - rc_lastSeq c - 1 else 0 in
  ∃ frames, Decode R c = Got (frames, mkCodec s (rc_reds c) (rc_lastTime c) (rc_idle c))
    ∧ text_of frames = mjoin (replicate (Z.to_nat (Z.min 16 (lost - 2))) LOSTREPLACEMENT)
                       ++ mjoin (drop (2 - Z.to_nat lost) [d1; d2]) ++ d3.
Proof.
  intros Hd Hc s lost. destruct (carried_blocks R d1 d2 d3 Hd Hc) as (Hn & H0 & H1 & Hp).
  unfold Decode. fold s. rewrite Hn. fold lost.
  assert (Hl : 0 <= lost).
  { unfold lost. destruct (_ && _) eqn:E; ztests; lia. }
  clearbody lost. change (0 <? 2) with true. cbn iota.
  assert (Hm : ∀ ts k, text_of (replicate k (TextFrame ts LOSTREPLACEMENT)) = mjoin (replicate k LOSTREPLACEMENT)).
  { intros ts k. unfold text_of. by rewrite fmap_replicate, TextFrame_data. }
  assert (Hr : let n := Z.to_nat (if 2 <? lost then 2 else lost) in
    ∃ frames, recovered R (2 - n) n = Got frames ∧ text_of frames = mjoin (drop (2 - n) [d1; d2])).
  { destruct (Z.ltb_spec 2 lost) as [|Hle]; [|assert (lost = 0 ∨ lost = 1 ∨ lost = 2) as [->|[->| ->]] by lia];
      simpl; rewrite ?H0; simpl; rewrite ?H1; simpl; (eexists; split; [reflexivity|]);
      unfold text_of; simpl; rewrite ?TextFrame_data, ?app_nil_r; reflexivity. }
  destruct Hr as (frames & Hr & Ht).
  replace (Z.to_nat (2 - (if 2 <? lost then 2 else lost))) with (2 - Z.to_nat (if (2 <? lost)%Z then 2%Z else lost))%nat
    by (destruct (2 <? lost) eqn:E; ztests; lia).
  rewrite Hr, Hp. cbn [cbind]. eexists. split; [done|].
  rewrite !text_of_app, Hm, Ht. unfold text_of. simpl. rewrite TextFrame_data, app_nil_r.
  replace (Z.to_nat (Z.min 16 (lost - 2))) with (Z.to_nat
    (if MaxLostReplacements <? (if 2 <? lost then lost - 2 else 0) then MaxLostReplacements
     else if 2 <? lost then lost - 2 else 0)) 
    by (unfold MaxLostReplacements; destruct (Z.ltb_spec 2 lost); [destruct (Z.ltb_spec 16 (lost - 2))|]; simpl; lia).
  do 4 f_equal. destruct (Z.ltb_spec 2 lost); lia.
Qed.

(** ** The packet of the encoder *)

Lemma first_octet ptype : 0 <= ptype < 128 → 128 <= to_byte (Z.lor 0x80 ptype).
Proof.
  intros Hp. assert (Z.lor 0x80 ptype = 1 * 2 ^ 7 + ptype) as -> by (apply (lor_shiftl 1 ptype 7); lia).
  unfold to_byte. rewrite Z.mod_small; lia.
Qed.

Lemma empty_header_announces ptype r : 0 <= ptype < 128 → announces (empty_header ptype r) 0.
Proof.
  intros Hp. eexists _, _, _, _. split; [done|]. split.
  - by apply first_octet.
  - rewrite Z.lor_0_r. change 0x3F with (Z.ones 6). change 3 with (Z.ones 2).
    unfold to_byte, to_word. rewrite !Z.land_ones, !Z.shiftl_mul_pow2 by lia.
    change (2 ^ 16) with 65536. change (2 ^ 8) with 256. change (2 ^ 2) with 4. change (2 ^ 6) with 64. Z.div_mod_to_equations. lia.
Qed.

Lemma block_header_announces ptype lastTime f :
  0 <= ptype < 128 → Zlen (f_GetData f) < 1024 →
  announces (block_header ptype lastTime f) (Zlen (f_GetData f)).
Proof.
  intros Hp Hf. pose proof (Zlen_nonneg (f_GetData f)) as H0. eexists _, _, _, _. split; [done|]. split.
  - by apply first_octet.
  - generalize (to_dword (lastTime - f_GetTimeStamp f)). intros diff. revert H0 Hf.
    generalize (Zlen (f_GetData f)). intros n H0 Hf.
    rewrite (lor_shiftl (Z.land diff 0x3F) (Z.shiftr n 8) 2) by (rewrite ?Z.shiftr_div_pow2 by lia; Z.div_mod_to_equations; lia).
    rewrite lor_shiftl by (unfold to_byte; Z.div_mod_to_equations; lia).
    bits_lia. change (2 ^ 16) with 65536. change (2 ^ 8) with 256. change (2 ^ 2) with 4. change (2 ^ 6) with 64. Z.div_mod_to_equations. lia.
Qed.

Lemma write_all_spec ws buf :
  Zlen buf <= MTU →
  write_all buf ws = if Zlen (buf ++ mjoin ws) <=? MTU then Got (buf ++ mjoin ws) else Fault.
Proof.
  revert buf. induction ws as [|w ws IH]; intros buf Hb; cbn [write_all].
  { change (mjoin []) with (@nil Z). rewrite app_nil_r. by destruct (Z.leb_spec (Zlen buf) MTU); [|lia]. }
  change (mjoin (w :: ws)) with (w ++ mjoin ws). unfold write_next.
  destruct (Z.leb_spec (Zlen buf + Zlen w) MTU) as [Hw|Hw]; cbn [cbind].
  - rewrite IH by (rewrite Zlen_app; lia). by rewrite <- app_assoc.
  - destruct (Z.leb_spec (Zlen (buf ++ w ++ mjoin ws)) MTU) as [Hx|Hx]; [|done].
    rewrite !Zlen_app in Hx. pose proof (Zlen_nonneg (mjoin ws)). lia.
Qed.

Definition frame_text (frame : option Frame) : bytes := from_option f_GetData [] frame.

(** What the encoder writes into its buffer. *)
Definition red_payload (rnd : Z → Z * Z) (ptype : Z) (frame : option Frame) (c : RedundentCodec) : bytes :=
  mjoin (empty_header ptype ∘ rnd <$> seqZ 0 (2 - Zlen (rc_reds c)))
  ++ mjoin (block_header ptype (rc_lastTime c) <$> rc_reds c) ++ [ptype]
  ++ mjoin (f_GetData <$> rc_reds c) ++ frame_text frame.

(** The generations the next packet carries besides its own, the oldest first. *)
Definition gens (c : RedundentCodec) : list bytes :=
  replicate (2 - length (rc_reds c)) [] ++ (f_GetData <$> rc_reds c).

Definition small (f : Frame) : Prop := Zlen (f_GetData f) <= 497.
Definition codec_ok (c : RedundentCodec) : Prop := (length (rc_reds c) <= 2)%nat ∧ Forall small (rc_reds c).

Definition has_text (d : bytes) : bool := negb (Zlen d =? 0).

Lemma red_payload_blocks rnd ptype frame c :
  codec_ok c → 0 <= ptype < 128 →
  ∃ g1 g2, gens c = [g1; g2] ∧ two_blocks (red_payload rnd ptype frame c) g1 g2 (frame_text frame)
    ∧ existsb (λ f, has_text (f_GetData f)) (rc_reds c) = has_text g1 || has_text g2
    ∧ Zlen g1 <= 497 ∧ Zlen g2 <= 497.
Proof.
  intros [Hl Hs] Hp. unfold red_payload, gens. destruct (rc_reds c) as [|a [|b [|? ?]]]; simpl in Hl; [..|lia].
  - exists [], []. split; [done|]. split_and!; [|done..].
    eexists (empty_header ptype (rnd 0)), (empty_header ptype (rnd 1)), ptype. split; [done|].
    split_and!; [by apply empty_header_announces..|lia|lia].
  - apply Forall_cons in Hs as [Ha _]. exists [], (f_GetData a). split; [done|].
    split_and!; [|simpl; by rewrite orb_false_r|done|done].
    eexists (empty_header ptype (rnd 0)), (block_header ptype (rc_lastTime c) a), ptype.
    split; [simpl; by rewrite !app_nil_r|].
    split_and!; [by apply empty_header_announces|apply block_header_announces; unfold small in *; lia|lia|lia].
  - apply Forall_cons in Hs as [Ha [Hb _]%Forall_cons]. exists (f_GetData a), (f_GetData b). split; [done|].
    split_and!; [|simpl; by rewrite orb_false_r|done|done].
    eexists (block_header ptype (rc_lastTime c) a), (block_header ptype (rc_lastTime c) b), ptype.
    split; [simpl; by rewrite !app_nil_r, <- !app_assoc|].
    split_and!; [apply block_header_announces; unfold small in *; lia..|lia|lia].
Qed.

Lemma two_blocks_length payload d1 d2 d3 :
  two_blocks payload d1 d2 d3 → Zlen payload = 9 + Zlen d1 + Zlen d2 + Zlen d3.
Proof.
  intros (h1 & h2 & pt & -> & (? & ? & ? & ? & -> & _) & (? & ? & ? & ? & -> & _) & _).
  rewrite !Zlen_app, !Zlen_cons, Zlen_nil. lia.
Qed.

Lemma over_prefix (x y : bytes) : MTU < Zlen x → (Zlen (x ++ y) <=? MTU) = false.
Proof. intros H. rewrite Zlen_app. pose proof (Zlen_nonneg y). apply Z.leb_gt. lia. Qed.

(** The writes of the encoder, and where they leave the buffer of [MTU] octets. *)
Lemma encoder_writes rnd ptype frame c {A} (k : bytes → checked A) :
  (let? buffer := write_all [] (empty_header ptype ∘ rnd <$> seqZ 0 (2 - Zlen (rc_reds c))) in
   let? buffer := write_all buffer (block_header ptype (rc_lastTime c) <$> rc_reds c) in
   let? buffer := write_next buffer [ptype] in
   let? buffer := write_all buffer (f_GetData <$> rc_reds c) in
   let? buffer := match frame with Some f => write_next buffer (f_GetData f) | None => Got buffer end in
   k buffer)
  = if Zlen (red_payload rnd ptype frame c) <=? MTU then k (red_payload rnd ptype frame c) else Fault.
Proof.
  unfold red_payload. set (w1 := mjoin (_ <$> seqZ _ _)). set (w2 := mjoin (block_header _ _ <$> _)).
  rewrite write_all_spec by done. fold w1. change ([] ++ w1) with w1.
  destruct (Z.leb_spec (Zlen w1) MTU) as [H1|H1]; cbn [cbind]; [|by rewrite over_prefix].
  rewrite write_all_spec by done. fold w2. rewrite (app_assoc w1).
  destruct (Z.leb_spec (Zlen (w1 ++ w2)) MTU) as [H2|H2]; cbn [cbind]; [|by rewrite over_prefix].
  unfold write_next at 1. rewrite <- Zlen_app, (app_assoc _ [ptype]).
  destruct (Z.leb_spec (Zlen ((w1 ++ w2) ++ [ptype])) MTU) as [H3|H3]; cbn [cbind]; [|by rewrite over_prefix].
  rewrite write_all_spec by done. rewrite (app_assoc _ (mjoin _)). set (w3 := _ ++ mjoin (f_GetData <$> _)).
  destruct (Z.leb_spec (Zlen w3) MTU) as [H4|H4]; cbn [cbind]; [|by rewrite over_prefix].
  destruct frame as [f|]; simpl.
  - unfold write_next. rewrite <- Zlen_app. by destruct (Zlen (w3 ++ f_GetData f) <=? MTU).
  - rewrite app_nil_r. by destruct (Z.leb_spec (Zlen w3) MTU); [|lia].
Qed.

Lemma set_payload_blocks payload d1 d2 d3 mem len0 media codec now ts mark :
  two_blocks payload d1 d2 d3 → Zlen payload <= MTU → Zlen mem = RTP_SIZE →
  ∃ ok r, red_SetPayload payload (new_redundant mem len0 media codec now) = Got (ok, r)
    ∧ carries (set_packet (SetMark mark) (set_packet (SetTimestamp ts) r)) d1 d2 d3
    ∧ decoded (set_packet (SetMark mark) (set_packet (SetTimestamp ts) r)).
Proof.
  intros Hb Hp Hm. pose proof (new_rtp_plain mem len0 media codec codec Hm) as H0.
  destruct (SetPayload_plain payload _ H0) as (Hok & H1 & Hmed); [unfold MTU in Hp; lia|].
  unfold red_SetPayload. simpl. destruct (SetPayload payload _) as [ok p] eqn:E. simpl in *. subst ok.
  destruct (two_blocks_decode _ _ _ _ Hb) as (t1 & o1 & t2 & o2 & pt & Hd). rewrite Hmed, Hd. simpl.
  destruct (SetTimestamp_keeps ts p H1) as [H2 Ht]. destruct (SetMark_keeps mark _ H2) as [_ Hk].
  eexists _, _. split; [done|]. unfold carries, decoded. simpl. by rewrite Hk, Ht, Hmed.
Qed.

(** The generations after a call: the oldest is gone. *)
Definition next_reds (frame : option Frame) (c : RedundentCodec) : list Frame :=
  let reds := rc_reds c ++ [match frame with Some f => f_Clone f | None => EmptyFrame (rc_lastTime c) end] in
  if Zlen reds =? 3 then drop 1 reds else reds.

Lemma next_reds_gens frame c c1 :
  codec_ok c → from_option small True frame → rc_reds c1 = next_reds frame c →
  codec_ok c1 ∧ gens c1 = drop 1 (gens c) ++ [frame_text frame].
Proof.
  intros [Hl Hs] Hf Hr. unfold codec_ok, gens. rewrite Hr. unfold next_reds.
  set (f := match frame with Some f => f_Clone f | None => _ end).
  assert (Hd : f_GetData f = frame_text frame).
  { unfold f. destruct frame; simpl; [apply f_Clone_data|apply EmptyFrame_data]. }
  assert (Hsm : small f).
  { unfold small. rewrite Hd. destruct frame; simpl in *; [done|]. rewrite Zlen_nil. lia. }
  destruct (rc_reds c) as [|a [|b [|? ?]]]; simpl in Hl; [..|lia]; rewrite ?Forall_cons in Hs;
    rewrite <- Hd; (split; [split; [simpl; lia|]|done]); rewrite ?Forall_cons, ?Forall_nil; simpl;
    naive_solver.
Qed.

Lemma encode_spec rnd mem len0 now frame ptype c :
  codec_ok c → from_option small True frame → Zlen mem = RTP_SIZE → 0 <= ptype < 128 →
  ∃ g1 g2 pk c1, gens c = [g1; g2] ∧ codec_ok c1 ∧ gens c1 = [g2; frame_text frame]
    ∧ carries pk g1 g2 (frame_text frame)
    ∧ red_Encode rnd mem len0 now frame ptype c
      = Got (if bool_decide (is_Some frame) || (has_text g1 || has_text g2) then Some pk else None, c1).
Proof.
  intros Hc Hf Hm Hp. destruct (red_payload_blocks rnd ptype frame c Hc Hp) as (g1 & g2 & Hg & Hb & He & Hg1 & Hg2).
  pose proof (two_blocks_length _ _ _ _ Hb) as Hlen.
  assert (Hft : Zlen (frame_text frame) <= 497) by (destruct frame; simpl in *; [done|rewrite Zlen_nil; lia]).
  unfold red_Encode. rewrite encoder_writes. unfold has_text in He. rewrite He.
  destruct (Z.leb_spec (Zlen (red_payload rnd ptype frame c)) MTU); [|unfold MTU in *; lia].
  edestruct set_payload_blocks as (ok & r & Hs & Hca & _); [exact Hb|done|exact Hm|]. rewrite Hs. cbn [cbind snd].
  eexists g1, g2, _, _. split; [done|]. refine (_ : _ ∧ _ ∧ _ ∧ _).
  split; [|split; [|split; [exact Hca|reflexivity]]].
  - by apply (next_reds_gens frame c _ Hc Hf); destruct frame.
  - edestruct (next_reds_gens frame c) as [_ Hn]; [exact Hc|exact Hf| |etrans; [exact Hn|by rewrite Hg]].
    by destruct frame.
Qed.

(** ** From sender to receiver *)

(** Calls of the encoder, the packets they return and the text of each of these packets. *)
Inductive sent (ptype : Z) : RedundentCodec → list RTPRedundantPacket → list bytes → Prop :=
  | sent_nothing c : sent ptype c [] []
  | sent_packet rnd mem len0 now frame c pk c1 pks texts :
      Zlen mem = RTP_SIZE → from_option small True frame →
      red_Encode rnd mem len0 now frame ptype c = Got (Some pk, c1) →
      sent ptype c1 pks texts → sent ptype c (pk :: pks) (frame_text frame :: texts)
  | sent_null rnd mem len0 now frame c c1 pks texts :
      Zlen mem = RTP_SIZE → from_option small True frame →
      red_Encode rnd mem len0 now frame ptype c = Got (None, c1) →
      sent ptype c1 pks texts → sent ptype c pks texts.

(** A packet received: the payload of the packet sent, taken apart, with its number. *)
Definition arrived (pk R : RTPRedundantPacket) (s : Z) : Prop :=
  media_octets (tp_rtp (rr_timed R)) = media_octets (tp_rtp (rr_timed pk)) ∧ decoded R
  ∧ GetExtSeqNum (tp_rtp (rr_timed R)) = s.

(** The packets that arrive after packet [prev], no more than two missing in a row; the last is [last]. *)
Inductive reception (pks : list RTPRedundantPacket) (base : Z) : nat → list RTPRedundantPacket → nat → Prop :=
  | no_more prev : reception pks base prev [] prev
  | one_more prev k pk R Rs last :
      (prev < k <= prev + 3)%nat → pks !! k = Some pk → arrived pk R (base + Z.of_nat k) →
      reception pks base k Rs last → reception pks base prev (R :: Rs) last.

Fixpoint receive (c : RedundentCodec) (Rs : list RTPRedundantPacket) : checked (list Frame * RedundentCodec) :=
  match Rs with
  | [] => Got ([], c)
  | R :: Rs =>
      let? res := Decode R c in
      let? rest := receive res.2 Rs in
      Got (res.1 ++ rest.1, rest.2)
  end.

Lemma has_text_false d : has_text d = false → d = [].
Proof. unfold has_text. intros H. ztests. destruct d; [done|]. rewrite Zlen_cons in H. pose proof (Zlen_nonneg d). lia. Qed.

Lemma sent_carries ptype c pks texts g1 g2 :
  0 <= ptype < 128 → sent ptype c pks texts → codec_ok c → gens c = [g1; g2] →
  ∀ k pk, pks !! k = Some pk →
  ∃ d1 d2 d3, (g1 :: g2 :: texts) !! k = Some d1 ∧ (g1 :: g2 :: texts) !! S k = Some d2
    ∧ texts !! k = Some d3 ∧ carries pk d1 d2 d3.
Proof.
  intros Hp Hs. revert g1 g2. induction Hs as [c|rnd mem len0 now frame c pk0 c1 pks texts Hm Hf He Hs IH
    |rnd mem len0 now frame c c1 pks texts Hm Hf He Hs IH]; intros g1 g2 Hc Hg k pk Hk; [done|..].
  - destruct (encode_spec rnd mem len0 now frame ptype c Hc Hf Hm Hp) as (a & b & pk1 & c2 & Hg' & Hc2 & Hg2 & Hca & He').
    rewrite Hg in Hg'. injection Hg' as <- <-. rewrite He in He'.
    destruct (_ || _) in He'; [|done]. injection He' as <- <-.
    destruct k as [|k]; [injection Hk as <-; by exists g1, g2, (frame_text frame)|].
    destruct (IH g2 (frame_text frame) Hc2 Hg2 k pk Hk) as (d1 & d2 & d3 & H1 & H2 & H3 & H4). by exists d1, d2, d3.
  - destruct (encode_spec rnd mem len0 now frame ptype c Hc Hf Hm Hp) as (a & b & pk1 & c2 & Hg' & Hc2 & Hg2 & Hca & He').
    rewrite Hg in Hg'. injection Hg' as <- <-. rewrite He in He'.
    destruct (_ || _) eqn:Hn in He'; [done|]. injection He' as <-.
    rewrite !orb_false_iff in Hn. destruct Hn as (Hfr & Ha%has_text_false & Hb%has_text_false). subst g1 g2.
    apply bool_decide_eq_false in Hfr. destruct frame; [by destruct Hfr|]. by apply (IH [] [] Hc2 Hg2).
Qed.

(** The text of the packets after [prev] up to [k]. *)
Definition texts_between (texts : list bytes) (prev k : nat) : bytes :=
  mjoin (take (k - prev) (drop (S prev) texts)).

Lemma texts_between_app texts i j k :
  (i <= j <= k)%nat → texts_between texts i k = texts_between texts i j ++ texts_between texts j k.
Proof.
  intros H. unfold texts_between. rewrite <- join_app. f_equal.
  replace (k - i)%nat with ((j - i) + (k - j))%nat by lia. rewrite <- take_take_drop.
  f_equal. rewrite drop_drop. do 2 f_equal. lia.
Qed.

Lemma texts_between_recovered texts prev k d1 d2 d3 :
  (prev < k <= prev + 3)%nat → ([] :: [] :: texts) !! k = Some d1 → ([] :: [] :: texts) !! S k = Some d2 →
  texts !! k = Some d3 →
  mjoin (drop (2 - (k - prev - 1)) [d1; d2]) ++ d3 = texts_between texts prev k.
Proof.
  intros Hk H1 H2 H3. unfold texts_between.
  assert (k = S prev ∨ k = S (S prev) ∨ k = S (S (S prev))) as [->|[->| ->]] by lia; simpl in *.
  - replace (S prev - prev)%nat with 1%nat by lia. replace (_ - _)%nat with 2%nat by lia.
    rewrite (drop_S _ _ _ H3). simpl. by rewrite app_nil_r.
  - replace (S (S prev) - prev)%nat with 2%nat by lia. replace (_ - _)%nat with 1%nat by lia.
    rewrite (drop_S _ _ _ H2), (drop_S _ _ _ H3). simpl. by rewrite !app_nil_r.
  - replace (S (S (S prev)) - prev)%nat with 3%nat by lia. replace (_ - _)%nat with 0%nat by lia.
    rewrite (drop_S _ _ _ H1), (drop_S _ _ _ H2), (drop_S _ _ _ H3). simpl. by rewrite !app_nil_r, app_assoc.
Qed.

Lemma receive_text pks texts base c prev Rs last :
  (∀ k pk, pks !! k = Some pk → ∃ d1 d2 d3, ([] :: [] :: texts) !! k = Some d1
     ∧ ([] :: [] :: texts) !! S k = Some d2 ∧ texts !! k = Some d3 ∧ carries pk d1 d2 d3) →
  0 <= base → base + Zlen pks <= MaxExtSeqNum → (prev < length pks)%nat →
  reception pks base prev Rs last → rc_lastSeq c = base + Z.of_nat prev →
  (prev <= last)%nat ∧ ∃ frames c', receive c Rs = Got (frames, c') ∧ text_of frames = texts_between texts prev last.
Proof.
  intros Hall Hb Hm Hpr Hr. revert c Hpr.
  induction Hr as [prev|prev k pk R Rs last Hk Hpk (Hmed & Hdec & Hseq) Hr IH]; intros c Hpr Hc.
  { split; [lia|]. eexists [], c. split; [done|]. unfold texts_between. by rewrite Nat.sub_diag. }
  destruct (Hall k pk Hpk) as (d1 & d2 & d3 & H1 & H2 & H3 & Hca).
  assert (Hca' : carries R d1 d2 d3) by (unfold carries; by rewrite Hmed).
  pose proof (lookup_lt_Some _ _ _ Hpk) as Hkl.
  destruct (Decode_text R d1 d2 d3 c Hdec Hca') as (fr & Hd & Ht). rewrite Hseq, Hc in Ht. rewrite Hseq in Hd.
  unfold Zlen in Hm. rewrite (proj2 (Z.eqb_neq _ MaxExtSeqNum)), (proj2 (Z.ltb_lt _ _)) in Ht by lia. cbn [negb andb] in Ht.
  replace (Z.to_nat (Z.min 16 _)) with 0%nat in Ht by lia.
  replace (Z.to_nat _) with (k - prev - 1)%nat in Ht by lia.
  rewrite (texts_between_recovered texts prev k) in Ht by (done || lia).
  destruct (IH (mkCodec (base + Z.of_nat k) (rc_reds c) (rc_lastTime c) (rc_idle c))) as (Hle & frs & c' & Hrc & Hrt); [done|done|].
  split; [lia|]. exists (fr ++ frs), c'. simpl. rewrite Hd. cbn [cbind snd fst]. rewrite Hrc. cbn [cbind].
  split; [done|]. rewrite text_of_app, Ht, Hrt, (texts_between_app texts prev k last) by lia. done.
Qed.
End Text.

(** C19. Text survives the loss of up to two packets in a row: whatever was typed (frames of at most
    497 octets, so that three of them fit in a packet) and whenever the encoder was called, a
    receiver that starts anywhere and never misses more than two packets in a row hands its output
    every octet of text from the first packet it saw to the last, in order, once, with no mark. *)
Theorem text_survives_two_losses {F : FrameOps} {HF : FrameLaws F} ptype pks texts base k0 pk0 R0 Rs last c :
  0 <= ptype < 128 → sent ptype new_codec pks texts →
  0 <= base → base + Zlen pks <= MaxExtSeqNum →
  pks !! k0 = Some pk0 → arrived pk0 R0 (base + Z.of_nat k0) → reception pks base k0 Rs last →
  rc_lastSeq c = MaxExtSeqNum →
  (k0 <= last)%nat ∧ ∃ frames c', receive c (R0 :: Rs) = Got (frames, c')
    ∧ text_of frames = mjoin (take (S last - k0) (drop k0 texts)).
Proof.
  intros Hp Hs Hb Hm Hk0 (Hmed & Hdec & Hseq) Hr Hc.
  assert (Hok : codec_ok new_codec) by (split; [simpl; lia|constructor]).
  pose proof (sent_carries ptype new_codec pks texts [] [] Hp Hs Hok eq_refl) as Hall.
  destruct (Hall k0 pk0 Hk0) as (d1 & d2 & d3 & _ & _ & H3 & Hca).
  assert (Hca' : carries R0 d1 d2 d3) by (unfold carries; by rewrite Hmed).
  destruct (Decode_text R0 d1 d2 d3 c Hdec Hca') as (fr & Hd & Ht). rewrite Hc in Ht. simpl in Ht.
  rewrite Hseq in Hd.
  destruct (receive_text pks texts base (mkCodec (base + Z.of_nat k0) (rc_reds c) (rc_lastTime c) (rc_idle c)) k0 Rs last)
    as (Hle & frs & c' & Hrc & Hrt); [done..|by eapply lookup_lt_Some|done|done|].
  split; [done|]. exists (fr ++ frs), c'. cbn [receive]. rewrite Hd. cbn [cbind snd fst]. rewrite Hrc. cbn [cbind].
  split; [done|]. rewrite text_of_app, Ht, Hrt, (drop_S _ _ _ H3).
  by replace (S last - k0)%nat with (S (last - k0)) by lia.
Qed.

(** ** At concrete inputs *)

Definition sample_frames : FrameOps := {|
  Frame := MediaType * Z * bytes;
  f_GetType f := f.1.1; f_GetTimeStamp f := f.1.2; f_GetData f := f.2; f_Clone f := f;
  TextFrame ts d := (Text, ts, d); EmptyFrame ts := (Text, ts, []); T140RED := 105; VideoRED := 116;
|}.

#[global] Instance sample_frames_laws : FrameLaws sample_frames.
Proof. by split. Qed.

(** The encoder called with each frame in turn. *)
Fixpoint encode_all (fs : list (option (Frame (FrameOps := sample_frames)))) (c : RedundentCodec)
  : list RTPRedundantPacket :=
  match fs with
  | [] => []
  | f :: fs =>
      match red_Encode (λ n, (n, n)) (replicate 1700 0) 0 0 f 98 c with
      | Got (Some pk, c) => pk :: encode_all fs c
      | Got (None, c) => encode_all fs c
      | _ => []
      end
  end.

Definition sample_text : list (option (Frame (FrameOps := sample_frames))) :=
  [Some (Text, 1000, octets "he"); Some (Text, 1300, octets "ll"); Some (Text, 1600, octets "o"); None].

Definition sample_packet_at (k : nat) : option RTPRedundantPacket :=
  set_packet (SetSeqNum (10 + Z.of_nat k)) <$> (encode_all sample_text new_codec !! k).

(** The packet with the third frame is stamped with the time of the second. *)
Theorem primary_has_the_previous_time :
  (λ pk, GetTimestamp (tp_rtp (rr_timed pk))) <$> encode_all sample_text new_codec = [0; 1000; 1300; 1600].
Proof. vm_compute. reflexivity. Qed.

(** Three frames of 498 octets overrun the buffer the packet is built in. *)
Theorem encoder_overruns :
  let c := mkCodec (F := sample_frames) MaxExtSeqNum [(Text, 0, replicate 498 65); (Text, 0, replicate 498 65)] 0 false in
  red_Encode (F := sample_frames) (λ n, (n, n)) (replicate 1700 0) 0 0 (Some (Text, 0, replicate 498 65)) 98 c = Fault.
Proof. vm_compute. reflexivity. Qed.

Lemma text_survives_two_losses_witness :
  ∃ R0 R3, sample_packet_at 0 = Some R0 ∧ sample_packet_at 3 = Some R3 ∧
  ∃ frames c, receive (F := sample_frames) new_codec [R0; R3] = Got (frames, c) ∧ text_of frames = octets "hello".
Proof.
  destruct (sample_packet_at 0) as [R0|] eqn:E0; [|vm_compute in E0; discriminate E0].
  destruct (sample_packet_at 3) as [R3|] eqn:E3; [|vm_compute in E3; discriminate E3].
  exists R0, R3. split; [reflexivity|]. split; [reflexivity|].
  destruct (encode_all sample_text new_codec) as [|p0 [|p1 [|p2 [|p3 [|? ?]]]]] eqn:Ep;
    try (vm_compute in Ep; discriminate Ep).
  assert (Hs : sent (F := sample_frames) 98 new_codec [p0; p1; p2; p3] [octets "he"; octets "ll"; octets "o"; []]).
  { vm_compute in Ep. injection Ep as <- <- <- <-.
    eapply (sent_packet (F := sample_frames) 98 (λ n, (n, n)) (replicate 1700 0) 0 0 (Some (Text, 1000, octets "he")));
      [reflexivity|vm_compute; discriminate|vm_compute; reflexivity|].
    eapply (sent_packet (F := sample_frames) 98 (λ n, (n, n)) (replicate 1700 0) 0 0 (Some (Text, 1300, octets "ll")));
      [reflexivity|vm_compute; discriminate|vm_compute; reflexivity|].
    eapply (sent_packet (F := sample_frames) 98 (λ n, (n, n)) (replicate 1700 0) 0 0 (Some (Text, 1600, octets "o")));
      [reflexivity|vm_compute; discriminate|vm_compute; reflexivity|].
    eapply (sent_packet (F := sample_frames) 98 (λ n, (n, n)) (replicate 1700 0) 0 0 None);
      [reflexivity|exact I|vm_compute; reflexivity|]. constructor. }
  assert (H0 : arrived p0 R0 (10 + Z.of_nat 0)).
  { unfold sample_packet_at in E0. rewrite Ep in E0. injection E0 as <-. vm_compute in Ep. injection Ep as <- _ _ _.
    split; [|split]; vm_compute; reflexivity. }
  assert (H3 : arrived p3 R3 (10 + Z.of_nat 3)).
  { unfold sample_packet_at in E3. rewrite Ep in E3. injection E3 as <-. vm_compute in Ep. injection Ep as _ _ _ <-.
    split; [|split]; vm_compute; reflexivity. }
  destruct (text_survives_two_losses (F := sample_frames) 98 _ _ 10 0 p0 R0 [R3] 3 new_codec ltac:(lia) Hs ltac:(lia)
    ltac:(vm_compute; discriminate) eq_refl H0) as (_ & frames & c & Hr & Ht);
    [apply (one_more [p0; p1; p2; p3] 10 0 3 p3 R3 [] 3 ltac:(lia) eq_refl H3); constructor|reflexivity|].
  exists frames, c. split; [exact Hr|]. rewrite Ht. reflexivity.
Defined.
