(* ===== verification/BitStream.v ===== *)
(** * Bit streams

    [BitReader], [BitWritter] and [ExpGolombDecoder] (src/mcu/include/bitstream.h).  The octets left
    to read and the octets of the writer are lists; an exception of the code ("past end of stream")
    is [Refuse].  A shift of a 32-bit integer by 32 bits or more is undefined in C++: the machine's
    result is the class [ShiftOps], about which nothing is assumed. *)

From S2P Require Import Prelude Wire Octets.

Class ShiftOps := {
  over_shl : Z → Z → Z;
  over_shr : Z → Z → Z;
}.

Section BitStream.
Context {W : WireOps} {V : MoreWireOps} {SH : ShiftOps}.

(** [x << n] and [x >> n] on a [DWORD]. *)
Definition shl32 (x n : Z) : Z := if n <? 32 then to_dword (Z.shiftl x n) else to_dword (over_shl x n).
Definition shr32 (x n : Z) : Z := if n <? 32 then Z.shiftr x n else to_dword (over_shr x n).

(** ** Reading *)

Record BitReader := mkReader {
  br_buffer : bytes;          (** the [bufferLen] octets at [buffer] *)
  br_bufferPos : Z;
  br_cache : Z;
  br_cached : Z;
}.

Definition new_reader (data : bytes) : BitReader := mkReader data 0 0 0.

(** [cached+bufferLen*8] is computed in 32 bits before it is returned as a [QWORD]. *)
Definition Left (r : BitReader) : Z := to_dword (br_cached r + to_dword (Zlen (br_buffer r) * 8)).
Definition GetPos (r : BitReader) : Z := to_dword (br_bufferPos r * 8 - br_cached r).

(** [PeekNextCached]: the next word, its bits leftmost, and the number of octets it takes. *)
Definition PeekNextCached (r : BitReader) : checked (Z * Z) :=
  let b := br_buffer r in
  let bufferLen := Zlen b in
  if 3 <? bufferLen then Got (get4 b 0, 4)
  else if bufferLen =? 3 then Got (shl32 (get3 b 0) 8, 3)
  else if bufferLen =? 2 then Got (shl32 (get2 b 0) 16, 2)
  else if bufferLen =? 1 then Got (shl32 (get1 b 0) 24, 1)
  else Refuse.

Definition Cache (r : BitReader) : checked BitReader :=
  let? w := PeekNextCached r in
  Got (mkReader (zdrop w.2 (br_buffer r)) (br_bufferPos r + w.2) w.1 (w.2 * 8)).

Definition SkipCached (n : Z) (r : BitReader) : BitReader :=
  mkReader (br_buffer r) (br_bufferPos r) (shl32 (br_cache r) n) (to_byte (br_cached r - n)).

Definition GetCached (n : Z) (r : BitReader) : Z * BitReader :=
  if n =? 0 then (0, r) else (shr32 (br_cache r) (32 - n), SkipCached n r).

(** [Get(n)] of at most 32 bits. *)
Definition Get (n : Z) (r : BitReader) : checked (Z * BitReader) :=
  if br_cached r <? n then
    let a := to_byte (n - br_cached r) in
    let ret := shr32 (br_cache r) (32 - n) in
    let? r := Cache r in
    let '(v, r) := GetCached a r in
    Got (Z.lor ret v, r)
  else Got (GetCached n r).

Definition Skip (n : Z) (r : BitReader) : checked BitReader :=
  if br_cached r <? n then
    let a := to_byte (n - br_cached r) in
    let? r := Cache r in
    Got (SkipCached a r)
  else Got (SkipCached n r).

Definition Peek (n : Z) (r : BitReader) : checked Z :=
  if br_cached r <? n then
    let a := to_byte (n - br_cached r) in
    let? w := PeekNextCached r in
    Got (Z.lor (shr32 (br_cache r) (32 - n)) (shr32 w.1 (32 - a)))
  else Got (shr32 (br_cache r) (32 - n)).

(** [Check(n, val)] *)
Definition CheckBits (n val : Z) (r : BitReader) : checked (bool * BitReader) :=
  let? v := Get n r in
  Got (v.1 =? val, v.2).

(** ** Writing *)

Record BitWritter := mkWritter {
  bw_data : bytes;            (** the [size] octets at [data] *)
  bw_bufferLen : Z;
  bw_cache : Z;
  bw_cached : Z;
}.

Definition new_writter (data : bytes) : BitWritter := mkWritter data 0 0 0.

(** [bufferSize*8], the room left, is a 32-bit product. *)
Definition FlushCache (w : BitWritter) : checked BitWritter :=
  let n := bw_cached w in
  if n =? 0 then Got w
  else if to_dword ((Zlen (bw_data w) - bw_bufferLen w) * 8) <? n then Refuse
  else
    let done := λ data k, Got (mkWritter data (bw_bufferLen w + k) (bw_cache w) 0) in
    if n =? 32 then done (set4 (bw_data w) (bw_bufferLen w) (bw_cache w)) 4
    else if n =? 24 then done (set3 (bw_data w) (bw_bufferLen w) (bw_cache w)) 3
    else if n =? 16 then done (set2 (bw_data w) (bw_bufferLen w) (bw_cache w)) 2
    else if n =? 8 then done (set1 (bw_data w) (bw_bufferLen w) (bw_cache w)) 1
    else done (bw_data w) 0.

Definition Put (n v : Z) (w : BitWritter) : checked BitWritter :=
  let cache := bw_cache w in
  let cached := bw_cached w in
  if 32 <? n + cached then
    let a := to_byte (32 - cached) in
    let b := to_byte (n - a) in
    let cache := Z.lor (shl32 cache a) (Z.land (shr32 v b) (shr32 0xFFFFFFFF cached)) in
    let? w := FlushCache (mkWritter (bw_data w) (bw_bufferLen w) cache 32) in
    Got (mkWritter (bw_data w) (bw_bufferLen w) (Z.land v (shr32 0xFFFFFFFF (32 - b))) b)
  else
    Got (mkWritter (bw_data w) (bw_bufferLen w)
           (Z.lor (shl32 cache n) (Z.land v (shr32 0xFFFFFFFF (32 - n)))) (to_byte (cached + n))).

Definition Align (w : BitWritter) : checked BitWritter :=
  let cached := bw_cached w in
  if cached mod 8 =? 0 then Got w
  else if 24 <? cached then Put (32 - cached) 0 w
  else if 16 <? cached then Put (24 - cached) 0 w
  else if 8 <? cached then Put (16 - cached) 0 w
  else Put (8 - cached) 0 w.

Definition Flush (w : BitWritter) : checked (Z * BitWritter) :=
  let? w := Align w in
  let? w := FlushCache w in
  Got (bw_bufferLen w, w).

(** [Put(n, reader)] *)
Definition Put_reader (n : Z) (r : BitReader) (w : BitWritter) : checked (BitReader * BitWritter) :=
  let? v := Get n r in
  let? w := Put n v.1 w in
  Got (v.2, w).

(** ** Exponential Golomb codes *)

(** [while (!reader.Get(1)) ++len;]: one more turn than there are bits is never made *)
Fixpoint count_zeros (fuel : nat) (len : Z) (r : BitReader) : checked (Z * BitReader) :=
  match fuel with
  | O => Fault
  | S fuel =>
      let? b := Get 1 r in
      if b.1 =? 0 then count_zeros fuel (len + 1) b.2 else Got (len, b.2)
  end.

Definition ExpGolomb_Decode (r : BitReader) : checked (Z * BitReader) :=
  let? z := count_zeros (S (Z.to_nat (br_cached r + Zlen (br_buffer r) * 8))) 0 r in
  let? v := Get z.1 z.2 in
  Got (to_dword (shl32 1 z.1 - 1 + v.1), v.2).

(** [DecodeSE]: [-(codeNum >> 1)] is computed on a [DWORD], and converted to [int]. *)
Definition ExpGolomb_DecodeSE (r : BitReader) : checked (Z * BitReader) :=
  let? c := ExpGolomb_Decode r in
  Got (to_int32 (if Z.testbit c.1 0 then Z.shiftr c.1 1 else to_dword (- Z.shiftr c.1 1)), c.2).
End BitStream.
