(* ===== verification/BitStreamClaims.v ===== *)
(** * Bit streams: what they guarantee

    A reader is the list of the bits it has not read, a writer the list of those it was given; every
    operation is described on these lists.  Numbers are written with their most significant bit
    first. *)

From S2P Require Import Prelude Wire Octets BitStream.

(** ** Numbers as bits *)

(** The [n] lower bits of [v]. *)
Fixpoint to_bits (n : nat) (v : Z) : list bool :=
  match n with
  | O => []
  | S n => Z.testbit v (Z.of_nat n) :: to_bits n v
  end.

Definition octet_bits (l : bytes) : list bool := mjoin (to_bits 8 <$> l).

Lemma to_bits_length n v : length (to_bits n v) = n.
Proof. induction n; simpl; congruence. Qed.

Lemma to_bits_ext n v w :
  (∀ j, 0 <= j < Z.of_nat n → Z.testbit v j = Z.testbit w j) → to_bits n v = to_bits n w.
Proof.
  induction n as [|n IH]; intros Hb; cbn [to_bits]; [done|].
  rewrite Hb by lia. f_equal. apply IH. intros j Hj. apply Hb. lia.
Qed.

Lemma to_bits_app n m v : to_bits (n + m) v = to_bits n (Z.shiftr v (Z.of_nat m)) ++ to_bits m v.
Proof.
  induction n as [|n IH]; cbn [to_bits Nat.add app]; [done|].
  rewrite IH, Z.shiftr_spec by lia. do 2 f_equal. lia.
Qed.

Lemma to_bits_inj n v w : 0 <= v < 2 ^ Z.of_nat n → 0 <= w < 2 ^ Z.of_nat n → to_bits n v = to_bits n w → v = w.
Proof.
  intros Hv Hw Hb. apply Z.bits_inj'. intros j Hj.
  destruct (Z.lt_ge_cases j (Z.of_nat n)) as [Hlt|Hge].
  - clear Hv Hw. induction n as [|n IH]; [lia|]. cbn [to_bits] in Hb. injection Hb as H1 H2.
    destruct (decide (j = Z.of_nat n)) as [->|]; [done|]. apply IH; [done|lia].
  - rewrite <- (Z.mod_small v (2 ^ Z.of_nat n)), <- (Z.mod_small w (2 ^ Z.of_nat n)) by done.
    by rewrite !Z.mod_pow2_bits_high by lia.
Qed.

Lemma to_bits_0 n : to_bits n 0 = replicate n false.
Proof. induction n as [|n IH]; cbn [to_bits replicate]; [done|]. by rewrite Z.bits_0, IH. Qed.

Lemma octet_bits_app l k : octet_bits (l ++ k) = octet_bits l ++ octet_bits k.
Proof. unfold octet_bits. by rewrite fmap_app, join_app. Qed.

Lemma octet_bits_length l : length (octet_bits l) = (8 * length l)%nat.
Proof.
  induction l as [|o l IH]; [done|]. change (octet_bits (o :: l)) with (to_bits 8 o ++ octet_bits l).
  rewrite length_app, to_bits_length, IH. simpl. lia.
Qed.

(** The octets of a number in network order are its bits. *)
Lemma be_get_bits n b i :
  bytes_ok b → 0 <= i → i + Z.of_nat n <= Zlen b →
  to_bits (8 * n) (be_get n b i) = octet_bits (ztake (Z.of_nat n) (zdrop i b)).
Proof.
  intros Hb Hi. induction n as [|n IH]; intros Hn; [done|].
  assert (Hz : is_byte (zget (i + Z.of_nat n) b)) by (by apply bytes_ok_zget).
  unfold is_byte in Hz. rewrite be_get_S.
  replace (8 * S n)%nat with (8 * n + 8)%nat by lia. rewrite to_bits_app.
  replace (Z.shiftr _ _) with (be_get n b i) by (rewrite Z.shiftr_div_pow2 by lia; change (2 ^ Z.of_nat 8) with 256; Z.div_mod_to_equations; lia).
  rewrite IH by lia. unfold ztake, zdrop. rewrite Nat2Z.id, Nat2Z.id.
  rewrite (take_S_r _ n (zget (i + Z.of_nat n) b)); cycle 1.
  { rewrite lookup_drop. unfold zget. replace (Z.to_nat (i + Z.of_nat n)) with (Z.to_nat i + n)%nat by lia.
    destruct (b !! (Z.to_nat i + n)%nat) eqn:E; [done|]. apply lookup_ge_None in E. unfold Zlen in Hn. lia. }
  rewrite octet_bits_app. f_equal. unfold octet_bits. cbn [fmap list_fmap mjoin list_join]. rewrite app_nil_r.
  apply to_bits_ext. intros j Hj.
  rewrite <- (Z.mod_pow2_bits_low _ 8 j) by lia.
  replace ((be_get n b i * 256 + zget (i + Z.of_nat n) b) mod 2 ^ 8) with (zget (i + Z.of_nat n) b); [done|].
  change (2 ^ 8) with 256. Z.div_mod_to_equations. lia.
Qed.

(** ** Readers *)

Section Reader.
Context {W : WireOps} {V : MoreWireOps} {SH : ShiftOps} {HN : NetworkOrder W V}.

(** The bits of the cache that were not read are its upper bits, the others are 0; the bits left to
    read are counted by a [DWORD]. *)
Record reader_ok (r : BitReader) : Prop := mkReaderOk {
  ro_cache : is_dword (br_cache r);
  ro_cached : 0 <= br_cached r <= 32;
  ro_low : ∀ j, 0 <= j < 32 - br_cached r → Z.testbit (br_cache r) j = false;
  ro_bytes : bytes_ok (br_buffer r);
  ro_left : br_cached r + Zlen (br_buffer r) * 8 < 2 ^ 32;
}.

Definition reader_bits (r : BitReader) : list bool :=
  to_bits (Z.to_nat (br_cached r)) (Z.shiftr (br_cache r) (32 - br_cached r)) ++ octet_bits (br_buffer r).

Lemma Left_eq r : reader_ok r → Left r = br_cached r + Zlen (br_buffer r) * 8.
Proof.
  intros Hr. destruct (ro_cached _ Hr). pose proof (ro_left _ Hr). pose proof (Zlen_nonneg (br_buffer r)).
  unfold Left. rewrite !to_dword_id; unfold is_dword; rewrite ?to_dword_id; unfold is_dword; lia.
Qed.

Lemma reader_bits_length r : reader_ok r → Z.of_nat (length (reader_bits r)) = Left r.
Proof.
  intros Hr. destruct (ro_cached _ Hr). rewrite Left_eq by done. unfold reader_bits, Zlen.
  rewrite length_app, to_bits_length, octet_bits_length. lia.
Qed.

Lemma new_reader_ok data :
  bytes_ok data → Zlen data < 2 ^ 29 → reader_ok (new_reader data) ∧ reader_bits (new_reader data) = octet_bits data.
Proof.
  intros Hd Hl. split; [|done]. split; simpl; [unfold is_dword; lia|lia|intros; apply Z.bits_0|done|].
  pose proof (Zlen_nonneg data). lia.
Qed.

Lemma testbit_low v n j : 0 <= v < 2 ^ n → n <= j → Z.testbit v j = false.
Proof.
  intros Hv Hj. destruct (Z.lt_ge_cases n 0). { rewrite Z.pow_neg_r in Hv by done. lia. }
  rewrite <- (Z.mod_small v (2 ^ n)) by done. by apply Z.mod_pow2_bits_high.
Qed.

Lemma shl32_bits x n j : 0 <= n < 32 → 0 <= j < 32 → Z.testbit (shl32 x n) j = Z.testbit x (j - n).
Proof.
  intros Hn Hj. unfold shl32, to_dword. rewrite (proj2 (Z.ltb_lt n 32)) by lia.
  rewrite Z.mod_pow2_bits_low by lia. rewrite Z.shiftl_spec by lia. done.
Qed.

Lemma shl32_range x n : is_dword (shl32 x n).
Proof. unfold shl32, to_dword, is_dword. case_goal; apply Z.mod_pos_bound; lia. Qed.

Lemma shr32_eq x n : 0 <= n < 32 → shr32 x n = Z.shiftr x n.
Proof. intros. unfold shr32. by rewrite (proj2 (Z.ltb_lt n 32)) by lia. Qed.

Lemma shiftr_bits x n j : 0 <= n → 0 <= j → Z.testbit (Z.shiftr x n) j = Z.testbit x (j + n).
Proof. intros. apply Z.shiftr_spec. done. Qed.

(** The next word: [k] octets, their bits leftmost. *)
Lemma PeekNextCached_spec r :
  bytes_ok (br_buffer r) → 0 < Zlen (br_buffer r) →
  ∃ w k, PeekNextCached r = Got (w, k) ∧ k = Z.min 4 (Zlen (br_buffer r)) ∧ is_dword w
    ∧ (∀ j, 0 <= j < 32 - 8 * k → Z.testbit w j = false)
    ∧ to_bits (Z.to_nat (8 * k)) (Z.shiftr w (32 - 8 * k)) = octet_bits (ztake k (br_buffer r)).
Proof.
  intros Hb Hl. set (b := br_buffer r) in *.
  assert (Hk : ∀ n s, 1 <= Z.of_nat n <= 4 → s = 32 - 8 * Z.of_nat n → Z.of_nat n <= Zlen b →
    let w := shl32 (be_get n b 0) s in
    is_dword w ∧ (∀ j, 0 <= j < s → Z.testbit w j = false)
    ∧ to_bits (Z.to_nat (8 * Z.of_nat n)) (Z.shiftr w s) = octet_bits (ztake (Z.of_nat n) b)).
  { intros n s Hn -> Hnl w. pose proof (be_get_bits n b 0 Hb) as Hbits. change (zdrop 0 b) with b in Hbits. split_and!.
    - apply shl32_range.
    - intros j Hj. unfold w. rewrite shl32_bits by lia. apply Z.testbit_neg_r. lia.
    - rewrite <- Hbits by lia. replace (Z.to_nat (8 * Z.of_nat n)) with (8 * n)%nat by lia.
      apply to_bits_ext. intros j Hj. rewrite shiftr_bits by lia. unfold w. rewrite shl32_bits by lia. f_equal. lia. }
  unfold PeekNextCached. fold b. destruct (Z.ltb_spec 3 (Zlen b)).
  - exists (get4 b 0), 4. destruct (Hk 4%nat 0) as (H1 & H2 & H3); [lia..|].
    assert (Hs : shl32 (be_get 4 b 0) 0 = be_get 4 b 0).
    { unfold shl32. simpl. rewrite Z.shiftl_0_r. apply to_dword_id. pose proof (be_get_range 4 b 0 Hb). unfold is_dword. lia. }
    rewrite Hs in *. rewrite get4_be. split_and!; [done|lia|done|exact H2|exact H3].
  - destruct (Z.eqb_spec (Zlen b) 3); [|destruct (Z.eqb_spec (Zlen b) 2); [|destruct (Z.eqb_spec (Zlen b) 1); [|lia]]].
    + destruct (Hk 3%nat 8) as (H1 & H2 & H3); [lia..|]. rewrite get3_be. eexists _, 3. split_and!; [done|lia|done..].
    + destruct (Hk 2%nat 16) as (H1 & H2 & H3); [lia..|]. rewrite get2_be. eexists _, 2. split_and!; [done|lia|done..].
    + destruct (Hk 1%nat 24) as (H1 & H2 & H3); [lia..|]. rewrite get1_be. eexists _, 1. split_and!; [done|lia|done..].
Qed.

Lemma Cache_spec r :
  reader_ok r → 0 < Zlen (br_buffer r) →
  ∃ r', Cache r = Got r' ∧ reader_ok r' ∧ reader_bits r' = octet_bits (br_buffer r)
    ∧ br_cached r' = 8 * Z.min 4 (Zlen (br_buffer r))
    ∧ br_bufferPos r' * 8 - br_cached r' = br_bufferPos r * 8.
Proof.
  intros Hr Hl. destruct (PeekNextCached_spec r (ro_bytes _ Hr) Hl) as (w & k & Hp & Hk & Hw & Hlow & Hbits).
  unfold Cache. rewrite Hp. cbn [cbind fst snd]. eexists. split; [done|]. split_and!.
  - split; cbn [br_cache br_cached br_buffer]; [done|lia|intros; apply Hlow; lia| |].
    + apply Forall_drop. apply (ro_bytes _ Hr).
    + pose proof (ro_left _ Hr). destruct (ro_cached _ Hr). rewrite Zlen_zdrop by lia. lia.
  - unfold reader_bits. cbn [br_cache br_cached br_buffer]. rewrite (Z.mul_comm k 8), Hbits, <- octet_bits_app.
    by rewrite ztake_zdrop.
  - cbn [br_cached]. lia.
  - cbn [br_cached br_bufferPos]. lia.
Qed.

(** Taking [n] bits of the cache. *)
Lemma SkipCached_spec n r :
  reader_ok r → 0 <= n <= br_cached r → n < 32 →
  let r' := SkipCached n r in
  reader_ok r' ∧ reader_bits r = to_bits (Z.to_nat n) (Z.shiftr (br_cache r) (32 - n)) ++ reader_bits r'
  ∧ br_cached r' = br_cached r - n.
Proof.
  intros Hr Hn H32 r'. destruct (ro_cached _ Hr) as [Hc0 Hc].
  assert (Hc' : br_cached r' = br_cached r - n).
  { unfold r'. simpl. rewrite to_byte_id; [done|]. unfold is_byte. lia. }
  assert (Hb : ∀ j, 0 <= j < 32 → Z.testbit (br_cache r') j = Z.testbit (br_cache r) (j - n)).
  { intros j Hj. unfold r'. simpl. apply shl32_bits; lia. }
  split_and!; [|
    |done].
  - split; rewrite ?Hc'; [apply shl32_range|lia| |apply (ro_bytes _ Hr)|pose proof (ro_left _ Hr); simpl; lia].
    intros j Hj. rewrite Hb by lia. destruct (Z.lt_ge_cases j n); [apply Z.testbit_neg_r; lia|].
    apply (ro_low _ Hr). lia.
  - unfold reader_bits. rewrite Hc', app_assoc. f_equal.
    replace (Z.to_nat (br_cached r)) with (Z.to_nat n + Z.to_nat (br_cached r - n))%nat by lia.
    rewrite to_bits_app. f_equal; apply to_bits_ext; intros j Hj.
    + rewrite !shiftr_bits by lia. f_equal. lia.
    + rewrite !shiftr_bits by lia. rewrite Hb by lia. f_equal. lia.
Qed.

Lemma shiftr_range c n : is_dword c → 0 <= n <= 32 → 0 <= Z.shiftr c (32 - n) < 2 ^ n.
Proof.
  unfold is_dword. intros Hc Hn. rewrite Z.shiftr_div_pow2 by lia.
  assert (2 ^ 32 = 2 ^ n * 2 ^ (32 - n)) as H by (rewrite <- Z.pow_add_r by lia; f_equal; lia).
  assert (0 < 2 ^ (32 - n)) by (apply Z.pow_pos_nonneg; lia).
  split; [apply Z.div_pos; lia|]. apply Z.div_lt_upper_bound; [done|]. lia.
Qed.

Lemma GetCached_spec n r :
  reader_ok r → 0 <= n <= br_cached r → n < 32 →
  ∃ v r', GetCached n r = (v, r') ∧ reader_ok r' ∧ 0 <= v < 2 ^ n
    ∧ reader_bits r = to_bits (Z.to_nat n) v ++ reader_bits r'
    ∧ br_cached r' = br_cached r - n ∧ br_bufferPos r' = br_bufferPos r.
Proof.
  intros Hr Hn H32. unfold GetCached. destruct (Z.eqb_spec n 0) as [->|].
  - exists 0, r. split_and!; try done; lia.
  - destruct (SkipCached_spec n r Hr Hn H32) as (Hr' & Hb & Hc). rewrite shr32_eq by lia.
    eexists _, _. split; [done|]. split_and!; [done| | |done|done|done].
    + apply (shiftr_range _ n); [apply (ro_cache _ Hr)|lia].
    + apply (shiftr_range _ n); [apply (ro_cache _ Hr)|lia].
Qed.

(** The bits left in the cache and the first of the next word make the number read. *)
Lemma joined_bits r a v :
  reader_ok r → 0 < a → 0 <= v < 2 ^ a → br_cached r + a <= 32 →
  let n := br_cached r + a in
  let x := Z.lor (Z.shiftr (br_cache r) (32 - n)) v in
  0 <= x < 2 ^ n
  ∧ to_bits (Z.to_nat n) x
    = to_bits (Z.to_nat (br_cached r)) (Z.shiftr (br_cache r) (32 - br_cached r)) ++ to_bits (Z.to_nat a) v.
Proof.
  intros Hr Ha Hv Hn n x. destruct (ro_cached _ Hr) as [Hc0 Hc].
  assert (Hx : ∀ j, 0 <= j → Z.testbit x j = Z.testbit (br_cache r) (j + (32 - n)) || Z.testbit v j).
  { intros j Hj. unfold x. rewrite Z.lor_spec, shiftr_bits by lia. done. }
  split.
  - pose proof (shiftr_range (br_cache r) n (ro_cache _ Hr) ltac:(lia)) as Hsr.
    assert (2 ^ a <= 2 ^ n) by (apply Z.pow_le_mono_r; lia).
    assert (0 <= x) by (apply Z.lor_nonneg; lia). split; [done|].
    destruct (decide (x = 0)) as [->|]; [lia|]. apply Z.log2_lt_pow2; [lia|].
    unfold x. rewrite Z.log2_lor by lia.
    assert (∀ y, 0 <= y < 2 ^ n → Z.log2 y < n) as Hlog.
    { intros y Hy. destruct (decide (y = 0)) as [->|]; [simpl; lia|]. apply Z.log2_lt_pow2; lia. }
    apply Z.max_lub_lt; apply Hlog; lia.
  - replace (Z.to_nat n) with (Z.to_nat (br_cached r) + Z.to_nat a)%nat by lia.
    rewrite to_bits_app. f_equal; apply to_bits_ext; intros j Hj.
    + rewrite !shiftr_bits, Hx by lia. rewrite (testbit_low v a) by lia. rewrite orb_false_r. f_equal. lia.
    + rewrite Hx by lia. rewrite (ro_low _ Hr) by lia. done.
Qed.

(** What [Get] needs: so many bits left, and fewer than the width of a word. *)
Lemma Get_spec n r :
  reader_ok r → 0 <= n < 32 → n <= Left r →
  ∃ v r', Get n r = Got (v, r') ∧ reader_ok r' ∧ 0 <= v < 2 ^ n
    ∧ reader_bits r = to_bits (Z.to_nat n) v ++ reader_bits r'
    ∧ br_bufferPos r' * 8 - br_cached r' = br_bufferPos r * 8 - br_cached r + n.
Proof.
  intros Hr Hn Hleft. destruct (ro_cached _ Hr) as [Hc0 Hc]. unfold Get.
  destruct (Z.ltb_spec (br_cached r) n).
  - rewrite Left_eq in Hleft by done. destruct (Cache_spec r Hr) as (r1 & H1 & Hr1 & Hb1 & Hc1 & Hp1); [lia|].
    rewrite H1. cbn [cbind]. rewrite shr32_eq by lia. set (a := n - br_cached r).
    rewrite to_byte_id by (unfold is_byte; lia).
    destruct (GetCached_spec a r1 Hr1) as (v & r2 & -> & Hr2 & Hv & Hb2 & Hc2 & Hp2); [lia|lia|].
    destruct (joined_bits r a v Hr) as [Hx Hbits]; [lia..|].
    replace (br_cached r + a) with n in * by lia.
    eexists _, _. split; [done|]. split_and!; [done|lia|lia| |lia].
    rewrite Hbits. unfold reader_bits at 1. rewrite <- app_assoc. f_equal. rewrite <- Hb1. done.
  - destruct (GetCached_spec n r Hr) as (v & r2 & -> & Hr2 & Hv & Hb2 & Hc2 & Hp2); [lia|lia|].
    exists v, r2. split_and!; try done; lia.
Qed.

Lemma Skip_is_Get n r v r' :
  reader_ok r → 0 < n < 32 → n <= Left r → Get n r = Got (v, r') → Skip n r = Got r' ∧ Peek n r = Got v.
Proof.
  intros Hr Hn Hl. destruct (ro_cached _ Hr) as [Hc0 Hc]. unfold Get, Skip, Peek, Cache.
  destruct (Z.ltb_spec (br_cached r) n).
  - rewrite (to_byte_id (n - br_cached r)) by (unfold is_byte; lia).
    destruct (PeekNextCached r) as [| |w]; cbn [cbind]; try done. unfold GetCached.
    destruct (Z.eqb_spec (n - br_cached r) 0); [lia|]. by intros [= <- <-].
  - unfold GetCached. destruct (Z.eqb_spec n 0); [lia|]. by intros [= <- <-].
Qed.
End Reader.

(** ** Writers *)

Section Writer.
Context {W : WireOps} {V : MoreWireOps} {SH : ShiftOps} {HN : NetworkOrder W V}.

(** Above the [cached] lower bits the cache may hold what was flushed before; the bits of the buffer
    are counted by a [DWORD]. *)
Record writter_ok (w : BitWritter) : Prop := mkWritterOk {
  wo_cached : 0 <= bw_cached w <= 32;
  wo_len : 0 <= bw_bufferLen w <= Zlen (bw_data w);
  wo_bytes : bytes_ok (bw_data w);
  wo_size : Zlen (bw_data w) < 2 ^ 29;
}.

Definition writter_bits (w : BitWritter) : list bool :=
  octet_bits (ztake (bw_bufferLen w) (bw_data w)) ++ to_bits (Z.to_nat (bw_cached w)) (bw_cache w).

(** The bits the buffer can take. *)
Definition room (w : BitWritter) : Z := (Zlen (bw_data w) - bw_bufferLen w) * 8 - bw_cached w.

Lemma new_writter_ok data :
  bytes_ok data → Zlen data < 2 ^ 29 → writter_ok (new_writter data) ∧ writter_bits (new_writter data) = []
  ∧ room (new_writter data) = Zlen data * 8.
Proof.
  intros Hd Hs. split_and!; [|done|unfold room; simpl; lia]. pose proof (Zlen_nonneg data).
  split; simpl; [lia|lia|done|done].
Qed.

(** [n] octets written behind those there are. *)
Lemma be_put_bits n b i v :
  bytes_ok b → 0 <= i → i + Z.of_nat n <= Zlen b →
  octet_bits (ztake (i + Z.of_nat n) (be_put n b i v)) = octet_bits (ztake i b) ++ to_bits (8 * n) v.
Proof.
  intros Hb Hi Hn. pose proof (be_put_length n b i v) as Hl.
  assert (Hsplit : ztake (i + Z.of_nat n) (be_put n b i v)
    = ztake i (be_put n b i v) ++ ztake (Z.of_nat n) (zdrop i (be_put n b i v))).
  { unfold ztake, zdrop. rewrite take_take_drop. f_equal. lia. }
  rewrite Hsplit, octet_bits_app. f_equal.
  - f_equal. apply list_eq. intros k. unfold ztake. destruct (decide (k < Z.to_nat i)%nat).
    + rewrite !lookup_take_lt by done. pose proof (be_put_other n b i v (Z.of_nat k)) as Ho.
      rewrite Nat2Z.id in Ho. apply Ho; lia.
    + rewrite !lookup_take_ge by lia. done.
  - rewrite <- be_get_bits; [|by apply be_put_bytes|lia|lia]. rewrite be_get_put by lia.
    apply to_bits_ext. intros j Hj. replace (256 ^ Z.of_nat n) with (2 ^ (8 * Z.of_nat n)) by (by rewrite Z.pow_mul_r by lia).
    apply Z.mod_pow2_bits_low. lia.
Qed.

Lemma FlushCache_spec w :
  writter_ok w → bw_cached w mod 8 = 0 → 0 <= room w →
  ∃ w', FlushCache w = Got w' ∧ writter_ok w' ∧ bw_cached w' = 0
    ∧ writter_bits w' = writter_bits w ∧ room w' = room w ∧ Zlen (bw_data w') = Zlen (bw_data w).
Proof.
  intros [Hc Hl Hb Hs] Hm Hroom. unfold room in *. unfold FlushCache.
  destruct (Z.eqb_spec (bw_cached w) 0) as [H0|H0]; [exists w; split_and!; done|].
  rewrite to_dword_id by (unfold is_dword; lia).
  destruct (Z.ltb_spec ((Zlen (bw_data w) - bw_bufferLen w) * 8) (bw_cached w)); [lia|].
  assert (Hput : ∀ n, bw_cached w = 8 * Z.of_nat n →
    let w' := mkWritter (be_put n (bw_data w) (bw_bufferLen w) (bw_cache w)) (bw_bufferLen w + Z.of_nat n) (bw_cache w) 0 in
    writter_ok w' ∧ bw_cached w' = 0 ∧ writter_bits w' = writter_bits w
    ∧ (Zlen (bw_data w') - bw_bufferLen w') * 8 - bw_cached w' = (Zlen (bw_data w) - bw_bufferLen w) * 8 - bw_cached w
    ∧ Zlen (bw_data w') = Zlen (bw_data w)).
  { intros n Hn w'. pose proof (be_put_length n (bw_data w) (bw_bufferLen w) (bw_cache w)) as Hlen.
    split_and!; unfold w'; cbn [bw_data bw_bufferLen bw_cached]; [|done| |lia|done].
    - split; cbn [bw_data bw_bufferLen bw_cached]; [lia|lia|by apply be_put_bytes|lia].
    - unfold writter_bits. cbn [bw_data bw_bufferLen bw_cached bw_cache]. rewrite be_put_bits by (done || lia).
      rewrite app_nil_r. do 2 f_equal. lia. }
  assert (bw_cached w = 32 ∨ bw_cached w = 24 ∨ bw_cached w = 16 ∨ bw_cached w = 8) as Hcases by (Z.div_mod_to_equations; lia).
  destruct Hcases as [E|[E|[E|E]]]; rewrite E in Hput |- *; cbn [Z.eqb Pos.eqb].
  - rewrite set4_be. eexists. split; [done|]. apply (Hput 4%nat). lia.
  - rewrite set3_be. eexists. split; [done|]. apply (Hput 3%nat). lia.
  - rewrite set2_be. eexists. split; [done|]. apply (Hput 2%nat). lia.
  - rewrite set1_be. eexists. split; [done|]. apply (Hput 1%nat). lia.
Qed.

Lemma low_mask_bits n j : 0 < n <= 32 → 0 <= j → Z.testbit (shr32 0xFFFFFFFF (32 - n)) j = (j <? n).
Proof.
  intros Hn Hj. rewrite shr32_eq by lia. change 0xFFFFFFFF with (Z.ones 32). rewrite shiftr_bits by lia.
  destruct (Z.ltb_spec j n); [apply Z.ones_spec_low|apply Z.ones_spec_high]; lia.
Qed.

Lemma Put_spec n v w :
  writter_ok w → 0 < n < 32 → 0 <= v < 2 ^ n → n <= room w →
  ∃ w', Put n v w = Got w' ∧ writter_ok w' ∧ writter_bits w' = writter_bits w ++ to_bits (Z.to_nat n) v
    ∧ room w' = room w - n ∧ Zlen (bw_data w') = Zlen (bw_data w).
Proof.
  intros Hw Hn Hv Hroom. pose proof Hw as [Hc Hl Hb Hs]. unfold Put. destruct (Z.ltb_spec 32 (n + bw_cached w)) as [Hbig|Hsmall].
  - rewrite (to_byte_id (32 - bw_cached w)), (to_byte_id (n - _)) by (unfold is_byte; lia).
    set (a := 32 - bw_cached w). set (b := n - a). set (x := Z.lor _ _).
    set (w1 := mkWritter (bw_data w) (bw_bufferLen w) x 32).
    assert (Hx : to_bits 32 x = to_bits (Z.to_nat (bw_cached w)) (bw_cache w) ++ to_bits (Z.to_nat a) (Z.shiftr v b)).
    { replace 32%nat with (Z.to_nat (bw_cached w) + Z.to_nat a)%nat by lia. rewrite to_bits_app.
      assert (Hxb : ∀ j, 0 <= j < 32 → Z.testbit x j = Z.testbit (bw_cache w) (j - a) || Z.testbit v (j + b) && (j <? a)).
      { intros j Hj. unfold x. rewrite Z.lor_spec, Z.land_spec, shl32_bits by lia. rewrite (shr32_eq v), shiftr_bits by lia.
        f_equal. destruct (Z.eq_dec a 0) as [Ha|Ha].
        - rewrite (testbit_low v n) by lia. done.
        - f_equal. replace (bw_cached w) with (32 - a) by lia. apply low_mask_bits; lia. }
      f_equal; apply to_bits_ext; intros j Hj.
      - rewrite shiftr_bits, Hxb by lia. rewrite (proj2 (Z.ltb_ge _ _)), andb_false_r, orb_false_r by lia. f_equal. lia.
      - rewrite Hxb by lia. rewrite Z.testbit_neg_r by lia. rewrite (proj2 (Z.ltb_lt _ _)), andb_true_r by lia.
        rewrite shiftr_bits by lia. done. }
    unfold room in Hroom.
    destruct (FlushCache_spec w1) as (w2 & Hf & [Hc2 Hl2 Hb2 Hs2] & H0 & Hbits & Hr2 & Hlen2);
      [split; simpl; [lia|lia|done|done]|done|unfold room, w1; simpl; lia|].
    rewrite Hf. cbn [cbind]. eexists. split; [done|]. unfold room, w1 in Hr2. simpl in Hr2. split_and!.
    + split; cbn [bw_data bw_bufferLen bw_cached]; [lia|lia|done|done].
    + unfold writter_bits. cbn [bw_data bw_bufferLen bw_cached bw_cache].
      unfold writter_bits in Hbits. rewrite H0 in Hbits. cbn [to_bits Z.to_nat] in Hbits. rewrite app_nil_r in Hbits.
      rewrite Hbits. unfold w1. cbn [bw_data bw_bufferLen bw_cached bw_cache]. change (Z.to_nat 32) with 32%nat.
      rewrite Hx, <- !app_assoc. do 2 f_equal.
      replace (Z.to_nat n) with (Z.to_nat a + Z.to_nat b)%nat by lia. rewrite to_bits_app.
      f_equal; [by replace (Z.of_nat (Z.to_nat b)) with b by lia|].
      apply to_bits_ext. intros j Hj. rewrite Z.land_spec, low_mask_bits by lia.
      by rewrite (proj2 (Z.ltb_lt _ _)), andb_true_r by lia.
    + unfold room. cbn [bw_data bw_bufferLen bw_cached]. lia.
    + done.
  - eexists. split; [done|]. rewrite (to_byte_id (bw_cached w + n)) by (unfold is_byte; lia). unfold room in *. split_and!.
    + split; cbn [bw_data bw_bufferLen bw_cached]; [lia|lia|done|done].
    + unfold writter_bits. cbn [bw_data bw_bufferLen bw_cached bw_cache]. rewrite <- app_assoc. f_equal.
      replace (Z.to_nat (bw_cached w + n)) with (Z.to_nat (bw_cached w) + Z.to_nat n)%nat by lia. rewrite to_bits_app.
      f_equal; apply to_bits_ext; intros j Hj.
      * rewrite shiftr_bits by lia. rewrite Z.lor_spec, Z.land_spec, shl32_bits, low_mask_bits by lia.
        rewrite (proj2 (Z.ltb_ge _ _)), andb_false_r, orb_false_r by lia. f_equal. lia.
      * rewrite Z.lor_spec, Z.land_spec, shl32_bits, low_mask_bits by lia. rewrite Z.testbit_neg_r by lia.
        by rewrite (proj2 (Z.ltb_lt _ _)), andb_true_r by lia.
    + cbn [bw_data bw_bufferLen bw_cached]. lia.
    + done.
Qed.

(** The bits up to the next octet. *)
Definition padding_bits (w : BitWritter) : Z := (- bw_cached w) mod 8.

Lemma Flush_spec w :
  writter_ok w → 0 <= room w →
  ∃ w', Flush w = Got (bw_bufferLen w', w') ∧ writter_ok w' ∧ bw_cached w' = 0
    ∧ octet_bits (ztake (bw_bufferLen w') (bw_data w')) = writter_bits w ++ replicate (Z.to_nat (padding_bits w)) false
    ∧ Zlen (bw_data w') = Zlen (bw_data w).
Proof.
  intros Hw Hroom. pose proof (wo_cached _ Hw) as Hc. set (p := padding_bits w).
  assert (Ha : ∃ w1, Align w = Got w1 ∧ writter_ok w1 ∧ bw_cached w1 mod 8 = 0 ∧ 0 <= room w1
    ∧ writter_bits w1 = writter_bits w ++ replicate (Z.to_nat p) false ∧ Zlen (bw_data w1) = Zlen (bw_data w)).
  { unfold Align. destruct (Z.eqb_spec (bw_cached w mod 8) 0) as [H0|H0].
    - exists w. replace p with 0 by (unfold p, padding_bits; Z.div_mod_to_equations; lia). rewrite app_nil_r. done.
    - assert (Hp : 0 < p < 8 ∧ (bw_cached w + p) mod 8 = 0) by (unfold p, padding_bits; Z.div_mod_to_equations; lia).
      destruct (Put_spec p 0 w Hw) as (w1 & H1 & Hw1 & Hb1 & Hr1 & Hl1);
        [lia|split; [lia|apply Z.pow_pos_nonneg; lia]|unfold room in *; Z.div_mod_to_equations; lia|].
      assert (E : bw_cached w1 mod 8 = 0).
      { unfold Put in H1. destruct (Z.ltb_spec 32 (p + bw_cached w)); [Z.div_mod_to_equations; lia|].
        injection H1 as <-. cbn [bw_cached]. rewrite to_byte_id by (unfold is_byte; lia). lia. }
      exists w1. rewrite to_bits_0 in Hb1. split_and!; [|done|done|unfold room in *; Z.div_mod_to_equations; lia|done|done].
      rewrite <- H1. repeat case_goal; ztests; f_equal; unfold p, padding_bits; Z.div_mod_to_equations; lia. }
  destruct Ha as (w1 & Ha & Hw1 & Hm1 & Hr1 & Hb1 & Hl1). unfold Flush. rewrite Ha. cbn [cbind].
  destruct (FlushCache_spec w1 Hw1 Hm1 Hr1) as (w2 & Hf & Hw2 & H0 & Hb2 & Hr2 & Hl2). rewrite Hf. cbn [cbind].
  exists w2. split_and!; [done|done|done| |lia].
  rewrite <- Hb1, <- Hb2. unfold writter_bits. rewrite H0. cbn [to_bits Z.to_nat]. by rewrite app_nil_r.
Qed.
End Writer.

Section Streams.
Context {W : WireOps} {V : MoreWireOps} {SH : ShiftOps} {HN : NetworkOrder W V}.

(** Fields as pairs of a width and a value. *)
Fixpoint write_fields (fs : list (Z * Z)) (w : BitWritter) : checked BitWritter :=
  match fs with
  | [] => Got w
  | (n, v) :: fs => let? w := Put n v w in write_fields fs w
  end.

Fixpoint read_fields (ns : list Z) (r : BitReader) : checked (list Z * BitReader) :=
  match ns with
  | [] => Got ([], r)
  | n :: ns =>
      let? v := Get n r in
      let? rest := read_fields ns v.2 in
      Got (v.1 :: rest.1, rest.2)
  end.

Definition field_ok (f : Z * Z) : Prop := 0 < f.1 < 32 ∧ 0 <= f.2 < 2 ^ f.1.
Definition field_bits (fs : list (Z * Z)) : list bool := mjoin ((λ f, to_bits (Z.to_nat f.1) f.2) <$> fs).
Definition total_bits (fs : list (Z * Z)) : Z := foldr Z.add 0 fs.*1.

Lemma total_bits_nonneg fs : Forall field_ok fs → 0 <= total_bits fs.
Proof.
  unfold total_bits. induction 1 as [|[n v] fs [Hn _] _ IH]; [done|]. cbn [fmap list_fmap foldr fst] in *. lia.
Qed.

Lemma write_fields_spec fs w :
  writter_ok w → Forall field_ok fs → total_bits fs <= room w →
  ∃ w', write_fields fs w = Got w' ∧ writter_ok w' ∧ writter_bits w' = writter_bits w ++ field_bits fs
    ∧ room w' = room w - total_bits fs ∧ Zlen (bw_data w') = Zlen (bw_data w).
Proof.
  revert w. induction fs as [|[n v] fs IH]; intros w Hw Hf Hr.
  { exists w. unfold field_bits, total_bits. simpl. rewrite app_nil_r. split_and!; try done. lia. }
  apply Forall_cons in Hf as [[Hn Hv] Hf]. cbn [fst snd] in Hn, Hv. pose proof (total_bits_nonneg fs Hf).
  change (total_bits ((n, v) :: fs)) with (n + total_bits fs) in *.
  destruct (Put_spec n v w) as (w1 & H1 & Hw1 & Hb1 & Hr1 & Hl1); [done|lia|done|lia|].
  destruct (IH w1 Hw1 Hf) as (w2 & H2 & Hw2 & Hb2 & Hr2 & Hl2); [lia|].
  exists w2. cbn [write_fields]. rewrite H1. cbn [cbind]. split_and!; [done|done| |lia|lia].
  rewrite Hb2, Hb1, <- app_assoc. done.
Qed.

Lemma read_fields_spec fs r rest :
  reader_ok r → Forall field_ok fs → reader_bits r = field_bits fs ++ rest →
  ∃ r', read_fields fs.*1 r = Got (fs.*2, r') ∧ reader_ok r' ∧ reader_bits r' = rest.
Proof.
  revert r. induction fs as [|[n v] fs IH]; intros r Hr Hf Hb; [by exists r|].
  apply Forall_cons in Hf as [[Hn Hv] Hf]. cbn [fst snd] in Hn, Hv.
  change (field_bits ((n, v) :: fs)) with (to_bits (Z.to_nat n) v ++ field_bits fs) in Hb. rewrite <- app_assoc in Hb.
  pose proof (reader_bits_length r Hr) as Hlen. rewrite Hb, length_app, to_bits_length in Hlen.
  destruct (Get_spec n r Hr) as (x & r1 & H1 & Hr1 & Hx & Hb1 & _); [lia|lia|].
  rewrite Hb in Hb1. apply app_inj_1 in Hb1 as [E1 E2]; [|by rewrite !to_bits_length].
  assert (x = v) as -> by (symmetry; eapply to_bits_inj; [..|exact E1]; rewrite Z2Nat.id by lia; lia).
  destruct (IH r1 Hr1 Hf (eq_sym E2)) as (r2 & H2 & Hr2 & Hb2).
  exists r2. cbn [fmap list_fmap fst snd read_fields]. rewrite H1. cbn [cbind fst snd]. rewrite H2. done.
Qed.

(** ** Exponential Golomb *)

(** The code of [v]: the length of [v + 1] in unary, then its bits. *)
Definition golomb_bits (v : Z) : list bool :=
  let len := Z.to_nat (Z.log2 (v + 1)) in replicate len false ++ to_bits (S len) (v + 1).

Lemma Get_one r b rest :
  reader_ok r → reader_bits r = b :: rest →
  ∃ r', Get 1 r = Got (Z.b2z b, r') ∧ reader_ok r' ∧ reader_bits r' = rest.
Proof.
  intros Hr Hb. destruct (read_fields_spec [(1, Z.b2z b)] r rest) as (r' & H1 & H2 & H3); [done| |by rewrite Hb; destruct b|].
  { constructor; [|constructor]. split; simpl; [lia|by destruct b]. }
  exists r'. cbn [fmap list_fmap fst snd read_fields] in H1.
  destruct (Get 1 r) as [| |[v r1]]; cbn [cbind fst snd] in H1; try done. injection H1 as -> ->. done.
Qed.

Lemma count_zeros_spec k fuel len r rest :
  reader_ok r → reader_bits r = replicate k false ++ true :: rest → (k < fuel)%nat →
  ∃ r', count_zeros fuel len r = Got (len + Z.of_nat k, r') ∧ reader_ok r' ∧ reader_bits r' = rest.
Proof.
  revert fuel len r. induction k as [|k IH]; intros [|fuel] len r Hr Hb Hf; [lia| |lia|]; simpl in Hb.
  - destruct (Get_one r true rest Hr Hb) as (r' & H1 & H2 & H3). exists r'. cbn [count_zeros]. rewrite H1. simpl.
    rewrite Z.add_0_r. done.
  - destruct (Get_one r false _ Hr Hb) as (r1 & H1 & Hr1 & Hb1). cbn [count_zeros]. rewrite H1. simpl.
    destruct (IH fuel (len + 1) r1 Hr1 Hb1) as (r' & H2 & H3 & H4); [lia|]. exists r'. rewrite H2.
    split_and!; [do 2 f_equal; lia|done|done].
Qed.

Lemma golomb_split v :
  0 <= v → let len := Z.log2 (v + 1) in
  golomb_bits v = replicate (Z.to_nat len) false ++ true :: to_bits (Z.to_nat len) (v + 1 - 2 ^ len)
  ∧ 0 <= v + 1 - 2 ^ len < 2 ^ len.
Proof.
  intros Hv len. pose proof (Z.log2_nonneg (v + 1)) as Hl. fold len in Hl.
  destruct (Z.log2_spec (v + 1)) as [H1 H2]; [lia|]. fold len in H1, H2. rewrite Z.pow_succ_r in H2 by done.
  split; [|lia]. unfold golomb_bits. fold len. f_equal. cbn [to_bits]. rewrite Z2Nat.id by done. f_equal.
  - apply Z.bit_log2. lia.
  - apply to_bits_ext. intros j Hj. rewrite Z2Nat.id in Hj by done.
    rewrite <- (Z.mod_pow2_bits_low (v + 1) len j), <- (Z.mod_pow2_bits_low (v + 1 - 2 ^ len) len j) by lia.
    f_equal. assert (0 < 2 ^ len) by (apply Z.pow_pos_nonneg; lia).
    rewrite (Z.mod_small (v + 1 - 2 ^ len)) by lia. symmetry. apply (Z.mod_unique _ _ 1); lia.
Qed.

Lemma golomb_lemma v r rest :
  reader_ok r → 0 <= v < 2 ^ 31 - 1 → reader_bits r = golomb_bits v ++ rest →
  ∃ r', ExpGolomb_Decode r = Got (v, r') ∧ reader_ok r' ∧ reader_bits r' = rest.
Proof.
  intros Hr Hv Hb. destruct (golomb_split v) as [Hg Hx]; [lia|]. set (len := Z.log2 (v + 1)) in *.
  assert (0 <= len < 31) as Hl by (split; [apply Z.log2_nonneg|apply Z.log2_lt_pow2; lia]).
  rewrite Hg, <- app_assoc in Hb. cbn [app] in Hb.
  pose proof (reader_bits_length r Hr) as Hlen. rewrite Hb, length_app, length_replicate in Hlen.
  unfold ExpGolomb_Decode.
  destruct (count_zeros_spec (Z.to_nat len) (S (Z.to_nat (br_cached r + Zlen (br_buffer r) * 8))) 0 r _ Hr Hb)
    as (r1 & H1 & Hr1 & Hb1); [rewrite Left_eq in Hlen by done; lia|].
  rewrite H1. cbn [cbind fst snd]. rewrite Z.add_0_l, Z2Nat.id by lia.
  pose proof (reader_bits_length r1 Hr1) as Hlen1. rewrite Hb1, length_app, to_bits_length in Hlen1.
  destruct (Get_spec len r1 Hr1) as (y & r2 & H2 & Hr2 & Hy & Hb2 & _); [lia|lia|].
  rewrite Hb1 in Hb2. apply app_inj_1 in Hb2 as [E1 E2]; [|by rewrite !to_bits_length].
  assert (y = v + 1 - 2 ^ len) as -> by (symmetry; eapply to_bits_inj; [..|exact E1]; rewrite Z2Nat.id by lia; lia).
  rewrite H2. cbn [cbind fst snd]. exists r2. split_and!; [|done|done]. do 2 f_equal.
  unfold shl32. destruct (Z.ltb_spec len 32); [|lia]. rewrite Z.shiftl_mul_pow2, Z.mul_1_l by lia.
  assert (2 ^ len < 2 ^ 32) by (apply Z.pow_lt_mono_r; lia).
  rewrite (to_dword_id (2 ^ len)) by (unfold is_dword; lia). rewrite to_dword_id; [lia|unfold is_dword; lia].
Qed.
End Streams.

(** ** The guarantees *)

(** C21. A reader with fewer than [2^32] bits to read ([reader_ok]; a buffer of less than [2^29] octets)
    is the list of these bits: [Get], [Peek] and [Skip] of up to 31 bits take exactly the next ones
    (most significant first), whatever the alignment, and [Left], which is computed in 32 bits, counts
    those that remain. *)
Theorem reader_is_a_bit_list {W : WireOps} {V : MoreWireOps} {SH : ShiftOps} {HN : NetworkOrder W V} n r :
  reader_ok r → 0 < n < 32 → n <= Left r →
  ∃ v r', Get n r = Got (v, r') ∧ Peek n r = Got v ∧ Skip n r = Got r'
    ∧ reader_ok r' ∧ 0 <= v < 2 ^ n ∧ Left r' = Left r - n
    ∧ reader_bits r = to_bits (Z.to_nat n) v ++ reader_bits r'.
Proof.
  intros Hr Hn Hl. destruct (Get_spec n r Hr) as (v & r' & H1 & Hr' & Hv & Hb & _); [lia|lia|].
  destruct (Skip_is_Get n r v r' Hr Hn Hl H1) as [H2 H3].
  exists v, r'. split_and!; try done; try lia.
  rewrite <- !reader_bits_length, Hb, length_app, to_bits_length by done. lia.
Qed.

(** C22. Fields written to a buffer of less than [2^29] octets (the room is a 32-bit count of bits) with
    room for them are read back, whatever their widths (up to
    31 bits) and however they straddle octets and words; after [Flush] the writer has used as many
    octets as the fields need. *)
Theorem bit_fields_roundtrip {W : WireOps} {V : MoreWireOps} {SH : ShiftOps} {HN : NetworkOrder W V} fs data :
  bytes_ok data → Zlen data < 2 ^ 29 → Forall field_ok fs → total_bits fs <= Zlen data * 8 →
  ∃ w len w' r, write_fields fs (new_writter data) = Got w ∧ Flush w = Got (len, w')
    ∧ len = (total_bits fs + 7) / 8 ∧ len <= Zlen data ∧ Zlen (bw_data w') = Zlen data
    ∧ read_fields fs.*1 (new_reader (ztake len (bw_data w'))) = Got (fs.*2, r).
Proof.
  intros Hd Hs Hf Ht. destruct (new_writter_ok data Hd Hs) as (Hw0 & Hb0 & Hr0).
  destruct (write_fields_spec fs _ Hw0 Hf) as (w & H1 & Hw & Hb & Hr & Hl); [lia|]. simpl in Hl.
  destruct (Flush_spec w Hw) as (w' & H2 & Hw' & _ & Hb' & Hl'); [lia|].
  rewrite Hb0, app_nil_l in Hb. rewrite Hb in Hb'.
  pose proof (wo_len _ Hw') as Hlen. pose proof (wo_cached _ Hw) as Hc. pose proof (wo_len _ Hw) as Hwl.
  destruct (new_reader_ok (ztake (bw_bufferLen w') (bw_data w'))) as [Hro Hrb].
  { apply Forall_take. apply (wo_bytes _ Hw'). }
  { rewrite Zlen_ztake by lia. lia. }
  rewrite Hb' in Hrb. destruct (read_fields_spec fs _ _ Hro Hf Hrb) as (r & H3 & _ & _).
  exists w, (bw_bufferLen w'), w', r. split_and!; [done|done| |lia|lia|done].
  apply (f_equal (λ l, Z.of_nat (length l))) in Hb'.
  rewrite octet_bits_length, length_app, length_replicate in Hb'.
  apply (f_equal (λ l, Z.of_nat (length l))) in Hb. unfold writter_bits in Hb.
  rewrite length_app, to_bits_length, octet_bits_length in Hb.
  pose proof (Zlen_ztake (bw_bufferLen w') (bw_data w') ltac:(lia)) as E1.
  pose proof (Zlen_ztake (bw_bufferLen w) (bw_data w) ltac:(lia)) as E2. unfold Zlen in E1, E2.
  unfold padding_bits, room in *. cbn [new_writter bw_data bw_bufferLen bw_cached] in Hr. Z.div_mod_to_equations. lia.
Qed.

(** Exponential Golomb codes are read as they are defined: a reader whose next bits are the code of a
    number below [2^31 - 1] returns this number and stops at the end of its code. *)
Theorem golomb_code_is_read {W : WireOps} {V : MoreWireOps} {SH : ShiftOps} {HN : NetworkOrder W V} v r rest :
  reader_ok r → 0 <= v < 2 ^ 31 - 1 → reader_bits r = golomb_bits v ++ rest →
  ∃ r', ExpGolomb_Decode r = Got (v, r') ∧ reader_ok r' ∧ reader_bits r' = rest.
Proof. apply golomb_lemma. Qed.

(** ** At concrete inputs *)

(** A machine that leaves an integer as it is when it is shifted by its width. *)
Definition no_shift : ShiftOps := {| over_shl x _ := x; over_shr x _ := x |}.

Lemma reader_is_a_bit_list_witness :
  ∃ v r', Get (W := network_order) (V := network_order_more) (SH := no_shift) 11 (new_reader [0xA5; 0xF0; 0x0F]) = Got (v, r')
    ∧ Left r' = 13.
Proof.
  pose proof (new_reader_ok [0xA5; 0xF0; 0x0F]) as [Hr _].
  { unfold bytes_ok. apply (bool_decide_unpack _). vm_compute; exact I. }
  { done. }
  destruct (reader_is_a_bit_list (W := network_order) (V := network_order_more) (SH := no_shift) 11 (new_reader [0xA5; 0xF0; 0x0F]) Hr)
    as (v & r' & H & _ & _ & _ & _ & Hl & _); [lia|vm_compute; discriminate|].
  exists v, r'. split; [exact H|exact Hl].
Defined.

Lemma bit_fields_roundtrip_witness :
  ∃ w' r, read_fields (W := network_order) (V := network_order_more) (SH := no_shift)
    [3; 31; 7] (new_reader (ztake 6 (bw_data w'))) = Got ([5; 0x12345678; 100], r).
Proof.
  destruct (bit_fields_roundtrip (W := network_order) (V := network_order_more) (SH := no_shift)
    [(3, 5); (31, 0x12345678); (7, 100)] (replicate 8 0)) as (w & len & w' & r & _ & _ & Hlen & _ & _ & H).
  - unfold bytes_ok. apply (bool_decide_unpack _). vm_compute; exact I.
  - done.
  - unfold field_ok. repeat constructor; simpl; lia.
  - vm_compute. discriminate.
  - exists w', r. rewrite Hlen in H. exact H.
Defined.

Lemma golomb_code_is_read_witness :
  ∃ r', ExpGolomb_Decode (W := network_order) (V := network_order_more) (SH := no_shift) (new_reader [0x28]) = Got (4, r').
Proof.
  pose proof (new_reader_ok [0x28]) as [Hr Hb].
  { unfold bytes_ok. apply (bool_decide_unpack _). vm_compute; exact I. }
  { done. }
  destruct (golomb_code_is_read (W := network_order) (V := network_order_more) (SH := no_shift) 4 (new_reader [0x28]) [false; false; false] Hr)
    as (r' & H & _); [lia|exact Hb|]. exists r'. exact H.
Defined.

(** Reading more bits than are left is refused only when none is left: here 12 bits of 8. *)
Theorem short_read_is_not_refused :
  let r := new_reader [0xFF] in
  match Get (W := network_order) (V := network_order_more) (SH := no_shift) 12 r with
  | Got (v, r') => v = 0xFF0 ∧ Left r' = 252
  | _ => False
  end.
Proof. vm_compute. done. Qed.

(** On a machine that ignores a shift by 32, reading a whole word spoils the next read. *)
Theorem word_read_spoils_the_next :
  let r := new_reader [0xFF; 0xFF; 0xFF; 0xFF; 0; 0; 0; 0] in
  match read_fields (W := network_order) (V := network_order_more) (SH := no_shift) [32; 8] r with
  | Got (vs, _) => vs = [0xFFFFFFFF; 0xFF]
  | _ => False
  end.
Proof. vm_compute. done. Qed.

(** With a buffer of [2^29] octets the count of the bits left is 0, and a whole octet put into an empty
    buffer of that size is refused. *)
Lemma huge_buffer_is_full {W : WireOps} {V : MoreWireOps} data :
  Zlen data = 2 ^ 29 → Left (new_reader data) = 0 ∧ FlushCache (mkWritter data 0 0 8) = Refuse.
Proof. intros Hd. unfold Left, FlushCache. simpl. rewrite Hd. done. Qed.
