(* ===== verification/FecDecoder.v ===== *)
(** * Forward error correction

    [FECData] and [FECDecoder] (src/mcu/include/fecdecoder.h, src/mcu/src/fecdecoder.cpp): video
    packets and the codes that protect them (RFC 5109) are kept for 64 sequence numbers; a packet
    that is missing is the exclusive or of a code and of the other packets it protects.  An
    exception of the bit writer is [Refuse], the use of a deleted packet and a cast to the wrong
    class are [Fault].  The codes of RED and ULPFEC are those of libmedkit ([VideoCodecs]). *)

From S2P Require Import Prelude OrderedMap Wire Octets RtpPacket RedCodec BitStream.

Class VideoCodecs := {
  VideoCodec_RED : Z;
  VideoCodec_ULPFEC : Z;
}.

(** The machine's result of a shift of 64 bits by 64 or more. *)
Class ShiftOps64 := { over_shl64 : Z → Z → Z }.

Section Fec.
Context {W : WireOps} {V : MoreWireOps} {SH : ShiftOps} {S64 : ShiftOps64} {C : VideoCodecs}.

Definition shl64 (x n : Z) : Z := to_qword (if n <? 64 then Z.shiftl x n else over_shl64 x n).

(** ** FECData *)

Record FECData := mkFec {
  fec_data : bytes;              (** [BYTE data\[MTU\]] *)
  fec_size : Z;
  fec_cycles : Z;
}.

(** [FECData(data, size)] *)
Definition new_fec (data : bytes) : FECData :=
  let data := ztake MTU data in
  mkFec (data ++ replicate (Z.to_nat (MTU - Zlen data)) 0) (Zlen data) 0.

Definition GetLongMask (f : FECData) : bool := Z.testbit (zget 0 (fec_data f)) 6.
Definition GetRecoveryP (f : FECData) : bool := Z.testbit (zget 0 (fec_data f)) 5.
Definition GetRecoveryX (f : FECData) : bool := Z.testbit (zget 0 (fec_data f)) 4.
Definition GetRecoveryM (f : FECData) : bool := Z.testbit (zget 1 (fec_data f)) 7.
Definition GetRecoveryType (f : FECData) : Z := Z.land (zget 1 (fec_data f)) 0x7F.
Definition GetBaseSeqNum (f : FECData) : Z := get2 (fec_data f) 2.
Definition GetRecoveryTimestamp (f : FECData) : Z := get4 (fec_data f) 4.
Definition GetRecoveryLength (f : FECData) : Z := get2 (fec_data f) 8.
Definition GetBaseExtSeq (f : FECData) : Z := Z.lor (Z.shiftl (fec_cycles f) 16) (GetBaseSeqNum f).

Definition GetLevel0Offset (f : FECData) : Z := if GetLongMask f then 18 else 14.
Definition GetLevel0Size (f : FECData) : Z :=
  let announced := get2 (fec_data f) 10 in
  let offset := GetLevel0Offset f in
  let available := if offset <? fec_size f then fec_size f - offset else 0 in
  if announced <? available then announced else available.
Definition GetLevel0Mask (f : FECData) : Z :=
  let mask := Z.shiftl (get2 (fec_data f) 12) 48 in
  if GetLongMask f then Z.lor mask (Z.shiftl (get4 (fec_data f) 14) 16) else mask.

(** [IsProtectedAtLevel0(int seq)] *)
Definition IsProtectedAtLevel0 (seq : Z) (f : FECData) : bool :=
  let base := GetBaseSeqNum f in
  if (seq <? base) || (base + 48 <? seq) then false
  else Z.testbit (GetLevel0Mask f) (64 - to_byte (seq - base) - 1).

(** ** FECDecoder *)

(** What a packet is, whatever its codec says. *)
Inductive AnyPacket := APlain (t : RTPTimedPacket) | ARed (r : RTPRedundantPacket).

Definition any_rtp (p : AnyPacket) : RTPPacket :=
  match p with APlain t => tp_rtp t | ARed r => tp_rtp (rr_timed r) end.

Record FECDecoder := mkFecDecoder {
  fd_medias : list (Z * RTPTimedPacket);
  fd_codes : list (Z * FECData);
}.

Definition new_fec_decoder : FECDecoder := mkFecDecoder [] [].

Definition add_code (data : bytes) (codes : list (Z * FECData)) : list (Z * FECData) :=
  let fec := new_fec data in om_set (GetBaseExtSeq fec) fec codes.

(** [GetRedundantCodec(i)] *)
Definition GetRedundantCodec (r : RTPRedundantPacket) (i : nat) : Z :=
  match rb_headers (rr_blocks r) !! i with Some h => red_codec h | None => 0 end.

(** The loop over the redundant blocks, from block [i]. *)
Fixpoint add_blocks (red : RTPRedundantPacket) (i n : nat) (codes : list (Z * FECData))
  : checked (list (Z * FECData)) :=
  match n with
  | O => Got codes
  | S n =>
      if GetRedundantCodec red i =? VideoCodec_ULPFEC then
        let? data := redundant_octets red i in
        add_blocks red (S i) n (add_code data codes)
      else add_blocks red (S i) n codes
  end.

(** Deleting the entries below [limit]. *)
Fixpoint drop_below {A} (limit : Z) (l : list (Z * A)) : list (Z * A) :=
  match l with
  | (k, v) :: l' => if k <? limit then drop_below limit l' else l
  | [] => []
  end.

(** The end of [AddPacket]. *)
Definition clean_up (d : FECDecoder) : FECDecoder :=
  match last (fd_medias d) with
  | None => d
  | Some (seq, _) =>
      let limit := to_dword (seq - 63) in
      mkFecDecoder (drop_below limit (fd_medias d)) (drop_below limit (fd_codes d))
  end.

(** [AddPacket(packet)]: [false] when the packet held no media, and was deleted.  [mem], [len0] and
    [now] are those of the packet created. *)
Definition AddPacket (mem : bytes) (len0 now : Z) (packet : AnyPacket) (d : FECDecoder)
  : checked (bool * FECDecoder) :=
  let p := any_rtp packet in
  if rp_codec p =? VideoCodec_RED then
    match packet with
    | APlain _ => Fault
    | ARed red =>
        if rr_primaryCodec red =? VideoCodec_ULPFEC then
          let? data := primary_octets red in
          Got (false, mkFecDecoder (fd_medias d) (add_code data (fd_codes d)))
        else
          let? media := CreatePrimaryPacket mem len0 now red in
          let medias := om_set (GetExtSeqNum p) media (fd_medias d) in
          let? codes := add_blocks red 0 (Z.to_nat (GetRedundantCount red)) (fd_codes d) in
          Got (true, clean_up (mkFecDecoder medias codes))
    end
  else if rp_codec p =? VideoCodec_ULPFEC then
    Got (false, mkFecDecoder (fd_medias d) (add_code (media_octets p) (fd_codes d)))
  else
    let time := match packet with APlain t => tp_time t | ARed r => tp_time (rr_timed r) end in
    Got (true, clean_up (mkFecDecoder
      (om_set (GetExtSeqNum p) (timed_Clone mem len0 (mkTimed p time)) (fd_medias d)) (fd_codes d))).

(** ** Recovery *)

(** The bits written for the packets there are and those that are missing, and the latter. *)
Fixpoint write_present (lastSeq : Z) (keys : list Z) (w : BitWritter) (losts : list Z)
  : checked (BitWritter * list Z) :=
  match keys with
  | [] => Got (w, losts)
  | cur :: keys =>
      let missing := seqZ (lastSeq + 1) (cur - (lastSeq + 1)) in
      let? w := foldl (λ m _, let? w := m in Put 1 0 w) (Got w) missing in
      let? w := Put 1 1 w in
      write_present cur keys w (losts ++ missing)
  end.

(** What is being rebuilt: the header fields and the octets. *)
Record Rebuilt := mkRebuilt {
  rb_p : bool; rb_x : bool; rb_m : bool;
  rb_pt : Z; rb_ts : Z; rb_l : Z;
  rb_octets : bytes;
}.

(** The exclusive or with one media packet. *)
Definition xor_media (level0Size : Z) (media : RTPTimedPacket) (b : Rebuilt) : Rebuilt :=
  let p := tp_rtp media in
  let n := Z.to_nat (Z.min (rp_len p) level0Size) in
  mkRebuilt (xorb (rb_p b) (GetP p)) (xorb (rb_x b) (GetX p)) (xorb (rb_m b) (GetMark p))
    (Z.lxor (rb_pt b) (GetType p)) (Z.lxor (rb_ts b) (GetTimestamp p)) (to_word (Z.lxor (rb_l b) (rp_len p)))
    (zip_with Z.lxor (take n (rb_octets b)) (take n (media_octets p)) ++ drop n (rb_octets b)).

(** [while (r.Left())]: one bit of the mask at a time. *)
Fixpoint xor_loop (fuel : nat) (base level0Size : Z) (medias : list (Z * RTPTimedPacket)) (r : BitReader)
    (b : Rebuilt) : checked Rebuilt :=
  if Left r =? 0 then Got b
  else
    match fuel with
    | O => Fault
    | S fuel =>
        let? bit := Get 1 r in
        let r := bit.2 in
        let b :=
          if bit.1 =? 0 then b
          else match om_find (to_dword (base + GetPos r - 1)) medias with
               | None => b
               | Some media => xor_media level0Size media b
               end in
        xor_loop fuel base level0Size medias r b
    end.

(** The packet rebuilt with [fec] for [seq]; [aux] is the array the mask is written to. *)
Definition rebuild (mem : bytes) (len0 now : Z) (aux : bytes) (ssrc seq fecMask : Z) (fec : FECData)
    (medias : list (Z * RTPTimedPacket)) : checked RTPTimedPacket :=
  let level0Size := GetLevel0Size fec in
  let? level0 := rd_copy (fec_data fec) (GetLevel0Offset fec) level0Size in
  let octets := level0 ++ replicate (Z.to_nat (MTU - level0Size)) 0 in
  let? b := xor_loop 64 (GetBaseExtSeq fec) level0Size medias (new_reader (set8 aux 0 fecMask))
              (mkRebuilt (GetRecoveryP fec) (GetRecoveryX fec) (GetRecoveryM fec) (GetRecoveryType fec)
                 (GetRecoveryTimestamp fec) (GetRecoveryLength fec) octets) in
  let p := new_rtp mem len0 Video (rb_pt b) (rb_pt b) in
  let p := SetX (rb_x b) (SetP (rb_p b) p) in
  let p := SetTimestamp (rb_ts b) (SetMark (rb_m b) p) in
  let p := SetSSRC ssrc (SetSeqCycles (fec_cycles fec) (SetSeqNum seq p)) in
  let l := if level0Size <? rb_l b then level0Size else rb_l b in
  Got (mkTimed (SetPayload (ztake l (rb_octets b)) p).2 now).

(** The code that can restore [seq], if any: the first that protects it and of which every other
    packet is there. *)
Fixpoint usable (seq lostMask minSeq : Z) (codes : list (Z * FECData)) : option (FECData * Z) :=
  match codes with
  | [] => None
  | (_, fec) :: codes =>
      if negb (IsProtectedAtLevel0 (to_int32 seq) fec) then usable seq lostMask minSeq codes
      else
        let diff := to_dword (seq - GetBaseExtSeq fec) in
        let mediaMask := shl64 lostMask (to_dword (GetBaseExtSeq fec - minSeq)) in
        let fecMask := Z.ldiff (GetLevel0Mask fec) (shl64 1 (to_dword (64 - diff - 1))) in
        if Z.land fecMask mediaMask =? fecMask then Some (fec, fecMask)
        else usable seq lostMask minSeq codes
  end.

Fixpoint first_usable (losts : list Z) (lostMask minSeq : Z) (codes : list (Z * FECData))
  : option (Z * FECData * Z) :=
  match losts with
  | [] => None
  | seq :: losts =>
      match usable seq lostMask minSeq codes with
      | Some (fec, fecMask) => Some (seq, fec, fecMask)
      | None => first_usable losts lostMask minSeq codes
      end
  end.

(** [Recover()]; [NULL] is [None]. *)
Definition Recover (mem : bytes) (len0 now : Z) (d : FECDecoder)
  : checked (option RTPTimedPacket * FECDecoder) :=
  match fd_medias d with
  | [] => Got (None, d)
  | (_, first) :: _ =>
      let ssrc := GetSSRC (tp_rtp first) in
      let minSeq := GetExtSeqNum (tp_rtp first) in
      let? res := write_present minSeq (fd_medias d).*1 (new_writter (replicate 8 0)) [] in
      let? fl := Flush res.1 in
      let aux := bw_data fl.2 in
      let lostMask := get8 aux 0 in
      match first_usable res.2 lostMask minSeq (fd_codes d) with
      | None => Got (None, d)
      | Some (seq, fec, fecMask) =>
          let? packet := rebuild mem len0 now aux ssrc seq fecMask fec (fd_medias d) in
          let? added := AddPacket mem len0 now (APlain packet) d in
          if added.1 then Got (Some packet, added.2) else Fault
      end
  end.
End Fec.
