(* ===== verification/FecClaims.v ===== *)
(** * Forward error correction: what it guarantees

    The mask of the packets there are, the choice of a code and the loop over the bits of its mask,
    as statements on sequence numbers.

    With every packet a code protects but one, and with the conditions the decoder needs, the
    missing packet is rebuilt as it was sent. *)

From S2P Require Import Prelude OrderedMap Wire Octets RtpPacket RtpClaims RedCodec BitStream BitStreamClaims FecDecoder.

Lemma list_filter_all {A} (P : A → Prop) `{∀ x, Decision (P x)} (l : list A) : Forall P l → filter P l = l.
Proof. induction 1 as [|x l Hx _ IH]; [done|]. by rewrite filter_cons_True, IH. Qed.

Lemma list_filter_local {A} (P Q : A → Prop) `{∀ x, Decision (P x), ∀ x, Decision (Q x)} (l : list A) :
  (∀ x, x ∈ l → P x ↔ Q x) → filter P l = filter Q l.
Proof.
  induction l as [|x l IH]; intros Hpq; [done|]. rewrite !filter_cons, IH by (intros; apply Hpq; by right).
  assert (P x ↔ Q x) by (apply Hpq; left). repeat case_decide; tauto.
Qed.

Lemma fmap_replicate_false {A} (f : A → bool) (l : list A) :
  (∀ x, x ∈ l → f x = false) → f <$> l = replicate (length l) false.
Proof.
  induction l as [|x l IH]; intros Hf; [done|]. rewrite fmap_cons, Hf by left. cbn [length replicate]. f_equal.
  apply IH. intros y Hy. apply Hf. by right.
Qed.

Lemma sorted_last a l x : StronglySorted Z.lt (a :: l) → x ∈ a :: l → x <= default a (last l).
Proof.
  revert a. induction l as [|b l IH]; intros a Hs Hx.
  { apply list_elem_of_singleton in Hx. simpl. lia. }
  apply StronglySorted_inv in Hs as [Hs Hf]. 
  assert (default a (last (b :: l)) = default b (last l)) as -> by (rewrite last_cons; by destruct (last l)).
  apply elem_of_cons in Hx as [->|Hx]; [|by apply IH]. apply Forall_cons in Hf as [Hab Hf].
  destruct (last l) eqn:E; simpl; [|lia]. apply last_Some_elem_of in E. rewrite Forall_forall in Hf.
  specialize (Hf _ E). lia.
Qed.

(** ** Bits of numbers, by position *)

Lemma to_bits_lookup n v i : (i < n)%nat → to_bits n v !! i = Some (Z.testbit v (Z.of_nat n - 1 - Z.of_nat i)).
Proof.
  revert i. induction n as [|n IH]; intros i Hi; [lia|]. cbn [to_bits].
  destruct i as [|i]; simpl; [do 2 f_equal; lia|]. rewrite IH by lia. do 2 f_equal. lia.
Qed.

Lemma shl64_bits `{ShiftOps64} x n j : 0 <= n < 64 → 0 <= j < 64 → Z.testbit (shl64 x n) j = Z.testbit x (j - n).
Proof.
  intros Hn Hj. unfold shl64, to_qword. rewrite (proj2 (Z.ltb_lt n 64)) by lia.
  rewrite Z.mod_pow2_bits_low by lia. rewrite Z.shiftl_spec by lia. done.
Qed.

Section Fec.
Context {W : WireOps} {V : MoreWireOps} {SH : ShiftOps} {S64 : ShiftOps64} {C : VideoCodecs} {HN : NetworkOrder W V}.

(** ** The octets a writer has not reached *)

Definition blank (w : BitWritter) : Prop := Forall (λ o, o = 0) (zdrop (bw_bufferLen w) (bw_data w)).

Lemma be_put_beyond n b i v :
  0 <= i → zdrop (i + Z.of_nat n) (be_put n b i v) = zdrop (i + Z.of_nat n) b.
Proof.
  intros Hi. apply list_eq. intros k. unfold zdrop. rewrite !lookup_drop.
  pose proof (be_put_other n b i v (i + Z.of_nat n + Z.of_nat k)) as Ho.
  replace (Z.to_nat (i + Z.of_nat n + Z.of_nat k)) with (Z.to_nat (i + Z.of_nat n) + k)%nat in Ho by lia. apply Ho; lia.
Qed.

Lemma blank_later b i n : 0 <= i → 0 <= n → Forall (λ o, o = 0) (zdrop i b) → Forall (λ o, o = 0) (zdrop (i + n) b).
Proof. intros Hi Hn Hb. rewrite <- zdrop_zdrop by lia. by apply Forall_drop. Qed.

Lemma FlushCache_blank w w' : 0 <= bw_bufferLen w → FlushCache w = Got w' → blank w → blank w'.
Proof.
  intros Hl. unfold FlushCache, blank. intros Hf Hb.
  repeat case_match; try done; simplify_eq; cbn [bw_data bw_bufferLen]; try done.
  - rewrite set4_be, (be_put_beyond 4 _ _ _ Hl : zdrop (_ + 4) _ = _). by apply blank_later.
  - rewrite set3_be, (be_put_beyond 3 _ _ _ Hl : zdrop (_ + 3) _ = _). by apply blank_later.
  - rewrite set2_be, (be_put_beyond 2 _ _ _ Hl : zdrop (_ + 2) _ = _). by apply blank_later.
  - rewrite set1_be, (be_put_beyond 1 _ _ _ Hl : zdrop (_ + 1) _ = _). by apply blank_later.
  - by rewrite Z.add_0_r.
Qed.

Lemma Put_blank n v w w' : 0 <= bw_bufferLen w → Put n v w = Got w' → blank w → blank w'.
Proof.
  intros Hl. unfold Put. destruct (32 <? n + bw_cached w); [|by intros [= <-]].
  set (w1 := mkWritter _ _ _ 32). destruct (FlushCache w1) as [| |w2] eqn:Hf; try done. intros [= <-] Hb.
  by apply (FlushCache_blank w1 w2).
Qed.

Lemma Flush_blank w w' n : writter_ok w → 0 <= room w → Flush w = Got (n, w') → blank w → blank w'.
Proof.
  intros Hw Hr. pose proof (wo_len _ Hw) as Hl. unfold Flush.
  destruct (Align w) as [| |w1] eqn:Ha; try done. cbn [cbind].
  destruct (FlushCache w1) as [| |w2] eqn:Hf; try done. cbn [cbind]. intros [= <- <-] Hb.
  assert (0 <= bw_bufferLen w1 ∧ blank w1) as [Hl1 Hb1].
  { unfold Align in Ha. destruct (Z.eqb_spec (bw_cached w mod 8) 0); [injection Ha as <-; split; [lia|done]|].
    assert (Hp : ∃ p, 0 < p < 8 ∧ p + bw_cached w <= 32 ∧ Put p 0 w = Got w1).
    { pose proof (wo_cached _ Hw). repeat case_match; ztests;
        (eexists; split; [|split; [|exact Ha]]); ztests; Z.div_mod_to_equations; lia. }
    destruct Hp as (p & Hp1 & Hp2 & Hp). split; [|eapply Put_blank; [|exact Hp|done]; lia].
    unfold Put in Hp. destruct (Z.ltb_spec 32 (p + bw_cached w)); [lia|]. injection Hp as <-. simpl. lia. }
  by apply (FlushCache_blank w1 w2).
Qed.

(** ** The mask of the packets there are *)

Definition has_key (keys : list Z) (k : Z) : bool := bool_decide (k ∈ keys).

Lemma put_zeros (l : list Z) w :
  writter_ok w → Zlen l <= room w → blank w →
  ∃ w', foldl (λ m _, let? w := m in Put 1 0 w) (Got w) l = Got w' ∧ writter_ok w' ∧ blank w'
    ∧ writter_bits w' = writter_bits w ++ replicate (length l) false ∧ room w' = room w - Zlen l
    ∧ Zlen (bw_data w') = Zlen (bw_data w).
Proof.
  revert w. induction l as [|x l IH]; intros w Hw Hr Hb.
  { exists w. simpl. rewrite app_nil_r, Zlen_nil. split_and!; try done. lia. }
  rewrite Zlen_cons in *. pose proof (Zlen_nonneg l).
  destruct (Put_spec 1 0 w Hw) as (w1 & H1 & Hw1 & Hb1 & Hr1 & Hl1); [lia|lia|lia|].
  destruct (IH w1 Hw1) as (w2 & H2 & Hw2 & Hbl2 & Hb2 & Hr2 & Hl2); [lia|by eapply Put_blank; [apply (wo_len _ Hw)|..]|].
  exists w2. cbn [foldl]. cbn [cbind]. rewrite H1. split_and!; [done|done|done| |lia|lia].
  rewrite Hb2, Hb1, <- app_assoc. done.
Qed.

(** One bit per number after [lastSeq] up to the last key. *)
Lemma write_present_spec keys lastSeq w losts :
  StronglySorted Z.lt (lastSeq :: keys) → writter_ok w → blank w →
  let upto := default lastSeq (last keys) in
  let range := seqZ (lastSeq + 1) (upto - lastSeq) in
  upto - lastSeq <= room w →
  ∃ w', write_present lastSeq keys w losts
      = Got (w', losts ++ filter (λ k, ¬ k ∈ keys) range)
    ∧ writter_ok w' ∧ blank w' ∧ Zlen (bw_data w') = Zlen (bw_data w) ∧ lastSeq <= upto
    ∧ writter_bits w' = writter_bits w ++ (has_key keys <$> range) ∧ room w' = room w - (upto - lastSeq).
Proof.
  revert lastSeq w losts. induction keys as [|cur keys IH]; intros lastSeq w losts Hs Hw Hb upto range Hr.
  { exists w. unfold range, upto. cbn [last default from_option]. rewrite Z.sub_diag. simpl. rewrite !app_nil_r.
    split_and!; try done; lia. }
  apply StronglySorted_inv in Hs as [Hs Hlt]. pose proof Hs as Hs'. apply StronglySorted_inv in Hs' as [_ Hlt'].
  apply Forall_cons in Hlt as [Hc Hlt].
  assert (Hupto : upto = default cur (last keys)) by (unfold upto; by rewrite last_cons; destruct (last keys)).
  assert (Hcu : cur <= upto).
  { rewrite Hupto. destruct (last keys) eqn:E; simpl; [|lia]. apply last_Some_elem_of in E.
    rewrite Forall_forall in Hlt'. specialize (Hlt' _ E). lia. }
  cbn [write_present]. set (missing := seqZ (lastSeq + 1) (cur - (lastSeq + 1))).
  assert (Hml : Zlen missing = cur - lastSeq - 1) by (unfold missing, Zlen; rewrite length_seqZ; lia).
  destruct (put_zeros missing w Hw) as (w1 & H1 & Hw1 & Hbl1 & Hb1 & Hr1 & Hl1); [lia|done|]. rewrite H1. cbn [cbind].
  destruct (Put_spec 1 1 w1 Hw1) as (w2 & H2 & Hw2 & Hb2 & Hr2 & Hl2); [lia|lia|lia|]. rewrite H2. cbn [cbind].
  destruct (IH cur w2 (losts ++ missing) Hs Hw2) as (w3 & H3 & Hw3 & Hbl3 & Hl3 & Hle3 & Hb3 & Hr3);
    [by eapply Put_blank; [apply (wo_len _ Hw1)|..]|lia|].
  rewrite <- Hupto in *. exists w3.
  assert (Hrange : range = missing ++ cur :: seqZ (cur + 1) (upto - cur)).
  { unfold range, missing. replace (upto - lastSeq) with ((cur - (lastSeq + 1)) + (1 + (upto - cur))) by lia.
    rewrite seqZ_app by lia. f_equal. rewrite seqZ_cons by lia. f_equal; [lia|]. f_equal; lia. }
  assert (Hmiss : ∀ k, k ∈ missing → k ∉ cur :: keys).
  { intros k Hk. apply elem_of_seqZ in Hk. intros [->|Hk']%elem_of_cons; [lia|].
    rewrite Forall_forall in Hlt'. specialize (Hlt' _ Hk'). lia. }
  assert (Hrest : ∀ k, k ∈ seqZ (cur + 1) (upto - cur) → k ∈ cur :: keys ↔ k ∈ keys).
  { intros k Hk. apply elem_of_seqZ in Hk. rewrite elem_of_cons. split; [intros [->|]; [lia|done]|by right]. }
  split_and!; [|done|done|lia|lia| |lia].
  - rewrite H3, Hrange, filter_app, filter_cons_False by (intros Hn; apply Hn; left). do 2 f_equal.
    rewrite <- app_assoc. f_equal. f_equal.
    + symmetry. apply list_filter_all. rewrite Forall_forall. exact Hmiss.
    + apply list_filter_local. intros k Hk. rewrite Hrest by done. done.
  - rewrite Hb3, Hb2, Hb1, Hrange, fmap_app, fmap_cons, <- !app_assoc. f_equal. f_equal.
    + symmetry. apply fmap_replicate_false. intros k Hk. apply bool_decide_eq_false. by apply Hmiss.
    + simpl. f_equal; [symmetry; apply bool_decide_eq_true; left|].
      apply list_fmap_ext. intros i k Hk. apply bool_decide_ext. symmetry. apply Hrest. by eapply list_elem_of_lookup_2.
Qed.

Lemma octet_bits_zero l : Forall (λ o, o = 0) l → octet_bits l = replicate (8 * length l) false.
Proof.
  induction 1 as [|o l -> _ IH]; [done|]. change (octet_bits (0 :: l)) with (to_bits 8 0 ++ octet_bits l).
  rewrite IH, to_bits_0, <- replicate_add. f_equal. simpl. lia.
Qed.

(** The mask of [Recover]: bit [63 - k] says whether the packet [k] after the first is there. *)
Lemma present_mask_spec minSeq keys :
  StronglySorted Z.lt (minSeq :: keys) → default minSeq (last keys) - minSeq <= 63 →
  ∃ w n w', write_present minSeq (minSeq :: keys) (new_writter (replicate 8 0)) []
      = Got (w, filter (λ k, ¬ k ∈ keys) (seqZ (minSeq + 1) (default minSeq (last keys) - minSeq)))
    ∧ Flush w = Got (n, w') ∧ Zlen (bw_data w') = 8 ∧ bytes_ok (bw_data w')
    ∧ ∀ k, 0 <= k < 64 → Z.testbit (get8 (bw_data w') 0) (63 - k) = has_key (minSeq :: keys) (minSeq + k).
Proof.
  intros Hs Hspan. set (upto := default minSeq (last keys)) in *.
  destruct (new_writter_ok (replicate 8 0)) as (Hw0 & Hb0 & Hr0).
  { unfold bytes_ok. apply Forall_replicate. unfold is_byte. lia. }
  { done. }
  change (Zlen (replicate 8 0) * 8) with 64 in Hr0.
  assert (Hbl0 : blank (new_writter (replicate 8 0))) by (unfold blank; simpl; repeat constructor).
  destruct (Put_spec 1 1 _ Hw0) as (w1 & H1 & Hw1 & Hb1 & Hr1 & Hl1); [lia|lia|lia|].
  destruct (write_present_spec keys minSeq w1 [] Hs Hw1) as (w & Hw & Hwo & Hbl & Hl & Hle & Hb & Hr);
    [by eapply Put_blank; [apply (wo_len _ Hw0)|..]|fold upto; lia|]. fold upto in Hw, Hb, Hr, Hle.
  destruct (Flush_spec w Hwo) as (w' & Hf & Hw' & _ & Hbits & Hl'); [lia|].
  exists w, (bw_bufferLen w'), w'. rewrite Hb0 in Hb1. rewrite Hb1 in Hb. simpl in Hb.
  assert (Hlen : Zlen (bw_data w') = 8) by (rewrite Hl', Hl, Hl1; done).
  split_and!; [|done|done|apply (wo_bytes _ Hw')|].
  { cbn [write_present]. rewrite (seqZ_nil (minSeq + 1)) by lia. cbn [foldl cbind app]. rewrite H1. exact Hw. }
  assert (Hall : octet_bits (bw_data w') = (has_key (minSeq :: keys) <$> seqZ minSeq (upto - minSeq + 1))
    ++ replicate (64 - Z.to_nat (upto - minSeq + 1)) false).
  { assert (Hz := Flush_blank w w' _ Hwo ltac:(lia) Hf Hbl). unfold blank in Hz.
    rewrite <- (ztake_zdrop (bw_bufferLen w') (bw_data w')), octet_bits_app, Hbits, Hb.
    rewrite octet_bits_zero by done. rewrite <- app_assoc, <- replicate_add.
    assert (E : true :: (has_key keys <$> seqZ (minSeq + 1) (upto - minSeq))
      = has_key (minSeq :: keys) <$> seqZ minSeq (upto - minSeq + 1)).
    { rewrite (seqZ_cons minSeq) by lia. rewrite fmap_cons.
      f_equal; [symmetry; apply bool_decide_eq_true; left|].
      replace (Z.succ minSeq) with (minSeq + 1) by lia. replace (Z.pred (upto - minSeq + 1)) with (upto - minSeq) by lia.
      apply list_fmap_ext. intros i k Hk. apply bool_decide_ext. apply list_elem_of_lookup_2, elem_of_seqZ in Hk.
      rewrite elem_of_cons. split; [by right|intros [->|?]; [lia|done]]. }
    rewrite E. f_equal. f_equal.
    apply (f_equal length) in Hbits. rewrite octet_bits_length, Hb, length_app, length_replicate in Hbits.
    cbn [length] in Hbits. rewrite length_fmap, length_seqZ in Hbits.
    pose proof (ztake_zdrop (bw_bufferLen w') (bw_data w')) as Hsplit. apply (f_equal length) in Hsplit.
    rewrite length_app in Hsplit. unfold Zlen in Hlen. lia. }
  intros k Hk. rewrite get8_be.
  pose proof (be_get_bits 8 (bw_data w') 0 (wo_bytes _ Hw') ltac:(lia) ltac:(lia)) as Hg.
  change (zdrop 0 (bw_data w')) with (bw_data w') in Hg.
  replace (ztake (Z.of_nat 8) (bw_data w')) with (bw_data w') in Hg
    by (unfold ztake; rewrite take_ge by (unfold Zlen in Hlen; lia); done).
  rewrite Hall in Hg. change (8 * 8)%nat with 64%nat in Hg.
  pose proof (to_bits_lookup 64 (be_get 8 (bw_data w') 0) (Z.to_nat k) ltac:(lia)) as Hlk. rewrite Hg in Hlk.
  replace (Z.of_nat 64 - 1 - Z.of_nat (Z.to_nat k)) with (63 - k) in Hlk by lia.
  destruct (Z.lt_ge_cases k (upto - minSeq + 1)) as [Hin|Hout].
  - rewrite lookup_app_l in Hlk by (rewrite length_fmap, length_seqZ; lia).
    rewrite list_lookup_fmap, lookup_seqZ_lt in Hlk by lia. simpl in Hlk. injection Hlk as <-. f_equal. lia.
  - rewrite lookup_app_r in Hlk by (rewrite length_fmap, length_seqZ; lia).
    rewrite length_fmap, length_seqZ, lookup_replicate_2 in Hlk by lia. injection Hlk as <-. symmetry.
    apply bool_decide_eq_false. intros Hin. apply (sorted_last minSeq) in Hin; [|done]. fold upto in Hin. lia.
Qed.

(** ** The loop over the bits of a mask *)

(** The packets the bits select, from the number [base + pos] on. *)
Fixpoint selected (base pos : Z) (medias : list (Z * RTPTimedPacket)) (bits : list bool) : list RTPTimedPacket :=
  match bits with
  | [] => []
  | bit :: bits =>
      match (if bit then om_find (base + pos) medias else None) with
      | Some m => m :: selected base (pos + 1) medias bits
      | None => selected base (pos + 1) medias bits
      end
  end.

Lemma xor_loop_spec bits fuel base level0Size medias r b pos :
  reader_ok r → reader_bits r = bits → (length bits <= fuel)%nat →
  br_bufferPos r * 8 - br_cached r = pos → 0 <= pos → 0 <= base → base + pos + Zlen bits < 2 ^ 32 →
  xor_loop fuel base level0Size medias r b
  = Got (foldl (λ b m, xor_media level0Size m b) b (selected base pos medias bits)).
Proof.
  revert fuel r b pos. induction bits as [|bit bits IH]; intros fuel r b pos Hr Hb Hfuel Hpos H0 Hb0 Hmax.
  { pose proof (reader_bits_length r Hr) as Hl. rewrite Hb in Hl. simpl in Hl.
    destruct fuel; cbn [xor_loop]; rewrite <- Hl; done. }
  pose proof (reader_bits_length r Hr) as Hl. rewrite Hb in Hl. cbn [length] in Hl.
  destruct fuel as [|fuel]; [simpl in Hfuel; lia|]. cbn [xor_loop]. destruct (Z.eqb_spec (Left r) 0); [lia|].
  destruct (Get_spec 1 r Hr) as (v & r' & Hg & Hr' & Hv & Hbits & Hp); [lia|lia|]. rewrite Hg. cbn [cbind fst snd].
  rewrite Hb in Hbits. cbn [to_bits Z.to_nat Pos.to_nat Pos.iter_op app] in Hbits. injection Hbits as Hbit Hbits.
  assert (Hbv : (v =? 0) = negb bit) by (assert (v = 0 ∨ v = 1) as [->| ->] by lia; by rewrite Hbit). rewrite Hbv.
  rewrite Zlen_cons in Hmax. pose proof (Zlen_nonneg bits).
  assert (Hgp : to_dword (base + GetPos r' - 1) = base + pos).
  { unfold GetPos. rewrite (to_dword_id (br_bufferPos r' * 8 - br_cached r')) by (unfold is_dword; lia). rewrite to_dword_id by (unfold is_dword; lia). lia. }
  rewrite Hgp, (IH fuel r' _ (pos + 1)) by (done || (simpl in Hfuel; lia)).
  cbn [selected]. destruct bit; cbn [negb]; [|done]. by destruct (om_find (base + pos) medias).
Qed.

Lemma selected_elem base pos medias bits t :
  t ∈ selected base pos medias bits
  ↔ ∃ i : nat, bits !! i = Some true ∧ om_find (base + pos + Z.of_nat i) medias = Some t.
Proof.
  revert pos. induction bits as [|bit bits IH]; intros pos; cbn [selected].
  { split; [by intros ?%elem_of_nil|by intros (i & ? & ?)]. }
  assert (Hrest : t ∈ selected base (pos + 1) medias bits
    ↔ ∃ i : nat, (bit :: bits) !! S i = Some true ∧ om_find (base + pos + Z.of_nat (S i)) medias = Some t).
  { rewrite IH. f_equiv. intros i. simpl. by replace (base + (pos + 1) + Z.of_nat i) with (base + pos + Z.of_nat (S i)) by lia. }
  assert (Hhead : (∃ i : nat, (bit :: bits) !! i = Some true ∧ om_find (base + pos + Z.of_nat i) medias = Some t)
    ↔ (bit = true ∧ om_find (base + pos) medias = Some t) ∨ t ∈ selected base (pos + 1) medias bits).
  { rewrite Hrest. split.
    - intros ([|i] & H1 & H2); [left|right; by exists i]. simpl in H1. rewrite Z.add_0_r in H2. naive_solver.
    - intros [[-> H]|(i & H)]; [exists 0%nat; by rewrite Z.add_0_r|by exists (S i)]. }
  rewrite Hhead. destruct bit; [|naive_solver]. destruct (om_find (base + pos) medias) as [m|] eqn:E; [|naive_solver].
  rewrite elem_of_cons. naive_solver.
Qed.

Lemma selected_NoDup base pos medias bits :
  (∀ k t, om_find k medias = Some t → k = GetExtSeqNum (tp_rtp t)) → NoDup (selected base pos medias bits).
Proof.
  intros Hk. revert pos. induction bits as [|bit bits IH]; intros pos; cbn [selected]; [constructor|].
  destruct (if bit then _ else _) as [m|] eqn:E; [|done]. constructor; [|done].
  rewrite selected_elem. intros (i & _ & Hf). destruct bit; [|done]. apply Hk in E, Hf. lia.
Qed.

(** ** The exclusive or of packets *)

Definition xor_of (f : RTPTimedPacket → Z) (ms : list RTPTimedPacket) : Z := foldr (λ t acc, Z.lxor (f t) acc) 0 ms.
Definition xor_of_b (f : RTPTimedPacket → bool) (ms : list RTPTimedPacket) : bool := foldr (λ t acc, xorb (f t) acc) false ms.

#[global] Instance xor_of_perm f : Proper ((≡ₚ) ==> (=)) (xor_of f).
Proof.
  intros l k Hp. unfold xor_of. induction Hp; simpl; [done|congruence| |congruence].
  rewrite <- !Z.lxor_assoc. by rewrite (Z.lxor_comm (f y)).
Qed.
#[global] Instance xor_of_b_perm f : Proper ((≡ₚ) ==> (=)) (xor_of_b f).
Proof.
  intros l k Hp. unfold xor_of_b. induction Hp; simpl; [done|congruence| |congruence].
  rewrite <- !xorb_assoc. by rewrite (xorb_comm (f y)).
Qed.

Lemma xor_of_lost f t ms : Z.lxor (xor_of f (t :: ms)) (xor_of f ms) = f t.
Proof. simpl. rewrite Z.lxor_assoc, Z.lxor_nilpotent. apply Z.lxor_0_r. Qed.
Lemma xor_of_b_lost f t ms : xorb (xor_of_b f (t :: ms)) (xor_of_b f ms) = f t.
Proof. simpl. rewrite xorb_assoc, xorb_nilpotent. apply xorb_false_r. Qed.

Definition media_ok (level0Size : Z) (t : RTPTimedPacket) : Prop :=
  Zlen (media_octets (tp_rtp t)) = rp_len (tp_rtp t) ∧ rp_len (tp_rtp t) <= level0Size.

Lemma lxor_word a b : is_word a → is_word b → is_word (Z.lxor a b).
Proof. by apply (lxor_range 16). Qed.

Lemma xor_media_octets level0Size t b i :
  media_ok level0Size t → 0 <= i < level0Size → level0Size <= Zlen (rb_octets b) →
  Zlen (rb_octets (xor_media level0Size t b)) = Zlen (rb_octets b)
  ∧ zget i (rb_octets (xor_media level0Size t b)) = Z.lxor (zget i (rb_octets b)) (zget i (media_octets (tp_rtp t))).
Proof.
  intros [Hm Hle] Hi Hl. unfold xor_media. cbn [rb_octets]. rewrite Z.min_l by done.
  set (o := rb_octets b) in *. set (m := media_octets (tp_rtp t)) in *. set (n := Z.to_nat (rp_len (tp_rtp t))).
  assert (Hn : length m = n) by (unfold Zlen in Hm; lia). unfold Zlen in Hl. split.
  - unfold Zlen. rewrite length_app, length_zip_with, !length_take, length_drop. lia.
  - unfold zget. destruct (decide (Z.to_nat i < n)%nat) as [Hin|Hout].
    + rewrite lookup_app_l by (rewrite length_zip_with, !length_take; lia).
      rewrite lookup_zip_with, !lookup_take_lt by done.
      destruct (lookup_lt_is_Some_2 o (Z.to_nat i)) as [x Hx]; [lia|].
      destruct (lookup_lt_is_Some_2 m (Z.to_nat i)) as [y Hy]; [lia|]. rewrite Hx, Hy. done.
    + rewrite lookup_app_r by (rewrite length_zip_with, !length_take; lia).
      rewrite length_zip_with, !length_take, lookup_drop.
      replace (n `min` length o `min` (n `min` length m))%nat with n by lia.
      replace (n + (Z.to_nat i - n))%nat with (Z.to_nat i) by lia.
      rewrite (proj2 (lookup_ge_None m (Z.to_nat i))) by lia. simpl. by rewrite Z.lxor_0_r.
Qed.

Lemma xor_medias_spec level0Size ms b :
  0 <= level0Size < 2 ^ 16 → Forall (media_ok level0Size) ms → level0Size <= Zlen (rb_octets b) → is_word (rb_l b) →
  let b' := foldl (λ b m, xor_media level0Size m b) b ms in
  rb_p b' = xorb (rb_p b) (xor_of_b (λ t, GetP (tp_rtp t)) ms)
  ∧ rb_x b' = xorb (rb_x b) (xor_of_b (λ t, GetX (tp_rtp t)) ms)
  ∧ rb_m b' = xorb (rb_m b) (xor_of_b (λ t, GetMark (tp_rtp t)) ms)
  ∧ rb_pt b' = Z.lxor (rb_pt b) (xor_of (λ t, GetType (tp_rtp t)) ms)
  ∧ rb_ts b' = Z.lxor (rb_ts b) (xor_of (λ t, GetTimestamp (tp_rtp t)) ms)
  ∧ rb_l b' = Z.lxor (rb_l b) (xor_of (λ t, rp_len (tp_rtp t)) ms)
  ∧ Zlen (rb_octets b') = Zlen (rb_octets b)
  ∧ ∀ i, 0 <= i < level0Size →
    zget i (rb_octets b') = Z.lxor (zget i (rb_octets b)) (xor_of (λ t, zget i (media_octets (tp_rtp t))) ms).
Proof.
  intros Hl0 Hms. revert b. induction Hms as [|t ms Ht Hms IH]; intros b Hl Hw; cbn [foldl xor_of xor_of_b foldr].
  { rewrite !xorb_false_r, !Z.lxor_0_r. split_and!; try done. intros. by rewrite Z.lxor_0_r. }
  assert (Hwl : is_word (rp_len (tp_rtp t))).
  { destruct Ht as [Hm Hle]. pose proof (Zlen_nonneg (media_octets (tp_rtp t))). unfold is_word. lia. }
  assert (Hlen : Zlen (rb_octets (xor_media level0Size t b)) = Zlen (rb_octets b)).
  { unfold xor_media. cbn [rb_octets]. destruct Ht as [Hm Hle]. unfold Zlen in *.
    rewrite length_app, length_zip_with, !length_take, length_drop. lia. }
  destruct (IH (xor_media level0Size t b)) as (H1 & H2 & H3 & H4 & H5 & H6 & H7 & H8);
    [lia|unfold xor_media; cbn [rb_l]; apply to_word_range|].
  rewrite H1, H2, H3, H4, H5, H6, H7. unfold xor_media at 1 2 3 4 5 6. cbn [rb_p rb_x rb_m rb_pt rb_ts rb_l].
  rewrite to_word_id by (by apply lxor_word). rewrite !xorb_assoc, !Z.lxor_assoc. split_and!; try done.
  intros i Hi. rewrite H8 by done. destruct (xor_media_octets level0Size t b i Ht Hi Hl) as [_ ->].
  by rewrite Z.lxor_assoc.
Qed.
End Fec.

Definition fec_seq (t : RTPTimedPacket) : Z := GetExtSeqNum (tp_rtp t).

Lemma to_int32_id z : is_int32 z → to_int32 z = z.
Proof. unfold is_int32, to_int32. intros Hz. rewrite Z.mod_small; lia. Qed.

(** ** The packet that is built *)

Lemma GetTimestamp_keep f p :
  (∀ i, (4 <= i < 8)%nat → f (rp_buffer p) !! i = rp_buffer p !! i) →
  GetTimestamp (set_buffer f p) = GetTimestamp p.
Proof. intros Hf. apply be_get_agree; [lia|]. intros k Hk. apply Hf. lia. Qed.

Lemma GetSeqNum_keep f p :
  (∀ i, (2 <= i < 4)%nat → f (rp_buffer p) !! i = rp_buffer p !! i) → GetSeqNum (set_buffer f p) = GetSeqNum p.
Proof. intros Hf. apply be_get_agree; [lia|]. intros k Hk. apply Hf. lia. Qed.

Lemma octet1_keep f p :
  f (rp_buffer p) !! 1%nat = rp_buffer p !! 1%nat →
  GetType (set_buffer f p) = GetType p ∧ GetMark (set_buffer f p) = GetMark p.
Proof. intros Hf. unfold GetType, GetMark, hdr_pt, hdr_m, zget. simpl. change (Z.to_nat 1) with 1%nat. by rewrite Hf. Qed.

Lemma be_put_elsewhere n b i v k : 0 <= i → (Z.of_nat k < i ∨ i + Z.of_nat n <= Z.of_nat k) → be_put n b i v !! k = b !! k.
Proof. intros Hi Hk. pose proof (be_put_other n b i v (Z.of_nat k)) as Ho. rewrite Nat2Z.id in Ho. apply Ho; lia. Qed.

(** The header fields as the decoder sets them. *)
Definition built (mem : bytes) (len0 : Z) (pt : Z) (p m : bool) (ts seq cycles ssrc : Z) : RTPPacket :=
  SetSSRC ssrc (SetSeqCycles cycles (SetSeqNum seq (SetTimestamp ts (SetMark m (SetX false (SetP p
    (new_rtp mem len0 Video pt pt))))))).

Lemma bit_field_bit w s v old j :
  0 <= w → 0 <= s → 0 <= j →
  Z.testbit (bit_field w s v old) j
  = if (s <=? j) && (j <? s + w) then Z.testbit v (j - s) else Z.testbit old j.
Proof.
  intros Hw Hs Hj. unfold bit_field. rewrite Z.lor_spec, Z.land_spec, Z.lnot_spec, !Z.shiftl_spec, Z.land_spec by lia.
  destruct (Z.leb_spec s j); simpl.
  - rewrite Z.testbit_ones_nonneg by lia. destruct (Z.ltb_spec j (s + w)).
    + rewrite (proj2 (Z.ltb_lt _ _)) by lia. by rewrite andb_false_r, andb_true_r.
    + rewrite (proj2 (Z.ltb_ge _ _)) by lia. by rewrite andb_false_r, andb_true_r, orb_false_r.
  - rewrite !(Z.testbit_neg_r _ (j - s)) by lia. by rewrite andb_true_r, orb_false_r.
Qed.

Lemma built_flags mem len0 pt p m :
  Zlen mem = RTP_SIZE → 0 <= pt < 128 →
  let q := SetMark m (SetX false (SetP p (new_rtp mem len0 Video pt pt))) in
  plain q ∧ GetP q = p ∧ GetMark q = m ∧ GetType q = pt.
Proof.
  intros Hm Hpt q. pose proof (new_rtp_plain mem len0 Video pt pt Hm) as H0.
  assert (Hb : ∃ rest, rp_buffer (new_rtp mem len0 Video pt pt)
    = bit_field 2 6 2 0 :: bit_field 7 0 pt 0 :: rest ∧ Zlen rest = 1698).
  { unfold new_rtp. simpl. rewrite write_at_0. eexists. split; [reflexivity|].
    change (Zlen (replicate 10 0 ++ zdrop 12 mem) = 1698). rewrite Zlen_app, Zlen_zdrop; rewrite Hm; [done|]. unfold RTP_SIZE. lia. }
  destruct Hb as (rest & Hb & Hr).
  assert (Hq : rp_buffer q = bit_field 1 4 0 (bit_field 1 5 (Z.b2z p) 128) :: bit_field 1 7 (Z.b2z m) (bit_field 7 0 pt 0) :: rest).
  { unfold q, SetMark, SetX, SetP, set_header_octet, set_buffer. cbn [rp_buffer]. rewrite Hb. done. }
  split_and!.
  - unfold plain. rewrite Hq. split_and!; [by destruct p|by destruct p|]. rewrite !Zlen_cons, Hr. done.
  - unfold GetP, hdr_p. rewrite Hq. by destruct p.
  - unfold GetMark, hdr_m. rewrite Hq. change (zget 1 _) with (bit_field 1 7 (Z.b2z m) (bit_field 7 0 pt 0)). rewrite bit_field_bit by lia. simpl. by destruct m.
  - unfold GetType, hdr_pt. rewrite Hq. change (zget 1 _) with (bit_field 1 7 (Z.b2z m) (bit_field 7 0 pt 0)).
    change 127 with (Z.ones 7).
    apply Z.bits_inj'. intros j Hj. rewrite Z.land_spec, Z.testbit_ones_nonneg, !bit_field_bit by lia.
    destruct (Z.ltb_spec j 7).
    + rewrite (proj2 (Z.leb_gt 7 j)) by lia. rewrite (proj2 (Z.leb_le 0 j)), (proj2 (Z.ltb_lt j (0 + 7))) by lia. simpl.
      rewrite andb_true_r. f_equal. lia.
    + rewrite andb_false_r. symmetry. apply (testbit_low pt 7); lia.
Qed.

Lemma built_fields mem len0 pt p m ts seq cycles ssrc :
  Zlen mem = RTP_SIZE → 0 <= pt < 128 → is_dword ts → is_word seq →
  let q := built mem len0 pt p m ts seq cycles ssrc in
  plain q ∧ GetP q = p ∧ GetMark q = m ∧ GetType q = pt ∧ GetTimestamp q = ts ∧ GetSeqNum q = seq
  ∧ rp_cycles q = to_word cycles ∧ rp_codec q = pt.
Proof.
  intros Hm Hpt Hts Hseq. unfold built.
  destruct (built_flags mem len0 pt p m Hm Hpt) as (H0 & Hp & Hma & Hty).
  assert (Hc : rp_codec (SetMark m (SetX false (SetP p (new_rtp mem len0 Video pt pt)))) = pt) by done.
  set (q0 := SetMark m _) in *. clearbody q0.
  destruct (SetTimestamp_keeps ts q0 H0) as [H1 _]. destruct (SetSeqNum_keeps seq _ H1) as [H2 _].
  assert (H3 : plain (SetSeqCycles cycles (SetSeqNum seq (SetTimestamp ts q0)))) by exact H2.
  destruct (SetSSRC_keeps ssrc _ H3) as [H4 _].
  assert (Hl : Zlen (rp_buffer q0) = 1700) by apply H0.
  assert (Hb : rp_buffer (SetSSRC ssrc (SetSeqCycles cycles (SetSeqNum seq (SetTimestamp ts q0))))
    = be_put 4 (be_put 2 (be_put 4 (rp_buffer q0) 4 ts) 2 seq) 8 ssrc) by done.
  assert (Ho : ∀ k, (k < 2)%nat → be_put 4 (be_put 2 (be_put 4 (rp_buffer q0) 4 ts) 2 seq) 8 ssrc !! k = rp_buffer q0 !! k).
  { intros k Hk. rewrite !be_put_elsewhere by lia. done. }
  split_and!; [done| | | | | |done|done].
  - rewrite <- Hp. unfold GetP, hdr_p, zget. rewrite Hb, Ho by (simpl; lia). done.
  - rewrite <- Hma. unfold GetMark, hdr_m, zget. rewrite Hb, Ho by (simpl; lia). done.
  - rewrite <- Hty. unfold GetType, hdr_pt, zget. rewrite Hb, Ho by (simpl; lia). done.
  - unfold GetTimestamp, ntohl_at. rewrite Hb.
    rewrite (be_get_agree 4 _ (be_put 4 (rp_buffer q0) 4 ts)) by (lia || (intros k Hk; rewrite !(be_put_elsewhere _ _ _ _ (Z.to_nat k)) by lia;
      rewrite ?(be_put_elsewhere 2) by lia; done)).
    rewrite be_get_put by lia. apply Z.mod_small. exact Hts.
  - unfold GetSeqNum, ntohs_at. rewrite Hb.
    rewrite (be_get_agree 2 _ (be_put 2 (be_put 4 (rp_buffer q0) 4 ts) 2 seq)) by (lia || (intros k Hk; by rewrite be_put_elsewhere by lia)).
    rewrite be_get_put by (rewrite ?be_put_length; lia). apply Z.mod_small. exact Hseq.
Qed.

Section Recovery.
Context {W : WireOps} {V : MoreWireOps} {SH : ShiftOps} {S64 : ShiftOps64} {C : VideoCodecs} {HN : NetworkOrder W V}.

(** A code of RFC 5109 for the packets [g]: the exclusive or of their fields and of their media, and
    a bit per packet. *)
Record protects (fec : FECData) (g : list RTPTimedPacket) : Prop := mkProtects {
  pr_bytes : bytes_ok (fec_data fec);
  pr_length : Zlen (fec_data fec) = MTU;
  pr_size : fec_size fec <= MTU;
  pr_cycles : fec_cycles fec = 0;
  pr_p : GetRecoveryP fec = xor_of_b (λ t, GetP (tp_rtp t)) g;
  pr_x : GetRecoveryX fec = xor_of_b (λ t, GetX (tp_rtp t)) g;
  pr_m : GetRecoveryM fec = xor_of_b (λ t, GetMark (tp_rtp t)) g;
  pr_pt : GetRecoveryType fec = xor_of (λ t, GetType (tp_rtp t)) g;
  pr_ts : GetRecoveryTimestamp fec = xor_of (λ t, GetTimestamp (tp_rtp t)) g;
  pr_l : GetRecoveryLength fec = xor_of (λ t, rp_len (tp_rtp t)) g;
  pr_fits : Forall (media_ok (GetLevel0Size fec)) g;
  pr_octets : ∀ i, 0 <= i < GetLevel0Size fec →
    zget (GetLevel0Offset fec + i) (fec_data fec) = xor_of (λ t, zget i (media_octets (tp_rtp t))) g;
  pr_mask : ∀ j, 0 <= j < 64 →
    Z.testbit (GetLevel0Mask fec) j = bool_decide (GetBaseSeqNum fec + (63 - j) ∈ fec_seq <$> g);
  pr_range : ∀ t, t ∈ g → GetBaseSeqNum fec <= fec_seq t < GetBaseSeqNum fec + 48;
  pr_nodup : NoDup (fec_seq <$> g);
}.

Lemma base_word fec : bytes_ok (fec_data fec) → is_word (GetBaseSeqNum fec).
Proof. intros Hb. unfold GetBaseSeqNum. rewrite get2_be. apply (be_get_range 2 _ _ Hb). Qed.

Lemma base_ext fec : fec_cycles fec = 0 → GetBaseExtSeq fec = GetBaseSeqNum fec.
Proof. intros Hc. unfold GetBaseExtSeq. by rewrite Hc. Qed.

Lemma mask_high fec j : bytes_ok (fec_data fec) → 64 <= j → Z.testbit (GetLevel0Mask fec) j = false.
Proof.
  intros Hb Hj. unfold GetLevel0Mask. rewrite get2_be, get4_be.
  pose proof (be_get_range 2 (fec_data fec) 12 Hb). pose proof (be_get_range 4 (fec_data fec) 14 Hb).
  assert (H1 : Z.testbit (Z.shiftl (be_get 2 (fec_data fec) 12) 48) j = false).
  { rewrite Z.shiftl_spec by lia. apply (testbit_low _ 16); lia. }
  case_goal; [|done]. rewrite Z.lor_spec, H1, Z.shiftl_spec by lia. apply (testbit_low _ 32); lia.
Qed.

(** A code that does not protect [seq] is passed over. *)
Lemma usable_other fec g b seq lostMask minSeq :
  protects fec g → 0 <= seq < 2 ^ 31 → seq ∉ fec_seq <$> g → usable seq lostMask minSeq [(b, fec)] = None.
Proof.
  intros Hp Hs Hn. cbn [usable].
  rewrite to_int32_id by (unfold is_int32; lia).
  assert (IsProtectedAtLevel0 seq fec = false) as ->; [|done]. unfold IsProtectedAtLevel0.
  destruct (Z.ltb_spec seq (GetBaseSeqNum fec)); [done|]. destruct (Z.ltb_spec (GetBaseSeqNum fec + 48) seq); [done|]. simpl.
  rewrite to_byte_id by (unfold is_byte; lia). rewrite (pr_mask _ _ Hp) by lia. apply bool_decide_eq_false.
  by replace (GetBaseSeqNum fec + (63 - (64 - (seq - GetBaseSeqNum fec) - 1))) with seq by lia.
Qed.

(** A code that protects [lost] is taken when all its other packets are there, without the bit of
    [lost]. *)
Lemma usable_lost fec lost others b lostMask minSeq keys :
  protects fec (lost :: others) → 0 <= minSeq <= GetBaseSeqNum fec → fec_seq lost <= minSeq + 63 → fec_seq lost < 2 ^ 16 →
  GetBaseSeqNum fec <= fec_seq lost <= GetBaseSeqNum fec + 48 →
  (∀ k, 0 <= k < 64 → Z.testbit lostMask (63 - k) = has_key keys (minSeq + k)) →
  (∀ k, k ∈ keys → k <= minSeq + 63) →
  ∃ fecMask, usable (fec_seq lost) lostMask minSeq [(b, fec)]
      = (if bool_decide (Forall (λ t, fec_seq t ∈ keys) others) then Some (fec, fecMask) else None)
    ∧ 0 <= fecMask < 2 ^ 64
    ∧ ∀ k, 0 <= k < 64 → Z.testbit fecMask (63 - k) = bool_decide (GetBaseSeqNum fec + k ∈ fec_seq <$> others).
Proof.
  intros Hp Hmin Hspan Hw Hr Hmask Hkeys. set (base := GetBaseSeqNum fec) in *. set (seq := fec_seq lost) in *.
  pose proof (pr_nodup _ _ Hp) as Hnd. rewrite fmap_cons in Hnd. apply NoDup_cons in Hnd as [Hnot _]. fold seq in Hnot.
  assert (Hbit : ∀ j, 0 <= j < 64 → Z.testbit (GetLevel0Mask fec) j = bool_decide (base + (63 - j) ∈ seq :: (fec_seq <$> others))).
  { intros j Hj. by rewrite (pr_mask _ _ Hp) by done. }
  cbn [usable]. rewrite to_int32_id by (unfold is_int32; lia).
  assert (IsProtectedAtLevel0 seq fec = true) as ->.
  { unfold IsProtectedAtLevel0. fold base. rewrite (proj2 (Z.ltb_ge seq base)), (proj2 (Z.ltb_ge (base + 48) seq)) by lia. simpl.
    rewrite to_byte_id by (unfold is_byte; lia). rewrite Hbit by lia. apply bool_decide_eq_true.
    replace (base + (63 - (64 - (seq - base) - 1))) with seq by lia. left. }
  cbn [negb]. rewrite base_ext by apply (pr_cycles _ _ Hp). fold base.
  rewrite !to_dword_id by (unfold is_dword; rewrite ?to_dword_id by (unfold is_dword; lia); lia).
  set (fecMask := Z.ldiff _ _). set (mediaMask := shl64 _ _).
  assert (Hfm : ∀ j, 0 <= j < 64 → Z.testbit fecMask j = bool_decide (base + (63 - j) ∈ fec_seq <$> others)).
  { intros j Hj. unfold fecMask. rewrite Z.ldiff_spec, Hbit, shl64_bits by lia.
    destruct (decide (j = 64 - (seq - base) - 1)) as [->|Hne].
    - rewrite Z.sub_diag. simpl. rewrite andb_false_r. symmetry. apply bool_decide_eq_false.
      by replace (base + (63 - (64 - (seq - base) - 1))) with seq by lia.
    - replace (Z.testbit 1 (j - (64 - (seq - base) - 1))) with false.
      + simpl. rewrite andb_true_r. apply bool_decide_ext. rewrite elem_of_cons. split; [intros [?|?]; [lia|done]|by right].
      + symmetry. destruct (Z.lt_ge_cases j (64 - (seq - base) - 1)); [apply Z.testbit_neg_r; lia|]. apply (testbit_low 1 1); lia. }
  assert (Hfh : ∀ j, 64 <= j → Z.testbit fecMask j = false).
  { intros j Hj. unfold fecMask. rewrite Z.ldiff_spec, mask_high by (apply (pr_bytes _ _ Hp) || done). done. }
  assert (Hmm : ∀ t, t ∈ others → fec_seq t <= minSeq + 63 →
    Z.testbit mediaMask (63 - (fec_seq t - base)) = has_key keys (fec_seq t)).
  { intros t Ht Ht63. pose proof (pr_range _ _ Hp t ltac:(by right)). fold base in H.
    unfold mediaMask. rewrite shl64_bits by lia.
    replace (63 - (fec_seq t - base) - (base - minSeq)) with (63 - (fec_seq t - minSeq)) by lia. rewrite Hmask by lia.
    by replace (minSeq + (fec_seq t - minSeq)) with (fec_seq t) by lia. }
  assert (Hin : Z.land fecMask mediaMask = fecMask ↔ Forall (λ t, fec_seq t ∈ keys) others).
  { rewrite Forall_forall. split.
    - intros Heq t Ht. pose proof (pr_range _ _ Hp t ltac:(by right)) as Hrt. fold base in Hrt.
      assert (Hft : Z.testbit fecMask (63 - (fec_seq t - base)) = true).
      { rewrite Hfm by lia. apply bool_decide_eq_true. replace (base + _) with (fec_seq t) by lia. by apply list_elem_of_fmap_2. }
      rewrite <- Heq, Z.land_spec in Hft. apply andb_prop in Hft as [_ Hft].
      destruct (Z.le_gt_cases (fec_seq t) (minSeq + 63)) as [Hle|Hgt].
      + rewrite Hmm in Hft by done. by apply bool_decide_eq_true in Hft.
      + unfold mediaMask in Hft. rewrite shl64_bits, Z.testbit_neg_r in Hft by lia. done.
    - intros Hot. apply Z.bits_inj'. intros j Hj. rewrite Z.land_spec. destruct (Z.lt_ge_cases j 64); [|by rewrite Hfh].
      destruct (Z.testbit fecMask j) eqn:E; [|done]. simpl. rewrite Hfm in E by lia. apply bool_decide_eq_true in E.
      apply list_elem_of_fmap in E as (t & Et & Ht). pose proof (Hot _ Ht) as Hkt. pose proof (Hkeys _ Hkt).
      replace j with (63 - (fec_seq t - base)) by lia. rewrite Hmm by done. by apply bool_decide_eq_true. }
  exists fecMask. split.
  { destruct (Z.eqb_spec (Z.land fecMask mediaMask) fecMask) as [E|E].
    - by rewrite bool_decide_eq_true_2 by by apply Hin.
    - by rewrite bool_decide_eq_false_2 by by rewrite <- Hin. }
  split.
  - assert (0 <= fecMask).
    { unfold fecMask. apply Z.ldiff_nonneg. left. unfold GetLevel0Mask. rewrite get2_be, get4_be.
      pose proof (be_get_range 2 (fec_data fec) 12 (pr_bytes _ _ Hp)). pose proof (be_get_range 4 (fec_data fec) 14 (pr_bytes _ _ Hp)).
      case_goal; rewrite ?Z.lor_nonneg, ?Z.shiftl_nonneg; lia. }
    split; [done|]. destruct (decide (fecMask = 0)) as [->|]; [lia|]. apply Z.log2_lt_pow2; [lia|].
    destruct (Z.lt_ge_cases (Z.log2 fecMask) 64) as [|Hge]; [done|]. apply Hfh in Hge. rewrite Z.bit_log2 in Hge by lia. done.
  - intros k Hk. rewrite Hfm by lia. by replace (63 - (63 - k)) with k by lia.
Qed.

(** The codes are tried one after the other, ... *)
Lemma usable_cons seq lostMask minSeq b fec codes :
  usable seq lostMask minSeq ((b, fec) :: codes)
  = match usable seq lostMask minSeq [(b, fec)] with
    | Some x => Some x
    | None => usable seq lostMask minSeq codes
    end.
Proof. cbn [usable]. repeat case_goal; done. Qed.

Lemma usable_elem seq lostMask minSeq codes fec fecMask :
  usable seq lostMask minSeq codes = Some (fec, fecMask) →
  ∃ b, (b, fec) ∈ codes ∧ usable seq lostMask minSeq [(b, fec)] = Some (fec, fecMask).
Proof.
  induction codes as [|[b c] codes IH]; [done|]. rewrite usable_cons.
  destruct (usable seq lostMask minSeq [(b, c)]) as [[f m]|] eqn:E.
  - intros [= -> ->]. exists b. assert (c = fec) as ->; [|split; [left|done]].
    cbn [usable] in E. repeat case_match; congruence.
  - intros (b' & Hb & Hu)%IH. exists b'. split; [by right|done].
Qed.

Lemma usable_some seq lostMask minSeq codes b fec :
  (b, fec) ∈ codes → is_Some (usable seq lostMask minSeq [(b, fec)]) → is_Some (usable seq lostMask minSeq codes).
Proof.
  intros Hin Hu. induction codes as [|[b' c] codes IH]; [by apply elem_of_nil in Hin|]. rewrite usable_cons.
  destruct (usable seq lostMask minSeq [(b', c)]) eqn:E; [done|].
  apply elem_of_cons in Hin as [[= <- <-]|Hin]; [|by apply IH]. rewrite E in Hu. by destruct Hu.
Qed.

(** ... for one missing number after the other. *)
Lemma first_usable_elem losts lostMask minSeq codes seq fec fecMask :
  first_usable losts lostMask minSeq codes = Some (seq, fec, fecMask) →
  seq ∈ losts ∧ usable seq lostMask minSeq codes = Some (fec, fecMask).
Proof.
  induction losts as [|q losts IH]; [done|]. cbn [first_usable].
  destruct (usable q lostMask minSeq codes) as [[f m]|] eqn:E; [intros [= -> -> ->]; split; [left|done]|].
  intros [Hin Hu]%IH. split; [by right|done].
Qed.

Lemma first_usable_some losts lostMask minSeq codes seq :
  seq ∈ losts → is_Some (usable seq lostMask minSeq codes) → is_Some (first_usable losts lostMask minSeq codes).
Proof.
  intros Hin [[f m] Hu]. induction losts as [|q losts IH]; [by apply elem_of_nil in Hin|]. cbn [first_usable].
  destruct (usable q lostMask minSeq codes) as [[f' m']|] eqn:E; [by eexists|].
  apply IH. apply elem_of_cons in Hin as [->|]; [by rewrite Hu in E|done].
Qed.

#[global] Instance protects_perm fec : Proper ((≡ₚ) ==> impl) (protects fec).
Proof.
  intros g g' Hg Hp. split; try apply Hp.
  - rewrite <- Hg. apply Hp.
  - rewrite <- Hg. apply Hp.
  - rewrite <- Hg. apply Hp.
  - rewrite <- Hg. apply Hp.
  - rewrite <- Hg. apply Hp.
  - rewrite <- Hg. apply Hp.
  - rewrite <- Hg. apply Hp.
  - intros i Hi. rewrite <- Hg. by apply Hp.
  - intros j Hj. rewrite (pr_mask _ _ Hp j Hj). apply bool_decide_ext. by rewrite Hg.
  - intros t Ht. apply (pr_range _ _ Hp). by rewrite Hg.
  - rewrite <- Hg. apply Hp.
Qed.

(** The packets selected by the mask are the others. *)
Lemma selected_others fec lost others medias fecMask :
  protects fec (lost :: others) → om_sorted medias → (∀ k t, (k, t) ∈ medias → k = fec_seq t) →
  (∀ t, t ∈ others → t ∈ medias.*2) →
  (∀ k, 0 <= k < 64 → Z.testbit fecMask (63 - k) = bool_decide (GetBaseSeqNum fec + k ∈ fec_seq <$> others)) →
  selected (GetBaseSeqNum fec) 0 medias (to_bits 64 fecMask) ≡ₚ others.
Proof.
  intros Hp Hs Hk Hot Hm.
  assert (Hfind : ∀ t, t ∈ others → om_find (fec_seq t) medias = Some t).
  { intros t Ht. apply Hot in Ht. apply list_elem_of_fmap in Ht as ([k t'] & -> & Ht).
    simpl. pose proof (Hk _ _ Ht) as <-. by apply om_elem_find. }
  pose proof (pr_nodup _ _ Hp) as Hnd. rewrite fmap_cons in Hnd. apply NoDup_cons in Hnd as [_ Hnd].
  apply NoDup_Permutation.
  - apply selected_NoDup. intros k t Hf. apply om_find_elem in Hf. by apply Hk.
  - by eapply NoDup_fmap_1.
  - intros t. rewrite selected_elem. split.
    + intros (i & Hi & Hf). assert (Hi64 : (i < 64)%nat) by (apply lookup_lt_Some in Hi; by rewrite to_bits_length in Hi).
      rewrite to_bits_lookup in Hi by done. injection Hi as Hi.
      replace (Z.of_nat 64 - 1 - Z.of_nat i) with (63 - Z.of_nat i) in Hi by lia. rewrite Hm in Hi by lia.
      apply bool_decide_eq_true in Hi. apply list_elem_of_fmap in Hi as (t' & Ht' & Hin).
      rewrite Z.add_0_r, Ht', Hfind in Hf by done. by injection Hf as <-.
    + intros Ht. pose proof (pr_range _ _ Hp t ltac:(by right)) as Hr.
      exists (Z.to_nat (fec_seq t - GetBaseSeqNum fec)). split.
      * rewrite to_bits_lookup by lia. f_equal.
        replace (Z.of_nat 64 - 1 - _) with (63 - (fec_seq t - GetBaseSeqNum fec)) by lia. rewrite Hm by lia.
        apply bool_decide_eq_true. apply list_elem_of_fmap. exists t. split; [lia|done].
      * rewrite <- (Hfind t Ht). f_equal. lia.
Qed.

Lemma ztake_eq (l m : bytes) n :
  Zlen m = n → n <= Zlen l → (∀ i, 0 <= i < n → zget i l = zget i m) → ztake n l = m.
Proof.
  intros Hm Hl Hi. unfold Zlen in *. apply list_eq. intros i. unfold ztake. destruct (decide (i < Z.to_nat n)%nat) as [Hlt|Hge].
  - rewrite lookup_take_lt by done. specialize (Hi (Z.of_nat i) ltac:(lia)). unfold zget in Hi. rewrite !Nat2Z.id in Hi.
    destruct (lookup_lt_is_Some_2 l i) as [x Hx]; [lia|]. destruct (lookup_lt_is_Some_2 m i) as [y Hy]; [lia|].
    rewrite Hx, Hy in *. simpl in Hi. by subst.
  - rewrite lookup_take_ge by lia. symmetry. apply lookup_ge_None. lia.
Qed.

Lemma level0_bounds fec g :
  protects fec g → 0 <= GetLevel0Size fec ∧ (0 < GetLevel0Size fec → GetLevel0Offset fec + GetLevel0Size fec <= MTU)
  ∧ GetLevel0Size fec <= MTU ∧ 14 <= GetLevel0Offset fec <= 18.
Proof.
  intros Hp. pose proof (pr_size _ _ Hp). unfold GetLevel0Size. rewrite get2_be.
  pose proof (be_get_range 2 (fec_data fec) 10 (pr_bytes _ _ Hp)) as Ha.
  assert (14 <= GetLevel0Offset fec <= 18) by (unfold GetLevel0Offset; case_goal; lia).
  destruct (Z.ltb_spec (GetLevel0Offset fec) (fec_size fec));
    destruct (Z.ltb_spec (be_get 2 (fec_data fec) 10) (if GetLevel0Offset fec <? fec_size fec then fec_size fec - GetLevel0Offset fec else 0));
    repeat case_goal; ztests; unfold MTU in *; lia.
Qed.

(** A packet is the one that was lost: its number, its header fields and its media. *)
Definition same_packet (p lost : RTPPacket) : Prop :=
  GetExtSeqNum p = GetExtSeqNum lost ∧ GetTimestamp p = GetTimestamp lost ∧ GetType p = GetType lost
  ∧ GetMark p = GetMark lost ∧ GetP p = GetP lost ∧ media_octets p = media_octets lost.

Lemma payload_header data q :
  plain q → Zlen data <= 1688 →
  let p := (SetPayload data q).2 in
  GetTimestamp p = GetTimestamp q ∧ GetSeqNum p = GetSeqNum q ∧ GetType p = GetType q ∧ GetMark p = GetMark q
  ∧ GetP p = GetP q ∧ rp_cycles p = rp_cycles q ∧ rp_codec p = rp_codec q.
Proof.
  intros Hq Hd. pose proof (Zlen_nonneg data). unfold SetPayload, GetMaxMediaLength. rewrite plain_header by done.
  destruct Hq as (_ & _ & Hl). unfold RTP_SIZE in *. destruct (Z.ltb_spec 12 1700); [|lia].
  destruct (Z.ltb_spec (1700 - 12) (Zlen data)); [lia|]. cbn [snd].
  assert (Hf : ∀ k, (k < 12)%nat → write_at 12 data (rp_buffer q) !! k = rp_buffer q !! k).
  { intros k Hk. unfold write_at. unfold Zlen in Hl. rewrite lookup_app_l by (unfold ztake; rewrite length_take; lia).
    unfold ztake. by rewrite lookup_take_lt by lia. }
  destruct (octet1_keep (write_at 12 data) q) as [Ht Hm]; [apply Hf; lia|].
  split_and!; [| |exact Ht|exact Hm| |done|done].
  - apply GetTimestamp_keep. intros i Hi. apply Hf. lia.
  - apply GetSeqNum_keep. intros i Hi. apply Hf. lia.
  - unfold GetP, hdr_p, zget. change (Z.to_nat 0) with 0%nat.
    change (rp_buffer (SetMediaLength _ (set_buffer (write_at 12 data) q))) with (write_at 12 data (rp_buffer q)).
    by rewrite Hf by lia.
Qed.

Lemma rebuild_spec mem len0 now aux ssrc fecMask fec lost others medias :
  Zlen mem = RTP_SIZE → bytes_ok aux → Zlen aux = 8 →
  protects fec (lost :: others) → om_sorted medias → (∀ k t, (k, t) ∈ medias → k = fec_seq t) →
  (∀ t, t ∈ others → t ∈ medias.*2) → 0 <= fecMask < 2 ^ 64 →
  (∀ k, 0 <= k < 64 → Z.testbit fecMask (63 - k) = bool_decide (GetBaseSeqNum fec + k ∈ fec_seq <$> others)) →
  bytes_ok (rp_buffer (tp_rtp lost)) → GetX (tp_rtp lost) = false → fec_seq lost < 2 ^ 16 →
  ∃ p, rebuild mem len0 now aux ssrc (fec_seq lost) fecMask fec medias = Got p
    ∧ same_packet (tp_rtp p) (tp_rtp lost) ∧ rp_codec (tp_rtp p) = GetType (tp_rtp lost).
Proof.
  intros Hmem Hab Hal Hp Hs Hk Hot Hfr Hfm Hlb Hlx Hlw.
  destruct (level0_bounds _ _ Hp) as (HL0 & HLo & HLm & Hoff). set (L := GetLevel0Size fec) in *.
  pose proof (base_word fec (pr_bytes _ _ Hp)) as Hbw. unfold is_word in Hbw.
  unfold rebuild. fold L. rewrite rd_copy_in by (rewrite ?(pr_length _ _ Hp); unfold MTU in *; lia). cbn [cbind].
  set (octets0 := _ ++ _). rewrite base_ext by apply (pr_cycles _ _ Hp).
  assert (Hlev : Zlen (ztake L (zdrop (GetLevel0Offset fec) (fec_data fec))) = L).
  { destruct (decide (L = 0)) as [->|]; [done|]. apply Zlen_ztake. rewrite Zlen_zdrop; rewrite ?(pr_length _ _ Hp); unfold MTU in *; lia. }
  assert (Hol : Zlen octets0 = MTU).
  { unfold octets0. rewrite Zlen_app, Hlev. unfold Zlen. rewrite length_replicate. lia. }
  (* the mask as bits *)
  assert (Hput : bytes_ok (set8 aux 0 fecMask)) by (rewrite set8_be; by apply be_put_bytes).
  destruct (new_reader_ok (set8 aux 0 fecMask) Hput) as [Hro Hrb].
  { rewrite set8_be, be_put_length. lia. }
  assert (Hbits : reader_bits (new_reader (set8 aux 0 fecMask)) = to_bits 64 fecMask).
  { rewrite Hrb, set8_be. pose proof (be_put_bits 8 aux 0 fecMask Hab ltac:(lia) ltac:(lia)) as Hb. cbn [octet_bits app] in Hb.
    change (0 + Z.of_nat 8) with 8 in Hb. pose proof (be_put_length 8 aux 0 fecMask) as Hbl.
    replace (ztake 8 (be_put 8 aux 0 fecMask)) with (be_put 8 aux 0 fecMask) in Hb
      by (unfold ztake; rewrite take_ge by (unfold Zlen in *; lia); done). exact Hb. }
  rewrite (xor_loop_spec (to_bits 64 fecMask) 64 (GetBaseSeqNum fec) L medias _ _ 0)
    by (try done; rewrite ?to_bits_length; unfold Zlen; rewrite ?to_bits_length; lia). cbn [cbind].
  set (ms := selected _ _ _ _). assert (Hms : ms ≡ₚ others) by by apply (selected_others fec lost).
  (* the exclusive or *)
  pose proof (pr_fits _ _ Hp) as Hfits. apply Forall_cons in Hfits as [Hfl Hfo]. fold L in Hfl, Hfo.
  match goal with |- context [foldl _ ?b0 ms] => set (b := b0) end.
  destruct (xor_medias_spec L ms b) as (E1 & E2 & E3 & E4 & E5 & E6 & E7 & E8).
  { unfold MTU in *. lia. } { by rewrite Hms. } { simpl. unfold MTU in *. lia. }
  { simpl. unfold GetRecoveryLength. rewrite get2_be. apply (be_get_range 2 _ _ (pr_bytes _ _ Hp)). }
  set (b' := foldl _ b ms) in *. clearbody b'. rewrite Hms in E1, E2, E3, E4, E5, E6.
  simpl in E1, E2, E3, E4, E5, E6, E7.
  rewrite (pr_p _ _ Hp), xor_of_b_lost in E1. rewrite (pr_x _ _ Hp), xor_of_b_lost, Hlx in E2.
  rewrite (pr_m _ _ Hp), xor_of_b_lost in E3. rewrite (pr_pt _ _ Hp), xor_of_lost in E4.
  rewrite (pr_ts _ _ Hp), xor_of_lost in E5. rewrite (pr_l _ _ Hp), xor_of_lost in E6.
  rewrite E1, E2, E3, E4, E5, E6. destruct Hfl as [Hml Hmle].
  destruct (Z.ltb_spec L (rp_len (tp_rtp lost))) as [?|_]; [lia|].
  assert (Hpay : ztake (rp_len (tp_rtp lost)) (rb_octets b') = media_octets (tp_rtp lost)).
  { apply ztake_eq; [done|unfold MTU in *; lia|]. intros i Hi. rewrite E8 by lia.
    assert (xor_of (λ t, zget i (media_octets (tp_rtp t))) ms = xor_of (λ t, zget i (media_octets (tp_rtp t))) others) as ->
      by by rewrite Hms.
    replace (zget i (rb_octets b)) with (xor_of (λ t, zget i (media_octets (tp_rtp t))) (lost :: others)); [apply xor_of_lost|].
    rewrite <- (pr_octets _ _ Hp) by (fold L; lia). unfold b. cbn [rb_octets]. unfold octets0.
    rewrite zget_app_l by lia. rewrite zget_ztake by lia. rewrite zget_zdrop by lia. done. }
  rewrite Hpay. rewrite (pr_cycles _ _ Hp).
  assert (Hseq : 0 <= fec_seq lost) by (pose proof (pr_range _ _ Hp lost ltac:(left)); lia).
  pose proof (be_get_range 4 (rp_buffer (tp_rtp lost)) 4 Hlb) as Htsr.
  assert (Htyr : 0 <= GetType (tp_rtp lost) < 128) by (apply (land_range _ 7); lia).
  destruct (built_fields mem len0 (GetType (tp_rtp lost)) (GetP (tp_rtp lost)) (GetMark (tp_rtp lost))
    (GetTimestamp (tp_rtp lost)) (fec_seq lost) 0 ssrc Hmem Htyr) as (Hq & Hqp & Hqm & Hqt & Hqts & Hqs & Hqc & Hqcd);
    [unfold is_dword; exact Htsr|unfold is_word; lia|].
  set (q := built _ _ _ _ _ _ _ _ _) in *.
  match goal with |- context [SetPayload _ ?x] => change x with q end.
  assert (Hmp : Zlen (media_octets (tp_rtp lost)) <= 1688) by (unfold MTU in *; lia).
  destruct (payload_header (media_octets (tp_rtp lost)) q Hq Hmp) as (F1 & F2 & F3 & F4 & F5 & F6 & F7).
  destruct (SetPayload_plain (media_octets (tp_rtp lost)) q Hq Hmp) as (_ & _ & F8).
  eexists. split; [done|]. cbn [tp_rtp]. split; [|by rewrite F7, Hqcd].
  unfold same_packet. rewrite F1, F3, F4, F5, F8, Hqp, Hqm, Hqt, Hqts. split_and!; try done.
  unfold GetExtSeqNum at 1. rewrite F2, F6, Hqs, Hqc. done.
Qed.
(** The mask of a code says which numbers it protects. *)
Lemma protects_same fec g g' t : protects fec g → protects fec g' → t ∈ g' → fec_seq t ∈ fec_seq <$> g.
Proof.
  intros Hp Hp' Ht. pose proof (pr_range _ _ Hp' t Ht) as Hr. set (j := 63 - (fec_seq t - GetBaseSeqNum fec)).
  pose proof (pr_mask _ _ Hp j ltac:(lia)) as H1. rewrite (pr_mask _ _ Hp' j ltac:(lia)) in H1.
  replace (GetBaseSeqNum fec + (63 - j)) with (fec_seq t) in H1 by lia.
  rewrite bool_decide_eq_true_2 in H1 by by apply list_elem_of_fmap_2. symmetry in H1. by apply bool_decide_eq_true in H1.
Qed.

(** A packet that can be rebuilt: no header extension (the octets of one are not protected), and a
    payload type that is not one of the two the decoder unpacks. *)
Definition ordinary (t : RTPTimedPacket) : Prop :=
  bytes_ok (rp_buffer (tp_rtp t)) ∧ GetX (tp_rtp t) = false
  ∧ GetType (tp_rtp t) ≠ VideoCodec_RED ∧ GetType (tp_rtp t) ≠ VideoCodec_ULPFEC.

(** What the decoder keeps comes from the packets sent (as the decoder keeps them: [AddPacket] keeps
    clones, without the flags P and X): packets under their own numbers, and codes that protect some of
    them, none older than the first packet kept. *)
Record keeps_of (sent : list RTPTimedPacket) (d : FECDecoder) : Prop := mkKeepsOf {
  ko_numbers : NoDup (fec_seq <$> sent);
  ko_ordinary : ∀ t, t ∈ sent → ordinary t;
  ko_sorted : om_sorted (fd_medias d);
  ko_own : ∀ k t, (k, t) ∈ fd_medias d → k = fec_seq t ∧ t ∈ sent;
  ko_codes : ∀ b fec, (b, fec) ∈ fd_codes d →
    ∃ g, protects fec g ∧ (∀ t, t ∈ g → t ∈ sent)
      ∧ ∀ k first rest, fd_medias d = (k, first) :: rest → k <= GetBaseSeqNum fec;
}.

Lemma sent_number sent d t t' :
  keeps_of sent d → t ∈ sent → t' ∈ sent → fec_seq t = fec_seq t' → t = t'.
Proof.
  intros Hd. generalize (ko_numbers _ _ Hd). clear Hd. induction sent as [|x sent IH]; intros Hn Ht Ht' E; [by apply elem_of_nil in Ht|].
  rewrite fmap_cons in Hn. apply NoDup_cons in Hn as [Hx Hn].
  apply elem_of_cons in Ht as [->|Ht], Ht' as [->|Ht']; [done| | |by apply IH].
  - destruct Hx. rewrite E. by apply list_elem_of_fmap_2.
  - destruct Hx. rewrite <- E. by apply list_elem_of_fmap_2.
Qed.

Lemma kept_number sent d t : keeps_of sent d → t ∈ sent → fec_seq t ∈ (fd_medias d).*1 → t ∈ (fd_medias d).*2.
Proof.
  intros Hd Ht Hin. apply list_elem_of_fmap in Hin as ([k t'] & E & Hin). simpl in E. subst k.
  destruct (ko_own _ _ Hd _ _ Hin) as [E Ht']. rewrite (sent_number sent d t t') by done.
  apply list_elem_of_fmap. by exists (fec_seq t, t').
Qed.

(** The number a code is used for is that of its only missing packet. *)
Lemma usable_found sent d b fec seq lostMask minSeq fecMask :
  keeps_of sent d → (b, fec) ∈ fd_codes d → usable seq lostMask minSeq [(b, fec)] = Some (fec, fecMask) →
  head (fd_medias d).*1 = Some minSeq → 0 <= minSeq → seq <= minSeq + 63 → 0 <= seq < 2 ^ 16 →
  (∀ k, 0 <= k < 64 → Z.testbit lostMask (63 - k) = has_key (fd_medias d).*1 (minSeq + k)) →
  (∀ k, k ∈ (fd_medias d).*1 → k <= minSeq + 63) →
  ∃ t others, protects fec (t :: others) ∧ fec_seq t = seq ∧ t ∈ sent ∧ (∀ u, u ∈ others → u ∈ (fd_medias d).*2)
    ∧ 0 <= fecMask < 2 ^ 64
    ∧ ∀ k, 0 <= k < 64 → Z.testbit fecMask (63 - k) = bool_decide (GetBaseSeqNum fec + k ∈ fec_seq <$> others).
Proof.
  intros Hd Hin Hu Hhead Hmin Hspan Hseq Hmask Hkeys. destruct (ko_codes _ _ Hd _ _ Hin) as (g & Hg & Hgs & Hbase).
  destruct (decide (seq ∈ fec_seq <$> g)) as [Hsg|Hsg]; [|by rewrite (usable_other fec g) in Hu by (done || lia)].
  apply list_elem_of_fmap in Hsg as (t & -> & Ht). destruct (proj1 (elem_of_Permutation _ _) Ht) as [others Hperm].
  assert (Hp : protects fec (t :: others)) by by rewrite <- Hperm.
  assert (Hmb : minSeq <= GetBaseSeqNum fec).
  { destruct (fd_medias d) as [|[k first] rest] eqn:E; [done|]. injection Hhead as <-. by eapply Hbase. }
  pose proof (pr_range _ _ Hg t Ht) as Hr.
  destruct (usable_lost fec t others b lostMask minSeq (fd_medias d).*1) as (m & Hum & Hmr & Hmb2); [done|lia|lia|lia|lia|done|done|].
  rewrite Hum in Hu. case_bool_decide as Hall; [|done]. injection Hu as <-.
  exists t, others. split_and!; [done|done|by apply Hgs| |lia|lia|done].
  intros u Hu. rewrite Forall_forall in Hall. apply (kept_number sent); [done|apply Hgs; rewrite Hperm; by right|by apply Hall].
Qed.

Lemma Recover_found mem len0 now d minSeq first rest w losts n w' seq fec fecMask p :
  fd_medias d = (minSeq, first) :: rest → minSeq = fec_seq first →
  write_present minSeq (minSeq :: rest.*1) (new_writter (replicate 8 0)) [] = Got (w, losts) → Flush w = Got (n, w') →
  first_usable losts (get8 (bw_data w') 0) minSeq (fd_codes d) = Some (seq, fec, fecMask) →
  rebuild mem len0 now (bw_data w') (GetSSRC (tp_rtp first)) seq fecMask fec (fd_medias d) = Got p →
  rp_codec (tp_rtp p) ≠ VideoCodec_RED → rp_codec (tp_rtp p) ≠ VideoCodec_ULPFEC →
  ∃ d', Recover mem len0 now d = Got (Some p, d').
Proof.
  intros Hmed Hfirst Hw Hf Hfu Hrb H1 H2. unfold Recover. rewrite Hmed in *. cbv beta zeta iota.
  change (((minSeq, first) :: rest).*1) with (minSeq :: rest.*1).
  fold (fec_seq first). rewrite <- Hfirst, Hw. cbn [cbind fst snd]. rewrite Hf. cbn [cbind fst snd].
  rewrite Hfu, Hrb. cbn [cbind]. unfold AddPacket. cbn [any_rtp].
  rewrite (proj2 (Z.eqb_neq _ _) H1), (proj2 (Z.eqb_neq _ _) H2). cbn [cbind fst snd]. eauto.
Qed.
End Recovery.

(** ** The guarantees *)

(** C20. A lost packet is rebuilt: when the decoder keeps packets and codes (RFC 5109) of a stream, and one
    of the codes protects a missing packet and otherwise packets that are kept, [Recover] returns a
    packet of the stream that was missing, with its number, its timestamp, its type, its flags and
    its media; it is that packet when there is no other code.  The stream is made of the packets as the
    decoder keeps them (its clones have the flags P and X cleared), without header extensions and of a
    payload type that is neither RED nor ULPFEC; packets are filed under their own numbers, the numbers
    are below 65536 and span at most 64, no code starts before the first packet kept, and the missing
    packet comes before the last one kept. *)
Theorem lost_packet_is_rebuilt {W : WireOps} {V : MoreWireOps} {SH : ShiftOps} {S64 : ShiftOps64} {C : VideoCodecs}
    {HN : NetworkOrder W V} mem len0 now sent d minSeq l b fec lost others :
  Zlen mem = RTP_SIZE → keeps_of sent d →
  head (fd_medias d).*1 = Some minSeq → last (fd_medias d).*1 = Some l → 0 <= minSeq → l <= minSeq + 63 → l < 2 ^ 16 →
  (b, fec) ∈ fd_codes d → protects fec (lost :: others) → (∀ t, t ∈ others → t ∈ (fd_medias d).*2) →
  lost ∈ sent → fec_seq lost ∉ (fd_medias d).*1 → fec_seq lost < l →
  ∃ p d' t, Recover mem len0 now d = Got (Some p, d')
    ∧ t ∈ sent ∧ fec_seq t ∉ (fd_medias d).*1 ∧ same_packet (tp_rtp p) (tp_rtp t)
    ∧ (fd_codes d = [(b, fec)] → t = lost).
Proof.
  intros Hmem Hd Hhead Hlast Hmin Hspan Hl16 Hin Hp Hot Hls Hnot Hll.
  pose proof (ko_sorted _ _ Hd) as Hs. destruct (fd_medias d) as [|[k first] rest] eqn:Hmed; [done|]. injection Hhead as ->.
  destruct (ko_own _ _ Hd minSeq first) as [Hfirst _]; [rewrite Hmed; left|].
  set (keys := rest.*1). assert (Hkeys : (fd_medias d).*1 = minSeq :: keys) by by rewrite Hmed.
  change (((minSeq, first) :: rest).*1) with (minSeq :: keys) in *.
  assert (Hss : StronglySorted Z.lt (minSeq :: keys)) by exact Hs.
  assert (Hlk : default minSeq (last keys) = l).
  { rewrite last_cons in Hlast. destruct (last keys); by injection Hlast as ->. }
  assert (Hk63 : ∀ q, q ∈ minSeq :: keys → q <= minSeq + 63) by (intros q Hq; apply sorted_last in Hq; [lia|done]).
  pose proof (pr_range _ _ Hp lost ltac:(left)) as Hrange.
  destruct (ko_codes _ _ Hd _ _ Hin) as (g & _ & _ & Hbase). specialize (Hbase _ _ _ Hmed).
  assert (fec_seq lost ≠ minSeq) by (intros E; apply Hnot; rewrite E; left).
  destruct (present_mask_spec minSeq keys Hss) as (w & n & w' & Hw & Hf & Hwl & Hwb & Hmask); [lia|]. rewrite Hlk in Hw.
  set (losts := filter _ _) in Hw.
  destruct (usable_lost fec lost others b (get8 (bw_data w') 0) minSeq (minSeq :: keys)) as (fm & Hu & _ & _);
    [done|lia|lia|lia|lia|done|done|].
  assert (Hkept : ∀ t, t ∈ others → fec_seq t ∈ minSeq :: keys).
  { intros t Ht. apply Hot in Ht. apply list_elem_of_fmap in Ht as ([q t'] & -> & Ht). simpl.
    rewrite <- Hmed in Ht. destruct (ko_own _ _ Hd _ _ Ht) as [<- _]. rewrite <- Hkeys. apply list_elem_of_fmap. by exists (q, t'). }
  rewrite bool_decide_eq_true_2 in Hu by by apply Forall_forall.
  destruct (first_usable_some losts (get8 (bw_data w') 0) minSeq (fd_codes d) (fec_seq lost)) as [[[seq fec'] fecMask] Hfu].
  { apply list_elem_of_filter. split; [set_solver|]. apply elem_of_seqZ. lia. }
  { eapply usable_some; [done|]. by rewrite Hu. }
  pose proof (first_usable_elem _ _ _ _ _ _ _ Hfu) as [[Hsk Hsq]%list_elem_of_filter (b' & Hb' & Hub)%usable_elem].
  apply elem_of_seqZ in Hsq.
  destruct (usable_found sent d b' fec' seq (get8 (bw_data w') 0) minSeq fecMask) as (t & ot & Hpt & <- & Hts & Hott & Hfr & Hfm);
    [done|done|done|by rewrite Hkeys|lia|lia|lia|by rewrite Hkeys|by rewrite Hkeys|].
  destruct (ko_ordinary _ _ Hd t Hts) as (Htb & Htx & Ht1 & Ht2).
  assert (Htk : fec_seq t ∉ minSeq :: keys) by (intros [?|?]%elem_of_cons; [lia|done]).
  destruct (rebuild_spec mem len0 now (bw_data w') (GetSSRC (tp_rtp first)) fecMask fec' t ot (fd_medias d))
    as (p & Hrb & Hsame & Hcodec); [done|done|done|done|by rewrite Hmed|intros q u Hq; by apply (ko_own _ _ Hd)|done|done|done|done|done|lia|].
  destruct (Recover_found mem len0 now d minSeq first rest w losts n w' (fec_seq t) fec' fecMask p) as [d' HR];
    [by rewrite ?Hcodec..|]. exists p, d', t. split_and!; [done..|]. intros Hone. rewrite Hone in Hb'. apply list_elem_of_singleton in Hb' as [= -> ->].
  apply (sent_number sent d); [done..|].
  pose proof (protects_same fec _ _ t Hp Hpt ltac:(left)) as Hm. rewrite fmap_cons in Hm.
  apply elem_of_cons in Hm as [?|Hm]; [done|]. apply list_elem_of_fmap in Hm as (u & E & Hu'). destruct Htk. rewrite E. by apply Hkept.
Qed.

(** ** Where the decoder falls short *)

(** The packets of the first 63 numbers are not kept: the limit wraps around. *)
Theorem early_packets_are_not_kept {W : WireOps} {V : MoreWireOps} {C : VideoCodecs} mem len0 now t :
  0 <= fec_seq t < 63 → rp_codec (tp_rtp t) ≠ VideoCodec_RED → rp_codec (tp_rtp t) ≠ VideoCodec_ULPFEC →
  AddPacket mem len0 now (APlain t) new_fec_decoder = Got (true, new_fec_decoder).
Proof.
  intros Ht H1 H2. unfold AddPacket. cbn [any_rtp]. rewrite (proj2 (Z.eqb_neq _ _) H1), (proj2 (Z.eqb_neq _ _) H2).
  fold (fec_seq t). unfold clean_up. cbn [new_fec_decoder fd_medias fd_codes om_set last drop_below].
  destruct (Z.ltb_spec (fec_seq t) (to_dword (fec_seq t - 63))); [done|]. unfold to_dword in *. Z.div_mod_to_equations. lia.
Qed.

(** Codes are filed without the cycles of their numbers: once the numbers have wrapped, every packet
    throws them away. *)
Theorem codes_are_lost_after_a_cycle {W : WireOps} {V : MoreWireOps} {C : VideoCodecs} mem len0 now t d d' :
  om_sorted (fd_medias d) → Forall (λ m, m.1 < 2 ^ 32) (fd_medias d) → Forall (λ c, c.1 < 2 ^ 16) (fd_codes d) →
  2 ^ 16 + 63 <= fec_seq t < 2 ^ 32 → AddPacket mem len0 now (APlain t) d = Got (true, d') → fd_codes d' = [].
Proof.
  intros Hs Hm Hc Ht. unfold AddPacket. cbn [any_rtp]. fold (fec_seq t).
  destruct (_ =? VideoCodec_RED); [done|]. destruct (_ =? VideoCodec_ULPFEC); [done|]. intros [= <-].
  set (medias := om_set _ _ _). unfold clean_up. cbn [fd_medias fd_codes].
  assert (Hin : ∃ v, (fec_seq t, v) ∈ medias) by (eexists; apply om_find_elem; unfold medias; apply om_find_set_eq).
  assert (Hms : om_sorted medias) by by apply om_set_sorted.
  assert (Hmb : Forall (λ m, m.1 < 2 ^ 32) medias).
  { rewrite Forall_forall in Hm |- *. intros m [->|?]%om_set_elem; [simpl; lia|auto]. }
  destruct (last medias) as [[l v]|] eqn:El; cycle 1.
  { apply last_None in El. rewrite El in Hin. destruct Hin as [? Hin]. by apply elem_of_nil in Hin. }
  assert (Hl : fec_seq t <= l < 2 ^ 32).
  { split; [|apply last_Some_elem_of in El; rewrite Forall_forall in Hmb; by apply Hmb in El].
    destruct Hin as [u Hin]. destruct medias as [|[a x] ms]; [done|].
    assert (Ha : fec_seq t ∈ a :: ms.*1) by (apply (list_elem_of_fmap_2 fst) in Hin; exact Hin).
    apply sorted_last in Ha; [|exact Hms]. rewrite fmap_last in Ha. rewrite last_cons in El.
    destruct (last ms) as [[? ?]|]; simpl in *; injection El as -> ->; done. }
  cbn [fd_codes]. rewrite to_dword_id by (unfold is_dword; lia).
  induction Hc as [|[k c] codes Hk Hc IH]; [done|]. simpl in *. destruct (Z.ltb_spec k (l - 63)); [done|lia].
Qed.

Lemma clone_loses_the_flags mem len0 p :
  Zlen mem = RTP_SIZE → GetX (Clone mem len0 p) = false.
Proof.
  intros Hm. unfold Clone. set (q := SetTimestamp _ _).
  assert (Hq : plain q).
  { unfold q. apply SetTimestamp_keeps. change (plain (SetSeqCycles ?c ?x)) with (plain x).
    apply SetSeqNum_keeps. apply SetMark_keeps. apply (new_rtp_plain mem len0 (rp_media p) (rp_codec p) (GetType p) Hm). }
  clearbody q. unfold SetPayload. rewrite plain_header by done. destruct (_ <? Zlen _); [apply Hq|].
  destruct Hq as (_ & Hx & Hl). unfold GetX, hdr_x in *. simpl. rewrite zget_write_at_before; [done|lia|]. rewrite Hl. unfold RTP_SIZE. lia.
Qed.

(** ** At concrete inputs *)

Definition sample_codecs : VideoCodecs := {| VideoCodec_RED := 109; VideoCodec_ULPFEC := 108 |}.
Definition no_shift64 : ShiftOps64 := {| over_shl64 x _ := x |}.

Definition video_packet (seq ts : Z) (data : bytes) : RTPTimedPacket :=
  mkTimed (SetPayload data (SetTimestamp ts (SetSeqNum seq (new_rtp (replicate 1700 0) 0 Video 96 96)))).2 0.

(** Packets 101 and 102 and the code that protects them: 102 came, 101 did not. *)
Definition lost_video : RTPTimedPacket := video_packet 101 5000 [7; 8; 9].
Definition kept_video : RTPTimedPacket := video_packet 102 8000 [1; 2].
Definition first_video : RTPTimedPacket := video_packet 100 4000 [3].
Definition sample_code : FECData :=
  new_fec
    ([0; 0; 0; 101] ++ be_put 4 [0; 0; 0; 0] 0 (Z.lxor 5000 8000) ++ [0; Z.lxor 3 2] ++ [0; 3] ++ [0xC0; 0]
     ++ [Z.lxor 7 1; Z.lxor 8 2; 9]).
Definition sample_decoder : FECDecoder :=
  mkFecDecoder [(100, first_video); (102, kept_video)] [(101, sample_code)].

Lemma sample_code_protects :
  protects (W := network_order) sample_code [lost_video; kept_video].
Proof.
  split; try (vm_compute; reflexivity).
  - unfold bytes_ok. apply (bool_decide_unpack _). vm_compute; exact I.
  - vm_compute. discriminate.
  - repeat constructor; try (vm_compute; reflexivity); vm_compute; discriminate.
  - intros i Hi. change (GetLevel0Size (W := network_order) sample_code) with 3 in Hi.
    assert (i = 0 ∨ i = 1 ∨ i = 2) as [->|[->| ->]] by lia; vm_compute; reflexivity.
  - assert (H : Forall (λ j, Z.testbit (GetLevel0Mask (W := network_order) sample_code) j
      = bool_decide (GetBaseSeqNum (W := network_order) sample_code + (63 - j) ∈ fec_seq <$> [lost_video; kept_video])) (seqZ 0 64)).
    { apply (bool_decide_unpack _). vm_compute; exact I. }
    rewrite Forall_forall in H. intros j Hj. apply H. apply elem_of_seqZ. lia.
  - intros t [->|[->|Ht]%elem_of_cons]%elem_of_cons; [vm_compute; split; congruence..|by apply elem_of_nil in Ht].
  - apply (bool_decide_unpack _). vm_compute; exact I.
Qed.

Definition sample_sent : list RTPTimedPacket := [first_video; lost_video; kept_video].

Lemma sample_keeps : keeps_of (W := network_order) (C := sample_codecs) sample_sent sample_decoder.
Proof.
  split.
  - apply (bool_decide_unpack _). vm_compute; exact I.
  - apply Forall_forall. repeat constructor; try (vm_compute; reflexivity || discriminate);
      apply (bool_decide_unpack _); vm_compute; exact I.
  - unfold om_sorted. cbn [sample_decoder fd_medias fmap list_fmap fst]. repeat constructor.
  - intros k t [E|[E|Ht]%elem_of_cons]%elem_of_cons;
      [injection E as -> ->; split; [vm_compute; reflexivity|unfold sample_sent; set_solver]..|by apply elem_of_nil in Ht].
  - intros b fec [= -> ->]%list_elem_of_singleton. exists [lost_video; kept_video].
    split_and!; [exact sample_code_protects|unfold sample_sent; set_solver|]. intros k f r [= <- _ _]. vm_compute. discriminate.
Qed.

Lemma lost_packet_is_rebuilt_witness :
  ∃ p d', Recover (W := network_order) (V := network_order_more) (SH := no_shift) (S64 := no_shift64) (C := sample_codecs)
    (replicate 1700 0) 0 0 sample_decoder = Got (Some p, d') ∧ same_packet (tp_rtp p) (tp_rtp lost_video).
Proof.
  destruct (lost_packet_is_rebuilt (W := network_order) (V := network_order_more) (SH := no_shift) (S64 := no_shift64) (C := sample_codecs)
    (replicate 1700 0) 0 0 sample_sent sample_decoder 100 102 101 sample_code lost_video [kept_video])
    as (p & d' & t & HR & _ & _ & Hsame & Hone).
  - reflexivity.
  - exact sample_keeps.
  - reflexivity.
  - reflexivity.
  - lia.
  - lia.
  - lia.
  - left.
  - exact sample_code_protects.
  - intros t Ht. apply list_elem_of_singleton in Ht as ->. right. left.
  - right. left.
  - apply (bool_decide_unpack _). vm_compute; exact I.
  - vm_compute. reflexivity.
  - exists p, d'. split; [exact HR|]. rewrite <- (Hone eq_refl). exact Hsame.
Defined.
