(* ===== verification/RtmpFormat.v ===== *)
(** * RTMP: fixed formats

    [RTMPFormat<SIZE>] and its subclasses (src/mcu/include/rtmp.h): the headers of chunks, the
    packets of the handshake and the protocol control messages.  A format is filled octet by octet
    as they come from the connection; [size] is how many are wanted, at most [SIZE], and some
    formats decide it on the first octets ([PreParse]).  What a new object or block holds before it
    is written is the class [Memory]: nothing is assumed of the octets but their number.  A copy outside
    of an array is [Fault]. *)

From S2P Require Import Prelude Wire Octets.

(** The contents of memory that was never written. *)
Class Memory := {
  fresh : Z → bytes;
  fresh_length n : 0 <= n → Zlen (fresh n) = n;
  fresh_bytes n : bytes_ok (fresh n);
  leftover : Z;                    (** an integer field without initial value *)
}.

(** ** RTMPFormat *)

Record RTMPFormat := mkFormat {
  fm_SIZE : Z;
  fm_data : bytes;                 (** [BYTE data\[SIZE\]] *)
  fm_len : Z;
  fm_size : Z;
}.

#[global] Instance RTMPFormat_eq_dec : EqDecision RTMPFormat.
Proof. solve_decision. Defined.

Definition new_format `{Memory} (SIZE : Z) : RTMPFormat := mkFormat SIZE (fresh SIZE) 0 SIZE.

Definition format_Reset (f : RTMPFormat) : RTMPFormat :=
  mkFormat (fm_SIZE f) (fm_data f) 0 (fm_SIZE f).

Definition set_format_data (g : bytes → bytes) (f : RTMPFormat) : RTMPFormat :=
  mkFormat (fm_SIZE f) (g (fm_data f)) (fm_len f) (fm_size f).
Definition set_format_size (size : Z) (f : RTMPFormat) : RTMPFormat :=
  mkFormat (fm_SIZE f) (fm_data f) (fm_len f) size.

(** [RTMPFormat::PreParse] of most formats. *)
Definition no_PreParse (buffer : bytes) (f : RTMPFormat) : checked RTMPFormat := Got f.

(** [RTMPFormat::Parse]: the object afterwards and the octets used. *)
Definition format_Parse (PreParse : bytes → RTMPFormat → checked RTMPFormat) (buffer : bytes)
    (f : RTMPFormat) : checked (RTMPFormat * Z) :=
  if Zlen buffer =? 0 then Got (f, 0)
  else
    let? f := PreParse buffer f in
    let num :=
      if to_dword (fm_size f - fm_len f) <? Zlen buffer then fm_size f - fm_len f
      else Zlen buffer in
    let? w := rd_copy buffer 0 num in
    let? data := wr_copy (fm_data f) (fm_len f) w in
    Got (mkFormat (fm_SIZE f) data (fm_len f + num) (fm_size f), num).

Definition format_IsParsed (f : RTMPFormat) : bool := fm_len f =? fm_size f.

(** [RTMPFormat::Serialize(buffer, bufferSize)]: what it writes, [None] for [-1]. *)
Definition format_Serialize (f : RTMPFormat) (bufferSize : Z) : option bytes :=
  if bufferSize <? fm_size f then None else Some (ztake (fm_size f) (fm_data f)).

(** ** Chunk basic header *)

Definition BasicHeader_SIZE : Z := 3.

Definition Basic_GetFmt (f : RTMPFormat) : Z := Z.shiftr (zget 0 (fm_data f)) 6.
Definition Basic_SetFmt (fmt : Z) : RTMPFormat → RTMPFormat :=
  set_format_data (λ d, <[0%nat := to_byte (Z.lor (Z.shiftl fmt 6) (Z.land (zget 0 d) 0x3F))]> d).

Definition Basic_GetStreamId (f : RTMPFormat) : Z :=
  let d := fm_data f in
  if fm_size f =? 1 then Z.land (zget 0 d) 0x3F
  else if fm_size f =? 2 then zget 1 d + 64
  else if fm_size f =? 3 then zget 1 d + zget 2 d * 256 + 64
  else 0.

Definition Basic_SetStreamId (csid : Z) (f : RTMPFormat) : RTMPFormat :=
  if csid <? 64 then
    set_format_data (λ d, <[0%nat := to_byte (Z.lor (Z.land (zget 0 d) 0xC0) csid)]> d)
      (set_format_size 1 f)
  else if csid <? 320 then
    set_format_data (λ d, <[1%nat := to_byte (csid - 64)]> (<[0%nat := Z.land (zget 0 d) 0xC0]> d))
      (set_format_size 2 f)
  else
    set_format_data (λ d,
      <[2%nat := to_byte (Z.shiftr (csid - 64) 8)]>
        (<[1%nat := Z.land (csid - 64) 0xFF]>
          (<[0%nat := Z.lor (Z.land (zget 0 d) 0xC0) 1]> d)))
      (set_format_size 3 f).

Definition Basic_PreParse (buffer : bytes) (f : RTMPFormat) : checked RTMPFormat :=
  if fm_len f =? 0 then
    let? o := rd1 buffer 0 in
    let id := Z.land o 0x3F in
    Got (set_format_size (if id =? 0 then 2 else if id =? 1 then 3 else 1) f)
  else Got f.

(** ** Chunk message headers *)

(** A [DWORD] in the order of the machine, little endian. *)
Definition host_get4 (b : bytes) (i : Z) : Z :=
  zget i b + 256 * (zget (i + 1) b + 256 * (zget (i + 2) b + 256 * zget (i + 3) b)).
Definition host_put4 (v : Z) : bytes :=
  [to_byte v; to_byte (v / 2 ^ 8); to_byte (v / 2 ^ 16); to_byte (v / 2 ^ 24)].

Section Formats.
Context {W : WireOps} {V : MoreWireOps}.

Definition Ext_GetTimestamp (f : RTMPFormat) : Z := get4 (fm_data f) 0.
Definition Ext_SetTimestamp (ts : Z) : RTMPFormat → RTMPFormat :=
  set_format_data (λ d, set4 d 0 ts).

Definition Type0_GetTimestamp (f : RTMPFormat) : Z := get3 (fm_data f) 0.
Definition Type0_GetMessageLength (f : RTMPFormat) : Z := get3 (fm_data f) 3.
Definition Type0_GetMessageTypeId (f : RTMPFormat) : Z := get1 (fm_data f) 6.
Definition Type0_GetMessageStreamId (f : RTMPFormat) : Z := host_get4 (fm_data f) 7.
Definition Type0_SetTimestamp (ts : Z) : RTMPFormat → RTMPFormat :=
  set_format_data (λ d, set3 d 0 ts).
Definition Type0_SetMessageLength (length : Z) : RTMPFormat → RTMPFormat :=
  set_format_data (λ d, set3 d 3 length).
Definition Type0_SetMessageTypeId (typeId : Z) : RTMPFormat → RTMPFormat :=
  set_format_data (λ d, set1 d 6 typeId).
Definition Type0_SetMessageStreamId (streamId : Z) : RTMPFormat → RTMPFormat :=
  set_format_data (write_at 7 (host_put4 streamId)).

Definition Type1_GetTimestampDelta (f : RTMPFormat) : Z := get3 (fm_data f) 0.
Definition Type1_GetMessageLength (f : RTMPFormat) : Z := get3 (fm_data f) 3.
Definition Type1_GetMessageTypeId (f : RTMPFormat) : Z := get1 (fm_data f) 6.
Definition Type1_SetTimestampDelta (ts : Z) : RTMPFormat → RTMPFormat :=
  set_format_data (λ d, set3 d 0 ts).
Definition Type1_SetMessageLength (length : Z) : RTMPFormat → RTMPFormat :=
  set_format_data (λ d, set3 d 3 length).
Definition Type1_SetMessageTypeId (typeId : Z) : RTMPFormat → RTMPFormat :=
  set_format_data (λ d, set1 d 6 typeId).

Definition Type2_GetTimestampDelta (f : RTMPFormat) : Z := get3 (fm_data f) 0.
Definition Type2_SetTimestampDelta (ts : Z) : RTMPFormat → RTMPFormat :=
  set_format_data (λ d, set3 d 0 ts).

(** ** Handshake *)

Definition C0_GetRTMPVersion (f : RTMPFormat) : Z := get1 (fm_data f) 0.
Definition S01_SetRTMPVersion (version : Z) : RTMPFormat → RTMPFormat :=
  set_format_data (λ d, set1 d 0 version).
Definition S01_SetTime (time : Z) : RTMPFormat → RTMPFormat :=
  set_format_data (λ d, set4 d 1 time).
Definition S01_SetVersion (b0 b1 b2 b3 : Z) : RTMPFormat → RTMPFormat :=
  set_format_data (λ d, set1 (set1 (set1 (set1 d 5 b0) 6 b1) 7 b2) 8 b3).
(** [GetRandom()] and the loop that fills it *)
Definition S01_fill_random (random : bytes) : RTMPFormat → RTMPFormat :=
  set_format_data (write_at 9 (ztake 1528 random)).
Definition C1_GetTime (f : RTMPFormat) : Z := get4 (fm_data f) 0.
Definition C1_GetVersion (f : RTMPFormat) : bytes := ztake 4 (zdrop 4 (fm_data f)).
Definition C1_GetRandom (f : RTMPFormat) : bytes := ztake 1528 (zdrop 8 (fm_data f)).
Definition S2_SetTime (time : Z) : RTMPFormat → RTMPFormat :=
  set_format_data (λ d, set4 d 0 time).
Definition S2_SetTime2 (time2 : Z) : RTMPFormat → RTMPFormat :=
  set_format_data (λ d, set4 d 4 time2).
Definition S2_SetRandom (random : bytes) : RTMPFormat → RTMPFormat :=
  if Zlen random =? 1528 then set_format_data (write_at 8 random) else id.

(** ** Protocol control messages *)

Section Create.
Context {M : Memory}.

Definition SetChunkSize_Create (size : Z) : RTMPFormat :=
  set_format_data (λ d, set4 d 0 size) (new_format 4).
Definition AbortMessage_Create (id : Z) : RTMPFormat :=
  set_format_data (λ d, set4 d 0 id) (new_format 4).
Definition Acknowledgement_Create (seq : Z) : RTMPFormat :=
  set_format_data (λ d, set4 d 0 seq) (new_format 4).
Definition WindowAcknowledgementSize_Create (windowSize : Z) : RTMPFormat :=
  set_format_data (λ d, set4 d 0 windowSize) (new_format 4).
Definition SetPeerBandWidth_Create (size type : Z) : RTMPFormat :=
  set_format_data (λ d, set1 (set4 d 0 size) 4 type) (new_format 5).
End Create.

(** The results are [DWORD]s. *)
Definition SetChunkSize_GetChunkSize (f : RTMPFormat) : Z := to_dword (get4 (fm_data f) 0).
Definition AbortMessage_GetChunkStreamId (f : RTMPFormat) : Z := get4 (fm_data f) 0.
Definition Acknowledgement_GetSeNumber (f : RTMPFormat) : Z := get4 (fm_data f) 0.
Definition Window_GetWindowSize (f : RTMPFormat) : Z := to_dword (get4 (fm_data f) 0).
Definition SetPeerBandWidth_GetWindowSize (f : RTMPFormat) : Z := get4 (fm_data f) 0.
Definition SetPeerBandWidth_GetType (f : RTMPFormat) : Z := get1 (fm_data f) 4.

(** [RTMPUserControlMessage] *)
Definition StreamBegin : Z := 0.
Definition StreamEOF : Z := 1.
Definition StreamDry : Z := 2.
Definition SetBufferLength : Z := 3.
Definition StreamIsRecorded : Z := 4.
Definition PingRequest : Z := 6.
Definition PingResponse : Z := 7.

Definition User_GetEventType (f : RTMPFormat) : Z := get2 (fm_data f) 0.
Definition User_SetEventType (type : Z) : RTMPFormat → RTMPFormat :=
  set_format_data (λ d, set2 d 0 type).
Definition User_GetEventData (f : RTMPFormat) : Z := get4 (fm_data f) 2.
Definition User_SetEventData (v : Z) : RTMPFormat → RTMPFormat :=
  set_format_data (λ d, set4 d 2 v).
Definition User_GetEventData2 (f : RTMPFormat) : Z := get4 (fm_data f) 6.

Definition UserControl_new1 `{Memory} (type d : Z) : RTMPFormat :=
  User_SetEventData d (User_SetEventType type (set_format_size 6 (new_format 10))).
(** The constructor writes its second value where the first one is. *)
Definition UserControl_new2 `{Memory} (type d d2 : Z) : RTMPFormat :=
  User_SetEventData d2 (User_SetEventData d
    (User_SetEventType type (set_format_size 10 (new_format 10)))).

Definition CreateStreamBegin `{Memory} (id : Z) : RTMPFormat := UserControl_new1 StreamBegin id.
Definition CreateStreamEOF `{Memory} (id : Z) : RTMPFormat := UserControl_new1 StreamEOF id.
Definition CreateSetBufferLength `{Memory} (id milis : Z) : RTMPFormat :=
  UserControl_new2 SetBufferLength id milis.
Definition CreateStreamIsRecorded `{Memory} (id : Z) : RTMPFormat :=
  UserControl_new1 StreamIsRecorded id.
Definition CreatePingRequest `{Memory} (seq : Z) : RTMPFormat := UserControl_new1 PingRequest seq.
Definition CreatePingResponse `{Memory} (seq : Z) : RTMPFormat := UserControl_new1 PingResponse seq.

Definition User_PreParse (buffer : bytes) (f : RTMPFormat) : checked RTMPFormat :=
  if (fm_len f =? 0) && (1 <? Zlen buffer) then
    let? o := rd1 buffer 1 in Got (set_format_size (if o =? 3 then 10 else 6) f)
  else if fm_len f =? 1 then
    let? o := rd1 buffer 0 in Got (set_format_size (if o =? 3 then 10 else 6) f)
  else Got f.
End Formats.

(** ** A format never takes more than it has room for *)

Record format_ok (f : RTMPFormat) : Prop := mkFormatOk {
  fo_len : 0 <= fm_len f <= fm_size f;
  fo_size : fm_size f <= fm_SIZE f < 2 ^ 31;
  fo_data : Zlen (fm_data f) = fm_SIZE f;
  fo_bytes : bytes_ok (fm_data f);
}.

(** A [PreParse] of the objects of [SIZE] octets keeps what was read and asks for more. *)
Class GoodPreParse (SIZE : Z) (p : bytes → RTMPFormat → checked RTMPFormat) : Prop := {
  pp_ok b f : format_ok f → fm_SIZE f = SIZE → fm_len f < fm_size f → 0 < Zlen b →
    ∃ size, p b f = Got (set_format_size size f) ∧ fm_len f < size <= SIZE;
}.

Lemma set_same_size f : set_format_size (fm_size f) f = f.
Proof. by destruct f. Qed.

#[global] Instance no_PreParse_good SIZE : GoodPreParse SIZE no_PreParse.
Proof.
  split. intros b f [Hl Hs _ _] HS Hp _. exists (fm_size f). rewrite set_same_size. split; [done|lia].
Qed.

#[global] Instance Basic_PreParse_good : GoodPreParse 3 Basic_PreParse.
Proof.
  split. intros b f [Hl Hs _ _] HS Hp Hb. unfold Basic_PreParse. destruct (Z.eqb_spec (fm_len f) 0) as [H0|H0].
  - rewrite rd1_in by lia. cbn [cbind]. eexists. split; [done|]. rewrite H0. repeat case_goal; lia.
  - exists (fm_size f). rewrite set_same_size. split; [done|lia].
Qed.

#[global] Instance User_PreParse_good : GoodPreParse 10 User_PreParse.
Proof.
  split. intros b f [Hl Hs _ _] HS Hp Hb. unfold User_PreParse.
  destruct (Z.eqb_spec (fm_len f) 0) as [H0|H0], (Z.ltb_spec 1 (Zlen b)) as [H1|H1], (Z.eqb_spec (fm_len f) 1) as [H2|H2];
    cbn [andb]; try lia; rewrite ?rd1_in by lia; cbn [cbind];
    (eexists; split; [first [done | by rewrite set_same_size]|]); repeat case_goal; lia.
Qed.

Lemma new_format_ok `{Memory} SIZE : 0 <= SIZE < 2 ^ 31 → format_ok (new_format SIZE).
Proof. intros. split; simpl; [lia|lia|apply fresh_length; lia|apply fresh_bytes]. Qed.

Lemma format_Reset_ok f : format_ok f → format_ok (format_Reset f).
Proof. intros [Hl Hs Hd Hb]. split; simpl; [lia|lia|done|done]. Qed.

(** [Parse] of a format that is not complete takes at least an octet, and all of them unless it is
    complete then. *)
Lemma format_Parse_ok SIZE p `{!GoodPreParse SIZE p} buffer f :
  format_ok f → fm_SIZE f = SIZE → fm_len f < fm_size f → 0 < Zlen buffer → bytes_ok buffer →
  ∃ g n, format_Parse p buffer f = Got (g, n) ∧ format_ok g ∧ fm_SIZE g = SIZE ∧ 0 < n <= Zlen buffer
    ∧ (format_IsParsed g = false → n = Zlen buffer).
Proof.
  intros Hf HS Hlt Hb Hbb. destruct (pp_ok buffer f Hf HS Hlt Hb) as (size & Hp & Hsize). destruct Hf as [Hl Hs Hd Hfb].
  unfold format_Parse. rewrite (proj2 (Z.eqb_neq _ _)), Hp by lia. cbn [cbind fm_size fm_len fm_data fm_SIZE set_format_size].
  rewrite to_dword_id by (unfold is_dword; lia). set (num := if _ <? _ then _ else _).
  assert (Hnum : 0 < num <= Zlen buffer ∧ num <= size - fm_len f ∧ (num = size - fm_len f ∨ num = Zlen buffer))
    by (unfold num; destruct (Z.ltb_spec (size - fm_len f) (Zlen buffer)); lia).
  clearbody num. rewrite rd_copy_in by lia. cbn [cbind]. change (zdrop 0 buffer) with buffer.
  assert (Hw : Zlen (ztake num buffer) = num) by (apply Zlen_ztake; lia).
  rewrite wr_copy_in by lia. cbn [cbind]. eexists _, num. split; [done|]. split_and!; [|done|lia|lia|].
  - split; cbn [fm_len fm_size fm_SIZE fm_data]; [lia|lia|rewrite write_at_length; lia|].
    apply write_at_bytes; [done|by apply Forall_take].
  - unfold format_IsParsed. cbn [fm_len fm_size]. rewrite Z.eqb_neq. lia.
Qed.

(** Enough octets at once: the header is complete, and they are its data. *)
Lemma format_Parse_whole w rest SIZE mem :
  Zlen w = SIZE → 0 < SIZE < 2 ^ 31 → Zlen mem = SIZE →
  format_Parse no_PreParse (w ++ rest) (mkFormat SIZE mem 0 SIZE) = Got (mkFormat SIZE w SIZE SIZE, SIZE).
Proof.
  intros Hw HS Hm. unfold format_Parse, no_PreParse. cbn [cbind fm_size fm_len fm_SIZE fm_data].
  rewrite Zlen_app. pose proof (Zlen_nonneg rest).
  rewrite (proj2 (Z.eqb_neq _ _)) by lia. unfold to_dword. rewrite Z.mod_small by lia.
  assert (Hn : (if SIZE - 0 <? Zlen w + Zlen rest then SIZE - 0 else Zlen w + Zlen rest) = SIZE)
    by (destruct (Z.ltb_spec (SIZE - 0) (Zlen w + Zlen rest)); lia).
  rewrite Hn, rd_copy_in by (rewrite ?Zlen_app; lia). cbn [cbind]. change (zdrop 0 (w ++ rest)) with (w ++ rest).
  rewrite ztake_app by done. rewrite wr_copy_in by lia. cbn [cbind]. do 3 f_equal. rewrite write_at_0, Hw.
  assert (zdrop SIZE mem = []) as ->; [|apply app_nil_r].
  apply nil_length_inv. assert (Zlen (zdrop SIZE mem) = 0) by (rewrite Zlen_zdrop; lia). unfold Zlen in *. lia.
Qed.
