(* ===== verification/RtmpMedia.v ===== *)
(** * RTMP: audio and video frames

    [RTMPMediaFrame], [RTMPVideoFrame] and [RTMPAudioFrame] (src/mcu/include/rtmpmessage.h,
    src/mcu/src/rtmpmessage.cpp).  A frame is parsed piece by piece as the octets of its message
    arrive; the octet of the codec and the header of AVC and AAC are taken off, the rest is the
    media.  An exception is [Refuse], a read or a write outside of an array [Fault]. *)

From S2P Require Import Prelude Wire Octets RtmpFormat.

(** ** RTMPMediaFrame *)

Record RTMPMediaFrame := mkMedia {
  mf_timestamp : Z;
  mf_buffer : bytes;               (** [bufferSize] octets and 16 of padding *)
  mf_bufferSize : Z;
  mf_mediaSize : Z;
  mf_pos : Z;
}.

(** [memset(buffer+bufferSize,0,16)] is inside the block of [malloc(bufferSize+16)], whose size is
    computed in 32 bits. *)
Definition padding_fits (size : Z) : bool := size + 16 <=? to_dword (size + 16).

(** The frame of a size for which it is. *)
Definition new_media `{Memory} (timestamp size : Z) : RTMPMediaFrame :=
  mkMedia timestamp (fresh size ++ replicate 16 0) size 0 0.

(** [RTMPMediaFrame::Parse], which returns the size it is given. *)
Definition media_Parse (data : bytes) (m : RTMPMediaFrame) : checked RTMPMediaFrame :=
  refuse_if (mf_bufferSize m <? to_dword (mf_pos m + Zlen data))
    (let? buffer := wr_copy (mf_buffer m) (mf_pos m) data in
     Got (mkMedia (mf_timestamp m) buffer (mf_bufferSize m) (mf_mediaSize m)
            (to_dword (mf_pos m + Zlen data)))).

Definition add_media_size (n : Z) (m : RTMPMediaFrame) : RTMPMediaFrame :=
  mkMedia (mf_timestamp m) (mf_buffer m) (mf_bufferSize m) (to_dword (mf_mediaSize m + n)) (mf_pos m).

(** The octets of the media. *)
Definition media_data (m : RTMPMediaFrame) : bytes := ztake (mf_mediaSize m) (mf_buffer m).

(** The copy into the buffer of [SetVideoFrame] and [SetAudioFrame]. *)
Definition set_frame (data : bytes) (m : RTMPMediaFrame) : RTMPMediaFrame * Z :=
  if mf_bufferSize m <? Zlen data then (m, 0)
  else (mkMedia (mf_timestamp m) (write_at 0 data (mf_buffer m)) (mf_bufferSize m) (Zlen data)
          (mf_pos m), Zlen data).

(** ** RTMPVideoFrame *)

Definition AVC : Z := 7.

Record RTMPVideoFrame := mkVideo {
  vf_media : RTMPMediaFrame;
  vf_codec : Z;
  vf_frameType : Z;
  vf_extraData : bytes;            (** [BYTE extraData\[4\]] *)
  vf_headerPos : Z;
}.

Definition new_video `{Memory} (timestamp size : Z) : RTMPVideoFrame :=
  mkVideo (new_media timestamp size) leftover leftover (fresh 4) 0.

Definition video_Parse (data : bytes) (v : RTMPVideoFrame) : checked (RTMPVideoFrame * Z) :=
  if Zlen data =? 0 then Got (v, 0)
  else
    let? x :=
      (if vf_headerPos v =? 0 then
         let? o := rd1 data 0 in
         Got (mkVideo (vf_media v) (Z.land o 0x0F) (Z.shiftr (Z.land o 0xF0) 4) (vf_extraData v) 1, zdrop 1 data)
       else Got (v, data)) in
    let '(v, buffer) := x in
    let? x :=
      (if (vf_headerPos v <? 5) && (vf_codec v =? AVC) then
         let len := 5 - vf_headerPos v in
         let len := if Zlen buffer <? len then Zlen buffer else len in
         let? w := rd_copy buffer 0 len in
         let? extra := wr_copy (vf_extraData v) 0 w in
         Got (mkVideo (vf_media v) (vf_codec v) (vf_frameType v) extra (vf_headerPos v + len), zdrop len buffer)
       else Got (v, buffer)) in
    let '(v, buffer) := x in
    if Zlen buffer =? 0 then Got (v, Zlen data - Zlen buffer)
    else
      let? m := media_Parse buffer (vf_media v) in
      Got (mkVideo (add_media_size (Zlen buffer) m) (vf_codec v) (vf_frameType v) (vf_extraData v)
             (vf_headerPos v), Zlen buffer + (Zlen data - Zlen buffer)).

Definition video_extra (v : RTMPVideoFrame) : Z := if vf_codec v =? AVC then 4 else 0.

(** [RTMPVideoFrame::Serialize]: what it writes. *)
Definition video_Serialize (v : RTMPVideoFrame) (size : Z) : bytes :=
  if size <? mf_mediaSize (vf_media v) + 1 + video_extra v then []
  else
    to_byte (Z.lor (Z.shiftl (vf_frameType v) 4) (Z.land (vf_codec v) 0x0F))
      :: (if vf_codec v =? AVC then vf_extraData v else []) ++ media_data (vf_media v).

Definition video_GetSize (v : RTMPVideoFrame) : Z :=
  if negb (vf_codec v =? AVC) then mf_mediaSize (vf_media v) + 1
  else mf_mediaSize (vf_media v) + 1 + 4.

Definition GetAVCType (v : RTMPVideoFrame) : Z := zget 0 (vf_extraData v).
Definition GetAVCTS (v : RTMPVideoFrame) : Z :=
  Z.lor (Z.lor (Z.shiftl (zget 1 (vf_extraData v)) 16) (Z.shiftl (zget 2 (vf_extraData v)) 8))
    (zget 3 (vf_extraData v)).
Definition SetAVCType (type : Z) (v : RTMPVideoFrame) : RTMPVideoFrame :=
  mkVideo (vf_media v) (vf_codec v) (vf_frameType v) (<[0%nat := to_byte type]> (vf_extraData v))
    (vf_headerPos v).
Definition SetAVCTS (ts : Z) (v : RTMPVideoFrame) : RTMPVideoFrame :=
  mkVideo (vf_media v) (vf_codec v) (vf_frameType v)
    (<[3%nat := to_byte ts]> (<[2%nat := to_byte (Z.shiftr ts 8)]>
      (<[1%nat := to_byte (Z.shiftr ts 16)]> (vf_extraData v)))) (vf_headerPos v).
Definition SetVideoFrame (data : bytes) (v : RTMPVideoFrame) : RTMPVideoFrame * Z :=
  let '(m, n) := set_frame data (vf_media v) in
  (mkVideo m (vf_codec v) (vf_frameType v) (vf_extraData v) (vf_headerPos v), n).

Definition video_Clone `{Memory} (v : RTMPVideoFrame) : RTMPVideoFrame :=
  let m := vf_media v in
  let frame := new_video (mf_timestamp m) (mf_mediaSize m) in
  let frame := mkVideo (vf_media frame) (vf_codec v) (vf_frameType v) (vf_extraData frame)
                 (vf_headerPos frame) in
  let frame := (SetVideoFrame (media_data m) frame).1 in
  mkVideo (vf_media frame) (vf_codec frame) (vf_frameType frame) (vf_extraData v) (vf_headerPos frame).

(** ** RTMPAudioFrame *)

Definition AAC : Z := 10.

Record RTMPAudioFrame := mkAudio {
  af_media : RTMPMediaFrame;
  af_codec : Z;
  af_rate : Z;
  af_sample16bits : bool;
  af_stereo : bool;
  af_headerPos : Z;
  af_extraData : Z;                (** [BYTE extraData\[1\]] *)
}.

Definition new_audio `{Memory} (timestamp size : Z) : RTMPAudioFrame :=
  mkAudio (new_media timestamp size) leftover leftover (Z.testbit leftover 0) (Z.testbit leftover 0) 0
    (to_byte leftover).

Definition audio_Parse (data : bytes) (a : RTMPAudioFrame) : checked (RTMPAudioFrame * Z) :=
  if Zlen data =? 0 then Got (a, Zlen data)
  else
    let? x :=
      (if mf_pos (af_media a) =? 0 then
         let? o := rd1 data 0 in
         Got (mkAudio (af_media a) (Z.shiftr o 4) (Z.land (Z.shiftr o 2) 0x03) (Z.testbit o 1)
                (Z.testbit o 0) (af_headerPos a) (af_extraData a), zdrop 1 data)
       else Got (a, data)) in
    let '(a, buffer) := x in
    if Zlen buffer =? 0 then Got (a, Zlen data)
    else
      let? x :=
        (if (af_codec a =? AAC) && (af_headerPos a =? 0) then
           let? o := rd1 buffer 0 in
           Got (mkAudio (af_media a) (af_codec a) (af_rate a) (af_sample16bits a) (af_stereo a)
                  (af_headerPos a + 1) o, zdrop 1 buffer)
         else Got (a, buffer)) in
      let '(a, buffer) := x in
      let? m := media_Parse buffer (af_media a) in
      Got (mkAudio (add_media_size (Zlen buffer) m) (af_codec a) (af_rate a) (af_sample16bits a)
             (af_stereo a) (af_headerPos a) (af_extraData a),
           Zlen buffer + (Zlen data - Zlen buffer)).

(** [RTMPAudioFrame::Serialize] tests one octet less than it writes for AAC. *)
Definition audio_Serialize (a : RTMPAudioFrame) (size : Z) : bytes :=
  if size <? mf_mediaSize (af_media a) + 1 then []
  else
    to_byte (Z.lor (Z.lor (Z.lor (Z.shiftl (af_codec a) 4) (Z.shiftl (af_rate a) 2))
               (Z.shiftl (Z.b2z (af_sample16bits a)) 1)) (Z.b2z (af_stereo a)))
      :: (if af_codec a =? AAC then [af_extraData a] else []) ++ media_data (af_media a).

Definition audio_GetSize (a : RTMPAudioFrame) : Z :=
  if negb (af_codec a =? AAC) then mf_mediaSize (af_media a) + 1
  else mf_mediaSize (af_media a) + 2.

Definition SetAudioFrame (data : bytes) (a : RTMPAudioFrame) : RTMPAudioFrame * Z :=
  let '(m, n) := set_frame data (af_media a) in
  (mkAudio m (af_codec a) (af_rate a) (af_sample16bits a) (af_stereo a) (af_headerPos a)
     (af_extraData a), n).

Definition audio_Clone `{Memory} (a : RTMPAudioFrame) : RTMPAudioFrame :=
  let m := af_media a in
  let frame := new_audio (mf_timestamp m) (mf_mediaSize m) in
  let frame := mkAudio (af_media frame) (af_codec a) (af_rate a) (af_sample16bits a) (af_stereo a)
                 (af_headerPos frame) (af_extraData a) in
  (SetAudioFrame (media_data m) frame).1.

(** ** Either kind *)

Inductive RTMPFrame :=
  | VideoFrame (v : RTMPVideoFrame)
  | AudioFrame (a : RTMPAudioFrame).

Definition frame_Parse (data : bytes) (f : RTMPFrame) : checked (RTMPFrame * Z) :=
  match f with
  | VideoFrame v => let? r := video_Parse data v in Got (VideoFrame r.1, r.2)
  | AudioFrame a => let? r := audio_Parse data a in Got (AudioFrame r.1, r.2)
  end.

Definition frame_Serialize (f : RTMPFrame) (size : Z) : bytes :=
  match f with VideoFrame v => video_Serialize v size | AudioFrame a => audio_Serialize a size end.

Definition frame_GetSize (f : RTMPFrame) : Z :=
  match f with VideoFrame v => video_GetSize v | AudioFrame a => audio_GetSize a end.

Definition frame_Clone `{Memory} (f : RTMPFrame) : RTMPFrame :=
  match f with VideoFrame v => VideoFrame (video_Clone v) | AudioFrame a => AudioFrame (audio_Clone a) end.

Definition frame_media (f : RTMPFrame) : RTMPMediaFrame :=
  match f with VideoFrame v => vf_media v | AudioFrame a => af_media a end.
