(* ===== verification/RtmpMediaProps.v ===== *)
(** * RTMP: frames parsed piece by piece

    What a frame holds after the octets [p] of its message, provided the first piece has the whole
    header, and that a frame that was written is read back. *)

From S2P Require Import Prelude Wire Octets RtmpFormat RtmpMedia.

(** ** Octets *)

Lemma zget_app_0 p d : 0 < Zlen p → zget 0 (p ++ d) = zget 0 p.
Proof. intros. apply zget_app_l. lia. Qed.

Lemma zget_0_cons o (l : bytes) : zget 0 (o :: l) = o.
Proof. done. Qed.

Lemma zdrop_1_cons o (l : bytes) : zdrop 1 (o :: l) = l.
Proof. done. Qed.

Lemma zdrop_cons n o (l : bytes) : 0 <= n → zdrop (1 + n) (o :: l) = zdrop n l.
Proof. intros. by rewrite <- zdrop_zdrop, zdrop_1_cons by lia. Qed.

Lemma zdrop_app_l {A} n (p d : list A) : 0 <= n <= Zlen p → zdrop n (p ++ d) = zdrop n p ++ d.
Proof. intros. unfold zdrop. rewrite drop_app_le; [done|]. unfold Zlen in *. lia. Qed.

Lemma ztake_app_l {A} n (p d : list A) : 0 <= n <= Zlen p → ztake n (p ++ d) = ztake n p.
Proof. intros. unfold ztake. rewrite take_app_le; [done|]. unfold Zlen in *. lia. Qed.

Lemma Zlen_zero {A} (l : list A) : Zlen l = 0 → l = [].
Proof. intros. apply nil_length_inv. unfold Zlen in *. lia. Qed.

(** All of a block written. *)
Lemma write_at_whole w data : Zlen w = Zlen data → write_at 0 w data = w.
Proof.
  intros Hw. rewrite write_at_0. assert (zdrop (Zlen w) data = []) as ->; [|apply app_nil_r].
  apply Zlen_zero. rewrite Zlen_zdrop; pose proof (Zlen_nonneg w); lia.
Qed.

(** ** The media *)

(** A block of [len] octets of which the media [b] is filled. *)
Record filled (ts len : Z) (b : bytes) (m : RTMPMediaFrame) : Prop := mkFilled {
  fl_ts : mf_timestamp m = ts;
  fl_size : mf_bufferSize m = len;
  fl_buffer : Zlen (mf_buffer m) = len + 16;
  fl_media : mf_mediaSize m = Zlen b;
  fl_pos : mf_pos m = Zlen b;
  fl_data : ztake (Zlen b) (mf_buffer m) = b;
}.

Lemma new_media_filled `{Memory} ts len : 0 <= len → filled ts len [] (new_media ts len).
Proof.
  intros. split; try done. cbn [new_media mf_buffer]. rewrite Zlen_app, fresh_length, Zlen_replicate; lia.
Qed.

Lemma media_Parse_filled ts len b d m : filled ts len b m → Zlen b + Zlen d <= len → len < 2 ^ 32 →
  ∃ m', media_Parse d m = Got m' ∧ filled ts len (b ++ d) (add_media_size (Zlen d) m').
Proof.
  intros [H1 H2 H3 H4 H5 H6] Hl Hb. pose proof (Zlen_nonneg b). pose proof (Zlen_nonneg d).
  unfold media_Parse, refuse_if. rewrite H5, H2. unfold to_dword. rewrite Z.mod_small by lia.
  rewrite (proj2 (Z.ltb_ge _ _)) by lia. rewrite wr_copy_in by lia. cbn [cbind]. eexists. split; [done|].
  split; cbn [add_media_size mf_timestamp mf_bufferSize mf_buffer mf_mediaSize mf_pos]; rewrite ?Zlen_app, ?H4; try done.
  - rewrite write_at_length; lia.
  - unfold to_dword. apply Z.mod_small. lia.
  - unfold write_at. rewrite app_assoc, ztake_app; [by rewrite H6|]. by rewrite H6, Zlen_app.
Qed.

Lemma filled_data ts len b m : filled ts len b m → media_data m = b.
Proof. intros [_ _ _ H4 _ H6]. unfold media_data. by rewrite H4. Qed.

(** ** Video *)

Definition video_header (o : Z) : Z := if Z.land o 0x0F =? AVC then 5 else 1.

Record video_after (ts len : Z) (p : bytes) (v : RTMPVideoFrame) : Prop := mkVideoAfter {
  va_codec : vf_codec v = Z.land (zget 0 p) 0x0F;
  va_type : vf_frameType v = Z.shiftr (Z.land (zget 0 p) 0xF0) 4;
  va_pos : vf_headerPos v = video_header (zget 0 p);
  va_extra : vf_codec v = AVC → vf_extraData v = ztake 4 (zdrop 1 p);
  va_media : filled ts len (zdrop (video_header (zget 0 p)) p) (vf_media v);
}.

Lemma video_header_cases o : (Z.land o 0x0F = AVC ∧ video_header o = 5) ∨ (Z.land o 0x0F ≠ AVC ∧ video_header o = 1).
Proof. unfold video_header. destruct (Z.eqb_spec (Z.land o 0x0F) AVC); auto. Qed.

(** [video_Parse] once the header is taken off. *)
Definition video_media (v : RTMPVideoFrame) (buffer : bytes) (n : Z) : checked (RTMPVideoFrame * Z) :=
  if Zlen buffer =? 0 then Got (v, n - Zlen buffer)
  else let? m := media_Parse buffer (vf_media v) in
       Got (mkVideo (add_media_size (Zlen buffer) m) (vf_codec v) (vf_frameType v) (vf_extraData v)
              (vf_headerPos v), Zlen buffer + (n - Zlen buffer)).

Lemma video_media_filled ts len b v buffer n :
  filled ts len b (vf_media v) → Zlen b + Zlen buffer <= len → len < 2 ^ 32 →
  ∃ m, video_media v buffer n = Got (mkVideo m (vf_codec v) (vf_frameType v) (vf_extraData v) (vf_headerPos v), n) ∧
       filled ts len (b ++ buffer) m.
Proof.
  intros Hf Hl Hb. unfold video_media. destruct (Z.eqb_spec (Zlen buffer) 0) as [Hz|Hz].
  - apply Zlen_zero in Hz as ->. exists (vf_media v). rewrite app_nil_r, Zlen_nil, Z.sub_0_r. by destruct v.
  - destruct (media_Parse_filled ts len b buffer _ Hf Hl Hb) as (m' & -> & Hf'). eexists. split; [|done].
    cbn [cbind]. do 2 f_equal. lia.
Qed.

Lemma video_Parse_new `{Memory} ts len d : 0 < Zlen d →
  video_Parse d (new_video ts len) =
    let codec := Z.land (zget 0 d) 0x0F in
    let type := Z.shiftr (Z.land (zget 0 d) 0xF0) 4 in
    if codec =? AVC then
      let n := if Zlen (zdrop 1 d) <? 4 then Zlen (zdrop 1 d) else 4 in
      video_media (mkVideo (new_media ts len) codec type (write_at 0 (ztake n (zdrop 1 d)) (fresh 4)) (1 + n))
        (zdrop n (zdrop 1 d)) (Zlen d)
    else video_media (mkVideo (new_media ts len) codec type (fresh 4) 1) (zdrop 1 d) (Zlen d).
Proof.
  intros. unfold video_Parse. rewrite (proj2 (Z.eqb_neq _ _)) by lia. cbn [new_video vf_headerPos Z.eqb vf_codec].
  rewrite rd1_in by lia. cbn [cbind vf_headerPos Z.ltb vf_codec vf_extraData vf_media vf_frameType].
  destruct (Z.land (zget 0 d) 15 =? AVC); [|reflexivity]. cbn [andb Z.ltb Z.compare Pos.compare Pos.compare_cont].
  change (5 - 1) with 4. set (n := if _ <? _ then _ else _).
  assert (Hn : 0 <= n <= 4 ∧ n <= Zlen (zdrop 1 d)).
  { pose proof (Zlen_nonneg (zdrop 1 d)). unfold n. destruct (Z.ltb_spec (Zlen (zdrop 1 d)) 4); lia. }
  rewrite rd_copy_in by lia. cbn [cbind]. change (zdrop 0 (zdrop 1 d)) with (zdrop 1 d).
  cbn [new_video vf_extraData]. rewrite wr_copy_in by (rewrite ?Zlen_ztake, ?fresh_length; lia). reflexivity.
Qed.

Lemma video_Parse_first `{Memory} ts len d : len < 2 ^ 32 → video_header (zget 0 d) <= Zlen d <= len →
  ∃ v, video_Parse d (new_video ts len) = Got (v, Zlen d) ∧ video_after ts len d v.
Proof.
  intros Hlen Hd. assert (0 < Zlen d) by (destruct (video_header_cases (zget 0 d)); lia).
  rewrite video_Parse_new by done. cbv zeta.
  assert (H1 : Zlen (zdrop 1 d) = Zlen d - 1) by (rewrite Zlen_zdrop; lia).
  destruct (video_header_cases (zget 0 d)) as [[Hc Hh]|[Hc Hh]]; rewrite Hh in Hd.
  - rewrite (proj2 (Z.eqb_eq _ _) Hc), (proj2 (Z.ltb_ge _ _)) by lia. rewrite zdrop_zdrop by lia.
    edestruct (video_media_filled ts len []) as (m & -> & Hf); [apply new_media_filled; lia| |lia|].
    { rewrite Zlen_nil, Zlen_zdrop; lia. }
    eexists. split; [done|]. split; cbn; rewrite ?Hh; try done. intros _.
    apply write_at_whole. rewrite Zlen_ztake, fresh_length; lia.
  - rewrite (proj2 (Z.eqb_neq _ _) Hc).
    edestruct (video_media_filled ts len []) as (m & -> & Hf); [apply new_media_filled; lia| |lia|].
    { rewrite Zlen_nil. lia. }
    eexists. split; [done|]. split; cbn; rewrite ?Hh; done.
Qed.

Lemma video_Parse_next ts len p d v :
  video_after ts len p v → len < 2 ^ 32 → video_header (zget 0 p) <= Zlen p → Zlen p + Zlen d <= len →
  ∃ v', video_Parse d v = Got (v', Zlen d) ∧ video_after ts len (p ++ d) v'.
Proof.
  intros [H1 H2 H3 H4 H5] Hlen Hp Hd. pose proof (video_header_cases (zget 0 p)) as Hh. pose proof (Zlen_nonneg d).
  unfold video_Parse. destruct (Z.eqb_spec (Zlen d) 0) as [Hz|Hz].
  { rewrite Hz. apply Zlen_zero in Hz as ->. exists v. by rewrite app_nil_r. }
  rewrite (proj2 (Z.eqb_neq (vf_headerPos v) 0)) by lia. cbn [cbind].
  assert ((vf_headerPos v <? 5) && (vf_codec v =? AVC) = false) as ->.
  { apply andb_false_iff. destruct Hh as [[Hc Hh]|[Hc Hh]].
    - left. apply Z.ltb_ge. lia.
    - right. apply Z.eqb_neq. congruence. }
  cbn [cbind]. fold (video_media v d (Zlen d)).
  destruct (video_media_filled ts len _ v d (Zlen d) H5) as (m & -> & Hf); [rewrite Zlen_zdrop; lia|done|].
  eexists. split; [done|].
  split; cbn [vf_codec vf_frameType vf_extraData vf_headerPos vf_media]; rewrite ?zget_app_0 by lia; try done.
  - intros Hc. rewrite H4 by done. rewrite zdrop_app_l by lia.
    rewrite ztake_app_l; [done|]. rewrite Zlen_zdrop; destruct Hh as [[? ?]|[? ?]]; first [lia | congruence].
  - by rewrite zdrop_app_l by lia.
Qed.

(** ** Audio *)

Definition audio_header (o : Z) : Z := if Z.shiftr o 4 =? AAC then 2 else 1.

Record audio_after (ts len : Z) (p : bytes) (a : RTMPAudioFrame) : Prop := mkAudioAfter {
  aa_codec : af_codec a = Z.shiftr (zget 0 p) 4;
  aa_rate : af_rate a = Z.land (Z.shiftr (zget 0 p) 2) 0x03;
  aa_sample : af_sample16bits a = Z.testbit (zget 0 p) 1;
  aa_stereo : af_stereo a = Z.testbit (zget 0 p) 0;
  aa_pos : af_headerPos a = audio_header (zget 0 p) - 1;
  aa_extra : af_codec a = AAC → af_extraData a = zget 1 p;
  aa_media : filled ts len (zdrop (audio_header (zget 0 p)) p) (af_media a);
}.

Lemma audio_header_cases o : (Z.shiftr o 4 = AAC ∧ audio_header o = 2) ∨ (Z.shiftr o 4 ≠ AAC ∧ audio_header o = 1).
Proof. unfold audio_header. destruct (Z.eqb_spec (Z.shiftr o 4) AAC); auto. Qed.

(** The first piece: with less than an octet of media the next one would start over. *)
Lemma audio_Parse_first `{Memory} ts len d : len < 2 ^ 32 → audio_header (zget 0 d) < Zlen d <= len →
  ∃ a, audio_Parse d (new_audio ts len) = Got (a, Zlen d) ∧ audio_after ts len d a.
Proof.
  intros Hlen Hd. assert (1 < Zlen d) by (destruct (audio_header_cases (zget 0 d)); lia).
  assert (H1 : Zlen (zdrop 1 d) = Zlen d - 1) by (rewrite Zlen_zdrop; lia).
  unfold audio_Parse. rewrite (proj2 (Z.eqb_neq _ _)) by lia.
  cbn [new_audio af_media new_media mf_pos Z.eqb af_codec af_headerPos]. rewrite rd1_in by lia. cbn [cbind af_codec af_headerPos].
  rewrite (proj2 (Z.eqb_neq (Zlen (zdrop 1 d)) 0)) by lia.
  destruct (audio_header_cases (zget 0 d)) as [[Hc Hh]|[Hc Hh]]; rewrite Hh in Hd.
  - rewrite (proj2 (Z.eqb_eq _ _) Hc), andb_true_l. cbn [Z.eqb]. rewrite rd1_in by lia. cbn [cbind af_media]. rewrite zdrop_zdrop by lia.
    destruct (media_Parse_filled ts len [] (zdrop 2 d) (new_media ts len)) as (m & Hm & Hf);
      [apply new_media_filled; lia|rewrite Zlen_nil, Zlen_zdrop; lia|lia|].
    change (media_Parse _ _) with (media_Parse (zdrop 2 d) (new_media ts len)). rewrite Hm. cbn [cbind]. eexists. split; [do 2 f_equal; lia|].
    split; cbn [af_codec af_rate af_sample16bits af_stereo af_headerPos af_extraData af_media]; rewrite ?Hh; try done.
    intros _. by rewrite zget_zdrop by lia.
  - rewrite (proj2 (Z.eqb_neq _ _) Hc), andb_false_l. cbn [cbind af_media].
    destruct (media_Parse_filled ts len [] (zdrop 1 d) (new_media ts len)) as (m & Hm & Hf);
      [apply new_media_filled; lia|rewrite Zlen_nil, Zlen_zdrop; lia|lia|].
    change (media_Parse _ _) with (media_Parse (zdrop 1 d) (new_media ts len)). rewrite Hm. cbn [cbind]. eexists. split; [do 2 f_equal; lia|].
    split; cbn; rewrite ?Hh; done.
Qed.

Lemma audio_Parse_next ts len p d a :
  audio_after ts len p a → len < 2 ^ 32 → audio_header (zget 0 p) < Zlen p → Zlen p + Zlen d <= len →
  ∃ a', audio_Parse d a = Got (a', Zlen d) ∧ audio_after ts len (p ++ d) a'.
Proof.
  intros [H1 H2 H3 H4 H5 H6 H7] Hlen Hp Hd. pose proof (audio_header_cases (zget 0 p)) as Hh. pose proof (Zlen_nonneg d).
  unfold audio_Parse. destruct (Z.eqb_spec (Zlen d) 0) as [Hz|Hz].
  { rewrite Hz. apply Zlen_zero in Hz as ->. exists a. by rewrite app_nil_r. }
  rewrite (fl_pos _ _ _ _ H7), Zlen_zdrop by lia. rewrite (proj2 (Z.eqb_neq (Zlen p - _) 0)) by lia.
  cbn [cbind]. rewrite (proj2 (Z.eqb_neq (Zlen d) 0)) by lia.
  assert ((af_codec a =? AAC) && (af_headerPos a =? 0) = false) as ->.
  { apply andb_false_iff. destruct Hh as [[Hc Hh]|[Hc Hh]].
    - right. apply Z.eqb_neq. lia.
    - left. apply Z.eqb_neq. congruence. }
  cbn [cbind]. destruct (media_Parse_filled ts len _ d _ H7) as (m & -> & Hf); [rewrite Zlen_zdrop; lia|done|].
  cbn [cbind]. eexists. split; [do 2 f_equal; lia|].
  split; cbn [af_codec af_rate af_sample16bits af_stereo af_headerPos af_extraData af_media]; rewrite ?zget_app_0 by lia; try done.
  - intros Hc. rewrite H6 by done. rewrite zget_app_l; [done|]. lia.
  - by rewrite zdrop_app_l by lia.
Qed.

(** ** Frames *)

Definition new_frame `{Memory} (video : bool) (ts len : Z) : RTMPFrame :=
  if video then VideoFrame (new_video ts len) else AudioFrame (new_audio ts len).

Definition is_video (f : RTMPFrame) : bool := match f with VideoFrame _ => true | AudioFrame _ => false end.

Definition frame_after (ts len : Z) (p : bytes) (f : RTMPFrame) : Prop :=
  match f with VideoFrame v => video_after ts len p v | AudioFrame a => audio_after ts len p a end.

(** How much of a message its first piece has to bring, with the octet [o] first. *)
Definition first_piece (video : bool) (o : Z) : Z := if video then video_header o else audio_header o + 1.

Lemma first_piece_range video o : 1 <= first_piece video o <= 5.
Proof.
  unfold first_piece. destruct video; [destruct (video_header_cases o)|destruct (audio_header_cases o)]; lia.
Qed.

Lemma frame_Parse_first `{Memory} video ts len d : len < 2 ^ 32 → first_piece video (zget 0 d) <= Zlen d <= len →
  ∃ f, frame_Parse d (new_frame video ts len) = Got (f, Zlen d) ∧ frame_after ts len d f ∧ is_video f = video.
Proof.
  intros Hlen Hd. unfold first_piece in Hd. destruct video; cbn [frame_Parse new_frame].
  - destruct (video_Parse_first ts len d Hlen Hd) as (v & -> & Hv). by exists (VideoFrame v).
  - destruct (audio_Parse_first ts len d Hlen) as (a & -> & Ha); [lia|]. by exists (AudioFrame a).
Qed.

Lemma frame_Parse_next ts len p d f :
  frame_after ts len p f → len < 2 ^ 32 → first_piece (is_video f) (zget 0 p) <= Zlen p → Zlen p + Zlen d <= len →
  ∃ f', frame_Parse d f = Got (f', Zlen d) ∧ frame_after ts len (p ++ d) f' ∧ is_video f' = is_video f.
Proof.
  intros Hf Hlen Hp Hd. destruct f as [v|a]; unfold first_piece in Hp; cbn [frame_Parse is_video frame_after] in *.
  - destruct (video_Parse_next ts len p d v Hf Hlen Hp Hd) as (v' & -> & Hv). by exists (VideoFrame v').
  - destruct (audio_Parse_next ts len p d a Hf Hlen) as (a' & -> & Ha); [lia..|]. by exists (AudioFrame a').
Qed.

(** ** What a frame says *)

(** The fields of a frame that its octets carry. *)
Inductive FrameView :=
  | VideoView (codec frameType : Z) (extra : option bytes) (data : bytes)
  | AudioView (codec rate : Z) (sample16bits stereo : bool) (extra : option Z) (data : bytes).

Definition frame_view (f : RTMPFrame) : FrameView :=
  match f with
  | VideoFrame v =>
      VideoView (vf_codec v) (vf_frameType v) (if vf_codec v =? AVC then Some (vf_extraData v) else None)
        (media_data (vf_media v))
  | AudioFrame a =>
      AudioView (af_codec a) (af_rate a) (af_sample16bits a) (af_stereo a)
        (if af_codec a =? AAC then Some (af_extraData a) else None) (media_data (af_media a))
  end.

(** A frame whose fields fit their bits and that has media. *)
Definition writable (f : RTMPFrame) : Prop :=
  0 < mf_mediaSize (frame_media f) <= Zlen (mf_buffer (frame_media f)) ∧
  match f with
  | VideoFrame v => 0 <= vf_codec v < 16 ∧ 0 <= vf_frameType v < 16 ∧ Zlen (vf_extraData v) = 4
  | AudioFrame a => 0 <= af_codec a < 16 ∧ 0 <= af_rate a < 4
  end.

Definition frame_octets (f : RTMPFrame) : bytes := frame_Serialize f (frame_GetSize f).

Lemma media_data_length m : 0 < mf_mediaSize m <= Zlen (mf_buffer m) → Zlen (media_data m) = mf_mediaSize m.
Proof. intros. unfold media_data. rewrite Zlen_ztake; lia. Qed.

Lemma Zrange (P : Z → Prop) k : Forall P (seqZ 0 k) → ∀ n, 0 <= n < k → P n.
Proof. intros HP n Hn. rewrite Forall_forall in HP. apply HP, elem_of_seqZ. lia. Qed.

Lemma video_octet t c : 0 <= t < 16 → 0 <= c < 16 →
  let o := to_byte (Z.lor (Z.shiftl t 4) (Z.land c 0x0F)) in
  Z.land o 0x0F = c ∧ Z.shiftr (Z.land o 0xF0) 4 = t.
Proof.
  intros Ht Hc. revert t Ht. apply (Zrange _ 16). revert c Hc. apply (Zrange _ 16). repeat constructor.
Qed.

Lemma audio_octet c r (s16 st : bool) : 0 <= c < 16 → 0 <= r < 4 →
  let o := to_byte (Z.lor (Z.lor (Z.lor (Z.shiftl c 4) (Z.shiftl r 2)) (Z.shiftl (Z.b2z s16) 1)) (Z.b2z st)) in
  Z.shiftr o 4 = c ∧ Z.land (Z.shiftr o 2) 0x03 = r ∧ Z.testbit o 1 = s16 ∧ Z.testbit o 0 = st.
Proof.
  intros Hc Hr. revert c Hc. apply (Zrange _ 16). revert r Hr. apply (Zrange _ 4).
  destruct s16, st; repeat constructor.
Qed.

(** The octets of a frame are as many as its size and start with enough of them, and a frame parsed
    from them says what the one that was written says. *)
Lemma frame_octets_length f : writable f →
  Zlen (frame_octets f) = frame_GetSize f ∧ first_piece (is_video f) (zget 0 (frame_octets f)) <= Zlen (frame_octets f).
Proof.
  intros [Hm Hf]. pose proof (media_data_length _ Hm) as Hd. unfold frame_octets, first_piece.
  destruct f as [v|a]; cbn [frame_Serialize frame_GetSize is_video frame_media] in *.
  - destruct Hf as (Hc & Ht & He). unfold video_Serialize, video_GetSize, video_extra.
    destruct (video_octet _ _ Ht Hc) as [Ho _].
    destruct (Z.eqb_spec (vf_codec v) AVC) as [Hk|Hk]; cbn [negb]; rewrite (proj2 (Z.ltb_ge _ _)) by lia;
      rewrite Zlen_cons, Zlen_app, Hd, ?He, ?Zlen_nil; (split; [lia|]).
    all: rewrite zget_0_cons; match goal with |- video_header ?o <= _ => destruct (video_header_cases o) as [[]|[]]; first [lia|congruence] end.
  - destruct Hf as (Hc & Hr). unfold audio_Serialize, audio_GetSize.
    destruct (audio_octet _ _ (af_sample16bits a) (af_stereo a) Hc Hr) as (Ho & _).
    destruct (Z.eqb_spec (af_codec a) AAC) as [Hk|Hk]; cbn [negb]; rewrite (proj2 (Z.ltb_ge _ _)) by lia;
      rewrite Zlen_cons, Zlen_app, Hd, ?Zlen_cons, ?Zlen_nil; (split; [lia|]).
    all: rewrite zget_0_cons; match goal with |- audio_header ?o + 1 <= _ => destruct (audio_header_cases o) as [[]|[]]; first [lia|congruence] end.
Qed.

Lemma frame_octets_view f ts len g : writable f → frame_after ts len (frame_octets f) g → is_video g = is_video f →
  frame_view g = frame_view f ∧ mf_timestamp (frame_media g) = ts.
Proof.
  intros [Hm Hf] Hg Hk. unfold frame_octets in Hg.
  destruct f as [v|a], g as [w|b]; try done; cbn [frame_Serialize frame_GetSize frame_media frame_view frame_after] in *.
  - destruct Hf as (Hc & Ht & He), Hg as [G1 G2 G3 G4 G5].
    destruct (video_octet _ _ Ht Hc) as [Ho1 Ho2]. split; [|apply (fl_ts _ _ _ _ G5)]. apply filled_data in G5.
    unfold video_Serialize, video_GetSize, video_extra in *.
    destruct (Z.eqb_spec (vf_codec v) AVC) as [Ha|Ha]; cbn [negb] in *;
      rewrite (proj2 (Z.ltb_ge _ _)) in * by lia; rewrite zget_0_cons in *; rewrite Ho1 in *; rewrite Ho2 in *.
    + rewrite G1, Ha in *. unfold video_header in G5. rewrite Ho1 in G5. cbn [Z.eqb AVC Pos.eqb] in *.
      f_equal; [done| |].
      * f_equal. rewrite G4 by done. by rewrite zdrop_1_cons, ztake_app.
      * by rewrite G5, (zdrop_cons 4), zdrop_app by lia.
    + rewrite G1 in *. unfold video_header in G5. rewrite Ho1 in G5. rewrite (proj2 (Z.eqb_neq _ _) Ha) in *.
      by f_equal.
  - destruct Hf as (Hc & Hr), Hg as [G1 G2 G3 G4 G5 G6 G7].
    destruct (audio_octet _ _ (af_sample16bits a) (af_stereo a) Hc Hr) as (Ho1 & Ho2 & Ho3 & Ho4).
    split; [|apply (fl_ts _ _ _ _ G7)]. apply filled_data in G7.
    unfold audio_Serialize, audio_GetSize in *.
    destruct (Z.eqb_spec (af_codec a) AAC) as [Ha|Ha]; cbn [negb] in *;
      rewrite (proj2 (Z.ltb_ge _ _)) in * by lia; rewrite zget_0_cons in *;
      rewrite ?Ho1, ?Ho2, ?Ho3, ?Ho4 in *; rewrite G1 in *; unfold audio_header in G7; rewrite Ho1 in G7.
    + rewrite Ha in *. cbn [Z.eqb AAC Pos.eqb] in *. f_equal; [done..|f_equal; by rewrite G6|by rewrite G7].
    + rewrite (proj2 (Z.eqb_neq _ _) Ha) in *. by f_equal.
Qed.
