(* ===== verification/Amf.v ===== *)
(** * AMF values

    src/mcu/src/amf.cpp, src/mcu/include/amf.h: the values of RTMP commands and metadata (AMF 0).
    Every value is an object that is filled by successive calls of [Parse]; a value inside an object
    or an array is the one its [AMFParser] holds.  Strings are read and written by the [UTF8Parser]
    of libmedkit, a parameter: a string is the list of its characters.

    An exception is [Refuse].  [Fault] is a memory error, or a recursion without end; [amf_fuel]
    bounds the loops and the nesting; AmfRead shows that it suffices for the octets of a value. *)

From S2P Require Import Prelude Wire Octets.

Notation wstring := (list Z) (only parsing).

(** ** UTF8Parser, from libmedkit *)

Class UTF8Ops := {
  utf8 : Type;
  utf8_new : utf8;
  utf8_Reset : utf8 → utf8;
  utf8_SetSize : Z → utf8 → utf8;
  utf8_Parse : bytes → utf8 → utf8 * Z;
  utf8_IsParsed : utf8 → bool;
  utf8_GetWString : utf8 → wstring;
  utf8_SetWString : wstring → utf8 → utf8;
  utf8_GetUTF8Size : utf8 → Z;
  utf8_Serialize : utf8 → Z → option bytes;      (** [None] for [-1] *)
}.

(** ** U16Parser, U32Parser and the value of AMFNumber *)

Record uint := mkUint { u_value : Z; u_len : Z }.

Definition u16_new : uint := mkUint 0 2.
Definition u32_new : uint := mkUint 0 4.

(** [while (len && i<size) value |= data\[i++\] << (--len)*8;] *)
Fixpoint uint_Parse (data : bytes) (u : uint) : uint * Z :=
  match data with
  | [] => (u, 0)
  | o :: rest =>
      if u_len u =? 0 then (u, 0)
      else
        let '(u, i) :=
          uint_Parse rest (mkUint (Z.lor (u_value u) (Z.shiftl o (8 * (u_len u - 1)))) (u_len u - 1)) in
        (u, i + 1)
  end.

Definition uint_IsParsed (u : uint) : bool := u_len u =? 0.
Definition uint_SetValue (v : Z) (u : uint) : uint := mkUint v (u_len u).

Definition u16_Serialize `{WireOps} (u : uint) (size : Z) : option bytes :=
  if size <? 2 then None else Some (put2 (u_value u)).
Definition u32_Serialize `{WireOps} (u : uint) (size : Z) : option bytes :=
  if size <? 4 then None else Some (put4 (u_value u)).

(** [U29Parser::Parse], which no other code calls: neither [i] nor [len] moves, so the loop ends only
    on an octet without its first bit. *)
Definition u29_Parse (data : bytes) (value : Z) (last : bool) : checked (Z * bool * Z) :=
  match data with
  | [] => Got (value, last, 0)
  | b :: _ =>
      if last then Got (value, last, 0)
      else if Z.testbit b 7 then Fault
      else Got (to_dword (value + Z.land b 0x7F), true, 0)
  end.

(** ** The number of AMFNumber *)

(** A double: [DFinite neg m e] is [m * 2 ^ e] with the sign [neg]. *)
Inductive double :=
  | DZero (neg : bool)
  | DFinite (neg : bool) (m e : Z)
  | DInf (neg : bool)
  | DNaN.

(** [ldexp(±m, x)] for a mantissa of 53 bits and [x >= -1075]; a half is rounded to even. *)
Definition ldexp53 (neg : bool) (m x : Z) : double :=
  if 972 <=? x then DInf neg
  else if -1074 <=? x then DFinite neg m x
  else DFinite neg (m / 2 + (if Z.odd m && Z.odd (m / 2) then 1 else 0)) (-1074).

(** [AMFNumber::GetNumber] on its 64 bits *)
Definition GetNumber (value : Z) : double :=
  if Z.shiftl 0xFFE 52 <? to_qword (value + value) then DZero false
  else if Z.land value (Z.ones 63) =? 0 then DZero (Z.testbit value 63)
  else
    ldexp53 (Z.testbit value 63) (Z.land value (Z.ones 52) + 2 ^ 52)
      (Z.land (Z.shiftr value 52) 0x7FF - 1075).

(** [AMFNumber::SetNumber]; [frexp] gives a fraction from a half on and the exponent. *)
Definition SetNumber (d : double) : Z :=
  match d with
  | DZero neg => Z.shiftl (Z.b2z neg) 63
  | DInf neg => 0x7FF0000000000000 + Z.shiftl (Z.b2z neg) 63
  | DNaN => 0x7FF0000000000000 + 1
  | DFinite neg m e =>
      let b := Z.log2 m + 1 in
      to_qword (Z.lor (Z.lor (Z.shiftl (Z.b2z neg) 63) (Z.shiftl (e + b + 1022) 52))
        ((if b <=? 53 then m * 2 ^ (53 - b) else m / 2 ^ (b - 53)) - 2 ^ 52))
  end.

(** [(double)n] for an integer that a double holds *)
Definition double_of (n : Z) : double := if n =? 0 then DZero false else DFinite false n 0.

Section Amf.
Context {W : WireOps} {V : MoreWireOps} {U : UTF8Ops}.

(** ** AMFString, also the keys of objects *)

Record AMFStringData := mkStr { s_u16 : uint; s_utf8 : utf8 }.

Definition new_str : AMFStringData := mkStr u16_new utf8_new.
(** [AMFString::Reset]; [AMFString::AMFString] *)
Definition str_Reset (s : AMFStringData) : AMFStringData := mkStr u16_new (utf8_Reset (s_utf8 s)).

Definition str_Parse (data : bytes) (s : AMFStringData) : AMFStringData * Z :=
  let '(s, buffer) :=
    if negb (uint_IsParsed (s_u16 s)) then
      let '(u, copy) := uint_Parse data (s_u16 s) in
      (mkStr u (if uint_IsParsed u then utf8_SetSize (u_value u) (s_utf8 s) else s_utf8 s),
       zdrop copy data)
    else (s, data) in
  let '(s, buffer) :=
    if negb (Zlen buffer =? 0) then
      let '(t, copy) := utf8_Parse buffer (s_utf8 s) in (mkStr (s_u16 s) t, zdrop copy buffer)
    else (s, buffer) in
  (s, Zlen data - Zlen buffer).

Definition str_IsParsed (s : AMFStringData) : bool := utf8_IsParsed (s_utf8 s).
Definition str_GetWString (s : AMFStringData) : wstring := utf8_GetWString (s_utf8 s).
Definition str_GetUTF8Size (s : AMFStringData) : Z := u_value (s_u16 s).
Definition str_SetWString (w : wstring) (s : AMFStringData) : AMFStringData :=
  let t := utf8_SetWString w (s_utf8 s) in
  mkStr (uint_SetValue (to_word (utf8_GetUTF8Size t)) (s_u16 s)) t.
Definition str_GetSize (s : AMFStringData) : Z := utf8_GetUTF8Size (s_utf8 s) + 2 + 1.

(** ** Values *)

Inductive AMFData :=
  | AMFNumber (value : uint)
  | AMFBoolean (len : Z) (value : bool)
  | AMFString (s : AMFStringData)
  | AMFXmlDocument (s : AMFStringData)
  | AMFLongString (u32 : uint) (s : utf8)
  | AMFObject (key : AMFStringData) (marker : bool) (properties : list (wstring * AMFData))
      (propertiesOrder : list wstring) (parser : option AMFData)
  | AMFTypedObject (u16 : uint) (name : utf8)
  | AMFEcmaArray (num : uint) (key : AMFStringData) (marker : bool)
      (elements : list (wstring * AMFData)) (parser : option AMFData)
  | AMFStrictArray (num : uint) (cur : Z) (elements : list AMFData) (parser : option AMFData)
  | AMFDate (len : Z) (value : bytes)
  | AMFReference (len value : Z)
  | AMFMovieClip
  | AMFNull
  | AMFUndefined
  | AMFUnsupported
  | AMFRecordSet.

(** [AMFData::ValueType] *)
Inductive ValueType :=
  | TNumber | TBoolean | TString | TObject | TMovieClip | TNull | TUndefined | TReference
  | TEcmaArray | TStrictArray | TDate | TLongString | TUnsupported | TRecordSet | TXmlDocument
  | TTypedObject.

Definition data_GetType (d : AMFData) : ValueType :=
  match d with
  | AMFNumber _ => TNumber
  | AMFBoolean _ _ => TBoolean
  | AMFString _ => TString
  | AMFXmlDocument _ => TXmlDocument
  | AMFLongString _ _ => TLongString
  | AMFObject _ _ _ _ _ => TObject
  | AMFTypedObject _ _ => TTypedObject
  | AMFEcmaArray _ _ _ _ _ => TEcmaArray
  | AMFStrictArray _ _ _ _ => TStrictArray
  | AMFDate _ _ => TDate
  | AMFReference _ _ => TReference
  | AMFMovieClip => TMovieClip
  | AMFNull => TNull
  | AMFUndefined => TUndefined
  | AMFUnsupported => TUnsupported
  | AMFRecordSet => TRecordSet
  end.

#[global] Instance ValueType_eq_dec : EqDecision ValueType.
Proof. solve_decision. Defined.

(** [AMFData::AssertType] *)
Definition AssertType (type : ValueType) (d : AMFData) : checked unit :=
  refuse_if (negb (bool_decide (data_GetType d = type))) (Got tt).

(** The wanted characters of the operator to [std::wstring]. *)
Definition data_wstring (d : AMFData) : checked wstring :=
  match d with
  | AMFString s | AMFXmlDocument s => Got (str_GetWString s)
  | AMFLongString _ s => Got (utf8_GetWString s)
  | _ => Refuse
  end.

Definition data_bool (d : AMFData) : checked bool :=
  match d with AMFBoolean _ b => Got b | _ => Refuse end.

(** [std::map<std::wstring, _>::operator\[\]], in the order of the keys. *)
Fixpoint w_ltb (a b : wstring) : bool :=
  match a, b with
  | [], [] => false
  | [], _ :: _ => true
  | _ :: _, [] => false
  | x :: a, y :: b => (x <? y) || ((x =? y) && w_ltb a b)
  end.
Fixpoint w_set {A} (k : wstring) (v : A) (m : list (wstring * A)) : list (wstring * A) :=
  match m with
  | [] => [(k, v)]
  | (k', v') :: m =>
      if w_ltb k k' then (k, v) :: (k', v') :: m
      else if bool_decide (k = k') then (k, v) :: m
      else (k', v') :: w_set k v m
  end.
Fixpoint w_find {A} (k : wstring) (m : list (wstring * A)) : option A :=
  match m with
  | [] => None
  | (k', v) :: m => if bool_decide (k = k') then Some v else w_find k m
  end.

(** [IsParsed()].  That of a typed object calls itself: the cast to [AMFObject] does not stop the
    dispatch of a virtual method. *)
Definition data_IsParsed (d : AMFData) : checked bool :=
  match d with
  | AMFNumber u => Got (uint_IsParsed u)
  | AMFBoolean len _ => Got (negb (len =? 0))
  | AMFString s | AMFXmlDocument s => Got (str_IsParsed s)
  | AMFLongString _ s => Got (utf8_IsParsed s)
  | AMFObject _ marker _ _ _ => Got marker
  | AMFTypedObject _ _ => Fault
  | AMFEcmaArray num _ marker _ _ => Got (uint_IsParsed num && marker)
  | AMFStrictArray num cur _ _ => Got (cur =? u_value num)
  | AMFDate len _ => Got (len =? 10)
  | AMFReference len _ => Got (len =? 2)
  | AMFMovieClip | AMFNull | AMFUndefined | AMFUnsupported | AMFRecordSet => Got true
  end.

Definition parser_IsParsed (p : option AMFData) : checked bool :=
  match p with None => Got false | Some d => data_IsParsed d end.

(** ** Parsing *)

Definition NumberMarker : Z := 0x00.
Definition BooleanMarker : Z := 0x01.
Definition StringMarker : Z := 0x02.
Definition ObjectMarker : Z := 0x03.
Definition NullMarker : Z := 0x05.
Definition EcmaArrayMarker : Z := 0x08.
Definition ObjectEndMarker : Z := 0x09.
Definition UnsupportedMarker : Z := 0x0D.

Definition new_object : AMFData := AMFObject new_str false [] [] None.
Definition new_ecma : AMFData := AMFEcmaArray u32_new new_str false [] None.

(** The objects [AMFParser::Parse] creates for a marker. *)
Definition new_for_marker (marker : Z) : checked AMFData :=
  match marker with
  | 0x00 => Got (AMFNumber (mkUint 0 8))
  | 0x01 => Got (AMFBoolean 0 false)
  | 0x02 => Got (AMFString new_str)
  | 0x03 => Got new_object
  | 0x04 => Got AMFMovieClip
  | 0x05 => Got AMFNull
  | 0x06 => Got AMFUndefined
  | 0x07 => Got (AMFReference 0 0)
  | 0x08 => Got new_ecma
  | 0x0A => Got (AMFStrictArray u32_new (2 ^ 32 - 1) [] None)
  | 0x0B => Got (AMFDate 0 [])
  | 0x0C => Got (AMFLongString u32_new utf8_new)
  | 0x0D => Got AMFUnsupported
  | 0x0E => Got AMFRecordSet
  | 0x0F => Got (AMFXmlDocument new_str)
  | 0x10 => Got (AMFTypedObject u16_new utf8_new)
  | _ => Refuse
  end.

(** [AMFLongString::Parse] *)
Definition longstr_Parse (data : bytes) (u : uint) (s : utf8) : uint * utf8 * Z :=
  let '(u, s, buffer) :=
    if negb (uint_IsParsed u) then
      let '(u, copy) := uint_Parse data u in
      (u, (if uint_IsParsed u then utf8_SetSize (u_value u) s else s), zdrop copy data)
    else (u, s, data) in
  let '(s, buffer) :=
    if negb (Zlen buffer =? 0) then
      let '(s, copy) := utf8_Parse buffer s in (s, zdrop copy buffer)
    else (s, buffer) in
  (u, s, Zlen data - Zlen buffer).

(** [AMFDate::Parse]: the second loop counts the two octets of the time zone and leaves them. *)
Definition date_Parse (data : bytes) (len : Z) (value : bytes) : Z * bytes * Z :=
  let i := Z.min (Z.max 0 (8 - len)) (Zlen data) in
  let len := len + i in
  ((if (len <? 10) && (i <? Zlen data) then 10 else len), value ++ ztake i data, i).

(** [AMFTypedObject::Parse]: the call it means for the attributes is a call to itself. *)
Fixpoint typed_Parse (fuel : nat) (buffer : bytes) (u : uint) (name : utf8) : checked (uint * utf8) :=
  match fuel with
  | O => Fault
  | S fuel =>
      if Zlen buffer =? 0 then Got (u, name)
      else if negb (uint_IsParsed u) then
        let '(u, copy) := uint_Parse buffer u in
        typed_Parse fuel (zdrop copy buffer) u
          (if uint_IsParsed u then utf8_SetSize (u_value u) name else name)
      else if negb (utf8_IsParsed name) then
        let '(name, copy) := utf8_Parse buffer name in
        typed_Parse fuel (zdrop copy buffer) u name
      else Fault
  end.

(** [AMFParser::Parse], given the [Parse] of the objects. *)
Definition parser_Parse_with (data_Parse : bytes → AMFData → checked (AMFData * Z))
    (data : bytes) (p : option AMFData) : checked (option AMFData * Z) :=
  match p with
  | Some d => let? r := data_Parse data d in Got (Some r.1, r.2)
  | None =>
      let? o := rd1 data 0 in
      let? d := new_for_marker o in
      let? r := data_Parse (zdrop 1 data) d in
      Got (Some r.1, r.2 + 1)
  end.

(** [AMFBoolean::Parse] *)
Definition boolean_Parse (buffer : bytes) (len : Z) (v : bool) : checked (AMFData * bytes) :=
  if Zlen buffer =? 0 then Got (AMFBoolean len v, buffer)
  else refuse_if (negb (len =? 0)) (Got (AMFBoolean 1 (0 <? zget 0 buffer), zdrop 1 buffer)).

(** A round of each loop: [loop] goes on with the octets that remain, [value_Parse] is the [Parse] of
    the member [parser].  The octets returned are those left. *)
Section Rounds.
Context (loop : bytes → AMFData → checked (AMFData * bytes)).
Context (value_Parse : bytes → option AMFData → checked (option AMFData * Z)).

(** [AMFObject::Parse] *)
Definition object_round (buffer : bytes) (key : AMFStringData) (marker : bool)
    (properties : list (wstring * AMFData)) (order : list wstring) (parser : option AMFData)
    : checked (AMFData * bytes) :=
  if Zlen buffer =? 0 then Got (AMFObject key marker properties order parser, buffer)
  else if negb (str_IsParsed key) then
    let '(key, copy) := str_Parse buffer key in
    loop (zdrop copy buffer) (AMFObject key marker properties order parser)
  else if str_GetUTF8Size key =? 0 then
    refuse_if (negb (zget 0 buffer =? ObjectEndMarker))
      (Got (AMFObject key true properties order parser, zdrop 1 buffer))
  else
    let? r := value_Parse buffer parser in
    let? parsed := parser_IsParsed r.1 in
    loop (zdrop r.2 buffer)
      match parsed, r.1 with
      | true, Some v =>
          AMFObject (str_Reset key) marker (w_set (str_GetWString key) v properties)
            (order ++ [str_GetWString key]) None
      | _, _ => AMFObject key marker properties order r.1
      end.

(** [AMFEcmaArray::Parse] *)
Definition ecma_round (buffer : bytes) (num : uint) (key : AMFStringData) (marker : bool)
    (elements : list (wstring * AMFData)) (parser : option AMFData) : checked (AMFData * bytes) :=
  if (Zlen buffer =? 0) || (uint_IsParsed num && marker) then
    Got (AMFEcmaArray num key marker elements parser, buffer)
  else if negb (uint_IsParsed num) then
    let '(num, copy) := uint_Parse buffer num in
    loop (zdrop copy buffer) (AMFEcmaArray num key marker elements parser)
  else if negb (str_IsParsed key) then
    let '(key, copy) := str_Parse buffer key in
    loop (zdrop copy buffer) (AMFEcmaArray num key marker elements parser)
  else if str_GetUTF8Size key =? 0 then
    refuse_if (negb (zget 0 buffer =? ObjectEndMarker))
      (Got (AMFEcmaArray num key true elements parser, zdrop 1 buffer))
  else
    let? r := value_Parse buffer parser in
    let? parsed := parser_IsParsed r.1 in
    loop (zdrop r.2 buffer)
      match parsed, r.1 with
      | true, Some v =>
          AMFEcmaArray num (str_Reset key) marker (w_set (str_GetWString key) v elements) None
      | _, _ => AMFEcmaArray num key marker elements r.1
      end.

(** [AMFStrictArray::Parse]: an array of no element is complete with its size, and then takes another
    value into the block of no element. *)
Definition strict_round (buffer : bytes) (num : uint) (cur : Z) (elements : list AMFData)
    (parser : option AMFData) : checked (AMFData * bytes) :=
  if Zlen buffer =? 0 then Got (AMFStrictArray num cur elements parser, buffer)
  else if negb (uint_IsParsed num) then
    let '(num, copy) := uint_Parse buffer num in
    loop (zdrop copy buffer) (AMFStrictArray num (if uint_IsParsed num then 0 else cur) elements parser)
  else
    let? r := value_Parse buffer parser in
    let? parsed := parser_IsParsed r.1 in
    match parsed, r.1 with
    | true, Some v =>
        if u_value num <=? cur then Fault
        else if cur + 1 =? u_value num then
          Got (AMFStrictArray num (cur + 1) (elements ++ [v]) None, zdrop r.2 buffer)
        else loop (zdrop r.2 buffer) (AMFStrictArray num (cur + 1) (elements ++ [v]) None)
    | _, _ => loop (zdrop r.2 buffer) (AMFStrictArray num cur elements r.1)
    end.
End Rounds.

(** [Parse] by the class of the object, [d] being the object at the top of its loop. *)
Fixpoint data_loop (fuel : nat) (buffer : bytes) (d : AMFData) : checked (AMFData * bytes) :=
  match fuel with
  | O => Fault
  | S fuel =>
      let loop := data_loop fuel in
      let value_Parse := parser_Parse_with (λ data d,
        let? r := loop data d in Got (r.1, Zlen data - Zlen r.2)) in
      match d with
      | AMFNumber u => let '(u, i) := uint_Parse buffer u in Got (AMFNumber u, zdrop i buffer)
      | AMFBoolean len v => boolean_Parse buffer len v
      | AMFString s => let '(s, n) := str_Parse buffer s in Got (AMFString s, zdrop n buffer)
      | AMFXmlDocument s => let '(s, n) := str_Parse buffer s in Got (AMFXmlDocument s, zdrop n buffer)
      | AMFLongString u s =>
          let '(u, s, n) := longstr_Parse buffer u s in Got (AMFLongString u s, zdrop n buffer)
      | AMFObject key marker properties order parser =>
          object_round loop value_Parse buffer key marker properties order parser
      | AMFTypedObject u name =>
          let? r := typed_Parse fuel buffer u name in Got (AMFTypedObject r.1 r.2, [])
      | AMFEcmaArray num key marker elements parser =>
          ecma_round loop value_Parse buffer num key marker elements parser
      | AMFStrictArray num cur elements parser =>
          strict_round loop value_Parse buffer num cur elements parser
      | AMFDate len value =>
          let '(len, value, i) := date_Parse buffer len value in Got (AMFDate len value, zdrop i buffer)
      | AMFReference _ _ => Fault
      | AMFMovieClip | AMFNull | AMFUndefined | AMFUnsupported | AMFRecordSet => Got (d, buffer)
      end
  end.

(** What the object wants before it can be read: the nesting of the values under construction. *)
Fixpoint amf_depth (d : AMFData) : nat :=
  match d with
  | AMFObject _ _ _ _ (Some p) | AMFEcmaArray _ _ _ _ (Some p) | AMFStrictArray _ _ _ (Some p) =>
      S (amf_depth p)
  | _ => O
  end.
Definition parser_depth (p : option AMFData) : nat := from_option (S ∘ amf_depth) O p.

Definition amf_fuel (buffer : bytes) (depth : nat) : nat := 3 * length buffer + 3 * depth + 4.

(** [object->Parse(data, size)] and [AMFParser::Parse] *)
Definition data_Parse (data : bytes) (d : AMFData) : checked (AMFData * Z) :=
  let? r := data_loop (amf_fuel data (amf_depth d)) data d in Got (r.1, Zlen data - Zlen r.2).
Definition parser_Parse : bytes → option AMFData → checked (option AMFData * Z) :=
  parser_Parse_with data_Parse.

(** [AMFParser::GetObject]: the object and what the parser keeps. *)
Definition parser_GetObject (p : option AMFData) : checked (option AMFData * option AMFData) :=
  let? parsed := parser_IsParsed p in
  Got (if parsed then (p, None) else (None, p)).

(** ** Writing *)

(** The size of a key: [key.SetWString(k)] and its [GetUTF8Size]. *)
Definition key_utf8 (k : wstring) : utf8 := utf8_SetWString k utf8_new.

(** The properties in [AMFEcmaArray::GetSize] and [AMFObject::GetSize] *)
Definition properties_size (size_of : AMFData → Z) (m : list (wstring * AMFData)) : Z :=
  foldr (λ '(k, v) n, 2 + utf8_GetUTF8Size (key_utf8 k) + size_of v + n) 0 m.

Fixpoint data_GetSize (d : AMFData) : Z :=
  match d with
  | AMFNumber _ => 9
  | AMFBoolean _ _ => 2
  | AMFString s | AMFXmlDocument s => str_GetSize s
  | AMFObject _ _ properties _ _ =>
      4 + properties_size data_GetSize properties
  | AMFEcmaArray _ _ _ elements _ =>
      8 + properties_size data_GetSize elements
  | _ => 1
  end.

(** Octets appended to those written so far; [-1] is added to the position instead when there is no
    room, and what follows then overwrites what was written. *)
Definition append_octets (done : bytes) (o : option bytes) : checked bytes :=
  match o with Some w => Got (done ++ w) | None => Fault end.

Definition octet_at (size : Z) (done : bytes) (o : Z) : checked bytes :=
  if Zlen done <? size then Got (done ++ [o]) else Fault.

Definition str_Serialize (s : AMFStringData) (size : Z) : checked (option bytes) :=
  if size <? str_GetSize s then Got None
  else
    let? w := append_octets [StringMarker] (u16_Serialize (s_u16 s) (size - 1)) in
    let? w := append_octets w (utf8_Serialize (s_utf8 s) (size - Zlen w)) in
    Got (Some w).

(** A property of an object or of an array: the size of the key, the key, the value. *)
Definition write_property (size : Z) (done : bytes) (k : wstring) (value : Z → checked (option bytes))
    : checked bytes :=
  let key := key_utf8 k in
  let? w := append_octets done (u16_Serialize (mkUint (to_word (utf8_GetUTF8Size key)) 2) (size - Zlen done)) in
  let? w := append_octets w (utf8_Serialize key (size - Zlen w)) in
  let? v := value (size - Zlen w) in
  append_octets w v.

Definition write_end (size : Z) (done : bytes) : checked bytes :=
  let? w := octet_at size done 0 in
  let? w := octet_at size w 0 in
  octet_at size w ObjectEndMarker.

(** [Serialize(data, size)]: the octets written, [None] for [-1]. *)
Fixpoint data_Serialize (d : AMFData) (size : Z) : checked (option bytes) :=
  match d with
  | AMFNumber u => Got (if size <? 9 then None else Some (NumberMarker :: set8 (replicate 8 0) 0 (u_value u)))
  | AMFBoolean _ v => Got (if size <? 2 then None else Some [BooleanMarker; Z.b2z v])
  | AMFString s | AMFXmlDocument s => str_Serialize s size
  | AMFObject _ _ properties order _ =>
      let find := (fix find (k : wstring) (m : list (wstring * AMFData)) (size : Z) :=
        match m with
        | [] => Fault
        | (k', v) :: m => if bool_decide (k = k') then data_Serialize v size else find k m size
        end) in
      let? w := octet_at size [] ObjectMarker in
      let? w := foldl (λ acc k, let? w := acc in
        write_property size w k (find k properties)) (Got w) order in
      let? w := write_end size w in
      Got (Some w)
  | AMFEcmaArray num _ _ elements _ =>
      if size <? data_GetSize d then Got (Some [])
      else
        let? w := append_octets [EcmaArrayMarker] (u32_Serialize (mkUint (Zlen elements) (u_len num)) (size - 1)) in
        let? w := (fix write (m : list (wstring * AMFData)) (w : bytes) : checked bytes :=
          match m with
          | [] => Got w
          | (k, v) :: m =>
              let? w := write_property size w k (data_Serialize v) in write m w
          end) elements w in
        let? w := write_end size w in
        Got (Some w)
  | AMFNull => Got (if size =? 0 then None else Some [NullMarker])
  | _ => Got (if size =? 0 then None else Some [UnsupportedMarker])
  end.

(** ** Building values *)

Definition make_string (w : wstring) : AMFData := AMFString (str_SetWString w new_str).
Definition make_number (d : double) : AMFData := AMFNumber (mkUint (SetNumber d) 8).
Definition make_boolean (b : bool) : AMFData := AMFBoolean 0 b.

(** [AMFObject::AddProperty] and [AMFEcmaArray::AddProperty] *)
Definition AddProperty (k : wstring) (v d : AMFData) : AMFData :=
  match d with
  | AMFObject key marker properties order parser =>
      AMFObject key marker (w_set k v properties) (order ++ [k]) parser
  | AMFEcmaArray num key marker elements parser =>
      AMFEcmaArray num key marker (w_set k v elements) parser
  | _ => d
  end.

Definition HasProperty (k : wstring) (d : AMFData) : bool :=
  match d with
  | AMFObject _ _ properties _ _ => bool_decide (is_Some (w_find k properties))
  | AMFEcmaArray _ _ _ elements _ => bool_decide (is_Some (w_find k elements))
  | _ => false
  end.

Definition GetProperty (k : wstring) (d : AMFData) : checked AMFData :=
  match d with
  | AMFObject _ _ m _ _ | AMFEcmaArray _ _ _ m _ =>
      match w_find k m with Some v => Got v | None => Fault end
  | _ => Fault
  end.

(** [Clone()]: classes that do not override it give a null. *)
Fixpoint data_Clone (d : AMFData) : AMFData :=
  match d with
  | AMFNumber u => make_number (GetNumber (u_value u))
  | AMFBoolean _ v => make_boolean v
  | AMFString s | AMFXmlDocument s => make_string (str_GetWString s)
  | AMFObject _ _ properties order _ =>
      let clones := (fix clones (m : list (wstring * AMFData)) :=
        match m with [] => [] | (k, v) :: m => (k, data_Clone v) :: clones m end) properties in
      foldl (λ o k, match w_find k clones with Some v => AddProperty k v o | None => o end)
        new_object order
  | AMFEcmaArray _ _ _ elements _ =>
      (fix clone (m : list (wstring * AMFData)) (a : AMFData) :=
        match m with [] => a | (k, v) :: m => clone m (AddProperty k (data_Clone v) a) end)
        elements new_ecma
  | _ => AMFNull
  end.
End Amf.
