(* ===== verification/AmfRead.v ===== *)
(** * AMF: values are read as written

    What a value is apart from the object that holds it, the octets of AMF 0 that stand for it, and
    the lemmas on the parts: integers, strings and keys, lists of properties.

    The object built for a value has the size of its octets and writes them.

    [AMFParser::Parse] on the octets of a value, whatever follows them, gives an object that holds the
    value and takes those octets; the fuel of the model is enough. *)

From S2P Require Import Prelude Wire Octets BitStreamClaims RtmpMediaProps Amf.

(** ** UTF8Parser *)

(** The characters of Unicode and their octets in UTF-8 (RFC 3629). *)
Definition is_char (c : Z) : Prop := 0 <= c < 0xD800 ∨ 0xE000 <= c < 0x110000.
Definition unicode (w : wstring) : Prop := Forall is_char w.

Definition utf8_char (c : Z) : bytes :=
  if c <? 0x80 then [c]
  else if c <? 0x800 then [0xC0 + c / 64; 0x80 + c mod 64]
  else if c <? 0x10000 then [0xE0 + c / 4096; 0x80 + c / 64 mod 64; 0x80 + c mod 64]
  else [0xF0 + c / 262144; 0x80 + c / 4096 mod 64; 0x80 + c / 64 mod 64; 0x80 + c mod 64].

Definition utf8_octets (w : wstring) : bytes := w ≫= utf8_char.

Lemma utf8_char_nonempty c : 0 < Zlen (utf8_char c).
Proof. unfold utf8_char. repeat case_goal; done. Qed.

Lemma utf8_empty w : Zlen (utf8_octets w) = 0 ↔ w = [].
Proof.
  split; [|by intros ->]. destruct w as [|c w]; [done|]. unfold utf8_octets. rewrite bind_cons, Zlen_app.
  pose proof (utf8_char_nonempty c). pose proof (Zlen_nonneg (w ≫= utf8_char)). lia.
Qed.

(** What amf.cpp relies on in the parser of libmedkit: a string of Unicode characters is written in
    UTF-8, in as many octets as it announces; a parser told their number takes them and no more, holds
    the string and is complete then, or at once when there are none; it is not complete before it is
    told. *)
Class UTF8Laws (U : UTF8Ops) := {
  utf8_size w u : unicode w → utf8_GetUTF8Size (utf8_SetWString w u) = Zlen (utf8_octets w);
  utf8_written w u size : unicode w → Zlen (utf8_octets w) <= size →
    utf8_Serialize (utf8_SetWString w u) size = Some (utf8_octets w);
  utf8_read w u rest : unicode w →
    ∃ u', utf8_Parse (utf8_octets w ++ rest) (utf8_SetSize (Zlen (utf8_octets w)) u) = (u', Zlen (utf8_octets w)) ∧
      utf8_IsParsed u' = true ∧ utf8_GetWString u' = w;
  utf8_none u : utf8_IsParsed (utf8_SetSize 0 u) = true ∧ utf8_GetWString (utf8_SetSize 0 u) = [];
  utf8_new_waits : utf8_IsParsed utf8_new = false;
  utf8_reset_waits u : utf8_IsParsed (utf8_Reset u) = false;
}.

(** ** Integers *)

(** Octets as a number, the most significant first. *)
Fixpoint be_val (w : bytes) : Z :=
  match w with [] => 0 | o :: w => o * 256 ^ Zlen w + be_val w end.

Lemma be_val_range w : bytes_ok w → 0 <= be_val w < 256 ^ Zlen w.
Proof.
  induction 1 as [|o w Ho Hw IH]; [done|]. cbn [be_val]. rewrite Zlen_cons. unfold is_byte in Ho.
  pose proof (Zlen_nonneg w). rewrite Z.pow_add_r by lia. change (256 ^ 1) with 256. nia.
Qed.

Lemma be_val_snoc w o : be_val (w ++ [o]) = be_val w * 256 + o.
Proof.
  induction w as [|p w IH]; cbn [be_val app]; [rewrite Zlen_nil; lia|].
  rewrite IH, Zlen_app, Zlen_cons, Zlen_nil. pose proof (Zlen_nonneg w). rewrite Z.pow_add_r by lia. change (256 ^ (1 + 0)) with 256. lia.
Qed.

Lemma be_val_get w : be_get (length w) w 0 = be_val w.
Proof.
  induction w as [|o w IH] using rev_ind; [done|].
  rewrite length_app, Nat.add_1_r, be_get_S, be_get_app, IH, be_val_snoc; [|lia|unfold Zlen; lia].
  f_equal. rewrite Z.add_0_l. fold (Zlen w). apply (zget_at w o []).
Qed.

(** [Parse] of an integer that wants as many octets as it is given. *)
Lemma uint_Parse_octets w rest : bytes_ok w → ∀ q,
  uint_Parse (w ++ rest) (mkUint (q * 256 ^ Zlen w) (Zlen w)) = (mkUint (q * 256 ^ Zlen w + be_val w) 0, Zlen w).
Proof.
  induction 1 as [|o w Ho Hw IH]; intros q.
  - cbn [app be_val]. rewrite Zlen_nil, Z.add_0_r. destruct rest; done.
  - cbn [app uint_Parse u_len u_value be_val]. rewrite Zlen_cons. pose proof (Zlen_nonneg w).
    rewrite (proj2 (Z.eqb_neq _ _)) by lia. replace (1 + Zlen w - 1) with (Zlen w) by lia.
    assert (Hp : 256 ^ (1 + Zlen w) = 256 * 256 ^ Zlen w) by (rewrite Z.pow_add_r by lia; done).
    assert (H2 : 2 ^ (8 * Zlen w) = 256 ^ Zlen w) by (rewrite Z.pow_mul_r by lia; done).
    assert (Hor : Z.lor (q * 256 ^ (1 + Zlen w)) (Z.shiftl o (8 * Zlen w)) = (q * 256 + o) * 256 ^ Zlen w).
    { replace (q * 256 ^ (1 + Zlen w)) with (Z.shiftl (q * 256) (8 * Zlen w)) by (rewrite Z.shiftl_mul_pow2, H2, Hp by lia; lia).
      rewrite <- Z.shiftl_lor, Z.shiftl_mul_pow2, H2 by lia. f_equal.
      pose proof (lor_shiftl q o 8) as Hl. rewrite Z.shiftl_mul_pow2 in Hl by lia. unfold is_byte in Ho. apply Hl; lia. }
    rewrite Hor, IH. f_equal; [f_equal; lia|lia].
Qed.

Section Octets.
Context {W : WireOps} {V : MoreWireOps} {HN : NetworkOrder W V}.

Definition put8 (v : Z) : bytes := set8 (replicate 8 0) 0 v.

Lemma zeros_ok n : bytes_ok (replicate n 0).
Proof. apply Forall_replicate. unfold is_byte. lia. Qed.

Lemma be_put_val n v : be_val (be_put n (replicate n 0) 0 v) = v mod 256 ^ Z.of_nat n ∧
  Zlen (be_put n (replicate n 0) 0 v) = Z.of_nat n ∧ bytes_ok (be_put n (replicate n 0) 0 v).
Proof.
  assert (Hl : Zlen (be_put n (replicate n 0) 0 v) = Z.of_nat n) by (by rewrite be_put_length, Zlen_replicate).
  split; [|split; [done|apply be_put_bytes, zeros_ok]].
  rewrite <- be_val_get. replace (length _) with n by (unfold Zlen in Hl; lia).
  apply be_get_put; [done|]. by rewrite Zlen_replicate.
Qed.

(** An integer that was written is read back, whatever follows. *)
Lemma uint_read n v rest : 0 <= v < 256 ^ Z.of_nat n →
  uint_Parse (be_put n (replicate n 0) 0 v ++ rest) (mkUint 0 (Z.of_nat n)) = (mkUint v 0, Z.of_nat n).
Proof.
  intros Hv. destruct (be_put_val n v) as (H1 & H2 & H3). pose proof (uint_Parse_octets _ rest H3 0) as H.
  rewrite H2, H1, Z.mul_0_l, Z.add_0_l, Z.mod_small in H by lia. exact H.
Qed.

Lemma u16_read v rest : 0 <= v < 2 ^ 16 → uint_Parse (put2 v ++ rest) u16_new = (mkUint v 0, 2).
Proof. intros. unfold put2. rewrite set2_be. by apply (uint_read 2). Qed.

Lemma u32_read v rest : 0 <= v < 2 ^ 32 → uint_Parse (put4 v ++ rest) u32_new = (mkUint v 0, 4).
Proof. intros. unfold put4. rewrite set4_be. by apply (uint_read 4). Qed.

Lemma number_read v rest : 0 <= v < 2 ^ 64 → uint_Parse (put8 v ++ rest) (mkUint 0 8) = (mkUint v 0, 8).
Proof. intros. unfold put8. rewrite set8_be. by apply (uint_read 8). Qed.

Lemma put2_length v : Zlen (put2 v) = 2.
Proof. unfold put2. rewrite set2_be. by rewrite be_put_length. Qed.
Lemma put4_length v : Zlen (put4 v) = 4.
Proof. unfold put4. rewrite set4_be. by rewrite be_put_length. Qed.
Lemma put8_length v : Zlen (put8 v) = 8.
Proof. unfold put8. rewrite set8_be. by rewrite be_put_length. Qed.
End Octets.

(** ** Values *)

Inductive amf_value :=
  | VNumber (bits : Z)
  | VBoolean (b : bool)
  | VString (w : wstring)
  | VNull
  | VObject (properties : list (wstring * amf_value))
  | VEcmaArray (elements : list (wstring * amf_value)).

(** Induction that goes through the properties. *)
Fixpoint amf_value_nested (P : amf_value → Prop)
    (HN : ∀ n, P (VNumber n)) (HB : ∀ b, P (VBoolean b)) (HS : ∀ w, P (VString w)) (H0 : P VNull)
    (HO : ∀ l, Forall (λ p, P p.2) l → P (VObject l)) (HE : ∀ l, Forall (λ p, P p.2) l → P (VEcmaArray l))
    (v : amf_value) : P v :=
  let all := fix all (l : list (wstring * amf_value)) : Forall (λ p, P p.2) l :=
    match l with
    | [] => List.Forall_nil _
    | p :: l => List.Forall_cons _ p l (amf_value_nested P HN HB HS H0 HO HE p.2) (all l)
    end in
  match v with
  | VNumber n => HN n
  | VBoolean b => HB b
  | VString w => HS w
  | VNull => H0
  | VObject l => HO l (all l)
  | VEcmaArray l => HE l (all l)
  end.

Section Values.
Context {W : WireOps} {V : MoreWireOps} {U : UTF8Ops} {UL : UTF8Laws U} {HN : NetworkOrder W V}.

(** The octets of AMF 0. *)
Definition string_octets (w : wstring) : bytes := put2 (Zlen (utf8_octets w)) ++ utf8_octets w.
Definition end_octets : bytes := [0; 0; ObjectEndMarker].

Fixpoint amf_octets (v : amf_value) : bytes :=
  match v with
  | VNumber n => NumberMarker :: put8 n
  | VBoolean b => [BooleanMarker; Z.b2z b]
  | VString w => StringMarker :: string_octets w
  | VNull => [NullMarker]
  | VObject l => ObjectMarker :: (l ≫= λ p, string_octets p.1 ++ amf_octets p.2) ++ end_octets
  | VEcmaArray l => EcmaArrayMarker :: put4 (Zlen l) ++ (l ≫= λ p, string_octets p.1 ++ amf_octets p.2) ++ end_octets
  end.

(** Numbers of 64 bits, strings whose size fits, keys that are not empty and not repeated, those of an
    array in the order of the map. *)
Definition string_fits (w : wstring) : Prop := unicode w ∧ Zlen (utf8_octets w) < 2 ^ 16.
Definition key_fits (k : wstring) : Prop := k ≠ [] ∧ string_fits k.
Definition w_sorted (l : list wstring) : Prop := StronglySorted (λ a b, w_ltb a b = true) l.

Fixpoint amf_ok (v : amf_value) : Prop :=
  match v with
  | VNumber n => 0 <= n < 2 ^ 64
  | VBoolean _ | VNull => True
  | VString w => string_fits w
  | VObject l => NoDup l.*1 ∧ foldr (λ p P, key_fits p.1 ∧ amf_ok p.2 ∧ P) True l
  | VEcmaArray l => w_sorted l.*1 ∧ Zlen l < 2 ^ 32 ∧ foldr (λ p P, key_fits p.1 ∧ amf_ok p.2 ∧ P) True l
  end.

(** The object a program builds for a value. *)
Fixpoint build (v : amf_value) : AMFData :=
  match v with
  | VNumber n => AMFNumber (mkUint n 8)
  | VBoolean b => make_boolean b
  | VString w => make_string w
  | VNull => AMFNull
  | VObject l => foldl (λ o p, AddProperty p.1 (build p.2) o) new_object l
  | VEcmaArray l => foldl (λ o p, AddProperty p.1 (build p.2) o) new_ecma l
  end.

(** The value that an object holds, by its getters. *)
Fixpoint read_value (d : AMFData) : option amf_value :=
  let values := fix values (m : list (wstring * AMFData)) : list (wstring * option amf_value) :=
    match m with [] => [] | (k, d) :: m => (k, read_value d) :: values m end in
  match d with
  | AMFNumber u => Some (VNumber (u_value u))
  | AMFBoolean _ b => Some (VBoolean b)
  | AMFString s => Some (VString (str_GetWString s))
  | AMFNull => Some VNull
  | AMFObject _ _ m order _ =>
      VObject <$> mapM (λ k, v ← mjoin (w_find k (values m)); Some (k, v)) order
  | AMFEcmaArray _ _ _ m _ => VEcmaArray <$> mapM (λ p, v ← p.2; Some (p.1, v)) (values m)
  | _ => None
  end.

(** ** Maps *)

Lemma w_find_set_eq {A} k (v : A) m : w_find k (w_set k v m) = Some v.
Proof.
  induction m as [|[k' v'] m IH]; cbn; [by rewrite bool_decide_true|].
  case_match; cbn; [by rewrite bool_decide_true|]. destruct (bool_decide_reflect (k = k')); cbn; [by rewrite bool_decide_true|].
  by rewrite bool_decide_false.
Qed.

Lemma w_find_set_ne {A} j k (v : A) m : j ≠ k → w_find j (w_set k v m) = w_find j m.
Proof.
  intros Hj. induction m as [|[k' v'] m IH]; cbn; [by rewrite bool_decide_false|].
  case_match; cbn; [by rewrite (bool_decide_false (j = k))|]. destruct (bool_decide_reflect (k = k')) as [<-|]; cbn.
  - by rewrite bool_decide_false.
  - by rewrite IH.
Qed.

Lemma w_set_perm {A} k (v : A) m : w_find k m = None → w_set k v m ≡ₚ (k, v) :: m.
Proof.
  induction m as [|[k' v'] m IH]; cbn; [done|]. destruct (bool_decide_reflect (k = k')) as [|Hk]; [done|].
  intros Hn. case_match; [done|]. rewrite IH by done. apply Permutation_swap.
Qed.

Lemma w_ltb_irrefl a : w_ltb a a = false.
Proof. induction a as [|x a IH]; cbn; [done|]. by rewrite Z.ltb_irrefl, Z.eqb_refl, IH. Qed.

Lemma w_ltb_asym a b : w_ltb a b = true → w_ltb b a = false.
Proof.
  revert b. induction a as [|x a IH]; intros [|y b]; cbn; try done.
  intros [H|[H1 H2]%andb_true_iff]%orb_true_iff; ztests.
  - rewrite (proj2 (Z.ltb_ge _ _)), (proj2 (Z.eqb_neq _ _)) by lia. done.
  - subst. by rewrite Z.ltb_irrefl, Z.eqb_refl, IH.
Qed.

(** A key above all others goes to the end. *)
Lemma w_set_last {A} k (v : A) m : Forall (λ j, w_ltb j k = true) m.*1 → w_set k v m = m ++ [(k, v)].
Proof.
  induction m as [|[k' v'] m IH]; cbn; [done|]. intros [Hk Hm]%Forall_cons. rewrite (w_ltb_asym _ _ Hk).
  rewrite bool_decide_false by (intros ->; by rewrite w_ltb_irrefl in Hk). by rewrite IH.
Qed.

Definition set_all {A} (l m : list (wstring * A)) : list (wstring * A) := foldl (λ m p, w_set p.1 p.2 m) m l.

Lemma set_all_cons {A} k (v : A) l m : set_all ((k, v) :: l) m = set_all l (w_set k v m).
Proof. done. Qed.

Lemma set_all_ne {A} k (l m : list (wstring * A)) : k ∉ l.*1 → w_find k (set_all l m) = w_find k m.
Proof.
  revert m. induction l as [|[j v] l IH]; intros m Hk; [done|]. rewrite set_all_cons. cbn in Hk. apply not_elem_of_cons in Hk as [H1 H2].
  rewrite IH by done. by apply w_find_set_ne.
Qed.

Lemma set_all_find {A} k v (l m : list (wstring * A)) : NoDup l.*1 → (k, v) ∈ l → w_find k (set_all l m) = Some v.
Proof.
  revert m. induction l as [|[j x] l IH]; intros m Hnd Hin; [by apply elem_of_nil in Hin|]. rewrite set_all_cons. cbn in Hnd.
  apply NoDup_cons in Hnd as [H1 H2]. apply elem_of_cons in Hin as [[= -> ->]|Hin]; [|by apply IH].
  rewrite set_all_ne by done. apply w_find_set_eq.
Qed.

Lemma set_all_sorted {A} (l : list (wstring * A)) : ∀ m, w_sorted (m ++ l).*1 → set_all l m = m ++ l.
Proof.
  induction l as [|[k v] l IH]; intros m Hs; [by rewrite app_nil_r|]. rewrite set_all_cons.
  assert (Hm : Forall (λ j, w_ltb j k = true) m.*1).
  { rewrite fmap_app in Hs. clear IH. induction m as [|[j x] m IHm]; cbn; [done|]. cbn in Hs. apply StronglySorted_inv in Hs as [Hs Hj].
    constructor; [|by apply IHm]. apply Forall_app in Hj as [_ Hj]. by apply Forall_inv in Hj. }
  rewrite (w_set_last k v m Hm), IH; rewrite <- app_assoc; done.
Qed.
End Values.

Section Write.
Context {W : WireOps} {V : MoreWireOps} {U : UTF8Ops} {UL : UTF8Laws U} {HN : NetworkOrder W V}.

(** ** Parts *)

Lemma string_octets_length w : Zlen (string_octets w) = 2 + Zlen (utf8_octets w).
Proof. unfold string_octets. by rewrite Zlen_app, put2_length. Qed.

Lemma to_word_fits w : string_fits w → to_word (Zlen (utf8_octets w)) = Zlen (utf8_octets w).
Proof. intros H. apply Z.mod_small. pose proof (Zlen_nonneg (utf8_octets w)). unfold string_fits in H. lia. Qed.

Lemma octet_at_room size done o : Zlen done < size → octet_at size done o = Got (done ++ [o]).
Proof. intros. unfold octet_at. by rewrite (proj2 (Z.ltb_lt _ _)). Qed.

Lemma write_end_ok size done : Zlen done + 3 <= size → write_end size done = Got (done ++ end_octets).
Proof.
  intros. unfold write_end. rewrite octet_at_room by lia. cbn [cbind].
  rewrite octet_at_room by (rewrite Zlen_app, Zlen_cons, Zlen_nil; lia). cbn [cbind].
  rewrite octet_at_room by (rewrite !Zlen_app, !Zlen_cons, Zlen_nil; lia). by rewrite <- !app_assoc.
Qed.

Lemma write_property_ok size done k f w : string_fits k → (∀ s, Zlen w <= s → f s = Got (Some w)) →
  Zlen done + Zlen (string_octets k) + Zlen w <= size →
  write_property size done k f = Got (done ++ string_octets k ++ w).
Proof.
  intros Hk Hf Hs. pose proof (proj1 Hk) as Hku. rewrite string_octets_length in Hs. pose proof (Zlen_nonneg (utf8_octets k)). pose proof (Zlen_nonneg w).
  unfold write_property, key_utf8, u16_Serialize. cbn [u_value]. rewrite utf8_size, to_word_fits by done.
  rewrite (proj2 (Z.ltb_ge _ _)) by lia. cbn [append_octets cbind].
  rewrite utf8_written by (done || (rewrite Zlen_app, put2_length; lia)). cbn [append_octets cbind].
  rewrite Hf by (rewrite !Zlen_app, put2_length; lia). cbn [append_octets cbind]. unfold string_octets. by rewrite <- !app_assoc.
Qed.

(** ** Containers *)

Lemma build_object_eq l key marker m order parser :
  foldl (λ o p, AddProperty p.1 (build p.2) o) (AMFObject key marker m order parser) l =
    AMFObject key marker (set_all ((λ p, (p.1, build p.2)) <$> l) m) (order ++ l.*1) parser.
Proof.
  revert m order. induction l as [|[k v] l IH]; intros m order; cbn [foldl]; [by rewrite app_nil_r|].
  cbn [AddProperty fst snd]. rewrite IH. by rewrite <- app_assoc.
Qed.

Lemma build_ecma_eq l num key marker m parser :
  foldl (λ o p, AddProperty p.1 (build p.2) o) (AMFEcmaArray num key marker m parser) l =
    AMFEcmaArray num key marker (set_all ((λ p, (p.1, build p.2)) <$> l) m) parser.
Proof.
  revert m. induction l as [|[k v] l IH]; intros m; cbn [foldl]; [done|]. cbn [AddProperty fst snd]. by rewrite IH.
Qed.

Lemma built_keys l : ((λ p : wstring * amf_value, (p.1, build p.2)) <$> l).*1 = l.*1.
Proof. rewrite <- list_fmap_compose. done. Qed.

Definition members_octets (l : list (wstring * amf_value)) : bytes := l ≫= λ p, string_octets p.1 ++ amf_octets p.2.

Lemma members_cons k v l : members_octets ((k, v) :: l) = string_octets k ++ amf_octets v ++ members_octets l.
Proof. unfold members_octets. cbn. by rewrite <- app_assoc. Qed.

Definition members_ok (l : list (wstring * amf_value)) : Prop := Forall (λ p, key_fits p.1 ∧ amf_ok p.2) l.

Lemma members_ok_of l : foldr (λ p P, key_fits p.1 ∧ amf_ok p.2 ∧ P) True l → members_ok l.
Proof. induction l as [|p l IH]; cbn; [constructor|]. intros (H1 & H2 & H3). apply Forall_cons; split; [done|]. by apply IH. Qed.

Lemma properties_size_perm f (m1 m2 : list (wstring * AMFData)) : m1 ≡ₚ m2 → properties_size f m1 = properties_size f m2.
Proof. unfold properties_size. induction 1 as [|[k v] m1 m2 _ IH|[k1 v1] [k2 v2] m|m1 m2 m3 _ IH1 _ IH2]; cbn; lia. Qed.

Lemma set_all_perm {A} (l : list (wstring * A)) : ∀ m, NoDup l.*1 → (∀ k, k ∈ l.*1 → w_find k m = None) → set_all l m ≡ₚ l ++ m.
Proof.
  induction l as [|[k v] l IH]; intros m Hnd Hm; [done|]. rewrite set_all_cons. cbn in Hnd. apply NoDup_cons in Hnd as [H1 H2].
  rewrite IH; [|done|].
  - rewrite w_set_perm by (apply Hm; by left). cbn. by rewrite Permutation_middle.
  - intros j Hj. rewrite w_find_set_ne by (by intros ->). apply Hm. by right.
Qed.

(** ** Sizes *)

Lemma members_size l : Forall (λ p, amf_ok p.2 → data_GetSize (build p.2) = Zlen (amf_octets p.2)) l → members_ok l →
  properties_size data_GetSize ((λ p, (p.1, build p.2)) <$> l) = Zlen (members_octets l).
Proof.
  intros Hall Hok. induction l as [|[k v] l IH]; [done|]. apply Forall_cons in Hall as [H1 Hall], Hok as [[H2 H3] Hok].
  cbn [fmap list_fmap properties_size foldr fst snd]. fold (properties_size data_GetSize ((λ p, (p.1, build p.2)) <$> l)).
  rewrite IH by done. unfold key_utf8. cbn in H1. rewrite utf8_size, H1 by (done || apply H2).
  rewrite members_cons, !Zlen_app, string_octets_length. lia.
Qed.

Lemma w_sorted_nodup l : w_sorted l → NoDup l.
Proof.
  induction 1 as [|k l _ IH Hk]; constructor; [|done]. intros Hin. rewrite Forall_forall in Hk.
  specialize (Hk _ Hin). by rewrite w_ltb_irrefl in Hk.
Qed.

Lemma build_size v : amf_ok v → data_GetSize (build v) = Zlen (amf_octets v).
Proof.
  induction v as [n|b|w| |l IH|l IH] using amf_value_nested; intros Hok.
  - cbn [build data_GetSize amf_octets]. by rewrite Zlen_cons, put8_length.
  - done.
  - cbn [build data_GetSize amf_octets make_string]. unfold str_GetSize, str_SetWString. cbn [s_utf8].
    rewrite utf8_size, Zlen_cons, string_octets_length by apply Hok. lia.
  - done.
  - destruct Hok as [Hnd Hok%members_ok_of]. cbn [build amf_octets]. unfold new_object. rewrite build_object_eq. cbn [data_GetSize].
    rewrite (properties_size_perm _ _ _ (set_all_perm _ [] ltac:(by rewrite built_keys) ltac:(done))), app_nil_r.
    rewrite members_size by done. rewrite Zlen_cons, Zlen_app. fold (members_octets l). change (Zlen end_octets) with 3. lia.
  - destruct Hok as (Hs & Hl & Hok%members_ok_of). cbn [build amf_octets]. unfold new_ecma. rewrite build_ecma_eq. cbn [data_GetSize].
    rewrite set_all_sorted by (cbn [app]; by rewrite built_keys). cbn [app].
    rewrite members_size by done. rewrite Zlen_cons, !Zlen_app, put4_length. fold (members_octets l). change (Zlen end_octets) with 3. lia.
Qed.

(** ** Octets *)

(** Members that are written one after the other, from the octets [done] on. *)
Definition writes_value (v : amf_value) (f : Z → checked (option bytes)) : Prop :=
  ∀ size, Zlen (amf_octets v) <= size → f size = Got (Some (amf_octets v)).

Lemma object_members find size l : ∀ done,
  Forall (λ p, key_fits p.1 ∧ writes_value p.2 (find p.1)) l → Zlen done + Zlen (members_octets l) <= size →
  foldl (λ acc k, let? w := acc in write_property size w k (find k)) (Got done) l.*1 = Got (done ++ members_octets l).
Proof.
  induction l as [|[k v] l IH]; intros done Hall Hs; [by rewrite app_nil_r|].
  apply Forall_cons in Hall as [[[_ H1] H2] Hall]. cbn [fst snd] in H1, H2. rewrite members_cons, !Zlen_app in Hs. pose proof (Zlen_nonneg (members_octets l)).
  cbn [fmap list_fmap foldl fst cbind]. rewrite (write_property_ok _ _ _ _ _ H1 H2) by lia.
  rewrite IH, members_cons, <- !app_assoc; [done|done|]. rewrite !Zlen_app. lia.
Qed.

Lemma array_members size (l : list (wstring * amf_value)) (write : list (wstring * AMFData) → bytes → checked bytes) : ∀ done,
  (∀ w, write [] w = Got w) →
  (∀ k v m w, write ((k, v) :: m) w = let? w := write_property size w k (data_Serialize v) in write m w) →
  Forall (λ p, key_fits p.1 ∧ writes_value p.2 (data_Serialize (build p.2))) l → Zlen done + Zlen (members_octets l) <= size →
  write ((λ p, (p.1, build p.2)) <$> l) done = Got (done ++ members_octets l).
Proof.
  intros done H0 Hc. revert done. induction l as [|[k v] l IH]; intros done Hall Hs; [by rewrite app_nil_r|].
  apply Forall_cons in Hall as [[[_ H1] H2] Hall]. cbn [fst snd] in H1, H2. rewrite members_cons, !Zlen_app in Hs. pose proof (Zlen_nonneg (members_octets l)).
  cbn [fmap list_fmap fst snd]. rewrite Hc, (write_property_ok _ _ _ _ _ H1 H2) by lia. cbn [cbind].
  rewrite IH, members_cons, <- !app_assoc; [done|done|]. rewrite !Zlen_app. lia.
Qed.

(** The value under a key, as [AMFObject::Serialize] looks it up. *)
Fixpoint serialize_under (k : wstring) (m : list (wstring * AMFData)) (size : Z) : checked (option bytes) :=
  match m with
  | [] => Fault
  | (k', v) :: m => if bool_decide (k = k') then data_Serialize v size else serialize_under k m size
  end.

Lemma serialize_under_find k d m size : w_find k m = Some d → serialize_under k m size = data_Serialize d size.
Proof. induction m as [|[k' v'] m IH]; cbn; [done|]. case_match; [by intros [= ->]|done]. Qed.

Lemma object_Serialize_eq key marker m order parser size :
  data_Serialize (AMFObject key marker m order parser) size =
    let? w := octet_at size [] ObjectMarker in
    let? w := foldl (λ acc k, let? w := acc in write_property size w k (serialize_under k m)) (Got w) order in
    let? w := write_end size w in Got (Some w).
Proof. done. Qed.

Lemma members_writes l : Forall (λ p, amf_ok p.2 → writes_value p.2 (data_Serialize (build p.2))) l → members_ok l →
  Forall (λ p, key_fits p.1 ∧ writes_value p.2 (data_Serialize (build p.2))) l.
Proof.
  intros H1 H2. unfold members_ok in H2. rewrite Forall_forall in *. intros p Hp. destruct (H2 p Hp). split; [done|]. by apply H1.
Qed.

(** The object built for a value writes the octets of the value. *)
Lemma build_writes v : amf_ok v → writes_value v (data_Serialize (build v)).
Proof.
  induction v as [n|b|w| |l IH|l IH] using amf_value_nested; intros Hok size Hs.
  - cbn [amf_octets build data_Serialize] in *. rewrite Zlen_cons, put8_length in Hs. by rewrite (proj2 (Z.ltb_ge _ _)) by lia.
  - change (2 <= size) in Hs. cbn. by rewrite (proj2 (Z.ltb_ge _ _)) by lia.
  - cbn [amf_octets] in *. rewrite Zlen_cons, string_octets_length in Hs. pose proof (Zlen_nonneg (utf8_octets w)).
    cbn [build data_Serialize make_string]. unfold str_Serialize, str_GetSize, str_SetWString. cbn [s_utf8 s_u16].
    rewrite utf8_size by apply Hok. rewrite (proj2 (Z.ltb_ge _ _)) by lia. unfold u16_Serialize. rewrite (proj2 (Z.ltb_ge _ _)) by lia.
    cbn [append_octets cbind uint_SetValue u_value]. rewrite to_word_fits by done.
    rewrite utf8_written by (apply Hok || (rewrite Zlen_app, put2_length, Zlen_cons, Zlen_nil; lia)). done.
  - change (1 <= size) in Hs. cbn. by rewrite (proj2 (Z.eqb_neq _ _)) by lia.
  - destruct Hok as [Hnd Hok%members_ok_of]. cbn [amf_octets] in *. fold (members_octets l) in *.
    rewrite Zlen_cons, Zlen_app in Hs. change (Zlen end_octets) with 3 in Hs. pose proof (Zlen_nonneg (members_octets l)).
    cbn [build]. unfold new_object. rewrite build_object_eq, object_Serialize_eq. rewrite octet_at_room by (rewrite Zlen_nil; lia).
    cbn [cbind app]. rewrite (object_members (λ k, serialize_under k (set_all ((λ p, (p.1, build p.2)) <$> l) []))); [|..].
    + cbn [cbind]. rewrite write_end_ok; [cbn [cbind]; by rewrite <- app_assoc|]. rewrite Zlen_app, Zlen_cons, Zlen_nil. lia.
    + pose proof (members_writes l IH Hok) as Hall. rewrite Forall_forall in *. intros [k v] Hp. destruct (Hall _ Hp) as [H1 H2].
      split; [done|]. intros s Hsz. rewrite (serialize_under_find _ (build v)); [by apply H2|].
      apply set_all_find; [by rewrite built_keys|]. apply list_elem_of_fmap. by exists (k, v).
    + rewrite Zlen_cons, Zlen_nil. lia.
  - pose proof (build_size (VEcmaArray l) Hok) as Hsize. destruct Hok as (Hsr & Hl & Hok%members_ok_of).
    cbn [amf_octets build] in *. fold (members_octets l) in *. unfold new_ecma in *. rewrite build_ecma_eq in *.
    rewrite set_all_sorted in * by (cbn [app]; by rewrite built_keys). cbn [app] in *.
    cbn [data_Serialize]. rewrite Hsize, (proj2 (Z.ltb_ge _ _)) by lia.
    rewrite Zlen_cons, !Zlen_app, put4_length in Hs. change (Zlen end_octets) with 3 in Hs. pose proof (Zlen_nonneg (members_octets l)).
    unfold u32_Serialize. rewrite (proj2 (Z.ltb_ge _ _)) by lia. cbn [append_octets cbind u_value].
    assert (Hn : Zlen ((λ p : wstring * amf_value, (p.1, build p.2)) <$> l) = Zlen l) by (unfold Zlen; by rewrite length_fmap).
    rewrite Hn. erewrite (array_members size l); [|done|done|by apply members_writes|rewrite Zlen_app, put4_length, Zlen_cons, Zlen_nil; lia].
    cbn [cbind]. rewrite write_end_ok; [cbn [cbind]; by rewrite <- !app_assoc|].
    rewrite !Zlen_app, put4_length, Zlen_cons, Zlen_nil. lia.
Qed.
End Write.

Section Read.
Context {W : WireOps} {V : MoreWireOps} {U : UTF8Ops} {UL : UTF8Laws U} {HN : NetworkOrder W V}.

(** ** Strings *)

Lemma str_read w rest s : string_fits w → s_u16 s = u16_new →
  ∃ s', str_Parse (string_octets w ++ rest) s = (s', Zlen (string_octets w)) ∧ str_IsParsed s' = true ∧
    str_GetWString s' = w ∧ str_GetUTF8Size s' = Zlen (utf8_octets w).
Proof.
  intros [Hun Hf] Hs. pose proof (Zlen_nonneg (utf8_octets w)). pose proof (Zlen_nonneg rest).
  unfold str_Parse. rewrite Hs. change (uint_IsParsed u16_new) with false. cbn [negb].
  assert (Hu : uint_Parse (string_octets w ++ rest) u16_new = (mkUint (Zlen (utf8_octets w)) 0, 2)).
  { unfold string_octets. rewrite <- app_assoc. apply u16_read. lia. }
  assert (Hd : zdrop 2 (string_octets w ++ rest) = utf8_octets w ++ rest).
  { unfold string_octets. rewrite <- app_assoc. apply zdrop_app. by rewrite put2_length. }
  rewrite Hu. cbn [uint_IsParsed u_len Z.eqb u_value]. rewrite Hd.
  destruct (Z.eqb_spec (Zlen (utf8_octets w ++ rest)) 0) as [Hz|Hz]; cbn [negb].
  - rewrite Zlen_app in Hz. assert (Hw : Zlen (utf8_octets w) = 0) by lia. rewrite Hw in *.
    destruct (utf8_none (s_utf8 s)) as [H1 H2]. eexists. split; [f_equal; rewrite !Zlen_app, string_octets_length; lia|].
    split; [done|]. split; [|done]. unfold str_GetWString. cbn. rewrite H2. symmetry. by apply utf8_empty.
  - cbn [s_utf8 s_u16]. destruct (utf8_read w (s_utf8 s) rest Hun) as (u' & -> & H1 & H2). cbn [s_utf8 s_u16].
    rewrite zdrop_app by done. eexists. split; [f_equal; rewrite !Zlen_app, string_octets_length; lia|]. done.
Qed.

(** ** Containers *)

(** The loops of an object and of an array whose number is read are the same but for the object they
    go on with. *)
Section Container.
Context (mk : AMFStringData → bool → list (wstring * AMFData) → list wstring → option AMFData → AMFData).

Definition container_round (loop : bytes → AMFData → checked (AMFData * bytes))
    (value_Parse : bytes → option AMFData → checked (option AMFData * Z)) (buffer : bytes) (key : AMFStringData)
    (m : list (wstring * AMFData)) (order : list wstring) (parser : option AMFData) : checked (AMFData * bytes) :=
  if Zlen buffer =? 0 then Got (mk key false m order parser, buffer)
  else if negb (str_IsParsed key) then
    let '(key, copy) := str_Parse buffer key in loop (zdrop copy buffer) (mk key false m order parser)
  else if str_GetUTF8Size key =? 0 then
    refuse_if (negb (zget 0 buffer =? ObjectEndMarker)) (Got (mk key true m order parser, zdrop 1 buffer))
  else
    let? r := value_Parse buffer parser in
    let? parsed := parser_IsParsed r.1 in
    loop (zdrop r.2 buffer)
      match parsed, r.1 with
      | true, Some v => mk (str_Reset key) false (w_set (str_GetWString key) v m) (order ++ [str_GetWString key]) None
      | _, _ => mk key false m order r.1
      end.

Definition loop_value (fuel : nat) : bytes → option AMFData → checked (option AMFData * Z) :=
  parser_Parse_with (λ data d, let? r := data_loop fuel data d in Got (r.1, Zlen data - Zlen r.2)).

Context (Hmk : ∀ fuel buffer key m order parser,
  data_loop (S fuel) buffer (mk key false m order parser) =
    container_round (data_loop fuel) (loop_value fuel) buffer key m order parser).

(** A key that waits for its octets. *)
Definition waiting (key : AMFStringData) : Prop := s_u16 key = u16_new ∧ str_IsParsed key = false.

Lemma str_Reset_waiting key : waiting (str_Reset key).
Proof. split; [done|]. apply utf8_reset_waits. Qed.

(** What [parser_Parse] does on the octets of [v], in [fuel] rounds at most. *)
Definition value_reads (v : amf_value) : Prop :=
  ∀ fuel rest, (length (amf_octets v) <= fuel)%nat →
    ∃ d, loop_value fuel (amf_octets v ++ rest) None = Got (Some d, Zlen (amf_octets v)) ∧
      data_IsParsed d = Got true ∧ read_value d = Some v.

Lemma key_round fuel w rest key m order : string_fits w → waiting key →
  ∃ key', data_loop (S fuel) (string_octets w ++ rest) (mk key false m order None) =
      data_loop fuel rest (mk key' false m order None) ∧
    str_IsParsed key' = true ∧ str_GetWString key' = w ∧ str_GetUTF8Size key' = Zlen (utf8_octets w).
Proof.
  intros Hf [H1 H2]. destruct (str_read w rest key Hf H1) as (key' & Hp & Hs). exists key'. split; [|done].
  rewrite Hmk. unfold container_round. rewrite H2. cbn [negb]. rewrite (proj2 (Z.eqb_neq _ _)); cycle 1.
  { rewrite Zlen_app, string_octets_length. pose proof (Zlen_nonneg rest). pose proof (Zlen_nonneg (utf8_octets w)). lia. }
  by rewrite Hp, zdrop_app.
Qed.

Lemma amf_octets_nonempty v : 0 < Zlen (amf_octets v).
Proof.
  destruct v; cbn [amf_octets]; rewrite Zlen_cons; match goal with |- _ < 1 + Zlen ?l => pose proof (Zlen_nonneg l) end; lia.
Qed.

Lemma members_read l : Forall (λ p, value_reads p.2) l → members_ok l → ∀ fuel key m order rest,
  waiting key → (length (members_octets l) + 3 <= fuel)%nat →
  ∃ ds key', data_loop fuel (members_octets l ++ end_octets ++ rest) (mk key false m order None) =
      Got (mk key' true (set_all (zip l.*1 ds) m) (order ++ l.*1) None, rest) ∧
    Forall2 (λ d p, read_value d = Some p.2) ds l.
Proof.
  induction l as [|[k v] l IH]; intros Hv Hok fuel key m order rest Hk Hfuel.
  - destruct fuel as [|[|fuel]]; [cbn in Hfuel; lia..|].
    assert (He : end_octets = string_octets [] ++ [ObjectEndMarker]).
    { unfold string_octets, put2. rewrite set2_be. assert (utf8_octets [] = []) as -> by (by apply Zlen_zero, utf8_empty). done. }
    rewrite He, <- app_assoc. change (members_octets []) with (@nil Z). cbn [app].
    destruct (key_round (S fuel) [] (ObjectEndMarker :: rest) key m order) as (key' & -> & H1 & H2 & H3); [|done|].
    { split; [constructor|]. by rewrite (proj2 (utf8_empty [])). }
    exists [], key'. split; [|constructor]. rewrite Hmk. unfold container_round.
    rewrite (proj2 (utf8_empty []) eq_refl) in H3. rewrite H1, H3, app_nil_r. cbn [app negb].
    rewrite (proj2 (Z.eqb_neq _ _)) by (rewrite Zlen_cons; pose proof (Zlen_nonneg rest); lia). done.
  - apply Forall_cons in Hv as [Hv1 Hv], Hok as [[[Hne Hfits] Hok1] Hok]. cbn [fst snd] in Hv1, Hne, Hfits, Hok1.
    rewrite members_cons in *. rewrite !length_app in Hfuel. pose proof (string_octets_length k) as Hkl.
    pose proof (amf_octets_nonempty v) as Hvl. pose proof (Zlen_nonneg (utf8_octets k)).
    destruct fuel as [|[|fuel]]; [lia|unfold Zlen in *; lia|].
    rewrite <- !app_assoc. set (rest1 := members_octets l ++ end_octets ++ rest).
    destruct (key_round (S fuel) k (amf_octets v ++ rest1) key m order Hfits Hk) as (key' & -> & H1 & H2 & H3).
    destruct (Hv1 fuel rest1) as (d & Hd & Hp & Hr); [unfold Zlen in *; lia|].
    destruct (IH Hv Hok fuel (str_Reset key') (w_set k d m) (order ++ [k]) rest) as (ds & key2 & He & Hall);
      [apply str_Reset_waiting|unfold Zlen in *; lia|].
    exists (d :: ds), key2. split; [|by constructor].
    rewrite Hmk. unfold container_round. rewrite H1, H3. cbn [negb].
    rewrite (proj2 (Z.eqb_neq _ _)); cycle 1.
    { rewrite Zlen_app. pose proof (Zlen_nonneg rest1). lia. }
    rewrite (proj2 (Z.eqb_neq _ _)) by (rewrite utf8_empty; done).
    rewrite Hd. cbn [cbind fst snd parser_IsParsed]. rewrite Hp. cbn [cbind]. rewrite zdrop_app by done.
    rewrite H2. unfold rest1. rewrite He. cbn [fmap list_fmap zip_with]. rewrite <- app_assoc. done.
Qed.
End Container.

(** ** The value of a container *)

Fixpoint read_members (m : list (wstring * AMFData)) : list (wstring * option amf_value) :=
  match m with [] => [] | (k, d) :: m => (k, read_value d) :: read_members m end.

Lemma read_object_eq key marker m order parser : read_value (AMFObject key marker m order parser) =
  VObject <$> mapM (λ k, v ← mjoin (w_find k (read_members m)); Some (k, v)) order.
Proof. done. Qed.

Lemma read_ecma_eq num key marker m parser : read_value (AMFEcmaArray num key marker m parser) =
  VEcmaArray <$> mapM (λ p, v ← p.2; Some (p.1, v)) (read_members m).
Proof. done. Qed.

Lemma read_members_find k m : w_find k (read_members m) = read_value <$> w_find k m.
Proof. induction m as [|[j d] m IH]; cbn; [done|]. by case_match. Qed.

Lemma zip_members l ds : Forall2 (λ d p, read_value d = Some p.2) ds l →
  (zip l.*1 ds).*1 = l.*1 ∧ Forall (λ p, ∃ d, (p.1, d) ∈ zip l.*1 ds ∧ read_value d = Some p.2) l ∧
  Forall2 (λ x p, (v ← x.2; Some (x.1, v)) = Some p) (read_members (zip l.*1 ds)) l.
Proof.
  induction 1 as [|d [k v] ds l Hd _ (IH1 & IH2 & IH3)]; [done|]. cbn [fmap list_fmap zip_with fst snd read_members] in *.
  split; [cbn; by rewrite IH1|]. split.
  - constructor; [exists d; split; [by left|done]|]. eapply Forall_impl; [exact IH2|]. intros p (d' & H1 & H2).
    exists d'. split; [by right|done].
  - constructor; [cbn; by rewrite Hd|done].
Qed.

Lemma object_value key l ds : NoDup l.*1 → Forall2 (λ d p, read_value d = Some p.2) ds l →
  read_value (AMFObject key true (set_all (zip l.*1 ds) []) l.*1 None) = Some (VObject l).
Proof.
  intros Hnd Hds. destruct (zip_members l ds Hds) as (Hk & Hall & _). rewrite read_object_eq.
  assert (mapM (λ k, v ← mjoin (w_find k (read_members (set_all (zip l.*1 ds) []))); Some (k, v)) l.*1 = Some l) as ->; [|done].
  apply mapM_Some. apply Forall2_fmap_l, Forall_Forall2_diag. eapply Forall_impl; [exact Hall|].
  intros [k v] (d & H1 & H2). cbn [fst snd compose] in *. rewrite read_members_find, (set_all_find k d); [|by rewrite Hk|done].
  cbn. by rewrite H2.
Qed.

Lemma ecma_value num key l ds : w_sorted l.*1 → Forall2 (λ d p, read_value d = Some p.2) ds l →
  read_value (AMFEcmaArray num key true (set_all (zip l.*1 ds) []) None) = Some (VEcmaArray l).
Proof.
  intros Hs Hds. destruct (zip_members l ds Hds) as (Hk & _ & Hall). rewrite read_ecma_eq.
  rewrite set_all_sorted by (cbn [app]; by rewrite Hk). cbn [app].
  assert (mapM (λ p, v ← p.2; Some (p.1, v)) (read_members (zip l.*1 ds)) = Some l) as ->; [|done]. by apply mapM_Some.
Qed.

(** ** All values *)

Lemma new_str_waiting : waiting new_str.
Proof. split; [done|]. apply utf8_new_waits. Qed.

(** The first octet chooses the object; the others go to it. *)
Lemma loop_value_marker fuel o body rest d0 d : new_for_marker o = Got d0 →
  data_loop fuel (body ++ rest) d0 = Got (d, rest) →
  loop_value fuel ((o :: body) ++ rest) None = Got (Some d, Zlen (o :: body)).
Proof.
  intros H1 H2. unfold loop_value, parser_Parse_with. cbn [app]. pose proof (Zlen_nonneg (body ++ rest)).
  rewrite rd1_in by (rewrite Zlen_cons; lia). cbn [cbind]. rewrite zget_0_cons, H1. cbn [cbind].
  rewrite zdrop_1_cons, H2. cbn [cbind fst snd]. do 2 f_equal. rewrite Zlen_cons, Zlen_app. lia.
Qed.

Lemma amf_value_read v : amf_ok v → value_reads v.
Proof.
  induction v as [n|b|w| |l IH|l IH] using amf_value_nested; intros Hok fuel rest Hfuel; cbn [amf_octets] in *;
    (destruct fuel as [|fuel]; [cbn in Hfuel; lia|]).
  - exists (AMFNumber (mkUint n 0)). split; [|done]. eapply loop_value_marker; [done|].
    cbn [data_loop]. rewrite number_read by done. by rewrite zdrop_app by (by rewrite put8_length).
  - exists (AMFBoolean 1 b). split; [|done]. eapply loop_value_marker; [done|].
    cbn [data_loop]. unfold boolean_Parse. cbn [app]. rewrite Zlen_cons, (proj2 (Z.eqb_neq _ _)) by (pose proof (Zlen_nonneg rest); lia).
    by destruct b.
  - destruct (str_read w rest new_str Hok eq_refl) as (s' & Hp & H1 & H2 & _).
    exists (AMFString s'). split; [|split; [cbn; by rewrite H1|cbn; by rewrite H2]]. eapply loop_value_marker; [done|].
    cbn [data_loop]. by rewrite Hp, zdrop_app.
  - exists AMFNull. split; [|done]. by eapply loop_value_marker.
  - destruct Hok as [Hnd Hok%members_ok_of]. fold (members_octets l) in *.
    destruct (members_read AMFObject) with (l := l) (fuel := S fuel) (key := new_str) (m := @nil (wstring * AMFData)) (order := @nil wstring) (rest := rest)
      as (ds & key' & He & Hds); [done|..|done|apply new_str_waiting| |].
    + unfold members_ok in Hok. rewrite Forall_forall in *. intros p Hp. apply IH; [done|]. apply Hok. done.
    + cbn in Hfuel. rewrite length_app in Hfuel. cbn in Hfuel. lia.
    + exists (AMFObject key' true (set_all (zip l.*1 ds) []) l.*1 None). split; [|split; [done|by apply object_value]].
      eapply loop_value_marker; [done|]. rewrite <- app_assoc. exact He.
  - destruct Hok as (Hsr & Hl & Hok%members_ok_of). fold (members_octets l) in *.
    cbn [length] in Hfuel. rewrite !length_app in Hfuel. pose proof (put4_length (Zlen l)) as Hp4. unfold Zlen in Hp4.
    destruct (members_read (λ key b m _ p, AMFEcmaArray (mkUint (Zlen l) 0) key b m p)) with (l := l) (fuel := fuel) (key := new_str)
      (m := @nil (wstring * AMFData)) (order := @nil wstring) (rest := rest)
      as (ds & key' & He & Hds); [|..|done|apply new_str_waiting| |].
    + intros f [|o b] key m order parser; [done|]. cbn [data_loop]. unfold ecma_round, container_round. cbn [uint_IsParsed u_len Z.eqb andb negb orb].
      by rewrite orb_false_r.
    + unfold members_ok in Hok. rewrite Forall_forall in *. intros p Hp. apply IH; [done|]. apply Hok. done.
    + cbn in Hfuel. lia.
    + exists (AMFEcmaArray (mkUint (Zlen l) 0) key' true (set_all (zip l.*1 ds) []) None). split; [|split; [done|by apply ecma_value]].
      eapply loop_value_marker; [done|]. cbn [data_loop new_ecma]. unfold ecma_round.
      rewrite <- !app_assoc. rewrite (proj2 (Z.eqb_neq _ _)); cycle 1.
      { rewrite Zlen_app, put4_length. match goal with |- 4 + Zlen ?x ≠ 0 => pose proof (Zlen_nonneg x) end. lia. }
      change (uint_IsParsed u32_new) with false. cbn [andb orb negb]. pose proof (Zlen_nonneg l).
      rewrite u32_read by lia. rewrite zdrop_app by (by rewrite put4_length). exact He.
Qed.

Lemma new_for_marker_depth o d : new_for_marker o = Got d → amf_depth d = 0%nat.
Proof. unfold new_for_marker. repeat case_match; intros H'; try discriminate H'; injection H' as <-; reflexivity. Qed.

(** [AMFParser::Parse] on the octets of a value. *)
Lemma parser_reads v rest : amf_ok v →
  ∃ d, parser_Parse (amf_octets v ++ rest) None = Got (Some d, Zlen (amf_octets v)) ∧
    data_IsParsed d = Got true ∧ read_value d = Some v.
Proof.
  intros Hok. destruct (amf_value_read v Hok (amf_fuel (zdrop 1 (amf_octets v ++ rest)) 0) rest) as (d & Hd & Hp & Hr).
  { unfold amf_fuel, zdrop. rewrite length_drop, length_app. lia. }
  exists d. split; [|done]. rewrite <- Hd. unfold parser_Parse, loop_value, parser_Parse_with, data_Parse.
  destruct (rd1 (amf_octets v ++ rest) 0) as [| |o]; try reflexivity. cbn [cbind].
  destruct (new_for_marker o) as [| |d0] eqn:Hm; try reflexivity. cbn [cbind]. by rewrite (new_for_marker_depth _ _ Hm).
Qed.
End Read.
