(* ===== verification/RtmpMessage.v ===== *)
(** * RTMP: messages

    [RTMPCommandMessage], [RTMPMetaData] and [RTMPMessage] (src/mcu/include/rtmpmessage.h,
    src/mcu/src/rtmpmessage.cpp).  A message holds one body: a protocol control message, a command,
    metadata or a frame; it is parsed piece by piece as the chunks of its stream come, or it is
    written into a block that the chunks are cut from.  An exception is [Refuse]. *)

From S2P Require Import Prelude Wire Octets RtmpFormat RtmpMedia Amf.

Section Messages.
Context {W : WireOps} {V : MoreWireOps} {U : UTF8Ops}.

(** ** Values one after the other *)

(** [while (bufferSize)] of [RTMPCommandMessage::Parse] and [RTMPMetaData::Parse]: each value goes to
    [take].  A date may be completed by a call that uses no octet, so a round is counted twice. *)
Fixpoint values_loop {A} (take : AMFData → A → checked A) (fuel : nat) (buffer : bytes)
    (parser : option AMFData) (a : A) : checked (option AMFData * A) :=
  match fuel with
  | O => Fault
  | S fuel =>
      if Zlen buffer =? 0 then Got (parser, a)
      else
        let? r := parser_Parse buffer parser in
        let? parsed := parser_IsParsed r.1 in
        match parsed, r.1 with
        | true, Some obj => let? a := take obj a in values_loop take fuel (zdrop r.2 buffer) None a
        | _, _ => values_loop take fuel (zdrop r.2 buffer) r.1 a
        end
  end.

Definition values_fuel (buffer : bytes) : nat := 2 * length buffer + 2.

(** The loops over values that write them, each at the position reached. *)
Definition write_value (size : Z) (acc : checked bytes) (d : AMFData) : checked bytes :=
  let? w := acc in
  let? o := data_Serialize d (size - Zlen w) in
  append_octets w o.

(** ** RTMPCommandMessage *)

Record RTMPCommandMessage := mkCmd {
  cm_parser : option AMFData;
  cm_name : option AMFStringData;
  cm_transId : option uint;
  cm_params : option AMFData;
  cm_extra : list AMFData;
}.

Definition new_cmd : RTMPCommandMessage := mkCmd None None None None [].

(** [RTMPCommandMessage(name, transId, params, extra)] *)
Definition make_cmd (name : wstring) (transId : Z) (params extra : option AMFData) : RTMPCommandMessage :=
  mkCmd None (Some (str_SetWString name new_str)) (Some (mkUint (SetNumber (double_of transId)) 8))
    (Some (default AMFNull params)) (option_list extra).

(** The object the parser has got, in its place. *)
Definition cmd_take (obj : AMFData) (c : RTMPCommandMessage) : checked RTMPCommandMessage :=
  match cm_name c, cm_transId c, cm_params c with
  | None, _, _ =>
      match obj with
      | AMFString s => Got (mkCmd (cm_parser c) (Some s) (cm_transId c) (cm_params c) (cm_extra c))
      | _ => Refuse
      end
  | _, None, _ =>
      match obj with
      | AMFNumber u => Got (mkCmd (cm_parser c) (cm_name c) (Some u) (cm_params c) (cm_extra c))
      | _ => Refuse
      end
  | _, _, None => Got (mkCmd (cm_parser c) (cm_name c) (cm_transId c) (Some obj) (cm_extra c))
  | _, _, _ => Got (mkCmd (cm_parser c) (cm_name c) (cm_transId c) (cm_params c) (cm_extra c ++ [obj]))
  end.

(** [RTMPCommandMessage::Parse], which returns the size it is given. *)
Definition cmd_Parse (data : bytes) (c : RTMPCommandMessage) : checked RTMPCommandMessage :=
  let? r := values_loop cmd_take (values_fuel data) data (cm_parser c) c in
  Got (mkCmd r.1 (cm_name r.2) (cm_transId r.2) (cm_params r.2) (cm_extra r.2)).

(** The values it is made of; a missing one is written as a null. *)
Definition cmd_values (c : RTMPCommandMessage) : list AMFData :=
  from_option AMFString AMFNull (cm_name c) :: from_option AMFNumber AMFNull (cm_transId c)
    :: default AMFNull (cm_params c) :: cm_extra c.

Definition cmd_GetSize (c : RTMPCommandMessage) : Z :=
  foldr (λ d n, data_GetSize d + n) 0 (cmd_values c).

Definition cmd_Serialize (c : RTMPCommandMessage) (size : Z) : checked (option bytes) :=
  if size <? cmd_GetSize c then Got None
  else let? w := foldl (write_value size) (Got []) (cmd_values c) in Got (Some w).

(** ** RTMPMetaData *)

Record RTMPMetaData := mkMeta {
  md_parser : option AMFData;
  md_params : list AMFData;
  md_timestamp : Z;
}.

Definition new_meta (timestamp : Z) : RTMPMetaData := mkMeta None [] timestamp.

Definition AddParam (param : AMFData) (m : RTMPMetaData) : RTMPMetaData :=
  mkMeta (md_parser m) (md_params m ++ [param]) (md_timestamp m).

Definition meta_Clone (m : RTMPMetaData) : RTMPMetaData :=
  foldl (λ c d, AddParam (data_Clone d) c) (new_meta (md_timestamp m)) (md_params m).

Definition meta_Parse (data : bytes) (m : RTMPMetaData) : checked RTMPMetaData :=
  let? r := values_loop (λ d l, Got (l ++ [d])) (values_fuel data) data (md_parser m) (md_params m) in
  Got (mkMeta r.1 r.2 (md_timestamp m)).

Definition meta_GetSize (m : RTMPMetaData) : Z := foldr (λ d n, data_GetSize d + n) 0 (md_params m).

Definition meta_Serialize (m : RTMPMetaData) (size : Z) : checked (option bytes) :=
  if size <? meta_GetSize m then Got None
  else let? w := foldl (write_value size) (Got []) (md_params m) in Got (Some w).

(** ** RTMPMessage *)

(** [RTMPMessage::Type] *)
Definition SetChunkSize : Z := 1.
Definition AbortMessage : Z := 2.
Definition Acknowledgement : Z := 3.
Definition UserControlMessage : Z := 4.
Definition WindowAcknowledgementSize : Z := 5.
Definition SetPeerBandwidth : Z := 6.
Definition AudioMessage : Z := 8.
Definition VideoMessage : Z := 9.
Definition DataAMF3 : Z := 15.
Definition SharedObject : Z := 16.
Definition CommandAMF3 : Z := 17.
Definition DataMessage : Z := 18.
Definition SharedObjectAMF3 : Z := 19.
Definition Command : Z := 20.

(** [ctrl], [cmd], [meta] and [media], of which one at most is not null; of a control message the
    class matters for its [PreParse]. *)
Inductive Body :=
  | NoBody
  | Ctrl (PreParse : bool) (f : RTMPFormat)
  | Cmd (c : RTMPCommandMessage)
  | Meta (m : RTMPMetaData)
  | Media (f : RTMPFrame).

Record RTMPMessage := mkMsg {
  ms_body : Body;
  ms_streamId : Z;
  ms_type : Z;
  ms_length : Z;
  ms_timestamp : Z;
  ms_skip : bool;
  ms_parsing : bool;
  ms_pos : Z;
}.

(** The frame of an audio or video message finds room for its padding. *)
Definition block_fits (type length : Z) : bool :=
  match type with 8 | 9 => (length =? 0) || padding_fits length | _ => true end.

(** [RTMPMessage(streamId, timestamp, type, length)]: a message to parse, of which the block fits.  The
    exception for other types is built and not thrown. *)
Definition new_rtmp_message `{Memory} (streamId timestamp type length : Z) : RTMPMessage :=
  let body :=
    match type with
    | 1 | 2 | 3 | 5 => Ctrl false (new_format 4)
    | 4 => Ctrl true (new_format 10)
    | 6 => Ctrl false (new_format 5)
    | 17 | 20 => Cmd new_cmd
    | 15 | 18 => Meta (new_meta timestamp)
    | 8 => if length =? 0 then NoBody else Media (AudioFrame (new_audio timestamp length))
    | 9 => if length =? 0 then NoBody else Media (VideoFrame (new_video timestamp length))
    | _ => NoBody
    end in
  mkMsg body streamId type length timestamp ((type =? CommandAMF3) || (type =? DataAMF3)) true 0.

(** The constructors of messages to send, which leave the fields of parsing alone. *)
Definition ctrl_message (streamId timestamp type : Z) (ctrl : RTMPFormat) : RTMPMessage :=
  mkMsg (Ctrl (type =? UserControlMessage) ctrl) streamId type (fm_size ctrl) timestamp false false 0.
Definition cmd_message (streamId timestamp : Z) (cmd : RTMPCommandMessage) : RTMPMessage :=
  mkMsg (Cmd cmd) streamId Command (cmd_GetSize cmd) timestamp false false 0.
Definition media_message (streamId timestamp : Z) (media : RTMPFrame) : RTMPMessage :=
  mkMsg (Media media) streamId (match media with VideoFrame _ => VideoMessage | AudioFrame _ => AudioMessage end)
    (frame_GetSize media) timestamp false false 0.
Definition meta_message (streamId timestamp : Z) (meta : RTMPMetaData) : RTMPMessage :=
  mkMsg (Meta meta) streamId DataMessage (meta_GetSize meta) timestamp false false 0.

(** [RTMPMessage::Serialize]: what it writes. *)
Definition message_Serialize (m : RTMPMessage) (size : Z) : checked bytes :=
  match ms_body m with
  | Ctrl _ f => Got (default [] (format_Serialize f size))
  | Cmd c => let? w := cmd_Serialize c size in Got (default [] w)
  | Meta d => let? w := meta_Serialize d size in Got (default [] w)
  | Media f => Got (frame_Serialize f size)
  | NoBody => Got []
  end.

Definition IsControlProtocolMessage (m : RTMPMessage) : bool :=
  match ms_type m with 1 | 2 | 3 | 4 | 5 | 6 => true | _ => false end.
Definition IsCommandMessage (m : RTMPMessage) : bool :=
  match ms_type m with 20 | 17 => true | _ => false end.
Definition IsMetaData (m : RTMPMessage) : bool :=
  match ms_type m with 18 | 15 => true | _ => false end.
Definition IsSharedObject (m : RTMPMessage) : bool :=
  match ms_type m with 16 | 19 => true | _ => false end.
Definition IsMedia (m : RTMPMessage) : bool :=
  match ms_type m with 8 | 9 => true | _ => false end.

Definition message_IsParsed (m : RTMPMessage) : bool := negb (ms_parsing m).

(** The message with another body, [n] octets further; [parsing = (pos != length)]. *)
Definition parsed_on (m : RTMPMessage) (body : Body) (n : Z) (skip : bool) : RTMPMessage :=
  let pos := to_dword (ms_pos m + n) in
  mkMsg body (ms_streamId m) (ms_type m) (ms_length m) (ms_timestamp m) skip
    (negb (pos =? ms_length m)) pos.

(** A body in AMF: the first octet of an AMF 3 message is skipped when it is 0. *)
Definition parse_amf {A} (parse : bytes → A → checked A) (mk : A → Body) (data : bytes) (a : A)
    (m : RTMPMessage) : checked RTMPMessage :=
  if ms_skip m && negb (Zlen data =? 0) && (zget 0 data =? 0) then
    let? a := parse (zdrop 1 data) a in Got (parsed_on m (mk a) (Zlen data - 1 + 1) false)
  else let? a := parse data a in Got (parsed_on m (mk a) (Zlen data) (ms_skip m)).

(** [RTMPMessage::Parse]: the message afterwards and the octets used. *)
Definition message_Parse (data : bytes) (m : RTMPMessage) : checked (RTMPMessage * Z) :=
  let left := to_dword (ms_length m - ms_pos m) in
  let len := if left <? Zlen data then left else Zlen data in
  let data := ztake len data in
  let? m' :=
    (if IsControlProtocolMessage m then
       match ms_body m with
       | Ctrl pre f =>
           let? x := format_Parse (if pre then User_PreParse else no_PreParse) data f in
           let '(f, n) := x in
           Got (mkMsg (Ctrl pre f) (ms_streamId m) (ms_type m) (ms_length m) (ms_timestamp m)
                  (ms_skip m) (negb (format_IsParsed f)) (to_dword (ms_pos m + n)))
       | _ => Got m
       end
     else if IsCommandMessage m then
       match ms_body m with
       | Cmd c => parse_amf cmd_Parse Cmd data c m
       | b => Got (parsed_on m b 0 (ms_skip m))
       end
     else if IsMedia m then
       match ms_body m with
       | Media f => let? r := frame_Parse data f in Got (parsed_on m (Media r.1) r.2 (ms_skip m))
       | b => Got (parsed_on m b 0 (ms_skip m))
       end
     else if IsMetaData m then
       match ms_body m with
       | Meta d => parse_amf meta_Parse Meta data d m
       | b => Got (parsed_on m b 0 (ms_skip m))
       end
     else if IsSharedObject m then Got (parsed_on m (ms_body m) len (ms_skip m))
     else Refuse) in
  Got (m', len).
End Messages.
