(* ===== verification/RtmpChunk.v ===== *)
(** * RTMP: chunk streams

    src/mcu/src/rtmpchunk.cpp, src/mcu/include/rtmpchunk.h.  An output stream cuts its messages into
    chunks, each with the shortest header that what was sent before allows; an input stream keeps
    the same values for the headers it receives, and the message under construction.  The mutex of
    an output stream makes each of its methods one step. *)

From S2P Require Import Prelude Wire Octets RtmpFormat RtmpMedia Amf RtmpMessage.

(** ** RTMPChunkStreamInfo *)

Record StreamInfo := mkInfo {
  si_type : Z;
  si_streamId : Z;
  si_length : Z;
  si_timestamp : Z;
  si_timestampDelta : Z;
}.

(** The type is not initialised. *)
Definition new_info `{Memory} : StreamInfo := mkInfo leftover (2 ^ 32 - 1) (2 ^ 32 - 1) 0 0.

Definition info_SetTimestamp (ts : Z) (i : StreamInfo) : StreamInfo :=
  mkInfo (si_type i) (si_streamId i) (si_length i) ts (si_timestampDelta i).
Definition info_SetTimestampDelta (delta : Z) (i : StreamInfo) : StreamInfo :=
  mkInfo (si_type i) (si_streamId i) (si_length i) (si_timestamp i) delta.
Definition IncreaseTimestampWithDelta (i : StreamInfo) : StreamInfo :=
  info_SetTimestamp (to_dword (si_timestamp i + si_timestampDelta i)) i.
Definition info_SetMessageTypeId (type : Z) (i : StreamInfo) : StreamInfo :=
  mkInfo type (si_streamId i) (si_length i) (si_timestamp i) (si_timestampDelta i).
Definition info_SetMessageStreamId (streamId : Z) (i : StreamInfo) : StreamInfo :=
  mkInfo (si_type i) streamId (si_length i) (si_timestamp i) (si_timestampDelta i).
Definition info_SetMessageLength (length : Z) (i : StreamInfo) : StreamInfo :=
  mkInfo (si_type i) (si_streamId i) length (si_timestamp i) (si_timestampDelta i).

Section Chunks.
Context {W : WireOps} {V : MoreWireOps} {U : UTF8Ops} {M : Memory}.

(** ** RTMPChunkInputStream *)

Record RTMPChunkInputStream := mkInput {
  is_info : StreamInfo;
  is_message : option RTMPMessage;
}.

Definition new_input : RTMPChunkInputStream := mkInput new_info None.

Definition set_input_info (f : StreamInfo → StreamInfo) (s : RTMPChunkInputStream) : RTMPChunkInputStream :=
  mkInput (f (is_info s)) (is_message s).

(** The stream with the message under construction, a new one if there is none. *)
Definition started (s : RTMPChunkInputStream) : RTMPChunkInputStream :=
  match is_message s with
  | Some _ => s
  | None =>
      let i := is_info s in
      mkInput i (Some (new_rtmp_message (si_streamId i) (si_timestamp i) (si_type i) (si_length i)))
  end.

(** [StartChunkData]: a new media message allocates the block of its frame. *)
Definition StartChunkData (s : RTMPChunkInputStream) : checked RTMPChunkInputStream :=
  if negb (bool_decide (is_Some (is_message s))) && negb (block_fits (si_type (is_info s)) (si_length (is_info s)))
  then Fault else Got (started s).

Definition input_Parse (data : bytes) (s : RTMPChunkInputStream) : checked (RTMPChunkInputStream * Z) :=
  match is_message s with
  | None => Got (s, 0)
  | Some m => let? r := message_Parse data m in Got (mkInput (is_info s) (Some r.1), r.2)
  end.

Definition input_IsParsed (s : RTMPChunkInputStream) : bool :=
  match is_message s with Some m => message_IsParsed m | None => false end.

Definition GetMessage (s : RTMPChunkInputStream) : option RTMPMessage * RTMPChunkInputStream :=
  match is_message s with
  | Some m => if message_IsParsed m then (Some m, mkInput (is_info s) None) else (None, s)
  | None => (None, s)
  end.

Definition IsFirstChunk (s : RTMPChunkInputStream) : bool := negb (bool_decide (is_Some (is_message s))).

(** ** RTMPChunkOutputStream *)

Record RTMPChunkOutputStream := mkOutput {
  os_info : StreamInfo;
  os_messages : list RTMPMessage;
  os_chunkStreamId : Z;
  os_message : option RTMPMessage;
  os_pos : Z;
  os_msgBuffer : bytes;
}.

Definition new_output (chunkStreamId : Z) : RTMPChunkOutputStream :=
  mkOutput new_info [] chunkStreamId None leftover [].

Definition SendMessage (msg : RTMPMessage) (s : RTMPChunkOutputStream) : RTMPChunkOutputStream * bool :=
  (mkOutput (os_info s) (os_messages s ++ [msg]) (os_chunkStreamId s) (os_message s) (os_pos s)
     (os_msgBuffer s), negb (20 <? Zlen (os_messages s))).

Definition HasData (s : RTMPChunkOutputStream) : bool :=
  bool_decide (is_Some (os_message s)) || negb (bool_decide (os_messages s = [])).

(** [ResetStream(id)]: whether the message being sent was of that stream. *)
Definition ResetStream (id : Z) (s : RTMPChunkOutputStream) : RTMPChunkOutputStream * bool :=
  let messages := filter (λ m, ms_streamId m ≠ id) (os_messages s) in
  let abort := match os_message s with Some m => ms_streamId m =? id | None => false end in
  (mkOutput (os_info s) messages (os_chunkStreamId s) (if abort then None else os_message s) (os_pos s)
     (if abort then [] else os_msgBuffer s), abort).

(** The header of the first chunk of a message: its format, the message header if any, the extended
    timestamp if any, and the delta kept for the next message. *)
Definition select_header (i : StreamInfo) (msgType msgStreamId msgLength msgTimestamp : Z)
    : Z * option RTMPFormat * option RTMPFormat * Z :=
  let msgTimestampDelta := to_dword (msgTimestamp - si_timestamp i) in
  if (msgStreamId =? 0) || negb (msgStreamId =? si_streamId i) || (msgTimestamp <? si_timestamp i) then
    let ext := 0xFFFFFF <=? msgTimestamp in
    let type0 := Type0_SetTimestamp (if ext then 0xFFFFFF else msgTimestamp) (new_format 11) in
    let type0 := Type0_SetMessageLength msgLength type0 in
    let type0 := Type0_SetMessageTypeId msgType type0 in
    let type0 := Type0_SetMessageStreamId msgStreamId type0 in
    (0, Some type0, (if ext then Some (Ext_SetTimestamp msgTimestamp (new_format 4)) else None), 0)
  else if negb (msgLength =? si_length i) || negb (msgType =? si_type i) then
    let type1 := Type1_SetTimestampDelta msgTimestampDelta (new_format 7) in
    let type1 := Type1_SetMessageLength msgLength type1 in
    let type1 := Type1_SetMessageTypeId msgType type1 in
    (1, Some type1, None, msgTimestampDelta)
  else if negb (msgTimestampDelta =? si_timestampDelta i) then
    (2, Some (Type2_SetTimestampDelta msgTimestampDelta (new_format 3)), None, msgTimestampDelta)
  else (3, None, None, msgTimestampDelta).

(** [malloc(msgLength)] and [message->Serialize(msgBuffer, msgLength)] *)
Definition message_block (m : RTMPMessage) : checked bytes :=
  let? w := message_Serialize m (ms_length m) in
  if ms_length m <? Zlen w then Fault else Got (write_at 0 w (fresh (ms_length m))).

(** [o->Serialize(data + at, size - at)], whose [-1] is added to the length as well. *)
Definition serialize_at (o : option RTMPFormat) (r : bytes * Z) : checked (bytes * Z) :=
  match o with
  | None => Got r
  | Some o =>
      let '(data, at_) := r in
      match format_Serialize o (to_dword (Zlen data - at_)) with
      | None => Got (data, to_dword (at_ + (2 ^ 32 - 1)))
      | Some w => if Zlen data <? at_ + Zlen w then Fault else Got (write_at at_ w data, at_ + Zlen w)
      end
  end.

(** The first part of [GetNextChunk]: the message to go on with, and the headers of its next chunk. *)
Definition next_headers (s : RTMPChunkOutputStream)
    : checked (RTMPChunkOutputStream * Z * option RTMPFormat * option RTMPFormat) :=
  match os_message s, os_messages s with
  | Some _, _ => Got (s, 3, None, None)
  | None, [] => Refuse
  | None, m :: messages =>
      let i := os_info s in
      let msgTimestamp := to_dword (ms_timestamp m) in
      let? block := message_block m in
      let '(fmt, header, ext, delta) :=
        select_header i (ms_type m) (ms_streamId m) (ms_length m) msgTimestamp in
      Got (mkOutput (mkInfo (ms_type m) (ms_streamId m) (ms_length m) msgTimestamp delta) messages
             (os_chunkStreamId s) (Some m) 0 block, fmt, header, ext)
  end.

(** [GetNextChunk(data, size, maxChunkSize)]: the stream, the buffer and the length afterwards. *)
Definition GetNextChunk (data : bytes) (maxChunkSize : Z) (s : RTMPChunkOutputStream)
    : checked (RTMPChunkOutputStream * bytes * Z) :=
  let size := Zlen data in
  match next_headers s with
  | Fault => Fault
  | Refuse => Got (s, data, 0)
  | Got (s, fmt, chunkHeader, ext) =>
      let header := Basic_SetFmt fmt (Basic_SetStreamId (os_chunkStreamId s) (new_format 3)) in
      let? r := serialize_at (Some header) (data, 0) in
      let? r := serialize_at chunkHeader r in
      let? r := serialize_at ext r in
      let '(data, headersLen) := r in
      let left := to_dword (si_length (os_info s) - os_pos s) in
      let payloadLen := if left <? maxChunkSize then left else maxChunkSize in
      let payloadLen :=
        if size <=? headersLen then 0
        else if size - headersLen <? payloadLen then size - headersLen else payloadLen in
      let data := write_at headersLen (ztake payloadLen (zdrop (os_pos s) (os_msgBuffer s))) data in
      let pos := to_dword (os_pos s + payloadLen) in
      let done := pos =? si_length (os_info s) in
      Got (mkOutput (os_info s) (os_messages s) (os_chunkStreamId s)
             (if done then None else os_message s) pos (if done then [] else os_msgBuffer s),
           data, to_dword (headersLen + payloadLen))
  end.
End Chunks.
