(* ===== verification/RtmpChunkProps.v ===== *)
(** * RTMP: what a chunk looks like

    The octets of the headers that an output stream writes, what the reader takes from them, and the
    octets of a chunk as a whole. *)

From S2P Require Import Prelude OrderedMap Wire Octets BitStreamClaims RtmpFormat RtmpMedia RtmpMediaProps Amf RtmpMessage RtmpChunk.

(** ** Octets *)

Lemma be_get_put_other n m b i j v : 0 <= i → 0 <= j → j + Z.of_nat n <= i ∨ i + Z.of_nat m <= j →
  be_get n (be_put m b i v) j = be_get n b j.
Proof. intros Hi Hj Ho. apply be_get_agree; [done|]. intros k Hk. apply be_put_other; lia. Qed.

Lemma write_at_before i w data k : 0 <= k < i → i <= Zlen data → write_at i w data !! Z.to_nat k = data !! Z.to_nat k.
Proof.
  intros Hk Hi. unfold write_at, ztake, zdrop, Zlen in *.
  rewrite lookup_app_l by (rewrite length_take; lia). by rewrite lookup_take_lt by lia.
Qed.

Lemma zget_write_at_in i w data k : 0 <= k < Zlen w → 0 <= i <= Zlen data → zget (i + k) (write_at i w data) = zget k w.
Proof.
  intros Hk Hi. assert (Ht : Zlen (ztake i data) = i) by (rewrite Zlen_ztake; lia).
  unfold write_at, zget. rewrite lookup_app_r by (unfold Zlen in *; lia).
  rewrite lookup_app_l by (unfold Zlen in *; lia). do 2 f_equal. unfold Zlen in *. lia.
Qed.

Lemma write_at_append i w data : 0 <= i → i + Zlen w <= Zlen data →
  ztake (i + Zlen w) (write_at i w data) = ztake i data ++ w.
Proof.
  intros Hi Hw. pose proof (Zlen_nonneg w). unfold write_at. rewrite app_assoc, ztake_app; [done|].
  rewrite Zlen_app, Zlen_ztake; lia.
Qed.

(** ** Basic header *)

Definition basic_octets (fmt csid : Z) : bytes :=
  if csid <? 64 then [fmt * 64 + csid]
  else if csid <? 320 then [fmt * 64; csid - 64]
  else [fmt * 64 + 1; (csid - 64) mod 256; (csid - 64) / 256].

Definition csid_ok (csid : Z) : Prop := 2 <= csid < 65600.

Lemma fresh3 `{Memory} : ∃ a b c, fresh 3 = [a; b; c].
Proof.
  pose proof (fresh_length 3 ltac:(lia)) as Hl. unfold Zlen in Hl.
  destruct (fresh 3) as [|a [|b [|c [|]]]]; simpl in Hl; try lia. eauto.
Qed.

Lemma land_C0_3F a c : 0 <= c < 64 → Z.land (to_byte (Z.lor (Z.land a 0xC0) c)) 0x3F = c.
Proof.
  intros Hc. unfold to_byte. rewrite <- !(Z.land_ones _ 8) by lia. change 0x3F with (Z.ones 6).
  rewrite <- (Z.mod_small c (2 ^ 6)) at 2 by lia. rewrite <- Z.land_ones by lia.
  apply Z.bits_inj'. intros n Hn. rewrite !Z.land_spec, Z.lor_spec, Z.land_spec.
  destruct (Z.lt_ge_cases n 6) as [H6|H6].
  - rewrite (Z.ones_spec_low 8), (Z.ones_spec_low 6) by lia. rewrite !andb_true_r.
    assert (Z.testbit 0xC0 n = false) as ->; [|by rewrite andb_false_r].
    assert (n = 0 ∨ n = 1 ∨ n = 2 ∨ n = 3 ∨ n = 4 ∨ n = 5) as Hcases by lia.
    destruct_or! Hcases; subst n; done.
  - rewrite (Z.ones_spec_high 6) by lia. by rewrite !andb_false_r.
Qed.

Lemma land_C0_3F' a : Z.land (Z.land a 0xC0) 0x3F = 0.
Proof. by rewrite <- Z.land_assoc, Z.land_0_r. Qed.

Lemma basic_header_octets `{Memory} fmt csid : 0 <= fmt < 4 → csid_ok csid →
  let h := Basic_SetFmt fmt (Basic_SetStreamId csid (new_format 3)) in
  fm_size h = Zlen (basic_octets fmt csid) ∧ ztake (fm_size h) (fm_data h) = basic_octets fmt csid.
Proof.
  intros Hf Hc. unfold csid_ok in Hc. destruct fresh3 as (a & b & c & Hfr).
  unfold basic_octets, Basic_SetStreamId, Basic_SetFmt, new_format. cbv zeta.
  assert (Hlor : ∀ v, 0 <= v < 64 → to_byte (Z.lor (Z.shiftl fmt 6) v) = fmt * 64 + v).
  { intros v Hv. rewrite lor_shiftl by lia. unfold to_byte. rewrite Z.mod_small; lia. }
  destruct (Z.ltb_spec csid 64); [|destruct (Z.ltb_spec csid 320)];
    cbn [set_format_data set_format_size fm_data fm_size]; rewrite Hfr; (split; [done|]);
    cbn [insert list_insert]; rewrite zget_0_cons; unfold ztake; change (Z.to_nat 1) with 1%nat; change (Z.to_nat 2) with 2%nat; change (Z.to_nat 3) with 3%nat; cbn [take].
  - by rewrite zget_0_cons, land_C0_3F, Hlor by lia.
  - rewrite zget_0_cons, land_C0_3F', Hlor, Z.add_0_r by lia. do 2 f_equal. unfold to_byte. rewrite Z.mod_small; lia.
  - rewrite zget_0_cons. assert (Z.land (Z.lor (Z.land a 0xC0) 1) 0x3F = 1) as ->.
    { rewrite Z.land_lor_distr_l, land_C0_3F'. done. }
    rewrite Hlor by lia. f_equal. change 0xFF with (Z.ones 8). rewrite Z.land_ones by lia. f_equal. f_equal.
    rewrite Z.shiftr_div_pow2 by lia. apply Z.mod_small. split; [apply Z.div_pos; lia|apply Z.div_lt_upper_bound; lia].
Qed.

(** The reader finds the format and the stream again. *)
Lemma basic_header_parsed fmt csid h : 0 <= fmt < 4 → csid_ok csid →
  fm_SIZE h = 3 → Zlen (fm_data h) = 3 → fm_len h = 0 →
  ∃ x, (∀ rest, format_Parse Basic_PreParse (basic_octets fmt csid ++ rest) h = Got (x, Zlen (basic_octets fmt csid))) ∧
    format_IsParsed x = true ∧ Basic_GetFmt x = fmt ∧ Basic_GetStreamId x = csid ∧ fm_SIZE x = 3 ∧ Zlen (fm_data x) = 3.
Proof.
  intros Hf Hc HS Hd Hl. unfold csid_ok in Hc. destruct h as [S d l s]. simpl in HS, Hd, Hl. subst S l.
  assert (∃ a b c, d = [a; b; c]) as (a & b & c & ->).
  { unfold Zlen in Hd. destruct d as [|a [|b [|c [|]]]]; simpl in Hd; try lia. eauto. }
  assert (Hlow : ∀ v, 0 <= v < 64 → Z.land (fmt * 64 + v) 0x3F = v ∧ Z.shiftr (fmt * 64 + v) 6 = fmt).
  { intros v Hv. change 0x3F with (Z.ones 6). rewrite Z.land_ones, Z.shiftr_div_pow2 by lia.
    change (2 ^ 6) with 64. rewrite Z.add_comm, Z.mod_add, Z.mod_small, Z.div_add, Z.div_small by lia. lia. }
  assert (Htake : ∀ n k, 0 < n → n <= k → (if n <? k then n - 0 else k) = n).
  { intros n k H1 H2. destruct (Z.ltb_spec n k); lia. }
  unfold basic_octets. destruct (Z.ltb_spec csid 64); [|destruct (Z.ltb_spec csid 320)].
  - destruct (Hlow csid) as [H1 H2]; [lia|].
    exists (mkFormat 3 [fmt * 64 + csid; b; c] 1 1). split.
    { intros rest. pose proof (Zlen_nonneg rest). unfold format_Parse.
      rewrite Zlen_app, !Zlen_cons, ?Zlen_nil, (proj2 (Z.eqb_neq _ _)) by lia.
      unfold Basic_PreParse. cbn [fm_len Z.eqb app]. rewrite rd1_in by (rewrite ?Zlen_cons; lia). cbn [cbind]. rewrite zget_0_cons, H1.
      rewrite (proj2 (Z.eqb_neq csid 0)), (proj2 (Z.eqb_neq csid 1)) by lia.
      cbn [set_format_size fm_size fm_len fm_SIZE fm_data]. change (to_dword (1 - 0)) with 1. rewrite Htake by lia.
      rewrite rd_copy_in by (rewrite ?Zlen_cons; lia). cbn [cbind].
      unfold ztake, zdrop. change (Z.to_nat 0) with 0%nat. change (Z.to_nat 1) with 1%nat. cbn [drop take]. rewrite ?take_0.
      by rewrite wr_copy_in by (rewrite ?Zlen_cons, ?Zlen_nil; lia). }
    unfold Basic_GetFmt, Basic_GetStreamId. cbn [fm_data fm_size fm_SIZE Z.eqb Pos.eqb]. rewrite !zget_0_cons. by rewrite H1, H2.
  - destruct (Hlow 0) as [H1 H2]; [lia|]. rewrite Z.add_0_r in H1, H2.
    exists (mkFormat 3 [fmt * 64; csid - 64; c] 2 2). split.
    { intros rest. pose proof (Zlen_nonneg rest). unfold format_Parse.
      rewrite Zlen_app, !Zlen_cons, ?Zlen_nil, (proj2 (Z.eqb_neq _ _)) by lia.
      unfold Basic_PreParse. cbn [fm_len Z.eqb app]. rewrite rd1_in by (rewrite ?Zlen_cons; lia). cbn [cbind]. rewrite zget_0_cons, H1. cbn [Z.eqb].
      cbn [set_format_size fm_size fm_len fm_SIZE fm_data]. change (to_dword (2 - 0)) with 2. rewrite Htake by lia.
      rewrite rd_copy_in by (rewrite ?Zlen_cons; lia). cbn [cbind].
      unfold ztake, zdrop. change (Z.to_nat 0) with 0%nat. change (Z.to_nat 2) with 2%nat. cbn [drop take]. rewrite ?take_0.
      by rewrite wr_copy_in by (rewrite ?Zlen_cons, ?Zlen_nil; lia). }
    unfold Basic_GetFmt, Basic_GetStreamId. cbn [fm_data fm_size fm_SIZE Z.eqb Pos.eqb]. rewrite !zget_0_cons, H2. octets_at.
    split_and!; try done; lia.
  - destruct (Hlow 1) as [H1 H2]; [lia|].
    exists (mkFormat 3 [fmt * 64 + 1; (csid - 64) mod 256; (csid - 64) / 256] 3 3). split.
    { intros rest. pose proof (Zlen_nonneg rest). unfold format_Parse.
      rewrite Zlen_app, !Zlen_cons, ?Zlen_nil, (proj2 (Z.eqb_neq _ _)) by lia.
      unfold Basic_PreParse. cbn [fm_len Z.eqb app]. rewrite rd1_in by (rewrite ?Zlen_cons; lia). cbn [cbind]. rewrite zget_0_cons, H1. cbn [Z.eqb Pos.eqb].
      cbn [set_format_size fm_size fm_len fm_SIZE fm_data]. change (to_dword (3 - 0)) with 3. rewrite Htake by lia.
      rewrite rd_copy_in by (rewrite ?Zlen_cons; lia). cbn [cbind].
      unfold ztake, zdrop. change (Z.to_nat 0) with 0%nat. change (Z.to_nat 3) with 3%nat. cbn [drop take]. rewrite ?take_0.
      by rewrite wr_copy_in by (rewrite ?Zlen_cons, ?Zlen_nil; lia). }
    unfold Basic_GetFmt, Basic_GetStreamId. cbn [fm_data fm_size fm_SIZE Z.eqb Pos.eqb]. rewrite !zget_0_cons, H2. octets_at.
    split_and!; try done. pose proof (Z.div_mod (csid - 64) 256). lia.
Qed.

(** ** Message headers *)

Lemma host_get4_put v i d : is_dword v → 0 <= i → i + 4 <= Zlen d → host_get4 (write_at i (host_put4 v) d) i = v.
Proof.
  intros Hv Hi Hd. unfold host_get4.
  assert (H : ∀ k, 0 <= k < 4 → zget (i + k) (write_at i (host_put4 v) d) = zget k (host_put4 v)).
  { intros k Hk. apply zget_write_at_in; [done|lia]. }
  rewrite <- (Z.add_0_r i) at 1. rewrite !H by lia. unfold host_put4. octets_at.
  assert (Hb : to_dword v = v) by (apply Z.mod_small; exact Hv).
  rewrite to_dword_bytes in Hb. change (2 ^ 8) with 256. change (2 ^ 16) with (256 ^ 2). change (2 ^ 24) with (256 ^ 3). lia.
Qed.

Section Headers.
Context {W : WireOps} {V : MoreWireOps} {U : UTF8Ops} {M : Memory} {HN : NetworkOrder W V}.

Definition type0_of (ts len type sid : Z) : RTMPFormat :=
  Type0_SetMessageStreamId sid (Type0_SetMessageTypeId type (Type0_SetMessageLength len
    (Type0_SetTimestamp ts (new_format 11)))).
Definition type1_of (delta len type : Z) : RTMPFormat :=
  Type1_SetMessageTypeId type (Type1_SetMessageLength len (Type1_SetTimestampDelta delta (new_format 7))).
Definition type2_of (delta : Z) : RTMPFormat := Type2_SetTimestampDelta delta (new_format 3).

Lemma put3_fields d ts len type : 7 <= Zlen d → 0 <= ts < 2 ^ 24 → 0 <= len < 2 ^ 24 → is_byte type →
  let b := be_put 1 (be_put 3 (be_put 3 d 0 ts) 3 len) 6 type in
  be_get 3 b 0 = ts ∧ be_get 3 b 3 = len ∧ be_get 1 b 6 = type.
Proof.
  intros Hd Ht Hl Hy b. unfold b. rewrite !(be_get_put_other 3 1) by lia. rewrite (be_get_put_other 3 3) by lia.
  rewrite !be_get_put by (rewrite ?be_put_length; lia). unfold is_byte in Hy. rewrite !Z.mod_small; [done|lia..].
Qed.

Lemma type0_fields ts len type sid :
  0 <= ts < 2 ^ 24 → 0 <= len < 2 ^ 24 → is_byte type → is_dword sid →
  let t := mkFormat 11 (fm_data (type0_of ts len type sid)) 11 11 in
  Zlen (fm_data t) = 11 ∧ Type0_GetTimestamp t = ts ∧ Type0_GetMessageLength t = len ∧
  Type0_GetMessageTypeId t = type ∧ Type0_GetMessageStreamId t = sid.
Proof.
  intros Ht Hl Hy Hs t. pose proof (fresh_length 11 ltac:(lia)) as Hf. unfold t, type0_of.
  unfold Type0_GetTimestamp, Type0_GetMessageLength, Type0_GetMessageTypeId, Type0_GetMessageStreamId.
  cbn [Type0_SetMessageStreamId Type0_SetMessageTypeId Type0_SetMessageLength Type0_SetTimestamp set_format_data fm_data new_format].
  rewrite !set3_be, set1_be, !get3_be, get1_be.
  destruct (put3_fields (fresh 11) ts len type) as (H1 & H2 & H3); [lia|done..|].
  assert (H4 : ∀ n i, 0 <= i → i + Z.of_nat n <= 7 → ∀ b, Zlen b = 11 →
    be_get n (write_at 7 (host_put4 sid) b) i = be_get n b i).
  { intros n i Hi Hn b Hb. apply be_get_agree; [done|]. intros k Hk. apply write_at_before; lia. }
  set (b := be_put 1 _ 6 type) in *. assert (Hb : Zlen b = 11) by (unfold b; by rewrite !be_put_length).
  rewrite !H4 by (done || lia). rewrite H1, H2, H3.
  split_and!; try done; [|apply host_get4_put; [done|lia..]].
  rewrite write_at_length; [done|lia|]. rewrite Hb. change (Zlen (host_put4 sid)) with 4. lia.
Qed.

Lemma type1_fields delta len type :
  0 <= delta < 2 ^ 24 → 0 <= len < 2 ^ 24 → is_byte type →
  let t := mkFormat 7 (fm_data (type1_of delta len type)) 7 7 in
  Zlen (fm_data t) = 7 ∧ Type1_GetTimestampDelta t = delta ∧ Type1_GetMessageLength t = len ∧
  Type1_GetMessageTypeId t = type.
Proof.
  intros Ht Hl Hy t. pose proof (fresh_length 7 ltac:(lia)) as Hf. unfold t, type1_of.
  unfold Type1_GetTimestampDelta, Type1_GetMessageLength, Type1_GetMessageTypeId.
  cbn [Type1_SetMessageTypeId Type1_SetMessageLength Type1_SetTimestampDelta set_format_data fm_data new_format].
  rewrite !set3_be, set1_be, !get3_be, get1_be.
  destruct (put3_fields (fresh 7) delta len type) as (H1 & H2 & H3); [lia|done..|].
  rewrite !be_put_length. auto.
Qed.

Lemma type2_fields delta : 0 <= delta < 2 ^ 24 →
  let t := mkFormat 3 (fm_data (type2_of delta)) 3 3 in
  Zlen (fm_data t) = 3 ∧ Type2_GetTimestampDelta t = delta.
Proof.
  intros Ht t. pose proof (fresh_length 3 ltac:(lia)) as Hf. unfold t, type2_of, Type2_GetTimestampDelta.
  cbn [Type2_SetTimestampDelta set_format_data fm_data new_format]. rewrite set3_be, get3_be, be_put_length.
  split; [done|]. rewrite be_get_put by lia. apply Z.mod_small. lia.
Qed.
End Headers.

(** ** The octets of a chunk *)

Section Sender.
Context {W : WireOps} {V : MoreWireOps} {U : UTF8Ops} {M : Memory} {HN : NetworkOrder W V}.

Definition whole_header (o : option RTMPFormat) : Prop :=
  match o with Some f => fm_size f = Zlen (fm_data f) | None => True end.
Definition header_octets (o : option RTMPFormat) : bytes := from_option fm_data [] o.

Lemma serialize_at_some f data at_ w : ztake (fm_size f) (fm_data f) = w → fm_size f = Zlen w →
  0 <= at_ → at_ + Zlen w <= Zlen data < 2 ^ 32 →
  serialize_at (Some f) (data, at_) = Got (write_at at_ w data, at_ + Zlen w).
Proof.
  intros Hw Hs Ha Hd. pose proof (Zlen_nonneg w). unfold serialize_at, format_Serialize, to_dword.
  rewrite Z.mod_small, Hs, (proj2 (Z.ltb_ge _ _)) by lia. rewrite Hs in Hw. rewrite Hw.
  by rewrite (proj2 (Z.ltb_ge _ _)) by lia.
Qed.

Lemma serialize_at_header o data at_ : whole_header o →
  0 <= at_ → at_ + Zlen (header_octets o) <= Zlen data < 2 ^ 32 →
  ∃ data', serialize_at o (data, at_) = Got (data', at_ + Zlen (header_octets o)) ∧ Zlen data' = Zlen data ∧
    ztake (at_ + Zlen (header_octets o)) data' = ztake at_ data ++ header_octets o.
Proof.
  intros Ho Ha Hd. destruct o as [f|]; cbn [header_octets whole_header from_option] in *.
  - rewrite (serialize_at_some f data at_ (fm_data f)); [|rewrite Ho; apply ztake_all; lia|done|done|done].
    eexists. split; [done|]. split; [apply write_at_length; lia|]. apply write_at_append; lia.
  - exists data. rewrite Zlen_nil, Z.add_0_r, app_nil_r. done.
Qed.

(** The part of the message that goes into the next chunk, and the stream afterwards. *)
Definition chunk_payload (max : Z) (s : RTMPChunkOutputStream) : bytes :=
  ztake (Z.min max (si_length (os_info s) - os_pos s)) (zdrop (os_pos s) (os_msgBuffer s)).
Definition after_chunk (n : Z) (s : RTMPChunkOutputStream) : RTMPChunkOutputStream :=
  let done := os_pos s + n =? si_length (os_info s) in
  mkOutput (os_info s) (os_messages s) (os_chunkStreamId s) (if done then None else os_message s)
    (os_pos s + n) (if done then [] else os_msgBuffer s).

Definition under_way (s : RTMPChunkOutputStream) : Prop :=
  0 <= os_pos s < si_length (os_info s) ∧ si_length (os_info s) < 2 ^ 24 ∧
  Zlen (os_msgBuffer s) = si_length (os_info s).

Lemma chunk_payload_length max s : under_way s → 0 < max →
  Zlen (chunk_payload max s) = Z.min max (si_length (os_info s) - os_pos s).
Proof. intros (Hp & Hl & Hb) Hm. unfold chunk_payload. rewrite Zlen_ztake; [lia|]. rewrite Zlen_zdrop; lia. Qed.

Lemma GetNextChunk_octets data max s s1 fmt hdr :
  next_headers s = Got (s1, fmt, hdr, None) → 0 <= fmt < 4 → csid_ok (os_chunkStreamId s1) → whole_header hdr →
  under_way s1 → 0 < max →
  Zlen (basic_octets fmt (os_chunkStreamId s1)) + Zlen (header_octets hdr) + max <= Zlen data < 2 ^ 32 →
  let w := basic_octets fmt (os_chunkStreamId s1) ++ header_octets hdr ++ chunk_payload max s1 in
  ∃ data', GetNextChunk data max s = Got (after_chunk (Zlen (chunk_payload max s1)) s1, data', Zlen w) ∧
    Zlen data' = Zlen data ∧ ztake (Zlen w) data' = w.
Proof.
  intros Hn Hf Hc Hh Hu Hm Hd w. pose proof (chunk_payload_length max s1 Hu Hm) as Hp. destruct Hu as (H1 & H2 & H3).
  set (b := basic_octets fmt (os_chunkStreamId s1)) in *. set (h := header_octets hdr) in *.
  set (p := chunk_payload max s1) in *. pose proof (Zlen_nonneg b). pose proof (Zlen_nonneg h).
  unfold GetNextChunk. rewrite Hn.
  destruct (basic_header_octets fmt (os_chunkStreamId s1) Hf Hc) as [Hs Ho]. fold b in Hs, Ho.
  rewrite (serialize_at_some _ data 0 b Ho Hs) by lia. cbn [cbind]. rewrite Z.add_0_l.
  assert (Hl1 : Zlen (write_at 0 b data) = Zlen data) by (apply write_at_length; lia).
  destruct (serialize_at_header hdr (write_at 0 b data) (Zlen b)) as (data1 & -> & Hl2 & Ht2); [done|lia|fold h; lia|].
  fold h in Hl2, Ht2 |- *. cbn [cbind serialize_at].
  assert (Hleft : to_dword (si_length (os_info s1) - os_pos s1) = si_length (os_info s1) - os_pos s1)
    by (apply Z.mod_small; lia).
  rewrite Hleft.
  assert (Hmin : (if si_length (os_info s1) - os_pos s1 <? max then si_length (os_info s1) - os_pos s1 else max) = Zlen p)
    by (rewrite Hp; case_match; ztests; lia).
  rewrite Hmin. rewrite (proj2 (Z.leb_gt _ _)), (proj2 (Z.ltb_ge _ _)) by lia.
  assert (Hpos : to_dword (os_pos s1 + Zlen p) = os_pos s1 + Zlen p) by (apply Z.mod_small; lia).
  rewrite Hpos. assert (Hpay : ztake (Zlen p) (zdrop (os_pos s1) (os_msgBuffer s1)) = p) by (rewrite Hp; reflexivity).
  rewrite Hpay. assert (Hw : to_dword (Zlen b + Zlen h + Zlen p) = Zlen w).
  { unfold w. rewrite !Zlen_app, Z.add_assoc. apply Z.mod_small. lia. }
  rewrite Hw. eexists. split; [done|]. split; [rewrite write_at_length; lia|].
  assert (Zlen w = Zlen b + Zlen h + Zlen p) as -> by (unfold w; rewrite !Zlen_app; lia).
  rewrite write_at_append by lia. rewrite Ht2. unfold w. rewrite <- app_assoc. f_equal.
  rewrite write_at_0, ztake_app; done.
Qed.
End Sender.
