(* ===== verification/RtmpConnection.v ===== *)
(** * RTMP: the connection and its handshake

    src/mcu/include/rtmphandshake.h: where the digest of a packet of 1536 octets stands, how it is
    computed and verified.  HMAC-SHA256 is OpenSSL's, the class [Hmac].

    [RTMPConnection] (src/mcu/src/rtmpconnection.cpp, src/mcu/include/rtmpconnection.h) on the side
    of the octets: the handshake, the reading of chunks, protocol control messages, the commands of
    the client, and the writing of chunks.  The reading thread calls [ParseData] with what it has
    read; the writing thread calls [SerializeChunkData].

    Calls to the application and to its streams are the events of the log, in their order; what the
    application does with the connection in return are the callbacks [onMediaFrame],
    [onStreamBegin], ..., which only touch the output streams.  The clock, the random octets and the
    application's answers are the record [RtmpEnv].  An exception is [Refuse] (the thread closes the
    connection), a null pointer or a read out of bounds is [Fault]. *)

From S2P Require Import Prelude Wire Octets RtmpFormat OrderedMap RtmpMedia Amf RtmpMessage RtmpChunk.

(** [HMACsha256(message, key)] *)
Class Hmac := {
  HMACsha256 : bytes → bytes → bytes;
  HMACsha256_length m k : Zlen (HMACsha256 m k) = 32;
}.

Definition GenuineFMSKey : bytes :=
  octets "Genuine Adobe Flash Media Server 001" ++
  [0xf0; 0xee; 0xc2; 0x4a; 0x80; 0x68; 0xbe; 0xe8; 0x2e; 0x00; 0xd0; 0xd1; 0x02; 0x9e; 0x7e; 0x57;
   0x6e; 0xec; 0x5d; 0x2d; 0x29; 0x80; 0x6f; 0xab; 0x93; 0xb8; 0xe6; 0x36; 0xcf; 0xeb; 0x31; 0xae].
Definition GenuineFPKey : bytes :=
  octets "Genuine Adobe Flash Player 001" ++
  [0xf0; 0xee; 0xc2; 0x4a; 0x80; 0x68; 0xbe; 0xe8; 0x2e; 0x00; 0xd0; 0xd1; 0x02; 0x9e; 0x7e; 0x57;
   0x6e; 0xec; 0x5d; 0x2d; 0x29; 0x80; 0x6f; 0xab; 0x93; 0xb8; 0xe6; 0x36; 0xcf; 0xeb; 0x31; 0xae].

Definition digest_sum (d : bytes) (i : Z) : Z := zget i d + zget (i + 1) d + zget (i + 2) d + zget (i + 3) d.

Definition GetDigestOffset2 (handshake : bytes) : Z :=
  if Zlen handshake <? 776 then 0 else digest_sum handshake 772 mod 728 + 776.
Definition GetDigestOffset1 (handshake : bytes) : Z :=
  if Zlen handshake <? 12 then 0 else digest_sum handshake 8 mod 728 + 12.

Definition digest_offset (method : Z) (d : bytes) : Z :=
  if method =? 1 then GetDigestOffset1 d else GetDigestOffset2 d.

Section Digests.
Context {HM : Hmac}.

(** [CalculateDigest]: the packet without the digest, 1504 octets. *)
Definition CalculateDigest (digestPos : Z) (handshake key : bytes) : checked bytes :=
  let? before := rd_copy handshake 0 digestPos in
  let? after := rd_copy handshake (digestPos + 32) (1504 - digestPos) in
  Got (HMACsha256 (before ++ after) key).

Definition VerifyDigest (digestPos : Z) (handshake key : bytes) : checked bool :=
  let? calc := CalculateDigest digestPos handshake key in
  let? digest := rd_copy handshake digestPos 32 in
  Got (bool_decide (digest = calc)).

(** [VerifyC1Data]: the method by which the digest was placed, 0 when there is none. *)
Definition VerifyC1Data (data : bytes) : checked Z :=
  let? check := VerifyDigest (GetDigestOffset1 data) data (ztake 30 GenuineFPKey) in
  if check then Got 1
  else
    let? check := VerifyDigest (GetDigestOffset2 data) data (ztake 30 GenuineFPKey) in
    Got (if check then 2 else 0).

Definition GenerateS1Data (method : Z) (data : bytes) : checked bytes :=
  let pos := digest_offset method data in
  let? digest := CalculateDigest pos data (ztake 36 GenuineFMSKey) in
  Got (write_at pos digest data).

Definition GenerateS2Data (method : Z) (data : bytes) : checked bytes :=
  let? challenge := rd_copy data (digest_offset method data) 32 in
  let digestResp := HMACsha256 challenge GenuineFMSKey in
  let? signed := rd_copy data 0 (Zlen data - 32) in
  Got (write_at (Zlen data - 32) (HMACsha256 signed digestResp) data).

(** ** Digests are inside the packet, and the one written is the one verified *)

Lemma digest_offset_range method d :
  Zlen d = 1536 → 12 <= digest_offset method d <= 1503.
Proof.
  intros Hd. unfold digest_offset, GetDigestOffset1, GetDigestOffset2. rewrite Hd. simpl.
  assert (H : ∀ i, 0 <= digest_sum d i mod 728 < 728) by (intros; apply Z.mod_pos_bound; lia).
  pose proof (H 8). pose proof (H 772). destruct (method =? 1); lia.
Qed.

Lemma digest_offset_sum method d e : Zlen d = 1536 → Zlen e = 1536 →
  (∀ k, k < digest_offset method d → zget k e = zget k d) → digest_offset method e = digest_offset method d.
Proof.
  intros Hd He. unfold digest_offset, GetDigestOffset1, GetDigestOffset2. rewrite Hd, He. simpl.
  assert (Hm : ∀ i, 0 <= digest_sum d i mod 728 < 728) by (intros; apply Z.mod_pos_bound; lia).
  pose proof (Hm 8). pose proof (Hm 772).
  assert (Hs : ∀ i n, (∀ k, k < n → zget k e = zget k d) → i + 3 < n → digest_sum e i = digest_sum d i).
  { intros i n Hk Hi. unfold digest_sum. by rewrite !Hk by lia. }
  destruct (method =? 1); intros Hk; erewrite Hs; eauto; lia.
Qed.

Lemma CalculateDigest_got pos d key : Zlen d = 1536 → 0 <= pos <= 1504 →
  CalculateDigest pos d key = Got (HMACsha256 (ztake pos d ++ zdrop (pos + 32) d) key).
Proof.
  intros Hd Hp. unfold CalculateDigest. rewrite !rd_copy_in by lia. simpl.
  rewrite (ztake_all _ (zdrop (pos + 32) d)); [done|]. rewrite Zlen_zdrop; lia.
Qed.

(** The digest of S1 stands at the place its own octets announce, inside the packet, and is the one
    that [VerifyDigest] computes; nothing else of the packet has changed. *)
Theorem generated_digest_verifies method data : Zlen data = 1536 →
  ∃ s1, GenerateS1Data method data = Got s1 ∧ Zlen s1 = 1536 ∧
    VerifyDigest (digest_offset method s1) s1 (ztake 36 GenuineFMSKey) = Got true ∧
    ztake (digest_offset method data) s1 = ztake (digest_offset method data) data ∧
    zdrop (digest_offset method data + 32) s1 = zdrop (digest_offset method data + 32) data.
Proof.
  intros Hd. pose proof (digest_offset_range method data Hd) as Hr.
  set (pos := digest_offset method data) in *.
  assert (Ht : Zlen (ztake pos data) = pos) by (rewrite Zlen_ztake; lia).
  unfold GenerateS1Data. fold pos. rewrite CalculateDigest_got by lia. cbn [cbind].
  set (dg := HMACsha256 _ _). assert (Hdg : Zlen dg = 32) by apply HMACsha256_length.
  eexists. split; [done|]. unfold write_at. rewrite Hdg.
  set (s1 := ztake pos data ++ dg ++ zdrop (pos + 32) data).
  assert (Hs : Zlen s1 = 1536) by (unfold s1; rewrite !Zlen_app, Ht, Zlen_zdrop; lia).
  assert (H1 : ztake pos s1 = ztake pos data) by (unfold s1; by rewrite ztake_app by lia).
  assert (H2 : zdrop pos s1 = dg ++ zdrop (pos + 32) data) by (unfold s1; by rewrite zdrop_app by lia).
  assert (H3 : zdrop (pos + 32) s1 = zdrop (pos + 32) data).
  { rewrite <- zdrop_zdrop by lia. by rewrite H2, zdrop_app by lia. }
  assert (Ho : digest_offset method s1 = pos).
  { apply digest_offset_sum; [done..|]. intros k Hk. destruct (Z.lt_ge_cases k 0).
    - unfold zget. rewrite !Z2Nat.nonpos by lia. change 0%nat with (Z.to_nat 0).
      pose proof (zget_ztake 0 pos s1) as Ha. pose proof (zget_ztake 0 pos data) as Hb. unfold zget in Ha, Hb.
      rewrite <- Ha, <- Hb by lia. by rewrite H1.
    - rewrite <- (zget_ztake k pos s1), <- (zget_ztake k pos data) by (subst pos; lia). by rewrite H1. }
  split_and!; [done| |done|done].
  unfold VerifyDigest. rewrite Ho, CalculateDigest_got, H1, H3 by lia. cbn [cbind].
  rewrite rd_copy_in, H2, ztake_app by lia. cbn [cbind]. by rewrite bool_decide_true.
Qed.
End Digests.

(** [RTMPConnection::State] *)
Inductive ConnState :=
  | HEADER_C0_WAIT
  | HEADER_C1_WAIT
  | HEADER_C2_WAIT
  | CHUNK_HEADER_WAIT
  | CHUNK_TYPE_WAIT
  | CHUNK_EXT_TIMESTAMP_WAIT
  | CHUNK_DATA_WAIT.

#[global] Instance ConnState_eq_dec : EqDecision ConnState.
Proof. solve_decision. Defined.

Section Connection.
Context {W : WireOps} {V : MoreWireOps} {U : UTF8Ops} {M : Memory} {HM : Hmac}.

(** ** State *)

(** What the reading thread keeps between two reads. *)
Record Reader := mkReader {
  in_state : ConnState;
  in_c0 : RTMPFormat;
  in_c1 : RTMPFormat;
  in_c2 : RTMPFormat;
  in_header : RTMPFormat;
  in_type0 : RTMPFormat;
  in_type1 : RTMPFormat;
  in_type2 : RTMPFormat;
  in_extts : RTMPFormat;
  in_streams : list (Z * RTMPChunkInputStream);     (** [chunkInputStreams] *)
  in_chunkStreamId : Z;                             (** and [chunkInputStream], its entry *)
  in_chunkLen : Z;
  in_maxChunkSize : Z;
}.

Definition new_reader_side : Reader :=
  mkReader HEADER_C0_WAIT (new_format 1) (new_format 1536) (new_format 1536) (new_format 3)
    (new_format 11) (new_format 7) (new_format 3) (new_format 4) [] leftover leftover 128.

Inductive StreamCall :=
  | DoPlay (url : wstring)
  | DoPublish (url : wstring)
  | DoSeek (time : double)
  | DoPause
  | DoResume
  | DoClose
  | DoCommand (cmd : RTMPCommandMessage).

Inductive Event :=
  | WriteSocket (w : bytes)                         (** S0 and S1, then S2 *)
  | OnConnect (app : wstring)
  | CreateStream (id : Z)
  | DeleteStream (id : Z)
  | OnStream (id : Z) (call : StreamCall)
  | SendMediaFrame (id : Z) (f : RTMPFrame)
  | SendMetaData (id : Z) (m : option RTMPMetaData).

Record Connection := mkConn {
  cn_in : Reader;
  cn_out : list (Z * RTMPChunkOutputStream);        (** [chunkOutputStreams] *)
  cn_maxOutChunkSize : Z;
  cn_windowSize : Z;
  cn_curWindowSize : Z;
  cn_recvSize : Z;
  cn_app : bool;
  cn_appName : wstring;
  cn_audioCodecs : Z;
  cn_videoCodecs : Z;
  cn_streams : list Z;                              (** the keys of [streams] *)
  cn_maxStreamId : Z;
  cn_maxTransId : Z;
  cn_pingReqPending : bool;
  cn_log : list Event;
}.

Definition new_connection : Connection :=
  mkConn new_reader_side
    [(2, new_output 2); (3, new_output 3); (4, new_output 4); (5, new_output 5)]
    128 0 0 0 false [] leftover leftover [] 1 1 (Z.testbit leftover 0) [].

Definition set_in (f : Reader → Reader) (c : Connection) : Connection :=
  mkConn (f (cn_in c)) (cn_out c) (cn_maxOutChunkSize c) (cn_windowSize c) (cn_curWindowSize c)
    (cn_recvSize c) (cn_app c) (cn_appName c) (cn_audioCodecs c) (cn_videoCodecs c) (cn_streams c)
    (cn_maxStreamId c) (cn_maxTransId c) (cn_pingReqPending c) (cn_log c).
Definition set_out (f : list (Z * RTMPChunkOutputStream) → list (Z * RTMPChunkOutputStream))
    (c : Connection) : Connection :=
  mkConn (cn_in c) (f (cn_out c)) (cn_maxOutChunkSize c) (cn_windowSize c) (cn_curWindowSize c)
    (cn_recvSize c) (cn_app c) (cn_appName c) (cn_audioCodecs c) (cn_videoCodecs c) (cn_streams c)
    (cn_maxStreamId c) (cn_maxTransId c) (cn_pingReqPending c) (cn_log c).
Definition set_sizes (maxOut window cur recv : Z) (c : Connection) : Connection :=
  mkConn (cn_in c) (cn_out c) maxOut window cur recv (cn_app c) (cn_appName c) (cn_audioCodecs c)
    (cn_videoCodecs c) (cn_streams c) (cn_maxStreamId c) (cn_maxTransId c) (cn_pingReqPending c)
    (cn_log c).
Definition set_client (app : bool) (name : wstring) (audio video : Z) (c : Connection) : Connection :=
  mkConn (cn_in c) (cn_out c) (cn_maxOutChunkSize c) (cn_windowSize c) (cn_curWindowSize c)
    (cn_recvSize c) app name audio video (cn_streams c) (cn_maxStreamId c) (cn_maxTransId c)
    (cn_pingReqPending c) (cn_log c).
Definition set_ids (streams : list Z) (maxStreamId maxTransId : Z) (c : Connection) : Connection :=
  mkConn (cn_in c) (cn_out c) (cn_maxOutChunkSize c) (cn_windowSize c) (cn_curWindowSize c)
    (cn_recvSize c) (cn_app c) (cn_appName c) (cn_audioCodecs c) (cn_videoCodecs c) streams
    maxStreamId maxTransId (cn_pingReqPending c) (cn_log c).
Definition set_ping (b : bool) (c : Connection) : Connection :=
  mkConn (cn_in c) (cn_out c) (cn_maxOutChunkSize c) (cn_windowSize c) (cn_curWindowSize c)
    (cn_recvSize c) (cn_app c) (cn_appName c) (cn_audioCodecs c) (cn_videoCodecs c) (cn_streams c)
    (cn_maxStreamId c) (cn_maxTransId c) b (cn_log c).
Definition conn_emit (e : Event) (c : Connection) : Connection :=
  mkConn (cn_in c) (cn_out c) (cn_maxOutChunkSize c) (cn_windowSize c) (cn_curWindowSize c)
    (cn_recvSize c) (cn_app c) (cn_appName c) (cn_audioCodecs c) (cn_videoCodecs c) (cn_streams c)
    (cn_maxStreamId c) (cn_maxTransId c) (cn_pingReqPending c) (cn_log c ++ [e]).

Record RtmpEnv := mkEnv {
  env_time : Z;                    (** [getDifTime(&startTime)/1000] *)
  env_random : bytes;              (** what [rand()] gives for S1 *)
  env_accepts : wstring → bool;    (** whether [OnConnect] gives an application *)
  env_creates : Z → bool;          (** whether [CreateStream] gives a stream *)
  env_convert : double → Z;        (** an integer of a double that it does not hold *)
}.

(** ** Sending *)

Definition SendControlMessage (e : RtmpEnv) (type : Z) (msg : RTMPFormat) (c : Connection) : Connection :=
  let ts :=
    if (type =? UserControlMessage) && (User_GetEventType msg =? PingResponse) then 0 else env_time e in
  set_out (om_alter (λ s, (SendMessage (ctrl_message 0 ts type msg) s).1) 2) c.

Definition SendCommandResponse (e : RtmpEnv) (streamId : Z) (name : wstring) (transId : Z)
    (params extra : option AMFData) (c : Connection) : Connection :=
  let cmd := make_cmd name transId params extra in
  set_out (om_alter (λ s, (SendMessage (cmd_message streamId (env_time e) cmd) s).1) 3) c.

(** A wide string literal. *)
Notation wide := octets (only parsing).

Definition SendCommand (e : RtmpEnv) (streamId : Z) (name : wstring) (params extra : option AMFData)
    (c : Connection) : Connection :=
  let status := bool_decide (name = wide "onStatus") in
  let transId := if status then 0 else cn_maxTransId c in
  SendCommandResponse e streamId name transId params extra
    (set_ids (cn_streams c) (cn_maxStreamId c)
       (if status then cn_maxTransId c else to_dword (cn_maxTransId c + 1)) c).

Definition SendCommandResult (e : RtmpEnv) (streamId transId : Z) (params extra : option AMFData)
    : Connection → Connection := SendCommandResponse e streamId (wide "_result") transId params extra.
Definition SendCommandError (e : RtmpEnv) (streamId transId : Z) : Connection → Connection :=
  SendCommandResponse e streamId (wide "_error") transId None None.

Definition conn_PingRequest (e : RtmpEnv) (c : Connection) : Connection :=
  set_ping true (SendControlMessage e UserControlMessage (CreatePingRequest (to_dword (env_time e))) c).

(** ** Callbacks *)

Definition onStreamBegin (e : RtmpEnv) (streamId : Z) : Connection → Connection :=
  SendControlMessage e UserControlMessage (CreateStreamBegin streamId).
Definition onStreamEnd (e : RtmpEnv) (streamId : Z) : Connection → Connection :=
  SendControlMessage e UserControlMessage (CreateStreamEOF streamId).
Definition onCommand (e : RtmpEnv) (streamId : Z) (name : wstring) (obj : AMFData) : Connection → Connection :=
  SendCommand e streamId name (Some AMFNull) (Some (data_Clone obj)).
Definition net_status (code level description : wstring) : AMFData :=
  AddProperty (wide "description") (make_string description)
    (AddProperty (wide "code") (make_string code)
      (AddProperty (wide "level") (make_string level) new_object)).
Definition onNetStreamStatus (e : RtmpEnv) (streamId : Z) (code level message : wstring)
    : Connection → Connection :=
  onCommand e streamId (wide "onStatus") (net_status code level message).

Definition onMediaFrame (e : RtmpEnv) (streamId : Z) (frame : RTMPFrame) (c : Connection) : Connection * bool :=
  let chkid := to_dword (4 + 2 * streamId + match frame with VideoFrame _ => 1 | AudioFrame _ => 0 end) in
  let msg := media_message streamId (env_time e) (frame_Clone frame) in
  let s := default (new_output chkid) (om_find chkid (cn_out c)) in
  let '(s, ret) := SendMessage msg s in
  (set_out (om_set chkid s) c, ret).

Definition onMetaData (e : RtmpEnv) (streamId : Z) (meta : RTMPMetaData) (c : Connection) : Connection :=
  let ts := if md_timestamp meta =? 2 ^ 64 - 1 then env_time e else md_timestamp meta in
  set_out (om_alter (λ s, (SendMessage (meta_message streamId ts (meta_Clone meta)) s).1) 3) c.

Definition onStreamReset (e : RtmpEnv) (id : Z) (c : Connection) : Connection :=
  foldl (λ c k,
    match om_find k (cn_out c) with
    | None => c
    | Some s =>
        let '(s, abort) := ResetStream id s in
        let c := set_out (om_set k s) c in
        if abort then SendControlMessage e AbortMessage (AbortMessage_Create k) c else c
    end) c (cn_out c).*1.

Definition onNetStreamDestroyed (streamId : Z) (c : Connection) : Connection :=
  set_ids (filter (λ i, i ≠ streamId) (cn_streams c)) (cn_maxStreamId c) (cn_maxTransId c) c.

(** ** Messages *)

(** The integer of a double that has one. *)
Definition to_integer (e : RtmpEnv) (bound : Z) (d : double) : Z :=
  match d with
  | DZero _ => 0
  | DFinite false m x =>
      let n := if 0 <=? x then m * 2 ^ x else m / 2 ^ (- x) in
      if n <? bound then n else env_convert e d
  | _ => env_convert e d
  end.

Definition ProcessControlMessage (e : RtmpEnv) (type : Z) (ctrl : RTMPFormat) (c : Connection) : Connection :=
  if type =? SetChunkSize then
    set_in (λ r, mkReader (in_state r) (in_c0 r) (in_c1 r) (in_c2 r) (in_header r) (in_type0 r)
      (in_type1 r) (in_type2 r) (in_extts r) (in_streams r) (in_chunkStreamId r) (in_chunkLen r)
      (SetChunkSize_GetChunkSize ctrl)) c
  else if type =? UserControlMessage then
    if User_GetEventType ctrl =? PingRequest then
      SendControlMessage e UserControlMessage (CreatePingResponse (User_GetEventData ctrl)) c
    else if User_GetEventType ctrl =? PingResponse then set_ping false c
    else c
  else if type =? WindowAcknowledgementSize then
    set_sizes (cn_maxOutChunkSize c) (Window_GetWindowSize ctrl) (cn_curWindowSize c) (cn_recvSize c) c
  else c.

Definition ProcessMediaData (streamId : Z) (frame : RTMPFrame) (c : Connection) : Connection :=
  if (streamId =? 0) || negb (existsb (Z.eqb streamId) (cn_streams c)) then c
  else conn_emit (SendMediaFrame streamId frame) c.

Definition ProcessMetaData (streamId : Z) (meta : option RTMPMetaData) (c : Connection) : Connection :=
  if (streamId =? 0) || negb (existsb (Z.eqb streamId) (cn_streams c)) then c
  else conn_emit (SendMetaData streamId meta) c.

(** [cmd->GetExtra(i)], an element of a vector *)
Definition GetExtra (cmd : RTMPCommandMessage) (i : nat) : checked AMFData :=
  match cm_extra cmd !! i with Some d => Got d | None => Fault end.

Definition number_of (d : AMFData) : checked double :=
  match d with AMFNumber u => Got (GetNumber (u_value u)) | _ => Refuse end.

(** A command for a stream *)
Definition stream_command (name : wstring) (cmd : RTMPCommandMessage) : checked StreamCall :=
  if bool_decide (name = wide "play") then
    let? d := GetExtra cmd 0 in let? url := data_wstring d in Got (DoPlay url)
  else if bool_decide (name = wide "publish") then
    let? d := GetExtra cmd 0 in
    if bool_decide (data_GetType d = TString) then let? url := data_wstring d in Got (DoPublish url)
    else Got DoClose
  else if bool_decide (name = wide "seek") then
    let? d := GetExtra cmd 0 in let? time := number_of d in Got (DoSeek time)
  else if bool_decide (name = wide "pause") then
    let? d := GetExtra cmd 0 in
    let? flag := data_bool d in Got (if flag then DoResume else DoPause)
  else if bool_decide (name = wide "closeStream") then Got DoClose
  else Got (DoCommand cmd).

(** [if (obj->HasProperty(k)) v = (double)obj->GetProperty(k)] *)
Definition codecs_property (e : RtmpEnv) (k : wstring) (obj : AMFData) (old : Z) : checked Z :=
  if HasProperty k obj then
    let? d := GetProperty k obj in let? x := number_of d in Got (to_integer e (2 ^ 32) x)
  else Got old.

Definition conn_connect (e : RtmpEnv) (streamId transId : Z) (params : option AMFData) (c : Connection)
    : checked Connection :=
  match params with
  | Some (AMFObject _ _ _ _ _ as obj) =>
      if cn_app c || negb (HasProperty (wide "app") obj) then Got (SendCommandError e streamId transId c)
      else
        let? app := GetProperty (wide "app") obj in
        let? appName := data_wstring app in
        let? video := codecs_property e (wide "videoCodecs") obj (cn_videoCodecs c) in
        let? audio := codecs_property e (wide "audioCodecs") obj (cn_audioCodecs c) in
        let? _ := codecs_property e (wide "objectEncoding") obj 0 in
        let c := conn_emit (OnConnect appName) (set_client (env_accepts e appName) appName audio video c) in
        if negb (env_accepts e appName) then Got (SendCommandError e streamId transId c)
        else
          let c := SendControlMessage e UserControlMessage (CreateStreamBegin 0) c in
          let c := SendControlMessage e WindowAcknowledgementSize (WindowAcknowledgementSize_Create 512000) c in
          let c := SendControlMessage e SetPeerBandwidth (SetPeerBandWidth_Create 512000 2) c in
          let c := set_sizes 512 (cn_windowSize c) (cn_curWindowSize c) (cn_recvSize c) c in
          let c := SendControlMessage e SetChunkSize (SetChunkSize_Create (cn_maxOutChunkSize c)) c in
          let answer :=
            AddProperty (wide "mode") (make_number (double_of 1))
              (AddProperty (wide "capabilities") (make_number (double_of 31))
                (AddProperty (wide "fmsVer") (make_string (wide "FMS/3,5,1,525")) new_object)) in
          let data := AddProperty (wide "version") (make_string (wide "3,5,1,525")) new_ecma in
          let extra :=
            AddProperty (wide "objectEncoding") (make_number (double_of 3))
              (AddProperty (wide "data") data
                (AddProperty (wide "description") (make_string (wide "Connection succeded"))
                  (AddProperty (wide "code") (make_string (wide "NetConnection.Connect.Success"))
                    (AddProperty (wide "level") (make_string (wide "status")) new_object)))) in
          Got (conn_PingRequest e (SendCommandResult e streamId transId (Some answer) (Some extra) c))
  | _ => Got (SendCommandError e streamId transId c)
  end.

Definition conn_createStream (e : RtmpEnv) (streamId transId : Z) (c : Connection) : Connection :=
  if negb (cn_app c) then SendCommandError e streamId transId c
  else
    let id := cn_maxStreamId c in
    let c := conn_emit (CreateStream id) (set_ids (cn_streams c) (to_dword (id + 1)) (cn_maxTransId c) c) in
    if negb (env_creates e id) then SendCommandError e streamId transId c
    else
      SendCommandResult e streamId transId (Some AMFNull) (Some (make_number (double_of id)))
        (set_ids (cn_streams c ++ [id]) (cn_maxStreamId c) (cn_maxTransId c) c).

(** [deleteStream]: the cast to a number is not checked, nor is the application. *)
Definition conn_deleteStream (e : RtmpEnv) (cmd : RTMPCommandMessage) (transId : Z) (c : Connection)
    : checked Connection :=
  let? d := GetExtra cmd 0 in
  match d with
  | AMFNumber u =>
      let id := to_integer e (2 ^ 32) (GetNumber (u_value u)) in
      if negb (existsb (Z.eqb id) (cn_streams c)) then Got (SendCommandError e 0 transId c)
      else if negb (cn_app c) then Fault
      else Got (SendControlMessage e UserControlMessage (CreateStreamEOF id) (conn_emit (DeleteStream id) c))
  | _ => Fault
  end.

(** [ProcessCommandMessage]: a command without a name or a transaction is a null pointer. *)
Definition ProcessCommandMessage (e : RtmpEnv) (streamId : Z) (cmd : RTMPCommandMessage) (c : Connection)
    : checked Connection :=
  match cm_name cmd, cm_transId cmd with
  | Some name, Some trans =>
      let name := str_GetWString name in
      let transId := to_integer e (2 ^ 64) (GetNumber (u_value trans)) in
      if negb (streamId =? 0) then
        if negb (existsb (Z.eqb streamId) (cn_streams c)) then Got (SendCommandError e streamId transId c)
        else let? call := stream_command name cmd in Got (conn_emit (OnStream streamId call) c)
      else if bool_decide (name = wide "connect") then
        conn_connect e streamId transId (cm_params cmd) c
      else if bool_decide (name = wide "createStream") || bool_decide (name = wide "initStream") then
        Got (conn_createStream e streamId transId c)
      else if bool_decide (name = wide "deleteStream") then conn_deleteStream e cmd transId c
      else Got (SendCommandError e streamId transId c)
  | _, _ => Fault
  end.

(** The dispatch of a complete message *)
Definition process_message (e : RtmpEnv) (m : RTMPMessage) (c : Connection) : checked Connection :=
  let id := ms_streamId m in
  if IsControlProtocolMessage m then
    match ms_body m with
    | Ctrl _ f => Got (ProcessControlMessage e (ms_type m) f c)
    | _ => Fault
    end
  else if IsCommandMessage m then
    match ms_body m with Cmd cmd => ProcessCommandMessage e id cmd c | _ => Fault end
  else if IsMedia m then
    match ms_body m with Media f => Got (ProcessMediaData id f c) | _ => Got c end
  else if IsMetaData m || IsSharedObject m then
    Got (ProcessMetaData id (match ms_body m with Meta d => Some d | _ => None end) c)
  else Got c.
End Connection.
