(* ===== verification/RtmpParse.v ===== *)
(** * RTMP: reading and writing octets

    [RTMPConnection::ParseData], [SerializeChunkData] and the rounds of [WriteData]
    (src/mcu/src/rtmpconnection.cpp).  A round of the loop of [ParseData] is [parse_step]: it takes
    octets off the front of what was read.  The loop ends when no octet is left; [parse_fuel] rounds
    are enough (RtmpParseClaims). *)

From S2P Require Import Prelude OrderedMap Wire Octets RtmpFormat RtmpMedia Amf RtmpMessage RtmpChunk RtmpConnection.

Section Parse.
Context {W : WireOps} {V : MoreWireOps} {U : UTF8Ops} {M : Memory} {HM : Hmac}.

(** ** Setters of the reader *)

Definition set_state (s : ConnState) (r : Reader) : Reader :=
  mkReader s (in_c0 r) (in_c1 r) (in_c2 r) (in_header r) (in_type0 r) (in_type1 r) (in_type2 r)
    (in_extts r) (in_streams r) (in_chunkStreamId r) (in_chunkLen r) (in_maxChunkSize r).
Definition set_c0 (f : RTMPFormat) (r : Reader) : Reader :=
  mkReader (in_state r) f (in_c1 r) (in_c2 r) (in_header r) (in_type0 r) (in_type1 r) (in_type2 r)
    (in_extts r) (in_streams r) (in_chunkStreamId r) (in_chunkLen r) (in_maxChunkSize r).
Definition set_c1 (f : RTMPFormat) (r : Reader) : Reader :=
  mkReader (in_state r) (in_c0 r) f (in_c2 r) (in_header r) (in_type0 r) (in_type1 r) (in_type2 r)
    (in_extts r) (in_streams r) (in_chunkStreamId r) (in_chunkLen r) (in_maxChunkSize r).
Definition set_c2 (f : RTMPFormat) (r : Reader) : Reader :=
  mkReader (in_state r) (in_c0 r) (in_c1 r) f (in_header r) (in_type0 r) (in_type1 r) (in_type2 r)
    (in_extts r) (in_streams r) (in_chunkStreamId r) (in_chunkLen r) (in_maxChunkSize r).
Definition set_header (f : RTMPFormat) (r : Reader) : Reader :=
  mkReader (in_state r) (in_c0 r) (in_c1 r) (in_c2 r) f (in_type0 r) (in_type1 r) (in_type2 r)
    (in_extts r) (in_streams r) (in_chunkStreamId r) (in_chunkLen r) (in_maxChunkSize r).
Definition set_types (t0 t1 t2 ext : RTMPFormat) (r : Reader) : Reader :=
  mkReader (in_state r) (in_c0 r) (in_c1 r) (in_c2 r) (in_header r) t0 t1 t2 ext (in_streams r)
    (in_chunkStreamId r) (in_chunkLen r) (in_maxChunkSize r).
Definition set_streams (m : list (Z * RTMPChunkInputStream)) (r : Reader) : Reader :=
  mkReader (in_state r) (in_c0 r) (in_c1 r) (in_c2 r) (in_header r) (in_type0 r) (in_type1 r)
    (in_type2 r) (in_extts r) m (in_chunkStreamId r) (in_chunkLen r) (in_maxChunkSize r).
Definition set_chunk (id len : Z) (r : Reader) : Reader :=
  mkReader (in_state r) (in_c0 r) (in_c1 r) (in_c2 r) (in_header r) (in_type0 r) (in_type1 r)
    (in_type2 r) (in_extts r) (in_streams r) id len (in_maxChunkSize r).

(** [chunkInputStream->...] *)
Definition on_stream (f : RTMPChunkInputStream → RTMPChunkInputStream) (r : Reader) : Reader :=
  set_streams (om_alter f (in_chunkStreamId r) (in_streams r)) r.

(** [chunkInputStream->StartChunkData()], which leaves [started s] behind the pointer. *)
Definition start_stream (r : Reader) : checked Reader :=
  match om_find (in_chunkStreamId r) (in_streams r) with
  | None => Fault
  | Some s => let? _ := StartChunkData s in Got (on_stream started r)
  end.

(** ** The handshake *)

(** S0, S1 and S2 for a complete C1: what is written to the socket. *)
Definition answer_c1 (e : RtmpEnv) (c1 : RTMPFormat) : checked (list Event) :=
  let s01 := S01_SetTime (to_dword (env_time e)) (S01_SetRTMPVersion 3 (new_format 1537)) in
  let genuine := negb (zget 3 (C1_GetVersion c1) =? 0) in
  let? method := if genuine then VerifyC1Data (fm_data c1) else Got 0 in
  let s01 := if genuine then S01_SetVersion 3 5 1 1 s01 else S01_SetVersion 0 0 0 0 s01 in
  let digest := 0 <? method in
  let s01 := S01_fill_random (env_random e) s01 in
  let? s1 := if digest then GenerateS1Data method (zdrop 1 (fm_data s01)) else Got (zdrop 1 (fm_data s01)) in
  let s2 := S2_SetTime (C1_GetTime c1) (new_format 1536) in
  let s2 := S2_SetTime2 (to_dword (env_time e)) s2 in
  let s2 := S2_SetRandom (C1_GetRandom c1) s2 in
  let? s2 := if digest then GenerateS2Data method (fm_data s2) else Got (fm_data s2) in
  Got [WriteSocket (ztake 1 (fm_data s01) ++ s1); WriteSocket s2].

(** ** Chunks *)

(** [CHUNK_HEADER_WAIT] *)
Definition header_wait (buffer : bytes) (r : Reader) : checked (Reader * bytes) :=
  let? x := format_Parse Basic_PreParse buffer (in_header r) in
  let '(h, len) := x in
  let r := set_header h r in
  Got (if format_IsParsed h then
         set_state CHUNK_TYPE_WAIT
           (set_types (format_Reset (in_type0 r)) (format_Reset (in_type1 r)) (format_Reset (in_type2 r))
              (format_Reset (in_extts r)) r)
       else r, zdrop len buffer).

(** The stream of the header, a new one if there is none: at the sixth in a row the connection is
    given up. *)
Definition find_stream (r : Reader) (nb : Z) : checked (Reader * Z) :=
  let id := Basic_GetStreamId (in_header r) in
  let r := set_chunk id (in_chunkLen r) r in
  match om_find id (in_streams r) with
  | None =>
      refuse_if (5 <? nb + 1) (Got (set_streams (om_set id new_input (in_streams r)) r, nb + 1))
  | Some _ => Got (r, 0)
  end.

(** The end of a message header: a timestamp of three octets goes to [stamp], unless the extended one
    has to be read; [chunkLen = 0]. *)
Definition header_done (ts : Z) (values stamp : StreamInfo → StreamInfo) (r : Reader) : checked Reader :=
  let r := on_stream (set_input_info values) r in
  let r :=
    if negb (ts =? 0xFFFFFF) then set_state CHUNK_DATA_WAIT (on_stream (set_input_info stamp) r)
    else set_state CHUNK_EXT_TIMESTAMP_WAIT r in
  let? r := start_stream r in
  Got (set_chunk (in_chunkStreamId r) 0 r).

(** [CHUNK_TYPE_WAIT] *)
Definition type_wait (buffer : bytes) (r : Reader) (nb : Z) : checked (Reader * bytes * Z) :=
  let? found := find_stream r nb in
  let '(r, nb) := found in
  let fmt := Basic_GetFmt (in_header r) in
  let? y :=
    (if fmt =? 0 then
       let? x := format_Parse no_PreParse buffer (in_type0 r) in
       let '(t, len) := x in
       let r := set_types t (in_type1 r) (in_type2 r) (in_extts r) r in
       let? r :=
         (if format_IsParsed t then
            header_done (Type0_GetTimestamp t)
              (λ i, info_SetMessageStreamId (Type0_GetMessageStreamId t)
                 (info_SetMessageTypeId (Type0_GetMessageTypeId t)
                   (info_SetMessageLength (Type0_GetMessageLength t) i)))
              (λ i, info_SetTimestampDelta 0 (info_SetTimestamp (Type0_GetTimestamp t) i)) r
          else Got r) in
       Got (r, len)
     else if fmt =? 1 then
       let? x := format_Parse no_PreParse buffer (in_type1 r) in
       let '(t, len) := x in
       let r := set_types (in_type0 r) t (in_type2 r) (in_extts r) r in
       let? r :=
         (if format_IsParsed t then
            header_done (Type1_GetTimestampDelta t)
              (λ i, info_SetMessageTypeId (Type1_GetMessageTypeId t)
                 (info_SetMessageLength (Type1_GetMessageLength t) i))
              (λ i, IncreaseTimestampWithDelta (info_SetTimestampDelta (Type1_GetTimestampDelta t) i)) r
          else Got r) in
       Got (r, len)
     else if fmt =? 2 then
       let? x := format_Parse no_PreParse buffer (in_type2 r) in
       let '(t, len) := x in
       let r := set_types (in_type0 r) (in_type1 r) t (in_extts r) r in
       let? r :=
         (if format_IsParsed t then
            header_done (Type2_GetTimestampDelta t) id
              (λ i, IncreaseTimestampWithDelta (info_SetTimestampDelta (Type2_GetTimestampDelta t) i)) r
          else Got r) in
       Got (r, len)
     else
       let r := on_stream (λ s, if IsFirstChunk s then set_input_info IncreaseTimestampWithDelta s else s) r in
       let? r := start_stream r in
       Got (set_chunk (in_chunkStreamId r) 0 (set_state CHUNK_DATA_WAIT r), 0)) in
  Got (y.1, zdrop y.2 buffer, nb).

(** [CHUNK_EXT_TIMESTAMP_WAIT]: the test takes format 1 for the one with an absolute timestamp, which
    is format 0. *)
Definition ext_wait (buffer : bytes) (r : Reader) : checked (Reader * bytes) :=
  let? x := format_Parse no_PreParse buffer (in_extts r) in
  let '(t, len) := x in
  let r := set_types (in_type0 r) (in_type1 r) (in_type2 r) t r in
  Got (if format_IsParsed t then
         set_state CHUNK_DATA_WAIT (on_stream (set_input_info (λ i,
           if Basic_GetFmt (in_header r) =? 1 then
             info_SetTimestampDelta 0 (info_SetTimestamp (Ext_GetTimestamp t) i)
           else IncreaseTimestampWithDelta (info_SetTimestampDelta (Ext_GetTimestamp t) i))) r)
       else r, zdrop len buffer).

(** The next header is waited for. *)
Definition next_chunk (r : Reader) : Reader :=
  set_header (format_Reset (in_header r)) (set_state CHUNK_HEADER_WAIT r).

(** [chunkLen += len], and the end of the chunk. *)
Definition chunk_taken (len : Z) (r : Reader) : Reader :=
  let r := set_chunk (in_chunkStreamId r) (to_dword (in_chunkLen r + len)) r in
  if negb (in_maxChunkSize r =? 0) && (in_maxChunkSize r <=? in_chunkLen r) then next_chunk r else r.

(** [CHUNK_DATA_WAIT] *)
Definition data_wait (e : RtmpEnv) (buffer : bytes) (c : Connection) : checked (Connection * bytes) :=
  let r := cn_in c in
  let len :=
    if negb (in_maxChunkSize r =? 0) && (in_maxChunkSize r <? to_dword (in_chunkLen r + Zlen buffer))
    then to_dword (in_maxChunkSize r - in_chunkLen r) else Zlen buffer in
  if len =? 0 then Got (c, buffer)
  else
    match om_find (in_chunkStreamId r) (in_streams r) with
    | None => Fault
    | Some s =>
        let? p := input_Parse (ztake len buffer) s in
        let '(s, len) := p in
        match GetMessage s with
        | (Some m, s) =>
            let? c := process_message e m (set_in (on_stream (λ _, s)) c) in
            Got (set_in (λ r, chunk_taken len (next_chunk r)) c, zdrop len buffer)
        | (None, s) =>
            refuse_if ((len =? 0) && (0 <? Zlen buffer))
              (Got (set_in (λ r, chunk_taken len (on_stream (λ _, s) r)) c, zdrop len buffer))
        end
    end.

(** A round of the loop of [ParseData]; [nb] is [NbChunkStream]. *)
Definition parse_step (e : RtmpEnv) (buffer : bytes) (c : Connection) (nb : Z)
    : checked (Connection * bytes * Z) :=
  let r := cn_in c in
  match in_state r with
  | HEADER_C0_WAIT =>
      let? x := format_Parse no_PreParse buffer (in_c0 r) in
      let '(f, len) := x in
      Got (set_in (λ r, let r := set_c0 f r in
             if format_IsParsed f then set_state HEADER_C1_WAIT r else r) c, zdrop len buffer, nb)
  | HEADER_C1_WAIT =>
      let? x := format_Parse no_PreParse buffer (in_c1 r) in
      let '(f, len) := x in
      let c := set_in (set_c1 f) c in
      if format_IsParsed f then
        let? answer := answer_c1 e f in
        Got (set_in (set_state HEADER_C2_WAIT) (foldl (flip conn_emit) c answer), zdrop len buffer, nb)
      else Got (c, zdrop len buffer, nb)
  | HEADER_C2_WAIT =>
      let? x := format_Parse no_PreParse buffer (in_c2 r) in
      let '(f, len) := x in
      Got (set_in (λ r, let r := set_c2 f r in
             if format_IsParsed f then set_state CHUNK_HEADER_WAIT r else r) c, zdrop len buffer, nb)
  | CHUNK_HEADER_WAIT =>
      let? x := header_wait buffer r in
      let '(r, buffer) := x in Got (set_in (λ _, r) c, buffer, nb)
  | CHUNK_TYPE_WAIT =>
      let? x := type_wait buffer r nb in
      let '(r, buffer, nb) := x in Got (set_in (λ _, r) c, buffer, nb)
  | CHUNK_EXT_TIMESTAMP_WAIT =>
      let? x := ext_wait buffer r in
      let '(r, buffer) := x in Got (set_in (λ _, r) c, buffer, nb)
  | CHUNK_DATA_WAIT => let? x := data_wait e buffer c in Got (x.1, x.2, nb)
  end.

Fixpoint parse_loop (e : RtmpEnv) (fuel : nat) (buffer : bytes) (c : Connection) (nb : Z)
    : checked Connection :=
  if Zlen buffer =? 0 then Got c
  else
    match fuel with
    | O => Fault
    | S fuel =>
        let? x := parse_step e buffer c nb in
        let '(c, buffer, nb) := x in parse_loop e fuel buffer c nb
    end.

Definition parse_fuel (buffer : bytes) : nat := 3 * length buffer + 3.

(** The window of acknowledgement, at the start of [ParseData] *)
Definition count_received (e : RtmpEnv) (size : Z) (c : Connection) : Connection :=
  let cur := to_dword (cn_curWindowSize c + size) in
  let recv := to_dword (cn_recvSize c + size) in
  let c := set_sizes (cn_maxOutChunkSize c) (cn_windowSize c) cur recv c in
  if negb (cn_windowSize c =? 0) && (cn_windowSize c <? cur) then
    set_sizes (cn_maxOutChunkSize c) (cn_windowSize c) 0 recv
      (SendControlMessage e Acknowledgement (Acknowledgement_Create recv) c)
  else c.

Definition ParseData (e : RtmpEnv) (data : bytes) (c : Connection) : checked Connection :=
  parse_loop e (parse_fuel data) data (count_received e (Zlen data) c) 0.

(** ** Writing *)

(** The chunks of a stream, while there is room for a chunk and twelve octets; a stream of media gives
    six at most.  The boolean is the [goto end]. *)
Fixpoint stream_chunks (fuel : nat) (maxOut : Z) (id count : Z) (s : RTMPChunkOutputStream)
    (data : bytes) (len : Z) : checked (RTMPChunkOutputStream * bytes * Z * bool) :=
  match fuel with
  | O => Fault
  | S fuel =>
      if negb (HasData s) then Got (s, data, len, false)
      else if to_dword (Zlen data - len) <? to_dword (maxOut + 12) then Got (s, data, len, true)
      else
        let? x := GetNextChunk (zdrop len data) maxOut s in
        let '(s, chunk, n) := x in
        let data := ztake len data ++ chunk in
        let len := to_dword (len + n) in
        if (4 <=? id) && (5 <? count + 1) then Got (s, data, len, false)
        else stream_chunks fuel maxOut id (count + 1) s data len
  end.

Fixpoint serialize_streams (maxOut : Z) (streams : list (Z * RTMPChunkOutputStream)) (data : bytes) (len : Z)
    : checked (list (Z * RTMPChunkOutputStream) * bytes * Z) :=
  match streams with
  | [] => Got ([], data, len)
  | (id, s) :: streams =>
      let? x := stream_chunks (S (length data)) maxOut id 0 s data len in
      let '(s, data, len, stop) := x in
      if (stop : bool) then Got ((id, s) :: streams, data, len)
      else
        let? y := serialize_streams maxOut streams data len in
        let '(streams, data, len) := y in Got ((id, s) :: streams, data, len)
  end.

(** [SerializeChunkData(data, size)]: the connection, the buffer and the length.  The measure of the
    bandwidth, which nothing reads, is left out. *)
Definition SerializeChunkData (data : bytes) (c : Connection) : checked (Connection * bytes * Z) :=
  let? x := serialize_streams (cn_maxOutChunkSize c) (cn_out c) data 0 in
  let '(streams, data, len) := x in
  Got (set_out (λ _, streams) c, data, len).

(** The buffer of the writing thread. *)
Record Writer := mkWriter { wr_dataout : bytes; wr_len : Z; wr_pos : Z }.

Definition new_writer : Writer := mkWriter (fresh 1400) 0 0.

(** A round of [WriteData]: [room] is how many octets the socket takes.  What is offered to it starts
    at [pos] and is [len] octets long, although [pos] of them are sent. *)
Definition write_round (room : Z) (c : Connection) (w : Writer) : checked (Connection * Writer * bytes) :=
  if (0 <? wr_len w) && (wr_pos w <? wr_len w) then
    let? offered := rd_copy (wr_dataout w) (wr_pos w) (wr_len w) in
    let sent := ztake room offered in
    let pos := wr_pos w + Zlen sent in
    Got (c, if wr_len w <=? pos then mkWriter (wr_dataout w) 0 0 else mkWriter (wr_dataout w) (wr_len w) pos,
         sent)
  else
    let? x := SerializeChunkData (wr_dataout w) c in
    let '(c, data, len) := x in
    Got (c, mkWriter data len (wr_pos w), []).
End Parse.
