(* ===== verification/RtmpReceive.v ===== *)
(** * RTMP: the reader on a chunk

    What the rounds of [ParseData] do with the octets of a chunk: the basic header, the message header
    and the payload, one after the other, whatever follows. *)

From S2P Require Import Prelude OrderedMap Wire Octets BitStreamClaims RtmpFormat RtmpMedia RtmpMediaProps Amf RtmpMessage RtmpChunk RtmpChunkProps RtmpConnection RtmpParse.

Section Receive.
Context {W : WireOps} {V : MoreWireOps} {U : UTF8Ops} {M : Memory} {HM : Hmac} {HN : NetworkOrder W V}.

(** ** Between two chunks *)

Definition block (SIZE : Z) (f : RTMPFormat) : Prop := fm_SIZE f = SIZE ∧ Zlen (fm_data f) = SIZE.

Record formats_ok (r : Reader) : Prop := mkFormatsOk {
  fo_header : block 3 (in_header r);
  fo_type0 : block 11 (in_type0 r);
  fo_type1 : block 7 (in_type1 r);
  fo_type2 : block 3 (in_type2 r);
}.

Record ready (r : Reader) : Prop := mkReady {
  rd_state : in_state r = CHUNK_HEADER_WAIT;
  rd_header : fm_len (in_header r) = 0;
  rd_formats : formats_ok r;
}.

(** The stream a chunk is for; one never used is a new one. *)
Definition input_of (id : Z) (r : Reader) : RTMPChunkInputStream := default new_input (om_find id (in_streams r)).

(** Only the stream [id] changes. *)
Definition only_stream (id : Z) (r r' : Reader) : Prop :=
  in_maxChunkSize r' = in_maxChunkSize r ∧ ∀ j, j ≠ id → om_find j (in_streams r') = om_find j (in_streams r).

Lemma only_stream_trans id r1 r2 r3 : only_stream id r1 r2 → only_stream id r2 r3 → only_stream id r1 r3.
Proof. intros [H1 H2] [H3 H4]. split; [congruence|]. intros j Hj. rewrite H4, H2 by done. done. Qed.

(** ** The basic header *)

Lemma header_wait_read fmt csid r : ready r → 0 <= fmt < 4 → csid_ok csid →
  ∃ r', (∀ rest, header_wait (basic_octets fmt csid ++ rest) r = Got (r', rest)) ∧ in_state r' = CHUNK_TYPE_WAIT ∧
    formats_ok r' ∧ Basic_GetFmt (in_header r') = fmt ∧ Basic_GetStreamId (in_header r') = csid ∧
    (∀ t, t ∈ [in_type0 r'; in_type1 r'; in_type2 r'] → fm_len t = 0 ∧ fm_size t = fm_SIZE t) ∧
    in_streams r' = in_streams r ∧ in_maxChunkSize r' = in_maxChunkSize r.
Proof.
  intros [Hs Hl [[H1 H2] H3 H4 H5]] Hf Hc.
  destruct (basic_header_parsed fmt csid (in_header r) Hf Hc H1 H2 Hl) as (h & Hread & Hp & Hg1 & Hg2 & Hb1 & Hb2).
  eexists. split; [intros rest; unfold header_wait; rewrite Hread; cbn [cbind]; by rewrite Hp, zdrop_app|]. split_and!; try done.
  intros t Ht. cbn in Ht. repeat (apply elem_of_cons in Ht as [-> |Ht]; [done|]). by apply elem_of_nil in Ht.
Qed.

(** ** The message header *)

(** The octets of a message header of each format and what they change in the stream. *)
Inductive header_says : Z → bytes → (RTMPChunkInputStream → RTMPChunkInputStream) → Prop :=
  | says_type0 h ts len type sid :
      let t := mkFormat 11 h 11 11 in
      Zlen h = 11 → Type0_GetTimestamp t = ts → Type0_GetMessageLength t = len → Type0_GetMessageTypeId t = type →
      Type0_GetMessageStreamId t = sid → ts ≠ 0xFFFFFF →
      header_says 0 h (set_input_info (λ _, mkInfo type sid len ts 0))
  | says_type1 h delta len type :
      let t := mkFormat 7 h 7 7 in
      Zlen h = 7 → Type1_GetTimestampDelta t = delta → Type1_GetMessageLength t = len → Type1_GetMessageTypeId t = type →
      delta ≠ 0xFFFFFF →
      header_says 1 h (set_input_info (λ i, mkInfo type (si_streamId i) len (to_dword (si_timestamp i + delta)) delta))
  | says_type2 h delta :
      let t := mkFormat 3 h 3 3 in
      Zlen h = 3 → Type2_GetTimestampDelta t = delta → delta ≠ 0xFFFFFF →
      header_says 2 h (set_input_info (λ i, mkInfo (si_type i) (si_streamId i) (si_length i)
        (to_dword (si_timestamp i + delta)) delta))
  | says_type3 :
      header_says 3 [] (λ s, if IsFirstChunk s then set_input_info IncreaseTimestampWithDelta s else s).

Lemma find_stream_read r nb : (om_find (Basic_GetStreamId (in_header r)) (in_streams r) = None → nb + 1 <= 5) →
  let id := Basic_GetStreamId (in_header r) in
  ∃ streams, find_stream r nb = Got (set_streams streams (set_chunk id (in_chunkLen r) r),
      match om_find id (in_streams r) with None => nb + 1 | Some _ => 0 end) ∧
    om_find id streams = Some (input_of id r) ∧ ∀ j, j ≠ id → om_find j streams = om_find j (in_streams r).
Proof.
  intros Hnb id. unfold find_stream, input_of, refuse_if. cbn [set_chunk in_streams]. fold id in Hnb |- *.
  destruct (om_find id (in_streams r)) as [s|] eqn:E.
  - exists (in_streams r). by destruct r.
  - rewrite (proj2 (Z.ltb_ge _ _)) by auto. eexists. split; [done|]. split; [apply om_find_set_eq|].
    intros j Hj. by apply om_find_set_ne.
Qed.

Lemma on_stream_on_stream f g r : on_stream f (on_stream g r) = on_stream (λ s, f (g s)) r.
Proof. unfold on_stream. destruct r. cbn. by rewrite om_alter_alter. Qed.

Lemma on_stream_formats f r : formats_ok r → formats_ok (on_stream f r).
Proof. intros []. by split. Qed.

(** The message of the stream can be started. *)
Definition startable (s : RTMPChunkInputStream) : Prop := StartChunkData s = Got (started s).

Lemma startable_length s : 0 <= si_length (is_info s) < 2 ^ 32 - 16 → startable s.
Proof.
  intros Hl. unfold startable, StartChunkData.
  assert (block_fits (si_type (is_info s)) (si_length (is_info s)) = true) as ->; [|by rewrite andb_false_r].
  unfold block_fits, padding_fits. rewrite to_dword_id, Z.leb_refl, orb_true_r by (unfold is_dword; lia). repeat case_match; done.
Qed.

Lemma startable_going s m : is_message s = Some m → startable s.
Proof. intros Hm. unfold startable, StartChunkData. by rewrite Hm. Qed.

Lemma start_stream_started r s : om_find (in_chunkStreamId r) (in_streams r) = Some s → startable s →
  start_stream r = Got (on_stream started r).
Proof.
  intros Hs Hst. unfold start_stream. rewrite Hs, Hst. done.
Qed.

(** A complete header whose timestamp is not the mark of an extended one. *)
Lemma header_done_read ts values stamp r s : ts ≠ 0xFFFFFF → om_find (in_chunkStreamId r) (in_streams r) = Some s →
  startable (set_input_info (λ i, stamp (values i)) s) →
  header_done ts values stamp r =
    Got (set_chunk (in_chunkStreamId r) 0 (set_state CHUNK_DATA_WAIT
      (on_stream (λ s, started (set_input_info (λ i, stamp (values i)) s)) r))).
Proof.
  intros Ht Hs Hst. unfold header_done. rewrite (proj2 (Z.eqb_neq _ _) Ht). cbn [negb].
  rewrite (start_stream_started _ (set_input_info (λ i, stamp (values i)) s)).
  - cbn [cbind]. f_equal. unfold on_stream. destruct r. cbn. by rewrite !om_alter_alter.
  - unfold on_stream. cbn. rewrite !om_find_alter_eq, Hs. done.
  - done.
Qed.

Lemma type_wait_read fmt h g r nb csid :
  header_says fmt h g → formats_ok r → in_state r = CHUNK_TYPE_WAIT →
  Basic_GetFmt (in_header r) = fmt → Basic_GetStreamId (in_header r) = csid →
  (∀ t, t ∈ [in_type0 r; in_type1 r; in_type2 r] → fm_len t = 0 ∧ fm_size t = fm_SIZE t) →
  (om_find csid (in_streams r) = None → nb + 1 <= 5) → startable (g (input_of csid r)) →
  ∃ r', (∀ rest, type_wait (h ++ rest) r nb =
      Got (r', rest, match om_find csid (in_streams r) with None => nb + 1 | Some _ => 0 end)) ∧
    in_state r' = CHUNK_DATA_WAIT ∧ formats_ok r' ∧ in_chunkStreamId r' = csid ∧ in_chunkLen r' = 0 ∧
    om_find csid (in_streams r') = Some (started (g (input_of csid r))) ∧ only_stream csid r r'.
Proof.
  intros Hsays Hfo Hst Hfmt Hid Hreset Hnb Hstart. subst csid.
  destruct (find_stream_read r nb Hnb) as (streams & Hfind & Hs1 & Hs2).
  unfold type_wait. setoid_rewrite Hfind. cbn [cbind]. clear Hfind.
  set (id := Basic_GetStreamId (in_header r)) in *.
  assert (Hpart : ∀ f r2, in_streams r2 = streams → in_chunkStreamId r2 = id → in_maxChunkSize r2 = in_maxChunkSize r →
    formats_ok r2 →
    let r' := set_chunk id 0 (set_state CHUNK_DATA_WAIT (on_stream (λ s, started (f s)) r2)) in
    in_state r' = CHUNK_DATA_WAIT ∧ formats_ok r' ∧ in_chunkStreamId r' = id ∧ in_chunkLen r' = 0 ∧
    om_find id (in_streams r') = Some (started (f (input_of id r))) ∧ only_stream id r r').
  { intros f r2 E1 E2 E3 [G1 G2 G3 G4] r'. split_and!; try done.
    - cbn. rewrite E1, E2, om_find_alter_eq, Hs1. done.
    - split; [done|]. intros j Hj. cbn. rewrite E1, E2, om_find_alter_ne by done. by apply Hs2. }
  assert (Hblock : ∀ t n, t ∈ [in_type0 r; in_type1 r; in_type2 r] → block n t → 0 < n < 2 ^ 31 →
    Zlen h = n → ∀ rest, format_Parse no_PreParse (h ++ rest) t = Got (mkFormat n h n n, n)).
  { intros t n Ht [B1 B2] Hn Hh rest. destruct (Hreset t Ht) as [R1 R2]. destruct t as [S d l s]. cbn in *. subst.
    by apply format_Parse_whole. }
  assert (Hin : in_type0 r ∈ [in_type0 r; in_type1 r; in_type2 r] ∧ in_type1 r ∈ [in_type0 r; in_type1 r; in_type2 r] ∧
    in_type2 r ∈ [in_type0 r; in_type1 r; in_type2 r]) by (split_and!; repeat constructor).
  destruct Hin as (Hin0 & Hin1 & Hin2), Hfo as [F0 F1 F2 F3].
  cbn [set_streams set_chunk in_header in_type0 in_type1 in_type2 in_extts]. rewrite Hfmt.
  destruct Hsays as [h ts len type sid t Hh H1 H2 H3 H4 H5|h delta len type t Hh H1 H2 H3 H4|h delta t Hh H1 H2|]; cbn [Z.eqb Pos.eqb].
  - eexists. split.
    { intros rest. rewrite (Hblock _ 11) by (done || lia). cbn [cbind]. fold t. change (format_IsParsed t) with true. cbv iota.
      rewrite (header_done_read _ _ _ _ (input_of id r)); [|congruence|exact Hs1|rewrite H1, H2, H3, H4; exact Hstart].
      cbn [cbind fst snd]. by rewrite zdrop_app by congruence. }
    rewrite H1, H2, H3, H4. apply (Hpart (set_input_info _)); done.
  - eexists. split.
    { intros rest. rewrite (Hblock _ 7) by (done || lia). cbn [cbind]. fold t. change (format_IsParsed t) with true. cbv iota.
      rewrite (header_done_read _ _ _ _ (input_of id r)); [|congruence|exact Hs1|rewrite H1, H2, H3; exact Hstart].
      cbn [cbind fst snd]. by rewrite zdrop_app by congruence. }
    rewrite H1, H2, H3. apply (Hpart (set_input_info _)); done.
  - eexists. split.
    { intros rest. rewrite (Hblock _ 3) by (done || lia). cbn [cbind]. fold t. change (format_IsParsed t) with true. cbv iota.
      rewrite (header_done_read _ _ _ _ (input_of id r)); [|congruence|exact Hs1|rewrite H1; exact Hstart].
      cbn [cbind fst snd]. by rewrite zdrop_app by congruence. }
    rewrite H1. apply (Hpart (set_input_info _)); done.
  - eexists. split.
    { intros rest. set (r0 := on_stream _ _).
      assert (Hs0 : om_find (in_chunkStreamId r0) (in_streams r0) = Some (if IsFirstChunk (input_of id r)
        then set_input_info IncreaseTimestampWithDelta (input_of id r) else input_of id r)).
      { unfold r0, on_stream. cbn. by rewrite om_find_alter_eq, Hs1. }
      rewrite (start_stream_started r0 _ Hs0 Hstart). done. }
    rewrite on_stream_on_stream. apply (Hpart (λ s, if IsFirstChunk s then _ else s)); done.
Qed.

(** ** The payload *)

(** The message of a frame of which the octets [p] have come. *)
Definition message_at (video : bool) (sid ts len : Z) (p : bytes) (m : RTMPMessage) : Prop :=
  ∃ f, m = mkMsg (Media f) sid (if video then VideoMessage else AudioMessage) len ts false true (Zlen p) ∧
    is_video f = video ∧ if Zlen p =? 0 then f = new_frame video ts len else frame_after ts len p f.

Lemma new_message_at (video : bool) sid ts len : 0 < len →
  message_at video sid ts len [] (new_rtmp_message sid ts (if video then VideoMessage else AudioMessage) len).
Proof.
  intros Hl. exists (new_frame video ts len). split_and!; [|by destruct video|done].
  destruct video; unfold new_rtmp_message, VideoMessage, AudioMessage; rewrite (proj2 (Z.eqb_neq len 0)) by lia; done.
Qed.

(** The payload of the chunk that goes on with a frame: what comes first has the whole header. *)
Definition piece_ok (video : bool) (len max : Z) (p d : bytes) : Prop :=
  Zlen d = Z.min max (len - Zlen p) ∧ 0 < Zlen d ∧
  first_piece video (zget 0 (p ++ d)) <= if Zlen p =? 0 then Zlen d else Zlen p.

Lemma message_Parse_piece video sid ts len p d max m : message_at video sid ts len p m → len < 2 ^ 24 →
  piece_ok video len max p d →
  ∃ f, (∀ x, x = d ∨ (∃ y, x = d ++ y ∧ Zlen d = len - Zlen p) → message_Parse x m =
      Got (mkMsg (Media f) sid (if video then VideoMessage else AudioMessage) len ts false
             (negb (Zlen (p ++ d) =? len)) (Zlen (p ++ d)), Zlen d)) ∧
    frame_after ts len (p ++ d) f ∧ is_video f = video.
Proof.
  intros (f & -> & Hv & Hf) Hlen (Hd1 & Hd2 & Hd3). pose proof (Zlen_nonneg p). pose proof (Zlen_nonneg d).
  assert (Hp : ∃ g, frame_Parse d f = Got (g, Zlen d) ∧ frame_after ts len (p ++ d) g ∧ is_video g = video).
  { destruct (Z.eqb_spec (Zlen p) 0) as [Hz|Hz].
    - apply Zlen_zero in Hz as ->. subst f. apply frame_Parse_first; [lia|]. cbn [app] in *. split; [lia|].
      rewrite Hd1, Zlen_nil. lia.
    - rewrite <- Hv. apply frame_Parse_next; [done|lia| |lia]. rewrite Hv. rewrite zget_app_0 in Hd3 by lia. lia. }
  destruct Hp as (g & Hg & Hg2 & Hg3). exists g. split; [|done]. intros x Hx.
  unfold message_Parse. cbn [ms_length ms_pos ms_body ms_skip].
  assert (to_dword (len - Zlen p) = len - Zlen p) as -> by (apply Z.mod_small; lia).
  assert ((if len - Zlen p <? Zlen x then len - Zlen p else Zlen x) = Zlen d ∧ ztake (Zlen d) x = d) as [-> ->].
  { destruct Hx as [-> |(y & -> & Hy)].
    - split; [destruct (Z.ltb_spec (len - Zlen p) (Zlen d)); lia|]. apply ztake_all. lia.
    - rewrite Zlen_app. pose proof (Zlen_nonneg y). split; [destruct (Z.ltb_spec (len - Zlen p) (Zlen d + Zlen y)); lia|]. by apply ztake_app. }
  destruct video; cbn [IsControlProtocolMessage IsCommandMessage IsMedia ms_type VideoMessage AudioMessage];
    rewrite Hg; unfold parsed_on; cbn [cbind ms_pos ms_length ms_streamId ms_type ms_timestamp fst snd];
    (assert (to_dword (Zlen p + Zlen d) = Zlen (p ++ d)) as -> by (rewrite Zlen_app; apply Z.mod_small; lia)); done.
Qed.

(** The frames that [ProcessMediaData] hands over. *)
Definition delivered (sid : Z) (f : RTMPFrame) (streams : list Z) : list Event :=
  if (sid =? 0) || negb (existsb (Z.eqb sid) streams) then [] else [SendMediaFrame sid f].

Lemma chunk_taken_ready n r : ready r → ready (chunk_taken n r) ∧ in_streams (chunk_taken n r) = in_streams r ∧
  in_maxChunkSize (chunk_taken n r) = in_maxChunkSize r.
Proof.
  intros [H1 H2 [G1 G2 G3 G4]]. unfold chunk_taken, next_chunk.
  case_match; split_and!; try done.
Qed.

Lemma next_chunk_ready r : formats_ok r → ready (next_chunk r).
Proof. intros [G1 G2 G3 G4]. by split. Qed.

(** A chunk that is full: the next header is waited for. *)
Lemma chunk_taken_full r n : formats_ok r → in_chunkLen r = 0 → 0 < n < 2 ^ 32 → n = in_maxChunkSize r →
  ready (chunk_taken n r) ∧ in_streams (chunk_taken n r) = in_streams r ∧ in_maxChunkSize (chunk_taken n r) = in_maxChunkSize r.
Proof.
  intros Hfo Hcl Hn Hfull. unfold chunk_taken. cbn [in_chunkLen in_maxChunkSize set_chunk].
  rewrite Hcl, Z.add_0_l, <- Hfull. assert (to_dword n = n) as -> by (apply Z.mod_small; lia).
  rewrite (proj2 (Z.eqb_neq n 0)), Z.leb_refl by lia. cbn [negb andb]. split; [|split; [done|by rewrite Hfull]].
  apply next_chunk_ready. destruct Hfo. by split.
Qed.

(** Everything of the connection but the reader and the log. *)
Definition same_outside (c c' : Connection) : Prop :=
  cn_out c' = cn_out c ∧ cn_maxOutChunkSize c' = cn_maxOutChunkSize c ∧ cn_streams c' = cn_streams c.

Record chunk_read (csid : Z) (t : RTMPChunkInputStream) (events : list Event) (c c' : Connection) : Prop := mkChunkRead {
  cr_ready : ready (cn_in c');
  cr_stream : om_find csid (in_streams (cn_in c')) = Some t;
  cr_only : only_stream csid (cn_in c) (cn_in c');
  cr_log : cn_log c' = cn_log c ++ events;
  cr_outside : same_outside c c';
}.

Definition media_msg (video : bool) (sid ts len : Z) (n : Z) (f : RTMPFrame) : RTMPMessage :=
  mkMsg (Media f) sid (if video then VideoMessage else AudioMessage) len ts false (negb (n =? len)) n.

Lemma process_media e video sid ts len n f c :
  ∃ c', process_message e (media_msg video sid ts len n f) c = Got c' ∧ cn_in c' = cn_in c ∧
    cn_log c' = cn_log c ++ delivered sid f (cn_streams c) ∧ same_outside c c'.
Proof.
  exists (ProcessMediaData sid f c). split; [by destruct video|].
  unfold ProcessMediaData, delivered. case_match; [by rewrite app_nil_r|done].
Qed.

(** How much [data_wait] offers to the message: the payload, with what follows when it is the last. *)
Lemma offered max len n (d rest : bytes) : 0 < max → Zlen d = Z.min max (len - n) → 0 < Zlen d → Zlen (d ++ rest) < 2 ^ 32 →
  let k := if negb (max =? 0) && (max <? to_dword (0 + Zlen (d ++ rest))) then to_dword (max - 0) else Zlen (d ++ rest) in
  k ≠ 0 ∧ (ztake k (d ++ rest) = d ∨ ∃ y, ztake k (d ++ rest) = d ++ y ∧ Zlen d = len - n).
Proof.
  intros Hm Hd Hp Hl k. pose proof (Zlen_nonneg rest). assert (Hlen : Zlen (d ++ rest) = Zlen d + Zlen rest) by apply Zlen_app.
  assert (Hk : k = Z.min max (Zlen (d ++ rest))).
  { unfold k. rewrite (proj2 (Z.eqb_neq max 0)) by lia. cbn [negb andb]. rewrite Z.add_0_l, Z.sub_0_r.
    assert (to_dword (Zlen (d ++ rest)) = Zlen (d ++ rest)) as -> by (apply Z.mod_small; lia).
    destruct (Z.ltb_spec max (Zlen (d ++ rest))); [|lia].
    assert (to_dword max = max) as -> by (apply Z.mod_small; lia). lia. }
  rewrite Hk. split; [lia|]. destruct (Z.le_gt_cases (len - n) max) as [Hmin|Hmin].
  - right. exists (ztake (Z.min max (Zlen (d ++ rest)) - Zlen d) rest). split; [|lia].
    unfold ztake. rewrite take_app. f_equal; [apply take_ge; unfold Zlen in *; lia|]. f_equal. unfold Zlen in *. lia.
  - left. apply ztake_app. lia.
Qed.

Lemma data_wait_read e video sid ts len p d c csid t m :
  let max := in_maxChunkSize (cn_in c) in
  formats_ok (cn_in c) → in_chunkStreamId (cn_in c) = csid → in_chunkLen (cn_in c) = 0 → 0 < max →
  om_find csid (in_streams (cn_in c)) = Some t → is_message t = Some m → message_at video sid ts len p m →
  len < 2 ^ 24 → piece_ok video len max p d →
  ∃ f c', (∀ rest, Zlen (d ++ rest) < 2 ^ 32 → data_wait e (d ++ rest) c = Got (c', rest)) ∧ frame_after ts len (p ++ d) f ∧ is_video f = video ∧
    let last := Zlen (p ++ d) =? len in
    chunk_read csid
      (mkInput (is_info t) (if last then None else Some (media_msg video sid ts len (Zlen (p ++ d)) f)))
      (if last then delivered sid f (cn_streams c) else []) c c'.
Proof.
  intros max Hfo Hid Hcl Hm Ht Hmsg Hat Hlen Hpiece. pose proof Hpiece as (Hd1 & Hd2 & _).
  destruct (message_Parse_piece video sid ts len p d max m Hat Hlen Hpiece) as (f & Hparse & Hf & Hv).
  fold (media_msg video sid ts len (Zlen (p ++ d)) f) in Hparse. set (msg := media_msg _ _ _ _ _ f) in *.
  assert (Hstep : ∀ rest, Zlen (d ++ rest) < 2 ^ 32 → data_wait e (d ++ rest) c =
    match GetMessage (mkInput (is_info t) (Some msg)) with
    | (Some m, s) =>
        let? c := process_message e m (set_in (on_stream (λ _, s)) c) in
        Got (set_in (λ r, chunk_taken (Zlen d) (next_chunk r)) c, rest)
    | (None, s) => Got (set_in (λ r, chunk_taken (Zlen d) (on_stream (λ _, s) r)) c, rest)
    end).
  { intros rest Hrest. destruct (offered max len (Zlen p) d rest Hm Hd1 Hd2 Hrest) as [Hk Hoff].
    unfold data_wait. rewrite Hcl. fold max.
    set (k := if negb (max =? 0) && (max <? to_dword (0 + Zlen (d ++ rest))) then to_dword (max - 0) else Zlen (d ++ rest)) in *.
    rewrite (proj2 (Z.eqb_neq _ _) Hk), Hid, Ht. unfold input_Parse. rewrite Hmsg, (Hparse _ Hoff). cbn [cbind fst snd].
    unfold refuse_if. rewrite (proj2 (Z.eqb_neq (Zlen d) 0)), zdrop_app by lia. done. }
  exists f. unfold GetMessage, message_IsParsed in Hstep. cbn [is_message is_info msg media_msg ms_parsing] in Hstep.
  rewrite negb_involutive in Hstep. fold msg in Hstep.
  set (t' := mkInput (is_info t) (Some msg)) in *. destruct (Zlen (p ++ d) =? len) eqn:Hlast.
  - set (c1 := set_in _ c) in *. destruct (process_media e video sid ts len (Zlen (p ++ d)) f c1) as (c2 & Hc2 & Hin & Hlog & Hout).
    fold msg in Hc2. rewrite Hc2 in Hstep. cbn [cbind] in Hstep. eexists. split; [exact Hstep|]. split; [done|]. split; [done|].
    assert (Hr : ready (next_chunk (cn_in c2))) by (rewrite Hin; by apply next_chunk_ready, on_stream_formats).
    destruct (chunk_taken_ready (Zlen d) _ Hr) as (R1 & R2 & R3).
    split; cbn [cn_in set_in]; [done|..].
    + rewrite R2, Hin. cbn. rewrite Hid, om_find_alter_eq, Ht. done.
    + split; [by rewrite R3, Hin|]. intros j Hj. rewrite R2, Hin. cbn. by rewrite Hid, om_find_alter_ne.
    + done.
    + done.
  - eexists. split; [exact Hstep|]. split; [done|]. split; [done|].
    assert (Hfull : Zlen d = max). { apply Z.eqb_neq in Hlast. rewrite Zlen_app in Hlast. lia. }
    destruct (chunk_taken_full (on_stream (λ _, t') (cn_in c)) (Zlen d)) as (R1 & R2 & R3); [by apply on_stream_formats|done| |done|..].
    { split; [done|]. pose proof (Zlen_nonneg p). fold max. lia. }
    split; cbn [cn_in set_in]; [done|..].
    + rewrite R2. cbn. by rewrite Hid, om_find_alter_eq, Ht.
    + split; [done|]. intros j Hj. rewrite R2. cbn. by rewrite Hid, om_find_alter_ne.
    + by rewrite app_nil_r.
    + done.
Qed.
End Receive.
