(* ===== verification/RtmpSync.v ===== *)
(** * RTMP: a sender and a reader in step

    The relation between an output stream and the input stream of the peer that its chunks go to, and
    that every chunk of a frame keeps it.  The two ends have their own uninitialised memory. *)

From S2P Require Import Prelude OrderedMap Wire Octets BitStreamClaims RtmpFormat RtmpMedia RtmpMediaProps Amf RtmpMessage RtmpChunk RtmpChunkProps RtmpConnection RtmpParse RtmpReceive.

Section Sync.
Context {W : WireOps} {V : MoreWireOps} {U : UTF8Ops} {HM : Hmac} {HN : NetworkOrder W V} (M1 M2 : Memory).

(** ** The relation *)

(** A frame that fits the protocol without extended timestamps. *)
Definition sendable (sid ts : Z) (f : RTMPFrame) : Prop :=
  writable f ∧ frame_GetSize f < 2 ^ 24 ∧ 0 <= ts < 0xFFFFFF ∧ is_dword sid.

Definition frame_message (m : RTMPMessage) : Prop := ∃ sid ts f, m = media_message sid ts f ∧ sendable sid ts f.

(** What both sides remember of the last header.  The type has no value before the first one. *)
Record info_sync (i j : StreamInfo) : Prop := mkInfoSync {
  iy_streamId : si_streamId j = si_streamId i;
  iy_length : si_length j = si_length i;
  iy_timestamp : si_timestamp j = si_timestamp i;
  iy_delta : si_timestampDelta j = si_timestampDelta i;
  iy_type : si_length i < 2 ^ 24 → si_type j = si_type i;
  iy_range : 0 <= si_timestamp i < 0xFFFFFF;
}.

(** A frame of which [os_pos] octets are sent and received. *)
Record going (sid ts : Z) (f : RTMPFrame) (s : RTMPChunkOutputStream) (t : RTMPChunkInputStream) : Prop := mkGoing {
  go_message : os_message s = Some (media_message sid ts f);
  go_sendable : sendable sid ts f;
  go_buffer : os_msgBuffer s = frame_octets f;
  go_length : si_length (os_info s) = frame_GetSize f;
  go_pos : 0 <= os_pos s < frame_GetSize f;
  go_first : os_pos s ≠ 0 → first_piece (is_video f) (zget 0 (frame_octets f)) <= os_pos s;
  go_parsed : ∃ m, is_message t = Some m ∧
    message_at (M := M2) (is_video f) sid ts (frame_GetSize f) (ztake (os_pos s) (frame_octets f)) m;
}.

Record in_sync (s : RTMPChunkOutputStream) (t : RTMPChunkInputStream) : Prop := mkInSync {
  is_infos : info_sync (os_info s) (is_info t);
  is_waiting : Forall frame_message (os_messages s);
  is_current : match os_message s with
               | None => is_message t = None
               | Some _ => ∃ sid ts f, going sid ts f s t
               end;
}.

Lemma new_in_sync csid : in_sync (new_output (M := M1) csid) (new_input (M := M2)).
Proof. split; [|by constructor|done]. by split. Qed.

(** The messages not yet sent completely. *)
Definition outstanding (s : RTMPChunkOutputStream) : list RTMPMessage := option_list (os_message s) ++ os_messages s.

(** The octets of them that are not yet sent. *)
Definition remaining (s : RTMPChunkOutputStream) : Z :=
  foldr (λ m n, ms_length m + n) 0 (outstanding s) - match os_message s with Some _ => os_pos s | None => 0 end.

(** ** The headers *)

Lemma frame_message_block sid ts f : sendable sid ts f → message_block (M := M1) (media_message sid ts f) = Got (frame_octets f).
Proof.
  intros (Hw & _). destruct (frame_octets_length f Hw) as [Hl Hp]. unfold message_block.
  cbn [media_message message_Serialize ms_body ms_length cbind]. fold (frame_octets f).
  pose proof (Zlen_nonneg (frame_octets f)).
  rewrite Hl, Z.ltb_irrefl. f_equal. apply write_at_whole. rewrite fresh_length; lia.
Qed.

Definition type_of (f : RTMPFrame) : Z := if is_video f then VideoMessage else AudioMessage.

Lemma type_of_byte f : is_byte (type_of f).
Proof. unfold type_of. destruct (is_video f); unfold is_byte, VideoMessage, AudioMessage; lia. Qed.

Lemma sendable_length sid ts f : sendable sid ts f → 0 < frame_GetSize f < 2 ^ 24.
Proof.
  intros (Hw & Hl & _). destruct (frame_octets_length f Hw) as [H1 H2].
  pose proof (first_piece_range (is_video f) (zget 0 (frame_octets f))). lia.
Qed.

(** The header chosen for a frame makes the infos of both sides those of the frame. *)
Lemma select_header_sync sid ts f i t : sendable sid ts f → info_sync i (is_info t) → is_message t = None →
  ∃ fmt hdr delta g,
    select_header (M := M1) i (type_of f) sid (frame_GetSize f) ts = (fmt, hdr, None, delta) ∧
    0 <= fmt < 4 ∧ Zlen (header_octets hdr) <= 11 ∧ whole_header hdr ∧ header_says fmt (header_octets hdr) g ∧
    g t = mkInput (mkInfo (type_of f) sid (frame_GetSize f) ts delta) None.
Proof.
  intros Hs [H1 H2 H3 H4 H5 H6] Hm. pose proof (sendable_length _ _ _ Hs) as Hl.
  destruct Hs as (_ & _ & Ht & Hsid). pose proof (type_of_byte f) as Hty. destruct t as [j mt]. cbn [is_info is_message] in *. subst mt.
  unfold select_header. set (delta := to_dword (ts - si_timestamp i)).
  destruct ((sid =? 0) || negb (sid =? si_streamId i) || (ts <? si_timestamp i)) eqn:Hcond.
  { rewrite (proj2 (Z.leb_gt 0xFFFFFF ts)) by lia. fold (type0_of (M := M1) ts (frame_GetSize f) (type_of f) sid).
    destruct (type0_fields (M := M1) ts (frame_GetSize f) (type_of f) sid) as (F1 & F2 & F3 & F4 & F5); [lia|lia|done|done|].
    eexists 0, (Some _), _, _. split; [done|]. split; [done|]. split; [cbn [header_octets from_option fm_data] in *; lia|].
    split; [by symmetry|]. split; [by apply (says_type0 _ ts (frame_GetSize f) (type_of f) sid); [..|lia]|done]. }
  apply orb_false_iff in Hcond as [[_ Hsame]%orb_false_iff Hge]. apply negb_false_iff, Z.eqb_eq in Hsame. apply Z.ltb_ge in Hge.
  assert (Hdelta : delta = ts - si_timestamp i) by (apply Z.mod_small; lia).
  assert (Hsum : to_dword (si_timestamp i + delta) = ts) by (unfold to_dword; rewrite Hdelta, Z.mod_small; lia).
  destruct (Z.eqb_spec (frame_GetSize f) (si_length i)) as [Elen|]; [destruct (Z.eqb_spec (type_of f) (si_type i)) as [Ety|]|];
    cbn [orb negb].
  2,3: fold (type1_of (M := M1) delta (frame_GetSize f) (type_of f));
    destruct (type1_fields (M := M1) delta (frame_GetSize f) (type_of f)) as (F1 & F2 & F3 & F4); [lia|lia|done|];
    eexists 1, (Some _), _, _; split; [done|]; split; [done|]; split; [cbn [header_octets from_option fm_data] in *; lia|];
    split; [by symmetry|]; split; [by apply (says_type1 _ delta (frame_GetSize f) (type_of f)); [..|lia]|];
    unfold set_input_info; cbn [is_info is_message]; rewrite H1, H3, Hsum; congruence.
  assert (Hj : j = mkInfo (type_of f) sid (frame_GetSize f) (si_timestamp i) (si_timestampDelta i)).
  { destruct j. cbn in *. f_equal; try congruence. rewrite H5; [congruence|lia]. }
  destruct (Z.eqb_spec delta (si_timestampDelta i)) as [Ed|]; cbn [negb].
  - eexists 3, None, _, _. split; [done|]. split; [done|]. split; [done|]. split; [done|].
    split; [apply says_type3|]. cbn [IsFirstChunk is_message]. unfold set_input_info. cbn [is_info is_message]. rewrite Hj. unfold IncreaseTimestampWithDelta, info_SetTimestamp.
    cbn [si_type si_streamId si_length si_timestamp si_timestampDelta]. by rewrite <- Ed, Hsum.
  - fold (type2_of (M := M1) delta). destruct (type2_fields (M := M1) delta) as (F1 & F2); [lia|].
    eexists 2, (Some _), _, _. split; [done|]. split; [done|]. split; [cbn [header_octets from_option fm_data] in *; lia|].
    split; [by symmetry|]. split; [by apply (says_type2 _ delta); [..|lia]|]. unfold set_input_info. cbn [is_info is_message]. rewrite Hj.
    cbn [si_type si_streamId si_length si_timestamp si_timestampDelta]. by rewrite Hsum.
Qed.

Lemma next_headers_sync s t : HasData s = true → in_sync s t →
  ∃ s1 fmt hdr g sid ts f, next_headers (M := M1) s = Got (s1, fmt, hdr, None) ∧
    0 <= fmt < 4 ∧ Zlen (header_octets hdr) <= 11 ∧ whole_header hdr ∧ header_says fmt (header_octets hdr) g ∧
    startable (M := M2) (g t) ∧ going sid ts f s1 (started (M := M2) (g t)) ∧
    info_sync (os_info s1) (is_info (started (M := M2) (g t))) ∧
    Forall frame_message (os_messages s1) ∧ outstanding s1 = outstanding s ∧ remaining s1 = remaining s ∧
    os_chunkStreamId s1 = os_chunkStreamId s.
Proof.
  intros Hd [Hi Hw Hc]. unfold next_headers. destruct (os_message s) as [m|] eqn:Em.
  - destruct Hc as (sid & ts & f & Hg). destruct (go_parsed _ _ _ _ _ Hg) as (mt & Hmt & Hat).
    exists s, 3, None, (λ s, if IsFirstChunk s then set_input_info IncreaseTimestampWithDelta s else s), sid, ts, f.
    assert (Hst : started (M := M2) (if IsFirstChunk t then set_input_info IncreaseTimestampWithDelta t else t) = t).
    { unfold IsFirstChunk, started. rewrite Hmt. cbn. by rewrite Hmt. }
    rewrite Hst. split_and!; try done; [apply says_type3|]. apply (startable_going _ mt). unfold IsFirstChunk. by rewrite Hmt.
  - unfold HasData in Hd. rewrite Em in Hd. destruct (os_messages s) as [|m messages] eqn:Eq; [done|].
    apply Forall_cons in Hw as [(sid & ts & f & -> & Hs) Hw].
    pose proof (sendable_length _ _ _ Hs) as Hl. destruct (Hs) as (Hwr & _ & Ht & Hsid).
    rewrite (frame_message_block sid ts f Hs). cbn [cbind].
    assert (to_dword (ms_timestamp (media_message sid ts f)) = ts) as -> by (apply Z.mod_small; cbn; lia).
    assert (ms_type (media_message sid ts f) = type_of f) as -> by (by destruct f).
    change (ms_length (media_message sid ts f)) with (frame_GetSize f). change (ms_streamId (media_message sid ts f)) with sid.
    destruct (select_header_sync sid ts f (os_info s) t Hs Hi Hc) as (fmt & hdr & delta & g & -> & F1 & F2 & F3 & F4 & F5).
    eexists _, fmt, hdr, g, sid, ts, f. split; [done|]. rewrite F5.
    unfold started. cbn [is_message is_info os_info si_streamId si_timestamp si_type si_length].
    split; [done|]. split; [done|]. split; [done|]. split; [done|]. split; [apply startable_length; cbn; lia|].
    split; [|split; [by split|]; split; [done|]; split; [unfold outstanding; by rewrite Em, Eq|]].
    2: { split; [|done]. unfold remaining, outstanding. rewrite Em, Eq. cbn. lia. }
    split; cbn [os_message os_info os_msgBuffer os_pos si_length is_message]; try first [done | lia].
    eexists. split; [done|]. apply new_message_at. lia.
Qed.

(** ** A chunk from one end to the other *)

(** The reader takes the octets [w], whatever follows, in a bounded number of rounds. *)
Definition reads (e : RtmpEnv) (c : Connection) (nb : Z) (w : bytes) (c' : Connection) (nb' : Z) : Prop :=
  ∃ k, (k <= 3 * length w)%nat ∧ ∀ fuel rest, Zlen (w ++ rest) < 2 ^ 32 →
    parse_loop (M := M2) e (k + fuel) (w ++ rest) c nb = parse_loop (M := M2) e fuel rest c' nb'.

Lemma reads_nil e c nb : reads e c nb [] c nb.
Proof. exists 0%nat. split; [lia|done]. Qed.

Lemma reads_app e c1 nb1 w1 c2 nb2 w2 c3 nb3 :
  reads e c1 nb1 w1 c2 nb2 → reads e c2 nb2 w2 c3 nb3 → reads e c1 nb1 (w1 ++ w2) c3 nb3.
Proof.
  intros (k1 & L1 & R1) (k2 & L2 & R2). exists (k1 + k2)%nat. split; [rewrite length_app; lia|].
  intros fuel rest Hl. rewrite <- app_assoc in *. rewrite <- Nat.add_assoc, R1, R2; [done| |done].
  rewrite Zlen_app in Hl. pose proof (Zlen_nonneg w1). lia.
Qed.

Lemma parse_loop_round e fuel buffer c nb : 0 < Zlen buffer →
  parse_loop (M := M2) e (S fuel) buffer c nb =
    (let? x := parse_step (M := M2) e buffer c nb in let '(c, buffer, nb) := x in parse_loop (M := M2) e fuel buffer c nb).
Proof. intros. cbn [parse_loop]. by rewrite (proj2 (Z.eqb_neq _ _)) by lia. Qed.

Lemma basic_octets_length fmt csid : 1 <= Zlen (basic_octets fmt csid) <= 3.
Proof. unfold basic_octets. repeat case_match; rewrite !Zlen_cons, Zlen_nil; lia. Qed.

(** The three rounds of a chunk. *)
Lemma chunk_reads e c nb fmt csid h g video sid ts len p d m :
  ready (cn_in c) → 0 <= fmt < 4 → csid_ok csid → header_says fmt h g →
  (om_find csid (in_streams (cn_in c)) = None → nb + 1 <= 5) → startable (M := M2) (g (input_of (M := M2) csid (cn_in c))) →
  let t := started (M := M2) (g (input_of (M := M2) csid (cn_in c))) in
  is_message t = Some m → message_at (M := M2) video sid ts len p m → len < 2 ^ 24 → 0 < in_maxChunkSize (cn_in c) →
  piece_ok video len (in_maxChunkSize (cn_in c)) p d →
  ∃ f c', reads e c nb (basic_octets fmt csid ++ h ++ d) c'
      (match om_find csid (in_streams (cn_in c)) with None => nb + 1 | Some _ => 0 end) ∧
    frame_after ts len (p ++ d) f ∧ is_video f = video ∧
    let last := Zlen (p ++ d) =? len in
    chunk_read csid
      (mkInput (is_info t) (if last then None else Some (media_msg video sid ts len (Zlen (p ++ d)) f)))
      (if last then delivered sid f (cn_streams c) else []) c c'.
Proof.
  intros Hr Hf Hc Hsays Hnb Hstart t Hmt Hat Hlen Hmax Hpiece. pose proof Hpiece as (_ & Hd & _).
  pose proof (basic_octets_length fmt csid) as Hb.
  destruct (header_wait_read fmt csid (cn_in c) Hr Hf Hc) as (r1 & R1 & S1 & Fo1 & G1 & G2 & Z1 & Str1 & Max1).
  assert (Hin1 : input_of (M := M2) csid r1 = input_of (M := M2) csid (cn_in c)) by (unfold input_of; by rewrite Str1).
  destruct (type_wait_read (M := M2) fmt h g r1 nb csid Hsays Fo1 S1 G1 G2 Z1) as (r2 & R2 & S2 & Fo2 & Id2 & Cl2 & Str2 & Only2);
    [by rewrite Str1|by rewrite Hin1|]. rewrite Hin1 in Str2. rewrite Str1 in R2. fold t in Str2.
  assert (Only : only_stream csid (cn_in c) r2).
  { destruct Only2 as [O1 O2]. split; [congruence|]. intros j Hj. by rewrite O2, Str1. }
  destruct Only as [O1 O2].
  destruct (data_wait_read (M := M2) e video sid ts len p d (set_in (λ _, r2) c) csid t m) as (f & c' & R3 & Hf' & Hv & Hcr);
    cbn [cn_in set_in]; rewrite ?O1; try done.
  exists f, c'. split; [|split; [done|]; split; [done|]].
  - exists 3%nat. split. { rewrite !length_app. unfold Zlen in *. lia. }
    intros fuel rest Hl. rewrite <- !app_assoc in *. cbn [Nat.add].
    pose proof (Zlen_nonneg h). pose proof (Zlen_nonneg rest).
    rewrite parse_loop_round by (rewrite Zlen_app; pose proof (Zlen_nonneg (h ++ d ++ rest)); lia).
    unfold parse_step at 1. rewrite (rd_state _ Hr), R1. cbn [cbind].
    rewrite parse_loop_round by (rewrite !Zlen_app; lia).
    unfold parse_step at 1. cbn [set_in cn_in]. rewrite S1, R2. cbn [cbind].
    rewrite parse_loop_round by (rewrite !Zlen_app; lia).
    unfold parse_step at 1. cbn [set_in cn_in]. rewrite S2.
    rewrite R3; [done|]. rewrite !Zlen_app in *. lia.
  - destruct Hcr as [C1 C2 [C3 C3'] C4 C5]. split; try done. split; [by rewrite C3|]. intros j Hj. rewrite C3', <- O2 by done. done.
Qed.

(** The messages [sent] come out as [events]: the same frames with the timestamps of the messages. *)
Inductive arrives (streams : list Z) : list RTMPMessage → list Event → Prop :=
  | arrives_nil : arrives streams [] []
  | arrives_cons sid ts f g ms evs :
      frame_view g = frame_view f → mf_timestamp (frame_media g) = ts → arrives streams ms evs →
      arrives streams (media_message sid ts f :: ms) (delivered sid g streams ++ evs).

Lemma arrives_app streams ms1 evs1 ms2 evs2 : arrives streams ms1 evs1 → arrives streams ms2 evs2 →
  arrives streams (ms1 ++ ms2) (evs1 ++ evs2).
Proof. induction 1; intros; [done|]. rewrite <- app_assoc. cbn. constructor; auto. Qed.

Lemma arrives_one streams sid ts f g : frame_view g = frame_view f → mf_timestamp (frame_media g) = ts →
  arrives streams [media_message sid ts f] (delivered sid g streams).
Proof. intros. rewrite <- (app_nil_r (delivered _ _ _)). constructor; [done..|constructor]. Qed.

(** What a chunk of [s] does: the octets, the streams of both ends afterwards, the frames that came out. *)
Record transferred (e : RtmpEnv) (s : RTMPChunkOutputStream) (c : Connection) (nb : Z) (w : bytes)
    (s' : RTMPChunkOutputStream) (c' : Connection) : Prop := mkTransferred {
  tr_csid : os_chunkStreamId s' = os_chunkStreamId s;
  tr_reads : reads e c nb w c' (match om_find (os_chunkStreamId s) (in_streams (cn_in c)) with None => nb + 1 | Some _ => 0 end);
  tr_ready : ready (cn_in c');
  tr_sync : in_sync s' (input_of (M := M2) (os_chunkStreamId s) (cn_in c'));
  tr_known : is_Some (om_find (os_chunkStreamId s) (in_streams (cn_in c')));
  tr_only : only_stream (os_chunkStreamId s) (cn_in c) (cn_in c');
  tr_outside : same_outside c c';
  tr_events : ∃ sent events, outstanding s = sent ++ outstanding s' ∧ cn_log c' = cn_log c ++ events ∧
    arrives (cn_streams c) sent events;
  tr_less : remaining s' < remaining s;
}.

(** The payload that [going] gives is a piece the reader can go on with. *)
Lemma going_piece sid ts f s t max : going sid ts f s t → 5 <= max →
  let p := ztake (os_pos s) (frame_octets f) in
  let d := chunk_payload max s in
  under_way s ∧ Zlen p = os_pos s ∧ piece_ok (is_video f) (frame_GetSize f) max p d ∧
  p ++ d = ztake (os_pos s + Zlen d) (frame_octets f).
Proof.
  intros [G1 G2 G3 G4 G5 G6 _] Hmax p d. destruct G2 as (Hw & Hl & _ & _).
  destruct (frame_octets_length f Hw) as [Hlen Hfirst]. pose proof (first_piece_range (is_video f) (zget 0 (frame_octets f))) as Hr.
  assert (Hu : under_way s) by (unfold under_way; rewrite G3, G4, Hlen; lia).
  assert (Hp : Zlen p = os_pos s) by (unfold p; rewrite Zlen_ztake; lia).
  assert (Hd : Zlen d = Z.min max (frame_GetSize f - os_pos s)) by (unfold d; rewrite chunk_payload_length by (done || lia); by rewrite G4).
  assert (Hpd : p ++ d = ztake (os_pos s + Zlen d) (frame_octets f)).
  { unfold p, d at 1, chunk_payload. rewrite G3, G4, <- Hd. unfold ztake, zdrop.
    rewrite Z2Nat.inj_add by lia. by rewrite take_take_drop. }
  split; [done|]. split; [done|]. split; [|done]. split; [by rewrite Hp|]. split; [lia|].
  assert (zget 0 (p ++ d) = zget 0 (frame_octets f)) as -> by (rewrite Hpd; apply zget_ztake; lia).
  rewrite Hp. destruct (Z.eqb_spec (os_pos s) 0) as [E|E]; [lia|]. by apply G6.
Qed.

Lemma chunk_transfer e max s c data nb :
  let csid := os_chunkStreamId s in
  HasData s = true → in_sync s (input_of (M := M2) csid (cn_in c)) → csid_ok csid → ready (cn_in c) →
  in_maxChunkSize (cn_in c) = max → 5 <= max →
  Zlen (basic_octets 0 csid) + 11 + max <= Zlen data < 2 ^ 32 →
  (om_find csid (in_streams (cn_in c)) = None → nb + 1 <= 5) →
  ∃ s' data' w c', GetNextChunk (M := M1) data max s = Got (s', data', Zlen w) ∧ Zlen data' = Zlen data ∧
    ztake (Zlen w) data' = w ∧ 0 < Zlen w <= Zlen data ∧ transferred e s c nb w s' c'.
Proof.
  intros csid Hdata Hsync Hc Hr Hmx Hmax Hroom Hnb.
  destruct (next_headers_sync s _ Hdata Hsync) as (s1 & fmt & hdr & g & sid & ts & f & Hn & Hf & Hh & Hwh & Hsays & Hst & Hgo & Hi & Hw & Hout & Hrem & Hcs).
  set (t := input_of csid (cn_in c)) in *. destruct (going_piece _ _ _ _ _ max Hgo Hmax) as (Hu & Hp & Hpiece & Hpd).
  destruct (Hgo) as [G1 G2 G3 G4 G5 G6 (m & Hm & Hat)]. pose proof (sendable_length _ _ _ G2) as Hl.
  set (p := ztake (os_pos s1) (frame_octets f)) in *. set (d := chunk_payload max s1) in *. subst max.
  destruct (chunk_reads e c nb fmt csid (header_octets hdr) g _ sid ts _ p d m Hr Hf Hc Hsays Hnb Hst Hm Hat) as (f' & c' & Hreads & Hafter & Hv & Hcr);
    [lia..|done|].
  assert (Hb : Zlen (basic_octets fmt csid) = Zlen (basic_octets 0 csid)) by (unfold basic_octets; by repeat case_match).
  destruct (GetNextChunk_octets (M := M1) data (in_maxChunkSize (cn_in c)) s s1 fmt hdr Hn Hf) as (data' & He & Hld & Htk);
    rewrite ?Hcs; fold csid; [done|done|done|lia|lia|]. rewrite Hcs in He, Htk. fold csid d in He, Htk.
  eexists _, data', _, c'. split; [exact He|]. split; [done|]. split; [exact Htk|]. pose proof Hpiece as (Hd1 & Hd2 & _).
  pose proof (basic_octets_length fmt csid). pose proof (Zlen_nonneg (header_octets hdr)).
  split; [rewrite !Zlen_app; lia|].
  assert (Hpos : Zlen (p ++ d) = os_pos s1 + Zlen d) by (rewrite Zlen_app; lia).
  destruct (frame_octets_length f (proj1 G2)) as [Hfl Hff].
  rewrite Hpos in Hcr. cbv zeta in Hcr. destruct Hcr as [C1 C2 C3 C4 C5].
  split; fold csid; [done|done|done| |by eexists|done|done| |].
  - unfold input_of. rewrite C2. cbn [default from_option]. unfold after_chunk. rewrite G4.
    split; cbn [os_info is_info os_messages os_message is_message]; [done|done|].
    destruct (Z.eqb_spec (os_pos s1 + Zlen d) (frame_GetSize f)) as [E|E]; [done|]. rewrite G1.
    exists sid, ts, f. split; cbn [os_message os_msgBuffer os_info os_pos is_message]; try done; [lia| |].
    + intros _. destruct Hpiece as (_ & _ & Hfp). rewrite Hpd in Hfp. rewrite zget_ztake in Hfp by lia.
      rewrite Hp in Hfp. destruct (Z.eqb_spec (os_pos s1) 0); lia.
    + eexists. split; [done|]. exists f'. rewrite <- Hpd, Hpos. unfold media_msg. rewrite (proj2 (Z.eqb_neq _ _) E).
      rewrite (proj2 (Z.eqb_neq (os_pos s1 + Zlen d) 0)) by lia. done.
  - rewrite <- Hout. unfold outstanding, after_chunk. rewrite G1, G4. cbn [os_message os_messages].
    destruct (Z.eqb_spec (os_pos s1 + Zlen d) (frame_GetSize f)) as [E|E].
    + exists [media_message sid ts f], (delivered sid f' (cn_streams c)). split; [done|]. split; [done|].
      rewrite Hpd, ztake_all in Hafter by lia.
      destruct (frame_octets_view f ts _ f' (proj1 G2) Hafter Hv) as [V1 V2]. by apply arrives_one.
    + exists [], []. split; [done|]. split; [done|constructor].
  - rewrite <- Hrem. unfold remaining, outstanding, after_chunk. rewrite G1, G4. cbn [os_message os_messages os_pos].
    destruct (Z.eqb_spec (os_pos s1 + Zlen d) (frame_GetSize f)) as [E|E]; cbn; lia.
Qed.

Lemma frame_messages_length l : Forall frame_message l → 0 <= foldr (λ m n, ms_length m + n) 0 l ∧
  (foldr (λ m n, ms_length m + n) 0 l = 0 → l = []).
Proof.
  induction 1 as [|m l (sid & ts & f & -> & Hs) _ [IH1 IH2]]; [done|]. pose proof (sendable_length _ _ _ Hs). cbn. lia.
Qed.

Lemma remaining_nonneg s t : in_sync s t → 0 <= remaining s ∧ (remaining s = 0 → outstanding s = []).
Proof.
  intros [_ Hw Hc]. destruct (frame_messages_length _ Hw) as [H1 H2]. unfold remaining, outstanding.
  destruct (os_message s) as [m|] eqn:Em; cbn; [|rewrite Z.sub_0_r; auto].
  destruct Hc as (sid & ts & f & [G1 _ _ _ G5 _ _]). rewrite Em in G1. injection G1 as ->. cbn [ms_length media_message]. lia.
Qed.
End Sync.
