(* ===== verification/RtmpLinkClaims.v ===== *)
(** * RTMP: frames arrive

    [SerializeChunkData] on one end and [ParseData] on the other, on frames: the output streams of the
    one and the input streams of the other stay in step, and what was sent comes out.

    The guarantee on two connections, the one writing to the other, and what the code does outside of
    its conditions. *)

From S2P Require Import Prelude OrderedMap Wire Octets BitStreamClaims RtmpFormat RtmpMedia RtmpMediaProps Amf RtmpMessage RtmpChunk RtmpChunkProps RtmpConnection RtmpParse RtmpReceive RtmpSync RtmpParseClaims.

Section Link.
Context {W : WireOps} {V : MoreWireOps} {U : UTF8Ops} {HM : Hmac} {HN : NetworkOrder W V} (M1 M2 : Memory).

(** ** Streams the reader does not know *)

Definition unopened (ids : list Z) (r : Reader) : Z :=
  foldr (λ id n, match om_find id (in_streams r) with None => 1 | Some _ => 0 end + n) 0 ids.

Lemma unopened_nonneg ids r : 0 <= unopened ids r.
Proof. unfold unopened. induction ids as [|id ids IH]; cbn; [lia|]. destruct (om_find id (in_streams r)); lia. Qed.

Lemma unopened_step ids id r r' : only_stream id r r' → is_Some (om_find id (in_streams r')) →
  unopened ids r' <= unopened ids r ∧
  (id ∈ ids → om_find id (in_streams r) = None → unopened ids r' + 1 <= unopened ids r).
Proof.
  intros [_ Ho] [t Ht]. unfold unopened. induction ids as [|j ids [IH1 IH2]]; cbn.
  { split; [lia|]. by intros ?%elem_of_nil. }
  destruct (decide (j = id)) as [-> |Hj].
  - rewrite Ht. split; [destruct (om_find id (in_streams r)); lia|]. intros _ ->. lia.
  - rewrite Ho by done. split; [lia|]. intros Hin Hn. apply elem_of_cons in Hin as [?|Hin]; [congruence|].
    specialize (IH2 Hin Hn). lia.
Qed.

(** The streams opened in a row by this call, and those that may still be. *)
Definition budget (ids : list Z) (c : Connection) (nb : Z) : Prop := 0 <= nb ∧ nb + unopened ids (cn_in c) <= 5.

Lemma ztake_app_more {A} n k (a b : list A) : Zlen a = n → 0 <= k → ztake (n + k) (a ++ b) = a ++ ztake k b.
Proof.
  intros Ha Hk. unfold ztake. rewrite take_app, take_ge by (unfold Zlen in *; lia). do 2 f_equal. unfold Zlen in *. lia.
Qed.

(** ** The chunks of one stream *)

(** A stream of the sender, its identifier in one octet, in step with the reader [c]. *)
Definition paired (c : Connection) (id : Z) (s : RTMPChunkOutputStream) : Prop :=
  os_chunkStreamId s = id ∧ 2 <= id < 64 ∧ in_sync M2 s (input_of (M := M2) id (cn_in c)).

(** The octets [w] move the reader from [c] to [c']. *)
Record moved (e : RtmpEnv) (ids : list Z) (c : Connection) (nb : Z) (w : bytes) (c' : Connection) (nb' : Z) : Prop := mkMoved {
  mv_reads : reads M2 e c nb w c' nb';
  mv_ready : ready (cn_in c');
  mv_max : in_maxChunkSize (cn_in c') = in_maxChunkSize (cn_in c);
  mv_budget : budget ids c' nb';
  mv_outside : same_outside c c';
}.

Lemma moved_refl e ids c nb : ready (cn_in c) → budget ids c nb → moved e ids c nb [] c nb.
Proof. intros. split; try done. apply reads_nil. Qed.

Lemma moved_trans e ids c1 nb1 w1 c2 nb2 w2 c3 nb3 :
  moved e ids c1 nb1 w1 c2 nb2 → moved e ids c2 nb2 w2 c3 nb3 → moved e ids c1 nb1 (w1 ++ w2) c3 nb3.
Proof.
  intros [A1 A2 A3 A4 (A5 & A6 & A7)] [B1 B2 B3 B4 (B5 & B6 & B7)]. split; try done; [by eapply reads_app|congruence|].
  unfold same_outside. rewrite B5, B6, B7. done.
Qed.

(** A stream that gave some of its messages, which came out. *)
Record gave (c : Connection) (s : RTMPChunkOutputStream) (c' : Connection) (s' : RTMPChunkOutputStream) : Prop := mkGave {
  gv_only : only_stream (os_chunkStreamId s) (cn_in c) (cn_in c');
  gv_events : ∃ sent events, outstanding s = sent ++ outstanding s' ∧ cn_log c' = cn_log c ++ events ∧
    arrives (cn_streams c) sent events;
}.

Lemma gave_refl c s : gave c s c s.
Proof. split; [done|]. exists [], []. rewrite app_nil_r. split; [done|]. split; [done|constructor]. Qed.

Lemma gave_trans c1 s1 c2 s2 c3 s3 : os_chunkStreamId s2 = os_chunkStreamId s1 → cn_streams c2 = cn_streams c1 →
  gave c1 s1 c2 s2 → gave c2 s2 c3 s3 → gave c1 s1 c3 s3.
Proof.
  intros Hid Hst [A1 (m1 & v1 & A2 & A3 & A4)] [B1 (m2 & v2 & B2 & B3 & B4)]. rewrite Hid in B1. rewrite Hst in B4. split.
  - by eapply only_stream_trans.
  - exists (m1 ++ m2), (v1 ++ v2). split_and!; [by rewrite A2, B2, app_assoc|by rewrite B3, A3, app_assoc|by apply arrives_app].
Qed.

(** One chunk of a stream. *)
Lemma chunk_moved e ids max id s c nb data : HasData s = true → paired c id s → id ∈ ids → ready (cn_in c) → budget ids c nb →
  in_maxChunkSize (cn_in c) = max → 5 <= max → 12 + max <= Zlen data < 2 ^ 32 →
  ∃ s' data' w c' nb', GetNextChunk (M := M1) data max s = Got (s', data', Zlen w) ∧ Zlen data' = Zlen data ∧
    ztake (Zlen w) data' = w ∧ 0 < Zlen w <= Zlen data ∧ moved e ids c nb w c' nb' ∧ gave c s c' s' ∧
    paired c' id s' ∧ remaining s' < remaining s.
Proof.
  intros Hd (Hid & Hr & Hs) Hin Hrd [Hb1 Hb2] Hmx Hmax Hroom.
  assert (Hlen1 : Zlen (basic_octets 0 id) = 1) by (unfold basic_octets; rewrite (proj2 (Z.ltb_lt _ _)) by lia; done).
  assert (Hopen : om_find id (in_streams (cn_in c)) = None → 1 <= unopened ids (cn_in c)).
  { intros Hn. destruct (unopened_step ids id (cn_in c) (set_streams (om_set id (new_input (M := M2)) (in_streams (cn_in c))) (cn_in c))) as [_ H].
    - split; [done|]. intros j Hj. cbn. by apply om_find_set_ne.
    - cbn. rewrite om_find_set_eq. by eexists.
    - specialize (H Hin Hn). pose proof (unopened_nonneg ids (set_streams (om_set id (new_input (M := M2)) (in_streams (cn_in c))) (cn_in c))). lia. }
  destruct (chunk_transfer M1 M2 e max s c data nb) as (s' & data' & w & c' & He & Hl & Ht & Hw & [T1 T2 T3 T4 T5 T6 T7 T8 T9]);
    rewrite ?Hid; try done; [unfold csid_ok; lia|lia|intros; specialize (Hopen H); lia|].
  rewrite Hid in *. destruct (unopened_step ids id _ _ T6 T5) as [U1 U2]. destruct (T6) as [O1 O2].
  eexists s', data', w, c', _. split_and!; try done; try lia.
  - split; [exact T2|done|done| |done]. destruct (om_find id (in_streams (cn_in c))) eqn:E; split; try lia.
    specialize (U2 Hin eq_refl). lia.
  - by split; [rewrite Hid|].
Qed.

(** The loop over the chunks of a stream: it ends, the octets it adds move the reader. *)
Lemma stream_chunks_moved e ids max id fuel : ∀ count s data len c nb,
  paired c id s → id ∈ ids → ready (cn_in c) → budget ids c nb → in_maxChunkSize (cn_in c) = max →
  5 <= max < 2 ^ 32 - 12 → 0 <= len <= Zlen data → Zlen data < 2 ^ 32 → Zlen data - len < Z.of_nat fuel →
  ∃ s' data' stop w c' nb', stream_chunks (M := M1) fuel max id count s data len = Got (s', data', len + Zlen w, stop) ∧
    Zlen data' = Zlen data ∧ len + Zlen w <= Zlen data ∧ ztake (len + Zlen w) data' = ztake len data ++ w ∧
    moved e ids c nb w c' nb' ∧ gave c s c' s' ∧ paired c' id s' ∧ remaining s' <= remaining s ∧
    if HasData s then 12 + max <= Zlen data - len → remaining s' < remaining s else stop = false ∧ w = [].
Proof.
  induction fuel as [|fuel IH]; intros count s data len c nb Hp Hin Hr Hb Hmx Hmax Hlen Hdata Hfuel; [lia|].
  assert (Hstay : ∀ stop : bool, (if HasData s then Zlen data - len < 12 + max else stop = false) →
    ∃ s' data' stop' w c' nb', Got (s, data, len, stop) = Got (s', data', len + Zlen w, stop') ∧
      Zlen data' = Zlen data ∧ len + Zlen w <= Zlen data ∧ ztake (len + Zlen w) data' = ztake len data ++ w ∧
      moved e ids c nb w c' nb' ∧ gave c s c' s' ∧ paired c' id s' ∧ remaining s' <= remaining s ∧
      if HasData s then 12 + max <= Zlen data - len → remaining s' < remaining s else stop' = false ∧ w = []).
  { intros stop Hno. exists s, data, stop, [], c, nb. rewrite Zlen_nil, Z.add_0_r, app_nil_r.
    split_and!; try done; try lia; [by apply moved_refl|apply gave_refl|]. destruct (HasData s); [lia|done]. }
  cbn [stream_chunks]. destruct (HasData s) eqn:Hd; cbn [negb]; [|by apply Hstay].
  assert (to_dword (Zlen data - len) = Zlen data - len) as -> by (apply Z.mod_small; lia).
  assert (to_dword (max + 12) = max + 12) as -> by (apply Z.mod_small; lia).
  destruct (Z.ltb_spec (Zlen data - len) (max + 12)) as [Hroom|Hroom]; [apply Hstay; lia|]. clear Hstay.
  assert (Hrest : Zlen (zdrop len data) = Zlen data - len) by (rewrite Zlen_zdrop; lia).
  destruct (chunk_moved e ids max id s c nb (zdrop len data) Hd Hp Hin Hr Hb Hmx) as (s1 & chunk & w1 & c1 & nb1 & -> & L1 & T1 & W1 & Mv1 & G1 & P1 & R1); [lia..|].
  cbn [cbind]. rewrite Hrest in *. set (data1 := ztake len data ++ chunk).
  assert (Htl : Zlen (ztake len data) = len) by (rewrite Zlen_ztake; lia).
  assert (Hd1 : Zlen data1 = Zlen data) by (unfold data1; rewrite Zlen_app, L1; lia).
  assert (Ht1 : ztake (len + Zlen w1) data1 = ztake len data ++ w1).
  { unfold data1. rewrite ztake_app_more by lia. by rewrite T1. }
  assert (to_dword (len + Zlen w1) = len + Zlen w1) as -> by (apply Z.mod_small; lia).
  destruct ((4 <=? id) && (5 <? count + 1)).
  { exists s1, data1, false, w1, c1, nb1. split_and!; try done; lia. }
  destruct (IH (count + 1) s1 data1 (len + Zlen w1) c1 nb1 P1 Hin (mv_ready _ _ _ _ _ _ _ Mv1) (mv_budget _ _ _ _ _ _ _ Mv1))
    as (s2 & data2 & stop & w2 & c2 & nb2 & -> & L2 & B2 & T2 & Mv2 & G2 & P2 & R2 & _);
    [by rewrite (mv_max _ _ _ _ _ _ _ Mv1)|lia..|].
  exists s2, data2, stop, (w1 ++ w2), c2, nb2. rewrite Zlen_app, Z.add_assoc.
  split; [done|]. split; [lia|]. split; [lia|]. split; [by rewrite T2, Ht1, app_assoc|].
  split; [by eapply moved_trans|]. split; [|split; [done|lia]].
  eapply gave_trans; [|apply (mv_outside _ _ _ _ _ _ _ Mv1)|done|done]. destruct Hp as [-> _], P1 as [-> _]. done.
Qed.

(** ** All streams *)

(** The messages that the streams gave, stream after stream. *)
Inductive drained : list (Z * RTMPChunkOutputStream) → list RTMPMessage → list (Z * RTMPChunkOutputStream) → Prop :=
  | drained_nil : drained [] [] []
  | drained_cons id s sent s' l ms l' :
      outstanding s = sent ++ outstanding s' → drained l ms l' → drained ((id, s) :: l) (sent ++ ms) ((id, s') :: l').

Lemma drained_refl l : drained l [] l.
Proof. induction l as [|[id s] l IH]; [constructor|]. by apply (drained_cons id s [] s l []). Qed.

Definition total (l : list (Z * RTMPChunkOutputStream)) : Z := foldr (λ p n, remaining p.2 + n) 0 l.

Lemma total_cons id s l : total ((id, s) :: l) = remaining s + total l.
Proof. done. Qed.

Definition all_paired (c : Connection) (ids : list Z) (l : list (Z * RTMPChunkOutputStream)) : Prop :=
  Forall (λ p, paired c p.1 p.2 ∧ p.1 ∈ ids) l.

(** Streams that the chunks were not for stay in step. *)
Lemma all_paired_only c c' ids l id : all_paired c ids l → only_stream id (cn_in c) (cn_in c') → id ∉ l.*1 → all_paired c' ids l.
Proof.
  intros Hall [_ Ho] Hid. unfold all_paired in *. rewrite Forall_forall in *. intros [j s] Hj.
  destruct (Hall _ Hj) as [(H1 & H2 & H3) H4]. split; [|done]. split; [done|]. split; [done|]. cbn [fst snd] in *.
  unfold input_of. rewrite Ho; [done|]. intros ->. apply Hid, list_elem_of_fmap. by exists (id, s).
Qed.

Lemma serialize_streams_moved e ids max l : ∀ data len c nb,
  all_paired c ids l → NoDup l.*1 → ready (cn_in c) → budget ids c nb → in_maxChunkSize (cn_in c) = max →
  5 <= max < 2 ^ 32 - 12 → 0 <= len <= Zlen data → Zlen data < 2 ^ 32 →
  ∃ l' data' w c' nb' sent events, serialize_streams (M := M1) max l data len = Got (l', data', len + Zlen w) ∧
    l'.*1 = l.*1 ∧ Zlen data' = Zlen data ∧ len + Zlen w <= Zlen data ∧ ztake (len + Zlen w) data' = ztake len data ++ w ∧
    moved e ids c nb w c' nb' ∧ all_paired c' ids l' ∧ drained l sent l' ∧ cn_log c' = cn_log c ++ events ∧
    arrives (cn_streams c) sent events ∧ (∀ j, j ∉ l.*1 → om_find j (in_streams (cn_in c')) = om_find j (in_streams (cn_in c))) ∧
    total l' <= total l ∧
    (Exists (λ p, HasData p.2 = true) l → 12 + max <= Zlen data - len → total l' < total l).
Proof.
  induction l as [|[id s] l IH]; intros data len c nb Hall Hnd Hr Hb Hmx Hmax Hlen Hdata.
  { exists [], data, [], c, nb, [], []. rewrite Zlen_nil, Z.add_0_r, !app_nil_r.
    split_and!; try done; try lia; [by apply moved_refl|constructor|constructor|]. by intros ?%Exists_nil. }
  apply Forall_cons in Hall as [[Hp Hin] Hall]. cbn [fst snd] in Hp, Hin. apply NoDup_cons in Hnd as [Hni Hnd].
  cbn [serialize_streams].
  destruct (stream_chunks_moved e ids max id (S (length data)) 0 s data len c nb Hp Hin Hr Hb Hmx Hmax Hlen Hdata)
    as (s1 & data1 & stop & w1 & c1 & nb1 & -> & L1 & B1 & T1 & Mv1 & [G1 (m1 & v1 & G2 & V1 & A1)] & P1 & R1 & R1');
    [unfold Zlen in *; lia|]. cbn [cbind].
  assert (Hid : os_chunkStreamId s = id) by apply Hp. rewrite Hid in G1.
  pose proof (all_paired_only c c1 ids l id Hall G1 Hni) as Hall1.
  destruct stop.
  - exists ((id, s1) :: l), data1, w1, c1, nb1, m1, v1. split_and!; try done; try lia.
    + by apply Forall_cons.
    + rewrite <- (app_nil_r m1). constructor; [done|apply drained_refl].
    + intros j Hj. apply G1. cbn in Hj. set_solver.
    + rewrite !total_cons. lia.
    + rewrite !total_cons. intros _ Hroom. destruct (HasData s); [specialize (R1' Hroom); lia|]. by destruct R1'.
  - pose proof (Zlen_nonneg w1). destruct (IH data1 (len + Zlen w1) c1 nb1 Hall1 Hnd (mv_ready _ _ _ _ _ _ _ Mv1) (mv_budget _ _ _ _ _ _ _ Mv1))
      as (l2 & data2 & w2 & c2 & nb2 & m2 & v2 & -> & K2 & L2 & B2 & T2 & Mv2 & P2 & D2 & V2 & A2 & O2 & R2 & R2');
      [by rewrite (mv_max _ _ _ _ _ _ _ Mv1)|lia..|]. cbn [cbind].
    exists ((id, s1) :: l2), data2, (w1 ++ w2), c2, nb2, (m1 ++ m2), (v1 ++ v2). rewrite Zlen_app, Z.add_assoc.
    destruct (mv_outside _ _ _ _ _ _ _ Mv1) as (_ & _ & Hst). rewrite Hst in A2.
    split; [done|]. split; [cbn; by rewrite K2|]. split; [lia|]. split; [lia|]. split; [by rewrite T2, T1, app_assoc|].
    split; [by eapply moved_trans|].
    split; [apply Forall_cons; split; [|done]; split; [|done]; destruct P1 as (Q1 & Q2 & Q3); split; [done|split; [done|]]|].
    { cbn [fst snd]. unfold input_of in *. by rewrite O2. }
    split; [by constructor|]. split; [by rewrite V2, V1, app_assoc|]. split; [by apply arrives_app|].
    split; [intros j Hj; cbn in Hj; rewrite O2 by set_solver; apply G1; set_solver|].
    rewrite !total_cons. split; [lia|]. intros Hex Hroom. destruct (HasData s) eqn:Hd; [specialize (R1' Hroom); lia|].
    destruct R1' as [_ ->]. rewrite Zlen_nil, Z.add_0_r, L1 in *. apply Exists_cons in Hex as [Hex|Hex]; [cbn in Hex; congruence|].
    specialize (R2' Hex Hroom). lia.
Qed.

(** ** Both ends *)

(** [c1] writes to [c2]: the streams in step, the size of chunks agreed, and no more new streams than
    the reader accepts in a row. *)
Record linked (c1 c2 : Connection) : Prop := mkLinked {
  lk_ready : ready (cn_in c2);
  lk_max : in_maxChunkSize (cn_in c2) = cn_maxOutChunkSize c1;
  lk_range : 5 <= cn_maxOutChunkSize c1 < 2 ^ 32 - 12;
  lk_paired : all_paired c2 (cn_out c1).*1 (cn_out c1);
  lk_nodup : NoDup (cn_out c1).*1;
  lk_few : unopened (cn_out c1).*1 (cn_in c2) <= 5;
}.

Lemma count_received_same e n c : cn_in (count_received (M := M2) e n c) = cn_in c ∧
  cn_log (count_received (M := M2) e n c) = cn_log c ∧ cn_streams (count_received (M := M2) e n c) = cn_streams c.
Proof. unfold count_received. by case_match. Qed.

(** What is written in a round is read in a round. *)
Lemma link_round e data c1 c2 : linked c1 c2 → Zlen data < 2 ^ 32 →
  ∃ c1' data' n c2' sent events, SerializeChunkData (M := M1) data c1 = Got (c1', data', n) ∧
    ParseData (M := M2) e (ztake n data') c2 = Got c2' ∧ linked c1' c2' ∧ cn_maxOutChunkSize c1' = cn_maxOutChunkSize c1 ∧
    Zlen data' = Zlen data ∧ drained (cn_out c1) sent (cn_out c1') ∧ cn_streams c2' = cn_streams c2 ∧
    cn_log c2' = cn_log c2 ++ events ∧ arrives (cn_streams c2) sent events ∧ total (cn_out c1') <= total (cn_out c1) ∧
    (Exists (λ p, HasData p.2 = true) (cn_out c1) → 12 + cn_maxOutChunkSize c1 <= Zlen data →
     total (cn_out c1') < total (cn_out c1)).
Proof.
  intros [L1 L2 L3 L4 L5 L6] Hd. set (max := cn_maxOutChunkSize c1) in *. set (ids := (cn_out c1).*1) in *.
  pose proof (Zlen_nonneg data) as Hd0. pose proof (unopened_nonneg ids (cn_in c2)) as Hu.
  assert (Hser : ∀ c nb, cn_in c = cn_in c2 → nb = 0 → _) by
    (intros c nb Hc ->; apply (serialize_streams_moved e ids max (cn_out c1) data 0 c 0);
     [unfold all_paired, paired in *; by rewrite Hc|done|by rewrite Hc|unfold budget; rewrite Hc; lia|by rewrite Hc|done|lia|done]).
  destruct (Hser c2 0 eq_refl eq_refl) as (l & data' & w & _ & _ & _ & _ & He & _ & _ & Hw & Ht & _).
  change (ztake 0 data) with (@nil Z) in Ht. cbn [app] in Ht.
  destruct (count_received_same e (Zlen w) c2) as (Q1 & Q2 & Q3).
  destruct (Hser (count_received (M := M2) e (Zlen w) c2) 0 Q1 eq_refl)
    as (l' & data2 & w2 & c' & nb' & sent & events & He' & K & Ld & _ & Ht' & [V1 V2 V3 V4 (_ & _ & V5)] & P & D & G & A & _ & R & R').
  rewrite He in He'. injection He' as <- <- Hlw. rewrite !Z.add_0_l in *.
  change (ztake 0 data) with (@nil Z) in Ht'. rewrite <- Hlw, Ht in Ht'. cbn [app] in Ht'. subst w2.
  exists (set_out (λ _, l) c1), data', (Zlen w), c', sent, events.
  split; [unfold SerializeChunkData; fold max; by rewrite He|]. rewrite Ht.
  split. { unfold ParseData, parse_fuel. destruct V1 as (k & Hk & V1).
    replace (3 * length w + 3)%nat with (k + (3 * length w + 3 - k))%nat by lia.
    rewrite <- (app_nil_r w) at 2. rewrite V1 by (rewrite app_nil_r; lia). by destruct (_ + _ - _)%nat. }
  rewrite Q3 in V5, A. rewrite Q2 in G. rewrite Q1 in V3. rewrite Z.sub_0_r in R'.
  split; [|split_and!; done].
  split; cbn [cn_out set_out cn_maxOutChunkSize]; rewrite ?K; try done; [by rewrite V3|]. fold ids. destruct V4. lia.
Qed.

(** ** Rounds until nothing is left *)

(** [k] rounds: the writer fills its buffer, all of it goes to the reader. *)
Fixpoint exchange (e : RtmpEnv) (data : bytes) (k : nat) (c1 c2 : Connection) : checked (Connection * Connection) :=
  match k with
  | O => Got (c1, c2)
  | S k =>
      let? x := SerializeChunkData (M := M1) data c1 in
      let '(c1, data, n) := x in
      let? c2 := ParseData (M := M2) e (ztake n data) c2 in
      exchange e data k c1 c2
  end.

Definition all_outstanding (l : list (Z * RTMPChunkOutputStream)) : list RTMPMessage := l ≫= (λ p, outstanding p.2).

Lemma drained_perm l ms l' : drained l ms l' → all_outstanding l ≡ₚ ms ++ all_outstanding l'.
Proof.
  induction 1 as [|id s sent s' l ms l' H1 H2 IH]; [done|]. unfold all_outstanding in *. cbn. rewrite H1, IH.
  rewrite <- !app_assoc. f_equiv. rewrite !app_assoc. f_equiv. apply Permutation_app_comm.
Qed.

(** Of each stream the messages given are the first ones, in their order. *)
Lemma drained_order l ms l' id s : drained l ms l' → (id, s) ∈ l →
  ∃ part s', (id, s') ∈ l' ∧ outstanding s = part ++ outstanding s' ∧ part `sublist_of` ms.
Proof.
  induction 1 as [|id' s1 sent s' l ms l' H1 H2 IH]; [by intros ?%elem_of_nil|].
  intros [[= -> ->]|Hin]%elem_of_cons.
  - exists sent, s'. split; [by left|]. split; [done|]. by apply sublist_inserts_r.
  - destruct (IH Hin) as (part & s2 & I1 & I2 & I3). exists part, s2. split; [by right|]. split; [done|].
    by apply sublist_inserts_l.
Qed.

Lemma total_nonneg c ids l : all_paired c ids l → 0 <= total l ∧ (total l = 0 → all_outstanding l = []).
Proof.
  induction 1 as [|[id s] l [(H1 & H2 & H3) H4] _ [IH1 IH2]]; [done|]. rewrite total_cons. cbn [fst snd] in *.
  destruct (remaining_nonneg _ _ _ H3) as [R1 R2]. split; [lia|]. intros Ht. unfold all_outstanding in *. cbn.
  rewrite R2, IH2 by lia. done.
Qed.

Lemma no_data_total l : ¬ Exists (λ p, HasData p.2 = true) l → total l = 0.
Proof.
  induction l as [|[id s] l IH]; intros Hn; [done|]. rewrite total_cons, IH by (intros H; apply Hn; by right).
  assert (HasData s = false) as Hs. { apply not_true_iff_false. intros H. apply Hn. by left. }
  unfold HasData in Hs. apply orb_false_iff in Hs as [H1 H2]. apply bool_decide_eq_false in H1.
  apply negb_false_iff, bool_decide_eq_true in H2. unfold remaining, outstanding. rewrite H2.
  destruct (os_message s); [by destruct H1|done].
Qed.

Lemma exchange_all e k : ∀ data c1 c2, linked c1 c2 → 12 + cn_maxOutChunkSize c1 <= Zlen data < 2 ^ 32 →
  total (cn_out c1) <= Z.of_nat k →
  ∃ c1' c2' sent events, exchange e data k c1 c2 = Got (c1', c2') ∧ linked c1' c2' ∧ all_outstanding (cn_out c1') = [] ∧
    sent ≡ₚ all_outstanding (cn_out c1) ∧ (∀ id s, (id, s) ∈ cn_out c1 → outstanding s `sublist_of` sent) ∧
    cn_log c2' = cn_log c2 ++ events ∧ arrives (cn_streams c2) sent events.
Proof.
  induction k as [|k IH]; intros data c1 c2 Hl Hd Hk.
  - destruct (total_nonneg _ _ _ (lk_paired _ _ Hl)) as [T1 T2]. specialize (T2 ltac:(lia)).
    exists c1, c2, [], []. rewrite app_nil_r, T2. split_and!; try done; [|constructor].
    intros id s Hin. assert (outstanding s = []) as ->; [|constructor].
    apply elem_of_nil_inv. intros m Hm. apply (not_elem_of_nil m). rewrite <- T2. unfold all_outstanding.
    apply list_elem_of_bind. by exists (id, s).
  - destruct (link_round e data c1 c2 Hl) as (c1' & data' & n & c2' & sent & events & E1 & E2 & Hl' & Hmx & Hdl & Hdr & Hst & Hlog & Har & Hle & Hlt); [lia|].
    cbn [exchange]. rewrite E1. cbn [cbind]. rewrite E2. cbn [cbind].
    destruct (IH data' c1' c2' Hl') as (c1'' & c2'' & sent' & events' & X1 & X2 & X3 & X4 & X5 & X6 & X7); [rewrite Hmx, Hdl; lia| |].
    { destruct (decide (Exists (λ p, HasData p.2 = true) (cn_out c1))) as [Hex|Hno]; [specialize (Hlt Hex); lia|].
      apply no_data_total in Hno. lia. }
    exists c1'', c2'', (sent ++ sent'), (events ++ events'). split_and!; try done.
    + by rewrite X4, <- drained_perm.
    + intros id s Hin. destruct (drained_order _ _ _ _ _ Hdr Hin) as (part & s' & I1 & -> & I3).
      apply sublist_app; [done|by eapply X5].
    + by rewrite X6, Hlog, app_assoc.
    + apply arrives_app; [done|]. by rewrite Hst in X7.
Qed.
End Link.

(** C23. Frames sent over RTMP arrive.  One connection has audio and video messages queued on any of its
    chunk streams, or already sent in part; its peer is between two chunks and agrees with it on the
    last headers and on the chunk size ([linked]).  Then rounds of [SerializeChunkData] on the one side
    and [ParseData] of what it wrote on the other end with everything sent: every message is read
    exactly once, each stream in its order, whatever way the chunks of the streams interleave and
    whichever header format each of them takes, and the two sides are again in step; the ones for a
    media stream that the peer has created come out of its reader as a frame with the same codec,
    flags, header and media and with the timestamp of the message, while those for stream 0 or for a
    stream that it has not created are dropped.  It holds for media that are not empty, frames below
    [2^24] octets, timestamps below the extended ones, chunk streams of one octet of which at most five
    are new to the peer, chunks of at least five octets, and when each round reaches the peer in one
    [ParseData] (the header of a video frame cut in two is not read, [split_avc_header_is_scrambled]);
    as many rounds as there are octets to send are enough. *)
Theorem frames_arrive {W : WireOps} {V : MoreWireOps} {U : UTF8Ops} {HM : Hmac} {HN : NetworkOrder W V}
    (M1 M2 : Memory) e data k c1 c2 :
  linked M2 c1 c2 → 12 + cn_maxOutChunkSize c1 <= Zlen data < 2 ^ 32 → total (cn_out c1) <= Z.of_nat k →
  ∃ c1' c2' sent events, exchange M1 M2 e data k c1 c2 = Got (c1', c2') ∧ linked M2 c1' c2' ∧
    all_outstanding (cn_out c1') = [] ∧
    sent ≡ₚ all_outstanding (cn_out c1) ∧ (∀ id s, (id, s) ∈ cn_out c1 → outstanding s `sublist_of` sent) ∧
    cn_log c2' = cn_log c2 ++ events ∧ arrives (cn_streams c2) sent events.
Proof. apply exchange_all. Qed.

(** ** An instance *)

#[local] Existing Instance network_order.
#[local] Existing Instance network_order_more.
#[local] Existing Instance ascii_utf8.
#[local] Existing Instance sum_hmac.

(** Memory that holds other values on the other side. *)
Definition other_memory : Memory.
Proof.
  refine {| fresh n := replicate (Z.to_nat n) 0xEE; leftover := 17 |}.
  - intros n Hn. rewrite Zlen_replicate. lia.
  - intros n. unfold bytes_ok. apply Forall_replicate. unfold is_byte. lia.
Defined.

Definition some_media (n : nat) : RTMPMediaFrame := mkMedia 0 (replicate (n + 16) 0x55) (Z.of_nat n) (Z.of_nat n) 0.
Definition some_video : RTMPFrame := VideoFrame (mkVideo (some_media 200) AVC 1 [1; 0; 0; 7] 0).
Definition some_audio : RTMPFrame := AudioFrame (mkAudio (some_media 30) 2 3 true false 0 0).

(** Two video messages and an audio message queued on two streams. *)
Definition some_sender : Connection :=
  set_out (λ _,
    [(4, mkOutput (new_info (H := zero_memory)) [media_message 1 40 some_video; media_message 1 80 some_video] 4 None 0 []);
     (6, mkOutput (new_info (H := zero_memory)) [media_message 1 60 some_audio] 6 None 0 [])])
    (new_connection (M := zero_memory)).

(** A peer after its handshake, with the stream 1. *)
Definition some_reader : Connection :=
  set_ids [1] 2 1 (set_in (set_state CHUNK_HEADER_WAIT) (new_connection (M := other_memory))).

Lemma some_messages_ok : Forall frame_message [media_message 1 40 some_video; media_message 1 80 some_video; media_message 1 60 some_audio].
Proof.
  repeat apply Forall_cons_2; [exists 1, 40, some_video|exists 1, 80, some_video|exists 1, 60, some_audio|by constructor].
  all: (split; [done|]); unfold sendable, writable, is_dword; cbn [frame_media some_video some_audio]; split_and!; vm_compute; first [done|discriminate].
Qed.

Lemma some_linked : linked other_memory some_sender some_reader.
Proof.
  pose proof some_messages_ok as H. repeat apply Forall_cons in H as [? H].
  split; [|done|done| | |done].
  - split; [done|done|]. split; done.
  - repeat apply Forall_cons_2; [..|by constructor]; (split; [|cbn; set_solver]);
      (split; [done|]); (split; [cbn; lia|]); split; cbn; auto using Forall; by split.
  - cbn. repeat constructor; set_solver.
Qed.

Lemma frames_arrive_witness :
  ∃ c1' c2' sent events,
    exchange zero_memory other_memory some_env (replicate 1400 0) 500 some_sender some_reader = Got (c1', c2') ∧
    linked other_memory c1' c2' ∧ all_outstanding (cn_out c1') = [] ∧
    sent ≡ₚ all_outstanding (cn_out some_sender) ∧
    (∀ id s, (id, s) ∈ cn_out some_sender → outstanding s `sublist_of` sent) ∧
    cn_log c2' = cn_log some_reader ++ events ∧ arrives (cn_streams some_reader) sent events.
Proof.
  apply (frames_arrive zero_memory other_memory some_env (replicate 1400 0) 500 some_sender some_reader).
  - exact some_linked.
  - rewrite Zlen_replicate. cbn. lia.
  - vm_compute. discriminate.
Defined.

(** ** Outside of the conditions *)

#[local] Existing Instance zero_memory.

(** The frames a connection has handed over, with their timestamps. *)
Definition got_frames (r : checked Connection) : list (Z * FrameView) :=
  match r with
  | Got c => omap (λ e, match e with SendMediaFrame _ f => Some (mf_timestamp (frame_media f), frame_view f) | _ => None end) (cn_log c)
  | _ => []
  end.

(** What a new connection writes in a buffer of [size] octets for messages on one stream. *)
Definition sender_of (csid : Z) (ms : list RTMPMessage) : Connection :=
  set_out (λ _, [(csid, mkOutput new_info ms csid None 0 [])]) new_connection.
Definition written (size : nat) (c : Connection) : bytes :=
  match SerializeChunkData (replicate size 0) c with Got (_, d, n) => ztake n d | _ => [] end.

Definition video_of (l : bytes) : RTMPFrame := VideoFrame (mkVideo (mkMedia 0 l (Zlen l) (Zlen l) 0) 2 1 [0; 0; 0; 0] 0).

(** A timestamp from 2{^24} on goes into the extended field; the reader makes the message before it
    reads that field, and the frame comes out with the timestamp of the message before. *)
Lemma extended_timestamp_is_lost :
  got_frames (ParseData some_env (written 1400 (sender_of 4 [media_message 1 (2 ^ 24 + 5) (video_of [1; 2; 3])])) some_reader) =
    [(0, VideoView 2 1 None [1; 2; 3])].
Proof. vm_compute. reflexivity. Qed.

(** A pause of more than 2{^24} milliseconds: the difference is cut to its three octets. *)
Lemma long_pause_is_cut :
  got_frames (ParseData some_env (written 1400 (sender_of 4
    [media_message 1 10 (video_of [1; 2; 3]); media_message 1 (10 + 2 ^ 24 + 3) (video_of [1; 2; 3])])) some_reader) =
    [(10, VideoView 2 1 None [1; 2; 3]); (13, VideoView 2 1 None [1; 2; 3])].
Proof. vm_compute. reflexivity. Qed.

(** The header of AVC in two reads: the second part is copied over the first. *)
Lemma split_avc_header_is_scrambled :
  let f := VideoFrame (mkVideo (mkMedia 0 [9; 9] 2 2 0) AVC 1 [1; 2; 3; 4] 0) in
  let w := written 1400 (sender_of 4 [media_message 1 10 f]) in
  got_frames (ParseData some_env w some_reader) = [(10, VideoView AVC 1 (Some [1; 2; 3; 4]) [9; 9])] ∧
  got_frames (let? c := ParseData some_env (ztake 15 w) some_reader in ParseData some_env (zdrop 15 w) c) =
    [(10, VideoView AVC 1 (Some [3; 4; 0; 0]) [9; 9])].
Proof. split; vm_compute; reflexivity. Qed.

(** The octet of the codec alone in a read: the first octet of the sound is then taken for it. *)
Lemma split_audio_header_is_read_twice :
  let f := AudioFrame (mkAudio (mkMedia 0 [0x9D; 9; 8] 3 3 0) 2 1 true true 0 0) in
  let w := written 1400 (sender_of 4 [media_message 1 10 f]) in
  got_frames (ParseData some_env w some_reader) = [(10, AudioView 2 1 true true None [0x9D; 9; 8])] ∧
  got_frames (let? c := ParseData some_env (ztake 13 w) some_reader in ParseData some_env (zdrop 13 w) c) =
    [(10, AudioView 9 3 false true None [9; 8])].
Proof. split; vm_compute; reflexivity. Qed.

(** A header of more than twelve octets (an extended timestamp, a stream from 64 on) at the end of the
    buffer makes a chunk shorter than agreed: the reader takes the next header for data, and refuses
    the rest. *)
Lemma short_chunk_loses_the_peer :
  ∀ csid ts, (csid, ts) ∈ [(4, 2 ^ 24 + 5); (70, 5)] →
  match SerializeChunkData (replicate 140 0) (sender_of csid [media_message 1 ts (video_of (replicate 300 7))]) with
  | Got (c, d, n) => ParseData some_env (ztake n d ++ written 400 c) some_reader = Refuse
  | _ => False
  end.
Proof.
  intros csid ts [[= -> ->]|[[= -> ->]|[]%elem_of_nil]%elem_of_cons]%elem_of_cons; vm_compute; reflexivity.
Qed.

(** A command message of no octet has no name: [GetName] goes through a null pointer. *)
Lemma empty_command_crashes :
  ParseData some_env [3; 0; 0; 0; 0; 0; 0; Command; 0; 0; 0; 0; 3] some_reader = Fault.
Proof. vm_compute. reflexivity. Qed.
