(* ===== verification/RtmpCommandClaims.v ===== *)
(** * RTMP: commands are read as they were written

    The values of a command one after the other, and its transaction number as a double. *)

From S2P Require Import Prelude OrderedMap Wire Octets BitStreamClaims RtmpFormat RtmpMedia RtmpMediaProps Amf AmfRead RtmpMessage RtmpChunk RtmpConnection RtmpParseClaims.

(** ** Numbers *)

(** An integer of at most 53 bits through [SetNumber] and [GetNumber]. *)
Lemma integer_double n : 0 < n < 2 ^ 53 →
  let b := Z.log2 n + 1 in
  0 <= SetNumber (double_of n) < 2 ^ 64 ∧ GetNumber (SetNumber (double_of n)) = DFinite false (n * 2 ^ (53 - b)) (b - 53).
Proof.
  intros Hn b. assert (Hlog : 0 <= Z.log2 n < 53).
  { split; [apply Z.log2_nonneg|]. apply Z.log2_lt_pow2; lia. }
  pose proof (Z.log2_spec n ltac:(lia)) as [Hs1 Hs2]. rewrite Z.pow_succ_r in Hs2 by lia.
  set (m := n * 2 ^ (53 - b)).
  assert (Hp : 2 ^ Z.log2 n * 2 ^ (53 - b) = 2 ^ 52) by (rewrite <- Z.pow_add_r by (unfold b; lia); f_equal; unfold b; lia).
  assert (Hpos : 0 < 2 ^ (53 - b)) by (apply Z.pow_pos_nonneg; unfold b; lia).
  assert (Hm : 2 ^ 52 <= m < 2 * 2 ^ 52) by (unfold m; nia).
  assert (Hset : SetNumber (double_of n) = (b + 1022) * 2 ^ 52 + (m - 2 ^ 52)).
  { unfold double_of. rewrite (proj2 (Z.eqb_neq n 0)) by lia. unfold SetNumber. fold b.
    rewrite (proj2 (Z.leb_le b 53)) by (unfold b; lia). fold m. cbn [Z.b2z]. rewrite Z.shiftl_0_l, Z.lor_0_l, Z.add_0_l.
    rewrite lor_shiftl by lia. apply Z.mod_small. unfold b. lia. }
  rewrite Hset. set (f := m - 2 ^ 52) in *. assert (Hf : 0 <= f < 2 ^ 52) by (unfold f; lia).
  split; [unfold b; lia|]. unfold GetNumber. set (v := (b + 1022) * 2 ^ 52 + f).
  assert (Hv : 0 < v < 2 ^ 63) by (unfold v, b; lia).
  assert (to_qword (v + v) = v + v) as -> by (apply Z.mod_small; lia).
  rewrite Z.shiftl_mul_pow2, (proj2 (Z.ltb_ge _ _)) by (unfold v, b; lia).
  rewrite Z.land_ones, Z.mod_small by lia. rewrite (proj2 (Z.eqb_neq v 0)) by lia.
  assert (Z.testbit v 63 = false) as ->.
  { rewrite Z.testbit_eqb by lia. rewrite Z.div_small by lia. done. }
  assert (Z.land v (Z.ones 52) = f) as ->.
  { rewrite Z.land_ones by lia. unfold v. rewrite Z.add_comm, Z.mod_add, Z.mod_small by lia. done. }
  assert (Z.land (Z.shiftr v 52) 0x7FF = b + 1022) as ->.
  { change 0x7FF with (Z.ones 11). rewrite Z.land_ones, Z.shiftr_div_pow2 by lia. unfold v.
    rewrite Z.add_comm, Z.div_add, Z.div_small by lia. apply Z.mod_small. unfold b. lia. }
  unfold ldexp53. rewrite (proj2 (Z.leb_gt _ _)), (proj2 (Z.leb_le _ _)) by (unfold b; lia). f_equal; unfold f; lia.
Qed.

(** A transaction number survives. *)
Lemma transaction_number e n : 0 <= n < 2 ^ 53 →
  0 <= SetNumber (double_of n) < 2 ^ 64 ∧ to_integer e (2 ^ 64) (GetNumber (SetNumber (double_of n))) = n.
Proof.
  intros Hn. destruct (Z.eq_dec n 0) as [-> |H0]; [by vm_compute|].
  destruct (integer_double n ltac:(lia)) as [H1 H2]. split; [done|]. rewrite H2. unfold to_integer.
  assert (Hlog : 0 <= Z.log2 n < 53). { split; [apply Z.log2_nonneg|]. apply Z.log2_lt_pow2; lia. }
  set (b := Z.log2 n + 1). assert (Hval : (if 0 <=? b - 53 then n * 2 ^ (53 - b) * 2 ^ (b - 53) else n * 2 ^ (53 - b) / 2 ^ - (b - 53)) = n).
  { destruct (Z.leb_spec 0 (b - 53)).
    - assert (b = 53) as -> by (unfold b in *; lia). cbn. lia.
    - replace (- (b - 53)) with (53 - b) by lia. apply Z.div_mul. apply Z.pow_nonzero; unfold b in *; lia. }
  rewrite Hval, (proj2 (Z.ltb_lt _ _)) by lia. done.
Qed.

(** ** Values one after the other *)

Section Commands.
Context {W : WireOps} {V : MoreWireOps} {U : UTF8Ops} {UL : UTF8Laws U} {HN : NetworkOrder W V}.

Definition values_octets (vs : list amf_value) : bytes := vs ≫= amf_octets.

Lemma values_cons v vs : values_octets (v :: vs) = amf_octets v ++ values_octets vs.
Proof. done. Qed.

Lemma values_size vs : Forall amf_ok vs → foldr (λ d n, data_GetSize d + n) 0 (build <$> vs) = Zlen (values_octets vs).
Proof. induction 1 as [|v vs Hv _ IH]; [done|]. cbn [fmap list_fmap foldr]. by rewrite IH, values_cons, Zlen_app, build_size. Qed.

Lemma values_written size vs : Forall amf_ok vs → ∀ w, Zlen w + Zlen (values_octets vs) <= size →
  foldl (write_value size) (Got w) (build <$> vs) = Got (w ++ values_octets vs).
Proof.
  induction 1 as [|v vs Hv _ IH]; intros w Hs; [by rewrite app_nil_r|]. rewrite values_cons, Zlen_app in Hs.
  pose proof (Zlen_nonneg (values_octets vs)). cbn [fmap list_fmap foldl write_value cbind].
  rewrite (build_writes v Hv) by lia. cbn [cbind append_octets]. rewrite IH, values_cons, <- app_assoc; [done|]. rewrite Zlen_app. lia.
Qed.

(** The values come out one by one and go to [take]. *)
Lemma values_read {A} (take : AMFData → A → checked A) vs : Forall amf_ok vs → ∀ fuel a, (length vs < fuel)%nat →
  ∃ ds, Forall2 (λ d v, read_value d = Some v) ds vs ∧
    values_loop take fuel (values_octets vs) None a =
      let? a := foldl (λ acc d, let? a := acc in take d a) (Got a) ds in Got (None, a).
Proof.
  induction 1 as [|v vs Hv _ IH]; intros fuel a Hf; (destruct fuel as [|fuel]; [cbn in Hf; lia|]); [by exists []|].
  destruct (parser_reads v (values_octets vs) Hv) as (d & Hd & Hp & Hr). pose proof (amf_octets_nonempty v).
  cbn [values_loop]. rewrite values_cons, (proj2 (Z.eqb_neq _ _)) by (rewrite Zlen_app; pose proof (Zlen_nonneg (values_octets vs)); lia).
  rewrite Hd. cbn [cbind fst snd parser_IsParsed]. rewrite Hp. cbn [cbind]. rewrite zdrop_app by done.
  destruct (take d a) as [| |a'] eqn:Ht; cbn [cbind].
  1,2: destruct (IH fuel a ltac:(cbn in Hf; lia)) as (ds & Hds & _); exists (d :: ds); split; [by constructor|];
    cbn [foldl]; cbn [cbind]; rewrite Ht; clear; induction ds; cbn [foldl cbind]; done.
  destruct (IH fuel a' ltac:(cbn in Hf; lia)) as (ds & Hds & He). exists (d :: ds). split; [by constructor|].
  cbn [foldl cbind]. by rewrite Ht.
Qed.

(** Once name, transaction and parameters are there, the rest are further arguments. *)
Lemma cmd_take_extra ds parser name trans params extra :
  foldl (λ acc d, let? a := acc in cmd_take d a) (Got (mkCmd parser (Some name) (Some trans) (Some params) extra)) ds =
    Got (mkCmd parser (Some name) (Some trans) (Some params) (extra ++ ds)).
Proof.
  revert extra. induction ds as [|d ds IH]; intros extra; cbn [foldl cbind]; [by rewrite app_nil_r|].
  cbn [cmd_take cm_name cm_transId cm_params cm_extra cm_parser]. by rewrite IH, <- app_assoc.
Qed.

Lemma read_value_string d w : read_value d = Some (VString w) → ∃ s, d = AMFString s ∧ str_GetWString s = w.
Proof.
  destruct d; cbn; try discriminate; [intros [= <-]; eauto|..]; match goal with |- _ <$> ?m = _ → _ => destruct m; discriminate end.
Qed.

Lemma read_value_number d n : read_value d = Some (VNumber n) → ∃ u, d = AMFNumber u ∧ u_value u = n.
Proof.
  destruct d; cbn; try discriminate; [intros [= <-]; eauto|..]; match goal with |- _ <$> ?m = _ → _ => destruct m; discriminate end.
Qed.
End Commands.

(** C24. A command of RTMP is read as it was written: the message a program builds from a name, a
    transaction number, parameters and further arguments (numbers, booleans, strings, null, objects and
    ECMA arrays nested at will) has the length that [GetSize] announces, [Serialize] writes exactly the
    octets of AMF 0, and [Parse] on them ends with the same name, the same transaction number, the
    same parameters and the same arguments in their order.  It holds for a transaction number below
    [2^53], strings of Unicode characters whose UTF-8 takes less than [2^16] octets, keys that are not
    empty and not repeated in an object, ECMA arrays with their keys in the order of the map that holds
    them and fewer than [2^32] of them; the string parser of libmedkit is assumed to read and write
    UTF-8 ([UTF8Laws]). *)
Theorem commands_roundtrip {W : WireOps} {V : MoreWireOps} {U : UTF8Ops} {UL : UTF8Laws U} {HN : NetworkOrder W V}
    e name n params extra :
  string_fits name → 0 <= n < 2 ^ 53 → amf_ok params → Forall amf_ok extra →
  let c := mkCmd None (Some (str_SetWString name new_str)) (Some (mkUint (SetNumber (double_of n)) 8))
             (Some (build params)) (build <$> extra) in
  let w := values_octets (VString name :: VNumber (SetNumber (double_of n)) :: params :: extra) in
  cmd_GetSize c = Zlen w ∧ cmd_Serialize c (cmd_GetSize c) = Got (Some w) ∧
  ∃ c' u, cmd_Parse w new_cmd = Got c' ∧ str_GetWString <$> cm_name c' = Some name ∧
    cm_transId c' = Some u ∧ to_integer e (2 ^ 64) (GetNumber (u_value u)) = n ∧
    cm_params c' ≫= read_value = Some params ∧ mapM read_value (cm_extra c') = Some extra.
Proof.
  intros Hname Hn Hparams Hextra c w. destruct (transaction_number e n Hn) as [Hb Hi].
  set (vs := VString name :: VNumber (SetNumber (double_of n)) :: params :: extra) in *.
  assert (Hvs : Forall amf_ok vs) by (repeat (apply Forall_cons; split; [done|]); done).
  assert (Hsize : cmd_GetSize c = Zlen w) by (apply (values_size vs Hvs)).
  split; [done|]. split.
  { unfold cmd_Serialize. rewrite Z.ltb_irrefl. change (cmd_values c) with (build <$> vs).
    rewrite (values_written _ vs Hvs) by (rewrite Zlen_nil, Hsize; done). done. }
  destruct (values_read cmd_take vs Hvs (values_fuel w) new_cmd) as (ds & Hds & He).
  { unfold values_fuel. assert (length vs <= length w)%nat; [|lia]. unfold w. clear -Hvs.
    induction Hvs as [|v vs Hv _ IH]; [done|]. rewrite values_cons, length_app. pose proof (amf_octets_nonempty v). unfold Zlen in *. cbn. lia. }
  apply Forall2_cons_inv_r in Hds as (d1 & ds1 & R1 & Hds & ->). apply Forall2_cons_inv_r in Hds as (d2 & ds2 & R2 & Hds & ->).
  apply Forall2_cons_inv_r in Hds as (d3 & ds3 & R3 & Hds & ->).
  apply read_value_string in R1 as (s & -> & Rs). apply read_value_number in R2 as (u & -> & Ru).
  cbn [foldl cbind cmd_take new_cmd cm_name cm_transId cm_params cm_extra cm_parser] in He. rewrite cmd_take_extra in He.
  eexists _, u. split; [unfold cmd_Parse; change (cm_parser new_cmd) with (@None AMFData); fold w in He; rewrite He; done|].
  cbn [cm_name cm_transId cm_params cm_extra snd fst app fmap option_fmap option_map]. rewrite Rs, Ru, Hi. split_and!; try done.
  apply mapM_Some. done.
Qed.

(** ** An instance *)

#[local] Existing Instance network_order.
#[local] Existing Instance network_order_more.

(** A reader of UTF-8: the character of the leading octet and of the ones it announces. *)
Fixpoint utf8_decode (l : bytes) : list Z :=
  match l with
  | [] => []
  | a :: l =>
      if a <? 0x80 then a :: utf8_decode l
      else match l with
      | [] => []
      | b :: l =>
          if a <? 0xE0 then ((a - 0xC0) * 64 + (b - 0x80)) :: utf8_decode l
          else match l with
          | [] => []
          | c :: l =>
              if a <? 0xF0 then ((a - 0xE0) * 4096 + (b - 0x80) * 64 + (c - 0x80)) :: utf8_decode l
              else match l with
              | [] => []
              | d :: l => ((a - 0xF0) * 262144 + (b - 0x80) * 4096 + (c - 0x80) * 64 + (d - 0x80)) :: utf8_decode l
              end
          end
      end
  end.

Lemma utf8_decode_char c rest : is_char c → utf8_decode (utf8_char c ++ rest) = c :: utf8_decode rest.
Proof.
  intros Hc. unfold is_char in Hc. unfold utf8_char.
  destruct (Z.ltb_spec c 0x80); [cbn; by rewrite (proj2 (Z.ltb_lt c 128)) by lia|].
  destruct (Z.ltb_spec c 0x800); [|destruct (Z.ltb_spec c 0x10000)]; cbn [app utf8_decode].
  - rewrite (proj2 (Z.ltb_ge _ 0x80)), (proj2 (Z.ltb_lt _ 0xE0)) by (Z.div_mod_to_equations; lia).
    f_equal. Z.div_mod_to_equations. lia.
  - rewrite (proj2 (Z.ltb_ge _ 0x80)), (proj2 (Z.ltb_ge _ 0xE0)), (proj2 (Z.ltb_lt _ 0xF0)) by (Z.div_mod_to_equations; lia).
    f_equal. Z.div_mod_to_equations. lia.
  - rewrite (proj2 (Z.ltb_ge _ 0x80)), (proj2 (Z.ltb_ge _ 0xE0)), (proj2 (Z.ltb_ge _ 0xF0)) by (Z.div_mod_to_equations; lia).
    f_equal. Z.div_mod_to_equations. lia.
Qed.

Lemma utf8_decode_octets w : unicode w → utf8_decode (utf8_octets w) = w.
Proof.
  induction 1 as [|c w Hc _ IH]; [done|]. unfold utf8_octets in *. rewrite bind_cons, utf8_decode_char by done. by rewrite IH.
Qed.

(** The size to read and the octets read. *)
#[local] Instance plain_utf8 : UTF8Ops := {|
  utf8 := option Z * bytes;
  utf8_new := (None, []);
  utf8_Reset _ := (None, []);
  utf8_SetSize n _ := (Some n, []);
  utf8_Parse d u :=
    match u.1 with
    | None => (u, 0)
    | Some n => let k := Z.min (Zlen d) (n - Zlen u.2) in ((Some n, u.2 ++ ztake k d), k)
    end;
  utf8_IsParsed u := match u.1 with None => false | Some n => Zlen u.2 =? n end;
  utf8_GetWString u := utf8_decode u.2;
  utf8_SetWString w _ := (Some (Zlen (utf8_octets w)), utf8_octets w);
  utf8_GetUTF8Size u := Zlen u.2;
  utf8_Serialize u size := if size <? Zlen u.2 then None else Some u.2;
|}.

#[local] Instance plain_laws : UTF8Laws plain_utf8.
Proof.
  split.
  - done.
  - intros w u size _ Hs. cbn. by rewrite (proj2 (Z.ltb_ge _ _)).
  - intros w u rest Hw. eexists.
    split; [cbn; rewrite Zlen_nil, Z.sub_0_r, Zlen_app, Z.min_r by (pose proof (Zlen_nonneg rest); lia); done|].
    cbn. rewrite ztake_app by done. split; [apply Z.eqb_refl|by apply utf8_decode_octets].
  - done.
  - done.
  - done.
Qed.

(** [connect] with two properties, a string of characters of one to four octets and an object, and two
    further arguments. *)
Definition some_params : amf_value :=
  VObject [(octets "app", VString [0x61; 0xE9; 0x20AC; 0x1F600]); (octets "caps", VObject [(octets "codecs", VNumber 0x4090000000000000)])].

Lemma commands_roundtrip_witness :
  let c := mkCmd None (Some (str_SetWString (octets "connect") new_str)) (Some (mkUint (SetNumber (double_of 1)) 8))
             (Some (build some_params)) (build <$> [VNull; VBoolean true]) in
  let w := values_octets (VString (octets "connect") :: VNumber (SetNumber (double_of 1)) :: some_params :: [VNull; VBoolean true]) in
  cmd_GetSize c = Zlen w ∧ cmd_Serialize c (cmd_GetSize c) = Got (Some w) ∧
  ∃ c' u, cmd_Parse w new_cmd = Got c' ∧ str_GetWString <$> cm_name c' = Some (octets "connect") ∧
    cm_transId c' = Some u ∧ to_integer some_env (2 ^ 64) (GetNumber (u_value u)) = 1 ∧
    cm_params c' ≫= read_value = Some some_params ∧ mapM read_value (cm_extra c') = Some [VNull; VBoolean true].
Proof.
  apply (commands_roundtrip some_env (octets "connect") 1 some_params [VNull; VBoolean true]).
  - split; [|done]. unfold unicode, is_char. apply (bool_decide_unpack _). vm_compute; exact I.
  - lia.
  - cbn. unfold key_fits, string_fits, unicode, is_char. split_and!; try done;
      apply (bool_decide_unpack _); vm_compute; exact I.
  - by repeat constructor.
Defined.

(** ** What the parser does on the other types *)

#[local] Existing Instance ascii_utf8.

(** A reference, and an object with a class name: the one reads at [data\[size+i\]], the other calls
    itself until the stack is full. *)
Lemma reference_reads_outside : parser_Parse [0x07; 0; 1] None = Fault.
Proof. vm_compute. reflexivity. Qed.

Lemma typed_object_has_no_end : parser_Parse ([0x10; 0; 1] ++ octets "A" ++ [0; 0; 9]) None = Fault.
Proof. vm_compute. reflexivity. Qed.

(** An array of no element takes the next value for its first one, past its block. *)
Lemma empty_strict_array_overflows : parser_Parse [0x0A; 0; 0; 0; 0; 0x05] None = Fault.
Proof. vm_compute. reflexivity. Qed.

(** A date leaves the two octets of its time zone to the next value. *)
Lemma date_leaves_the_time_zone :
  ∃ d, parser_Parse ([0x0B] ++ replicate 8 1 ++ [0; 60]) None = Got (Some d, 9) ∧ data_IsParsed d = Got true.
Proof. eexists. split; vm_compute; reflexivity. Qed.

(** A string of 2{^16} octets announces none of them. *)
Lemma long_string_announces_nothing {U : UTF8Ops} {UL : UTF8Laws U} w : unicode w → Zlen (utf8_octets w) = 2 ^ 16 →
  str_GetUTF8Size (str_SetWString w new_str) = 0.
Proof. intros Hu Hw. unfold str_GetUTF8Size, str_SetWString. cbn [s_u16 uint_SetValue u_value]. by rewrite utf8_size, Hw. Qed.
