(* ===== verification/UseLock.v ===== *)
(** * The readers-writer counter of the mixers ([Use])

    [Use] (src/mcu/include/use.h): any number of readers ([IncUse], [DecUse], which nest) or one
    writer ([WaitUnusedAndLock], [Unlock]), built on two mutexes and two condition variables.

    Threads run interleaved.  A step is what a thread does between two operations on the mutexes: the
    fields are only touched under [mutex], so nobody sees the middle of a step.  A thread that waits
    on a condition variable sleeps until it is notified, wakes for no reason ([ASpurious]), or, in
    the timed variant, until its time is over ([ATimeout]); it then takes [mutex] again and tests
    its condition.  What a caller may do when is in [act]: release what it holds, and ask for the
    writer's side only when it holds nothing, which would be waiting for itself. *)

From S2P Require Import Prelude.

(** Where a thread is. *)
Inductive pc :=
  | Idle                       (** in its own code, maybe as a reader *)
  | IncMutex                   (** [IncUse]: wants [mutex] *)
  | IncTest                    (** has it, tests [!handoff] *)
  | IncAsleep                  (** waits on [handoffCond] *)
  | DecMutex                   (** [DecUse]: wants [mutex] *)
  | DecBody                    (** has it *)
  | LckLock (timed : bool)     (** [WaitUnusedAndLock]: wants [lock] *)
  | LckMutex (timed : bool)    (** has it, wants [mutex] *)
  | LckTest (timed : bool)     (** has both, tests [cont == 0] *)
  | LckAsleep (timed : bool)   (** waits on [cond] *)
  | LckWoken (timed : bool)    (** notified, wants [mutex] *)
  | LckExpired                 (** its time is over, wants [mutex] *)
  | LckLast                    (** has it, tests [cont == 0] a last time *)
  | TimNotify                  (** gave up; notifies the readers *)
  | TimUnlock                  (** and releases [lock] *)
  | Inside                     (** the writer's section, with both mutexes *)
  | UnlLock                    (** [Unlock]: released [mutex], releases [lock] *)
  | UnlNotify.                 (** notifies the readers *)

Record Thread := mkThread { th_pc : pc; th_reads : Z }.

Record Use := mkUse {
  us_mutex : option nat;
  us_lock : option nat;
  us_cont : Z;
  us_writers : Z;
  us_handoff : bool;
  us_threads : list Thread;
}.

Definition start (n : nat) : Use := mkUse None None 0 0 false (replicate n (mkThread Idle 0)).

(** [handoffCond.notify_all()] *)
Definition wake_reader (th : Thread) : Thread :=
  match th_pc th with IncAsleep => mkThread IncMutex (th_reads th) | _ => th end.
Definition wake_readers (l : list Thread) : list Thread := wake_reader <$> l.

(** [cond.notify_one()] *)
Fixpoint wake_writer (l : list Thread) : list Thread :=
  match l with
  | [] => []
  | th :: l =>
      match th_pc th with
      | LckAsleep timed => mkThread (LckWoken timed) (th_reads th) :: l
      | _ => th :: wake_writer l
      end
  end.

(** A thread changes its place, its readings and the fields. *)
Definition put (t : nat) (p : pc) (reads : Z) (s : Use) : Use :=
  mkUse (us_mutex s) (us_lock s) (us_cont s) (us_writers s) (us_handoff s) (<[t := mkThread p reads]> (us_threads s)).
Definition with_mutex (o : option nat) (s : Use) : Use :=
  mkUse o (us_lock s) (us_cont s) (us_writers s) (us_handoff s) (us_threads s).
Definition with_lock (o : option nat) (s : Use) : Use :=
  mkUse (us_mutex s) o (us_cont s) (us_writers s) (us_handoff s) (us_threads s).
Definition with_fields (cont writers : Z) (handoff : bool) (s : Use) : Use :=
  mkUse (us_mutex s) (us_lock s) cont writers handoff (us_threads s).
Definition with_threads (l : list Thread) (s : Use) : Use :=
  mkUse (us_mutex s) (us_lock s) (us_cont s) (us_writers s) (us_handoff s) l.

(** [mutex.lock()], or nothing yet *)
Definition take_mutex (t : nat) (p : pc) (reads : Z) (s : Use) : option Use :=
  match us_mutex s with
  | None => Some (put t p reads (with_mutex (Some t) s))
  | Some _ => None
  end.

(** The end of [WaitUnusedAndLock]: the section is entered. *)
Definition enter (t : nat) (reads : Z) (s : Use) : Use :=
  put t Inside reads (with_fields (us_cont s) (us_writers s - 1) false s).

(** What thread [t] does next, unless it sleeps, waits for a mutex, or is in its own code. *)
Definition go (t : nat) (s : Use) : option Use :=
  match us_threads s !! t with
  | None => None
  | Some (mkThread p reads) =>
      match p with
      | IncMutex => take_mutex t IncTest reads s
      | IncTest =>
          if us_handoff s then Some (put t IncAsleep reads (with_mutex None s))
          else Some (put t Idle (reads + 1) (with_mutex None (with_fields (us_cont s + 1) (us_writers s) false s)))
      | DecMutex => take_mutex t DecBody reads s
      | DecBody =>
          let cont := if 0 <? us_cont s then us_cont s - 1 else us_cont s in
          let handoff := if (cont =? 0) && (0 <? us_writers s) then true else us_handoff s in
          Some (put t Idle (reads - 1)
            (with_mutex None (with_fields cont (us_writers s) handoff (with_threads (wake_writer (us_threads s)) s))))
      | LckLock timed =>
          match us_lock s with
          | None => Some (put t (LckMutex timed) reads (with_lock (Some t) s))
          | Some _ => None
          end
      | LckMutex timed =>
          take_mutex t (LckTest timed) reads (with_fields (us_cont s) (us_writers s + 1) (us_handoff s) s)
      | LckTest timed =>
          if us_cont s =? 0 then Some (enter t reads s)
          else Some (put t (LckAsleep timed) reads (with_mutex None s))
      | LckWoken timed => take_mutex t (LckTest timed) reads s
      | LckExpired => take_mutex t LckLast reads s
      | LckLast =>
          if us_cont s =? 0 then Some (enter t reads s)
          else Some (put t TimNotify reads (with_mutex None (with_fields (us_cont s) (us_writers s - 1) false s)))
      | TimNotify => Some (put t TimUnlock reads (with_threads (wake_readers (us_threads s)) s))
      | TimUnlock => Some (put t Idle reads (with_lock None s))
      | UnlLock => Some (put t UnlNotify reads (with_lock None s))
      | UnlNotify => Some (put t Idle reads (with_threads (wake_readers (us_threads s)) s))
      | Idle | IncAsleep | LckAsleep _ | Inside => None
      end
  end.

Inductive action := AGo | AIncUse | ADecUse | AWaitUnusedAndLock (timed : bool) | AUnlock | ASpurious | ATimeout.

Definition act (t : nat) (a : action) (s : Use) : option Use :=
  match us_threads s !! t with
  | None => None
  | Some (mkThread p reads) =>
      match a, p with
      | AGo, _ => go t s
      | AIncUse, Idle => Some (put t IncMutex reads s)
      | ADecUse, Idle => if 0 <? reads then Some (put t DecMutex reads s) else None
      | AWaitUnusedAndLock timed, Idle => if reads =? 0 then Some (put t (LckLock timed) reads s) else None
      | AUnlock, Inside => Some (put t UnlLock reads (with_mutex None s))
      | ASpurious, IncAsleep => Some (put t IncMutex reads s)
      | ASpurious, LckAsleep timed => Some (put t (LckWoken timed) reads s)
      | ATimeout, LckAsleep true => Some (put t LckExpired reads s)
      | _, _ => None
      end
  end.

(** An interleaving *)
Fixpoint run_use (schedule : list (nat * action)) (s : Use) : option Use :=
  match schedule with
  | [] => Some s
  | (t, a) :: schedule => match act t a s with Some s => run_use schedule s | None => None end
  end.
