(* ===== verification/UseLockClaims.v ===== *)
(** * The readers-writer counter: what it guarantees

    [use_ok] holds at the start and after every step of every thread: who owns the mutexes, what the
    counters count, and why a thread that sleeps does.

    Exclusion, nesting and the hand-over ([use_lock_excludes]); and that nobody waits but for a
    caller that is in its section ([use_lock_never_forgets]). *)

From S2P Require Import Prelude UseLock.

(** ** Classes of places *)

Definition owns_mutex (p : pc) : bool :=
  match p with IncTest | DecBody | LckTest _ | LckLast | Inside => true | _ => false end.

Definition owns_lock (p : pc) : bool :=
  match p with
  | LckMutex _ | LckTest _ | LckAsleep _ | LckWoken _ | LckExpired | LckLast | Inside | TimNotify | TimUnlock | UnlLock => true
  | _ => false
  end.

(** Counted in [writers]. *)
Definition waits (p : pc) : bool :=
  match p with LckTest _ | LckAsleep _ | LckWoken _ | LckExpired | LckLast => true | _ => false end.

(** On its way to the writer's section or in it. *)
Definition writing (p : pc) : bool :=
  match p with Idle | IncMutex | IncTest | IncAsleep | DecMutex | DecBody | UnlNotify => false | _ => true end.

(** Will notify the readers before it rests. *)
Definition will_notify (p : pc) : bool := match p with Inside | UnlLock | UnlNotify | TimNotify => true | _ => false end.

Definition count (f : Thread → Z) (l : list Thread) : Z := foldr (λ th n, f th + n) 0 l.
Definition waiting (th : Thread) : Z := if waits (th_pc th) then 1 else 0.

(** How many readings there are. *)
Definition readings (s : Use) : Z := count th_reads (us_threads s).

Record use_ok (s : Use) : Prop := {
  uo_mutex : ∀ t th, us_threads s !! t = Some th → owns_mutex (th_pc th) = true ↔ us_mutex s = Some t;
  uo_lock : ∀ t th, us_threads s !! t = Some th → owns_lock (th_pc th) = true ↔ us_lock s = Some t;
  uo_owner : ∀ t, us_mutex s = Some t ∨ us_lock s = Some t → is_Some (us_threads s !! t);
  uo_reads : ∀ t th, us_threads s !! t = Some th →
    0 <= th_reads th ∧ (writing (th_pc th) = true ∨ th_pc th = UnlNotify → th_reads th = 0) ∧
    (th_pc th = DecMutex ∨ th_pc th = DecBody → 0 < th_reads th);
  uo_cont : us_cont s = count th_reads (us_threads s);
  uo_writers : us_writers s = count waiting (us_threads s);
  uo_handoff : us_handoff s = true → us_cont s = 0 ∧ 0 < us_writers s;
  uo_inside : ∀ t r, us_threads s !! t = Some (mkThread Inside r) → us_cont s = 0;
  uo_writer : ∀ t b r, us_threads s !! t = Some (mkThread (LckAsleep b) r) → 0 < us_cont s;
  uo_reader : ∀ t r, us_threads s !! t = Some (mkThread IncAsleep r) →
    us_handoff s = true ∨ ∃ u th, us_threads s !! u = Some th ∧ will_notify (th_pc th) = true;
}.

(** ** Counting *)

Lemma count_insert f l t th th' :
  l !! t = Some th → count f (<[t := th']> l) = count f l - f th + f th'.
Proof.
  revert t. induction l as [|x l IH]; intros [|t] Ht; simpl in *; [done|done|simplify_eq; simpl; lia|].
  rewrite IH by done. lia.
Qed.

Lemma count_wake f l :
  (∀ th, f (wake_reader th) = f th) → count f (wake_readers l) = count f l.
Proof. intros Hf. induction l as [|x l IH]; simpl; [done|]. by rewrite Hf, IH. Qed.

Lemma count_wake_writer f l :
  (∀ b r, f (mkThread (LckWoken b) r) = f (mkThread (LckAsleep b) r)) → count f (wake_writer l) = count f l.
Proof.
  intros Hf. induction l as [|[p r] l IH]; simpl; [done|]. destruct p; simpl; rewrite ?IH, ?Hf; done.
Qed.

Lemma count_nonneg f l : (∀ t th, l !! t = Some th → 0 <= f th) → 0 <= count f l.
Proof.
  induction l as [|x l IH]; intros H; simpl; [lia|]. pose proof (H 0%nat x eq_refl).
  assert (0 <= count f l) by (apply IH; intros t; apply (H (S t))). lia.
Qed.

Lemma count_positive f l t th :
  (∀ t th, l !! t = Some th → 0 <= f th) → l !! t = Some th → f th <= count f l.
Proof.
  revert t. induction l as [|x l IH]; intros [|t] H Ht; simpl in *; [done|done| |].
  - simplify_eq. assert (0 <= count f l) by (apply count_nonneg; intros u; apply (H (S u))). lia.
  - assert (f th <= count f l) by (eapply IH; [intros u; apply (H (S u))|done]). pose proof (H 0%nat x eq_refl). lia.
Qed.

Lemma count_witness f l : (∀ t th, l !! t = Some th → 0 <= f th) → 0 < count f l → ∃ t th, l !! t = Some th ∧ 0 < f th.
Proof.
  induction l as [|x l IH]; intros Hf; simpl; [lia|]. intros H. destruct (decide (0 < f x)).
  - by exists 0%nat, x.
  - pose proof (Hf 0%nat x eq_refl). destruct IH as (t & th & Ht & Hth); [intros t; apply (Hf (S t))|lia|]. by exists (S t), th.
Qed.

Lemma waiting_nonneg th : 0 <= waiting th.
Proof. unfold waiting. by destruct (waits (th_pc th)). Qed.

(** ** Waking *)

(** [l'] is [l] with some sleeping threads awake. *)
Definition woken (l l' : list Thread) : Prop :=
  length l' = length l ∧ ∀ t th', l' !! t = Some th' → ∃ th, l !! t = Some th ∧
    (th' = th ∨ ∃ r, th = mkThread IncAsleep r ∧ th' = mkThread IncMutex r ∨
                 ∃ b, th = mkThread (LckAsleep b) r ∧ th' = mkThread (LckWoken b) r).

Lemma woken_refl l : woken l l.
Proof. split; [done|]. intros t th H. exists th. auto. Qed.

Lemma woken_readers l : woken l (wake_readers l).
Proof.
  split; [apply length_fmap|]. intros t th' H. unfold wake_readers in H. rewrite list_lookup_fmap in H. apply fmap_Some in H as (th & Hth & ->).
  exists th. split; [done|]. destruct th as [p r]. unfold wake_reader. simpl. destruct p; eauto.
Qed.

Lemma woken_writer l : woken l (wake_writer l).
Proof.
  split; [induction l as [|[p r] l IH]; [done|]; destruct p; simpl; lia|].
  induction l as [|[p r] l IH]; intros t th' H; [done|]. destruct t as [|t].
  - exists (mkThread p r). split; [done|]. destruct p; simpl in H; injection H as <-; eauto 8.
  - assert (Hc : l !! t = Some th' ∨ wake_writer l !! t = Some th') by (destruct p; simpl in H; auto).
    destruct Hc as [Hc|Hc]; [by exists th'; auto|]. by apply IH.
Qed.

Lemma woken_class l l' t th' (f : Thread → bool) :
  woken l l' → l' !! t = Some th' →
  (∀ r, f (mkThread IncMutex r) = f (mkThread IncAsleep r)) → (∀ b r, f (mkThread (LckWoken b) r) = f (mkThread (LckAsleep b) r)) →
  ∃ th, l !! t = Some th ∧ f th' = f th ∧ th_reads th' = th_reads th.
Proof.
  intros [_ Hw] Ht H1 H2. destruct (Hw t th' Ht) as (th & Hth & Hc). exists th. split; [done|].
  destruct Hc as [->|(r & [[-> ->]|(b & -> & ->)])]; auto.
Qed.

Lemma wake_writer_first l u b r :
  wake_writer l !! u = Some (mkThread (LckAsleep b) r) →
  l !! u = Some (mkThread (LckAsleep b) r) ∧ ∃ v b' r', v ≠ u ∧ l !! v = Some (mkThread (LckAsleep b') r').
Proof.
  revert u. induction l as [|[p r0] l IH]; intros u H; [done|]. destruct u as [|u].
  - destruct p; done.
  - assert (Hc : (∃ b', p = LckAsleep b' ∧ l !! u = Some (mkThread (LckAsleep b) r)) ∨ wake_writer l !! u = Some (mkThread (LckAsleep b) r))
      by (destruct p; simpl in H; eauto).
    destruct Hc as [(b' & -> & Hc)|Hc].
    + split; [done|]. by exists 0%nat, b', r0.
    + destruct (IH u Hc) as (H1 & v & b' & r' & Hne & Hv). split; [done|]. exists (S v), b', r'. split; [congruence|done].
Qed.

Lemma wake_readers_none l u r : wake_readers l !! u ≠ Some (mkThread IncAsleep r).
Proof.
  unfold wake_readers. rewrite list_lookup_fmap. destruct (l !! u) as [[p r']|]; [|done]. simpl. unfold wake_reader. simpl.
  by destruct p.
Qed.

Lemma woken_insert_ne (l1 : list Thread) t u th' x : <[t := th']> l1 !! u = Some x → u ≠ t → l1 !! u = Some x.
Proof. intros H Hne. by rewrite list_lookup_insert_ne in H. Qed.

(** ** One step *)

(** The mutex, or the lock, is kept, taken or released by [t]; [b] tells whether [t] has it afterwards. *)
Inductive owner_step (t : nat) : option nat → option nat → bool → bool → Prop :=
  | owner_same o b : owner_step t o o b b
  | owner_taken : owner_step t None (Some t) false true
  | owner_released : owner_step t (Some t) None true false.

Lemma owner_step_other t o o' b b' u : owner_step t o o' b b' → u ≠ t → o' = Some u ↔ o = Some u.
Proof. intros []; naive_solver. Qed.

Lemma owner_step_self t o o' b b' : owner_step t o o' b b' → (b = true ↔ o = Some t) → (b' = true ↔ o' = Some t).
Proof. intros []; naive_solver. Qed.

Record good_step (t : nat) (th th' : Thread) (l1 : list Thread) (s s' : Use) : Prop := {
  gs_threads : us_threads s' = <[t := th']> l1;
  gs_woken : woken (us_threads s) l1;
  gs_here : l1 !! t = Some th;
  gs_counts : count th_reads l1 = count th_reads (us_threads s) ∧ count waiting l1 = count waiting (us_threads s);
  gs_mutex : owner_step t (us_mutex s) (us_mutex s') (owns_mutex (th_pc th)) (owns_mutex (th_pc th'));
  gs_lock : owner_step t (us_lock s) (us_lock s') (owns_lock (th_pc th)) (owns_lock (th_pc th'));
  gs_reads : 0 <= th_reads th' ∧ (writing (th_pc th') = true ∨ th_pc th' = UnlNotify → th_reads th' = 0) ∧
    (th_pc th' = DecMutex ∨ th_pc th' = DecBody → 0 < th_reads th');
  gs_cont : us_cont s' = us_cont s - th_reads th + th_reads th';
  gs_writers : us_writers s' = us_writers s - waiting th + waiting th';
  gs_handoff : us_handoff s' = true → us_cont s' = 0 ∧ 0 < us_writers s';
  gs_inside : (th_pc th' = Inside → us_cont s' = 0) ∧ (us_cont s' = us_cont s ∨ owns_mutex (th_pc th) = true);
  gs_writer : (∀ b, th_pc th' = LckAsleep b → 0 < us_cont s') ∧
    (0 < us_cont s' ∨ us_cont s' = us_cont s ∨ ∀ u b r, u ≠ t → l1 !! u ≠ Some (mkThread (LckAsleep b) r));
  gs_reader : (th_pc th' = IncAsleep → us_handoff s' = true) ∧
    (will_notify (th_pc th') = true ∨ (∀ u r, l1 !! u ≠ Some (mkThread IncAsleep r)) ∨
     (us_handoff s = true → us_handoff s' = true) ∧ will_notify (th_pc th) = false);
}.

Section Step.
Context (t : nat) (th th' : Thread) (l1 : list Thread) (s s' : Use) (Hs : use_ok s) (Hg : good_step t th th' l1 s s').
Context (Ht : us_threads s !! t = Some th).

Lemma step_at u x : us_threads s' !! u = Some x → u = t ∧ x = th' ∨ u ≠ t ∧ l1 !! u = Some x.
Proof.
  rewrite (gs_threads _ _ _ _ _ _ Hg). destruct (decide (u = t)) as [->|].
  - rewrite list_lookup_insert_eq; [intros [= <-]; by left|].
    apply lookup_lt_is_Some. rewrite (gs_here _ _ _ _ _ _ Hg). by eexists.
  - rewrite list_lookup_insert_ne by done. auto.
Qed.

Lemma step_self : us_threads s' !! t = Some th'.
Proof.
  rewrite (gs_threads _ _ _ _ _ _ Hg). apply list_lookup_insert_eq.
  apply lookup_lt_is_Some. rewrite (gs_here _ _ _ _ _ _ Hg). by eexists.
Qed.

(** Another thread is where it was, or was woken. *)
Lemma step_other u x (f : Thread → bool) :
  u ≠ t → l1 !! u = Some x →
  (∀ r, f (mkThread IncMutex r) = f (mkThread IncAsleep r)) → (∀ b r, f (mkThread (LckWoken b) r) = f (mkThread (LckAsleep b) r)) →
  ∃ y, us_threads s !! u = Some y ∧ f x = f y ∧ th_reads x = th_reads y.
Proof. intros Hu Hx. apply (woken_class _ _ _ _ f (gs_woken _ _ _ _ _ _ Hg) Hx). Qed.

(** A thread that is asleep, inside or about to notify was so before. *)
Lemma step_stays u p r :
  l1 !! u = Some (mkThread p r) → (∀ b, p ≠ LckWoken b) → p ≠ IncMutex → us_threads s !! u = Some (mkThread p r).
Proof.
  intros Hu H1 H2. destruct (proj2 (gs_woken _ _ _ _ _ _ Hg) u _ Hu) as (y & Hy & [<-|(r' & [[_ H]|(b & _ & H)])]); [done|congruence..].
Qed.

Lemma use_ok_step : use_ok s'.
Proof.
  destruct Hs as [Hmu Hlo How Hre Hco Hwr Hha Hin Haw Har]. destruct Hg as [G1 G2 G3 [G4 G5] G6 G7 G8 G9 G10 G11 [G12 G13] [G14 G15] [G16 G17]].
  split.
  - intros u x Hu. destruct (step_at u x Hu) as [[-> ->]|[Hne Hx]].
    + eapply owner_step_self; [done|by apply Hmu].
    + destruct (step_other u x (λ th, owns_mutex (th_pc th)) Hne Hx) as (y & Hy & -> & _); [done..|].
      rewrite (owner_step_other _ _ _ _ _ _ G6 Hne). by apply Hmu.
  - intros u x Hu. destruct (step_at u x Hu) as [[-> ->]|[Hne Hx]].
    + eapply owner_step_self; [done|by apply Hlo].
    + destruct (step_other u x (λ th, owns_lock (th_pc th)) Hne Hx) as (y & Hy & -> & _); [done..|].
      rewrite (owner_step_other _ _ _ _ _ _ G7 Hne). by apply Hlo.
  - intros u Hu. apply lookup_lt_is_Some. rewrite G1, length_insert, (proj1 G2). apply lookup_lt_is_Some.
    destruct (decide (u = t)) as [->|Hne]; [by exists th|]. apply How.
    by rewrite <- (owner_step_other _ _ _ _ _ _ G6 Hne), <- (owner_step_other _ _ _ _ _ _ G7 Hne).
  - intros u x Hu. destruct (step_at u x Hu) as [[-> ->]|[Hne Hx]]; [done|].
    destruct (proj2 G2 u x Hx) as (y & Hy & Hc). pose proof (Hre u y Hy) as Hry.
    destruct Hc as [->|(r & [[-> ->]|(b & -> & ->)])]; [done|..]; simpl in *; naive_solver.
  - rewrite G1, (count_insert _ _ _ th) by done. lia.
  - rewrite G1, (count_insert _ _ _ th) by done. lia.
  - done.
  - intros u r Hu. destruct (step_at u _ Hu) as [[-> Hx]|[Hne Hx]]; [apply G12; by rewrite <- Hx|].
    apply step_stays in Hx; [|done..]. destruct G13 as [->|Ho]; [by eapply Hin|].
    exfalso. apply Hne. apply (Hmu t th Ht) in Ho. pose proof (proj1 (Hmu u _ Hx) eq_refl). congruence.
  - intros u b r Hu. destruct (step_at u _ Hu) as [[-> Hx]|[Hne Hx]]; [apply (G14 b); by rewrite <- Hx|].
    destruct G15 as [?|[->|Hno]]; [done| |by apply Hno in Hx]. eapply Haw. by apply step_stays in Hx.
  - intros u r Hu. destruct G17 as [Hn|[Hno|[Hh Hn]]].
    + right. exists t, th'. split; [apply step_self|done].
    + destruct (step_at u _ Hu) as [[-> Hx]|[Hne Hx]]; [left; apply G16; by rewrite <- Hx|by apply Hno in Hx].
    + destruct (step_at u _ Hu) as [[-> Hx]|[Hne Hx]]; [left; apply G16; by rewrite <- Hx|].
      apply step_stays in Hx; [|done..]. destruct (Har u r Hx) as [?|(v & y & Hv & Hy)]; [by auto|].
      right. assert (Hvt : v ≠ t) by (intros ->; congruence).
      destruct (lookup_lt_is_Some_2 l1 v) as [y' Hy']; [rewrite (proj1 G2); by apply lookup_lt_Some in Hv|].
      destruct (step_other v y' (λ th, will_notify (th_pc th)) Hvt Hy') as (y0 & Hy0 & Hc & _); [done..|].
      exists v, y'. rewrite G1, list_lookup_insert_ne by done. split; [done|]. simpl in Hc. rewrite Hc. congruence.
Qed.
End Step.

Lemma wake_writer_here l t th : l !! t = Some th → (∀ b, th_pc th ≠ LckAsleep b) → wake_writer l !! t = Some th.
Proof.
  revert t. induction l as [|[p r] l IH]; intros t Ht Hn; [done|]. destruct t as [|t].
  - injection Ht as <-. simpl in *. destruct p; try done. by destruct (Hn timed).
  - simpl in Ht. destruct p; simpl; auto.
Qed.

Lemma wake_readers_here l t th : l !! t = Some th → th_pc th ≠ IncAsleep → wake_readers l !! t = Some th.
Proof.
  intros Ht Hn. unfold wake_readers. rewrite list_lookup_fmap, Ht. simpl. f_equal. unfold wake_reader.
  destruct th as [p r]. by destruct p.
Qed.

Lemma wake_readers_counts l :
  count th_reads (wake_readers l) = count th_reads l ∧ count waiting (wake_readers l) = count waiting l.
Proof. split; apply count_wake; intros [p r]; by destruct p. Qed.

Lemma wake_writer_counts l :
  count th_reads (wake_writer l) = count th_reads l ∧ count waiting (wake_writer l) = count waiting l.
Proof. split; by apply count_wake_writer. Qed.

(** The first step of [DecUse] with [cond.notify_one()]: nobody is left asleep there, as [lock] lets in one. *)
Lemma wake_writer_none s u b r : use_ok s → wake_writer (us_threads s) !! u ≠ Some (mkThread (LckAsleep b) r).
Proof.
  intros Hs H. apply wake_writer_first in H as (Hu & v & b' & r' & Hne & Hv).
  pose proof (proj1 (uo_lock s Hs u _ Hu) eq_refl). pose proof (proj1 (uo_lock s Hs v _ Hv) eq_refl). congruence.
Qed.

Lemma cont_nonneg s : use_ok s → 0 <= us_cont s.
Proof. intros Hs. rewrite (uo_cont s Hs). apply count_nonneg. intros t th Ht. by apply (uo_reads s Hs t th). Qed.

Lemma reads_le_cont s t th : use_ok s → us_threads s !! t = Some th → th_reads th <= us_cont s.
Proof.
  intros Hs Ht. rewrite (uo_cont s Hs). apply (count_positive th_reads _ t); [|done].
  intros u x Hu. by apply (uo_reads s Hs u x).
Qed.

Lemma owner_of (o : option nat) t b : (b = true ↔ o = Some t) → b = true → o = Some t.
Proof. naive_solver. Qed.

Lemma use_start_ok n : use_ok (start n).
Proof.
  assert (Hl : ∀ t th, replicate n (mkThread Idle 0) !! t = Some th → th = mkThread Idle 0) by (intros t th [-> _]%lookup_replicate; done).
  assert (Hc : ∀ f, f (mkThread Idle 0) = 0 → count f (replicate n (mkThread Idle 0)) = 0).
  { intros f Hf. clear Hl. induction n as [|n IH]; simpl; [done|]. lia. }
  split; simpl; try (intros t th Ht; apply Hl in Ht; subst; simpl; naive_solver lia).
  - by intros t [?|?].
  - symmetry. by apply Hc.
  - symmetry. by apply Hc.
  - done.
  - intros t b r Ht. by apply Hl in Ht.
Qed.

(** Apply [use_ok_step] for a step of [t] to place [p'] with [r'] readings; [l1] are the threads once the
    notified ones are awake.  The tests of the step are in the context. *)
Ltac by_step s t th p' r' l1 Hs Ht :=
  let Hmu := fresh "Hmu" in let Hlo := fresh "Hlo" in let Hr0 := fresh "Hr" in let Hr1 := fresh "Hr" in let Hr2 := fresh "Hr" in let Hha := fresh "Hha" in
  pose proof (owner_of _ _ _ (uo_mutex s Hs t th Ht)) as Hmu; pose proof (owner_of _ _ _ (uo_lock s Hs t th Ht)) as Hlo;
  destruct (uo_reads s Hs t th Ht) as (Hr0 & Hr1 & Hr2); pose proof (uo_handoff s Hs) as Hha; pose proof (cont_nonneg s Hs);
  pose proof (reads_le_cont s t th Hs Ht);
  apply (use_ok_step t th (mkThread p' r') l1 s); [exact Hs| |exact Ht]; simpl in *;
  constructor; simpl;
  [ reflexivity
  | first [apply woken_refl|apply woken_readers|apply woken_writer]
  | first [exact Ht|by apply wake_readers_here|by apply wake_writer_here]
  | first [done|apply wake_readers_counts|apply wake_writer_counts]
  | try rewrite Hmu by done; repeat match goal with H : us_mutex s = _ |- _ => rewrite H end; once (by constructor)
  | try rewrite Hlo by done; repeat match goal with H : us_lock s = _ |- _ => rewrite H end; once (by constructor)
  | split_and!; [lia|intros [?|?]; first [done|lia|by apply Hr1; auto]|intros [?|?]; first [done|lia|by apply Hr2; auto]]
  | lia
  | unfold waiting; simpl; lia
  | first [done|by intros; lia|by auto|let Hx := fresh in intros Hx; destruct (Hha Hx); lia]
  | split; [first [done|by intros; lia]|first [by right|left; lia]]
  | split; [first [done|by intros; lia]|first [right; left; lia|left; lia|right; right; intros; by apply wake_writer_none]]
  | split; [first [done|by intros]|first [by left|right; left; intros; by apply wake_readers_none|right; right; split; [first [by auto|by intros; congruence|by intros; lia]|done]]] ].

Lemma go_ok s s' t : use_ok s → go t s = Some s' → use_ok s'.
Proof.
  intros Hs. unfold go, take_mutex. destruct (us_threads s !! t) as [[p r]|] eqn:Ht; [|done].
  destruct p; try done.
  - destruct (us_mutex s) eqn:Hm; [done|]. intros [= <-]. by_step s t (mkThread IncMutex r) IncTest r (us_threads s) Hs Ht.
  - destruct (us_handoff s) eqn:Hh; intros [= <-].
    + by_step s t (mkThread IncTest r) IncAsleep r (us_threads s) Hs Ht.
    + by_step s t (mkThread IncTest r) Idle (r + 1) (us_threads s) Hs Ht.
  - destruct (us_mutex s) eqn:Hm; [done|]. intros [= <-]. by_step s t (mkThread DecMutex r) DecBody r (us_threads s) Hs Ht.
  - assert (Hpos : 0 < r) by (by apply (uo_reads s Hs t _ Ht); right).
    assert (Hc : 0 < us_cont s) by (pose proof (reads_le_cont s t _ Hs Ht); simpl in *; lia).
    rewrite (proj2 (Z.ltb_lt 0 (us_cont s)) Hc).
    assert (Hh : us_handoff s = false). { destruct (us_handoff s) eqn:E; [|done]. destruct (uo_handoff s Hs E). lia. }
    rewrite Hh. intros [= <-].
    destruct (Z.eqb_spec (us_cont s - 1) 0), (Z.ltb_spec 0 (us_writers s)); simpl;
      by_step s t (mkThread DecBody r) Idle (r - 1) (wake_writer (us_threads s)) Hs Ht.
  - destruct (us_lock s) eqn:Hl; [done|]. intros [= <-].
    by_step s t (mkThread (LckLock timed) r) (LckMutex timed) r (us_threads s) Hs Ht.
  - simpl. destruct (us_mutex s) eqn:Hm; [done|]. intros [= <-].
    by_step s t (mkThread (LckMutex timed) r) (LckTest timed) r (us_threads s) Hs Ht.
  - destruct (Z.eqb_spec (us_cont s) 0); intros [= <-].
    + by_step s t (mkThread (LckTest timed) r) Inside r (us_threads s) Hs Ht.
    + by_step s t (mkThread (LckTest timed) r) (LckAsleep timed) r (us_threads s) Hs Ht.
  - destruct (us_mutex s) eqn:Hm; [done|]. intros [= <-].
    by_step s t (mkThread (LckWoken timed) r) (LckTest timed) r (us_threads s) Hs Ht.
  - destruct (us_mutex s) eqn:Hm; [done|]. intros [= <-].
    by_step s t (mkThread LckExpired r) LckLast r (us_threads s) Hs Ht.
  - destruct (Z.eqb_spec (us_cont s) 0); intros [= <-].
    + by_step s t (mkThread LckLast r) Inside r (us_threads s) Hs Ht.
    + by_step s t (mkThread LckLast r) TimNotify r (us_threads s) Hs Ht.
  - intros [= <-]. by_step s t (mkThread TimNotify r) TimUnlock r (wake_readers (us_threads s)) Hs Ht.
  - intros [= <-]. by_step s t (mkThread TimUnlock r) Idle r (us_threads s) Hs Ht.
  - intros [= <-]. by_step s t (mkThread UnlLock r) UnlNotify r (us_threads s) Hs Ht.
  - intros [= <-]. by_step s t (mkThread UnlNotify r) Idle r (wake_readers (us_threads s)) Hs Ht.
Qed.

Lemma act_ok s s' t a : use_ok s → act t a s = Some s' → use_ok s'.
Proof.
  intros Hs. unfold act. destruct (us_threads s !! t) as [[p r]|] eqn:Ht; [|done].
  destruct a, p; try done; try (by apply go_ok).
  - intros [= <-]. by_step s t (mkThread Idle r) IncMutex r (us_threads s) Hs Ht.
  - destruct (Z.ltb_spec 0 r); [|done]. intros [= <-]. by_step s t (mkThread Idle r) DecMutex r (us_threads s) Hs Ht.
  - destruct (Z.eqb_spec r 0); [|done]. intros [= <-]. by_step s t (mkThread Idle r) (LckLock timed) r (us_threads s) Hs Ht.
  - intros [= <-]. by_step s t (mkThread Inside r) UnlLock r (us_threads s) Hs Ht.
  - intros [= <-]. by_step s t (mkThread IncAsleep r) IncMutex r (us_threads s) Hs Ht.
  - intros [= <-]. by_step s t (mkThread (LckAsleep timed) r) (LckWoken timed) r (us_threads s) Hs Ht.
  - destruct timed; [|done]. intros [= <-]. by_step s t (mkThread (LckAsleep true) r) LckExpired r (us_threads s) Hs Ht.
Qed.

Lemma run_use_ok schedule s s' : use_ok s → run_use schedule s = Some s' → use_ok s'.
Proof.
  revert s. induction schedule as [|[t a] schedule IH]; intros s Hs; simpl; [by intros [= <-]|].
  destruct (act t a s) as [s1|] eqn:E; [|done]. apply IH. by eapply act_ok.
Qed.

Section Reachable.
Context (s : Use) (Hs : use_ok s).

Lemma inside_alone t r u th :
  us_threads s !! t = Some (mkThread Inside r) → us_threads s !! u = Some th →
  th_reads th = 0 ∧ (th_pc th = Inside → u = t).
Proof.
  intros Ht Hu. pose proof (uo_inside s Hs t r Ht). pose proof (reads_le_cont s u th Hs Hu).
  destruct (uo_reads s Hs u th Hu) as (Hr & _). split; [lia|]. intros Hp. destruct th as [p r']. simpl in Hp. subst p.
  pose proof (proj1 (uo_mutex s Hs t _ Ht) eq_refl). pose proof (proj1 (uo_mutex s Hs u _ Hu) eq_refl). congruence.
Qed.

Lemma nested_passes t r :
  us_threads s !! t = Some (mkThread IncTest r) → 0 < r →
  ∃ s', go t s = Some s' ∧ us_threads s' !! t = Some (mkThread Idle (r + 1)).
Proof.
  intros Ht Hr. pose proof (reads_le_cont s t _ Hs Ht). simpl in *. unfold go. rewrite Ht.
  destruct (us_handoff s) eqn:Hh; [destruct (uo_handoff s Hs Hh); lia|]. eexists. split; [done|]. simpl.
  apply list_lookup_insert_eq. by apply lookup_lt_Some in Ht.
Qed.

(** The readings of the threads after a step of [t]. *)
Definition same_reads (s s' : Use) : Prop :=
  ∀ v, th_reads <$> us_threads s' !! v = th_reads <$> us_threads s !! v.

Lemma put_same_reads s0 t p r th :
  us_threads s0 !! t = Some th → th_reads th = r → same_reads s0 (put t p r s0).
Proof.
  intros Ht Hr v. simpl. destruct (decide (v = t)) as [->|].
  - rewrite list_lookup_insert_eq by (by apply lookup_lt_Some in Ht). rewrite Ht. simpl. congruence.
  - by rewrite list_lookup_insert_ne.
Qed.

Lemma wake_readers_reads l (v : nat) : th_reads <$> wake_readers l !! v = th_reads <$> l !! v.
Proof.
  unfold wake_readers. rewrite list_lookup_fmap. destruct (l !! v) as [[p r]|]; [|done]. simpl. by destruct p.
Qed.

(** With the hand-over pending the counter is 0, so nobody is about to leave. *)
Lemma pending_keeps t a s' :
  us_handoff s = true → act t a s = Some s' →
  us_handoff s' = true ∧ same_reads s s' ∨ ∃ r, us_threads s' !! t = Some (mkThread Inside r).
Proof.
  intros Hh. destruct (uo_handoff s Hs Hh) as [Hc _]. unfold act.
  destruct (us_threads s !! t) as [[p r]|] eqn:Ht; [|done].
  assert (Hlt : (t < length (us_threads s))%nat) by (by apply lookup_lt_Some in Ht).
  assert (Hput : ∀ m l c w p', let s' := mkUse m l c w true (<[t := mkThread p' r]> (us_threads s)) in
    us_handoff s' = true ∧ same_reads s s' ∨ ∃ r, us_threads s' !! t = Some (mkThread Inside r)).
  { intros m l c w p'. left. split; [done|]. apply (put_same_reads s t p' r _ Ht eq_refl). }
  assert (Hwake : ∀ m l c w p', let s' := mkUse m l c w true (<[t := mkThread p' r]> (wake_readers (us_threads s))) in
    us_handoff s' = true ∧ same_reads s s' ∨ ∃ r, us_threads s' !! t = Some (mkThread Inside r)).
  { intros m l c w p'. left. split; [done|]. intros v. simpl. destruct (decide (v = t)) as [->|].
    - rewrite list_lookup_insert_eq by (unfold wake_readers; by rewrite length_fmap). by rewrite Ht.
    - rewrite list_lookup_insert_ne by done. apply wake_readers_reads. }
  destruct a, p; try done; unfold go, take_mutex, put, enter, with_mutex, with_fields, with_lock, with_threads;
    rewrite ?Ht, ?Hh, ?Hc; simpl; repeat case_goal; try done; intros [= <-]; try (by apply Hput); try (by apply Hwake).
  all: try (right; exists r; simpl; by apply list_lookup_insert_eq).
  all: exfalso; pose proof (reads_le_cont s t _ Hs Ht) as H; simpl in H.
  all: destruct (uo_reads s Hs t _ Ht) as (_ & _ & Hd); simpl in Hd; specialize (Hd (or_intror eq_refl)); lia.
Qed.

(** The last reader leaves, a writer waits: the hand-over is pending. *)
Lemma last_leaves t a s' u p r :
  act t a s = Some s' → 0 < readings s → readings s' = 0 →
  us_threads s' !! u = Some (mkThread p r) → waits p = true → us_handoff s' = true.
Proof.
  intros Ha Hbefore Hafter Hu Hw. pose proof (act_ok s s' t a Hs Ha) as Hs'. unfold readings in *.
  rewrite <- (uo_cont s Hs) in Hbefore. rewrite <- (uo_cont s' Hs') in Hafter.
  assert (Hwr : 0 < us_writers s').
  { rewrite (uo_writers s' Hs'). pose proof (count_positive waiting (us_threads s') u _ (λ _ th _, waiting_nonneg th) Hu) as H.
    unfold waiting in H at 1. simpl in H. rewrite Hw in H. lia. }
  unfold act in Ha. destruct (us_threads s !! t) as [[q n]|] eqn:Ht; [|done].
  destruct a, q; try done; unfold go, take_mutex in Ha; rewrite ?Ht in Ha;
    repeat case_match; try done; injection Ha as <-; simpl in *; try lia; ztests; try lia; try done.
  all: apply andb_false_iff in H0 as [H0|H0]; ztests; lia.
Qed.
End Reachable.

(** ** Coming to rest *)

(** How many steps a thread may still make before it sleeps or is back in its caller's code, waking
    up to [n] others included. *)
Definition weight (n : Z) (th : Thread) : Z :=
  match th_pc th with
  | Idle | IncAsleep | LckAsleep _ | Inside => 0
  | IncMutex => 2
  | IncTest => 1
  | DecMutex => 5
  | DecBody => 4
  | LckLock _ => 3
  | LckMutex _ => 2
  | LckTest _ => 1
  | LckWoken _ => 2
  | LckExpired => 2 * n + 5
  | LckLast => 2 * n + 4
  | TimNotify => 2 * n + 2
  | TimUnlock => 1
  | UnlLock => 2 * n + 2
  | UnlNotify => 2 * n + 1
  end.

Definition steps_left (s : Use) : Z := count (weight (Zlen (us_threads s))) (us_threads s).

Lemma weight_bound n th : 0 <= n → 0 <= weight n th <= 2 * n + 5.
Proof. intros Hn. unfold weight. destruct (th_pc th); lia. Qed.

Lemma steps_left_bound s : steps_left s <= Zlen (us_threads s) * (2 * Zlen (us_threads s) + 5).
Proof.
  unfold steps_left. pose proof (Zlen_nonneg (us_threads s)) as Hn. set (n := Zlen (us_threads s)) in *.
  assert (H : ∀ l, count (weight n) l <= Zlen l * (2 * n + 5)).
  { induction l as [|x l IH]; [unfold Zlen; simpl; lia|]. rewrite Zlen_cons. simpl. pose proof (weight_bound n x Hn). lia. }
  apply H.
Qed.

Lemma weight_wake_readers n l : count (weight n) (wake_readers l) <= count (weight n) l + 2 * Zlen l.
Proof.
  induction l as [|[p r] l IH]; [unfold Zlen; simpl; lia|]. rewrite Zlen_cons. simpl.
  assert (weight n (wake_reader (mkThread p r)) <= weight n (mkThread p r) + 2) by (destruct p; unfold weight; simpl; lia). lia.
Qed.

Lemma weight_wake_writer n l : count (weight n) (wake_writer l) <= count (weight n) l + 2.
Proof. induction l as [|[p r] l IH]; simpl; [lia|]. destruct p; unfold weight in *; simpl in *; lia. Qed.

Lemma go_length s s' t : go t s = Some s' → length (us_threads s') = length (us_threads s).
Proof.
  unfold go, take_mutex. destruct (us_threads s !! t) as [[p r]|]; [|done].
  destruct p; try done; repeat case_goal; try done; intros [= <-]; simpl; rewrite length_insert; try done.
  all: first [apply (proj1 (woken_writer _))|apply (proj1 (woken_readers _))].
Qed.

Lemma go_decreases s s' t : go t s = Some s' → steps_left s' < steps_left s.
Proof.
  intros Hgo. pose proof (go_length s s' t Hgo) as Hlen. unfold steps_left.
  assert (Hn : Zlen (us_threads s') = Zlen (us_threads s)) by (unfold Zlen; lia). rewrite Hn.
  pose proof (Zlen_nonneg (us_threads s)) as H0. 
  revert Hgo. unfold go, take_mutex. destruct (us_threads s !! t) as [[p r]|] eqn:Ht; [|done].
  assert (Hput : ∀ p' r', weight (Zlen (us_threads s)) (mkThread p' r') < weight (Zlen (us_threads s)) (mkThread p r) →
    count (weight (Zlen (us_threads s))) (<[t := mkThread p' r']> (us_threads s)) < count (weight (Zlen (us_threads s))) (us_threads s)).
  { intros p' r' Hlt. rewrite (count_insert _ _ _ (mkThread p r)) by done. lia. }
  destruct p; try done; repeat case_goal; try done; intros [= <-]; simpl; try (apply Hput; unfold weight; simpl; lia).
  all: first
    [ rewrite (count_insert _ _ _ (mkThread DecBody r)) by (by apply wake_writer_here);
      pose proof (weight_wake_writer (Zlen (us_threads s)) (us_threads s)); unfold weight in *; simpl; lia
    | rewrite (count_insert _ _ _ (mkThread TimNotify r)) by (by apply wake_readers_here);
      pose proof (weight_wake_readers (Zlen (us_threads s)) (us_threads s)); unfold weight in *; simpl; lia
    | rewrite (count_insert _ _ _ (mkThread UnlNotify r)) by (by apply wake_readers_here);
      pose proof (weight_wake_readers (Zlen (us_threads s)) (us_threads s)); unfold weight in *; simpl; lia ].
Qed.

Lemma steps_left_nonneg s : 0 <= steps_left s.
Proof. apply count_nonneg. intros t th _. apply weight_bound. apply Zlen_nonneg. Qed.

Lemma go_run_bound ts s s' : run_use ((λ t, (t, AGo)) <$> ts) s = Some s' → Z.of_nat (length ts) <= steps_left s.
Proof.
  revert s. induction ts as [|t ts IH]; intros s H; simpl in *; [apply steps_left_nonneg|].
  destruct (act t AGo s) as [s1|] eqn:Ha; [|done]. pose proof (IH s1 H). unfold act in Ha.
  destruct (us_threads s !! t) as [[p r]|]; [|done]. pose proof (go_decreases s s1 t Ha). lia.
Qed.

(** ** At rest *)

Section Rest.
Context (s : Use) (Hs : use_ok s) (Hrest : ∀ t, go t s = None).

Definition somebody_inside : Prop := ∃ u r, us_threads s !! u = Some (mkThread Inside r).

(** The mutex is free, or its owner is in the writer's section. *)
Lemma rest_mutex : somebody_inside ∨ us_mutex s = None.
Proof.
  destruct (us_mutex s) as [u|] eqn:Hm; [|by right]. left.
  destruct (uo_owner s Hs u (or_introl Hm)) as [[p r] Hu]. pose proof (proj2 (uo_mutex s Hs u _ Hu) Hm) as Ho.
  pose proof (Hrest u) as Hg. unfold go in Hg. rewrite Hu in Hg. destruct p; try done; repeat case_match; try done. by exists u, r.
Qed.

(** With the mutex free, whoever is not in its caller's code sleeps or waits for [lock]. *)
Lemma rest_places t p r :
  us_mutex s = None → us_threads s !! t = Some (mkThread p r) →
  match p with Idle | IncAsleep | LckLock _ | LckAsleep _ => True | _ => False end.
Proof.
  intros Hm Ht. pose proof (Hrest t) as Hg. unfold go, take_mutex in Hg. rewrite Ht in Hg. simpl in Hg. rewrite Hm in Hg.
  destruct p; try done; repeat case_match; try done.
  by pose proof (proj1 (uo_mutex s Hs t _ Ht) eq_refl); congruence.
Qed.

(** A writer sleeps for a reader only, one that is in its own code. *)
Lemma rest_reader t b r :
  us_mutex s = None → us_threads s !! t = Some (mkThread (LckAsleep b) r) → ∃ u r', us_threads s !! u = Some (mkThread Idle r') ∧ 0 < r'.
Proof.
  intros Hm Ht. pose proof (uo_writer s Hs t b r Ht) as Hc. rewrite (uo_cont s Hs) in Hc.
  apply count_witness in Hc as (u & [p r'] & Hu & Hr'); [|intros u th Hu; by apply (uo_reads s Hs u th)]. simpl in Hr'.
  exists u, r'. split; [|done]. pose proof (rest_places u p r' Hm Hu) as Hp.
  destruct (uo_reads s Hs u _ Hu) as (_ & Hw & _). simpl in Hw.
  destruct p; try done; try (by rewrite Hw in Hr' by (by left)).
  (* a reader that nests does not sleep *)
  exfalso. pose proof (uo_reader s Hs u r' Hu) as [Hh|(v & th & Hv & Hn)].
  - destruct (uo_handoff s Hs Hh) as [Hc _]. pose proof (uo_writer s Hs t b r Ht). lia.
  - destruct th as [p r'']. pose proof (rest_places v p r'' Hm Hv) as Hp'. by destruct p.
Qed.

(** No reader sleeps. *)
Lemma rest_no_sleeper t r : us_mutex s = None → us_threads s !! t ≠ Some (mkThread IncAsleep r).
Proof.
  intros Hm Ht. destruct (uo_reader s Hs t r Ht) as [Hh|(v & [p r'] & Hv & Hn)].
  - destruct (uo_handoff s Hs Hh) as [Hc Hw]. rewrite (uo_writers s Hs) in Hw.
    apply count_witness in Hw as (u & [p r'] & Hu & Hp); [|intros; apply waiting_nonneg].
    pose proof (rest_places u p r' Hm Hu) as Hpl. destruct p; try done. pose proof (uo_writer s Hs u _ r' Hu). lia.
  - pose proof (rest_places v p r' Hm Hv) as Hpl. by destruct p.
Qed.

Lemma rest_blocked t p r :
  us_threads s !! t = Some (mkThread p r) →
  p = Idle ∨ p = Inside ∨ somebody_inside ∨
  writing p = true ∧ ∃ u r', us_threads s !! u = Some (mkThread Idle r') ∧ 0 < r'.
Proof.
  intros Ht. destruct rest_mutex as [Hi|Hm]; [by auto|]. pose proof (rest_places t p r Hm Ht) as Hp.
  destruct p; try done; auto.
  - by destruct (rest_no_sleeper t r Hm).
  - do 3 right. split; [done|]. pose proof (Hrest t) as Hg. unfold go in Hg. rewrite Ht in Hg.
    destruct (us_lock s) as [u|] eqn:Hl; [|done]. destruct (uo_owner s Hs u (or_intror Hl)) as [[p r'] Hu].
    pose proof (proj2 (uo_lock s Hs u _ Hu) Hl) as Ho. pose proof (rest_places u p r' Hm Hu) as Hpu.
    destruct p; try done. by eapply rest_reader.
  - do 3 right. split; [done|]. by eapply rest_reader.
Qed.
End Rest.

Lemma act_length s s' t a : act t a s = Some s' → length (us_threads s') = length (us_threads s).
Proof.
  unfold act. destruct (us_threads s !! t) as [[p r]|]; [|done].
  destruct a, p; try done; try (apply go_length); repeat case_goal; try done; intros [= <-]; apply length_insert.
Qed.

Lemma run_use_length schedule s s' : run_use schedule s = Some s' → length (us_threads s') = length (us_threads s).
Proof.
  revert s. induction schedule as [|[t a] schedule IH]; intros s; simpl; [by intros [= <-]|].
  destruct (act t a s) as [s1|] eqn:E; [|done]. intros H. rewrite (IH s1 H). by eapply act_length.
Qed.

(** ** The guarantees *)

(** C26. Whatever the interleaving of any number of threads that take and release the counter: while a
    thread is in the writer's section nobody else is, and nobody is reading; a thread that reads
    already gets a further reading at once, never put to sleep; the step that ends the last reading
    while a writer waits leaves the hand-over pending; and once it is, every step leaves all readings
    as they are and the hand-over pending, until a writer is in its section. *)
Theorem use_lock_excludes n schedule s :
  run_use schedule (start n) = Some s →
  (∀ t r u th, us_threads s !! t = Some (mkThread Inside r) → us_threads s !! u = Some th →
     th_reads th = 0 ∧ (th_pc th = Inside → u = t)) ∧
  (∀ t r, us_threads s !! t = Some (mkThread IncTest r) → 0 < r →
     ∃ s', go t s = Some s' ∧ us_threads s' !! t = Some (mkThread Idle (r + 1))) ∧
  (∀ t a s' u p r, act t a s = Some s' → 0 < readings s → readings s' = 0 →
     us_threads s' !! u = Some (mkThread p r) → waits p = true → us_handoff s' = true) ∧
  (∀ t a s', us_handoff s = true → act t a s = Some s' →
     us_handoff s' = true ∧ same_reads s s' ∨ ∃ r, us_threads s' !! t = Some (mkThread Inside r)).
Proof.
  intros Hr. pose proof (run_use_ok _ _ _ (use_start_ok n) Hr) as Hs. split_and!.
  - intros t r u th. by apply inside_alone.
  - intros t r. by apply nested_passes.
  - intros t a s' u p r. by apply last_leaves.
  - intros t a s'. by apply pending_keeps.
Qed.

(** A reader, a writer that sleeps for it, and a second reader that comes when the first leaves. *)
Definition hand_over : list (nat * action) :=
  [(0, AIncUse); (0, AGo); (0, AGo); (1, AWaitUnusedAndLock false); (1, AGo); (1, AGo); (1, AGo);
   (0, ADecUse); (0, AGo); (0, AGo); (2, AIncUse); (2, AGo); (2, AGo)]%nat.

Lemma use_lock_excludes_witness :
  ∃ s, run_use hand_over (start 3) = Some s ∧ us_handoff s = true ∧
    ∀ t a s', act t a s = Some s' → us_handoff s' = true ∧ same_reads s s' ∨ ∃ r, us_threads s' !! t = Some (mkThread Inside r).
Proof.
  eexists. split; [vm_compute; reflexivity|]. split; [reflexivity|]. intros t a s'.
  apply (use_lock_excludes 3 hand_over); [vm_compute; reflexivity|reflexivity].
Defined.

(** C27. Whatever the interleaving so far: left to themselves, the threads come to rest after at most
    n (2n + 5) steps; and at rest every thread is in its caller's code, or some thread is in the
    writer's section, or it wants that section and waits for a reader that is in its caller's code.
    So no wake-up is ever lost, neither the writer's nor that of the readers held back by a
    hand-over, be it that the writer got in or that its time was over. *)
Theorem use_lock_never_forgets n schedule s :
  run_use schedule (start n) = Some s →
  (∀ ts s', run_use ((λ t, (t, AGo)) <$> ts) s = Some s' → Z.of_nat (length ts) <= Z.of_nat n * (2 * Z.of_nat n + 5)) ∧
  ((∀ t, go t s = None) → ∀ t p r, us_threads s !! t = Some (mkThread p r) →
     p = Idle ∨ p = Inside ∨ (∃ u r', us_threads s !! u = Some (mkThread Inside r')) ∨
     writing p = true ∧ ∃ u r', us_threads s !! u = Some (mkThread Idle r') ∧ 0 < r').
Proof.
  intros Hr. pose proof (run_use_ok _ _ _ (use_start_ok n) Hr) as Hs. split.
  - intros ts s' Hts. pose proof (go_run_bound ts s s' Hts) as H1. pose proof (steps_left_bound s) as H2.
    assert (Hn : Zlen (us_threads s) = Z.of_nat n).
    { unfold Zlen. rewrite (run_use_length _ _ _ Hr). simpl. by rewrite length_replicate. }
    rewrite Hn in H2. lia.
  - intros Hrest t p r. by apply rest_blocked.
Qed.

Lemma use_lock_never_forgets_witness :
  ∃ s, run_use (take 7 hand_over) (start 3) = Some s ∧
    ∃ u r', us_threads s !! u = Some (mkThread Idle r') ∧ 0 < r'.
Proof.
  eexists. split; [vm_compute; reflexivity|].
  destruct (use_lock_never_forgets 3 (take 7 hand_over) _ ltac:(vm_compute; reflexivity)) as [_ H].
  destruct (H ltac:(intros [|[|[|t]]]; reflexivity) 1%nat (LckAsleep false) 0 ltac:(reflexivity)) as [|[|[(u & r & Hu)|[_ Hu]]]]; [done|done| |exact Hu].
  destruct u as [|[|[|u]]]; done.
Defined.
