(* ===== verification/Mosaic.v ===== *)
(** * Mosaics: who is shown where

    [Mosaic] (src/mcu/include/mosaic.h, src/mcu/src/mosaic.cpp) without its drawing: the slots of a
    composition, the participants and their positions, the voice activity that moves them.

    [mosaicSlots] says what each slot is for ([SlotFree], [SlotLocked], [SlotVAD] or the participant
    fixed there), [mosaicPos] who is in it (0 for nobody), [participants] where each one is.  An
    access outside of an array is a [Fault]. *)

From S2P Require Import Prelude OrderedMap Octets.

Definition NotShown : Z := -1.
Definition NotFound : Z := -2.
Definition SlotFree : Z := 0.
Definition SlotLocked : Z := -1.
Definition SlotVAD : Z := -2.
Definition SlotReset : Z := -3.

(** [Mosaic::Type] *)
Inductive MosaicType :=
  | mosaic1x1 | mosaic2x2 | mosaic3x3 | mosaic3p4 | mosaic1p7 | mosaic1p5 | mosaic1p1
  | mosaicPIP1 | mosaicPIP3 | mosaic4x4 | mosaic1p4 | mosaic2p8.

#[global] Instance MosaicType_eq_dec : EqDecision MosaicType.
Proof. solve_decision. Defined.

Definition GetNumSlotsForType (type : MosaicType) : Z :=
  match type with
  | mosaic1x1 => 1 | mosaic2x2 => 4 | mosaic3x3 => 9 | mosaic3p4 => 7 | mosaic1p7 => 8
  | mosaic1p5 => 6 | mosaic1p1 => 2 | mosaicPIP1 => 2 | mosaicPIP3 => 4 | mosaic4x4 => 16
  | mosaic1p4 => 16 | mosaic2p8 => 10
  end.

Record PartInfo := mkPartInfo { pi_vadLevel : Z; pi_kickable : bool; pi_eligible : bool }.

(** The frame of a slot, by its size. *)
Record Picture := mkPicture { pic_width : Z; pic_height : Z }.

Record Mosaic := mkMosaic {
  mo_type : MosaicType;
  mo_numSlots : Z;
  mo_participants : list (Z * Z);
  mo_partVad : list (Z * PartInfo);
  mo_slots : list Z;
  mo_pos : list Z;
  mo_blocking : list Z;            (** [mosaicSlotsBlockingTime] *)
  mo_vadParticipant : Z;
  mo_frames : list (option (Picture * bool));   (** [slotFrames] and [slotKeepAspect] *)
  mo_keepAspect : bool;
  mo_changed : bool;
}.

Definition new_mosaic (type : MosaicType) : Mosaic :=
  let n := GetNumSlotsForType type in
  let zeros := replicate (Z.to_nat n) 0 in
  mkMosaic type n [] [] zeros zeros zeros 0 (replicate (Z.to_nat n) None) true false.

(** ** Setters *)

Definition set_participants (f : list (Z * Z) → list (Z * Z)) (m : Mosaic) : Mosaic :=
  mkMosaic (mo_type m) (mo_numSlots m) (f (mo_participants m)) (mo_partVad m) (mo_slots m) (mo_pos m)
    (mo_blocking m) (mo_vadParticipant m) (mo_frames m) (mo_keepAspect m) (mo_changed m).
Definition set_partVad (f : list (Z * PartInfo) → list (Z * PartInfo)) (m : Mosaic) : Mosaic :=
  mkMosaic (mo_type m) (mo_numSlots m) (mo_participants m) (f (mo_partVad m)) (mo_slots m) (mo_pos m)
    (mo_blocking m) (mo_vadParticipant m) (mo_frames m) (mo_keepAspect m) (mo_changed m).
Definition set_slots (l : list Z) (m : Mosaic) : Mosaic :=
  mkMosaic (mo_type m) (mo_numSlots m) (mo_participants m) (mo_partVad m) l (mo_pos m)
    (mo_blocking m) (mo_vadParticipant m) (mo_frames m) (mo_keepAspect m) (mo_changed m).
Definition set_pos (l : list Z) (m : Mosaic) : Mosaic :=
  mkMosaic (mo_type m) (mo_numSlots m) (mo_participants m) (mo_partVad m) (mo_slots m) l
    (mo_blocking m) (mo_vadParticipant m) (mo_frames m) (mo_keepAspect m) (mo_changed m).
Definition set_blocking (l : list Z) (m : Mosaic) : Mosaic :=
  mkMosaic (mo_type m) (mo_numSlots m) (mo_participants m) (mo_partVad m) (mo_slots m) (mo_pos m)
    l (mo_vadParticipant m) (mo_frames m) (mo_keepAspect m) (mo_changed m).
Definition set_vad (id : Z) (m : Mosaic) : Mosaic :=
  mkMosaic (mo_type m) (mo_numSlots m) (mo_participants m) (mo_partVad m) (mo_slots m) (mo_pos m)
    (mo_blocking m) id (mo_frames m) (mo_keepAspect m) (mo_changed m).
Definition set_frames (l : list (option (Picture * bool))) (m : Mosaic) : Mosaic :=
  mkMosaic (mo_type m) (mo_numSlots m) (mo_participants m) (mo_partVad m) (mo_slots m) (mo_pos m)
    (mo_blocking m) (mo_vadParticipant m) l (mo_keepAspect m) true.

(** [a\[i\] = v] *)
Definition wr1 (l : list Z) (i v : Z) : checked (list Z) :=
  if within l i 1 then Got (<[Z.to_nat i := v]> l) else Fault.

Definition put_slot (i v : Z) (m : Mosaic) : checked Mosaic :=
  let? l := wr1 (mo_slots m) i v in Got (set_slots l m).
Definition put_pos (i v : Z) (m : Mosaic) : checked Mosaic :=
  let? l := wr1 (mo_pos m) i v in Got (set_pos l m).
Definition put_blocking (i v : Z) (m : Mosaic) : checked Mosaic :=
  let? l := wr1 (mo_blocking m) i v in Got (set_blocking l m).
(** [participants\[id\] = pos] *)
Definition put_participant (id pos : Z) : Mosaic → Mosaic := set_participants (om_set id pos).

(** ** Frames *)

Definition in_range (pos : Z) (m : Mosaic) : bool := (0 <=? pos) && (pos <? mo_numSlots m).

Definition mosaic_Update (index : Z) (pic : option Picture) (m : Mosaic) : Mosaic * Z :=
  match pic with
  | None => (m, 0)
  | Some pic =>
      (set_frames (if (0 <=? index) && (index <? Zlen (mo_frames m)) then
          <[Z.to_nat index := Some (pic, mo_keepAspect m)]> (mo_frames m) else mo_frames m) m, 1)
  end.

(** [Clean], with [ClearSlotFrame] *)
Definition mosaic_Clean (index : Z) (m : Mosaic) : Mosaic :=
  set_frames (if (0 <=? index) && (index <? Zlen (mo_frames m)) then
    <[Z.to_nat index := None]> (mo_frames m) else mo_frames m) m.

Definition KeepAspectRatio (keep : bool) (m : Mosaic) : Mosaic :=
  mkMosaic (mo_type m) (mo_numSlots m) (mo_participants m) (mo_partVad m) (mo_slots m) (mo_pos m)
    (mo_blocking m) (mo_vadParticipant m) (mo_frames m) keep (mo_changed m).

(** [Reset()], after the composed picture was handed out: the mosaic stays marked as changed. *)
Definition mosaic_Reset (m : Mosaic) : Mosaic :=
  mkMosaic (mo_type m) (mo_numSlots m) (mo_participants m) (mo_partVad m) (mo_slots m) (mo_pos m)
    (mo_blocking m) (mo_vadParticipant m) (mo_frames m) (mo_keepAspect m) true.

(** ** Queries *)

Definition mosaic_GetPosition (id : Z) (m : Mosaic) : Z := default NotFound (om_find id (mo_participants m)).
Definition mosaic_HasParticipant (id : Z) (m : Mosaic) : Z := if om_find id (mo_participants m) then 1 else 0.

Definition GetBlockingTime (pos : Z) (m : Mosaic) : checked Z :=
  if in_range pos m then rd1 (mo_blocking m) pos else Got 0.

(** [IsFixed(DWORD pos)]: a negative position is a large one. *)
Definition IsFixed (pos : Z) (m : Mosaic) : checked bool :=
  if to_dword pos <? mo_numSlots m then let? s := rd1 (mo_slots m) (to_dword pos) in Got (0 <? s) else Got false.

Fixpoint vad_position (k : nat) (i : Z) (m : Mosaic) : checked Z :=
  match k with
  | O => Got NotFound
  | S k => let? s := rd1 (mo_slots m) i in if s =? SlotVAD then Got i else vad_position k (i + 1) m
  end.
Definition GetVADPosition (m : Mosaic) : checked Z := vad_position (Z.to_nat (mo_numSlots m)) 0 m.

(** ** Slots *)

(** [GetNextFreeSlot(id)]: a slot that is fixed for [id], or free and empty, which it then takes. *)
Fixpoint next_free (k : nat) (i id : Z) (m : Mosaic) : checked (Mosaic * Z) :=
  match k with
  | O => Got (m, NotShown)
  | S k =>
      let? s := rd1 (mo_slots m) i in
      let? p := rd1 (mo_pos m) i in
      if ((0 <? id) && (s =? id)) || ((s =? 0) && (p =? 0)) then
        let? m := if 0 <? id then put_pos i id m else Got m in Got (m, i)
      else next_free k (i + 1) id m
  end.
Definition GetNextFreeSlot (id : Z) (m : Mosaic) : checked (Mosaic * Z) :=
  next_free (Z.to_nat (mo_numSlots m)) 0 id m.

(** [it = participants.find(partId); if (it != end) it->second = GetNextFreeSlot(partId);] *)
Definition move_away (partId : Z) (m : Mosaic) : checked Mosaic :=
  match om_find partId (mo_participants m) with
  | Some _ => let? r := GetNextFreeSlot partId m in Got (put_participant partId r.2 r.1)
  | None => Got m
  end.
Definition hide (partId : Z) (m : Mosaic) : Mosaic :=
  match om_find partId (mo_participants m) with
  | Some _ => put_participant partId NotShown m
  | None => m
  end.

(** A participant is fixed in a slot: its old slot becomes free, also when it is this one. *)
Definition fix_participant (num id : Z) (m : Mosaic) : checked Mosaic :=
  let? partId := rd1 (mo_pos m) num in
  let? m :=
    match om_find id (mo_participants m) with
    | Some pos =>
        let? m :=
          (if in_range pos m then let? m := put_slot pos SlotFree m in put_pos pos 0 m else Got m) in
        put_pos num id (put_participant id num m)
    | None => Got m
    end in
  if negb (id =? partId) then move_away partId m else Got m.

(** The branch for the VAD slot looks for another mark than the one just set, so it does nothing. *)
Definition mosaic_SetSlot (num id blockedUntil : Z) (m : Mosaic) : checked (Mosaic * Z) :=
  if (mo_numSlots m - 1 <? num) || (num <? 0) then Got (m, 0)
  else
    let? old := rd1 (mo_slots m) num in
    let m := if (old =? SlotVAD) && negb (id =? SlotVAD) then set_vad 0 m else m in
    let? m := if negb (id =? SlotReset) then put_slot num id m else Got m in
    let? m :=
      if 0 <? id then fix_participant num id m
      else
        let? partId := rd1 (mo_pos m) num in
        let? slot := rd1 (mo_slots m) num in
        if id =? SlotFree then put_pos num 0 (hide partId m)
        else if id =? SlotLocked then let? m := move_away partId m in put_pos num 0 m
        else if id =? SlotVAD then
          if negb (slot =? SlotVAD) then let? m := move_away partId m in put_pos num 0 m else Got m
        else if id =? SlotReset then
          if slot =? SlotFree then put_pos num 0 (hide partId m) else Got m
        else Got m in
    let? m := put_blocking num blockedUntil m in
    Got (m, 1).

(** [SetSlots(slots, num)] *)
Definition mosaic_SetSlots (slots : option (list Z)) (m : Mosaic) : Mosaic :=
  let zeros := replicate (Z.to_nat (mo_numSlots m)) 0 in
  match slots with
  | None => set_slots zeros m
  | Some l =>
      set_slots (if Zlen l <? mo_numSlots m then l ++ drop (length l) zeros else ztake (mo_numSlots m) l) m
  end.

(** ** Participants *)

Definition mosaic_AddParticipant (id : Z) (m : Mosaic) : checked (Mosaic * Z) :=
  match om_find id (mo_participants m) with
  | Some pos => Got (m, pos)
  | None =>
      let? r := GetNextFreeSlot id m in
      Got (set_partVad (om_set id (mkPartInfo 0 false false)) (put_participant id r.2 r.1), r.2)
  end.

Definition UpdateParticipantInfo (id vadLevel : Z) (m : Mosaic) : checked (Mosaic * Z) :=
  let pos := mosaic_GetPosition id m in
  if pos =? NotFound then Got (m, NotFound)
  else
    match om_find id (mo_partVad m) with
    | None => Got (m, NotFound)
    | Some _ =>
        let? free :=
          if (vadLevel =? 0) && (0 <? pos) then let? s := rd1 (mo_slots m) pos in Got (s =? SlotFree)
          else Got false in
        let kickable := free && negb (id =? mo_vadParticipant m) in
        let eligible := (0 <? vadLevel) && (pos =? NotShown) && negb (id =? mo_vadParticipant m) in
        Got (set_partVad (om_set id (mkPartInfo vadLevel kickable eligible)) m,
             if eligible || kickable then 1 else 0)
    end.

Definition SetVADParticipant (id blockedUntil : Z) (m : Mosaic) : checked (Mosaic * Z) :=
  let m := set_vad id m in
  let? pos := GetVADPosition m in
  let? m :=
    if in_range pos m then let? m := put_blocking pos blockedUntil m in put_pos pos id m else Got m in
  Got (set_partVad (om_alter (λ i, mkPartInfo (pi_vadLevel i) false false) id) m, pos).

(** ** CalculatePositions *)

(** Pass 1: the participants that may be replaced, with their slots. *)
Definition kickables (m : Mosaic) : list (Z * Z) :=
  omap (λ '(id, info),
    match om_find id (mo_participants m) with
    | Some pos => if pi_kickable info && in_range pos m then Some (id, pos) else None
    | None => None
    end) (mo_partVad m).

(** Somebody who speaks and is not shown: a free slot, or that of the next one who may be replaced. *)
Definition elect (id : Z) (kicks : list (Z * Z)) (m : Mosaic) : checked (Mosaic * list (Z * Z)) :=
  let? r := GetNextFreeSlot id m in
  let '(m, newslot) := r in
  if newslot =? NotShown then
    match kicks with
    | [] => Got (m, [])
    | (kicked, slot) :: kicks =>
        let? m := if 0 <=? slot then put_pos slot id m else Got m in
        Got (put_participant id slot (put_participant kicked NotShown m), kicks)
    end
  else Got (put_participant id newslot m, kicks).

Definition reassign (id : Z) (m : Mosaic) : checked Mosaic :=
  let? r := GetNextFreeSlot id m in Got (put_participant id r.2 r.1).

(** Anybody else but the VAD participant. *)
Definition settle_participant (id oldslot vadPos : Z) (m : Mosaic) : checked Mosaic :=
  if (oldslot =? NotShown) || (oldslot =? vadPos) then reassign id m
  else if 0 <=? oldslot then
    let? s := rd1 (mo_slots m) oldslot in
    if s =? SlotFree then
      let? p := rd1 (mo_pos m) oldslot in
      if negb (p =? id) then reassign id m
      else
        let? r := GetNextFreeSlot 0 m in
        let '(m, newslot) := r in
        if (0 <=? newslot) && (newslot <? oldslot) then
          let? m := put_pos newslot id m in
          let? m := put_pos oldslot 0 m in
          Got (put_participant id newslot m)
        else Got m
    else Got m
  else Got m.

(** Pass 2, on the participants in their order. *)
Fixpoint reshuffle (ids : list Z) (vadPos : Z) (kicks : list (Z * Z)) (m : Mosaic) : checked Mosaic :=
  match ids with
  | [] => Got m
  | id :: ids =>
      let eligible := from_option pi_eligible false (om_find id (mo_partVad m)) in
      if eligible then
        let? r := elect id kicks m in reshuffle ids vadPos r.2 r.1
      else if negb (id =? mo_vadParticipant m) then
        let? m := settle_participant id (default NotFound (om_find id (mo_participants m))) vadPos m in
        reshuffle ids vadPos kicks m
      else reshuffle ids vadPos kicks m
  end.

(** Pass 3: a free slot that shows somebody whose position is another is emptied. *)
Fixpoint check_slots (k : nat) (i : Z) (m : Mosaic) : checked Mosaic :=
  match k with
  | O => Got m
  | S k =>
      let? s := rd1 (mo_slots m) i in
      let? m :=
        (if s =? SlotFree then
           let? p := rd1 (mo_pos m) i in
           if 0 <? p then
             if bool_decide (om_find p (mo_participants m) = Some i) then Got m else put_pos i 0 m
           else Got m
         else Got m) in
      check_slots k (i + 1) m
  end.

Definition CalculatePositions (m : Mosaic) : checked Mosaic :=
  let? vadPos := GetVADPosition m in
  let? m := reshuffle (mo_participants m).*1 vadPos (kickables m) m in
  check_slots (Z.to_nat (mo_numSlots m)) 0 m.

Definition mosaic_RemoveParticipant (id : Z) (m : Mosaic) : checked (Mosaic * Z) :=
  match om_find id (mo_participants m) with
  | None => Got (m, NotFound)
  | Some pos =>
      let m := set_participants (om_erase id) m in
      let? m :=
        if in_range pos m then
          let? s := rd1 (mo_slots m) pos in
          let? m := if s =? id then put_slot pos SlotLocked m else Got m in
          let? m := put_pos pos 0 m in
          let? m := put_blocking pos 0 m in
          Got (mosaic_Clean pos m)
        else Got m in
      let? m := CalculatePositions (set_partVad (om_erase id) m) in
      Got (m, pos)
  end.
