(* ===== verification/MosaicLaws.v ===== *)
(** * Mosaics: the arrays and the positions stay in range

    What every operation on a mosaic keeps ([mosaic_ok]): arrays of [numSlots] elements, positions
    that are slots or [NotShown], the same participants in both maps.  In such a state no operation
    accesses an array out of its bounds. *)

From S2P Require Import Prelude OrderedMap Octets Mosaic.

(** ** Computations that return *)

Definition yields {A} (c : checked A) (Q : A → Prop) : Prop :=
  match c with Got a => Q a | _ => False end.

Lemma yields_bind {A B} (P : A → Prop) (Q : B → Prop) c k :
  yields c P → (∀ a, P a → yields (k a) Q) → yields (let? x := c in k x) Q.
Proof. destruct c; simpl; auto. Qed.

Lemma yields_impl {A} (P Q : A → Prop) c : yields c P → (∀ a, P a → Q a) → yields c Q.
Proof. destruct c; simpl; auto. Qed.

Lemma yields_got {A} (c : checked A) Q : yields c Q ↔ ∃ a, c = Got a ∧ Q a.
Proof.
  split; [destruct c as [| |a]; simpl; try done; intros; by exists a|]. by intros (a & -> & H).
Qed.

(** ** Views *)

Definition slot (m : Mosaic) (i : Z) : Z := zget i (mo_slots m).
Definition occupant (m : Mosaic) (i : Z) : Z := zget i (mo_pos m).
Definition place (m : Mosaic) (id : Z) : option Z := om_find id (mo_participants m).
Definition is_slot (m : Mosaic) (i : Z) : Prop := 0 <= i < mo_numSlots m.

Record mosaic_ok (m : Mosaic) : Prop := {
  ok_num : mo_numSlots m = GetNumSlotsForType (mo_type m);
  ok_slots : Zlen (mo_slots m) = mo_numSlots m;
  ok_pos : Zlen (mo_pos m) = mo_numSlots m;
  ok_blocking : Zlen (mo_blocking m) = mo_numSlots m;
  ok_frames : Zlen (mo_frames m) = mo_numSlots m;
  ok_participants : om_sorted (mo_participants m);
  ok_partVad : om_sorted (mo_partVad m);
  ok_both : ∀ id, is_Some (place m id) ↔ is_Some (om_find id (mo_partVad m));
  ok_place : ∀ id p, place m id = Some p → p = NotShown ∨ is_slot m p;
}.

(** What the reshuffling leaves alone: everything but [mosaicPos] and the positions. *)
Record same_shape (m m' : Mosaic) : Prop := {
  same_type : mo_type m' = mo_type m;
  same_num : mo_numSlots m' = mo_numSlots m;
  same_slots : mo_slots m' = mo_slots m;
  same_partVad : mo_partVad m' = mo_partVad m;
  same_blocking : mo_blocking m' = mo_blocking m;
  same_vad : mo_vadParticipant m' = mo_vadParticipant m;
  same_frames : mo_frames m' = mo_frames m;
  same_keepAspect : mo_keepAspect m' = mo_keepAspect m;
  same_ids : ∀ id, is_Some (place m' id) ↔ is_Some (place m id);
}.

#[global] Instance same_shape_refl : Reflexive same_shape.
Proof. by intros m. Qed.
#[global] Instance same_shape_trans : Transitive same_shape.
Proof. intros a b c [] []. split; try congruence. intros id. by rewrite same_ids1. Qed.

Lemma same_shape_slot m m' i : same_shape m m' → slot m' i = slot m i.
Proof. intros H. unfold slot. by rewrite (same_slots _ _ H). Qed.

Lemma same_shape_is_slot m m' i : same_shape m m' → is_slot m' i ↔ is_slot m i.
Proof. intros H. unfold is_slot. by rewrite (same_num _ _ H). Qed.

Lemma in_range_spec p m : in_range p m = true ↔ is_slot m p.
Proof. unfold in_range, is_slot. rewrite andb_true_iff, Z.leb_le, Z.ltb_lt. done. Qed.

Lemma is_slot_dec m p : is_slot m p ∨ ¬ is_slot m p.
Proof. unfold is_slot. lia. Qed.

Lemma new_mosaic_ok type : mosaic_ok (new_mosaic type).
Proof.
  assert (0 <= GetNumSlotsForType type) by (by destruct type).
  split; simpl; rewrite ?Zlen_replicate; try done; try lia; try apply om_sorted_nil.
  all: unfold place; simpl; naive_solver.
Qed.

(** ** Updates of an array *)

Lemma wr1_in l i v : 0 <= i < Zlen l → wr1 l i v = Got (<[Z.to_nat i := v]> l).
Proof. intros. unfold wr1. by rewrite within_true by lia. Qed.

Lemma zget_insert_eq l i v : 0 <= i < Zlen l → zget i (<[Z.to_nat i := v]> l) = v.
Proof. unfold Zlen, zget. intros. rewrite list_lookup_insert_eq by lia. done. Qed.

Lemma zget_insert_ne l i j v : 0 <= i → 0 <= j → i ≠ j → zget j (<[Z.to_nat i := v]> l) = zget j l.
Proof. unfold zget. intros. rewrite list_lookup_insert_ne by lia. done. Qed.

Section In_range.
Context (m : Mosaic) (Hm : mosaic_ok m) (i : Z) (Hi : is_slot m i).

Lemma rd_slot : rd1 (mo_slots m) i = Got (slot m i).
Proof. apply rd1_in. rewrite ok_slots by done. done. Qed.
Lemma rd_pos : rd1 (mo_pos m) i = Got (occupant m i).
Proof. apply rd1_in. rewrite ok_pos by done. done. Qed.
Lemma put_slot_in v : put_slot i v m = Got (set_slots (<[Z.to_nat i := v]> (mo_slots m)) m).
Proof. unfold put_slot. by rewrite wr1_in by (rewrite ok_slots by done; done). Qed.
Lemma put_pos_in v : put_pos i v m = Got (set_pos (<[Z.to_nat i := v]> (mo_pos m)) m).
Proof. unfold put_pos. by rewrite wr1_in by (rewrite ok_pos by done; done). Qed.
Lemma put_blocking_in v : put_blocking i v m = Got (set_blocking (<[Z.to_nat i := v]> (mo_blocking m)) m).
Proof. unfold put_blocking. by rewrite wr1_in by (rewrite ok_blocking by done; done). Qed.

Lemma occupant_put v j :
  is_slot m j → occupant (set_pos (<[Z.to_nat i := v]> (mo_pos m)) m) j = if decide (j = i) then v else occupant m j.
Proof.
  intros Hj. unfold occupant. simpl. pose proof (ok_pos m Hm). unfold is_slot in *. case_decide; subst.
  - apply zget_insert_eq. lia.
  - apply zget_insert_ne; lia.
Qed.
End In_range.

(** ** The setters keep the invariant *)

Lemma ok_set_pos m l : mosaic_ok m → Zlen l = mo_numSlots m → mosaic_ok (set_pos l m).
Proof. intros [] Hl. by split. Qed.
Lemma ok_set_slots m l : mosaic_ok m → Zlen l = mo_numSlots m → mosaic_ok (set_slots l m).
Proof. intros [] Hl. by split. Qed.
Lemma ok_set_blocking m l : mosaic_ok m → Zlen l = mo_numSlots m → mosaic_ok (set_blocking l m).
Proof. intros [] Hl. by split. Qed.
Lemma ok_set_frames m l : mosaic_ok m → Zlen l = mo_numSlots m → mosaic_ok (set_frames l m).
Proof. intros [] Hl. by split. Qed.
Lemma ok_set_vad m id : mosaic_ok m → mosaic_ok (set_vad id m).
Proof. intros []. by split. Qed.
Lemma ok_keep m b : mosaic_ok m → mosaic_ok (KeepAspectRatio b m).
Proof. intros []. by split. Qed.

Lemma place_put_participant m id p id' :
  place (put_participant id p m) id' = if decide (id' = id) then Some p else place m id'.
Proof.
  unfold place, put_participant. simpl. case_decide; subst; [apply om_find_set_eq|by apply om_find_set_ne].
Qed.

Lemma ok_put_participant m id p :
  mosaic_ok m → is_Some (place m id) → p = NotShown ∨ is_slot m p → mosaic_ok (put_participant id p m).
Proof.
  intros [] Hid Hp. split; try done.
  - by apply om_set_sorted.
  - intros id'. rewrite place_put_participant. case_decide; subst; [|apply ok_both0].
    rewrite <- ok_both0. by split.
  - intros id' p'. rewrite place_put_participant. case_decide; [by intros [= <-]|apply ok_place0].
Qed.

Lemma ok_put_pos m i v : mosaic_ok m → mosaic_ok (set_pos (<[Z.to_nat i := v]> (mo_pos m)) m).
Proof. intros Hm. apply ok_set_pos; [done|]. rewrite Zlen_insert. by apply ok_pos. Qed.
Lemma ok_put_slot m i v : mosaic_ok m → mosaic_ok (set_slots (<[Z.to_nat i := v]> (mo_slots m)) m).
Proof. intros Hm. apply ok_set_slots; [done|]. rewrite Zlen_insert. by apply ok_slots. Qed.
Lemma ok_put_blocking m i v : mosaic_ok m → mosaic_ok (set_blocking (<[Z.to_nat i := v]> (mo_blocking m)) m).
Proof. intros Hm. apply ok_set_blocking; [done|]. rewrite Zlen_insert. by apply ok_blocking. Qed.

Create HintDb mosaic.
#[export] Hint Resolve ok_set_vad ok_keep ok_put_pos ok_put_slot ok_put_blocking : mosaic.

(** ** Searching the slots *)

(** A slot [GetNextFreeSlot(id)] may return. *)
Definition suitable (id : Z) (m : Mosaic) (i : Z) : Prop :=
  is_slot m i ∧ (0 < id ∧ slot m i = id ∨ slot m i = SlotFree ∧ occupant m i = 0).

(** [mosaicPos\[i\] = id], for a participant *)
Definition occupy (id i : Z) (m : Mosaic) : Mosaic :=
  if 0 <? id then set_pos (<[Z.to_nat i := id]> (mo_pos m)) m else m.

Definition free_slot_found (id : Z) (m : Mosaic) (r : Mosaic * Z) : Prop :=
  r = (m, NotShown) ∧ (∀ i, ¬ suitable id m i) ∨ ∃ i, suitable id m i ∧ r = (occupy id i m, i).

Lemma next_free_spec m id k i :
  mosaic_ok m → 0 <= i → i + Z.of_nat k = mo_numSlots m → (∀ j, j < i → ¬ suitable id m j) →
  yields (next_free k i id m) (free_slot_found id m).
Proof.
  intros Hm. revert i. induction k as [|k IH]; intros i Hi Hk Hno; simpl.
  { hnf. left. split; [done|]. intros j Hj. apply (Hno j); [|done]. destruct Hj as [[] _]. lia. }
  assert (His : is_slot m i) by (unfold is_slot; lia).
  rewrite rd_slot, rd_pos by done. simpl.
  destruct (((0 <? id) && (slot m i =? id)) || ((slot m i =? 0) && (occupant m i =? 0))) eqn:Hs.
  - assert (Hsuit : suitable id m i).
    { split; [done|]. apply orb_true_iff in Hs as [Hs|Hs]; ztests; [by left|by right]. }
    unfold free_slot_found, occupy. destruct (0 <? id); [rewrite put_pos_in by done|]; simpl; right; by exists i.
  - apply IH; [lia|lia|]. intros j Hj [Hr Hsuit]. destruct (decide (j = i)) as [->|].
    + apply orb_false_iff in Hs as [Hs1 Hs2].
      destruct Hsuit as [[H1 H2]|[H1 H2]].
      * rewrite (proj2 (Z.ltb_lt 0 id)), (proj2 (Z.eqb_eq _ _)) in Hs1 by done. done.
      * rewrite !(proj2 (Z.eqb_eq _ _)) in Hs2 by done. done.
    + apply (Hno j); [lia|by split].
Qed.

Lemma GetNextFreeSlot_spec m id :
  mosaic_ok m → yields (GetNextFreeSlot id m) (free_slot_found id m).
Proof.
  intros Hm. apply next_free_spec; [done|lia| |].
  - assert (0 <= mo_numSlots m) by (rewrite <- (ok_pos m Hm); apply Zlen_nonneg). lia.
  - intros j Hj [[] _]. lia.
Qed.

Lemma vad_position_spec m k i :
  mosaic_ok m → 0 <= i → i + Z.of_nat k = mo_numSlots m →
  yields (vad_position k i m) (λ p, p = NotFound ∨ is_slot m p ∧ slot m p = SlotVAD).
Proof.
  intros Hm. revert i. induction k as [|k IH]; intros i Hi Hk; simpl; [by left|].
  assert (His : is_slot m i) by (unfold is_slot; lia).
  rewrite rd_slot by done. simpl. destruct (Z.eqb_spec (slot m i) SlotVAD).
  - right. done.
  - apply IH; lia.
Qed.

Lemma GetVADPosition_spec m :
  mosaic_ok m → yields (GetVADPosition m) (λ p, p = NotFound ∨ is_slot m p ∧ slot m p = SlotVAD).
Proof.
  intros Hm. apply vad_position_spec; [done|lia|].
  assert (0 <= mo_numSlots m) by (rewrite <- (ok_pos m Hm); apply Zlen_nonneg). lia.
Qed.

(** ** Moving one participant *)

(** The ways in which one step of [CalculatePositions] changes who is where. *)
Inductive moved (id : Z) (m : Mosaic) : Mosaic → Prop :=
  | moved_stays : moved id m m
  | moved_hidden : (∀ i, ¬ suitable id m i) → moved id m (put_participant id NotShown m)
  | moved_placed i : suitable id m i → moved id m (put_participant id i (occupy id i m))
  | moved_compacted old new :
      place m id = Some old → is_slot m old → slot m old = SlotFree → occupant m old = id →
      is_slot m new → slot m new = SlotFree → occupant m new = 0 → new ≠ old →
      moved id m (put_participant id new
        (set_pos (<[Z.to_nat old := 0]> (<[Z.to_nat new := id]> (mo_pos m))) m)).

Lemma ok_occupy id i m : mosaic_ok m → mosaic_ok (occupy id i m).
Proof. unfold occupy. destruct (0 <? id); auto with mosaic. Qed.

Lemma place_occupy id i m id' : place (occupy id i m) id' = place m id'.
Proof. unfold occupy. by destruct (0 <? id). Qed.

Lemma moved_ok id m m' : mosaic_ok m → is_Some (place m id) → moved id m m' → mosaic_ok m'.
Proof.
  intros Hm Hid [|Hno|i [Hi Hs]|old new Hp Ho Hso Hoo Hn Hsn Hon Hne]; [done|..].
  - apply ok_put_participant; auto.
  - apply ok_put_participant; [by apply ok_occupy|by rewrite place_occupy|].
    right. unfold occupy. by destruct (0 <? id).
  - apply ok_put_participant; [|done|by right].
    apply ok_set_pos; [done|]. rewrite !Zlen_insert. by apply ok_pos.
Qed.

Lemma put_participant_shape m id p : is_Some (place m id) → same_shape m (put_participant id p m).
Proof.
  intros Hid. split; try done. intros id'. rewrite place_put_participant. case_decide; subst; [|done].
  by split.
Qed.

Lemma moved_shape id m m' : is_Some (place m id) → moved id m m' → same_shape m m'.
Proof.
  intros Hid [|Hno|i Hi|old new Hp Ho Hso Hoo Hn Hsn Hon Hne]; [done|..].
  - by apply put_participant_shape.
  - transitivity (occupy id i m).
    + unfold occupy. by destruct (0 <? id).
    + apply put_participant_shape. by rewrite place_occupy.
  - etransitivity; [|by apply put_participant_shape]. done.
Qed.

Lemma reassign_moved id m : mosaic_ok m → yields (reassign id m) (moved id m).
Proof.
  intros Hm. unfold reassign. eapply yields_bind; [by apply GetNextFreeSlot_spec|].
  intros r [[-> Hno]|(i & Hi & ->)]; simpl; by constructor.
Qed.

Lemma move_away_moved id m : mosaic_ok m → yields (move_away id m) (λ m', moved id m m').
Proof.
  intros Hm. unfold move_away. destruct (om_find id (mo_participants m)); [|by constructor].
  by apply reassign_moved.
Qed.

Lemma hide_ok id m : mosaic_ok m → mosaic_ok (hide id m).
Proof.
  intros Hm. unfold hide. destruct (om_find id (mo_participants m)) eqn:E; [|done].
  apply ok_put_participant; [done| |by left]. unfold place. by rewrite E.
Qed.

(** ** The operations *)

Definition kept (m m' : Mosaic) : Prop := mosaic_ok m' ∧ mo_type m' = mo_type m.

Lemma kept_is_slot m m' i : mosaic_ok m → kept m m' → is_slot m i → is_slot m' i.
Proof. intros Hm [Hm' Ht]. unfold is_slot. by rewrite (ok_num _ Hm), (ok_num _ Hm'), Ht. Qed.

Lemma kept_trans m m1 m2 : kept m m1 → kept m1 m2 → kept m m2.
Proof. intros [? ?] [? ?]. split; [done|congruence]. Qed.

Lemma kept_refl m : mosaic_ok m → kept m m.
Proof. done. Qed.

Lemma kept_put_participant m id p :
  mosaic_ok m → is_Some (place m id) → p = NotShown ∨ is_slot m p → kept m (put_participant id p m).
Proof. intros. split; [by apply ok_put_participant|done]. Qed.

Lemma put_pos_kept m i v : mosaic_ok m → is_slot m i → yields (put_pos i v m) (kept m).
Proof. intros. rewrite put_pos_in by done. split; [by apply ok_put_pos|done]. Qed.
Lemma put_slot_kept m i v : mosaic_ok m → is_slot m i → yields (put_slot i v m) (kept m).
Proof. intros. rewrite put_slot_in by done. split; [by apply ok_put_slot|done]. Qed.
Lemma put_blocking_kept m i v : mosaic_ok m → is_slot m i → yields (put_blocking i v m) (kept m).
Proof. intros. rewrite put_blocking_in by done. split; [by apply ok_put_blocking|done]. Qed.

Lemma moved_kept id m m' : mosaic_ok m → is_Some (place m id) → moved id m m' → kept m m'.
Proof. intros Hm Hid H. split; [by eapply moved_ok|]. eapply same_type. by eapply moved_shape. Qed.

Lemma move_away_kept m id : mosaic_ok m → yields (move_away id m) (kept m).
Proof.
  intros Hm. unfold move_away. destruct (om_find id (mo_participants m)) as [p|] eqn:E; [|done].
  change (yields (reassign id m) (kept m)). eapply yields_impl; [by apply reassign_moved|].
  intros m' H. eapply moved_kept; [done| |done]. by exists p.
Qed.

Lemma hide_kept m id : mosaic_ok m → kept m (hide id m).
Proof.
  intros Hm. unfold hide. destruct (om_find id (mo_participants m)) as [p|] eqn:E; [|done].
  apply kept_put_participant; [done|by exists p|by left].
Qed.

(** [let? m' := c in k m'], each part keeping the invariant. *)
Lemma yields_kept {B} m c k (Q : B → Prop) :
  yields c (kept m) → (∀ m', kept m m' → yields (k m') Q) → yields (let? m' := c in k m') Q.
Proof. apply yields_bind. Qed.

Lemma yields_kept_then m c k :
  yields c (kept m) → (∀ m', kept m m' → yields (k m') (kept m')) → yields (let? m' := c in k m') (kept m).
Proof.
  intros Hc Hk. eapply yields_bind; [exact Hc|]. intros m1 H1. eapply yields_impl; [by apply Hk|].
  intros m2 H2. by eapply kept_trans.
Qed.

#[export] Hint Resolve put_pos_kept put_slot_kept put_blocking_kept move_away_kept hide_kept kept_refl : mosaic.

Lemma kept_slot_then m m' i : mosaic_ok m → kept m m' → is_slot m i → mosaic_ok m' ∧ is_slot m' i.
Proof. intros Hm Hk Hi. split; [apply Hk|by eapply kept_is_slot]. Qed.

(** The old slot of the participant becomes free. *)
Lemma release_kept m p :
  mosaic_ok m →
  yields (if in_range p m then let? m := put_slot p SlotFree m in put_pos p 0 m else Got m)
    (λ m', kept m m' ∧ mo_participants m' = mo_participants m).
Proof.
  intros Hm. destruct (in_range p m) eqn:Hr; [|done]. apply in_range_spec in Hr.
  rewrite put_slot_in by done. simpl. rewrite put_pos_in by (auto with mosaic).
  split; [split; [auto with mosaic|done]|done].
Qed.

Lemma fix_participant_kept m num id :
  mosaic_ok m → is_slot m num → yields (fix_participant num id m) (kept m).
Proof.
  intros Hm Hn. unfold fix_participant. rewrite rd_pos by done. simpl. apply yields_kept_then.
  - destruct (om_find id (mo_participants m)) as [p|] eqn:Hp; [|by apply kept_refl].
    eapply yields_bind; [by apply release_kept|]. intros m1 [H1 Hpart].
    destruct (kept_slot_then m m1 num) as [Hm1 Hn1]; [done..|].
    assert (Hid : is_Some (place m1 id)) by (exists p; unfold place; by rewrite Hpart).
    eapply yields_impl; [apply put_pos_kept; [by apply ok_put_participant; auto|done]|].
    intros m2 H2. eapply kept_trans; [exact H1|]. eapply kept_trans; [|exact H2].
    by apply kept_put_participant; auto.
  - intros m1 [Hm1 _]. destruct (negb (id =? occupant m num)); auto with mosaic. by apply kept_refl.
Qed.

Lemma then_clear_kept m num c :
  mosaic_ok m → is_slot m num → yields c (kept m) → yields (let? m := c in put_pos num 0 m) (kept m).
Proof.
  intros Hm Hn Hc. apply yields_kept_then; [done|]. intros m1 H1.
  destruct (kept_slot_then m m1 num); auto with mosaic.
Qed.

Lemma mosaic_SetSlot_kept m num id t :
  mosaic_ok m → yields (mosaic_SetSlot num id t m) (λ r, kept m r.1).
Proof.
  intros Hm. unfold mosaic_SetSlot. destruct ((mo_numSlots m - 1 <? num) || (num <? 0)) eqn:Hr; [done|].
  apply orb_false_iff in Hr as [Hr1 Hr2]. ztests. assert (Hn : is_slot m num) by (unfold is_slot; lia).
  rewrite rd_slot by done. simpl.
  set (m1 := if (slot m num =? SlotVAD) && negb (id =? SlotVAD) then set_vad 0 m else m).
  assert (H1 : kept m m1) by (unfold m1; case_goal; split; auto with mosaic).
  destruct (kept_slot_then m m1 num) as [Hm1 Hn1]; [done..|].
  apply (yields_kept m1). { destruct (negb (id =? SlotReset)); [auto with mosaic|by apply kept_refl]. }
  intros m2 H2. destruct (kept_slot_then m1 m2 num) as [Hm2 Hn2]; [done..|].
  apply (yields_kept m2).
  - destruct (0 <? id); [by apply fix_participant_kept|]. rewrite rd_pos, rd_slot by done. simpl.
    assert (Hhide : ∀ q, yields (put_pos num 0 (hide q m2)) (kept m2)).
    { intros q. apply (then_clear_kept m2 num (Got (hide q m2))); auto with mosaic. by apply hide_kept. }
    assert (Haway : ∀ q, yields (let? m := move_away q m2 in put_pos num 0 m) (kept m2)).
    { intros q. apply then_clear_kept; auto with mosaic. }
    repeat case_goal; auto; by apply kept_refl.
  - intros m3 H3. destruct (kept_slot_then m2 m3 num) as [Hm3 Hn3]; [done..|].
    eapply yields_bind; [by apply put_blocking_kept|]. intros m4 H4. simpl.
    eauto using kept_trans.
Qed.

Lemma mosaic_SetSlots_kept m l : mosaic_ok m → kept m (mosaic_SetSlots l m).
Proof.
  intros Hm. assert (0 <= mo_numSlots m) by (rewrite <- (ok_pos m Hm); apply Zlen_nonneg).
  unfold mosaic_SetSlots. destruct l as [l|]; (split; [|done]); apply ok_set_slots; try done.
  - destruct (Z.ltb_spec (Zlen l) (mo_numSlots m)); [|rewrite Zlen_ztake; lia].
    rewrite Zlen_app. unfold Zlen in *. rewrite length_drop, length_replicate. lia.
  - rewrite Zlen_replicate. lia.
Qed.

Lemma mosaic_Clean_kept m i : mosaic_ok m → kept m (mosaic_Clean i m).
Proof.
  intros Hm. split; [|done]. apply ok_set_frames; [done|].
  case_goal; rewrite ?Zlen_insert; by apply ok_frames.
Qed.

Lemma mosaic_Update_kept m i pic : mosaic_ok m → kept m (mosaic_Update i pic m).1.
Proof.
  intros Hm. unfold mosaic_Update. destruct pic as [pic|]; [|done]. split; [|done]. apply ok_set_frames; [done|].
  case_goal; rewrite ?Zlen_insert; by apply ok_frames.
Qed.

Lemma mosaic_AddParticipant_kept m id : mosaic_ok m → yields (mosaic_AddParticipant id m) (λ r, kept m r.1).
Proof.
  intros Hm. unfold mosaic_AddParticipant. destruct (om_find id (mo_participants m)) eqn:E; [done|].
  eapply yields_bind; [by apply GetNextFreeSlot_spec|]. intros r Hr. simpl.
  assert (H1 : mosaic_ok r.1 ∧ mo_type r.1 = mo_type m ∧ (r.2 = NotShown ∨ is_slot r.1 r.2)).
  { destruct Hr as [[-> _]|(i & [Hi _] & ->)]; simpl; [by split_and!; auto|].
    split_and!; [by apply ok_occupy|..]; unfold occupy; destruct (0 <? id); auto. }
  destruct H1 as ([] & Ht & Hp). split; [|done]. split; try done; simpl.
  - by apply om_set_sorted.
  - by apply om_set_sorted.
  - intros id'. unfold place. simpl. destruct (decide (id' = id)) as [->|].
    + by rewrite !om_find_set_eq.
    + rewrite !om_find_set_ne by done. apply ok_both0.
  - intros id' p. unfold place. simpl. destruct (decide (id' = id)) as [->|].
    + rewrite om_find_set_eq. by intros [= <-].
    + rewrite om_find_set_ne by done. apply ok_place0.
Qed.

(** A change of the VAD information of participants that are there. *)
Lemma set_partVad_kept m f :
  mosaic_ok m → om_sorted (f (mo_partVad m)) →
  (∀ id, is_Some (om_find id (f (mo_partVad m))) ↔ is_Some (om_find id (mo_partVad m))) →
  kept m (set_partVad f m).
Proof.
  intros [] Hs Hk. split; [|done]. split; try done. intros id. simpl. rewrite Hk. apply ok_both0.
Qed.

Lemma UpdateParticipantInfo_kept m id level :
  mosaic_ok m → yields (UpdateParticipantInfo id level m) (λ r, kept m r.1).
Proof.
  intros Hm. unfold UpdateParticipantInfo, mosaic_GetPosition.
  destruct (om_find id (mo_participants m)) as [p|] eqn:Hp; [|done]. simpl.
  destruct (p =? NotFound); [done|]. destruct (om_find id (mo_partVad m)) eqn:Hi; [|done].
  apply (yields_bind (λ _, True)).
  - destruct ((level =? 0) && (0 <? p)) eqn:Hl; [|done]. ztests.
    destruct (ok_place m Hm id p Hp) as [->|Hs]; [done|]. by rewrite rd_slot.
  - intros free _. simpl. apply set_partVad_kept; [done|by apply om_set_sorted; apply ok_partVad|].
    intros id'. destruct (decide (id' = id)) as [->|].
    + rewrite om_find_set_eq, Hi. by split.
    + by rewrite om_find_set_ne.
Qed.

Lemma SetVADParticipant_kept m id t : mosaic_ok m → yields (SetVADParticipant id t m) (λ r, kept m r.1).
Proof.
  intros Hm. unfold SetVADParticipant. set (m1 := set_vad id m).
  assert (H1 : kept m m1) by (unfold m1; split; auto with mosaic). destruct H1 as [Hm1 Ht1].
  eapply yields_bind; [by apply GetVADPosition_spec|]. intros p _. simpl.
  apply (yields_kept m1).
  - destruct (in_range p m1) eqn:Hr; [|by apply kept_refl]. apply in_range_spec in Hr.
    apply yields_kept_then; [by apply put_blocking_kept|]. intros m2 H2.
    destruct (kept_slot_then m1 m2 p); auto with mosaic.
  - intros m2 H2. simpl. eapply (kept_trans m m1); [done|]. eapply kept_trans; [exact H2|].
    destruct H2 as [Hm2 _]. apply set_partVad_kept; [done|by apply om_alter_sorted, ok_partVad|].
    intros id'. destruct (decide (id' = id)) as [->|].
    + rewrite om_find_alter_eq. destruct (om_find id (mo_partVad m2)); simpl; naive_solver.
    + by rewrite om_find_alter_ne.
Qed.

(** ** CalculatePositions *)

(** One step of the reshuffling; the participant replaced, if any, is not shown any more. *)
Lemma settle_moved m id vadPos :
  mosaic_ok m → is_Some (place m id) →
  yields (settle_participant id (default NotFound (place m id)) vadPos m) (moved id m).
Proof.
  intros Hm [p Hp]. rewrite Hp. simpl. unfold settle_participant.
  destruct ((p =? NotShown) || (p =? vadPos)) eqn:Hv; [by apply reassign_moved|].
  apply orb_false_iff in Hv as [Hv1 _]. ztests.
  destruct (ok_place m Hm id p Hp) as [->|Hs]; [done|].
  rewrite (proj2 (Z.leb_le 0 p)) by apply Hs. rewrite rd_slot by done. simpl.
  destruct (Z.eqb_spec (slot m p) SlotFree) as [Hf|]; [|by constructor].
  rewrite rd_pos by done. simpl.
  destruct (Z.eqb_spec (occupant m p) id) as [Ho|]; [|by apply reassign_moved]. simpl.
  eapply yields_bind; [by apply (GetNextFreeSlot_spec m 0)|].
  intros r [[-> _]|(i & [Hi Hsuit] & ->)]; simpl; [by constructor|].
  change (occupy 0 i m) with m. destruct ((0 <=? i) && (i <? p)) eqn:Hlt; [|by constructor]. ztests.
  destruct Hsuit as [[? _]|[Hfi Hoi]]; [lia|].
  rewrite put_pos_in by done. simpl. rewrite put_pos_in by (auto with mosaic). simpl.
  apply (moved_compacted id m p i); [done..|lia].
Qed.

(** What [elect] does: a free slot, the slot of the next kickable one, or nothing. *)
Lemma elect_kept m id kicks :
  mosaic_ok m → is_Some (place m id) →
  Forall (λ k, is_Some (place m k.1) ∧ is_slot m k.2) kicks →
  yields (elect id kicks m) (λ r, kept m r.1 ∧ same_shape m r.1 ∧ ∃ n, r.2 = drop n kicks).
Proof.
  intros Hm Hid Hk. unfold elect. eapply yields_bind; [by apply GetNextFreeSlot_spec|].
  intros r [[-> Hno]|(i & Hi & ->)]; simpl.
  - destruct kicks as [|[kicked s] kicks]; [by split_and!; [..|exists 0%nat]|].
    apply Forall_cons in Hk as [[Hkid Hks] _]. simpl in *.
    rewrite (proj2 (Z.leb_le 0 s)) by apply Hks. rewrite put_pos_in by done. simpl.
    set (m1 := set_pos _ m).
    assert (H1 : kept m m1 ∧ same_shape m m1) by (split; [split; [by apply ok_put_pos|done]|done]).
    assert (H2 : kept m1 (put_participant kicked NotShown m1)) by (apply kept_put_participant; [apply H1|done|by left]).
    assert (Hid2 : is_Some (place (put_participant kicked NotShown m1) id)).
    { rewrite place_put_participant. case_decide; [done|exact Hid]. }
    split_and!; [..|by exists 1%nat].
    + eapply kept_trans; [apply H1|]. eapply kept_trans; [exact H2|].
      apply kept_put_participant; [apply H2|done|by right].
    + transitivity m1; [apply H1|]. transitivity (put_participant kicked NotShown m1); by apply put_participant_shape.
  - assert (i =? NotShown = false) as -> by (apply Z.eqb_neq; destruct Hi as [[] _]; unfold NotShown; lia).
    simpl. assert (Hmv : moved id m (put_participant id i (occupy id i m))) by by constructor.
    split_and!; [by eapply moved_kept|by eapply moved_shape|by exists 0%nat].
Qed.

Lemma reshuffle_kept ids vadPos kicks m :
  mosaic_ok m → Forall (λ id, is_Some (place m id)) ids →
  Forall (λ k, is_Some (place m k.1) ∧ is_slot m k.2) kicks →
  yields (reshuffle ids vadPos kicks m) (λ m', kept m m' ∧ same_shape m m').
Proof.
  intros Hm Hids. revert kicks m Hm Hids.
  induction ids as [|id ids IH]; intros kicks m Hm Hids Hk; simpl; [done|].
  apply Forall_cons in Hids as [Hid Hids].
  assert (Hnext : ∀ kicks' m', kept m m' → same_shape m m' → (∃ n, kicks' = drop n kicks) →
    yields (reshuffle ids vadPos kicks' m') (λ m'', kept m m'' ∧ same_shape m m'')).
  { intros kicks' m' Hk' Hs' [n ->]. eapply yields_impl.
    - apply IH; [apply Hk'|..].
      + eapply Forall_impl; [exact Hids|]. intros x. apply Hs'.
      + apply Forall_drop. eapply Forall_impl; [exact Hk|]. intros x [Hx1 Hx2].
        split; [by apply Hs'|by apply (same_shape_is_slot m m')].
    - intros m'' [? ?]. split; [by eapply kept_trans|by etransitivity]. }
  destruct (from_option pi_eligible false (om_find id (mo_partVad m))).
  - eapply yields_bind; [by apply elect_kept|]. intros [m1 k1] (H1 & H2 & H3). by apply Hnext.
  - destruct (negb (id =? mo_vadParticipant m)).
    + eapply yields_bind; [by apply settle_moved|]. intros m1 H1.
      apply Hnext; [by eapply moved_kept|by eapply moved_shape|by exists 0%nat].
    + apply Hnext; [done..|by exists 0%nat].
Qed.

(** What pass 3 leaves in a slot. *)
Definition checked_slot (m : Mosaic) (i : Z) : Z :=
  if (slot m i =? SlotFree) && (0 <? occupant m i) && negb (bool_decide (place m (occupant m i) = Some i))
  then 0 else occupant m i.

Lemma check_one m i :
  mosaic_ok m → is_slot m i →
  yields (if slot m i =? SlotFree then
            let? p := rd1 (mo_pos m) i in
            if 0 <? p then
              if bool_decide (om_find p (mo_participants m) = Some i) then Got m else put_pos i 0 m
            else Got m
          else Got m)
    (λ m', ∃ l, Zlen l = mo_numSlots m ∧ m' = set_pos l m ∧
      ∀ j, is_slot m j → occupant m' j = if decide (j = i) then checked_slot m j else occupant m j).
Proof.
  intros Hm Hi.
  assert (Hsame : checked_slot m i = occupant m i → yields (Got m)
    (λ m', ∃ l, Zlen l = mo_numSlots m ∧ m' = set_pos l m ∧
      ∀ j, is_slot m j → occupant m' j = if decide (j = i) then checked_slot m j else occupant m j)).
  { intros Hc. exists (mo_pos m). split_and!; [by apply ok_pos|by destruct m|].
    intros j _. case_decide; [by subst|done]. }
  unfold checked_slot in Hsame.
  destruct (slot m i =? SlotFree) eqn:Hs; [|by apply Hsame]. rewrite rd_pos by done. simpl.
  destruct (0 <? occupant m i) eqn:Ho; [|by apply Hsame]. simpl in Hsame.
  fold (place m (occupant m i)). destruct (bool_decide (place m (occupant m i) = Some i)) eqn:Hb; [by apply Hsame|].
  rewrite put_pos_in by done. simpl. eexists. split_and!; [|done|].
  - rewrite Zlen_insert. by apply ok_pos.
  - intros j Hj. rewrite occupant_put by done. unfold checked_slot.
    destruct (decide (j = i)) as [->|]; [by rewrite Hs, Ho, Hb|done].
Qed.

Lemma check_slots_spec k i m :
  mosaic_ok m → 0 <= i → i + Z.of_nat k = mo_numSlots m →
  yields (check_slots k i m) (λ m', ∃ l, Zlen l = mo_numSlots m ∧ m' = set_pos l m ∧
    ∀ j, is_slot m j → occupant m' j = if decide (i <= j) then checked_slot m j else occupant m j).
Proof.
  revert i m. induction k as [|k IH]; intros i m Hm Hi Hk; cbn [check_slots].
  { exists (mo_pos m). split_and!; [by apply ok_pos|by destruct m|].
    intros j [? ?]. rewrite decide_False by lia. done. }
  assert (Hs : is_slot m i) by (unfold is_slot; lia). rewrite rd_slot by done. simpl.
  eapply yields_bind; [by apply check_one|]. intros m1 (l1 & Hl1 & -> & H1). simpl.
  assert (Hm1 : mosaic_ok (set_pos l1 m)) by (by apply ok_set_pos).
  eapply yields_impl; [apply IH; [done|lia|simpl; lia]|]. intros m2 (l2 & Hl2 & -> & H2).
  exists l2. split_and!; [done..|]. intros j Hj. rewrite H2 by done. rewrite (H1 j) by done.
  destruct (decide (j = i)) as [->|Hne].
  - rewrite decide_False, decide_True by lia. done.
  - destruct (decide (i <= j)); [rewrite decide_True by lia|by rewrite decide_False by lia].
    unfold checked_slot. rewrite (H1 j), decide_False by done. done.
Qed.

Lemma kickables_ok m : mosaic_ok m → Forall (λ k, is_Some (place m k.1) ∧ is_slot m k.2) (kickables m).
Proof.
  intros Hm. apply Forall_forall. intros [id p] Hk. unfold kickables in Hk.
  apply list_elem_of_omap in Hk as ([id' info] & _ & Hk).
  destruct (om_find id' (mo_participants m)) as [p'|] eqn:Hp; [|done].
  destruct (pi_kickable info && in_range p' m) eqn:Hr; [|done]. simplify_eq. ztests.
  split; [by exists p|by apply in_range_spec].
Qed.

Lemma participants_placed m : mosaic_ok m → Forall (λ id, is_Some (place m id)) (mo_participants m).*1.
Proof.
  intros Hm. apply Forall_forall. intros id ([id' p] & -> & Hin)%list_elem_of_fmap.
  exists p. apply om_elem_find; [by apply ok_participants|done].
Qed.

(** The three passes: [mid] is the mosaic after the second. *)
Lemma CalculatePositions_spec m :
  mosaic_ok m →
  ∃ vadPos mid l,
    (vadPos = NotFound ∨ is_slot m vadPos ∧ slot m vadPos = SlotVAD) ∧
    reshuffle (mo_participants m).*1 vadPos (kickables m) m = Got mid ∧
    kept m mid ∧ same_shape m mid ∧ Zlen l = mo_numSlots m ∧
    CalculatePositions m = Got (set_pos l mid) ∧
    ∀ i, is_slot m i → occupant (set_pos l mid) i = checked_slot mid i.
Proof.
  intros Hm. unfold CalculatePositions.
  destruct (proj1 (yields_got _ _) (GetVADPosition_spec m Hm)) as (vadPos & -> & Hv). simpl.
  pose proof (reshuffle_kept (mo_participants m).*1 vadPos (kickables m) m Hm
    (participants_placed m Hm) (kickables_ok m Hm)) as Hr.
  apply yields_got in Hr as (mid & Hr & [Hmid Ht] & Hs). rewrite Hr. simpl.
  assert (0 <= mo_numSlots mid) by (rewrite <- (ok_pos mid Hmid); apply Zlen_nonneg).
  pose proof (check_slots_spec (Z.to_nat (mo_numSlots mid)) 0 mid Hmid (Z.le_refl 0) ltac:(lia)) as Hc.
  apply yields_got in Hc as (m' & Hc & l & Hl & -> & Ho).
  exists vadPos, mid, l. split_and!; [done..| |done|].
  - by rewrite Hl, (same_num _ _ Hs).
  - intros i Hi. rewrite Ho by (by apply (same_shape_is_slot m mid)).
    rewrite decide_True by apply Hi. done.
Qed.

Lemma CalculatePositions_kept m :
  mosaic_ok m → yields (CalculatePositions m) (λ m', kept m m' ∧ same_shape m m').
Proof.
  intros Hm. destruct (CalculatePositions_spec m Hm) as (v & mid & l & _ & _ & [Hk Ht] & Hs & Hl & -> & _).
  simpl. split; [split; [|done]|].
  - apply ok_set_pos; [done|]. by rewrite (same_num _ _ Hs).
  - transitivity mid; [done|]. done.
Qed.

Lemma mosaic_RemoveParticipant_kept m id : mosaic_ok m → yields (mosaic_RemoveParticipant id m) (λ r, kept m r.1).
Proof.
  intros Hm. unfold mosaic_RemoveParticipant. destruct (om_find id (mo_participants m)) as [p|] eqn:Hp; [|done].
  set (m0 := set_partVad (om_erase id) (set_participants (om_erase id) m)).
  assert (H0 : mosaic_ok m0).
  { destruct Hm. unfold m0. split; try done; simpl; auto using om_erase_sorted.
    - intros id'. unfold place in *. simpl. destruct (decide (id' = id)) as [->|].
      + rewrite !om_find_erase_eq. by split.
      + rewrite !om_find_erase_ne by done. apply ok_both0.
    - intros id' p'. unfold place in *. simpl. destruct (decide (id' = id)) as [->|].
      + by rewrite om_find_erase_eq.
      + rewrite !om_find_erase_ne by done. apply ok_place0. }
  apply (yields_bind (λ m1, kept m0 (set_partVad (om_erase id) m1))).
  - destruct (in_range p (set_participants (om_erase id) m)) eqn:Hr; [|done].
    apply in_range_spec in Hr.
    assert (Hr0 : is_slot m0 p) by done.
    assert (Hrs : rd1 (mo_slots m) p = Got (slot m p)) by (by apply rd_slot).
    simpl. rewrite Hrs. simpl.
    pose proof (ok_pos m Hm). pose proof (ok_slots m Hm). pose proof (ok_blocking m Hm).
    assert (Hend : ∀ l, Zlen l = mo_numSlots m0 →
      yields (let? m2 := put_pos p 0 (set_slots l (set_participants (om_erase id) m)) in
              let? m3 := put_blocking p 0 m2 in Got (mosaic_Clean p m3))
        (λ m1, kept m0 (set_partVad (om_erase id) m1))).
    { intros l Hl. unfold put_pos, put_blocking. unfold is_slot in Hr. simpl in Hr |- *.
      rewrite wr1_in by lia. simpl. rewrite wr1_in by lia. simpl.
      pose proof (ok_set_slots m0 l H0 Hl) as Ha.
      pose proof (ok_put_blocking _ p 0 (ok_put_pos _ p 0 Ha)) as Hb.
      eapply kept_trans; [|exact (mosaic_Clean_kept _ p Hb)]. by split. }
    destruct (slot m p =? id).
    + unfold put_slot. simpl. unfold is_slot in Hr. simpl in Hr. rewrite wr1_in by lia. simpl. apply Hend.
      rewrite Zlen_insert. done.
    + apply (Hend (mo_slots m)). done.
  - intros m1 [Hk Ht]. eapply yields_bind; [by apply CalculatePositions_kept|].
    intros m2 [Hk2 _]. simpl. eapply kept_trans; [|exact Hk2]. by split.
Qed.
