(* ===== verification/MosaicClaims.v ===== *)
(** * Mosaics: what the operations guarantee

    The steps of [CalculatePositions] seen as what they do to [occupant] (who is in a slot) and
    [place] (where a participant is).

    Any sequence of operations on a new mosaic runs without an access out of range
    ([mosaic_stays_inside]); [CalculatePositions] leaves the slots and the positions in agreement
    ([positions_settle]).  Two runs show where the code falls short of that: a fixed participant
    that is set again, and a replaced participant that was moved in the same pass. *)

From S2P Require Import Prelude OrderedMap Octets Mosaic MosaicLaws.

(** Whoever is in a free slot has that position. *)
Definition agree (m : Mosaic) : Prop :=
  ∀ i, is_slot m i → slot m i = SlotFree → 0 < occupant m i → place m (occupant m i) = Some i.

(** A participant whose position is a free slot is in it. *)
Definition settled (m : Mosaic) (id : Z) : Prop :=
  ∀ p, place m id = Some p → is_slot m p → slot m p = SlotFree → occupant m p = id.

(** No free slot is empty. *)
Definition full (m : Mosaic) : Prop := ∀ i, is_slot m i → slot m i = SlotFree → occupant m i ≠ 0.

(** [id] is in no free slot. *)
Definition unseen (m : Mosaic) (id : Z) : Prop := ∀ i, is_slot m i → slot m i = SlotFree → occupant m i ≠ id.

Lemma occupant_occupy m id i j :
  mosaic_ok m → 0 < id → is_slot m i → is_slot m j →
  occupant (occupy id i m) j = if decide (j = i) then id else occupant m j.
Proof. intros. unfold occupy. rewrite (proj2 (Z.ltb_lt 0 id)) by done. by apply occupant_put. Qed.

Lemma occupant_compact m id old new j :
  mosaic_ok m → is_slot m old → is_slot m new → is_slot m j →
  occupant (set_pos (<[Z.to_nat old := 0]> (<[Z.to_nat new := id]> (mo_pos m))) m) j =
  if decide (j = old) then 0 else if decide (j = new) then id else occupant m j.
Proof.
  intros Hm Ho Hn Hj. set (m1 := set_pos (<[Z.to_nat new := id]> (mo_pos m)) m).
  change (occupant (set_pos (<[Z.to_nat old := 0]> (mo_pos m1)) m1) j =
    if decide (j = old) then 0 else if decide (j = new) then id else occupant m j).
  rewrite occupant_put by (unfold m1; auto with mosaic). case_decide; [done|]. by apply occupant_put.
Qed.

Lemma slot_occupy m id i j : slot (occupy id i m) j = slot m j.
Proof. unfold occupy. by destruct (0 <? id). Qed.

Lemma is_slot_occupy m id i j : is_slot (occupy id i m) j ↔ is_slot m j.
Proof. unfold occupy. by destruct (0 <? id). Qed.

Lemma free_not_id id : 0 < id → SlotFree ≠ id.
Proof. unfold SlotFree. lia. Qed.

Section Moved.
Context (m m' : Mosaic) (id : Z) (Hm : mosaic_ok m) (Hid : 0 < id) (Hp : is_Some (place m id)).

(** A step for [id] changes nobody else's position. *)
Lemma moved_place other : moved id m m' → other ≠ id → place m' other = place m other.
Proof.
  intros [|Hno|i Hi|old new ? ? ? ? ? ? ? ?] Hne; [done|..];
    rewrite place_put_participant, decide_False by done; [done|apply place_occupy|done].
Qed.

(** The free slots of a step: it fills empty ones, and empties only a slot of [id]. *)
Lemma moved_occupant i :
  moved id m m' → is_slot m i → slot m i = SlotFree →
  occupant m' i = occupant m i ∨
  occupant m i = 0 ∧ occupant m' i = id ∧ place m' id = Some i ∨
  occupant m i = id ∧ occupant m' i = 0 ∧ ¬ full m.
Proof.
  intros [|Hno|n [Hn Hs]|old new Hpo Ho Hso Hoo Hn Hsn Hon Hne] Hi Hf; [by left|by left|..].
  - change (occupant (put_participant id n (occupy id n m)) i) with (occupant (occupy id n m) i).
    rewrite occupant_occupy by done. case_decide; [subst n|by left]. right. left.
    rewrite place_put_participant, decide_True by done.
    destruct Hs as [[_ Hs]|[_ Hs]]; [|done]. rewrite Hf in Hs. by apply free_not_id in Hs.
  - match goal with |- context [occupant (put_participant id new ?x) i] =>
      change (occupant (put_participant id new x) i) with (occupant x i) end.
    rewrite occupant_compact by done. case_decide; [subst|].
    + right. right. split_and!; [done|done|]. intros Hfull. by apply (Hfull new).
    + case_decide; [subst|by left]. right. left. by rewrite place_put_participant, decide_True.
Qed.

Lemma moved_keeps_settled other :
  moved id m m' → 0 < other → other ≠ id → settled m other → settled m' other.
Proof.
  intros Hmv Ho Hne Hs p Hpl Hi Hf. pose proof (moved_shape _ _ _ Hp Hmv) as Hsh.
  rewrite (moved_place _ Hmv Hne) in Hpl. rewrite (same_shape_slot _ _ _ Hsh) in Hf.
  apply (same_shape_is_slot _ _ _ Hsh) in Hi. specialize (Hs p Hpl Hi Hf).
  destruct (moved_occupant p Hmv Hi Hf) as [->|[[H _]|[H _]]]; [done|lia|congruence].
Qed.

Lemma moved_keeps_full : moved id m m' → full m → full m'.
Proof.
  intros Hmv Hfull i Hi Hf. pose proof (moved_shape _ _ _ Hp Hmv) as Hsh.
  rewrite (same_shape_slot _ _ _ Hsh) in Hf. apply (same_shape_is_slot _ _ _ Hsh) in Hi.
  destruct (moved_occupant i Hmv Hi Hf) as [->|[(_ & -> & _)|(_ & _ & H)]]; [by apply Hfull|lia|done].
Qed.
End Moved.

(** What a step for [id] achieves. *)
Record step_done (id : Z) (m m' : Mosaic) : Prop := {
  sd_moved : moved id m m';
  sd_settled : settled m' id;
  sd_full : place m' id = Some NotShown → full m';
  sd_agree : agree m → agree m';
}.

Section Steps.
Context (m : Mosaic) (id : Z) (Hm : mosaic_ok m) (Hid : 0 < id) (Hp : is_Some (place m id)).

Lemma no_suitable_full : (∀ i, ¬ suitable id m i) → full m.
Proof. intros Hno i Hi Hf Ho. apply (Hno i). split; [done|by right]. Qed.

Lemma moved_agree m' : moved id m m' → unseen m id → agree m → agree m'.
Proof.
  intros Hmv Hun Ha i Hi Hf Ho. pose proof (moved_shape _ _ _ Hp Hmv) as Hsh.
  rewrite (same_shape_slot _ _ _ Hsh) in Hf. apply (same_shape_is_slot _ _ _ Hsh) in Hi.
  destruct (moved_occupant m m' id Hm Hid Hp i Hmv Hi Hf) as [H|[(_ & H & Hpl)|(H & _)]].
  - rewrite H in Ho |- *. rewrite (moved_place m m' id _ Hmv) by (by apply Hun). by apply Ha.
  - by rewrite H.
  - by apply (Hun i) in H.
Qed.

Lemma reassign_done : (agree m → unseen m id) → yields (reassign id m) (step_done id m).
Proof.
  intros Hun. unfold reassign. eapply yields_bind; [by apply GetNextFreeSlot_spec|].
  intros r [[-> Hno]|(i & Hi & ->)]; simpl.
  - assert (Hmv : moved id m (put_participant id NotShown m)) by (by constructor). split; [done|..].
    + intros p. rewrite place_put_participant, decide_True by done. intros [= <-] [H _]. by unfold NotShown in H.
    + intros _. by apply no_suitable_full.
    + intros Ha. by apply moved_agree; auto.
  - assert (Hmv : moved id m (put_participant id i (occupy id i m))) by (by constructor). split; [done|..].
    + intros p. rewrite place_put_participant, decide_True by done. intros [= <-] _ _.
      change (occupant (occupy id i m) i = id). destruct Hi. rewrite occupant_occupy by done. by rewrite decide_True.
    + rewrite place_put_participant, decide_True by done. intros [= ->]. destruct Hi as [[H _] _]. by unfold NotShown in H.
    + intros Ha. by apply moved_agree; auto.
Qed.

Lemma elsewhere_unseen p : place m id = Some p → (is_slot m p → slot m p = SlotFree → occupant m p ≠ id) → agree m → unseen m id.
Proof.
  intros Hpl Hne Ha i Hi Hf Ho. pose proof (Ha i Hi Hf ltac:(lia)) as H. rewrite Ho, Hpl in H. simplify_eq. by apply Hne.
Qed.

Lemma stays_done p : place m id = Some p → is_slot m p → (slot m p = SlotFree → occupant m p = id) → step_done id m m.
Proof.
  intros Hpl Hs Ho. split; [constructor|..|done].
  - intros p' Hp' _ Hf. rewrite Hpl in Hp'. simplify_eq. by apply Ho.
  - rewrite Hpl. intros [= ->]. destruct Hs as [H _]. by unfold NotShown in H.
Qed.

Lemma compact_done old new :
  place m id = Some old → is_slot m old → slot m old = SlotFree → occupant m old = id →
  is_slot m new → slot m new = SlotFree → occupant m new = 0 → new ≠ old →
  step_done id m (put_participant id new (set_pos (<[Z.to_nat old := 0]> (<[Z.to_nat new := id]> (mo_pos m))) m)).
Proof.
  intros Hpl Ho Hso Hoo Hn Hsn Hon Hne. split; [by constructor|..].
  - intros p. rewrite place_put_participant, decide_True by done. intros [= <-] _ _.
    etransitivity; [by apply (occupant_compact m id old new new)|]. by rewrite decide_False, decide_True.
  - rewrite place_put_participant, decide_True by done. intros [= ->]. destruct Hn as [H _]. by unfold NotShown in H.
  - intros Ha i Hi Hf. match goal with |- context [put_participant id new ?x] => set (m1 := x) end.
    change (0 < occupant m1 i → place (put_participant id new m1) (occupant m1 i) = Some i).
    unfold m1. rewrite occupant_compact by done. fold m1. repeat case_decide; subst; [lia|..].
    + intros _. by rewrite place_put_participant, decide_True.
    + intros Hpos. rewrite place_put_participant. case_decide as Heq.
      * pose proof (Ha i Hi Hf Hpos) as H'. rewrite Heq, Hpl in H'. by simplify_eq.
      * by apply Ha.
Qed.

Lemma settle_done vadPos :
  vadPos = NotFound ∨ is_slot m vadPos ∧ slot m vadPos = SlotVAD →
  yields (settle_participant id (default NotFound (place m id)) vadPos m) (step_done id m).
Proof.
  intros Hvad. destruct Hp as [p Hpl]. rewrite Hpl. simpl. unfold settle_participant.
  destruct (ok_place m Hm id p Hpl) as [->|Hs].
  { simpl. apply reassign_done. apply (elsewhere_unseen NotShown Hpl). intros [H _]. by unfold NotShown in H. }
  destruct (Z.eqb_spec p NotShown) as [->|]; [destruct Hs as [H _]; by unfold NotShown in H|]. simpl.
  destruct (Z.eqb_spec p vadPos) as [->|].
  { apply reassign_done. apply (elsewhere_unseen vadPos Hpl). intros _ Hf.
    destruct Hvad as [->|[_ Hv]]; [destruct Hs as [H _]; by unfold NotFound in H|by rewrite Hf in Hv]. }
  rewrite (proj2 (Z.leb_le 0 p)) by apply Hs. rewrite rd_slot by done. simpl.
  destruct (Z.eqb_spec (slot m p) SlotFree) as [Hf|]; [|by apply (stays_done p)].
  rewrite rd_pos by done. simpl.
  destruct (Z.eqb_spec (occupant m p) id) as [Ho|]; simpl; [|apply reassign_done; by apply (elsewhere_unseen p)].
  eapply yields_bind; [by apply (GetNextFreeSlot_spec m 0)|].
  intros r [[-> _]|(i & [Hi Hsuit] & ->)]; simpl; [by apply (stays_done p)|]. change (occupy 0 i m) with m.
  destruct ((0 <=? i) && (i <? p)) eqn:Hlt; [|by apply (stays_done p)]. ztests.
  destruct Hsuit as [[? _]|[Hfi Hoi]]; [lia|].
  rewrite put_pos_in by done. simpl. rewrite put_pos_in by (auto with mosaic). simpl.
  apply (compact_done p i); [done..|lia].
Qed.
End Steps.

(** Nobody who speaks is waiting for a slot. *)
Definition nobody_eligible (m : Mosaic) : Prop :=
  ∀ id info, om_find id (mo_partVad m) = Some info → pi_eligible info = false.

Definition positive_ids (m : Mosaic) : Prop := ∀ id, is_Some (place m id) → 0 < id.

Record shuffled (ids : list Z) (m m' : Mosaic) : Prop := {
  sh_kept : kept m m';
  sh_shape : same_shape m m';
  sh_settled : ∀ id, id ∈ ids → id ≠ mo_vadParticipant m → settled m' id;
  sh_full : ∀ id, id ∈ ids → id ≠ mo_vadParticipant m → place m' id = Some NotShown → full m';
  sh_agree : agree m → agree m';
  sh_others : ∀ id, id ∉ ids → 0 < id → settled m id → settled m' id;
  sh_places : ∀ id, id ∉ ids → place m' id = place m id;
  sh_stays_full : full m → full m';
}.

Lemma shuffled_nil m : mosaic_ok m → shuffled [] m m.
Proof. intros Hm. split; try done; try (by apply kept_refl); intros id H; set_solver. Qed.

Lemma shuffled_skip id ids m m' :
  id = mo_vadParticipant m → id ∉ ids → shuffled ids m m' → shuffled (id :: ids) m m'.
Proof.
  intros Hv Hni [Hk Hs Hse Hf Ha Ho Hp Hsf]. split; try done.
  all: intros other Hin.
  1, 2: intros Hne; apply elem_of_cons in Hin as [->|Hin]; [done|by eauto].
  all: apply not_elem_of_cons in Hin as [_ Hin]; by eauto.
Qed.

Lemma shuffled_step id ids m m1 m2 :
  mosaic_ok m → 0 < id → is_Some (place m id) → id ∉ ids →
  step_done id m m1 → shuffled ids m1 m2 → shuffled (id :: ids) m m2.
Proof.
  intros Hm Hid Hp Hni [Hmv Hse1 Hf1 Ha1] [Hk Hs Hse Hf Ha Ho Hpl Hsf].
  pose proof (moved_shape _ _ _ Hp Hmv) as Hsh. pose proof (same_vad _ _ Hsh) as Hvad. split.
  - eapply kept_trans; [by eapply moved_kept|done].
  - by etransitivity.
  - intros other Hin Hne. apply elem_of_cons in Hin as [->|Hin]; [by auto|]. apply Hse; [done|by rewrite Hvad].
  - intros other Hin Hne Hnot. apply elem_of_cons in Hin as [->|Hin].
    + apply Hsf, Hf1. by rewrite <- Hpl.
    + eapply Hf; [done|by rewrite Hvad|done].
  - auto.
  - intros other [Hne Hin]%not_elem_of_cons H0 Hset. apply Ho; [done..|]. by apply (moved_keeps_settled m m1 id).
  - intros other [Hne Hin]%not_elem_of_cons. rewrite Hpl by done. by apply (moved_place m m1 id).
  - intros Hfull. apply Hsf. by apply (moved_keeps_full m m1 id).
Qed.

Lemma reshuffle_shuffled ids vadPos kicks m :
  mosaic_ok m → positive_ids m → nobody_eligible m →
  vadPos = NotFound ∨ is_slot m vadPos ∧ slot m vadPos = SlotVAD →
  NoDup ids → Forall (λ id, is_Some (place m id)) ids →
  yields (reshuffle ids vadPos kicks m) (shuffled ids m).
Proof.
  revert m. induction ids as [|id ids IH]; intros m Hm Hpos Hel Hvad Hnd Hids; simpl; [by apply shuffled_nil|].
  apply Forall_cons in Hids as [Hid Hids]. apply NoDup_cons in Hnd as [Hni Hnd].
  assert (from_option pi_eligible false (om_find id (mo_partVad m)) = false) as ->.
  { destruct (om_find id (mo_partVad m)) eqn:E; [|done]. simpl. by eapply Hel. }
  destruct (Z.eqb_spec id (mo_vadParticipant m)) as [->|Hne]; simpl.
  - eapply yields_impl; [by apply IH|]. intros m' H. by apply shuffled_skip.
  - eapply yields_bind; [by apply settle_done; [|apply Hpos|..]|]. intros m1 H1. simpl.
    pose proof (moved_shape _ _ _ Hid (sd_moved _ _ _ H1)) as Hsh.
    eapply yields_impl; [apply IH|].
    + eapply moved_ok; [done..|apply H1].
    + intros i Hi. apply Hpos. by apply Hsh.
    + unfold nobody_eligible. by rewrite (same_partVad _ _ Hsh).
    + by rewrite (same_shape_is_slot _ _ _ Hsh), (same_shape_slot _ _ _ Hsh).
    + done.
    + eapply Forall_impl; [exact Hids|]. intros x Hx. by apply Hsh.
    + intros m2 H2. eapply shuffled_step; [done|by apply Hpos|done..].
Qed.

(** Pass 3 changes nothing that agrees. *)
Lemma checked_slot_settled m id p :
  settled m id → 0 < id → place m id = Some p → is_slot m p → slot m p = SlotFree → checked_slot m p = id.
Proof.
  intros Hs Hid Hp Hi Hf. pose proof (Hs p Hp Hi Hf) as Ho. unfold checked_slot. rewrite Ho.
  rewrite bool_decide_true by done. by rewrite andb_false_r.
Qed.

Lemma checked_slot_agree m i : agree m → is_slot m i → checked_slot m i = occupant m i.
Proof.
  intros Ha Hi. unfold checked_slot. destruct (Z.eqb_spec (slot m i) SlotFree) as [Hf|]; [|done].
  destruct (Z.ltb_spec 0 (occupant m i)); [|done]. by rewrite bool_decide_true by (by apply Ha).
Qed.

Lemma checked_slot_place m i :
  slot m i = SlotFree → 0 < checked_slot m i → checked_slot m i = occupant m i ∧ place m (occupant m i) = Some i.
Proof.
  unfold checked_slot. intros Hf. rewrite Hf, Z.eqb_refl. simpl.
  destruct (Z.ltb_spec 0 (occupant m i)); simpl; [|lia].
  destruct (bool_decide_reflect (place m (occupant m i) = Some i)); simpl; [done|lia].
Qed.

Lemma keys_nodup m : mosaic_ok m → NoDup (mo_participants m).*1.
Proof.
  intros Hm. pose proof (ok_participants m Hm) as Hs. unfold om_sorted in Hs.
  induction Hs as [|x l Hs IH Hf]; constructor; [|done].
  intros Hin. rewrite Forall_forall in Hf. specialize (Hf x Hin). lia.
Qed.

Lemma key_elem m id : is_Some (place m id) → id ∈ (mo_participants m).*1.
Proof. intros [p Hp]. apply om_find_elem in Hp. apply list_elem_of_fmap. by exists (id, p). Qed.

(** ** Sequences of operations *)

Inductive mosaic_op :=
  | OpAdd (id : Z)
  | OpRemove (id : Z)
  | OpSetSlot (num id blockedUntil : Z)
  | OpSetSlots (slots : option (list Z))
  | OpSetVAD (id blockedUntil : Z)
  | OpInfo (id vadLevel : Z)
  | OpCalculate
  | OpUpdate (index : Z) (pic : option Picture)
  | OpClean (index : Z)
  | OpKeepAspect (keep : bool).

Definition run_op (op : mosaic_op) (m : Mosaic) : checked Mosaic :=
  match op with
  | OpAdd id => let? r := mosaic_AddParticipant id m in Got r.1
  | OpRemove id => let? r := mosaic_RemoveParticipant id m in Got r.1
  | OpSetSlot num id t => let? r := mosaic_SetSlot num id t m in Got r.1
  | OpSetSlots slots => Got (mosaic_SetSlots slots m)
  | OpSetVAD id t => let? r := SetVADParticipant id t m in Got r.1
  | OpInfo id level => let? r := UpdateParticipantInfo id level m in Got r.1
  | OpCalculate => CalculatePositions m
  | OpUpdate i pic => Got (mosaic_Update i pic m).1
  | OpClean i => Got (mosaic_Clean i m)
  | OpKeepAspect b => Got (KeepAspectRatio b m)
  end.

Fixpoint run_ops (ops : list mosaic_op) (m : Mosaic) : checked Mosaic :=
  match ops with
  | [] => Got m
  | op :: ops => let? m := run_op op m in run_ops ops m
  end.

Lemma run_op_kept op m : mosaic_ok m → yields (run_op op m) (kept m).
Proof.
  intros Hm.
  assert (Hpair : ∀ c : checked (Mosaic * Z), yields c (λ r, kept m r.1) → yields (let? r := c in Got r.1) (kept m))
    by (intros c; by destruct c).
  destruct op; simpl; auto using mosaic_AddParticipant_kept, mosaic_RemoveParticipant_kept, mosaic_SetSlot_kept,
    SetVADParticipant_kept, UpdateParticipantInfo_kept, mosaic_SetSlots_kept, mosaic_Update_kept, mosaic_Clean_kept.
  - eapply yields_impl; [by apply CalculatePositions_kept|]. by intros ? [? _].
  - split; auto with mosaic.
Qed.

Lemma run_ops_kept ops m : mosaic_ok m → yields (run_ops ops m) (kept m).
Proof.
  revert m. induction ops as [|op ops IH]; intros m Hm; simpl; [by apply kept_refl|].
  apply yields_kept_then; [by apply run_op_kept|]. intros m' [Hm' _]. by apply IH.
Qed.

(** C35. Whatever operations are called on a new mosaic, with whatever slots, ids, levels and times, in
    whatever order: none of them reads or writes an array out of its bounds, the searches and the
    reshuffling end, the arrays keep [numSlots] elements, the two maps keep the same participants, and
    the position of everybody is a slot of the mosaic or [NotShown]. *)
Theorem mosaic_stays_inside type ops :
  ∃ m, run_ops ops (new_mosaic type) = Got m ∧ mo_type m = type ∧ mosaic_ok m ∧
    (∀ id, mosaic_GetPosition id m = NotFound ∨ mosaic_GetPosition id m = NotShown ∨
       0 <= mosaic_GetPosition id m < GetNumSlotsForType type) ∧
    ∀ pos, GetBlockingTime pos m ≠ Fault ∧ IsFixed pos m ≠ Fault ∧ GetVADPosition m ≠ Fault.
Proof.
  pose proof (run_ops_kept ops _ (new_mosaic_ok type)) as H. apply yields_got in H as (m & -> & Hm & Ht).
  exists m. split_and!; [done..| |].
  - intros id. unfold mosaic_GetPosition. destruct (om_find id (mo_participants m)) as [p|] eqn:Hp; simpl; [|by left].
    right. destruct (ok_place m Hm id p Hp) as [|Hs]; [by left|right]. unfold is_slot in Hs.
    rewrite (ok_num m Hm), Ht in Hs. done.
  - intros pos. split_and!.
    + unfold GetBlockingTime. destruct (in_range pos m) eqn:Hr; [|done]. apply in_range_spec in Hr.
      rewrite rd1_in; [done|]. by rewrite (ok_blocking m Hm).
    + unfold IsFixed. destruct (Z.ltb_spec (to_dword pos) (mo_numSlots m)); [|done].
      rewrite rd_slot; [done|done|]. split; [apply Z.mod_pos_bound; lia|done].
    + pose proof (GetVADPosition_spec m Hm) as Hv. apply yields_got in Hv as (v & -> & _). done.
Qed.

(** ** The positions after a recalculation *)

(** C34. After [CalculatePositions], whoever is in a free slot has that slot as position, so nobody is
    in two free slots; the slots and the set of participants are as before.  When nobody who speaks
    waits for a slot, the converse holds as well: everybody but the active speaker whose position is
    a free slot is in it; and if the slots and positions agreed before, nobody but the active speaker
    is left out while a free slot is empty. *)
Theorem positions_settle m :
  mosaic_ok m → positive_ids m →
  ∃ m', CalculatePositions m = Got m' ∧ mo_slots m' = mo_slots m ∧
    (∀ id, mosaic_HasParticipant id m' = mosaic_HasParticipant id m) ∧
    (∀ i, is_slot m i → slot m i = SlotFree → 0 < occupant m' i → mosaic_GetPosition (occupant m' i) m' = i) ∧
    (nobody_eligible m →
      (∀ id i, id ≠ mo_vadParticipant m → mosaic_GetPosition id m' = i → is_slot m i → slot m i = SlotFree →
         occupant m' i = id) ∧
      (agree m → ∀ id, id ≠ mo_vadParticipant m → mosaic_GetPosition id m' = NotShown →
         ∀ i, is_slot m i → slot m i = SlotFree → occupant m' i ≠ 0)).
Proof.
  intros Hm Hpos.
  destruct (CalculatePositions_spec m Hm) as (vadPos & mid & l & Hv & Hr & Hk & Hs & Hl & Hc & Ho).
  exists (set_pos l mid). split_and!; [done|apply Hs|..].
  { intros id. unfold mosaic_HasParticipant. pose proof (same_ids _ _ Hs id) as H. unfold place in H. simpl.
    destruct (om_find id (mo_participants mid)), (om_find id (mo_participants m)); naive_solver. }
  { intros i Hi Hf Hocc. rewrite Ho in Hocc |- * by done.
    apply checked_slot_place in Hocc as [-> Hpl]; [|by rewrite (same_shape_slot _ _ _ Hs)].
    unfold mosaic_GetPosition. simpl. unfold place in Hpl. by rewrite Hpl. }
  intros Hel.
  pose proof (reshuffle_shuffled (mo_participants m).*1 vadPos (kickables m) m Hm Hpos Hel Hv
    (keys_nodup m Hm) (participants_placed m Hm)) as Hsh. rewrite Hr in Hsh. simpl in Hsh.
  assert (Hknown : ∀ id p, mosaic_GetPosition id (set_pos l mid) = p → p ≠ NotFound →
    place mid id = Some p ∧ 0 < id ∧ id ∈ (mo_participants m).*1).
  { intros id p Hp Hne. unfold mosaic_GetPosition in Hp. simpl in Hp. unfold place.
    destruct (om_find id (mo_participants mid)) as [q|] eqn:E; simpl in Hp; [|congruence]. subst q.
    assert (Hsome : is_Some (place m id)) by (apply Hs; by exists p). auto using key_elem. }
  split.
  - intros id i Hid Hp Hi Hf. destruct (Hknown id i Hp) as (Hpl & Hpid & Hin).
    { destruct Hi as [H _]. intros ->. by unfold NotFound in H. }
    rewrite Ho by done. apply checked_slot_settled; try done; [by apply Hsh| |].
    + by apply (same_shape_is_slot _ _ _ Hs).
    + by rewrite (same_shape_slot _ _ _ Hs).
  - intros Ha id Hid Hp i Hi Hf. destruct (Hknown id NotShown Hp) as (Hpl & Hpid & Hin); [done|].
    rewrite Ho by done. rewrite checked_slot_agree; [|by apply Hsh|by apply (same_shape_is_slot _ _ _ Hs)].
    apply (sh_full _ _ _ Hsh id); try done; [by apply (same_shape_is_slot _ _ _ Hs)|by rewrite (same_shape_slot _ _ _ Hs)].
Qed.

(** The mosaic that a sequence of operations leads to. *)
Definition after (ops : list mosaic_op) (type : MosaicType) : Mosaic :=
  match run_ops ops (new_mosaic type) with Got m => m | _ => new_mosaic type end.

Lemma after_ok ops type : mosaic_ok (after ops type).
Proof.
  pose proof (run_ops_kept ops _ (new_mosaic_ok type)) as H. unfold after.
  destruct (run_ops ops (new_mosaic type)); simpl in H; [done|done|]. apply H.
Qed.

(** Five participants for the four slots of a mosaic, then a slot is locked. *)
Definition crowded : Mosaic :=
  after [OpAdd 1; OpAdd 2; OpAdd 3; OpAdd 4; OpAdd 5; OpInfo 2 0; OpSetSlot 1 SlotLocked 0] mosaic2x2.

Lemma all_positive m : forallb (λ x, 0 <? x.1) (mo_participants m) = true → positive_ids m.
Proof.
  rewrite forallb_forall. intros H id [p Hp]. apply om_find_elem, list_elem_of_In in Hp.
  specialize (H _ Hp). by apply Z.ltb_lt in H.
Qed.

Lemma none_eligible m : forallb (λ x, negb (pi_eligible x.2)) (mo_partVad m) = true → nobody_eligible m.
Proof.
  rewrite forallb_forall. intros H id info Hp. apply om_find_elem, list_elem_of_In in Hp.
  specialize (H _ Hp). by apply negb_true_iff in H.
Qed.

Lemma crowded_facts : positive_ids crowded ∧ nobody_eligible crowded.
Proof. split; [apply all_positive|apply none_eligible]; vm_compute; reflexivity. Qed.

Lemma crowded_agree : agree crowded.
Proof.
  assert (Hnum : mo_numSlots crowded = 4) by (by vm_compute). intros i [Hi0 Hi1]. rewrite Hnum in Hi1.
  assert (i = 0 ∨ i = 1 ∨ i = 2 ∨ i = 3) as Hi by lia. destruct Hi as [->|[->|[->| ->]]]; by vm_compute.
Qed.

Lemma positions_settle_witness :
  ∃ m', CalculatePositions crowded = Got m' ∧ mosaic_GetPosition 2 m' = NotShown ∧ occupant m' 0 ≠ 0.
Proof.
  destruct (positions_settle crowded (after_ok _ _) (proj1 crowded_facts)) as (m' & Hc & _ & _ & _ & Hel).
  destruct (Hel (proj2 crowded_facts)) as [_ Hfull]. specialize (Hfull crowded_agree).
  assert (H2 : 2 ≠ mo_vadParticipant crowded) by (by vm_compute).
  assert (Hs : is_slot crowded 0) by (by split; vm_compute).
  assert (Hf : slot crowded 0 = SlotFree) by (by vm_compute).
  assert (Hn : (let? m := CalculatePositions crowded in Got (mosaic_GetPosition 2 m)) = Got NotShown) by (by vm_compute).
  exists m'. rewrite Hc in Hn. injection Hn as Hn. split_and!; [exact Hc|exact Hn|].
  exact (Hfull 2 H2 Hn 0 Hs Hf).
Defined.

(** ** Where the code falls short *)

(** Fixing a participant in the slot it is in frees that slot instead. *)
Lemma fixing_in_place_frees :
  let m := after [OpAdd 1] mosaic2x2 in
  let m' := after [OpAdd 1; OpSetSlot 0 1 0] mosaic2x2 in
  mosaic_GetPosition 1 m = 0 ∧ slot m' 0 = SlotFree ∧ IsFixed 0 m' = Got false.
Proof. by vm_compute. Qed.

(** Whoever is in the slot that becomes the VAD slot stays there: the branch that moves it tests the
    mark that was just written. *)
Lemma vad_slot_keeps_its_occupant :
  let m := after [OpAdd 1; OpSetSlot 0 SlotVAD 0] mosaic2x2 in
  slot m 0 = SlotVAD ∧ mosaic_GetPosition 1 m = 0 ∧ occupant m 0 = 1.
Proof. by vm_compute. Qed.

(** One participant leaves (8), one may be replaced (1) and one who speaks is to replace it (3): as
    1 was moved to the hole before 3 takes its old slot, 2 and 3 end with the same position, 1 is not
    shown, and a free slot stays empty. *)
Lemma replaced_slot_is_stale :
  let m := after [OpAdd 7; OpAdd 8; OpAdd 9; OpAdd 1; OpAdd 2; OpAdd 3; OpInfo 1 0; OpInfo 3 5; OpRemove 8] mosaic2x2 in
  mosaic_GetPosition 2 m = 3 ∧ mosaic_GetPosition 3 m = 3 ∧ mosaic_GetPosition 1 m = NotShown ∧
  slot m 1 = SlotFree ∧ occupant m 1 = 0.
Proof. by vm_compute. Qed.
