(* ===== verification/MosaicGeometry.v ===== *)
(** * Mosaics: where the pictures go

    The geometry of the slots ([PartedMosaic], [AsymmetricMosaic], [PIPMosaic]) and of the picture
    in a slot ([Mosaic::ComputeSlotPlacement], [Mosaic::BuildDesc]).  [int] values stay far from
    overflow; where the code mixes [int] and [DWORD] the conversion is written.  The local
    [index] that [AsymmetricMosaic::GetLeft] leaves unset is the argument [garbage]. *)

From S2P Require Import Prelude OrderedMap Octets Mosaic.

(** ** Sizes (include/config.h) *)

Definition frame_GetWidth (size : Z) : Z :=
  match size with
  | 0 => 176 | 1 => 352 | 2 => 640 | 3 => 768 | 4 => 320 | 5 => 160 | 6 => 1280 | 7 => 400 | 8 => 768
  | 9 => 576 | 10 => 512 | 11 => 1024 | 12 => 704 | 13 => 704 | 14 => 1024 | 15 => 800 | 16 => 528 | 17 => 256
  | _ => 0
  end.

Definition frame_GetHeight (size : Z) : Z :=
  match size with
  | 0 => 144 | 1 => 288 | 2 => 480 | 3 => 576 | 4 => 240 | 5 => 120 | 6 => 720 | 7 => 240 | 8 => 448
  | 9 => 448 | 10 => 288 | 11 => 576 | 12 => 576 | 13 => 480 | 14 => 768 | 15 => 480 | 16 => 384 | 17 => 144
  | _ => 0
  end.

Definition SIZE4MUL (x : Z) : Z := Z.land x 0xFFFFFFFC.
(** [if (x % 2) x = x - 1] *)
Definition even_below (x : Z) : Z := if Z.rem x 2 =? 0 then x else x - 1.

(** ** The slots *)

(** [PartedMosaic]: [mosaicCols] and [mosaicRows] *)
Definition parted_side (type : MosaicType) : Z :=
  match type with mosaic2x2 => 2 | mosaic3x3 => 3 | mosaic4x4 => 4 | _ => 1 end.
Definition parted_cell (side total : Z) : Z := even_below (total ÷ side).
Definition parted_GetTop (type : MosaicType) (H pos : Z) : Z :=
  parted_cell (parted_side type) H * (pos ÷ parted_side type).
Definition parted_GetLeft (type : MosaicType) (W pos : Z) : Z :=
  let i := pos ÷ parted_side type in
  parted_cell (parted_side type) W * (pos - i * parted_side type).

(** [AsymmetricMosaic]: [cols] and [size] of [GetWidth], [rows] and [size] of [GetHeight] *)
Definition asym_cols (type : MosaicType) (pos : Z) : Z * Z :=
  match type with
  | mosaic3p4 => (4, if pos <? 3 then 2 else 1)
  | mosaic1p7 => (4, if pos =? 0 then 3 else 1)
  | mosaic1p4 => (4, if pos =? 0 then 3 else 1)
  | mosaic1p5 => (3, if pos =? 0 then 2 else 1)
  | mosaic1p1 => (4, 2)
  | mosaic2p8 => (4, if (pos =? 4) || (pos =? 5) then 2 else 1)
  | _ => (1, 1)
  end.
Definition asym_rows (type : MosaicType) (pos : Z) : Z * Z :=
  match type with
  | mosaic3p4 => (4, if pos <? 3 then 2 else 1)
  | mosaic1p7 => (4, if pos =? 0 then 3 else 1)
  | mosaic1p4 => (4, if pos =? 0 then 4 else 1)
  | mosaic1p5 => (3, if pos =? 0 then 2 else 1)
  | mosaic1p1 => (1, 1)
  | mosaic2p8 => (4, if (pos =? 4) || (pos =? 5) then 2 else 1)
  | _ => (1, 1)
  end.

(** [index] and [rows] of [GetTop]; [None] where the code returns 0 at once *)
Definition asym_top_index (type : MosaicType) (pos : Z) : option (Z * Z) :=
  match type with
  | mosaic3p4 =>
      match pos with 0 | 1 => None | 2 | 3 => Some (10, 4) | 4 => Some (11, 4) | 5 => Some (14, 4) | 6 => Some (15, 4)
      | _ => Some (0, 4) end
  | mosaic1p7 =>
      match pos with 0 | 1 => None | 2 => Some (7, 4) | 3 => Some (11, 4) | 4 => Some (12, 4) | 5 => Some (13, 4)
      | 6 => Some (14, 4) | 7 => Some (15, 4) | _ => Some (0, 4) end
  | mosaic1p4 =>
      match pos with 0 | 1 => None | 2 => Some (7, 4) | 3 => Some (11, 4) | 4 => Some (12, 4) | 5 => Some (13, 4)
      | _ => Some (0, 4) end
  | mosaic1p5 =>
      match pos with 0 | 1 => None | 2 => Some (5, 3) | 3 => Some (6, 3) | 4 => Some (7, 3) | 5 => Some (8, 3)
      | _ => Some (0, 3) end
  | mosaic2p8 =>
      match pos with 0 | 1 | 2 | 3 => None | 4 | 5 => Some (7, 4) | 6 | 7 | 8 | 9 => Some (12, 4)
      | _ => Some (0, 4) end
  | mosaic1p1 => None
  | _ => Some (0, 1)
  end.

(** [index] and [cols] of [GetLeft]; [index] keeps [garbage] where no case sets it *)
Definition asym_left_index (garbage : Z) (type : MosaicType) (pos : Z) : option (Z * Z) :=
  match type with
  | mosaic3p4 =>
      match pos with 0 | 2 => None | 1 => Some (2, 4) | 3 => Some (10, 4) | 4 => Some (11, 4) | 5 => Some (14, 4)
      | 6 => Some (15, 4) | _ => Some (garbage, 4) end
  | mosaic1p7 =>
      match pos with 0 => None | 1 => Some (3, 4) | 2 => Some (7, 4) | 3 => Some (11, 4) | 4 => Some (12, 4)
      | 5 => Some (13, 4) | 6 => Some (14, 4) | 7 => Some (15, 4) | _ => Some (garbage, 4) end
  | mosaic1p4 =>
      match pos with 0 => None | 1 => Some (3, 4) | 2 => Some (7, 4) | 3 => Some (11, 4) | 4 => Some (12, 4)
      | 5 => Some (13, 4) | _ => Some (garbage, 4) end
  | mosaic1p5 =>
      match pos with 0 => None | 1 => Some (2, 3) | 2 => Some (5, 3) | 3 => Some (6, 3) | 4 => Some (7, 3)
      | 5 => Some (8, 3) | _ => Some (garbage, 3) end
  | mosaic2p8 =>
      match pos with 0 | 6 | 4 => None | 5 => Some (6, 4) | 1 | 7 => Some (5, 4) | 2 | 8 => Some (6, 4)
      | 3 | 9 => Some (7, 4) | _ => Some (garbage, 4) end
  | mosaic1p1 => if pos =? 0 then None else Some (1, 2)
  | _ => Some (garbage, 1)
  end.

Definition asym_GetWidth (type : MosaicType) (W pos : Z) : Z :=
  if GetNumSlotsForType type <=? pos then 0
  else let '(cols, size) := asym_cols type pos in (W ÷ cols) * size.
Definition asym_GetHeight (type : MosaicType) (H pos : Z) : Z :=
  if GetNumSlotsForType type <=? pos then 0
  else let '(rows, size) := asym_rows type pos in (H ÷ rows) * size.
Definition asym_GetTop (type : MosaicType) (H pos : Z) : Z :=
  if GetNumSlotsForType type <=? pos then 0
  else
    match asym_top_index type pos with
    | None => 0
    | Some (index, rows) => even_below (H ÷ rows) * (index ÷ rows)
    end.
Definition asym_GetLeft (garbage : Z) (type : MosaicType) (W pos : Z) : Z :=
  if GetNumSlotsForType type <=? pos then 0
  else
    match asym_left_index garbage type pos with
    | None => 0
    | Some (index, cols) => let i := index ÷ cols in even_below (W ÷ cols) * (index - i * cols)
    end.

(** [PIPMosaic] *)
Definition pip_GetSize (type : MosaicType) (total pos : Z) : Z :=
  if GetNumSlotsForType type <? pos + 1 then 0
  else if pos =? 0 then total
  else if GetNumSlotsForType type =? 2 then SIZE4MUL (total ÷ 4)
  else SIZE4MUL (total ÷ 5).
Definition pip_GetTop (type : MosaicType) (H pos : Z) : Z :=
  if GetNumSlotsForType type <? pos + 1 then 0
  else if pos =? 0 then 0
  else
    let mosaicHeight := even_below (SIZE4MUL (H ÷ 5)) in
    SIZE4MUL (to_dword (to_dword (H - mosaicHeight) - mosaicHeight ÷ 2)).
Definition pip_GetLeft (type : MosaicType) (W pos : Z) : Z :=
  if GetNumSlotsForType type <? pos + 1 then 0
  else if pos =? 0 then 0
  else
    let mosaicWidth := even_below (SIZE4MUL (W ÷ 5)) in
    let intraWidth := mosaicWidth ÷ 2 in
    to_int32 (to_dword (intraWidth + (intraWidth + mosaicWidth) * (pos - 1))).

(** [Mosaic::CreateMosaic]: the class of a type *)
Inductive MosaicClass := Parted | Asymmetric | PIP.
Definition CreateMosaic (type : MosaicType) : MosaicClass :=
  match type with
  | mosaic1x1 | mosaic2x2 | mosaic3x3 | mosaic4x4 => Parted
  | mosaic1p1 | mosaic3p4 | mosaic1p7 | mosaic1p5 | mosaic1p4 | mosaic2p8 => Asymmetric
  | mosaicPIP1 | mosaicPIP3 => PIP
  end.

Record Rect := mkRect { r_x : Z; r_y : Z; r_w : Z; r_h : Z }.

(** [GetLeft], [GetTop], [GetWidth] and [GetHeight] of a slot *)
Definition slot_rect (garbage : Z) (type : MosaicType) (W H pos : Z) : Rect :=
  match CreateMosaic type with
  | Parted =>
      let cell total := if GetNumSlotsForType type <=? pos then 0 else parted_cell (parted_side type) total in
      mkRect (parted_GetLeft type W pos) (parted_GetTop type H pos) (cell W) (cell H)
  | Asymmetric =>
      mkRect (asym_GetLeft garbage type W pos) (asym_GetTop type H pos) (asym_GetWidth type W pos) (asym_GetHeight type H pos)
  | PIP => mkRect (pip_GetLeft type W pos) (pip_GetTop type H pos) (pip_GetSize type W pos) (pip_GetSize type H pos)
  end.

(** ** The picture in a slot *)

Definition SlotBorder : Z := 2.

Definition GetSlotBorder (r : Rect) : Z :=
  if (4 * SlotBorder <? r_w r) && (4 * SlotBorder <? r_h r) then SlotBorder else 0.

(** On [DWORD]s: the product wraps. *)
Definition ComputeAspectRatio (imgWidth imgHeight : Z) : Z :=
  if imgHeight =? 0 then 0
  else
    let tmpratio := to_dword (1000 * imgWidth) ÷ imgHeight in
    let k := tmpratio ÷ 10 in
    if (k =? 133) || (k =? 122) || (k =? 146) then 1333 else if k =? 177 then 1777 else tmpratio.

(** [StretchSlot]: the main slot of a picture in picture *)
Definition StretchSlot (type : MosaicType) (pos : Z) : bool :=
  match CreateMosaic type with PIP => pos =? 0 | _ => false end.

(** [if (diff > 0 && diff % 2 != 0) diff--] *)
Definition even_offset (room : Z) : Z :=
  let diff := room ÷ 2 in if (0 <? diff) && negb (Z.rem diff 2 =? 0) then diff - 1 else diff.

(** [ComputeSlotPlacement]: size of the picture and offset in the slot *)
Definition ComputeSlotPlacement (stretch : bool) (r : Rect) (inW inH : Z) (keepAspect : bool) : Rect :=
  let b := GetSlotBorder r in
  let slotW := r_w r - 2 * b in
  let slotH := r_h r - 2 * b in
  let fill := mkRect b b slotW slotH in
  if (inW <=? 0) || (inH <=? 0) then fill
  else if stretch then fill
  else
    let picRatio := ComputeAspectRatio inW inH in
    if slotH <=? 0 then fill
    else
      let slotRatio := to_dword ((slotW * 1000) ÷ slotH) in
      if (picRatio ÷ 100 =? slotRatio ÷ 100) || negb keepAspect then fill
      else if slotRatio <? picRatio then
        let outH := to_int32 (to_dword (slotW * 1000) ÷ picRatio) in
        mkRect b (b + even_offset (slotH - outH)) slotW outH
      else
        let outW := to_int32 (to_dword (slotH * picRatio) ÷ 1000) in
        mkRect (b + even_offset (slotW - outW)) b outW slotH.

Record MosaicSlotDesc := mkSlotDesc { sd_pos : Z; sd_image : Rect; sd_border : Z; sd_inW : Z; sd_inH : Z }.

Definition describe_slot (garbage : Z) (type : MosaicType) (W H pos : Z) (frame : Picture * bool) : MosaicSlotDesc :=
  let '(pic, keep) := frame in
  let r := slot_rect garbage type W H pos in
  let p := ComputeSlotPlacement (StretchSlot type pos) r (pic_width pic) (pic_height pic) keep in
  mkSlotDesc pos (mkRect (r_x r + r_x p) (r_y r + r_y p) (r_w p) (r_h p)) (GetSlotBorder r)
    (pic_width pic) (pic_height pic).

(** [BuildDesc]: the slots that have a picture, in order *)
Definition BuildDesc (garbage W H : Z) (m : Mosaic) : list MosaicSlotDesc :=
  omap (λ '(pos, frame), describe_slot garbage (mo_type m) W H (Z.of_nat pos) <$> frame)
    (zip (seq 0 (Z.to_nat (Z.min (mo_numSlots m) (Zlen (mo_frames m))))) (mo_frames m)).
