(* ===== verification/MosaicGeometryClaims.v ===== *)
(** * Mosaics: pictures stay in their slots and apart

    Whatever the pictures, each is drawn inside its slot and the canvas, and no two overlap
    ([pictures_stay_apart]) in every layout but [mosaic1p4], whose geometry the last lemmas show. *)

From S2P Require Import Prelude OrderedMap Octets Mosaic MosaicLaws MosaicGeometry.

(** [a] lies in [b]. *)
Definition rect_in (a b : Rect) : Prop :=
  r_x b <= r_x a ∧ r_y b <= r_y a ∧ r_x a + r_w a <= r_x b + r_w b ∧ r_y a + r_h a <= r_y b + r_h b ∧
  0 <= r_w a ∧ 0 <= r_h a.

(** No pixel is in both. *)
Definition rect_apart (a b : Rect) : Prop :=
  r_x a + r_w a <= r_x b ∨ r_x b + r_w b <= r_x a ∨ r_y a + r_h a <= r_y b ∨ r_y b + r_h b <= r_y a.

#[global] Instance rect_in_dec a b : Decision (rect_in a b).
Proof. unfold rect_in. apply _. Defined.
#[global] Instance rect_apart_dec a b : Decision (rect_apart a b).
Proof. unfold rect_apart. apply _. Defined.

#[global] Instance rect_in_trans : Transitive rect_in.
Proof. intros a b c. unfold rect_in. lia. Qed.

Lemma rect_apart_in a b a' b' : rect_in a' a → rect_in b' b → rect_apart a b → rect_apart a' b'.
Proof. unfold rect_in, rect_apart. lia. Qed.

(** The part of a slot inside its border. *)
Definition inner (r : Rect) : Rect :=
  let b := GetSlotBorder r in mkRect (r_x r + b) (r_y r + b) (r_w r - 2 * b) (r_h r - 2 * b).

Lemma even_offset_range room : 0 <= room → 0 <= even_offset room ∧ 2 * even_offset room <= room.
Proof.
  intros H. unfold even_offset. pose proof (Z.quot_pos room 2 H ltac:(lia)).
  pose proof (Z.mul_quot_le room 2 H ltac:(lia)).
  destruct (Z.ltb_spec 0 (room ÷ 2)), (Z.rem (room ÷ 2) 2 =? 0); simpl; lia.
Qed.

Lemma ComputeAspectRatio_dword w h : 0 <= h → 0 <= ComputeAspectRatio w h < 2 ^ 32.
Proof.
  intros Hh. unfold ComputeAspectRatio. destruct (Z.eqb_spec h 0); [lia|].
  assert (Ht : 0 <= to_dword (1000 * w) ÷ h < 2 ^ 32).
  { pose proof (Z.mod_pos_bound (1000 * w) (2 ^ 32) ltac:(lia)) as Hm. unfold to_dword.
    split; [apply Z.quot_pos; lia|]. eapply Z.le_lt_trans; [apply (Z.quot_le_upper_bound _ h ((1000 * w) mod 2 ^ 32))|]; nia. }
  repeat case_goal; lia.
Qed.

(** The picture is inside the border of the slot. *)
Lemma placement_inside stretch r inW inH keep :
  0 <= r_w r < 2 ^ 20 → 0 <= r_h r < 2 ^ 20 →
  let p := ComputeSlotPlacement stretch r inW inH keep in
  rect_in (mkRect (r_x r + r_x p) (r_y r + r_y p) (r_w p) (r_h p)) (inner r).
Proof.
  intros Hw Hh. unfold ComputeSlotPlacement, inner. cbv zeta. set (b := GetSlotBorder r).
  assert (Hb : 0 <= r_w r - 2 * b ∧ 0 <= r_h r - 2 * b ∧ 0 <= b).
  { unfold b, GetSlotBorder, SlotBorder. destruct (Z.ltb_spec (4 * 2) (r_w r)), (Z.ltb_spec (4 * 2) (r_h r)); simpl; lia. }
  set (slotW := r_w r - 2 * b) in *. set (slotH := r_h r - 2 * b) in *.
  assert (Hfill : rect_in (mkRect (r_x r + b) (r_y r + b) slotW slotH) (mkRect (r_x r + b) (r_y r + b) slotW slotH))
    by (unfold rect_in; simpl; lia).
  destruct ((inW <=? 0) || (inH <=? 0)) eqn:Hin; [done|]. apply orb_false_iff in Hin as [_ Hin]. ztests.
  destruct stretch; [done|]. destruct (Z.leb_spec slotH 0); [done|].
  pose proof (ComputeAspectRatio_dword inW inH ltac:(lia)) as Hr. set (ratio := ComputeAspectRatio inW inH) in *.
  assert (Hq : 0 <= (slotW * 1000) ÷ slotH ∧ slotH * ((slotW * 1000) ÷ slotH) <= slotW * 1000 < slotH * ((slotW * 1000) ÷ slotH + 1)).
  { rewrite Z.quot_div_nonneg by lia. pose proof (Z.div_pos (slotW * 1000) slotH). pose proof (Z.mul_div_le (slotW * 1000) slotH).
    pose proof (Z.mul_succ_div_gt (slotW * 1000) slotH). lia. }
  set (q := (slotW * 1000) ÷ slotH) in *.
  rewrite (to_dword_id q) by (unfold is_dword; nia).
  destruct ((ratio ÷ 100 =? q ÷ 100) || negb keep); [done|].
  assert (Hsame : slotW <= r_w r ∧ slotH <= r_h r) by lia.
  destruct (Z.ltb_spec q ratio).
  - rewrite (to_dword_id (slotW * 1000)) by (unfold is_dword; lia).
    assert (Ho : 0 <= (slotW * 1000) ÷ ratio <= slotH).
    { split; [apply Z.quot_pos; lia|]. apply Z.quot_le_upper_bound; nia. }
    assert (Hi : to_int32 ((slotW * 1000) ÷ ratio) = (slotW * 1000) ÷ ratio).
    { rewrite <- (to_dword_id ((slotW * 1000) ÷ ratio)) at 1 by (unfold is_dword; lia). apply to_int32_dword. unfold is_int32. lia. }
    rewrite Hi. pose proof (even_offset_range (slotH - (slotW * 1000) ÷ ratio) ltac:(lia)). unfold rect_in. simpl. lia.
  - assert (Hm : slotH * ratio <= slotW * 1000) by nia.
    rewrite (to_dword_id (slotH * ratio)) by (unfold is_dword; nia).
    assert (Ho : 0 <= (slotH * ratio) ÷ 1000 <= slotW).
    { split; [apply Z.quot_pos; nia|]. apply Z.quot_le_upper_bound; lia. }
    assert (Hi : to_int32 ((slotH * ratio) ÷ 1000) = (slotH * ratio) ÷ 1000).
    { rewrite <- (to_dword_id ((slotH * ratio) ÷ 1000)) at 1 by (unfold is_dword; lia). apply to_int32_dword. unfold is_int32. lia. }
    rewrite Hi. pose proof (even_offset_range (slotW - (slotH * ratio) ÷ 1000) ltac:(lia)). unfold rect_in. simpl. lia.
Qed.

(** ** The layouts *)

Definition all_types : list MosaicType :=
  [mosaic1x1; mosaic2x2; mosaic3x3; mosaic3p4; mosaic1p7; mosaic1p5; mosaic1p1; mosaicPIP1; mosaicPIP3; mosaic4x4; mosaic2p8].
Definition all_sizes : list Z := Z.of_nat <$> seq 0 18.
Definition slots_of (type : MosaicType) : list Z := Z.of_nat <$> seq 0 (Z.to_nat (GetNumSlotsForType type)).

(** The main slot of a picture in picture lies under the others. *)
Definition is_background (type : MosaicType) (pos : Z) : bool := StretchSlot type pos.

Definition slot_at (type : MosaicType) (size pos : Z) : Rect :=
  slot_rect 0 type (frame_GetWidth size) (frame_GetHeight size) pos.

Definition layout_ok (type : MosaicType) (size : Z) : bool :=
  forallb (λ i,
    bool_decide (rect_in (slot_at type size i) (mkRect 0 0 (frame_GetWidth size) (frame_GetHeight size))) &&
    bool_decide (rect_in (inner (slot_at type size i)) (slot_at type size i)) &&
    forallb (λ j, (i =? j) || is_background type i || is_background type j ||
      bool_decide (rect_apart (inner (slot_at type size i)) (inner (slot_at type size j)))) (slots_of type)) (slots_of type).

Lemma layouts_ok : forallb (λ type, forallb (layout_ok type) all_sizes) all_types = true.
Proof. vm_compute. reflexivity. Qed.

Lemma slots_of_elem type pos : In pos (slots_of type) ↔ 0 <= pos < GetNumSlotsForType type.
Proof.
  assert (0 <= GetNumSlotsForType type) by (by destruct type).
  unfold slots_of. rewrite <- list_elem_of_In, list_elem_of_fmap. split.
  - intros (n & -> & Hn%elem_of_seq). lia.
  - intros Hp. exists (Z.to_nat pos). rewrite elem_of_seq. lia.
Qed.

Lemma layout_facts type size i :
  type ≠ mosaic1p4 → 0 <= size < 18 → 0 <= i < GetNumSlotsForType type →
  rect_in (slot_at type size i) (mkRect 0 0 (frame_GetWidth size) (frame_GetHeight size)) ∧
  rect_in (inner (slot_at type size i)) (slot_at type size i) ∧
  ∀ j, 0 <= j < GetNumSlotsForType type → i ≠ j → is_background type i = false → is_background type j = false →
    rect_apart (inner (slot_at type size i)) (inner (slot_at type size j)).
Proof.
  intros Ht Hsize Hi. pose proof layouts_ok as H. rewrite forallb_forall in H.
  assert (Hin : In type all_types) by (destruct type; try done; simpl; tauto).
  specialize (H type Hin). rewrite forallb_forall in H.
  assert (Hs : In size all_sizes).
  { apply list_elem_of_In, list_elem_of_fmap. exists (Z.to_nat size). rewrite elem_of_seq. lia. }
  specialize (H size Hs). unfold layout_ok in H. rewrite forallb_forall in H.
  specialize (H i (proj2 (slots_of_elem type i) Hi)). apply andb_true_iff in H as [H H3].
  apply andb_true_iff in H as [H1 H2]. apply bool_decide_eq_true in H1, H2. split_and!; [done..|].
  intros j Hj Hij Hbi Hbj. rewrite forallb_forall in H3. specialize (H3 j (proj2 (slots_of_elem type j) Hj)).
  rewrite Hbi, Hbj, (proj2 (Z.eqb_neq i j) Hij) in H3. simpl in H3. by apply bool_decide_eq_true in H3.
Qed.

Lemma canvas_bound size : 0 <= frame_GetWidth size < 2 ^ 20 ∧ 0 <= frame_GetHeight size < 2 ^ 20.
Proof. unfold frame_GetWidth, frame_GetHeight. repeat case_goal; lia. Qed.

(** No case of [GetLeft] is missing for a slot of the other layouts. *)
Lemma garbage_unused g type W H pos :
  type ≠ mosaic1p4 → 0 <= pos < GetNumSlotsForType type → slot_rect g type W H pos = slot_rect 0 type W H pos.
Proof.
  intros Ht Hp. unfold slot_rect. destruct (CreateMosaic type) eqn:E; try done. f_equal.
  unfold asym_GetLeft. destruct (GetNumSlotsForType type <=? pos); [done|].
  assert (Hin : In pos (slots_of type)) by (by apply slots_of_elem).
  destruct type; try done; cbn in Hin; repeat (destruct Hin as [<-|Hin]; [done|]); done.
Qed.

(** ** The description of the composition *)

Lemma BuildDesc_elem g W H m d :
  mosaic_ok m → d ∈ BuildDesc g W H m →
  ∃ frame, 0 <= sd_pos d < GetNumSlotsForType (mo_type m) ∧ d = describe_slot g (mo_type m) W H (sd_pos d) frame.
Proof.
  intros Hm Hd. unfold BuildDesc in Hd. apply list_elem_of_omap in Hd as ([n [frame|]] & Hz & Hd); [|done].
  simpl in Hd. injection Hd as <-. exists frame. destruct frame as [pic keep]. simpl. split; [|done].
  apply elem_of_zip_l in Hz. apply elem_of_seq in Hz. rewrite (ok_frames m Hm), (ok_num m Hm) in Hz. lia.
Qed.

Lemma described_inside g type size pos frame :
  type ≠ mosaic1p4 → 0 <= size < 18 → 0 <= pos < GetNumSlotsForType type →
  rect_in (sd_image (describe_slot g type (frame_GetWidth size) (frame_GetHeight size) pos frame)) (inner (slot_at type size pos)).
Proof.
  intros Ht Hs Hp. destruct (layout_facts type size pos Ht Hs Hp) as (H1 & _ & _). destruct frame as [pic keep].
  simpl. rewrite (garbage_unused g) by done. pose proof (canvas_bound size). apply placement_inside.
  all: fold (slot_at type size pos); unfold rect_in in H1; simpl in H1; lia.
Qed.

Lemma described_order (f : nat → Picture * bool → MosaicSlotDesc) frames s n :
  (∀ k fr, sd_pos (f k fr) = Z.of_nat k) →
  StronglySorted Z.lt (sd_pos <$> omap (λ '(pos, frame), f pos <$> frame) (zip (seq s n) frames)).
Proof.
  intros Hf. revert s frames. induction n as [|n IH]; intros s frames; [constructor|].
  destruct frames as [|fr frames]; [constructor|]. cbn [seq zip zip_with omap list_omap].
  assert (Hlt : ∀ d, d ∈ omap (λ '(pos, frame), f pos <$> frame) (zip (seq (S s) n) frames) → Z.of_nat s < sd_pos d).
  { intros d ([k [x|]] & Hk & Hd)%list_elem_of_omap; [|done]. simpl in Hd. injection Hd as <-. rewrite Hf.
    apply elem_of_zip_l, elem_of_seq in Hk. lia. }
  destruct fr as [x|]; simpl; [|apply IH]. constructor; [apply IH|].
  apply Forall_forall. intros z (d & -> & Hd)%list_elem_of_fmap. rewrite Hf. by apply Hlt.
Qed.

(** C36. Whatever pictures a mosaic holds and whatever their sizes, in every layout but [mosaic1p4] and on
    every canvas size: the composition draws them in the order of the slots; each lies inside its
    slot and inside the canvas; and no two overlap, except that the insets of a picture in picture
    are drawn over its main picture. *)
Theorem pictures_stay_apart garbage size m :
  mosaic_ok m → mo_type m ≠ mosaic1p4 → 0 <= size < 18 →
  let W := frame_GetWidth size in
  let H := frame_GetHeight size in
  let descs := BuildDesc garbage W H m in
  StronglySorted Z.lt (sd_pos <$> descs) ∧
  (∀ d, d ∈ descs →
    rect_in (sd_image d) (slot_rect garbage (mo_type m) W H (sd_pos d)) ∧ rect_in (sd_image d) (mkRect 0 0 W H)) ∧
  (∀ d e, d ∈ descs → e ∈ descs → sd_pos d ≠ sd_pos e →
    StretchSlot (mo_type m) (sd_pos d) = false → StretchSlot (mo_type m) (sd_pos e) = false →
    rect_apart (sd_image d) (sd_image e)).
Proof.
  intros Hm Ht Hs. cbv zeta. split_and!.
  - apply described_order. by intros k [pic keep].
  - intros d Hd. destruct (BuildDesc_elem _ _ _ _ _ Hm Hd) as (frame & Hp & Hdesc).
    destruct (layout_facts (mo_type m) size (sd_pos d) Ht Hs Hp) as (H1 & H2 & _).
    pose proof (described_inside garbage _ size _ frame Ht Hs Hp) as H3. rewrite <- Hdesc in H3.
    rewrite garbage_unused by done. fold (slot_at (mo_type m) size (sd_pos d)).
    split; [by etransitivity|]. etransitivity; [exact H3|]. by etransitivity.
  - intros d e Hd He Hne Hbd Hbe.
    destruct (BuildDesc_elem _ _ _ _ _ Hm Hd) as (fd & Hpd & Hdd).
    destruct (BuildDesc_elem _ _ _ _ _ Hm He) as (fe & Hpe & Hee). rewrite Hdd, Hee.
    eapply rect_apart_in; [by apply described_inside|by apply described_inside|].
    by apply (layout_facts (mo_type m) size (sd_pos d) Ht Hs Hpd).
Qed.

(** A picture of 640 by 480 and one of 1280 by 720 on a canvas of the first size, split in two rows and columns. *)
Definition two_pictures : Mosaic :=
  (mosaic_Update 3 (Some (mkPicture 1280 720)) (mosaic_Update 0 (Some (mkPicture 640 480)) (new_mosaic mosaic2x2)).1).1.

Lemma pictures_stay_apart_witness :
  length (BuildDesc 0 (frame_GetWidth 2) (frame_GetHeight 2) two_pictures) = 2%nat ∧
  StronglySorted Z.lt (sd_pos <$> BuildDesc 0 (frame_GetWidth 2) (frame_GetHeight 2) two_pictures).
Proof.
  split; [by vm_compute|]. apply (pictures_stay_apart 0 2 two_pictures); [|done|lia].
  apply mosaic_Update_kept, mosaic_Update_kept, new_mosaic_ok.
Defined.

(** ** The layout with a column of four *)

(** It has 16 slots; the fifth is drawn over the first, and from the seventh on [index] is not set. *)
Lemma column_of_four_overlaps :
  GetNumSlotsForType mosaic1p4 = 16 ∧
  ¬ rect_apart (inner (slot_rect 0 mosaic1p4 640 480 0)) (inner (slot_rect 0 mosaic1p4 640 480 4)) ∧
  r_x (slot_rect 0 mosaic1p4 640 480 6) ≠ r_x (slot_rect 1 mosaic1p4 640 480 6).
Proof. vm_compute. split_and!; [done| |done]. intros H. repeat destruct H as [H|H]; done. Qed.
