(* ===== verification/VideoMixer.v ===== *)
(** * The video mixer

    [VideoMixer] (src/mcu/src/videomixer.cpp) with the outputs of its participants
    ([PipeVideoOutput]): the mosaics of a conference, who watches which, and the pass of the mixing
    thread that moves participants by their voice activity and copies their pictures into the slots.

    A [Mosaic *] is an address.  [mosaics] owns the objects ([shared_ptr]), the participants and
    [defaultMosaic] only point to them; [vm_heap] holds the objects that are alive, and the use of
    an address that is not in it is a [Fault].  Each operation runs alone.  Under [lstVideosUse] that is
    so in the code; [SetSlot] and [SetMixerMosaic] look their mosaic up before they take it, and are
    split there ([SetSlot_locked], [SetMixerMosaic_locked]); what another operation in between does to
    them is in VideoMixerClaims.
    The voice activity ([VADProxy::GetVAD]) and the clock ([getTime]) are arguments of a pass; the
    composed picture and the overlays are left out. *)

From S2P Require Import Prelude OrderedMap Octets Mosaic.

(** ** Outputs ([PipeVideoOutput]) *)

Record VideoOut := mkVideoOut {
  vo_last : option Picture;
  vo_width : Z;
  vo_height : Z;
  vo_isChanged : bool;
  vo_versionChanged : bool;
  vo_sizeChange : bool;
  vo_inited : bool;
  vo_version : Z;
  vo_keepAspect : bool;
}.

(** [version] starts as [(DWORD)-1]. *)
Definition new_VideoOut : VideoOut := mkVideoOut None 0 0 false false false false (2 ^ 32 - 1) true.

Definition vo_Init (inited : bool) (o : VideoOut) : VideoOut :=
  mkVideoOut (vo_last o) (vo_width o) (vo_height o) (vo_isChanged o) (vo_versionChanged o) (vo_sizeChange o) inited
    (vo_version o) (vo_keepAspect o).

Definition NextFrame (pic : option Picture) (o : VideoOut) : VideoOut * Z :=
  match pic with
  | None => (o, 0)
  | Some pic =>
      if negb (vo_inited o) then (o, 0)
      else (mkVideoOut (Some pic) (vo_width o) (vo_height o) true (vo_versionChanged o) (vo_sizeChange o) (vo_inited o)
              (vo_version o) (vo_keepAspect o), 1)
  end.

Definition SetVideoSize (width height : Z) (o : VideoOut) : VideoOut * Z :=
  if (vo_width o =? width) && (vo_height o =? height) then (o, 0)
  else (mkVideoOut (vo_last o) width height (vo_isChanged o) (vo_versionChanged o) true (vo_inited o)
          (vo_version o) (vo_keepAspect o), 1).

Definition GetFrame (o : VideoOut) : VideoOut * option Picture :=
  (mkVideoOut (vo_last o) (vo_width o) (vo_height o) false (vo_versionChanged o) (vo_sizeChange o) (vo_inited o)
     (vo_version o) (vo_keepAspect o), vo_last o).

Definition IsChanged (version : Z) (o : VideoOut) : VideoOut * bool :=
  if negb (vo_inited o) then (o, false)
  else if vo_version o =? version then (o, vo_versionChanged o)
  else (mkVideoOut (vo_last o) (vo_width o) (vo_height o) (vo_isChanged o) (vo_isChanged o) (vo_sizeChange o)
          (vo_inited o) version (vo_keepAspect o), vo_isChanged o).

Definition SizeHasChanged (o : VideoOut) : VideoOut * bool :=
  if vo_sizeChange o then
    (if vo_versionChanged o then
       mkVideoOut (vo_last o) (vo_width o) (vo_height o) (vo_isChanged o) (vo_versionChanged o) false (vo_inited o)
         (vo_version o) (vo_keepAspect o)
     else o, true)
  else (o, false).

(** ** State *)

Inductive VADMode := NoVAD | BasicVAD | FullVAD.
#[global] Instance VADMode_eq_dec : EqDecision VADMode.
Proof. solve_decision. Defined.

Record VideoSource := mkVideoSource { vs_output : VideoOut; vs_mosaic : option Z }.

Definition Videos : Type := list (Z * VideoSource).

Record VideoMixer := mkVideoMixer {
  vm_videos : Videos;              (** [lstVideos] *)
  vm_mosaics : list (Z * Z);       (** [mosaics], to addresses *)
  vm_heap : list (Z * Mosaic);
  vm_next : Z;                     (** the next address *)
  vm_max : Z;                      (** [maxMosaics] *)
  vm_logo : option Picture;
  vm_default : option Z;           (** [defaultMosaic] *)
  vm_mixing : bool;
  vm_proxy : bool;                 (** whether [proxy] is set *)
  vm_vadMode : VADMode;
}.

Definition new_VideoMixer : VideoMixer := mkVideoMixer [] [] [] 0 0 None None false false NoVAD.

Definition set_videos (v : Videos) (x : VideoMixer) : VideoMixer :=
  mkVideoMixer v (vm_mosaics x) (vm_heap x) (vm_next x) (vm_max x) (vm_logo x) (vm_default x) (vm_mixing x) (vm_proxy x) (vm_vadMode x).
Definition set_heap (h : list (Z * Mosaic)) (x : VideoMixer) : VideoMixer :=
  mkVideoMixer (vm_videos x) (vm_mosaics x) h (vm_next x) (vm_max x) (vm_logo x) (vm_default x) (vm_mixing x) (vm_proxy x) (vm_vadMode x).
Definition set_mosaics (l : list (Z * Z)) (x : VideoMixer) : VideoMixer :=
  mkVideoMixer (vm_videos x) l (vm_heap x) (vm_next x) (vm_max x) (vm_logo x) (vm_default x) (vm_mixing x) (vm_proxy x) (vm_vadMode x).
Definition set_default (d : option Z) (x : VideoMixer) : VideoMixer :=
  mkVideoMixer (vm_videos x) (vm_mosaics x) (vm_heap x) (vm_next x) (vm_max x) (vm_logo x) d (vm_mixing x) (vm_proxy x) (vm_vadMode x).

(** [it->second->output] and [it->second->mosaic] *)
Definition set_output (o : VideoOut) (v : VideoSource) : VideoSource := mkVideoSource o (vs_mosaic v).
Definition watch (a : option Z) (v : VideoSource) : VideoSource := mkVideoSource (vs_output v) a.

(** [*mosaic] *)
Definition deref (a : Z) (x : VideoMixer) : checked Mosaic :=
  match om_find a (vm_heap x) with Some m => Got m | None => Fault end.

(** ** Slots and pictures *)

(** [CleanSlot(pos, mosaic, logo)]; without logo it is [Clean]. *)
Definition CleanSlot (pos : Z) (logo : option Picture) (m : Mosaic) : Mosaic :=
  match logo with
  | Some _ => (mosaic_Update pos logo (KeepAspectRatio false m)).1
  | None => mosaic_Clean pos m
  end.

(** [mosaic->KeepAspectRatio(output->IsAspectRatioKept()); mosaic->Update(i, output->GetFrame());] *)
Definition show_output (i id : Z) (v : VideoSource) (videos : Videos) (m : Mosaic) : Videos * Mosaic :=
  let '(o, pic) := GetFrame (vs_output v) in
  (om_set id (set_output o v) videos, (mosaic_Update i pic (KeepAspectRatio (vo_keepAspect o) m)).1).

(** One slot of [UpdateMosaic] *)
Definition update_slot (logo : option Picture) (i : Z) (s : Videos * Mosaic) : checked (Videos * Mosaic) :=
  let '(videos, m) := s in
  let? p := rd1 (mo_pos m) i in
  if 0 <? p then
    match om_find p videos with
    | Some v => Got (show_output i p v videos (mosaic_Clean i m))
    | None => Got (videos, CleanSlot i logo m)
    end
  else Got (videos, CleanSlot i logo m).

Fixpoint for_slots {S} (k : nat) (i : Z) (body : Z → S → checked S) (s : S) : checked S :=
  match k with
  | O => Got s
  | S k => let? s := body i s in for_slots k (i + 1) body s
  end.

Definition UpdateMosaic (logo : option Picture) (s : Videos * Mosaic) : checked (Videos * Mosaic) :=
  for_slots (Z.to_nat (mo_numSlots s.2)) 0 (update_slot logo) s.

(** ** Participants *)

Definition vm_CreateMixer (id : Z) (x : VideoMixer) : VideoMixer * Z :=
  match om_find id (vm_videos x) with
  | Some _ => (x, 0)
  | None => (set_videos (om_set id (mkVideoSource new_VideoOut None) (vm_videos x)) x, 1)
  end.

Definition vm_InitMixer (id mosaicId : Z) (x : VideoMixer) : VideoMixer * Z :=
  match om_find id (vm_videos x) with
  | None => (x, 0)
  | Some v =>
      let v := set_output (vo_Init true (vs_output v)) v in
      let v := match om_find mosaicId (vm_mosaics x) with Some a => watch (Some a) v | None => v end in
      (set_videos (om_set id v (vm_videos x)) x, 1)
  end.

(** [SetMixerMosaic] under [lstVideosUse]: [mosaic] was looked up before. *)
Definition SetMixerMosaic_locked (id : Z) (mosaic : option Z) (x : VideoMixer) : VideoMixer * Z :=
  match om_find id (vm_videos x) with
  | None => (x, 0)
  | Some v => (set_videos (om_set id (watch mosaic v) (vm_videos x)) x, 1)
  end.

(** The whole call, when nothing happens between the look-up and the lock. *)
Definition vm_SetMixerMosaic (id mosaicId : Z) (x : VideoMixer) : VideoMixer * Z :=
  SetMixerMosaic_locked id (om_find mosaicId (vm_mosaics x)) x.

Definition vm_DeleteMixer (id : Z) (x : VideoMixer) : VideoMixer :=
  set_videos (om_erase id (vm_videos x)) x.

(** Frames and sizes come from the decoders. *)
Definition vm_NextFrame (id : Z) (pic : option Picture) (x : VideoMixer) : VideoMixer :=
  set_videos (om_alter (λ v, set_output (NextFrame pic (vs_output v)).1 v) id (vm_videos x)) x.
Definition vm_SetVideoSize (id width height : Z) (x : VideoMixer) : VideoMixer :=
  set_videos (om_alter (λ v, set_output (SetVideoSize width height (vs_output v)).1 v) id (vm_videos x)) x.

(** The log of the mosaic after [DecUse] ([Dump]), here and in [RemoveMosaicParticipant], is left out. *)
Definition vm_AddMosaicParticipant (mosaicId partId : Z) (x : VideoMixer) : checked (VideoMixer * Z) :=
  match om_find mosaicId (vm_mosaics x) with
  | None => Got (x, 0)
  | Some a =>
      let? m := deref a x in
      let? r := mosaic_AddParticipant partId m in
      Got (set_heap (om_set a r.1 (vm_heap x)) x, 1)
  end.

Definition vm_RemoveMosaicParticipant (mosaicId partId : Z) (x : VideoMixer) : checked (VideoMixer * Z) :=
  match om_find mosaicId (vm_mosaics x) with
  | None => Got (x, 0)
  | Some a =>
      let? m := deref a x in
      let? m :=
        (if partId =? mo_vadParticipant m then
           let? pos := GetVADPosition m in
           let? r := SetVADParticipant 0 0 (CleanSlot pos (vm_logo x) m) in Got r.1
         else Got m) in
      let? r := mosaic_RemoveParticipant partId m in
      let '(m, pos) := r in
      let? s := if negb (pos =? NotFound) then UpdateMosaic (vm_logo x) (vm_videos x, m) else Got (vm_videos x, m) in
      Got (set_videos s.1 (set_heap (om_set a s.2 (vm_heap x)) x), 1)
  end.

(** [EndMixer]: the participant leaves every mosaic, in the order of the map (which the code goes
    through without the lock). *)
Fixpoint leave_all (mosaicIds : list Z) (id : Z) (x : VideoMixer) : checked VideoMixer :=
  match mosaicIds with
  | [] => Got x
  | mid :: mosaicIds => let? r := vm_RemoveMosaicParticipant mid id x in leave_all mosaicIds id r.1
  end.

Definition vm_EndMixer (id : Z) (x : VideoMixer) : checked (VideoMixer * Z) :=
  match om_find id (vm_videos x) with
  | None => Got (x, 0)
  | Some v =>
      let v := watch None (set_output (vo_Init false (vs_output v)) v) in
      let x := set_videos (om_set id v (vm_videos x)) x in
      let? x := if vm_mixing x then leave_all (vm_mosaics x).*1 id x else Got x in
      Got (x, 1)
  end.

(** ** Mosaics *)

(** The participants of the old mosaic are added to the new one; the fixed ones are fixed again. *)
Fixpoint move_participants (ids : list Z) (old m : Mosaic) : checked Mosaic :=
  match ids with
  | [] => Got m
  | id :: ids =>
      let? m :=
        (if mosaic_HasParticipant id old =? 1 then
           let pos := mosaic_GetPosition id old in
           let? r := mosaic_AddParticipant id m in
           let m := r.1 in
           let? fixed := IsFixed pos old in
           if (0 <=? pos) && (pos <? mo_numSlots m) && fixed then let? r := mosaic_SetSlot pos id 0 m in Got r.1
           else Got m
         else Got m) in
      move_participants ids old m
  end.

(** What the new mosaic takes from the old one, but for the overlays. *)
Definition inherit (vadMode : VADMode) (ids : list Z) (old m : Mosaic) : checked Mosaic :=
  let m := mosaic_SetSlots (Some (mo_slots old)) m in
  let? m := move_participants ids old m in
  let? pos := GetVADPosition old in
  let? m :=
    (if (0 <=? pos) && (pos <? mo_numSlots m) then
       let? r := SetVADParticipant (mo_vadParticipant old) 0 m in Got r.1
     else Got m) in
  if decide (vadMode = FullVAD) then
    let? r := mosaic_SetSlot (mosaic_GetPosition (mo_vadParticipant m) m) SlotReset 0 m in Got r.1
  else Got m.

(** [if (it->second->mosaic == from) it->second->mosaic = to;] *)
Definition rewatch (from : Z) (to : option Z) : Videos → Videos :=
  om_map (λ v, if decide (vs_mosaic v = Some from) then watch to v else v).

(** An unknown type is [None]: nothing is touched.  The old mosaic is destroyed when it is replaced
    in the map. *)
Definition vm_SetCompositionType (mosaicId : Z) (comp : option MosaicType) (x : VideoMixer) : checked (VideoMixer * Z) :=
  match comp with
  | None => Got (x, 0)
  | Some type =>
      let a := vm_next x in
      let m := new_mosaic type in
      let? r :=
        match om_find mosaicId (vm_mosaics x) with
        | None => Got (m, x)
        | Some b =>
            let? old := deref b x in
            let? m := inherit (vm_vadMode x) (vm_videos x).*1 old m in
            let x := set_videos (rewatch b (Some a) (vm_videos x)) x in
            let x := if decide (vm_default x = Some b) then set_default (Some a) x else x in
            Got (m, set_heap (om_erase b (vm_heap x)) x)
        end in
      let '(m, x) := r in
      let? m := CalculatePositions m in
      let? s := UpdateMosaic (vm_logo x) (vm_videos x, m) in
      Got (mkVideoMixer s.1 (om_set mosaicId a (vm_mosaics x)) (om_set a s.2 (vm_heap x)) (a + 1) (vm_max x)
             (vm_logo x) (vm_default x) (vm_mixing x) (vm_proxy x) (vm_vadMode x), 1)
  end.

(** The new id, or -1 *)
Definition vm_CreateMosaic (comp : option MosaicType) (x : VideoMixer) : checked (VideoMixer * Z) :=
  let mosaicId := vm_max x in
  let x := mkVideoMixer (vm_videos x) (vm_mosaics x) (vm_heap x) (vm_next x) (mosaicId + 1) (vm_logo x) (vm_default x)
             (vm_mixing x) (vm_proxy x) (vm_vadMode x) in
  let? r := vm_SetCompositionType mosaicId comp x in
  Got (r.1, if r.2 =? 0 then -1 else mosaicId).

(** [Init]; [logo] is what [Pict::Load] returns. *)
Definition vm_Init (comp : option MosaicType) (logo : option Picture) (x : VideoMixer) : checked (VideoMixer * Z) :=
  let x := mkVideoMixer (vm_videos x) (vm_mosaics x) (vm_heap x) (vm_next x) (vm_max x) logo (vm_default x)
             (vm_mixing x) (vm_proxy x) (vm_vadMode x) in
  let? r := vm_CreateMosaic comp x in
  let '(x, id) := r in
  if id <? 0 then Got (x, 0)
  else Got (mkVideoMixer (vm_videos x) (vm_mosaics x) (vm_heap x) (vm_next x) (vm_max x) (vm_logo x)
              (om_find id (vm_mosaics x)) true (vm_proxy x) (vm_vadMode x), 1).

(** [mosaics\[..\]] in turn, each with a function on the videos and the mosaic *)
Fixpoint for_mosaics (ids : list Z) (body : Videos * Mosaic → checked (Videos * Mosaic)) (x : VideoMixer) : checked VideoMixer :=
  match ids with
  | [] => Got x
  | id :: ids =>
      let? x :=
        match om_find id (vm_mosaics x) with
        | None => Got x
        | Some a =>
            let? m := deref a x in
            let? s := body (vm_videos x, m) in
            Got (set_videos s.1 (set_heap (om_set a s.2 (vm_heap x)) x))
        end in
      for_mosaics ids body x
  end.

Definition vm_LoadLogo (logo : option Picture) (x : VideoMixer) : checked (VideoMixer * Z) :=
  let x := mkVideoMixer (vm_videos x) (vm_mosaics x) (vm_heap x) (vm_next x) (vm_max x) logo (vm_default x)
             (vm_mixing x) (vm_proxy x) (vm_vadMode x) in
  match logo with
  | None => Got (x, 0)
  | Some _ =>
      let? x := for_mosaics (vm_mosaics x).*1 (λ s, UpdateMosaic logo (s.1, KeepAspectRatio false s.2)) x in
      Got (x, 1)
  end.

(** [SetSlot] under the lock: the mosaic at [a] was looked up before. *)
Definition SetSlot_locked (a num id : Z) (x : VideoMixer) : checked (VideoMixer * Z) :=
  let? m := deref a x in
  let pos := mosaic_GetPosition id m in
  let m := if 0 <=? pos then CleanSlot pos (vm_logo x) m else m in
  let? r := mosaic_SetSlot num id 0 m in
  let? m := CalculatePositions r.1 in
  let? s := UpdateMosaic (vm_logo x) (vm_videos x, m) in
  Got (set_videos s.1 (set_heap (om_set a s.2 (vm_heap x)) x), 1).

(** The whole call, when nothing happens between the look-up and the lock. *)
Definition vm_SetSlot (mosaicId num id : Z) (x : VideoMixer) : checked (VideoMixer * Z) :=
  match om_find mosaicId (vm_mosaics x) with
  | None => Got (x, 0)
  | Some a => SetSlot_locked a num id x
  end.

Definition vm_DeleteMosaic (mosaicId : Z) (x : VideoMixer) : VideoMixer * Z :=
  match om_find mosaicId (vm_mosaics x) with
  | None => (x, 0)
  | Some a =>
      (set_videos (rewatch a None (vm_videos x))
         (set_mosaics (om_erase mosaicId (vm_mosaics x)) (set_heap (om_erase a (vm_heap x)) x)), 1)
  end.

Definition vm_SetVADProxy (proxy : bool) (x : VideoMixer) : VideoMixer :=
  mkVideoMixer (vm_videos x) (vm_mosaics x) (vm_heap x) (vm_next x) (vm_max x) (vm_logo x) (vm_default x)
    (vm_mixing x) proxy (vm_vadMode x).

Definition vm_SetVADMode (mode : VADMode) (x : VideoMixer) : checked VideoMixer :=
  let x := mkVideoMixer (vm_videos x) (vm_mosaics x) (vm_heap x) (vm_next x) (vm_max x) (vm_logo x) (vm_default x)
             (vm_mixing x) (vm_proxy x) mode in
  if decide (mode = NoVAD) then
    for_mosaics (vm_mosaics x).*1 (λ '(videos, m),
      let? vadPos := GetVADPosition m in
      let vadId := mo_vadParticipant m in
      if (0 <=? vadPos) && (0 <? vadId) then
        let? r := mosaic_SetSlot vadPos SlotVAD 0 m in
        let? r := SetVADParticipant 0 0 r.1 in
        Got (videos, CleanSlot vadPos (vm_logo x) r.1)
      else Got (videos, m)) x
  else Got x.

Definition vm_GetMosaicPositions (mosaicId : Z) (x : VideoMixer) : checked (list Z) :=
  match om_find mosaicId (vm_mosaics x) with
  | None => Refuse
  | Some a => let? m := deref a x in Got (mo_pos m)
  end.

(** [End]; [defaultMosaic] keeps the address of a destroyed mosaic. *)
Definition vm_End (x : VideoMixer) : VideoMixer :=
  mkVideoMixer [] [] [] (vm_next x) (vm_max x) (vm_logo x) (vm_default x) false (vm_proxy x) (vm_vadMode x).

(** ** A pass of the mixing thread ([Run], once a picture was signalled) *)

(** The search for the active speaker: highest level, who, where, and whether somebody has to move *)
Record Search := mkSearch { se_maxVAD : Z; se_vadId : Z; se_vadPos : Z; se_changed : bool }.

Fixpoint find_speaker (ids : list Z) (vad : Z → Z) (se : Search) (m : Mosaic) : checked (Search * Mosaic) :=
  match ids with
  | [] => Got (se, m)
  | id :: ids =>
      let pos := mosaic_GetPosition id m in
      if pos =? NotFound then find_speaker ids vad se m
      else
        let? fixed := IsFixed pos m in
        if fixed then find_speaker ids vad se m
        else
          let level := vad id in
          let se := if (se_maxVAD se <? level) || (se_vadId se =? 0) then mkSearch level id pos (se_changed se) else se in
          let? r := UpdateParticipantInfo id level m in
          let se := mkSearch (se_maxVAD se) (se_vadId se) (se_vadPos se) (se_changed se || (0 <? r.2)) in
          find_speaker ids vad se r.1
  end.

(** The slot of the new active speaker, if it was shown elsewhere, is given up. *)
Definition give_up_slot (vadPos : Z) (m : Mosaic) : checked Mosaic :=
  let? r := mosaic_SetSlot vadPos SlotReset 0 m in Got r.1.

(** The active speaker takes the VAD slot; [until] is [getTime() + vadDefaultChangePeriod*1000]. *)
Definition elect_speaker (mode : VADMode) (logo : option Picture) (time until oldVad oldVadPos : Z) (se : Search) (m : Mosaic)
    : checked (Mosaic * bool) :=
  let '(mkSearch maxVAD vadId vadPos changed) := se in
  if 0 <? maxVAD then
    match mode with
    | FullVAD =>
        let? blocked := GetBlockingTime oldVadPos m in
        if blocked <=? time then
          let m := if negb (vadId =? oldVad) then mosaic_Clean oldVadPos m else m in
          let? r := SetVADParticipant vadId until m in
          let m := r.1 in
          if (0 <=? vadPos) && negb (vadPos =? oldVadPos) && negb (vadId =? oldVad) then
            let? m := give_up_slot vadPos m in Got (CleanSlot vadPos logo m, true)
          else Got (m, changed)
        else Got (m, changed)
    | BasicVAD =>
        let? r := SetVADParticipant vadId 0 (CleanSlot oldVadPos logo m) in Got (r.1, changed)
    | NoVAD => Got (m, changed)
    end
  else
    match mode with
    | BasicVAD => Got (CleanSlot oldVadPos logo m, changed)
    | FullVAD =>
        if 0 <? oldVad then let? r := SetVADParticipant oldVad until m in Got (r.1, changed)
        else
          let? r := SetVADParticipant vadId until m in
          let m := r.1 in
          if (0 <=? vadPos) && negb (vadPos =? oldVadPos) then
            let? m := give_up_slot vadPos m in
            let m := CleanSlot vadPos logo (mosaic_Clean oldVadPos m) in
            let? r := if 0 <? vadId then UpdateParticipantInfo vadId 200 m else Got (m, 0) in
            Got (r.1, true)
          else Got (m, changed)
    | NoVAD => Got (m, changed)
    end.

(** After a recalculation the slots that changed are drawn again. *)
Definition redraw_slot (logo : option Picture) (old : list Z) (i : Z) (s : Videos * Mosaic) : checked (Videos * Mosaic) :=
  let '(videos, m) := s in
  let? before := rd1 old i in
  let? p := rd1 (mo_pos m) i in
  if before =? p then Got (videos, m)
  else if negb (p =? SlotFree) then
    match om_find p videos with
    | Some v => Got (show_output i p v videos (mosaic_Clean i m))
    | None => Got (videos, m)
    end
  else Got (videos, CleanSlot i logo m).

(** The picture of the active speaker: [KeepAspectRatio] is under the test, [Update] is not. *)
Definition draw_speaker (version oldVadPos oldVad : Z) (s : Videos * Mosaic) : checked (Videos * Mosaic) :=
  let '(videos, m) := s in
  let? vadPos := GetVADPosition m in
  let vadId := mo_vadParticipant m in
  if 0 <=? vadPos then
    match om_find vadId videos with
    | None => Got (videos, m)
    | Some v =>
        let '(o, changed) := IsChanged version (vs_output v) in
        let m := if changed || negb (vadPos =? oldVadPos) || negb (vadId =? oldVad)
                 then KeepAspectRatio (vo_keepAspect o) m else m in
        let '(o, pic) := GetFrame o in
        Got (om_set vadId (set_output o v) videos, (mosaic_Update vadPos pic m).1)
    end
  else Got (videos, m).

Definition vad_pass (mode : VADMode) (logo : option Picture) (vad : Z → Z) (version time until : Z) (s : Videos * Mosaic)
    : checked (Videos * Mosaic) :=
  let '(videos, m) := s in
  let? r := find_speaker videos.*1 vad (mkSearch 0 0 NotShown false) m in
  let '(se, m) := r in
  let oldVad := mo_vadParticipant m in
  let? oldVadPos := GetVADPosition m in
  let? r := if 0 <=? oldVadPos then elect_speaker mode logo time until oldVad oldVadPos se m else Got (m, se_changed se) in
  let '(m, changed) := r in
  let? s :=
    (if bool_decide (mode = FullVAD) && changed then
       let old := mo_pos m in
       let? m := CalculatePositions m in
       for_slots (Z.to_nat (mo_numSlots m)) 0 (redraw_slot logo old) (videos, m)
     else Got (videos, m)) in
  draw_speaker version oldVadPos oldVad s.

(** The new pictures of the participants that are shown *)
Fixpoint draw_all (ids : list Z) (version : Z) (s : Videos * Mosaic) : Videos * Mosaic :=
  match ids with
  | [] => s
  | id :: ids =>
      let '(videos, m) := s in
      let pos := mosaic_GetPosition id m in
      let s :=
        match om_find id videos with
        | Some v =>
            if 0 <=? pos then
              let m := KeepAspectRatio (vo_keepAspect (vs_output v)) m in
              let '(o, changed) := IsChanged version (vs_output v) in
              if changed then
                let '(o, sized) := SizeHasChanged o in
                let m := if sized then mosaic_Clean pos m else m in
                let '(o, pic) := GetFrame o in
                (om_set id (set_output o v) videos, (mosaic_Update pos pic m).1)
              else (om_set id (set_output o v) videos, m)
            else (videos, m)
        | None => (videos, m)
        end in
      draw_all ids version s
  end.

Definition vm_pass (vad : Z → Z) (version time until : Z) (x : VideoMixer) : checked VideoMixer :=
  for_mosaics (vm_mosaics x).*1 (λ s,
    let? s :=
      (if bool_decide (vm_vadMode x ≠ NoVAD) && vm_proxy x
       then vad_pass (vm_vadMode x) (vm_logo x) vad version time until s else Got s) in
    Got (draw_all s.1.*1 version s)) x.

(** The start of a round: whoever watches a mosaic that has changed is handed its composed picture
    ([input->SetFrame(mosaic->GetPict())]), here its address; then every mosaic is reset. *)
Fixpoint handed_out (videos : Videos) (forceUpdate : bool) (x : VideoMixer) : checked (list (Z * Z)) :=
  match videos with
  | [] => Got []
  | (id, v) :: videos =>
      let? given :=
        match vs_mosaic v with
        | None => Got []
        | Some a => let? m := deref a x in Got (if mo_changed m || forceUpdate then [(id, a)] else [])
        end in
      let? l := handed_out videos forceUpdate x in
      Got (given ++ l)
  end.

Definition vm_deliver (forceUpdate : bool) (x : VideoMixer) : checked (VideoMixer * list (Z * Z)) :=
  let? l := handed_out (vm_videos x) forceUpdate x in
  let? x := for_mosaics (vm_mosaics x).*1 (λ s, Got (s.1, mosaic_Reset s.2)) x in
  Got (x, l).
