(* ===== verification/VideoMixerProps.v ===== *)
(** * The video mixer: pointers and slots stay valid

    [mixer_ok]: the map owns exactly the mosaics that are alive, each in good order, and everybody
    who watches a mosaic watches one of them.  Every operation keeps it and none faults. *)

From S2P Require Import Prelude OrderedMap Octets Mosaic MosaicLaws VideoMixer.

(** ** Drawing *)

(** The videos may change their outputs, never what they watch. *)
Definition same_watch (v v' : Videos) : Prop :=
  (om_sorted v → om_sorted v') ∧ ∀ id, vs_mosaic <$> om_find id v' = vs_mosaic <$> om_find id v.

Definition drawn (s s' : Videos * Mosaic) : Prop := kept s.2 s'.2 ∧ same_watch s.1 s'.1.

#[global] Instance same_watch_refl : Reflexive same_watch.
Proof. by intros v. Qed.
#[global] Instance same_watch_trans : Transitive same_watch.
Proof. intros a b c [H1 H2] [H3 H4]. split; [auto|]. intros id. by rewrite H4. Qed.

Lemma drawn_refl s : mosaic_ok s.2 → drawn s s.
Proof. intros H. split; [by apply kept_refl|done]. Qed.

Lemma drawn_trans a b c : drawn a b → drawn b c → drawn a c.
Proof. intros [H1 H2] [H3 H4]. split; [by eapply kept_trans|by etransitivity]. Qed.

Lemma set_output_watch id v o videos :
  om_find id videos = Some v → same_watch videos (om_set id (set_output o v) videos).
Proof.
  intros Hv. split; [apply om_set_sorted|]. intros id'. destruct (decide (id' = id)) as [->|].
  - by rewrite om_find_set_eq, Hv.
  - by rewrite om_find_set_ne.
Qed.

Lemma kept_keep m b : mosaic_ok m → kept m (KeepAspectRatio b m).
Proof. intros. split; [by apply ok_keep|done]. Qed.

Lemma update_keep_kept m i pic b : mosaic_ok m → kept m (mosaic_Update i pic (KeepAspectRatio b m)).1.
Proof. intros Hm. eapply kept_trans; [by apply kept_keep|]. apply mosaic_Update_kept. by apply ok_keep. Qed.

Lemma CleanSlot_kept m i logo : mosaic_ok m → kept m (CleanSlot i logo m).
Proof.
  intros Hm. unfold CleanSlot. destruct logo; [by apply update_keep_kept|by apply mosaic_Clean_kept].
Qed.

Lemma show_output_drawn i id v videos m :
  mosaic_ok m → om_find id videos = Some v → drawn (videos, m) (show_output i id v videos m).
Proof. intros Hm Hv. split; simpl; [by apply update_keep_kept|by apply set_output_watch]. Qed.

Lemma for_slots_drawn body k i s :
  mosaic_ok s.2 → 0 <= i → i + Z.of_nat k = mo_numSlots s.2 →
  (∀ j s', mosaic_ok s'.2 → is_slot s.2 j → drawn s s' → is_slot s'.2 j → yields (body j s') (drawn s')) →
  yields (for_slots k i body s) (drawn s).
Proof.
  intros Hm Hi Hk Hbody.
  assert (Hgen : ∀ k i s', drawn s s' → 0 <= i → i + Z.of_nat k = mo_numSlots s.2 → yields (for_slots k i body s') (drawn s)).
  { clear k i Hi Hk. intros k. induction k as [|k IH]; intros i s' Hs Hi Hk; simpl; [done|].
    assert (Hsl : is_slot s.2 i) by (unfold is_slot; lia). destruct Hs as [Hks Hws].
    eapply yields_bind; [apply Hbody; [apply Hks|done|done|by eapply kept_is_slot]|].
    intros s1 H1. apply IH; [|lia|lia]. eapply drawn_trans; [by split|done]. }
  apply Hgen; [by apply drawn_refl|done|done].
Qed.

Lemma num_nonneg m : mosaic_ok m → 0 <= mo_numSlots m.
Proof. intros Hm. rewrite <- (ok_pos m Hm). apply Zlen_nonneg. Qed.

Lemma clean_slot_drawn i logo s : mosaic_ok s.2 → drawn s (s.1, CleanSlot i logo s.2).
Proof. intros Hm. split; [by apply CleanSlot_kept|done]. Qed.

Lemma clean_then_show i id v videos m :
  mosaic_ok m → om_find id videos = Some v → drawn (videos, m) (show_output i id v videos (mosaic_Clean i m)).
Proof.
  intros Hm Hv. pose proof (mosaic_Clean_kept m i Hm) as Hc.
  eapply (drawn_trans _ (videos, mosaic_Clean i m)); [by split|]. apply show_output_drawn; [apply Hc|done].
Qed.

Lemma UpdateMosaic_drawn logo s : mosaic_ok s.2 → yields (UpdateMosaic logo s) (drawn s).
Proof.
  intros Hm. pose proof (num_nonneg _ Hm). apply for_slots_drawn; [done|lia|lia|].
  intros j [videos m] Hm' _ _ Hj. simpl in *. rewrite rd_pos by done. simpl.
  destruct (0 <? occupant m j); [|by apply clean_slot_drawn].
  destruct (om_find (occupant m j) videos) eqn:Hv; [by apply clean_then_show|by apply clean_slot_drawn].
Qed.

(** ** The invariant *)

Record mixer_ok (x : VideoMixer) : Prop := {
  mx_videos : om_sorted (vm_videos x);
  mx_mosaics : om_sorted (vm_mosaics x);
  mx_heap : om_sorted (vm_heap x);
  mx_alive : ∀ id a, om_find id (vm_mosaics x) = Some a → ∃ m, om_find a (vm_heap x) = Some m ∧ mosaic_ok m ∧ a < vm_next x;
  mx_owner : ∀ a, is_Some (om_find a (vm_heap x)) → ∃ id, om_find id (vm_mosaics x) = Some a;
  mx_single : ∀ i j a, om_find i (vm_mosaics x) = Some a → om_find j (vm_mosaics x) = Some a → i = j;
  mx_watched : ∀ id v a, om_find id (vm_videos x) = Some v → vs_mosaic v = Some a → ∃ mid, om_find mid (vm_mosaics x) = Some a;
}.

Lemma new_VideoMixer_ok : mixer_ok new_VideoMixer.
Proof. split; try apply om_sorted_nil; simpl; try done; by intros a [m Hm]. Qed.

Lemma watched_watch x v' id v a :
  mixer_ok x → same_watch (vm_videos x) v' → om_find id v' = Some v → vs_mosaic v = Some a →
  ∃ mid, om_find mid (vm_mosaics x) = Some a.
Proof.
  intros Hx [_ Hw] Hv Ha. specialize (Hw id). rewrite Hv in Hw. simpl in Hw.
  destruct (om_find id (vm_videos x)) as [v0|] eqn:E; [|done]. simpl in Hw. injection Hw as Hw.
  eapply mx_watched; [done|exact E|congruence].
Qed.

(** A mosaic is redrawn in place. *)
Lemma ok_redraw x id a m s :
  mixer_ok x → om_find id (vm_mosaics x) = Some a → om_find a (vm_heap x) = Some m → drawn (vm_videos x, m) s →
  mixer_ok (set_videos s.1 (set_heap (om_set a s.2 (vm_heap x)) x)).
Proof.
  intros Hx Hid Ha [[Hk Ht] Hw]. simpl in *. pose proof Hx as [H1 H2 H3 H4 H5 H6 H7]. split; simpl; try done.
  - by apply Hw.
  - by apply om_set_sorted.
  - intros i b Hi. destruct (H4 i b Hi) as (m' & Hb & Hm' & Hlt). destruct (decide (b = a)) as [->|].
    + exists s.2. rewrite om_find_set_eq. done.
    + exists m'. by rewrite om_find_set_ne.
  - intros b Hb. destruct (decide (b = a)) as [->|]; [by exists id|]. rewrite om_find_set_ne in Hb by done. by apply H5.
  - intros i v b Hv Hb. by eapply watched_watch.
Qed.

Lemma deref_ok x id a :
  mixer_ok x → om_find id (vm_mosaics x) = Some a → ∃ m, deref a x = Got m ∧ om_find a (vm_heap x) = Some m ∧ mosaic_ok m.
Proof.
  intros Hx Hid. destruct (mx_alive x Hx id a Hid) as (m & Hm & Hok & _). exists m. unfold deref. by rewrite Hm.
Qed.

(** ** One mosaic *)

Lemma fst_kept m (c : checked (Mosaic * Z)) : yields c (λ r, kept m r.1) → yields (let? r := c in Got r.1) (kept m).
Proof. by destruct c. Qed.

Lemma IsFixed_returns m pos : mosaic_ok m → yields (IsFixed pos m) (λ _, True).
Proof.
  intros Hm. unfold IsFixed. destruct (Z.ltb_spec (to_dword pos) (mo_numSlots m)); [|done].
  rewrite rd_slot; [done|done|]. split; [apply Z.mod_pos_bound; lia|done].
Qed.

Lemma GetBlockingTime_returns m pos : mosaic_ok m → yields (GetBlockingTime pos m) (λ _, True).
Proof.
  intros Hm. unfold GetBlockingTime. destruct (in_range pos m) eqn:Hr; [|done]. apply in_range_spec in Hr.
  rewrite rd1_in; [done|]. by rewrite (ok_blocking m Hm).
Qed.

Lemma GetVADPosition_returns m : mosaic_ok m → yields (GetVADPosition m) (λ _, True).
Proof. intros Hm. eapply yields_impl; [by apply GetVADPosition_spec|done]. Qed.

Lemma CalculatePositions_kept_only m : mosaic_ok m → yields (CalculatePositions m) (kept m).
Proof. intros Hm. eapply yields_impl; [by apply CalculatePositions_kept|]. by intros ? [? _]. Qed.

Lemma move_participants_kept ids old m : mosaic_ok old → mosaic_ok m → yields (move_participants ids old m) (kept m).
Proof.
  intros Hold. revert m. induction ids as [|id ids IH]; intros m Hm; simpl; [by apply kept_refl|].
  apply yields_kept_then; [|by intros m' [H _]; apply IH].
  destruct (mosaic_HasParticipant id old =? 1); [|by apply kept_refl].
  eapply yields_bind; [by apply mosaic_AddParticipant_kept|]. intros [m1 p] [Hm1 Ht1]. simpl in *.
  eapply yields_bind; [by apply IsFixed_returns|]. intros fixed _.
  destruct ((0 <=? _) && _ && fixed); [|by split].
  apply fst_kept. eapply yields_impl; [by apply mosaic_SetSlot_kept|]. intros [m2 q] H2. by eapply kept_trans.
Qed.

Lemma inherit_kept mode ids old m : mosaic_ok old → mosaic_ok m → yields (inherit mode ids old m) (kept m).
Proof.
  intros Hold Hm. unfold inherit. pose proof (mosaic_SetSlots_kept m (Some (mo_slots old)) Hm) as H0.
  eapply yields_bind; [apply move_participants_kept; [done|apply H0]|]. intros m1 H1.
  assert (Hk1 : kept m m1) by exact (kept_trans _ _ _ H0 H1). simpl.
  eapply yields_bind; [by apply GetVADPosition_returns|]. intros pos _. simpl.
  apply (yields_bind (kept m)).
  { destruct ((0 <=? pos) && (pos <? mo_numSlots m1)); [|done].
    apply fst_kept. eapply yields_impl; [apply SetVADParticipant_kept; apply Hk1|]. intros [m2 p] H2. by eapply kept_trans. }
  intros m2 H2. simpl. case_decide; [|done].
  apply fst_kept. eapply yields_impl; [apply mosaic_SetSlot_kept; apply H2|]. intros [m3 p] H3. by eapply kept_trans.
Qed.

Lemma find_speaker_kept ids vad se m : mosaic_ok m → yields (find_speaker ids vad se m) (λ r, kept m r.2).
Proof.
  revert se m. induction ids as [|id ids IH]; intros se m Hm; simpl; [by apply kept_refl|].
  destruct (mosaic_GetPosition id m =? NotFound); [by apply IH|].
  eapply yields_bind; [by apply IsFixed_returns|]. intros fixed _. destruct fixed; [by apply IH|].
  eapply yields_bind; [by apply UpdateParticipantInfo_kept|]. intros [m1 r] H1. simpl in *.
  eapply yields_impl; [apply IH; apply H1|]. intros [se' m2] H2. by eapply kept_trans.
Qed.

Lemma give_up_slot_kept pos m : mosaic_ok m → yields (give_up_slot pos m) (kept m).
Proof. intros Hm. apply fst_kept. by apply mosaic_SetSlot_kept. Qed.

Lemma SetVADParticipant_from m m0 id t :
  kept m0 m → yields (SetVADParticipant id t m) (λ r, kept m0 r.1).
Proof.
  intros H. eapply yields_impl; [apply SetVADParticipant_kept; apply H|]. intros [m1 p] H1. by eapply kept_trans.
Qed.

Lemma CleanSlot_from m0 m i logo : kept m0 m → kept m0 (CleanSlot i logo m).
Proof. intros H. eapply kept_trans; [exact H|]. apply CleanSlot_kept. apply H. Qed.

Lemma mosaic_Clean_from m0 m i : kept m0 m → kept m0 (mosaic_Clean i m).
Proof. intros H. eapply kept_trans; [exact H|]. apply mosaic_Clean_kept. apply H. Qed.

Lemma give_up_slot_from m0 m pos : kept m0 m → yields (give_up_slot pos m) (kept m0).
Proof.
  intros H. eapply yields_impl; [apply give_up_slot_kept; apply H|]. intros m1 H1. by eapply kept_trans.
Qed.

Lemma elect_speaker_kept mode logo time until oldVad oldVadPos se m :
  mosaic_ok m → yields (elect_speaker mode logo time until oldVad oldVadPos se m) (λ r, kept m r.1).
Proof.
  intros Hm. assert (H0 : kept m m) by (by apply kept_refl). unfold elect_speaker. destruct se as [maxVAD vadId vadPos changed].
  destruct (0 <? maxVAD), mode; try done.
  - eapply yields_bind; [apply SetVADParticipant_from; by apply CleanSlot_from|]. by intros [m1 p] H1.
  - eapply yields_bind; [by apply GetBlockingTime_returns|]. intros blocked _. destruct (blocked <=? time); [|done].
    eapply yields_bind.
    { apply SetVADParticipant_from. destruct (negb (vadId =? oldVad)); [by apply mosaic_Clean_from|done]. }
    intros [m1 p] H1. simpl in *. destruct (_ && _ && _); [|done].
    eapply yields_bind; [by apply give_up_slot_from|]. intros m2 H2. by apply CleanSlot_from.
  - by apply CleanSlot_from.
  - destruct (0 <? oldVad).
    + eapply yields_bind; [by apply SetVADParticipant_from|]. by intros [m1 p] H1.
    + eapply yields_bind; [by apply SetVADParticipant_from|]. intros [m1 p] H1. simpl in *.
      destruct (_ && _); [|done].
      eapply yields_bind; [by apply give_up_slot_from|]. intros m2 H2. simpl.
      assert (H3 : kept m (CleanSlot vadPos logo (mosaic_Clean oldVadPos m2))) by (by apply CleanSlot_from, mosaic_Clean_from).
      destruct (0 <? vadId); [|done].
      eapply yields_bind; [apply UpdateParticipantInfo_kept; apply H3|]. intros [m4 q] H4. simpl in *. by eapply kept_trans.
Qed.

(** ** A pass *)

Lemma redraw_slots_drawn logo s old :
  mosaic_ok s.2 → Zlen old = mo_numSlots s.2 →
  yields (for_slots (Z.to_nat (mo_numSlots s.2)) 0 (redraw_slot logo old) s) (drawn s).
Proof.
  intros Hm Hl. pose proof (num_nonneg _ Hm). apply for_slots_drawn; [done|lia|lia|].
  intros j [videos m] Hm' Hj0 _ Hj. simpl in *. rewrite rd1_in by (rewrite Hl; done). simpl. rewrite rd_pos by done. simpl.
  destruct (zget j old =? occupant m j); [by apply drawn_refl|].
  destruct (negb (occupant m j =? SlotFree)); [|by apply clean_slot_drawn].
  destruct (om_find (occupant m j) videos) eqn:Hv; [by apply clean_then_show|by apply drawn_refl].
Qed.

Lemma draw_speaker_drawn version oldVadPos oldVad s : mosaic_ok s.2 → yields (draw_speaker version oldVadPos oldVad s) (drawn s).
Proof.
  intros Hm. destruct s as [videos m]. unfold draw_speaker. simpl in Hm.
  eapply yields_bind; [by apply GetVADPosition_returns|]. intros vadPos _. simpl.
  destruct (0 <=? vadPos); [|by apply drawn_refl].
  destruct (om_find (mo_vadParticipant m) videos) as [v|] eqn:Hv; [|by apply drawn_refl].
  destruct (IsChanged version (vs_output v)) as [o changed]. destruct (GetFrame o) as [o' pic]. split; simpl.
  - match goal with |- context [mosaic_Update _ _ ?m1] => assert (Hk : kept m m1) end.
    { destruct (_ || _ || _); [by apply kept_keep|by apply kept_refl]. }
    eapply kept_trans; [exact Hk|]. apply mosaic_Update_kept. apply Hk.
  - by apply set_output_watch.
Qed.

Lemma vad_pass_drawn mode logo vad version time until s :
  mosaic_ok s.2 → yields (vad_pass mode logo vad version time until s) (drawn s).
Proof.
  intros Hm. destruct s as [videos m]. unfold vad_pass. simpl in Hm.
  eapply yields_bind; [by apply find_speaker_kept|]. intros [se m1] H1. simpl in H1 |- *.
  eapply yields_bind; [apply GetVADPosition_returns; apply H1|]. intros oldVadPos _.
  apply (yields_bind (λ r, kept m r.1)).
  { destruct (0 <=? oldVadPos); [|done]. eapply yields_impl; [apply elect_speaker_kept; apply H1|].
    intros [m2 c] H2. by eapply kept_trans. }
  intros [m2 changed] H2. simpl in H2. apply (yields_bind (drawn (videos, m))).
  - destruct (bool_decide (mode = FullVAD) && changed); [|by split].
    eapply yields_bind; [apply CalculatePositions_kept_only; apply H2|]. intros m3 H3.
    assert (Hk : kept m m3) by (by eapply kept_trans).
    eapply yields_impl; [apply (redraw_slots_drawn logo (videos, m3))|].
    + apply Hk.
    + destruct H2 as [H2 ?], H3 as [H3 ?]. simpl. rewrite (ok_pos m2 H2), (ok_num m2 H2), (ok_num m3 H3). congruence.
    + intros s Hs. eapply drawn_trans; [|exact Hs]. by split.
  - intros s Hs. eapply yields_impl; [apply draw_speaker_drawn; apply Hs|]. intros s' Hs'. by eapply drawn_trans.
Qed.

Lemma draw_all_drawn ids version s : mosaic_ok s.2 → drawn s (draw_all ids version s).
Proof.
  revert s. induction ids as [|id ids IH]; intros [videos m] Hm; [by apply drawn_refl|]. simpl in *.
  match goal with |- drawn _ (draw_all ids version ?s1) => assert (Hs : drawn (videos, m) s1) end.
  { destruct (om_find id videos) as [v|] eqn:Hv; [|by apply drawn_refl].
    destruct (0 <=? mosaic_GetPosition id m); [|by apply drawn_refl].
    destruct (IsChanged version (vs_output v)) as [o changed]. destruct changed.
    - destruct (SizeHasChanged o) as [o' sized]. destruct (GetFrame o') as [o'' pic]. split; simpl; [|by apply set_output_watch].
      match goal with |- context [mosaic_Update _ _ ?m1] => assert (Hk : kept m m1) end.
      { destruct sized; [by apply mosaic_Clean_from, kept_keep|by apply kept_keep]. }
      eapply kept_trans; [exact Hk|]. apply mosaic_Update_kept. apply Hk.
    - split; simpl; [by apply kept_keep|by apply set_output_watch]. }
  eapply drawn_trans; [exact Hs|]. apply IH. apply Hs.
Qed.

(** ** The operations of the mixer *)

(** Nothing else of the mixer changes while its mosaics are redrawn. *)
Definition same_map (x x' : VideoMixer) : Prop := vm_mosaics x' = vm_mosaics x ∧ vm_next x' = vm_next x.

Lemma for_mosaics_ok ids body x :
  mixer_ok x → (∀ s, mosaic_ok s.2 → yields (body s) (drawn s)) →
  yields (for_mosaics ids body x) (λ x', mixer_ok x' ∧ same_map x x').
Proof.
  intros Hx Hbody. revert x Hx. induction ids as [|id ids IH]; intros x Hx; simpl; [done|].
  apply (yields_bind (λ x', mixer_ok x' ∧ same_map x x')).
  - destruct (om_find id (vm_mosaics x)) as [a|] eqn:Ha; [|done].
    destruct (deref_ok x id a Hx Ha) as (m & -> & Hm & Hok). simpl.
    eapply yields_bind; [by apply (Hbody (vm_videos x, m))|]. intros s Hs. simpl. split; [by eapply ok_redraw|done].
  - intros x1 [H1 [H2 H3]]. eapply yields_impl; [by apply IH|]. intros x2 [H4 [H5 H6]]. split; [done|split; congruence].
Qed.

Lemma ok_videos x v' :
  mixer_ok x → (om_sorted (vm_videos x) → om_sorted v') →
  (∀ id v a, om_find id v' = Some v → vs_mosaic v = Some a →
     (∃ v0, om_find id (vm_videos x) = Some v0 ∧ vs_mosaic v0 = Some a) ∨ ∃ mid, om_find mid (vm_mosaics x) = Some a) →
  mixer_ok (set_videos v' x).
Proof.
  intros [H1 H2 H3 H4 H5 H6 H7] Hs Hw. split; simpl; auto. intros id v a Hv Ha.
  destruct (Hw id v a Hv Ha) as [(v0 & Hv0 & Ha0)|H]; [by eapply H7|done].
Qed.

(** One participant's entry is replaced. *)
Lemma ok_set_video x id v :
  mixer_ok x → (∀ a, vs_mosaic v = Some a → (∃ v0, om_find id (vm_videos x) = Some v0 ∧ vs_mosaic v0 = Some a) ∨
                   ∃ mid, om_find mid (vm_mosaics x) = Some a) →
  mixer_ok (set_videos (om_set id v (vm_videos x)) x).
Proof.
  intros Hx Hv. apply ok_videos; [done|apply om_set_sorted|]. intros id' v' a Hf Ha.
  destruct (decide (id' = id)) as [->|].
  - rewrite om_find_set_eq in Hf. injection Hf as <-. by apply Hv.
  - rewrite om_find_set_ne in Hf by done. left. by exists v'.
Qed.

Lemma vm_CreateMixer_ok id x : mixer_ok x → mixer_ok (vm_CreateMixer id x).1.
Proof. intros Hx. unfold vm_CreateMixer. destruct (om_find id (vm_videos x)); [done|]. by apply ok_set_video. Qed.

Lemma vm_InitMixer_ok id mid x : mixer_ok x → mixer_ok (vm_InitMixer id mid x).1.
Proof.
  intros Hx. unfold vm_InitMixer. destruct (om_find id (vm_videos x)) as [v|] eqn:Hv; [|done].
  apply ok_set_video; [done|]. intros a. destruct (om_find mid (vm_mosaics x)) eqn:Hm; simpl.
  - intros [= <-]. right. by exists mid.
  - intros Ha. left. by exists v.
Qed.

Lemma vm_SetMixerMosaic_ok id mid x : mixer_ok x → mixer_ok (vm_SetMixerMosaic id mid x).1.
Proof.
  intros Hx. unfold vm_SetMixerMosaic, SetMixerMosaic_locked. destruct (om_find id (vm_videos x)) as [v|] eqn:Hv; [|done].
  apply ok_set_video; [done|]. intros a Ha. right. by exists mid.
Qed.

Lemma vm_DeleteMixer_ok id x : mixer_ok x → mixer_ok (vm_DeleteMixer id x).
Proof.
  intros Hx. apply ok_videos; [done|apply om_erase_sorted|]. intros id' v a Hv Ha.
  destruct (decide (id' = id)) as [->|]; [by rewrite om_find_erase_eq in Hv|].
  rewrite om_find_erase_ne in Hv by done. left. by exists v.
Qed.

Lemma ok_alter_output x id f : mixer_ok x → mixer_ok (set_videos (om_alter (λ v, set_output (f v) v) id (vm_videos x)) x).
Proof.
  intros Hx. apply ok_videos; [done|apply om_alter_sorted|]. intros id' v a Hv Ha. left.
  destruct (decide (id' = id)) as [->|].
  - rewrite om_find_alter_eq in Hv. destruct (om_find id (vm_videos x)) as [v0|]; [|done]. simpl in Hv.
    injection Hv as <-. by exists v0.
  - rewrite om_find_alter_ne in Hv by done. by exists v.
Qed.

Lemma fresh_address x : mixer_ok x → om_find (vm_next x) (vm_heap x) = None.
Proof.
  intros Hx. destruct (om_find (vm_next x) (vm_heap x)) as [m0|] eqn:E; [|done].
  destruct (mx_owner x Hx (vm_next x)) as [id Hid]; [by eexists|].
  destruct (mx_alive x Hx id _ Hid) as (m & _ & _ & Hlt). lia.
Qed.

Lemma find_rewatch from to id videos :
  om_find id (rewatch from to videos) =
  (λ v, if decide (vs_mosaic v = Some from) then watch to v else v) <$> om_find id videos.
Proof. apply om_find_map. Qed.

Lemma om_map_sorted_videos from to videos : om_sorted videos → om_sorted (rewatch from to videos).
Proof. apply om_map_sorted. Qed.

(** The mosaic [mosaicId] is replaced, or created, at a fresh address; what watched the old one watches
    the new one. *)
Lemma ok_replace x mosaicId videos' m dflt mx :
  mixer_ok x → mosaic_ok m →
  let a := vm_next x in
  let old := om_find mosaicId (vm_mosaics x) in
  same_watch (match old with Some b => rewatch b (Some a) (vm_videos x) | None => vm_videos x end) videos' →
  mixer_ok (mkVideoMixer videos' (om_set mosaicId a (vm_mosaics x))
    (om_set a m (match old with Some b => om_erase b (vm_heap x) | None => vm_heap x end))
    (a + 1) mx (vm_logo x) dflt (vm_mixing x) (vm_proxy x) (vm_vadMode x)).
Proof.
  intros Hx Hm a old [Hws Hw]. pose proof Hx as [H1 H2 H3 H4 H5 H6 H7]. pose proof (fresh_address x Hx) as Hfresh. fold a in Hfresh.
  assert (Hkeep : ∀ c, Some c ≠ old → om_find c (match old with Some b => om_erase b (vm_heap x) | None => vm_heap x end) = om_find c (vm_heap x)).
  { intros c Hc. destruct old as [b|]; [|done]. apply om_find_erase_ne. congruence. }
  assert (Hother : ∀ i c, i ≠ mosaicId → om_find i (vm_mosaics x) = Some c → Some c ≠ old ∧ c ≠ a).
  { intros i c Hi Hc. split.
    - intros Hold. apply Hi. by eapply H6.
    - intros ->. destruct (H4 i a Hc) as (m' & Hm' & _). congruence. }
  split; simpl.
  - apply Hws. destruct old; [by apply om_map_sorted_videos|done].
  - by apply om_set_sorted.
  - apply om_set_sorted. destruct old; [by apply om_erase_sorted|done].
  - intros i c Hc. destruct (decide (i = mosaicId)) as [->|Hne].
    + rewrite om_find_set_eq in Hc. injection Hc as <-. exists m. rewrite om_find_set_eq. split_and!; [done..|lia].
    + rewrite om_find_set_ne in Hc by done. destruct (H4 i c Hc) as (m' & Hm' & Hok & Hlt).
      destruct (Hother i c Hne Hc). exists m'. rewrite om_find_set_ne, Hkeep by done. split_and!; [done..|unfold a; lia].
  - intros c Hc. destruct (decide (c = a)) as [->|Hca]; [exists mosaicId; apply om_find_set_eq|].
    rewrite om_find_set_ne in Hc by done.
    assert (Hc0 : Some c ≠ old). { intros <-. rewrite om_find_erase_eq in Hc. by destruct Hc. }
    rewrite Hkeep in Hc by done. destruct (H5 c Hc) as [i Hi]. exists i. rewrite om_find_set_ne; [done|]. by intros ->.
  - intros i j c Hi Hj. destruct (decide (i = mosaicId)) as [->|Hni], (decide (j = mosaicId)) as [->|Hnj]; [done|..].
    + rewrite om_find_set_eq in Hi. rewrite om_find_set_ne in Hj by done. injection Hi as <-. by destruct (Hother j a Hnj Hj).
    + rewrite om_find_set_eq in Hj. rewrite om_find_set_ne in Hi by done. injection Hj as <-. by destruct (Hother i a Hni Hi).
    + rewrite om_find_set_ne in Hi, Hj by done. by eapply H6.
  - intros id v c Hv Hc. specialize (Hw id). rewrite Hv in Hw. simpl in Hw.
    assert (Hgoal : ∀ v0, om_find id (vm_videos x) = Some v0 → vs_mosaic v0 = Some c → Some c ≠ old →
      ∃ mid, om_find mid (om_set mosaicId a (vm_mosaics x)) = Some c).
    { intros v0 Hv0 Hc0 Hne. destruct (H7 id v0 c Hv0 Hc0) as [mid Hmid]. exists mid. rewrite om_find_set_ne; [done|]. by intros ->. }
    destruct old as [b|] eqn:Hold.
    + rewrite find_rewatch in Hw. destruct (om_find id (vm_videos x)) as [v0|] eqn:Hv0; [|done]. simpl in Hw.
      case_decide as Hb; simpl in Hw; injection Hw as Hw.
      * rewrite Hw in Hc. injection Hc as <-. exists mosaicId. apply om_find_set_eq.
      * apply (Hgoal v0); [done|congruence|congruence].
    + destruct (om_find id (vm_videos x)) as [v0|] eqn:Hv0; [|done]. simpl in Hw. injection Hw as Hw.
      apply (Hgoal v0); [done|congruence|done].
Qed.

Definition ok_result {A} (c : checked (VideoMixer * A)) : Prop := yields c (λ r, mixer_ok r.1).

(** An operation on the mosaic [mosaicId], found in the map. *)
Lemma ok_on_mosaic {A} x mosaicId (none : A) (k : Z → Mosaic → checked (VideoMixer * A)) :
  mixer_ok x →
  (∀ a m, om_find mosaicId (vm_mosaics x) = Some a → om_find a (vm_heap x) = Some m → mosaic_ok m → ok_result (k a m)) →
  ok_result (match om_find mosaicId (vm_mosaics x) with None => Got (x, none) | Some a => let? m := deref a x in k a m end).
Proof.
  intros Hx Hk. destruct (om_find mosaicId (vm_mosaics x)) as [a|] eqn:Ha; [|done].
  destruct (deref_ok x mosaicId a Hx Ha) as (m & -> & Hm & Hok). by apply Hk.
Qed.

Lemma vm_AddMosaicParticipant_ok mid id x : mixer_ok x → ok_result (vm_AddMosaicParticipant mid id x).
Proof.
  intros Hx. apply ok_on_mosaic; [done|]. intros a m Ha Hm Hok.
  eapply yields_bind; [by apply mosaic_AddParticipant_kept|]. intros [m1 p] H1.
  apply (ok_redraw x mid a m (vm_videos x, m1)); [done..|]. by split.
Qed.

Lemma vm_SetSlot_ok mid num id x : mixer_ok x → ok_result (vm_SetSlot mid num id x).
Proof.
  intros Hx. apply ok_on_mosaic; [done|]. intros a m Ha Hm Hok.
  set (m0 := if 0 <=? mosaic_GetPosition id m then CleanSlot (mosaic_GetPosition id m) (vm_logo x) m else m).
  assert (H0 : kept m m0) by (unfold m0; case_goal; [by apply CleanSlot_kept|by apply kept_refl]).
  eapply yields_bind; [apply mosaic_SetSlot_kept; apply H0|]. intros [m1 r] H1. simpl in H1 |- *.
  eapply yields_bind; [apply CalculatePositions_kept_only; apply H1|]. intros m2 H2.
  assert (Hk : kept m m2) by eauto using kept_trans.
  eapply yields_bind; [apply (UpdateMosaic_drawn _ (vm_videos x, m2)); apply Hk|]. intros s Hs.
  eapply ok_redraw; [done..|]. eapply drawn_trans; [|exact Hs]. by split.
Qed.

Lemma vm_RemoveMosaicParticipant_ok mid id x :
  mixer_ok x → yields (vm_RemoveMosaicParticipant mid id x) (λ r, mixer_ok r.1 ∧ same_map x r.1).
Proof.
  intros Hx. unfold vm_RemoveMosaicParticipant. destruct (om_find mid (vm_mosaics x)) as [a|] eqn:Ha; [|done].
  destruct (deref_ok x mid a Hx Ha) as (m & -> & Hm & Hok). simpl.
  apply (yields_bind (kept m)).
  { destruct (id =? mo_vadParticipant m); [|by apply kept_refl].
    eapply yields_bind; [by apply GetVADPosition_returns|]. intros pos _.
    apply fst_kept. apply SetVADParticipant_from. by apply CleanSlot_kept. }
  intros m1 H1. eapply yields_bind; [apply mosaic_RemoveParticipant_kept; apply H1|]. intros [m2 pos] H2. simpl in H2.
  assert (Hk : kept m m2) by (by eapply kept_trans).
  apply (yields_bind (drawn (vm_videos x, m))).
  { destruct (negb (pos =? NotFound)); [|by split].
    eapply yields_impl; [apply (UpdateMosaic_drawn _ (vm_videos x, m2)); apply Hk|]. intros s Hs.
    eapply drawn_trans; [|exact Hs]. by split. }
  intros s Hs. simpl. split; [by eapply ok_redraw|done].
Qed.

Lemma leave_all_ok ids id x : mixer_ok x → yields (leave_all ids id x) mixer_ok.
Proof.
  revert x. induction ids as [|mid ids IH]; intros x Hx; simpl; [done|].
  eapply yields_bind; [by apply vm_RemoveMosaicParticipant_ok|]. intros [x1 r] [H1 _]. by apply IH.
Qed.

Lemma vm_EndMixer_ok id x : mixer_ok x → ok_result (vm_EndMixer id x).
Proof.
  intros Hx. unfold vm_EndMixer. destruct (om_find id (vm_videos x)) as [v|]; [|done].
  set (x1 := set_videos _ x). assert (H1 : mixer_ok x1) by (by apply ok_set_video).
  apply (yields_bind mixer_ok); [|done]. destruct (vm_mixing x1); [by apply leave_all_ok|done].
Qed.

Lemma vm_SetCompositionType_ok mid comp x : mixer_ok x → ok_result (vm_SetCompositionType mid comp x).
Proof.
  intros Hx. destruct comp as [type|]; [|done]. unfold vm_SetCompositionType.
  pose proof (ok_replace x mid) as Hrep. pose proof (new_mosaic_ok type) as Hnew. revert Hrep.
  destruct (om_find mid (vm_mosaics x)) as [b|] eqn:Hb; intros Hrep.
  - destruct (deref_ok x mid b Hx Hb) as (old & -> & Hold & Hok). simpl.
    pose proof (inherit_kept (vm_vadMode x) (vm_videos x).*1 old _ Hok Hnew) as Hi.
    apply yields_got in Hi as (m1 & -> & H1). simpl.
    pose proof (CalculatePositions_kept_only m1 (proj1 H1)) as Hc. apply yields_got in Hc as (m2 & -> & H2). simpl.
    set (videos := rewatch b (Some (vm_next x)) (vm_videos x)).
    pose proof (UpdateMosaic_drawn (vm_logo x) (videos, m2) (proj1 H2)) as Hu. apply yields_got in Hu as (s & Hu & Hs).
    case_decide; simpl; rewrite Hu; simpl; apply Hrep; try done; try apply Hs.
  - simpl. pose proof (CalculatePositions_kept_only _ Hnew) as Hc. apply yields_got in Hc as (m2 & -> & H2). simpl.
    pose proof (UpdateMosaic_drawn (vm_logo x) (vm_videos x, m2) (proj1 H2)) as Hu. apply yields_got in Hu as (s & -> & Hs).
    simpl. apply Hrep; try done; apply Hs.
Qed.

Lemma vm_CreateMosaic_ok comp x : mixer_ok x → ok_result (vm_CreateMosaic comp x).
Proof.
  intros Hx. unfold vm_CreateMosaic. eapply yields_bind; [apply vm_SetCompositionType_ok|by intros [x1 r] H1].
  by destruct Hx.
Qed.

Lemma vm_Init_ok comp logo x : mixer_ok x → ok_result (vm_Init comp logo x).
Proof.
  intros Hx. unfold vm_Init. eapply yields_bind; [apply vm_CreateMosaic_ok; by destruct Hx|].
  intros [x1 id] H1. simpl in H1. destruct (id <? 0); [done|]. simpl. by destruct H1.
Qed.

Lemma vm_LoadLogo_ok logo x : mixer_ok x → ok_result (vm_LoadLogo logo x).
Proof.
  intros Hx. unfold vm_LoadLogo. destruct logo as [pic|]; [|by destruct Hx].
  eapply yields_bind; [apply for_mosaics_ok; [by destruct Hx|]|by intros x1 [H1 _]].
  intros [videos m] Hm. simpl in Hm. eapply yields_impl; [apply (UpdateMosaic_drawn _ (videos, KeepAspectRatio false m)); by apply ok_keep|].
  intros s Hs. eapply drawn_trans; [|exact Hs]. split; [by apply kept_keep|done].
Qed.

Lemma vm_DeleteMosaic_ok mid x : mixer_ok x → mixer_ok (vm_DeleteMosaic mid x).1.
Proof.
  intros Hx. unfold vm_DeleteMosaic. destruct (om_find mid (vm_mosaics x)) as [a|] eqn:Ha; [|done].
  destruct Hx as [H1 H2 H3 H4 H5 H6 H7]. split; simpl.
  - by apply om_map_sorted_videos.
  - by apply om_erase_sorted.
  - by apply om_erase_sorted.
  - intros i c Hc. destruct (decide (i = mid)) as [->|]; [by rewrite om_find_erase_eq in Hc|].
    rewrite om_find_erase_ne in Hc by done. destruct (H4 i c Hc) as (m & Hm & ?). exists m.
    rewrite om_find_erase_ne; [done|]. intros ->. by apply (H6 i mid) in Hc.
  - intros c [m Hm]. destruct (decide (c = a)) as [->|]; [by rewrite om_find_erase_eq in Hm|].
    rewrite om_find_erase_ne in Hm by done. destruct (H5 c) as [i Hi]; [by exists m|]. exists i.
    rewrite om_find_erase_ne; [done|]. intros ->. congruence.
  - intros i j c Hi Hj. destruct (decide (i = mid)) as [->|]; [by rewrite om_find_erase_eq in Hi|].
    destruct (decide (j = mid)) as [->|]; [by rewrite om_find_erase_eq in Hj|].
    rewrite om_find_erase_ne in Hi, Hj by done. by eapply H6.
  - intros id v c Hv Hc. rewrite find_rewatch in Hv. destruct (om_find id (vm_videos x)) as [v0|] eqn:Hv0; [|done].
    simpl in Hv. case_decide; injection Hv as <-; [done|]. destruct (H7 id v0 c Hv0 Hc) as [i Hi]. exists i.
    rewrite om_find_erase_ne; [done|]. intros ->. congruence.
Qed.

Lemma vm_SetVADMode_ok mode x : mixer_ok x → yields (vm_SetVADMode mode x) mixer_ok.
Proof.
  intros Hx. unfold vm_SetVADMode. case_decide; [|by destruct Hx].
  eapply yields_impl; [apply for_mosaics_ok; [by destruct Hx|]|by intros x1 [H1 _]].
  intros [videos m] Hm. simpl in Hm. eapply yields_bind; [by apply GetVADPosition_returns|]. intros vadPos _.
  destruct (_ && _); [|by apply drawn_refl].
  eapply yields_bind; [by apply mosaic_SetSlot_kept|]. intros [m1 r] H1. simpl in H1 |- *.
  eapply yields_bind; [by apply SetVADParticipant_from|]. intros [m2 p] H2. split; [by apply CleanSlot_from|done].
Qed.

Lemma vm_pass_ok vad version time until x : mixer_ok x → yields (vm_pass vad version time until x) mixer_ok.
Proof.
  intros Hx. unfold vm_pass. eapply yields_impl; [apply for_mosaics_ok; [done|]|by intros x1 [H1 _]].
  intros s Hm. apply (yields_bind (drawn s)).
  - destruct (_ && _); [by apply vad_pass_drawn|by apply drawn_refl].
  - intros s1 H1. eapply drawn_trans; [exact H1|]. apply draw_all_drawn. apply H1.
Qed.

Lemma handed_out_returns videos force x :
  (∀ id v a, (id, v) ∈ videos → vs_mosaic v = Some a → is_Some (om_find a (vm_heap x))) →
  yields (handed_out videos force x) (Forall (λ p, ∃ v, (p.1, v) ∈ videos ∧ vs_mosaic v = Some p.2)).
Proof.
  induction videos as [|[id v] videos IH]; intros Hw; simpl; [by constructor|].
  apply (yields_bind (Forall (λ p : Z * Z, p.1 = id ∧ vs_mosaic v = Some p.2))).
  - destruct (vs_mosaic v) as [a|] eqn:Ha; [|by constructor]. destruct (Hw id v a) as [m Hm]; [by left|done|].
    unfold deref. rewrite Hm. simpl. destruct (_ || _); by repeat constructor.
  - intros given Hg. eapply yields_bind.
    { apply IH. intros id' v' a Hin Ha. apply (Hw id' v' a); [by right|done]. }
    intros l Hl. apply Forall_app. split.
    + eapply Forall_impl; [exact Hg|]. intros p [-> Hp]. exists v. split; [by left|done].
    + eapply Forall_impl; [exact Hl|]. intros p (v' & Hin & Hp). exists v'. split; [by right|done].
Qed.

Lemma vm_deliver_ok force x :
  mixer_ok x → yields (vm_deliver force x) (λ r, mixer_ok r.1 ∧
    Forall (λ p, ∃ v, om_find p.1 (vm_videos x) = Some v ∧ vs_mosaic v = Some p.2) r.2).
Proof.
  intros Hx. unfold vm_deliver. eapply yields_bind; [apply handed_out_returns|].
  - intros id v a Hin Ha. apply om_elem_find in Hin; [|by apply mx_videos].
    destruct (mx_watched x Hx id v a Hin Ha) as [mid Hmid]. destruct (mx_alive x Hx mid a Hmid) as (m & Hm & _). by exists m.
  - intros l Hl. eapply yields_bind; [apply for_mosaics_ok; [done|]|].
    + intros [videos m] [] . by split; [split|].
    + intros x1 [H1 _]. split; [done|]. eapply Forall_impl; [exact Hl|]. intros p (v & Hin & Hp).
      exists v. split; [|done]. apply om_elem_find; [by apply mx_videos|done].
Qed.
