(* ===== verification/VideoMixerClaims.v ===== *)
(** * The video mixer: what its operations guarantee

    Any sequence of operations and passes runs without touching a destroyed mosaic or a slot that
    is not there ([mixer_never_dangles]).  After an operation that lays a mosaic out again every slot
    holds the picture of who is in it, or the logo ([slots_show_their_participants]). *)

From S2P Require Import Prelude OrderedMap Octets Mosaic MosaicLaws VideoMixer VideoMixerProps.

(** The last picture of a participant, with whether its aspect is kept. *)
Definition last_picture (v : VideoSource) : option (Picture * bool) :=
  (λ pic, (pic, vo_keepAspect (vs_output v))) <$> vo_last (vs_output v).

(** What the slot of participant [p] is to hold; [p] is 0 for nobody. *)
Definition expected (videos : Videos) (logo : option Picture) (p : Z) : option (Picture * bool) :=
  match (if 0 <? p then om_find p videos else None) with
  | Some v => last_picture v
  | None => (λ pic, (pic, false)) <$> logo
  end.

Definition same_pictures (v v' : Videos) : Prop := ∀ id, last_picture <$> om_find id v' = last_picture <$> om_find id v.

Lemma same_pictures_expected v v' logo p : same_pictures v v' → expected v' logo p = expected v logo p.
Proof.
  intros H. unfold expected. destruct (0 <? p); [|done]. specialize (H p).
  destruct (om_find p v'), (om_find p v); simpl in H; congruence.
Qed.

Lemma same_pictures_trans a b c : same_pictures a b → same_pictures b c → same_pictures a c.
Proof. intros H1 H2 id. by rewrite H2. Qed.

Lemma read_frame_same id v videos :
  om_find id videos = Some v → same_pictures videos (om_set id (set_output (GetFrame (vs_output v)).1 v) videos).
Proof.
  intros Hv id'. destruct (decide (id' = id)) as [->|].
  - by rewrite om_find_set_eq, Hv.
  - by rewrite om_find_set_ne.
Qed.

Lemma frames_put m i b (f : option Picture) :
  mosaic_ok m → is_slot m i →
  mo_frames (mosaic_Update i f (KeepAspectRatio b (mosaic_Clean i m))).1 =
  <[Z.to_nat i := (λ pic, (pic, b)) <$> f]> (mo_frames m).
Proof.
  intros Hm [Hi1 Hi2]. pose proof (ok_frames m Hm) as Hl.
  assert (Ht : (0 <=? i) && (i <? Zlen (mo_frames m)) = true) by (apply andb_true_iff; split; [by apply Z.leb_le|apply Z.ltb_lt; lia]).
  unfold mosaic_Clean, KeepAspectRatio, mosaic_Update. destruct f as [pic|]; simpl; rewrite Ht; simpl; [|done].
  rewrite Zlen_insert, Ht. apply list_insert_insert_eq.
Qed.

Lemma frames_clean_slot m i logo :
  mosaic_ok m → is_slot m i → mo_frames (CleanSlot i logo m) = <[Z.to_nat i := (λ pic, (pic, false)) <$> logo]> (mo_frames m).
Proof.
  intros Hm [Hi1 Hi2]. pose proof (ok_frames m Hm) as Hl.
  assert (Ht : (0 <=? i) && (i <? Zlen (mo_frames m)) = true) by (apply andb_true_iff; split; [by apply Z.leb_le|apply Z.ltb_lt; lia]).
  unfold CleanSlot, mosaic_Clean, KeepAspectRatio, mosaic_Update. destruct logo; simpl; by rewrite Ht.
Qed.

(** One slot: its frame becomes what is expected, nothing else of the mosaic that matters changes. *)
Record slot_updated (logo : option Picture) (i : Z) (s s' : Videos * Mosaic) : Prop := {
  su_drawn : drawn s s';
  su_pictures : same_pictures s.1 s'.1;
  su_pos : mo_pos s'.2 = mo_pos s.2;
  su_places : mo_participants s'.2 = mo_participants s.2;
  su_frames : mo_frames s'.2 = <[Z.to_nat i := expected s.1 logo (occupant s.2 i)]> (mo_frames s.2);
}.

Lemma update_slot_updated logo i s : mosaic_ok s.2 → is_slot s.2 i → yields (update_slot logo i s) (slot_updated logo i s).
Proof.
  intros Hm Hi. destruct s as [videos m]. simpl in Hm, Hi. unfold update_slot. rewrite rd_pos by done. simpl.
  assert (Hno : (if 0 <? occupant m i then om_find (occupant m i) videos else None) = None →
    slot_updated logo i (videos, m) (videos, CleanSlot i logo m)).
  { intros Hn. split; simpl; [by apply (clean_slot_drawn i logo (videos, m))|done|..].
    - unfold CleanSlot. by destruct logo.
    - unfold CleanSlot. by destruct logo.
    - unfold expected. rewrite Hn. by apply frames_clean_slot. }
  destruct (0 <? occupant m i) eqn:Hp; [|by apply Hno].
  destruct (om_find (occupant m i) videos) as [v|] eqn:Hv; [|by apply Hno].
  split; simpl.
  - by apply clean_then_show.
  - by apply read_frame_same.
  - by destruct (vo_last (vs_output v)).
  - by destruct (vo_last (vs_output v)).
  - unfold expected. rewrite Hp, Hv. by apply frames_put.
Qed.

Lemma update_slots_from logo k i s :
  mosaic_ok s.2 → 0 <= i → i + Z.of_nat k = mo_numSlots s.2 →
  yields (for_slots k i (update_slot logo) s) (λ s',
    drawn s s' ∧ same_pictures s.1 s'.1 ∧ mo_pos s'.2 = mo_pos s.2 ∧ mo_participants s'.2 = mo_participants s.2 ∧
    ∀ j, is_slot s.2 j → mo_frames s'.2 !! Z.to_nat j =
      if decide (i <= j) then Some (expected s.1 logo (occupant s.2 j)) else mo_frames s.2 !! Z.to_nat j).
Proof.
  revert i s. induction k as [|k IH]; intros i s Hm Hi Hk; simpl.
  { split; [by apply drawn_refl|]. do 3 (split; [done|]). intros j [Hj1 Hj2]. rewrite decide_False by lia. done. }
  assert (Hs : is_slot s.2 i) by (unfold is_slot; lia).
  eapply yields_bind; [by apply update_slot_updated|]. intros s1 [Hd Hp Hpos Hpl Hf].
  assert (Hn : mo_numSlots s1.2 = mo_numSlots s.2).
  { destruct Hd as [[Hk1 Ht] _]. by rewrite (ok_num _ Hk1), (ok_num _ Hm), Ht. }
  eapply yields_impl; [apply IH; [apply Hd|lia|lia]|].
  intros s2 (Hd2 & Hp2 & Hpos2 & Hpl2 & Hf2).
  split; [by eapply drawn_trans|]. split; [by eapply same_pictures_trans|]. do 2 (split; [congruence|]).
  intros j Hj. rewrite Hf2 by (unfold is_slot in *; lia). rewrite Hf. unfold occupant. rewrite Hpos.
  rewrite (same_pictures_expected _ _ _ _ Hp). destruct Hj as [Hj1 Hj2].
  destruct (decide (j = i)) as [->|].
  - rewrite decide_False, decide_True by lia. apply list_lookup_insert_eq. pose proof (ok_frames _ Hm). unfold Zlen in *. lia.
  - destruct (decide (i <= j)); [by rewrite decide_True by lia|]. rewrite decide_False by lia.
    apply list_lookup_insert_ne. lia.
Qed.

(** Every slot holds what it is expected to hold. *)
Definition shows (logo : option Picture) (s : Videos * Mosaic) : Prop :=
  mo_frames s.2 = expected s.1 logo <$> mo_pos s.2.

Lemma UpdateMosaic_shows logo s :
  mosaic_ok s.2 → yields (UpdateMosaic logo s) (λ s', drawn s s' ∧ mo_pos s'.2 = mo_pos s.2 ∧ shows logo s').
Proof.
  intros Hm. pose proof (num_nonneg _ Hm). eapply yields_impl; [apply update_slots_from; [done|lia|lia]|].
  intros s' (Hd & Hp & Hpos & _ & Hf). do 2 (split; [done|]). unfold shows. rewrite Hpos.
  destruct Hd as [[Hok Ht] _].
  assert (Hn : mo_numSlots s'.2 = mo_numSlots s.2) by (by rewrite (ok_num _ Hok), (ok_num _ Hm), Ht).
  pose proof (ok_frames _ Hok) as Hl1. pose proof (ok_pos _ Hm) as Hl2. unfold Zlen in *.
  apply list_eq. intros n. rewrite list_lookup_fmap. destruct (decide (Z.of_nat n < mo_numSlots s.2)) as [Hlt|Hge].
  - specialize (Hf (Z.of_nat n) ltac:(unfold is_slot; lia)). rewrite Nat2Z.id, decide_True in Hf by lia. rewrite Hf.
    unfold occupant, zget. rewrite Nat2Z.id.
    destruct (lookup_lt_is_Some_2 (mo_pos s.2) n) as [p Hpn]; [lia|]. rewrite Hpn. simpl.
    by rewrite (same_pictures_expected _ _ _ _ Hp).
  - rewrite !lookup_ge_None_2 by lia. done.
Qed.

Lemma cbind_got {A B} (c : checked A) (k : A → checked B) b : cbind c k = Got b → ∃ a, c = Got a ∧ k a = Got b.
Proof. destruct c as [| |a]; try done. intros H. by exists a. Qed.

(** [RemoveParticipant] returns the position the participant had. *)
Lemma removed_position m id p m' pos :
  place m id = Some p → mosaic_RemoveParticipant id m = Got (m', pos) → pos = p.
Proof.
  unfold place, mosaic_RemoveParticipant. intros ->.
  intros (m1 & _ & (m2 & _ & H)%cbind_got)%cbind_got. by injection H.
Qed.

(** [SetVADParticipant] moves nobody. *)
Lemma vad_keeps_places id t m r : SetVADParticipant id t m = Got r → mo_participants r.1 = mo_participants m.
Proof.
  unfold SetVADParticipant. intros (pos & _ & (m1 & Hm1 & H)%cbind_got)%cbind_got. injection H as <-. simpl.
  destruct (in_range pos (set_vad id m)); [|by injection Hm1 as <-].
  apply cbind_got in Hm1 as (m2 & Hm2 & Hm1). unfold put_pos, put_blocking in *.
  apply cbind_got in Hm2 as (l2 & _ & Hm2). apply cbind_got in Hm1 as (l1 & _ & Hm1).
  injection Hm2 as <-. by injection Hm1 as <-.
Qed.

(** ** Sequences of operations *)

Inductive mixer_op :=
  | MxInit (comp : option MosaicType) (logo : option Picture)
  | MxLoadLogo (logo : option Picture)
  | MxCreateMixer (id : Z)
  | MxInitMixer (id mosaicId : Z)
  | MxSetMixerMosaic (id mosaicId : Z)
  | MxEndMixer (id : Z)
  | MxDeleteMixer (id : Z)
  | MxNextFrame (id : Z) (pic : option Picture)
  | MxSetVideoSize (id width height : Z)
  | MxCreateMosaic (comp : option MosaicType)
  | MxSetCompositionType (mosaicId : Z) (comp : option MosaicType)
  | MxDeleteMosaic (mosaicId : Z)
  | MxAddParticipant (mosaicId partId : Z)
  | MxRemoveParticipant (mosaicId partId : Z)
  | MxSetSlot (mosaicId num id : Z)
  | MxSetVADMode (mode : VADMode)
  | MxSetVADProxy (proxy : bool)
  | MxDeliver (forceUpdate : bool)
  | MxPass (vad : Z → Z) (version time until : Z)
  | MxEnd.

Definition first {A} (c : checked (VideoMixer * A)) : checked VideoMixer := let? r := c in Got r.1.

Definition run_mixer_op (op : mixer_op) (x : VideoMixer) : checked VideoMixer :=
  match op with
  | MxInit comp logo => first (vm_Init comp logo x)
  | MxLoadLogo logo => first (vm_LoadLogo logo x)
  | MxCreateMixer id => Got (vm_CreateMixer id x).1
  | MxInitMixer id mid => Got (vm_InitMixer id mid x).1
  | MxSetMixerMosaic id mid => Got (vm_SetMixerMosaic id mid x).1
  | MxEndMixer id => first (vm_EndMixer id x)
  | MxDeleteMixer id => Got (vm_DeleteMixer id x)
  | MxNextFrame id pic => Got (vm_NextFrame id pic x)
  | MxSetVideoSize id w h => Got (vm_SetVideoSize id w h x)
  | MxCreateMosaic comp => first (vm_CreateMosaic comp x)
  | MxSetCompositionType mid comp => first (vm_SetCompositionType mid comp x)
  | MxDeleteMosaic mid => Got (vm_DeleteMosaic mid x).1
  | MxAddParticipant mid id => first (vm_AddMosaicParticipant mid id x)
  | MxRemoveParticipant mid id => first (vm_RemoveMosaicParticipant mid id x)
  | MxSetSlot mid num id => first (vm_SetSlot mid num id x)
  | MxSetVADMode mode => vm_SetVADMode mode x
  | MxSetVADProxy proxy => Got (vm_SetVADProxy proxy x)
  | MxDeliver force => first (vm_deliver force x)
  | MxPass vad version time until => vm_pass vad version time until x
  | MxEnd => Got (vm_End x)
  end.

Fixpoint run_mixer (ops : list mixer_op) (x : VideoMixer) : checked VideoMixer :=
  match ops with
  | [] => Got x
  | op :: ops => let? x := run_mixer_op op x in run_mixer ops x
  end.

Lemma first_ok {A} (c : checked (VideoMixer * A)) : ok_result c → yields (first c) mixer_ok.
Proof. by destruct c. Qed.

Lemma run_mixer_op_ok op x : mixer_ok x → yields (run_mixer_op op x) mixer_ok.
Proof.
  intros Hx. destruct op; simpl; try apply first_ok; auto using vm_Init_ok, vm_LoadLogo_ok, vm_CreateMixer_ok, vm_InitMixer_ok,
    vm_SetMixerMosaic_ok, vm_EndMixer_ok, vm_DeleteMixer_ok, vm_CreateMosaic_ok, vm_SetCompositionType_ok, vm_DeleteMosaic_ok,
    vm_AddMosaicParticipant_ok, vm_SetSlot_ok, vm_SetVADMode_ok, vm_pass_ok.
  - by apply ok_alter_output.
  - by apply ok_alter_output.
  - eapply yields_impl; [by apply vm_RemoveMosaicParticipant_ok|]. by intros r [H _].
  - by destruct Hx.
  - eapply yields_impl; [by apply vm_deliver_ok|]. by intros r [H _].
  - split; simpl; try apply om_sorted_nil; try done; by intros a [m Hm].
Qed.

Lemma run_mixer_ok ops x : mixer_ok x → yields (run_mixer ops x) mixer_ok.
Proof.
  revert x. induction ops as [|op ops IH]; intros x Hx; simpl; [done|].
  eapply yields_bind; [by apply run_mixer_op_ok|]. apply IH.
Qed.

(** C32. Whatever operations are called on a new mixer, one after the other, and whatever passes its
    thread makes in between, with whatever ids, slots, layouts, pictures, voice levels and times: no
    mosaic is used after it was destroyed, no slot out of range is touched, and what each operation does
    under the lock is defined.  The mosaics that are alive are exactly those of the map, one for each id;
    each is in good order; and a participant watches nothing or a mosaic of the map, so the next round
    hands out pictures of live mosaics only.  Calls are whole: the lock itself, on which some of them can
    wait for ever, is not part of this, nor is another thread's call between the look-up of a mosaic and
    the lock in [SetSlot] and [SetMixerMosaic], for which it does not hold ([late_SetSlot_dangles],
    [late_SetMixerMosaic_dangles]). *)
Theorem mixer_never_dangles ops :
  ∃ x, run_mixer ops new_VideoMixer = Got x ∧ mixer_ok x ∧
    (∀ a, is_Some (om_find a (vm_heap x)) ↔ ∃ id, om_find id (vm_mosaics x) = Some a) ∧
    (∀ force, ∃ r, vm_deliver force x = Got r ∧
       Forall (λ p, ∃ v mid m, om_find p.1 (vm_videos x) = Some v ∧ vs_mosaic v = Some p.2 ∧
                 om_find mid (vm_mosaics x) = Some p.2 ∧ om_find p.2 (vm_heap x) = Some m ∧ mosaic_ok m) r.2).
Proof.
  pose proof (run_mixer_ok ops _ new_VideoMixer_ok) as H. apply yields_got in H as (x & -> & Hx).
  exists x. split_and!; [done|done|..].
  - intros a. split; [apply (mx_owner x Hx)|]. intros [id Hid]. destruct (mx_alive x Hx id a Hid) as (m & Hm & _). by exists m.
  - intros force. pose proof (vm_deliver_ok force x Hx) as Hd. apply yields_got in Hd as (r & -> & _ & Hl).
    exists r. split; [done|]. eapply Forall_impl; [exact Hl|]. intros p (v & Hv & Hw).
    destruct (mx_watched x Hx _ _ _ Hv Hw) as [mid Hmid]. destruct (mx_alive x Hx mid _ Hmid) as (m & Hm & Hok & _).
    by exists v, mid, m.
Qed.

(** ** What the slots show *)

(** The operations that lay the mosaic [mosaicId] out again. *)
Definition lays_out (mosaicId : Z) (op : mixer_op) (x : VideoMixer) : Prop :=
  match op with
  | MxSetSlot mid _ _ => mid = mosaicId ∧ is_Some (om_find mid (vm_mosaics x))
  | MxSetCompositionType mid (Some _) => mid = mosaicId
  | MxRemoveParticipant mid id =>
      mid = mosaicId ∧ ∃ a m, om_find mid (vm_mosaics x) = Some a ∧ om_find a (vm_heap x) = Some m ∧ is_Some (place m id)
  | _ => False
  end.

(** The mosaic [mosaicId] of [x] holds in each slot what it is expected to. *)
Definition all_shown (mosaicId : Z) (x : VideoMixer) : Prop :=
  ∃ a m, om_find mosaicId (vm_mosaics x) = Some a ∧ om_find a (vm_heap x) = Some m ∧ shows (vm_logo x) (vm_videos x, m).

Lemma redrawn_shown x mid a s :
  om_find mid (vm_mosaics x) = Some a → shows (vm_logo x) s →
  all_shown mid (set_videos s.1 (set_heap (om_set a s.2 (vm_heap x)) x)).
Proof.
  intros Ha Hs. exists a, s.2. split; [done|]. split; [apply om_find_set_eq|]. by destruct s.
Qed.

Lemma SetSlot_shown mid num id x :
  mixer_ok x → is_Some (om_find mid (vm_mosaics x)) → yields (vm_SetSlot mid num id x) (λ r, all_shown mid r.1).
Proof.
  intros Hx [a Ha]. unfold vm_SetSlot, SetSlot_locked. rewrite Ha. destruct (deref_ok x mid a Hx Ha) as (m & -> & _ & Hok). simpl.
  set (m0 := if 0 <=? mosaic_GetPosition id m then CleanSlot (mosaic_GetPosition id m) (vm_logo x) m else m).
  assert (H0 : kept m m0) by (unfold m0; case_goal; [by apply CleanSlot_kept|by apply kept_refl]).
  eapply yields_bind; [apply mosaic_SetSlot_kept; apply H0|]. intros [m1 r] H1. simpl in H1 |- *.
  eapply yields_bind; [apply CalculatePositions_kept_only; apply H1|]. intros m2 H2.
  eapply yields_bind; [apply (UpdateMosaic_shows _ (vm_videos x, m2)); apply H2|]. intros s (_ & _ & Hs).
  by apply redrawn_shown.
Qed.

Lemma RemoveMosaicParticipant_shown mid id x a m :
  mixer_ok x → om_find mid (vm_mosaics x) = Some a → om_find a (vm_heap x) = Some m → is_Some (place m id) →
  yields (vm_RemoveMosaicParticipant mid id x) (λ r, all_shown mid r.1).
Proof.
  intros Hx Ha Hm Hid. unfold vm_RemoveMosaicParticipant. rewrite Ha. unfold deref. rewrite Hm. simpl.
  destruct (deref_ok x mid a Hx Ha) as (m' & _ & Hm' & Hok). assert (m' = m) as -> by congruence.
  apply (yields_bind (λ m1, kept m m1 ∧ place m1 id = place m id)).
  { destruct (id =? mo_vadParticipant m); [|done].
    eapply yields_bind; [by apply GetVADPosition_returns|]. intros pos _.
    pose proof (SetVADParticipant_from _ m 0 0 (CleanSlot_kept m pos (vm_logo x) Hok)) as Hs.
    apply yields_got in Hs as ([m1 p] & Hs & Hk). rewrite Hs. split; [done|]. apply vad_keeps_places in Hs.
    unfold place. simpl in *. rewrite Hs. unfold CleanSlot. by destruct (vm_logo x). }
  intros m1 [H1 Hp1]. pose proof (mosaic_RemoveParticipant_kept m1 id (proj1 H1)) as Hr.
  apply yields_got in Hr as ([m2 pos] & Hr & H2). rewrite Hr. simpl in H2 |- *.
  assert (Hpos : pos ≠ NotFound).
  { destruct Hid as [p Hp]. rewrite <- Hp1 in Hp. rewrite (removed_position _ _ _ _ _ Hp Hr).
    destruct (ok_place m1 (proj1 H1) id p Hp) as [->|[Hs _]]; [done|unfold NotFound; lia]. }
  rewrite (proj2 (Z.eqb_neq pos NotFound)) by done. simpl.
  eapply yields_bind; [apply (UpdateMosaic_shows _ (vm_videos x, m2)); apply H2|]. intros s (_ & _ & Hs).
  by apply redrawn_shown.
Qed.

Lemma SetCompositionType_shown mid type x :
  mixer_ok x → yields (vm_SetCompositionType mid (Some type) x) (λ r, all_shown mid r.1).
Proof.
  intros Hx. unfold vm_SetCompositionType. pose proof (new_mosaic_ok type) as Hnew.
  set (c := match om_find mid (vm_mosaics x) with None => _ | Some b => _ end).
  assert (Hc : yields c (λ r, mosaic_ok r.1 ∧ vm_logo r.2 = vm_logo x)).
  { unfold c. destruct (om_find mid (vm_mosaics x)) as [b|] eqn:Hb; [|done].
    destruct (deref_ok x mid b Hx Hb) as (old & -> & Hold & Hok). simpl.
    eapply yields_bind; [by apply inherit_kept|]. intros m1 [H1 _]. simpl. split; [done|]. by case_decide. }
  clearbody c. eapply yields_bind; [exact Hc|]. intros [m x1] [Hm Hlogo]. simpl in Hm, Hlogo.
  eapply yields_bind; [by apply CalculatePositions_kept_only|]. intros m2 [H2 _].
  eapply yields_bind; [by apply (UpdateMosaic_shows _ (vm_videos x1, m2))|]. intros s (_ & _ & Hs).
  exists (vm_next x), s.2. simpl. rewrite !om_find_set_eq. split_and!; [done..|]. by destruct s.
Qed.

(** C33. After a slot was set, a layout chosen or a participant removed, every slot of that mosaic holds
    exactly what it is to hold: the last picture of the participant that is in it, with whether its
    aspect is kept, nothing if it has sent none yet, and the logo, or nothing without one, in a slot
    with nobody or with somebody who has no video. *)
Theorem slots_show_their_participants mosaicId op x :
  mixer_ok x → lays_out mosaicId op x → ∃ x', run_mixer_op op x = Got x' ∧ mixer_ok x' ∧ all_shown mosaicId x'.
Proof.
  intros Hx Hop. pose proof (run_mixer_op_ok op x Hx) as Hok.
  assert (Hs : yields (run_mixer_op op x) (all_shown mosaicId)).
  { assert (Hf : ∀ A (c : checked (VideoMixer * A)), yields c (λ r, all_shown mosaicId r.1) → yields (first c) (all_shown mosaicId))
      by (intros A c; by destruct c).
    destruct op; simpl in Hop; try done; simpl; apply Hf.
    - destruct comp as [type|]; [subst|done]. by apply SetCompositionType_shown.
    - destruct Hop as (-> & a & m & Ha & Hm & Hid). by eapply RemoveMosaicParticipant_shown.
    - destruct Hop as [-> Ha]. by apply SetSlot_shown. }
  apply yields_got in Hs as (x' & Hr & Hs). rewrite Hr in Hok. by exists x'.
Qed.

(** A conference with two participants in a mosaic of four, the second one without video. *)
Definition small_conference : list mixer_op :=
  [MxInit (Some mosaic2x2) (Some (mkPicture 64 64)); MxCreateMixer 1; MxInitMixer 1 0; MxNextFrame 1 (Some (mkPicture 640 480));
   MxAddParticipant 0 1; MxAddParticipant 0 2].

Lemma slots_show_their_participants_witness :
  ∃ x x', run_mixer small_conference new_VideoMixer = Got x ∧ run_mixer_op (MxSetSlot 0 3 1) x = Got x' ∧ all_shown 0 x'.
Proof.
  pose proof (run_mixer_ok small_conference _ new_VideoMixer_ok) as H. apply yields_got in H as (x & Hr & Hx).
  assert (Hm : yields (run_mixer small_conference new_VideoMixer) (λ x, om_find 0 (vm_mosaics x) = Some 0)) by (by vm_compute).
  rewrite Hr in Hm.
  destruct (slots_show_their_participants 0 (MxSetSlot 0 3 1) x) as (x' & Hx' & _ & Hs); [done| |by exists x, x'].
  split; [done|]. simpl in Hm. rewrite Hm. by exists 0.
Defined.

(** ** Another call in between *)

(** A thread has looked mosaic 0 up; the layout changes, which destroys it; then the thread gets the lock. *)
Lemma late_SetSlot_dangles :
  match run_mixer small_conference new_VideoMixer with
  | Got x =>
      match om_find 0 (vm_mosaics x), run_mixer_op (MxSetCompositionType 0 (Some mosaic3x3)) x with
      | Some a, Got x' => SetSlot_locked a 3 1 x' = Fault
      | _, _ => False
      end
  | _ => False
  end.
Proof. vm_compute. reflexivity. Qed.

(** The same with [SetMixerMosaic]: the participant is left watching the destroyed mosaic, and the next
    round uses it. *)
Lemma late_SetMixerMosaic_dangles :
  match run_mixer small_conference new_VideoMixer with
  | Got x =>
      match om_find 0 (vm_mosaics x), run_mixer_op (MxSetCompositionType 0 (Some mosaic3x3)) x with
      | Some a, Got x' => vm_deliver true (SetMixerMosaic_locked 1 (Some a) x').1 = Fault
      | _, _ => False
      end
  | _ => False
  end.
Proof. vm_compute. reflexivity. Qed.
