(* ===== verification/VideoMixerLocks.v ===== *)
(** * The video mixer: the order of its two locks

    The mixing thread and the control interfaces share [lstVideosUse] and [mixVideoMutex].  The mixing
    thread and [EndMixer] take the mutex first, [SetCompositionType] takes it last; [deadlock] is
    the run in which each waits for the other. *)

From S2P Require Import Prelude.

Inductive lock_id := LstVideos | MixVideo.
#[global] Instance lock_id_eq_dec : EqDecision lock_id.
Proof. solve_decision. Defined.

Inductive lock_op := Take (l : lock_id) | Give (l : lock_id).

(** A round of [Run]: the pictures are handed out, the thread waits on [mixVideoCond] (which gives the
    mutex and takes it again), then makes its pass. *)
Definition run_round : list lock_op :=
  [Take LstVideos; Give LstVideos; Take MixVideo; Give MixVideo; Take MixVideo; Take LstVideos; Give LstVideos; Give MixVideo].
Definition set_composition_type : list lock_op := [Take LstVideos; Take MixVideo; Give MixVideo; Give LstVideos].
(** [EndMixer], for one mosaic *)
Definition end_mixer : list lock_op := [Take LstVideos; Give LstVideos; Take MixVideo; Take LstVideos; Give LstVideos; Give MixVideo].

(** Who owns each lock, and what each thread has still to do. *)
Record Locks := mkLocks { lk_lst : option nat; lk_mix : option nat; lk_todo : list (list lock_op) }.

Definition owner (l : lock_id) (s : Locks) : option nat := match l with LstVideos => lk_lst s | MixVideo => lk_mix s end.
Definition set_owner (l : lock_id) (o : option nat) (s : Locks) : Locks :=
  match l with LstVideos => mkLocks o (lk_mix s) (lk_todo s) | MixVideo => mkLocks (lk_lst s) o (lk_todo s) end.
Definition set_todo (t : nat) (ops : list lock_op) (s : Locks) : Locks :=
  mkLocks (lk_lst s) (lk_mix s) (<[t := ops]> (lk_todo s)).

Definition lock_step (t : nat) (s : Locks) : option Locks :=
  match lk_todo s !! t with
  | Some (Take l :: ops) => match owner l s with None => Some (set_todo t ops (set_owner l (Some t) s)) | Some _ => None end
  | Some (Give l :: ops) => Some (set_todo t ops (set_owner l None s))
  | _ => None
  end.

Fixpoint lock_run (schedule : list nat) (s : Locks) : option Locks :=
  match schedule with
  | [] => Some s
  | t :: schedule => match lock_step t s with Some s => lock_run schedule s | None => None end
  end.

(** The mixing thread wakes up with the mutex while a layout is being set: neither goes on. *)
Lemma deadlock :
  ∃ s, lock_run [0; 0; 0; 0; 0; 1]%nat (mkLocks None None [run_round; set_composition_type]) = Some s ∧
    lk_todo s !! 0%nat = Some [Take LstVideos; Give LstVideos; Give MixVideo] ∧
    lk_todo s !! 1%nat = Some [Take MixVideo; Give MixVideo; Give LstVideos] ∧ ∀ t, lock_step t s = None.
Proof.
  eexists. split; [vm_compute; reflexivity|]. split_and!; [done..|]. by intros [|[|t]].
Qed.

(** ** Without it *)

(** A thread that holds [LstVideos] ([lst]) or the mutex ([mix]) takes the mutex before [LstVideos] and
    gives back what it holds. *)
Fixpoint mutex_first (lst mix : bool) (ops : list lock_op) : bool :=
  match ops with
  | [] => negb lst && negb mix
  | Take LstVideos :: ops => negb lst && mutex_first true mix ops
  | Take MixVideo :: ops => negb mix && negb lst && mutex_first lst true ops
  | Give LstVideos :: ops => lst && mutex_first false mix ops
  | Give MixVideo :: ops => mix && mutex_first lst false ops
  end.

Lemma others_take_the_mutex_first :
  mutex_first false false run_round = true ∧ mutex_first false false end_mixer = true ∧
  mutex_first false false set_composition_type = false.
Proof. done. Qed.

Definition holds (o : option nat) (t : nat) : bool := bool_decide (o = Some t).

Record ordered (s : Locks) : Prop := {
  or_todo : ∀ t ops, lk_todo s !! t = Some ops → mutex_first (holds (lk_lst s) t) (holds (lk_mix s) t) ops = true;
  or_owner : ∀ t, lk_lst s = Some t ∨ lk_mix s = Some t → is_Some (lk_todo s !! t);
}.

Lemma holds_self t : holds (Some t) t = true.
Proof. by apply bool_decide_eq_true. Qed.
Lemma holds_true o t : holds o t = true → o = Some t.
Proof. apply bool_decide_eq_true. Qed.
Lemma holds_other t u : t ≠ u → holds (Some t) u = false.
Proof. intros H. apply bool_decide_eq_false. congruence. Qed.

(** What a thread that may go on has at the head of its program. *)
Lemma lock_step_ordered t s s' : ordered s → lock_step t s = Some s' → ordered s'.
Proof.
  intros [Ht Ho]. unfold lock_step. destruct (lk_todo s !! t) as [ops|] eqn:E; [|done].
  assert (Hlen : (t < length (lk_todo s))%nat) by (by apply lookup_lt_Some in E). pose proof (Ht t ops E) as Hf.
  assert (Hmove : ∀ lst mix ops', (∀ u, u ≠ t → holds lst u = holds (lk_lst s) u ∧ holds mix u = holds (lk_mix s) u) →
    mutex_first (holds lst t) (holds mix t) ops' = true →
    (∀ u, lst = Some u ∨ mix = Some u → u = t ∨ lk_lst s = Some u ∨ lk_mix s = Some u) →
    ordered (mkLocks lst mix (<[t := ops']> (lk_todo s)))).
  { intros lst mix ops' Hsame Hops Hown. split; simpl.
    - intros u ops'' Hu. destruct (decide (u = t)) as [->|Hne].
      + rewrite list_lookup_insert_eq in Hu by done. by injection Hu as <-.
      + rewrite list_lookup_insert_ne in Hu by done. destruct (Hsame u Hne) as [-> ->]. by apply Ht.
    - intros u Hu. apply lookup_lt_is_Some. rewrite length_insert. destruct (Hown u Hu) as [->|Hu']; [done|].
      apply lookup_lt_is_Some. by apply Ho. }
  destruct ops as [|[[]|[]] ops]; [done|..]; simpl in Hf; repeat (apply andb_true_iff in Hf as [? Hf]); unfold owner.
  - destruct (lk_lst s) eqn:El; [done|]. intros [= <-]. apply (Hmove (Some t) (lk_mix s) ops); [|by rewrite holds_self|naive_solver].
    intros u Hu. split; [by rewrite holds_other|done].
  - destruct (lk_mix s) eqn:Em; [done|]. intros [= <-]. apply (Hmove (lk_lst s) (Some t) ops); [|by rewrite holds_self|naive_solver].
    intros u Hu. split; [done|by rewrite holds_other].
  - intros [= <-]. assert (El : lk_lst s = Some t) by (by apply holds_true). apply (Hmove None (lk_mix s) ops); [|done|naive_solver].
    intros u Hu. split; [by rewrite El, holds_other|done].
  - intros [= <-]. assert (Em : lk_mix s = Some t) by (by apply holds_true). apply (Hmove (lk_lst s) None ops); [|done|naive_solver].
    intros u Hu. split; [done|by rewrite Em, holds_other].
Qed.

(** Threads that take the mutex first never block each other: as long as one has something to do,
    one of them can go on. *)
Lemma mutex_first_goes_on s t op ops :
  ordered s → lk_todo s !! t = Some (op :: ops) → ∃ u s', lock_step u s = Some s'.
Proof.
  intros [Ht Ho] E. destruct (lk_lst s) as [u|] eqn:El.
  - destruct (Ho u (or_introl eq_refl)) as [ops' Eu]. pose proof (Ht u ops' Eu) as Hf. rewrite holds_self in Hf.
    exists u. unfold lock_step. rewrite Eu. destruct ops' as [|[[]|[]] ops']; simpl in Hf; try done; [|by eexists..].
    by rewrite andb_false_r in Hf.
  - destruct (lk_mix s) as [u|] eqn:Em.
    + destruct (Ho u (or_intror eq_refl)) as [ops' Eu]. pose proof (Ht u ops' Eu) as Hf. rewrite holds_self in Hf.
      exists u. unfold lock_step, owner. rewrite Eu. destruct ops' as [|[[]|[]] ops']; simpl in Hf; try done; rewrite ?El; by eexists.
    + exists t. unfold lock_step, owner. rewrite E. destruct op as [[]|[]]; rewrite ?El, ?Em; by eexists.
Qed.

(** So among rounds of the mixing thread and calls of [EndMixer] nobody is blocked for good. *)
Lemma without_layout_changes_no_deadlock todo schedule s :
  Forall (λ ops, ops = run_round ∨ ops = end_mixer) todo → lock_run schedule (mkLocks None None todo) = Some s →
  Forall (λ ops, ops = []) (lk_todo s) ∨ ∃ u s', lock_step u s = Some s'.
Proof.
  intros Htodo Hrun. assert (Hs : ordered s).
  { assert (H0 : ordered (mkLocks None None todo)).
    { split; simpl; [|by intros t [?|?]]. intros t ops Hops. rewrite Forall_lookup in Htodo.
      destruct (Htodo t ops Hops) as [->| ->]; done. }
    revert H0 Hrun. generalize (mkLocks None None todo). induction schedule as [|t schedule IH]; intros s0 H0; simpl; [by intros [= <-]|].
    destruct (lock_step t s0) as [s1|] eqn:E; [|done]. apply IH. by eapply lock_step_ordered. }
  destruct (decide (Forall (λ ops, ops = []) (lk_todo s))) as [|Hn]; [by left|]. right.
  rewrite Forall_lookup in Hn.
  assert (Hex : Exists (λ ops, ops ≠ []) (lk_todo s)).
  { apply not_Forall_Exists; [apply _|]. by rewrite Forall_lookup. }
  apply Exists_exists in Hex as (ops & Hin & Hne). apply list_elem_of_lookup in Hin as [t Ht].
  destruct ops as [|op ops]; [done|]. by eapply mutex_first_goes_on.
Qed.
