(* ===== verification/HttpParse.v ===== *)
(** * The HTTP parser

    [HTTPParser] (src/httpparser.cpp, include/httpparser.h), which reads the opening of a WebSocket: a
    machine that takes octets one at a time and calls its listener.  [Execute] is a loop over the octets
    it is given ([exec_loop]); one octet is [parse_byte], with a definition for each state that does
    more than move to the next.  [goto reexecute_byte] is a call of the definition of the new state.  A
    pointer that marks where a string began is the octets since then, [None] when it is null.  A failed
    [assert] and a read outside of a table are a [Fault].  The parser is built as it is by default, with
    [HTTP_PARSER_STRICT].  At the end, the reader of URLs.

    The listener returns 0 from its callbacks but [on_headers_complete], which returns 1 when [skip] is
    true: so does the only listener, the WebSocket connection, with [skip] for clients.

    The class [HttpParser] is what a connection knows of the parser, [HttpParserLaws] what it relies on. *)

From S2P Require Import Prelude Wire Octets IpAddress.

(** ** Interface *)

(** The callbacks of [HTTPParser::Listener]. *)
Inductive HttpCall :=
  | on_message_begin
  | on_url (at_ : bytes)
  | on_status_complete
  | on_header_field (at_ : bytes)
  | on_header_value (at_ : bytes)
  | on_headers_complete
  | on_body (at_ : bytes)
  | on_message_complete.

(** What the parser tells of the message it reads. *)
Record HttpInfo := mkHttpInfo { hi_method : bytes; hi_major : Z; hi_minor : Z; hi_status : Z }.

(** The callbacks a call of [Execute] makes, what is known at each, and the octets it took. *)
Class HttpParser (P : Type) := {
  hp_new : bool → P;   (** [true]: responses *)
  hp_Execute : bytes → P → checked (P * list (HttpCall * HttpInfo) * Z);
}.

Class HttpParserLaws (P : Type) `{HttpParser P} := {
  hp_ok : P → Prop;
  hp_new_ok : ∀ b, hp_ok (hp_new b);
  hp_Execute_ok : ∀ data p, bytes_ok data → hp_ok p → ∃ p' calls n, hp_Execute data p = Got (p', calls, n) ∧ hp_ok p';
}.

(** ** Tables *)

Definition method_strings : list bytes :=
  [octets "DELETE"; octets "GET"; octets "HEAD"; octets "POST"; octets "PUT"; octets "CONNECT"; octets "OPTIONS";
   octets "TRACE"; octets "COPY"; octets "LOCK"; octets "MKCOL"; octets "MOVE"; octets "PROPFIND"; octets
   "PROPPATCH"; octets "SEARCH"; octets "UNLOCK"; octets "REPORT"; octets "MKACTIVITY"; octets "CHECKOUT"; octets
   "MERGE"; octets "M-SEARCH"; octets "NOTIFY"; octets "SUBSCRIBE"; octets "UNSUBSCRIBE"; octets "PATCH"; octets
   "PURGE"].

(** The letters of tokens, in lower case. *)
Definition tokens : bytes :=
  ([0; 0; 0; 0; 0; 0; 0; 0; 0; 0; 0; 0; 0; 0; 0; 0;
   0; 0; 0; 0; 0; 0; 0; 0; 0; 0; 0; 0; 0; 0; 0; 0;
   0; 33; 0; 35; 36; 37; 38; 39; 0; 0; 42; 43; 0; 45; 46; 0;
   48; 49; 50; 51; 52; 53; 54; 55; 56; 57; 0; 0; 0; 0; 0; 0;
   0; 97; 98; 99; 100; 101; 102; 103; 104; 105; 106; 107; 108; 109; 110; 111;
   112; 113; 114; 115; 116; 117; 118; 119; 120; 121; 122; 0; 0; 0; 94; 95;
   96; 97; 98; 99; 100; 101; 102; 103; 104; 105; 106; 107; 108; 109; 110; 111;
   112; 113; 114; 115; 116; 117; 118; 119; 120; 121; 122; 0; 124; 0; 126; 0]) ++ replicate 128 0.

(** The initialiser has 128 values: the others are 0. *)
Definition unhex : list Z :=
  ([-1; -1; -1; -1; -1; -1; -1; -1; -1; -1; -1; -1; -1; -1; -1; -1;
   -1; -1; -1; -1; -1; -1; -1; -1; -1; -1; -1; -1; -1; -1; -1; -1;
   -1; -1; -1; -1; -1; -1; -1; -1; -1; -1; -1; -1; -1; -1; -1; -1;
   0; 1; 2; 3; 4; 5; 6; 7; 8; 9; -1; -1; -1; -1; -1; -1;
   -1; 10; 11; 12; 13; 14; 15; -1; -1; -1; -1; -1; -1; -1; -1; -1;
   -1; -1; -1; -1; -1; -1; -1; -1; -1; -1; -1; -1; -1; -1; -1; -1;
   -1; 10; 11; 12; 13; 14; 15; -1; -1; -1; -1; -1; -1; -1; -1; -1;
   -1; -1; -1; -1; -1; -1; -1; -1; -1; -1; -1; -1; -1; -1; -1; -1]) ++ replicate 128 0.

Definition normal_url_char : bytes :=
  [0; 0; 0; 0; 246; 255; 255; 127; 255; 255; 255; 255; 255; 255; 255; 127] ++ replicate 16 0.

Definition BIT_AT (a : bytes) (i : Z) : bool := negb (Z.land (zget (Z.shiftr i 3) a) (Z.shiftl 1 (Z.land i 7)) =? 0).

Definition LOWER (c : Z) : Z := Z.lor c 32.
Definition IS_ALPHA (c : Z) : bool := (97 <=? LOWER c) && (LOWER c <=? 122).
Definition IS_NUM (c : Z) : bool := (48 <=? c) && (c <=? 57).
Definition IS_ALPHANUM (c : Z) : bool := IS_ALPHA c || IS_NUM c.
Definition IS_HEX (c : Z) : bool := IS_NUM c || ((97 <=? LOWER c) && (LOWER c <=? 102)).
Definition IS_MARK (c : Z) : bool := bool_decide (c ∈ octets "-_.!~*'()").
Definition IS_USERINFO_CHAR (c : Z) : bool := IS_ALPHANUM c || IS_MARK c || bool_decide (c ∈ octets "%;:&=+$,").
Definition TOKEN (c : Z) : Z := zget c tokens.
Definition IS_URL_CHAR (c : Z) : bool := BIT_AT normal_url_char c.
Definition IS_HOST_CHAR (c : Z) : bool := IS_ALPHANUM c || (c =? 46) || (c =? 45).

Notation CR := 13.
Notation LF := 10.
Notation SP := 32.
Notation ULLONG_MAX := (2 ^ 64 - 1).
Definition HTTP_MAX_HEADER_SIZE : Z := 80 * 1024.

(** ** The state of a parser *)

Inductive HttpType := HTTP_REQUEST | HTTP_RESPONSE | HTTP_BOTH.

Inductive HttpState :=
  | s_dead
  | s_start_req_or_res | s_res_or_resp_H
  | s_start_res | s_res_H | s_res_HT | s_res_HTT | s_res_HTTP
  | s_res_first_http_major | s_res_http_major | s_res_first_http_minor | s_res_http_minor
  | s_res_first_status_code | s_res_status_code | s_res_status | s_res_line_almost_done
  | s_start_req | s_req_method | s_req_spaces_before_url
  | s_req_schema | s_req_schema_slash | s_req_schema_slash_slash
  | s_req_server_start | s_req_server | s_req_server_with_at
  | s_req_path | s_req_query_string_start | s_req_query_string | s_req_fragment_start | s_req_fragment
  | s_req_http_start | s_req_http_H | s_req_http_HT | s_req_http_HTT | s_req_http_HTTP
  | s_req_first_http_major | s_req_http_major | s_req_first_http_minor | s_req_http_minor
  | s_req_line_almost_done
  | s_header_field_start | s_header_field | s_header_value_start | s_header_value | s_header_value_lws
  | s_header_almost_done
  | s_chunk_size_start | s_chunk_size | s_chunk_parameters | s_chunk_size_almost_done
  | s_headers_almost_done | s_headers_done
  | s_chunk_data | s_chunk_data_almost_done | s_chunk_data_done
  | s_body_identity | s_body_identity_eof | s_message_done.

#[global] Instance HttpState_eq_dec : EqDecision HttpState.
Proof. solve_decision. Defined.

Inductive HeaderState :=
  | h_general | h_C | h_CO | h_CON
  | h_matching_connection | h_matching_proxy_connection | h_matching_content_length
  | h_matching_transfer_encoding | h_matching_upgrade
  | h_connection | h_content_length | h_transfer_encoding | h_upgrade
  | h_matching_transfer_encoding_chunked | h_matching_connection_keep_alive | h_matching_connection_close
  | h_transfer_encoding_chunked | h_connection_keep_alive | h_connection_close.

Inductive HttpErrno :=
  | HPE_OK | HPE_INVALID_EOF_STATE | HPE_HEADER_OVERFLOW | HPE_CLOSED_CONNECTION
  | HPE_INVALID_VERSION | HPE_INVALID_STATUS | HPE_INVALID_METHOD | HPE_INVALID_URL | HPE_LF_EXPECTED
  | HPE_INVALID_HEADER_TOKEN | HPE_INVALID_CONTENT_LENGTH | HPE_INVALID_CHUNK_SIZE | HPE_INVALID_CONSTANT
  | HPE_STRICT.

#[global] Instance HttpErrno_eq_dec : EqDecision HttpErrno.
Proof. solve_decision. Defined.
#[global] Instance HttpType_eq_dec : EqDecision HttpType.
Proof. solve_decision. Defined.

Definition F_CHUNKED : Z := 1.
Definition F_CONNECTION_KEEP_ALIVE : Z := 2.
Definition F_CONNECTION_CLOSE : Z := 4.
Definition F_TRAILING : Z := 8.
Definition F_UPGRADE : Z := 16.
Definition F_SKIPBODY : Z := 32.

Record Http := mkHttp {
  ht_type : HttpType;
  ht_flags : Z;
  ht_state : HttpState;
  ht_header_state : HeaderState;
  ht_index : Z;
  ht_nread : Z;
  ht_content_length : Z;
  ht_major : Z;
  ht_minor : Z;
  ht_status : Z;
  ht_method : Z;
  ht_errno : HttpErrno;
  ht_upgrade : bool;
}.

Definition set_ht_type (v : HttpType) (h : Http) : Http := mkHttp v (ht_flags h) (ht_state h) (ht_header_state h) (ht_index h) (ht_nread h) (ht_content_length h) (ht_major h) (ht_minor h) (ht_status h) (ht_method h) (ht_errno h) (ht_upgrade h).
Definition set_ht_flags (v : Z) (h : Http) : Http := mkHttp (ht_type h) v (ht_state h) (ht_header_state h) (ht_index h) (ht_nread h) (ht_content_length h) (ht_major h) (ht_minor h) (ht_status h) (ht_method h) (ht_errno h) (ht_upgrade h).
Definition set_ht_state (v : HttpState) (h : Http) : Http := mkHttp (ht_type h) (ht_flags h) v (ht_header_state h) (ht_index h) (ht_nread h) (ht_content_length h) (ht_major h) (ht_minor h) (ht_status h) (ht_method h) (ht_errno h) (ht_upgrade h).
Definition set_ht_header_state (v : HeaderState) (h : Http) : Http := mkHttp (ht_type h) (ht_flags h) (ht_state h) v (ht_index h) (ht_nread h) (ht_content_length h) (ht_major h) (ht_minor h) (ht_status h) (ht_method h) (ht_errno h) (ht_upgrade h).
Definition set_ht_index (v : Z) (h : Http) : Http := mkHttp (ht_type h) (ht_flags h) (ht_state h) (ht_header_state h) v (ht_nread h) (ht_content_length h) (ht_major h) (ht_minor h) (ht_status h) (ht_method h) (ht_errno h) (ht_upgrade h).
Definition set_ht_nread (v : Z) (h : Http) : Http := mkHttp (ht_type h) (ht_flags h) (ht_state h) (ht_header_state h) (ht_index h) v (ht_content_length h) (ht_major h) (ht_minor h) (ht_status h) (ht_method h) (ht_errno h) (ht_upgrade h).
Definition set_ht_content_length (v : Z) (h : Http) : Http := mkHttp (ht_type h) (ht_flags h) (ht_state h) (ht_header_state h) (ht_index h) (ht_nread h) v (ht_major h) (ht_minor h) (ht_status h) (ht_method h) (ht_errno h) (ht_upgrade h).
Definition set_ht_major (v : Z) (h : Http) : Http := mkHttp (ht_type h) (ht_flags h) (ht_state h) (ht_header_state h) (ht_index h) (ht_nread h) (ht_content_length h) v (ht_minor h) (ht_status h) (ht_method h) (ht_errno h) (ht_upgrade h).
Definition set_ht_minor (v : Z) (h : Http) : Http := mkHttp (ht_type h) (ht_flags h) (ht_state h) (ht_header_state h) (ht_index h) (ht_nread h) (ht_content_length h) (ht_major h) v (ht_status h) (ht_method h) (ht_errno h) (ht_upgrade h).
Definition set_ht_status (v : Z) (h : Http) : Http := mkHttp (ht_type h) (ht_flags h) (ht_state h) (ht_header_state h) (ht_index h) (ht_nread h) (ht_content_length h) (ht_major h) (ht_minor h) v (ht_method h) (ht_errno h) (ht_upgrade h).
Definition set_ht_method (v : Z) (h : Http) : Http := mkHttp (ht_type h) (ht_flags h) (ht_state h) (ht_header_state h) (ht_index h) (ht_nread h) (ht_content_length h) (ht_major h) (ht_minor h) (ht_status h) v (ht_errno h) (ht_upgrade h).
Definition set_ht_errno (v : HttpErrno) (h : Http) : Http := mkHttp (ht_type h) (ht_flags h) (ht_state h) (ht_header_state h) (ht_index h) (ht_nread h) (ht_content_length h) (ht_major h) (ht_minor h) (ht_status h) (ht_method h) v (ht_upgrade h).
Definition set_ht_upgrade (v : bool) (h : Http) : Http := mkHttp (ht_type h) (ht_flags h) (ht_state h) (ht_header_state h) (ht_index h) (ht_nread h) (ht_content_length h) (ht_major h) (ht_minor h) (ht_status h) (ht_method h) (ht_errno h) v.

Definition has_flag (f : Z) (h : Http) : bool := negb (Z.land (ht_flags h) f =? 0).
Definition add_flag (f : Z) (h : Http) : Http := set_ht_flags (Z.lor (ht_flags h) f) h.

(** The constructor and [Init]. *)
Definition new_http (type : HttpType) : Http :=
  mkHttp type 0 (match type with HTTP_REQUEST => s_start_req | HTTP_RESPONSE => s_start_res | HTTP_BOTH => s_start_req_or_res end)
    h_general 0 0 0 0 0 0 0 HPE_OK false.

(** The states up to [s_headers_done]. *)
Definition PARSING_HEADER (s : HttpState) : bool :=
  match s with
  | s_chunk_data | s_chunk_data_almost_done | s_chunk_data_done | s_body_identity | s_body_identity_eof | s_message_done => false
  | _ => true
  end.

Definition GetMethodStr (h : Http) : bytes := default (octets "<unknown>") (method_strings !! Z.to_nat (ht_method h)).

Definition info (h : Http) : HttpInfo := mkHttpInfo (GetMethodStr h) (ht_major h) (ht_minor h) (ht_status h).

Definition MessageNeedsEOF (h : Http) : bool :=
  if bool_decide (ht_type h = HTTP_REQUEST) then false
  else if (ht_status h / 100 =? 1) || (ht_status h =? 204) || (ht_status h =? 304) || has_flag F_SKIPBODY h then false
  else if has_flag F_CHUNKED h || negb (ht_content_length h =? ULLONG_MAX) then false
  else true.

Definition ShouldKeepAlive (h : Http) : bool :=
  if (0 <? ht_major h) && (0 <? ht_minor h)
  then (if has_flag F_CONNECTION_CLOSE h then false else negb (MessageNeedsEOF h))
  else (if has_flag F_CONNECTION_KEEP_ALIVE h then negb (MessageNeedsEOF h) else false).

Definition NEW_MESSAGE (h : Http) : HttpState :=
  if ShouldKeepAlive h then (if bool_decide (ht_type h = HTTP_REQUEST) then s_start_req else s_start_res) else s_dead.

(** ** Marks *)

Record Marks := mkMarks { mk_field : option bytes; mk_value : option bytes; mk_url : option bytes; mk_body : option bytes }.

Definition no_marks : Marks := mkMarks None None None None.

Definition MARK_field (m : Marks) : Marks := mkMarks (Some (default [] (mk_field m))) (mk_value m) (mk_url m) (mk_body m).
Definition MARK_value (m : Marks) : Marks := mkMarks (mk_field m) (Some (default [] (mk_value m))) (mk_url m) (mk_body m).
Definition MARK_url (m : Marks) : Marks := mkMarks (mk_field m) (mk_value m) (Some (default [] (mk_url m))) (mk_body m).
Definition MARK_body (m : Marks) : Marks := mkMarks (mk_field m) (mk_value m) (mk_url m) (Some (default [] (mk_body m))).

(** The octets passed are after the marks that are set. *)
Definition pass (octs : bytes) (m : Marks) : Marks :=
  mkMarks ((λ a, a ++ octs) <$> mk_field m) ((λ a, a ++ octs) <$> mk_value m) ((λ a, a ++ octs) <$> mk_url m) ((λ a, a ++ octs) <$> mk_body m).

Definition call_with (call : bytes → HttpCall) (mark : option bytes) (h : Http) : list (HttpCall * HttpInfo) :=
  match mark with Some a => [(call a, info h)] | None => [] end.

(** ** One octet *)

(** What an octet, or the body at it, leads to: [k] octets are passed and the loop goes on, or [Execute]
    returns with [n] octets more than those passed before. *)
Inductive ByteStep :=
  | Next (k : Z) (h : Http) (m : Marks) (calls : list (HttpCall * HttpInfo))
  | Return (n : Z) (h : Http) (calls : list (HttpCall * HttpInfo)).

Definition after_calls (cs : list (HttpCall * HttpInfo)) (s : checked ByteStep) : checked ByteStep :=
  let? s := s in
  Got (match s with Next k h m calls => Next k h m (cs ++ calls) | Return n h calls => Return n h (cs ++ calls) end).

(** [state = s; break;] *)
Definition move_to (s : HttpState) (h : Http) (m : Marks) : checked ByteStep := Got (Next 1 (set_ht_state s h) m []).

(** [SET_ERRNO(e); goto error;] *)
Definition error (e : HttpErrno) (h : Http) : checked ByteStep := Got (Return 0 (set_ht_errno e h) []).

(** [CALLBACK_NOTIFY(FOR); break;] *)
Definition notify_and (call : HttpCall) (h : Http) (m : Marks) : checked ByteStep := Got (Next 1 h m [(call, info h)]).

(** [STRICT_CHECK(ch != c)] *)
Definition expect (c ch : Z) (h : Http) (k : checked ByteStep) : checked ByteStep := if ch =? c then k else error HPE_STRICT h.

(** [CALLBACK_DATA] for each mark, and [break]. *)
Definition end_field (h : Http) (m : Marks) : checked ByteStep :=
  Got (Next 1 h (mkMarks None (mk_value m) (mk_url m) (mk_body m)) (call_with on_header_field (mk_field m) h)).
Definition end_value (h : Http) (m : Marks) : checked ByteStep :=
  Got (Next 1 h (mkMarks (mk_field m) None (mk_url m) (mk_body m)) (call_with on_header_value (mk_value m) h)).
Definition end_url (h : Http) (m : Marks) : checked ByteStep :=
  Got (Next 1 h (mkMarks (mk_field m) (mk_value m) None (mk_body m)) (call_with on_url (mk_url m) h)).
Definition end_body (h : Http) (m : Marks) : checked ByteStep :=
  Got (Next 1 h (mkMarks (mk_field m) (mk_value m) (mk_url m) None) (call_with on_body (mk_body m) h)).

(** *** URLs *)

Definition parse_url_char (s : HttpState) (ch : Z) : HttpState :=
  if (ch =? SP) || (ch =? CR) || (ch =? LF) then s_dead
  else if (ch =? 9) || (ch =? 12) then s_dead
  else
  let server :=
    if ch =? 47 then s_req_path
    else if ch =? 63 then s_req_query_string_start
    else if ch =? 64 then s_req_server_with_at
    else if IS_USERINFO_CHAR ch || (ch =? 91) || (ch =? 93) then s_req_server
    else s_dead in
  match s with
  | s_req_spaces_before_url =>
      if (ch =? 47) || (ch =? 42) then s_req_path else if IS_ALPHA ch then s_req_schema else s_dead
  | s_req_schema => if IS_ALPHA ch then s else if ch =? 58 then s_req_schema_slash else s_dead
  | s_req_schema_slash => if ch =? 47 then s_req_schema_slash_slash else s_dead
  | s_req_schema_slash_slash => if ch =? 47 then s_req_server_start else s_dead
  | s_req_server_with_at => if ch =? 64 then s_dead else server
  | s_req_server_start | s_req_server => server
  | s_req_path =>
      if IS_URL_CHAR ch then s
      else if ch =? 63 then s_req_query_string_start else if ch =? 35 then s_req_fragment_start else s_dead
  | s_req_query_string_start | s_req_query_string =>
      if IS_URL_CHAR ch then s_req_query_string
      else if ch =? 63 then s_req_query_string else if ch =? 35 then s_req_fragment_start else s_dead
  | s_req_fragment_start =>
      if IS_URL_CHAR ch then s_req_fragment else if ch =? 63 then s_req_fragment else if ch =? 35 then s else s_dead
  | s_req_fragment => if IS_URL_CHAR ch then s else if (ch =? 63) || (ch =? 35) then s else s_dead
  | _ => s_dead
  end.

(** [state = parse_url_char(state, ch); if (state == s_dead) error] *)
Definition url_char (ch : Z) (h : Http) (m : Marks) : checked ByteStep :=
  let s := parse_url_char (ht_state h) ch in
  if bool_decide (s = s_dead) then error HPE_INVALID_URL (set_ht_state s h) else move_to s h m.

Definition at_spaces_before_url (ch : Z) (h : Http) (m : Marks) : checked ByteStep :=
  if ch =? SP then Got (Next 1 h m []) else
  url_char ch (if ht_method h =? 5 then set_ht_state s_req_server_start h else h) (MARK_url m).

Definition at_url_start (ch : Z) (h : Http) (m : Marks) : checked ByteStep :=
  if (ch =? SP) || (ch =? CR) || (ch =? LF) then error HPE_INVALID_URL h else url_char ch h m.

Definition at_url_octet (ch : Z) (h : Http) (m : Marks) : checked ByteStep :=
  if ch =? SP then end_url (set_ht_state s_req_http_start h) m
  else if (ch =? CR) || (ch =? LF) then
    end_url (set_ht_state (if ch =? CR then s_req_line_almost_done else s_header_field_start) (set_ht_minor 9 (set_ht_major 0 h))) m
  else url_char ch h m.

(** *** Methods *)

(** [method_strings\[method\]\[i\]]; the string ends with a null. *)
Definition matcher_at (h : Http) (i : Z) : checked Z :=
  match method_strings !! Z.to_nat (ht_method h) with
  | Some s => if (0 <=? i) && (i <=? Zlen s) then Got (zget i s) else Fault
  | None => Fault
  end.

Definition first_letter (ch : Z) : option Z :=
  match ch with
  | 67 => Some 5 | 68 => Some 0 | 71 => Some 1 | 72 => Some 2 | 76 => Some 9 | 77 => Some 10 | 78 => Some 21
  | 79 => Some 6 | 80 => Some 3 | 82 => Some 16 | 83 => Some 22 | 84 => Some 7 | 85 => Some 15
  | _ => None
  end.

Definition at_start_req (ch : Z) (h : Http) (m : Marks) : checked ByteStep :=
  if (ch =? CR) || (ch =? LF) then Got (Next 1 h m []) else
  let h := set_ht_content_length ULLONG_MAX (set_ht_flags 0 h) in
  if negb (IS_ALPHA ch) then error HPE_INVALID_METHOD h else
  match first_letter ch with
  | None => error HPE_INVALID_METHOD (set_ht_index 1 (set_ht_method 0 h))
  | Some v => notify_and on_message_begin (set_ht_state s_req_method (set_ht_index 1 (set_ht_method v h))) m
  end.

(** Another method with the same beginning: CHECKOUT and COPY for CONNECT, and so on. *)
Definition other_method (method index ch : Z) : option Z :=
  if method =? 5 then (if (index =? 1) && (ch =? 72) then Some 18 else if (index =? 2) && (ch =? 80) then Some 8 else None)
  else if method =? 10 then
    (if (index =? 1) && (ch =? 79) then Some 11 else if (index =? 1) && (ch =? 69) then Some 19
     else if (index =? 1) && (ch =? 45) then Some 20 else if (index =? 2) && (ch =? 65) then Some 17 else None)
  else if method =? 22 then (if (index =? 1) && (ch =? 69) then Some 14 else None)
  else if (index =? 1) && (method =? 3) then
    (if ch =? 82 then Some 12 else if ch =? 85 then Some 4 else if ch =? 65 then Some 24 else None)
  else if index =? 2 then
    (if method =? 4 then (if ch =? 82 then Some 25 else None)
     else if method =? 15 then (if ch =? 83 then Some 23 else None) else None)
  else if (index =? 4) && (method =? 12) && (ch =? 80) then Some 13
  else None.

Definition at_method (ch : Z) (h : Http) (m : Marks) : checked ByteStep :=
  if ch =? 0 then error HPE_INVALID_METHOD h else
  let? c := matcher_at h (ht_index h) in
  let next h := Got (Next 1 (set_ht_index (to_byte (ht_index h + 1)) h) m []) in
  if (ch =? SP) && (c =? 0) then next (set_ht_state s_req_spaces_before_url h)
  else if ch =? c then next h
  else match other_method (ht_method h) (ht_index h) ch with
  | Some v => next (set_ht_method v h)
  | None => error HPE_INVALID_METHOD h
  end.

(** *** The first line *)

Definition at_first_digit (least ch : Z) (e : HttpErrno) (set : Z → Http → Http) (s : HttpState) (h : Http) (m : Marks) : checked ByteStep :=
  if (ch <? least) || (57 <? ch) then error e h else move_to s (set (ch - 48) h) m.

(** [v *= 10; v += ch - '0';] on an [unsigned short], up to 999. *)
Definition at_digit (ch : Z) (e : HttpErrno) (get : Http → Z) (set : Z → Http → Http) (h : Http) (m : Marks) : checked ByteStep :=
  if negb (IS_NUM ch) then error e h else
  let h := set (to_word (to_word (get h * 10) + (ch - 48))) h in
  if 999 <? get h then error e h else Got (Next 1 h m []).

Definition at_start_res (ch : Z) (h : Http) (m : Marks) : checked ByteStep :=
  let h := set_ht_content_length ULLONG_MAX (set_ht_flags 0 h) in
  if ch =? 72 then notify_and on_message_begin (set_ht_state s_res_H h) m
  else if (ch =? CR) || (ch =? LF) then notify_and on_message_begin h m
  else error HPE_INVALID_CONSTANT h.

Definition at_start_req_or_res (ch : Z) (h : Http) (m : Marks) : checked ByteStep :=
  if (ch =? CR) || (ch =? LF) then Got (Next 1 h m []) else
  let h := set_ht_content_length ULLONG_MAX (set_ht_flags 0 h) in
  if ch =? 72 then notify_and on_message_begin (set_ht_state s_res_or_resp_H h) m
  else at_start_req ch (set_ht_state s_start_req (set_ht_type HTTP_REQUEST h)) m.

Definition at_res_or_resp_H (ch : Z) (h : Http) (m : Marks) : checked ByteStep :=
  if ch =? 84 then move_to s_res_HT (set_ht_type HTTP_RESPONSE h) m
  else if negb (ch =? 69) then error HPE_INVALID_CONSTANT h
  else move_to s_req_method (set_ht_index 2 (set_ht_method 2 (set_ht_type HTTP_REQUEST h))) m.

Definition at_status_code (ch : Z) (h : Http) (m : Marks) : checked ByteStep :=
  if negb (IS_NUM ch) then
    if ch =? SP then move_to s_res_status h m
    else if ch =? CR then move_to s_res_line_almost_done h m
    else if ch =? LF then move_to s_header_field_start h m
    else error HPE_INVALID_STATUS h
  else at_digit ch HPE_INVALID_STATUS ht_status set_ht_status h m.

(** *** Headers *)

(** [index++] and the comparison with the octet of a known name or value. *)
Definition match_word (word : bytes) (c : Z) (matched : HeaderState) (h : Http) : Http :=
  let i := to_byte (ht_index h + 1) in
  let h := set_ht_index i h in
  if (Zlen word <? i) || negb (c =? zget i word) then set_ht_header_state h_general h
  else if i =? Zlen word - 1 then set_ht_header_state matched h
  else h.

Definition match_name (c ch : Z) (h : Http) : checked Http :=
  let bump s := Got (set_ht_header_state s (set_ht_index (to_byte (ht_index h + 1)) h)) in
  match ht_header_state h with
  | h_general => Got h
  | h_C => bump (if c =? 111 then h_CO else h_general)
  | h_CO => bump (if c =? 110 then h_CON else h_general)
  | h_CON => bump (if c =? 110 then h_matching_connection else if c =? 116 then h_matching_content_length else h_general)
  | h_matching_connection => Got (match_word (octets "connection") c h_connection h)
  | h_matching_proxy_connection => Got (match_word (octets "proxy-connection") c h_connection h)
  | h_matching_content_length => Got (match_word (octets "content-length") c h_content_length h)
  | h_matching_transfer_encoding => Got (match_word (octets "transfer-encoding") c h_transfer_encoding h)
  | h_matching_upgrade => Got (match_word (octets "upgrade") c h_upgrade h)
  | h_connection | h_content_length | h_transfer_encoding | h_upgrade =>
      Got (if ch =? SP then h else set_ht_header_state h_general h)
  | _ => Fault
  end.

Definition at_header_field (ch : Z) (h : Http) (m : Marks) : checked ByteStep :=
  let c := TOKEN ch in
  if negb (c =? 0) then let? h := match_name c ch h in Got (Next 1 h m [])
  else if ch =? 58 then end_field (set_ht_state s_header_value_start h) m
  else if ch =? CR then end_field (set_ht_state s_header_almost_done h) m
  else if ch =? LF then end_field (set_ht_state s_header_field_start h) m
  else error HPE_INVALID_HEADER_TOKEN h.

(** The switch on the first octet of a value; [None]: not a length. *)
Definition start_value (ch : Z) (h : Http) : option Http :=
  let c := LOWER ch in
  match ht_header_state h with
  | h_upgrade => Some (set_ht_header_state h_general (add_flag F_UPGRADE h))
  | h_transfer_encoding => Some (set_ht_header_state (if c =? 99 then h_matching_transfer_encoding_chunked else h_general) h)
  | h_content_length => if IS_NUM ch then Some (set_ht_content_length (ch - 48) h) else None
  | h_connection =>
      Some (set_ht_header_state (if c =? 107 then h_matching_connection_keep_alive
        else if c =? 99 then h_matching_connection_close else h_general) h)
  | _ => Some (set_ht_header_state h_general h)
  end.

Definition at_value_start (ch : Z) (h : Http) (m : Marks) : checked ByteStep :=
  if (ch =? SP) || (ch =? 9) then Got (Next 1 h m []) else
  let m := MARK_value m in
  let h := set_ht_index 0 (set_ht_state s_header_value h) in
  if ch =? CR then end_value (set_ht_state s_header_almost_done (set_ht_header_state h_general h)) m
  else if ch =? LF then end_value (set_ht_state s_header_field_start h) m
  else match start_value ch h with
  | Some h => Got (Next 1 h m [])
  | None => error HPE_INVALID_CONTENT_LENGTH h
  end.

(** The switch on another octet of a value; [Refuse]: not a length. *)
Definition match_value (ch : Z) (h : Http) : checked Http :=
  let c := LOWER ch in
  match ht_header_state h with
  | h_general => Got h
  | h_connection | h_transfer_encoding => Fault
  | h_content_length =>
      if ch =? SP then Got h else
      if negb (IS_NUM ch) then Refuse else
      let t := to_qword (to_qword (ht_content_length h * 10) + (ch - 48)) in
      if (t <? ht_content_length h) || (t =? ULLONG_MAX) then Refuse else Got (set_ht_content_length t h)
  | h_matching_transfer_encoding_chunked => Got (match_word (octets "chunked") c h_transfer_encoding_chunked h)
  | h_matching_connection_keep_alive => Got (match_word (octets "keep-alive") c h_connection_keep_alive h)
  | h_matching_connection_close => Got (match_word (octets "close") c h_connection_close h)
  | h_transfer_encoding_chunked | h_connection_keep_alive | h_connection_close =>
      Got (if ch =? SP then h else set_ht_header_state h_general h)
  | _ => Got (set_ht_header_state h_general (set_ht_state s_header_value h))
  end.

Definition at_header_almost_done (ch : Z) (h : Http) (m : Marks) : checked ByteStep :=
  expect LF ch h (
  let h := set_ht_state s_header_value_lws h in
  Got (Next 1 (match ht_header_state h with
    | h_connection_keep_alive => add_flag F_CONNECTION_KEEP_ALIVE h
    | h_connection_close => add_flag F_CONNECTION_CLOSE h
    | h_transfer_encoding_chunked => add_flag F_CHUNKED h
    | _ => h
    end) m [])).

Definition at_header_value (ch : Z) (h : Http) (m : Marks) : checked ByteStep :=
  if ch =? CR then end_value (set_ht_state s_header_almost_done h) m
  else if ch =? LF then
    let h := set_ht_state s_header_almost_done h in
    after_calls (call_with on_header_value (mk_value m) h)
      (at_header_almost_done ch h (mkMarks (mk_field m) None (mk_url m) (mk_body m)))
  else match match_value ch h with
  | Got h => Got (Next 1 h m [])
  | Refuse => error HPE_INVALID_CONTENT_LENGTH h
  | Fault => Fault
  end.

Section Listener.
Context (skip : bool).

(** [state = NEW_MESSAGE(); CALLBACK_NOTIFY(message_complete);] *)
Definition complete (h : Http) (m : Marks) : checked ByteStep := notify_and on_message_complete (set_ht_state (NEW_MESSAGE h) h) m.

Definition at_headers_done (ch : Z) (h : Http) (m : Marks) : checked ByteStep :=
  expect LF ch h (
  let h := set_ht_nread 0 h in
  if ht_upgrade h then Got (Return 1 (set_ht_state (NEW_MESSAGE h) h) [(on_message_complete, info h)])
  else if has_flag F_SKIPBODY h then complete h m
  else if has_flag F_CHUNKED h then move_to s_chunk_size_start h m
  else if ht_content_length h =? 0 then complete h m
  else if negb (ht_content_length h =? ULLONG_MAX) then move_to s_body_identity h m
  else if bool_decide (ht_type h = HTTP_REQUEST) || negb (MessageNeedsEOF h) then complete h m
  else move_to s_body_identity_eof h m).

Definition at_headers_almost_done (ch : Z) (h : Http) (m : Marks) : checked ByteStep :=
  expect LF ch h (
  if has_flag F_TRAILING h then complete h m else
  let h := set_ht_upgrade (has_flag F_UPGRADE h || (ht_method h =? 5)) (set_ht_state s_headers_done h) in
  after_calls [(on_headers_complete, info h)] (at_headers_done ch (if skip then add_flag F_SKIPBODY h else h) m)).

Definition at_field_start (ch : Z) (h : Http) (m : Marks) : checked ByteStep :=
  if ch =? CR then move_to s_headers_almost_done h m
  else if ch =? LF then at_headers_almost_done ch (set_ht_state s_headers_almost_done h) m
  else
  let c := TOKEN ch in
  if c =? 0 then error HPE_INVALID_HEADER_TOKEN h else
  let s := if c =? 99 then h_C else if c =? 112 then h_matching_proxy_connection
    else if c =? 116 then h_matching_transfer_encoding else if c =? 117 then h_matching_upgrade else h_general in
  Got (Next 1 (set_ht_header_state s (set_ht_state s_header_field (set_ht_index 0 h))) (MARK_field m) []).

Definition at_value_lws (ch : Z) (h : Http) (m : Marks) : checked ByteStep :=
  if (ch =? SP) || (ch =? 9) then move_to s_header_value_start h m
  else at_field_start ch (set_ht_state s_header_field_start h) m.

(** *** Bodies *)

Definition asserts {A} (b : bool) (k : checked A) : checked A := if b then k else Fault.

(** [to_read]: what is left of the body or of the chunk, in the octets from here on. *)
Definition at_body_identity (rest : bytes) (h : Http) (m : Marks) : checked ByteStep :=
  let to_read := Z.min (ht_content_length h) (Zlen rest) in
  asserts (negb (ht_content_length h =? 0) && negb (ht_content_length h =? ULLONG_MAX)) (
  let m := MARK_body m in
  let h := set_ht_content_length (ht_content_length h - to_read) h in
  if ht_content_length h =? 0 then
    let h := set_ht_state s_message_done h in
    let body := call_with on_body (mk_body (pass (ztake to_read rest) m)) h in
    let h := set_ht_state (NEW_MESSAGE h) h in
    Got (Next to_read h (mkMarks (mk_field m) (mk_value m) (mk_url m) None) (body ++ [(on_message_complete, info h)]))
  else Got (Next to_read h m [])).

Definition at_chunk_size_start (ch : Z) (h : Http) (m : Marks) : checked ByteStep :=
  asserts ((ht_nread h =? 1) && has_flag F_CHUNKED h) (
  let v := default 0 (unhex !! Z.to_nat ch) in
  if v =? -1 then error HPE_INVALID_CHUNK_SIZE h else move_to s_chunk_size (set_ht_content_length v h) m).

Definition at_chunk_size (ch : Z) (h : Http) (m : Marks) : checked ByteStep :=
  asserts (has_flag F_CHUNKED h) (
  if ch =? CR then move_to s_chunk_size_almost_done h m else
  let v := default 0 (unhex !! Z.to_nat ch) in
  if v =? -1 then (if (ch =? 59) || (ch =? SP) then move_to s_chunk_parameters h m else error HPE_INVALID_CHUNK_SIZE h)
  else
  let t := to_qword (to_qword (ht_content_length h * 16) + v) in
  if (t <? ht_content_length h) || (t =? ULLONG_MAX) then error HPE_INVALID_CONTENT_LENGTH h
  else Got (Next 1 (set_ht_content_length t h) m [])).

Definition at_chunk_parameters (ch : Z) (h : Http) (m : Marks) : checked ByteStep :=
  asserts (has_flag F_CHUNKED h) (if ch =? CR then move_to s_chunk_size_almost_done h m else Got (Next 1 h m [])).

Definition at_chunk_size_almost_done (ch : Z) (h : Http) (m : Marks) : checked ByteStep :=
  asserts (has_flag F_CHUNKED h) (expect LF ch h (
  let h := set_ht_nread 0 h in
  if ht_content_length h =? 0 then move_to s_header_field_start (add_flag F_TRAILING h) m else move_to s_chunk_data h m)).

Definition at_chunk_data (rest : bytes) (h : Http) (m : Marks) : checked ByteStep :=
  let to_read := Z.min (ht_content_length h) (Zlen rest) in
  asserts (has_flag F_CHUNKED h && negb (ht_content_length h =? 0) && negb (ht_content_length h =? ULLONG_MAX)) (
  let h := set_ht_content_length (ht_content_length h - to_read) h in
  Got (Next to_read (if ht_content_length h =? 0 then set_ht_state s_chunk_data_almost_done h else h) (MARK_body m) [])).

Definition at_chunk_data_almost_done (ch : Z) (h : Http) (m : Marks) : checked ByteStep :=
  asserts (has_flag F_CHUNKED h && (ht_content_length h =? 0)) (expect CR ch h (end_body (set_ht_state s_chunk_data_done h) m)).

Definition at_chunk_data_done (ch : Z) (h : Http) (m : Marks) : checked ByteStep :=
  asserts (has_flag F_CHUNKED h) (expect LF ch h (move_to s_chunk_size_start (set_ht_nread 0 h) m)).

(** *** The switch *)

(** The octets from here on, the first of them [ch]. *)
Definition parse_byte (ch : Z) (rest : bytes) (h : Http) (m : Marks) : checked ByteStep :=
  match ht_state h with
  | s_dead => if (ch =? CR) || (ch =? LF) then Got (Next 1 h m []) else error HPE_CLOSED_CONNECTION h
  | s_start_req_or_res => at_start_req_or_res ch h m
  | s_res_or_resp_H => at_res_or_resp_H ch h m
  | s_start_res => at_start_res ch h m
  | s_res_H => expect 84 ch h (move_to s_res_HT h m)
  | s_res_HT => expect 84 ch h (move_to s_res_HTT h m)
  | s_res_HTT => expect 80 ch h (move_to s_res_HTTP h m)
  | s_res_HTTP => expect 47 ch h (move_to s_res_first_http_major h m)
  | s_res_first_http_major => at_first_digit 48 ch HPE_INVALID_VERSION set_ht_major s_res_http_major h m
  | s_res_http_major => if ch =? 46 then move_to s_res_first_http_minor h m else at_digit ch HPE_INVALID_VERSION ht_major set_ht_major h m
  | s_res_first_http_minor => at_first_digit 48 ch HPE_INVALID_VERSION set_ht_minor s_res_http_minor h m
  | s_res_http_minor => if ch =? SP then move_to s_res_first_status_code h m else at_digit ch HPE_INVALID_VERSION ht_minor set_ht_minor h m
  | s_res_first_status_code =>
      if ch =? SP then Got (Next 1 h m []) else at_first_digit 48 ch HPE_INVALID_STATUS set_ht_status s_res_status_code h m
  | s_res_status_code => at_status_code ch h m
  | s_res_status => if ch =? CR then move_to s_res_line_almost_done h m else if ch =? LF then move_to s_header_field_start h m else Got (Next 1 h m [])
  | s_res_line_almost_done => expect LF ch h (notify_and on_status_complete (set_ht_state s_header_field_start h) m)
  | s_start_req => at_start_req ch h m
  | s_req_method => at_method ch h m
  | s_req_spaces_before_url => at_spaces_before_url ch h m
  | s_req_schema | s_req_schema_slash | s_req_schema_slash_slash | s_req_server_start => at_url_start ch h m
  | s_req_server | s_req_server_with_at | s_req_path | s_req_query_string_start | s_req_query_string
  | s_req_fragment_start | s_req_fragment => at_url_octet ch h m
  | s_req_http_start =>
      if ch =? 72 then move_to s_req_http_H h m else if ch =? SP then Got (Next 1 h m []) else error HPE_INVALID_CONSTANT h
  | s_req_http_H => expect 84 ch h (move_to s_req_http_HT h m)
  | s_req_http_HT => expect 84 ch h (move_to s_req_http_HTT h m)
  | s_req_http_HTT => expect 80 ch h (move_to s_req_http_HTTP h m)
  | s_req_http_HTTP => expect 47 ch h (move_to s_req_first_http_major h m)
  | s_req_first_http_major => at_first_digit 49 ch HPE_INVALID_VERSION set_ht_major s_req_http_major h m
  | s_req_http_major => if ch =? 46 then move_to s_req_first_http_minor h m else at_digit ch HPE_INVALID_VERSION ht_major set_ht_major h m
  | s_req_first_http_minor => at_first_digit 48 ch HPE_INVALID_VERSION set_ht_minor s_req_http_minor h m
  | s_req_http_minor =>
      if ch =? CR then move_to s_req_line_almost_done h m else if ch =? LF then move_to s_header_field_start h m
      else at_digit ch HPE_INVALID_VERSION ht_minor set_ht_minor h m
  | s_req_line_almost_done => if ch =? LF then move_to s_header_field_start h m else error HPE_LF_EXPECTED h
  | s_header_field_start => at_field_start ch h m
  | s_header_field => at_header_field ch h m
  | s_header_value_start => at_value_start ch h m
  | s_header_value => at_header_value ch h m
  | s_header_value_lws => at_value_lws ch h m
  | s_header_almost_done => at_header_almost_done ch h m
  | s_chunk_size_start => at_chunk_size_start ch h m
  | s_chunk_size => at_chunk_size ch h m
  | s_chunk_parameters => at_chunk_parameters ch h m
  | s_chunk_size_almost_done => at_chunk_size_almost_done ch h m
  | s_headers_almost_done => at_headers_almost_done ch h m
  | s_headers_done => at_headers_done ch h m
  | s_chunk_data => at_chunk_data rest h m
  | s_chunk_data_almost_done => at_chunk_data_almost_done ch h m
  | s_chunk_data_done => at_chunk_data_done ch h m
  | s_body_identity => at_body_identity rest h m
  | s_body_identity_eof => Got (Next (Zlen rest) h (MARK_body m) [])
  | s_message_done => complete h m
  end.

(** ** Execute *)

Definition start_marks (h : Http) : Marks :=
  match ht_state h with
  | s_header_field => mkMarks (Some []) None None None
  | s_header_value => mkMarks None (Some []) None None
  | s_req_path | s_req_schema | s_req_schema_slash | s_req_schema_slash_slash | s_req_server_start | s_req_server
  | s_req_server_with_at | s_req_query_string_start | s_req_query_string | s_req_fragment_start | s_req_fragment =>
      mkMarks None None (Some []) None
  | _ => no_marks
  end.

(** The strings that are not complete when the octets are. *)
Definition leftover (h : Http) (m : Marks) : list (HttpCall * HttpInfo) :=
  call_with on_header_field (mk_field m) h ++ call_with on_header_value (mk_value m) h
  ++ call_with on_url (mk_url m) h ++ call_with on_body (mk_body m) h.

Fixpoint exec_loop (fuel : nat) (data : bytes) (h : Http) (m : Marks) (pos : Z) : checked (Http * list (HttpCall * HttpInfo) * Z) :=
  match data with
  | [] => asserts (Zlen (leftover h m) <=? 1) (Got (h, leftover h m, pos))
  | ch :: _ =>
      match fuel with
      | O => Fault
      | S fuel =>
          let h := if PARSING_HEADER (ht_state h) then set_ht_nread (to_dword (ht_nread h + 1)) h else h in
          if PARSING_HEADER (ht_state h) && (HTTP_MAX_HEADER_SIZE <? ht_nread h)
          then Got (set_ht_errno HPE_HEADER_OVERFLOW h, [], pos) else
          let? s := parse_byte ch data h m in
          match s with
          | Return n h calls => Got (h, calls, pos + n)
          | Next k h m calls =>
              let? r := exec_loop fuel (zdrop k data) h (pass (ztake k data) m) (pos + k) in
              Got (r.1.1, calls ++ r.1.2, r.2)
          end
      end
  end.

Definition Execute (data : bytes) (h : Http) : checked (Http * list (HttpCall * HttpInfo) * Z) :=
  if negb (bool_decide (ht_errno h = HPE_OK)) then Got (h, [], 0) else
  match data with
  | [] =>
      match ht_state h with
      | s_body_identity_eof => Got (h, [(on_message_complete, info h)], 0)
      | s_dead | s_start_req_or_res | s_start_res | s_start_req => Got (h, [], 0)
      | _ => Got (set_ht_errno HPE_INVALID_EOF_STATE h, [], 1)
      end
  | _ => exec_loop (length data) data h (start_marks h) 0
  end.

End Listener.

(** The parser of a WebSocket connection: a client reads responses and returns 1 from
    [on_headers_complete], a server reads requests and returns 0. *)
#[global] Instance http_parser : HttpParser Http := {|
  hp_new := λ client, new_http (if client then HTTP_RESPONSE else HTTP_REQUEST);
  hp_Execute := λ data h, Execute (bool_decide (ht_type h = HTTP_RESPONSE)) data h |}.

(** ** URLs

    [http_parser_parse_url]: where the parts of a URL are.  [Refuse]: it is not one.  Offsets and lengths
    are [uint16_t]. *)

Definition UF_SCHEMA : Z := 0.
Definition UF_HOST : Z := 1.
Definition UF_PORT : Z := 2.
Definition UF_PATH : Z := 3.
Definition UF_QUERY : Z := 4.
Definition UF_FRAGMENT : Z := 5.
Definition UF_USERINFO : Z := 6.
Definition UF_MAX : Z := 7.

(** [http_parser_url]; [pu_field_data] has the offset and the length of each part. *)
Record ParsedUrl := mkParsedUrl { pu_field_set : Z; pu_port : Z; pu_field_data : list (Z * Z) }.

(** As [memset] leaves it. *)
Definition no_url : ParsedUrl := mkParsedUrl 0 0 (replicate 7 (0, 0)).

Definition pu_data (f : Z) (u : ParsedUrl) : Z * Z := default (0, 0) (pu_field_data u !! Z.to_nat f).
Definition set_pu_data (f : Z) (d : Z * Z) (u : ParsedUrl) : ParsedUrl :=
  mkParsedUrl (pu_field_set u) (pu_port u) (<[Z.to_nat f := d]> (pu_field_data u)).
Definition has_part (f : Z) (u : ParsedUrl) : bool := negb (Z.land (pu_field_set u) (Z.shiftl 1 f) =? 0).

(** [off = o; len = 1; field_set |= 1 << f;] and [len++;] *)
Definition begin_part (f o : Z) (u : ParsedUrl) : ParsedUrl :=
  let u := set_pu_data f (to_word o, 1) u in
  mkParsedUrl (Z.lor (pu_field_set u) (Z.shiftl 1 f)) (pu_port u) (pu_field_data u).
Definition extend_part (f : Z) (u : ParsedUrl) : ParsedUrl := set_pu_data f ((pu_data f u).1, to_word ((pu_data f u).2 + 1)) u.

Inductive HostState :=
  | s_http_host_dead | s_http_userinfo_start | s_http_userinfo | s_http_host_start | s_http_host_v6_start
  | s_http_host | s_http_host_v6 | s_http_host_v6_end | s_http_host_port_start | s_http_host_port.

#[global] Instance HostState_eq_dec : EqDecision HostState.
Proof. solve_decision. Defined.

Definition http_parse_host_char (s : HostState) (ch : Z) : HostState :=
  let v6_end := if ch =? 58 then s_http_host_port_start else s_http_host_dead in
  let v6_start := if IS_HEX ch || (ch =? 58) || (ch =? 46) then s_http_host_v6 else s_http_host_dead in
  match s with
  | s_http_userinfo | s_http_userinfo_start =>
      if ch =? 64 then s_http_host_start else if IS_USERINFO_CHAR ch then s_http_userinfo else s_http_host_dead
  | s_http_host_start =>
      if ch =? 91 then s_http_host_v6_start else if IS_HOST_CHAR ch then s_http_host else s_http_host_dead
  | s_http_host => if IS_HOST_CHAR ch then s_http_host else v6_end
  | s_http_host_v6_end => v6_end
  | s_http_host_v6 => if ch =? 93 then s_http_host_v6_end else v6_start
  | s_http_host_v6_start => v6_start
  | s_http_host_port | s_http_host_port_start => if IS_NUM ch then s_http_host_port else s_http_host_dead
  | s_http_host_dead => s_http_host_dead
  end.

(** [if (s != new_s) field_data\[UF_HOST\].off = k; field_data\[UF_HOST\].len++;] *)
Definition host_octet (moved : bool) (k : Z) (u : ParsedUrl) : ParsedUrl :=
  extend_part UF_HOST (if moved then set_pu_data UF_HOST (to_word k, (pu_data UF_HOST u).2) u else u).

(** The loop over the octets of the host, the first of them at [k]. *)
Fixpoint host_loop (k : Z) (data : bytes) (s : HostState) (u : ParsedUrl) : checked (HostState * ParsedUrl) :=
  match data with
  | [] => Got (s, u)
  | ch :: data =>
      let new_s := http_parse_host_char s ch in
      let moved := negb (bool_decide (s = new_s)) in
      match new_s with
      | s_http_host_dead => Refuse
      | s_http_host | s_http_host_v6 => host_loop (k + 1) data new_s (host_octet moved k u)
      | s_http_host_port => host_loop (k + 1) data new_s (if moved then begin_part UF_PORT k u else extend_part UF_PORT u)
      | s_http_userinfo => host_loop (k + 1) data new_s (if moved then begin_part UF_USERINFO k u else extend_part UF_USERINFO u)
      | _ => host_loop (k + 1) data new_s u
      end
  end.

Definition http_parse_host (buf : bytes) (u : ParsedUrl) (found_at : bool) : checked ParsedUrl :=
  let '(off, len) := pu_data UF_HOST u in
  let? r := host_loop off (ztake len (zdrop off buf)) (if found_at then s_http_userinfo_start else s_http_host_start) (set_pu_data UF_HOST (off, 0) u) in
  match r.1 with
  | s_http_host_start | s_http_host_v6_start | s_http_host_v6 | s_http_host_port_start | s_http_userinfo | s_http_userinfo_start => Refuse
  | _ => Got r.2
  end.

(** The part a state is in, [None] at a delimiter. *)
Definition url_part (s : HttpState) : checked (option Z) :=
  match s with
  | s_dead => Refuse
  | s_req_schema_slash | s_req_schema_slash_slash | s_req_server_start | s_req_query_string_start | s_req_fragment_start => Got None
  | s_req_schema => Got (Some UF_SCHEMA)
  | s_req_server_with_at | s_req_server => Got (Some UF_HOST)
  | s_req_path => Got (Some UF_PATH)
  | s_req_query_string => Got (Some UF_QUERY)
  | s_req_fragment => Got (Some UF_FRAGMENT)
  | _ => Fault
  end.

Fixpoint url_loop (k : Z) (data : bytes) (s : HttpState) (old_uf : Z) (found_at : bool) (u : ParsedUrl) : checked (ParsedUrl * bool) :=
  match data with
  | [] => Got (u, found_at)
  | ch :: data =>
      let s := parse_url_char s ch in
      let? uf := url_part s in
      match uf with
      | None => url_loop (k + 1) data s old_uf found_at u
      | Some uf =>
          url_loop (k + 1) data s uf (found_at || bool_decide (s = s_req_server_with_at))
            (if uf =? old_uf then extend_part uf u else begin_part uf k u)
      end
  end.

Definition http_parser_parse_url (buf : bytes) (is_connect : bool) (u : ParsedUrl) : checked ParsedUrl :=
  let u := mkParsedUrl 0 0 (pu_field_data u) in
  let? r := url_loop 0 buf (if is_connect then s_req_server_start else s_req_spaces_before_url) UF_MAX false u in
  let '(u, found_at) := r in
  let? u := (if has_part UF_SCHEMA u || has_part UF_HOST u then http_parse_host buf u found_at else Got u) in
  if is_connect && negb (pu_field_set u =? 6) then Refuse else
  if has_part UF_PORT u then
    let v := (strtoul (zdrop (pu_data UF_PORT u).1 buf)).1 in
    if 65535 <? v then Refuse else Got (mkParsedUrl (pu_field_set u) v (pu_field_data u))
  else Got u.
