(* ===== verification/HttpParseProps.v ===== *)
(** * The HTTP parser on any input

    No octet makes the parser fail an assertion or read outside of its tables, and each call of
    [Execute] ends with the parser in a state of which the same is true ([http_parser_laws]). *)

From S2P Require Import Prelude Wire Octets HttpParse.

(** ** The invariant *)

Definition name_state (s : HeaderState) : bool :=
  match s with
  | h_general | h_C | h_CO | h_CON | h_matching_connection | h_matching_proxy_connection | h_matching_content_length
  | h_matching_transfer_encoding | h_matching_upgrade | h_connection | h_content_length | h_transfer_encoding | h_upgrade => true
  | _ => false
  end.

Definition value_state (s : HeaderState) : bool :=
  match s with h_connection | h_transfer_encoding => false | _ => true end.

(** [nread] is the count of header octets at the start of a chunk. *)
Definition state_ok (nread : Z) (h : Http) : Prop :=
  match ht_state h with
  | s_req_method => ∃ s, method_strings !! Z.to_nat (ht_method h) = Some s ∧ 0 <= ht_index h <= Zlen s
  | s_header_field => name_state (ht_header_state h) = true
  | s_header_value => value_state (ht_header_state h) = true
  | s_body_identity => 0 < ht_content_length h < ULLONG_MAX
  | s_chunk_size_start => ht_nread h = nread ∧ has_flag F_CHUNKED h = true
  | s_chunk_size | s_chunk_parameters | s_chunk_size_almost_done => ht_content_length h < ULLONG_MAX ∧ has_flag F_CHUNKED h = true
  | s_chunk_data => 0 < ht_content_length h < ULLONG_MAX ∧ has_flag F_CHUNKED h = true
  | s_chunk_data_almost_done => ht_content_length h = 0 ∧ has_flag F_CHUNKED h = true
  | s_chunk_data_done => has_flag F_CHUNKED h = true
  | _ => True
  end.

Definition parser_ok (nread : Z) (h : Http) : Prop := ht_errno h = HPE_OK ∧ 0 <= ht_content_length h <= ULLONG_MAX ∧ state_ok nread h.

Definition http_ok (h : Http) : Prop := ht_errno h ≠ HPE_OK ∨ parser_ok 0 h.

(** The marks a state has, when [a] was read since. *)
Definition state_marks (s : HttpState) (a : bytes) : Marks :=
  match s with
  | s_header_field => mkMarks (Some a) None None None
  | s_header_value => mkMarks None (Some a) None None
  | s_req_path | s_req_schema | s_req_schema_slash | s_req_schema_slash_slash | s_req_server_start | s_req_server
  | s_req_server_with_at | s_req_query_string_start | s_req_query_string | s_req_fragment_start | s_req_fragment =>
      mkMarks None None (Some a) None
  | _ => no_marks
  end.

Definition in_body (s : HttpState) : bool :=
  match s with s_chunk_data | s_chunk_data_almost_done | s_body_identity | s_body_identity_eof => true | _ => false end.

Definition marks_ok (s : HttpState) (m : Marks) : Prop :=
  if in_body s then ∃ o, m = mkMarks None None None o else ∃ a, m = state_marks s a.

Lemma start_marks_eq h : start_marks h = state_marks (ht_state h) [].
Proof. unfold start_marks, state_marks. by destruct (ht_state h). Qed.

Lemma state_marks_pass s a b : pass b (state_marks s a) = state_marks s (a ++ b).
Proof. by destruct s. Qed.

Lemma start_marks_ok h : marks_ok (ht_state h) (start_marks h).
Proof. rewrite start_marks_eq. unfold marks_ok. destruct (in_body _) eqn:E; [|by eexists]. exists None. by destruct (ht_state h). Qed.

Lemma marks_ok_pass s m b : marks_ok s m → marks_ok s (pass b m).
Proof.
  unfold marks_ok. destruct (in_body s).
  - intros [o ->]. by eexists.
  - intros [a ->]. eexists. apply state_marks_pass.
Qed.

(** The marks when the loop ends are the marks of one string at most. *)
Lemma leftover_one h m : marks_ok (ht_state h) m → Zlen (leftover h m) <= 1.
Proof.
  unfold marks_ok, leftover, call_with. intros Hm. destruct (ht_state h); cbn in Hm; destruct Hm as [[]->] || destruct Hm as [a ->]; done.
Qed.

(** ** One octet *)

(** What is asked of a step from [data]. *)
Definition step_ok (data : bytes) (r : checked ByteStep) : Prop :=
  match r with
  | Got (Next k h m _) => 1 <= k <= Zlen data ∧ parser_ok 0 h ∧ marks_ok (ht_state h) m
  | Got (Return n h _) => 0 <= n <= 1 ∧ http_ok h
  | _ => False
  end.

Lemma step_ok_calls cs data r : step_ok data (after_calls cs r) ↔ step_ok data r.
Proof. unfold after_calls. by destruct r as [| |[]]. Qed.

Lemma error_ok e data h : e ≠ HPE_OK → step_ok data (error e h).
Proof. intros. split; [lia|]. by left. Qed.

Lemma expect_ok c ch data h k : step_ok data k → step_ok data (expect c ch h k).
Proof. intros. unfold expect. case_match; [done|by apply error_ok]. Qed.

#[local] Hint Extern 1 (step_ok _ (error _ _)) => by apply error_ok : http.

(** A state that asks for nothing. *)
Definition plain_state (s : HttpState) : bool :=
  match s with
  | s_req_method | s_header_field | s_header_value | s_body_identity | s_chunk_size_start | s_chunk_size | s_chunk_parameters
  | s_chunk_size_almost_done | s_chunk_data | s_chunk_data_almost_done | s_chunk_data_done => false
  | _ => true
  end.

Lemma state_ok_plain n h : plain_state (ht_state h) = true → state_ok n h.
Proof. unfold state_ok. by destruct (ht_state h). Qed.

Lemma no_marks_ok s : state_marks s [] = no_marks → marks_ok s no_marks.
Proof. intros Hs. unfold marks_ok. destruct (in_body s); [by exists None|]. exists []. by rewrite Hs. Qed.

Lemma new_message_plain h : plain_state (NEW_MESSAGE h) = true ∧ state_marks (NEW_MESSAGE h) [] = no_marks.
Proof. unfold NEW_MESSAGE. by repeat case_match. Qed.

Section Octet.
Context (ch : Z) (rest : bytes) (h : Http) (He : ht_errno h = HPE_OK) (Hcl : 0 <= ht_content_length h <= ULLONG_MAX).
Notation data := (ch :: rest).

Lemma next_ok h' m cs :
  ht_errno h' = HPE_OK → 0 <= ht_content_length h' <= ULLONG_MAX → state_ok 0 h' → marks_ok (ht_state h') m →
  step_ok data (Got (Next 1 h' m cs)).
Proof. intros. split; [rewrite Zlen_cons; pose proof (Zlen_nonneg rest); lia|]. done. Qed.

Lemma stay_ok m : state_ok 0 h → marks_ok (ht_state h) m → step_ok data (Got (Next 1 h m [])).
Proof. by apply next_ok. Qed.

Lemma move_ok s m : plain_state s = true → marks_ok s m → step_ok data (move_to s h m).
Proof. intros. apply next_ok; [done..| |done]. by apply state_ok_plain. Qed.
End Octet.

Ltac no_mark := by (exists []) || by (eexists).
Ltac http_solve :=
  repeat case_match; try (by apply error_ok); try (apply move_ok; [done..|no_mark]); try (apply next_ok; [done..|no_mark]).

Lemma digit_ok ch rest e get set h m :
  e ≠ HPE_OK → (∀ v, ht_errno (set v h) = ht_errno h ∧ ht_content_length (set v h) = ht_content_length h ∧ ht_state (set v h) = ht_state h) →
  ht_errno h = HPE_OK → 0 <= ht_content_length h <= ULLONG_MAX → plain_state (ht_state h) = true → marks_ok (ht_state h) m →
  step_ok (ch :: rest) (at_digit ch e get set h m).
Proof.
  intros Hne Hset He Hcl Hp Hm. unfold at_digit. case_match; [by apply error_ok|]. case_match; [by apply error_ok|].
  destruct (Hset (to_word (to_word (get h * 10) + (ch - 48)))) as (H1 & H2 & H3).
  apply next_ok; rewrite ?H1, ?H2, ?H3; try done. apply state_ok_plain. by rewrite H3.
Qed.

Lemma first_digit_ok least ch rest e set s h m :
  e ≠ HPE_OK → (∀ v, ht_errno (set v h) = ht_errno h ∧ ht_content_length (set v h) = ht_content_length h) →
  ht_errno h = HPE_OK → 0 <= ht_content_length h <= ULLONG_MAX → plain_state s = true → marks_ok s m →
  step_ok (ch :: rest) (at_first_digit least ch e set s h m).
Proof.
  intros Hne Hset He Hcl Hp Hm. unfold at_first_digit. case_match; [by apply error_ok|].
  destruct (Hset (ch - 48)) as [H1 H2]. apply move_ok; rewrite ?H1, ?H2; done.
Qed.

Lemma complete_ok ch rest h :
  ht_errno h = HPE_OK → 0 <= ht_content_length h <= ULLONG_MAX → step_ok (ch :: rest) (complete h no_marks).
Proof.
  intros. destruct (new_message_plain h) as [Hp Hm]. apply next_ok; [done..| |by apply no_marks_ok]. by apply state_ok_plain.
Qed.

(** ** Methods and URLs *)

Definition url_state (s : HttpState) : bool :=
  match s with
  | s_req_path | s_req_schema | s_req_schema_slash | s_req_schema_slash_slash | s_req_server_start | s_req_server
  | s_req_server_with_at | s_req_query_string_start | s_req_query_string | s_req_fragment_start | s_req_fragment => true
  | _ => false
  end.

Lemma url_state_marks s a : url_state s = true → state_marks s a = mkMarks None None (Some a) None ∧ in_body s = false ∧ plain_state s = true.
Proof. by destruct s. Qed.

Lemma parse_url_char_state s ch : parse_url_char s ch = s_dead ∨ url_state (parse_url_char s ch) = true.
Proof. unfold parse_url_char. repeat case_match; auto. Qed.

Lemma url_char_ok ch rest h a :
  ht_errno h = HPE_OK → 0 <= ht_content_length h <= ULLONG_MAX → step_ok (ch :: rest) (url_char ch h (mkMarks None None (Some a) None)).
Proof.
  intros He Hcl. unfold url_char. case_bool_decide as Hd; [by apply error_ok|].
  destruct (parse_url_char_state (ht_state h) ch) as [?|Hu]; [done|]. destruct (url_state_marks _ a Hu) as (H1 & H2 & H3).
  apply move_ok; [done..|]. unfold marks_ok. rewrite H2. by exists a.
Qed.

Lemma method_range i s : method_strings !! i = Some s → 3 <= Zlen s <= 11.
Proof. intros Hi%list_elem_of_lookup_2. revert s Hi. apply Forall_forall. repeat constructor; vm_compute; intuition discriminate. Qed.

(** A method with the same beginning is longer than what was read. *)
Lemma other_method_ok v i ch w :
  0 <= i → other_method v i ch = Some w → ∃ s, method_strings !! Z.to_nat w = Some s ∧ i + 1 <= Zlen s.
Proof.
  intros Hi. unfold other_method. repeat case_match; try done; intros [= <-];
    repeat match goal with H : (_ && _)%bool = true |- _ => apply andb_true_iff in H as [? ?] | H : (_ =? _) = true |- _ => apply Z.eqb_eq in H; subst end;
    (eexists; split; [reflexivity|vm_compute; discriminate]).
Qed.

Lemma at_method_ok ch rest h :
  ht_errno h = HPE_OK → 0 <= ht_content_length h <= ULLONG_MAX → ht_state h = s_req_method → state_ok 1 h →
  step_ok (ch :: rest) (at_method ch h no_marks).
Proof.
  intros He Hcl E Hs. unfold state_ok in Hs. rewrite E in Hs. destruct Hs as (s & Hl & Hi). pose proof (method_range _ _ Hl) as Hr.
  unfold at_method. case_match; [by apply error_ok|]. unfold matcher_at. rewrite Hl. rewrite (proj2 (Z.leb_le _ _)), (proj2 (Z.leb_le _ _)) by lia.
  cbn [andb cbind]. assert (to_byte (ht_index h + 1) = ht_index h + 1) as Hb by (apply to_byte_id; unfold is_byte; lia).
  destruct ((ch =? SP) && _); [apply next_ok; [done..|no_mark]|]. destruct (Z.eqb_spec ch (zget (ht_index h) s)) as [Hc|Hc].
  - apply next_ok; [done..| |cbn; rewrite E; no_mark]. unfold state_ok. cbn. rewrite E. exists s. split; [done|]. rewrite Hb.
    destruct (Z.eq_dec (ht_index h) (Zlen s)) as [Hx|]; [|lia]. exfalso.
    rewrite Hx in Hc. unfold zget in Hc. rewrite Zlen_to_nat, lookup_ge_None_2 in Hc by lia. by apply Z.eqb_neq in H.
  - destruct (other_method _ _ _) as [w|] eqn:Ho; [|by apply error_ok]. apply other_method_ok in Ho as (t & Ht & Hlt); [|lia].
    apply next_ok; [done..| |cbn; rewrite E; no_mark]. unfold state_ok. cbn. rewrite E. exists t. split; [done|]. rewrite Hb. lia.
Qed.

(** ** Headers *)

Lemma match_word_keeps w c s h :
  ht_errno (match_word w c s h) = ht_errno h ∧ ht_content_length (match_word w c s h) = ht_content_length h
  ∧ ht_state (match_word w c s h) = ht_state h ∧ ht_flags (match_word w c s h) = ht_flags h ∧ ht_nread (match_word w c s h) = ht_nread h
  ∧ (ht_header_state (match_word w c s h) = h_general ∨ ht_header_state (match_word w c s h) = s
     ∨ ht_header_state (match_word w c s h) = ht_header_state h).
Proof. unfold match_word. repeat case_match; split_and!; auto. Qed.

(** The octets of a name change nothing but the index and the state of the comparison. *)
Lemma match_name_ok c ch h :
  name_state (ht_header_state h) = true → ∃ h', match_name c ch h = Got h' ∧ name_state (ht_header_state h') = true
    ∧ ht_errno h' = ht_errno h ∧ ht_content_length h' = ht_content_length h ∧ ht_state h' = ht_state h
    ∧ ht_flags h' = ht_flags h ∧ ht_nread h' = ht_nread h.
Proof.
  intros Hn. unfold match_name. destruct (ht_header_state h) eqn:E; try done;
    try (eexists; split; [reflexivity|]; cbn; repeat case_match; cbn; rewrite ?E; done);
    match goal with |- context [match_word ?w ?c ?s ?h] => destruct (match_word_keeps w c s h) as (H1 & H2 & H3 & H4 & H5 & [H6|[H6|H6]]) end;
    (eexists; split; [reflexivity|]; rewrite H1, H2, H3, H4, H5, H6, ?E; done).
Qed.

Lemma match_value_ok ch h :
  value_state (ht_header_state h) = true → 0 <= ht_content_length h <= ULLONG_MAX → ht_state h = s_header_value →
  match match_value ch h with
  | Got h' => value_state (ht_header_state h') = true ∧ ht_errno h' = ht_errno h ∧ 0 <= ht_content_length h' <= ULLONG_MAX
      ∧ ht_state h' = s_header_value
  | Refuse => True
  | Fault => False
  end.
Proof.
  intros Hv Hcl Hs. unfold match_value. destruct (ht_header_state h) eqn:E; try done;
    try (cbn; repeat case_match; cbn; rewrite ?E; done);
    try (match goal with |- context [match_word ?w ?c ?s ?h] => destruct (match_word_keeps w c s h) as (H1 & H2 & H3 & H4 & H5 & [H6|[H6|H6]]) end;
      rewrite H1, H2, H3, H6, ?E; done).
  destruct (ch =? SP); [by rewrite E|]. destruct (negb (IS_NUM ch)); [done|]. cbv zeta. destruct (_ || _); [done|].
  split_and!; try done; [cbn; by rewrite E|..]; cbn; unfold to_qword;
    pose proof (Z.mod_pos_bound (to_qword (ht_content_length h * 10) + (ch - 48)) (2 ^ 64) eq_refl); unfold to_qword in *; lia.
Qed.

Lemma start_value_ok ch h :
  0 <= ht_content_length h <= ULLONG_MAX → ht_state h = s_header_value →
  match start_value ch h with
  | Some h' => value_state (ht_header_state h') = true ∧ ht_errno h' = ht_errno h ∧ 0 <= ht_content_length h' <= ULLONG_MAX
      ∧ ht_state h' = s_header_value
  | None => True
  end.
Proof.
  intros Hcl Hs. unfold start_value. destruct (ht_header_state h) eqn:E; try done;
    try (cbn; repeat case_match; done).
  destruct (IS_NUM ch) eqn:Hn; [|done]. unfold IS_NUM in Hn. cbn. rewrite E. apply andb_true_iff in Hn as [?%Z.leb_le ?%Z.leb_le].
  split_and!; try done; lia.
Qed.

Lemma at_header_almost_done_ok ch rest h :
  ht_errno h = HPE_OK → 0 <= ht_content_length h <= ULLONG_MAX → step_ok (ch :: rest) (at_header_almost_done ch h no_marks).
Proof.
  intros. apply expect_ok. cbv zeta. apply next_ok; case_match; try done; no_mark.
Qed.

Section Skip.
Context (skip : bool).

Lemma at_headers_done_ok ch rest h :
  ht_errno h = HPE_OK → 0 <= ht_content_length h <= ULLONG_MAX → step_ok (ch :: rest) (at_headers_done ch h no_marks).
Proof.
  intros He Hcl. apply expect_ok. cbv zeta. set (h0 := set_ht_nread 0 h).
  assert (ht_errno h0 = HPE_OK) as He0 by done. assert (0 <= ht_content_length h0 <= ULLONG_MAX) as Hcl0 by done.
  case_match.
  - split; [lia|]. right. destruct (new_message_plain h0). split; [done|]. split; [done|]. by apply state_ok_plain.
  - case_match; [by apply complete_ok|]. case_match.
    + apply next_ok; [done..| |no_mark]. split; [done|]. by destruct (has_flag F_CHUNKED h).
    + case_match; [by apply complete_ok|]. case_match.
      * apply next_ok; [done..| |by exists None]. apply Z.eqb_neq in H2. apply negb_true_iff, Z.eqb_neq in H3.
        change (0 < ht_content_length h0 < ULLONG_MAX). lia.
      * case_match; [by apply complete_ok|]. apply next_ok; [done..|by exists None].
Qed.

Lemma at_headers_almost_done_ok ch rest h :
  ht_errno h = HPE_OK → 0 <= ht_content_length h <= ULLONG_MAX → step_ok (ch :: rest) (at_headers_almost_done skip ch h no_marks).
Proof.
  intros He Hcl. apply expect_ok. case_match; [by apply complete_ok|]. rewrite step_ok_calls. by apply at_headers_done_ok; destruct skip.
Qed.

Lemma at_field_start_ok ch rest h :
  ht_errno h = HPE_OK → 0 <= ht_content_length h <= ULLONG_MAX → step_ok (ch :: rest) (at_field_start skip ch h no_marks).
Proof.
  intros He Hcl. unfold at_field_start. case_match; [apply move_ok; [done..|no_mark]|]. case_match; [by apply at_headers_almost_done_ok|].
  case_match; [by apply error_ok|]. apply next_ok; [done..| |by exists []]. unfold state_ok. cbn. by repeat case_match.
Qed.

(** ** The loop *)

Lemma unhex_range ch : is_byte ch → -1 <= default 0 (unhex !! Z.to_nat ch) <= 15.
Proof.
  intros Hc. destruct (unhex !! Z.to_nat ch) as [v|] eqn:E; [|cbn; lia]. cbn. apply list_elem_of_lookup_2 in E. revert v E.
  apply Forall_forall. apply Forall_app. split; [|apply Forall_replicate; lia]. repeat constructor; lia.
Qed.

Lemma body_step_ok rest h o s' cs :
  0 < ht_content_length h < ULLONG_MAX → ht_errno h = HPE_OK → rest ≠ [] → in_body s' = true →
  let n := Z.min (ht_content_length h) (Zlen rest) in
  state_ok 0 (set_ht_state s' (set_ht_content_length (ht_content_length h - n) h)) →
  step_ok rest (Got (Next n (set_ht_state s' (set_ht_content_length (ht_content_length h - n) h)) (mkMarks None None None o) cs)).
Proof.
  intros Hcl He Hr Hs n Hok. assert (1 <= Zlen rest) by (destruct rest; [done|rewrite Zlen_cons; pose proof (Zlen_nonneg rest); lia]).
  split; [unfold n; lia|]. split; [|unfold marks_ok; cbn; rewrite Hs; by eexists]. split_and!; [done|cbn; unfold n; lia..|done].
Qed.

Lemma at_body_identity_ok rest h o :
  ht_errno h = HPE_OK → 0 < ht_content_length h < ULLONG_MAX → ht_state h = s_body_identity → rest ≠ [] →
  step_ok rest (at_body_identity rest h (mkMarks None None None o)).
Proof.
  intros He Hcl E Hr. assert (1 <= Zlen rest) by (destruct rest; [done|rewrite Zlen_cons; pose proof (Zlen_nonneg rest); lia]).
  unfold at_body_identity. rewrite (proj2 (Z.eqb_neq _ _)), (proj2 (Z.eqb_neq _ _)) by lia. cbn [negb andb asserts]. cbv zeta.
  case_match.
  - split; [lia|]. match goal with |- context [NEW_MESSAGE ?h] => destruct (new_message_plain h) as [Hp Hm] end.
    split; [|by apply no_marks_ok]. split; [done|]. split; [cbn; lia|]. by apply state_ok_plain.
  - apply Z.eqb_neq in H0. cbn in H0. split; [lia|]. split; [|unfold marks_ok; cbn; rewrite E; by eexists].
    split; [done|]. split; [cbn; lia|]. unfold state_ok. cbn. rewrite E. lia.
Qed.

Lemma at_chunk_data_ok rest h o :
  ht_errno h = HPE_OK → 0 < ht_content_length h < ULLONG_MAX → has_flag F_CHUNKED h = true → ht_state h = s_chunk_data → rest ≠ [] →
  step_ok rest (at_chunk_data rest h (mkMarks None None None o)).
Proof.
  intros He Hcl Hf E Hr. assert (1 <= Zlen rest) by (destruct rest; [done|rewrite Zlen_cons; pose proof (Zlen_nonneg rest); lia]).
  unfold at_chunk_data. rewrite Hf, (proj2 (Z.eqb_neq _ _)), (proj2 (Z.eqb_neq _ _)) by lia. cbn [negb andb asserts]. cbv zeta.
  split; [lia|]. case_match.
  - apply Z.eqb_eq in H0. split; [|by eexists]. split; [done|]. split; [cbn in *; lia|]. split; [done|exact Hf].
  - apply Z.eqb_neq in H0. cbn in H0. split; [|unfold marks_ok; cbn; rewrite E; by eexists].
    split; [done|]. split; [cbn; lia|]. unfold state_ok. cbn. rewrite E. split; [lia|exact Hf].
Qed.

Lemma at_chunk_size_ok ch rest h :
  is_byte ch → ht_errno h = HPE_OK → 0 <= ht_content_length h <= ULLONG_MAX → ht_content_length h < ULLONG_MAX →
  has_flag F_CHUNKED h = true → ht_state h = s_chunk_size → step_ok (ch :: rest) (at_chunk_size ch h no_marks).
Proof.
  intros Hb He Hcl Hlt Hf E. unfold at_chunk_size. rewrite Hf. cbn [asserts].
  case_match; [apply next_ok; [done..|no_mark]|]. cbv zeta. case_match.
  - case_match; [apply next_ok; [done..|no_mark]|by apply error_ok].
  - destruct (_ || _) eqn:Ho; [by apply error_ok|]. apply orb_false_iff in Ho as [?%Z.ltb_ge ?%Z.eqb_neq].
    set (t := to_qword _) in *. assert (0 <= t < 2 ^ 64) by (unfold t, to_qword; apply Z.mod_pos_bound; lia).
    apply next_ok; [done|cbn; lia| |cbn; rewrite E; no_mark]. unfold state_ok. cbn. rewrite E. split; [lia|exact Hf].
Qed.

(** The ways on that ask for nothing but the state. *)
Ltac http_step E :=
  first
    [ by apply error_ok
    | apply move_ok; [done..|no_mark]
    | apply stay_ok; [done|done|apply state_ok_plain; by rewrite E|rewrite E; no_mark]
    | apply digit_ok; [done|done|done|done|by rewrite E|rewrite E; no_mark]
    | apply first_digit_ok; [done|done|done|done|done|no_mark]
    | apply next_ok; [done|done|by apply state_ok_plain|no_mark] ].

Lemma at_status_code_ok ch rest h :
  ht_errno h = HPE_OK → 0 <= ht_content_length h <= ULLONG_MAX → ht_state h = s_res_status_code → step_ok (ch :: rest) (at_status_code ch h no_marks).
Proof. intros He Hcl E. unfold at_status_code. destruct (negb (IS_NUM ch)); [|http_step E]. repeat case_match; http_step E. Qed.

Lemma at_start_req_ok ch rest h :
  ht_errno h = HPE_OK → 0 <= ht_content_length h <= ULLONG_MAX → ht_state h = s_start_req → step_ok (ch :: rest) (at_start_req ch h no_marks).
Proof.
  intros He Hcl E. unfold at_start_req. destruct (_ || _); [http_step E|]. destruct (negb _); [by apply error_ok|].
  destruct (first_letter ch) as [v|] eqn:Ev; [|by apply error_ok]. apply next_ok; [done|done| |no_mark].
  assert (∃ s, method_strings !! Z.to_nat v = Some s) as [s Hs]; [|exists s; split; [done|pose proof (method_range _ _ Hs); cbn; lia]].
  unfold first_letter in Ev. repeat case_match; try done; injection Ev as <-; by eexists.
Qed.

Lemma at_first_line_ok ch rest h :
  ht_errno h = HPE_OK → 0 <= ht_content_length h <= ULLONG_MAX →
  (ht_state h = s_start_req_or_res → step_ok (ch :: rest) (at_start_req_or_res ch h no_marks))
  ∧ (ht_state h = s_res_or_resp_H → step_ok (ch :: rest) (at_res_or_resp_H ch h no_marks))
  ∧ (ht_state h = s_start_res → step_ok (ch :: rest) (at_start_res ch h no_marks)).
Proof.
  intros He Hcl. split_and!; intros E.
  - unfold at_start_req_or_res. destruct (_ || _); [http_step E|]. case_match; [http_step E|]. by apply at_start_req_ok.
  - unfold at_res_or_resp_H. case_match; [http_step E|]. case_match; [by apply error_ok|]. apply next_ok; [done|done| |no_mark].
    exists (octets "HEAD"). split; [done|vm_compute; intuition discriminate].
  - unfold at_start_res. case_match; [http_step E|]. destruct (_ || _); [|by apply error_ok].
    apply next_ok; [done|cbn; lia|apply state_ok_plain; cbn; by rewrite E|cbn; rewrite E; no_mark].
Qed.

Lemma at_urls_ok ch rest h a :
  ht_errno h = HPE_OK → 0 <= ht_content_length h <= ULLONG_MAX →
  step_ok (ch :: rest) (at_url_start ch h (mkMarks None None (Some a) None)) ∧ step_ok (ch :: rest) (at_url_octet ch h (mkMarks None None (Some a) None))
  ∧ (ht_state h = s_req_spaces_before_url → step_ok (ch :: rest) (at_spaces_before_url ch h no_marks)).
Proof.
  intros He Hcl. split_and!; [| |intros E].
  - unfold at_url_start. destruct (_ || _ || _); [by apply error_ok|by apply url_char_ok].
  - unfold at_url_octet. case_match; [apply next_ok; [done..|no_mark]|]. destruct (_ || _); [|by apply url_char_ok].
    apply next_ok; [done|done|apply state_ok_plain; by case_match|cbn; case_match; no_mark].
  - unfold at_spaces_before_url. case_match; [http_step E|]. apply url_char_ok; by case_match.
Qed.

Lemma at_header_field_ok ch rest h a :
  ht_errno h = HPE_OK → 0 <= ht_content_length h <= ULLONG_MAX → ht_state h = s_header_field → name_state (ht_header_state h) = true →
  step_ok (ch :: rest) (at_header_field ch h (mkMarks (Some a) None None None)).
Proof.
  intros He Hcl E Hn. unfold at_header_field. cbv zeta. destruct (negb _).
  - destruct (match_name_ok (TOKEN ch) ch h Hn) as (h' & -> & H1 & H2 & H3 & H4 & _). cbn [cbind].
    apply next_ok; [congruence|by rewrite H3| |rewrite H4, E; by exists a]. unfold state_ok. by rewrite H4, E.
  - repeat case_match; try (by apply error_ok); (apply next_ok; [done|done|by apply state_ok_plain|no_mark]).
Qed.

Lemma at_values_ok ch rest h a :
  ht_errno h = HPE_OK → 0 <= ht_content_length h <= ULLONG_MAX →
  (ht_state h = s_header_value_start → step_ok (ch :: rest) (at_value_start ch h no_marks))
  ∧ (ht_state h = s_header_value → value_state (ht_header_state h) = true →
     step_ok (ch :: rest) (at_header_value ch h (mkMarks None (Some a) None None))).
Proof.
  intros He Hcl. split; intros E.
  - unfold at_value_start. destruct (_ || _); [http_step E|]. cbv zeta. case_match; [http_step E|]. case_match; [http_step E|].
    set (h0 := set_ht_index 0 _). pose proof (start_value_ok ch h0 Hcl eq_refl) as Hv. destruct (start_value ch h0) as [h'|]; [|by apply error_ok].
    destruct Hv as (H1 & H2 & H3 & H4). apply next_ok; [by rewrite H2|done| |rewrite H4; by exists []]. unfold state_ok. by rewrite H4.
  - intros Hv. unfold at_header_value. case_match; [http_step E|]. case_match; [rewrite step_ok_calls; by apply at_header_almost_done_ok|].
    pose proof (match_value_ok ch h Hv Hcl E) as Hm. destruct (match_value ch h) as [| |h']; [done|by apply error_ok|].
    destruct Hm as (H1 & H2 & H3 & H4). apply next_ok; [by rewrite H2|done| |rewrite H4; by exists a]. unfold state_ok. by rewrite H4.
Qed.

Lemma at_chunks_ok ch rest h :
  is_byte ch → ht_errno h = HPE_OK → 0 <= ht_content_length h <= ULLONG_MAX → has_flag F_CHUNKED h = true →
  (ht_nread h = 1 → step_ok (ch :: rest) (at_chunk_size_start ch h no_marks))
  ∧ (ht_state h = s_chunk_parameters → ht_content_length h < ULLONG_MAX → step_ok (ch :: rest) (at_chunk_parameters ch h no_marks))
  ∧ (ht_content_length h < ULLONG_MAX → step_ok (ch :: rest) (at_chunk_size_almost_done ch h no_marks))
  ∧ (∀ o, ht_content_length h = 0 → step_ok (ch :: rest) (at_chunk_data_almost_done ch h (mkMarks None None None o)))
  ∧ step_ok (ch :: rest) (at_chunk_data_done ch h no_marks).
Proof.
  intros Hb He Hcl Hf. split_and!.
  - intros Hn. unfold at_chunk_size_start. rewrite Hn, Hf. cbn [Z.eqb andb asserts]. cbv zeta. pose proof (unhex_range ch Hb).
    set (v := default 0 _) in *. clearbody v. case_match; [by apply error_ok|]. apply Z.eqb_neq in H0. apply next_ok; [done|cbn; lia|split; [cbn; lia|exact Hf]|no_mark].
  - intros E Hlt. unfold at_chunk_parameters. rewrite Hf. cbn [asserts]. case_match; [apply next_ok; [done..|no_mark]|].
    apply stay_ok; [done|done|unfold state_ok; by rewrite E|rewrite E; no_mark].
  - intros Hlt. unfold at_chunk_size_almost_done. rewrite Hf. cbn [asserts]. apply expect_ok. cbv zeta. case_match; [http_step I|].
    apply Z.eqb_neq in H. cbn in H. apply next_ok; [done|done|split; [cbn; lia|exact Hf]|by exists None].
  - intros o Hz. unfold at_chunk_data_almost_done. rewrite Hf, Hz. cbn [Z.eqb andb asserts]. apply expect_ok.
    apply next_ok; [done|done|exact Hf|no_mark].
  - unfold at_chunk_data_done. rewrite Hf. cbn [asserts]. apply expect_ok. apply next_ok; [done|done|split; [done|exact Hf]|no_mark].
Qed.

(** No octet leads out of the invariant. *)
Lemma parse_byte_ok ch rest h m :
  is_byte ch → parser_ok 1 h → marks_ok (ht_state h) m → step_ok (ch :: rest) (parse_byte skip ch (ch :: rest) h m).
Proof.
  intros Hb (He & Hcl & Hs) Hm. unfold parse_byte, state_ok in *.
  destruct (at_first_line_ok ch rest h He Hcl) as (F1 & F2 & F3).
  destruct (ht_state h) eqn:E; cbn in Hm; destruct Hm as [a ->];
    try (lazymatch goal with |- step_ok _ (expect _ _ _ _) => apply expect_ok end); try (http_step E);
    auto using at_status_code_ok, at_start_req_ok, at_field_start_ok, at_headers_done_ok, at_headers_almost_done_ok,
      at_header_almost_done_ok, complete_ok;
    try (repeat case_match; http_step E); try (by apply (at_urls_ok ch rest h a)); try (by apply (at_values_ok ch rest h a)).
  - apply at_method_ok; [done..|]. unfold state_ok. by rewrite E.
  - by apply at_header_field_ok.
  - unfold at_value_lws. destruct (_ || _); [http_step E|]. by apply at_field_start_ok.
  - destruct Hs. by apply at_chunks_ok.
  - destruct Hs. by apply at_chunk_size_ok.
  - destruct Hs. by apply at_chunks_ok.
  - destruct Hs. by apply at_chunks_ok.
  - destruct Hs. by apply at_chunk_data_ok.
  - destruct Hs. by apply at_chunks_ok.
  - by apply at_chunks_ok.
  - by apply at_body_identity_ok.
  - split; [rewrite Zlen_cons; pose proof (Zlen_nonneg rest); lia|]. split; [split; [done|split; [done|apply state_ok_plain; by rewrite E]]|].
    rewrite E. by eexists.
Qed.

Lemma exec_loop_ok fuel data h m pos :
  (length data <= fuel)%nat → bytes_ok data → parser_ok 0 h → marks_ok (ht_state h) m →
  ∃ h' calls n, exec_loop skip fuel data h m pos = Got (h', calls, n) ∧ http_ok h' ∧ pos <= n <= pos + Zlen data.
Proof.
  revert data h m pos. induction fuel as [|fuel IH]; intros data h m pos Hl Hb Hh Hm.
  all: destruct data as [|ch rest]; [exists h, (leftover h m), pos|].
  1,3: cbn; rewrite (proj2 (Z.leb_le _ _) (leftover_one _ _ Hm)); split; [done|]; split; [by right|rewrite Zlen_nil; lia].
  { cbn in Hl. lia. }
  cbn [exec_loop]. apply Forall_cons in Hb as [Hc Hb]. set (h1 := if PARSING_HEADER (ht_state h) then _ else h).
  assert (ht_state h1 = ht_state h) as Es by (unfold h1; by case_match).
  pose proof (Zlen_nonneg rest) as Hn. rewrite Es. destruct (_ && _).
  { eexists _, _, _. split; [done|]. split; [by left|rewrite Zlen_cons; lia]. }
  destruct Hh as (He & Hcl & Hs).
  assert (parser_ok 1 h1) as Hh1.
  { split; [unfold h1; by case_match|]. split; [unfold h1; by case_match|]. unfold h1, state_ok in *.
    destruct (ht_state h) eqn:E; cbn; rewrite ?E; try done. destruct Hs as [-> Hf]. by split. }
  pose proof (parse_byte_ok ch rest h1 m Hc Hh1) as Hstep. rewrite Es in Hstep. specialize (Hstep Hm).
  destruct (parse_byte skip ch (ch :: rest) h1 m) as [| |[k h2 m2 cs|n h2 cs]]; [done|done|..]; cbn [cbind].
  - destruct Hstep as (Hk & Hh2 & Hm2). destruct (IH (zdrop k (ch :: rest)) h2 (pass (ztake k (ch :: rest)) m2) (pos + k)) as (h' & cs' & n & -> & Hok & Hpos).
    + unfold zdrop. rewrite length_drop. cbn in *. lia.
    + apply bytes_ok_zdrop. by constructor.
    + done.
    + by apply marks_ok_pass.
    + eexists _, _, _. split; [done|]. split; [done|]. cbn [fst snd]. rewrite Zlen_zdrop in Hpos by lia. lia.
  - destruct Hstep as (Hk & Hh2). eexists _, _, _. split; [done|]. split; [done|rewrite Zlen_cons; lia].
Qed.

Lemma Execute_ok data h :
  bytes_ok data → http_ok h →
  ∃ h' calls n, Execute skip data h = Got (h', calls, n) ∧ http_ok h' ∧ 0 <= n <= Z.max 1 (Zlen data).
Proof.
  intros Hb Hh. unfold Execute. case_bool_decide as He; cbn [negb]; [|by eexists _, _, _; split; [done|split; [done|lia]]].
  destruct Hh as [?|Hh]; [done|]. destruct data as [|ch rest].
  - destruct (ht_state h); eexists _, _, _; (split; [done|]); (split; [|lia]); (by right) || by left.
  - destruct (exec_loop_ok (length (ch :: rest)) (ch :: rest) h (start_marks h) 0) as (h' & cs & n & -> & H1 & H2);
      [done|done|done|apply start_marks_ok|]. eexists _, _, _. split; [done|]. split; [done|lia].
Qed.
End Skip.

(** ** What is read

    A parser of requests reads requests, one of responses reads responses. *)

Definition fixed_type (s : HttpState) : bool := match s with s_start_req_or_res | s_res_or_resp_H => false | _ => true end.

(** The type after a step is the type before, and stays so. *)
Definition keeps_type (h : Http) (r : checked ByteStep) : Prop :=
  match r with Got (Next _ h' _ _) => ht_type h' = ht_type h ∧ fixed_type (ht_state h') = true | _ => True end.

Lemma keeps_type_calls h cs r : keeps_type h (after_calls cs r) ↔ keeps_type h r.
Proof. unfold after_calls. by destruct r as [| |[]]. Qed.

Lemma keeps_type_headers_done ch h0 h m : ht_type h = ht_type h0 → keeps_type h0 (at_headers_done ch h m).
Proof.
  intros Ht. unfold at_headers_done, complete, NEW_MESSAGE, expect. destruct (ch =? LF); [|done]. cbv zeta.
  destruct (ht_upgrade _); [done|]. repeat (destruct (_ : bool); [cbn; split; [done|]; by repeat case_match|]); done.
Qed.

Lemma keeps_type_field_start skip ch h0 h m : ht_type h = ht_type h0 → keeps_type h0 (at_field_start skip ch h m).
Proof.
  intros Ht. unfold at_field_start. destruct (ch =? CR); [done|]. destruct (ch =? LF).
  - unfold at_headers_almost_done, expect. destruct (ch =? LF); [|done]. destruct (has_flag F_TRAILING _).
    + unfold complete, NEW_MESSAGE. cbn. split; [done|]. by repeat case_match.
    + rewrite keeps_type_calls. apply keeps_type_headers_done. by destruct skip.
  - cbv zeta. by destruct (_ =? _).
Qed.

Lemma match_word_type w c s h : ht_type (match_word w c s h) = ht_type h.
Proof. unfold match_word. by repeat case_match. Qed.

Lemma url_char_type ch h0 h m : ht_type h = ht_type h0 → keeps_type h0 (url_char ch h m).
Proof.
  intros Ht. unfold url_char. case_bool_decide; [done|]. split; [done|]. cbn.
  destruct (parse_url_char_state (ht_state h) ch) as [->|Hu]; [done|]. by destruct (parse_url_char _ _).
Qed.

Lemma keeps_type_name ch h m : ht_state h = s_header_field → keeps_type h (at_header_field ch h m).
Proof.
  intros E. unfold at_header_field. cbv zeta. destruct (negb _); [|by repeat case_match].
  unfold match_name. destruct (ht_header_state h); cbn; rewrite ?match_word_type; try done;
    try (match goal with |- context [match_word ?w ?c ?s ?h] => destruct (match_word_keeps w c s h) as (_ & _ & -> & _) end);
    try (repeat case_match; cbn); by rewrite E.
Qed.

Lemma keeps_type_value ch h m :
  (ht_state h = s_header_value → keeps_type h (at_header_value ch h m)) ∧ (ht_state h = s_header_value_start → keeps_type h (at_value_start ch h m)).
Proof.
  split; intros E.
  - unfold at_header_value. destruct (ch =? CR); [done|]. destruct (ch =? LF).
    { rewrite keeps_type_calls. unfold at_header_almost_done, expect. repeat case_match; done. }
    unfold match_value. destruct (ht_header_state h); cbn; rewrite ?match_word_type; try done;
      try (match goal with |- context [match_word ?w ?c ?s ?h] => destruct (match_word_keeps w c s h) as (_ & _ & -> & _) end);
      try (destruct (ch =? SP)); try (destruct (negb (IS_NUM ch))); try (destruct (_ || _)); try done; cbn; by rewrite E.
  - unfold at_value_start. destruct (_ || _); [cbn; by rewrite E|]. cbv zeta. repeat (case_match; [done|]). unfold start_value.
    cbn. destruct (ht_header_state h); try done; cbn; try (by repeat case_match). by destruct (IS_NUM ch).
Qed.

Lemma keeps_type_url ch h m :
  keeps_type h (at_url_start ch h m) ∧ keeps_type h (at_url_octet ch h m)
  ∧ (ht_state h = s_req_spaces_before_url → keeps_type h (at_spaces_before_url ch h m)).
Proof.
  split_and!.
  - unfold at_url_start. destruct (_ || _ || _); [done|by apply url_char_type].
  - unfold at_url_octet. destruct (ch =? SP); [done|]. destruct (_ || _); [cbn; by destruct (ch =? CR)|by apply url_char_type].
  - intros E. unfold at_spaces_before_url. destruct (ch =? SP); [cbn; by rewrite E|]. apply url_char_type. by case_match.
Qed.

Lemma keeps_type_method ch h m : ht_state h = s_req_method → keeps_type h (at_method ch h m).
Proof.
  intros E. unfold at_method. destruct (ch =? 0); [done|]. destruct (matcher_at _ _) as [| |v]; [done..|]. cbn [cbind].
  destruct (_ && _); [done|]. destruct (ch =? v); [cbn; by rewrite E|]. destruct (other_method _ _ _); [cbn; by rewrite E|done].
Qed.

Lemma keeps_type_body rest h m : ht_state h = s_body_identity → keeps_type h (at_body_identity rest h m).
Proof.
  intros E. unfold at_body_identity, asserts. cbv zeta. destruct (_ && _); [|done]. destruct (_ =? 0); [|cbn; by rewrite E].
  split; [done|]. unfold NEW_MESSAGE. cbn [ht_state set_ht_state]. by repeat case_match.
Qed.

Lemma keeps_type_almost_done skip ch h m :
  keeps_type h (at_headers_almost_done skip ch h m) ∧ keeps_type h (at_header_almost_done ch h m) ∧ keeps_type h (at_value_lws skip ch h m).
Proof.
  split_and!.
  - unfold at_headers_almost_done, expect. destruct (ch =? LF); [|done]. destruct (has_flag F_TRAILING h).
    + unfold complete, NEW_MESSAGE. cbn. split; [done|]. by repeat case_match.
    + rewrite keeps_type_calls. apply keeps_type_headers_done. by destruct skip.
  - unfold at_header_almost_done, expect. destruct (ch =? LF); [|done]. cbn. by destruct (ht_header_state h).
  - unfold at_value_lws. destruct (_ || _); [done|]. by apply keeps_type_field_start.
Qed.

Lemma parse_byte_type skip ch rest h m : fixed_type (ht_state h) = true → keeps_type h (parse_byte skip ch rest h m).
Proof.
  intros Hf. unfold parse_byte. destruct (ht_state h) eqn:E; try done;
    try (by apply keeps_type_url); try (by apply keeps_type_method); try (by apply keeps_type_name); try (by apply keeps_type_value);
    try (by apply keeps_type_body); try (by apply keeps_type_almost_done); try (by apply keeps_type_headers_done); try (by apply keeps_type_field_start).
  all: unfold at_start_res, at_first_digit, at_status_code, at_start_req, at_chunk_size_start, at_chunk_size, at_chunk_parameters,
    at_chunk_size_almost_done, at_chunk_data, at_chunk_data_almost_done, at_chunk_data_done.
  all: unfold at_digit, expect, asserts, complete, NEW_MESSAGE.
  all: repeat case_match; cbn; rewrite ?E; done.
Qed.

#[global] Instance http_parser_laws : HttpParserLaws Http.
Proof.
  refine {| hp_ok := http_ok |}.
  - intros b. right. split; [done|]. split; [done|]. by destruct b.
  - intros data p Hb Hp. destruct (Execute_ok (bool_decide (ht_type p = HTTP_RESPONSE)) data p Hb Hp) as (h' & cs & n & H1 & H2 & _).
    by exists h', cs, n.
Defined.

(** ** URLs

    No octets make the reader of URLs leave the URL. *)

Definition in_url (n : Z) (u : ParsedUrl) : Prop := Forall (λ d : Z * Z, 0 <= d.1 <= n) (pu_field_data u).

Lemma pu_data_in n f u : 0 <= n → in_url n u → 0 <= (pu_data f u).1 <= n.
Proof.
  intros Hn Hu. unfold pu_data. destruct (pu_field_data u !! Z.to_nat f) as [d|] eqn:E; cbn; [|lia]. by apply (Forall_lookup_1 _ _ _ _ Hu E).
Qed.

Lemma set_pu_data_in n f d u : 0 <= d.1 <= n → in_url n u → in_url n (set_pu_data f d u).
Proof. intros Hd Hu. by apply Forall_insert. Qed.

Lemma begin_part_in n f k u : 0 <= k <= n → in_url n u → in_url n (begin_part f k u).
Proof.
  intros Hk Hu. apply (set_pu_data_in n f (to_word k, 1) u); [|done]. unfold to_word. cbn. pose proof (Z.mod_pos_bound k (2 ^ 16)). pose proof (Z.mod_le k (2 ^ 16)). lia.
Qed.

Lemma extend_part_in n f u : 0 <= n → in_url n u → in_url n (extend_part f u).
Proof. intros Hn Hu. apply set_pu_data_in; [|done]. by apply pu_data_in. Qed.

Lemma host_loop_in n data : ∀ k s u,
  in_url n u → 0 <= k → k + Zlen data <= n → match host_loop k data s u with Got r => in_url n r.2 | Refuse => True | Fault => False end.
Proof.
  induction data as [|ch data IH]; intros k s u Hu Hk Hn; [done|]. rewrite Zlen_cons in Hn. pose proof (Zlen_nonneg data). cbn [host_loop]. cbv zeta.
  assert (∀ moved, in_url n (host_octet moved k u)) as Ho.
  { intros moved. apply extend_part_in; [lia|]. destruct moved; [|done]. apply set_pu_data_in; [|done]. cbn. unfold to_word.
    pose proof (Z.mod_pos_bound k (2 ^ 16)). pose proof (Z.mod_le k (2 ^ 16)). lia. }
  assert (∀ f (moved : bool), in_url n (if moved then begin_part f k u else extend_part f u)) as Hp.
  { intros f moved. destruct moved; [apply begin_part_in; [lia|done]|apply extend_part_in; [lia|done]]. }
  destruct (http_parse_host_char s ch); try done; apply IH; try done; lia.
Qed.

Lemma url_part_safe s ch : url_part (parse_url_char s ch) ≠ Fault.
Proof. destruct (parse_url_char_state s ch) as [-> |Hu]; [done|]. by destruct (parse_url_char s ch). Qed.

Lemma url_loop_in n data : ∀ k s old found u,
  in_url n u → 0 <= k → k + Zlen data <= n → match url_loop k data s old found u with Got r => in_url n r.1 | Refuse => True | Fault => False end.
Proof.
  induction data as [|ch data IH]; intros k s old found u Hu Hk Hn; [done|]. rewrite Zlen_cons in Hn. pose proof (Zlen_nonneg data). cbn [url_loop]. cbv zeta.
  pose proof (url_part_safe s ch) as Hs. destruct (url_part (parse_url_char s ch)) as [| |[uf|]]; [done|done|..]; cbn [cbind]; apply IH; try lia; [|done].
  case_match; [apply extend_part_in; [lia|done]|apply begin_part_in; [lia|done]].
Qed.

Lemma parse_url_in buf is_connect u :
  in_url (Zlen buf) u → match http_parser_parse_url buf is_connect u with Got u' => in_url (Zlen buf) u' | Refuse => True | Fault => False end.
Proof.
  intros Hu. unfold http_parser_parse_url. pose proof (Zlen_nonneg buf) as Hn.
  pose proof (url_loop_in (Zlen buf) buf 0 (if is_connect then s_req_server_start else s_req_spaces_before_url) UF_MAX false (mkParsedUrl 0 0 (pu_field_data u)) Hu) as H1.
  destruct (url_loop _ _ _ _ _ _) as [| |[u1 found]]; [by apply H1|done|]. cbn [cbind]. specialize (H1 ltac:(lia) ltac:(lia)). cbn in H1.
  set (h := if _ || _ then _ else _). assert (match h with Got u' => in_url (Zlen buf) u' | Refuse => True | Fault => False end) as H2.
  { unfold h. destruct (_ || _); [|done]. unfold http_parse_host. destruct (pu_data UF_HOST u1) as [off len] eqn:Eo.
    pose proof (pu_data_in _ UF_HOST u1 Hn H1) as Ho. rewrite Eo in Ho. cbn in Ho.
    assert (off + Zlen (ztake len (zdrop off buf)) <= Zlen buf) as Hz.
    { unfold Zlen, ztake, zdrop in *. rewrite length_take, length_drop. lia. }
    pose proof (host_loop_in (Zlen buf) (ztake len (zdrop off buf)) off (if found then s_http_userinfo_start else s_http_host_start) (set_pu_data UF_HOST (off, 0) u1)) as H3.
    destruct (host_loop _ _ _ _) as [| |[s u2]]; [apply H3; [by apply set_pu_data_in|lia|lia]|done|]. cbn [cbind fst snd].
    specialize (H3 (set_pu_data_in _ UF_HOST (off, 0) _ Ho H1) ltac:(lia) ltac:(lia)). by destruct s. }
  destruct h as [| |u2]; [done|done|]. cbn [cbind]. destruct (_ && _); [done|]. destruct (has_part _ _); [|done]. by destruct (_ <? _).
Qed.
