(* ===== verification/WebSocketFrame.v ===== *)
(** * WebSocket frames

    [WebSocketFrameHeader], its [Parser] and [WebSocketConnection::Frame]
    (include/websocketconnection.h).  A header is the array [data] of 14 octets; a copy or a write
    outside of it, or outside of the block of a frame, is a [Fault].  What [RAND_bytes] puts in a
    masking key is an argument. *)

From S2P Require Import Prelude Wire Octets.

Inductive OpCode :=
  | ContinuationFrame | TextFrame | BinaryFrame | Reserved3 | Reserved4 | Reserved5 | Reserved6 | Reserved7
  | CloseFrame | Ping | Pong | ReservedB | ReservedC | ReservedD | ReservedE | ReservedF.

#[global] Instance OpCode_eq_dec : EqDecision OpCode.
Proof. solve_decision. Defined.

Definition op_value (o : OpCode) : Z :=
  match o with
  | ContinuationFrame => 0 | TextFrame => 1 | BinaryFrame => 2 | Reserved3 => 3
  | Reserved4 => 4 | Reserved5 => 5 | Reserved6 => 6 | Reserved7 => 7
  | CloseFrame => 8 | Ping => 9 | Pong => 10 | ReservedB => 11
  | ReservedC => 12 | ReservedD => 13 | ReservedE => 14 | ReservedF => 15
  end.

(** [(OpCode) v] for [v] of four bits. *)
Definition op_of (v : Z) : OpCode :=
  match v with
  | 0 => ContinuationFrame | 1 => TextFrame | 2 => BinaryFrame | 3 => Reserved3
  | 4 => Reserved4 | 5 => Reserved5 | 6 => Reserved6 | 7 => Reserved7
  | 8 => CloseFrame | 9 => Ping | 10 => Pong | 11 => ReservedB
  | 12 => ReservedC | 13 => ReservedD | 14 => ReservedE | _ => ReservedF
  end.

Section Frames.
Context {W : WireOps} {V : MoreWireOps}.

(** ** Headers *)

Definition ws_IsFin (data : bytes) : bool := negb (Z.land (zget 0 data) 128 =? 0).
Definition ws_GetOpCode (data : bytes) : OpCode := op_of (Z.land (zget 0 data) 15).
Definition ws_IsMasked (data : bytes) : bool := negb (Z.land (zget 1 data) 128 =? 0).

Definition ws_GetPayloadLenghtSize (data : bytes) : Z :=
  let len := Z.land (zget 1 data) 127 in
  if len =? 126 then 3 else if len =? 127 then 9 else 1.

Definition ws_GetMask (data : bytes) : Z :=
  if ws_IsMasked data then get4 data (1 + ws_GetPayloadLenghtSize data) else 0.

Definition ws_GetSize (data : bytes) : Z :=
  1 + ws_GetPayloadLenghtSize data + (if ws_IsMasked data then 4 else 0).

Definition ws_GetPayloadLength (data : bytes) : Z :=
  let len := Z.land (zget 1 data) 127 in
  if len =? 126 then get2 data 2 else if len =? 127 then get8 data 2 else len.

Definition set_octet (i v : Z) (data : bytes) : bytes := <[Z.to_nat i := to_byte v]> data.

Definition ws_SetFin (fin : bool) (data : bytes) : bytes :=
  set_octet 0 (Z.lor (Z.land (zget 0 data) 127) (Z.shiftl (Z.b2z fin) 7)) data.

Definition ws_SetOpCode (o : OpCode) (data : bytes) : bytes :=
  set_octet 0 (Z.lor (Z.land (zget 0 data) 128) (op_value o)) data.

Definition ws_SetMask (mask : Z) (data : bytes) : bytes :=
  let data := set_octet 1 (Z.lor (zget 1 data) 128) data in
  set4 data (1 + ws_GetPayloadLenghtSize data) mask.

Definition ws_SetPayloadLength (len : Z) (data : bytes) : bytes :=
  if len <? 126 then set_octet 1 (Z.lor (zget 1 data) len) data
  else if len <? 65535 then set2 (set_octet 1 (Z.lor (zget 1 data) 126) data) 2 len
  else set8 (set_octet 1 (Z.lor (zget 1 data) 127) data) 2 len.

Definition zero_header : bytes := replicate 14 0.

Definition new_header (fin : bool) (o : OpCode) (len mask : Z) : bytes :=
  let data := ws_SetPayloadLength len (ws_SetOpCode o (ws_SetFin fin zero_header)) in
  if mask =? 0 then data else ws_SetMask mask data.

(** ** Parser *)

Record HeaderParser := mkHeaderParser { hp_header : option bytes; hp_len : Z }.

Definition new_header_parser : HeaderParser := mkHeaderParser None 0.

Definition hp_IsParsed (p : HeaderParser) : bool :=
  match hp_header p with Some data => ws_GetSize data =? hp_len p | None => false end.

(** [memcpy(header->data+len,data,c)], [c] as limited by [size]. *)
Definition copy_octets (data : bytes) (len : Z) (input : bytes) (c : Z) : checked bytes :=
  if (0 <=? len) && (len + c <=? 14) then Got (write_at len (ztake c input) data) else Fault.

(** The parser after the call and the octets it took. *)
Definition hp_Parse (input : bytes) (p : HeaderParser) : checked (HeaderParser * Z) :=
  if match hp_header p with None => hp_IsParsed p | Some _ => false end then Got (p, 0) else
  let '(data, len) := match hp_header p with None => (zero_header, 0) | Some data => (data, hp_len p) end in
  let size := Zlen input in
  let c1 := if len <? 2 then (let c := to_byte (2 - len) in if size <? c then size else c) else 0 in
  let? data1 := (if len <? 2 then copy_octets data len input c1 else Got data) in
  let len1 := len + c1 in
  let size1 := size - c1 in
  if size1 =? 0 then Got (mkHeaderParser (Some data1) len1, c1) else
  let c2 := (let c := to_byte (ws_GetSize data1 - len1) in if size1 <? c then size1 else c) in
  let? data2 := copy_octets data1 len1 (zdrop c1 input) c2 in
  Got (mkHeaderParser (Some data2) (len1 + c2), c1 + c2).

Definition hp_ConsumeHeader (p : HeaderParser) : option bytes * HeaderParser :=
  (hp_header p, mkHeaderParser None (hp_len p)).

(** ** Frames *)

Record WsFrame := mkWsFrame {
  wf_data : bytes;
  wf_size : Z;
  wf_length : Z;
  wf_headerSize : Z;
  wf_masked : bool;
  wf_mask : bytes;
}.

(** [data[i] ^ mask[(pos+i) & 0x03]] for each [i]. *)
Definition xor_mask (mask : bytes) (pos : Z) (data : bytes) : bytes :=
  imap (λ i o, Z.lxor o (zget (Z.land (pos + Z.of_nat i) 3) mask)) data.

Definition wf_Append (data : bytes) (f : WsFrame) : checked (WsFrame * bool) :=
  let size := Zlen data in
  if wf_size f <? to_dword (size + wf_length f) then Got (f, false) else
  let octets := if wf_masked f then xor_mask (wf_mask f) (wf_length f - wf_headerSize f) data else data in
  if wf_length f + size <=? Zlen (wf_data f) then
    Got (mkWsFrame (write_at (wf_length f) octets (wf_data f)) (wf_size f) (to_dword (wf_length f + size))
           (wf_headerSize f) (wf_masked f) (wf_mask f), true)
  else Fault.

(** [key] is what [RAND_bytes] leaves in the four octets of [mask]. *)
Definition frame_mask (masked : bool) (key : bytes) : bytes :=
  if masked then (if get4 key 0 =? 0 then set_octet 0 1 key else key) else [0; 0; 0; 0].

Definition new_Frame (fin : bool) (o : OpCode) (data : option bytes) (size : Z) (masked : bool) (key : bytes) : checked WsFrame :=
  let mask := frame_mask masked key in
  let header := new_header fin o size (if masked then get4 mask 0 else 0) in
  let headerSize := ws_GetSize header in
  let total := to_dword (size + headerSize) in
  if total <? headerSize then Fault else
  let f := mkWsFrame (write_at 0 (ztake headerSize header) (replicate (Z.to_nat total) 0)) total headerSize headerSize masked mask in
  match data with
  | None => Got f
  | Some data => let? r := wf_Append data f in Got r.1
  end.

(** What [Send] is given: [GetData] and [GetSize]. *)
Definition wf_octets (f : WsFrame) : bytes := ztake (wf_size f) (wf_data f).

End Frames.

(** ** Lengths *)

Lemma ws_GetPayloadLenghtSize_cases d :
  ws_GetPayloadLenghtSize d = 1 ∨ ws_GetPayloadLenghtSize d = 3 ∨ ws_GetPayloadLenghtSize d = 9.
Proof. unfold ws_GetPayloadLenghtSize. repeat case_match; auto. Qed.

Lemma ws_GetSize_range d : 2 <= ws_GetSize d <= 14.
Proof.
  unfold ws_GetSize. destruct (ws_GetPayloadLenghtSize_cases d) as [-> |[-> | ->]]; case_match; lia.
Qed.

Lemma ws_GetSize_agree a b : zget 1 a = zget 1 b → ws_GetSize a = ws_GetSize b.
Proof. intros H. unfold ws_GetSize, ws_GetPayloadLenghtSize, ws_IsMasked. by rewrite H. Qed.

(** ** The parser of headers

    [pad14 w] is the array of a header of which [w] has arrived. *)

Definition pad14 (w : bytes) : bytes := w ++ replicate (14 - length w) 0.

(** The octets a header that begins with [w] has, as far as [w] tells. *)
Definition header_need (w : bytes) : Z := if Zlen w <? 2 then 2 else ws_GetSize w.

Definition header_complete (w : bytes) : bool := (2 <=? Zlen w) && (Zlen w =? ws_GetSize w).

Definition holds (w : bytes) (p : HeaderParser) : Prop :=
  (w = [] ∧ hp_header p = None) ∨ (hp_header p = Some (pad14 w) ∧ hp_len p = Zlen w ∧ Zlen w <= 14).

Lemma zget_pad i w : zget i (pad14 w) = zget i w.
Proof.
  unfold zget, pad14. destruct (decide (Z.to_nat i < length w)%nat) as [H|H].
  - by rewrite lookup_app_l.
  - rewrite lookup_app_r by lia. rewrite (lookup_ge_None_2 w) by lia.
    destruct (replicate _ 0 !! _) eqn:E; [|done]. by apply lookup_replicate in E as [-> _].
Qed.

Lemma ws_GetSize_pad w : ws_GetSize (pad14 w) = ws_GetSize w.
Proof. apply ws_GetSize_agree, zget_pad. Qed.

Lemma Zlen_pad14 w : Zlen w <= 14 → Zlen (pad14 w) = 14.
Proof. intros. unfold pad14. rewrite Zlen_app, Zlen_replicate. unfold Zlen in *. lia. Qed.

Lemma pad14_write w x :
  Zlen w + Zlen x <= 14 → write_at (Zlen w) x (pad14 w) = pad14 (w ++ x).
Proof.
  intros H. unfold write_at, pad14, ztake, zdrop. rewrite <- app_assoc. f_equal.
  - by rewrite Zlen_to_nat, take_app_length.
  - f_equal. rewrite drop_app_ge by (unfold Zlen; lia). rewrite drop_replicate. f_equal. rewrite length_app. unfold Zlen. lia.
Qed.

Lemma header_need_range w : 2 <= header_need w <= 14.
Proof. unfold header_need. pose proof (ws_GetSize_range w). case_match; lia. Qed.

Lemma header_complete_spec w : Zlen w <= header_need w → header_complete w = true ↔ Zlen w = header_need w.
Proof.
  unfold header_complete, header_need. pose proof (ws_GetSize_range w). intros.
  rewrite andb_true_iff, Z.leb_le, Z.eqb_eq. destruct (Z.ltb_spec (Zlen w) 2); lia.
Qed.

Lemma holds_parsed w p : holds w p → hp_IsParsed p = header_complete w.
Proof.
  unfold hp_IsParsed, header_complete. intros [[-> ->]|(-> & -> & Hl)]; [done|].
  rewrite ws_GetSize_pad, Z.eqb_sym. destruct (Z.leb_spec 2 (Zlen w)); [done|]. cbn [andb].
  pose proof (ws_GetSize_range w). apply Z.eqb_neq. lia.
Qed.

(** The need of a header does not change with what follows it. *)
Lemma header_need_app v x : 2 <= Zlen v → header_need (v ++ x) = header_need v.
Proof.
  intros H. unfold header_need. pose proof (Zlen_nonneg x). rewrite Zlen_app.
  rewrite !(proj2 (Z.ltb_ge _ _)) by lia. apply ws_GetSize_agree, zget_app_l. lia.
Qed.

Lemma ztake_app_ge {A} n (a b : list A) : Zlen a <= n → ztake n (a ++ b) = a ++ ztake (n - Zlen a) b.
Proof. intros. unfold ztake. rewrite take_app. f_equal; [apply take_ge|f_equal]; unfold Zlen in *; lia. Qed.

Lemma Zlen_ztake_min {A} n (l : list A) : 0 <= n → Zlen (ztake n l) = Z.min n (Zlen l).
Proof. intros. unfold Zlen, ztake. rewrite length_take. lia. Qed.

Lemma parse_copy data w input c :
  data = pad14 w → 0 <= c <= Zlen input → Zlen w + c <= 14 →
  copy_octets data (Zlen w) input c = Got (pad14 (w ++ ztake c input)).
Proof.
  intros -> Hc Hl. unfold copy_octets. pose proof (Zlen_nonneg w).
  rewrite (proj2 (Z.leb_le 0 (Zlen w))), (proj2 (Z.leb_le _ 14)) by done. cbn [andb].
  rewrite pad14_write; [done|]. rewrite Zlen_ztake; lia.
Qed.

Lemma min_if a c : (if a <? c then a else c) = Z.min a c.
Proof. destruct (Z.ltb_spec a c); lia. Qed.

Lemma take_to_need n (a b : bytes) :
  Zlen a <= n → a ++ ztake (Z.min (Zlen b) (n - Zlen a)) b = ztake n (a ++ b).
Proof.
  intros H. rewrite ztake_app_ge by done. f_equal.
  destruct (Z.min_spec (Zlen b) (n - Zlen a)) as [[? ->]|[? ->]]; [|done]. by rewrite !ztake_all by lia.
Qed.

Lemma holds_padded w : Zlen w <= 14 → holds w (mkHeaderParser (Some (pad14 w)) (Zlen w)).
Proof. intros. by right. Qed.

(** The second copy of [Parse], once the two first octets are there. *)
Lemma parse_second w rest c :
  2 <= Zlen w <= ws_GetSize w →
  let c2 := (let c := to_byte (ws_GetSize (pad14 w) - Zlen w) in if Zlen rest <? c then Zlen rest else c) in
  let u := ztake (ws_GetSize w) (w ++ rest) in
  (let? data2 := copy_octets (pad14 w) (Zlen w) rest c2 in Got (mkHeaderParser (Some data2) (Zlen w + c2), c + c2))
  = Got (mkHeaderParser (Some (pad14 u)) (Zlen u), c + (Zlen u - Zlen w)).
Proof.
  intros Hw c2 u. pose proof (ws_GetSize_range w). pose proof (Zlen_nonneg rest).
  assert (c2 = Z.min (Zlen rest) (ws_GetSize w - Zlen w)) as ->.
  { unfold c2, to_byte. rewrite ws_GetSize_pad, Z.mod_small by lia. apply min_if. }
  rewrite parse_copy by (done || lia). cbn [cbind]. rewrite take_to_need by lia. fold u.
  assert (Zlen u = Zlen w + Z.min (Zlen rest) (ws_GetSize w - Zlen w)) as ->.
  { unfold u, ztake, Zlen in *. rewrite length_take, length_app. lia. }
  do 3 f_equal; lia.
Qed.

(** [Parse] takes what is missing of the header, or all there is. *)
Lemma hp_Parse_spec w input p :
  holds w p → Zlen w < header_need w →
  ∃ p', hp_Parse input p = Got (p', Zlen (ztake (header_need (w ++ input)) (w ++ input)) - Zlen w)
    ∧ holds (ztake (header_need (w ++ input)) (w ++ input)) p'.
Proof.
  intros Hp Hw. set (v := w ++ input). pose proof (Zlen_nonneg w). pose proof (Zlen_nonneg input).
  assert (Zlen v = Zlen w + Zlen input) as Hv by apply Zlen_app.
  assert (∀ n, 0 <= n → Zlen (ztake n v) <= n) as Ht by (intros; unfold ztake, Zlen; rewrite length_take; lia).
  assert (∃ p0, hp_Parse input p = hp_Parse input p0 ∧ hp_header p0 = Some (pad14 w) ∧ hp_len p0 = Zlen w) as (p0 & -> & H1 & H2).
  { destruct Hp as [[-> Hn]|(Hs & Hl & _)]; [|by exists p].
    exists (mkHeaderParser (Some zero_header) 0). unfold hp_Parse, hp_IsParsed. by rewrite Hn. }
  clear p Hp. unfold hp_Parse. rewrite H1, H2.
  pose proof (header_need_range v) as Hnv. specialize (Ht (header_need v) ltac:(lia)).
  destruct (Z.ltb_spec (Zlen w) 2) as [Hs|Hs].
  - replace (to_byte (2 - Zlen w)) with (2 - Zlen w) by (unfold to_byte; rewrite Z.mod_small; lia).
    rewrite min_if. set (c := Z.min (Zlen input) (2 - Zlen w)).
    rewrite (parse_copy _ w input c) by (done || lia). cbn [cbind].
    assert (Zlen (w ++ ztake c input) = Zlen w + c) as Hc by (rewrite Zlen_app, Zlen_ztake; lia).
    destruct (Z.eqb_spec (Zlen input - c) 0) as [He|He].
    + replace (w ++ ztake c input) with v in * by (by rewrite ztake_all by lia).
      rewrite ztake_all by lia. eexists. split; [do 2 f_equal; lia|]. rewrite <- Hc. apply holds_padded. lia.
    + assert (header_need v = ws_GetSize (w ++ ztake c input)) as Hn.
      { unfold header_need. rewrite (proj2 (Z.ltb_ge _ _)) by lia. unfold v.
        rewrite <- (ztake_zdrop c input) at 1. rewrite app_assoc. apply ws_GetSize_agree, zget_app_l. lia. }
      replace (Zlen input - c) with (Zlen (zdrop c input)) by (rewrite Zlen_zdrop; lia).
      rewrite <- Hc, parse_second by lia. rewrite <- Hn, <- app_assoc, ztake_zdrop. fold v.
      eexists. split; [do 2 f_equal; lia|]. apply holds_padded. lia.
  - assert (header_need v = ws_GetSize w) as Hn.
    { unfold v. rewrite header_need_app by lia. unfold header_need. by rewrite (proj2 (Z.ltb_ge _ _)) by lia. }
    assert (Zlen w < ws_GetSize w) by (unfold header_need in Hw; rewrite (proj2 (Z.ltb_ge _ _)) in Hw; lia).
    cbn [cbind]. rewrite Z.add_0_r, Z.sub_0_r. change (zdrop 0 input) with input.
    destruct (Z.eqb_spec (Zlen input) 0) as [He|He].
    + rewrite ztake_all by lia. unfold v. assert (input = []) as -> by (by apply length_zero_iff_nil, Nat2Z.inj).
      rewrite app_nil_r, Z.sub_diag. eexists. split; [done|]. apply holds_padded. lia.
    + rewrite parse_second by lia. rewrite <- Hn. fold v. eexists. split; [done|]. apply holds_padded. lia.
Qed.

(** ** Masks *)

Lemma xor_mask_length m p d : Zlen (xor_mask m p d) = Zlen d.
Proof. unfold xor_mask, Zlen. by rewrite length_imap. Qed.

Lemma xor_mask_app m p a b : xor_mask m p (a ++ b) = xor_mask m p a ++ xor_mask m (p + Zlen a) b.
Proof.
  unfold xor_mask. rewrite imap_app. f_equal. apply imap_ext. intros i x _. do 3 f_equal. unfold Zlen. lia.
Qed.

Lemma xor_mask_twice m p d : xor_mask m p (xor_mask m p d) = d.
Proof.
  unfold xor_mask. apply list_eq. intros i. rewrite !list_lookup_imap. destruct (d !! i); [|done]. cbn. f_equal.
  by rewrite Z.lxor_assoc, Z.lxor_nilpotent, Z.lxor_0_r.
Qed.

(** ** Headers are read as written *)

Lemma op_of_value o : op_of (op_value o) = o.
Proof. by destruct o. Qed.

Lemma land_127 a : Z.land a 127 = a mod 128.
Proof. by apply (Z.land_ones a 7). Qed.

Lemma high_bit a : is_byte a → (Z.land a 128 =? 0) = (a <? 128).
Proof.
  intros Ha. unfold is_byte in Ha. assert (0 <= Z.to_nat a < 256)%nat as Hn by lia.
  rewrite <- (Z2Nat.id a) by lia. generalize dependent (Z.to_nat a). clear. intros n Hn.
  assert (Forall (λ n, (Z.land (Z.of_nat n) 128 =? 0) = (Z.of_nat n <? 128)) (seq 0 256)) as H.
  { refine (bool_decide_unpack _ _). vm_compute. exact I. }
  rewrite Forall_forall in H. apply H, elem_of_seq. lia.
Qed.

Lemma zget_set_octet_eq i v d : 0 <= i < Zlen d → zget i (set_octet i v d) = to_byte v.
Proof. intros. unfold zget, set_octet. rewrite list_lookup_insert_eq; [done|]. unfold Zlen in *. lia. Qed.

Lemma zget_set_octet_ne i j v d : 0 <= i → 0 <= j → i ≠ j → zget j (set_octet i v d) = zget j d.
Proof. intros. unfold zget, set_octet. rewrite list_lookup_insert_ne; [done|lia]. Qed.

Lemma Zlen_set_octet i v d : Zlen (set_octet i v d) = Zlen d.
Proof. apply Zlen_insert. Qed.

Lemma zget_be_put n b i v j :
  0 <= i → 0 <= j → j < i ∨ i + Z.of_nat n <= j → zget j (be_put n b i v) = zget j b.
Proof. intros. unfold zget. by rewrite be_put_other. Qed.

(** Two arrays of 14 octets that agree are equal. *)
Lemma arrays_agree (a b : bytes) : Zlen a = Zlen b → (∀ i, 0 <= i < Zlen a → zget i a = zget i b) → a = b.
Proof.
  intros Hl Hi. apply list_eq_same_length with (length a); [unfold Zlen in Hl; lia|done|].
  intros i x y Hlt Hx Hy. specialize (Hi (Z.of_nat i)). unfold zget, Zlen in Hi. rewrite Nat2Z.id, Hx, Hy in Hi. apply Hi. lia.
Qed.

(** An array is its [n] first octets when the others are zero. *)
Lemma pad14_take n d : Zlen d = 14 → 0 <= n <= 14 → (∀ i, n <= i < 14 → zget i d = 0) → pad14 (ztake n d) = d.
Proof.
  intros Hl Hn Hz. assert (Zlen (ztake n d) = n) as Ht by (apply Zlen_ztake; lia).
  apply arrays_agree; [rewrite Zlen_pad14; lia|]. intros i Hi. rewrite Zlen_pad14 in Hi by lia. rewrite zget_pad.
  destruct (decide (i < n)); [apply zget_ztake; lia|]. rewrite Hz by lia. unfold zget.
  rewrite lookup_ge_None_2; [done|]. unfold Zlen in *. lia.
Qed.

Section Written.
Context {W : WireOps} {V : MoreWireOps} {HN : NetworkOrder W V}.

(** What a header says. *)
Record header_says (d : bytes) (fin : bool) (o : OpCode) (len mask : Z) : Prop := {
  hs_length : Zlen d = 14;
  hs_byte : is_byte (zget 1 d);
  hs_fin : ws_IsFin d = fin;
  hs_op : ws_GetOpCode d = o;
  hs_masked : ws_IsMasked d = negb (mask =? 0);
  hs_payload : ws_GetPayloadLength d = len;
  hs_mask : ws_GetMask d = mask;
  hs_rest : ∀ i, ws_GetSize d <= i < 14 → zget i d = 0;
}.

Lemma zero_header_op fin o :
  let d := ws_SetOpCode o (ws_SetFin fin zero_header) in
  Zlen d = 14 ∧ ws_IsFin d = fin ∧ ws_GetOpCode d = o ∧ ∀ i, 1 <= i < 14 → zget i d = 0.
Proof.
  cbv zeta. assert (∀ d i, 1 <= i → zget i (ws_SetOpCode o (ws_SetFin fin d)) = zget i d) as Hz.
  { intros. unfold ws_SetOpCode, ws_SetFin. by rewrite !zget_set_octet_ne by lia. }
  split_and!; [by destruct o, fin..|]. intros i Hi. rewrite Hz by lia. unfold zget, zero_header.
  destruct (replicate 14 0 !! _) eqn:E; [|done]. by apply lookup_replicate in E as [-> _].
Qed.

(** The fields of the first octet only depend on it, and so on. *)
Lemma ws_first_octet a b : zget 0 a = zget 0 b → ws_IsFin a = ws_IsFin b ∧ ws_GetOpCode a = ws_GetOpCode b.
Proof. intros H. unfold ws_IsFin, ws_GetOpCode. by rewrite H. Qed.

Lemma header_without_mask fin o len :
  0 <= len < 2 ^ 64 → header_says (ws_SetPayloadLength len (ws_SetOpCode o (ws_SetFin fin zero_header))) fin o len 0.
Proof.
  intros Hlen. destruct (zero_header_op fin o) as (Hl & Hf & Ho & Hz).
  set (d := ws_SetOpCode o (ws_SetFin fin zero_header)) in *.
  assert (∃ x e, ws_SetPayloadLength len d = e ∧ Zlen e = 14 ∧ zget 0 e = zget 0 d ∧ zget 1 e = x ∧ 0 <= x < 128 ∧
    (if x =? 126 then get2 e 2 else if x =? 127 then get8 e 2 else x) = len ∧
    ∀ i, 1 + (if x =? 126 then 3 else if x =? 127 then 9 else 1) <= i < 14 → zget i e = 0) as (x & e & -> & He & H0 & H1 & Hx & Hp & Hr).
  { unfold ws_SetPayloadLength. rewrite Hz by lia. rewrite !Z.lor_0_l. destruct (Z.ltb_spec len 126).
    - exists len. eexists. split; [done|]. rewrite Zlen_set_octet, zget_set_octet_ne, zget_set_octet_eq by lia.
      unfold to_byte. rewrite Z.mod_small by lia. rewrite !(proj2 (Z.eqb_neq _ _)) by lia.
      split_and!; [done..|lia|lia|done|]. intros i Hi. rewrite zget_set_octet_ne by lia. apply Hz. lia.
    - destruct (Z.ltb_spec len 65535); rewrite ?set2_be, ?set8_be.
      + exists 126. eexists. split; [done|]. rewrite be_put_length, Zlen_set_octet, !zget_be_put, zget_set_octet_ne, zget_set_octet_eq by lia.
        split_and!; [done..| |]. { rewrite get2_be, be_get_put by (rewrite ?Zlen_set_octet; lia). apply Z.mod_small. simpl Z.of_nat. lia. }
        intros i Hi. cbn in Hi. rewrite zget_be_put, zget_set_octet_ne by lia. apply Hz. lia.
      + exists 127. eexists. split; [done|]. rewrite be_put_length, Zlen_set_octet, !zget_be_put, zget_set_octet_ne, zget_set_octet_eq by lia.
        split_and!; [done..| |]. { rewrite get8_be, be_get_put by (rewrite ?Zlen_set_octet; lia). apply Z.mod_small. simpl Z.of_nat. lia. }
        intros i Hi. cbn in Hi. rewrite zget_be_put, zget_set_octet_ne by lia. apply Hz. lia. }
  destruct (ws_first_octet _ _ H0) as [Hf' Ho'].
  assert (ws_IsMasked e = false) as Hm.
  { unfold ws_IsMasked. rewrite H1, high_bit by (unfold is_byte; lia). by rewrite (proj2 (Z.ltb_lt _ _)) by lia. }
  assert (Z.land (zget 1 e) 127 = x) as Hl7 by (rewrite H1, land_127; apply Z.mod_small; lia).
  split; [done|rewrite H1; unfold is_byte; lia|congruence|congruence|done| | |].
  - unfold ws_GetPayloadLength. by rewrite Hl7.
  - unfold ws_GetMask. by rewrite Hm.
  - intros i Hi. apply Hr. revert Hi. unfold ws_GetSize, ws_GetPayloadLenghtSize. rewrite Hm, Hl7. lia.
Qed.

Lemma SetMask_says d fin o len mask :
  header_says d fin o len 0 → 0 < mask < 2 ^ 32 → header_says (ws_SetMask mask d) fin o len mask.
Proof.
  intros [Hl Hb Hf Ho Hm Hp _ Hr] Hmask. unfold ws_SetMask. set (x := zget 1 d) in *.
  assert (0 <= x < 128) as Hx.
  { unfold ws_IsMasked in Hm. fold x in Hm. rewrite high_bit in Hm by done. unfold is_byte in Hb.
    destruct (Z.ltb_spec x 128); [lia|done]. }
  assert (Z.lor x 128 = x + 128) as ->.
  { rewrite Z.lor_comm. change 128 with (Z.shiftl 1 7) at 1. rewrite lor_shiftl; lia. }
  set (e := set_octet 1 (x + 128) d). set (n := ws_GetPayloadLenghtSize d).
  assert (zget 1 e = x + 128) as He.
  { unfold e. rewrite zget_set_octet_eq by lia. unfold to_byte. rewrite Z.mod_small; lia. }
  assert (Z.land (x + 128) 127 = Z.land x 127) as H7.
  { rewrite !land_127. replace (x + 128) with (x + 1 * 128) by lia. apply Z.mod_add. lia. }
  assert (ws_GetPayloadLenghtSize e = n) as -> by (unfold n, ws_GetPayloadLenghtSize; rewrite He, H7; done).
  pose proof (ws_GetPayloadLenghtSize_cases d) as Hn. fold n in Hn. rewrite set4_be. set (f := be_put 4 e (1 + n) mask).
  assert (∀ i, 0 <= i < 1 + n ∨ 5 + n <= i → f !! Z.to_nat i = e !! Z.to_nat i) as Hfe.
  { intros i Hi. apply be_put_other; lia. }
  assert (∀ i, 0 <= i < 1 + n ∨ 5 + n <= i → i ≠ 1 → f !! Z.to_nat i = d !! Z.to_nat i) as Hfd.
  { intros i Hi H1. rewrite Hfe by done. apply list_lookup_insert_ne. lia. }
  assert (zget 1 f = x + 128) as H1 by (unfold zget in *; rewrite Hfe by lia; done).
  assert (ws_IsMasked f = true) as Hmf.
  { unfold ws_IsMasked. rewrite H1, high_bit by (unfold is_byte; lia). by rewrite (proj2 (Z.ltb_ge _ _)) by lia. }
  assert (ws_GetPayloadLenghtSize f = n) as Hnf by (unfold n, ws_GetPayloadLenghtSize; rewrite H1, H7; done).
  destruct (ws_first_octet f d) as [Hf' Ho']. { unfold zget. by rewrite Hfd by lia. }
  assert (Zlen e = 14) as Hle by (unfold e; by rewrite Zlen_set_octet).
  split; [unfold f; by rewrite be_put_length|rewrite H1; unfold is_byte; lia|congruence|congruence| | | |].
  - rewrite Hmf. by rewrite (proj2 (Z.eqb_neq mask 0)) by lia.
  - rewrite <- Hp. assert (n = if Z.land x 127 =? 126 then 3 else if Z.land x 127 =? 127 then 9 else 1) as Hn' by done.
    revert Hn'. unfold ws_GetPayloadLength. fold x. rewrite H1, H7.
    destruct (Z.land x 127 =? 126); [|destruct (Z.land x 127 =? 127); [|done]]; intros Hn'; rewrite ?get2_be, ?get8_be;
      apply be_get_agree; try lia; intros k Hk; apply Hfd; lia.
  - unfold ws_GetMask. rewrite Hmf, Hnf, get4_be. unfold f. rewrite be_get_put by lia. apply Z.mod_small. simpl Z.of_nat. lia.
  - intros i Hi. unfold ws_GetSize in Hi. rewrite Hmf, Hnf in Hi. unfold zget. rewrite Hfd by lia. apply Hr.
    unfold ws_GetSize. rewrite Hm. cbn. fold n. lia.
Qed.

Lemma new_header_says fin o len mask :
  0 <= len < 2 ^ 64 → is_dword mask → header_says (new_header fin o len mask) fin o len mask.
Proof.
  intros Hl Hm. unfold is_dword in Hm. unfold new_header.
  destruct (Z.eqb_spec mask 0) as [-> |]; [by apply header_without_mask|].
  apply SetMask_says; [by apply header_without_mask|lia].
Qed.

(** ** Frames *)

Definition header_octets (d : bytes) : bytes := ztake (ws_GetSize d) d.

Lemma header_octets_length d : Zlen d = 14 → Zlen (header_octets d) = ws_GetSize d.
Proof. intros. pose proof (ws_GetSize_range d). apply Zlen_ztake. lia. Qed.

Lemma pad14_header_octets d fin o len mask : header_says d fin o len mask → pad14 (header_octets d) = d.
Proof. intros H. apply pad14_take; [apply H|pose proof (ws_GetSize_range d); lia|apply H]. Qed.

(** The octets on the wire of [data] at the beginning of the payload. *)
Definition payload_octets (masked : bool) (mask : bytes) (data : bytes) : bytes :=
  if masked then xor_mask mask 0 data else data.

Lemma payload_octets_length b m d : Zlen (payload_octets b m d) = Zlen d.
Proof. destruct b; [apply xor_mask_length|done]. Qed.

Lemma payload_octets_app b m x y :
  payload_octets b m (x ++ y) = payload_octets b m x ++ (if b then xor_mask m (Zlen x) y else y).
Proof. destruct b; [apply xor_mask_app|done]. Qed.

(** Frame [f] has header [h]; [data] of its [size] octets are there. *)
Record frame_holds (f : WsFrame) (h : bytes) (mask : bytes) (size : Z) (data : bytes) : Prop := {
  fh_room : Zlen data <= size;
  fh_small : size < 2 ^ 31;
  fh_data : wf_data f = header_octets h ++ payload_octets (wf_masked f) mask data ++ replicate (Z.to_nat (size - Zlen data)) 0;
  fh_size : wf_size f = ws_GetSize h + size;
  fh_length : wf_length f = ws_GetSize h + Zlen data;
  fh_headerSize : wf_headerSize f = ws_GetSize h;
  fh_header : Zlen h = 14;
  fh_mask : wf_mask f = mask;
}.

Lemma Append_holds f h m size data x :
  frame_holds f h m size data → Zlen data + Zlen x <= size →
  ∃ f', wf_Append x f = Got (f', true) ∧ frame_holds f' h m size (data ++ x) ∧ wf_masked f' = wf_masked f.
Proof.
  intros [Hr Hs Hd Hz Hl Hh Hh14 Hm] Hx. pose proof (ws_GetSize_range h). pose proof (Zlen_nonneg data).
  pose proof (Zlen_nonneg x). pose proof (header_octets_length h Hh14) as Hho. unfold wf_Append.
  assert (to_dword (Zlen x + wf_length f) = wf_length f + Zlen x) as Hw by (unfold to_dword; rewrite Z.mod_small; lia).
  assert (to_dword (wf_length f + Zlen x) = wf_length f + Zlen x) as -> by (unfold to_dword; rewrite Z.mod_small; lia).
  rewrite Hw, (proj2 (Z.ltb_ge _ _)) by lia.
  assert (Zlen (wf_data f) = ws_GetSize h + size) as Hlen.
  { rewrite Hd, !Zlen_app, Zlen_replicate, payload_octets_length. lia. }
  rewrite (proj2 (Z.leb_le _ _)) by lia. eexists. split; [done|]. split; [|done].
  split; cbn [wf_data wf_size wf_length wf_headerSize wf_masked wf_mask]; rewrite ?Zlen_app; try done; try lia.
  rewrite payload_octets_app. set (z := if wf_masked f then _ else _).
  replace (if wf_masked f then xor_mask m (Zlen data) x else x) with z.
  2:{ unfold z. destruct (wf_masked f); [|done]. rewrite Hm. f_equal. lia. }
  assert (Zlen z = Zlen x) as Hlz by (unfold z; destruct (wf_masked f); [apply xor_mask_length|done]).
  rewrite Hd. set (pre := header_octets h). set (q := payload_octets (wf_masked f) m data).
  assert (wf_length f = Zlen (pre ++ q)) as ->.
  { rewrite Zlen_app. unfold pre, q. rewrite payload_octets_length. lia. }
  rewrite <- !app_assoc, !(app_assoc pre q). unfold write_at. rewrite ztake_app by done. f_equal. f_equal.
  rewrite Hlz. unfold zdrop. rewrite drop_app_ge by (unfold Zlen; lia). rewrite drop_replicate. f_equal. unfold Zlen in *. lia.
Qed.

(** A frame that is full is its header and its payload. *)
Lemma frame_holds_full f h m size data :
  frame_holds f h m size data → Zlen data = size → wf_octets f = header_octets h ++ payload_octets (wf_masked f) m data.
Proof.
  intros [? ? Hd Hz ? ? H14 ?] He. unfold wf_octets. rewrite Hz, Hd, He, Z.sub_diag. cbn [Z.to_nat replicate]. rewrite app_nil_r.
  apply ztake_all. rewrite Zlen_app, header_octets_length, payload_octets_length by done. lia.
Qed.

Lemma frame_mask_ok masked key :
  Zlen key = 4 → bytes_ok key →
  let mask := frame_mask masked key in
  Zlen mask = 4 ∧ bytes_ok mask ∧ is_dword (if masked then get4 mask 0 else 0) ∧ (masked = true → get4 mask 0 ≠ 0).
Proof.
  intros Hl Hb. unfold frame_mask. destruct masked; [|split_and!; [done|by repeat constructor|done|done]]. rewrite !get4_be.
  assert (∀ m, bytes_ok m → is_dword (be_get 4 m 0)) as Hd by (intros; by apply (be_get_range 4)).
  destruct (Z.eqb_spec (be_get 4 key 0) 0) as [Hz|Hz]; [|by auto].
  assert (bytes_ok (set_octet 0 1 key)) as Hok by (apply Forall_insert; [done|apply to_byte_range]).
  split_and!; [by rewrite Zlen_set_octet|done|by apply Hd|]. intros _.
  destruct key as [|a [|b [|c [|d [|]]]]]; try done; [|unfold Zlen in Hl; simpl in Hl; lia].
  change (set_octet 0 1 [a; b; c; d]) with [1; b; c; d] in *. unfold bytes_ok in Hok. rewrite !Forall_cons in Hok.
  destruct Hok as (_ & ? & ? & ? & _). unfold is_byte in *. unfold be_get. cbn [seq foldl]. change (((1 * 256 + b) * 256 + c) * 256 + d ≠ 0). lia.
Qed.

(** A new frame without payload. *)
Lemma new_Frame_holds fin o size masked key :
  Zlen key = 4 → bytes_ok key → 0 <= size < 2 ^ 31 →
  let mask := frame_mask masked key in
  let h := new_header fin o size (if masked then get4 mask 0 else 0) in
  ∃ f, new_Frame fin o None size masked key = Got f ∧ frame_holds f h mask size [] ∧ wf_masked f = masked
    ∧ header_says h fin o size (if masked then get4 mask 0 else 0)
    ∧ ∀ data, new_Frame fin o (Some data) size masked key = let? r := wf_Append data f in Got r.1.
Proof.
  intros Hk Hb Hs mask h. destruct (frame_mask_ok masked key Hk Hb) as (_ & _ & Hm & _). fold mask in Hm.
  assert (header_says h fin o size (if masked then get4 mask 0 else 0)) as Hh by (apply new_header_says; [lia|done]).
  pose proof (ws_GetSize_range h) as Hr. unfold new_Frame. fold mask. fold h.
  unfold to_dword. rewrite Z.mod_small by lia. rewrite (proj2 (Z.ltb_ge _ _)) by lia. eexists. split; [done|]. split_and!; [|done..].
  pose proof (hs_length _ _ _ _ _ Hh) as H14. pose proof (header_octets_length h H14) as Hl.
  split; cbn [wf_data wf_size wf_length wf_headerSize wf_masked wf_mask]; rewrite ?Zlen_nil; try done; try lia.
  rewrite write_at_0. fold (header_octets h). rewrite Hl. f_equal. unfold zdrop. rewrite drop_replicate.
  replace (payload_octets masked mask []) with (@nil Z) by (by destruct masked). cbn [app]. f_equal. rewrite Zlen_nil. lia.
Qed.

(** A frame with its payload, on the wire. *)
Lemma new_Frame_octets fin o data masked key :
  Zlen key = 4 → bytes_ok key → Zlen data < 2 ^ 31 →
  let mask := frame_mask masked key in
  let h := new_header fin o (Zlen data) (if masked then get4 mask 0 else 0) in
  ∃ f, new_Frame fin o (Some data) (Zlen data) masked key = Got f ∧ wf_octets f = header_octets h ++ payload_octets masked mask data
    ∧ header_says h fin o (Zlen data) (if masked then get4 mask 0 else 0).
Proof.
  intros Hk Hb Hs mask h. pose proof (Zlen_nonneg data).
  destruct (new_Frame_holds fin o (Zlen data) masked key Hk Hb ltac:(lia)) as (f & _ & Hf & Hm & Hh & Hd).
  destruct (Append_holds _ _ _ _ _ data Hf) as (f' & Ha & Hf' & Hm'); [rewrite Zlen_nil; lia|].
  rewrite Hd, Ha. eexists. split; [done|]. split; [|done]. fold mask h in Hf'. cbn [cbind fst].
  apply frame_holds_full in Hf'; [|done]. by rewrite Hf', Hm', Hm.
Qed.
End Written.
