(* ===== verification/WebSocket.v ===== *)
(** * WebSocket connections

    [WebSocketConnection] (src/websocketconnection.cpp), the headers and messages of HTTP it uses
    (src/http.cpp) and the plain transport (include/websockettransport.h).  A connection is the record
    [WsConn]; a method is a function on it, in [checked] where it could touch memory that is not there.
    The transport and the HTTP parser are interfaces ([WsTransport], [HttpParser]).  Calls on the
    listeners are the log [ws_calls]; what a handler does with a request for an upgrade is the argument
    [handlers].  Strings are lists of octets.  The counters of octets are not kept. *)

From S2P Require Import Prelude Wire Octets IpAddress HttpParse WebSocketFrame.

(** ** Strings and headers of HTTP *)

(** [a < b] on [std::string]. *)
Fixpoint string_lt (a b : bytes) : bool :=
  match a, b with
  | _, [] => false
  | [], _ => true
  | x :: a', y :: b' => if x =? y then string_lt a' b' else x <? y
  end.

(** [std::map<std::string,T>::operator[]], as an assignment. *)
Fixpoint map_put {A} (k : bytes) (v : A) (m : list (bytes * A)) : list (bytes * A) :=
  match m with
  | [] => [(k, v)]
  | (k', v') :: m' =>
      if bool_decide (k = k') then (k, v) :: m'
      else if string_lt k k' then (k, v) :: m else (k', v') :: map_put k v m'
  end.

Fixpoint map_find {A} (k : bytes) (m : list (bytes * A)) : option A :=
  match m with
  | [] => None
  | (k', v) :: m' => if bool_decide (k = k') then Some v else map_find k m'
  end.

Definition tolower (c : Z) : Z := if (65 <=? c) && (c <=? 90) then c + 32 else c.
Definition ToLower (s : bytes) : bytes := tolower <$> s.

(** [c_str], as functions of C see it. *)
Fixpoint c_str (s : bytes) : bytes :=
  match s with [] => [] | c :: s' => if c =? 0 then [] else c :: c_str s' end.

(** [snprintf(line,4096,...)] *)
Definition line4096 (s : bytes) : bytes := ztake 4095 s.

Definition is_prefix (p s : bytes) : bool := bool_decide (ztake (Zlen p) s = p).

(** [s.find(p)!=npos] *)
Fixpoint has_substring (p s : bytes) : bool :=
  is_prefix p s || match s with [] => false | _ :: s' => has_substring p s' end.

Definition Headers := list (bytes * list bytes).

Definition AddHeader (k v : bytes) (h : Headers) : Headers :=
  match map_find k h with
  | Some vs => map_put k (vs ++ [v]) h
  | None => map_put k [v] h
  end.

Definition HasHeader (k : bytes) (h : Headers) : bool := bool_decide (is_Some (map_find k h)).

(** [it->second.front()]: a key has a value at least ([AddHeader]). *)
Definition GetHeader (k : bytes) (h : Headers) : bytes :=
  match map_find k h with Some (v :: _) => v | _ => [] end.

Definition crlf : bytes := [13; 10].

Definition header_lines (h : Headers) : bytes :=
  mjoin ((λ kv : bytes * list bytes, mjoin ((λ v, kv.1 ++ octets ": " ++ v ++ crlf) <$> kv.2)) <$> h).

Record HTTPRequest := mkHTTPRequest { hr_method : bytes; hr_requestURI : bytes; hr_httpMajor : Z; hr_httpMinor : Z; hr_headers : Headers }.

Definition request_AddHeader (k v : bytes) (r : HTTPRequest) : HTTPRequest :=
  mkHTTPRequest (hr_method r) (hr_requestURI r) (hr_httpMajor r) (hr_httpMinor r) (AddHeader k v (hr_headers r)).

Definition request_Serialize (r : HTTPRequest) : bytes :=
  line4096 (c_str (hr_method r) ++ octets " " ++ c_str (hr_requestURI r) ++ octets " HTTP/" ++ decimal (hr_httpMajor r) ++ octets "."
    ++ decimal (hr_httpMinor r) ++ crlf) ++ header_lines (hr_headers r) ++ crlf.

Record HTTPResponse := mkHTTPResponse { hs_code : Z; hs_reason : bytes; hs_httpMajor : Z; hs_httpMinor : Z; hs_headers : Headers }.

Definition response_AddHeader (k v : bytes) (r : HTTPResponse) : HTTPResponse :=
  mkHTTPResponse (hs_code r) (hs_reason r) (hs_httpMajor r) (hs_httpMinor r) (AddHeader k v (hs_headers r)).

Definition response_Serialize (r : HTTPResponse) : bytes :=
  line4096 (octets "HTTP/" ++ decimal (hs_httpMajor r) ++ octets "." ++ decimal (hs_httpMinor r) ++ octets " " ++ decimal (hs_code r)
    ++ octets " " ++ c_str (hs_reason r) ++ crlf) ++ header_lines (hs_headers r) ++ crlf.

(** ** Interfaces *)

(** [Recv]: [>0], [0], [<0]. *)
Inductive TransportRead := Received (data : bytes) | NothingNow | ConnectionLost.

(** [WebSocketTransport]; [wt_left] bounds the calls of [Recv] that give octets. *)
Class WsTransport (T : Type) := {
  wt_Recv : T → T * TransportRead;
  wt_Send : bytes → T → T * Z;
  wt_Flush : T → T * Z;
  wt_WantsWrite : T → bool;
  wt_IsReady : T → bool;
  wt_Shutdown : T → T;
  wt_left : T → nat;
}.

(** OpenSSL and libavutil: SHA-1 in base 64, masking keys, nonces in base 64. *)
Class WsCrypto := {
  sha1_base64 : bytes → bytes;
  random_key : nat → bytes;
  random_nonce : nat → option bytes;
}.

(** ** State *)

Inductive Role := WsServer | WsClient.
#[global] Instance Role_eq_dec : EqDecision Role.
Proof. solve_decision. Defined.

Inductive ClientState := NotAClient | Connecting | TlsHandshake | Upgrading | Opened | Failed.
#[global] Instance ClientState_eq_dec : EqDecision ClientState.
Proof. solve_decision. Defined.

Inductive MessageType := Text | Binary.

(** Calls on [WebSocket::Listener] and on the server. *)
Inductive WsCall :=
  | onOpen | onError | onClose
  | onMessageStart (t : MessageType) (len : Z)
  | onMessageData (data : bytes)
  | onMessageEnd
  | onUpgradeRequest
  | onWakeupNeeded.
#[global] Instance MessageType_eq_dec : EqDecision MessageType.
Proof. solve_decision. Defined.
#[global] Instance WsCall_eq_dec : EqDecision WsCall.
Proof. solve_decision. Defined.

(** What the callbacks of the HTTP parser build. *)
Record Opening := mkOpening {
  ho_request : option HTTPRequest;
  ho_requestUrl : bytes;
  ho_headerField : bytes;
  ho_headerValue : bytes;
  ho_parsingHeaderValue : bool;
  ho_responseHeaders : list (bytes * bytes);  (** names in lower case *)
}.

Definition set_ho_request (v : option HTTPRequest) (c : Opening) : Opening := mkOpening v (ho_requestUrl c) (ho_headerField c) (ho_headerValue c) (ho_parsingHeaderValue c) (ho_responseHeaders c).
Definition set_ho_requestUrl (v : bytes) (c : Opening) : Opening := mkOpening (ho_request c) v (ho_headerField c) (ho_headerValue c) (ho_parsingHeaderValue c) (ho_responseHeaders c).
Definition set_ho_headerField (v : bytes) (c : Opening) : Opening := mkOpening (ho_request c) (ho_requestUrl c) v (ho_headerValue c) (ho_parsingHeaderValue c) (ho_responseHeaders c).
Definition set_ho_headerValue (v : bytes) (c : Opening) : Opening := mkOpening (ho_request c) (ho_requestUrl c) (ho_headerField c) v (ho_parsingHeaderValue c) (ho_responseHeaders c).
Definition set_ho_parsingHeaderValue (v : bool) (c : Opening) : Opening := mkOpening (ho_request c) (ho_requestUrl c) (ho_headerField c) (ho_headerValue c) v (ho_responseHeaders c).
Definition set_ho_responseHeaders (v : list (bytes * bytes)) (c : Opening) : Opening := mkOpening (ho_request c) (ho_requestUrl c) (ho_headerField c) (ho_headerValue c) (ho_parsingHeaderValue c) v.

(** The opening of an outgoing connection. *)
Record ClientOpening := mkClientOpening {
  cl_state : ClientState;
  cl_host : bytes;
  cl_path : bytes;
  cl_headers : list (bytes * bytes);
  cl_key : bytes;  (** the key sent *)
  cl_errorNotified : bool;
}.

Definition set_cl_state (v : ClientState) (c : ClientOpening) : ClientOpening := mkClientOpening v (cl_host c) (cl_path c) (cl_headers c) (cl_key c) (cl_errorNotified c).
Definition set_cl_key (v : bytes) (c : ClientOpening) : ClientOpening := mkClientOpening (cl_state c) (cl_host c) (cl_path c) (cl_headers c) v (cl_errorNotified c).
Definition set_cl_errorNotified (v : bool) (c : ClientOpening) : ClientOpening := mkClientOpening (cl_state c) (cl_host c) (cl_path c) (cl_headers c) (cl_key c) v.

(** The reader of frames. *)
Record FrameReader := mkFrameReader {
  rd_parser : HeaderParser;
  rd_header : option bytes;
  rd_framePos : Z;
  rd_pong : option WsFrame;
  rd_draws : nat;  (** masking keys drawn so far, for any frame *)
}.

Definition set_rd_pong (v : option WsFrame) (c : FrameReader) : FrameReader := mkFrameReader (rd_parser c) (rd_header c) (rd_framePos c) v (rd_draws c).
Definition set_rd_draws (v : nat) (c : FrameReader) : FrameReader := mkFrameReader (rd_parser c) (rd_header c) (rd_framePos c) (rd_pong c) v.

(** What waits to be sent. *)
Record WsOutput := mkWsOutput {
  ou_frames : list WsFrame;
  ou_closeFrameQueued : bool;
  ou_response : option HTTPResponse;
  ou_closeAfterFlush : bool;
}.

Definition set_ou_frames (v : list WsFrame) (c : WsOutput) : WsOutput := mkWsOutput v (ou_closeFrameQueued c) (ou_response c) (ou_closeAfterFlush c).
Definition set_ou_closeFrameQueued (v : bool) (c : WsOutput) : WsOutput := mkWsOutput (ou_frames c) v (ou_response c) (ou_closeAfterFlush c).
Definition set_ou_response (v : option HTTPResponse) (c : WsOutput) : WsOutput := mkWsOutput (ou_frames c) (ou_closeFrameQueued c) v (ou_closeAfterFlush c).
Definition set_ou_closeAfterFlush (v : bool) (c : WsOutput) : WsOutput := mkWsOutput (ou_frames c) (ou_closeFrameQueued c) (ou_response c) v.

(** [WebSocketConnection]. *)
Record WsConn (T P : Type) := mkWsConn {
  ws_role : Role;
  ws_inited : bool;
  ws_upgraded : bool;
  ws_closeRequested : bool;
  ws_listening : bool;  (** [wsl.lock()] gives a listener *)
  ws_transport : T;
  ws_http : P;  (** the HTTP parser *)
  ws_opening : Opening;
  ws_client : ClientOpening;
  ws_reader : FrameReader;
  ws_output : WsOutput;
  ws_calls : list WsCall;  (** what was called on the listeners, in order *)
}.
Arguments mkWsConn {T P} _ _ _ _ _ _ _ _ _ _ _ _.
Arguments ws_role {T P} _.
Arguments ws_inited {T P} _.
Arguments ws_upgraded {T P} _.
Arguments ws_closeRequested {T P} _.
Arguments ws_listening {T P} _.
Arguments ws_transport {T P} _.
Arguments ws_http {T P} _.
Arguments ws_opening {T P} _.
Arguments ws_client {T P} _.
Arguments ws_reader {T P} _.
Arguments ws_output {T P} _.
Arguments ws_calls {T P} _.

(** What a handler does with a request: [Accept] with a listener that is alive or not, [Reject], or
    nothing yet. *)
Inductive Decision := DoAccept (alive : bool) | DoReject (code : Z) (reason : bytes) | DoNothing.

Definition Handlers := list (bytes * (HTTPRequest → Decision)).

(** ** The reader of frames *)

Definition MaxFramePayload : Z := 16 * 1024 * 1024.

(** What the reader makes the connection do. *)
Inductive ReadEffect := Tell (e : WsCall) | PushPong (f : WsFrame).

Section Reader.
Context {W : WireOps} {V : MoreWireOps} {K : WsCrypto}.

(** The switch on a new header; [true]: [closeRequested = true; return]. *)
Definition header_arrived (role : Role) (h : bytes) (r : FrameReader) : checked (FrameReader * list ReadEffect * bool) :=
  let len := ws_GetPayloadLength h in
  if MaxFramePayload <? len then Got (r, [], true)
  else if bool_decide (role = WsClient) && ws_IsMasked h then Got (r, [], true)
  else match ws_GetOpCode h with
  | TextFrame => Got (r, [Tell (onMessageStart Text (to_dword len))], false)
  | CloseFrame => Got (r, [], true)
  | BinaryFrame => Got (r, [Tell (onMessageStart Binary (to_dword len))], false)
  | Ping =>
      let masked := bool_decide (role = WsClient) in
      let? f := new_Frame true Pong None (to_dword len) masked (random_key (rd_draws r)) in
      Got (mkFrameReader (rd_parser r) (rd_header r) (rd_framePos r) (Some f) (if masked then S (rd_draws r) else rd_draws r), [], false)
  | _ => Got (r, [], false)
  end.

(** The frame is complete. *)
Definition frame_ended (h : bytes) (r : FrameReader) : checked (FrameReader * list ReadEffect) :=
  match ws_GetOpCode h with
  | ContinuationFrame | TextFrame | BinaryFrame =>
      Got (mkFrameReader (rd_parser r) None (rd_framePos r) (rd_pong r) (rd_draws r), if ws_IsFin h then [Tell onMessageEnd] else [])
  | Ping =>
      match rd_pong r with
      | None => Fault
      | Some f => Got (mkFrameReader (rd_parser r) None (rd_framePos r) None (rd_draws r), [PushPong f])
      end
  | _ => Got (mkFrameReader (rd_parser r) None (rd_framePos r) (rd_pong r) (rd_draws r), [])
  end.

(** The switch on octets of a payload: the pong after it, and what is told. *)
Definition tell_payload (h : bytes) (data : bytes) (pong : option WsFrame) : checked (option WsFrame * list ReadEffect) :=
  match ws_GetOpCode h with
  | ContinuationFrame | TextFrame | BinaryFrame => Got (pong, [Tell (onMessageData data)])
  | Ping =>
      match pong with
      | None => Fault
      | Some f => let? a := wf_Append data f in Got (Some a.1, [])
      end
  | _ => Got (pong, [])
  end.

(** The octets of the payload in [data]. *)
Definition payload_arrived (h : bytes) (data : bytes) (r : FrameReader) : checked (FrameReader * list ReadEffect * Z) :=
  let len := Z.min (to_qword (ws_GetPayloadLength h - rd_framePos r)) (Zlen data) in
  let raw := ztake len data in
  let data := if ws_IsMasked h then xor_mask (put4 (ws_GetMask h)) (rd_framePos r) raw else raw in
  let? told := tell_payload h data (rd_pong r) in
  let r := mkFrameReader (rd_parser r) (rd_header r) (rd_framePos r + len) told.1 (rd_draws r) in
  if rd_framePos r =? ws_GetPayloadLength h
  then let? e := frame_ended h r in Got (e.1, told.2 ++ e.2, len)
  else Got (r, told.2, len).

(** A round of [while(size)]: the octets taken, and whether the loop returns. *)
Definition read_round (role : Role) (data : bytes) (r : FrameReader) : checked (FrameReader * list ReadEffect * Z * bool) :=
  match rd_header r with
  | None =>
      let? p := hp_Parse data (rd_parser r) in
      if hp_IsParsed p.1 then
        let '(h, parser) := hp_ConsumeHeader p.1 in
        match h with
        | None => Fault
        | Some h =>
            let? a := header_arrived role h (mkFrameReader parser (Some h) 0 (rd_pong r) (rd_draws r)) in
            Got (a.1.1, a.1.2, p.2, a.2)
        end
      else Got (mkFrameReader p.1 None (rd_framePos r) (rd_pong r) (rd_draws r), [], p.2, false)
  | Some h => let? a := payload_arrived h data r in Got (a.1.1, a.1.2, a.2, false)
  end.

Fixpoint read_loop (fuel : nat) (role : Role) (data : bytes) (r : FrameReader) : checked (FrameReader * list ReadEffect * bool) :=
  match data with
  | [] => Got (r, [], false)
  | _ :: _ =>
      match fuel with
      | O => Fault
      | S fuel =>
          let? a := read_round role data r in
          let '(r, es, n, close) := a in
          if close then Got (r, es, true) else
          let? b := read_loop fuel role (zdrop n data) r in
          Got (b.1.1, es ++ b.1.2, b.2)
      end
  end.

(** An octet takes two rounds at most. *)
Definition read_frames (role : Role) (data : bytes) (r : FrameReader) : checked (FrameReader * list ReadEffect * bool) :=
  read_loop (2 * length data + 1) role data r.

End Reader.

Section Connection.
Context {W : WireOps} {V : MoreWireOps} {K : WsCrypto} {T P : Type} {X : WsTransport T} {H : HttpParser P}.
Context (handlers : Handlers).

Definition set_ws_inited (v : bool) (c : WsConn T P) : WsConn T P := mkWsConn (ws_role c) v (ws_upgraded c) (ws_closeRequested c) (ws_listening c) (ws_transport c) (ws_http c) (ws_opening c) (ws_client c) (ws_reader c) (ws_output c) (ws_calls c).
Definition set_ws_upgraded (v : bool) (c : WsConn T P) : WsConn T P := mkWsConn (ws_role c) (ws_inited c) v (ws_closeRequested c) (ws_listening c) (ws_transport c) (ws_http c) (ws_opening c) (ws_client c) (ws_reader c) (ws_output c) (ws_calls c).
Definition set_ws_closeRequested (v : bool) (c : WsConn T P) : WsConn T P := mkWsConn (ws_role c) (ws_inited c) (ws_upgraded c) v (ws_listening c) (ws_transport c) (ws_http c) (ws_opening c) (ws_client c) (ws_reader c) (ws_output c) (ws_calls c).
Definition set_ws_listening (v : bool) (c : WsConn T P) : WsConn T P := mkWsConn (ws_role c) (ws_inited c) (ws_upgraded c) (ws_closeRequested c) v (ws_transport c) (ws_http c) (ws_opening c) (ws_client c) (ws_reader c) (ws_output c) (ws_calls c).
Definition set_ws_transport (v : T) (c : WsConn T P) : WsConn T P := mkWsConn (ws_role c) (ws_inited c) (ws_upgraded c) (ws_closeRequested c) (ws_listening c) v (ws_http c) (ws_opening c) (ws_client c) (ws_reader c) (ws_output c) (ws_calls c).
Definition set_ws_http (v : P) (c : WsConn T P) : WsConn T P := mkWsConn (ws_role c) (ws_inited c) (ws_upgraded c) (ws_closeRequested c) (ws_listening c) (ws_transport c) v (ws_opening c) (ws_client c) (ws_reader c) (ws_output c) (ws_calls c).
Definition set_ws_opening (v : Opening) (c : WsConn T P) : WsConn T P := mkWsConn (ws_role c) (ws_inited c) (ws_upgraded c) (ws_closeRequested c) (ws_listening c) (ws_transport c) (ws_http c) v (ws_client c) (ws_reader c) (ws_output c) (ws_calls c).
Definition set_ws_client (v : ClientOpening) (c : WsConn T P) : WsConn T P := mkWsConn (ws_role c) (ws_inited c) (ws_upgraded c) (ws_closeRequested c) (ws_listening c) (ws_transport c) (ws_http c) (ws_opening c) v (ws_reader c) (ws_output c) (ws_calls c).
Definition set_ws_reader (v : FrameReader) (c : WsConn T P) : WsConn T P := mkWsConn (ws_role c) (ws_inited c) (ws_upgraded c) (ws_closeRequested c) (ws_listening c) (ws_transport c) (ws_http c) (ws_opening c) (ws_client c) v (ws_output c) (ws_calls c).
Definition set_ws_output (v : WsOutput) (c : WsConn T P) : WsConn T P := mkWsConn (ws_role c) (ws_inited c) (ws_upgraded c) (ws_closeRequested c) (ws_listening c) (ws_transport c) (ws_http c) (ws_opening c) (ws_client c) (ws_reader c) v (ws_calls c).
Definition set_ws_calls (v : list WsCall) (c : WsConn T P) : WsConn T P := mkWsConn (ws_role c) (ws_inited c) (ws_upgraded c) (ws_closeRequested c) (ws_listening c) (ws_transport c) (ws_http c) (ws_opening c) (ws_client c) (ws_reader c) (ws_output c) v.

Definition ws_called (e : WsCall) (c : WsConn T P) : WsConn T P := set_ws_calls (ws_calls c ++ [e]) c.

(** [if (wsl2) wsl2->e] *)
Definition notify (e : WsCall) (c : WsConn T P) : WsConn T P := if ws_listening c then ws_called e c else c.

Definition IsClient (c : WsConn T P) : bool := bool_decide (ws_role c = WsClient).

Definition with_output (f : WsOutput → WsOutput) (c : WsConn T P) : WsConn T P := set_ws_output (f (ws_output c)) c.
Definition with_opening (f : Opening → Opening) (c : WsConn T P) : WsConn T P := set_ws_opening (f (ws_opening c)) c.
Definition with_client (f : ClientOpening → ClientOpening) (c : WsConn T P) : WsConn T P := set_ws_client (f (ws_client c)) c.
Definition push_frame (f : WsFrame) (o : WsOutput) : WsOutput := set_ou_frames (ou_frames o ++ [f]) o.

(** The constructor and [Init]. *)
Definition new_conn (role : Role) (t : T) (client : ClientOpening) (alive : bool) : WsConn T P :=
  mkWsConn role true false false alive t (hp_new (bool_decide (role = WsClient)))
    (mkOpening None [] [] [] false []) client (mkFrameReader new_header_parser None 0 None 0)
    (mkWsOutput [] false None false) [].

Definition ws_Init (t : T) : WsConn T P := new_conn WsServer t (mkClientOpening NotAClient [] [] [] [] false) false.

Definition ws_InitClient (t : T) (host path : bytes) (alive : bool) (headers : list (bytes * bytes)) : WsConn T P :=
  new_conn WsClient t (mkClientOpening Connecting host (match path with [] => octets "/" | _ => path end) headers [] false) alive.

(** ** Sending and closing *)

Definition ws_Close (c : WsConn T P) : WsConn T P := ws_called onWakeupNeeded (set_ws_closeRequested true c).

(** The key for the next frame. *)
Definition next_key (c : WsConn T P) : bytes := random_key (rd_draws (ws_reader c)).
Definition draw (c : WsConn T P) : WsConn T P :=
  if IsClient c then set_ws_reader (set_rd_draws (S (rd_draws (ws_reader c))) (ws_reader c)) c else c.

Definition close_payload (code : Z) (reason : bytes) : bytes :=
  [to_byte (Z.shiftr code 8); Z.land code 255] ++ ztake 123 (c_str reason).

Definition ws_CloseWith (code : Z) (reason : bytes) (c : WsConn T P) : checked (WsConn T P) :=
  if ou_closeFrameQueued (ws_output c) then Got c else
  let payload := close_payload code reason in
  let? f := new_Frame true CloseFrame (Some payload) (Zlen payload) (IsClient c) (next_key c) in
  Got (ws_called onWakeupNeeded (with_output (λ o, set_ou_closeAfterFlush true (push_frame f (set_ou_closeFrameQueued true o))) (draw c))).

Definition ws_SendMessage (message : bytes) (c : WsConn T P) : checked (WsConn T P) :=
  let? f := new_Frame true TextFrame (Some message) (Zlen message) (IsClient c) (next_key c) in
  let c := draw c in
  if ou_closeFrameQueued (ws_output c) then Got c else Got (ws_called onWakeupNeeded (with_output (push_frame f) c)).

(** The frames of 1300 octets; a round takes an octet or more. *)
Fixpoint send_frames (fuel : nat) (code : OpCode) (data : bytes) (c : WsConn T P) : checked (WsConn T P) :=
  match fuel with
  | O => Fault
  | S fuel =>
      let len := if 1300 <? Zlen data then 1300 else Zlen data in
      let last := len =? Zlen data in
      let? f := new_Frame last code (Some (ztake len data)) len (IsClient c) (next_key c) in
      let c := with_output (push_frame f) (draw c) in
      if last then Got c else send_frames fuel ContinuationFrame (zdrop len data) c
  end.

Definition SendBinary (data : bytes) (c : WsConn T P) : checked (WsConn T P) :=
  if Zlen data =? 0 then Got c else
  if ou_closeFrameQueued (ws_output c) then Got c else
  let? c := send_frames (length data) BinaryFrame data c in
  Got (ws_called onWakeupNeeded c).

Definition ws_End (c : WsConn T P) : WsConn T P :=
  if ws_inited c then set_ws_transport (wt_Shutdown (ws_transport c)) (set_ws_inited false c) else c.

Definition HasPendingOutput (c : WsConn T P) : bool :=
  bool_decide (is_Some (ou_response (ws_output c))) || negb (bool_decide (ou_frames (ws_output c) = []))
  || wt_WantsWrite (ws_transport c).

(** [GetPollEvents() & POLLOUT] *)
Definition PollsOut (c : WsConn T P) : bool := bool_decide (cl_state (ws_client c) = Connecting) || HasPendingOutput c.

Definition IsFinished (c : WsConn T P) : bool :=
  ws_closeRequested c || (ou_closeAfterFlush (ws_output c) && negb (HasPendingOutput c)).

Definition GetNextFrame (c : WsConn T P) : option WsFrame * WsConn T P :=
  match ou_frames (ws_output c) with
  | [] => (None, c)
  | f :: fs => (Some f, with_output (set_ou_frames fs) c)
  end.

(** ** Opening *)

Definition FailClient (c : WsConn T P) : WsConn T P :=
  let c := with_client (set_cl_state Failed) c in
  let c := if cl_errorNotified (ws_client c) then c else notify onError (with_client (set_cl_errorNotified true) c) in
  set_ws_closeRequested true c.

Definition guid : bytes := octets "258EAFA5-E914-47DA-95CA-C5AB0DC85B11".
Definition ComputeAcceptKey (key : bytes) : bytes := sha1_base64 (key ++ guid).

Definition upgrade_request (c : WsConn T P) (key : bytes) : HTTPRequest :=
  let r := mkHTTPRequest (octets "GET") (cl_path (ws_client c)) 1 1 [] in
  let r := request_AddHeader (octets "Host") (cl_host (ws_client c)) r in
  let r := request_AddHeader (octets "Upgrade") (octets "websocket") r in
  let r := request_AddHeader (octets "Connection") (octets "Upgrade") r in
  let r := request_AddHeader (octets "Sec-WebSocket-Key") key r in
  let r := request_AddHeader (octets "Sec-WebSocket-Version") (octets "13") r in
  foldl (λ r h, request_AddHeader h.1 h.2 r) r (cl_headers (ws_client c)).

(** [nonce] is what [RAND_bytes] gives, in base 64. *)
Definition SendUpgradeRequest (nonce : option bytes) (c : WsConn T P) : WsConn T P :=
  match nonce with
  | None => FailClient c
  | Some key =>
      let c := with_client (set_cl_key key) c in
      let out := request_Serialize (upgrade_request c key) in
      let '(t, n) := wt_Send out (ws_transport c) in
      let c := set_ws_transport t c in
      if n <? Zlen out then FailClient c else with_client (set_cl_state Upgrading) c
  end.

Definition SendUpgradeRequestWhenReady (c : WsConn T P) : WsConn T P :=
  if bool_decide (cl_state (ws_client c) = TlsHandshake) && wt_IsReady (ws_transport c)
  then SendUpgradeRequest (random_nonce (rd_draws (ws_reader c))) c else c.

Definition GetResponseHeader (name : bytes) (c : WsConn T P) : bytes :=
  default [] (map_find name (ho_responseHeaders (ws_opening c))).

Definition upgrade_accepted (status : Z) (c : WsConn T P) : bool :=
  (status =? 101)
  && bool_decide (ToLower (c_str (GetResponseHeader (octets "upgrade") c)) = octets "websocket")
  && has_substring (octets "upgrade") (ToLower (GetResponseHeader (octets "connection") c))
  && bool_decide (GetResponseHeader (octets "sec-websocket-accept") c = ComputeAcceptKey (cl_key (ws_client c))).

Definition CheckUpgradeResponse (status : Z) (c : WsConn T P) : WsConn T P :=
  if upgrade_accepted status c
  then notify onOpen (with_client (set_cl_state Opened) (set_ws_upgraded true c))
  else FailClient c.

Definition Reject (code : Z) (reason : bytes) (c : WsConn T P) : WsConn T P :=
  ws_called onWakeupNeeded (with_output (λ o, set_ou_closeAfterFlush true (set_ou_response (Some (mkHTTPResponse code reason 1 1 [])) o)) c).

Definition accept_response (r : HTTPRequest) (key : bytes) : HTTPResponse :=
  let a := mkHTTPResponse 101 (octets "Switching Protocols") 1 1 [] in
  let a := response_AddHeader (octets "Upgrade") (octets "Websocket") a in
  let a := response_AddHeader (octets "Connection") (octets "Upgrade") a in
  let protocol := octets "Sec-WebSocket-Protocol" in
  let a := if HasHeader protocol (hr_headers r) then response_AddHeader protocol (GetHeader protocol (hr_headers r)) a else a in
  response_AddHeader (octets "Sec-WebSocket-Accept") (ComputeAcceptKey key) a.

(** [alive]: the listener given is there. *)
Definition Accept (alive : bool) (c : WsConn T P) : checked (WsConn T P) :=
  if IsClient c then Got c else
  let c := set_ws_listening alive c in
  match ho_request (ws_opening c) with
  | None => Fault
  | Some r =>
      let key := GetHeader (octets "Sec-WebSocket-Key") (hr_headers r) in
      if Zlen key =? 0 then Got (Reject 400 (octets "Bad request, no Sec-WebSocket-Key") c)
      else Got (notify onOpen (ws_called onWakeupNeeded (set_ws_upgraded true
             (with_output (set_ou_response (Some (accept_response r key))) c))))
  end.

(** [WebSocketServer::onUpgradeRequest]: the handlers in reverse order. *)
Definition find_handler (uri : bytes) (hs : Handlers) : option (HTTPRequest → Decision) :=
  match List.filter (λ h, is_prefix h.1 uri) (reverse hs) with [] => None | h :: _ => Some h.2 end.

Definition server_onUpgradeRequest (c : WsConn T P) : checked (WsConn T P) :=
  match ho_request (ws_opening c) with
  | None => Fault
  | Some r =>
      match find_handler (hr_requestURI r) handlers with
      | None => Got (Reject 404 (octets "No handlers for that url found") c)
      | Some h =>
          match h r with
          | DoAccept alive => Accept alive c
          | DoReject code reason => Got (Reject code reason c)
          | DoNothing => Got c
          end
      end
  end.

(** ** Callbacks of the HTTP parser *)

Definition FlushPendingHeader (c : WsConn T P) : WsConn T P :=
  let o := ws_opening c in
  if ho_parsingHeaderValue o then
    let o := if bool_decide (ho_headerField o = []) then o
      else if IsClient c then set_ho_responseHeaders (map_put (ToLower (ho_headerField o)) (ho_headerValue o) (ho_responseHeaders o)) o
      else match ho_request o with
           | Some r => set_ho_request (Some (request_AddHeader (ho_headerField o) (ho_headerValue o) r)) o
           | None => o
           end in
    set_ws_opening (set_ho_parsingHeaderValue false (set_ho_headerValue [] (set_ho_headerField [] o))) c
  else c.

Definition EnsureRequest (i : HttpInfo) (c : WsConn T P) : WsConn T P :=
  match ho_request (ws_opening c) with
  | Some _ => c
  | None => with_opening (λ o, set_ho_request (Some (mkHTTPRequest (hi_method i) (ho_requestUrl o) (hi_major i) (hi_minor i) [])) o) c
  end.

Definition http_callback (call : HttpCall * HttpInfo) (c : WsConn T P) : checked (WsConn T P) :=
  let '(call, i) := call in
  match call with
  | on_url a => Got (with_opening (λ o, set_ho_requestUrl (ho_requestUrl o ++ a) o) c)
  | on_header_field a =>
      let c := if IsClient c then c else EnsureRequest i c in
      Got (with_opening (λ o, set_ho_headerField (ho_headerField o ++ a) o) (FlushPendingHeader c))
  | on_header_value a =>
      if negb (IsClient c) && bool_decide (ho_request (ws_opening c) = None) then Got c
      else Got (with_opening (λ o, set_ho_parsingHeaderValue true (set_ho_headerValue (ho_headerValue o ++ a) o)) c)
  | on_headers_complete =>
      if IsClient c then Got (CheckUpgradeResponse (hi_status i) (FlushPendingHeader c))
      else Got (FlushPendingHeader (EnsureRequest i c))
  | on_message_complete =>
      if IsClient c then Got c else
      match ho_request (ws_opening c) with
      | None => Got c
      | Some _ => server_onUpgradeRequest (ws_called onUpgradeRequest c)
      end
  | on_message_begin | on_status_complete | on_body _ => Got c
  end.

Fixpoint http_callbacks (calls : list (HttpCall * HttpInfo)) (c : WsConn T P) : checked (WsConn T P) :=
  match calls with
  | [] => Got c
  | call :: calls => let? c := http_callback call c in http_callbacks calls c
  end.

(** ** Reading and writing *)

Definition read_effect (c : WsConn T P) (e : ReadEffect) : WsConn T P :=
  match e with
  | Tell e => notify e c
  | PushPong f => ws_called onWakeupNeeded (with_output (push_frame f) c)
  end.

Definition process_frames (data : bytes) (c : WsConn T P) : checked (WsConn T P) :=
  let? a := read_frames (ws_role c) data (ws_reader c) in
  let '(r, es, close) := a in
  let c := foldl read_effect (set_ws_reader r c) es in
  Got (if close then set_ws_closeRequested true c else c).

Definition ProcessData (data : bytes) (c : WsConn T P) : checked (WsConn T P) :=
  if ws_upgraded c then process_frames data c else
  let? e := hp_Execute data (ws_http c) in
  let '(p, calls, parsed) := e in
  let? c := http_callbacks calls (set_ws_http p c) in
  if ws_upgraded c then (if Zlen data <=? parsed then Got c else process_frames (zdrop parsed data) c) else Got c.

Fixpoint OnReadable_loop (fuel : nat) (c : WsConn T P) : checked (WsConn T P) :=
  match fuel with
  | O => Fault
  | S fuel =>
      let '(t, r) := wt_Recv (ws_transport c) in
      let c := set_ws_transport t c in
      match r with
      | ConnectionLost => Got (set_ws_closeRequested true c)
      | NothingNow => Got (SendUpgradeRequestWhenReady c)
      | Received data =>
          let? c := ProcessData data (SendUpgradeRequestWhenReady c) in
          if ws_closeRequested c then Got c else OnReadable_loop fuel c
      end
  end.

Definition OnReadable (c : WsConn T P) : checked (WsConn T P) := OnReadable_loop (S (wt_left (ws_transport c))) c.

(** [so_error]: [getsockopt] fails or gives an error. *)
Definition OnWritable (so_error : bool) (c : WsConn T P) : WsConn T P :=
  let connecting := bool_decide (cl_state (ws_client c) = Connecting) in
  if connecting && so_error then FailClient c else
  let c := if connecting then with_client (set_cl_state TlsHandshake) c else c in
  let '(t, n) := wt_Flush (ws_transport c) in
  let c := set_ws_transport t c in
  if n <? 0 then set_ws_closeRequested true c else
  if bool_decide (cl_state (ws_client c) = TlsHandshake) then SendUpgradeRequestWhenReady c else
  if wt_WantsWrite (ws_transport c) then c else
  match ou_response (ws_output c) with
  | Some r =>
      let '(t, _) := wt_Send (response_Serialize r) (ws_transport c) in
      with_output (set_ou_response None) (set_ws_transport t c)
  | None =>
      match GetNextFrame c with
      | (None, c) => c
      | (Some f, c) => set_ws_transport (wt_Send (wf_octets f) (ws_transport c)).1 c
      end
  end.

(** Milliseconds left, [elapsed] after the creation; [-1] when nothing is awaited. *)
Definition GetOpeningTimeLeft (timeout elapsed : Z) (c : WsConn T P) : Z :=
  match cl_state (ws_client c) with
  | Connecting | TlsHandshake | Upgrading =>
      if timeout =? 0 then -1 else if timeout <=? elapsed then 0 else to_int32 (timeout - elapsed)
  | _ => -1
  end.

Definition OnOpeningTimeout (c : WsConn T P) : WsConn T P := FailClient c.

Definition NotifyClose (c : WsConn T P) : WsConn T P :=
  if negb (ws_upgraded c) && negb (IsClient c) then c else
  if ws_listening c then
    let c := if IsClient c && negb (ws_upgraded c) && negb (cl_errorNotified (ws_client c))
      then ws_called onError (with_client (set_cl_errorNotified true) c) else c in
    ws_called onClose c
  else c.

End Connection.

(** ** The plain transport *)

Inductive ReadResult := ReadOctets (data : bytes) | ReadEof | ReadAgain | ReadError.
Inductive WriteResult := Wrote (n : Z) | WriteAgain | WriteError.

(** What [read] and [write] will return, in order ([EAGAIN] beyond), and what was written so far. *)
Record PlainTransport := mkPlain {
  pl_open : bool;
  pl_pendingOut : bytes;
  pl_reads : list ReadResult;
  pl_writes : list WriteResult;
  pl_wire : bytes;
}.

Fixpoint plain_write (pending : bytes) (ws : list WriteResult) : bytes * bytes * list WriteResult * Z :=
  match pending with
  | [] => ([], [], ws, 0)
  | _ :: _ =>
      match ws with
      | [] => ([], pending, [], 0)
      | WriteAgain :: ws => ([], pending, ws, 0)
      | WriteError :: ws => ([], pending, ws, -1)
      | Wrote n :: ws =>
          if 0 <? n then
            let m := Z.min n (Zlen pending) in
            let '(out, kept, ws, r) := plain_write (zdrop m pending) ws in
            (ztake m pending ++ out, kept, ws, r)
          else ([], pending, ws, -1)
      end
  end.

Definition plain_Flush (t : PlainTransport) : PlainTransport * Z :=
  let '(out, kept, ws, r) := plain_write (pl_pendingOut t) (pl_writes t) in
  (mkPlain (pl_open t) kept (pl_reads t) ws (pl_wire t ++ out), r).

Definition plain_Send (data : bytes) (t : PlainTransport) : PlainTransport * Z :=
  let '(t, r) := plain_Flush (mkPlain (pl_open t) (pl_pendingOut t ++ data) (pl_reads t) (pl_writes t) (pl_wire t)) in
  (t, if r <? 0 then -1 else Zlen data).

Definition plain_Recv (t : PlainTransport) : PlainTransport * TransportRead :=
  let t' := mkPlain (pl_open t) (pl_pendingOut t) (tail (pl_reads t)) (pl_writes t) (pl_wire t) in
  match pl_reads t with
  | [] | ReadAgain :: _ => (t', NothingNow)
  | ReadOctets (o :: data) :: _ => (t', Received (o :: data))
  | ReadOctets [] :: _ | ReadEof :: _ | ReadError :: _ => (t', ConnectionLost)
  end.

Definition plain_Shutdown (t : PlainTransport) : PlainTransport :=
  mkPlain false (pl_pendingOut t) (pl_reads t) (pl_writes t) (pl_wire t).

#[global] Instance plain_transport : WsTransport PlainTransport := {|
  wt_Recv := plain_Recv;
  wt_Send := plain_Send;
  wt_Flush := plain_Flush;
  wt_WantsWrite t := negb (bool_decide (pl_pendingOut t = []));
  wt_IsReady := pl_open;
  wt_Shutdown := plain_Shutdown;
  wt_left t := length (pl_reads t);
|}.
