(* ===== verification/WebSocketRead.v ===== *)
(** * WebSocket: the reader of frames

    The invariant of the reader and that no round faults; that the way the stream is cut does not
    matter; what a frame makes the reader do. *)

From S2P Require Import Prelude Wire Octets HttpParse WebSocketFrame WebSocket.

(** Masking keys have four octets. *)
Class WsCryptoLaws (K : WsCrypto) : Prop := {
  random_key_length n : Zlen (random_key n) = 4;
  random_key_bytes n : bytes_ok (random_key n);
}.

(** The pong of a ping of which [pos] octets of [len] have arrived. *)
Definition pong_ok (len pos : Z) (o : option WsFrame) : Prop :=
  ∃ f h m data, o = Some f ∧ frame_holds f h m len data ∧ Zlen data = pos.

Section Read.
Context {W : WireOps} {V : MoreWireOps} {HN : NetworkOrder W V} {K : WsCrypto} {HK : WsCryptoLaws K}.
Implicit Types (r : FrameReader) (data a b : bytes).

(** [pong_ok] for a ping, nothing for other frames. *)
Definition ping_ok (h : bytes) r : Prop :=
  ws_GetOpCode h = Ping → pong_ok (ws_GetPayloadLength h) (rd_framePos r) (rd_pong r).

Definition reader_ok r : Prop :=
  match rd_header r with
  | None => ∃ w, holds w (rd_parser r) ∧ Zlen w < header_need w ∧ bytes_ok w
  | Some h => holds [] (rd_parser r) ∧ 0 <= rd_framePos r <= ws_GetPayloadLength h ∧ ws_GetPayloadLength h <= MaxFramePayload
      ∧ (rd_framePos r = ws_GetPayloadLength h → ws_GetPayloadLength h = 0) ∧ ping_ok h r
  end.

Lemma payload_length_range h : bytes_ok h → 0 <= ws_GetPayloadLength h < 2 ^ 64.
Proof.
  intros Hh. unfold ws_GetPayloadLength. rewrite get2_be, get8_be.
  pose proof (be_get_range 2 h 2 Hh). pose proof (be_get_range 8 h 2 Hh).
  pose proof (land_range (zget 1 h) 7 ltac:(lia)). change (Z.ones 7) with 127 in *. simpl Z.of_nat in *.
  repeat case_match; lia.
Qed.

Lemma bytes_ok_pad14 w : bytes_ok w → bytes_ok (pad14 w).
Proof. intros Hw. apply bytes_ok_app. split; [done|]. apply Forall_replicate. done. Qed.

Lemma holds_complete w p : holds w p → header_complete w = true → hp_header p = Some (pad14 w).
Proof. intros [[-> _]|[-> _]]; done. Qed.

Lemma holds_consumed p : holds [] (hp_ConsumeHeader p).2.
Proof. by left. Qed.

(** What a complete header does. *)
Lemma header_arrived_ok role h r :
  rd_header r = Some h → rd_framePos r = 0 → holds [] (rd_parser r) → bytes_ok h →
  ∃ r' es close, header_arrived role h r = Got (r', es, close) ∧ (close = false → reader_ok r' ∧ rd_header r' = Some h).
Proof.
  intros Hh Hp Hpa Hb. pose proof (payload_length_range h Hb) as Hl. unfold header_arrived.
  destruct (Z.ltb_spec MaxFramePayload (ws_GetPayloadLength h)) as [Hbig|Hbig]; [by eexists _, _, _|].
  destruct (_ && _); [by eexists _, _, _|].
  assert (ws_GetOpCode h ≠ Ping → reader_ok r) as Hok.
  { intros Hn. unfold reader_ok. rewrite Hh, Hp. split_and!; [done|lia|lia|done|lia|]. by intros ?. }
  destruct (ws_GetOpCode h) eqn:Ho; try (eexists _, _, _; split; [done|]; by auto).
  unfold MaxFramePayload in *. unfold to_dword. rewrite Z.mod_small by lia.
  destruct (new_Frame_holds true Pong (ws_GetPayloadLength h) (bool_decide (role = WsClient)) (random_key (rd_draws r)))
    as (f & -> & Hf & _); [apply random_key_length|apply random_key_bytes|lia|]. cbn [cbind].
  eexists _, _, _. split; [done|]. intros _. split; [|done]. unfold reader_ok. cbn [rd_header]. rewrite Hh.
  cbn [rd_parser rd_framePos]. rewrite Hp. unfold MaxFramePayload. split_and!; [done|lia|lia|done|lia|].
  intros _. eexists _, _, _, _. split_and!; [done|exact Hf|done].
Qed.

Lemma frame_ended_ok h r :
  (ws_GetOpCode h = Ping → is_Some (rd_pong r)) → holds [] (rd_parser r) →
  ∃ r' es, frame_ended h r = Got (r', es) ∧ reader_ok r' ∧ rd_header r' = None ∧ holds [] (rd_parser r').
Proof.
  intros Hp Hh. unfold frame_ended. destruct (ws_GetOpCode h); try destruct (Hp eq_refl) as [f ->];
  (eexists _, _; split; [done|]; split_and!; [|done|done]; exists []; split; [exact Hh|by split; [|constructor]]).
Qed.

Lemma tell_payload_ok h data pong pos :
  (ws_GetOpCode h = Ping → pong_ok (ws_GetPayloadLength h) pos pong) → pos + Zlen data <= ws_GetPayloadLength h →
  ∃ told, tell_payload h data pong = Got told ∧
    (ws_GetOpCode h = Ping → pong_ok (ws_GetPayloadLength h) (pos + Zlen data) told.1).
Proof.
  intros Hping Hl. unfold tell_payload. destruct (ws_GetOpCode h); try by eexists.
  destruct (Hping eq_refl) as (f & h' & m & d & -> & Hfh & Hdl).
  destruct (Append_holds _ _ _ _ _ data Hfh) as (f' & -> & Hf' & _); [lia|]. eexists. split; [done|]. intros _.
  eexists _, _, _, _. split_and!; [done|exact Hf'|]. rewrite Zlen_app. lia.
Qed.

(** Octets of a payload. *)
Lemma payload_arrived_ok h data r :
  rd_header r = Some h → reader_ok r → data ≠ [] →
  ∃ r' es n, payload_arrived h data r = Got (r', es, n) ∧ reader_ok r' ∧ n = Z.min (ws_GetPayloadLength h - rd_framePos r) (Zlen data)
    ∧ (rd_header r' = None ∨ (rd_header r' = Some h ∧ rd_framePos r' = rd_framePos r + n ∧ n = Zlen data)).
Proof.
  intros Hh Hr Hd. unfold reader_ok in Hr. rewrite Hh in Hr. destruct Hr as (Hpa & Hpos & Hmax & Hz & Hping).
  unfold payload_arrived. unfold MaxFramePayload in *.
  assert (to_qword (ws_GetPayloadLength h - rd_framePos r) = ws_GetPayloadLength h - rd_framePos r) as -> by (apply Z.mod_small; lia).
  set (n := Z.min _ _). set (raw := ztake n data). set (out := if ws_IsMasked h then _ else _).
  assert (0 < Zlen data) as Hd0 by (destruct data; [done|rewrite Zlen_cons; pose proof (Zlen_nonneg data); lia]).
  assert (Zlen out = n) as Hout.
  { assert (Zlen raw = n) by (apply Zlen_ztake; lia). unfold out. destruct (ws_IsMasked h); [by rewrite xor_mask_length|done]. }
  destruct (tell_payload_ok h out (rd_pong r) (rd_framePos r)) as (told & -> & Ht); [done|lia|]. rewrite Hout in Ht.
  cbn [cbind rd_framePos]. destruct (Z.eqb_spec (rd_framePos r + n) (ws_GetPayloadLength h)) as [He|He].
  - destruct (frame_ended_ok h (mkFrameReader (rd_parser r) (rd_header r) (rd_framePos r + n) told.1 (rd_draws r)))
      as (r' & es & -> & Hr' & Hn & _); [|done|].
    { intros Ho. destruct (Ht Ho) as (f & _ & _ & _ & Hf & _). cbn. rewrite Hf. done. }
    eexists _, _, _. split; [done|]. split_and!; [done|done|by left].
  - eexists _, _, _. split; [done|]. split_and!; [|done|right; split_and!; [done|done|lia]].
    unfold reader_ok. cbn [rd_header]. rewrite Hh. cbn. unfold MaxFramePayload. split_and!; [done|lia..|done].
Qed.

(** A round does not fault, takes an octet or comes to the end of an empty frame. *)
Lemma read_round_ok role data r :
  reader_ok r → data ≠ [] → bytes_ok data →
  ∃ r' es n close, read_round role data r = Got (r', es, n, close) ∧ 0 <= n <= Zlen data
    ∧ (close = false → reader_ok r')
    ∧ (0 < n ∨ (rd_header r ≠ None ∧ rd_header r' = None)).
Proof.
  intros Hr Hd Hb. assert (0 < Zlen data) as Hd0 by (destruct data; [done|rewrite Zlen_cons; pose proof (Zlen_nonneg data); lia]).
  unfold read_round. destruct (rd_header r) as [h|] eqn:Hh.
  - destruct (payload_arrived_ok h data r Hh Hr Hd) as (r' & es & n & -> & Hr' & Hn & Hc). cbn [cbind fst snd].
    unfold reader_ok in Hr. rewrite Hh in Hr. destruct Hr as (_ & Hpos & _ & Hz & _).
    eexists _, _, _, _. split; [done|]. split_and!; [lia|lia|done|].
    destruct Hc as [Hc|(_ & _ & Hc)]; [|lia]. destruct (decide (rd_framePos r = ws_GetPayloadLength h)); [by right|lia].
  - unfold reader_ok in Hr. rewrite Hh in Hr. destruct Hr as (w & Hw & Hneed & Hwb).
    destruct (hp_Parse_spec w data _ Hw Hneed) as (p' & -> & Hp'). cbn [cbind fst snd].
    set (v := w ++ data) in *. set (u := ztake (header_need v) v) in *.
    assert (bytes_ok u) as Hu by (apply bytes_ok_ztake, bytes_ok_app; done).
    pose proof (header_need_range v). pose proof (Zlen_nonneg w).
    assert (Zlen v = Zlen w + Zlen data) as Hv by apply Zlen_app.
    assert (Zlen u = Z.min (header_need v) (Zlen v)) as Hul by (apply Zlen_ztake_min; lia).
    assert (Zlen w < Zlen u) as Hlt.
    { rewrite Hul. destruct (decide (Zlen w < 2)); [lia|]. assert (header_need v = header_need w) by (apply header_need_app; lia). lia. }
    rewrite (holds_parsed _ _ Hp'). destruct (header_complete u) eqn:Hc.
    + unfold hp_ConsumeHeader. rewrite (holds_complete _ _ Hp' Hc).
      destruct (header_arrived_ok role (pad14 u) (mkFrameReader (mkHeaderParser None (hp_len p')) (Some (pad14 u)) 0 (rd_pong r) (rd_draws r)))
        as (r' & es & close & -> & Hok); [done|done|by left|by apply bytes_ok_pad14|]. cbn [cbind fst snd].
      eexists _, _, _, _. split; [done|]. split_and!; [lia|lia|intros ->; by apply Hok|left; lia].
    + eexists _, _, _, _. split; [done|]. split_and!; [lia|lia| |left; lia]. intros _. exists u. split_and!; [done| |done].
      destruct (decide (Zlen u < header_need u)) as [|Hge]; [done|]. exfalso.
      assert (header_need u = header_need v) as Hnu.
      { destruct (decide (2 <= Zlen u)) as [H2|H2].
        - rewrite <- (header_need_app u (zdrop (header_need v) v) H2). unfold u. by rewrite ztake_zdrop.
        - pose proof (header_need_range u). lia. }
      rewrite (proj2 (header_complete_spec u ltac:(lia)) ltac:(lia)) in Hc. done.
Qed.

(** ** The loop *)

Inductive reads (role : Role) : bytes → FrameReader → FrameReader → list ReadEffect → bool → Prop :=
  | reads_nil r : reads role [] r r [] false
  | reads_close data r r' es n : data ≠ [] → read_round role data r = Got (r', es, n, true) → reads role data r r' es true
  | reads_step data r r1 r2 es1 es2 n c :
      data ≠ [] → read_round role data r = Got (r1, es1, n, false) → reads role (zdrop n data) r1 r2 es2 c →
      reads role data r r2 (es1 ++ es2) c.

Definition in_frame r : nat := match rd_header r with Some _ => 1 | None => 0 end.

Lemma read_loop_ok role fuel data r :
  reader_ok r → bytes_ok data → (2 * length data + in_frame r <= fuel)%nat →
  ∃ r' es c, read_loop fuel role data r = Got (r', es, c) ∧ reads role data r r' es c ∧ (c = false → reader_ok r').
Proof.
  revert data r. induction fuel as [|fuel IH]; intros data r Hr Hb Hf.
  - destruct data; [|simpl in Hf; lia]. eexists _, _, _. split; [done|]. split; [constructor|done].
  - destruct data as [|x data']; [eexists _, _, _; split; [done|]; split; [constructor|done]|].
    set (data := x :: data') in *. assert (data ≠ []) as Hd by done.
    destruct (read_round_ok role data r Hr Hd Hb) as (r1 & es1 & n & close & He & Hn & Hr1 & Hm).
    cbn [read_loop]. unfold data at 1. fold data. rewrite He. cbn [cbind]. destruct close.
    { eexists _, _, _. split; [done|]. split; [by eapply reads_close|done]. }
    destruct (IH (zdrop n data) r1) as (r2 & es2 & c & -> & Hrd & Hr2); [by apply Hr1|by apply bytes_ok_zdrop| |].
    { unfold zdrop. rewrite length_drop. unfold Zlen, in_frame in *.
      destruct Hm as [Hm|[H1 H2]]; [|rewrite H2; destruct (rd_header r); [|done]]; repeat case_match; lia. }
    eexists _, _, _. split; [done|]. split; [by eapply reads_step|done].
Qed.

Lemma read_frames_ok role data r :
  reader_ok r → bytes_ok data →
  ∃ r' es c, read_frames role data r = Got (r', es, c) ∧ reads role data r r' es c ∧ (c = false → reader_ok r').
Proof. intros Hr Hb. apply read_loop_ok; [done..|]. unfold in_frame. case_match; lia. Qed.

Lemma reads_fun role data r r1 es1 c1 r2 es2 c2 :
  reads role data r r1 es1 c1 → reads role data r r2 es2 c2 → r1 = r2 ∧ es1 = es2 ∧ c1 = c2.
Proof.
  intros H. revert r2 es2 c2. induction H as [|? ? ? ? ? Hd He|? ? ? ? ? ? ? ? Hd He ? IH]; intros ra ea ca Hx;
    inversion Hx; subst; try done; try congruence.
  - split_and!; congruence.
  - rewrite He in *. simplify_eq. edestruct IH as (-> & -> & ->); done.
Qed.

(** The relation and the function agree. *)
Lemma reads_read_frames role data r r' es c :
  reader_ok r → bytes_ok data → reads role data r r' es c → read_frames role data r = Got (r', es, c).
Proof.
  intros Hr Hb H. destruct (read_frames_ok role data r Hr Hb) as (r1 & es1 & c1 & -> & H1 & _).
  destruct (reads_fun _ _ _ _ _ _ _ _ _ H H1) as (-> & -> & ->). done.
Qed.

(** ** Cutting the stream *)

Inductive Token := TOctet (o : Z) | TCall (e : WsCall) | TPong (f : WsFrame).

(** What the reader did, the octets of messages one by one. *)
Definition effect_tokens (e : ReadEffect) : list Token :=
  match e with
  | Tell (onMessageData d) => TOctet <$> d
  | Tell e => [TCall e]
  | PushPong f => [TPong f]
  end.
Definition effects_tokens (es : list ReadEffect) : list Token := mjoin (effect_tokens <$> es).

Lemma tokens_app es1 es2 : effects_tokens (es1 ++ es2) = effects_tokens es1 ++ effects_tokens es2.
Proof. unfold effects_tokens. by rewrite fmap_app, join_app. Qed.

Lemma frame_holds_unique f f' h m size data :
  frame_holds f h m size data → frame_holds f' h m size data → wf_masked f = wf_masked f' → f = f'.
Proof. intros [] [] Hm. destruct f, f'; simpl in *. congruence. Qed.

Lemma tell_payload_app h x y pong pos :
  (ws_GetOpCode h = Ping → pong_ok (ws_GetPayloadLength h) pos pong) → pos + Zlen x + Zlen y <= ws_GetPayloadLength h →
  ∃ p1 p2 e1 e2 e, tell_payload h x pong = Got (p1, e1) ∧ tell_payload h y p1 = Got (p2, e2)
    ∧ tell_payload h (x ++ y) pong = Got (p2, e) ∧ effects_tokens e = effects_tokens e1 ++ effects_tokens e2.
Proof.
  intros Hping Hl. unfold tell_payload. pose proof (Zlen_nonneg y).
  destruct (ws_GetOpCode h); try (eexists _, _, _, _, _; split_and!; [done|done|done|done]);
    try (eexists _, _, _, _, _; split_and!; [done|done|done|]; unfold effects_tokens; cbn; by rewrite !app_nil_r, fmap_app).
  destruct (Hping eq_refl) as (f & h' & m & d & -> & Hf & Hd).
  destruct (Append_holds _ _ _ _ _ x Hf) as (f1 & -> & Hf1 & Hm1); [lia|]. cbn [cbind fst].
  destruct (Append_holds _ _ _ _ _ y Hf1) as (f2 & H2 & Hf2 & Hm2); [rewrite Zlen_app; lia|].
  destruct (Append_holds _ _ _ _ _ (x ++ y) Hf) as (f3 & -> & Hf3 & Hm3); [rewrite Zlen_app; lia|].
  rewrite app_assoc in Hf3. assert (f3 = f2) as -> by (eapply frame_holds_unique; [done..|congruence]).
  eexists _, _, _, _, _. split; [done|]. cbn. rewrite H2. done.
Qed.

Lemma holds_nonempty w p : holds w p → w ≠ [] → p = mkHeaderParser (Some (pad14 w)) (Zlen w).
Proof. intros [[-> _]|(H1 & H2 & _)] Hw; [done|]. destruct p; simpl in *. congruence. Qed.

(** A header: either it ends in [a], or [a] is taken and the rest is as if it came alone. *)
Lemma header_round_app role a b r w r1 es n c :
  rd_header r = None → holds w (rd_parser r) → Zlen w < header_need w → a ≠ [] →
  read_round role a r = Got (r1, es, n, c) →
  read_round role (a ++ b) r = Got (r1, es, n, c) ∨
  (c = false ∧ es = [] ∧ n = Zlen a ∧
   read_round role (a ++ b) r = let? x := read_round role b r1 in Got (x.1.1.1, x.1.1.2, n + x.1.2, x.2)).
Proof.
  intros Hh Hw Hneed Ha. unfold read_round. rewrite Hh.
  destruct (hp_Parse_spec w a _ Hw Hneed) as (p1 & -> & Hp1). destruct (hp_Parse_spec w (a ++ b) _ Hw Hneed) as (p2 & -> & Hp2).
  cbn [cbind fst snd]. rewrite app_assoc in *. set (v := w ++ a) in *. pose proof (header_need_range v).
  assert (0 < Zlen v) as Hv0.
  { unfold v. rewrite Zlen_app. pose proof (Zlen_nonneg w). destruct a; [done|]. rewrite Zlen_cons. pose proof (Zlen_nonneg a). lia. }
  assert (∀ n, 1 <= n → ∀ x, ztake n (v ++ x) ≠ []) as Hne.
  { intros k Hk x He. apply (f_equal Zlen) in He. rewrite Zlen_ztake_min, Zlen_app, Zlen_nil in He by lia. pose proof (Zlen_nonneg x). lia. }
  rewrite (holds_parsed _ _ Hp1), (holds_parsed _ _ Hp2).
  destruct (header_complete (ztake (header_need v) v)) eqn:Hc.
  - intros He. left. assert (2 <= header_need v <= Zlen v) as Hn.
    { unfold header_complete in Hc. rewrite Zlen_ztake_min in Hc by lia. ztests.
      destruct (decide (header_need v <= Zlen v)); [lia|]. rewrite ztake_all in * by lia.
      unfold header_need in *. rewrite (proj2 (Z.ltb_ge _ _)) in * by lia. lia. }
    assert (ztake (header_need (v ++ b)) (v ++ b) = ztake (header_need v) v) as Hu.
    { rewrite header_need_app by lia. unfold ztake. rewrite take_app_le; [done|]. unfold Zlen in *. lia. }
    rewrite Hu in *. rewrite Hc. assert (ztake (header_need v) v ≠ []) as Hn0.
    { specialize (Hne (header_need v) ltac:(lia) []). by rewrite app_nil_r in Hne. }
    pose proof (holds_nonempty _ _ Hp2 Hn0) as ->. pose proof (holds_nonempty _ _ Hp1 Hn0) as ->. done.
  - intros [= <- <- <- <-]. right. assert (ztake (header_need v) v = v ∧ Zlen v < header_need v) as [Hv Hlt].
    { destruct (decide (Zlen v < header_need v)) as [Hlt|Hge]; [split; [apply ztake_all; lia|done]|]. exfalso.
      assert (Zlen (ztake (header_need v) v) = header_need v) as Hl by (rewrite Zlen_ztake_min; lia).
      assert (header_need (ztake (header_need v) v) = header_need v) as Hn.
      { rewrite <- (header_need_app _ (zdrop (header_need v) v)) by lia. by rewrite ztake_zdrop. }
      rewrite (proj2 (header_complete_spec (ztake (header_need v) v) ltac:(lia)) ltac:(lia)) in Hc. done. }
    rewrite Hv in *. split_and!; [done|done|unfold v; rewrite Zlen_app; lia|]. cbn [rd_header rd_parser rd_pong rd_draws rd_framePos].
    destruct (hp_Parse_spec v b p1 Hp1 Hlt) as (p3 & -> & Hp3). cbn [cbind fst snd].
    assert (p3 = p2) as ->.
    { rewrite (holds_nonempty _ _ Hp2), (holds_nonempty _ _ Hp3); [done|apply Hne..]; pose proof (header_need_range (v ++ b)); lia. }
    rewrite (holds_parsed _ _ Hp2). destruct (header_complete (ztake (header_need (v ++ b)) (v ++ b))) eqn:Hc2.
    + unfold hp_ConsumeHeader. rewrite (holds_complete _ _ Hp2 Hc2). destruct (header_arrived _ _ _) as [| |x]; cbn; [done..|]. do 3 f_equal. lia.
    + cbn. do 3 f_equal. lia.
Qed.

(** The octets of a payload, in two parts. *)
Lemma payload_round_app role a b r h r1 es n c :
  rd_header r = Some h → reader_ok r → a ≠ [] → b ≠ [] →
  read_round role a r = Got (r1, es, n, c) →
  read_round role (a ++ b) r = Got (r1, es, n, c) ∨
  (c = false ∧ n = Zlen a ∧ ∃ r2 e2 e m, read_round role b r1 = Got (r2, e2, m, false)
    ∧ read_round role (a ++ b) r = Got (r2, e, n + m, false) ∧ effects_tokens e = effects_tokens es ++ effects_tokens e2).
Proof.
  intros Hh Hr Ha Hb. unfold read_round. rewrite Hh. pose proof Hr as Hr0. unfold reader_ok in Hr0. rewrite Hh in Hr0.
  destruct Hr0 as (Hpa & Hpos & Hmax & Hz & Hping). pose proof (Zlen_nonneg b). pose proof (Zlen_nonneg a).
  set (L := ws_GetPayloadLength h - rd_framePos r).
  assert (∀ k, 0 <= k <= L → to_qword k = k) as Hq by (intros; apply Z.mod_small; unfold L, MaxFramePayload in *; lia).
  destruct (decide (L <= Zlen a)) as [Hle|Hgt].
  - intros He. left. revert He. unfold payload_arrived. fold L. rewrite Hq by lia.
    rewrite !Z.min_l by (rewrite ?Zlen_app; lia).
    assert (ztake L (a ++ b) = ztake L a) as -> by (unfold ztake; rewrite take_app_le; [done|unfold Zlen in *; lia]). done.
  - unfold payload_arrived. fold L. rewrite Hq by lia. rewrite (Z.min_r L (Zlen a)), (ztake_all (Zlen a)) by lia.
    set (k := Z.min (L - Zlen a) (Zlen b)).
    assert (Z.min L (Zlen (a ++ b)) = Zlen a + k) as -> by (rewrite Zlen_app; lia).
    assert (ztake (Zlen a + k) (a ++ b) = a ++ ztake k b) as ->.
    { rewrite ztake_app_ge by lia. do 2 f_equal. lia. }
    set (key := put4 (ws_GetMask h)). set (x := if ws_IsMasked h then xor_mask key (rd_framePos r) a else a).
    set (y := if ws_IsMasked h then xor_mask key (rd_framePos r + Zlen a) (ztake k b) else ztake k b).
    replace (if ws_IsMasked h then _ else _) with (x ++ y) by (unfold x, y; destruct (ws_IsMasked h); [by rewrite xor_mask_app|done]).
    assert (Zlen x = Zlen a) as Hx by (unfold x; destruct (ws_IsMasked h); [apply xor_mask_length|done]).
    assert (Zlen y = k) as Hy.
    { assert (Zlen (ztake k b) = k) by (apply Zlen_ztake; lia). unfold y. destruct (ws_IsMasked h); [by rewrite xor_mask_length|done]. }
    destruct (tell_payload_app h x y (rd_pong r) (rd_framePos r)) as (p1 & p2 & e1 & e2 & e & -> & H2 & -> & He); [done|lia|].
    cbn [cbind fst snd rd_framePos]. rewrite (proj2 (Z.eqb_neq _ _)) by lia. intros [= <- <- <- <-]. right. split; [done|]. split; [done|].
    cbn [rd_header rd_framePos rd_pong rd_parser rd_draws].
    rewrite Hh. replace (ws_GetPayloadLength h - (rd_framePos r + Zlen a)) with (L - Zlen a) by (unfold L; lia). rewrite Hq by lia. fold k. fold key. fold y.
    rewrite H2. cbn [cbind fst snd rd_framePos]. rewrite Z.add_assoc.
    destruct (Z.eqb_spec (rd_framePos r + Zlen a + k) (ws_GetPayloadLength h)) as [Hend|].
    + assert (ws_GetOpCode h = Ping → is_Some p2) as Hpong.
      { intros Ho. unfold tell_payload in H2. rewrite Ho in H2. destruct p1; [|done]. by destruct (wf_Append _ _); simplify_eq/=. }
      destruct (frame_ended_ok h (mkFrameReader (rd_parser r) (Some h) (rd_framePos r + Zlen a + k) p2 (rd_draws r)) Hpong Hpa)
        as (r' & es' & -> & _). cbn [cbind fst snd].
      eexists _, _, _, _. split; [done|]. split; [done|]. by rewrite !tokens_app, He, app_assoc.
    + eexists _, _, _, _. split; [done|]. split; done.
Qed.

Lemma read_round_app role a b r r1 es n c :
  reader_ok r → a ≠ [] → b ≠ [] → read_round role a r = Got (r1, es, n, c) →
  read_round role (a ++ b) r = Got (r1, es, n, c) ∨
  (c = false ∧ n = Zlen a ∧ ∀ r2 e2 m c2, read_round role b r1 = Got (r2, e2, m, c2) →
    ∃ e, read_round role (a ++ b) r = Got (r2, e, n + m, c2) ∧ effects_tokens e = effects_tokens es ++ effects_tokens e2).
Proof.
  intros Hr Ha Hb He. destruct (rd_header r) as [h|] eqn:Hh.
  - destruct (payload_round_app role a b r h r1 es n c) as [|(-> & -> & r2 & e2 & e & m & H1 & H2 & H3)]; [done..|by left|].
    right. split_and!; [done..|]. rewrite H1. intros ? ? ? ? [= <- <- <- <-]. by eexists.
  - pose proof Hr as Hr0. unfold reader_ok in Hr0. rewrite Hh in Hr0. destruct Hr0 as (w & Hw & Hn & _).
    destruct (header_round_app role a b r w r1 es n c) as [|(-> & -> & -> & H1)]; [done..|by left|].
    right. split_and!; [done..|]. intros r2 e2 m c2 H2. rewrite H1, H2. by eexists.
Qed.

Lemma read_round_keeps role data r r1 es n :
  reader_ok r → data ≠ [] → bytes_ok data → read_round role data r = Got (r1, es, n, false) → reader_ok r1 ∧ 0 <= n <= Zlen data.
Proof.
  intros Hr Hd Hb He. destruct (read_round_ok role data r Hr Hd Hb) as (? & ? & ? & ? & He' & Hn & Hk & _).
  rewrite He in He'. simplify_eq. auto.
Qed.

(** Reading [a] and then [b] is reading both, but for the pieces in which octets are handed over. *)
Lemma ws_reads_app role a b r r1 es1 c1 :
  reads role a r r1 es1 c1 → reader_ok r → bytes_ok a → bytes_ok b → b ≠ [] →
  (c1 = true → reads role (a ++ b) r r1 es1 true) ∧
  (∀ r2 es2 c2, c1 = false → reads role b r1 r2 es2 c2 →
    ∃ es, reads role (a ++ b) r r2 es c2 ∧ effects_tokens es = effects_tokens es1 ++ effects_tokens es2).
Proof.
  intros H Hr Hb Hbb Hne. induction H as [r|a r r1 es n Hd He|a r r0 r1 es0 es1 n c Hd He Hrest IH].
  - split; [done|]. intros r2 es2 c2 _ H2. by exists es2.
  - split; [|done]. intros _. destruct (read_round_app role a b r r1 es n true) as [H1|[? _]]; [done..| |done].
    eapply reads_close; [by destruct a|done].
  - destruct (read_round_keeps role a r r0 es0 n) as [Hr0 Hn]; [done..|].
    destruct (read_round_app role a b r r0 es0 n false) as [H1|(_ & -> & H1)]; [done..| |].
    + assert (zdrop n (a ++ b) = zdrop n a ++ b) as Hz.
      { unfold zdrop. apply drop_app_le. unfold Zlen in *. lia. }
      destruct IH as [IH1 IH2]; [done|by apply bytes_ok_zdrop|]. rewrite <- Hz in *. split.
      * intros ->. eapply reads_step; [by destruct a|done|by apply IH1].
      * intros r2 es2 c2 -> H2. destruct (IH2 r2 es2 c2 eq_refl H2) as (es & H3 & H4).
        eexists. split; [by eapply reads_step; [destruct a| |]|]. by rewrite !tokens_app, H4, app_assoc.
    + assert (zdrop (Zlen a) a = []) as Hz by (unfold zdrop; apply drop_ge; unfold Zlen; lia). rewrite Hz in Hrest.
      inversion Hrest; subst; [|done..]. split; [done|]. intros r2 es2 c2 _ H2.
      assert (∀ m, 0 <= m → zdrop (Zlen a + m) (a ++ b) = zdrop m b) as Hz'.
      { intros m Hm. rewrite <- zdrop_zdrop by (done || apply Zlen_nonneg). by rewrite zdrop_app. }
      rewrite app_nil_r. inversion H2 as [|? ? ? ? m Hb' H3|? ? r3 ? e3 e4 m ? Hb' H3 H4]; subst; [done|..].
      * destruct (H1 _ _ _ _ H3) as (e & H5 & H6). exists e. split; [eapply reads_close; [by destruct a|done]|done].
      * destruct (H1 _ _ _ _ H3) as (e & H5 & H6). exists (e ++ e4). split; [|by rewrite !tokens_app, H6, app_assoc].
        destruct (read_round_keeps role b r1 r3 e3 m) as [_ Hm]; [done..|].
        eapply reads_step; [by destruct a|done|]. by rewrite Hz' by lia.
Qed.

(** The segments one by one, until the reader asks to close. *)
Fixpoint read_segments (role : Role) (segs : list bytes) r : checked (FrameReader * list ReadEffect * bool) :=
  match segs with
  | [] => Got (r, [], false)
  | s :: segs =>
      let? x := read_frames role s r in
      if x.2 then Got x else
      let? y := read_segments role segs x.1.1 in Got (y.1.1, x.1.2 ++ y.1.2, y.2)
  end.

Lemma read_segments_ok role segs r :
  reader_ok r → Forall bytes_ok segs →
  ∃ r' es es' c, read_segments role segs r = Got (r', es, c) ∧ read_frames role (mjoin segs) r = Got (r', es', c)
    ∧ effects_tokens es = effects_tokens es' ∧ (c = false → reader_ok r').
Proof.
  intros Hr Hs. revert r Hr. induction Hs as [|s segs Hb Hs IH]; intros r Hr; [by eexists _, _, _, _|].
  destruct (read_frames_ok role s r Hr Hb) as (r1 & es1 & c1 & H1 & Hrd1 & Hr1).
  cbn [read_segments]. rewrite H1. cbn [cbind fst snd]. change (mjoin (s :: segs)) with (s ++ mjoin segs).
  assert (bytes_ok (mjoin segs)) as Hbs by (apply Forall_join, Hs).
  assert (bytes_ok (s ++ mjoin segs)) as Hball by (by apply bytes_ok_app).
  destruct (decide (mjoin segs = [])) as [He|He].
  - rewrite He, app_nil_r. destruct c1; [eexists _, _, _, _; split_and!; done|].
    destruct (IH r1) as (r' & es & es' & c & -> & H2 & H3 & H4); [by apply Hr1|]. rewrite He in H2.
    assert (read_frames role [] r1 = Got (r1, [], false)) as H5 by done. rewrite H5 in H2. simplify_eq. cbn [cbind fst snd].
    eexists _, _, _, _. split; [done|]. split; [done|]. split; [|auto]. rewrite tokens_app, H3. by rewrite app_nil_r.
  - destruct (ws_reads_app role s (mjoin segs) r r1 es1 c1) as [Ha Hc]; [done..|]. destruct c1.
    { eexists _, _, _, _. split; [done|]. split; [|done]. apply reads_read_frames; auto. }
    destruct (IH r1) as (r' & es & es' & c & -> & H2 & H3 & H4); [by apply Hr1|]. cbn [cbind fst snd].
    destruct (read_frames_ok role (mjoin segs) r1) as (r2 & es2 & c2 & H5 & Hrd2 & _); [by apply Hr1|done|].
    rewrite H5 in H2. simplify_eq. destruct (Hc _ _ _ eq_refl Hrd2) as (e & He1 & He2).
    eexists _, _, _, _. split; [done|]. split; [by apply reads_read_frames|]. split; [|done].
    by rewrite tokens_app, H3, He2.
Qed.

(** ** What a frame does *)

(** Between two frames. *)
Definition at_rest r : Prop := rd_header r = None ∧ holds [] (rd_parser r).

Lemma at_rest_ok r : at_rest r → reader_ok r.
Proof. intros [H1 H2]. unfold reader_ok. rewrite H1. exists []. split; [done|]. by split; [|constructor]. Qed.

(** The payload of a frame with header [h], as it is on the wire, in clear. *)
Definition clear_payload (h raw : bytes) : bytes := if ws_IsMasked h then xor_mask (put4 (ws_GetMask h)) 0 raw else raw.

(** What a data frame tells. *)
Definition data_tokens (h raw : bytes) : list Token :=
  match ws_GetOpCode h with
  | TextFrame => [TCall (onMessageStart Text (Zlen raw))]
  | BinaryFrame => [TCall (onMessageStart Binary (Zlen raw))]
  | _ => []
  end ++ (TOctet <$> clear_payload h raw) ++ (if ws_IsFin h then [TCall onMessageEnd] else []).

Definition is_data (o : OpCode) : bool := match o with ContinuationFrame | TextFrame | BinaryFrame => true | _ => false end.

(** A data frame that is not empty is told from its first octet to its last. *)
Lemma data_frame_read role h fin o len mask raw r :
  at_rest r → header_says h fin o len mask → bytes_ok h → bytes_ok raw →
  Zlen raw = len → 0 < len <= MaxFramePayload → is_data o = true → (role = WsClient → mask = 0) →
  ∃ r' es, reads role (header_octets h ++ raw) r r' es false ∧ effects_tokens es = data_tokens h raw
    ∧ at_rest r' ∧ rd_draws r' = rd_draws r ∧ rd_pong r' = rd_pong r.
Proof.
  intros [Hn Hp] Hh Hb Hbr Hraw Hlen Ho Hm. pose proof (ws_GetSize_range h) as Hsz.
  pose proof (header_octets_length h (hs_length _ _ _ _ _ Hh)) as Hol. set (w := header_octets h) in *.
  assert (pad14 w = h) as Hpad by (by eapply pad14_header_octets).
  assert (ws_GetSize w = ws_GetSize h) as Hgs by (by rewrite <- ws_GetSize_pad, Hpad).
  assert (header_need w = Zlen w) as Hneed by (unfold header_need; rewrite (proj2 (Z.ltb_ge _ _)) by lia; lia).
  assert (header_complete w = true) as Hc by (apply header_complete_spec; lia).
  destruct (hp_Parse_spec [] (w ++ raw) _ Hp) as (p & Hp1 & Hp2); [done|]. rewrite app_nil_l, header_need_app, Hneed, ztake_app in * by lia || done.
  set (r1 := mkFrameReader (mkHeaderParser None (hp_len p)) (Some h) 0 (rd_pong r) (rd_draws r)).
  set (start := match o with TextFrame => [Tell (onMessageStart Text len)] | BinaryFrame => [Tell (onMessageStart Binary len)] | _ => [] end).
  assert (read_round role (w ++ raw) r = Got (r1, start, Zlen w, false)) as Hround1.
  { unfold read_round. rewrite Hn, Hp1. cbn [cbind fst snd]. rewrite (holds_parsed _ _ Hp2), Hc. unfold hp_ConsumeHeader.
    rewrite (holds_complete _ _ Hp2 Hc), Hpad. unfold header_arrived.
    rewrite (hs_payload _ _ _ _ _ Hh), (hs_masked _ _ _ _ _ Hh), (hs_op _ _ _ _ _ Hh), (proj2 (Z.ltb_ge _ _)) by lia.
    assert (bool_decide (role = WsClient) && negb (mask =? 0) = false) as ->.
    { destruct (bool_decide_reflect (role = WsClient)); [|done]. by rewrite Hm. }
    assert (to_dword len = len) as -> by (apply Z.mod_small; unfold MaxFramePayload in *; lia).
    destruct o; try done; unfold start; cbn [cbind fst snd]; do 3 f_equal; rewrite Zlen_nil; lia. }
  set (out := clear_payload h raw).
  set (r2 := mkFrameReader (mkHeaderParser None (hp_len p)) None len (rd_pong r) (rd_draws r)).
  set (fin_ := if fin then [Tell onMessageEnd] else []).
  assert (read_round role raw r1 = Got (r2, [Tell (onMessageData out)] ++ fin_, len, false)) as Hround2.
  { unfold read_round, r1. cbn [rd_header]. unfold payload_arrived. cbn [rd_framePos rd_pong rd_parser rd_header rd_draws].
    rewrite (hs_payload _ _ _ _ _ Hh), Z.sub_0_r. assert (to_qword len = len) as -> by (apply Z.mod_small; unfold MaxFramePayload in *; lia).
    rewrite Z.min_l, ztake_all by lia. fold (clear_payload h raw). fold out. unfold tell_payload, frame_ended.
    rewrite (hs_op _ _ _ _ _ Hh), (hs_fin _ _ _ _ _ Hh). rewrite Z.add_0_l. destruct o; try done; cbn; by rewrite Z.eqb_refl. }
  exists r2. eexists. split.
  - eapply reads_step; [|exact Hround1|]. { intros E. apply (f_equal Zlen) in E. rewrite Zlen_app, Zlen_nil in E. lia. }
    rewrite zdrop_app by done. eapply reads_step; [|exact Hround2|]. { intros ->. by rewrite Zlen_nil in *; lia. }
    replace (zdrop len raw) with (@nil Z); [constructor|]. symmetry. apply drop_ge. unfold Zlen in *. lia.
  - split_and!; [|split; [done|by left]|done|done].
    rewrite app_nil_r, !tokens_app. unfold data_tokens. rewrite (hs_op _ _ _ _ _ Hh), (hs_fin _ _ _ _ _ Hh), Hraw. fold out.
    unfold start, fin_. destruct o; try done; destruct fin; unfold effects_tokens; cbn; by rewrite ?app_nil_r.
Qed.
End Read.
