(* ===== verification/WebSocketClaims.v ===== *)
(** * WebSocket connections: what they guarantee

    What [ws_SendMessage] queues, what [OnWritable] does with it, and what the frames of a message make
    the reader at the other end tell.

    Messages sent on one end of a connection are told at the other end, whatever the network does
    to the segments ([websocket_messages_arrive], [segments_are_immaterial]).  The file ends with runs in which the code does not do what it says. *)

From S2P Require Import Prelude Wire Octets HttpParse WebSocketFrame WebSocket WebSocketRead IpAddress.

(** ** Octets *)

Lemma lxor_byte a b : is_byte a → is_byte b → is_byte (Z.lxor a b).
Proof. by apply (lxor_range 8). Qed.

Lemma xor_mask_bytes m p d : bytes_ok m → bytes_ok d → bytes_ok (xor_mask m p d).
Proof.
  intros Hm Hd. apply Forall_lookup_2. intros i x. unfold xor_mask. rewrite list_lookup_imap.
  destruct (d !! i) as [o|] eqn:E; [|done]. intros [= <-]. apply lxor_byte; [by eapply Forall_lookup_1|by apply bytes_ok_zget].
Qed.

Section Send.
Context {W : WireOps} {V : MoreWireOps} {HN : NetworkOrder W V} {K : WsCrypto} {HK : WsCryptoLaws K}.

Lemma put4_get4 m : Zlen m = 4 → bytes_ok m → put4 (get4 m 0) = m.
Proof.
  intros Hl Hb. unfold put4. rewrite set4_be, get4_be. destruct m as [|a [|b [|c [|d [|]]]]]; try done; [|unfold Zlen in Hl; simpl in Hl; lia].
  unfold bytes_ok in Hb. rewrite !Forall_cons in Hb. destruct Hb as (Ha & Hb & Hc & Hd & _). unfold is_byte in *.
  change (be_get 4 [a; b; c; d] 0) with (((a * 256 + b) * 256 + c) * 256 + d). set (v := _ + d).
  change (be_put 4 [0; 0; 0; 0] 0 v) with [to_byte (v / 256 / 256 / 256); to_byte (v / 256 / 256); to_byte (v / 256); to_byte v].
  unfold to_byte, v. repeat f_equal; Z.to_euclidean_division_equations; lia.
Qed.

Lemma new_header_bytes fin o len mask : bytes_ok (new_header fin o len mask).
Proof.
  assert (∀ i v d, bytes_ok d → bytes_ok (set_octet i v d)) as Hs.
  { intros. apply Forall_insert; [done|apply to_byte_range]. }
  assert (bytes_ok (ws_SetPayloadLength len (ws_SetOpCode o (ws_SetFin fin zero_header)))) as Hp.
  { unfold ws_SetPayloadLength, ws_SetOpCode, ws_SetFin. rewrite set2_be, set8_be. assert (bytes_ok zero_header) by (by apply Forall_replicate).
    repeat case_match; auto using be_put_bytes. }
  unfold new_header, ws_SetMask. rewrite set4_be. case_match; auto using be_put_bytes.
Qed.

(** ** What the octets of frames carry *)

Definition is_start (o : OpCode) (len : Z) : list Token :=
  match o with
  | TextFrame => [TCall (onMessageStart Text len)]
  | BinaryFrame => [TCall (onMessageStart Binary len)]
  | _ => []
  end.

Definition frame_tokens (fin : bool) (o : OpCode) (data : bytes) : list Token :=
  is_start o (Zlen data) ++ (TOctet <$> data) ++ (if fin then [TCall onMessageEnd] else []).

(** A reader between two frames that gets [w] tells [ts] and is between two frames. *)
Definition carries (role : Role) (w : bytes) (ts : list Token) : Prop :=
  bytes_ok w ∧ ∀ r, at_rest r → ∃ r' es, reads role w r r' es false ∧ effects_tokens es = ts ∧ at_rest r'.

Lemma carries_nil role : carries role [] [].
Proof. split; [constructor|]. intros r Hr. exists r, []. split; [constructor|done]. Qed.

Lemma carries_app role w1 t1 w2 t2 : carries role w1 t1 → carries role w2 t2 → carries role (w1 ++ w2) (t1 ++ t2).
Proof.
  intros [Hb1 H1] [Hb2 H2]. split; [by apply bytes_ok_app|]. intros r Hr.
  destruct (H1 r Hr) as (r1 & es1 & Hr1 & <- & Ha1). destruct (H2 r1 Ha1) as (r2 & es2 & Hr2 & <- & Ha2).
  destruct (decide (w2 = [])) as [-> |Hne].
  - inversion Hr2; subst; [|done..]. rewrite !app_nil_r. eauto.
  - destruct (ws_reads_app role w1 w2 r r1 es1 false) as [_ Hx]; [done|by apply at_rest_ok|done..|].
    destruct (Hx _ _ _ eq_refl Hr2) as (es & He1 & He2). by exists r2, es.
Qed.

(** A data frame carries its message, or its part of it. *)
Lemma frame_carries role fin o data masked key :
  Zlen key = 4 → bytes_ok key → bytes_ok data → 0 < Zlen data <= MaxFramePayload → is_data o = true →
  (role = WsClient → masked = false) →
  ∃ f, new_Frame fin o (Some data) (Zlen data) masked key = Got f ∧ carries role (wf_octets f) (frame_tokens fin o data).
Proof.
  intros Hk Hbk Hb Hl Ho Hm. destruct (new_Frame_octets fin o data masked key Hk Hbk) as (f & Hf & Hw & Hh); [unfold MaxFramePayload in *; lia|].
  destruct (frame_mask_ok masked key Hk Hbk) as (Hm4 & Hmb & _ & Hmz). set (mask := frame_mask masked key) in *.
  set (h := new_header _ _ _ _) in *. set (raw := payload_octets masked mask data) in *.
  assert (bytes_ok h) as Hbh by apply new_header_bytes.
  assert (bytes_ok raw) as Hbr by (unfold raw, payload_octets; destruct masked; [by apply xor_mask_bytes|done]).
  assert (Zlen raw = Zlen data) as Hlr by apply payload_octets_length.
  assert (clear_payload h raw = data) as Hclear.
  { unfold clear_payload. rewrite (hs_masked _ _ _ _ _ Hh), (hs_mask _ _ _ _ _ Hh). unfold raw, payload_octets. destruct masked; [|done].
    rewrite (proj2 (Z.eqb_neq _ _)) by (by apply Hmz). cbn [negb]. rewrite put4_get4 by done. apply xor_mask_twice. }
  exists f. split; [done|]. rewrite Hw. split; [apply bytes_ok_app; split; [by apply bytes_ok_ztake|done]|]. intros r Hr.
  destruct (data_frame_read role h fin o (Zlen data) (if masked then get4 mask 0 else 0) raw r)
    as (r' & es & Hrd & Ht & Hr' & _); [done..|by intros Hc; rewrite Hm|].
  exists r', es. split; [done|]. split; [|done]. rewrite Ht. unfold data_tokens, frame_tokens, is_start.
  by rewrite (hs_op _ _ _ _ _ Hh), (hs_fin _ _ _ _ _ Hh), Hclear, Hlr.
Qed.

(** ** Messages *)

Inductive Message := MText (data : bytes) | MBinary (data : bytes).

Definition message_ok (m : Message) : Prop :=
  match m with
  | MText d => bytes_ok d ∧ 0 < Zlen d <= MaxFramePayload
  | MBinary d => bytes_ok d ∧ 0 < Zlen d < 2 ^ 32
  end.

(** What the listener is told of a message; the length announced is that of the first frame. *)
Definition message_tokens (m : Message) : list Token :=
  match m with
  | MText d => [TCall (onMessageStart Text (Zlen d))] ++ (TOctet <$> d) ++ [TCall onMessageEnd]
  | MBinary d => [TCall (onMessageStart Binary (Z.min (Zlen d) 1300))] ++ (TOctet <$> d) ++ [TCall onMessageEnd]
  end.

Definition peer (role : Role) : Role := match role with WsServer => WsClient | WsClient => WsServer end.

Definition frames_wire (fs : list WsFrame) : bytes := mjoin (wf_octets <$> fs).

Lemma frames_wire_app fs gs : frames_wire (fs ++ gs) = frames_wire fs ++ frames_wire gs.
Proof. unfold frames_wire. by rewrite fmap_app, join_app. Qed.

Context {T P : Type} {X : WsTransport T} {H : HttpParser P}.
Implicit Types (c : WsConn T P).

Definition send (m : Message) c : checked (WsConn T P) :=
  match m with MText d => ws_SendMessage d c | MBinary d => SendBinary d c end.

(** From [c] to [c'] the frames [fs] were queued, and nothing else but keys drawn and wake-ups. *)
Record sends (c c' : WsConn T P) (fs : list WsFrame) : Prop := {
  sn_role : ws_role c' = ws_role c;
  sn_transport : ws_transport c' = ws_transport c;
  sn_client : ws_client c' = ws_client c;
  sn_response : ou_response (ws_output c') = ou_response (ws_output c);
  sn_queued : ou_closeFrameQueued (ws_output c') = ou_closeFrameQueued (ws_output c);
  sn_frames : ou_frames (ws_output c') = ou_frames (ws_output c) ++ fs;
}.

Lemma sends_refl c : sends c c [].
Proof. split; [done..|]. by rewrite app_nil_r. Qed.

Lemma sends_trans c1 c2 c3 fs gs : sends c1 c2 fs → sends c2 c3 gs → sends c1 c3 (fs ++ gs).
Proof. intros [] []. split; try congruence. by rewrite app_assoc; congruence. Qed.

Lemma sends_called e c c' fs : sends c c' fs → sends c (ws_called e c') fs.
Proof. by intros []. Qed.

Lemma push_sends f c : sends c (with_output (push_frame f) (draw c)) [f].
Proof. unfold draw. by destruct (IsClient c). Qed.

Lemma peer_unmasked c : peer (ws_role c) = WsClient → IsClient c = false.
Proof. unfold IsClient. by destruct (ws_role c). Qed.

(** A frame of a connection is read by its peer. *)
Lemma conn_frame_carries fin o data c :
  bytes_ok data → 0 < Zlen data <= MaxFramePayload → is_data o = true →
  ∃ f, new_Frame fin o (Some data) (Zlen data) (IsClient c) (next_key c) = Got f
    ∧ carries (peer (ws_role c)) (wf_octets f) (frame_tokens fin o data).
Proof.
  intros. apply frame_carries; [apply random_key_length|apply random_key_bytes|done..|apply peer_unmasked].
Qed.

Lemma carries_frame role f ts : carries role (wf_octets f) ts → carries role (frames_wire [f]) ts.
Proof. unfold frames_wire. cbn. by rewrite app_nil_r. Qed.

Lemma send_frames_ok fuel o data c :
  (length data <= fuel)%nat → bytes_ok data → 0 < Zlen data → is_data o = true →
  ∃ c' fs, send_frames fuel o data c = Got c' ∧ sends c c' fs
    ∧ carries (peer (ws_role c)) (frames_wire fs) (is_start o (Z.min (Zlen data) 1300) ++ (TOctet <$> data) ++ [TCall onMessageEnd]).
Proof.
  revert o data c. induction fuel as [|fuel IH]; intros o data c Hf Hb Hl Ho; [unfold Zlen in Hl; lia|]. cbn [send_frames].
  assert ((if 1300 <? Zlen data then 1300 else Zlen data) = Z.min (Zlen data) 1300) as -> by (rewrite min_if; lia).
  set (n := Z.min (Zlen data) 1300). assert (Zlen (ztake n data) = n) as Hn by (apply Zlen_ztake; lia).
  destruct (conn_frame_carries (n =? Zlen data) o (ztake n data) c) as (f & Hnew & Hc);
    [by apply bytes_ok_ztake|unfold MaxFramePayload; lia|done|]. rewrite Hn in Hnew. rewrite Hnew. cbn [cbind].
  unfold frame_tokens in Hc. rewrite Hn in Hc. apply carries_frame in Hc. pose proof (push_sends f c) as Hp.
  destruct (Z.eqb_spec n (Zlen data)) as [He|He].
  - eexists _, _. split; [done|]. split; [exact Hp|]. by rewrite ztake_all in Hc by lia.
  - destruct (IH ContinuationFrame (zdrop n data) (with_output (push_frame f) (draw c))) as (c' & fs & -> & Hs & Hcs);
      [unfold zdrop; rewrite length_drop; unfold Zlen in *; lia|by apply bytes_ok_zdrop|rewrite Zlen_zdrop; lia|done|].
    eexists _, _. split; [done|]. split; [by eapply sends_trans|]. rewrite frames_wire_app. rewrite (sn_role _ _ _ Hp) in Hcs.
    pose proof (carries_app _ _ _ _ _ Hc Hcs) as Hall. cbn [is_start] in Hall. rewrite app_nil_r, <- app_assoc in Hall.
    by rewrite app_nil_l, (app_assoc (TOctet <$> _)), <- fmap_app, ztake_zdrop in Hall.
Qed.

(** Sending a message queues frames that carry it. *)
Lemma send_ok m c :
  message_ok m → ou_closeFrameQueued (ws_output c) = false →
  ∃ c' fs, send m c = Got c' ∧ sends c c' fs ∧ carries (peer (ws_role c)) (frames_wire fs) (message_tokens m).
Proof.
  intros Hm Hq. destruct m as [d|d]; destruct Hm as [Hb Hl]; cbn [send].
  - unfold ws_SendMessage. destruct (conn_frame_carries true TextFrame d c) as (f & -> & Hc); [done..|]. cbn [cbind].
    assert (ou_closeFrameQueued (ws_output (draw c)) = false) as -> by (unfold draw; by destruct (IsClient c)).
    eexists _, [f]. split; [done|]. split; [apply sends_called, push_sends|by apply carries_frame].
  - unfold SendBinary. rewrite (proj2 (Z.eqb_neq _ _)), Hq by lia.
    destruct (send_frames_ok (length d) BinaryFrame d c) as (c' & fs & -> & Hs & Hc); [done|done|lia|done|]. cbn [cbind].
    eexists _, fs. split; [done|]. split; [by apply sends_called|done].
Qed.
End Send.

(** ** Over the plain transport *)

Lemma plain_write_spec pending ws out kept ws' n :
  plain_write pending ws = (out, kept, ws', n) → out ++ kept = pending.
Proof.
  revert pending out kept ws' n. induction ws as [|w ws IH]; intros pending out kept ws' n Hw.
  { destruct pending; simpl in Hw; by simplify_eq. }
  destruct pending as [|x pending]; [simpl in Hw; by simplify_eq|].
  destruct w as [k| |]; cbn [plain_write] in Hw; [|by simplify_eq..].
  destruct (0 <? k); [|by simplify_eq]. set (m := Z.min k _) in *.
  destruct (plain_write (zdrop m (x :: pending)) ws) as [[[o l] w'] r] eqn:E. simplify_eq.
  by rewrite <- app_assoc, (IH _ _ _ _ _ E), ztake_zdrop.
Qed.

(** Octets handed to the transport so far. *)
Definition plain_out (t : PlainTransport) : bytes := pl_wire t ++ pl_pendingOut t.

Lemma plain_Flush_out t : plain_out (plain_Flush t).1 = plain_out t ∧ pl_reads (plain_Flush t).1 = pl_reads t.
Proof.
  unfold plain_Flush. destruct (plain_write _ _) as [[[out kept] ws] r] eqn:E. apply plain_write_spec in E.
  unfold plain_out. cbn. by rewrite <- app_assoc, E.
Qed.

Lemma plain_Send_out d t : plain_out (plain_Send d t).1 = plain_out t ++ d ∧ pl_reads (plain_Send d t).1 = pl_reads t.
Proof.
  unfold plain_Send. pose proof (plain_Flush_out (mkPlain (pl_open t) (pl_pendingOut t ++ d) (pl_reads t) (pl_writes t) (pl_wire t))) as [H1 H2].
  destruct (plain_Flush _) as [t' r]. cbn [fst] in *. split; [|done]. rewrite H1. unfold plain_out. cbn. by rewrite app_assoc.
Qed.

(** ** What the reader does to the connection *)

(** Calls on the listeners, the octets of messages one by one. *)
Definition call_tokens (es : list WsCall) : list Token :=
  mjoin ((λ e, match e with onMessageData d => TOctet <$> d | e => [TCall e] end) <$> es).

Lemma call_tokens_app a b : call_tokens (a ++ b) = call_tokens a ++ call_tokens b.
Proof. unfold call_tokens. by rewrite fmap_app, join_app. Qed.

Section Effects.
Context {T P : Type}.
Implicit Types (c : WsConn T P).

Definition effect_calls (listening : bool) (e : ReadEffect) : list WsCall :=
  match e with Tell e => if listening then [e] else [] | PushPong _ => [onWakeupNeeded] end.

Definition effect_pongs (e : ReadEffect) : list WsFrame := match e with Tell _ => [] | PushPong f => [f] end.

Lemma read_effects c es :
  foldl read_effect c es =
  set_ws_calls (ws_calls c ++ mjoin (effect_calls (ws_listening c) <$> es))
    (with_output (λ o, set_ou_frames (ou_frames o ++ mjoin (effect_pongs <$> es)) o) c).
Proof.
  revert c. induction es as [|e es IH]; intros c; cbn [foldl].
  { unfold set_ws_calls, with_output, set_ws_output. cbn. rewrite !app_nil_r. by destruct c as [? ? ? ? ? ? ? ? ? ? [] ?]. }
  rewrite IH. destruct e as [e|f]; cbn [read_effect].
  - unfold notify. destruct (ws_listening c) eqn:E; [|by rewrite E].
    unfold ws_called, set_ws_calls, with_output, set_ws_output. cbn. by rewrite E, <- app_assoc.
  - unfold ws_called, set_ws_calls, with_output, set_ws_output, push_frame, set_ou_frames. cbn. by rewrite <- !app_assoc.
Qed.

(** Both lists only depend on the tokens. *)
Definition token_calls (listening : bool) (t : Token) : list Token :=
  match t with TPong _ => [TCall onWakeupNeeded] | t => if listening then [t] else [] end.
Definition token_pongs (t : Token) : list WsFrame := match t with TPong f => [f] | _ => [] end.

Lemma octet_calls l (d : bytes) : mjoin (token_calls l <$> (TOctet <$> d)) = if l then TOctet <$> d else [].
Proof. destruct l; (induction d as [|x d IH]; [done|]); simpl in *; [by f_equal|done]. Qed.

Lemma octet_pongs (d : bytes) : mjoin (token_pongs <$> (TOctet <$> d)) = [].
Proof. by induction d. Qed.

Lemma effects_calls l es : call_tokens (mjoin (effect_calls l <$> es)) = mjoin (token_calls l <$> effects_tokens es).
Proof.
  induction es as [|e es IH]; [done|].
  change (call_tokens (effect_calls l e ++ mjoin (effect_calls l <$> es)) = mjoin (token_calls l <$> (effect_tokens e ++ effects_tokens es))).
  rewrite call_tokens_app, IH, fmap_app, join_app. f_equal.
  destruct e as [e|f]; [|done]. destruct e as [| | | |d| | |]; try by destruct l.
  change (effect_tokens (Tell (onMessageData d))) with (TOctet <$> d). rewrite octet_calls. destruct l; [|done].
  unfold call_tokens. simpl. apply app_nil_r.
Qed.

Lemma effects_pongs es : mjoin (effect_pongs <$> es) = mjoin (token_pongs <$> effects_tokens es).
Proof.
  induction es as [|e es IH]; [done|].
  change (effect_pongs e ++ mjoin (effect_pongs <$> es) = mjoin (token_pongs <$> (effect_tokens e ++ effects_tokens es))).
  rewrite IH, fmap_app, join_app. f_equal.
  destruct e as [e|f]; [|done]. destruct e as [| | | |d| | |]; try done. symmetry. apply octet_pongs.
Qed.
End Effects.

Section Claims.
Context {W : WireOps} {V : MoreWireOps} {HN : NetworkOrder W V} {K : WsCrypto} {HK : WsCryptoLaws K}.

(** ** Segments *)

Section Segments.
Context {T P : Type} {X : WsTransport T} {H : HttpParser P} (handlers : Handlers).
Implicit Types (c : WsConn T P).

(** [ProcessData] on each segment, until the connection asks to be closed ([OnReadable]). *)
Fixpoint process_segments (segs : list bytes) c : checked (WsConn T P) :=
  match segs with
  | [] => Got c
  | s :: segs =>
      let? c := ProcessData handlers s c in
      if ws_closeRequested c then Got c else process_segments segs c
  end.

(** What [ProcessData] makes of the result of the reader. *)
Definition after_reading c (x : FrameReader * list ReadEffect * bool) : WsConn T P :=
  let c := foldl read_effect (set_ws_reader x.1.1 c) x.1.2 in if x.2 then set_ws_closeRequested true c else c.

Lemma ProcessData_frames s c x :
  ws_upgraded c = true → read_frames (ws_role c) s (ws_reader c) = Got x → ProcessData handlers s c = Got (after_reading c x).
Proof. intros Hu Hr. unfold ProcessData, process_frames. rewrite Hu, Hr. by destruct x as [[r es] b]. Qed.

(** The connection after reading, field by field. *)
Lemma after_reading_eq c r es b :
  after_reading c (r, es, b) =
  mkWsConn (ws_role c) (ws_inited c) (ws_upgraded c) (b || ws_closeRequested c) (ws_listening c) (ws_transport c) (ws_http c)
    (ws_opening c) (ws_client c) r (set_ou_frames (ou_frames (ws_output c) ++ mjoin (effect_pongs <$> es)) (ws_output c))
    (ws_calls c ++ mjoin (effect_calls (ws_listening c) <$> es)).
Proof. unfold after_reading. cbn [fst snd]. rewrite read_effects. by destruct b, c. Qed.

Lemma process_segments_ok segs c r es b :
  ws_upgraded c = true → ws_closeRequested c = false →
  read_segments (ws_role c) segs (ws_reader c) = Got (r, es, b) → process_segments segs c = Got (after_reading c (r, es, b)).
Proof.
  revert c r es b. induction segs as [|s segs IH]; intros c r es b Hu Hc Hr; cbn [read_segments process_segments] in *.
  { simplify_eq. rewrite after_reading_eq. cbn. rewrite !app_nil_r. destruct c as [? ? ? ? ? ? ? ? ? ? [] ?]. simpl in *. by subst. }
  destruct (read_frames (ws_role c) s (ws_reader c)) as [| |[[r1 es1] b1]] eqn:E; cbn [cbind fst snd] in Hr; [done..|].
  rewrite (ProcessData_frames s c _ Hu E). cbn [cbind]. rewrite after_reading_eq in *. cbn [ws_closeRequested]. rewrite Hc, orb_false_r.
  destruct b1; [by simplify_eq; rewrite after_reading_eq, Hc|].
  destruct (read_segments (ws_role c) segs r1) as [| |[[r2 es2] b2]] eqn:E2; cbn [cbind fst snd] in Hr; [done..|]. simplify_eq.
  erewrite IH; [|done..|exact E2]. rewrite !after_reading_eq. cbn. rewrite Hc, !fmap_app, !join_app, !app_assoc. done.
Qed.

(** C29. How the network cuts the stream of frames does not matter: an open connection that is given
    segments one by one ends as if it had been given their concatenation at once, the same pongs
    queued and the same calls made on its listener but for the pieces in which the octets of messages
    are handed over; and it asks to be closed in the one case when it does in the other. *)
Theorem segments_are_immaterial segs c :
  ws_upgraded c = true → ws_closeRequested c = false → reader_ok (ws_reader c) → Forall bytes_ok segs →
  ∃ c1 c2, process_segments segs c = Got c1 ∧ ProcessData handlers (mjoin segs) c = Got c2
    ∧ set_ws_calls [] c1 = set_ws_calls [] c2 ∧ call_tokens (ws_calls c1) = call_tokens (ws_calls c2).
Proof.
  intros Hu Hc Hr Hs. destruct (read_segments_ok (ws_role c) segs _ Hr Hs) as (r & es & es' & b & H1 & H2 & Ht & _).
  rewrite (process_segments_ok _ _ _ _ _ Hu Hc H1), (ProcessData_frames _ _ _ Hu H2). eexists _, _. split; [done|]. split; [done|].
  rewrite !after_reading_eq, !effects_pongs, Ht. split; [done|]. cbn [ws_calls].
  by rewrite !call_tokens_app, !effects_calls, Ht.
Qed.
End Segments.

(** ** From one end to the other *)

Section Messages.
Context {P : Type} {H : HttpParser P} (handlers : Handlers).
Implicit Types (c d : WsConn PlainTransport P).

(** Past the opening. *)
Definition settled c : Prop := cl_state (ws_client c) ≠ Connecting ∧ cl_state (ws_client c) ≠ TlsHandshake.

(** Everything sent, in order: on the wire, in the transport, queued. *)
Definition outgoing c : bytes :=
  plain_out (ws_transport c) ++ from_option response_Serialize [] (ou_response (ws_output c)) ++ frames_wire (ou_frames (ws_output c)).

Inductive SendOp := SendIt (m : Message) | Writable (so_error : bool).

Fixpoint run_sends (ops : list SendOp) c : checked (WsConn PlainTransport P) :=
  match ops with
  | [] => Got c
  | SendIt m :: ops => let? c := send m c in run_sends ops c
  | Writable e :: ops => run_sends ops (OnWritable e c)
  end.

Definition messages (ops : list SendOp) : list Message := omap (λ o, match o with SendIt m => Some m | Writable _ => None end) ops.

(** [OnWritable] moves octets, in order, and loses none. *)
Lemma OnWritable_outgoing e c :
  settled c → let c' := OnWritable e c in
  outgoing c' = outgoing c ∧ ws_client c' = ws_client c ∧ ws_role c' = ws_role c
  ∧ ou_closeFrameQueued (ws_output c') = ou_closeFrameQueued (ws_output c).
Proof.
  intros [H1 H2]. unfold OnWritable. cbn [wt_Flush plain_transport]. rewrite !(bool_decide_eq_false_2 (_ = Connecting)) by done. cbn [andb].
  pose proof (plain_Flush_out (ws_transport c)) as [Hf _]. destruct (plain_Flush (ws_transport c)) as [t n]. cbn [fst] in Hf.
  assert (outgoing (set_ws_transport t c) = outgoing c) as Ho by (unfold outgoing; cbn; by rewrite Hf).
  destruct (n <? 0); [by split; [exact Ho|]|]. cbn [ws_client set_ws_transport]. rewrite bool_decide_eq_false_2 by done.
  destruct (wt_WantsWrite _); [by split; [exact Ho|]|]. cbn [ws_output set_ws_transport]. destruct (ou_response (ws_output c)) as [r|] eqn:Er.
  - pose proof (plain_Send_out (response_Serialize r) t) as [Hs _]. change (ws_transport (set_ws_transport t c)) with t. cbn [wt_Send plain_transport].
    destruct (plain_Send (response_Serialize r) t) as [t' k]. cbn [fst] in Hs. split; [|done].
    rewrite <- Ho. unfold outgoing. cbn. rewrite Hs, Er. cbn. by rewrite <- app_assoc.
  - unfold GetNextFrame. cbn [ws_output set_ws_transport]. destruct (ou_frames (ws_output c)) as [|f fs] eqn:Ef; [by split; [exact Ho|]|].
    pose proof (plain_Send_out (wf_octets f) t) as [Hs _]. split; [|done]. rewrite <- Ho. unfold outgoing. cbn. rewrite Hs, Er, Ef. cbn.
    by rewrite <- app_assoc.
Qed.

(** What is sent carries the messages. *)
Lemma run_sends_ok ops c :
  settled c → ou_closeFrameQueued (ws_output c) = false → Forall message_ok (messages ops) →
  ∃ c' w, run_sends ops c = Got c' ∧ outgoing c' = outgoing c ++ w ∧ carries (peer (ws_role c)) w (mjoin (message_tokens <$> messages ops)).
Proof.
  revert c. induction ops as [|o ops IH]; intros c Hs Hq Hm.
  { exists c, []. rewrite app_nil_r. split_and!; [done..|apply carries_nil]. }
  destruct o as [m|e]; cbn [run_sends].
  - change (messages (SendIt m :: ops)) with (m :: messages ops) in *. apply Forall_cons in Hm as [Hm Hms].
    destruct (send_ok m c Hm Hq) as (c1 & fs & -> & [Hr Ht Hc Hre Hqu Hf] & Hcar). cbn [cbind].
    destruct (IH c1) as (c' & w & -> & Ho & Hw); [unfold settled; by rewrite Hc|congruence|done|].
    exists c', (frames_wire fs ++ w). split; [done|]. split.
    + rewrite Ho. unfold outgoing. rewrite Ht, Hre, Hf, frames_wire_app. by rewrite <- !app_assoc.
    + rewrite Hr in Hw. by apply (carries_app _ _ _ _ _ Hcar Hw).
  - destruct (OnWritable_outgoing e c Hs) as (Ho & Hc & Hr & Hqu).
    destruct (IH (OnWritable e c)) as (c' & w & -> & Ho' & Hw); [unfold settled; by rewrite Hc|congruence|done|].
    exists c', w. rewrite Ho', Ho. rewrite Hr in Hw. done.
Qed.

Definition read_all (t : PlainTransport) : PlainTransport := mkPlain (pl_open t) (pl_pendingOut t) [] (pl_writes t) (pl_wire t).

(** The segments that [read] returns are processed one by one. *)
Lemma OnReadable_segments segs fuel d r es :
  (length segs < fuel)%nat → cl_state (ws_client d) ≠ TlsHandshake → ws_upgraded d = true → ws_closeRequested d = false →
  Forall (λ s, s ≠ []) segs → pl_reads (ws_transport d) = ReadOctets <$> segs →
  read_segments (ws_role d) segs (ws_reader d) = Got (r, es, false) →
  OnReadable_loop handlers fuel d = Got (after_reading (set_ws_transport (read_all (ws_transport d)) d) (r, es, false)).
Proof.
  assert (∀ t c, cl_state (ws_client c) ≠ TlsHandshake → SendUpgradeRequestWhenReady (set_ws_transport t c) = set_ws_transport t c) as Hno.
  { intros t c Hc. unfold SendUpgradeRequestWhenReady. cbn. by rewrite bool_decide_eq_false_2. }
  revert fuel d r es. induction segs as [|s segs IH]; intros [|fuel] d r es Hf Hs Hu Hc Hne Hr Hx; try (simpl in Hf; lia);
    cbn [OnReadable_loop wt_Recv plain_transport]; unfold plain_Recv; rewrite Hr; cbn [fmap list_fmap tail] in *.
  - cbn [read_segments] in Hx. simplify_eq. rewrite Hno by done. rewrite after_reading_eq. cbn. rewrite !app_nil_r. do 2 f_equal.
    by destruct d as [? ? ? ? ? ? ? ? ? ? [] ?].
  - apply Forall_cons in Hne as [Hs0 Hne]. destruct s as [|o s]; [done|]. set (seg := o :: s) in *.
    cbn [read_segments] in Hx. destruct (read_frames (ws_role d) seg (ws_reader d)) as [| |[[r1 es1] b1]] eqn:E; cbn [cbind fst snd] in Hx; [done..|].
    destruct b1; [done|]. destruct (read_segments (ws_role d) segs r1) as [| |[[r2 es2] b2]] eqn:E2; cbn [cbind fst snd] in Hx; [done..|]. simplify_eq.
    rewrite Hno by done. erewrite ProcessData_frames; [|done|exact E]. cbn [cbind]. rewrite after_reading_eq. cbn [ws_closeRequested orb].
    cbn [ws_closeRequested set_ws_transport]. rewrite Hc. erewrite IH; [|simpl in Hf; lia|done|done|done|done|done|exact E2].
    rewrite !after_reading_eq. cbn. rewrite !fmap_app, !join_app, !app_assoc. by rewrite Hc.
Qed.

Lemma segments_bytes segs : bytes_ok (mjoin segs) → Forall bytes_ok segs.
Proof.
  induction segs as [|s segs IH]; [done|]. change (mjoin (s :: segs)) with (s ++ mjoin segs). intros [? ?]%bytes_ok_app. auto.
Qed.

(** Messages make no pong. *)
Lemma message_calls ms : mjoin (token_calls true <$> mjoin (message_tokens <$> ms)) = mjoin (message_tokens <$> ms).
Proof.
  induction ms as [|m ms IH]; [done|]. change (mjoin (message_tokens <$> m :: ms)) with (message_tokens m ++ mjoin (message_tokens <$> ms)).
  rewrite fmap_app, join_app, IH. f_equal. destruct m as [d|d]; cbn [message_tokens]; rewrite !fmap_app, !join_app, octet_calls; done.
Qed.

(** Nothing left to send. *)
Lemma drained_outgoing c : PollsOut c = false → outgoing c = pl_wire (ws_transport c).
Proof.
  unfold PollsOut, HasPendingOutput, outgoing, plain_out. intros Hp. ztests. cbn [wt_WantsWrite plain_transport] in *. ztests.
  destruct (ou_response (ws_output c)) as [x|]; [exfalso; eauto|].
  repeat match goal with E : _ = [] |- _ => rewrite E; clear E end. cbn. by rewrite !app_nil_r.
Qed.

(** C28. Messages sent over a WebSocket arrive.  One end of an open connection sends any messages that
    are not empty, texts of up to 16 megabytes and binary messages of any size, the socket becoming
    writable whenever it does and taking what it likes; once it has nothing left to send, the other
    end reads what is on the wire, cut into segments in any way.  Its listener is told each message,
    in order, from its start to its end with exactly its octets; it stays open and is ready for the
    next frame.  This holds in both directions, with the masks that a client applies. *)
Theorem websocket_messages_arrive ops c d segs :
  settled c → ou_closeFrameQueued (ws_output c) = false → outgoing c = pl_wire (ws_transport c) → Forall message_ok (messages ops) →
  ws_role d = peer (ws_role c) → settled d → ws_upgraded d = true → ws_listening d = true → ws_closeRequested d = false →
  at_rest (ws_reader d) →
  ∃ c', run_sends ops c = Got c' ∧
    (PollsOut c' = false → pl_wire (ws_transport c') = pl_wire (ws_transport c) ++ mjoin segs →
     Forall (λ s, s ≠ []) segs → pl_reads (ws_transport d) = ReadOctets <$> segs →
     ∃ d' new, OnReadable handlers d = Got d' ∧ ws_calls d' = ws_calls d ++ new
       ∧ call_tokens new = mjoin (message_tokens <$> messages ops)
       ∧ ws_closeRequested d' = false ∧ at_rest (ws_reader d')).
Proof.
  intros Hs Hq Ho Hm Hrole [_ Hsd] Hu Hl Hc Hr. destruct (run_sends_ok ops c Hs Hq Hm) as (c' & w & -> & Hw & [Hb Hcar]).
  exists c'. split; [done|]. intros Hp Hwire Hne Hreads. rewrite (drained_outgoing c' Hp), Ho, Hwire in Hw. apply app_inv_head in Hw as <-.
  destruct (Hcar (ws_reader d) Hr) as (r' & es & Hrd & Ht & Hr'). rewrite <- Hrole in Hrd.
  apply reads_read_frames in Hrd; [|by apply at_rest_ok|done].
  destruct (read_segments_ok (ws_role d) segs (ws_reader d)) as (r1 & es1 & es2 & b & H1 & H2 & H3 & _);
    [by apply at_rest_ok|by apply segments_bytes|]. rewrite Hrd in H2. simplify_eq.
  assert (length segs < S (length (pl_reads (ws_transport d))))%nat as Hf by (rewrite Hreads, length_fmap; lia).
  change (OnReadable handlers d) with (OnReadable_loop handlers (S (length (pl_reads (ws_transport d)))) d).
  rewrite (OnReadable_segments segs _ d r1 es1 Hf) by done.
  rewrite after_reading_eq. eexists _, _. split; [done|]. cbn [ws_calls ws_closeRequested ws_reader set_ws_transport orb ws_listening]. rewrite Hl.
  split; [done|]. by rewrite effects_calls, H3, Ht, message_calls.
Qed.
End Messages.
End Claims.

(** ** Concrete connections *)

Definition sample_crypto : WsCrypto := {| sha1_base64 := λ k, k; random_key := λ _, [1; 2; 3; 4]; random_nonce := λ _, Some (octets "nonce") |}.

#[global] Instance sample_crypto_laws : WsCryptoLaws sample_crypto.
Proof. split; [done|]. intros ?. by repeat constructor. Qed.

(** A connection that is open, over a transport that will read and write as told. *)
Definition open_conn (role : Role) (reads : list ReadResult) (writes : list WriteResult) : WsConn PlainTransport Http :=
  mkWsConn role true true false true (mkPlain true [] reads writes []) (hp_new (bool_decide (role = WsClient)))
    (mkOpening None [] [] [] false [])
    (mkClientOpening (match role with WsServer => NotAClient | WsClient => Opened end) [] [] [] [] false)
    (mkFrameReader new_header_parser None 0 None 0) (mkWsOutput [] false None false) [].

Lemma open_conn_rest role reads writes : at_rest (ws_reader (open_conn role reads writes)).
Proof. split; [done|by left]. Qed.

(** A text in a masked frame, a byte at a time and then in one. *)
Definition sample_segments : list bytes := [[129]; [130; 1; 2]; [3; 4; 105]; [107; 137]].

Lemma segments_are_immaterial_witness :
  ∃ c1 c2, process_segments (W := network_order) (V := network_order_more) (K := sample_crypto) [] sample_segments (open_conn WsServer [] []) = Got c1
    ∧ ProcessData (W := network_order) (V := network_order_more) (K := sample_crypto) [] (mjoin sample_segments) (open_conn WsServer [] []) = Got c2
    ∧ set_ws_calls [] c1 = set_ws_calls [] c2 ∧ call_tokens (ws_calls c1) = call_tokens (ws_calls c2).
Proof.
  apply (segments_are_immaterial (HN := network_order_is) (HK := sample_crypto_laws) [] sample_segments (open_conn WsServer [] [])).
  - reflexivity.
  - reflexivity.
  - apply at_rest_ok, open_conn_rest.
  - by repeat constructor.
Defined.

(** A client sends a text and a binary message; the server reads them in three segments. *)
Definition sample_ops : list SendOp := [SendIt (MText (octets "hi")); Writable false; SendIt (MBinary [7; 8; 9]); Writable false].
Definition sample_client : WsConn PlainTransport Http := open_conn WsClient [] [Wrote 5; Wrote 100; Wrote 100].
Definition sample_wire : list bytes :=
  [[129; 130; 1; 2; 3; 4; 105]; [107; 130; 131; 1; 2; 3; 4; 6]; [10; 10]].
Definition sample_server : WsConn PlainTransport Http := open_conn WsServer (ReadOctets <$> sample_wire) [].

Lemma websocket_messages_arrive_witness :
  ∃ c', run_sends (W := network_order) (V := network_order_more) (K := sample_crypto) sample_ops sample_client = Got c'
    ∧ PollsOut c' = false ∧ pl_wire (ws_transport c') = mjoin sample_wire
    ∧ ∃ d' new, OnReadable (W := network_order) (V := network_order_more) (K := sample_crypto) [] sample_server = Got d'
       ∧ ws_calls d' = ws_calls sample_server ++ new
       ∧ call_tokens new = mjoin (message_tokens <$> messages sample_ops)
       ∧ ws_closeRequested d' = false ∧ at_rest (ws_reader d').
Proof.
  destruct (websocket_messages_arrive (HN := network_order_is) (HK := sample_crypto_laws) [] sample_ops sample_client sample_server sample_wire)
    as (c' & Hc & H).
  - split; done.
  - reflexivity.
  - reflexivity.
  - repeat constructor; vm_compute; done.
  - reflexivity.
  - split; done.
  - reflexivity.
  - reflexivity.
  - reflexivity.
  - apply open_conn_rest.
  - exists c'. split; [exact Hc|]. revert Hc H.
    set (r := run_sends (W := network_order) (V := network_order_more) (K := sample_crypto) sample_ops sample_client).
    assert (match r with Got c => (PollsOut c, pl_wire (ws_transport c)) | _ => (true, []) end = (false, mjoin sample_wire)) as Hr
      by (vm_compute; reflexivity).
    intros Hc H. rewrite Hc in Hr. injection Hr as Hp Hw. split; [exact Hp|]. split; [exact Hw|]. apply H; [exact Hp|exact Hw| |reflexivity].
    repeat constructor; done.
Defined.

(** ** Where the code falls short *)

Section Defects.
#[local] Instance sample_wire_ops : WireOps := network_order.
#[local] Instance sample_more_wire_ops : MoreWireOps := network_order_more.
#[local] Instance sample_crypto_ops : WsCrypto := sample_crypto.

(** The end of an empty frame is only noticed with the next octet: an empty text that ends a segment
    has a start and no end. *)
Lemma empty_frame_waits :
  (let? c := ProcessData [] [129; 128; 1; 2; 3; 4] (open_conn WsServer [] []) in Got (ws_calls c)) = Got [onMessageStart Text 0].
Proof. vm_compute. reflexivity. Qed.

(** And an empty ping is not answered before the peer sends something else. *)
Lemma empty_ping_waits :
  (let? c := ProcessData [] [137; 128; 1; 2; 3; 4] (open_conn WsServer [] []) in
   let? d := ProcessData [] [138] c in Got (ou_frames (ws_output c), wf_octets <$> ou_frames (ws_output d)))
  = Got ([], [[138; 0]]).
Proof. vm_compute. reflexivity. Qed.

(** A ping received while the Close frame waits has its pong queued behind it. *)
Lemma pong_follows_close :
  (let? c := ws_CloseWith 1000 [] (open_conn WsServer [] []) in
   let? d := ProcessData [] [137; 129; 1; 2; 3; 4; 105] c in Got (wf_octets <$> ou_frames (ws_output d)))
  = Got [[136; 2; 3; 232]; [138; 1; 104]].
Proof. vm_compute. reflexivity. Qed.

(** A server takes frames of a client that are not masked. *)
Lemma server_takes_unmasked :
  (let? c := ProcessData [] [129; 1; 104] (open_conn WsServer [] []) in Got (ws_closeRequested c, ws_calls c))
  = Got (false, [onMessageStart Text 1; onMessageData [104]; onMessageEnd]).
Proof. vm_compute. reflexivity. Qed.

(** 65535 octets are announced on 64 bits, though 16 are enough. *)
Lemma longest_short_frame : ws_GetSize (new_header true TextFrame 65535 0) = 10 ∧ ws_GetSize (new_header true TextFrame 65534 0) = 4.
Proof. split; vm_compute; reflexivity. Qed.

(** A long path loses the end of the request line: the headers follow it at once. *)
Lemma long_path_is_cut :
  request_Serialize (mkHTTPRequest (octets "GET") (replicate 4100 97) 1 1 [(octets "Host", [octets "h"])])
  = octets "GET " ++ replicate 4091 97 ++ octets "Host: h" ++ crlf ++ crlf.
Proof. vm_compute. reflexivity. Qed.

(** The answers 404 and 101 in a segment: the listener is told that the opening failed, and then that
    the connection is open. *)
Definition answer (status : bytes) : bytes :=
  octets "HTTP/1.1 " ++ status ++ crlf ++ octets "Upgrade: websocket" ++ crlf ++ octets "Connection: Upgrade" ++ crlf
  ++ octets "Sec-WebSocket-Accept: " ++ ComputeAcceptKey (octets "nonce") ++ crlf ++ crlf.

Lemma refused_and_opened :
  let c := ws_InitClient (mkPlain true [] [] [] []) (octets "h") [] true [] in
  let c := OnWritable false c in
  (let? d := ProcessData [] (octets "HTTP/1.1 404 Not Found" ++ crlf ++ crlf ++ answer (octets "101 Switching Protocols")) c in
   Got (ws_calls d, ws_upgraded d, ws_closeRequested d))
  = Got ([onError; onOpen], true, true).
Proof. vm_compute. reflexivity. Qed.

(** What is not HTTP is neither answered nor cut off: the connection stays, and hears nothing more. *)
Lemma garbage_is_kept :
  let c := ws_Init (mkPlain true [] [] [] []) in
  (let? d := ProcessData [] (octets "hello") c in
   let? e := ProcessData [] (octets "GET / HTTP/1.1" ++ crlf ++ octets "Sec-WebSocket-Key: k" ++ crlf ++ crlf) d in
   Got (ws_calls e, IsFinished e, ou_response (ws_output e), ht_errno (ws_http e)))
  = Got ([], false, None, HPE_INVALID_METHOD).
Proof. vm_compute. reflexivity. Qed.
End Defects.
