(* ===== verification/WebSocketServer.v ===== *)
(** * The WebSocket server

    [WebSocketServer] (src/websocketserver.cpp): the thread that runs every connection with one call of
    [poll], and the thread that retries outgoing connections.  A round of [Run] is [server_round]; what
    [poll] and [accept] say is its argument [PollResults].  Other threads call connections between two
    rounds ([call_connection]) and ask for outgoing ones ([Connect], with what the resolver and the sockets
    say in [ConnectEnv]).  Identities are [uint64_t] kept as [Z]. *)

From S2P Require Import Prelude OrderedMap Wire Octets IpAddress HttpParse WebSocketFrame WebSocket.

(** What [poll] and [getsockopt] say of a connection. *)
Record Polled := mkPolled { pd_error : bool; pd_out : bool; pd_in : bool; pd_soError : bool }.

(** [PendingConnect] *)
Record PendingConnect (T : Type) := mkPendingConnect {
  pc_transport : T;
  pc_host : bytes;
  pc_path : bytes;
  pc_headers : list (bytes * bytes);
  pc_alive : bool;
}.
Arguments mkPendingConnect {T} _ _ _ _ _.
Arguments pc_transport {T} _.
Arguments pc_host {T} _.
Arguments pc_path {T} _.
Arguments pc_headers {T} _.
Arguments pc_alive {T} _.

(** [WebSocketServer] *)
Record WsServerState (T P : Type) := mkWsServer {
  sv_inited : bool;
  sv_nextConnId : Z;
  sv_connections : list (Z * WsConn T P);
  sv_recentlyClosed : list (WsConn T P);
  sv_pendingConnects : list (PendingConnect T);
}.
Arguments mkWsServer {T P} _ _ _ _ _.
Arguments sv_inited {T P} _.
Arguments sv_nextConnId {T P} _.
Arguments sv_connections {T P} _.
Arguments sv_recentlyClosed {T P} _.
Arguments sv_pendingConnects {T P} _.

(** What happens in a round: [poll] fails or not, the sockets accepted ([None]: no TLS transport for
    it), what is said of each connection, the time since each was created, and the delay of openings. *)
Record PollResults (T : Type) := mkPollResults {
  pr_ok : bool;
  pr_accepted : list (option T);
  pr_polled : Z → Polled;
  pr_elapsed : Z → Z;
  pr_timeout : Z;
}.
Arguments mkPollResults {T} _ _ _ _ _.
Arguments pr_ok {T} _.
Arguments pr_accepted {T} _.
Arguments pr_polled {T} _ _.
Arguments pr_elapsed {T} _ _.
Arguments pr_timeout {T} _.

(** ** URLs *)

(** [Target] *)
Record Target := mkTarget { tg_tls : bool; tg_host : bytes; tg_hostHeader : bytes; tg_path : bytes; tg_port : Z }.

(** [substr] throws beyond the end. *)
Definition UrlField (url : bytes) (parsed : ParsedUrl) (field : Z) : checked bytes :=
  if negb (has_part field parsed) then Got [] else
  let '(off, len) := pu_data field parsed in
  if Zlen url <? off then Fault else Got (ztake len (zdrop off url)).

Definition ParseWsUrl (url : bytes) : checked Target :=
  let? parsed := http_parser_parse_url url false no_url in
  let? schema := UrlField url parsed UF_SCHEMA in
  let schema := ToLower schema in
  if negb (bool_decide (schema = octets "ws")) && negb (bool_decide (schema = octets "wss")) then Refuse else
  let tls := bool_decide (schema = octets "wss") in
  let? host := UrlField url parsed UF_HOST in
  if bool_decide (host = []) then Refuse else
  let defaultPort := if tls then 443 else 80 in
  let port := if has_part UF_PORT parsed then pu_port parsed else defaultPort in
  let? path := UrlField url parsed UF_PATH in
  let path := if bool_decide (path = []) then octets "/" else path in
  let? query := UrlField url parsed UF_QUERY in
  let path := if bool_decide (query = []) then path else path ++ octets "?" ++ query in
  let hostHeader := if has_char 58 host then octets "[" ++ host ++ octets "]" else host in
  let hostHeader := if port =? defaultPort then hostHeader else hostHeader ++ octets ":" ++ decimal port in
  Got (mkTarget tls host hostHeader path port).

(** What [Connect] finds: the addresses of a host, whether there is a TLS transport for it, and the
    transport over a socket that connects to an address, if one does. *)
Record ConnectEnv (T : Type) := mkConnectEnv {
  ce_Resolve : bytes → list IPAddress;
  ce_CreateClient : bytes → bool;
  ce_socket : bool → IPAddress → Z → option T;
}.
Arguments mkConnectEnv {T} _ _ _.
Arguments ce_Resolve {T} _ _.
Arguments ce_CreateClient {T} _ _.
Arguments ce_socket {T} _ _ _ _.

(** What other threads do with a connection they know. *)
Inductive ConnCall :=
  | CallSendText (message : bytes)
  | CallSendBinary (data : bytes)
  | CallClose
  | CallCloseWith (code : Z) (reason : bytes)
  | CallAccept (alive : bool)
  | CallReject (code : Z) (reason : bytes)
  | ListenerGone.

Section Server.
Context {W : WireOps} {V : MoreWireOps} {K : WsCrypto} {T P : Type} {X : WsTransport T} {H : HttpParser P}.
Context (handlers : Handlers).
Implicit Types (c : WsConn T P) (s : WsServerState T P).

(** ** One connection *)

(** A handler has a connection once it was called with it. *)
Definition call_conn (call : ConnCall) c : checked (WsConn T P) :=
  match call with
  | CallSendText m => ws_SendMessage m c
  | CallSendBinary d => SendBinary d c
  | CallClose => Got (ws_Close c)
  | CallCloseWith code reason => ws_CloseWith code reason c
  | CallAccept alive => if bool_decide (onUpgradeRequest ∈ ws_calls c) then Accept alive c else Got c
  | CallReject code reason => if bool_decide (onUpgradeRequest ∈ ws_calls c) then Got (Reject code reason c) else Got c
  | ListenerGone => Got (set_ws_listening false c)
  end.

(** The dispatch of the events of a connection; [true]: in [toClose]. *)
Definition dispatch_conn (p : Polled) c : checked (WsConn T P * bool) :=
  if pd_error p then Got (c, true) else
  let c := if pd_out p then OnWritable (pd_soError p) c else c in
  let? c := (if pd_in p then OnReadable handlers c else Got c) in
  Got (c, IsFinished c).

(** The second loop: openings that took too long. *)
Definition check_opening (timeout elapsed : Z) c : WsConn T P :=
  if GetOpeningTimeLeft timeout elapsed c =? 0 then OnOpeningTimeout c else c.

Definition close_conn c : WsConn T P := ws_End (NotifyClose c).

(** A round as a connection sees it; [true]: it was closed. *)
Definition conn_round (p : Polled) (timeout elapsed : Z) c : checked (WsConn T P * bool) :=
  let? d := dispatch_conn p c in
  let c := check_opening timeout elapsed d.1 in
  if d.2 || IsFinished c then Got (close_conn c, true) else Got (c, false).

(** ** The server *)

Definition new_ws_server : WsServerState T P := mkWsServer true 0 [] [] [].

Definition add_connection c s : WsServerState T P :=
  let id := sv_nextConnId s + 1 in
  mkWsServer (sv_inited s) id (om_set id c (sv_connections s)) (sv_recentlyClosed s) (sv_pendingConnects s).

Definition CreateConnection (t : option T) s : WsServerState T P :=
  match t with
  | Some t => add_connection (ws_Init t) s
  | None => mkWsServer (sv_inited s) (sv_nextConnId s + 1) (sv_connections s) (sv_recentlyClosed s) (sv_pendingConnects s)
  end.

Definition CreateClientConnection s (r : PendingConnect T) : WsServerState T P :=
  add_connection (ws_InitClient (pc_transport r) (pc_host r) (pc_path r) (pc_alive r) (pc_headers r)) s.

Definition DrainPendingConnects s : WsServerState T P :=
  foldl CreateClientConnection
    (mkWsServer (sv_inited s) (sv_nextConnId s) (sv_connections s) (sv_recentlyClosed s) []) (sv_pendingConnects s).

Definition push_connect (r : PendingConnect T) s : WsServerState T P :=
  if sv_inited s then mkWsServer (sv_inited s) (sv_nextConnId s) (sv_connections s) (sv_recentlyClosed s) (sv_pendingConnects s ++ [r])
  else s.

(** [true]: the connection will be opened. *)
Definition Connect (e : ConnectEnv T) (url : bytes) (alive : bool) (headers : list (bytes * bytes)) s : checked (bool * WsServerState T P) :=
  if negb (sv_inited s) then Got (false, s) else
  match ParseWsUrl url with
  | Fault => Fault
  | Refuse => Got (false, s)
  | Got t =>
      let addresses := ce_Resolve e (tg_host t) in
      if bool_decide (addresses = []) then Got (false, s) else
      if tg_tls t && negb (ce_CreateClient e (tg_host t)) then Got (false, s) else
      match omap (λ a, ce_socket e (tg_tls t) a (tg_port t)) addresses with
      | [] => Got (false, s)
      | tr :: _ => Got (true, push_connect (mkPendingConnect tr (tg_hostHeader t) (tg_path t) headers alive) s)
      end
  end.

(** The delay given to [poll]: the least time left of an opening, [-1] without one. *)
Definition GetPollTimeout (timeout : Z) (elapsed : Z → Z) s : Z :=
  foldl (λ t ic, let left_ := GetOpeningTimeLeft timeout (elapsed ic.1) ic.2 in
    if left_ <? 0 then t else if (t <? 0) || (left_ <? t) then left_ else t) (-1) (sv_connections s).

Definition set_connections (m : list (Z * WsConn T P)) s : WsServerState T P :=
  mkWsServer (sv_inited s) (sv_nextConnId s) m (sv_recentlyClosed s) (sv_pendingConnects s).

(** The loop over the connections that were polled. *)
Fixpoint dispatch_all (ids : list Z) (polled : Z → Polled) (toClose : list Z) s : checked (WsServerState T P * list Z) :=
  match ids with
  | [] => Got (s, toClose)
  | id :: ids =>
      match om_find id (sv_connections s) with
      | None => dispatch_all ids polled toClose s
      | Some c =>
          let? d := dispatch_conn (polled id) c in
          dispatch_all ids polled (if d.2 then os_insert id toClose else toClose)
            (set_connections (om_set id d.1 (sv_connections s)) s)
      end
  end.

(** The loop over all the connections. *)
Definition check_all (timeout : Z) (elapsed : Z → Z) s : WsServerState T P :=
  set_connections ((λ ic, (ic.1, check_opening timeout (elapsed ic.1) ic.2)) <$> sv_connections s) s.

Definition finished_ids s : list Z := omap (λ ic, if IsFinished ic.2 then Some ic.1 else None) (sv_connections s).

Definition CloseConnection s (id : Z) : WsServerState T P :=
  match om_find id (sv_connections s) with
  | None => s
  | Some c =>
      mkWsServer (sv_inited s) (sv_nextConnId s) (om_erase id (sv_connections s)) (sv_recentlyClosed s ++ [close_conn c])
        (sv_pendingConnects s)
  end.

(** The body of [while(inited)]. *)
Definition server_round (r : PollResults T) s : checked (WsServerState T P) :=
  if negb (sv_inited s) then Got s else
  let s := mkWsServer (sv_inited s) (sv_nextConnId s) (sv_connections s) [] (sv_pendingConnects s) in
  let s := DrainPendingConnects s in
  let ids := (sv_connections s).*1 in
  if negb (pr_ok r) then Got s else
  let s := foldl (λ s t, CreateConnection t s) s (pr_accepted r) in
  let? d := dispatch_all ids (pr_polled r) [] s in
  let s := check_all (pr_timeout r) (pr_elapsed r) d.1 in
  let toClose := foldl (λ l id, os_insert id l) d.2 (finished_ids s) in
  Got (foldl CloseConnection s toClose).

Definition call_connection (id : Z) (call : ConnCall) s : checked (WsServerState T P) :=
  match om_find id (sv_connections s) with
  | None => Got s
  | Some c => let? c := call_conn call c in Got (set_connections (om_set id c (sv_connections s)) s)
  end.

(** [End], once the thread has stopped: every connection is destroyed, no socket is left. *)
Definition server_End s : WsServerState T P :=
  if sv_inited s then mkWsServer false (sv_nextConnId s) [] [] [] else s.

End Server.

(** ** Retries *)

Record Attempt := mkAttempt { at_id : Z; at_dueMs : Z; at_retryMs : Z; at_url : bytes; at_listener : Z }.

Record Retrier := mkRetrier { rt_attempts : list Attempt; rt_nextId : Z }.

Definition Schedule (url : bytes) (listener now delayMs : Z) (r : Retrier) : Z * Retrier :=
  let id := rt_nextId r + 1 in
  (id, mkRetrier (rt_attempts r ++ [mkAttempt id (to_qword (now + delayMs)) (if delayMs <? 1000 then 1000 else delayMs) url listener]) id).

Fixpoint cancel_attempt (id : Z) (l : list Attempt) : list Attempt :=
  match l with
  | [] => []
  | a :: l => if at_id a =? id then l else a :: cancel_attempt id l
  end.
Definition retrier_Cancel (id : Z) (r : Retrier) : Retrier := mkRetrier (cancel_attempt id (rt_attempts r)) (rt_nextId r).

(** The scan of a pass of [Run]: the attempts that are due, those that stay, and how long to sleep.
    [expired] tells whether a listener is gone. *)
Fixpoint scan_attempts (now : Z) (expired : Z → bool) (sleep : Z) (l : list Attempt) : list Attempt * list Attempt * Z :=
  match l with
  | [] => ([], [], sleep)
  | a :: l =>
      if expired (at_listener a) then scan_attempts now expired sleep l
      else if at_dueMs a <=? now then let '(due, kept, sleep) := scan_attempts now expired sleep l in (a :: due, kept, sleep)
      else
        let left_ := at_dueMs a - now in
        let '(due, kept, sleep) := scan_attempts now expired (if left_ <? sleep then to_dword left_ else sleep) l in
        (due, a :: kept, sleep)
  end.

(** [connects] tells whether [Connect] succeeds, [later] is the time after it. *)
Definition retry_pass (now : Z) (expired : Z → bool) (connects : Attempt → bool) (later : Attempt → Z) (r : Retrier) : Retrier * Z :=
  let '(due, kept, sleep) := scan_attempts now expired 1000 (rt_attempts r) in
  let again := (λ a, mkAttempt (at_id a) (to_qword (later a + at_retryMs a)) (at_retryMs a) (at_url a) (at_listener a))
    <$> List.filter (λ a, negb (connects a)) due in
  (mkRetrier (kept ++ again) (rt_nextId r), sleep).
