(* ===== verification/WebSocketOpenClaims.v ===== *)
(** * The opening of WebSockets

    The upgrade request a client writes is read by the HTTP parser of the server as it was built,
    and the answer by that of the client: both ends are open, however the network cuts the octets
    ([websocket_opens]).  A [parser_run] is the parser on octets of which none is the last of a message. *)

From S2P Require Import Prelude Wire Octets IpAddress HttpParse HttpParseProps WebSocketFrame WebSocket WebSocketRead WebSocketClaims WebSocketServer.

(** ** Runs of the parser *)

Section Runs.
Context (skip : bool).

(** One round of the loop that passes one octet outside of a body. *)
Definition count (h : Http) : Http :=
  if PARSING_HEADER (ht_state h) then set_ht_nread (to_dword (ht_nread h + 1)) h else h.

Definition steps (ch : Z) (h : Http) (m : Marks) (h' : Http) (m' : Marks) (cs : list (HttpCall * HttpInfo)) : Prop :=
  in_body (ht_state h) = false ∧ ht_nread (count h) <= HTTP_MAX_HEADER_SIZE ∧ parse_byte skip ch [] (count h) m = Got (Next 1 h' m' cs).

Inductive parser_run : Http → Marks → bytes → list (HttpCall * HttpInfo) → Http → Marks → Prop :=
  | run_nil h m : parser_run h m [] [] h m
  | run_cons ch w h m h1 m1 cs1 cs h2 m2 :
      steps ch h m h1 m1 cs1 → parser_run h1 (pass [ch] m1) w cs h2 m2 → parser_run h m (ch :: w) (cs1 ++ cs) h2 m2.

Lemma parse_byte_rest ch rest h m : in_body (ht_state h) = false → parse_byte skip ch rest h m = parse_byte skip ch [] h m.
Proof. unfold parse_byte. by destruct (ht_state h). Qed.

Lemma count_state h : ht_state (count h) = ht_state h.
Proof. unfold count. by case_match. Qed.

Lemma count_header_state h : ht_header_state (count h) = ht_header_state h.
Proof. unfold count. by case_match. Qed.

Lemma run_app h m w1 cs1 h1 m1 w2 cs2 h2 m2 :
  parser_run h m w1 cs1 h1 m1 → parser_run h1 m1 w2 cs2 h2 m2 → parser_run h m (w1 ++ w2) (cs1 ++ cs2) h2 m2.
Proof.
  induction 1 as [|ch w h m hx mx csx cs hy my Hs Hr IH]; [done|]. intros H2. rewrite <- app_assoc. cbn. econstructor; [done|]. by apply IH.
Qed.

Lemma run_split w1 w2 h m cs h2 m2 :
  parser_run h m (w1 ++ w2) cs h2 m2 → ∃ h1 m1 cs1 cs2, parser_run h m w1 cs1 h1 m1 ∧ parser_run h1 m1 w2 cs2 h2 m2 ∧ cs = cs1 ++ cs2.
Proof.
  revert h m cs. induction w1 as [|ch w1 IH]; intros h m cs Hr; [by exists h, m, [], cs; split; [constructor|]|].
  inversion Hr as [|? ? ? ? hx mx csx cs' ? ? Hs Hr']; subst. apply IH in Hr' as (h1 & m1 & cs1 & cs2 & H1 & H2 & ->).
  exists h1, m1, (csx ++ cs1), cs2. split_and!; [by econstructor|done|by rewrite app_assoc].
Qed.

Lemma exec_step ch rest fuel h m pos :
  in_body (ht_state h) = false → ht_nread (count h) <= HTTP_MAX_HEADER_SIZE →
  exec_loop skip (S fuel) (ch :: rest) h m pos =
  let? s := parse_byte skip ch [] (count h) m in
  match s with
  | Return n h calls => Got (h, calls, pos + n)
  | Next k h m calls =>
      let? r := exec_loop skip fuel (zdrop k (ch :: rest)) h (pass (ztake k (ch :: rest)) m) (pos + k) in
      Got (r.1.1, calls ++ r.1.2, r.2)
  end.
Proof.
  intros Hb Hn. cbn [exec_loop]. fold (count h). rewrite parse_byte_rest by (by rewrite count_state).
  destruct (Z.ltb_spec HTTP_MAX_HEADER_SIZE (ht_nread (count h))); [lia|]. by rewrite andb_false_r.
Qed.

Lemma run_exec h m w cs h1 m1 t fuel pos :
  parser_run h m w cs h1 m1 → (length (w ++ t) <= fuel)%nat → ∃ fuel', (length t <= fuel')%nat ∧
  exec_loop skip fuel (w ++ t) h m pos =
  let? r := exec_loop skip fuel' t h1 m1 (pos + Zlen w) in Got (r.1.1, cs ++ r.1.2, r.2).
Proof.
  intros Hr. revert fuel pos. induction Hr as [h m|ch w h m hx mx csx cs hy my (Hb & Hn & Hs) Hr IH]; intros fuel pos Hl.
  { exists fuel. split; [done|]. rewrite Zlen_nil, Z.add_0_r. cbn [app]. by destruct (exec_loop _ _ _ _ _ _) as [| |[[]]]. }
  destruct fuel as [|fuel]; [cbn in Hl; lia|]. destruct (IH fuel (pos + 1)) as (fuel' & Hl' & E); [cbn in Hl; lia|]. exists fuel'. split; [done|].
  cbn [app]. rewrite exec_step by done. rewrite Hs. cbn [cbind]. change (zdrop 1 (ch :: w ++ t)) with (w ++ t). change (ztake 1 (ch :: w ++ t)) with [ch].
  rewrite E, Zlen_cons, Z.add_assoc. destruct (exec_loop _ _ t _ _ _) as [| |[[]]]; [done..|]. cbn. by rewrite app_assoc.
Qed.

Lemma match_value_state ch h : ht_state h = s_header_value → match match_value ch h with Got h' => ht_state h' = s_header_value | _ => True end.
Proof.
  intros E. unfold match_value. destruct (ht_header_state h); try done;
    try (match goal with |- context [match_word ?w ?c ?s ?h] => destruct (match_word_keeps w c s h) as (_ & _ & H3 & _) end; by rewrite H3);
    [|by destruct (ch =? SP)..].
  destruct (ch =? SP); [done|]. destruct (negb _); [done|]. cbv zeta. by destruct (_ || _).
Qed.

(** *** Strings

    What a state collects, if it does. *)
Definition string_call (s : HttpState) : option (bytes → HttpCall) :=
  match s with
  | s_header_field => Some on_header_field
  | s_header_value => Some on_header_value
  | _ => if url_state s then Some on_url else None
  end.

Lemma string_marks s : string_call s = None → in_body s = false → ∀ a, state_marks s a = no_marks.
Proof. by destruct s. Qed.

Lemma string_leftover s f h a : string_call s = Some f → leftover h (state_marks s a) = [(f a, info h)].
Proof. by destruct s; intros [= <-]. Qed.

(** An octet of a string: it goes on, it ends, or the parser stops; what was collected does not matter. *)
Lemma string_step ch h f :
  string_call (ht_state h) = Some f →
  (∃ h', (∀ a, parse_byte skip ch [] h (state_marks (ht_state h) a) = Got (Next 1 h' (state_marks (ht_state h') a) []))
     ∧ string_call (ht_state h') = Some f ∧ (ht_state h = s_header_field → info h' = info h))
  ∨ (∃ h' i, (∀ a, parse_byte skip ch [] h (state_marks (ht_state h) a) = Got (Next 1 h' no_marks [(f a, i)]))
     ∧ (ht_state h = s_header_field → i = info h))
  ∨ ∀ a k h' m cs, parse_byte skip ch [] h (state_marks (ht_state h) a) ≠ Got (Next k h' m cs).
Proof.
  intros Hf.
  assert (∀ s, url_state s = true → string_call s = Some on_url ∧ ∀ a, state_marks s a = mkMarks None None (Some a) None) as Hurl by by destruct s.
  assert (f = on_url → ht_state h ≠ s_header_field →
    (∃ h', (∀ a, url_char ch h (mkMarks None None (Some a) None) = Got (Next 1 h' (state_marks (ht_state h') a) []))
       ∧ string_call (ht_state h') = Some f ∧ (ht_state h = s_header_field → info h' = info h))
    ∨ ∀ a k h' m cs, url_char ch h (mkMarks None None (Some a) None) ≠ Got (Next k h' m cs)) as Hchar.
  { intros -> Hnf. unfold url_char. case_bool_decide as Hd; [by right|]. destruct (parse_url_char_state (ht_state h) ch) as [?|Hu]; [done|].
    destruct (Hurl _ Hu) as [H1 H2]. left. exists (set_ht_state (parse_url_char (ht_state h) ch) h).
    split; [intros a; unfold move_to; cbn [ht_state set_ht_state]; by rewrite H2|]. done. }
  unfold parse_byte, url_state in *. destruct (ht_state h) eqn:E; try done; injection Hf as <-; cbn [state_marks];
    try (unfold at_url_start; destruct (_ || _ || _); [by right; right|]; destruct (Hchar eq_refl ltac:(done)) as [?|?]; [by left|by right; right]);
    try (unfold at_url_octet; destruct (ch =? SP); [right; left; eexists _, _; split; [by intros|done]|];
         destruct (_ || _); [right; left; eexists _, _; split; [by intros|done]|];
         destruct (Hchar eq_refl ltac:(done)) as [?|?]; [by left|by right; right]).
  - unfold at_header_field. destruct (negb _).
    + destruct (match_name (TOKEN ch) ch h) as [| |h'] eqn:En; [by right; right|by right; right|]. left. exists h'.
      assert (ht_state h' = s_header_field ∧ info h' = info h) as [H1 H2].
      { unfold match_name in En. destruct (ht_header_state h); try done; injection En as <-;
          unfold match_word, info, GetMethodStr; repeat case_match; done. }
      rewrite H1. split_and!; [done|done|by rewrite H2].
    + destruct (ch =? 58); [right; left; eexists _, _; split; [by intros|done]|].
      destruct (ch =? CR); [right; left; eexists _, _; split; [by intros|done]|].
      destruct (ch =? LF); [right; left; eexists _, _; split; [by intros|done]|]. by right; right.
  - unfold at_header_value. destruct (ch =? CR); [right; left; eexists _, _; split; [by intros|done]|].
    destruct (Z.eqb_spec ch LF) as [->|]; [right; left; eexists _, _; split; [by intros|done]|].
    pose proof (match_value_state ch h E) as Hv. destruct (match_value ch h) as [| |h']; [by right; right|by right; right|].
    left. exists h'. rewrite Hv. done.
Qed.

(** *** Along a parser_run *)

Lemma count_parser_ok h : parser_ok 0 h → parser_ok 1 (count h).
Proof.
  intros (He & Hcl & Hs). split; [unfold count; by case_match|]. split; [unfold count; by case_match|]. unfold count, state_ok in *.
  destruct (ht_state h) eqn:E; cbn; rewrite ?E; try done. destruct Hs as [-> Hf]. by split.
Qed.

Lemma run_ok h m w cs h1 m1 :
  parser_run h m w cs h1 m1 → bytes_ok w → parser_ok 0 h → marks_ok (ht_state h) m → parser_ok 0 h1 ∧ marks_ok (ht_state h1) m1.
Proof.
  induction 1 as [|ch w h m hx mx csx cs hy my (Hb & Hn & Hs) Hr IH]; [done|]. intros [Hc Hw]%Forall_cons Hh Hm.
  pose proof (parse_byte_ok skip ch [] (count h) m Hc (count_parser_ok _ Hh)) as Hok. rewrite count_state in Hok. specialize (Hok Hm).
  rewrite (parse_byte_rest ch [ch]) in Hok by (by rewrite count_state). rewrite Hs in Hok. destruct Hok as (_ & Hx & Hmx).
  apply IH; [done|done|by apply marks_ok_pass].
Qed.

Lemma run_type h m w cs h1 m1 :
  parser_run h m w cs h1 m1 → fixed_type (ht_state h) = true → ht_type h1 = ht_type h ∧ fixed_type (ht_state h1) = true.
Proof.
  induction 1 as [|ch w h m hx mx csx cs hy my (Hb & Hn & Hs) Hr IH]; [done|]. intros Hf.
  pose proof (parse_byte_type skip ch [] (count h) m) as Ht. rewrite count_state in Ht. specialize (Ht Hf). rewrite Hs in Ht.
  destruct Ht as [Ht Hf']. destruct (IH Hf') as [H1 H2]. split; [|done]. rewrite H1, Ht. unfold count. by case_match.
Qed.

End Runs.

(** ** What the callbacks of the parser do to a connection *)

Section Callbacks.
Context {W : WireOps} {V : MoreWireOps} {K : WsCrypto} {T : Type} {X : WsTransport T} (handlers : Handlers).
Implicit Types (c : WsConn T Http).

Definition same (cs1 cs2 : list (HttpCall * HttpInfo)) : Prop := ∀ c, http_callbacks handlers cs1 c = http_callbacks handlers cs2 c.

#[global] Instance same_equivalence : Equivalence same.
Proof. split; [by intros ??|by intros ????|]. intros a b d H1 H2 c. by rewrite H1. Qed.

Lemma http_callbacks_app cs1 cs2 c :
  http_callbacks handlers (cs1 ++ cs2) c = let? c := http_callbacks handlers cs1 c in http_callbacks handlers cs2 c.
Proof.
  revert c. induction cs1 as [|x cs1 IH]; intros c; [done|]. cbn [app http_callbacks].
  destruct (http_callback handlers x c); [done..|]. apply IH.
Qed.

#[global] Instance same_app : Proper (same ==> same ==> same) app.
Proof.
  intros a a' Ha b b' Hb c. rewrite !http_callbacks_app, Ha. destruct (http_callbacks handlers a' c); [done..|]. apply Hb.
Qed.

Lemma FlushPendingHeader_done c : ho_parsingHeaderValue (ws_opening (FlushPendingHeader c)) = false.
Proof. unfold FlushPendingHeader. destruct (ho_parsingHeaderValue (ws_opening c)) eqn:E; [done|exact E]. Qed.

Lemma FlushPendingHeader_request c :
  is_Some (ho_request (ws_opening c)) → is_Some (ho_request (ws_opening (FlushPendingHeader c))).
Proof.
  intros Hs. unfold FlushPendingHeader. destruct (ho_parsingHeaderValue _); [|done]. cbn. destruct (bool_decide _); [done|].
  destruct (IsClient c); [done|]. destruct Hs as [r ->]. by eexists.
Qed.

Lemma FlushPendingHeader_idle c : ho_parsingHeaderValue (ws_opening c) = false → FlushPendingHeader c = c.
Proof. intros E. unfold FlushPendingHeader. by rewrite E. Qed.

Lemma EnsureRequest_some i c : is_Some (ho_request (ws_opening (EnsureRequest i c))).
Proof. unfold EnsureRequest. destruct (ho_request (ws_opening c)) eqn:E; [by rewrite E|by eexists]. Qed.

Lemma EnsureRequest_idle i c : is_Some (ho_request (ws_opening c)) → EnsureRequest i c = c.
Proof. intros [r Hr]. unfold EnsureRequest. by rewrite Hr. Qed.

(** A string in two pieces is the string. *)
Lemma glue s f a x i i0 :
  string_call s = Some f → (s = s_header_field → i = i0) → same [(f (a ++ x), i)] [(f a, i0); (f x, i)].
Proof.
  intros Hf Hi c. assert (f = on_url ∨ f = on_header_value ∨ (f = on_header_field ∧ i = i0)) as Hcases.
  { destruct s; try done; injection Hf as <-; auto. }
  destruct Hcases as [->|[->|[-> ->]]]; cbn [http_callbacks http_callback cbind].
  - f_equal. unfold with_opening, set_ws_opening, set_ho_requestUrl. cbn. by rewrite app_assoc.
  - destruct (negb (IsClient c) && bool_decide (ho_request (ws_opening c) = None)) eqn:E; cbn [cbind].
    + by rewrite E.
    + change (negb (IsClient c) && bool_decide (ho_request (ws_opening c) = None) = false) in E.
      unfold with_opening, set_ws_opening, set_ho_parsingHeaderValue, set_ho_headerValue, IsClient in *. cbn in *. rewrite E. by rewrite <- app_assoc.
  - set (d := if IsClient c then c else EnsureRequest i0 c). set (e := FlushPendingHeader d).
    set (g := with_opening (λ o, set_ho_headerField (ho_headerField o ++ a) o) e).
    assert (IsClient g = IsClient c) as Hg.
    { unfold g, e, d, with_opening, FlushPendingHeader, EnsureRequest, IsClient. repeat case_match; done. }
    assert ((if IsClient g then g else EnsureRequest i0 g) = g) as ->.
    { rewrite Hg. destruct (IsClient c) eqn:Ec; [done|]. apply EnsureRequest_idle. unfold g. cbn. apply FlushPendingHeader_request.
      unfold d. apply EnsureRequest_some. }
    rewrite (FlushPendingHeader_idle g) by apply (FlushPendingHeader_done d).
    unfold g, with_opening, set_ws_opening, set_ho_headerField. cbn. by rewrite <- app_assoc.
Qed.

Lemma same_info s f a i i0 : string_call s = Some f → (s = s_header_field → i = i0) → same [(f a, i)] [(f a, i0)].
Proof. intros Hf Hi c. destruct s; try done; injection Hf as <-; try done. by rewrite Hi. Qed.

(** A call before the headers are complete. *)
Definition opening_call (x : HttpCall * HttpInfo) : bool :=
  match x.1 with on_headers_complete | on_message_complete => false | _ => true end.

(** What was collected before is as if it had been told at once. *)
Lemma run_shift skip h w f a x cs h2 :
  string_call (ht_state h) = Some f → string_call (ht_state h2) = None →
  parser_run skip h (state_marks (ht_state h) (a ++ x)) w cs h2 no_marks →
  ∃ cs', parser_run skip h (state_marks (ht_state h) x) w cs' h2 no_marks ∧ same cs ((f a, info h) :: cs')
    ∧ (forallb opening_call cs = true → forallb opening_call cs' = true).
Proof.
  intros Hf H2. revert h x cs Hf. induction w as [|ch w IH]; intros h x cs Hf Hr; inversion Hr as [|? ? ? ? h1 m1 cs1 cs0 ? ? (Hb & Hn & Hs) Hr']; subst.
  { congruence. }
  assert (∀ b, opening_call (f b, info h) = true) as Hopen by (intros b; by destruct (ht_state h); try done; injection Hf as <-).
  assert (info (count h) = info h) as Hi by (unfold count; by case_match).
  pose proof (string_step skip ch (count h) f) as Hstep. rewrite !count_state in Hstep. specialize (Hstep Hf). rewrite Hi in Hstep.
  destruct Hstep as [(h' & Ha & Hf' & Hinf)|[(h' & i & Ha & Hinf)|Hno]]; [| |by apply Hno in Hs].
  - rewrite Ha in Hs. injection Hs as <- <- <-. rewrite state_marks_pass, <- app_assoc in Hr'.
    destruct (IH h' (x ++ [ch]) cs0 Hf' Hr') as (cs' & Hrun & Hsame & Ho). exists cs'. split_and!; [|etrans; [exact Hsame|]|done].
    + change cs' with ([] ++ cs'). econstructor; [split_and!; [done|done|by apply Ha]|]. by rewrite state_marks_pass.
    + apply (same_app [(f a, info h')] [(f a, info h)] (same_info _ f a _ _ Hf Hinf) cs' cs'). reflexivity.
  - rewrite Ha in Hs. injection Hs as <- <- <-. exists ([(f x, i)] ++ cs0). split_and!.
    + econstructor; [split_and!; [done|done|by apply Ha]|]. done.
    + apply (same_app [(f (a ++ x), i)] [(f a, info h); (f x, i)] (glue _ f a x i (info h) Hf Hinf) cs0 cs0). reflexivity.
    + cbn. intros [_ Ho]%andb_true_iff. rewrite Ho. destruct (ht_state h); try done; by injection Hf as <-.
Qed.

(** Until the headers are complete, only what is read of the message changes. *)
Lemma opening_callback x c :
  opening_call x = true → ∃ o, ∀ p, http_callback handlers x (set_ws_http p c) = Got (set_ws_opening o (set_ws_http p c)).
Proof.
  destruct x as [x i]. intros Ho. assert (∀ p, IsClient (set_ws_http p c) = IsClient c) as Hc by done.
  assert (∀ d : WsConn T Http, d = set_ws_opening (ws_opening d) d) as Hd by by intros [].
  destruct x as [|a| |a|a| |a|]; try done; try (exists (ws_opening c); intros p; cbn [http_callback]; f_equal; exact (Hd (set_ws_http p c))).
  - by exists (set_ho_requestUrl (ho_requestUrl (ws_opening c) ++ a) (ws_opening c)).
  - set (o1 := if IsClient c then ws_opening c else ws_opening (EnsureRequest i c)).
    exists (set_ho_headerField (ho_headerField (ws_opening (FlushPendingHeader (set_ws_opening o1 c))) ++ a) (ws_opening (FlushPendingHeader (set_ws_opening o1 c)))).
    intros p. cbn [http_callback]. rewrite Hc.
    assert ((if IsClient c then set_ws_http p c else EnsureRequest i (set_ws_http p c)) = set_ws_http p (set_ws_opening o1 c)) as ->.
    { unfold o1. destruct (IsClient c); [by destruct c|]. unfold EnsureRequest. cbn [ws_opening set_ws_http].
      destruct (ho_request (ws_opening c)); [by destruct c|done]. }
    set (d := set_ws_opening o1 c). assert (FlushPendingHeader (set_ws_http p d) = set_ws_http p (FlushPendingHeader d)) as ->.
    { unfold FlushPendingHeader. change (IsClient (set_ws_http p d)) with (IsClient d). cbn [ws_opening set_ws_http]. by destruct (ho_parsingHeaderValue (ws_opening d)). }
    unfold with_opening. cbn [ws_opening set_ws_http]. f_equal. unfold FlushPendingHeader. by destruct (ho_parsingHeaderValue (ws_opening d)).
  - cbn [http_callback]. destruct (negb (IsClient c) && bool_decide (ho_request (ws_opening c) = None)) eqn:E.
    + exists (ws_opening c). intros p. rewrite Hc. cbn [ws_opening set_ws_http]. rewrite E. by destruct c.
    + exists (set_ho_parsingHeaderValue true (set_ho_headerValue (ho_headerValue (ws_opening c) ++ a) (ws_opening c))).
      intros p. rewrite Hc. cbn [ws_opening set_ws_http]. by rewrite E.
Qed.

Lemma opening_callbacks cs c :
  forallb opening_call cs = true → ∃ o, ∀ p, http_callbacks handlers cs (set_ws_http p c) = Got (set_ws_opening o (set_ws_http p c)).
Proof.
  revert c. induction cs as [|x cs IH]; intros c Ho.
  { exists (ws_opening c). intros p. cbn. by destruct c. }
  cbn in Ho. apply andb_true_iff in Ho as [Hx Ho]. destruct (opening_callback x c Hx) as [o1 H1]. destruct (IH (set_ws_opening o1 c) Ho) as [o2 H2].
  exists o2. intros p. cbn [http_callbacks]. rewrite H1. cbn [cbind]. exact (H2 p).
Qed.

(** ** Segments

    The octets [w] and the [ch] that ends the headers open a connection, in whatever segments they
    arrive; what follows is read as frames. *)
Lemma open_segments w ch t segs c cs h2 h3 cs3 c' :
  let skip := bool_decide (ht_type (ws_http c) = HTTP_RESPONSE) in
  ws_upgraded c = false → ws_closeRequested c = false → bytes_ok w → parser_ok 0 (ws_http c) → fixed_type (ht_state (ws_http c)) = true →
  parser_run skip (ws_http c) (start_marks (ws_http c)) w cs h2 no_marks → string_call (ht_state h2) = None → forallb opening_call cs = true →
  in_body (ht_state h2) = false → ht_nread (count h2) <= HTTP_MAX_HEADER_SIZE →
  parse_byte skip ch [] (count h2) no_marks = Got (Return 1 h3 cs3) →
  http_callbacks handlers (cs ++ cs3) (set_ws_http h3 c) = Got c' → ws_upgraded c' = true → ws_closeRequested c' = false →
  Forall (λ s, s ≠ []) segs → mjoin segs = w ++ ch :: t →
  ∃ tsegs, Forall (λ s, s ≠ []) tsegs ∧ mjoin tsegs = t ∧ process_segments handlers segs c = process_segments handlers tsegs c'.
Proof.
  intros skip. revert w c cs skip. induction segs as [|seg segs IH]; intros w c cs skip Hu Hcr Hb Hp Hf Hr Hs2 Ho Hb2 Hn2 Hlast Hcb Hu' Hcr' Hne Hj.
  { by destruct w. }
  apply Forall_cons in Hne as [Hseg Hne]. change (mjoin (seg :: segs)) with (seg ++ mjoin segs) in Hj.
  assert (∀ fuel, exec_loop skip fuel seg (ws_http c) (start_marks (ws_http c)) 0 = Execute skip seg (ws_http c) ∨ fuel ≠ length seg) as Hex.
  { intros fuel. destruct (decide (fuel = length seg)) as [->|]; [left|by right]. unfold Execute. destruct Hp as [-> _]. by destruct seg. }
  specialize (Hex (length seg)). destruct Hex as [Hex|?]; [|done].
  assert ((∃ w2, w = seg ++ w2 ∧ mjoin segs = w2 ++ ch :: t) ∨ (∃ t1, seg = w ++ ch :: t1 ∧ t = t1 ++ mjoin segs)) as [(w2 & Hw & Hj')|(t1 & Hw & Hj')].
  { apply app_eq_inv in Hj as [(k & Hk & Ht)|(k & Hk & Ht)]; [|left; by exists k]. destruct k as [|x k]; [left; exists []; rewrite app_nil_r in *; by subst|].
    right. exists k. by simplify_eq/=. }
  - (* more of the headers follow *)
    subst w. apply run_split in Hr as (hm & mm & cs1 & cs2 & R1 & R2 & ->). apply bytes_ok_app in Hb as [Hb1 Hb2'].
    destruct (run_ok _ _ _ _ _ _ _ R1 Hb1 Hp) as [Hpm Hmm]; [apply start_marks_ok|]. destruct (run_type _ _ _ _ _ _ _ R1 Hf) as [Htm Hfm].
    assert (in_body (ht_state hm) = false) as Hbm by (inversion R2 as [|? ? ? ? ? ? ? ? ? ? (? & _) _]; by subst).
    unfold marks_ok in Hmm. rewrite Hbm in Hmm. destruct Hmm as [a ->].
    pose proof (run_exec _ _ _ seg cs1 hm _ [] (length seg) 0 R1) as Hre. rewrite app_nil_r in Hre. destruct Hre as (fuel' & _ & E); [done|].
    assert (exec_loop skip fuel' [] hm (state_marks (ht_state hm) a) (0 + Zlen seg) = Got (hm, leftover hm (state_marks (ht_state hm) a), Zlen seg)) as Eend.
    { destruct fuel'; cbn; (rewrite (proj2 (Z.leb_le _ _)); [done|apply leftover_one; unfold marks_ok; rewrite Hbm; by eexists]). }
    rewrite Eend in E. cbn in E. rewrite E in Hex. clear E Eend.
    rewrite forallb_app in Ho. apply andb_true_iff in Ho as [Ho1 Ho2].
    set (lo := leftover hm (state_marks (ht_state hm) a)) in *.
    assert (∃ cs2', parser_run skip hm (start_marks hm) w2 cs2' h2 no_marks ∧ same cs2 (lo ++ cs2') ∧ forallb opening_call lo = true ∧ forallb opening_call cs2' = true) as (cs2' & R2' & Hsame & Hlo & Ho2').
    { rewrite start_marks_eq. destruct (string_call (ht_state hm)) as [f|] eqn:Ef.
      - rewrite <- (app_nil_r a) in R2. destruct (run_shift _ _ _ _ _ _ _ _ Ef Hs2 R2) as (cs2' & H1 & H2 & H3). exists cs2'.
        unfold lo. rewrite (string_leftover _ _ hm a Ef). split_and!; [done|done| |by apply H3]. by destruct (ht_state hm); try done; injection Ef as <-.
      - assert (state_marks (ht_state hm) [] = state_marks (ht_state hm) a) as -> by by rewrite !string_marks.
        assert (lo = []) as -> by (unfold lo; by rewrite string_marks). by exists cs2. }
    destruct (opening_callbacks (cs1 ++ lo) c) as [o Hopen]; [rewrite forallb_app, Ho1; done|].
    set (c1 := set_ws_opening o (set_ws_http hm c)).
    assert (ProcessData handlers seg c = Got c1) as EP.
    { unfold ProcessData. rewrite Hu. cbn [hp_Execute http_parser]. fold skip. rewrite <- Hex. cbn [cbind]. rewrite Hopen. cbn [cbind]. unfold c1. cbn. by rewrite Hu. }
    cbn [process_segments]. rewrite EP. cbn [cbind]. change (ws_closeRequested c1) with (ws_closeRequested c). rewrite Hcr.
    assert (bool_decide (ht_type (ws_http c1) = HTTP_RESPONSE) = skip) as Hskip by (unfold c1, skip; cbn; by rewrite Htm).
    apply (IH w2 c1 cs2'); rewrite ?Hskip; try done.
    assert (same (cs1 ++ cs2) ((cs1 ++ lo) ++ cs2')) as Hall by (rewrite <- app_assoc; by apply same_app).
    rewrite <- Hcb, (http_callbacks_app (cs1 ++ cs2) cs3), Hall, (http_callbacks_app (cs1 ++ lo) cs2'), Hopen. cbn [cbind].
    by rewrite http_callbacks_app.
  - (* the headers end in this segment *)
    pose proof (run_exec _ _ _ w cs h2 _ (ch :: t1) (length seg) 0 Hr) as Hre. rewrite <- Hw in Hre. destruct Hre as (fuel' & Hl' & E); [done|].
    destruct fuel' as [|fuel']; [cbn in Hl'; lia|]. rewrite exec_step, Hlast in E by done. cbn in E. rewrite E in Hex.
    assert (ProcessData handlers seg c = if decide (t1 = []) then Got c' else ProcessData handlers t1 c') as EP.
    { unfold ProcessData at 1. rewrite Hu. cbn [hp_Execute http_parser]. fold skip. rewrite <- Hex. cbn [cbind]. rewrite Hcb. cbn [cbind]. rewrite Hu'.
      subst seg. rewrite Zlen_app, Zlen_cons. pose proof (Zlen_nonneg t1). case_decide as Ht.
      - subst t1. rewrite (proj2 (Z.leb_le _ _)); [done|rewrite Zlen_nil; lia].
      - rewrite (proj2 (Z.leb_gt _ _)) by (destruct t1; [done|rewrite Zlen_cons in *; pose proof (Zlen_nonneg t1); lia]).
        unfold ProcessData. rewrite Hu'. f_equal. change (w ++ ch :: t1) with (w ++ [ch] ++ t1). rewrite app_assoc. apply zdrop_app. unfold Zlen. rewrite length_app. cbn. lia. }
    cbn [process_segments]. rewrite EP. case_decide as Ht.
    + subst t1. exists segs. cbn [cbind]. rewrite Hcr'. done.
    + exists (t1 :: segs). split_and!; [by constructor|done|done].
Qed.
End Callbacks.

(** ** Lines of headers *)

Section Lines.
Context (skip : bool).

(** After [n] octets of a message of which [i] is known; [b]: an Upgrade header was read. *)
Definition reading (i : HttpInfo) (n : Z) (b : bool) (h : Http) : Prop :=
  ht_errno h = HPE_OK ∧ ht_nread h = n ∧ info h = i ∧ has_flag F_TRAILING h = false ∧ (b = true → has_flag F_UPGRADE h = true).

Lemma count_reading i n b h :
  reading i n b h → 0 <= n → n + 1 <= HTTP_MAX_HEADER_SIZE → PARSING_HEADER (ht_state h) = true → reading i (n + 1) b (count h).
Proof.
  intros (H1 & H2 & H3 & H4 & H5) Hn Hm Hp. unfold count. rewrite Hp. unfold reading. cbn. rewrite H2.
  rewrite to_dword_id by (unfold is_dword, HTTP_MAX_HEADER_SIZE in *; lia). done.
Qed.

(** A step with the state and the marks given. *)
Lemma steps_of i n b ch h m h' m' cs :
  reading i n b h → 0 <= n → n + 1 <= HTTP_MAX_HEADER_SIZE → PARSING_HEADER (ht_state h) = true → in_body (ht_state h) = false →
  (∀ h0, reading i (n + 1) b h0 → h0 = count h → parse_byte skip ch [] h0 m = Got (Next 1 h' m' cs)) →
  steps skip ch h m h' m' cs.
Proof.
  intros Hr Hn Hm Hp Hb Hs. pose proof (count_reading _ _ _ _ Hr Hn Hm Hp) as Hc. split; [done|]. split; [|by apply Hs].
  destruct Hc as (_ & -> & _). lia.
Qed.

(** *** Names *)

Definition blank (s : HeaderState) (i : Z) : Http := mkHttp HTTP_REQUEST 0 s_header_field s i 0 0 0 0 0 0 HPE_OK false.

Definition scan_name (p : HeaderState * Z) (ch : Z) : HeaderState * Z :=
  match match_name (TOKEN ch) ch (blank p.1 p.2) with Got x => (ht_header_state x, ht_index x) | _ => p end.

Lemma match_name_frame c ch h :
  match_name c ch h = let? x := match_name c ch (blank (ht_header_state h) (ht_index h)) in
    Got (set_ht_index (ht_index x) (set_ht_header_state (ht_header_state x) h)).
Proof.
  destruct h as [ty fl st hs ix nr cl ma mi su me er up]. unfold match_name, match_word. cbn. destruct hs; cbn; try done; repeat case_match; done.
Qed.

Lemma scan_name_state p ch : name_state p.1 = true → name_state (scan_name p ch).1 = true ∧
  ∀ h, ht_header_state h = p.1 → ht_index h = p.2 →
    match_name (TOKEN ch) ch h = Got (set_ht_index (scan_name p ch).2 (set_ht_header_state (scan_name p ch).1 h)).
Proof.
  intros Hp. unfold scan_name. destruct (match_name_ok (TOKEN ch) ch (blank p.1 p.2) Hp) as (x & E & Hx & _). rewrite E. split; [done|].
  intros h H1 H2. rewrite match_name_frame, H1, H2, E. done.
Qed.

Definition token_char (c : Z) : Prop := is_byte c ∧ TOKEN c ≠ 0.

Lemma token_not c d : token_char c → TOKEN d = 0 → c ≠ d.
Proof. by intros [_ H] Hd ->. Qed.

Lemma scan_name_run i n b w : ∀ p a h,
  reading i n b h → ht_state h = s_header_field → ht_header_state h = p.1 → ht_index h = p.2 → name_state p.1 = true → Forall token_char w →
  0 <= n → n + Zlen w <= HTTP_MAX_HEADER_SIZE →
  ∃ h', parser_run skip h (state_marks s_header_field a) w [] h' (state_marks s_header_field (a ++ w)) ∧ reading i (n + Zlen w) b h'
    ∧ ht_state h' = s_header_field ∧ ht_header_state h' = (foldl scan_name p w).1 ∧ name_state (foldl scan_name p w).1 = true.
Proof.
  revert n. induction w as [|ch w IH]; intros n p a h Hr Hs Hh Hx Hp Hw Hn Hm.
  { exists h. rewrite app_nil_r, Zlen_nil, Z.add_0_r. split_and!; [constructor|done..]. }
  apply Forall_cons in Hw as [Hc Hw]. rewrite Zlen_cons in Hm. pose proof (Zlen_nonneg w). destruct (scan_name_state p ch Hp) as [Hp' Hm'].
  set (h1 := set_ht_index (scan_name p ch).2 (set_ht_header_state (scan_name p ch).1 (count h))).
  assert (reading i (n + 1) b h1) as Hr1 by (apply count_reading; [done|done|lia|by rewrite Hs]).
  destruct (IH (n + 1) (scan_name p ch) (a ++ [ch]) h1) as (h' & R & H1 & H2 & H3 & H4); [done|unfold h1; cbn; by rewrite count_state|done..|lia|lia|].
  exists h'. split_and!; [|rewrite Zlen_cons; by replace (n + (1 + Zlen w)) with (n + 1 + Zlen w) by lia|done..].
  change (@nil (HttpCall * HttpInfo)) with (@nil (HttpCall * HttpInfo) ++ []). econstructor.
  - apply (steps_of i n b ch h _ h1 (state_marks s_header_field a)); [done|done|lia|by rewrite Hs|by rewrite Hs|]. intros h0 _ ->. unfold parse_byte. rewrite count_state, Hs.
    unfold at_header_field. destruct Hc as [_ Hc]. rewrite (proj2 (Z.eqb_neq _ _)) by done. cbn [negb]. rewrite Hm'; [done|unfold count; by case_match..].
  - rewrite state_marks_pass. replace (a ++ ch :: w) with ((a ++ [ch]) ++ w) by by rewrite <- app_assoc. done.
Qed.

(** The comparison with [content-length] succeeds on this name only. *)
Definition length_word : bytes := octets "content-length".
Definition follows (nl : bytes) (p : HeaderState * Z) : Prop :=
  match p.1 with
  | h_C => nl = [99] ∧ p.2 = 0
  | h_CO => nl = [99; 111] ∧ p.2 = 1
  | h_CON => nl = [99; 111; 110] ∧ p.2 = 2
  | h_matching_content_length => 3 <= p.2 <= 12 ∧ nl = ztake (p.2 + 1) length_word
  | h_content_length => nl = length_word
  | _ => True
  end.

Lemma ztake_next i c : 0 <= i < 14 → c = zget i length_word → ztake i length_word ++ [c] = ztake (i + 1) length_word.
Proof.
  intros Hi ->. unfold ztake, zget. rewrite Z2Nat.inj_add by lia. replace (Z.to_nat i + Z.to_nat 1)%nat with (S (Z.to_nat i)) by lia.
  assert (is_Some (length_word !! Z.to_nat i)) as [x Hx] by (apply lookup_lt_is_Some; cbn; lia). by rewrite Hx, (take_S_r _ _ _ Hx).
Qed.

Lemma scan_name_follows p ch nl : token_char ch → follows nl p → follows (nl ++ [TOKEN ch]) (scan_name p ch).
Proof.
  intros Hc Hf. assert (ch ≠ SP) as Hsp by (apply (token_not ch SP Hc); reflexivity). destruct p as [s j]. unfold scan_name, follows in *. cbn [fst snd] in *.
  unfold match_name. destruct s; cbn [blank ht_header_state ht_index set_ht_header_state set_ht_index fst snd] in *; try done.
  - destruct Hf as [-> ->]. destruct (Z.eqb_spec (TOKEN ch) 111) as [->|]; done.
  - destruct Hf as [-> ->]. destruct (Z.eqb_spec (TOKEN ch) 110) as [->|]; done.
  - destruct Hf as [-> ->]. destruct (Z.eqb_spec (TOKEN ch) 110) as [_|_]; [done|]. destruct (Z.eqb_spec (TOKEN ch) 116) as [->|]; [|done].
    split; [vm_compute; intuition discriminate|reflexivity].
  - unfold match_word. cbn. repeat case_match; done.
  - unfold match_word. cbn. repeat case_match; done.
  - destruct Hf as [Hj ->]. unfold match_word. cbn [blank ht_header_state ht_index set_ht_header_state set_ht_index].
    rewrite to_byte_id by (unfold is_byte; lia). change (Zlen (octets "content-length")) with 14. fold length_word.
    destruct (Z.ltb_spec 14 (j + 1)); [lia|]. cbn [orb]. destruct (Z.eqb_spec (TOKEN ch) (zget (j + 1) length_word)) as [Ht|]; [|done]. cbn [negb].
    rewrite (ztake_next (j + 1)) by (done || lia). destruct (Z.eqb_spec (j + 1) (14 - 1)) as [Hx|]; cbn.
    + rewrite Hx. reflexivity.
    + split; [lia|done].
  - unfold match_word. cbn. repeat case_match; done.
  - unfold match_word. cbn. repeat case_match; done.
  - rewrite (proj2 (Z.eqb_neq ch SP)) by done. done.
  - rewrite (proj2 (Z.eqb_neq ch SP)) by done. done.
  - rewrite (proj2 (Z.eqb_neq ch SP)) by done. done.
  - rewrite (proj2 (Z.eqb_neq ch SP)) by done. done.
Qed.

Definition first_scan (ch : Z) : HeaderState * Z :=
  let c := TOKEN ch in
  (if c =? 99 then h_C else if c =? 112 then h_matching_proxy_connection
   else if c =? 116 then h_matching_transfer_encoding else if c =? 117 then h_matching_upgrade else h_general, 0).

Definition scan (name : bytes) : HeaderState :=
  match name with [] => h_general | ch :: w => (foldl scan_name (first_scan ch) w).1 end.

Lemma first_scan_ok ch : name_state (first_scan ch).1 = true ∧ follows [TOKEN ch] (first_scan ch).
Proof.
  unfold first_scan. cbv zeta. destruct (Z.eqb_spec (TOKEN ch) 99) as [->|]; [done|]. by repeat case_match.
Qed.

Lemma scan_follows w p nl : Forall token_char w → follows nl p → follows (nl ++ (TOKEN <$> w)) (foldl scan_name p w).
Proof.
  revert p nl. induction w as [|ch w IH]; intros p nl Hw Hf; [by rewrite app_nil_r|]. apply Forall_cons in Hw as [Hc Hw]. cbn.
  change (TOKEN ch :: (TOKEN <$> w)) with ([TOKEN ch] ++ (TOKEN <$> w)). rewrite app_assoc. apply IH; [done|]. by apply scan_name_follows.
Qed.

Lemma scan_length name : Forall token_char name → TOKEN <$> name ≠ length_word → scan name ≠ h_content_length.
Proof.
  intros Hn Hl Hs. destruct name as [|ch w]; [done|]. apply Forall_cons in Hn as [Hc Hn]. apply Hl. unfold scan in Hs.
  pose proof (scan_follows w _ _ Hn (proj2 (first_scan_ok ch))) as Hf. unfold follows in Hf. by rewrite Hs in Hf.
Qed.

(** *** Flags *)

Lemma add_flag_reading i n b f h : f ∈ [1; 2; 4; 16] → reading i n b h → reading i n b (add_flag f h).
Proof.
  intros Hf (H1 & H2 & H3 & H4 & H5). unfold reading, has_flag, add_flag in *. cbn in *. rewrite !Z.land_lor_distr_l. split_and!; [done..| |].
  - assert (Z.land f F_TRAILING = 0) as ->. { rewrite !elem_of_cons in Hf. destruct Hf as [->|[->|[->|[->|Hf]]]]; [reflexivity..|by apply elem_of_nil in Hf]. }
    by rewrite Z.lor_0_r.
  - intros Hb. specialize (H5 Hb). apply negb_true_iff, Z.eqb_neq in H5. apply negb_true_iff, Z.eqb_neq. rewrite Z.lor_eq_0_iff. tauto.
Qed.

Lemma upgrade_reading i n b h : reading i n b h → reading i n true (add_flag F_UPGRADE h).
Proof.
  intros Hr. destruct (add_flag_reading i n b 16 h) as (H1 & H2 & H3 & H4 & _); [set_solver|done|]. split_and!; [done..|]. intros _.
  unfold has_flag, add_flag. cbn. rewrite Z.land_lor_distr_l. apply negb_true_iff, Z.eqb_neq. rewrite Z.lor_eq_0_iff. intros [_ ?]. done.
Qed.

(** *** Values *)

Definition value_char (c : Z) : Prop := is_byte c ∧ c ≠ CR ∧ c ≠ LF.
Definition value_ok (v : bytes) : Prop := Forall value_char v ∧ match v with [] => True | c :: _ => c ≠ SP ∧ c ≠ 9 end.
Definition name_ok (name : bytes) : Prop := name ≠ [] ∧ Forall token_char name ∧ TOKEN <$> name ≠ length_word.

(** The states of values that are not lengths. *)
Definition word_state (s : HeaderState) : Prop := value_state s = true ∧ s ≠ h_content_length.

Lemma match_word_reading i n b word c s h : reading i n b h → reading i n b (match_word word c s h).
Proof. intros Hr. unfold match_word. cbv zeta. by repeat case_match. Qed.

Lemma match_word_state word c s h : word_state s → word_state (ht_header_state h) → word_state (ht_header_state (match_word word c s h)).
Proof. intros Hs Hh. unfold match_word. cbv zeta. by repeat case_match. Qed.

Lemma match_value_word i n b ch h :
  word_state (ht_header_state h) → ht_state h = s_header_value → reading i n b h →
  ∃ h', match_value ch h = Got h' ∧ word_state (ht_header_state h') ∧ ht_state h' = s_header_value ∧ reading i n b h'.
Proof.
  intros Hw Hs Hr. pose proof (match_value_state ch h Hs) as Hv. destruct Hw as [Hw Hl].
  assert (∃ h', match_value ch h = Got h' ∧ word_state (ht_header_state h') ∧ reading i n b h') as (h' & E & H1 & H2); [|rewrite E in Hv; by exists h'].
  unfold match_value in *. destruct (ht_header_state h) eqn:E; try done; clear Hv;
    first [eexists; split_and!; [reflexivity|apply match_word_state; [done|by rewrite E]|by apply match_word_reading]
          |eexists; split_and!; [reflexivity|by rewrite ?E|done]
          |destruct (ch =? SP); eexists; split_and!; [reflexivity|by rewrite ?E|done|reflexivity|done|done]].
Qed.

Lemma start_value_word i n b ch h :
  name_state (ht_header_state h) = true → ht_header_state h ≠ h_content_length → ht_state h = s_header_value → reading i n b h →
  ∃ h', start_value ch h = Some h' ∧ word_state (ht_header_state h') ∧ ht_state h' = s_header_value
    ∧ reading i n (b || match ht_header_state h with h_upgrade => true | _ => false end) h'.
Proof.
  intros Hn Hl Hs Hr. unfold start_value. destruct (ht_header_state h) eqn:E; try done; rewrite ?orb_false_r, ?orb_true_r;
    (eexists; split_and!; [reflexivity| |done|]; [by repeat case_match|first [done|exact (upgrade_reading i n b h Hr)]]).
Qed.

Lemma scan_value_run i b w : ∀ n a h,
  reading i n b h → ht_state h = s_header_value → word_state (ht_header_state h) → Forall value_char w →
  0 <= n → n + Zlen w <= HTTP_MAX_HEADER_SIZE →
  ∃ h', parser_run skip h (state_marks s_header_value a) w [] h' (state_marks s_header_value (a ++ w)) ∧ reading i (n + Zlen w) b h'
    ∧ ht_state h' = s_header_value ∧ word_state (ht_header_state h').
Proof.
  induction w as [|ch w IH]; intros n a h Hr Hs Hh Hw Hn Hm.
  { exists h. rewrite app_nil_r, Zlen_nil, Z.add_0_r. split_and!; [constructor|done..]. }
  apply Forall_cons in Hw as [(_ & Hc1 & Hc2) Hw]. rewrite Zlen_cons in Hm. pose proof (Zlen_nonneg w).
  destruct (match_value_word i (n + 1) b ch (count h)) as (h1 & E1 & Hw1 & Hs1 & Hr1);
    [unfold count; by case_match|by rewrite count_state|apply count_reading; [done|done|lia|by rewrite Hs]|].
  destruct (IH (n + 1) (a ++ [ch]) h1) as (h' & R & H1 & H2 & H3); [done..|lia|lia|].
  exists h'. split_and!; [|rewrite Zlen_cons; by replace (n + (1 + Zlen w)) with (n + 1 + Zlen w) by lia|done..].
  change (@nil (HttpCall * HttpInfo)) with (@nil (HttpCall * HttpInfo) ++ []). econstructor.
  - apply (steps_of i n b ch h _ h1 (state_marks s_header_value a)); [done|done|lia|by rewrite Hs|by rewrite Hs|]. intros h0 _ ->.
    unfold parse_byte. rewrite count_state, Hs. unfold at_header_value. rewrite !(proj2 (Z.eqb_neq _ _)) by done. by rewrite E1.
  - rewrite state_marks_pass. replace (a ++ ch :: w) with ((a ++ [ch]) ++ w) by by rewrite <- app_assoc. done.
Qed.

(** *** A line *)

Lemma run_one i n b ch h m h' m' cs :
  reading i n b h → 0 <= n → n + 1 <= HTTP_MAX_HEADER_SIZE → PARSING_HEADER (ht_state h) = true → in_body (ht_state h) = false →
  parse_byte skip ch [] (count h) m = Got (Next 1 h' m' cs) → parser_run skip h m [ch] cs h' (pass [ch] m').
Proof.
  intros Hr Hn Hm Hp Hb Hs. rewrite <- (app_nil_r cs). econstructor; [|constructor]. apply (steps_of i n b); [done..|]. by intros h0 _ ->.
Qed.

Definition at_line (s : HttpState) : bool := match s with s_header_field_start | s_header_value_lws => true | _ => false end.

Definition line (name v : bytes) : bytes := name ++ octets ": " ++ v ++ crlf.

Definition asks_upgrade (name v : bytes) : bool :=
  match scan name with h_upgrade => negb (bool_decide (v = [])) | _ => false end.

Lemma name_run i n b name h :
  reading i n b h → at_line (ht_state h) = true → name_ok name → 0 <= n → n + Zlen name <= HTTP_MAX_HEADER_SIZE →
  ∃ h', parser_run skip h no_marks name [] h' (state_marks s_header_field name) ∧ reading i (n + Zlen name) b h'
    ∧ ht_state h' = s_header_field ∧ ht_header_state h' = scan name ∧ name_state (scan name) = true.
Proof.
  intros Hr Hs (Hne & Ht & _) Hn Hm. destruct name as [|ch w]; [done|]. clear Hne. apply Forall_cons in Ht as [Hc Ht]. rewrite Zlen_cons in *. pose proof (Zlen_nonneg w).
  assert (PARSING_HEADER (ht_state h) = true ∧ in_body (ht_state h) = false) as [Hp Hb] by by destruct (ht_state h).
  set (h1 := set_ht_header_state (first_scan ch).1 (set_ht_state s_header_field (set_ht_index 0 (count h)))).
  assert (reading i (n + 1) b h1) as Hr1 by (apply count_reading; [done|done|lia|done]).
  destruct (scan_name_run i (n + 1) b w (first_scan ch) [ch] h1) as (h' & R & H1 & H2 & H3 & H4); [done..|apply first_scan_ok|done|lia|lia|].
  exists h'. split_and!; [|by replace (n + (1 + Zlen w)) with (n + 1 + Zlen w) by lia|done..].
  change (ch :: w) with ([ch] ++ w) at 1. change (@nil (HttpCall * HttpInfo)) with (@nil (HttpCall * HttpInfo) ++ []). eapply run_app; [|exact R].
  apply (run_one i n b ch h no_marks h1 (state_marks s_header_field [])); [done|done|lia|done|done|].
  assert (∀ s, at_field_start skip ch (set_ht_state s (count h)) no_marks = Got (Next 1 h1 (state_marks s_header_field []) [])) as Hstart.
  { intros s. unfold at_field_start. rewrite !(proj2 (Z.eqb_neq ch _)) by (apply token_not; [done|reflexivity]). cbv zeta.
    rewrite (proj2 (Z.eqb_neq (TOKEN ch) 0)) by apply Hc. done. }
  unfold parse_byte. rewrite count_state. destruct (ht_state h) eqn:E; try done.
  - replace (count h) with (set_ht_state s_header_field_start (count h)); [apply Hstart|]. rewrite <- E, <- (count_state h). by destruct (count h).
  - unfold at_value_lws. rewrite !(proj2 (Z.eqb_neq ch _)) by (apply token_not; [done|reflexivity]). apply Hstart.
Qed.

Lemma value_run i n b v h :
  reading i n b h → ht_state h = s_header_value_start → name_state (ht_header_state h) = true → ht_header_state h ≠ h_content_length →
  value_ok v → 0 <= n → n + Zlen v + 1 <= HTTP_MAX_HEADER_SIZE →
  ∃ h', parser_run skip h no_marks (v ++ [CR]) [(on_header_value v, i)] h' no_marks
    ∧ reading i (n + Zlen v + 1) (b || match ht_header_state h with h_upgrade => negb (bool_decide (v = [])) | _ => false end) h'
    ∧ ht_state h' = s_header_almost_done.
Proof.
  intros Hr Hs Hh Hl [Hv Hfirst] Hn Hm. assert (reading i (n + 1) b (count h)) as Hc by (apply count_reading; [done|done|pose proof (Zlen_nonneg v); lia|by rewrite Hs]).
  assert (ht_header_state (count h) = ht_header_state h) as Hch by apply count_header_state.
  destruct v as [|ch w].
  { rewrite Zlen_nil, Z.add_0_r in *. cbn [app]. exists (set_ht_state s_header_almost_done (set_ht_header_state h_general (set_ht_index 0 (set_ht_state s_header_value (count h))))).
    split_and!; [| |done].
    - apply (run_one i n b CR h no_marks _ no_marks); [done|done|lia|by rewrite Hs..|]. unfold parse_byte. rewrite count_state, Hs. cbn. destruct Hc as (_ & _ & <- & _). done.
    - destruct (ht_header_state h); rewrite orb_false_r; exact Hc. }
  apply Forall_cons in Hv as [(_ & Hcr & Hlf) Hv]. rewrite Zlen_cons in *. pose proof (Zlen_nonneg w). destruct Hfirst as [Hsp Htab].
  destruct (start_value_word i (n + 1) b ch (set_ht_index 0 (set_ht_state s_header_value (count h)))) as (h1 & E1 & Hw1 & Hs1 & Hr1);
    [cbn; by rewrite Hch|cbn; by rewrite Hch|done|done|]. cbn in Hr1. rewrite Hch in Hr1.
  destruct (scan_value_run i _ w (n + 1) [ch] h1 Hr1 Hs1 Hw1 Hv) as (h2 & R2 & Hr2 & Hs2 & Hw2); [lia|lia|].
  exists (set_ht_state s_header_almost_done (count h2)).
  assert (reading i (n + 1 + Zlen w + 1) (b || match ht_header_state h with h_upgrade => true | _ => false end) (count h2)) as Hc2
    by (apply count_reading; [done|lia|lia|by rewrite Hs2]).
  split_and!; [|by replace (n + (1 + Zlen w) + 1) with (n + 1 + Zlen w + 1) by lia|done].
  change ((ch :: w) ++ [CR]) with ([ch] ++ w ++ [CR]). change [(on_header_value (ch :: w), i)] with ([] ++ [] ++ [(on_header_value (ch :: w), i)]).
  eapply run_app; [|eapply run_app; [exact R2|]].
  - apply (run_one i n b ch h no_marks h1 (state_marks s_header_value [])); [done|done|lia|by rewrite Hs..|]. unfold parse_byte. rewrite count_state, Hs.
    unfold at_value_start. rewrite !(proj2 (Z.eqb_neq ch _)) by done. cbn [orb]. by rewrite E1.
  - apply (run_one i _ _ CR h2 _ _ no_marks _ Hr2); [lia|lia|by rewrite Hs2..|]. unfold parse_byte. rewrite count_state, Hs2. cbn.
    destruct Hc2 as (_ & _ & <- & _). done.
Qed.

Lemma line_run i n b name v h :
  reading i n b h → at_line (ht_state h) = true → name_ok name → value_ok v → 0 <= n → n + Zlen (line name v) <= HTTP_MAX_HEADER_SIZE →
  ∃ h', parser_run skip h no_marks (line name v) [(on_header_field name, i); (on_header_value v, i)] h' no_marks
    ∧ reading i (n + Zlen (line name v)) (b || asks_upgrade name v) h' ∧ ht_state h' = s_header_value_lws.
Proof.
  intros Hr Hs Hname Hv Hn. unfold line. rewrite !Zlen_app. change (Zlen (octets ": ")) with 2. change (Zlen crlf) with 2.
  pose proof (Zlen_nonneg name). pose proof (Zlen_nonneg v). intros Hm.
  destruct (name_run i n b name h) as (h1 & R1 & Hr1 & Hs1 & Hh1 & Hname1); [done..|lia|].
  assert (reading i (n + Zlen name + 1) b (count h1)) as Hc1 by (apply count_reading; [done|lia|lia|by rewrite Hs1]).
  set (h2 := set_ht_state s_header_value_start (count h1)). assert (reading i (n + Zlen name + 1) b h2) as Hr2 by exact Hc1.
  assert (reading i (n + Zlen name + 1 + 1) b (count h2)) as Hc2 by (apply count_reading; [done|lia|lia|done]).
  assert (ht_header_state (count h2) = scan name) as Hh2 by (unfold h2, count; repeat case_match; done).
  destruct (value_run i (n + Zlen name + 1 + 1) b v (count h2)) as (h3 & R3 & Hr3 & Hs3);
    [done|by rewrite count_state|by rewrite Hh2|rewrite Hh2; apply scan_length; apply Hname|done|lia|lia|]. rewrite Hh2 in Hr3. fold (asks_upgrade name v) in Hr3.
  set (b' := b || asks_upgrade name v) in *. set (n' := n + Zlen name + 1 + 1 + Zlen v + 1) in *.
  assert (reading i (n' + 1) b' (count h3)) as Hc3 by (apply count_reading; [done|lia|lia|by rewrite Hs3]).
  set (flagged := match ht_header_state (count h3) with
    | h_connection_keep_alive => add_flag F_CONNECTION_KEEP_ALIVE (set_ht_state s_header_value_lws (count h3))
    | h_connection_close => add_flag F_CONNECTION_CLOSE (set_ht_state s_header_value_lws (count h3))
    | h_transfer_encoding_chunked => add_flag F_CHUNKED (set_ht_state s_header_value_lws (count h3))
    | _ => set_ht_state s_header_value_lws (count h3) end).
  exists flagged. split_and!.
  - change (octets ": ") with ([58] ++ [SP]). change crlf with ([CR] ++ [LF]). rewrite <- !app_assoc. rewrite (app_assoc v).
    change [(on_header_field name, i); (on_header_value v, i)] with ([] ++ [(on_header_field name, i)] ++ [] ++ [(on_header_value v, i)] ++ []).
    eapply run_app; [exact R1|]. eapply run_app; [|eapply run_app; [|eapply run_app; [exact R3|]]].
    + apply (run_one i _ b 58 h1 _ h2 no_marks _ Hr1); [lia|lia|by rewrite Hs1..|]. unfold parse_byte. rewrite count_state, Hs1. cbn.
      destruct Hc1 as (_ & _ & <- & _). done.
    + apply (run_one i _ b SP h2 _ (count h2) no_marks _ Hr2); [lia|lia|done..].
    + apply (run_one i _ b' LF h3 _ flagged no_marks _ Hr3); [lia|lia|by rewrite Hs3..|]. unfold parse_byte. by rewrite count_state, Hs3.
  - replace (n + (Zlen name + (2 + (Zlen v + 2)))) with (n' + 1) by lia. unfold flagged. destruct (ht_header_state (count h3)); try exact Hc3;
      (apply add_flag_reading; [set_solver|exact Hc3]).
  - unfold flagged. by destruct (ht_header_state (count h3)).
Qed.

(** *** The headers *)

Definition lines (ls : list (bytes * bytes)) : bytes := mjoin ((λ l, line l.1 l.2) <$> ls).
Definition line_calls (i : HttpInfo) (ls : list (bytes * bytes)) : list (HttpCall * HttpInfo) :=
  mjoin ((λ l : bytes * bytes, [(on_header_field l.1, i); (on_header_value l.2, i)]) <$> ls).
Definition line_ok (l : bytes * bytes) : Prop := name_ok l.1 ∧ value_ok l.2.

Lemma lines_run i ls : ∀ n b h,
  reading i n b h → at_line (ht_state h) = true → Forall line_ok ls → 0 <= n → n + Zlen (lines ls) <= HTTP_MAX_HEADER_SIZE →
  ∃ h', parser_run skip h no_marks (lines ls) (line_calls i ls) h' no_marks
    ∧ reading i (n + Zlen (lines ls)) (b || existsb (λ l, asks_upgrade l.1 l.2) ls) h' ∧ at_line (ht_state h') = true.
Proof.
  induction ls as [|[name v] ls IH]; intros n b h Hr Hs Hls Hn Hm.
  { exists h. change (Zlen (lines [])) with 0. rewrite Z.add_0_r, orb_false_r. split_and!; [constructor|done..]. }
  apply Forall_cons in Hls as [[H1 H2] Hls]. change (lines ((name, v) :: ls)) with (line name v ++ lines ls) in *. rewrite Zlen_app in *.
  pose proof (Zlen_nonneg (lines ls)). pose proof (Zlen_nonneg (line name v)).
  destruct (line_run i n b name v h) as (h1 & R1 & Hr1 & Hs1); [done..|lia|].
  destruct (IH _ _ _ Hr1) as (h2 & R2 & Hr2 & Hs2); [by rewrite Hs1|done|lia|lia|].
  exists h2. split_and!; [exact (run_app _ _ _ _ _ _ _ _ _ _ _ R1 R2)| |done]. cbn [existsb fst snd]. by rewrite orb_assoc, Z.add_assoc.
Qed.

(** The line that ends the headers of a message that asks for an upgrade, or grants it. *)
Lemma end_run i n h :
  reading i n true h → at_line (ht_state h) = true → 0 <= n → n + 2 <= HTTP_MAX_HEADER_SIZE →
  ∃ h2 h3, parser_run skip h no_marks [CR] [] h2 no_marks ∧ ht_state h2 = s_headers_almost_done ∧ ht_nread (count h2) <= HTTP_MAX_HEADER_SIZE
    ∧ parse_byte skip LF [] (count h2) no_marks = Got (Return 1 h3 [(on_headers_complete, i); (on_message_complete, i)]).
Proof.
  intros Hr Hs Hn Hm. assert (PARSING_HEADER (ht_state h) = true ∧ in_body (ht_state h) = false) as [Hp Hb] by by destruct (ht_state h).
  set (h2 := set_ht_state s_headers_almost_done (count h)). assert (reading i (n + 1) true h2) as Hr2 by (apply count_reading; [done|done|lia|done]).
  assert (reading i (n + 1 + 1) true (count h2)) as (_ & Hn2 & Hi2 & Ht2 & Hu2) by (apply count_reading; [done|lia|lia|done]).
  assert (∃ h3, parse_byte skip LF [] (count h2) no_marks = Got (Return 1 h3 [(on_headers_complete, i); (on_message_complete, i)])) as [h3 E].
  { unfold parse_byte. rewrite count_state. cbn [h2 ht_state set_ht_state]. unfold at_headers_almost_done, expect. cbn [Z.eqb Pos.eqb].
    rewrite Ht2, (Hu2 eq_refl). cbn [orb]. unfold at_headers_done, expect. cbn [Z.eqb Pos.eqb]. rewrite <- Hi2. destruct skip; cbn; by eexists. }
  exists h2, h3. split_and!; [|done|lia|done].
  apply (run_one i n true CR h no_marks h2 no_marks _ Hr); [lia|lia|done|done|]. unfold parse_byte. rewrite count_state. by destruct (ht_state h).
Qed.

Lemma headers_run i n h ls :
  reading i n false h → at_line (ht_state h) = true → Forall line_ok ls → existsb (λ l, asks_upgrade l.1 l.2) ls = true →
  0 <= n → n + Zlen (lines ls) + 2 <= HTTP_MAX_HEADER_SIZE →
  ∃ h2 h3, parser_run skip h no_marks (lines ls ++ [CR]) (line_calls i ls) h2 no_marks ∧ ht_state h2 = s_headers_almost_done
    ∧ ht_nread (count h2) <= HTTP_MAX_HEADER_SIZE
    ∧ parse_byte skip LF [] (count h2) no_marks = Got (Return 1 h3 [(on_headers_complete, i); (on_message_complete, i)]).
Proof.
  intros Hr Hs Hls Hu Hn Hm. pose proof (Zlen_nonneg (lines ls)). destruct (lines_run i ls n false h) as (h1 & R1 & Hr1 & Hs1); [done..|lia|].
  rewrite Hu in Hr1. destruct (end_run i _ h1 Hr1 Hs1) as (h2 & h3 & R2 & Hrest); [lia|lia|]. exists h2, h3. split; [|done].
  rewrite <- (app_nil_r (line_calls i ls)). exact (run_app _ _ _ _ _ _ _ _ _ _ _ R1 R2).
Qed.

Lemma line_calls_opening i ls : forallb opening_call (line_calls i ls) = true.
Proof. induction ls as [|l ls IH]; [done|exact IH]. Qed.

(** *** The first line *)

Lemma run_explicit ty fl s hs ix n cl ma mi su me er up m ch w h1 m1 cs1 cs cs' h2 m2 :
  PARSING_HEADER s = true → in_body s = false → 0 <= n → n + 1 <= HTTP_MAX_HEADER_SIZE →
  parse_byte skip ch [] (mkHttp ty fl s hs ix (n + 1) cl ma mi su me er up) m = Got (Next 1 h1 m1 cs1) →
  parser_run skip h1 (pass [ch] m1) w cs h2 m2 → cs' = cs1 ++ cs → parser_run skip (mkHttp ty fl s hs ix n cl ma mi su me er up) m (ch :: w) cs' h2 m2.
Proof.
  intros Hp Hb Hn Hm Hs Hr ->. econstructor; [|exact Hr]. split; [done|]. unfold count. cbn [ht_state]. rewrite Hp.
  unfold set_ht_nread. cbn [ht_type ht_flags ht_state ht_header_state ht_index ht_nread ht_content_length ht_major ht_minor ht_status ht_method ht_errno ht_upgrade].
  rewrite to_dword_id by (unfold is_dword, HTTP_MAX_HEADER_SIZE in *; lia). by split; [lia|].
Qed.

Definition url_octet (c : Z) : Prop := IS_URL_CHAR c = true ∨ c = 63 ∨ c = 35.
Definition path_state (s : HttpState) : bool :=
  match s with s_req_path | s_req_query_string_start | s_req_query_string | s_req_fragment_start | s_req_fragment => true | _ => false end.

Lemma url_octet_not c d : url_octet c → d ∈ [SP; CR; LF; 9; 12; 0] → c ≠ d.
Proof.
  intros Hc Hd ->. rewrite !elem_of_cons, elem_of_nil in Hd. destruct Hd as [->|[->|[->|[->|[->|[->|[]]]]]]]; destruct Hc as [Hc|[Hc|Hc]]; discriminate.
Qed.

Lemma parse_url_octet s c : path_state s = true → url_octet c → path_state (parse_url_char s c) = true ∧ parse_url_char s c ≠ s_dead.
Proof.
  intros Hs Hc. unfold parse_url_char. rewrite !(proj2 (Z.eqb_neq c _)) by (apply (url_octet_not c _ Hc); set_solver). cbn [orb].
  destruct Hc as [Hc|[->| ->]]; destruct s; try done; by rewrite Hc.
Qed.

Ltac explicit_http :=
  cbv beta iota delta [set_ht_flags set_ht_state set_ht_index set_ht_content_length set_ht_major set_ht_minor set_ht_status set_ht_method
    ht_type ht_flags ht_state ht_header_state ht_index ht_nread ht_content_length ht_major ht_minor ht_status ht_method ht_errno ht_upgrade];
  cbn [pass no_marks fmap option_fmap option_map].
Ltac explicit_step :=
  eapply run_explicit; [reflexivity|reflexivity|lia|unfold HTTP_MAX_HEADER_SIZE in *; lia|cbn; reflexivity| |reflexivity]; explicit_http.

Definition url_marks (a : bytes) : Marks := mkMarks None None (Some a) None.
Definition url_http (s : HttpState) (n : Z) : Http := mkHttp HTTP_REQUEST 0 s h_general 4 n ULLONG_MAX 0 0 0 1 HPE_OK false.

Lemma path_run w : ∀ s n a,
  path_state s = true → Forall url_octet w → 0 <= n → n + Zlen w <= HTTP_MAX_HEADER_SIZE →
  ∃ s', path_state s' = true ∧ parser_run skip (url_http s n) (url_marks a) w [] (url_http s' (n + Zlen w)) (url_marks (a ++ w)).
Proof.
  induction w as [|ch w IH]; intros s n a Hs Hw Hn Hm.
  { exists s. rewrite app_nil_r, Zlen_nil, Z.add_0_r. split; [done|constructor]. }
  apply Forall_cons in Hw as [Hc Hw]. rewrite Zlen_cons in *. pose proof (Zlen_nonneg w). destruct (parse_url_octet s ch Hs Hc) as [Hs1 Hd].
  destruct (IH (parse_url_char s ch) (n + 1) (a ++ [ch]) Hs1 Hw) as (s' & Hs' & R); [lia|lia|]. exists s'. split; [done|].
  rewrite <- app_assoc, <- Z.add_assoc in R. unfold url_http at 1. eapply (run_explicit _ _ _ _ _ _ _ _ _ _ _ _ _ _ _ _ (url_http (parse_url_char s ch) (n + 1)) (url_marks a) [] []); [by destruct s..|lia|lia| |exact R|done].
  assert (at_url_octet ch (url_http s (n + 1)) (url_marks a) = Got (Next 1 (url_http (parse_url_char s ch) (n + 1)) (url_marks a) [])) as E.
  { unfold at_url_octet. rewrite !(proj2 (Z.eqb_neq ch _)) by (apply (url_octet_not ch _ Hc); set_solver). cbn [orb]. unfold url_char. cbn [ht_state url_http].
    by rewrite bool_decide_eq_false_2. }
  unfold parse_byte. cbn [ht_state]. destruct s; done.
Qed.

Definition path_ok (path : bytes) : Prop := ∃ w, path = 47 :: w ∧ Forall url_octet w ∧ bytes_ok w.

Definition request_line (path : bytes) : bytes := octets "GET " ++ path ++ octets " HTTP/1.1" ++ crlf.
Definition url_info : HttpInfo := mkHttpInfo (octets "GET") 0 0 0.
Definition request_info : HttpInfo := mkHttpInfo (octets "GET") 1 1 0.

Lemma request_line_run path :
  path_ok path → Zlen (request_line path) <= HTTP_MAX_HEADER_SIZE →
  ∃ h, parser_run skip (new_http HTTP_REQUEST) no_marks (request_line path) [(on_message_begin, url_info); (on_url path, url_info)] h no_marks
    ∧ reading request_info (Zlen (request_line path)) false h ∧ at_line (ht_state h) = true.
Proof.
  intros (w & -> & Hw & _). unfold request_line. rewrite !Zlen_app, Zlen_cons. change (Zlen (octets "GET ")) with 4. change (Zlen (octets " HTTP/1.1")) with 9. change (Zlen crlf) with 2.
  pose proof (Zlen_nonneg w). intros Hm. destruct (path_run w s_req_path 5 [47] eq_refl Hw) as (s & Hs & R); [lia|lia|].
  exists (mkHttp HTTP_REQUEST 0 s_header_field_start h_general 4 (5 + Zlen w + 11) ULLONG_MAX 1 1 0 1 HPE_OK false). split_and!; [|unfold reading; cbn; split_and!; [done|lia|done..]|done].
  change (octets "GET " ++ (47 :: w) ++ octets " HTTP/1.1" ++ crlf) with ([71; 69; 84; 32; 47] ++ w ++ octets " HTTP/1.1" ++ crlf).
  change [(on_message_begin, url_info); (on_url (47 :: w), url_info)] with ([(on_message_begin, url_info)] ++ [] ++ [(on_url (47 :: w), url_info)]).
  eapply run_app; [|eapply run_app; [exact R|]].
  - unfold new_http. do 5 explicit_step. constructor.
  - change (octets " HTTP/1.1" ++ crlf) with ([32] ++ [72; 84; 84; 80; 47; 49; 46; 49; 13; 10]). change [(on_url (47 :: w), url_info)] with ([(on_url (47 :: w), url_info)] ++ []).
    set (h1 := mkHttp HTTP_REQUEST 0 s_req_http_start h_general 4 (5 + Zlen w + 1) ULLONG_MAX 0 0 0 1 HPE_OK false). apply (run_app _ _ _ _ _ h1 no_marks).
    + unfold url_http. eapply (run_explicit _ _ _ _ _ _ _ _ _ _ _ _ _ _ _ _ h1 no_marks [(on_url (47 :: w), url_info)] []); [by destruct s..|lia|unfold HTTP_MAX_HEADER_SIZE in *; lia| |exact (run_nil skip h1 no_marks)|reflexivity]. unfold parse_byte. cbn [ht_state]. by destruct s.
    + unfold h1. do 10 explicit_step. replace (5 + Zlen w + 11) with (5 + Zlen w + 1 + 1 + 1 + 1 + 1 + 1 + 1 + 1 + 1 + 1 + 1) by lia. constructor.
Qed.

Definition response_line : bytes := octets "HTTP/1.1 101 Switching Protocols" ++ crlf.
Definition begin_info : HttpInfo := mkHttpInfo (octets "DELETE") 0 0 0.
Definition response_info : HttpInfo := mkHttpInfo (octets "DELETE") 1 1 101.

Lemma response_line_run :
  ∃ h, parser_run skip (new_http HTTP_RESPONSE) no_marks response_line [(on_message_begin, begin_info); (on_status_complete, response_info)] h no_marks
    ∧ reading response_info (Zlen response_line) false h ∧ at_line (ht_state h) = true.
Proof.
  exists (mkHttp HTTP_RESPONSE 0 s_header_field_start h_general 0 (Zlen response_line) ULLONG_MAX 1 1 101 0 HPE_OK false).
  split_and!; [|done..]. unfold new_http. change response_line with
    [72; 84; 84; 80; 47; 49; 46; 49; 32; 49; 48; 49; 32; 83; 119; 105; 116; 99; 104; 105; 110; 103; 32; 80; 114; 111; 116; 111; 99; 111; 108; 115; 13; 10] at 1.
  do 34 explicit_step. constructor.
Qed.
End Lines.

(** ** Headers read back *)

Lemma string_lt_irrefl a : string_lt a a = false.
Proof. induction a as [|x a IH]; [done|]. cbn. by rewrite Z.eqb_refl. Qed.

Lemma string_lt_trans a b c : string_lt a b = true → string_lt b c = true → string_lt a c = true.
Proof.
  revert b c. induction a as [|x a IH]; intros [|y b] [|z c]; try done. cbn.
  destruct (Z.eqb_spec x y) as [->|Hxy], (Z.eqb_spec y z) as [->|Hyz]; rewrite ?Z.ltb_lt.
  - apply IH.
  - by rewrite ?Z.ltb_lt.
  - intros H1 _. rewrite (proj2 (Z.eqb_neq x z)) by done. by apply Z.ltb_lt.
  - intros H1 H2. rewrite (proj2 (Z.eqb_neq x z)) by lia. apply Z.ltb_lt. lia.
Qed.

Lemma string_lt_total a b : a ≠ b → string_lt a b = false → string_lt b a = true.
Proof.
  revert b. induction a as [|x a IH]; intros [|y b] Hne; try done. cbn. rewrite (Z.eqb_sym y x).
  destruct (Z.eqb_spec x y) as [->|Hxy]; [apply IH; congruence|]. rewrite Z.ltb_ge, Z.ltb_lt. lia.
Qed.

(** Each name once, in order, with a value at least. *)
Definition headers_ok (h : Headers) : Prop :=
  StronglySorted (λ a b, string_lt a.1 b.1 = true) h ∧ Forall (λ kv, kv.2 ≠ []) h.

Definition header_list (h : Headers) : list (bytes * bytes) := mjoin ((λ kv : bytes * list bytes, (λ v, (kv.1, v)) <$> kv.2) <$> h).
Definition add_lines (h : Headers) (ls : list (bytes * bytes)) : Headers := foldl (λ h l, AddHeader l.1 l.2 h) h ls.

Lemma map_find_above k (h : Headers) : Forall (λ kv, string_lt kv.1 k = true) h → map_find k h = None.
Proof.
  induction 1 as [|[k' v] h Hk _ IH]; [done|]. cbn in *. rewrite bool_decide_eq_false_2; [done|]. intros ->. by rewrite string_lt_irrefl in Hk.
Qed.

Lemma map_put_above k vs (h : Headers) : Forall (λ kv, string_lt kv.1 k = true) h → map_put k vs h = h ++ [(k, vs)].
Proof.
  induction 1 as [|[k' v] h Hk _ IH]; [done|]. cbn in *. rewrite bool_decide_eq_false_2 by (intros ->; by rewrite string_lt_irrefl in Hk).
  destruct (string_lt k k') eqn:E; [|by rewrite IH]. pose proof (string_lt_trans _ _ _ Hk E) as Hx. by rewrite string_lt_irrefl in Hx.
Qed.

Lemma AddHeader_last k v vs (h : Headers) :
  Forall (λ kv, string_lt kv.1 k = true) h → AddHeader k v (h ++ [(k, vs)]) = h ++ [(k, vs ++ [v])].
Proof.
  intros Hk. unfold AddHeader. assert (map_find k (h ++ [(k, vs)]) = Some vs) as ->.
  { induction Hk as [|[k' v'] h Hk _ IH]; cbn in *; [by rewrite bool_decide_eq_true_2|].
    rewrite bool_decide_eq_false_2; [done|]. intros ->. by rewrite string_lt_irrefl in Hk. }
  induction Hk as [|[k' v'] h Hk _ IH]; cbn in *; [by rewrite bool_decide_eq_true_2|]. rewrite bool_decide_eq_false_2 by (intros ->; by rewrite string_lt_irrefl in Hk).
  destruct (string_lt k k') eqn:E; [|by rewrite IH]. pose proof (string_lt_trans _ _ _ Hk E) as Hx. by rewrite string_lt_irrefl in Hx.
Qed.

Lemma add_values k vs ws (h : Headers) :
  Forall (λ kv, string_lt kv.1 k = true) h → add_lines (h ++ [(k, ws)]) ((λ v, (k, v)) <$> vs) = h ++ [(k, ws ++ vs)].
Proof.
  intros Hk. revert ws. induction vs as [|v vs IH]; intros ws; [by rewrite app_nil_r|]. cbn. rewrite AddHeader_last by done.
  change (add_lines (h ++ [(k, ws ++ [v])]) ((λ v, (k, v)) <$> vs) = h ++ [(k, ws ++ v :: vs)]). by rewrite IH, <- app_assoc.
Qed.

(** The lines of headers give the headers back. *)
Lemma add_header_list h h0 : headers_ok (h0 ++ h) → add_lines h0 (header_list h) = h0 ++ h.
Proof.
  revert h0. induction h as [|[k vs] h IH]; intros h0 Hh; [by rewrite app_nil_r|].
  assert (Forall (λ kv, string_lt kv.1 k = true) h0) as Hk.
  { destruct Hh as [Hs _]. clear IH. induction h0 as [|[k' vs'] h0 IH]; [done|]. cbn in Hs. apply StronglySorted_inv in Hs as [Hs Hf]. constructor; [|by apply IH].
    rewrite Forall_app in Hf. destruct Hf as [_ Hf]. by apply Forall_cons in Hf as [Hf _]. }
  assert (vs ≠ []) as Hvs by (destruct Hh as [_ Hv]; apply Forall_app in Hv as [_ Hv]; by apply Forall_cons in Hv as [Hv _]).
  destruct vs as [|v vs]; [done|]. change (header_list ((k, v :: vs) :: h)) with ((k, v) :: ((λ v, (k, v)) <$> vs) ++ header_list h).
  unfold add_lines. cbn [foldl fst snd]. assert (AddHeader k v h0 = h0 ++ [(k, [v])]) as ->.
  { unfold AddHeader. rewrite map_find_above by done. by apply map_put_above. }
  rewrite foldl_app. change (add_lines (add_lines (h0 ++ [(k, [v])]) ((λ v, (k, v)) <$> vs)) (header_list h) = h0 ++ (k, v :: vs) :: h).
  rewrite add_values by done. cbn [app]. change (h0 ++ (k, v :: vs) :: h) with (h0 ++ [(k, v :: vs)] ++ h). rewrite app_assoc. apply IH. by rewrite <- app_assoc.
Qed.

Lemma map_put_forall {A} (Q : bytes * A → Prop) k v (m : list (bytes * A)) : Q (k, v) → Forall Q m → Forall Q (map_put k v m).
Proof.
  intros Hq. induction 1 as [|[k' v'] m Hm Hms IH]; [by repeat constructor|]. cbn. case_bool_decide; [subst; by constructor|].
  destruct (string_lt k k'); by repeat constructor.
Qed.

Lemma map_put_sorted {A} k (v : A) m :
  StronglySorted (λ a b, string_lt a.1 b.1 = true) m → StronglySorted (λ a b, string_lt a.1 b.1 = true) (map_put k v m).
Proof.
  induction 1 as [|[k' v'] m Hs IH Hf]; [by repeat constructor|]. cbn. case_bool_decide as Hk; [subst; by constructor|].
  destruct (string_lt k k') eqn:E.
  - constructor; [by constructor|]. constructor; [done|]. eapply Forall_impl; [exact Hf|]. intros [x y]. cbn. apply (string_lt_trans _ _ _ E).
  - constructor; [done|]. apply map_put_forall; [cbn; by apply string_lt_total|done].
Qed.

Lemma map_find_forall {A} (Q : bytes * A → Prop) k m v : Forall Q m → map_find k m = Some v → Q (k, v).
Proof.
  induction 1 as [|[k' v'] m Hm _ IH]; [done|]. cbn. case_bool_decide as Hk; [subst; by intros [= ->]|done].
Qed.

Lemma AddHeader_forall (Q : bytes * bytes → Prop) k v h :
  Q (k, v) → Forall (λ kv, Forall (λ v, Q (kv.1, v)) kv.2) h → Forall (λ kv, Forall (λ v, Q (kv.1, v)) kv.2) (AddHeader k v h).
Proof.
  intros Hq Hh. unfold AddHeader. destruct (map_find k h) as [vs|] eqn:E; apply map_put_forall; [|done|by repeat constructor|done].
  cbn. apply Forall_app. split; [exact (map_find_forall _ _ _ _ Hh E)|by constructor].
Qed.

Lemma AddHeader_ok k v h : headers_ok h → headers_ok (AddHeader k v h).
Proof.
  intros [H1 H2]. unfold AddHeader. destruct (map_find k h) as [vs|]; (split; [by apply map_put_sorted|apply map_put_forall; [cbn|done]]); [by destruct vs|done].
Qed.

Lemma header_list_forall (Q : bytes * bytes → Prop) h : Forall (λ kv, Forall (λ v, Q (kv.1, v)) kv.2) h → Forall Q (header_list h).
Proof.
  induction 1 as [|[k vs] h Hk _ IH]; [done|]. change (Forall Q (((λ v, (k, v)) <$> vs) ++ header_list h)). apply Forall_app. split; [|done]. by apply Forall_fmap.
Qed.

Lemma header_lines_eq h : header_lines h = lines (header_list h).
Proof.
  induction h as [|[k vs] h IH]; [done|]. change (header_lines ((k, vs) :: h)) with (mjoin ((λ v, line k v) <$> vs) ++ header_lines h).
  change (header_list ((k, vs) :: h)) with (((λ v, (k, v)) <$> vs) ++ header_list h). unfold lines. rewrite fmap_app, join_app, IH. f_equal.
  rewrite <- list_fmap_compose. done.
Qed.

Lemma map_find_put {A} k (v : A) m : map_find k (map_put k v m) = Some v.
Proof.
  induction m as [|[k' v'] m IH]; cbn; [by rewrite bool_decide_eq_true_2|]. case_bool_decide as Hk; [cbn; by rewrite bool_decide_eq_true_2|].
  destruct (string_lt k k'); cbn; [by rewrite bool_decide_eq_true_2|by rewrite bool_decide_eq_false_2].
Qed.

Lemma map_find_put_ne {A} k k1 (v : A) m : k ≠ k1 → map_find k (map_put k1 v m) = map_find k m.
Proof.
  intros Hk. induction m as [|[k' v'] m IH]; cbn; [by rewrite bool_decide_eq_false_2|]. case_bool_decide as Hk1; [subst; cbn; by rewrite !bool_decide_eq_false_2|].
  destruct (string_lt k1 k'); cbn; [by rewrite (bool_decide_eq_false_2 (k = k1))|by rewrite IH].
Qed.

(** The first value of a name stays. *)
Lemma GetHeader_add k v k1 v1 vs h : map_find k h = Some (v :: vs) → ∃ vs', map_find k (AddHeader k1 v1 h) = Some (v :: vs').
Proof.
  intros Hf. unfold AddHeader. destruct (decide (k = k1)) as [->|Hk].
  - rewrite Hf, map_find_put. by eexists.
  - destruct (map_find k1 h); rewrite map_find_put_ne, Hf by done; by eexists.
Qed.

Lemma in_header_list k v h : (∃ vs, map_find k h = Some vs ∧ v ∈ vs) → (k, v) ∈ header_list h.
Proof.
  intros (vs & Hf & Hv). induction h as [|[k' vs'] h IH]; [done|]. change (header_list ((k', vs') :: h)) with (((λ v, (k', v)) <$> vs') ++ header_list h).
  rewrite elem_of_app. cbn in Hf. case_bool_decide as Hk; [left; simplify_eq; apply list_elem_of_fmap; by exists v|right; by apply IH].
Qed.

(** ** Both ends *)

(** What is written in base 64. *)
Definition base64_char (c : Z) : Prop := IS_ALPHANUM c = true ∨ c ∈ octets "+/=".
Definition base64 (v : bytes) : Prop := bytes_ok v ∧ Forall base64_char v.

Class WsBase64 (K : WsCrypto) : Prop := {
  nonce_base64 n key : random_nonce n = Some key → base64 key ∧ key ≠ [];
  accept_base64 key : base64 (sha1_base64 key);
}.

Lemma base64_not c d : base64_char c → d ∈ [SP; CR; LF; 9] → c ≠ d.
Proof.
  intros Hc Hd ->. rewrite !elem_of_cons, elem_of_nil in Hd. destruct Hd as [->|[->|[->|[->|[]]]]]; (destruct Hc as [Hc|Hc]; [discriminate|]);
    cbn in Hc; rewrite !elem_of_cons, elem_of_nil in Hc; destruct Hc as [Hc|[Hc|[Hc|[]]]]; discriminate.
Qed.

Lemma base64_value v : base64 v → value_ok v.
Proof.
  intros [Hb Hv]. split.
  - induction Hv as [|c v Hc _ IH]; [done|]. apply Forall_cons in Hb as [Hb1 Hb]. constructor; [|by apply IH].
    split; [done|]. split; apply (base64_not c _ Hc); set_solver.
  - destruct v as [|c v]; [done|]. apply Forall_cons in Hv as [Hc _]. split; apply (base64_not c _ Hc); set_solver.
Qed.

(** The names and values of the code. *)
Lemma name_ok_check name :
  bool_decide (name ≠ [] ∧ Forall (λ x, (0 <= x ∧ x < 256) ∧ TOKEN x ≠ 0) name ∧ TOKEN <$> name ≠ length_word) = true → name_ok name.
Proof. intros Hn. by apply bool_decide_eq_true in Hn. Qed.

Lemma value_ok_check v :
  bool_decide (Forall (λ x, (0 <= x ∧ x < 256) ∧ x ≠ CR ∧ x ≠ LF) v ∧ head v ≠ Some SP ∧ head v ≠ Some 9) = true → value_ok v.
Proof. intros Hv. apply bool_decide_eq_true in Hv as (H1 & H2 & H3). split; [done|]. destruct v; [done|]. split; intros ->; done. Qed.

Section Ends.
Context {W : WireOps} {V : MoreWireOps} {K : WsCrypto} {T : Type} {X : WsTransport T} (handlers : Handlers).
Implicit Types (c : WsConn T Http).

Lemma server_lines i ls : ∀ c r u rh,
  ws_role c = WsServer → Forall line_ok ls → FlushPendingHeader (EnsureRequest i c) = set_ws_opening (mkOpening (Some r) u [] [] false rh) c →
  ∃ o, http_callbacks handlers (line_calls i ls) c = Got (set_ws_opening o c)
    ∧ FlushPendingHeader (EnsureRequest i (set_ws_opening o c))
      = set_ws_opening (mkOpening (Some (mkHTTPRequest (hr_method r) (hr_requestURI r) (hr_httpMajor r) (hr_httpMinor r) (add_lines (hr_headers r) ls))) u [] [] false rh) c.
Proof.
  induction ls as [|[name v] ls IH]; intros c r u rh Hc Hls Hf.
  { exists (ws_opening c). replace (set_ws_opening (ws_opening c) c) with c by by destruct c. split; [done|]. rewrite Hf. by destruct r. }
  apply Forall_cons in Hls as [[(Hne & _) _] Hls]. assert (IsClient c = false) as Hcl by (unfold IsClient; by rewrite Hc).
  set (c2 := set_ws_opening (mkOpening (Some r) u name v true rh) c).
  assert (http_callbacks handlers [(on_header_field name, i); (on_header_value v, i)] c = Got c2) as E2.
  { cbn [http_callbacks http_callback]. rewrite Hcl, Hf. cbn [cbind]. unfold IsClient. cbn. rewrite Hc. done. }
  destruct (IH c2 (request_AddHeader name v r) u rh Hc Hls) as (o & E & F).
  { unfold EnsureRequest, FlushPendingHeader, IsClient. cbn. rewrite Hc, (bool_decide_eq_false_2 (name = [])) by done. done. }
  exists o. split; [|exact F]. change (line_calls i ((name, v) :: ls)) with ([(on_header_field name, i); (on_header_value v, i)] ++ line_calls i ls).
  rewrite http_callbacks_app, E2. exact E.
Qed.

Definition lower_lines (m : list (bytes * bytes)) (ls : list (bytes * bytes)) : list (bytes * bytes) := foldl (λ m l, map_put (ToLower l.1) l.2 m) m ls.

Lemma client_lines i ls : ∀ c r u rh,
  ws_role c = WsClient → Forall line_ok ls → FlushPendingHeader c = set_ws_opening (mkOpening r u [] [] false rh) c →
  ∃ o, http_callbacks handlers (line_calls i ls) c = Got (set_ws_opening o c)
    ∧ FlushPendingHeader (set_ws_opening o c) = set_ws_opening (mkOpening r u [] [] false (lower_lines rh ls)) c.
Proof.
  induction ls as [|[name v] ls IH]; intros c r u rh Hc Hls Hf.
  { exists (ws_opening c). replace (set_ws_opening (ws_opening c) c) with c by by destruct c. done. }
  apply Forall_cons in Hls as [[(Hne & _) _] Hls]. assert (IsClient c = true) as Hcl by (unfold IsClient; by rewrite Hc).
  set (c2 := set_ws_opening (mkOpening r u name v true rh) c).
  assert (http_callbacks handlers [(on_header_field name, i); (on_header_value v, i)] c = Got c2) as E2.
  { cbn [http_callbacks http_callback]. rewrite Hcl, Hf. cbn [cbind]. unfold IsClient. cbn. rewrite Hc. done. }
  destruct (IH c2 r u (map_put (ToLower name) v rh) Hc Hls) as (o & E & F).
  { unfold FlushPendingHeader, IsClient. cbn. rewrite Hc, (bool_decide_eq_false_2 (name = [])) by done. done. }
  exists o. split; [|exact F]. change (line_calls i ((name, v) :: ls)) with ([(on_header_field name, i); (on_header_value v, i)] ++ line_calls i ls).
  rewrite http_callbacks_app, E2. exact E.
Qed.

(** A first line and headers that open a connection, in whatever segments. *)
Lemma message_opens first calls i h1 ls t segs c (f : Http → WsConn T Http) :
  let skip := bool_decide (ht_type (ws_http c) = HTTP_RESPONSE) in
  ws_upgraded c = false → ws_closeRequested c = false → parser_ok 0 (ws_http c) → fixed_type (ht_state (ws_http c)) = true →
  start_marks (ws_http c) = no_marks →
  parser_run skip (ws_http c) no_marks first calls h1 no_marks → reading i (Zlen first) false h1 → at_line (ht_state h1) = true →
  bytes_ok (first ++ lines ls ++ [CR]) → forallb opening_call calls = true → Forall line_ok ls → existsb (λ l, asks_upgrade l.1 l.2) ls = true →
  Zlen first + Zlen (lines ls) + 2 <= HTTP_MAX_HEADER_SIZE →
  (∀ p, http_callbacks handlers ((calls ++ line_calls i ls) ++ [(on_headers_complete, i); (on_message_complete, i)]) (set_ws_http p c) = Got (f p)
     ∧ ws_upgraded (f p) = true ∧ ws_closeRequested (f p) = false) →
  Forall (λ s, s ≠ []) segs → mjoin segs = ((first ++ lines ls ++ [CR]) ++ [LF]) ++ t →
  ∃ p tsegs, Forall (λ s, s ≠ []) tsegs ∧ mjoin tsegs = t ∧ process_segments handlers segs c = process_segments handlers tsegs (f p).
Proof.
  intros skip Hu Hcr Hpo Hft Hsm R1 Hr1 Hs1 Hb Ho Hls Hup Hm Hcb Hne Hj.
  destruct (headers_run skip i _ h1 ls Hr1 Hs1 Hls Hup) as (h2 & h3 & R2 & Hs2 & Hn2 & E2); [apply Zlen_nonneg|lia|].
  exists h3. destruct (Hcb h3) as (Hc1 & Hc2 & Hc3). rewrite <- app_assoc in Hj.
  eapply (open_segments handlers (first ++ lines ls ++ [CR]) LF t segs c (calls ++ line_calls i ls) h2 h3 _ (f h3)); try done.
  - rewrite Hsm. exact (run_app _ _ _ _ _ _ _ _ _ _ _ R1 R2).
  - by rewrite Hs2.
  - by rewrite forallb_app, Ho, line_calls_opening.
  - by rewrite Hs2.
Qed.

(** *** The server *)

Definition request_ok (path : bytes) (h : Headers) : Prop :=
  path_ok path ∧ headers_ok h ∧ Forall (λ kv, Forall (λ v, line_ok (kv.1, v)) kv.2) h
  ∧ existsb (λ l, asks_upgrade l.1 l.2) (header_list h) = true.

Lemma line_bytes l : line_ok l → bytes_ok (line l.1 l.2).
Proof.
  intros [(_ & Hn & _) [Hv _]]. unfold line. rewrite !bytes_ok_app. split_and!; [|by repeat constructor| |by repeat constructor].
  - eapply Forall_impl; [exact Hn|]. by intros ? [].
  - eapply Forall_impl; [exact Hv|]. by intros ? [].
Qed.

Lemma lines_bytes ls : Forall line_ok ls → bytes_ok (lines ls).
Proof. induction 1 as [|l ls Hl _ IH]; [by constructor|]. change (lines (l :: ls)) with (line l.1 l.2 ++ lines ls). apply bytes_ok_app. split; [by apply line_bytes|done]. Qed.

Lemma path_c_str path : path_ok path → c_str path = path.
Proof.
  intros (w & -> & Hw & _). cbn. f_equal. induction Hw as [|c w Hc _ IH]; [done|]. cbn.
  rewrite (proj2 (Z.eqb_neq c 0)) by (apply (url_octet_not c 0 Hc); set_solver). by rewrite IH.
Qed.

Lemma request_line_bytes path : path_ok path → bytes_ok (request_line path).
Proof.
  intros (w & -> & _ & Hw). unfold request_line. change (octets "GET " ++ (47 :: w) ++ octets " HTTP/1.1" ++ crlf) with ([71; 69; 84; 32; 47] ++ w ++ octets " HTTP/1.1" ++ crlf).
  rewrite !bytes_ok_app. split_and!; [by repeat constructor|done|by repeat constructor..].
Qed.

Lemma request_Serialize_eq path h :
  path_ok path → Zlen (request_line path) <= 4095 →
  request_Serialize (mkHTTPRequest (octets "GET") path 1 1 h) = (request_line path ++ lines (header_list h) ++ [CR]) ++ [LF].
Proof.
  intros Hp Hl. unfold request_Serialize. cbn [hr_method hr_requestURI hr_httpMajor hr_httpMinor hr_headers]. rewrite (path_c_str path), header_lines_eq by done.
  change (c_str (octets "GET") ++ octets " " ++ path ++ octets " HTTP/" ++ decimal 1 ++ octets "." ++ decimal 1 ++ crlf) with (octets "GET " ++ path ++ octets " HTTP/1.1" ++ crlf).
  fold (request_line path). unfold line4096. rewrite ztake_all by done. change crlf with ([CR] ++ [LF]). by rewrite !app_assoc.
Qed.

(** The server that has accepted the request [r]. *)
Definition server_opened (t : T) (r : HTTPRequest) (alive : bool) (h : Http) : WsConn T Http :=
  mkWsConn WsServer true true false alive t h (mkOpening (Some r) (hr_requestURI r) [] [] false []) (mkClientOpening NotAClient [] [] [] [] false)
    (mkFrameReader new_header_parser None 0 None 0)
    (mkWsOutput [] false (Some (accept_response r (GetHeader (octets "Sec-WebSocket-Key") (hr_headers r)))) false)
    ([onUpgradeRequest; onWakeupNeeded] ++ if alive then [onOpen] else []).

Lemma Accept_key alive c r :
  ws_role c = WsServer → ho_request (ws_opening c) = Some r → GetHeader (octets "Sec-WebSocket-Key") (hr_headers r) ≠ [] →
  Accept alive c = Got (notify onOpen (ws_called onWakeupNeeded (set_ws_upgraded true
    (with_output (set_ou_response (Some (accept_response r (GetHeader (octets "Sec-WebSocket-Key") (hr_headers r))))) (set_ws_listening alive c))))).
Proof.
  intros Hc Hr Hkey. unfold Accept, IsClient. rewrite Hc. cbn [bool_decide decide_rel]. cbn [ws_opening set_ws_listening]. rewrite Hr.
  set (key := GetHeader _ _) in *. destruct (Z.eqb_spec (Zlen key) 0) as [Hz|_]; [|done].
  destruct key as [|x v]; [done|]. rewrite Zlen_cons in Hz. pose proof (Zlen_nonneg v). lia.
Qed.

Lemma server_opens path h hd alive tr t segs :
  let r := mkHTTPRequest (octets "GET") path 1 1 h in
  request_ok path h → GetHeader (octets "Sec-WebSocket-Key") h ≠ [] → find_handler path handlers = Some hd → hd r = DoAccept alive →
  Zlen (request_line path) <= 4095 → Zlen (request_Serialize r) <= HTTP_MAX_HEADER_SIZE →
  Forall (λ s, s ≠ []) segs → mjoin segs = request_Serialize r ++ t →
  ∃ p tsegs, Forall (λ s, s ≠ []) tsegs ∧ mjoin tsegs = t
    ∧ process_segments handlers segs (ws_Init tr) = process_segments handlers tsegs (server_opened tr r alive p).
Proof.
  intros r (Hp & Hh & Hls & Hu) Hkey Hfind Hhd Hl Hm Hne Hj. unfold r in Hm, Hj. rewrite request_Serialize_eq in Hm, Hj by done.
  apply header_list_forall in Hls. rewrite !Zlen_app in Hm. change (Zlen [CR]) with 1 in Hm. change (Zlen [LF]) with 1 in Hm.
  destruct (request_line_run false path Hp) as (h1 & R1 & Hr1 & Hs1); [unfold HTTP_MAX_HEADER_SIZE; lia|].
  apply (message_opens (request_line path) [(on_message_begin, url_info); (on_url path, url_info)] request_info h1 (header_list h) t segs
    (ws_Init tr) (server_opened tr r alive)); try done.
  - rewrite !bytes_ok_app. split_and!; [by apply request_line_bytes|by apply lines_bytes|by repeat constructor].
  - lia.
  - intros p. split; [|done]. set (c := set_ws_http p (ws_Init tr)).
    set (c1 := set_ws_opening (mkOpening None path [] [] false []) c).
    destruct (server_lines request_info (header_list h) c1 (mkHTTPRequest (octets "GET") path 1 1 []) path [] eq_refl Hls eq_refl) as (o & E & F).
    rewrite http_callbacks_app, http_callbacks_app.
    change (http_callbacks handlers [(on_message_begin, url_info); (on_url path, url_info)] c) with (Got c1). cbn [cbind]. rewrite E. cbn [cbind].
    cbn [http_callbacks http_callback]. change (IsClient (set_ws_opening o c1)) with false. cbn iota. rewrite F. cbn [cbind hr_headers hr_method hr_requestURI hr_httpMajor hr_httpMinor].
    rewrite (add_header_list h []) by done. cbn [app]. fold r.
    set (d := set_ws_opening _ c1). change (IsClient d) with false. cbn [ws_opening d set_ws_opening ho_request].
    unfold server_onUpgradeRequest. cbn [ws_opening ws_called set_ws_calls d set_ws_opening ho_request hr_requestURI r]. rewrite Hfind, Hhd.
    rewrite (Accept_key alive (ws_called onUpgradeRequest d) r) by done. by destruct alive.
Qed.

(** *** The client *)

Definition protocol_lines (r : HTTPRequest) : list (bytes * bytes) :=
  let protocol := octets "Sec-WebSocket-Protocol" in
  if HasHeader protocol (hr_headers r) then [(protocol, GetHeader protocol (hr_headers r))] else [].

Definition accept_lines (r : HTTPRequest) (key : bytes) : list (bytes * bytes) :=
  [(octets "Connection", octets "Upgrade"); (octets "Sec-WebSocket-Accept", ComputeAcceptKey key)]
  ++ protocol_lines r ++ [(octets "Upgrade", octets "Websocket")].

Lemma accept_lines_eq r key : header_list (hs_headers (accept_response r key)) = accept_lines r key.
Proof. unfold accept_response, accept_lines, protocol_lines. cbv zeta. by destruct (HasHeader _ _). Qed.

Lemma response_Serialize_eq r key :
  response_Serialize (accept_response r key) = (response_line ++ lines (accept_lines r key) ++ [CR]) ++ [LF].
Proof.
  unfold response_Serialize. rewrite header_lines_eq, accept_lines_eq. change crlf with ([CR] ++ [LF]) at 2.
  assert (line4096 (octets "HTTP/" ++ decimal (hs_httpMajor (accept_response r key)) ++ octets "." ++ decimal (hs_httpMinor (accept_response r key)) ++ octets " "
    ++ decimal (hs_code (accept_response r key)) ++ octets " " ++ c_str (hs_reason (accept_response r key)) ++ crlf) = response_line) as ->.
  { unfold accept_response. cbv zeta. by destruct (HasHeader _ _). }
  by rewrite !app_assoc.
Qed.

(** The client that was told so. *)
Definition client_opened c (r : HTTPRequest) (p : Http) : WsConn T Http :=
  notify onOpen (with_client (set_cl_state Opened) (set_ws_upgraded true
    (set_ws_opening (mkOpening None [] [] [] false (lower_lines [] (accept_lines r (cl_key (ws_client c))))) (set_ws_http p c)))).

Lemma accepts c r p :
  let d := set_ws_opening (mkOpening None [] [] [] false (lower_lines [] (accept_lines r (cl_key (ws_client c))))) (set_ws_http p c) in
  upgrade_accepted 101 d = true.
Proof.
  intros d. unfold upgrade_accepted. assert (ToLower (c_str (GetResponseHeader (octets "upgrade") d)) = octets "websocket") as ->.
  { unfold d, accept_lines, protocol_lines. cbv zeta. by destruct (HasHeader _ _). }
  assert (GetResponseHeader (octets "connection") d = octets "Upgrade") as ->.
  { unfold d, accept_lines, protocol_lines. cbv zeta. by destruct (HasHeader _ _). }
  assert (GetResponseHeader (octets "sec-websocket-accept") d = ComputeAcceptKey (cl_key (ws_client d))) as ->.
  { unfold d, accept_lines, protocol_lines. cbv zeta. by destruct (HasHeader _ _). }
  rewrite !bool_decide_eq_true_2 by done. reflexivity.
Qed.

Lemma accept_lines_ok {HB : WsBase64 K} r key :
  Forall (λ kv, Forall (λ v, line_ok (kv.1, v)) kv.2) (hr_headers r) → Forall line_ok (accept_lines r key).
Proof.
  intros Hr. unfold accept_lines. repeat apply Forall_app_2; [|unfold protocol_lines|].
  - constructor; [|constructor; [|constructor]]; (split; [by apply name_ok_check|]); [by apply value_ok_check|apply base64_value, accept_base64].
  - cbv zeta. destruct (HasHeader _ _) eqn:E; [|done]. constructor; [|done]. unfold HasHeader in E. apply bool_decide_eq_true in E as [vs E]. unfold GetHeader. rewrite E.
    apply (map_find_forall _ _ _ _ Hr) in E. cbn in E. destruct vs as [|v vs]; [split; [by apply name_ok_check|done]|by apply Forall_cons in E as [E _]].
  - constructor; [|constructor]. split; [by apply name_ok_check|by apply value_ok_check].
Qed.

Lemma client_opens {HB : WsBase64 K} c r t segs :
  let answer := response_Serialize (accept_response r (cl_key (ws_client c))) in
  ws_role c = WsClient → ws_upgraded c = false → ws_closeRequested c = false → ws_http c = new_http HTTP_RESPONSE →
  ws_opening c = mkOpening None [] [] [] false [] → Forall (λ kv, Forall (λ v, line_ok (kv.1, v)) kv.2) (hr_headers r) →
  Zlen answer <= HTTP_MAX_HEADER_SIZE → Forall (λ s, s ≠ []) segs → mjoin segs = answer ++ t →
  ∃ p tsegs, Forall (λ s, s ≠ []) tsegs ∧ mjoin tsegs = t
    ∧ process_segments handlers segs c = process_segments handlers tsegs (client_opened c r p).
Proof.
  intros answer Hc Hu Hcr Hp Ho Hr Hm Hne Hj. unfold answer in Hm, Hj. rewrite response_Serialize_eq in Hm, Hj. set (ls := accept_lines r _) in *.
  rewrite !Zlen_app in Hm. change (Zlen [CR]) with 1 in Hm. change (Zlen [LF]) with 1 in Hm.
  assert (Forall line_ok ls) as Hls by by apply accept_lines_ok. destruct (response_line_run true) as (h1 & R1 & Hr1 & Hs1).
  assert (bool_decide (ht_type (ws_http c) = HTTP_RESPONSE) = true) as Hskip by by rewrite Hp.
  eapply (message_opens response_line [(on_message_begin, begin_info); (on_status_complete, response_info)] response_info h1 ls t segs c (client_opened c r));
    rewrite ?Hskip, ?Hp; try done.
  - rewrite !bytes_ok_app. split_and!; [by repeat constructor|by apply lines_bytes|by repeat constructor].
  - unfold ls, accept_lines. rewrite !existsb_app. rewrite (orb_comm (existsb _ (protocol_lines r))), orb_assoc. done.
  - lia.
  - intros p. assert (ws_upgraded (client_opened c r p) = true ∧ ws_closeRequested (client_opened c r p) = false) as [H1 H2].
    { unfold client_opened, notify. by repeat case_match. }
    split_and!; [|done..]. set (c1 := set_ws_http p c).
    destruct (client_lines response_info ls c1 None [] [] Hc Hls) as (o & E & F).
    { unfold FlushPendingHeader. cbn [ws_opening c1 set_ws_http]. rewrite Ho. cbn. unfold c1. destruct c. by cbn in *; subst. }
    rewrite http_callbacks_app, http_callbacks_app.
    change (http_callbacks handlers [(on_message_begin, begin_info); (on_status_complete, response_info)] c1) with (Got c1). cbn [cbind]. rewrite E. cbn [cbind].
    assert (∀ d : WsConn T Http, ws_role d = WsClient → IsClient d = true) as Hcl by (intros d Hd; unfold IsClient; by rewrite Hd).
    cbn [http_callbacks http_callback]. rewrite (Hcl (set_ws_opening o c1)) by done. cbn [cbind]. rewrite F.
    unfold CheckUpgradeResponse. change (hi_status response_info) with 101. pose proof (accepts c r p) as Ha. cbn zeta in Ha. fold ls in Ha. unfold c1. rewrite Ha.
    rewrite Hcl by (unfold notify; by repeat case_match). done.
Qed.
End Ends.

(** ** The claim *)

Section Claim.
Context {W : WireOps} {V : MoreWireOps} {K : WsCrypto} {HB : WsBase64 K} (handlers : Handlers).

(** Every write that is done takes an octet at least. *)
Definition write_fine (w : WriteResult) : Prop := match w with Wrote n => 0 < n | WriteAgain => True | WriteError => False end.

Lemma plain_write_fine ws : ∀ pending, Forall write_fine ws → (plain_write pending ws).2 = 0.
Proof.
  induction ws as [|w ws IH]; intros [|x pending]; [done..|]. intros [Hw Hws]%Forall_cons. destruct w as [n| |]; [|done|done]. cbn [plain_write].
  rewrite (proj2 (Z.ltb_lt 0 n)) by done. specialize (IH (zdrop (Z.min n (Zlen (x :: pending))) (x :: pending)) Hws). by destruct (plain_write _ ws) as [[[? ?] ?] ?].
Qed.

(** A socket that takes the octets in the pieces [ws]. *)
Definition socket (ws : list WriteResult) : PlainTransport := mkPlain true [] [] ws [].

Lemma socket_flush ws : plain_Flush (socket ws) = (socket ws, 0).
Proof. by destruct ws. Qed.

Lemma upgrade_request_eq {T} (c : WsConn T Http) key : ∃ h, upgrade_request c key = mkHTTPRequest (octets "GET") (cl_path (ws_client c)) 1 1 h
  ∧ (value_ok (cl_host (ws_client c)) → value_ok key → Forall line_ok (cl_headers (ws_client c)) →
     headers_ok h ∧ Forall (λ kv, Forall (λ v, line_ok (kv.1, v)) kv.2) h ∧ existsb (λ l, asks_upgrade l.1 l.2) (header_list h) = true
     ∧ GetHeader (octets "Sec-WebSocket-Key") h = key).
Proof.
  assert (∀ ls h, foldl (λ r h, request_AddHeader h.1 h.2 r) (mkHTTPRequest (octets "GET") (cl_path (ws_client c)) 1 1 h) ls
    = mkHTTPRequest (octets "GET") (cl_path (ws_client c)) 1 1 (add_lines h ls)) as Hfold.
  { induction ls as [|l ls IH]; intros h; [done|]. apply IH. }
  exists (add_lines [(octets "Connection", [octets "Upgrade"]); (octets "Host", [cl_host (ws_client c)]); (octets "Sec-WebSocket-Key", [key]);
    (octets "Sec-WebSocket-Version", [octets "13"]); (octets "Upgrade", [octets "websocket"])] (cl_headers (ws_client c))).
  split; [exact (Hfold _ _)|]. intros Hhost Hkey Hls. set (h0 := [_; _; _; _; _] : Headers).
  assert (headers_ok h0) as H1 by (split; [repeat constructor|by repeat constructor]).
  assert (Forall (λ kv, Forall (λ v, line_ok (kv.1, v)) kv.2) h0) as H2.
  { repeat (constructor; [constructor; [split; [by apply name_ok_check|first [by apply value_ok_check|done]]|constructor]|]). constructor. }
  assert (∃ vs, map_find (octets "Upgrade") h0 = Some (octets "websocket" :: vs)) as H3 by by exists [].
  assert (∃ vs, map_find (octets "Sec-WebSocket-Key") h0 = Some (key :: vs)) as H4 by by exists [].
  clearbody h0. clear Hfold. revert h0 H1 H2 H3 H4. induction Hls as [|[k v] ls Hl _ IH]; intros h0 H1 H2 [vs3 H3] [vs4 H4].
  - split_and!; [done|done| |unfold GetHeader; cbn [add_lines foldl]; by rewrite H4]. apply existsb_exists. exists (octets "Upgrade", octets "websocket"). split; [|done].
    apply list_elem_of_In, in_header_list. eexists. split; [exact H3|apply list_elem_of_here].
  - apply IH; [by apply AddHeader_ok|by apply AddHeader_forall|by eapply GetHeader_add..].
Qed.

Lemma client_sends ws host path headers key :
  random_nonce 0 = Some key → Forall write_fine ws →
  let c0 := ws_InitClient (socket ws) host path true headers in
  ∃ t, OnWritable false c0 = set_ws_transport t (with_client (λ o, set_cl_state Upgrading (set_cl_key key o)) c0)
    ∧ plain_out t = request_Serialize (upgrade_request c0 key).
Proof.
  intros Hn Hw c0. set (out := request_Serialize (upgrade_request c0 key)).
  exists (plain_Send out (socket ws)).1. split; [|by rewrite (proj1 (plain_Send_out out (socket ws)))].
  assert ((plain_Send out (socket ws)).2 = Zlen out) as Hlen.
  { unfold plain_Send, plain_Flush. cbn [socket pl_open pl_pendingOut pl_reads pl_writes pl_wire app]. pose proof (plain_write_fine ws out Hw) as E.
    destruct (plain_write out ws) as [[[? ?] ?] ?]. cbn in E. by subst. }
  assert (OnWritable false c0 = SendUpgradeRequest (Some key) (with_client (set_cl_state TlsHandshake) c0)) as ->.
  { unfold OnWritable. change (wt_Flush (ws_transport _)) with (plain_Flush (socket ws)). rewrite socket_flush.
    unfold SendUpgradeRequestWhenReady. cbn [andb]. change (random_nonce _) with (random_nonce 0). by rewrite Hn. }
  unfold SendUpgradeRequest. change (request_Serialize _) with out. change (wt_Send out _) with (plain_Send out (socket ws)).
  destruct (plain_Send out (socket ws)) as [t n]. cbn [fst snd] in *. subst n. by rewrite Z.ltb_irrefl.
Qed.

Lemma server_sends ws r alive p :
  let s := server_opened (socket ws) r alive p in
  plain_out (ws_transport (OnWritable false s)) = response_Serialize (accept_response r (GetHeader (octets "Sec-WebSocket-Key") (hr_headers r))).
Proof.
  intros s. unfold OnWritable. change (wt_Flush (ws_transport _)) with (plain_Flush (socket ws)). rewrite socket_flush.
  set (out := response_Serialize _). change (ou_response _) with (Some (accept_response r (GetHeader (octets "Sec-WebSocket-Key") (hr_headers r)))).
  cbn iota. change (wt_Send _ _) with (plain_Send out (socket ws)). pose proof (proj1 (plain_Send_out out (socket ws))) as E.
  by destruct (plain_Send out (socket ws)).
Qed.

(** C40. A client on a plain transport that connects and whose socket takes its octets writes its
    request for an upgrade; the server it reaches reads exactly that request back, in whatever
    segments it arrives, asks the handler, and is open when it accepts; the client reads the answer,
    in whatever segments, finds the key it expects and is open too.  Both listeners are told once,
    neither end waits for more, and what follows the request or the answer in a segment is read as
    frames.  It is assumed that a nonce is drawn, that the path is a slash and octets the parser takes
    in a path, that host and header values are octets without CR or LF that do not start with a
    blank, that the names of headers are tokens other than Content-Length, that the request line is
    at most 4095 octets and request and answer at most 80 KB, which is what the code can write and
    read, and that a handler is registered for the path and accepts. *)
Theorem websocket_opens host path headers key hd alive cw sw segs t :
  let c0 := ws_InitClient (socket cw) host path true headers in
  let c := OnWritable false c0 in
  let r := upgrade_request c0 key in
  random_nonce 0 = Some key → Forall write_fine cw →
  path_ok (cl_path (ws_client c0)) → value_ok host → Forall line_ok headers →
  Zlen (request_line (cl_path (ws_client c0))) <= 4095 → Zlen (request_Serialize r) <= HTTP_MAX_HEADER_SIZE →
  Zlen (response_Serialize (accept_response r key)) <= HTTP_MAX_HEADER_SIZE →
  find_handler (cl_path (ws_client c0)) handlers = Some hd → hd r = DoAccept alive →
  Forall (λ s, s ≠ []) segs → mjoin segs = plain_out (ws_transport c) ++ t →
  ∃ s tsegs, process_segments handlers segs (ws_Init (socket sw)) = process_segments handlers tsegs s
    ∧ Forall (λ s, s ≠ []) tsegs ∧ mjoin tsegs = t
    ∧ ws_upgraded s = true ∧ ws_closeRequested s = false ∧ ws_listening s = alive ∧ ho_request (ws_opening s) = Some r
    ∧ ws_calls s = [onUpgradeRequest; onWakeupNeeded] ++ (if alive then [onOpen] else [])
    ∧ at_rest (ws_reader s) ∧ ou_frames (ws_output s) = []
    ∧ plain_out (ws_transport (OnWritable false s)) = response_Serialize (accept_response r key)
    ∧ ∀ segs' t', Forall (λ s, s ≠ []) segs' → mjoin segs' = plain_out (ws_transport (OnWritable false s)) ++ t' →
      ∃ d tsegs', process_segments [] segs' c = process_segments [] tsegs' d
        ∧ Forall (λ s, s ≠ []) tsegs' ∧ mjoin tsegs' = t'
        ∧ ws_upgraded d = true ∧ ws_closeRequested d = false ∧ cl_state (ws_client d) = Opened ∧ ws_calls d = [onOpen]
        ∧ at_rest (ws_reader d) ∧ ou_frames (ws_output d) = [].
Proof.
  intros c0 c r Hn Hw Hp Hh Hls Hl Hm Hma Hfind Hhd Hne Hj. destruct (nonce_base64 0 key Hn) as [Hkey Hkne].
  destruct (upgrade_request_eq c0 key) as (h & Er & Hrok). destruct (Hrok Hh (base64_value _ Hkey) Hls) as (H1 & H2 & H3 & H4). fold r in Er.
  destruct (client_sends cw host path headers key Hn Hw) as (ct & Ec & Hout). fold c0 r in Ec, Hout. fold c in Ec. rewrite Ec in Hj. cbn [ws_transport set_ws_transport] in Hj.
  rewrite Hout, Er in Hj. rewrite Er in Hm, Hhd.
  destruct (server_opens handlers (cl_path (ws_client c0)) h hd alive (socket sw) t segs) as (p & tsegs & Ht1 & Ht2 & E); [done|by rewrite H4|done..|].
  assert (plain_out (ws_transport (OnWritable false (server_opened (socket sw) r alive p))) = response_Serialize (accept_response r key)) as Hans.
  { rewrite server_sends, Er. cbn [hr_headers]. by rewrite H4. }
  exists (server_opened (socket sw) r alive p), tsegs. rewrite E, Hans, Er. repeat (split; [first [done|split; [done|by left]]|]).
  intros segs' t' Hne' Hj'. rewrite <- Er in Hj'.
  destruct (client_opens [] c r t' segs') as (p' & tsegs' & Ht1' & Ht2' & E'); rewrite ?Ec; try done; [by rewrite Er|].
  rewrite <- Ec. exists (client_opened c r p'), tsegs'. rewrite E'.
  repeat (split; [first [done|by rewrite Ec|rewrite Ec; split; [done|by left]]|]). by rewrite Ec.
Qed.
End Claim.

(** ** A concrete opening *)

Definition sample_base64 : WsCrypto :=
  {| sha1_base64 := λ _, octets "s3pPLMBiTxaQ9kYGzzhZRbK+xOo="; random_key := λ _, [1; 2; 3; 4]; random_nonce := λ _, Some (octets "dGhlIHNhbXBsZSBub25jZQ==") |}.

Lemma base64_check v : bool_decide (Forall (λ x, 0 <= x ∧ x < 256) v ∧ Forall (λ x, IS_ALPHANUM x = true ∨ x ∈ octets "+/=") v) = true → base64 v.
Proof. intros Hv. by apply bool_decide_eq_true in Hv. Qed.

#[global] Instance sample_base64_laws : WsBase64 sample_base64.
Proof. split; [|intros ?; by apply base64_check]. intros n key [= <-]. split; [by apply base64_check|done]. Qed.

Definition sample_request : bytes :=
  octets "GET /chat?room=1 HTTP/1.1" ++ crlf ++ octets "Connection: Upgrade" ++ crlf ++ octets "Host: example.org" ++ crlf
  ++ octets "Sec-WebSocket-Key: dGhlIHNhbXBsZSBub25jZQ==" ++ crlf ++ octets "Sec-WebSocket-Protocol: bfcp" ++ crlf
  ++ octets "Sec-WebSocket-Version: 13" ++ crlf ++ octets "Upgrade: websocket" ++ crlf ++ crlf.

Definition sample_answer : bytes :=
  octets "HTTP/1.1 101 Switching Protocols" ++ crlf ++ octets "Connection: Upgrade" ++ crlf
  ++ octets "Sec-WebSocket-Accept: s3pPLMBiTxaQ9kYGzzhZRbK+xOo=" ++ crlf ++ octets "Sec-WebSocket-Protocol: bfcp" ++ crlf
  ++ octets "Upgrade: Websocket" ++ crlf ++ crlf.

Definition sample_opening : WsConn PlainTransport Http :=
  ws_InitClient (socket [Wrote 100; WriteAgain]) (octets "example.org") (octets "/chat?room=1") true [(octets "Sec-WebSocket-Protocol", octets "bfcp")].

(** The request in three segments, the answer in two with a frame behind it. *)
Lemma websocket_opens_witness :
  let K := sample_base64 in
  let hs := [(octets "/chat", λ _ : HTTPRequest, DoAccept true)] in
  let req := [ztake 7 sample_request; ztake 90 (zdrop 7 sample_request); zdrop 97 sample_request] in
  let ans := [ztake 60 sample_answer; zdrop 60 sample_answer ++ [129; 1; 104]] in
  ∃ s d tsegs, process_segments (W := network_order) (V := network_order_more) hs req (ws_Init (socket [])) = process_segments (W := network_order) (V := network_order_more) hs [] s
    ∧ ws_upgraded s = true ∧ ws_calls s = [onUpgradeRequest; onWakeupNeeded; onOpen]
    ∧ process_segments (W := network_order) (V := network_order_more) [] ans (OnWritable false sample_opening)
      = process_segments (W := network_order) (V := network_order_more) [] tsegs d
    ∧ mjoin tsegs = [129; 1; 104] ∧ ws_upgraded d = true ∧ ws_calls d = [onOpen].
Proof.
  intros K hs req ans.
  destruct (websocket_opens (W := network_order) (V := network_order_more) (HB := sample_base64_laws) hs (octets "example.org") (octets "/chat?room=1")
    [(octets "Sec-WebSocket-Protocol", octets "bfcp")] (octets "dGhlIHNhbXBsZSBub25jZQ==") (λ _, DoAccept true) true
    [Wrote 100; WriteAgain] [] req []) as (s & tsegs & E & H1 & H2 & H3 & H4' & H5' & H6' & H7 & H8' & H9' & Hans & Hrest).
  - reflexivity.
  - by repeat constructor.
  - exists (octets "chat?room=1"). split; [reflexivity|]. split; [|by repeat constructor].
    repeat (constructor; [first [by left|by right; left]|]). constructor.
  - by apply value_ok_check.
  - constructor; [split; [by apply name_ok_check|by apply value_ok_check]|constructor].
  - vm_compute. discriminate.
  - vm_compute. discriminate.
  - vm_compute. discriminate.
  - reflexivity.
  - reflexivity.
  - by repeat constructor.
  - vm_compute. reflexivity.
  - clear H4' H5' H6' H8' H9'. assert (tsegs = []) as ->.
    { clear E. destruct tsegs as [|x tsegs]; [reflexivity|]. apply Forall_cons in H1 as [H1 _]. destruct x; [contradiction|discriminate]. }
    destruct (Hrest ans [129; 1; 104]) as (d & tsegs & E' & _ & D2 & D3 & _ & _ & D6 & _); [by repeat constructor|rewrite Hans; vm_compute; reflexivity|].
    exists s, d, tsegs. split; [exact E|]. split; [exact H3|]. split; [exact H7|]. split; [exact E'|]. split; [exact D2|]. split; [exact D3|]. exact D6.
Defined.
