(* ===== verification/WebSocketServerClaims.v ===== *)
(** * The WebSocket server: what it guarantees

    An invariant of connections that every operation keeps, and what follows: the server never faults,
    whatever its peers send and whatever is called ([websocket_server_is_safe]); the listener of an
    outgoing connection is told how it went ([client_is_told]). *)

From S2P Require Import Prelude OrderedMap Wire Octets IpAddress HttpParse HttpParseProps WebSocketFrame WebSocket WebSocketRead WebSocketClaims WebSocketServer.

(** What a connection needs of its transport. *)
Class WsTransportLaws (T : Type) (X : WsTransport T) := {
  wt_ok : T → Prop;
  wt_Recv_ok t : wt_ok t → wt_ok (wt_Recv t).1 ∧ (wt_left (wt_Recv t).1 <= wt_left t)%nat
    ∧ ∀ d, (wt_Recv t).2 = Received d → bytes_ok d ∧ (wt_left (wt_Recv t).1 < wt_left t)%nat;
  wt_Send_ok d t : wt_ok t → wt_ok (wt_Send d t).1 ∧ wt_left (wt_Send d t).1 = wt_left t;
  wt_Flush_ok t : wt_ok t → wt_ok (wt_Flush t).1 ∧ wt_left (wt_Flush t).1 = wt_left t;
}.

Definition read_ok (r : ReadResult) : Prop := match r with ReadOctets d => bytes_ok d | _ => True end.

#[global] Program Instance plain_transport_laws : WsTransportLaws PlainTransport plain_transport :=
  {| wt_ok t := Forall read_ok (pl_reads t) |}.
Next Obligation.
  intros [o p rs ws w] Hr. cbn in *. unfold plain_Recv. cbn. destruct rs as [|[[|x d]| | |] rs]; cbn; [done|..];
    apply Forall_cons in Hr as [H1 H2]; (split_and!; [done|lia|]); try done. intros ? [= <-]. split; [done|lia].
Qed.
Next Obligation. intros d t. cbn. by rewrite (proj2 (plain_Send_out d t)). Qed.
Next Obligation. intros t. cbn. by rewrite (proj2 (plain_Flush_out t)). Qed.

Section Invariant.
Context {W : WireOps} {V : MoreWireOps} {HN : NetworkOrder W V} {K : WsCrypto} {HK : WsCryptoLaws K}.
Context {T P : Type} {X : WsTransport T} {HX : WsTransportLaws T X} {H : HttpParser P} {HL : HttpParserLaws P} (handlers : Handlers).
Implicit Types (c : WsConn T P) (s : WsServerState T P).

(** Calls that anybody may make at any time. *)
Definition harmless (e : WsCall) : Prop := e ≠ onClose ∧ e ≠ onError ∧ e ≠ onUpgradeRequest.

(** Until it is closed. *)
Record conn_inv c : Prop := {
  ci_transport : wt_ok (ws_transport c);
  ci_http : hp_ok (ws_http c);
  ci_request : onUpgradeRequest ∈ ws_calls c → is_Some (ho_request (ws_opening c));
  ci_close : onClose ∉ ws_calls c;
  ci_no_error : cl_errorNotified (ws_client c) = false → onError ∉ ws_calls c;
  ci_one_error : (length (filter (λ e, e = onError) (ws_calls c)) <= 1)%nat;
  ci_opened : ws_role c = WsClient → ws_listening c = true → ws_upgraded c = true → onOpen ∈ ws_calls c;
  ci_error : ws_role c = WsClient → ws_listening c = true → cl_errorNotified (ws_client c) = true → onError ∈ ws_calls c;
}.

(** What every operation does. *)
Record goes c c' : Prop := {
  go_role : ws_role c' = ws_role c;
  go_inited : ws_inited c' = ws_inited c;
  go_close : ws_closeRequested c = true → ws_closeRequested c' = true;
  go_reader : reader_ok (ws_reader c) → reader_ok (ws_reader c');
  go_inv : conn_inv c → conn_inv c' ∧ (wt_left (ws_transport c') <= wt_left (ws_transport c))%nat;
}.

#[global] Instance goes_preorder : PreOrder goes.
Proof.
  split; [by split; auto|]. intros a b c [] []. split; auto; [congruence..|].
  intros Ha. destruct (go_inv0 Ha) as [Hb ?]. destruct (go_inv1 Hb). split; [done|lia].
Qed.

(** Operations that tell nothing, or only [onOpen], and do not touch the opening's outcome. *)
Lemma quiet_goes c c' new :
  (hp_ok (ws_http c) → hp_ok (ws_http c')) →
  ws_role c' = ws_role c → ws_inited c' = ws_inited c → (ws_closeRequested c = true → ws_closeRequested c' = true) →
  (reader_ok (ws_reader c) → reader_ok (ws_reader c')) →
  (wt_ok (ws_transport c) → wt_ok (ws_transport c') ∧ (wt_left (ws_transport c') <= wt_left (ws_transport c))%nat) →
  ws_calls c' = ws_calls c ++ new → Forall harmless new →
  (is_Some (ho_request (ws_opening c)) → is_Some (ho_request (ws_opening c'))) →
  cl_errorNotified (ws_client c') = cl_errorNotified (ws_client c) →
  (ws_role c = WsClient → ws_listening c' = true →
   ws_listening c = true ∧ (ws_upgraded c' = true → ws_upgraded c = true ∨ onOpen ∈ new)) →
  goes c c'.
Proof.
  intros Hhp Hro Hi Hcl Hrd Ht Hc Hn Hrq He Hl. split; [done..|]. intros [It Ihp Irq Icl Ine I1 Io Ie]. destruct (Ht It) as [Ht1 Ht2].
  assert (∀ e, e = onClose ∨ e = onError ∨ e = onUpgradeRequest → e ∉ new) as Hno.
  { intros e Hx Hin. rewrite Forall_forall in Hn. destruct (Hn e Hin) as (? & ? & ?). naive_solver. }
  split; [|done]. split; rewrite ?Hc; [done|auto|..].
  - intros [Hin|Hin]%elem_of_app; [auto|]. by eapply Hno in Hin; auto.
  - rewrite elem_of_app. intros [Hin|Hin]; [done|]. by eapply Hno in Hin; auto.
  - rewrite He, elem_of_app. intros Hz [Hin|Hin]; [by eapply Ine|]. by eapply Hno in Hin; auto.
  - rewrite filter_app, length_app. assert (filter (λ e, e = onError) new = []) as ->; [|cbn; lia].
    clear -Hn. induction Hn as [|e l (_ & He & _) _ IH]; [done|]. by rewrite filter_cons_False.
  - rewrite Hro. intros Hr Hl' Hu. destruct (Hl Hr Hl') as [Hl1 Hl2]. rewrite elem_of_app. destruct (Hl2 Hu); auto.
  - rewrite Hro, He. intros Hr Hl' Hz. destruct (Hl Hr Hl') as [Hl1 _]. rewrite elem_of_app. auto.
Qed.

Lemma goes_called e c : harmless e → goes c (ws_called e c).
Proof. intros He. apply (quiet_goes _ _ [e]); cbn; auto. Qed.

Lemma goes_notify e c : harmless e → goes c (notify e c).
Proof. intros. unfold notify. case_match; [by apply goes_called|done]. Qed.

Lemma goes_silent c c' :
  (hp_ok (ws_http c) → hp_ok (ws_http c')) →
  ws_role c' = ws_role c → ws_inited c' = ws_inited c → (ws_closeRequested c = true → ws_closeRequested c' = true) →
  (reader_ok (ws_reader c) → reader_ok (ws_reader c')) →
  (wt_ok (ws_transport c) → wt_ok (ws_transport c') ∧ (wt_left (ws_transport c') <= wt_left (ws_transport c))%nat) →
  ws_calls c' = ws_calls c → (is_Some (ho_request (ws_opening c)) → is_Some (ho_request (ws_opening c'))) →
  cl_errorNotified (ws_client c') = cl_errorNotified (ws_client c) →
  (ws_role c = WsClient → ws_listening c' = true → ws_listening c = true ∧ (ws_upgraded c' = true → ws_upgraded c = true)) →
  goes c c'.
Proof.
  intros ? ? ? ? ? ? Hc ? ? Hl. apply (quiet_goes _ _ []); try done; [by rewrite app_nil_r|].
  intros Hr Hl'. destruct (Hl Hr Hl'). auto.
Qed.

Lemma goes_output f c : goes c (with_output f c).
Proof. apply goes_silent; cbn; auto. Qed.

Lemma goes_closing c : goes c (set_ws_closeRequested true c).
Proof. apply goes_silent; cbn; auto. Qed.

Lemma goes_opening f c : (∀ o, is_Some (ho_request o) → is_Some (ho_request (f o))) → goes c (with_opening f c).
Proof. intros. apply goes_silent; cbn; auto. Qed.

Lemma goes_client f c : (∀ o, cl_errorNotified (f o) = cl_errorNotified o) → goes c (with_client f c).
Proof. intros. apply goes_silent; cbn; auto. Qed.

Lemma goes_transport t c :
  (wt_ok (ws_transport c) → wt_ok t ∧ (wt_left t <= wt_left (ws_transport c))%nat) → goes c (set_ws_transport t c).
Proof. intros. apply goes_silent; cbn; auto. Qed.

Lemma reader_ok_draws n r : reader_ok r → reader_ok (set_rd_draws n r).
Proof. done. Qed.

Lemma goes_draw c : goes c (draw c).
Proof. unfold draw. case_match; [|done]. apply goes_silent; cbn; auto. Qed.

Lemma goes_send d c : goes c (set_ws_transport (wt_Send d (ws_transport c)).1 c).
Proof. apply goes_transport. intros Hok. destruct (wt_Send_ok d _ Hok) as [? ->]. done. Qed.

Lemma goes_flush c : goes c (set_ws_transport (wt_Flush (ws_transport c)).1 c).
Proof. apply goes_transport. intros Hok. destruct (wt_Flush_ok _ Hok) as [? ->]. done. Qed.

Lemma goes_http p c : hp_ok p → goes c (set_ws_http p c).
Proof. intros. apply goes_silent; cbn; auto. Qed.

Lemma goes_server_upgraded c : ws_role c ≠ WsClient → goes c (set_ws_upgraded true c).
Proof. intros. apply goes_silent; cbn; auto. Qed.

Ltac harmless := by split_and!.

(** ** Calls of other threads *)

Lemma conn_new_Frame fin o data c :
  Zlen data < 2 ^ 31 → ∃ f, new_Frame fin o (Some data) (Zlen data) (IsClient c) (next_key c) = Got f.
Proof.
  intros Hl. destruct (new_Frame_octets fin o data (IsClient c) (next_key c)) as (f & Hf & _);
    [apply random_key_length|apply random_key_bytes|done|]. eauto.
Qed.

Lemma SendMessage_goes d c : Zlen d < 2 ^ 31 → ∃ c', ws_SendMessage d c = Got c' ∧ goes c c'.
Proof.
  intros Hl. unfold ws_SendMessage. destruct (conn_new_Frame true TextFrame d c Hl) as [f ->]. cbn [cbind].
  pose proof (goes_draw c) as Hd. case_match; eexists; (split; [done|]); [done|].
  etrans; [exact Hd|]. etrans; [apply goes_output|]. apply goes_called. harmless.
Qed.

Lemma send_frames_goes fuel o d c : (length d <= fuel)%nat → 0 < Zlen d → ∃ c', send_frames fuel o d c = Got c' ∧ goes c c'.
Proof.
  revert o d c. induction fuel as [|fuel IH]; intros o d c Hf Hl; [unfold Zlen in Hl; lia|]. cbn [send_frames].
  assert ((if 1300 <? Zlen d then 1300 else Zlen d) = Z.min (Zlen d) 1300) as -> by (rewrite min_if; lia).
  set (n := Z.min (Zlen d) 1300). assert (Zlen (ztake n d) = n) as Hn by (apply Zlen_ztake; lia).
  destruct (conn_new_Frame (n =? Zlen d) o (ztake n d) c) as [f Hnew]; [lia|]. rewrite Hn in Hnew. rewrite Hnew. cbn [cbind].
  assert (goes c (with_output (push_frame f) (draw c))) as Hg by (etrans; [apply goes_draw|apply goes_output]).
  destruct (Z.eqb_spec n (Zlen d)) as [|Hne]; [by eexists|].
  destruct (IH ContinuationFrame (zdrop n d) (with_output (push_frame f) (draw c))) as (c' & -> & Hc);
    [unfold zdrop; rewrite length_drop; unfold Zlen in *; lia|rewrite Zlen_zdrop; lia|].
  eexists. split; [done|]. by etrans.
Qed.

Lemma SendBinary_goes d c : ∃ c', SendBinary d c = Got c' ∧ goes c c'.
Proof.
  unfold SendBinary. destruct (Z.eqb_spec (Zlen d) 0); [by eexists|]. case_match; [by eexists|].
  pose proof (Zlen_nonneg d). destruct (send_frames_goes (length d) BinaryFrame d c) as (c' & -> & Hc); [done|lia|]. cbn [cbind].
  eexists. split; [done|]. etrans; [exact Hc|]. apply goes_called. harmless.
Qed.

Lemma CloseWith_goes code reason c : ∃ c', ws_CloseWith code reason c = Got c' ∧ goes c c'.
Proof.
  unfold ws_CloseWith. case_match; [by eexists|].
  destruct (conn_new_Frame true CloseFrame (close_payload code reason) c) as [f ->].
  { unfold close_payload. rewrite Zlen_app, Zlen_ztake_min by lia. change (Zlen [_; _]) with 2. lia. }
  cbn [cbind]. eexists. split; [done|]. etrans; [apply goes_draw|]. etrans; [apply goes_output|]. apply goes_called. harmless.
Qed.

Lemma Reject_goes code reason c : goes c (Reject code reason c).
Proof. etrans; [apply goes_output|]. apply goes_called. harmless. Qed.

Lemma Accept_goes alive c : is_Some (ho_request (ws_opening c)) → ∃ c', Accept alive c = Got c' ∧ goes c c'.
Proof.
  intros [r Hr]. unfold Accept. destruct (IsClient c) eqn:Hc; [by eexists|]. cbn. rewrite Hr.
  assert (ws_role c = WsServer) as Hro by (unfold IsClient in Hc; by destruct (ws_role c)).
  assert (goes c (set_ws_listening alive c)) as Hl by (apply goes_silent; cbn; auto; by rewrite Hro).
  case_match; eexists; (split; [done|]); (etrans; [exact Hl|]); [apply Reject_goes|].
  etrans; [|apply goes_notify; harmless]. etrans; [|apply goes_called; harmless].
  etrans; [apply goes_output|]. apply goes_server_upgraded. cbn. by rewrite Hro.
Qed.

Definition call_ok (call : ConnCall) : Prop := match call with CallSendText m => Zlen m < 2 ^ 31 | _ => True end.

Lemma call_conn_goes call c : call_ok call → conn_inv c → ∃ c', call_conn call c = Got c' ∧ goes c c'.
Proof.
  intros Hk Hi. destruct call; cbn [call_conn].
  - by apply SendMessage_goes.
  - apply SendBinary_goes.
  - eexists. split; [done|]. etrans; [apply goes_closing|]. apply goes_called. harmless.
  - apply CloseWith_goes.
  - case_bool_decide; [|by eexists]. by apply Accept_goes, Hi.
  - case_bool_decide; [|by eexists]. eexists. split; [done|]. apply Reject_goes.
  - eexists. split; [done|]. by apply goes_silent; cbn; auto.
Qed.

(** ** Opening *)

Lemma no_error_filter (l : list WsCall) : onError ∉ l → filter (λ e, e = onError) l = [].
Proof.
  induction l as [|e l IH]; [done|]. intros [? ?]%not_elem_of_cons. rewrite filter_cons_False by congruence. auto.
Qed.

Lemma FailClient_goes c : goes c (FailClient c).
Proof.
  unfold FailClient. etrans; [apply (goes_client (set_cl_state Failed)); done|]. set (d := with_client (set_cl_state Failed) c).
  destruct (cl_errorNotified (ws_client d)) eqn:He; [apply goes_closing|]. etrans; [|apply goes_closing].
  set (d' := with_client (set_cl_errorNotified true) d).
  split; [unfold notify; by case_match..|unfold notify; case_match; auto|]. intros [It Ihp Irq Icl Ine I1 Io Ie].
  specialize (Ine He). pose proof (no_error_filter _ Ine) as Hnone.
  change (ws_calls d) with (ws_calls c) in Hnone. unfold notify. change (ws_listening d') with (ws_listening d). destruct (ws_listening d) eqn:Hl; (split; [|done]).
  - split; cbn; rewrite ?elem_of_app; [done|done|..|done| |auto|].
    + intros [Hin|Hin%list_elem_of_singleton]; [auto|done].
    + intros [Hin|Hin%list_elem_of_singleton]; [auto|done].
    + rewrite filter_app, Hnone, filter_cons_True, filter_nil by done. cbn. lia.
    + intros _ _ _. right. by apply list_elem_of_singleton.
  - change (ws_listening d) with (ws_listening c) in Hl. split; cbn; rewrite ?Hl; done || auto.
Qed.

Lemma SendUpgradeRequest_goes nonce c : goes c (SendUpgradeRequest nonce c).
Proof.
  unfold SendUpgradeRequest. destruct nonce as [key|]; [|apply FailClient_goes].
  etrans; [apply (goes_client (set_cl_key key)); done|]. set (d := with_client (set_cl_key key) c).
  set (out := request_Serialize _). pose proof (goes_send out d) as Hs. destruct (wt_Send out (ws_transport d)) as [t n]. cbn [fst] in Hs.
  etrans; [exact Hs|]. case_match; [apply FailClient_goes|]. by apply goes_client.
Qed.

Lemma SendUpgradeRequestWhenReady_goes c : goes c (SendUpgradeRequestWhenReady c).
Proof. unfold SendUpgradeRequestWhenReady. case_match; [apply SendUpgradeRequest_goes|done]. Qed.

Lemma CheckUpgradeResponse_goes status c : goes c (CheckUpgradeResponse status c).
Proof.
  unfold CheckUpgradeResponse. case_match; [|apply FailClient_goes]. unfold notify. cbn. destruct (ws_listening c) eqn:Hl.
  - apply (quiet_goes _ _ [onOpen]); cbn; auto; [by repeat constructor|]. intros. split; [done|]. right. by apply list_elem_of_singleton.
  - apply goes_silent; cbn; auto. by rewrite Hl.
Qed.

Lemma FlushPendingHeader_goes c : goes c (FlushPendingHeader c).
Proof.
  unfold FlushPendingHeader. case_match; [|done]. apply goes_silent; cbn; auto. intros [r Hr].
  repeat case_match; cbn; eauto; congruence.
Qed.

Lemma EnsureRequest_goes i c : goes c (EnsureRequest i c) ∧ is_Some (ho_request (ws_opening (EnsureRequest i c))).
Proof. unfold EnsureRequest. case_match; [split; [done|by eexists]|]. split; [|by eexists]. apply goes_opening. by eexists. Qed.

Lemma http_callback_goes call c : ∃ c', http_callback handlers call c = Got c' ∧ goes c c'.
Proof.
  destruct call as [call i]. destruct call as [|a| |a|a| |a|]; cbn [http_callback]; [by eexists| |by eexists| | | |by eexists|].
  - eexists. split; [done|]. by apply goes_opening.
  - eexists. split; [done|]. transitivity (if IsClient c then c else EnsureRequest i c); [case_match; [done|apply EnsureRequest_goes]|].
    etrans; [apply FlushPendingHeader_goes|]. by apply goes_opening.
  - case_match; [by eexists|]. eexists. split; [done|]. by apply goes_opening.
  - case_match; eexists; (split; [done|]).
    + etrans; [apply FlushPendingHeader_goes|apply CheckUpgradeResponse_goes].
    + etrans; [apply EnsureRequest_goes|apply FlushPendingHeader_goes].
  - case_match; [by eexists|]. destruct (ho_request (ws_opening c)) as [r|] eqn:Hr; [|by eexists].
    assert (goes c (ws_called onUpgradeRequest c)) as Hg.
    { split; [done..|auto|auto|]. intros [It Ihp Irq Icl Ine I1 Io Ie]. split; [|done].
      split; cbn; rewrite ?elem_of_app; [done|done|by rewrite Hr|..].
      - intros [Hin|Hin%list_elem_of_singleton]; [auto|done].
      - intros He [Hin|Hin%list_elem_of_singleton]; [by eapply Ine|done].
      - rewrite filter_app. cbn. by rewrite app_nil_r.
      - auto.
      - auto. }
    unfold server_onUpgradeRequest. cbn. rewrite Hr. destruct (find_handler _ _) as [h|].
    + destruct (h r) as [alive|code reason|].
      * destruct (Accept_goes alive (ws_called onUpgradeRequest c)) as (c' & -> & Hc); [cbn; rewrite Hr; by eexists|].
        eexists. split; [done|]. by etrans.
      * eexists. split; [done|]. etrans; [exact Hg|apply Reject_goes].
      * by eexists.
    + eexists. split; [done|]. etrans; [exact Hg|apply Reject_goes].
Qed.

Lemma http_callbacks_goes calls c : ∃ c', http_callbacks handlers calls c = Got c' ∧ goes c c'.
Proof.
  revert c. induction calls as [|call calls IH]; intros c; [by eexists|]. cbn [http_callbacks].
  destruct (http_callback_goes call c) as (c1 & -> & H1). cbn [cbind]. destruct (IH c1) as (c2 & -> & H2). eexists. split; [done|]. by etrans.
Qed.

(** ** Reading *)

(** As [goes], but the reader may ask to close. *)
Definition reads_on c c' : Prop :=
  ws_role c' = ws_role c ∧ ws_inited c' = ws_inited c ∧ (ws_closeRequested c = true → ws_closeRequested c' = true)
  ∧ (ws_closeRequested c' = true ∨ reader_ok (ws_reader c')) ∧ conn_inv c' ∧ (wt_left (ws_transport c') <= wt_left (ws_transport c))%nat.

Definition effect_harmless (e : ReadEffect) : Prop := match e with Tell e => harmless e | PushPong _ => True end.

Lemma tell_payload_harmless h d p x : tell_payload h d p = Got x → Forall effect_harmless x.2.
Proof.
  unfold tell_payload. intros Hx. destruct (ws_GetOpCode h); simplify_eq/=; try apply Forall_nil_2; try (apply Forall_singleton; harmless).
  destruct p as [f|]; [|done]. destruct (wf_Append d f); simplify_eq/=. apply Forall_nil_2.
Qed.

Lemma frame_ended_harmless h r x : frame_ended h r = Got x → Forall effect_harmless x.2.
Proof.
  unfold frame_ended. intros Hx. destruct (ws_GetOpCode h), (ws_IsFin h), (rd_pong r); simplify_eq/=;
    apply Forall_nil_2 || apply Forall_singleton; done || harmless.
Qed.

Lemma header_arrived_harmless role h r x : header_arrived role h r = Got x → Forall effect_harmless x.1.2.
Proof.
  unfold header_arrived. intros Hx. destruct (_ <? _); [by simplify_eq/=|]. destruct (_ && _); [by simplify_eq/=|].
  destruct (ws_GetOpCode h); simplify_eq/=; try apply Forall_nil_2; try (apply Forall_singleton; harmless).
  destruct (new_Frame _ _ _ _ _ _); simplify_eq/=. apply Forall_nil_2.
Qed.

Lemma read_round_harmless role data r x : read_round role data r = Got x → Forall effect_harmless x.1.1.2.
Proof.
  unfold read_round. destruct (rd_header r) as [h|].
  - unfold payload_arrived. destruct (tell_payload _ _ _) as [| |told] eqn:Ht; cbn [cbind]; [done..|]. apply tell_payload_harmless in Ht.
    destruct (_ =? _); [|by intros [= <-]]. destruct (frame_ended _ _) as [| |e] eqn:He; cbn [cbind]; [done..|]. intros [= <-].
    apply Forall_app. split; [done|]. by eapply frame_ended_harmless.
  - destruct (hp_Parse _ _) as [| |p]; cbn [cbind]; [done..|]. destruct (hp_IsParsed p.1); [|by intros [= <-]].
    destruct (hp_ConsumeHeader p.1) as [[h|] q]; [|done].
    destruct (header_arrived _ _ _) as [| |y] eqn:He; cbn [cbind]; [done..|]. intros [= <-]. by eapply header_arrived_harmless.
Qed.

Lemma reader_calls_harmless data r role r' es b l :
  reads role data r r' es b → Forall harmless (mjoin (effect_calls l <$> es)).
Proof.
  intros Hr. assert (Forall effect_harmless es) as Hes.
  { induction Hr as [|? ? ? ? ? _ He|? ? ? ? ? ? ? ? _ He _ IH]; [apply Forall_nil_2|by apply read_round_harmless in He|].
    apply Forall_app. split; [by apply read_round_harmless in He|done]. }
  clear Hr. induction Hes as [|e es He _ IH]; [constructor|].
  change (mjoin (effect_calls l <$> e :: es)) with (effect_calls l e ++ mjoin (effect_calls l <$> es)).
  apply Forall_app. split; [|done]. destruct e; cbn; [destruct l; auto|]. constructor; [harmless|done].
Qed.

Lemma process_frames_reads data c :
  conn_inv c → reader_ok (ws_reader c) → bytes_ok data → ∃ c', process_frames data c = Got c' ∧ reads_on c c'.
Proof.
  intros Hi Hr Hb. destruct (read_frames_ok (ws_role c) data _ Hr Hb) as (r' & es & b & He & Hrd & Hok). unfold process_frames. rewrite He.
  cbn [cbind]. eexists. split; [done|]. change (reads_on c (after_reading c (r', es, b))).
  assert (goes c (after_reading c (ws_reader c, es, b))) as Hg.
  { rewrite after_reading_eq. eapply quiet_goes; cbn; auto; [intros ->; by rewrite orb_true_r|by eapply reader_calls_harmless]. }
  destruct (go_inv _ _ Hg Hi) as [Hi' Hl]. rewrite !after_reading_eq in *. cbn [ws_transport] in Hl.
  unfold reads_on. split_and!; [done|done|cbn; intros ->; by rewrite orb_true_r| |by destruct Hi'; split|done].
  cbn. destruct b; [by left|]. right. auto.
Qed.

Lemma goes_reads_on c c' : goes c c' → conn_inv c → reader_ok (ws_reader c) → reads_on c c'.
Proof. intros [Hr Hi Hc Hrd Hin] Hinv Hok. destruct (Hin Hinv). unfold reads_on. split_and!; auto. Qed.

Lemma goes_then_reads c1 c2 c3 : goes c1 c2 → conn_inv c1 → reads_on c2 c3 → reads_on c1 c3.
Proof.
  intros [Hr Hi Hc _ Hin] Hinv (H1 & H2 & H3 & H4 & H5 & H6). destruct (Hin Hinv). unfold reads_on.
  split_and!; [congruence|congruence|auto|done|done|lia].
Qed.

Lemma ProcessData_reads data c :
  conn_inv c → reader_ok (ws_reader c) → bytes_ok data → ∃ c', ProcessData handlers data c = Got c' ∧ reads_on c c'.
Proof.
  intros Hi Hr Hb. unfold ProcessData. destruct (ws_upgraded c); [by apply process_frames_reads|].
  destruct (hp_Execute_ok data (ws_http c) Hb (ci_http _ Hi)) as (p & calls & parsed & -> & Hp). cbn [cbind]. destruct (http_callbacks_goes calls (set_ws_http p c)) as (c1 & -> & H1).
  cbn [cbind]. assert (goes c c1) as Hg by (etrans; [by apply goes_http|done]). destruct (go_inv _ _ Hg Hi) as [Hi1 _].
  pose proof (go_reader _ _ Hg Hr) as Hr1. destruct (ws_upgraded c1); [|eexists; split; [done|by apply goes_reads_on]].
  destruct (_ <=? _); [eexists; split; [done|by apply goes_reads_on]|].
  destruct (process_frames_reads (zdrop parsed data) c1) as (c2 & -> & H2); [done..|by apply bytes_ok_zdrop|].
  eexists. split; [done|]. by eapply goes_then_reads.
Qed.

Lemma OnReadable_loop_reads fuel c :
  conn_inv c → reader_ok (ws_reader c) → (wt_left (ws_transport c) < fuel)%nat →
  ∃ c', OnReadable_loop handlers fuel c = Got c' ∧ reads_on c c'.
Proof.
  revert c. induction fuel as [|fuel IH]; intros c Hi Hr Hf; [lia|]. cbn [OnReadable_loop].
  destruct (wt_Recv_ok _ (ci_transport _ Hi)) as (Ht & Hle & Hd). destruct (wt_Recv (ws_transport c)) as [t r]. cbn [fst snd] in *.
  assert (goes c (set_ws_transport t c)) as Ht' by (apply goes_transport; done).
  assert (goes (set_ws_transport t c) (SendUpgradeRequestWhenReady (set_ws_transport t c))) as Hu by apply SendUpgradeRequestWhenReady_goes.
  destruct r as [data| |].
  - destruct (Hd data eq_refl) as [Hb Hlt]. set (c1 := SendUpgradeRequestWhenReady (set_ws_transport t c)) in *.
    assert (goes c c1) as Hg by (by etrans).
    destruct (go_inv _ _ Ht' Hi) as [Hit _]. destruct (go_inv _ _ Hu Hit) as [Hi1 Hl1]. cbn in Hl1.
    destruct (ProcessData_reads data c1) as (c2 & -> & H2); [done|by apply Hg|done|]. cbn [cbind].
    pose proof (goes_then_reads _ _ _ Hg Hi H2) as H3. destruct (ws_closeRequested c2) eqn:Ec; [by eexists|].
    destruct H2 as (_ & _ & _ & [?|Hr2] & Hi2 & Hl2); [congruence|].
    destruct (IH c2) as (c' & -> & H4); [done..|lia|]. eexists. split; [done|].
    destruct H3 as (R1 & R2 & R3 & R4 & R5 & R6). destruct H4 as (S1 & S2 & S3 & S4 & S5 & S6). unfold reads_on.
    split_and!; [congruence|congruence|auto|done|done|lia].
  - eexists. split; [done|]. apply goes_reads_on; [by etrans|done..].
  - eexists. split; [done|]. apply goes_reads_on; [etrans; [exact Ht'|apply goes_closing]|done..].
Qed.

Lemma OnWritable_goes e c : goes c (OnWritable e c).
Proof.
  unfold OnWritable. destruct (_ && e); [apply FailClient_goes|].
  set (c1 := if bool_decide _ then _ else c). assert (goes c c1) as H1 by (unfold c1; case_match; [by apply goes_client|done]).
  etrans; [exact H1|]. pose proof (goes_flush c1) as H2. destruct (wt_Flush (ws_transport c1)) as [t n]. cbn [fst] in H2.
  etrans; [exact H2|]. set (c2 := set_ws_transport t c1). case_match; [apply goes_closing|].
  case_match; [apply SendUpgradeRequestWhenReady_goes|]. case_match; [done|]. destruct (ou_response (ws_output c2)) as [r|].
  - pose proof (goes_send (response_Serialize r) c2) as Hs. destruct (wt_Send _ _) as [t' k]. cbn [fst] in Hs.
    etrans; [exact Hs|apply goes_output].
  - unfold GetNextFrame. destruct (ou_frames (ws_output c2)) as [|f fs]; [done|].
    etrans; [apply goes_output|]. apply goes_send.
Qed.

(** ** Rounds *)

Lemma dispatch_conn_reads p c :
  conn_inv c → reader_ok (ws_reader c) →
  ∃ c' b, dispatch_conn handlers p c = Got (c', b) ∧ reads_on c c' ∧ (ws_closeRequested c' = true → b = true).
Proof.
  intros Hi Hr. unfold dispatch_conn. destruct (pd_error p).
  { eexists _, _. split; [done|]. split; [by apply goes_reads_on|done]. }
  set (c1 := if pd_out p then _ else c). assert (goes c c1) as H1 by (unfold c1; case_match; [apply OnWritable_goes|done]).
  destruct (go_inv _ _ H1 Hi) as [Hi1 _]. pose proof (go_reader _ _ H1 Hr) as Hr1.
  assert (∃ c2, (if pd_in p then OnReadable handlers c1 else Got c1) = Got c2 ∧ reads_on c1 c2) as (c2 & -> & H2).
  { destruct (pd_in p); [apply OnReadable_loop_reads; [done..|lia]|]. eexists. split; [done|]. by apply goes_reads_on. }
  cbn [cbind]. eexists _, _. split; [done|]. split; [by eapply goes_then_reads|]. unfold IsFinished. by intros ->.
Qed.

Lemma check_opening_goes timeout elapsed c : goes c (check_opening timeout elapsed c).
Proof. unfold check_opening. case_match; [apply FailClient_goes|done]. Qed.

Lemma IsFinished_closing c : ws_closeRequested c = true → IsFinished c = true.
Proof. unfold IsFinished. by intros ->. Qed.

(** An opening is under way. *)
Definition awaits (st : ClientState) : bool := match st with Connecting | TlsHandshake | Upgrading => true | _ => false end.

Lemma check_opening_late timeout elapsed c :
  0 < timeout <= elapsed → check_opening timeout elapsed c = if awaits (cl_state (ws_client c)) then FailClient c else c.
Proof.
  intros Ht. unfold check_opening, GetOpeningTimeLeft. rewrite (proj2 (Z.eqb_neq timeout 0)), (proj2 (Z.leb_le timeout elapsed)) by lia.
  by destruct (cl_state (ws_client c)).
Qed.

(** A connection that a round keeps is as it must be; one that asked to be closed is closed. *)
Lemma conn_round_ok p timeout elapsed c :
  conn_inv c → reader_ok (ws_reader c) →
  ∃ c1 b, conn_round handlers p timeout elapsed c = Got (if b : bool then close_conn c1 else c1, b)
    ∧ ws_role c1 = ws_role c ∧ ws_inited c1 = ws_inited c ∧ conn_inv c1
    ∧ (ws_closeRequested c = true → b = true) ∧ (b = false → reader_ok (ws_reader c1) ∧ IsFinished c1 = false)
    ∧ (0 < timeout <= elapsed → b = true ∨ awaits (cl_state (ws_client c1)) = false).
Proof.
  intros Hi Hr. unfold conn_round. destruct (dispatch_conn_reads p c Hi Hr) as (c0 & d & -> & (Hro & Hin & Hcl & Hrd & Hi0 & _) & Hd).
  cbn [cbind fst snd]. pose proof (check_opening_goes timeout elapsed c0) as Hg. set (c1 := check_opening timeout elapsed c0) in *.
  destruct (go_inv _ _ Hg Hi0) as [Hi1 _]. destruct (d || IsFinished c1) eqn:Eb.
  - exists c1, true. rewrite (go_role _ _ Hg), (go_inited _ _ Hg). split_and!; auto. done.
  - apply orb_false_iff in Eb as [-> Ef]. exists c1, false. rewrite (go_role _ _ Hg), (go_inited _ _ Hg).
    split_and!; [done..| | |].
    + intros Hc. by specialize (Hd (Hcl Hc)).
    + intros _. split; [|done]. apply Hg. destruct Hrd as [Hx|]; [|done]. by specialize (Hd Hx).
    + intros Ht. right. unfold c1 in *. rewrite check_opening_late in * by done. destruct (awaits (cl_state (ws_client c0))) eqn:Ea; [|done].
      by rewrite IsFinished_closing in Ef.
Qed.

(** ** The life of a connection *)

Lemma new_conn_ok role t client alive :
  wt_ok t → cl_errorNotified client = false →
  conn_inv (new_conn (P := P) role t client alive) ∧ reader_ok (ws_reader (new_conn (P := P) role t client alive)).
Proof.
  intros Ht He. split; [|apply at_rest_ok; split; [done|by left]].
  split; cbn; [done|apply hp_new_ok|by intros ?%elem_of_nil|apply not_elem_of_nil|intros _; apply not_elem_of_nil|lia|done|by rewrite He].
Qed.

(** What the listener of an outgoing connection was told, once it is closed. *)
Definition told_the_end (calls : list WsCall) : Prop :=
  ∃ pre, calls = pre ++ [onClose] ∧ onClose ∉ pre ∧ (onOpen ∈ pre ∨ onError ∈ pre)
    ∧ (length (filter (λ e, e = onError) pre) <= 1)%nat.

Lemma close_told c : conn_inv c → ws_role c = WsClient → ws_listening c = true → told_the_end (ws_calls (close_conn c)).
Proof.
  intros [It Ihp Irq Icl Ine I1 Io Ie] Hro Hl.
  assert (ws_calls (close_conn c) = ws_calls (NotifyClose c)) as -> by (unfold close_conn, ws_End; by case_match).
  unfold NotifyClose, IsClient. rewrite Hro, Hl. cbn [negb andb]. rewrite (bool_decide_eq_true_2 (WsClient = WsClient)) by done. cbn [negb andb].
  rewrite andb_false_r. destruct (ws_upgraded c) eqn:Hu; [exists (ws_calls c); split_and!; auto|]. cbn [negb andb].
  destruct (cl_errorNotified (ws_client c)) eqn:He; cbn [negb]; [exists (ws_calls c); split_and!; auto|].
  exists (ws_calls c ++ [onError]). split_and!; [done|..].
  - rewrite elem_of_app, list_elem_of_singleton. intros [?|?]; done.
  - right. rewrite elem_of_app, list_elem_of_singleton. auto.
  - rewrite filter_app, (no_error_filter _ (Ine eq_refl)), filter_cons_True, filter_nil by done. cbn. lia.
Qed.

Inductive LifeOp := LRound (p : Polled) (timeout elapsed : Z) | LCall (call : ConnCall).

Fixpoint life (ops : list LifeOp) c : checked (WsConn T P * bool) :=
  match ops with
  | [] => Got (c, false)
  | LRound p timeout elapsed :: ops =>
      let? r := conn_round handlers p timeout elapsed c in if r.2 then Got r else life ops r.1
  | LCall call :: ops => let? c := call_conn call c in life ops c
  end.

Definition life_ok (op : LifeOp) : Prop := match op with LCall call => call_ok call | LRound _ _ _ => True end.

Lemma life_spec ops c :
  Forall life_ok ops → conn_inv c → reader_ok (ws_reader c) → ws_role c = WsClient →
  ∃ c' b, life ops c = Got (c', b)
    ∧ (b = false → conn_inv c' ∧ reader_ok (ws_reader c'))
    ∧ (b = true → ws_listening c' = true → told_the_end (ws_calls c')).
Proof.
  intros Hops. revert c. induction Hops as [|op ops Hop _ IH]; intros c Hi Hr Hro; [by exists c, false|]. destruct op as [p timeout elapsed|call]; cbn [life].
  - destruct (conn_round_ok p timeout elapsed c Hi Hr) as (c1 & b & -> & Hro1 & _ & Hi1 & _ & Hb & _). cbn [cbind fst snd]. destruct b.
    + eexists _, _. split; [done|]. split; [done|]. intros _ Hl. apply close_told; [done|congruence|].
      revert Hl. unfold close_conn, ws_End, NotifyClose, ws_called. repeat case_match; cbn; congruence.
    + destruct (Hb eq_refl) as [Hr1 _]. apply IH; [done..|congruence].
  - destruct (call_conn_goes call c Hop Hi) as (c1 & -> & Hg). cbn [cbind]. destruct (go_inv _ _ Hg Hi) as [Hi1 _].
    apply IH; [done|by apply Hg|by rewrite (go_role _ _ Hg)].
Qed.

(** C30. The listener of an outgoing connection is told how it ended.  Whatever the peer sends and the
    transport does, whatever other threads call and whatever time passes: nothing faults; as long as the
    connection lives it was not told [onClose]; a connection that was asked to close is closed by the next round, and one whose
    opening took longer than the delay is closed by the next round unless that round ends its opening;
    when it was closed, its listener, if still there, was told [onClose] last and once, after [onOpen]
    or [onError], the latter at most once. *)
Theorem client_is_told t host path headers ops :
  wt_ok t → Forall life_ok ops →
  ∃ c closed, life ops (ws_InitClient t host path true headers) = Got (c, closed)
    ∧ (closed = false → onClose ∉ ws_calls c ∧ ∀ p timeout elapsed, ∃ c' b,
         conn_round handlers p timeout elapsed c = Got (c', b) ∧ (ws_closeRequested c = true → b = true)
         ∧ (0 < timeout <= elapsed → b = true ∨ awaits (cl_state (ws_client c')) = false))
    ∧ (closed = true → ws_listening c = true → told_the_end (ws_calls c)).
Proof.
  intros Ht Hops. destruct (new_conn_ok WsClient t (ws_client (ws_InitClient (P := P) t host path true headers)) true Ht eq_refl) as [Hi Hr].
  destruct (life_spec ops (ws_InitClient t host path true headers) Hops Hi Hr eq_refl) as (c & b & -> & H1 & H2).
  exists c, b. split; [done|]. split; [|done]. intros Hb. destruct (H1 Hb) as [Hi' Hr']. split; [apply Hi'|]. intros p timeout elapsed.
  destruct (conn_round_ok p timeout elapsed c Hi' Hr') as (c1 & b' & -> & _ & _ & _ & Hc & _ & Ht'). eexists _, b'. split; [done|].
  split; [done|]. intros Hx. destruct (Ht' Hx) as [-> |Ha]; [by left|]. destruct b'; [by left|by right].
Qed.

(** ** The server *)

Lemma UrlField_safe url u f : in_url (Zlen url) u → ∃ v, UrlField url u f = Got v.
Proof.
  intros Hu. unfold UrlField. destruct (negb _); [by eexists|]. pose proof (pu_data_in _ f u (Zlen_nonneg url) Hu) as Ho.
  destruct (pu_data f u) as [off len]. cbn in Ho. rewrite (proj2 (Z.ltb_ge _ _)) by lia. by eexists.
Qed.

Lemma ParseWsUrl_safe url : ParseWsUrl url ≠ Fault.
Proof.
  unfold ParseWsUrl. pose proof (parse_url_in url false no_url) as Hu.
  destruct (http_parser_parse_url url false no_url) as [| |u]; [|done|].
  { exfalso. apply Hu. repeat constructor; cbn; try lia; apply Zlen_nonneg. }
  cbn [cbind]. assert (in_url (Zlen url) u) as Hin by (apply Hu; repeat constructor; cbn; try lia; apply Zlen_nonneg).
  destruct (UrlField_safe url u UF_SCHEMA Hin) as [v1 ->]. cbn [cbind]. destruct (_ && _); [done|].
  destruct (UrlField_safe url u UF_HOST Hin) as [v2 ->]. cbn [cbind]. case_bool_decide; [done|].
  destruct (UrlField_safe url u UF_PATH Hin) as [v3 ->], (UrlField_safe url u UF_QUERY Hin) as [v4 ->]. done.
Qed.

Inductive ServerOp := SRound (r : PollResults T) | SCall (id : Z) (call : ConnCall) | SConnect (e : ConnectEnv T) (url : bytes) (alive : bool) (headers : list (bytes * bytes)) | SEnd.

Fixpoint server_run (ops : list ServerOp) s : checked (WsServerState T P) :=
  match ops with
  | [] => Got s
  | SRound r :: ops => let? s := server_round handlers r s in server_run ops s
  | SCall id call :: ops => let? s := call_connection id call s in server_run ops s
  | SConnect e url alive headers :: ops => let? r := Connect e url alive headers s in server_run ops r.2
  | SEnd :: ops => server_run ops (server_End s)
  end.

Definition accepted_ok (o : option T) : Prop := match o with Some t => wt_ok t | None => True end.

Definition server_op_ok (op : ServerOp) : Prop :=
  match op with
  | SRound r => Forall accepted_ok (pr_accepted r)
  | SCall _ call => call_ok call
  | SConnect e _ _ _ => ∀ tls a port t, ce_socket e tls a port = Some t → wt_ok t
  | SEnd => True
  end.

Definition live c : Prop := conn_inv c ∧ ws_inited c = true.

(** What a closed connection did. *)
Definition closed_well c : Prop :=
  ws_inited c = false ∧ (ws_role c = WsClient → ws_listening c = true → told_the_end (ws_calls c)).

Record server_inv s : Prop := {
  si_sorted : om_sorted (sv_connections s);
  si_ids : ∀ id c, (id, c) ∈ sv_connections s → id <= sv_nextConnId s;
  si_conns : ∀ id c, (id, c) ∈ sv_connections s → live c ∧ reader_ok (ws_reader c);
  si_pending : Forall (λ r, wt_ok (pc_transport r)) (sv_pendingConnects s);
  si_closed : Forall closed_well (sv_recentlyClosed s);
}.

Lemma close_conn_well c : live c → closed_well (close_conn c).
Proof.
  intros [Hi Hin]. assert (ws_inited (NotifyClose c) = true) as Hn by (unfold NotifyClose; repeat case_match; done).
  assert (ws_role (close_conn c) = ws_role c ∧ ws_listening (close_conn c) = ws_listening c) as [Hr Hl].
  { unfold close_conn, ws_End, NotifyClose, ws_called. repeat case_match; done. }
  split; [unfold close_conn, ws_End; by rewrite Hn|]. rewrite Hr, Hl. by apply close_told.
Qed.

Lemma add_connection_inv c s : live c → reader_ok (ws_reader c) → server_inv s → server_inv (add_connection c s).
Proof.
  intros Hc Hr [Hs Hids Hcs Hp Hcl]. split; cbn; [by apply om_set_sorted|..|done|done].
  - intros id d [[= -> ->]|Hin]%om_set_elem; [lia|]. apply Hids in Hin. lia.
  - intros id d [[= -> ->]|Hin]%om_set_elem; [done|]. by eapply Hcs.
Qed.

Lemma new_connection_inv role t client alive s :
  wt_ok t → cl_errorNotified client = false → server_inv s → server_inv (add_connection (new_conn role t client alive) s).
Proof. intros Ht He. destruct (new_conn_ok role t client alive Ht He). by apply add_connection_inv. Qed.

Lemma CreateConnection_inv o s : accepted_ok o → server_inv s → server_inv (CreateConnection o s).
Proof.
  intros Ho Hs. destruct o as [t|]; cbn; [by apply new_connection_inv|]. destruct Hs as [Hs Hids Hcs Hp Hcl]. split; try done.
  cbn. intros id c Hin. apply Hids in Hin. lia.
Qed.

Lemma DrainPendingConnects_inv s : server_inv s → server_inv (DrainPendingConnects s).
Proof.
  intros Hs. unfold DrainPendingConnects. destruct Hs as [Hs Hids Hcs Hp Hcl].
  assert (server_inv (mkWsServer (sv_inited s) (sv_nextConnId s) (sv_connections s) (sv_recentlyClosed s) [])) as H0 by (by split; cbn).
  revert H0. generalize (mkWsServer (sv_inited s) (sv_nextConnId s) (sv_connections s) (sv_recentlyClosed s) []). clear -Hp HN HK.
  induction Hp as [|r rs Hr _ IH]; intros s0 H0; cbn [foldl]; [done|]. apply IH. by apply new_connection_inv.
Qed.

Lemma accept_all_inv l s : Forall accepted_ok l → server_inv s → server_inv (foldl (λ s t, CreateConnection t s) s l).
Proof. intros Hl. revert s. induction Hl; intros s Hs; cbn [foldl]; [done|]. auto using CreateConnection_inv. Qed.

(** In the middle of a round: some connections are to be closed. *)
Record round_inv (todo toClose : list Z) s : Prop := {
  ri_sorted : om_sorted (sv_connections s);
  ri_ids : ∀ id c, (id, c) ∈ sv_connections s → id <= sv_nextConnId s;
  ri_conns : ∀ id c, (id, c) ∈ sv_connections s → live c ∧ (id ∈ toClose ∨ reader_ok (ws_reader c)) ∧ (id ∈ todo → reader_ok (ws_reader c));
  ri_pending : Forall (λ r, wt_ok (pc_transport r)) (sv_pendingConnects s);
  ri_closed : Forall closed_well (sv_recentlyClosed s);
}.

Lemma dispatch_all_inv ids polled toClose s :
  NoDup ids → round_inv ids toClose s → ∃ s' l, dispatch_all handlers ids polled toClose s = Got (s', l) ∧ round_inv [] l s'.
Proof.
  revert toClose s. induction ids as [|id ids IH]; intros toClose s Hnd Hi; [by exists s, toClose|]. cbn [dispatch_all].
  apply NoDup_cons in Hnd as [Hnew Hnd]. destruct Hi as [Hs Hids Hcs Hp Hcl].
  destruct (om_find id (sv_connections s)) as [c|] eqn:Ef.
  2:{ apply IH; [done|]. split; try done. intros j d Hin. destruct (Hcs _ _ Hin) as (? & ? & Ht). split_and!; [done|done|].
      intros Hj. apply Ht. by right. }
  destruct (Hcs id c) as ((Hci & Hin) & _ & Hrd); [by apply om_find_elem|].
  destruct (dispatch_conn_reads (polled id) c Hci) as (c1 & b & -> & (Hro & Hin1 & _ & Hrd1 & Hi1 & _) & Hb); [apply Hrd; by left|].
  cbn [cbind fst snd]. apply IH; [done|]. split; cbn; [by apply om_set_sorted|..|done|done].
  - intros j d [[= -> ->]|Hj]%om_set_elem; [apply Hids with c; by apply om_find_elem|by eapply Hids].
  - intros j d [[= -> ->]|Hj]%om_set_elem.
    + split; [by split; [|congruence]|]. split; [|done]. destruct Hrd1 as [Hc1|]; [|by right]. left. rewrite (Hb Hc1). apply os_insert_elem. by left.
    + destruct (Hcs _ _ Hj) as (H1 & H2 & H3). split; [done|]. split; [|intros; apply H3; by right].
      destruct H2 as [H2|]; [|by right]. left. destruct b; [apply os_insert_elem; by right|done].
Qed.

Lemma check_all_inv timeout elapsed l s : round_inv [] l s → round_inv [] l (check_all timeout elapsed s).
Proof.
  intros [Hs Hids Hcs Hp Hcl]. split; cbn; try done.
  - unfold om_sorted. rewrite <- list_fmap_compose. cbn. exact Hs.
  - intros id c ([j d] & [= -> ->] & Hin)%list_elem_of_fmap. by eapply Hids.
  - intros id c ([j d] & [= -> ->] & Hin)%list_elem_of_fmap. destruct (Hcs _ _ Hin) as ([Hi Hii] & Hr & _).
    pose proof (check_opening_goes timeout (elapsed j) d) as Hg. destruct (go_inv _ _ Hg Hi) as [Hi' _].
    split; [split; [done|by rewrite (go_inited _ _ Hg)]|]. split; [|by intros ?%elem_of_nil]. destruct Hr as [|Hr]; [by left|]. right. by apply Hg.
Qed.

Lemma close_all_inv l s :
  round_inv [] l s →
  server_inv (foldl CloseConnection s l) ∧
  ∀ id c, (id, c) ∈ sv_connections (foldl CloseConnection s l) → (id, c) ∈ sv_connections s ∧ id ∉ l.
Proof.
  revert s. induction l as [|j l IH]; intros s [Hs Hids Hcs Hp Hcl]; cbn [foldl].
  { split; [split; try done; intros id c Hin; destruct (Hcs _ _ Hin) as (? & [[]%elem_of_nil|?] & _); done|].
    intros id c Hin. split; [done|apply not_elem_of_nil]. }
  assert (round_inv [] l (CloseConnection s j) ∧ ∀ id c, (id, c) ∈ sv_connections (CloseConnection s j) → (id, c) ∈ sv_connections s ∧ id ≠ j) as [Hi Hmem].
  { unfold CloseConnection. destruct (om_find j (sv_connections s)) as [d|] eqn:Ef.
    - assert (∀ id c, (id, c) ∈ om_erase j (sv_connections s) → (id, c) ∈ sv_connections s ∧ id ≠ j) as He by (intros ? ?; apply om_erase_elem).
      split; [|done]. split; cbn; [by apply om_erase_sorted| | |done|].
      + intros id c [Hin _]%He. by eapply Hids.
      + intros id c [Hin Hne]%He. destruct (Hcs _ _ Hin) as (H1 & [H2|H2] & _); (split_and!; [done| |by intros ?%elem_of_nil]); [|by right].
        apply elem_of_cons in H2 as [?|]; [done|by left].
      + apply Forall_app. split; [done|]. apply Forall_singleton, close_conn_well. apply om_find_elem in Ef. by apply Hcs in Ef as [? _].
    - assert (∀ id c, (id, c) ∈ sv_connections s → id ≠ j) as Hne by (intros id c Hin ->; apply om_elem_find in Hin; [congruence|done]).
      split; [|by eauto]. split; try done. intros id c Hin. destruct (Hcs _ _ Hin) as (H1 & [H2|H2] & _); (split_and!; [done| |by intros ?%elem_of_nil]); [|by right].
      apply elem_of_cons in H2 as [?|]; [by apply Hne in Hin|by left]. }
  destruct (IH _ Hi) as [Hinv Hall]. split; [done|]. intros id c Hin. destruct (Hall _ _ Hin) as [Hin' Hl]. destruct (Hmem _ _ Hin') as [Hin'' Hne].
  split; [done|]. by apply not_elem_of_cons.
Qed.

Lemma ids_nodup (m : list (Z * WsConn T P)) : om_sorted m → NoDup m.*1.
Proof.
  unfold om_sorted. induction 1 as [|x l _ IH Hx]; [constructor|]. constructor; [|done].
  intros Hin. rewrite Forall_forall in Hx. specialize (Hx x Hin). lia.
Qed.

Lemma fold_insert_elem (xs l : list Z) y : y ∈ foldl (λ l id, os_insert id l) l xs ↔ y ∈ xs ∨ y ∈ l.
Proof.
  revert l. induction xs as [|x xs IH]; intros l; cbn [foldl]; [set_solver|]. rewrite IH, os_insert_elem. set_solver.
Qed.

Lemma round_inv_more l l' s : round_inv [] l s → (∀ id, id ∈ l → id ∈ l') → round_inv [] l' s.
Proof.
  intros [Hs Hids Hcs Hp Hcl] Hl. split; try done. intros id c Hin. destruct (Hcs _ _ Hin) as (? & [?|?] & ?); auto.
Qed.

(** A round closes what is finished, and keeps the invariant. *)
Lemma server_round_ok r s :
  Forall accepted_ok (pr_accepted r) → server_inv s →
  ∃ s', server_round handlers r s = Got s' ∧ server_inv s'
    ∧ (sv_inited s = true → pr_ok r = true → ∀ id c, om_find id (sv_connections s') = Some c → IsFinished c = false).
Proof.
  intros Ha Hi. unfold server_round. destruct (sv_inited s) eqn:Hin; cbn [negb]; [|by eexists].
  set (s1 := DrainPendingConnects _). assert (server_inv s1) as H1.
  { apply DrainPendingConnects_inv. destruct Hi as [Hs Hids Hcs Hp Hcl]. by split. }
  destruct (pr_ok r); cbn [negb]; [|by eexists]. set (s2 := foldl _ s1 _). assert (server_inv s2) as H2 by (by apply accept_all_inv).
  destruct (dispatch_all_inv (sv_connections s1).*1 (pr_polled r) [] s2) as (s3 & l & -> & H3).
  { apply ids_nodup, H1. }
  { destruct H2 as [Hs Hids Hcs Hp Hcl]. split; try done. intros id c Hc. destruct (Hcs _ _ Hc). auto. }
  cbn [cbind fst snd]. set (s4 := check_all _ _ s3). set (l' := foldl _ l _). pose proof (check_all_inv (pr_timeout r) (pr_elapsed r) _ _ H3) as H4.
  destruct (close_all_inv l' s4) as [H5 Hmem].
  { eapply round_inv_more; [exact H4|]. intros id Hid. apply fold_insert_elem. by right. }
  eexists. split; [done|]. split; [done|]. intros _ _ id c Hf. apply om_find_elem, Hmem in Hf as [Hc Hl].
  destruct (IsFinished c) eqn:Ef; [|done]. exfalso. apply Hl, fold_insert_elem. left. unfold finished_ids. apply list_elem_of_omap.
  exists (id, c). cbn. by rewrite Ef.
Qed.

Lemma call_connection_inv id call s :
  call_ok call → server_inv s → ∃ s', call_connection id call s = Got s' ∧ server_inv s'.
Proof.
  intros Hk Hi. unfold call_connection. destruct (om_find id (sv_connections s)) as [c|] eqn:Ef; [|by eexists].
  destruct Hi as [Hs Hids Hcs Hp Hcl]. apply om_find_elem in Ef. destruct (Hcs _ _ Ef) as [[Hci Hii] Hr].
  destruct (call_conn_goes call c Hk Hci) as (c1 & -> & Hg). cbn [cbind]. eexists. split; [done|].
  destruct (go_inv _ _ Hg Hci) as [Hi1 _]. split; cbn; [by apply om_set_sorted|..|done|done].
  - intros j d [[= -> ->]|Hj]%om_set_elem; by eapply Hids.
  - intros j d [[= -> ->]|Hj]%om_set_elem; [|by eapply Hcs]. split; [split; [done|by rewrite (go_inited _ _ Hg)]|by apply Hg].
Qed.

Lemma Connect_inv e url alive headers s :
  (∀ tls a port t, ce_socket e tls a port = Some t → wt_ok t) → server_inv s →
  ∃ b s', Connect e url alive headers s = Got (b, s') ∧ server_inv s'.
Proof.
  intros He Hi. unfold Connect. destruct (sv_inited s) eqn:Hin; cbn [negb]; [|by eexists _, _].
  pose proof (ParseWsUrl_safe url) as Hs. destruct (ParseWsUrl url) as [| |t]; [done|by eexists _, _|]. cbv zeta.
  case_bool_decide; [by eexists _, _|]. destruct (_ && _); [by eexists _, _|].
  destruct (omap _ _) as [|tr l] eqn:Eo; [by eexists _, _|]. eexists _, _. split; [done|]. unfold push_connect. rewrite Hin.
  destruct Hi. split; try done. cbn. apply Forall_app. split; [done|]. apply Forall_singleton. cbn.
  assert (tr ∈ tr :: l) as Htr by apply list_elem_of_here. rewrite <- Eo in Htr. apply list_elem_of_omap in Htr as (a & _ & Ha). by apply He in Ha.
Qed.

Lemma server_run_ok ops s : Forall server_op_ok ops → server_inv s → ∃ s', server_run ops s = Got s' ∧ server_inv s'.
Proof.
  intros Hops. revert s. induction Hops as [|op ops Hop _ IH]; intros s Hi; [by eexists|]. destruct op as [r|id call|e url alive headers|]; cbn [server_run].
  - destruct (server_round_ok r s Hop Hi) as (s1 & -> & H1 & _). by apply IH.
  - destruct (call_connection_inv id call s Hop Hi) as (s1 & -> & H1). by apply IH.
  - destruct (Connect_inv e url alive headers s Hop Hi) as (b & s1 & -> & H1). by apply IH.
  - apply IH. unfold server_End. case_match; [|done]. split; cbn; try done; [apply om_sorted_nil|by intros ? ? ?%elem_of_nil..].
Qed.

(** C31. The WebSocket server never faults.  Whatever connections are accepted, whatever URLs are asked for, whatever
    octets arrive in whatever pieces, whatever the transports and the HTTP parser do, whatever other
    threads call on the connections between the rounds: no call dereferences a null pointer or goes
    outside of a header, a frame or a pong, and the loops end.  In every state reached a connection of
    the server is open and was not told [onClose]; a connection that was closed in the last round was
    shut down and its listener, if it is an outgoing one and still has a listener, was told so; the
    next round leaves no connection that is finished. *)
Theorem websocket_server_is_safe ops :
  Forall server_op_ok ops →
  ∃ s, server_run ops new_ws_server = Got s
    ∧ (∀ id c, om_find id (sv_connections s) = Some c → ws_inited c = true ∧ onClose ∉ ws_calls c ∧ id <= sv_nextConnId s)
    ∧ (∀ c, c ∈ sv_recentlyClosed s →
         ws_inited c = false ∧ (ws_role c = WsClient → ws_listening c = true → told_the_end (ws_calls c)))
    ∧ (∀ r, Forall accepted_ok (pr_accepted r) → pr_ok r = true → sv_inited s = true →
         ∃ s', server_round handlers r s = Got s' ∧ ∀ id c, om_find id (sv_connections s') = Some c → IsFinished c = false).
Proof.
  intros Hops. destruct (server_run_ok ops new_ws_server Hops) as (s & -> & Hi).
  { split; cbn; try done; [apply om_sorted_nil|by intros ? ? ?%elem_of_nil..]. }
  exists s. split; [done|]. pose proof Hi as [Hs Hids Hcs Hp Hcl]. split_and!.
  - intros id c Hf%om_find_elem. destruct (Hcs _ _ Hf) as [[Hci Hii] _]. split_and!; [done|apply Hci|by eapply Hids].
  - intros c Hc. rewrite Forall_forall in Hcl. by apply Hcl.
  - intros r Ha Hok Hin. destruct (server_round_ok r s Ha Hi) as (s' & Hr & _ & Hf). eauto.
Qed.

(** [poll] never sleeps past the end of an opening. *)
Lemma poll_wakes_in_time timeout elapsed s id c :
  (id, c) ∈ sv_connections s → 0 <= GetOpeningTimeLeft timeout (elapsed id) c →
  0 <= GetPollTimeout timeout elapsed s <= GetOpeningTimeLeft timeout (elapsed id) c.
Proof.
  unfold GetPollTimeout. generalize (sv_connections s) (-1). intros m.
  induction m as [|[j d] m IH] using rev_ind; intros t Hin Hl; [by apply elem_of_nil in Hin|].
  rewrite foldl_app. cbn [foldl fst snd]. set (u := foldl _ t m) in *. apply elem_of_app in Hin as [Hin|Hin%list_elem_of_singleton].
  - specialize (IH t Hin Hl). fold u in IH. repeat case_match; ztests; try lia.
  - simplify_eq. rewrite (proj2 (Z.ltb_ge _ 0)) by lia. destruct (_ || _) eqn:E; [lia|]. ztests. lia.
Qed.
End Invariant.

(** ** Retries *)

Lemma scan_attempts_elem now expired l a k :
  a ∈ l → expired (at_listener a) = false →
  let sc := scan_attempts now expired k l in if at_dueMs a <=? now then a ∈ sc.1.1 else a ∈ sc.1.2.
Proof.
  intros Hin He. revert k. induction l as [|x l IH]; intros k; [by apply elem_of_nil in Hin|]. cbn [scan_attempts].
  apply elem_of_cons in Hin as [<-|Hin].
  - rewrite He. destruct (at_dueMs a <=? now); destruct (scan_attempts _ _ _ l) as [[due kept] sl]; by left.
  - destruct (expired (at_listener x)); [by apply IH|]. destruct (at_dueMs x <=? now).
    + specialize (IH Hin k). destruct (scan_attempts now expired k l) as [[due kept] sl]. cbn in *. case_match; [by right|done].
    + match goal with |- context [scan_attempts now expired ?k' l] => specialize (IH Hin k') end.
      destruct (scan_attempts now expired _ l) as [[due kept] sl]. cbn in *. case_match; [done|by right].
Qed.

(** An attempt whose listener is there stays until it is due, and then until [Connect] succeeds. *)
Lemma attempts_are_kept now expired connects later r a :
  a ∈ rt_attempts r → expired (at_listener a) = false → (at_dueMs a <= now → connects a = false) →
  ∃ b, b ∈ rt_attempts (retry_pass now expired connects later r).1 ∧ at_id b = at_id a ∧ at_url b = at_url a
    ∧ at_listener b = at_listener a ∧ at_retryMs b = at_retryMs a.
Proof.
  intros Hin He Hc. unfold retry_pass. pose proof (scan_attempts_elem now expired (rt_attempts r) a 1000 Hin He) as Hs. cbv zeta in Hs.
  set (sc := scan_attempts now expired 1000 (rt_attempts r)) in *.
  destruct sc as [[due kept] sl]. cbn [fst snd rt_attempts] in *. destruct (Z.leb_spec (at_dueMs a) now) as [Hd|Hd].
  - eexists. split; [apply elem_of_app; right; apply list_elem_of_fmap; exists a; split; [done|]|done].
    apply list_elem_of_In, filter_In. split; [by apply list_elem_of_In|]. by rewrite Hc.
  - exists a. split; [|done]. apply elem_of_app. by left.
Qed.

(** ** Concrete runs *)

Section Samples.
#[local] Instance server_wire_ops : WireOps := network_order.
#[local] Instance server_more_wire_ops : MoreWireOps := network_order_more.
#[local] Instance server_crypto_ops : WsCrypto := sample_crypto.

(** A peer that answers 101 and then a text. *)
Definition answering : PlainTransport :=
  mkPlain true [] [ReadOctets (answer (octets "101 Switching Protocols") ++ [129; 1; 104])] [Wrote 1000; Wrote 1000; Wrote 1000; Wrote 1000] [].

Definition sample_life : list LifeOp :=
  [LRound (mkPolled false true false false) 10000 5; LRound (mkPolled false false true false) 10000 20;
   LCall (CallSendText (octets "bye")); LRound (mkPolled false true false false) 10000 30; LCall CallClose;
   LRound (mkPolled false false false false) 10000 40].

Lemma client_is_told_witness :
  ∃ c, life [] sample_life (ws_InitClient answering (octets "h") (octets "/") true []) = Got (c, true)
    ∧ ws_calls c = [onOpen; onMessageStart Text 1; onMessageData [104]; onMessageEnd; onWakeupNeeded; onWakeupNeeded; onClose]
    ∧ told_the_end (ws_calls c).
Proof.
  destruct (client_is_told (HN := network_order_is) (HK := sample_crypto_laws) (HX := plain_transport_laws) (HL := http_parser_laws) []
    answering (octets "h") (octets "/") [] sample_life) as (c & b & Hc & _ & Ht).
  - by repeat constructor.
  - by repeat constructor.
  - exists c. set (r := life [] sample_life (ws_InitClient answering (octets "h") (octets "/") true [])) in Hc.
    assert (match r with Got x => (ws_calls x.1, x.2, ws_listening x.1) | _ => ([], false, false) end =
      ([onOpen; onMessageStart Text 1; onMessageData [104]; onMessageEnd; onWakeupNeeded; onWakeupNeeded; onClose], true, true)) as Hr
      by (vm_compute; reflexivity).
    rewrite Hc in Hr. cbn [fst snd] in Hr. injection Hr as H1 H2 H3. subst b. split; [exact Hc|]. split; [exact H1|]. by apply Ht.
Defined.

Definition sample_server_ops : list ServerOp :=
  [SConnect (mkConnectEnv (λ _, [AddrV4 [192; 0; 2; 1]]) (λ _, true) (λ _ _ _, Some answering)) (octets "ws://h") true [];
   SRound (mkPollResults true [Some (mkPlain true [] [ReadOctets [1; 2; 3]] [] []); None] (λ _, mkPolled false true false false) (λ _, 5) 10000);
   SRound (mkPollResults true [] (λ _, mkPolled false false true false) (λ _, 20) 10000);
   SCall 1 (CallSendBinary [1; 2; 3]); SCall 1 (CallCloseWith 1000 (octets "done"));
   SRound (mkPollResults true [] (λ _, mkPolled false true false false) (λ _, 30) 10000);
   SRound (mkPollResults true [] (λ _, mkPolled false true false false) (λ _, 40) 10000)].

Lemma websocket_server_is_safe_witness :
  ∃ s, server_run [] sample_server_ops new_ws_server = Got s ∧ (sv_connections s).*1 = [2]
    ∧ ws_calls <$> sv_recentlyClosed s = [[onOpen; onMessageStart Text 1; onMessageData [104]; onMessageEnd; onWakeupNeeded; onWakeupNeeded; onClose]]
    ∧ ∀ c, c ∈ sv_recentlyClosed s → ws_inited c = false ∧ (ws_role c = WsClient → ws_listening c = true → told_the_end (ws_calls c)).
Proof.
  destruct (websocket_server_is_safe (HN := network_order_is) (HK := sample_crypto_laws) (HX := plain_transport_laws) (HL := http_parser_laws) [] sample_server_ops)
    as (s & Hs & _ & Hc & _).
  - constructor; [|by repeat constructor]. intros tls a port t [= <-]. by repeat constructor.
  - exists s. set (r := server_run [] sample_server_ops new_ws_server) in Hs.
    assert (match r with Got s => ((sv_connections s).*1, ws_calls <$> sv_recentlyClosed s) | _ => ([], []) end =
      ([2], [[onOpen; onMessageStart Text 1; onMessageData [104]; onMessageEnd; onWakeupNeeded; onWakeupNeeded; onClose]])) as Hr
      by (vm_compute; reflexivity).
    rewrite Hs in Hr. injection Hr as H1 H2. split; [exact Hs|]. split; [exact H1|]. split; [exact H2|exact Hc].
Defined.
End Samples.
